(* ===== verification/_CoqProject ===== *)
-Q . S2P
Prelude.v
PyFloat.v
Json.v
Telemetry.v
QueueState.v
Priority.v
RetryPolicy.v
CircuitBreaker.v
Admission.v
Authorization.v
ContextBudget.v
JobEvents.v
Submission.v
QueueStore.v
Queue.v
QueueTheory.v
Recovery.v
QueueSystem.v
Reliability.v
PyStr.v
Ordering.v
EvidencePolicy.v
Subject.v
Scoring.v
Constraints.v
Ranking.v
TaskProfile.v
EvidenceStore.v
EvidenceImport.v
EvidenceRebind.v
EvidenceReads.v
Candidates.v
Explanation.v
ReliabilityService.v
Feedback.v
Routing.v
RoutingStore.v
Validation.v
Dialogue.v
Generation.v
Execution.v
Raises.v
Bystanders.v
Runtime.v
Worker.v
WorkerTheory.v
WorkerSystem.v
Scheduler.v
SchedulerTheory.v
Residency.v
ClaimLoop.v
Retention.v
Registry.v
Adapters.v
Access.v
Limits.v
Schema.v
Config.v
Settings.v
Providers.v
Fetch.v
Endpoints.v
Jobs.v
