(* ===== verification/Prelude.v ===== *)
(** * LoadCoach: a verification library

    LoadCoach (src/src/loadcoach) accepts generation requests, queues them, chooses the model that should
    serve each one, runs it on a provider and records what happened.  This library models its services as
    executable Gallina functions and proves what they promise.  Names follow the source; each file's own
    header names the Python module it models.

    ** The program and the files

    - Ground: [Prelude] (exceptions as the type [exn], the [result] monad, stable sorting, shared tactics and
      hints), [PyFloat] (binary64 as integers in units of 2^-1074, with rounding), [PyStr], [Json] (Python
      data), [Ordering] (sorting and grouping by keys), [Telemetry] (the interface to device snapshots).
    - Policies of domain/: [QueueState] (the state machine), [Priority], [RetryPolicy], [CircuitBreaker],
      [Admission], [Authorization], [ContextBudget], [Reliability], [EvidencePolicy], [Validation].
    - The queue: [Submission] (the request codec), [JobEvents] (the event table, sequences, live replay),
      [QueueStore] (the jobs table, transactions, the compare-and-set [move]), [Queue] (every operation of
      services/queue.py and the reservation of services/execution.py), [QueueTheory] (what each promises),
      [Recovery] (startup recovery), [QueueSystem] (all of them interleaved).
    - Routing: [Subject], [Scoring], [Constraints], [Ranking], [Explanation] (domain/routing), [TaskProfile],
      [Candidates] (what routing reads), [Routing] (the pipeline of services/routing.py), [RoutingStore] (its
      rows).
    - Evidence: [EvidenceStore] (services/evidence.py), with its theory in [EvidenceImport],
      [EvidenceRebind] and [EvidenceReads].
    - Statistics: [ReliabilityService], [Feedback].
    - Execution: [Dialogue] (programs that act on shared state and ask the rest of the world, with their runs
      under any interference and a logic for them), [Generation] (one provider call of
      services/execution.py: request, stream, checks, record), [Execution] (the synchronous path: candidates,
      attempts, rows, [execute]), [Raises] (which exceptions a part can raise), [Bystanders] (every operation
      of the queue respects a lease), [Runtime] (the in-flight registry, flags, snapshot and breaker refresh of
      services/worker.py), [Worker] (the processing of one claimed job), [WorkerTheory] and [WorkerSystem] (its
      promises, beside everybody else), [ClaimLoop] (the worker's loop around it), [Scheduler] and
      [SchedulerTheory] (the periodic chores), [Residency] (services/residency.py: what is loaded where),
      [Retention] (services/retention.py).
    - Registries: [Registry] (services/models.py: discovery, retirement, the operator's switch, manual scores),
      [Adapters] (the directory of reviewed manifests and services/adapters.py), [Providers]
      (infrastructure/providers/factory.py and services/providers.py: what is registered, and editing it).
    - Settings: [Schema] (the models of config.py with their bounds), [Config] (its layers, their merge and the
      refusals at startup), [Settings] (services/settings.py: what may change at run time, and how it takes
      effect).
    - The edge: [Endpoints] (web/routes/generate.py and jobs.py: what a body becomes, and the thread behind a
      stream), [Jobs] (the document of a job and the listing of services/queue.py), [Access] (services/tokens.py and web/auth.py: who a request speaks for), [Limits]
      (web/rate_limit.py and web/limits.py), [Fetch] (infrastructure/freeweight_client.py).

    ** How the parts meet

    A submission is encoded into a row by [Queue.enqueue] and decoded by [Queue.claim]; every later change of
    the row's state is [QueueStore.transition], fenced on the state it leaves and on the lease, inside one
    transaction with its event; only a synchronous execution assigns its own row directly ([Execution.persist]).  [QueueSystem.qstep] is one committed operation of any of the actors;
    theorems about reachable worlds quantify over all interleavings of them.  Routing reads the registry, the
    evidence store and the statistics through [Candidates]; the statistics are what [ReliabilityService]
    folds from the attempts.  The documents [Config] merges are validated by [Schema]; [Settings] writes over the
    result at run time, and [Providers] edits the file the next start reads.  Discovery ([Registry]) and the
    directory ([Adapters]) re-bind evidence through [EvidenceRebind] in their own transactions.

    ** Modelling choices

    State is passed explicitly: a [prog S A] is a function from a state to a state and a [result A]; the
    state survives a raise, and a transaction ([sink_write]) restores the tables when its body raises.
    Instants and durations are microseconds; rates and scores are binary64 with the rounding of each
    operation; integers are unbounded, as in Python.  An exception carries the fields a caller dispatches on,
    not its message.  Tables are finite maps under their key, or lists in the order their query states.
    Third-party packages (baseaicore, modelrack, mirrorwall, setspec, sweatmeter, SQL date arithmetic,
    hashing, json.loads, re) are type classes with the operations the source uses; a [...Laws] class holds
    the documented behaviour a theorem relies on, and a concrete instance backs each witness.

    ** The theorems

    In the order of the manifest: the queue's invariants over every interleaving and what each operation
    does on every branch; recovery, ageing and event numbering; the codec's round trip; the breaker and the
    statistics; what evidence binds to and which measurement scores; the hard constraints, the ranking and
    the routing decision end to end, with what is recorded of it; the task profiles; the evidence importer;
    output validation; the refresh of statistics and feedback;
    a worker writes under its lease only, settles every job it claims and outlives it, the scheduler keeps the
    leases of running jobs and is one of the actors the worker was proved against, a synchronous execution
    settles its row, no model in use is unloaded, and what the retention sweep removes; then what discovery,
    the reading of the adapter directory, the configuration's layers, the runtime settings and the edits of
    registrations leave on every branch, who may call and how often, how much of a body is read, and which
    hosts a fetch may reach; last, what a caller's transcript becomes, that every stream ends once, and that the
    document of a job restates its answer.  Statements that the code does less
    than its documentation says are proved the same way and listed as findings.

    ** Bounds and fuel

    Recursion is structural on data except for: the client loops of [EvidenceReads], [JobEvents.drain] and
    [Jobs.walk_jobs], whose fuel theorems say how much is enough; the redirects of [Fetch.follow], whose fuel is one
    request more than the policy's redirects ([fetch_guarded] shows it never runs out); [PyStr.strip], whose fuel is the length of the string;
    the loops over attempts and candidates of [Worker] ([worker_settles] shows the fuel given is enough), and
    the endless loop of [ClaimLoop], whose fuel is the number of turns a theorem speaks about.

    ** Not modelled

    FastAPI's routing and the pages of the web application; the wait of a repeated POST /generate for the execution
    that holds its key, and the SSE encoding of the event streams; the command line; the health, doctor and dashboard
    reports and the live telemetry streams, which only read; database engines, the schema's migrations and
    locking, beyond the order and atomicity of committed transactions; the readers of TOML, of envelopes and of
    manifests, which are third-party; rendered prose (explanations' narrative, drafts of manifests, the
    configuration reference, problem sentences, log lines).  Real time appears only as the instants a caller
    passes. *)

From stdpp Require Export base tactics numbers option list strings gmap sets pretty.
From Stdlib Require Export ZArith Lia Sorted.

#[local] Open Scope Z_scope.

(** ** Exceptions and the result monad

    The Python exceptions the modelled code raises, one constructor each, carrying the parts of
    the exception a caller dispatches on.  Message text is not modelled. *)
Inductive exn :=
| ValidationError (field : string)
| ValidationErrors (fields : list string)
| IllegalTransition (current target : string)
| TransitionRefused (job_id current target : string)
| JobNotFound (job_id : string)
| JobNotCancellable (job_id state : string)
| QueueFull (active limit : Z)
| TaskProfileNotFound (task : string)
| TaskProfileInvalid (profile_id problem : string)
| ManualScoreInvalid (index : Z) (problem : string)
| InsufficientScope (required held : string)
| SchemaUnsupported (keywords : list string)
| ConstraintsNotTightening (fields : list string)
| AdapterNotFound (adapter : string) (known : list string)
| NoEligibleModel (decision_id : string) (reasons : list (string * string))
| EvidenceImportFailed (field : string)
| EvidenceSchemaVersionUnsupported (accepted : list Z)
| AttemptRefused (job_id : string) (attempt : Z)
| AllCandidatesFailed (job_id : string)
| ProfileMismatched
| RegexError
| OtherException (code : option string)
| ValueError
| TypeError
| ZeroDivisionError
| OverflowError
| AttributeError
| IndexError
| KeyError
| AssertionError
| IntegrityError.

#[export] Instance exn_eq_dec : EqDecision exn.
Proof. solve_decision. Defined.

Inductive result (A : Type) : Type :=
| Ok (a : A)
| Raise (e : exn).
Arguments Ok {_} _.
Arguments Raise {_} _.

#[export] Instance result_ret : MRet result := fun _ a => Ok a.
#[export] Instance result_bind : MBind result :=
  fun _ _ f m => match m with Ok a => f a | Raise e => Raise e end.
#[export] Instance result_fmap : FMap result :=
  fun _ _ f m => match m with Ok a => Ok (f a) | Raise e => Raise e end.

Definition is_ok {A} (r : result A) : bool :=
  match r with Ok _ => true | Raise _ => false end.

Lemma bind_Ok_inv {A B} (m : result A) (f : A -> result B) (b : B) :
  (m ≫= f) = Ok b -> exists a, m = Ok a /\ f a = Ok b.
Proof. destruct m as [a|e]; cbn; [by exists a | done]. Qed.

Lemma bind_Ok {A B} (a : A) (f : A -> result B) : (Ok a ≫= f) = f a.
Proof. reflexivity. Qed.

Lemma bind_Raise {A B} (e : exn) (f : A -> result B) : (Raise e ≫= f) = Raise e.
Proof. reflexivity. Qed.

(** [guard_raise b e]: [if b: raise e]. *)
Definition guard_raise (b : bool) (e : exn) : result unit :=
  if b then Raise e else Ok tt.

(** ** Booleans and options *)

(** Python's [x or default] on an optional integer: [None] and [0] both select the default. *)
Definition or_int (x : option Z) (default : Z) : Z :=
  match x with Some v => if v =? 0 then default else v | None => default end.

(** Python's [x or y] on an optional string: [None] and [""] both select [y]. *)
Definition or_str (x : option string) (y : string) : string :=
  match x with Some s => if bool_decide (s = ""%string) then y else s | None => y end.

(** ** Tactics *)

(** Case on the first [if]/[match] discriminee of the goal, keeping the equation. *)
Ltac case_goal :=
  match goal with
  | |- context [match ?x with _ => _ end] => destruct x eqn:?
  end.

(** The same in a hypothesis. *)
Ltac case_hyp H :=
  match type of H with
  | context [match ?x with _ => _ end] => destruct x eqn:?
  end.

(** Turn boolean comparisons into propositions for [lia]. *)
Ltac bool_to_prop :=
  repeat match goal with
  | H : (_ && _)%bool = true |- _ => apply andb_true_iff in H; destruct H
  | H : (_ || _)%bool = false |- _ => apply orb_false_iff in H; destruct H
  | H : negb _ = true |- _ => apply negb_true_iff in H
  | H : negb _ = false |- _ => apply negb_false_iff in H
  | H : (_ =? _) = true |- _ => apply Z.eqb_eq in H
  | H : (_ =? _) = false |- _ => apply Z.eqb_neq in H
  | H : (_ <? _) = true |- _ => apply Z.ltb_lt in H
  | H : (_ <? _) = false |- _ => apply Z.ltb_ge in H
  | H : (_ <=? _) = true |- _ => apply Z.leb_le in H
  | H : (_ <=? _) = false |- _ => apply Z.leb_gt in H
  | H : bool_decide _ = true |- _ => apply bool_decide_eq_true in H
  | H : bool_decide _ = false |- _ => apply bool_decide_eq_false in H
  end.

(** ** Lists: stable insertion sort, Python's [sorted] and [max]

    CPython's [sorted] is a stable sort; a stable sort by a total preorder is unique, so insertion
    sort computes the same list. *)
Section sort.
Context {A : Type} (leb : A -> A -> bool).

Fixpoint insert_sorted (x : A) (l : list A) : list A :=
  match l with
  | [] => [x]
  | y :: l' => if leb x y then x :: l else y :: insert_sorted x l'
  end.

Fixpoint py_sorted (l : list A) : list A :=
  match l with
  | [] => []
  | x :: l' => insert_sorted x (py_sorted l')
  end.

Lemma insert_sorted_perm x l : insert_sorted x l ≡ₚ x :: l.
Proof.
  induction l as [|y l IH]; cbn; [done|].
  destruct (leb x y); [done|]. rewrite IH. apply Permutation_swap.
Qed.

Lemma py_sorted_perm l : py_sorted l ≡ₚ l.
Proof.
  induction l as [|x l IH]; cbn; [done|]. by rewrite insert_sorted_perm, IH.
Qed.

Lemma py_sorted_length l : length (py_sorted l) = length l.
Proof. apply Permutation_length, py_sorted_perm. Qed.

Lemma elem_of_py_sorted x l : x ∈ py_sorted l <-> x ∈ l.
Proof. by rewrite py_sorted_perm. Qed.

Context (leb_total : forall x y, leb x y = true \/ leb y x = true).
Context (leb_trans : forall x y z, leb x y = true -> leb y z = true -> leb x z = true).

Let R x y := leb x y = true.

Lemma insert_sorted_Sorted x l :
  StronglySorted R l -> StronglySorted R (insert_sorted x l).
Proof using leb_total leb_trans.
  induction 1 as [|y l Hs IH Hy]; cbn; [repeat constructor|].
  destruct (leb x y) eqn:E.
  - constructor; [by constructor|]. constructor; [done|].
    eapply Forall_impl; [exact Hy|]. intros z Hz. by eapply leb_trans.
  - constructor; [done|]. rewrite Forall_forall in Hy |- *.
    intros z Hz. rewrite insert_sorted_perm in Hz.
    apply elem_of_cons in Hz as [->|Hz].
    + destruct (leb_total x y); [congruence|done].
    + by apply Hy.
Qed.

Lemma py_sorted_Sorted l : StronglySorted R (py_sorted l).
Proof using leb_total leb_trans.
  induction l; cbn; [constructor|]. by apply insert_sorted_Sorted.
Qed.
End sort.

(** Python's [max(l, key=...)]: the first maximal element. *)
Fixpoint py_max_from {A} (ltb : A -> A -> bool) (best : A) (l : list A) : A :=
  match l with
  | [] => best
  | x :: l' => py_max_from ltb (if ltb best x then x else best) l'
  end.

(** [dict.fromkeys(l)] as a list: duplicates dropped, first occurrence kept. *)
Fixpoint dedup_keep_first {A} `{EqDecision A} (seen : list A) (l : list A) : list A :=
  match l with
  | [] => []
  | x :: l' => if bool_decide (x ∈ seen) then dedup_keep_first seen l'
               else x :: dedup_keep_first (seen ++ [x]) l'
  end.

Definition sumZ (l : list Z) : Z := foldr Z.add 0 l.

Definition zlen {A} (l : list A) : Z := Z.of_nat (length l).

Definition countb {A} (p : A -> bool) (l : list A) : Z := Z.of_nat (length (List.filter p l)).

Lemma countb_nonneg {A} (p : A -> bool) l : 0 <= countb p l.
Proof. unfold countb. lia. Qed.

Lemma countb_le_length {A} (p : A -> bool) l : countb p l <= Z.of_nat (length l).
Proof. unfold countb. induction l; cbn; [lia|]. destruct (p a); cbn; lia. Qed.

Lemma elem_of_filter_bool {A} (p : A -> bool) l x : x ∈ List.filter p l <-> x ∈ l /\ p x = true.
Proof. rewrite !list_elem_of_In. apply List.filter_In. Qed.

Lemma NoDup_map_inj {A B} (f : A -> B) (l : list A) x y : NoDup (map f l) -> x ∈ l -> y ∈ l -> f x = f y -> x = y.
Proof.
  intros Hn Hx Hy E. apply list_elem_of_lookup in Hx as [i Hi], Hy as [j Hj].
  assert (i = j) as <-; [|congruence]. apply (NoDup_lookup (map f l) i j (f x) Hn); rewrite list_lookup_fmap;
    [by rewrite Hi|by rewrite Hj, E].
Qed.

Lemma filter_perm {A} (p : A -> bool) l k : l ≡ₚ k -> List.filter p l ≡ₚ List.filter p k.
Proof.
  induction 1 as [|x l k _ IH|x y l|l k m _ IH1 _ IH2]; cbn; [done|destruct (p x); [by constructor|done]| |by etransitivity].
  destruct (p x), (p y); try done. apply Permutation_swap.
Qed.

Lemma countb_mono {A} (p q : A -> bool) l :
  (forall x, p x = true -> q x = true) -> countb p l <= countb q l.
Proof.
  unfold countb. intros Hpq. induction l as [|x l IH]; cbn; [lia|].
  destruct (p x) eqn:Ep; [rewrite (Hpq _ Ep); cbn; lia|]. destruct (q x); cbn; lia.
Qed.

Create HintDb loadcoach.
#[export] Hint Resolve countb_nonneg countb_le_length : loadcoach.
