(* ===== verification/PyFloat.v ===== *)
(** * Python floats

    An IEEE binary64 number is an integer multiple of 2^-1074, so a finite Python [float] is
    represented by that integer: the type [f64] below is [Z] read in units of 2^-1074.  Equality and
    order of floats are then equality and order of integers, and every arithmetic operation is the
    exact rational result followed by [fround], round-to-nearest-even to 53 significant bits with
    the subnormal floor, the rounding CPython's operators perform.

    The representation covers the finite values.  An operation whose rounded result reaches 2^1024
    would be an infinity in CPython; [finite] names the values below it, and the bounds theorems
    place the quantities of this program far inside.  The two zeros are identified: no operation of
    this program distinguishes them. *)

From S2P Require Import Prelude.
#[local] Open Scope Z_scope.

Definition f64 := Z.

(** 1.0 in units of 2^-1074. *)
Definition fone : f64 := 2 ^ 1074.

Definition finite (x : f64) : Prop := Z.abs x < 2 ^ 2098.

(** ** Rounding *)

(** The integer nearest to [n / d] (with [0 < d]), ties to even: the rounding mode of binary64 and
    of Python's [round]. *)
Definition round_half_even (n d : Z) : Z :=
  let q := n / d in
  let r := n mod d in
  match 2 * r ?= d with
  | Lt => q
  | Gt => q + 1
  | Eq => if Z.even q then q else q + 1
  end.

(** The exponent of the unit in the last place of a value [n / d >= 0]. *)
Definition ulp_exp (n d : Z) : Z := Z.max 0 (Z.log2 (n / d) - 52).

Definition fround_pos (n d : Z) : f64 :=
  let k := ulp_exp n d in
  round_half_even n (d * 2 ^ k) * 2 ^ k.

(** The binary64 number nearest to the rational [n / d], in units of 2^-1074 on both sides. *)
Definition fround (n d : Z) : f64 := Z.sgn n * fround_pos (Z.abs n) d.

(** [x] is a value binary64 represents (exponent overflow apart). *)
Definition repr (x : f64) : Prop := fround x 1 = x.

(** ** Operations *)

Definition fadd (x y : f64) : f64 := fround (x + y) 1.
Definition fsub (x y : f64) : f64 := fround (x - y) 1.
Definition fmul (x y : f64) : f64 := fround (x * y) fone.

(** [x / y] for [y <> 0]; the callers guard the zero divisor, as the code does. *)
Definition fdiv (x y : f64) : f64 := fround (Z.sgn y * x * fone) (Z.abs y).

(** [float(n)], and the conversion of an [int] operand of a mixed operation. *)
Definition of_int (n : Z) : f64 := fround (n * fone) 1.

(** [a / b] on two [int]s: Python rounds the exact quotient once. *)
Definition int_div (a b : Z) : f64 := fround (Z.sgn b * a * fone) (Z.abs b).

(** A decimal literal [n / d]. *)
Definition flit (n d : Z) : f64 := fround (n * fone) d.

(** [math.floor], [math.ceil], [int]. *)
Definition ffloor (x : f64) : Z := x / fone.
Definition fceil (x : f64) : Z := - ((- x) / fone).
Definition ftrunc (x : f64) : Z := Z.quot x fone.

(** [math.sqrt]: the integer square root carries 537 bits or more, and the sticky bit decides the
    rounding of an inexact root. *)
Definition fsqrt (x : f64) : f64 :=
  let n := x * fone in
  let s := Z.sqrt n in
  fround (2 * s + (if s * s =? n then 0 else 1)) 2.

(** [timedelta(seconds=x)] in microseconds: CPython splits off the integral seconds, scales the
    fraction and rounds half-even to a microsecond. *)
Definition timedelta_us (x : f64) : Z :=
  let whole := ftrunc x in
  whole * 1000000 + round_half_even (fmul (of_int 1000000) (x - whole * fone)) fone.

(** [timedelta(hours=x)], the same algorithm with an hour's microseconds as the factor. *)
Definition timedelta_hours_us (x : f64) : Z :=
  let whole := ftrunc x in
  whole * 3600000000 + round_half_even (fmul (of_int 3600000000) (x - whole * fone)) fone.

(** [td.total_seconds()] for a [timedelta] of [us] microseconds. *)
Definition total_seconds (us : Z) : f64 := int_div us 1000000.

(** [sum()] over floats.  CPython (3.12 on) adds the first element to the initial [0] and then runs
    Neumaier's compensated summation. *)
Fixpoint neumaier (s c : f64) (l : list f64) : f64 * f64 :=
  match l with
  | [] => (s, c)
  | x :: l' =>
      let t := fadd s x in
      let c' := if Z.abs x <=? Z.abs s then fadd c (fadd (fsub s t) x)
                else fadd c (fadd (fsub x t) s) in
      neumaier t c' l'
  end.

Definition py_sum (l : list f64) : f64 :=
  match l with
  | [] => 0
  | x :: l' => let '(s, c) := neumaier x 0 l' in if c =? 0 then s else fadd s c
  end.

(** ** Facts: round_half_even *)

Lemma rhe_bounds n d : 0 < d -> n / d <= round_half_even n d <= n / d + 1.
Proof.
  intros Hd. unfold round_half_even.
  destruct (2 * (n mod d) ?= d); [destruct (Z.even (n / d))|..]; lia.
Qed.

Lemma rhe_exact n d : 0 < d -> (d | n) -> round_half_even n d = n / d.
Proof.
  intros Hd Hdiv. unfold round_half_even.
  apply Z.mod_divide in Hdiv; [|lia]. rewrite Hdiv, Z.mul_0_r.
  by replace (0 ?= d) with Lt by (symmetry; by apply Z.compare_lt_iff).
Qed.

(** [n1/d1 <= n2/d2] is stated by cross-multiplication. *)
Lemma rhe_mono n1 d1 n2 d2 :
  0 < d1 -> 0 < d2 -> n1 * d2 <= n2 * d1 ->
  round_half_even n1 d1 <= round_half_even n2 d2.
Proof.
  intros Hd1 Hd2 Hle.
  assert (Hq : n1 / d1 <= n2 / d2).
  { apply Z.div_le_lower_bound; [lia|].
    pose proof (Z.mul_div_le n1 d1 Hd1). nia. }
  pose proof (rhe_bounds n1 d1 Hd1). pose proof (rhe_bounds n2 d2 Hd2).
  destruct (Z.eq_dec (n1 / d1) (n2 / d2)) as [Heq|]; [|lia].
  pose proof (Z.div_mod n1 d1 ltac:(lia)). pose proof (Z.div_mod n2 d2 ltac:(lia)).
  assert (Hr : (n1 mod d1) * d2 <= (n2 mod d2) * d1) by nia.
  unfold round_half_even. rewrite Heq.
  destruct (Z.compare_spec (2 * (n1 mod d1)) d1), (Z.compare_spec (2 * (n2 mod d2)) d2);
    try (destruct (Z.even _)); try lia; exfalso; nia.
Qed.

(** ** Facts: fround *)

Lemma fone_pos : 0 < fone.
Proof. apply Z.pow_pos_nonneg; lia. Qed.

Lemma ulp_exp_nonneg n d : 0 <= ulp_exp n d.
Proof. unfold ulp_exp. lia. Qed.

Lemma pow2_pos k : 0 <= k -> 0 < 2 ^ k.
Proof. intros. apply Z.pow_pos_nonneg; lia. Qed.

(** A value with unit exponent [k] lies below 2^(53+k). *)
Lemma ulp_exp_upper n d : 0 <= n -> 0 < d -> n < d * 2 ^ (53 + ulp_exp n d).
Proof.
  intros Hn Hd. unfold ulp_exp.
  set (q := n / d). assert (Hq : 0 <= q) by (apply Z.div_pos; lia).
  assert (Hlt : q < 2 ^ (53 + Z.max 0 (Z.log2 q - 52))).
  { destruct (Z.eq_dec q 0) as [->|]; [apply pow2_pos; lia|].
    apply Z.log2_lt_pow2; lia. }
  pose proof (Z.mul_succ_div_gt n d Hd). fold q in H. nia.
Qed.

(** A value with a positive unit exponent [k] reaches 2^(52+k). *)
Lemma ulp_exp_lower n d :
  0 <= n -> 0 < d -> 0 < ulp_exp n d -> d * 2 ^ (52 + ulp_exp n d) <= n.
Proof.
  intros Hn Hd Hk. unfold ulp_exp in *.
  set (q := n / d) in *.
  assert (Hq : 0 < q) by (destruct (Z.log2_null q); lia).
  assert (Hle : 2 ^ (52 + Z.max 0 (Z.log2 q - 52)) <= q).
  { apply Z.log2_le_pow2; lia. }
  pose proof (Z.mul_div_le n d Hd). fold q in H. nia.
Qed.

Lemma ulp_exp_mono n1 d1 n2 d2 :
  0 <= n1 -> 0 < d1 -> 0 < d2 -> n1 * d2 <= n2 * d1 -> ulp_exp n1 d1 <= ulp_exp n2 d2.
Proof.
  intros. unfold ulp_exp.
  assert (n1 / d1 <= n2 / d2).
  { apply Z.div_le_lower_bound; [lia|]. pose proof (Z.mul_div_le n1 d1 ltac:(lia)). nia. }
  pose proof (Z.log2_le_mono _ _ H3). lia.
Qed.

Lemma fround_pos_le_pow n d :
  0 <= n -> 0 < d -> fround_pos n d <= 2 ^ (53 + ulp_exp n d).
Proof.
  intros Hn Hd. unfold fround_pos. set (k := ulp_exp n d).
  pose proof (ulp_exp_upper n d Hn Hd) as Hup. fold k in Hup.
  pose proof (ulp_exp_nonneg n d) as Hk. fold k in Hk.
  pose proof (pow2_pos k Hk). rewrite Z.pow_add_r in * by lia.
  assert (round_half_even n (d * 2 ^ k) <= round_half_even (2 ^ 53) 1).
  { apply rhe_mono; lia || nia. }
  rewrite (rhe_exact (2 ^ 53) 1), Z.div_1_r in H0 by (lia || apply Z.divide_1_l). nia.
Qed.

Lemma fround_pos_ge_pow n d :
  0 <= n -> 0 < d -> 0 < ulp_exp n d -> 2 ^ (52 + ulp_exp n d) <= fround_pos n d.
Proof.
  intros Hn Hd Hk. unfold fround_pos. pose proof (ulp_exp_lower n d Hn Hd Hk) as Hlo.
  set (k := ulp_exp n d) in *.
  pose proof (pow2_pos k ltac:(lia)). rewrite Z.pow_add_r in * by lia.
  assert (round_half_even (2 ^ 52) 1 <= round_half_even n (d * 2 ^ k)).
  { apply rhe_mono; lia || nia. }
  rewrite (rhe_exact (2 ^ 52) 1), Z.div_1_r in H0 by (lia || apply Z.divide_1_l). nia.
Qed.

Lemma fround_pos_mono n1 d1 n2 d2 :
  0 <= n1 -> 0 < d1 -> 0 < d2 -> n1 * d2 <= n2 * d1 -> fround_pos n1 d1 <= fround_pos n2 d2.
Proof.
  intros Hn1 Hd1 Hd2 Hle.
  assert (Hn2 : 0 <= n2) by nia.
  pose proof (ulp_exp_mono n1 d1 n2 d2 Hn1 Hd1 Hd2 Hle) as Hk.
  destruct (Z.eq_dec (ulp_exp n1 d1) (ulp_exp n2 d2)) as [Heq|Hne].
  - unfold fround_pos. rewrite Heq. pose proof (pow2_pos _ (ulp_exp_nonneg n2 d2)).
    apply Z.mul_le_mono_nonneg_r; [lia|]. apply rhe_mono; nia.
  - pose proof (ulp_exp_nonneg n1 d1).
    etransitivity; [by apply fround_pos_le_pow|].
    etransitivity; [|apply fround_pos_ge_pow; lia].
    apply Z.pow_le_mono_r; lia.
Qed.

Lemma fround_pos_nonneg n d : 0 <= n -> 0 < d -> 0 <= fround_pos n d.
Proof.
  intros Hn Hd. unfold fround_pos. pose proof (pow2_pos _ (ulp_exp_nonneg n d)).
  pose proof (rhe_bounds n (d * 2 ^ ulp_exp n d) ltac:(nia)).
  pose proof (Z.div_pos n (d * 2 ^ ulp_exp n d) Hn ltac:(nia)). nia.
Qed.

Lemma fround_nonneg_eq n d : 0 <= n -> 0 < d -> fround n d = fround_pos n d.
Proof.
  intros Hn Hd. unfold fround. rewrite Z.abs_eq by done.
  destruct (Z.eq_dec n 0) as [->|]; [|rewrite Z.sgn_pos; lia].
  unfold fround_pos, ulp_exp. rewrite Z.div_0_l by lia. cbn.
  by rewrite Z.mul_1_r, Z.mul_1_r, rhe_exact, Z.div_0_l by (lia || apply Z.divide_0_r).
Qed.

Lemma fround_opp n d : fround (- n) d = - fround n d.
Proof. unfold fround. rewrite Z.abs_opp, Z.sgn_opp. lia. Qed.

Lemma fround_0 d : fround 0 d = 0.
Proof. reflexivity. Qed.

Lemma fround_nonneg n d : 0 <= n -> 0 < d -> 0 <= fround n d.
Proof. intros. rewrite fround_nonneg_eq by done. by apply fround_pos_nonneg. Qed.

(** Rounding is monotone: [n1/d1 <= n2/d2] implies [fround n1 d1 <= fround n2 d2]. *)
Lemma fround_mono n1 d1 n2 d2 :
  0 < d1 -> 0 < d2 -> n1 * d2 <= n2 * d1 -> fround n1 d1 <= fround n2 d2.
Proof.
  intros Hd1 Hd2 Hle.
  destruct (Z_le_gt_dec 0 n1).
  - rewrite !fround_nonneg_eq by nia. apply fround_pos_mono; lia.
  - assert (E1 : fround n1 d1 = - fround (- n1) d1) by (rewrite fround_opp; lia).
    pose proof (fround_nonneg (- n1) d1 ltac:(lia) Hd1).
    destruct (Z_le_gt_dec 0 n2).
    + pose proof (fround_nonneg n2 d2 ltac:(lia) Hd2). lia.
    + assert (E2 : fround n2 d2 = - fround (- n2) d2) by (rewrite fround_opp; lia).
      rewrite E1, E2, !fround_nonneg_eq by lia.
      pose proof (fround_pos_mono (- n2) d2 (- n1) d1 ltac:(lia) Hd2 Hd1 ltac:(nia)). lia.
Qed.

(** ** Representable values *)

Lemma repr_fix n k : 0 <= n -> 0 <= k -> ulp_exp n 1 <= k -> (2 ^ k | n) -> repr n.
Proof.
  intros Hn Hk Hle Hdiv. unfold repr. rewrite fround_nonneg_eq by lia.
  unfold fround_pos. pose proof (ulp_exp_nonneg n 1) as H0.
  assert (Hd : (2 ^ ulp_exp n 1 | n)).
  { etransitivity; [|exact Hdiv]. exists (2 ^ (k - ulp_exp n 1)).
    rewrite <- Z.pow_add_r by lia. f_equal. lia. }
  rewrite Z.mul_1_l, rhe_exact by (done || by apply pow2_pos).
  destruct Hd as [m Hm]. rewrite Hm at 1.
  rewrite Z.div_mul by (pose proof (pow2_pos _ H0); lia). lia.
Qed.

(** [m * 2^k] with a 53-bit [m] is representable, and so is the carry [2^53 * 2^k]. *)
Lemma repr_scaled m k : 0 <= m <= 2 ^ 53 -> 0 <= k -> repr (m * 2 ^ k).
Proof.
  intros Hm Hk. pose proof (pow2_pos k Hk) as Hp.
  destruct (Z.eq_dec m (2 ^ 53)) as [->|Hne].
  - apply (repr_fix _ (53 + k)); [nia|lia| |rewrite Z.pow_add_r by lia; reflexivity].
    rewrite <- Z.pow_add_r by lia. unfold ulp_exp.
    rewrite Z.div_1_r, Z.log2_pow2 by lia. lia.
  - destruct (Z.eq_dec m 0) as [->|]; [reflexivity|].
    apply (repr_fix _ k); [nia|lia| |by exists m].
    unfold ulp_exp. rewrite Z.div_1_r.
    assert (Z.log2 (m * 2 ^ k) < 53 + k).
    { apply Z.log2_lt_pow2; [nia|]. rewrite Z.pow_add_r by lia. nia. }
    lia.
Qed.

Lemma repr_opp x : repr x -> repr (- x).
Proof. unfold repr. rewrite fround_opp. lia. Qed.

Lemma repr_0 : repr 0.
Proof. reflexivity. Qed.

Lemma repr_fround_pos n d : 0 <= n -> 0 < d -> repr (fround_pos n d).
Proof.
  intros Hn Hd. pose proof (fround_pos_le_pow n d Hn Hd) as Hle.
  unfold fround_pos in *. pose proof (ulp_exp_nonneg n d) as Hk.
  pose proof (pow2_pos _ Hk) as Hp. rewrite Z.pow_add_r in Hle by lia.
  apply repr_scaled; [|done]. split; [|nia].
  pose proof (rhe_bounds n (d * 2 ^ ulp_exp n d) ltac:(nia)).
  pose proof (Z.div_pos n (d * 2 ^ ulp_exp n d) Hn ltac:(nia)). lia.
Qed.

(** Every rounded result is representable: [fround] is idempotent. *)
Lemma repr_fround n d : 0 < d -> repr (fround n d).
Proof.
  intros Hd. unfold fround. pose proof (repr_fround_pos (Z.abs n) d ltac:(lia) Hd) as Hr.
  destruct (Z.sgn_spec n) as [[_ ->]|[[_ ->]|[_ ->]]].
  - by rewrite Z.mul_1_l.
  - apply repr_0.
  - replace (-1 * fround_pos (Z.abs n) d) with (- fround_pos (Z.abs n) d) by lia.
    by apply repr_opp.
Qed.

(** Integers up to 2^53 convert exactly. *)
Lemma repr_int n : Z.abs n <= 2 ^ 53 -> repr (n * fone).
Proof.
  intros Hn. unfold fone. destruct (Z_le_gt_dec 0 n).
  - apply repr_scaled; lia.
  - replace (n * 2 ^ 1074) with (- ((- n) * 2 ^ 1074)) by lia.
    apply repr_opp, repr_scaled; lia.
Qed.

Lemma repr_one : repr fone.
Proof. rewrite <- (Z.mul_1_l fone). apply repr_int. lia. Qed.

(** A dyadic fraction [m / 2^j] with a 53-bit numerator is exact. *)
Lemma repr_dyadic m j : 0 <= m <= 2 ^ 53 -> 0 <= j <= 1074 -> repr (m * 2 ^ (1074 - j)).
Proof. intros. apply repr_scaled; lia. Qed.

(** ** Rounding preserves representable bounds

    The workhorse: a bound that is itself a float survives rounding. *)

Lemma fround_le_repr n d b : 0 < d -> repr b -> n <= b * d -> fround n d <= b.
Proof.
  intros Hd Hb Hle. transitivity (fround b 1); [apply fround_mono; lia|]. by rewrite Hb.
Qed.

Lemma fround_ge_repr n d b : 0 < d -> repr b -> b * d <= n -> b <= fround n d.
Proof.
  intros Hd Hb Hle. transitivity (fround b 1); [by rewrite Hb|apply fround_mono; lia].
Qed.

Lemma fround_repr_eq n d b : 0 < d -> repr b -> n = b * d -> fround n d = b.
Proof.
  intros. apply Z.le_antisymm; [apply fround_le_repr|apply fround_ge_repr]; done || lia.
Qed.

(** ** The operations *)

Lemma repr_fadd x y : repr (fadd x y).
Proof. apply repr_fround. lia. Qed.
Lemma repr_fsub x y : repr (fsub x y).
Proof. apply repr_fround. lia. Qed.
Lemma repr_fmul x y : repr (fmul x y).
Proof. apply repr_fround, fone_pos. Qed.
Lemma repr_of_int n : repr (of_int n).
Proof. apply repr_fround. lia. Qed.
Lemma repr_int_div a b : b <> 0 -> repr (int_div a b).
Proof. intros. apply repr_fround. lia. Qed.
Lemma repr_fdiv x y : y <> 0 -> repr (fdiv x y).
Proof. intros. apply repr_fround. lia. Qed.
Lemma repr_flit n d : 0 < d -> repr (flit n d).
Proof. intros. by apply repr_fround. Qed.

Lemma fadd_mono x1 y1 x2 y2 : x1 <= x2 -> y1 <= y2 -> fadd x1 y1 <= fadd x2 y2.
Proof. intros. apply fround_mono; lia. Qed.

Lemma fsub_mono x1 y1 x2 y2 : x1 <= x2 -> y2 <= y1 -> fsub x1 y1 <= fsub x2 y2.
Proof. intros. apply fround_mono; lia. Qed.

Lemma fmul_mono x1 y1 x2 y2 :
  0 <= x1 <= x2 -> 0 <= y1 <= y2 -> fmul x1 y1 <= fmul x2 y2.
Proof.
  intros. apply fround_mono; try apply fone_pos.
  apply Z.mul_le_mono_nonneg_r; [pose proof fone_pos; lia|]. nia.
Qed.

Lemma fmul_nonneg x y : 0 <= x -> 0 <= y -> 0 <= fmul x y.
Proof. intros. apply fround_nonneg; [nia|apply fone_pos]. Qed.

Lemma fadd_nonneg x y : 0 <= x -> 0 <= y -> 0 <= fadd x y.
Proof. intros. apply fround_nonneg; lia. Qed.

(** A product with a factor at most one does not exceed the other factor. *)
Lemma fmul_le_l x y : repr x -> 0 <= x -> y <= fone -> fmul x y <= x.
Proof. intros. apply fround_le_repr; [apply fone_pos|done|nia]. Qed.

Lemma fmul_unit x y : 0 <= x <= fone -> 0 <= y <= fone -> 0 <= fmul x y <= fone.
Proof.
  intros. split; [apply fmul_nonneg; lia|].
  apply fround_le_repr; [apply fone_pos|apply repr_one|nia].
Qed.

Lemma fmul_one_l y : repr y -> fmul fone y = y.
Proof. intros. apply fround_repr_eq; [apply fone_pos|done|lia]. Qed.

Lemma fmul_one_r x : repr x -> fmul x fone = x.
Proof. intros. apply fround_repr_eq; [apply fone_pos|done|lia]. Qed.

Lemma fmul_0_l y : fmul 0 y = 0.
Proof. reflexivity. Qed.

Lemma fmul_0_r x : fmul x 0 = 0.
Proof. unfold fmul. by rewrite Z.mul_0_r. Qed.

Lemma fadd_0_r x : repr x -> fadd x 0 = x.
Proof. intros Hx. unfold fadd. by rewrite Z.add_0_r. Qed.

Lemma fsub_diag x : fsub x x = 0.
Proof. unfold fsub. by rewrite Z.sub_diag. Qed.

(** An exact sum is returned unchanged. *)
Lemma fadd_exact x y : repr (x + y) -> fadd x y = x + y.
Proof. done. Qed.
Lemma fsub_exact x y : repr (x - y) -> fsub x y = x - y.
Proof. done. Qed.

Lemma of_int_exact n : Z.abs n <= 2 ^ 53 -> of_int n = n * fone.
Proof. intros. by apply repr_int. Qed.

Lemma of_int_mono a b : a <= b -> of_int a <= of_int b.
Proof. intros. apply fround_mono; pose proof fone_pos; nia. Qed.

Lemma of_int_nonneg n : 0 <= n -> 0 <= of_int n.
Proof. intros. apply fround_nonneg; pose proof fone_pos; nia. Qed.

Lemma int_div_pos_eq a b : 0 < b -> int_div a b = fround (a * fone) b.
Proof. intros. unfold int_div. rewrite Z.sgn_pos, Z.abs_eq by lia. f_equal; lia. Qed.

Lemma int_div_nonneg a b : 0 <= a -> 0 < b -> 0 <= int_div a b.
Proof.
  intros. rewrite int_div_pos_eq by done. apply fround_nonneg; [pose proof fone_pos; nia|done].
Qed.

(** A ratio of counts is a rate. *)
Lemma int_div_unit a b : 0 <= a <= b -> 0 < b -> 0 <= int_div a b <= fone.
Proof.
  intros. split; [apply int_div_nonneg; lia|]. rewrite int_div_pos_eq by done.
  apply fround_le_repr; [done|apply repr_one|pose proof fone_pos; nia].
Qed.

Lemma int_div_mono a1 b1 a2 b2 :
  0 < b1 -> 0 < b2 -> a1 * b2 <= a2 * b1 -> int_div a1 b1 <= int_div a2 b2.
Proof.
  intros. rewrite !int_div_pos_eq by done. apply fround_mono; [done..|].
  pose proof fone_pos. nia.
Qed.

Lemma fdiv_pos_eq x y : 0 < y -> fdiv x y = fround (x * fone) y.
Proof. intros. unfold fdiv. rewrite Z.sgn_pos, Z.abs_eq by lia. f_equal; lia. Qed.

Lemma fdiv_nonneg x y : 0 <= x -> 0 < y -> 0 <= fdiv x y.
Proof.
  intros. rewrite fdiv_pos_eq by done. apply fround_nonneg; [pose proof fone_pos; nia|done].
Qed.

Lemma fdiv_unit x y : 0 <= x <= y -> 0 < y -> 0 <= fdiv x y <= fone.
Proof.
  intros. split; [apply fdiv_nonneg; lia|]. rewrite fdiv_pos_eq by done.
  apply fround_le_repr; [done|apply repr_one|pose proof fone_pos; nia].
Qed.

Lemma fdiv_mono x1 x2 y : 0 < y -> x1 <= x2 -> fdiv x1 y <= fdiv x2 y.
Proof.
  intros. rewrite !fdiv_pos_eq by done. apply fround_mono; [done..|].
  pose proof fone_pos. do 2 (apply Z.mul_le_mono_nonneg_r; [lia|]). done.
Qed.

(** ** Floor, ceiling, timedelta *)

Lemma ffloor_mono x y : x <= y -> ffloor x <= ffloor y.
Proof. intros. apply Z.div_le_mono; [apply fone_pos|done]. Qed.

Lemma ffloor_int n : ffloor (n * fone) = n.
Proof. apply Z.div_mul. pose proof fone_pos. lia. Qed.

Lemma ffloor_nonneg x : 0 <= x -> 0 <= ffloor x.
Proof. intros. apply Z.div_pos; [done|apply fone_pos]. Qed.

Lemma ffloor_lower n x : n * fone <= x -> n <= ffloor x.
Proof. intros. rewrite <- (ffloor_int n). by apply ffloor_mono. Qed.

Lemma fceil_spec x n : fceil x <= n <-> x <= n * fone.
Proof.
  unfold fceil. pose proof fone_pos. split; intros Hn.
  - pose proof (Z.mul_div_le (- x) fone ltac:(lia)). nia.
  - enough (- n <= - x / fone) by lia. apply Z.div_le_lower_bound; nia.
Qed.

(** A whole number of seconds is a whole number of microseconds. *)
Lemma timedelta_us_int n : timedelta_us (n * fone) = n * 1000000.
Proof.
  unfold timedelta_us, ftrunc. rewrite Z.quot_mul by (pose proof fone_pos; lia).
  rewrite Z.sub_diag, fmul_0_r. rewrite rhe_exact by (apply fone_pos || apply Z.divide_0_r).
  rewrite Z.div_0_l by (pose proof fone_pos; lia). lia.
Qed.

#[export] Hint Resolve fone_pos repr_one repr_0 repr_fadd repr_fsub repr_fmul repr_of_int
  fmul_nonneg fadd_nonneg of_int_nonneg : loadcoach.

(** ** Concrete values *)

Example fadd_inexact : fadd (flit 1 10) (flit 2 10) <> flit 3 10.
Proof. vm_compute. discriminate. Qed.

Example flit_tenth : flit 1 10 = 3602879701896397 * 2 ^ (1074 - 55).
Proof. vm_compute. reflexivity. Qed.

Example py_sum_tenths : py_sum (replicate 10 (flit 1 10)) = fone.
Proof. vm_compute. reflexivity. Qed.

Example fsqrt_two : fsqrt (2 * fone) = 6369051672525773 * 2 ^ (1074 - 52).
Proof. vm_compute. reflexivity. Qed.

#[global] Opaque fone.
