(* ===== verification/Json.v ===== *)
(** * JSON-like Python values

    The plain data the services exchange: what [json.loads] returns and what the [*_json] columns
    and explanation mappings hold.  A [dict] is an association list in insertion order with unique
    keys; [bool] is a subclass of [int], so [isinstance(x, int)] accepts both. *)

From S2P Require Import Prelude PyFloat.
#[local] Open Scope Z_scope.

#[warnings="-register-all"]
Inductive json :=
| JNull
| JBool (b : bool)
| JInt (z : Z)
| JFloat (f : f64)
| JStr (s : string)
| JArr (l : list json)
| JObj (l : list (string * json)).

(** [d[k]] on an association list: the first binding. *)
Fixpoint assoc {A} (k : string) (l : list (string * A)) : option A :=
  match l with
  | [] => None
  | (k', v) :: l' => if bool_decide (k = k') then Some v else assoc k l'
  end.

(** [x.get(k)]: only a mapping has the method. *)
Definition py_get (x : json) (k : string) : result json :=
  match x with
  | JObj l => Ok (default JNull (assoc k l))
  | _ => Raise AttributeError
  end.

Definition is_mapping (x : json) : bool := match x with JObj _ => true | _ => false end.

(** [bool(x)]. *)
Definition truthy (x : json) : bool :=
  match x with
  | JNull => false
  | JBool b => b
  | JInt z => negb (z =? 0)
  | JFloat f => negb (f =? 0)
  | JStr s => negb (bool_decide (s = ""%string))
  | JArr l => match l with [] => false | _ => true end
  | JObj l => match l with [] => false | _ => true end
  end.

(** [x or {}]. *)
Definition or_empty (x : json) : json := if truthy x then x else JObj [].

(** The value of [x] when [isinstance(x, int)]. *)
Definition as_int (x : json) : option Z :=
  match x with
  | JInt z => Some z
  | JBool b => Some (if b then 1 else 0)
  | _ => None
  end.

Definition as_str (x : json) : option string :=
  match x with JStr s => Some s | _ => None end.

(** [d.get(k) == s] for a string [s], and [d.get(k) is True]. *)
Definition get_is_str (k s : string) (l : list (string * json)) : bool :=
  match assoc k l with Some (JStr v) => bool_decide (v = s) | _ => false end.

Definition get_is_true (k : string) (l : list (string * json)) : bool :=
  match assoc k l with Some (JBool true) => true | _ => false end.

Lemma assoc_elem {A} k (v : A) l : assoc k l = Some v -> (k, v) ∈ l.
Proof.
  induction l as [|[k' v'] l IH]; cbn; [done|]. case_bool_decide; intros H'; simplify_eq.
  - left.
  - right. auto.
Qed.

Lemma assoc_is_Some {A} k (l : list (string * A)) : is_Some (assoc k l) <-> k ∈ l.*1.
Proof.
  induction l as [|[k' v'] l IH]; cbn.
  - split; [by intros [? ?]|]. intros H. by apply not_elem_of_nil in H.
  - rewrite elem_of_cons, <- IH. case_bool_decide as Hk; [subst|].
    + split; [by left|]. intros _. by eexists.
    + split; [by right|]. by intros [?|?].
Qed.
