(* ===== verification/Telemetry.v ===== *)
(** * Telemetry values: the interface to SweatMeter and BaseAICore

    A device quantity is a [Measurement] of the [baseaicore] package: an integer or the
    [UNSUPPORTED] sentinel, told apart by [is_supported].  The package is third-party, so the type
    and the test are a class, with the behaviour the code relies on as its laws; the snapshot
    records carry the fields the code reads. *)

From S2P Require Import Prelude.
#[local] Open Scope Z_scope.

Class Measurement (M : Type) := {
  is_supported : M -> bool;
  UNSUPPORTED : M;
  to_int : M -> Z;
  from_int : Z -> M
}.

Class MeasurementLaws (M : Type) `{Measurement M} : Prop := {
  unsupported_law : is_supported UNSUPPORTED = false;
  from_int_supported : forall z, is_supported (from_int z) = true;
  to_from_int : forall z, to_int (from_int z) = z
}.

(** One device of [TelemetrySnapshot.gpus]. *)
Record Gpu (M : Type) := mkGpu {
  gpu_index : Z;
  vram_used_bytes : M;
  vram_total_bytes : M
}.
Arguments mkGpu {M} _ _ _.
Arguments gpu_index {M} _.
Arguments vram_used_bytes {M} _.
Arguments vram_total_bytes {M} _.

Record TelemetrySnapshot (M : Type) := mkSnapshot {
  gpus : list (Gpu M);
  ram_available_bytes : M
}.
Arguments mkSnapshot {M} _ _.
Arguments gpus {M} _.
Arguments ram_available_bytes {M} _.

(** A concrete measurement type, for evaluation. *)
#[export] Instance option_measurement : Measurement (option Z) := {|
  is_supported m := bool_decide (is_Some m);
  UNSUPPORTED := None;
  to_int m := default 0 m;
  from_int := Some
|}.

#[export] Instance option_measurement_laws : MeasurementLaws (option Z).
Proof. by split. Qed.
