(* ===== verification/QueueState.v ===== *)
(** * The job state machine ([domain/queue_state.py])

    The eleven states, the state groups, the normative transition table, and the three derived
    decisions: what a state may move to, where recovery moves a job, what a cancel request does.
    The frozensets of the source are lists here; membership is the only thing the code asks. *)

From S2P Require Import Prelude.

(** [JobState]: every state a job can be in. *)
Inductive JobState :=
| QUEUED | LEASED | ADMITTED | WAITING_RESOURCES | EXECUTING | VALIDATING | RETRYING
| CANCELLING | COMPLETED | FAILED | CANCELLED.

#[export] Instance JobState_eq_dec : EqDecision JobState.
Proof. solve_decision. Defined.

Definition all_states : list JobState :=
  [QUEUED; LEASED; ADMITTED; WAITING_RESOURCES; EXECUTING; VALIDATING; RETRYING; CANCELLING;
   COMPLETED; FAILED; CANCELLED].

(** The stored spelling, [state.value]. *)
Definition state_value (s : JobState) : string :=
  match s with
  | QUEUED => "queued"
  | LEASED => "leased"
  | ADMITTED => "admitted"
  | WAITING_RESOURCES => "waiting_resources"
  | EXECUTING => "executing"
  | VALIDATING => "validating"
  | RETRYING => "retrying"
  | CANCELLING => "cancelling"
  | COMPLETED => "completed"
  | FAILED => "failed"
  | CANCELLED => "cancelled"
  end.

(** [JobState(value)]: the lookup by stored spelling, a [ValueError] for anything else. *)
Definition state_of_value (v : string) : result JobState :=
  match list_find (fun s => state_value s = v) all_states with
  | Some (_, s) => Ok s
  | None => Raise ValueError
  end.

Definition TERMINAL_STATES : list JobState := [COMPLETED; FAILED; CANCELLED].

Definition WAITING_STATES : list JobState := [QUEUED; WAITING_RESOURCES].

Definition LEASE_HOLDING_STATES : list JobState :=
  [LEASED; ADMITTED; EXECUTING; VALIDATING; RETRYING].

Definition IN_FLIGHT_STATES : list JobState := LEASE_HOLDING_STATES ++ [CANCELLING].

Definition ACTIVE_STATES : list JobState := WAITING_STATES ++ IN_FLIGHT_STATES.

Definition CANCELLABLE_STATES : list JobState := ACTIVE_STATES.

(** Every legal [(current, target)] pair. *)
Definition TRANSITIONS : list (JobState * JobState) :=
  [(QUEUED, LEASED);
   (LEASED, ADMITTED);
   (LEASED, WAITING_RESOURCES);
   (LEASED, CANCELLING);
   (WAITING_RESOURCES, QUEUED);
   (ADMITTED, EXECUTING);
   (EXECUTING, VALIDATING);
   (VALIDATING, COMPLETED);
   (VALIDATING, RETRYING);
   (EXECUTING, RETRYING);
   (RETRYING, ADMITTED);
   (EXECUTING, CANCELLING);
   (VALIDATING, CANCELLING);
   (ADMITTED, CANCELLING);
   (QUEUED, CANCELLED);
   (WAITING_RESOURCES, CANCELLED);
   (CANCELLING, CANCELLED);
   (EXECUTING, FAILED);
   (VALIDATING, FAILED);
   (QUEUED, FAILED);
   (WAITING_RESOURCES, FAILED);
   (LEASED, QUEUED);
   (LEASED, FAILED);
   (EXECUTING, QUEUED);
   (ADMITTED, QUEUED);
   (ADMITTED, FAILED);
   (VALIDATING, QUEUED);
   (RETRYING, QUEUED);
   (RETRYING, FAILED);
   (RETRYING, CANCELLING)].

Definition is_legal (current target : JobState) : bool :=
  bool_decide ((current, target) ∈ TRANSITIONS).

Definition check_transition (current target : JobState) : result unit :=
  if negb (is_legal current target)
  then Raise (IllegalTransition (state_value current) (state_value target))
  else Ok tt.

Definition successors (state : JobState) : list JobState :=
  (List.filter (fun e => bool_decide (e.1 = state)) TRANSITIONS).*2.

(** Where lease expiry or startup recovery moves a job. *)
Definition recovery_target (state : JobState) (idempotent : bool) : option JobState :=
  if bool_decide (state ∈ LEASE_HOLDING_STATES)
  then Some (if idempotent then QUEUED else FAILED)
  else if bool_decide (state = CANCELLING) then Some CANCELLED
  else None.

(** The state a cancel request moves a job to. *)
Definition cancel_target (state : JobState) : option JobState :=
  if bool_decide (state ∈ WAITING_STATES) then Some CANCELLED
  else if bool_decide (state ∈ LEASE_HOLDING_STATES) then Some CANCELLING
  else None.

Definition event_type_for (state : JobState) : string := "job." +:+ state_value state.

(** ** The state machine as a relation *)

(** One legal move. *)
Definition step (s t : JobState) : Prop := is_legal s t = true.

(** The state groups as boolean tests, for the services. *)
Definition is_waiting (s : JobState) : bool := bool_decide (s ∈ WAITING_STATES).
Definition is_terminal (s : JobState) : bool := bool_decide (s ∈ TERMINAL_STATES).
Definition is_lease_holding (s : JobState) : bool := bool_decide (s ∈ LEASE_HOLDING_STATES).
Definition is_active (s : JobState) : bool := bool_decide (s ∈ ACTIVE_STATES).

(** ** Helper lemmas *)

Lemma elem_of_all_states s : s ∈ all_states.
Proof. by apply (bool_decide_unpack _); destruct s. Qed.

Lemma state_of_value_value s : state_of_value (state_value s) = Ok s.
Proof. by destruct s. Qed.

Lemma state_value_inj s t : state_value s = state_value t -> s = t.
Proof.
  intros H. pose proof (state_of_value_value s) as Hs.
  rewrite H, state_of_value_value in Hs. congruence.
Qed.

Lemma is_legal_spec s t : is_legal s t = true <-> (s, t) ∈ TRANSITIONS.
Proof. apply bool_decide_eq_true. Qed.

Lemma elem_of_successors s t : t ∈ successors s <-> is_legal s t = true.
Proof.
  enough (bool_decide (t ∈ successors s) = is_legal s t) as <-
    by (symmetry; apply bool_decide_eq_true).
  by destruct s, t.
Qed.

(** Exactly one of: waiting, in flight, terminal. *)
Lemma state_partition s :
  (is_waiting s = true /\ is_lease_holding s = false /\ is_terminal s = false /\ s <> CANCELLING) \/
  (is_waiting s = false /\ is_lease_holding s = true /\ is_terminal s = false /\ s <> CANCELLING) \/
  (is_waiting s = false /\ is_lease_holding s = false /\ is_terminal s = true /\ s <> CANCELLING) \/
  s = CANCELLING.
Proof. destruct s; vm_compute; intuition congruence. Qed.

(** A terminal state only reaches itself. *)
Lemma terminal_stuck s t : is_terminal s = true -> is_legal s t = false.
Proof. by destruct s, t. Qed.

Lemma terminal_rtc s t : is_terminal s = true -> rtc step s t -> t = s.
Proof.
  intros Hs Hr. destruct Hr as [|? u ? Hstep _]; [done|].
  unfold step in Hstep. by rewrite terminal_stuck in Hstep.
Qed.

(** A path checked by evaluation. *)
Fixpoint legal_path (s : JobState) (p : list JobState) : bool :=
  match p with
  | [] => true
  | t :: p' => is_legal s t && legal_path t p'
  end.

Lemma legal_path_rtc s p : legal_path s p = true -> rtc step s (List.last p s).
Proof.
  revert s. induction p as [|t p IH]; intros s; cbn [legal_path]; [constructor|].
  intros [H1 H2]%andb_true_iff. eapply rtc_l; [exact H1|].
  specialize (IH t H2). destruct p as [|u p]; [done|].
  replace (List.last (t :: u :: p) s) with (List.last (u :: p) t); [done|].
  clear. revert t u s. induction p as [|v p IHp]; intros; [done|]. cbn in *. apply (IHp t v).
Qed.

#[export] Hint Resolve elem_of_all_states state_value_inj : loadcoach.

(** ** Properties *)

Module Properties.

(** The table is what its documentation says.  It has thirty distinct edges, no edge is a
    self-transition, and a state has no successor exactly when it is terminal; [check_transition]
    accepts the listed pairs and raises [IllegalTransition], naming both states, on every other. *)
Theorem transition_table_complete :
  length TRANSITIONS = 30%nat /\ NoDup TRANSITIONS /\
  (forall s, is_legal s s = false) /\
  (forall s, successors s = [] <-> s ∈ TERMINAL_STATES) /\
  (forall s t, check_transition s t =
     if bool_decide ((s, t) ∈ TRANSITIONS) then Ok tt
     else Raise (IllegalTransition (state_value s) (state_value t))).
Proof.
  split; [done|]. split; [by apply (bool_decide_unpack _)|].
  split; [by intros []|]. split.
  - intros s. rewrite <- (bool_decide_eq_true (s ∈ TERMINAL_STATES)). by destruct s.
  - intros s t. unfold check_transition, is_legal. by case_bool_decide.
Qed.

(** The two derived decisions never propose an illegal move.  A recovery target or a cancel
    target is always a legal successor; recovery acts on exactly the in-flight states, a cancel
    request is accepted with a move in every active state but [cancelling], and a lease-holding job
    is recovered to [queued] exactly when it is idempotent. *)
Theorem derived_targets_legal (s : JobState) (idempotent : bool) :
  (forall t, recovery_target s idempotent = Some t -> is_legal s t = true) /\
  (forall t, cancel_target s = Some t -> is_legal s t = true) /\
  (recovery_target s idempotent = None <-> s ∉ IN_FLIGHT_STATES) /\
  (cancel_target s = None <-> s ∉ CANCELLABLE_STATES \/ s = CANCELLING) /\
  (recovery_target s idempotent = Some QUEUED <->
     s ∈ LEASE_HOLDING_STATES /\ idempotent = true).
Proof.
  split; [intros t; destruct s, idempotent; vm_compute; intros H; by simplify_eq|].
  split; [intros t; destruct s; vm_compute; intros H; by simplify_eq|].
  rewrite <- (bool_decide_eq_false (s ∈ IN_FLIGHT_STATES)).
  rewrite <- (bool_decide_eq_false (s ∈ CANCELLABLE_STATES)).
  rewrite <- (bool_decide_eq_true (s ∈ LEASE_HOLDING_STATES)).
  destruct s, idempotent; vm_compute; intuition congruence.
Qed.

(** The machine has no dead end and no way back.  Every state is reachable from [queued]; from
    every state some terminal state is reachable, in particular [cancelled] and [failed] from
    [queued]; and once a job is terminal every sequence of legal moves leaves it where it is. *)
Theorem machine_progress :
  (forall s, rtc step QUEUED s) /\
  (forall s, exists t, t ∈ TERMINAL_STATES /\ rtc step s t) /\
  (forall s t, s ∈ TERMINAL_STATES -> rtc step s t -> t = s).
Proof.
  split; [|split].
  - intros s. set (p := match s with
      | QUEUED => [] | LEASED => [LEASED] | ADMITTED => [LEASED; ADMITTED]
      | WAITING_RESOURCES => [LEASED; WAITING_RESOURCES]
      | EXECUTING => [LEASED; ADMITTED; EXECUTING]
      | VALIDATING => [LEASED; ADMITTED; EXECUTING; VALIDATING]
      | RETRYING => [LEASED; ADMITTED; EXECUTING; RETRYING]
      | CANCELLING => [LEASED; CANCELLING]
      | COMPLETED => [LEASED; ADMITTED; EXECUTING; VALIDATING; COMPLETED]
      | FAILED => [FAILED] | CANCELLED => [CANCELLED] end).
    replace s with (List.last p QUEUED) by (by destruct s). apply legal_path_rtc. by destruct s.
  - intros s. set (p := match s with
      | COMPLETED | FAILED | CANCELLED => []
      | QUEUED | WAITING_RESOURCES | CANCELLING => [CANCELLED]
      | _ => [FAILED] end).
    exists (List.last p s). split; [apply (bool_decide_unpack _); by destruct s|].
    apply legal_path_rtc. by destruct s.
  - intros s t Hs. apply terminal_rtc. by apply bool_decide_eq_true.
Qed.

(** C3 at [completed]: the hypothesis-free first parts at concrete states, and the third part
    applied to a terminal state. *)
Lemma machine_progress_witness :
  rtc step QUEUED COMPLETED /\ (forall t, rtc step COMPLETED t -> t = COMPLETED).
Proof.
  split; [apply (proj1 machine_progress)|].
  intros t. apply (proj2 (proj2 machine_progress)). by apply (bool_decide_unpack _).
Defined.

End Properties.
