(* ===== verification/Priority.v ===== *)
(** * Job classes, priority bands and ageing ([domain/priority.py])

    The four classes with their inclusive bands, the base priority a job is enqueued with, the
    ageing arithmetic over binary64 floats, and the starvation threshold. *)

From S2P Require Import Prelude PyFloat.
#[local] Open Scope Z_scope.

Inductive JobClass := INTERACTIVE | NORMAL | BACKGROUND | BATCH.

#[export] Instance JobClass_eq_dec : EqDecision JobClass.
Proof. solve_decision. Defined.

Definition class_value (c : JobClass) : string :=
  match c with
  | INTERACTIVE => "interactive"
  | NORMAL => "normal"
  | BACKGROUND => "background"
  | BATCH => "batch"
  end.

(** [BANDS] and [band_of]: the inclusive [(bottom, top)] of each class. *)
Definition BANDS (c : JobClass) : Z * Z :=
  match c with
  | INTERACTIVE => (800, 999)
  | NORMAL => (400, 799)
  | BACKGROUND => (100, 399)
  | BATCH => (0, 99)
  end.

Definition band_of (job_class : JobClass) : Z * Z := BANDS job_class.

Definition AGEING_EPSILON_POINTS : f64 := flit 1 1000000.

Definition STARVATION_FRACTION_OF_MAX_WAIT : f64 := flit 1 2.

Definition base_priority (job_class : JobClass) (requested : option Z) : result Z :=
  let '(bottom, top) := band_of job_class in
  match requested with
  | None => Ok bottom
  | Some r => if (r <? bottom) || (top <? r)
              then Raise (ValidationError "priority")
              else Ok r
  end.

Definition ageing_cap (job_class : JobClass) (overflow_allowance : Z) : Z :=
  (band_of job_class).2 + overflow_allowance.

(** [base + floor(minutes * rate + epsilon)], capped.  [waiting_seconds] and the rate are floats;
    a negative wait ages nothing. *)
Definition effective_priority (base : Z) (job_class : JobClass) (waiting_seconds : f64)
    (ageing_priority_per_minute : f64) (overflow_allowance : Z) : Z :=
  let minutes := fdiv (Z.max waiting_seconds 0) (60 * fone) in
  let aged := base +
    ffloor (fadd (fmul minutes ageing_priority_per_minute) AGEING_EPSILON_POINTS) in
  Z.min aged (ageing_cap job_class overflow_allowance).

Definition starvation_threshold_seconds (max_wait_seconds : Z) : f64 :=
  fmul (of_int max_wait_seconds) STARVATION_FRACTION_OF_MAX_WAIT.

(** A priority inside its class's band. *)
Definition in_band (c : JobClass) (p : Z) : Prop := (band_of c).1 <= p <= (band_of c).2.

(** ** Helper lemmas *)

Lemma epsilon_pos : 0 <= AGEING_EPSILON_POINTS < fone.
Proof. vm_compute. split; [discriminate|reflexivity]. Qed.

Lemma half_eq : flit 1 2 = 2 ^ 1073.
Proof. vm_compute. reflexivity. Qed.

Lemma base_priority_spec c r p :
  base_priority c r = Ok p <->
  (r = None /\ p = (band_of c).1) \/ (r = Some p /\ in_band c p).
Proof.
  unfold base_priority, in_band. destruct (band_of c) as [b t]. cbn.
  destruct r as [r|].
  2:{ split; [intros [= <-]; by left|]. intros [[_ ->]|[? _]]; done. }
  destruct ((r <? b) || (t <? r)) eqn:E; split.
  - done.
  - intros [[? _]|[H1 H2]]; [done|]. simplify_eq.
    apply orb_true_iff in E as [E|E]; bool_to_prop; lia.
  - intros H. simplify_eq. right. bool_to_prop. split; [done|lia].
  - intros [[? _]|[? _]]; by simplify_eq.
Qed.

Lemma base_priority_in_band c r p : base_priority c r = Ok p -> in_band c p.
Proof.
  intros [[_ ->]|[_ H]]%base_priority_spec; [|done].
  by destruct c; cbn; unfold in_band; cbn; lia.
Qed.

(** The points ageing has added, and their two facts. *)
Definition aged_points (waiting_seconds rate : f64) : Z :=
  ffloor (fadd (fmul (fdiv (Z.max waiting_seconds 0) (60 * fone)) rate) AGEING_EPSILON_POINTS).

Lemma effective_priority_points base c w rate ov :
  effective_priority base c w rate ov = Z.min (base + aged_points w rate) (ageing_cap c ov).
Proof. reflexivity. Qed.

Lemma minutes_nonneg w : 0 <= fdiv (Z.max w 0) (60 * fone).
Proof. apply fdiv_nonneg; pose proof fone_pos; lia. Qed.

Lemma aged_points_nonneg w rate : 0 <= rate -> 0 <= aged_points w rate.
Proof.
  intros. apply ffloor_nonneg, fadd_nonneg; [|apply epsilon_pos].
  apply fmul_nonneg; [apply minutes_nonneg|done].
Qed.

Lemma aged_points_mono w1 w2 rate :
  0 <= rate -> w1 <= w2 -> aged_points w1 rate <= aged_points w2 rate.
Proof.
  intros Hr Hw. apply ffloor_mono, fadd_mono; [|lia].
  apply fmul_mono; [|lia]. split; [apply minutes_nonneg|].
  apply fdiv_mono; [pose proof fone_pos; lia|lia].
Qed.

(** A job that has not waited has aged nothing: the epsilon alone never reaches a point. *)
Lemma aged_points_fresh w rate : w <= 0 -> aged_points w rate = 0.
Proof.
  intros. unfold aged_points. rewrite Z.max_r by done.
  replace (fdiv 0 (60 * fone)) with 0 by (unfold fdiv; by rewrite Z.mul_0_r).
  rewrite fmul_0_l. unfold fadd. rewrite Z.add_0_l.
  vm_compute. reflexivity.
Qed.

(** Whole minutes become whole points at a rate of at least one point per minute. *)
Lemma aged_points_minutes n w rate :
  0 <= n <= 2 ^ 53 -> fone <= rate -> n * 60 * fone <= w -> n <= aged_points w rate.
Proof.
  intros Hn Hrate Hw. pose proof fone_pos as Hp. apply ffloor_lower.
  assert (Hrep : repr (n * fone)) by (apply repr_int; lia).
  apply fround_ge_repr; [lia|done|]. rewrite Z.mul_1_r.
  pose proof epsilon_pos. enough (n * fone <= fmul (fdiv (Z.max w 0) (60 * fone)) rate) by lia.
  assert (n * fone <= fdiv (Z.max w 0) (60 * fone)).
  { rewrite fdiv_pos_eq by lia. apply fround_ge_repr; [lia|done|]. nia. }
  apply fround_ge_repr; [done|done|]. nia.
Qed.

#[export] Hint Resolve aged_points_nonneg base_priority_in_band : loadcoach.

(** ** Properties *)

Module Properties.

(** The band is not escapable at submission.  [base_priority] returns a priority inside the
    class's band or raises [ValidationError] on [priority]; it raises exactly when a priority was
    requested outside the band, returns a request inside it unchanged, and the four bands are
    disjoint and ordered, so a class below never submits at or above a class above it. *)
Theorem base_priority_band (c : JobClass) (r : option Z) :
  match base_priority c r with
  | Ok p => in_band c p /\ (forall q, r = Some q -> p = q)
  | Raise e => e = ValidationError "priority" /\ exists q, r = Some q /\ ~ in_band c q
  end /\
  (forall d p q, in_band c p -> in_band d q -> (band_of c).2 < (band_of d).1 -> p < q) /\
  (forall d, c <> d -> (band_of c).2 < (band_of d).1 \/ (band_of d).2 < (band_of c).1).
Proof.
  split; [|split].
  - destruct (base_priority c r) as [p|e] eqn:E.
    + split; [eauto with loadcoach|]. intros q ->.
      apply base_priority_spec in E as [[? _]|[? _]]; by simplify_eq.
    + unfold base_priority, in_band in *. destruct (band_of c) as [b t]. cbn.
      destruct r as [r|]; [|done]. case_hyp E; simplify_eq. split; [done|].
      exists r. split; [done|]. apply orb_true_iff in Heqb0 as [?|?]; bool_to_prop; lia.
  - unfold in_band. lia.
  - intros d Hne. destruct c, d; cbn; (lia || done).
Qed.

(** Ageing is bounded and only raises.  With a non-negative rate and overflow allowance (what
    the configuration admits) and a base inside the band, the effective priority lies between the
    base and the class's cap, equals the base for a job that has not waited (a clock stepping back
    included), and never decreases as the wait grows. *)
Theorem effective_priority_bounds (base : Z) (c : JobClass) (w w' rate : f64) (overflow : Z) :
  in_band c base -> 0 <= rate -> 0 <= overflow -> w <= w' ->
  base <= effective_priority base c w rate overflow <= ageing_cap c overflow /\
  (w <= 0 -> effective_priority base c w rate overflow = base) /\
  effective_priority base c w rate overflow <= effective_priority base c w' rate overflow.
Proof.
  intros Hb Hr Ho Hw. rewrite !effective_priority_points.
  assert (base <= ageing_cap c overflow) by (unfold in_band, ageing_cap in *; lia).
  pose proof (aged_points_nonneg w rate Hr). pose proof (aged_points_mono w w' rate Hr Hw).
  split; [lia|]. split; [|lia]. intros. rewrite aged_points_fresh by done. lia.
Qed.

Lemma effective_priority_bounds_witness :
  effective_priority 100 BACKGROUND (90 * fone) fone 100 <=
  effective_priority 100 BACKGROUND (600 * fone) fone 100 /\
  effective_priority 100 BACKGROUND (600 * fone) fone 100 = 110.
Proof.
  split; [|vm_compute; reflexivity].
  apply (effective_priority_bounds 100 BACKGROUND (90 * fone) (600 * fone) fone 100);
    vm_compute; try split; discriminate.
Defined.

(** The starvation bound.  At one point per minute or faster, a job that has waited [n] whole
    minutes has gained [n] points or reached its cap; hence a job whose cap exceeds [p] outranks
    every job whose effective priority is at most [p] once it has waited [p + 1 - base] minutes.
    At the shipped overflow of 100 a [background] job overtakes every [normal] job submitted at
    the bottom of its band, and neither it nor a [batch] job ever reaches a fresh [interactive]
    one, whatever the wait. *)
Theorem ageing_overtakes (base p : Z) (c : JobClass) (w rate : f64) (overflow : Z) :
  0 <= base -> base <= p < ageing_cap c overflow -> p < 2 ^ 53 -> fone <= rate ->
  (p + 1 - base) * 60 * fone <= w ->
  p < effective_priority base c w rate overflow /\
  (forall w' rate' base', effective_priority base' BACKGROUND w' rate' 100 < 800 /\
     effective_priority base' BATCH w' rate' 100 < 800) /\
  400 < ageing_cap BACKGROUND 100.
Proof.
  intros Hb Hp H53 Hr Hw. split; [|split; [|vm_compute; reflexivity]].
  - rewrite effective_priority_points.
    pose proof (aged_points_minutes (p + 1 - base) w rate ltac:(lia) Hr Hw). lia.
  - intros. unfold effective_priority, ageing_cap. cbn. lia.
Qed.

Lemma ageing_overtakes_witness :
  400 < effective_priority 100 BACKGROUND (301 * 60 * fone) fone 100.
Proof.
  apply (ageing_overtakes 100 400 BACKGROUND (301 * 60 * fone) fone 100);
    vm_compute; try split; try discriminate; reflexivity.
Defined.

End Properties.
