(* ===== verification/RetryPolicy.v ===== *)
(** * The failure table ([domain/retry_policy.py])

    What a failed attempt deserves, as a pure decision: the failure's row, the action, the next
    candidate, and the backoff before a retry. *)

From S2P Require Import Prelude PyFloat.
#[local] Open Scope Z_scope.

Definition PROTOCOL_ERROR_RETRIES : Z := 1.

Inductive FailureKind :=
| TIMEOUT | CONNECTION | PROTOCOL | VALIDATION | CONTEXT_LIMIT | KIND_CANCELLED | REJECTED.

Inductive Action := RETRY_SAME | FALLBACK | STOP.

#[export] Instance FailureKind_eq_dec : EqDecision FailureKind.
Proof. solve_decision. Defined.
#[export] Instance Action_eq_dec : EqDecision Action.
Proof. solve_decision. Defined.

Record Decision := mkDecision {
  action : Action;
  reason : string;
  larger_context_only : bool
}.

(** The ModelRack exception classes the table names.  The classes and their subclass relation are
    third-party, so an error is an element of a parameter type with its [isinstance] tests. *)
Inductive ProviderErrorClass :=
| GenerationCancelled | ProviderTimeout | ProviderUnavailable | ProviderProtocolError
| ContextLimitExceeded.

Definition classify_failure {E : Type} (isinstance : E -> ProviderErrorClass -> bool) (error : E)
    : FailureKind :=
  if isinstance error GenerationCancelled then KIND_CANCELLED
  else if isinstance error ProviderTimeout then TIMEOUT
  else if isinstance error ProviderUnavailable then CONNECTION
  else if isinstance error ProviderProtocolError then PROTOCOL
  else if isinstance error ContextLimitExceeded then CONTEXT_LIMIT
  else REJECTED.

Definition next_action (kind : FailureKind) (attempts_on_candidate per_candidate_limit : Z)
    : Decision :=
  match kind with
  | KIND_CANCELLED => mkDecision STOP "cancelled" false
  | TIMEOUT =>
      if attempts_on_candidate <? per_candidate_limit
      then mkDecision RETRY_SAME "timeout" false
      else mkDecision FALLBACK "timeout_retries_exhausted" false
  | CONNECTION => mkDecision FALLBACK "connection_error" false
  | PROTOCOL =>
      if attempts_on_candidate <=? PROTOCOL_ERROR_RETRIES
      then mkDecision RETRY_SAME "protocol_error" false
      else mkDecision FALLBACK "protocol_error_retries_exhausted" false
  | VALIDATION =>
      if attempts_on_candidate <? per_candidate_limit
      then mkDecision RETRY_SAME "corrective_retry" false
      else mkDecision FALLBACK "validation_retries_exhausted" false
  | CONTEXT_LIMIT => mkDecision FALLBACK "context_limit_exceeded" true
  | REJECTED => mkDecision FALLBACK "provider_rejected" false
  end.

(** The loop [for index in range(current + 1, len(served_contexts))], on the remaining suffix. *)
Fixpoint first_above (floor : option Z) (index : nat) (rest : list Z) : option nat :=
  match rest with
  | [] => None
  | c :: rest' =>
      if match floor with None => true | Some f => f <? c end then Some index
      else first_above floor (S index) rest'
  end.

(** [served_contexts[current]] is read only for the context-limit row; out of range it raises. *)
Definition next_candidate_index (served_contexts : list Z) (current : nat)
    (larger_context_only : bool) : result (option nat) :=
  floor ← (if larger_context_only
           then match served_contexts !! current with
                | Some f => Ok (Some f)
                | None => Raise IndexError
                end
           else Ok None);
  Ok (first_above floor (S current) (drop (S current) served_contexts)).

(** [base * 2.0 ** max(n - 1, 0) * (0.5 + clamp(jitter))]; [2.0 ** e] raises from [e = 1024]. *)
Definition backoff_seconds (base_seconds : f64) (retry_number : Z) (jitter : f64) : result f64 :=
  if base_seconds <=? 0 then Ok 0
  else
    let e := Z.max (retry_number - 1) 0 in
    if 1024 <=? e then Raise OverflowError
    else
      let step := fmul base_seconds (2 ^ e * fone) in
      Ok (fmul step (fadd (flit 1 2) (Z.max (Z.min jitter fone) 0))).

(** ** Helper lemmas *)

Lemma first_above_spec floor index rest i :
  first_above floor index rest = Some i <->
  (exists j c, i = (index + j)%nat /\ rest !! j = Some c /\
     (forall f, floor = Some f -> f < c) /\
     (forall j' c', (j' < j)%nat -> rest !! j' = Some c' -> exists f, floor = Some f /\ c' <= f)).
Proof.
  revert index i. induction rest as [|c rest IH]; intros index i; cbn.
  { split; [done|]. intros (j & c & _ & H & _). by rewrite lookup_nil in H. }
  destruct (match floor with None => true | Some f => f <? c end) eqn:Ef.
  - split.
    + intros [= <-]. exists 0%nat, c. split; [lia|]. split; [done|]. split.
      * intros f ->. by bool_to_prop.
      * lia.
    + intros (j & c' & -> & Hj & _ & Hlt). destruct j as [|j]; [do 2 f_equal; lia|].
      destruct (Hlt 0%nat c ltac:(lia) eq_refl) as (f & -> & Hle). bool_to_prop. lia.
  - rewrite IH. split.
    + intros (j & c' & -> & Hj & Hgt & Hlt). exists (S j), c'.
      split; [lia|]. split; [done|]. split; [done|]. intros [|j'] c'' Hj' Hc''.
      * cbn in Hc''. simplify_eq. destruct floor as [f|]; [|done]. exists f. bool_to_prop.
        split; [done|lia].
      * apply (Hlt j' c''); [lia|done].
    + intros ([|j] & c' & -> & Hj & Hgt & Hlt).
      * cbn in Hj. simplify_eq. destruct floor as [f|]; [|done]. bool_to_prop.
        specialize (Hgt f eq_refl). lia.
      * exists j, c'. split; [lia|]. split; [done|]. split; [done|].
        intros j' c'' Hj' Hc''. apply (Hlt (S j') c''); [lia|done].
Qed.

Lemma first_above_None floor index rest :
  first_above floor index rest = None ->
  forall j c, rest !! j = Some c -> exists f, floor = Some f /\ c <= f.
Proof.
  revert index. induction rest as [|c rest IH]; intros index; cbn; [intros _ j c H; by rewrite lookup_nil in H|].
  destruct (match floor with None => true | Some f => f <? c end) eqn:Ef; [done|].
  intros H [|j] c' Hc'; [|by eapply IH].
  cbn in Hc'. simplify_eq. destruct floor as [f|]; [|done]. bool_to_prop. exists f. split; [done|lia].
Qed.

Lemma jitter_factor_bounds j :
  flit 1 2 <= fadd (flit 1 2) (Z.max (Z.min j fone) 0) <= flit 3 2.
Proof.
  pose proof fone_pos. split.
  - apply fround_ge_repr; [lia|apply repr_flit; lia|lia].
  - transitivity (fadd (flit 1 2) fone); [apply fadd_mono; lia|].
    vm_compute. discriminate.
Qed.

(** ** Properties *)

Module Properties.

(** The retry table is bounded.  A failure is retried on the same candidate only while the
    candidate has had fewer than [max(per_candidate_limit, 2)] attempts, never after a connection
    error, a context-limit failure, a rejection or a cancellation; only a cancellation stops, only
    the context-limit row asks for a larger context, and a timeout or a validation failure with
    attempts left always retries. *)
Theorem next_action_bounded (kind : FailureKind) (n limit : Z) :
  let d := next_action kind n limit in
  (action d = RETRY_SAME ->
     n < Z.max limit (PROTOCOL_ERROR_RETRIES + 1) /\
     (kind = TIMEOUT \/ kind = PROTOCOL \/ kind = VALIDATION)) /\
  (action d = STOP <-> kind = KIND_CANCELLED) /\
  (larger_context_only d = true <-> kind = CONTEXT_LIMIT) /\
  (n < limit -> kind = TIMEOUT \/ kind = VALIDATION -> action d = RETRY_SAME) /\
  (Z.max limit (PROTOCOL_ERROR_RETRIES + 1) <= n -> kind <> KIND_CANCELLED -> action d = FALLBACK).
Proof.
  unfold PROTOCOL_ERROR_RETRIES.
  destruct kind; cbn; unfold PROTOCOL_ERROR_RETRIES;
    repeat match goal with |- context [if ?b then _ else _] => destruct b eqn:? end; cbn;
    bool_to_prop; intuition (try congruence; try lia).
Qed.

(** Fallback selection.  [next_candidate_index] returns the first candidate ranked after the
    failed one (and, on the context-limit row, serving strictly more context than it), returns
    [None] exactly when there is none, and always moves forward, so no candidate is tried twice. *)
Theorem next_candidate_spec (ctxs : list Z) (current : nat) (larger : bool) (cur : Z) :
  ctxs !! current = Some cur ->
  let ok i c := (current < i)%nat /\ ctxs !! i = Some c /\ (larger = true -> cur < c) in
  match next_candidate_index ctxs current larger with
  | Ok (Some i) => exists c, ok i c /\ forall i' c', ok i' c' -> (i <= i')%nat
  | Ok None => forall i c, ~ ok i c
  | Raise _ => False
  end.
Proof.
  intros Hcur ok. unfold next_candidate_index.
  set (floor := if larger then Some cur else None).
  replace (if larger then _ else _) with (Ok floor)
    by (unfold floor; destruct larger; by rewrite ?Hcur).
  cbn. destruct (first_above floor _ _) as [i|] eqn:E.
  - apply first_above_spec in E as (j & c & -> & Hj & Hgt & Hlt).
    rewrite lookup_drop in Hj. exists c. split.
    + split; [lia|]. split; [done|]. intros ->. by apply Hgt.
    + intros i' c' (Hi & Hc & Hl). destruct (decide (S current + j <= i')%nat); [done|].
      destruct (Hlt (i' - S current)%nat c' ltac:(lia)) as (f & Hf & Hle).
      { rewrite lookup_drop. rewrite <- Hc. f_equal. lia. }
      unfold floor in Hf. destruct larger; [|done]. simplify_eq. specialize (Hl eq_refl). lia.
  - intros i c (Hi & Hc & Hl).
    destruct (first_above_None _ _ _ E (i - S current)%nat c) as (f & Hf & Hle).
    { rewrite lookup_drop. rewrite <- Hc. f_equal. lia. }
    unfold floor in Hf. destruct larger; [|done]. simplify_eq. specialize (Hl eq_refl). lia.
Qed.

Lemma next_candidate_spec_witness :
  next_candidate_index [8192; 4096; 8192; 32768] 0 true = Ok (Some 3%nat) /\
  (forall i c, (0 < i)%nat /\ [8192; 4096; 8192; 32768] !! i = Some c /\ (true = true -> 8192 < c) ->
     (3 <= i)%nat).
Proof.
  split; [reflexivity|].
  destruct (next_candidate_spec [8192; 4096; 8192; 32768] 0 true 8192 eq_refl) as (c & _ & H).
  exact H.
Defined.

(** Backoff bounds.  With a positive base and a retry number below 1025 the backoff is defined
    and lies between half and one and a half times the exponential step, whatever the jitter; it
    is never negative, and a non-positive base waits nothing.  From retry 1025 on, [2.0 ** e]
    leaves the float range and the call raises [OverflowError]. *)
Theorem backoff_bounds (base : f64) (n : Z) (jitter : f64) :
  match backoff_seconds base n jitter with
  | Ok b =>
      0 <= b /\
      (base <= 0 -> b = 0) /\
      (0 < base -> let step := fmul base (2 ^ Z.max (n - 1) 0 * fone) in
         fmul step (flit 1 2) <= b <= fmul step (flit 3 2))
  | Raise e => e = OverflowError /\ 1025 <= n
  end.
Proof.
  unfold backoff_seconds. destruct (base <=? 0) eqn:Eb; bool_to_prop.
  - repeat split; lia.
  - destruct (1024 <=? Z.max (n - 1) 0) eqn:Ee; bool_to_prop; [split; [done|lia]|].
    pose proof (jitter_factor_bounds jitter) as Hj. pose proof fone_pos.
    set (step := fmul base _). assert (0 <= step).
    { apply fmul_nonneg; [lia|]. pose proof (pow2_pos (Z.max (n - 1) 0)). nia. }
    assert (0 <= flit 1 2) by (rewrite <- (fround_0 1); apply fround_mono; lia).
    split; [apply fmul_nonneg; lia|]. split; [lia|]. intros _.
    split; apply fmul_mono; lia.
Qed.

End Properties.
