(* ===== verification/CircuitBreaker.v ===== *)
(** * The circuit breaker ([domain/circuit_breaker.py])

    A per-model state machine over a window of attempt outcomes.  Instants and durations are
    integers in microseconds ([datetime], [timedelta]); rates are binary64.  The human-readable
    [reason] is kept as data ([Reason]) together with the one thing its rendering can do besides
    producing text: formatting an absent rate with [:.0%] raises [TypeError]. *)

From S2P Require Import Prelude PyFloat.
#[local] Open Scope Z_scope.

Definition DEFAULT_WINDOW_SECONDS : f64 := 600 * fone.
Definition DEFAULT_MIN_SAMPLES : Z := 5.
Definition DEFAULT_FAILURE_RATE : f64 := flit 1 2.
Definition DEFAULT_COOLDOWN_SECONDS : f64 := 300 * fone.

Inductive BreakerState := CLOSED | OPEN | HALF_OPEN.

#[export] Instance BreakerState_eq_dec : EqDecision BreakerState.
Proof. solve_decision. Defined.

Record AttemptSample := mkSample { at_ : Z; succeeded : bool }.

Inductive Reason :=
| ReasonOpen (failures count : Z) (window : Z) (rate : f64) (expires_at : option Z)
| ReasonProbeInFlight
| ReasonProbeAllowed
| ReasonClosed
| ReasonClosedRate (failures count : Z) (rate : f64).

Record BreakerVerdict := mkVerdict {
  v_id : string;
  v_state : BreakerState;
  v_failure_rate : option f64;
  v_samples : Z;
  v_opened_at : option Z;
  v_expires_at : option Z;
  v_reason : Reason;
  v_probe_in_flight : bool;
  v_closed_at : option Z;
  v_probe_started_at : option Z
}.

(** [BreakerVerdict.excludes]. *)
Definition excludes (v : BreakerVerdict) : bool :=
  match v_state v with
  | OPEN => true
  | HALF_OPEN => v_probe_in_flight v
  | CLOSED => false
  end.

(** The thresholds a registry is built with. *)
Record Config := mkConfig {
  window_seconds : f64;
  min_samples : Z;
  failure_rate_threshold : f64;
  cooldown_seconds : f64
}.

Definition default_config : Config :=
  mkConfig DEFAULT_WINDOW_SECONDS DEFAULT_MIN_SAMPLES DEFAULT_FAILURE_RATE DEFAULT_COOLDOWN_SECONDS.

(** The samples that count: later than the horizon and than the last close, not in the future,
    in time order. *)
Definition recent_samples (samples : list AttemptSample) (origin now : Z) : list AttemptSample :=
  py_sorted (fun a b => at_ a <=? at_ b)
    (List.filter (fun s => (origin <? at_ s) && (at_ s <=? now)) samples).

Definition failures_of (recent : list AttemptSample) : Z := countb (fun s => negb (succeeded s)) recent.

Definition count_of (recent : list AttemptSample) : Z := Z.of_nat (length recent).

Definition rate_of (recent : list AttemptSample) : option f64 :=
  if count_of recent =? 0 then None else Some (int_div (failures_of recent) (count_of recent)).

(** The local variables [evaluate] threads through its branches. *)
Record Work := mkWork {
  w_state : BreakerState;
  w_opened : option Z;
  w_expires : option Z;
  w_probe : bool;
  w_closed : option Z;
  w_probe_started : option Z;
  w_recent : list AttemptSample
}.

(** [if state is OPEN and expires_at is not None and now >= expires_at]: half open. *)
Definition cool_down (now : Z) (w : Work) : Work :=
  match w_state w, w_expires w with
  | OPEN, Some e =>
      if e <=? now
      then mkWork HALF_OPEN (w_opened w) (w_expires w) false (w_closed w) None (w_recent w)
      else w
  | _, _ => w
  end.

(** A probe out for a whole cool-down without reporting is presumed lost. *)
Definition release_lost_probe (now cooldown : Z) (w : Work) : Work :=
  match w_state w, w_probe w, w_probe_started w with
  | HALF_OPEN, true, Some p =>
      if p + cooldown <=? now
      then mkWork HALF_OPEN (w_opened w) (w_expires w) false (w_closed w) None (w_recent w)
      else w
  | _, _, _ => w
  end.

(** In [half_open] the latest attempt after the opening decides. *)
Definition decide_probe (cooldown : Z) (w : Work) : Work :=
  match w_state w, w_opened w with
  | HALF_OPEN, Some o =>
      match last (List.filter (fun s => o <? at_ s) (w_recent w)) with
      | None => w
      | Some s =>
          if succeeded s
          then mkWork CLOSED None None false (Some (at_ s)) None
                 (List.filter (fun s' => at_ s <? at_ s') (w_recent w))
          else mkWork OPEN (Some (at_ s)) (Some (at_ s + cooldown)) false (w_closed w) None
                 (w_recent w)
      end
  | _, _ => w
  end.

(** [closed -> open] at the threshold.  [probe_started_at] is left as it is. *)
Definition trip (cfg : Config) (cooldown : Z) (w : Work) : Work :=
  match w_state w, rate_of (w_recent w), last (w_recent w) with
  | CLOSED, Some rate, Some s =>
      if (min_samples cfg <=? count_of (w_recent w)) && (failure_rate_threshold cfg <=? rate)
      then mkWork OPEN (Some (at_ s)) (Some (at_ s + cooldown)) false (w_closed w)
             (w_probe_started w) (w_recent w)
      else w
  | _, _, _ => w
  end.

Definition reason_of (cfg : Config) (w : Work) : result Reason :=
  let failures := failures_of (w_recent w) in
  let count := count_of (w_recent w) in
  match w_state w with
  | OPEN =>
      match rate_of (w_recent w) with
      | Some rate => Ok (ReasonOpen failures count (ftrunc (window_seconds cfg)) rate (w_expires w))
      | None => Raise TypeError
      end
  | HALF_OPEN => Ok (if w_probe w then ReasonProbeInFlight else ReasonProbeAllowed)
  | CLOSED =>
      Ok (match rate_of (w_recent w) with
          | None => ReasonClosed
          | Some rate => ReasonClosedRate failures count rate
          end)
  end.

(** The values [evaluate] starts from. *)
Definition start_work (samples : list AttemptSample) (now window : Z)
    (previous : option BreakerVerdict) : Work :=
  let horizon := now - window in
  match previous with
  | None => mkWork CLOSED None None false None None (recent_samples samples horizon now)
  | Some p =>
      let origin := match v_closed_at p with None => horizon | Some c => Z.max horizon c end in
      mkWork (v_state p) (v_opened_at p) (v_expires_at p) (v_probe_in_flight p) (v_closed_at p)
        (v_probe_started_at p) (recent_samples samples origin now)
  end.

Definition evaluate_work (cfg : Config) (samples : list AttemptSample) (now : Z)
    (previous : option BreakerVerdict) : Work :=
  let cooldown := timedelta_us (cooldown_seconds cfg) in
  trip cfg cooldown
    (decide_probe cooldown
      (release_lost_probe now cooldown
        (cool_down now
          (start_work samples now (timedelta_us (window_seconds cfg)) previous)))).

Definition evaluate (cfg : Config) (canonical_id : string) (samples : list AttemptSample) (now : Z)
    (previous : option BreakerVerdict) : result BreakerVerdict :=
  let w := evaluate_work cfg samples now previous in
  reason ← reason_of cfg w;
  Ok (mkVerdict canonical_id (w_state w) (rate_of (w_recent w)) (count_of (w_recent w))
        (w_opened w) (w_expires w) reason (w_probe w) (w_closed w) (w_probe_started w)).

(** ** The registry [CircuitBreakers]

    Its lock makes every method one atomic step; the state is the dictionary of verdicts. *)

Abbreviation verdicts := (gmap string BreakerVerdict).

(** The loop of [update], over the names in the order the set yields them.  A raising [evaluate]
    leaves the names already visited updated. *)
Fixpoint update_names (cfg : Config) (samples_by_model : gmap string (list AttemptSample)) (now : Z)
    (names : list string) (vs : verdicts) : verdicts * result unit :=
  match names with
  | [] => (vs, Ok tt)
  | n :: names' =>
      match evaluate cfg n (default [] (samples_by_model !! n)) now (vs !! n) with
      | Ok v => update_names cfg samples_by_model now names' (<[n := v]> vs)
      | Raise e => (vs, Raise e)
      end
  end.

Definition update (cfg : Config) (samples_by_model : gmap string (list AttemptSample)) (now : Z)
    (vs : verdicts) : verdicts * result verdicts :=
  let names := elements (dom samples_by_model ∪ dom vs) in
  let '(vs', r) := update_names cfg samples_by_model now names vs in
  (vs', match r with Ok _ => Ok vs' | Raise e => Raise e end).

Definition excluded (vs : verdicts) : gset string :=
  dom (filter (fun kv => excludes kv.2 = true) vs).

Definition allow_probe (canonical_id : string) (now : Z) (vs : verdicts) : verdicts * bool :=
  match vs !! canonical_id with
  | None => (vs, false)
  | Some v =>
      if negb (bool_decide (v_state v = HALF_OPEN)) then (vs, false)
      else if v_probe_in_flight v then (vs, false)
      else (<[canonical_id :=
               mkVerdict (v_id v) (v_state v) (v_failure_rate v) (v_samples v) (v_opened_at v)
                 (v_expires_at v) ReasonProbeInFlight true (v_closed_at v) (Some now)]> vs, true)
  end.

Definition probe_busy (canonical_id : string) (vs : verdicts) : bool :=
  match vs !! canonical_id with
  | None => false
  | Some v => bool_decide (v_state v = HALF_OPEN) && v_probe_in_flight v
  end.

Definition release_probe (canonical_id : string) (vs : verdicts) : verdicts * bool :=
  match vs !! canonical_id with
  | None => (vs, false)
  | Some v =>
      if negb (v_probe_in_flight v) then (vs, false)
      else (<[canonical_id :=
               mkVerdict (v_id v) (v_state v) (v_failure_rate v) (v_samples v) (v_opened_at v)
                 (v_expires_at v) ReasonProbeAllowed false (v_closed_at v) None]> vs, true)
  end.

(** ** Well-formed verdicts *)

(** What every verdict the registry holds satisfies, with a cool-down of [cd] microseconds. *)
Definition wf_core (cd : Z) (st : BreakerState) (opened expires : option Z) (probe : bool)
    (closed started : option Z) : Prop :=
  match st with
  | CLOSED => opened = None /\ expires = None /\ probe = false /\ started = None
  | OPEN =>
      (exists o, opened = Some o /\ expires = Some (o + cd) /\
         forall c, closed = Some c -> c < o) /\
      probe = false /\ started = None
  | HALF_OPEN =>
      (exists o, opened = Some o /\ expires = Some (o + cd) /\
         forall c, closed = Some c -> c < o) /\
      (probe = true <-> is_Some started)
  end.

Definition wf_verdict (cd : Z) (v : BreakerVerdict) : Prop :=
  wf_core cd (v_state v) (v_opened_at v) (v_expires_at v) (v_probe_in_flight v)
    (v_closed_at v) (v_probe_started_at v).

Definition wf_work (cd : Z) (w : Work) : Prop :=
  wf_core cd (w_state w) (w_opened w) (w_expires w) (w_probe w) (w_closed w) (w_probe_started w).

Definition wf_verdicts (cd : Z) (vs : verdicts) : Prop := map_Forall (fun _ => wf_verdict cd) vs.

Definition cooldown_us (cfg : Config) : Z := timedelta_us (cooldown_seconds cfg).
Definition window_us (cfg : Config) : Z := timedelta_us (window_seconds cfg).

(** ** Helper lemmas: samples *)

Lemma recent_elem samples origin now s :
  s ∈ recent_samples samples origin now <-> s ∈ samples /\ origin < at_ s <= now.
Proof.
  unfold recent_samples. rewrite elem_of_py_sorted, !list_elem_of_In, filter_In.
  rewrite andb_true_iff, Z.ltb_lt, Z.leb_le. done.
Qed.

Lemma recent_sorted samples origin now :
  StronglySorted (fun a b => (at_ a <=? at_ b) = true) (recent_samples samples origin now).
Proof.
  apply py_sorted_Sorted.
  - intros x y. destruct (Z.leb_spec (at_ x) (at_ y)), (Z.leb_spec (at_ y) (at_ x)); auto; lia.
  - intros x y z H1 H2. bool_to_prop. apply Z.leb_le. lia.
Qed.

Lemma count_of_nonneg l : 0 <= count_of l.
Proof. unfold count_of. lia. Qed.

Lemma count_of_0 l : count_of l = 0 <-> l = [].
Proof. unfold count_of. destruct l; cbn; split; (done || lia). Qed.

Lemma rate_of_None l : rate_of l = None <-> l = [].
Proof.
  unfold rate_of. destruct (Z.eqb_spec (count_of l) 0) as [E|E].
  - apply count_of_0 in E. tauto.
  - split; [done|]. intros ->. by destruct E.
Qed.

Lemma failures_le_count l : 0 <= failures_of l <= count_of l.
Proof. unfold failures_of, count_of. split; eauto with loadcoach. Qed.

Lemma last_filter_Some {A} (p : A -> bool) l x :
  last (List.filter p l) = Some x -> x ∈ l /\ p x = true.
Proof.
  intros H. apply last_Some_elem_of in H. rewrite list_elem_of_In, filter_In in H.
  by rewrite list_elem_of_In.
Qed.

(** The last element of a sorted list is its latest. *)
Lemma sorted_last_max l s s' :
  StronglySorted (fun a b => (at_ a <=? at_ b) = true) l ->
  last l = Some s -> s' ∈ l -> at_ s' <= at_ s.
Proof.
  induction 1 as [|x l Hs IH Hx]; [done|]. intros Hlast Hin.
  destruct l as [|y l].
  - cbn in Hlast. simplify_eq. apply list_elem_of_singleton in Hin. by subst.
  - rewrite last_cons_cons in Hlast. apply elem_of_cons in Hin as [->|Hin]; [|by apply IH].
    rewrite Forall_forall in Hx. apply Z.leb_le, Hx. by apply last_Some_elem_of.
Qed.

Lemma sorted_filter (p : AttemptSample -> bool) l :
  StronglySorted (fun a b => (at_ a <=? at_ b) = true) l ->
  StronglySorted (fun a b => (at_ a <=? at_ b) = true) (List.filter p l).
Proof.
  induction 1 as [|x l Hs IH Hx]; cbn; [constructor|].
  destruct (p x); [|done]. constructor; [done|]. rewrite Forall_forall in Hx |- *.
  intros y Hy. apply Hx. rewrite list_elem_of_In, filter_In in Hy.
  by apply list_elem_of_In, Hy.
Qed.

(** Nothing in the window is later than the latest sample after the opening. *)
Lemma nothing_after_last samples origin now o s :
  let recent := recent_samples samples origin now in
  last (List.filter (fun s => o <? at_ s) recent) = Some s ->
  List.filter (fun s' => at_ s <? at_ s') recent = [].
Proof.
  intros recent Hlast. pose proof (recent_sorted samples origin now) as Hs. fold recent in Hs.
  destruct (last_filter_Some _ _ _ Hlast) as [_ Ho]. apply Z.ltb_lt in Ho.
  destruct (List.filter (fun s' => at_ s <? at_ s') recent) as [|s' l] eqn:E; [done|]. exfalso.
  assert (Hin : s' ∈ List.filter (fun s' => at_ s <? at_ s') recent) by (rewrite E; left).
  rewrite list_elem_of_In, filter_In in Hin. destruct Hin as [Hin Hgt]. apply Z.ltb_lt in Hgt.
  pose proof (sorted_last_max _ s s' (sorted_filter _ _ Hs) Hlast) as Hmax.
  rewrite list_elem_of_In, filter_In, Z.ltb_lt in Hmax. specialize (Hmax ltac:(split; [done|lia])).
  lia.
Qed.

(** ** Helper lemmas: well-formedness through the stages *)

Definition wf_previous (cd : Z) (previous : option BreakerVerdict) : Prop :=
  match previous with None => True | Some p => wf_verdict cd p end.

Lemma wf_start cd samples now window previous :
  wf_previous cd previous -> wf_work cd (start_work samples now window previous).
Proof. destruct previous as [p|]; [done|]. intros _. cbv. tauto. Qed.

Lemma wf_cool_down cd now w : wf_work cd w -> wf_work cd (cool_down now w).
Proof.
  unfold cool_down, wf_work. destruct (w_state w) eqn:Es; try (by rewrite Es).
  destruct (w_expires w) as [e|] eqn:Ee; [|by rewrite Es, Ee].
  destruct (e <=? now); [|by rewrite Es, Ee].
  cbn. intros [Ho _]. split; [exact Ho|]. by split; [|intros []].
Qed.

Lemma wf_release_lost cd now c w : wf_work cd w -> wf_work cd (release_lost_probe now c w).
Proof.
  unfold release_lost_probe, wf_work. destruct (w_state w) eqn:Es; try (by rewrite Es).
  destruct (w_probe w) eqn:Ep; [|by rewrite Es, Ep].
  destruct (w_probe_started w) as [p|] eqn:Ee; [|by rewrite Es, Ep, Ee].
  destruct (p + c <=? now); [|by rewrite Es, Ep, Ee].
  cbn. intros [Ho _]. split; [exact Ho|]. by split; [|intros []].
Qed.

(** The samples of a working state are later than its last close. *)
Definition after_close (w : Work) : Prop :=
  forall c s, w_closed w = Some c -> s ∈ w_recent w -> c < at_ s.

Lemma after_close_start samples now window previous :
  after_close (start_work samples now window previous).
Proof.
  intros c s. destruct previous as [p|]; cbn; [|done]. intros -> Hs.
  apply recent_elem in Hs as [_ Hs]. lia.
Qed.

Lemma wf_decide cd w : wf_work cd w -> wf_work cd (decide_probe cd w).
Proof.
  unfold decide_probe, wf_work. destruct (w_state w) eqn:Es; try (by rewrite Es).
  destruct (w_opened w) as [o|] eqn:Eo; [|by rewrite Es, Eo].
  destruct (last _) as [s|] eqn:El; [|by rewrite Es, Eo].
  intros [(o' & Ho & _ & Hc) _]. simplify_eq. apply last_filter_Some in El as [_ Hgt].
  apply Z.ltb_lt in Hgt. destruct (succeeded s); cbn; [done|].
  split; [|done]. exists (at_ s). split; [done|]. split; [done|].
  intros c Hcl. specialize (Hc c Hcl). lia.
Qed.

Lemma decide_closed_recent cd w :
  after_close w -> after_close (decide_probe cd w).
Proof.
  intros Ha. unfold decide_probe. destruct (w_state w); try done.
  destruct (w_opened w) as [o|]; [|done]. destruct (last _) as [s|]; [|done].
  destruct (succeeded s); [|exact Ha]. intros c s' [= <-] Hs'.
  cbn in Hs'. rewrite list_elem_of_In, filter_In, Z.ltb_lt in Hs'. lia.
Qed.

Lemma wf_trip cfg cd w : after_close w -> wf_work cd w -> wf_work cd (trip cfg cd w).
Proof.
  unfold trip, wf_work. intros Ha. destruct (w_state w) eqn:Es; try (by rewrite Es).
  destruct (rate_of _) as [rate|] eqn:Er; [|by rewrite Es].
  destruct (last _) as [s|] eqn:El; [|by rewrite Es].
  case_match; [|by rewrite Es]. cbn. intros (_ & _ & _ & ->).
  split; [|done]. exists (at_ s). split; [done|]. split; [done|].
  intros c Hc. apply (Ha c s Hc). by apply last_Some_elem_of.
Qed.

Lemma same_recent_cool now w : w_recent (cool_down now w) = w_recent w /\
  w_closed (cool_down now w) = w_closed w.
Proof. unfold cool_down. repeat case_match; done. Qed.

Lemma same_recent_release now c w : w_recent (release_lost_probe now c w) = w_recent w /\
  w_closed (release_lost_probe now c w) = w_closed w.
Proof. unfold release_lost_probe. repeat case_match; done. Qed.

(** The working state the probe decision is made on. *)
Definition before_decision (cfg : Config) samples now previous : Work :=
  release_lost_probe now (cooldown_us cfg)
    (cool_down now (start_work samples now (window_us cfg) previous)).

Lemma evaluate_work_eq cfg samples now previous :
  evaluate_work cfg samples now previous =
  trip cfg (cooldown_us cfg) (decide_probe (cooldown_us cfg)
    (before_decision cfg samples now previous)).
Proof. reflexivity. Qed.

Lemma before_decision_recent cfg samples now previous :
  w_recent (before_decision cfg samples now previous) =
  w_recent (start_work samples now (window_us cfg) previous).
Proof.
  unfold before_decision. by rewrite (proj1 (same_recent_release _ _ _)), (proj1 (same_recent_cool _ _)).
Qed.

Lemma before_decision_after_close cfg samples now previous :
  after_close (before_decision cfg samples now previous).
Proof.
  intros c s. rewrite before_decision_recent. unfold before_decision.
  rewrite (proj2 (same_recent_release _ _ _)), (proj2 (same_recent_cool _ _)).
  apply after_close_start.
Qed.

Lemma wf_before_decision cfg samples now previous :
  wf_previous (cooldown_us cfg) previous ->
  wf_work (cooldown_us cfg) (before_decision cfg samples now previous).
Proof. intros. by apply wf_release_lost, wf_cool_down, wf_start. Qed.

Lemma wf_evaluate_work cfg samples now previous :
  wf_previous (cooldown_us cfg) previous ->
  wf_work (cooldown_us cfg) (evaluate_work cfg samples now previous).
Proof.
  intros Hp. rewrite evaluate_work_eq. apply wf_trip.
  - apply decide_closed_recent, before_decision_after_close.
  - by apply wf_decide, wf_before_decision.
Qed.

Lemma evaluate_Ok_inv cfg cid samples now previous v :
  evaluate cfg cid samples now previous = Ok v ->
  let w := evaluate_work cfg samples now previous in
  v_id v = cid /\ v_state v = w_state w /\ v_failure_rate v = rate_of (w_recent w) /\
  v_samples v = count_of (w_recent w) /\ v_opened_at v = w_opened w /\
  v_expires_at v = w_expires w /\ v_probe_in_flight v = w_probe w /\
  v_closed_at v = w_closed w /\ v_probe_started_at v = w_probe_started w.
Proof.
  unfold evaluate. intros H. apply bind_Ok_inv in H as (r & _ & [= <-]). done.
Qed.

Lemma wf_evaluate cfg cid samples now previous v :
  wf_previous (cooldown_us cfg) previous ->
  evaluate cfg cid samples now previous = Ok v -> wf_verdict (cooldown_us cfg) v.
Proof.
  intros Hp (_ & Hs & _ & _ & Ho & He & Hpr & Hc & Hps)%evaluate_Ok_inv.
  unfold wf_verdict. rewrite Hs, Ho, He, Hpr, Hc, Hps. by apply wf_evaluate_work.
Qed.

Lemma evaluate_Raise_iff cfg cid samples now previous e :
  evaluate cfg cid samples now previous = Raise e <->
  e = TypeError /\ w_state (evaluate_work cfg samples now previous) = OPEN /\
  w_recent (evaluate_work cfg samples now previous) = [].
Proof.
  unfold evaluate, reason_of. set (w := evaluate_work cfg samples now previous).
  rewrite <- rate_of_None. destruct (w_state w), (rate_of (w_recent w)); cbn; intuition congruence.
Qed.

(** The raising calls, in terms of the inputs: the breaker was open, its cool-down has not elapsed
    and no sample counts. *)
Lemma decide_open_recent cd w :
  w_state (decide_probe cd w) = OPEN -> w_recent (decide_probe cd w) = [] -> w_state w = OPEN.
Proof.
  unfold decide_probe. destruct (w_state w) eqn:Es; rewrite ?Es; try done.
  destruct (w_opened w) as [o|]; [|by rewrite Es].
  destruct (last _) as [s|] eqn:El; [|by rewrite Es].
  destruct (succeeded s); cbn; [done|]. intros _ Hr. by rewrite Hr in El.
Qed.

Lemma trip_open_recent cfg cd w :
  w_state (trip cfg cd w) = OPEN -> w_recent (trip cfg cd w) = [] -> w_state w = OPEN.
Proof.
  unfold trip. destruct (w_state w) eqn:Es; rewrite ?Es; try done.
  destruct (rate_of (w_recent w)) eqn:Er; [|by rewrite Es].
  destruct (last (w_recent w)) eqn:El; [|by rewrite Es].
  case_match; cbn; [|by rewrite Es]. intros _ Hr. by rewrite Hr in El.
Qed.

Lemma before_decision_open cfg samples now previous :
  w_state (before_decision cfg samples now previous) = OPEN ->
  exists p, previous = Some p /\ v_state p = OPEN /\
    (forall e, v_expires_at p = Some e -> now < e) /\
    before_decision cfg samples now previous = start_work samples now (window_us cfg) previous.
Proof.
  unfold before_decision, release_lost_probe.
  set (w := start_work _ _ _ _). intros H.
  assert (Hc : w_state (cool_down now w) = OPEN).
  { revert H. destruct (w_state (cool_down now w)) eqn:E; rewrite ?E; try done.
    destruct (w_probe _); [|by rewrite E]. destruct (w_probe_started _); [|by rewrite E].
    case_match; [done|by rewrite E]. }
  rewrite Hc. revert Hc. unfold cool_down.
  destruct previous as [p|]; [|done]. destruct (w_state w) eqn:Es; rewrite ?Es; try done.
  destruct (w_expires w) as [e|] eqn:Ee.
  - destruct (Z.leb_spec e now); cbn; [done|]. intros _. exists p.
    split; [done|]. split; [done|]. split; [|done]. intros e' He'. cbn in Ee. simplify_eq. lia.
  - intros _. exists p. split; [done|]. split; [done|]. split; [|done].
    intros e' He'. cbn in Ee. congruence.
Qed.

Lemma decide_keeps_open cd w : w_state w = OPEN -> decide_probe cd w = w.
Proof. unfold decide_probe. by intros ->. Qed.
Lemma trip_keeps_open cfg cd w : w_state w = OPEN -> trip cfg cd w = w.
Proof. unfold trip. by intros ->. Qed.

(** An open breaker within its cool-down is left as it is. *)
Lemma evaluate_work_open cfg samples now p e :
  v_state p = OPEN -> v_expires_at p = Some e -> now < e ->
  evaluate_work cfg samples now (Some p) = start_work samples now (window_us cfg) (Some p).
Proof.
  intros Hs He Hlt. rewrite evaluate_work_eq. unfold before_decision.
  assert (Hc : cool_down now (start_work samples now (window_us cfg) (Some p)) =
               start_work samples now (window_us cfg) (Some p)).
  { unfold cool_down. cbn. rewrite Hs, He. destruct (Z.leb_spec e now); [lia|done]. }
  rewrite Hc. unfold release_lost_probe. cbn [w_state start_work]. rewrite Hs.
  rewrite decide_keeps_open by done. by rewrite trip_keeps_open.
Qed.

(** The samples an evaluation after [p] counts. *)
Definition window_of (cfg : Config) (samples : list AttemptSample) (now : Z) (p : BreakerVerdict)
    : list AttemptSample :=
  w_recent (start_work samples now (window_us cfg) (Some p)).

Lemma window_elem cfg samples now p s :
  s ∈ window_of cfg samples now p <->
  s ∈ samples /\ now - window_us cfg < at_ s <= now /\
  (forall c, v_closed_at p = Some c -> c < at_ s).
Proof.
  unfold window_of. cbn. rewrite recent_elem. destruct (v_closed_at p) as [c|].
  - split; intros [Hin H]; (split; [done|]).
    + split; [lia|]. intros c' [= <-]. lia.
    + destruct H as [H1 H2]. specialize (H2 c eq_refl). lia.
  - split; intros [Hin H]; (split; [done|]); [by split|by destruct H].
Qed.

(** After the cool-down, with no attempt later than the opening, the breaker is half open and its
    probe, if any, was let through less than a cool-down ago. *)
Lemma before_decision_elapsed cfg samples now p o :
  wf_verdict (cooldown_us cfg) p -> v_state p <> CLOSED -> v_opened_at p = Some o ->
  o + cooldown_us cfg <= now ->
  let w := before_decision cfg samples now (Some p) in
  w_state w = HALF_OPEN /\ w_opened w = Some o /\ w_expires w = Some (o + cooldown_us cfg) /\
  w_recent w = window_of cfg samples now p /\ w_closed w = v_closed_at p /\
  ((forall ps, v_probe_started_at p = Some ps -> ps + cooldown_us cfg <= now) ->
   w_probe w = false).
Proof.
  intros Hwf Hne Ho Hnow. unfold wf_verdict, wf_core in Hwf.
  unfold before_decision, cool_down. cbn [w_state start_work].
  destruct (v_state p) eqn:Es; [done|..].
  - destruct Hwf as [(o' & Ho' & He & _) [Hpr Hps]].
    assert (o' = o) as -> by congruence. cbn [w_expires]. rewrite He.
    destruct (Z.leb_spec (o + cooldown_us cfg) now); [|lia].
    unfold release_lost_probe. cbn. by repeat split.
  - destruct Hwf as [(o' & Ho' & He & _) Hpr]. assert (o' = o) as -> by congruence.
    unfold release_lost_probe. cbn [w_state w_probe w_probe_started start_work].
    destruct (v_probe_in_flight p) eqn:Epr; [|by repeat split].
    destruct (v_probe_started_at p) as [ps|] eqn:Eps.
    + destruct (Z.leb_spec (ps + cooldown_us cfg) now) as [Hle|Hlt]; cbn; [by repeat split|].
      repeat split; try done. intros Hall. specialize (Hall ps eq_refl). lia.
    + by destruct (proj1 Hpr eq_refl).
Qed.

(** ** Helper lemmas: the threshold and the registry *)

(** The float comparison [failures / count >= 0.5] is the integer one. *)
Lemma half_rate f c : 0 <= f <= c -> 0 < c <= 2 ^ 53 ->
  (flit 1 2 <=? int_div f c) = (c <=? 2 * f).
Proof.
  intros Hf Hc. rewrite int_div_pos_eq by lia.
  assert (Hrep : repr (flit 1 2)) by (apply repr_flit; lia).
  assert (Hhalf : 2 * flit 1 2 = fone) by (vm_compute; reflexivity).
  destruct (Z.leb_spec c (2 * f)) as [H|H].
  - apply Z.leb_le. apply fround_ge_repr; [lia|done|].
    rewrite <- Hhalf. assert (0 < flit 1 2) by (vm_compute; reflexivity). nia.
  - apply Z.leb_gt. set (b := (2 ^ 53 - 1) * 2 ^ (1074 - 54)).
    assert (Hb : b < flit 1 2) by (vm_compute; reflexivity).
    assert (Hfone : fone = 2 ^ 54 * 2 ^ (1074 - 54)) by (vm_compute; reflexivity).
    apply Z.le_lt_trans with b; [|done].
    apply fround_le_repr; [lia|apply repr_scaled; lia|]. subst b. rewrite Hfone.
    assert (0 < 2 ^ (1074 - 54)) by (apply Z.pow_pos_nonneg; lia). nia.
Qed.

Lemma update_names_lookup cfg samples now names vs vs' :
  NoDup names -> update_names cfg samples now names vs = (vs', Ok tt) ->
  forall n, if decide (n ∈ names)
            then exists v, vs' !! n = Some v /\
                   evaluate cfg n (default [] (samples !! n)) now (vs !! n) = Ok v
            else vs' !! n = vs !! n.
Proof.
  intros Hnd. revert vs. induction Hnd as [|x names Hx Hnd IH]; intros vs; cbn.
  { intros [= <-] n. by rewrite decide_False by apply not_elem_of_nil. }
  destruct (evaluate _ x _ _ _) as [v|e] eqn:Ev; [|done].
  intros H n. specialize (IH _ H n).
  destruct (decide (n = x)) as [->|Hne].
  - rewrite decide_True by left. rewrite decide_False in IH by done.
    exists v. split; [|done]. by rewrite IH, lookup_insert_eq.
  - rewrite lookup_insert_ne in IH by done.
    destruct (decide (n ∈ names)).
    + by rewrite decide_True by (by right).
    + rewrite decide_False; [done|]. rewrite elem_of_cons. tauto.
Qed.

Lemma update_names_total cfg samples now names vs :
  NoDup names ->
  (forall n, n ∈ names ->
     is_ok (evaluate cfg n (default [] (samples !! n)) now (vs !! n)) = true) ->
  (update_names cfg samples now names vs).2 = Ok tt.
Proof.
  intros Hnd. revert vs. induction Hnd as [|x names Hx Hnd IH]; intros vs Hall; cbn; [done|].
  pose proof (Hall x ltac:(left)) as Hok.
  destruct (evaluate _ x _ _ _) as [v|e]; [|done].
  apply IH. intros n Hn. rewrite lookup_insert_ne by (intros ->; done). apply Hall. by right.
Qed.

Lemma update_names_wf cfg samples now names vs :
  wf_verdicts (cooldown_us cfg) vs ->
  wf_verdicts (cooldown_us cfg) (update_names cfg samples now names vs).1.
Proof.
  revert vs. induction names as [|x names IH]; intros vs Hwf; cbn; [done|].
  destruct (evaluate _ x _ _ _) as [v|e] eqn:Ev; [|done].
  apply IH, map_Forall_insert_2; [|done].
  eapply wf_evaluate; [|exact Ev]. destruct (vs !! x) as [p|] eqn:E; [|done].
  by apply (Hwf x p).
Qed.

(** ** The shipped thresholds *)

Lemma default_cooldown : cooldown_us default_config = 300000000.
Proof. vm_compute. reflexivity. Qed.

Lemma default_window : window_us default_config = 600000000.
Proof. vm_compute. reflexivity. Qed.

(** A verdict opened at instant zero under the default thresholds. *)
Definition opened_at_zero : BreakerVerdict :=
  mkVerdict "m" OPEN (Some fone) 5 (Some 0) (Some 300000000)
    (ReasonOpen 5 5 600 fone (Some 300000000)) false None None.

Lemma wf_opened_at_zero : wf_verdict (cooldown_us default_config) opened_at_zero.
Proof.
  rewrite default_cooldown. split; [|split; reflexivity].
  exists 0. split; [reflexivity|]. split; [reflexivity|]. intros c Hc. discriminate Hc.
Qed.

(** ** Properties *)

Module Properties.

(** The registry invariant.  Every stored verdict is well formed: an open or half-open breaker
    has an opening instant after its last close and an expiry exactly one cool-down later, a closed
    one has neither, and a probe is in flight exactly when its start is recorded.  The empty
    registry satisfies it, and [update] (even when it raises half way), [allow_probe] and
    [release_probe] preserve it. *)
Theorem registry_invariant (cfg : Config) (vs : verdicts)
    (samples : gmap string (list AttemptSample)) (n : string) (now : Z) :
  wf_verdicts (cooldown_us cfg) ∅ /\
  (wf_verdicts (cooldown_us cfg) vs ->
     wf_verdicts (cooldown_us cfg) (update cfg samples now vs).1 /\
     wf_verdicts (cooldown_us cfg) (allow_probe n now vs).1 /\
     wf_verdicts (cooldown_us cfg) (release_probe n vs).1).
Proof.
  split; [apply map_Forall_empty|]. intros Hwf. split; [|split].
  - unfold update.
    pose proof (update_names_wf cfg samples now (elements (dom samples ∪ dom vs)) vs Hwf) as H.
    by destruct (update_names _ _ _ _ vs).
  - unfold allow_probe. destruct (vs !! n) as [v|] eqn:Ev; [|done].
    case_bool_decide as Hs; cbn; [|done]. destruct (v_probe_in_flight v) eqn:Ep; cbn; [done|].
    apply map_Forall_insert_2; [|done]. pose proof (Hwf n v Ev) as Hv.
    unfold wf_verdict, wf_core in *. cbn. rewrite Hs in *. destruct Hv as [Ho _].
    split; [done|]. by split; [eexists|].
  - unfold release_probe. destruct (vs !! n) as [v|] eqn:Ev; [|done].
    destruct (v_probe_in_flight v) eqn:Ep; cbn; [|done].
    apply map_Forall_insert_2; [|done]. pose proof (Hwf n v Ev) as Hv.
    unfold wf_verdict, wf_core in *. cbn. rewrite Ep in Hv.
    destruct (v_state v); [intuition congruence|intuition congruence|].
    destruct Hv as [Ho _].
    split; [done|]. by split; [|intros [? ?]].
Qed.

(** When an evaluation raises.  Re-evaluating a well-formed verdict raises [TypeError] (the
    formatting of an absent failure rate) exactly when the breaker is open, its cool-down has not
    elapsed and no sample counts; with a cool-down no longer than the window and the opening
    attempt still among the samples and not in the future, that cannot happen. *)
Theorem evaluate_raises_iff (cfg : Config) (n : string) (samples : list AttemptSample) (now : Z)
    (p : BreakerVerdict) :
  wf_verdict (cooldown_us cfg) p ->
  (is_ok (evaluate cfg n samples now (Some p)) = false <->
     v_state p = OPEN /\ window_of cfg samples now p = [] /\
     exists e, v_expires_at p = Some e /\ now < e) /\
  (cooldown_us cfg <= window_us cfg ->
   (forall o, v_opened_at p = Some o -> o <= now /\ exists s, s ∈ samples /\ at_ s = o) ->
   is_ok (evaluate cfg n samples now (Some p)) = true).
Proof.
  intros Hwf.
  assert (Hiff : is_ok (evaluate cfg n samples now (Some p)) = false <->
     v_state p = OPEN /\ window_of cfg samples now p = [] /\
     exists e, v_expires_at p = Some e /\ now < e).
  { split.
    - destruct (evaluate _ _ _ _ _) as [v|e] eqn:E; [done|]. intros _.
      apply evaluate_Raise_iff in E as (_ & Hs & Hr). rewrite evaluate_work_eq in Hs, Hr.
      pose proof (trip_open_recent _ _ _ Hs Hr) as Hs2. rewrite trip_keeps_open in Hr by done.
      pose proof (decide_open_recent _ _ Hs2 Hr) as Hs3. rewrite decide_keeps_open in Hr by done.
      rewrite before_decision_recent in Hr.
      apply before_decision_open in Hs3 as (p' & [= <-] & Hp & He & _).
      split; [done|]. split; [done|]. unfold wf_verdict, wf_core in Hwf. rewrite Hp in Hwf.
      destruct Hwf as [(o & _ & Hexp & _) _]. exists (o + cooldown_us cfg). auto.
    - intros (Hs & Hw & e & He & Hlt).
      assert (E : evaluate cfg n samples now (Some p) = Raise TypeError).
      { apply evaluate_Raise_iff. rewrite (evaluate_work_open _ _ _ _ e) by done. done. }
      by rewrite E. }
  split; [done|]. intros Hcd Hop. apply not_false_is_true. rewrite Hiff.
  intros (Hs & Hw & e & He & Hlt). unfold wf_verdict, wf_core in Hwf. rewrite Hs in Hwf.
  destruct Hwf as [(o & Ho & Hexp & Hc) _]. destruct (Hop o Ho) as (Hle & s & Hin & Hat).
  assert (Hmem : s ∈ window_of cfg samples now p).
  { apply window_elem. split; [done|]. rewrite Hat. split; [|done]. rewrite He in Hexp.
    simplify_eq. lia. }
  rewrite Hw in Hmem. by apply not_elem_of_nil in Hmem.
Qed.

Lemma evaluate_raises_iff_witness :
  is_ok (evaluate default_config "m" [] 1 (Some opened_at_zero)) = false /\
  is_ok (evaluate default_config "m" [mkSample 0 false] 1 (Some opened_at_zero)) = true.
Proof.
  split.
  - apply (evaluate_raises_iff default_config "m" [] 1 opened_at_zero wf_opened_at_zero).
    split; [reflexivity|]. split; [vm_compute; reflexivity|].
    exists 300000000. split; [reflexivity|lia].
  - apply (evaluate_raises_iff default_config "m" [mkSample 0 false] 1 opened_at_zero
             wf_opened_at_zero).
    + rewrite default_cooldown, default_window. lia.
    + intros o [= <-]. split; [lia|]. exists (mkSample 0 false). split; [left|reflexivity].
Defined.

(** An open breaker excludes exactly for its cool-down, and no exclusion is for ever.  Before
    its expiry an open breaker stays open with the same instants; once the cool-down has elapsed
    (and, if a probe is out, a further cool-down since the probe started) an evaluation with no
    attempt later than the opening succeeds, finds the breaker half open with no probe in flight,
    and the model is a candidate again. *)
Theorem exclusion_is_bounded (cfg : Config) (n : string) (samples : list AttemptSample) (now : Z)
    (p : BreakerVerdict) :
  wf_verdict (cooldown_us cfg) p ->
  (forall v e, v_state p = OPEN -> v_expires_at p = Some e -> now < e ->
     evaluate cfg n samples now (Some p) = Ok v ->
     v_state v = OPEN /\ v_opened_at v = v_opened_at p /\ v_expires_at v = Some e /\
     excludes v = true) /\
  (forall o, excludes p = true -> v_opened_at p = Some o -> o + cooldown_us cfg <= now ->
     (forall ps, v_probe_started_at p = Some ps -> ps + cooldown_us cfg <= now) ->
     (forall s, s ∈ samples -> at_ s <= o) ->
     exists v, evaluate cfg n samples now (Some p) = Ok v /\
       v_state v = HALF_OPEN /\ v_probe_in_flight v = false /\ excludes v = false).
Proof.
  intros Hwf. split.
  - intros v e Hs He Hlt (_ & Hvs & _ & _ & Ho & Hve & _)%evaluate_Ok_inv.
    rewrite (evaluate_work_open _ _ _ _ e) in Hvs, Ho, Hve by done. cbn in Hvs, Ho, Hve.
    unfold excludes. rewrite Hvs, Hs, Hve, He. done.
  - intros o Hex Ho Hnow Hps Hall.
    assert (Hne : v_state p <> CLOSED).
    { intros Hcl. unfold excludes in Hex. by rewrite Hcl in Hex. }
    destruct (before_decision_elapsed cfg samples now p o Hwf Hne Ho Hnow)
      as (Hs & Hwo & _ & Hr & _ & Hpr). specialize (Hpr Hps).
    assert (Hd : evaluate_work cfg samples now (Some p) =
                 before_decision cfg samples now (Some p)).
    { rewrite evaluate_work_eq. unfold decide_probe. rewrite Hs, Hwo.
      destruct (last _) as [s|] eqn:El.
      - apply last_filter_Some in El as [Hin Hgt]. apply Z.ltb_lt in Hgt.
        rewrite Hr, window_elem in Hin. destruct Hin as [Hin _]. specialize (Hall s Hin). lia.
      - unfold trip. by rewrite Hs. }
    unfold evaluate, reason_of. rewrite Hd, Hs, Hpr. cbn. eexists. split; [done|]. by cbn.
Qed.

Lemma exclusion_is_bounded_witness :
  exists v, evaluate default_config "m" [] 300000000 (Some opened_at_zero) = Ok v /\
    v_state v = HALF_OPEN /\ v_probe_in_flight v = false /\ excludes v = false.
Proof.
  apply (proj2 (exclusion_is_bounded default_config "m" [] 300000000 opened_at_zero
                 wf_opened_at_zero) 0).
  - reflexivity.
  - reflexivity.
  - rewrite default_cooldown. lia.
  - intros ps Hps. discriminate Hps.
  - intros s Hs. by apply not_elem_of_nil in Hs.
Defined.

(** The probe decides.  Once the cool-down has elapsed, the latest counted attempt after the
    opening closes the breaker when it succeeded (forgetting every sample up to it, so the failures
    that opened the breaker cannot reopen it) and reopens it for a fresh cool-down when it failed. *)
Theorem probe_decides (cfg : Config) (n : string) (samples : list AttemptSample) (now o : Z)
    (p : BreakerVerdict) (s : AttemptSample) :
  wf_verdict (cooldown_us cfg) p -> v_state p <> CLOSED -> v_opened_at p = Some o ->
  o + cooldown_us cfg <= now ->
  last (List.filter (fun s => o <? at_ s) (window_of cfg samples now p)) = Some s ->
  exists v, evaluate cfg n samples now (Some p) = Ok v /\
    if succeeded s
    then v_state v = CLOSED /\ v_closed_at v = Some (at_ s) /\ v_samples v = 0 /\
         v_failure_rate v = None /\ excludes v = false
    else v_state v = OPEN /\ v_opened_at v = Some (at_ s) /\
         v_expires_at v = Some (at_ s + cooldown_us cfg) /\ v_closed_at v = v_closed_at p.
Proof.
  intros Hwf Hne Ho Hnow Hlast.
  destruct (before_decision_elapsed cfg samples now p o Hwf Hne Ho Hnow)
    as (Hs & Hwo & _ & Hr & Hcl & _).
  unfold evaluate, reason_of. rewrite evaluate_work_eq. unfold decide_probe.
  rewrite Hs, Hwo, Hr, Hlast. destruct (succeeded s) eqn:Esucc.
  - assert (Hnil : List.filter (fun s' => at_ s <? at_ s') (window_of cfg samples now p) = [])
      by (eapply nothing_after_last; exact Hlast).
    rewrite Hnil. cbn. eexists. split; [done|]. by cbn.
  - rewrite trip_keeps_open by done. cbn [w_recent w_state].
    assert (Hrate : is_Some (rate_of (window_of cfg samples now p))).
    { apply not_eq_None_Some. rewrite rate_of_None. intros Hnil. by rewrite Hnil in Hlast. }
    destruct Hrate as [r ->]. cbn. eexists. split; [done|]. cbn. by rewrite Hcl.
Qed.

Lemma probe_decides_witness :
  exists v, evaluate default_config "m" [mkSample 0 false; mkSample 301000000 true] 302000000
              (Some opened_at_zero) = Ok v /\
    v_state v = CLOSED /\ v_closed_at v = Some 301000000 /\ v_samples v = 0 /\
    v_failure_rate v = None /\ excludes v = false.
Proof.
  apply (probe_decides default_config "m" [mkSample 0 false; mkSample 301000000 true] 302000000 0
           opened_at_zero (mkSample 301000000 true) wf_opened_at_zero).
  - discriminate.
  - reflexivity.
  - rewrite default_cooldown. lia.
  - vm_compute. reflexivity.
Defined.

(** The opening rule at the shipped thresholds.  A model seen for the first time is opened
    exactly when the last ten minutes hold at least five attempts of which at least half failed;
    the breaker then opens at the latest attempt and expires five minutes later.  The float
    comparison of the rate with 0.5 is exact for any count a process can hold. *)
Theorem opening_rule (n : string) (samples : list AttemptSample) (now : Z) :
  let recent := recent_samples samples (now - 600000000) now in
  count_of recent <= 2 ^ 53 ->
  exists v, evaluate default_config n samples now None = Ok v /\
    v_samples v = count_of recent /\
    (v_state v = OPEN <-> 5 <= count_of recent /\ count_of recent <= 2 * failures_of recent) /\
    (v_state v = OPEN \/ v_state v = CLOSED) /\
    (v_state v = OPEN -> exists s, last recent = Some s /\ v_opened_at v = Some (at_ s) /\
       v_expires_at v = Some (at_ s + 300000000)).
Proof.
  intros recent Hmax.
  unfold evaluate, reason_of. rewrite evaluate_work_eq.
  change (before_decision default_config samples now None)
    with (start_work samples now (window_us default_config) None).
  rewrite default_cooldown, default_window. unfold decide_probe, trip. cbn [start_work w_state w_recent w_opened].
  fold recent. pose proof (failures_le_count recent) as Hf. unfold rate_of.
  destruct (Z.eqb_spec (count_of recent) 0) as [E0|E0].
  { cbn. unfold rate_of. rewrite (proj2 (Z.eqb_eq _ _) E0). eexists. split; [done|]. cbn.
    split; [done|]. split; [split; [done|lia]|]. split; [by right|done]. }
  destruct (last recent) as [s|] eqn:El.
  2:{ apply last_None in El. by rewrite El in E0. }
  unfold default_config, DEFAULT_MIN_SAMPLES, DEFAULT_FAILURE_RATE.
  cbn [min_samples failure_rate_threshold]. rewrite half_rate by lia.
  destruct (Z.leb_spec 5 (count_of recent)), (Z.leb_spec (count_of recent) (2 * failures_of recent));
    cbn; unfold rate_of; rewrite (proj2 (Z.eqb_neq _ _) E0); cbn;
    (eexists; split; [done|]; cbn; split; [done|]; split; [split; (done || lia)|];
     split; [by auto|]); intros ?; try done; by exists s.
Qed.

Lemma opening_rule_witness :
  exists v, evaluate default_config "m"
      [mkSample 5 false; mkSample 3 true; mkSample 1 false; mkSample 4 false; mkSample 2 true] 10
      None = Ok v /\ v_state v = OPEN.
Proof.
  destruct (opening_rule "m"
      [mkSample 5 false; mkSample 3 true; mkSample 1 false; mkSample 4 false; mkSample 2 true] 10)
    as (v & Hv & _ & Hopen & _).
  - vm_compute. discriminate.
  - exists v. split; [exact Hv|]. apply Hopen. vm_compute. split; discriminate.
Defined.

(** A single probe.  [allow_probe] succeeds exactly on a half-open model with no probe out;
    after it succeeds the model is excluded and busy and every further [allow_probe] is refused
    until [release_probe] (or an evaluation) gives the probe back, after which the model is a
    candidate again.  No other model's verdict changes. *)
Theorem single_probe (n : string) (now now' : Z) (vs : verdicts) :
  let '(vs', granted) := allow_probe n now vs in
  (granted = true <-> exists v, vs !! n = Some v /\ v_state v = HALF_OPEN /\
                        v_probe_in_flight v = false) /\
  (granted = false -> vs' = vs) /\
  (forall m, m <> n -> vs' !! m = vs !! m) /\
  (granted = true ->
     probe_busy n vs' = true /\ n ∈ excluded vs' /\ allow_probe n now' vs' = (vs', false) /\
     let '(vs'', released) := release_probe n vs' in
     released = true /\ n ∉ excluded vs'' /\ (allow_probe n now' vs'').2 = true).
Proof.
  unfold allow_probe at 1. destruct (vs !! n) as [v|] eqn:Ev.
  2:{ split; [split; [done|by intros (? & ? & _)]|]. by auto. }
  case_bool_decide as Hs; cbn.
  2:{ split; [split; [done|intros (? & [= <-] & ? & _); done]|]. by auto. }
  destruct (v_probe_in_flight v) eqn:Ep; cbn.
  { split; [split; [done|intros (? & [= <-] & _ & ?); congruence]|]. by auto. }
  split; [split; [intros _; by exists v|done]|]. split; [done|].
  split; [intros m Hm; by rewrite lookup_insert_ne|]. intros _.
  unfold probe_busy, allow_probe, release_probe, excluded. rewrite !lookup_insert_eq. cbn.
  rewrite Hs. rewrite !lookup_insert_eq. cbn.
  split; [done|]. split; [|split; [done|split; [done|split; [|done]]]].
  - apply elem_of_dom. eexists. apply map_lookup_filter_Some. rewrite lookup_insert_eq.
    split; [done|]. cbn. done.
  - rewrite not_elem_of_dom, map_lookup_filter_None. right. intros v' Hv'.
    rewrite lookup_insert_eq in Hv'. simplify_eq. done.
Qed.

(** [update] is the pointwise evaluation.  When no evaluation raises, every known or sampled
    model's new verdict is [evaluate] of its own samples and previous verdict, whatever the order
    in which the set of names is visited, and no other name appears. *)
Theorem update_pointwise (cfg : Config) (samples : gmap string (list AttemptSample)) (now : Z)
    (vs : verdicts) :
  (forall n, n ∈ dom samples ∪ dom vs ->
     is_ok (evaluate cfg n (default [] (samples !! n)) now (vs !! n)) = true) ->
  exists vs', update cfg samples now vs = (vs', Ok vs') /\
    dom vs' = dom samples ∪ dom vs /\
    (forall n v, vs' !! n = Some v <->
       n ∈ dom samples ∪ dom vs /\
       evaluate cfg n (default [] (samples !! n)) now (vs !! n) = Ok v).
Proof.
  intros Hok. unfold update. set (names := elements (dom samples ∪ dom vs)).
  assert (Hnd : NoDup names) by apply NoDup_elements.
  assert (Hmem : forall n, n ∈ names <-> n ∈ dom samples ∪ dom vs)
    by (intros; apply elem_of_elements).
  pose proof (update_names_total cfg samples now names vs Hnd) as Htot.
  destruct (update_names cfg samples now names vs) as [vs' r] eqn:E. cbn in Htot.
  rewrite Htot in * by (intros n Hn; by apply Hok, Hmem).
  pose proof (update_names_lookup _ _ _ _ _ _ Hnd E) as Hl.
  assert (Hspec : forall n v, vs' !! n = Some v <->
       n ∈ dom samples ∪ dom vs /\
       evaluate cfg n (default [] (samples !! n)) now (vs !! n) = Ok v).
  { intros n v. rewrite <- Hmem. specialize (Hl n).
    destruct (decide (n ∈ names)) as [Hin|Hout].
    - destruct Hl as (v' & -> & Hv'). rewrite Hv'. intuition congruence.
    - rewrite Hl. split; [|tauto]. intros Hv. destruct Hout. apply Hmem, elem_of_union_r.
      by apply elem_of_dom_2 in Hv. }
  exists vs'. split; [done|]. split; [|done].
  apply set_eq. intros n. rewrite elem_of_dom. split.
  - intros [v Hv]. by apply Hspec in Hv as [? _].
  - intros Hin. specialize (Hok n Hin). destruct (evaluate _ n _ _ _) as [v|] eqn:Ev; [|done].
    exists v. by apply Hspec.
Qed.

Lemma update_pointwise_witness :
  exists vs', update default_config {["m" := [mkSample 0 true]]} 1 ∅ = (vs', Ok vs') /\
    dom vs' = {["m"]}.
Proof.
  destruct (update_pointwise default_config {["m" := [mkSample 0 true]]} 1 ∅) as (vs' & Hu & Hd & _).
  - intros n Hn. assert (n = "m"%string) as -> by set_solver. vm_compute. reflexivity.
  - exists vs'. split; [exact Hu|]. rewrite Hd. set_solver.
Defined.

End Properties.
