(* ===== verification/Admission.v ===== *)
(** * The admission policy ([domain/admission.py])

    Reservations per device, the adjusted telemetry snapshot admission evaluates against, the
    choice between deferring and failing a job routing could not place, and the re-evaluation of a
    waiting job. *)

From S2P Require Import Prelude PyFloat Json Telemetry.
#[local] Open Scope Z_scope.

Definition RESOURCE_REJECTION_REASONS : list string := ["insufficient_vram"; "insufficient_ram"].

Record Reservation := mkReservation {
  res_job_id : string;
  res_gpu_index : Z;
  res_bytes : Z
}.

Definition reserved_bytes_by_device (reservations : list Reservation) : gmap Z Z :=
  fold_left (fun totals r =>
      <[res_gpu_index r := default 0 (totals !! res_gpu_index r) + Z.max (res_bytes r) 0]> totals)
    reservations ∅.

Section adjust.
Context {M : Type} `{Measurement M}.

Definition adjust_gpu (reserved evictable : gmap Z Z) (gpu : Gpu M) : Gpu M :=
  let used := vram_used_bytes gpu in
  let total := vram_total_bytes gpu in
  if negb (is_supported used) || negb (is_supported total)
  then mkGpu (gpu_index gpu) UNSUPPORTED total
  else
    let adjusted := to_int used + default 0 (reserved !! gpu_index gpu)
                    - default 0 (evictable !! gpu_index gpu) in
    mkGpu (gpu_index gpu) (from_int (Z.min (Z.max adjusted 0) (to_int total))) total.

Definition adjust_snapshot (snapshot : option (TelemetrySnapshot M)) (reserved : gmap Z Z)
    (evictable : option (gmap Z Z)) : option (TelemetrySnapshot M) :=
  match snapshot with
  | None => None
  | Some s =>
      Some (mkSnapshot (map (adjust_gpu reserved (default ∅ evictable)) (gpus s))
              (ram_available_bytes s))
  end.
End adjust.

(** One entry of an explanation's [rejected] list. *)
Record RejectedEntry := mkRejected {
  rej_reason : option string;
  rej_detail : json;
  rej_canonical_id : string
}.

Record AdmissionVerdict := mkAdmission {
  defer : bool;
  required_bytes : option Z;
  headroom_bytes : option Z;
  free_bytes_by_gpu : gmap string (option Z);
  unknown_reasons : list string;
  candidates : list string;
  probe_candidates : list string
}.

(** The accumulators of the loop. *)
Record ClassifyState := mkClassify {
  cl_required : option Z;
  cl_headroom : option Z;
  cl_free : gmap string (option Z);
  cl_unknown : list string;
  cl_candidates : list string;
  cl_probe : list string
}.

Definition classify_init : ClassifyState := mkClassify None None ∅ [] [] [].

(** A half-open breaker whose single probe is out. *)
Definition is_probe_rejection (item : RejectedEntry) : bool :=
  let detail := or_empty (rej_detail item) in
  match detail with
  | JObj l => get_is_str "state" "half_open" l && get_is_true "probe_in_flight" l
  | _ => false
  end.

Definition is_resource_rejection (item : RejectedEntry) : bool :=
  match rej_reason item with
  | Some r => bool_decide (r ∈ RESOURCE_REJECTION_REASONS)
  | None => false
  end.

(** The body of the loop for a resource-shaped rejection. *)
Definition classify_resource (st : ClassifyState) (item : RejectedEntry) : result ClassifyState :=
  let detail := or_empty (rej_detail item) in
  estimated ← py_get detail "estimated_bytes";
  let required := match as_int estimated with
                  | Some e => Some (match cl_required st with None => e | Some r => Z.min r e end)
                  | None => cl_required st
                  end in
  est ← py_get detail "estimate";
  let estimate := or_empty est in
  reason ← (if is_mapping estimate then py_get estimate "unknown_reason" else Ok JNull);
  let unknown := match as_str reason with
                 | Some r => cl_unknown st ++ [r]
                 | None => cl_unknown st
                 end in
  hr ← py_get detail "headroom_bytes";
  let headroom := match as_int hr with Some h => Some h | None => cl_headroom st end in
  by_gpu ← py_get detail "free_bytes_by_gpu";
  let free := match by_gpu with
              | JObj l => fold_left (fun m kv => <[kv.1 := as_int kv.2]> m) l (cl_free st)
              | _ => cl_free st
              end in
  Ok (mkClassify required headroom free unknown (cl_candidates st ++ [rej_canonical_id item])
        (cl_probe st)).

Definition classify_step (st : ClassifyState) (item : RejectedEntry) : result ClassifyState :=
  if bool_decide (rej_reason item = Some "recently_failing") then
    Ok (if is_probe_rejection item
        then mkClassify (cl_required st) (cl_headroom st) (cl_free st) (cl_unknown st)
               (cl_candidates st) (cl_probe st ++ [rej_canonical_id item])
        else st)
  else if negb (is_resource_rejection item) then Ok st
  else classify_resource st item.

Fixpoint classify_loop (st : ClassifyState) (rejected : list RejectedEntry) : result ClassifyState :=
  match rejected with
  | [] => Ok st
  | item :: rest => st' ← classify_step st item; classify_loop st' rest
  end.

Definition classify_rejections (rejected : list RejectedEntry) : result AdmissionVerdict :=
  st ← classify_loop classify_init rejected;
  Ok (mkAdmission
        (negb (bool_decide (cl_candidates st = [])) || negb (bool_decide (cl_probe st = [])))
        (cl_required st) (cl_headroom st) (cl_free st)
        (dedup_keep_first [] (cl_unknown st)) (cl_candidates st)
        (dedup_keep_first [] (cl_probe st))).

Definition waiting_job_can_proceed (required_bytes : option Z) (headroom_bytes : Z)
    (free_bytes_by_gpu : gmap Z (option Z)) (resident_on : gset Z) : bool :=
  let visible := dom free_bytes_by_gpu in
  if negb (bool_decide (resident_on ∩ visible = ∅)) then true
  else match required_bytes with
       | None => false
       | Some r =>
           existsb (fun kv => match kv.2 with
                              | Some free => r + headroom_bytes <=? free
                              | None => false
                              end) (map_to_list free_bytes_by_gpu)
       end.

(** ** Helper lemmas *)

Definition device_total (g : Z) (rs : list Reservation) : Z :=
  sumZ (map (fun r => Z.max (res_bytes r) 0) (List.filter (fun r => res_gpu_index r =? g) rs)).

Lemma device_total_nonneg g rs : 0 <= device_total g rs.
Proof.
  unfold device_total, sumZ. induction rs as [|r rs IH]; cbn; [lia|].
  destruct (_ =? _); cbn; lia.
Qed.

Lemma reserved_lookup rs (m : gmap Z Z) g :
  default 0 (fold_left (fun totals r =>
      <[res_gpu_index r := default 0 (totals !! res_gpu_index r) + Z.max (res_bytes r) 0]> totals)
    rs m !! g) = default 0 (m !! g) + device_total g rs.
Proof.
  revert m. induction rs as [|r rs IH]; intros m; cbn; [unfold device_total; cbn; lia|].
  rewrite IH. unfold device_total. cbn. destruct (Z.eqb_spec (res_gpu_index r) g) as [->|Hne].
  - rewrite lookup_insert_eq. cbn. unfold sumZ. cbn. lia.
  - by rewrite lookup_insert_ne.
Qed.

Lemma reserved_dom rs (m : gmap Z Z) :
  dom (fold_left (fun totals r =>
      <[res_gpu_index r := default 0 (totals !! res_gpu_index r) + Z.max (res_bytes r) 0]> totals)
    rs m) = dom m ∪ list_to_set (map res_gpu_index rs).
Proof.
  revert m. induction rs as [|r rs IH]; intros m; cbn; [set_solver|].
  rewrite IH, dom_insert_L. set_solver.
Qed.

(** The rejections the loop collects, in order. *)
Definition resource_ids (rejected : list RejectedEntry) : list string :=
  map rej_canonical_id (List.filter (fun i =>
    negb (bool_decide (rej_reason i = Some "recently_failing")) && is_resource_rejection i) rejected).
Definition probe_ids (rejected : list RejectedEntry) : list string :=
  map rej_canonical_id (List.filter (fun i =>
    bool_decide (rej_reason i = Some "recently_failing") && is_probe_rejection i) rejected).

(** The estimate an entry contributes. *)
Definition entry_estimate (item : RejectedEntry) : option Z :=
  if negb (bool_decide (rej_reason item = Some "recently_failing")) && is_resource_rejection item
  then match or_empty (rej_detail item) with
       | JObj l => as_int (default JNull (assoc "estimated_bytes" l))
       | _ => None
       end
  else None.

Definition min_opt (a b : option Z) : option Z :=
  match a, b with
  | Some x, Some y => Some (Z.min x y)
  | Some x, None => Some x
  | None, y => y
  end.

Lemma classify_resource_inv st item st' :
  classify_resource st item = Ok st' ->
  cl_candidates st' = cl_candidates st ++ [rej_canonical_id item] /\ cl_probe st' = cl_probe st /\
  exists l, or_empty (rej_detail item) = JObj l /\
    cl_required st' = min_opt (cl_required st) (as_int (default JNull (assoc "estimated_bytes" l))).
Proof.
  unfold classify_resource. destruct (or_empty (rej_detail item)) as [| | | | | |l]; try done.
  intros H. cbn -[is_mapping as_int] in H. apply bind_Ok_inv in H as (r & _ & [= <-]). cbn.
  split; [done|]. split; [done|]. exists l. split; [done|].
  by destruct (as_int _), (cl_required st).
Qed.

Lemma classify_loop_inv rejected st st' :
  classify_loop st rejected = Ok st' ->
  cl_candidates st' = cl_candidates st ++ resource_ids rejected /\
  cl_probe st' = cl_probe st ++ probe_ids rejected /\
  cl_required st' = fold_left min_opt (map entry_estimate rejected) (cl_required st).
Proof.
  revert st. induction rejected as [|item rest IH]; intros st; cbn.
  { intros [= <-]. by rewrite !app_nil_r. }
  intros H. apply bind_Ok_inv in H as (st1 & Hs & Hl). apply IH in Hl as (-> & -> & ->).
  unfold classify_step in Hs. unfold resource_ids, probe_ids, entry_estimate. cbn.
  case_bool_decide as Hr; cbn in *.
  - simplify_eq. destruct (is_probe_rejection item); cbn; rewrite <- ?app_assoc;
      (split; [done|]; split; [done|]); by destruct (cl_required st).
  - destruct (is_resource_rejection item); cbn in *.
    + apply classify_resource_inv in Hs as (-> & -> & l & -> & ->). by rewrite <- app_assoc.
    + simplify_eq. split; [done|]. split; [done|]. by destruct (cl_required st1).
Qed.

Lemma existsb_map_to_list {A} (f : Z * A -> bool) (m : gmap Z A) :
  existsb f (map_to_list m) = true <-> exists k v, m !! k = Some v /\ f (k, v) = true.
Proof.
  rewrite existsb_exists. split.
  - intros ([k v] & Hin & Hf). apply list_elem_of_In, elem_of_map_to_list in Hin. eauto.
  - intros (k & v & Hk & Hf). exists (k, v). split; [|done].
    by apply list_elem_of_In, elem_of_map_to_list.
Qed.

(** ** Properties *)

Module Properties.

(** Reservations are summed within each device and never across devices.  The total reserved on
    a device is the sum of the non-negative parts of that device's reservations, a reservation on
    one device leaves every other total unchanged, and only devices with a reservation appear. *)
Theorem reserved_per_device (rs : list Reservation) (g : Z) :
  default 0 (reserved_bytes_by_device rs !! g) = device_total g rs /\
  dom (reserved_bytes_by_device rs) = list_to_set (map res_gpu_index rs) /\
  (forall r, res_gpu_index r <> g ->
     default 0 (reserved_bytes_by_device (rs ++ [r]) !! g) =
     default 0 (reserved_bytes_by_device rs !! g)).
Proof.
  unfold reserved_bytes_by_device. split; [|split].
  - by rewrite reserved_lookup, lookup_empty.
  - rewrite reserved_dom. set_solver.
  - intros r Hr. rewrite !reserved_lookup. f_equal. unfold device_total.
    rewrite List.filter_app. cbn. destruct (Z.eqb_spec (res_gpu_index r) g); [done|].
    by rewrite app_nil_r.
Qed.

(** The adjusted snapshot is a well-formed observation of the same machine.  The devices keep
    their order, index and total; a device whose usage or total was unreported stays unreported;
    on the others the used figure is [used + reserved - evictable] clamped to the device, so it
    never leaves [0 .. total], never decreases when more is reserved and never increases when more
    is evictable. *)
Theorem adjust_gpu_bounds {M} `{MeasurementLaws M} (reserved evictable : gmap Z Z) (gpu : Gpu M) :
  let gpu' := adjust_gpu reserved evictable gpu in
  gpu_index gpu' = gpu_index gpu /\ vram_total_bytes gpu' = vram_total_bytes gpu /\
  (is_supported (vram_used_bytes gpu') = true <->
     is_supported (vram_used_bytes gpu) = true /\ is_supported (vram_total_bytes gpu) = true) /\
  (is_supported (vram_used_bytes gpu') = true -> 0 <= to_int (vram_total_bytes gpu) ->
     0 <= to_int (vram_used_bytes gpu') <= to_int (vram_total_bytes gpu) /\
     forall reserved' evictable',
       default 0 (reserved !! gpu_index gpu) <= default 0 (reserved' !! gpu_index gpu) ->
       default 0 (evictable' !! gpu_index gpu) <= default 0 (evictable !! gpu_index gpu) ->
       to_int (vram_used_bytes gpu') <=
       to_int (vram_used_bytes (adjust_gpu reserved' evictable' gpu))).
Proof.
  cbn. unfold adjust_gpu.
  destruct (is_supported (vram_used_bytes gpu)), (is_supported (vram_total_bytes gpu)); cbn;
    rewrite ?unsupported_law, ?from_int_supported, ?to_from_int;
    (split; [done|]; split; [done|]; split; [by intuition|]); try done.
  intros _ Ht. split; [lia|]. intros reserved' evictable' Hr He. rewrite to_from_int. lia.
Qed.

Lemma adjust_gpu_bounds_witness :
  let gpu := mkGpu 0 (Some 6000) (Some 8000) in
  to_int (vram_used_bytes (adjust_gpu {[0 := 4000]} ∅ gpu)) = 8000 /\
  0 <= to_int (vram_used_bytes (adjust_gpu {[0 := 4000]} ∅ gpu)) <= 8000.
Proof.
  split; [vm_compute; reflexivity|].
  destruct (adjust_gpu_bounds {[0 := 4000]} ∅ (mkGpu 0 (Some 6000) (Some 8000)))
    as (_ & _ & _ & H).
  destruct H as [H _]; [vm_compute; reflexivity|vm_compute; discriminate|exact H].
Defined.

(** Deferral or failure.  A verdict defers exactly when some rejection is resource-shaped or a
    half-open breaker whose probe is out; the candidates are the resource-shaped entries' models
    in rejection order, and the recorded requirement is the least estimate among them, [None] when
    every such estimate was unknown. *)
Theorem classify_rejections_spec (rejected : list RejectedEntry) (v : AdmissionVerdict) :
  classify_rejections rejected = Ok v ->
  candidates v = resource_ids rejected /\
  (defer v = true <-> resource_ids rejected <> [] \/ probe_ids rejected <> []) /\
  required_bytes v = fold_left min_opt (map entry_estimate rejected) None /\
  (forall r, required_bytes v = Some r ->
     (exists i, i ∈ rejected /\ entry_estimate i = Some r) /\
     forall i e, i ∈ rejected -> entry_estimate i = Some e -> r <= e).
Proof.
  unfold classify_rejections. intros H. apply bind_Ok_inv in H as (st & Hl & [= <-]). cbn.
  apply classify_loop_inv in Hl as (-> & -> & ->). cbn [classify_init cl_required].
  split; [done|]. split; [|split; [done|]].
  - rewrite orb_true_iff, !negb_true_iff, !bool_decide_eq_false. done.
  - assert (Hmin : forall l acc r, fold_left min_opt l acc = Some r ->
       (acc = Some r \/ Some r ∈ l) /\ (forall e, acc = Some e -> r <= e) /\
       (forall e, Some e ∈ l -> r <= e)).
    { induction l as [|x l IH]; intros acc r; cbn.
      - intros ->. split; [by left|]. split; [intros e [= ->]; lia|].
        intros e He. by apply not_elem_of_nil in He.
      - intros Hr. apply IH in Hr as (H1 & H2 & H3). destruct acc as [a|], x as [x|]; cbn in *.
        + specialize (H2 _ eq_refl). split; [|split].
          * destruct H1 as [[= <-]|H1]; [|right; by right].
            destruct (Z.min_dec a x) as [->| ->]; [by left|right; left].
          * intros e [= <-]. lia.
          * intros e [[= <-]|He]%elem_of_cons; [lia|by apply H3].
        + split; [destruct H1; [by left|right; by right]|]. split; [done|].
          intros e [?|He]%elem_of_cons; [done|by apply H3].
        + specialize (H2 _ eq_refl). split; [destruct H1 as [[= <-]|]; right; [left|by right]|].
          split; [done|]. intros e [[= <-]|He]%elem_of_cons; [lia|by apply H3].
        + split; [destruct H1; [done|right; by right]|]. split; [done|].
          intros e [?|He]%elem_of_cons; [done|by apply H3]. }
    intros r Hr. apply Hmin in Hr as (H1 & _ & H3). split.
    + destruct H1 as [?|H1]; [done|]. apply list_elem_of_fmap in H1 as (i & Hi & Hin). eauto.
    + intros i e Hin He. apply H3. rewrite <- He. by apply (list_elem_of_fmap_2 entry_estimate).
Qed.

Lemma classify_rejections_spec_witness :
  let item id e := mkRejected (Some "insufficient_vram"%string)
                     (JObj [("estimated_bytes"%string, JInt e)]) id in
  exists v, classify_rejections [item "a"%string 9; item "b"%string 7] = Ok v /\
    defer v = true /\ candidates v = ["a"; "b"]%string /\ required_bytes v = Some 7.
Proof.
  intros item. destruct (classify_rejections [item "a"%string 9; item "b"%string 7]) as [v|e] eqn:E.
  - exists v. split; [reflexivity|].
    destruct (classify_rejections_spec _ v E) as (Hc & Hd & Hr & _).
    split; [apply Hd; left; discriminate|]. split; [rewrite Hc|rewrite Hr]; vm_compute; reflexivity.
  - vm_compute in E. discriminate E.
Defined.

(** Resumption is no more optimistic than admission.  A waiting job proceeds exactly when its
    model is resident on a visible device, or its known requirement plus the headroom fits on some
    single device; an unknown requirement never proceeds on free memory, and more free memory
    never turns a resumption into a refusal. *)
Theorem waiting_job_can_proceed_spec (required : option Z) (headroom : Z)
    (free free' : gmap Z (option Z)) (resident : gset Z) :
  (waiting_job_can_proceed required headroom free resident = true <->
     (exists g, g ∈ resident /\ g ∈ dom free) \/
     (exists r g f, required = Some r /\ free !! g = Some (Some f) /\ r + headroom <= f)) /\
  ((forall g f, free !! g = Some f -> exists f', free' !! g = Some f' /\
      forall b, f = Some b -> exists b', f' = Some b' /\ b <= b') ->
   waiting_job_can_proceed required headroom free resident = true ->
   waiting_job_can_proceed required headroom free' resident = true).
Proof.
  assert (Hspec : forall free, waiting_job_can_proceed required headroom free resident = true <->
     (exists g, g ∈ resident /\ g ∈ dom free) \/
     (exists r g f, required = Some r /\ free !! g = Some (Some f) /\ r + headroom <= f)).
  { intros fr. unfold waiting_job_can_proceed. case_bool_decide as Hres; cbn.
    - assert (Hno : ~ exists g, g ∈ resident /\ g ∈ dom fr) by set_solver.
      destruct required as [r|].
      + rewrite existsb_map_to_list. split.
        * intros (g & [f|] & Hg & Hf); [|done]. cbn in Hf. bool_to_prop. right. by exists r, g, f.
        * intros [?|(r' & g & f & [= <-] & Hg & Hf)]; [done|]. exists g, (Some f).
          split; [done|]. by apply Z.leb_le.
      + split; [done|]. intros [?|(? & ? & ? & ? & _)]; done.
    - split; [|done]. intros _. left. apply set_choose_L in Hres as [g Hg]. exists g. set_solver. }
  split; [apply Hspec|]. rewrite !Hspec. intros Hmono [(g & Hr & Hg)|(r & g & f & -> & Hg & Hf)].
  - left. exists g. split; [done|]. apply elem_of_dom in Hg as [f Hg].
    destruct (Hmono g f Hg) as (f' & Hf' & _). apply elem_of_dom. by exists f'.
  - right. destruct (Hmono g _ Hg) as (f' & Hf' & Hb). destruct (Hb f eq_refl) as (b' & -> & Hle).
    exists r, g, b'. split; [done|]. split; [done|lia].
Qed.

Lemma waiting_job_can_proceed_spec_witness :
  waiting_job_can_proceed (Some 100) 10 {[0 := Some 110]} ∅ = true /\
  waiting_job_can_proceed (Some 100) 10 {[0 := Some 500]} ∅ = true.
Proof.
  split; [vm_compute; reflexivity|].
  apply (proj2 (waiting_job_can_proceed_spec (Some 100) 10 {[0 := Some 110]} {[0 := Some 500]} ∅)).
  - intros g f Hg. apply lookup_singleton_Some in Hg as [<- <-]. exists (Some 500).
    split; [reflexivity|]. intros b [= <-]. exists 500. split; [reflexivity|lia].
  - vm_compute. reflexivity.
Defined.

End Properties.
