(* ===== verification/Authorization.v ===== *)
(** * Scopes and principals ([domain/authorization.py])

    The one cumulative scope rule the routes and the mutating services both call. *)

From S2P Require Import Prelude.
#[local] Open Scope Z_scope.

(** [SCOPES]: the three scopes, ordered by what they contain. *)
Definition SCOPES : gmap string Z :=
  {["read" := 0]} ∪ {["write" := 1]} ∪ {["admin" := 2]}.

Inductive PrincipalSource := SrcToken | SrcLoopback | SrcInternal.

Record Principal := mkPrincipal {
  p_name : string;
  p_scope : string;
  p_source : PrincipalSource
}.

(** [Principal.grants]: [SCOPES.get(self.scope, -1) >= SCOPES.get(required, 99)]. *)
Definition grants (p : Principal) (required : string) : bool :=
  default 99 (SCOPES !! required) <=? default (-1) (SCOPES !! p_scope p).

Definition LOCAL : Principal := mkPrincipal "local" "admin" SrcInternal.

(** Returns the principal for chaining; [None] (no request behind the call) passes. *)
Definition authorize (principal : option Principal) (required : string)
    : result (option Principal) :=
  if negb (bool_decide (is_Some (SCOPES !! required))) then Raise ValueError
  else match principal with
       | None => Ok None
       | Some p => if grants p required then Ok principal
                   else Raise (InsufficientScope required (p_scope p))
       end.

(** ** Helper lemmas *)

Lemma scopes_lookup s v :
  SCOPES !! s = Some v <->
  (s = "read" /\ v = 0) \/ (s = "write" /\ v = 1) \/ (s = "admin" /\ v = 2).
Proof.
  unfold SCOPES. rewrite !lookup_union_Some_raw, !lookup_singleton_Some.
  rewrite !lookup_union_None, !lookup_singleton_None. split.
  - intros [[[<- <-]|[_ [<- <-]]]|[_ [<- <-]]]; auto.
  - intros [[-> ->]|[[-> ->]|[-> ->]]]; [left; by left|left; right|right]; done.
Qed.

Lemma authorize_None required :
  is_Some (SCOPES !! required) -> authorize None required = Ok None.
Proof. intros H. unfold authorize. by rewrite bool_decide_true. Qed.

(** [authorize] with a literal scope either passes or raises [InsufficientScope]. *)
Lemma authorize_cases p required :
  is_Some (SCOPES !! required) ->
  authorize p required = Ok p \/
  exists q, p = Some q /\ authorize p required = Raise (InsufficientScope required (p_scope q)).
Proof.
  intros H. unfold authorize. rewrite bool_decide_true by done. cbn.
  destruct p as [q|]; [|by left]. destruct (grants q required); [by left|right]. by exists q.
Qed.

(** ** Properties *)

Module Properties.

(** The scope rule is cumulative and closed.  [authorize] passes exactly when the required scope
    exists and the caller is absent or holds a known scope at least as high; what a scope grants,
    every higher scope grants; an unknown scope grants nothing and requiring one is a [ValueError];
    the process's own principal is granted everything. *)
Theorem authorize_cumulative (p : option Principal) (required : string) :
  (is_ok (authorize p required) = true <->
     exists r, SCOPES !! required = Some r /\
       forall q, p = Some q -> exists h, SCOPES !! p_scope q = Some h /\ r <= h) /\
  (authorize p required = Raise ValueError <-> SCOPES !! required = None) /\
  (forall q lower r l, p = Some q -> is_ok (authorize p required) = true ->
     SCOPES !! required = Some r -> SCOPES !! lower = Some l -> l <= r ->
     is_ok (authorize p lower) = true) /\
  (forall r, SCOPES !! required = Some r -> authorize (Some LOCAL) required = Ok (Some LOCAL)).
Proof.
  assert (Hiff : forall p required, is_ok (authorize p required) = true <->
     exists r, SCOPES !! required = Some r /\
       forall q, p = Some q -> exists h, SCOPES !! p_scope q = Some h /\ r <= h).
  { clear p required. intros p required. unfold authorize.
    destruct (SCOPES !! required) as [r|] eqn:Er.
    2:{ rewrite bool_decide_false by (by intros [? ?]). cbn. split; [done|]. by intros (? & ? & _). }
    rewrite bool_decide_true by done. cbn. destruct p as [q|].
    2:{ split; [|done]. intros _. by exists r. }
    unfold grants. rewrite Er. cbn. apply scopes_lookup in Er.
    destruct (SCOPES !! p_scope q) as [h|] eqn:Eh; cbn.
    - destruct (Z.leb_spec r h); cbn; split; try done.
      + intros _. exists r. split; [done|]. intros ? [= <-]. by exists h.
      + intros (? & [= <-] & Hq). destruct (Hq q eq_refl) as (h' & Hh & Hle).
        simplify_eq. lia.
    - destruct (Z.leb_spec r (-1)); [lia|]. cbn. split; [done|].
      intros (? & _ & Hq). destruct (Hq q eq_refl) as (h' & Hh & _). congruence. }
  split; [apply Hiff|]. split; [|split].
  - unfold authorize. destruct (SCOPES !! required) as [r|].
    + rewrite bool_decide_true by done. cbn. split; [|done].
      destruct p as [q|]; [|done]. by destruct (grants q required).
    + by rewrite bool_decide_false by (by intros [? ?]).
  - intros q lower r l -> Hok Hr Hl Hle. apply Hiff in Hok as (r' & Hr' & Hq). apply Hiff.
    exists l. split; [done|]. intros q' Hq'. destruct (Hq q' Hq') as (h & Hh & Hrh).
    exists h. split; [done|]. rewrite Hr in Hr'. simplify_eq. lia.
  - intros r Hr. unfold authorize. rewrite bool_decide_true by (by rewrite Hr). cbn.
    unfold grants, LOCAL. cbn [p_scope]. rewrite Hr. apply scopes_lookup in Hr.
    replace (SCOPES !! "admin") with (Some 2) by (vm_compute; reflexivity). cbn.
    destruct (Z.leb_spec r 2); [done|lia].
Qed.

End Properties.
