(* ===== verification/ContextBudget.v ===== *)
(** * Context budgeting ([domain/routing/context_budget.py])

    Fitting a request into the context that is served: the character estimate, and the reduction
    of the output allowance where the profile permits it.  The input is never truncated. *)

From S2P Require Import Prelude PyFloat.
#[local] Open Scope Z_scope.

Definition CHARS_PER_TOKEN : f64 := 4 * fone.
Definition SAFETY_MARGIN_TOKENS : Z := 256.

(** [text_length] is [len(text)]. *)
Definition estimate_input_tokens (text_length : Z) (chars_per_token : f64) : result Z :=
  if chars_per_token <=? 0 then Raise ValueError
  else Ok (fceil (fdiv (of_int text_length) chars_per_token)).

Record ContextBudget := mkBudget {
  fits : bool;
  b_estimated_input_tokens : Z;
  b_max_output_tokens : Z;
  b_requested_output_tokens : Z;
  b_reduced : bool;
  b_safety_margin_tokens : Z;
  b_required_context : Z;
  b_served_context : Z;
  b_served_context_source : string;
  b_input_estimate_source : string;
  b_chars_per_token : option f64;
  b_shortfall_tokens : Z
}.

Definition budget_context (estimated_input_tokens max_output_tokens served_context : Z)
    (served_context_source : string) (min_output_tokens : option Z) (safety_margin_tokens : Z)
    (input_estimate_source : string) (chars_per_token : option f64) : ContextBudget :=
  let required := estimated_input_tokens + max_output_tokens + safety_margin_tokens in
  if required <=? served_context then
    mkBudget true estimated_input_tokens max_output_tokens max_output_tokens false
      safety_margin_tokens required served_context served_context_source input_estimate_source
      chars_per_token 0
  else
    let room := served_context - estimated_input_tokens - safety_margin_tokens in
    match min_output_tokens with
    | Some m =>
        if m <=? room then
          let reduced_output := Z.min max_output_tokens room in
          mkBudget true estimated_input_tokens reduced_output max_output_tokens true
            safety_margin_tokens
            (estimated_input_tokens + reduced_output + safety_margin_tokens) served_context
            served_context_source input_estimate_source chars_per_token 0
        else
          mkBudget false estimated_input_tokens max_output_tokens max_output_tokens false
            safety_margin_tokens required served_context served_context_source
            input_estimate_source chars_per_token (required - served_context)
    | None =>
        mkBudget false estimated_input_tokens max_output_tokens max_output_tokens false
          safety_margin_tokens required served_context served_context_source
          input_estimate_source chars_per_token (required - served_context)
    end.

(** ** Specification: which output allowances are admissible *)

(** An allowance fits when the whole request does; it is permitted when it is the requested one or
    a reduction not below the profile's floor. *)
Definition allowance_fits (input margin served out : Z) : Prop := input + out + margin <= served.

Definition allowance_permitted (requested : Z) (floor : option Z) (out : Z) : Prop :=
  out = requested \/ exists m, floor = Some m /\ m <= out <= requested.

(** ** Helper lemmas *)

(** Dividing a string length by the shipped ratio is exact, so the estimate is the exact ceiling. *)
Lemma estimate_exact len :
  0 <= len <= 2 ^ 51 -> estimate_input_tokens len CHARS_PER_TOKEN = Ok ((len + 3) / 4).
Proof.
  intros Hlen. unfold estimate_input_tokens, CHARS_PER_TOKEN. pose proof fone_pos.
  destruct (Z.leb_spec (4 * fone) 0); [lia|]. f_equal.
  rewrite of_int_exact by lia. rewrite fdiv_pos_eq by lia.
  assert (Hf : fone = 4 * 2 ^ (1074 - 2)) by (vm_compute; reflexivity).
  rewrite (fround_repr_eq _ _ (len * 2 ^ (1074 - 2)));
    [|lia|apply repr_dyadic; lia|rewrite Hf; ring].
  assert (Hspec : forall n, fceil (len * 2 ^ (1074 - 2)) <= n <-> (len + 3) / 4 <= n).
  { intros n. rewrite fceil_spec, Hf. assert (0 < 2 ^ (1074 - 2)) by (apply Z.pow_pos_nonneg; lia).
    pose proof (Z.div_mod (len + 3) 4 ltac:(lia)). pose proof (Z.mod_pos_bound (len + 3) 4 ltac:(lia)).
    split; intros; [|nia]. assert (len <= 4 * n) by nia. lia. }
  apply Z.le_antisymm; apply Hspec; lia.
Qed.

(** ** Properties *)

Module Properties.

(** The budget decides exactly whether some permitted output allowance fits the served context.
    When it fits, the granted allowance is permitted, fits, and is the largest such; it is reduced
    only when the request as asked does not fit.  When it does not, no permitted allowance fits and
    the shortfall is how far over the request is.  The input estimate is never changed. *)
Theorem budget_context_optimal (input out served margin : Z) (src esrc : string)
    (floor : option Z) (cpt : option f64) :
  let b := budget_context input out served src floor margin esrc cpt in
  b_estimated_input_tokens b = input /\ b_requested_output_tokens b = out /\
  (fits b = true ->
     allowance_fits input margin served (b_max_output_tokens b) /\
     b_max_output_tokens b <= out /\
     b_required_context b = input + b_max_output_tokens b + margin /\
     (b_reduced b = true <-> ~ allowance_fits input margin served out) /\
     (forall m, floor = Some m -> b_reduced b = true -> m <= b_max_output_tokens b) /\
     forall o, o <= out -> allowance_fits input margin served o -> o <= b_max_output_tokens b) /\
  (fits b = false ->
     b_shortfall_tokens b = input + out + margin - served /\ 0 < b_shortfall_tokens b) /\
  ((forall m, floor = Some m -> m <= out) ->
     (fits b = true <->
        exists o, allowance_permitted out floor o /\ allowance_fits input margin served o)).
Proof.
  unfold budget_context, allowance_fits, allowance_permitted.
  destruct (Z.leb_spec (input + out + margin) served) as [H|H]; cbn.
  { split; [done|]. split; [done|]. split.
    - intros _. repeat split; try lia; try done.
    - split; [done|]. intros _. split; [|done]. intros _. exists out. split; [by left|lia]. }
  destruct floor as [m|]; cbn.
  - destruct (Z.leb_spec m (served - input - margin)); cbn.
    + split; [done|]. split; [done|]. split.
      * intros _. repeat split; try lia. intros m' [= <-] _. lia.
      * split; [done|]. intros Hm. specialize (Hm m eq_refl). split; [|done]. intros _.
        exists (Z.min out (served - input - margin)). split; [right; exists m; split; [done|lia]|lia].
    + split; [done|]. split; [done|]. split; [done|]. split; [intros _; lia|].
      intros Hm. split; [done|]. intros (o & [->|(m' & [= <-] & Ho)] & Hfit); lia.
  - split; [done|]. split; [done|]. split; [done|]. split; [intros _; lia|].
    intros _. split; [done|]. intros (o & [->|(m' & Hm' & _)] & Hfit); [lia|done].
Qed.

(** At the shipped ratio the character estimate is the exact ceiling of a quarter of the length:
    it never under-estimates ([4 * estimate >= length]) and over-estimates by less than a token; a
    non-positive ratio is refused. *)
Theorem estimate_input_tokens_ceiling (len n : Z) :
  0 <= len <= 2 ^ 51 -> estimate_input_tokens len CHARS_PER_TOKEN = Ok n ->
  len <= 4 * n < len + 4 /\ (forall cpt, cpt <= 0 -> estimate_input_tokens len cpt = Raise ValueError).
Proof.
  intros Hlen. rewrite estimate_exact by done. intros [= <-]. split.
  - pose proof (Z.div_mod (len + 3) 4 ltac:(lia)). pose proof (Z.mod_pos_bound (len + 3) 4 ltac:(lia)).
    lia.
  - intros cpt Hc. unfold estimate_input_tokens. by destruct (Z.leb_spec cpt 0); [|lia].
Qed.

Lemma estimate_input_tokens_ceiling_witness :
  10 <= 4 * 3 < 10 + 4 /\ estimate_input_tokens 10 0 = Raise ValueError.
Proof.
  destruct (estimate_input_tokens_ceiling 10 3) as [H1 H2].
  - lia.
  - vm_compute. reflexivity.
  - split; [exact H1|apply H2; lia].
Defined.

End Properties.
