(* ===== verification/JobEvents.v ===== *)
(** * Job events ([services/job_events.py])

    The persisted event table, the per-job sequence counter it shares with unpersisted frames, and
    the live buffer a late subscriber is served from.  A write transaction works on a [Writer]: its
    rows are the transaction's view of the table, its counter is the sink's own dictionary, which
    a rollback does not restore.  [broker.publish] is MirrorWall's; what the sink hands it, in
    order, is the [published] log. *)

From stdpp Require Import sorting.
From S2P Require Import Prelude PyFloat Json.
#[local] Open Scope Z_scope.

(** Functions of [baseaicore], [mirrorwall] and [hashlib] the modelled code calls. *)
Class Externals := {
  to_rfc3339 : Z -> string;
  new_id : nat -> string;            (* the n-th ULID the process draws *)
  sha256 : string -> string;
  TOKEN_EVENT : string
}.

(** ULIDs do not repeat. *)
Class ExternalsLaws `{Externals} : Prop := { new_id_inj : Inj (=) (=) new_id }.

(** [JobEvent], the table row. *)
Record JobEvent := mkEvent {
  ev_id : string;
  ev_job_id : string;
  ev_sequence : Z;
  ev_timestamp : Z;
  ev_event_type : string;
  ev_message : option string;
  ev_data : json
}.

(** MirrorWall's [Event]. *)
Record Frame := mkFrame { fr_sequence : Z; fr_type : string; fr_payload : json }.

Definition LIVE_BUFFER_SIZE : nat := 4096.
Definition THINKING_EVENT : string := "thinking".
Definition TERMINAL_JOB_EVENTS : list string := ["job.completed"; "job.failed"; "job.cancelled"].
Definition TERMINAL_STREAM_EVENTS : list string := TERMINAL_JOB_EVENTS ++ ["result"; "error"].

(** [event_type.startswith("job.")]. *)
Definition is_job_event (event_type : string) : bool := String.prefix "job." event_type.

(** [JobEventSink]: the counters, the live buffers, and what was handed to the broker. *)
Record Sink := mkSink {
  high : gmap string Z;
  live : gmap string (list Frame);
  published : list (string * Frame)
}.

Definition new_sink : Sink := mkSink ∅ ∅ [].

(** [EventWriter] inside one transaction. *)
Record Writer := mkWriter {
  wr_rows : list JobEvent;
  wr_high : gmap string Z;
  wr_ids : nat;
  staged : list (string * Frame)
}.

(** [coalesce(max(sequence), 0)] over the job's rows. *)
Definition stored_max (rows : list JobEvent) (job_id : string) : Z :=
  fold_left (fun m r => if bool_decide (ev_job_id r = job_id) then Z.max m (ev_sequence r) else m)
    rows 0.

Definition next_sequence (rows : list JobEvent) (hi : gmap string Z) (job_id : string)
  : Z * gmap string Z :=
  let sequence := Z.max (stored_max rows job_id) (default 0 (hi !! job_id)) + 1 in
  (sequence, <[job_id := sequence]> hi).

Definition of_opt_str (x : option string) : json :=
  match x with Some s => JStr s | None => JNull end.

(** [dict(row.data_json)] when the column holds an object. *)
Definition data_dict (x : json) : list (string * json) := match x with JObj l => l | _ => [] end.

Section events.
Context `{Externals}.

Definition payload (event_id job_id : string) (timestamp : Z) (message : option string)
    (data : list (string * json)) : json :=
  JObj [("event_id", JStr event_id);
        ("entity", JObj [("kind", JStr "job"); ("id", JStr job_id)]);
        ("timestamp", JStr (to_rfc3339 timestamp));
        ("message", of_opt_str message);
        ("data", JObj data)]%string.

Definition append (job_id event_type : string) (now : Z) (message : option string)
    (data : list (string * json)) (w : Writer) : Writer :=
  let '(sequence, hi) := next_sequence (wr_rows w) (wr_high w) job_id in
  let event_id := new_id (wr_ids w) in
  let event :=
    mkFrame sequence event_type
      (if is_job_event event_type then payload event_id job_id now message data else JObj data) in
  mkWriter
    (wr_rows w ++ [mkEvent event_id job_id sequence now event_type message (JObj data)])
    hi (S (wr_ids w)) (staged w ++ [(job_id, event)]).

(** The frame a stored row is replayed as. *)
Definition frame_of_row (row : JobEvent) : Frame :=
  mkFrame (ev_sequence row) (ev_event_type row)
    (if is_job_event (ev_event_type row)
     then payload (ev_id row) (ev_job_id row) (ev_timestamp row) (ev_message row)
            (data_dict (ev_data row))
     else JObj (data_dict (ev_data row))).
End events.

Definition forget (job_id : string) (s : Sink) : Sink :=
  mkSink (delete job_id (high s)) (delete job_id (live s)) (published s).

(** The part of [JobEventSink.write] after the commit. *)
Definition publish_staged (events : list (string * Frame)) (s : Sink) : Sink :=
  fold_left (fun s '(job_id, event) =>
      let s' := mkSink (high s) (live s) (published s ++ [(job_id, event)]) in
      if bool_decide (fr_type event ∈ TERMINAL_STREAM_EVENTS) then forget job_id s' else s')
    events s.

(** [deque(maxlen=LIVE_BUFFER_SIZE).append]. *)
Definition deque_append (buffer : list Frame) (event : Frame) : list Frame :=
  let l := buffer ++ [event] in drop (length l - LIVE_BUFFER_SIZE) l.

Definition publish_live (job_id event_type : string) (body : list (string * json)) (s : Sink)
  : Sink * Frame :=
  let sequence := default 0 (high s !! job_id) + 1 in
  let event := mkFrame sequence event_type (JObj body) in
  (mkSink (<[job_id := sequence]> (high s))
     (<[job_id := deque_append (default [] (live s !! job_id)) event]> (live s))
     (published s ++ [(job_id, event)]), event).

Definition publish_token `{Externals} (job_id : string) (body : list (string * json)) (s : Sink)
  : Sink * Frame := publish_live job_id TOKEN_EVENT body s.

(** Ascending by sequence. *)
Definition key_leb {A} (x y : Z * A) : bool := x.1 <=? y.1.

(** [[merged[s] for s in sorted(merged)]]. *)
Definition ascending {A} (m : gmap Z A) : list (Z * A) := py_sorted key_leb (map_to_list m).

Definition frames_by_sequence (l : list Frame) : gmap Z Frame :=
  fold_left (fun m e => <[fr_sequence e := e]> m) l ∅.

Definition row_leb (x y : JobEvent) : bool := ev_sequence x <=? ev_sequence y.

(** The rows of the table's query before its [limit]. *)
Definition rows_after (rows : list JobEvent) (job_id : string) (after : Z) : list JobEvent :=
  py_sorted row_leb
    (List.filter (fun r => bool_decide (ev_job_id r = job_id) && (after <? ev_sequence r)) rows).

Definition live_after (s : Sink) (job_id : string) (after : Z) : list Frame :=
  List.filter (fun e => after <? fr_sequence e) (default [] (live s !! job_id)).

Definition replay `{Externals} (rows : list JobEvent) (s : Sink) (job_id : string) (after : Z)
    (limit : nat) : list Frame :=
  let persisted := map frame_of_row (take limit (rows_after rows job_id after)) in
  match live_after s job_id after with
  | [] => persisted
  | lv => take limit (ascending (frames_by_sequence persisted ∪ frames_by_sequence lv)).*2
  end.

(** A client that asks again from the last sequence it got, at most [n] times. *)
Fixpoint drain `{Externals} (n : nat) (rows : list JobEvent) (s : Sink) (job_id : string)
    (after : Z) (limit : nat) : list Frame :=
  match n with
  | O => []
  | S n' =>
      let batch := replay rows s job_id after limit in
      match last batch with
      | None => []
      | Some e => batch ++ drain n' rows s job_id (fr_sequence e) limit
      end
  end.

(** ** The process as a transition system

    [JobEventSink.write] is [begin_write], any number of [append]s, and [commit_write] or, when
    the body raises, [rollback_write]. *)

Record State := mkState { st_rows : list JobEvent; st_sink : Sink; st_ids : nat }.

Definition begin_write (st : State) : Writer :=
  mkWriter (st_rows st) (high (st_sink st)) (st_ids st) [].

Definition commit_write (w : Writer) (st : State) : State :=
  let s := st_sink st in
  mkState (wr_rows w) (publish_staged (staged w) (mkSink (wr_high w) (live s) (published s)))
    (wr_ids w).

Definition rollback_write (w : Writer) (st : State) : State :=
  let s := st_sink st in
  mkState (st_rows st) (mkSink (wr_high w) (live s) (published s)) (wr_ids w).

Record AppendCall := mkAppend {
  ac_job : string; ac_type : string; ac_now : Z; ac_message : option string;
  ac_data : list (string * json)
}.

Definition run_appends `{Externals} (calls : list AppendCall) (w : Writer) : Writer :=
  fold_left (fun w c => append (ac_job c) (ac_type c) (ac_now c) (ac_message c) (ac_data c) w)
    calls w.

(** What the process can do.  A live frame is only published for a job that has had an event in
    this process (the [routing] or [job.executing] event precedes the first token). *)
Inductive step `{Externals} : State -> State -> Prop :=
| step_commit calls st :
    step st (commit_write (run_appends calls (begin_write st)) st)
| step_rollback calls st :
    step st (rollback_write (run_appends calls (begin_write st)) st)
| step_live job_id event_type body st :
    is_Some (high (st_sink st) !! job_id) ->
    step st (mkState (st_rows st) (publish_live job_id event_type body (st_sink st)).1 (st_ids st))
| step_forget job_id st :
    step st (mkState (st_rows st) (forget job_id (st_sink st)) (st_ids st))
| step_restart st :
    step st (mkState (st_rows st) new_sink (st_ids st))
| step_draw st :                     (* an id drawn for something else *)
    step st (mkState (st_rows st) (st_sink st) (S (st_ids st))).

Definition initial : State := mkState [] new_sink 0.

Definition rows_of (rows : list JobEvent) (job_id : string) : list JobEvent :=
  List.filter (fun r => bool_decide (ev_job_id r = job_id)) rows.

Definition seqs_of (rows : list JobEvent) (job_id : string) : list Z :=
  map ev_sequence (rows_of rows job_id).

(** The table half of the invariant: per job, sequences count upwards from 1 in insertion order
    and the counter, when the process has one, is at or above them; row ids are distinct. *)
Definition rows_ok `{Externals} (rows : list JobEvent) (hi : gmap string Z) (ids : nat) : Prop :=
  (forall j, StronglySorted Z.lt (seqs_of rows j) /\ Forall (Z.lt 0) (seqs_of rows j)) /\
  (forall j h, hi !! j = Some h -> Forall (fun s => s <= h) (seqs_of rows j)) /\
  (forall r, r ∈ rows -> exists n, ev_id r = new_id n /\ (n < ids)%nat) /\
  NoDup (map ev_id rows).

(** The live half: a buffer is short, ascending, covered by the counter and disjoint from the
    stored rows. *)
Definition live_ok (rows : list JobEvent) (hi : gmap string Z) (lv : gmap string (list Frame)) :=
  forall j l, lv !! j = Some l ->
    (length l <= LIVE_BUFFER_SIZE)%nat /\
    StronglySorted Z.lt (map fr_sequence l) /\
    (exists h, hi !! j = Some h /\ Forall (fun e => fr_sequence e <= h) l) /\
    (forall e, e ∈ l -> fr_sequence e ∉ seqs_of rows j).

Definition inv `{Externals} (st : State) : Prop :=
  rows_ok (st_rows st) (high (st_sink st)) (st_ids st) /\
  live_ok (st_rows st) (high (st_sink st)) (live (st_sink st)).

(** ** Lemmas: the table *)

#[global] Arguments seqs_of : simpl never.
#[global] Arguments publish_staged : simpl never.

Lemma rows_of_app l l' j : rows_of (l ++ l') j = rows_of l j ++ rows_of l' j.
Proof. apply List.filter_app. Qed.

Lemma seqs_of_app l l' j : seqs_of (l ++ l') j = seqs_of l j ++ seqs_of l' j.
Proof. unfold seqs_of. rewrite rows_of_app. apply map_app. Qed.

Lemma stored_max_from rows j m0 :
  let m := fold_left (fun m r => if bool_decide (ev_job_id r = j)
                                 then Z.max m (ev_sequence r) else m) rows m0 in
  m0 <= m /\ Forall (fun s => s <= m) (seqs_of rows j).
Proof.
  revert m0. induction rows as [|r rows IH]; intros m0; cbn; [split; [lia|constructor]|].
  unfold seqs_of, rows_of; cbn. case_bool_decide; cbn.
  - destruct (IH (Z.max m0 (ev_sequence r))) as [H1 H2].
    split; [lia|]. constructor; [lia|]. exact H2.
  - apply IH.
Qed.

Lemma stored_max_spec rows j :
  0 <= stored_max rows j /\ Forall (fun s => s <= stored_max rows j) (seqs_of rows j).
Proof. apply (stored_max_from rows j 0). Qed.

Lemma StronglySorted_snoc (l : list Z) x :
  StronglySorted Z.lt l -> Forall (fun y => y < x) l -> StronglySorted Z.lt (l ++ [x]).
Proof.
  induction 1 as [|y l Hs IH Hy]; intros Hx; cbn; [repeat constructor|].
  apply Forall_cons in Hx as [Hyx Hx]. constructor; [auto|].
  apply Forall_app. split; [done|]. by repeat constructor.
Qed.

Section lemmas.
Context `{ExternalsLaws}.

Lemma append_rows_ok j t now m d w :
  rows_ok (wr_rows w) (wr_high w) (wr_ids w) ->
  let w' := append j t now m d w in rows_ok (wr_rows w') (wr_high w') (wr_ids w').
Proof.
  intros (Hs & Hh & Hid & Hnd). cbn.
  set (s := Z.max (stored_max (wr_rows w) j) (default 0 (wr_high w !! j)) + 1).
  destruct (stored_max_spec (wr_rows w) j) as [Hz0 Hle]. fold (stored_max (wr_rows w) j) in *.
  assert (Hlt : Forall (fun y => y < s) (seqs_of (wr_rows w) j)).
  { eapply Forall_impl; [exact Hle|]. cbn. intros y Hy. subst s. lia. }
  split; [|split; [|split]].
  - intros k. rewrite seqs_of_app. destruct (Hs k) as [H1 H2].
    unfold seqs_of at 2 4, rows_of; cbn. case_bool_decide as Hk; cbn; [|by rewrite app_nil_r].
    subst k. split; [by apply StronglySorted_snoc|]. apply Forall_app. split; [done|].
    repeat constructor. subst s. lia.
  - intros k h. rewrite seqs_of_app. unfold seqs_of at 2, rows_of; cbn.
    destruct (decide (j = k)) as [->|Hne].
    + rewrite lookup_insert_eq. intros [= <-]. rewrite bool_decide_true by done. cbn.
      apply Forall_app. split; [|repeat constructor; lia].
      eapply Forall_impl; [exact Hlt|]. cbn. lia.
    + rewrite lookup_insert_ne by done. rewrite bool_decide_false by done. cbn.
      rewrite app_nil_r. apply Hh.
  - intros r [Hr|Hr]%elem_of_app.
    + destruct (Hid r Hr) as (n & ? & ?). exists n. split; [done|lia].
    + apply list_elem_of_singleton in Hr as ->. cbn. exists (wr_ids w). split; [done|lia].
  - rewrite map_app. apply NoDup_app. split; [done|]. split; [|apply NoDup_singleton].
    intros x Hx Hx'. cbn in Hx'. apply list_elem_of_singleton in Hx' as ->.
    apply list_elem_of_fmap in Hx as (r & Heq & Hr). destruct (Hid r Hr) as (n & Hn & ?).
    rewrite Hn in Heq. apply new_id_inj in Heq. lia.
Qed.

Lemma run_appends_rows_ok calls w :
  rows_ok (wr_rows w) (wr_high w) (wr_ids w) ->
  let w' := run_appends calls w in rows_ok (wr_rows w') (wr_high w') (wr_ids w').
Proof.
  revert w. induction calls as [|c calls IH]; intros w Hw; [done|].
  cbn. apply IH, append_rows_ok, Hw.
Qed.
End lemmas.
(** ** Lemmas: the live buffers *)

Lemma elem_of_drop_weaken {A} n (l : list A) x : x ∈ drop n l -> x ∈ l.
Proof. intros Hx. rewrite <- (take_drop n l). apply elem_of_app. by right. Qed.

Lemma publish_staged_cons j e es s :
  publish_staged ((j, e) :: es) s =
  publish_staged es
    (let s' := mkSink (high s) (live s) (published s ++ [(j, e)]) in
     if bool_decide (fr_type e ∈ TERMINAL_STREAM_EVENTS) then forget j s' else s').
Proof. reflexivity. Qed.

Lemma publish_staged_lookup es s j :
  (high (publish_staged es s) !! j = high s !! j /\ live (publish_staged es s) !! j = live s !! j)
  \/ (high (publish_staged es s) !! j = None /\ live (publish_staged es s) !! j = None).
Proof.
  revert s. induction es as [|[k e] es IH]; intros s; [by left|].
  rewrite publish_staged_cons. cbv zeta. case_bool_decide.
  - destruct (IH (forget k (mkSink (high s) (live s) (published s ++ [(k, e)])))) as [[H1 H2]|?];
      [|by right]. rewrite H1, H2. cbn.
    destruct (decide (j = k)) as [->|]; [right; by rewrite !lookup_delete_eq|].
    left. by rewrite !lookup_delete_ne by done.
  - apply (IH (mkSink (high s) (live s) (published s ++ [(k, e)]))).
Qed.

Lemma publish_staged_published es s : published (publish_staged es s) = published s ++ es.
Proof.
  revert s. induction es as [|[k e] es IH]; intros s; [by rewrite app_nil_r|].
  rewrite publish_staged_cons, IH. cbv zeta. case_bool_decide; cbn; by rewrite <- app_assoc.
Qed.

(** Dropping counters and buffers together keeps both halves. *)
Lemma rows_ok_shrink `{Externals} rows hi hi' ids :
  (forall j, hi' !! j = hi !! j \/ hi' !! j = None) -> rows_ok rows hi ids -> rows_ok rows hi' ids.
Proof.
  intros Hsub (Hs & Hh & Hrest). split; [done|]. split; [|done].
  intros j h Hj. destruct (Hsub j) as [He|He]; [|congruence]. apply Hh. congruence.
Qed.

Lemma live_ok_shrink rows hi hi' lv lv' :
  (forall j, (hi' !! j = hi !! j /\ lv' !! j = lv !! j) \/ (hi' !! j = None /\ lv' !! j = None)) ->
  live_ok rows hi lv -> live_ok rows hi' lv'.
Proof.
  intros Hsub Hl j l Hj. destruct (Hsub j) as [[Hh He]|[_ He]]; [|congruence].
  rewrite Hh. apply Hl. congruence.
Qed.

Lemma append_live_ok `{Externals} j t now m d w lv :
  live_ok (wr_rows w) (wr_high w) lv ->
  let w' := append j t now m d w in live_ok (wr_rows w') (wr_high w') lv.
Proof.
  intros Hl w' k l Hk. destruct (Hl k l Hk) as (Hlen & Hs & (h & Hh & Hle) & Hdis).
  split; [done|]. split; [done|]. subst w'. cbn.
  set (s := Z.max (stored_max (wr_rows w) j) (default 0 (wr_high w !! j)) + 1).
  destruct (decide (j = k)) as [->|Hne].
  - assert (h < s) by (subst s; rewrite Hh; cbn; lia).
    split.
    + exists s. rewrite lookup_insert_eq. split; [done|].
      eapply Forall_impl; [exact Hle|]. cbn. lia.
    + intros e He. rewrite seqs_of_app. unfold seqs_of at 2, rows_of; cbn.
      rewrite bool_decide_true by done. cbn. rewrite Forall_forall in Hle.
      specialize (Hle e He). specialize (Hdis e He). rewrite elem_of_app, list_elem_of_singleton.
      intros [?|?]; [done|lia].
  - split; [exists h; by rewrite lookup_insert_ne|].
    intros e He. rewrite seqs_of_app. unfold seqs_of at 2, rows_of; cbn.
    rewrite bool_decide_false by done. cbn. rewrite app_nil_r. auto.
Qed.

Lemma run_appends_live_ok `{Externals} calls w lv :
  live_ok (wr_rows w) (wr_high w) lv ->
  let w' := run_appends calls w in live_ok (wr_rows w') (wr_high w') lv.
Proof.
  revert w. induction calls as [|c calls IH]; intros w Hw; [done|]. cbn. by apply IH, append_live_ok.
Qed.

Lemma StronglySorted_drop (n : nat) (l : list Z) :
  StronglySorted Z.lt l -> StronglySorted Z.lt (drop n l).
Proof.
  revert l. induction n as [|n IH]; intros [|x l] Hl; cbn; try done.
  apply IH. by inversion Hl.
Qed.

Lemma publish_live_ok `{Externals} j t b rows s ids :
  is_Some (high s !! j) -> rows_ok rows (high s) ids -> live_ok rows (high s) (live s) ->
  let s' := (publish_live j t b s).1 in rows_ok rows (high s') ids /\ live_ok rows (high s') (live s').
Proof.
  intros [h Hh] (Hs & Hhi & Hrest) Hl. cbn. rewrite Hh. cbn. split.
  - split; [done|]. split; [|done]. intros k h'. destruct (decide (j = k)) as [->|Hne].
    + rewrite lookup_insert_eq. intros [= <-]. eapply Forall_impl; [by apply (Hhi k h)|]. cbn. lia.
    + rewrite lookup_insert_ne by done. apply Hhi.
  - intros k l. destruct (decide (j = k)) as [->|Hne].
    + rewrite !lookup_insert_eq. intros [= <-].
      assert (Hb : exists l0, default [] (live s !! k) = l0 /\ StronglySorted Z.lt (map fr_sequence l0)
                 /\ Forall (fun e => fr_sequence e <= h) l0
                 /\ (forall e, e ∈ l0 -> fr_sequence e ∉ seqs_of rows k)).
      { destruct (live s !! k) as [l0|] eqn:El; cbn.
        - destruct (Hl k l0 El) as (_ & ? & (h0 & ? & ?) & ?). exists l0. simplify_eq. eauto.
        - exists []. split; [done|]. split; [constructor|]. split; [constructor|].
          intros e He. by apply not_elem_of_nil in He. }
      destruct Hb as (l0 & -> & Hsort & Hle & Hdis). unfold deque_append.
      set (e1 := mkFrame (h + 1) t (JObj b)). set (n := (length (l0 ++ [e1]) - LIVE_BUFFER_SIZE)%nat).
      split; [rewrite length_drop; subst n; lia|]. split.
      { rewrite <- skipn_map. apply StronglySorted_drop. rewrite map_app. apply StronglySorted_snoc; [done|].
        apply Forall_map. eapply Forall_impl; [exact Hle|]. cbn. lia. }
      split.
      { exists (h + 1). split; [done|]. apply Forall_drop, Forall_app. split; [|repeat constructor].
        + eapply Forall_impl; [exact Hle|]. cbn. lia.
        + cbn. lia. }
      intros e He%elem_of_drop_weaken. apply elem_of_app in He as [He|He]; [auto|].
      apply list_elem_of_singleton in He as ->. cbn. intros Hin.
      pose proof (Hhi k h Hh) as Hf. rewrite Forall_forall in Hf. specialize (Hf _ Hin). lia.
    + rewrite !lookup_insert_ne by done. apply Hl.
Qed.

Lemma run_appends_rows `{Externals} calls w :
  exists extra, wr_rows (run_appends calls w) = wr_rows w ++ extra.
Proof.
  revert w. induction calls as [|c calls IH]; intros w; [exists []; by rewrite app_nil_r|].
  destruct (IH (append (ac_job c) (ac_type c) (ac_now c) (ac_message c) (ac_data c) w))
    as [extra He]. unfold run_appends in *. cbn [fold_left]. rewrite He. cbn.
  rewrite <- app_assoc. by eexists.
Qed.

(** A rolled-back transaction leaves a prefix of its view of the table. *)
Lemma rows_ok_prefix `{Externals} rows extra hi ids :
  rows_ok (rows ++ extra) hi ids -> rows_ok rows hi ids.
Proof.
  intros (Hs & Hh & Hid & Hnd). split; [|split; [|split]].
  - intros j. destruct (Hs j) as [H1 H2]. rewrite seqs_of_app in H1, H2. split.
    + clear H2. induction (seqs_of rows j) as [|x l IH]; [constructor|].
      cbn in H1. apply StronglySorted_inv in H1 as [H1 Hx]. constructor; [auto|].
      by apply Forall_app in Hx as [? _].
    + by apply Forall_app in H2 as [? _].
  - intros j h Hj. specialize (Hh j h Hj). rewrite seqs_of_app in Hh.
    by apply Forall_app in Hh as [? _].
  - intros r Hr. apply Hid, elem_of_app. by left.
  - rewrite map_app in Hnd. by apply NoDup_app in Hnd as [? _].
Qed.

Lemma live_ok_prefix rows extra hi lv : live_ok (rows ++ extra) hi lv -> live_ok rows hi lv.
Proof.
  intros Hl j l Hj. destruct (Hl j l Hj) as (? & ? & ? & Hd). split; [done|]. split; [done|].
  split; [done|]. intros e He Hin. apply (Hd e He). rewrite seqs_of_app. apply elem_of_app. by left.
Qed.

(** The invariant holds initially and every step keeps it. *)
Lemma inv_initial `{Externals} : inv initial.
Proof.
  split.
  - split; [intros j; split; constructor|]. split; [intros j h Hj; cbn in Hj; by rewrite lookup_empty in Hj|].
    split; [intros r Hr; by apply not_elem_of_nil in Hr|constructor].
  - intros j l Hj. cbn in Hj. by rewrite lookup_empty in Hj.
Qed.

Lemma inv_step `{ExternalsLaws} st st' : step st st' -> inv st -> inv st'.
Proof.
  intros Hstep [Hr Hl]. destruct Hstep as [calls st|calls st|j t b st Hj|j st|st|st].
  - pose proof (run_appends_rows_ok calls (begin_write st) Hr) as Hr'.
    pose proof (run_appends_live_ok calls (begin_write st) _ Hl) as Hl'.
    set (w := run_appends calls (begin_write st)) in *. cbn in Hr', Hl'.
    pose proof (publish_staged_lookup (staged w)
      (mkSink (wr_high w) (live (st_sink st)) (published (st_sink st)))) as Hp.
    split; cbn.
    + eapply rows_ok_shrink; [|exact Hr']. intros k. cbn in Hp. destruct (Hp k) as [[? _]|[? _]]; auto.
    + eapply live_ok_shrink; [|exact Hl']. exact Hp.
  - pose proof (run_appends_rows_ok calls (begin_write st) Hr) as Hr'.
    pose proof (run_appends_live_ok calls (begin_write st) _ Hl) as Hl'.
    destruct (run_appends_rows calls (begin_write st)) as [extra He].
    cbn zeta in Hr', Hl'. rewrite He in Hr', Hl'. cbn in Hr', Hl'.
    split; cbn; [by eapply rows_ok_prefix|by eapply live_ok_prefix].
  - by apply publish_live_ok.
  - split; cbn.
    + eapply rows_ok_shrink; [|exact Hr]. intros k.
      destruct (decide (j = k)) as [->|]; [right; by rewrite lookup_delete_eq|left; by rewrite lookup_delete_ne].
    + eapply live_ok_shrink; [|exact Hl]. intros k.
      destruct (decide (j = k)) as [->|]; [right; by rewrite !lookup_delete_eq|left; by rewrite !lookup_delete_ne].
  - split; cbn.
    + eapply rows_ok_shrink; [|exact Hr]. intros k. right. apply lookup_empty.
    + intros k l Hk. cbn in Hk. by rewrite lookup_empty in Hk.
  - split; [|done]. destruct Hr as (? & ? & Hid & ?). split; [done|]. split; [done|]. split; [|done].
    intros r Hr. destruct (Hid r Hr) as (n & ? & ?). exists n. split; [done|]. cbn. lia.
Qed.

Lemma inv_reachable `{ExternalsLaws} st : rtc step initial st -> inv st.
Proof.
  intros Hr. pose proof inv_initial as Hi. induction Hr as [|x y z Hxy _ IH]; [done|].
  apply IH. by eapply inv_step.
Qed.

(** ** Lemmas: replay *)

Definition key_lt {A} (x y : Z * A) : Prop := x.1 < y.1.

Definition key_filter {A} (p : Z -> bool) (m : gmap Z A) : gmap Z A :=
  filter (fun kv => p kv.1 = true) m.

Lemma key_filter_lookup {A} p (m : gmap Z A) k :
  key_filter p m !! k = if p k then m !! k else None.
Proof.
  unfold key_filter. destruct (p k) eqn:Ep.
  - destruct (m !! k) as [v|] eqn:Em.
    + by apply map_lookup_filter_Some.
    + apply map_lookup_filter_None. by left.
  - apply map_lookup_filter_None. right. cbn. intros ? ? ?. congruence.
Qed.

Lemma key_filter_union {A} p (m1 m2 : gmap Z A) :
  key_filter p (m1 ∪ m2) = key_filter p m1 ∪ key_filter p m2.
Proof.
  apply map_eq. intros k. rewrite key_filter_lookup, !lookup_union, !key_filter_lookup.
  by destruct (p k).
Qed.

Lemma frames_lookup l k e :
  NoDup (map fr_sequence l) ->
  frames_by_sequence l !! k = Some e <-> e ∈ l /\ fr_sequence e = k.
Proof.
  unfold frames_by_sequence. revert k e. induction l as [|x l IH] using rev_ind; intros k e Hnd.
  - cbn. rewrite lookup_empty. split; [done|]. intros [He _]. by apply not_elem_of_nil in He.
  - rewrite map_app in Hnd. apply NoDup_app in Hnd as (Hnd & Hdis & _).
    rewrite fold_left_app. cbn. rewrite elem_of_app, list_elem_of_singleton.
    destruct (decide (fr_sequence x = k)) as [<-|Hne].
    + rewrite lookup_insert_eq. split; [intros [= <-]; auto|]. intros [[He| ->] Hk]; [|done].
      exfalso. apply (Hdis (fr_sequence e)); [by apply list_elem_of_fmap_2|].
      rewrite Hk. cbn. by left.
    + rewrite lookup_insert_ne by done. rewrite IH by done. naive_solver.
Qed.

Lemma ascending_elem {A} (m : gmap Z A) x : x ∈ ascending m <-> m !! x.1 = Some x.2.
Proof.
  unfold ascending. rewrite elem_of_py_sorted. destruct x as [k v]. apply elem_of_map_to_list.
Qed.

Lemma ascending_sorted {A} (m : gmap Z A) : StronglySorted key_lt (ascending m).
Proof.
  assert (Hnd : NoDup (ascending m).*1).
  { unfold ascending. rewrite py_sorted_perm. apply NoDup_fst_map_to_list. }
  assert (Hs : StronglySorted (fun x y => key_leb x y = true) (ascending m)).
  { apply py_sorted_Sorted; unfold key_leb; intros.
    - destruct (Z.leb_spec (x.1) (y.1)); [by left|]. right. apply Z.leb_le. lia.
    - bool_to_prop. apply Z.leb_le. lia. }
  induction Hs as [|x l Hs IH Hx]; [constructor|].
  cbn in Hnd. apply NoDup_cons in Hnd as [Hni Hnd]. constructor; [auto|].
  rewrite Forall_forall in Hx |- *. intros y Hy. specialize (Hx y Hy). unfold key_leb, key_lt in *.
  apply Z.leb_le in Hx. assert (x.1 <> y.1); [|lia]. intros He. apply Hni. rewrite He.
  by apply list_elem_of_fmap_2.
Qed.

Lemma key_sorted_NoDup {A} (l : list (Z * A)) : StronglySorted key_lt l -> NoDup l.
Proof.
  induction 1 as [|x l Hs IH Hx]; constructor; [|done]. intros Hin.
  rewrite Forall_forall in Hx. specialize (Hx x Hin). unfold key_lt in Hx. lia.
Qed.

Lemma key_sorted_unique {A} (l l' : list (Z * A)) :
  StronglySorted key_lt l -> StronglySorted key_lt l' -> (forall x, x ∈ l <-> x ∈ l') -> l = l'.
Proof.
  intros Hl Hl' Heq. apply (StronglySorted_unique_strong key_lt); try done.
  - unfold key_lt. intros. lia.
  - apply NoDup_Permutation; [by apply key_sorted_NoDup..|]. exact Heq.
Qed.

Lemma key_sorted_filter {A} (p : Z * A -> bool) l :
  StronglySorted key_lt l -> StronglySorted key_lt (List.filter p l).
Proof.
  induction 1 as [|x l Hs IH Hx]; cbn; [constructor|]. destruct (p x); [|done].
  constructor; [done|]. rewrite Forall_forall in Hx |- *. intros y Hy.
  apply Hx. apply list_elem_of_In, List.filter_In in Hy as [Hy _]. by apply list_elem_of_In.
Qed.

Lemma ascending_filter {A} p (m : gmap Z A) :
  ascending (key_filter p m) = List.filter (fun x => p x.1) (ascending m).
Proof.
  apply key_sorted_unique; [apply ascending_sorted|apply key_sorted_filter, ascending_sorted|].
  intros [k v]. rewrite ascending_elem. cbn. rewrite key_filter_lookup.
  rewrite list_elem_of_In, List.filter_In, <- list_elem_of_In, ascending_elem. cbn.
  destruct (p k); naive_solver.
Qed.

(** An ascending list of frames is its own merge. *)
Lemma ascending_frames l :
  StronglySorted Z.lt (map fr_sequence l) ->
  ascending (frames_by_sequence l) = map (fun e => (fr_sequence e, e)) l.
Proof.
  intros Hs.
  assert (Hnd : NoDup (map fr_sequence l)).
  { induction Hs as [|x l' Hs IH Hx]; constructor; [|done]. intros Hin.
    rewrite Forall_forall in Hx. specialize (Hx x Hin). lia. }
  apply key_sorted_unique; [apply ascending_sorted| |].
  - clear Hnd. induction l as [|e l IH]; cbn in *; [constructor|].
    apply StronglySorted_inv in Hs as [Hs Hx]. constructor; [auto|].
    rewrite Forall_forall in Hx. apply Forall_forall. intros p Hp.
    apply list_elem_of_fmap in Hp as (e' & -> & He'). unfold key_lt; cbn.
    apply Hx. by apply list_elem_of_fmap_2.
  - intros [k e]. rewrite ascending_elem. cbn. rewrite frames_lookup by done.
    rewrite list_elem_of_fmap. split.
    + intros [He <-]. by exists e.
    + by intros (e' & [= -> ->] & ?).
Qed.

(** The frames of one job a client can be served, ascending: the stored rows and the buffer. *)
Definition stream_of `{Externals} (st : State) (job_id : string) : list (Z * Frame) :=
  ascending (frames_by_sequence (map frame_of_row (rows_of (st_rows st) job_id)) ∪
             frames_by_sequence (default [] (live (st_sink st) !! job_id))).

Lemma filter_frames p l :
  NoDup (map fr_sequence l) ->
  key_filter p (frames_by_sequence l)
  = frames_by_sequence (List.filter (fun e => p (fr_sequence e)) l).
Proof.
  intros Hnd. apply map_eq. intros k. apply option_eq. intros e. rewrite key_filter_lookup.
  assert (Hnd' : NoDup (map fr_sequence (List.filter (fun e => p (fr_sequence e)) l))).
  { clear k e. induction l as [|e l IH]; [done|]. cbn in Hnd. apply NoDup_cons in Hnd as [Hni Hnd].
    cbn. destruct (p (fr_sequence e)); cbn; [|auto]. apply NoDup_cons. split; [|auto].
    intros Hin. apply Hni. apply list_elem_of_fmap in Hin as (e' & -> & He').
    apply list_elem_of_fmap_2. apply list_elem_of_In, List.filter_In in He' as [? _].
    by apply list_elem_of_In. }
  rewrite (frames_lookup (List.filter _ l)) by done.
  rewrite list_elem_of_In, List.filter_In, <- list_elem_of_In.
  destruct (p k) eqn:Ep.
  - rewrite frames_lookup by done. split; [intros [? <-]; auto|]. intros [[? _] ?]; auto.
  - split; [done|]. intros [[_ He] <-]. congruence.
Qed.

(** A sorted list splits at a threshold. *)
Lemma key_sorted_split {A} (t : Z) (l : list (Z * A)) :
  StronglySorted key_lt l ->
  l = List.filter (fun x => x.1 <=? t) l ++ List.filter (fun x => t <? x.1) l.
Proof.
  induction 1 as [|x l Hs IH Hx]; [done|]. cbn.
  destruct (Z.leb_spec (x.1) t) as [Hle|Hgt].
  - rewrite (proj2 (Z.ltb_ge t x.1)) by done. cbn. by f_equal.
  - rewrite (proj2 (Z.ltb_lt t x.1)) by done.
    assert (Hno : List.filter (fun y => y.1 <=? t) l = []).
    { rewrite Forall_forall in Hx. clear IH Hs. induction l as [|y l IH]; [done|]. cbn.
      assert (key_lt x y) as Hxy by (apply Hx; by left). unfold key_lt in Hxy.
      rewrite (proj2 (Z.leb_gt (y.1) t)) by lia. apply IH. intros z Hz. apply Hx. by right. }
    rewrite Hno in IH |- *. cbn in *. by f_equal.
Qed.

Lemma key_sorted_agree {A} (n : nat) (t : Z) (l l' : list (Z * A)) :
  StronglySorted key_lt l -> StronglySorted key_lt l' ->
  List.filter (fun x => x.1 <=? t) l = List.filter (fun x => x.1 <=? t) l' ->
  (n <= length (List.filter (fun x => (x.1 <=? t)%Z) l))%nat ->
  take n l = take n l'.
Proof.
  intros Hl Hl' He Hn. rewrite (key_sorted_split t l) by done.
  rewrite (key_sorted_split t l') by done. rewrite <- He. by rewrite !take_app_le by done.
Qed.

Lemma sorted_NoDup (l : list Z) : StronglySorted Z.lt l -> NoDup l.
Proof.
  induction 1 as [|x l Hs IH Hx]; constructor; [|done]. intros Hin.
  rewrite Forall_forall in Hx. specialize (Hx x Hin). lia.
Qed.

Lemma sorted_app_inv (l l' : list Z) :
  StronglySorted Z.lt (l ++ l') ->
  StronglySorted Z.lt l /\ StronglySorted Z.lt l' /\ (forall x y, x ∈ l -> y ∈ l' -> x < y).
Proof.
  induction l as [|a l IH]; cbn; intros Hs.
  - split; [constructor|]. split; [done|]. intros x y Hx. by apply not_elem_of_nil in Hx.
  - apply StronglySorted_inv in Hs as [Hs Ha]. destruct (IH Hs) as (H1 & H2 & H3).
    apply Forall_app in Ha as [Ha1 Ha2]. split; [by constructor|]. split; [done|].
    intros x y [->|Hx]%elem_of_cons Hy; [|auto]. rewrite Forall_forall in Ha2. auto.
Qed.

(** Reading only the first [n] stored frames is enough for the first [n] merged ones. *)
Lemma take_merge (P lv : list Frame) (n : nat) :
  StronglySorted Z.lt (map fr_sequence P) ->
  take n (ascending (frames_by_sequence (take n P) ∪ frames_by_sequence lv))
  = take n (ascending (frames_by_sequence P ∪ frames_by_sequence lv)).
Proof.
  intros HP. destruct (decide (length P <= n)%nat) as [Hlen|Hlen]; [by rewrite (take_ge P) by lia|].
  destruct (last (take n P)) as [e|] eqn:El.
  2:{ apply last_None in El. destruct n; [done|]. destruct P; [cbn in Hlen; lia|done]. }
  set (t := fr_sequence e).
  rewrite <- (take_drop n P), map_app in HP.
  destruct (sorted_app_inv _ _ HP) as (HP1 & HP2 & Hlt).
  assert (He : e ∈ take n P) by (apply last_Some in El as [l0 ->]; set_solver).
  assert (Hmax : forall x, x ∈ take n P -> fr_sequence x <= t).
  { intros x Hx. apply last_Some in El as [l0 El]. rewrite El in Hx, HP1.
    apply elem_of_app in Hx as [Hx|Hx]; [|apply list_elem_of_singleton in Hx as ->; done].
    rewrite map_app in HP1. apply sorted_app_inv in HP1 as (_ & _ & Hl). apply Z.lt_le_incl, Hl.
    - by apply list_elem_of_fmap_2.
    - cbn. by left. }
  assert (Hnd1 := sorted_NoDup _ HP1).
  assert (Hnd : NoDup (map fr_sequence P))
    by (rewrite <- (take_drop n P), map_app; by apply sorted_NoDup).
  apply (key_sorted_agree n t); [apply ascending_sorted..| |].
  - rewrite <- !(ascending_filter (fun k => k <=? t)), !key_filter_union.
    f_equal. f_equal. apply map_eq. intros k. apply option_eq. intros x. rewrite !key_filter_lookup.
    destruct (Z.leb_spec k t) as [Hk|Hk]; [|done]. rewrite !frames_lookup by done.
    split; intros [Hx <-]; split; [by eapply subseteq_take| done| |done].
    rewrite <- (take_drop n P) in Hx. apply elem_of_app in Hx as [Hx|Hx]; [done|].
    assert (t < fr_sequence x); [|lia]. apply Hlt; by apply list_elem_of_fmap_2.
  - assert (Hn : n = length (map (fun x => (fr_sequence x, x)) (take n P)))
      by (rewrite length_map, length_take; lia).
    rewrite Hn at 1. apply submseteq_length, NoDup_submseteq.
    + apply (NoDup_fmap_1 fst). rewrite <- list_fmap_compose. exact Hnd1.
    + intros p Hp. apply list_elem_of_fmap in Hp as (x & -> & Hx).
      apply list_elem_of_In, List.filter_In. split; [|by apply Z.leb_le, Hmax].
      apply list_elem_of_In, ascending_elem. cbn. apply lookup_union_Some_l.
      by apply frames_lookup.
Qed.

Lemma py_sorted_id {A} (leb : A -> A -> bool) l :
  StronglySorted (fun x y => leb x y = true) l -> py_sorted leb l = l.
Proof.
  induction 1 as [|x l Hs IH Hx]; [done|]. cbn. rewrite IH. destruct l as [|y l]; [done|]. cbn.
  apply Forall_cons in Hx as [-> _]. done.
Qed.

Lemma filter_and {A} (p q : A -> bool) l :
  List.filter (fun x => p x && q x) l = List.filter q (List.filter p l).
Proof.
  induction l as [|x l IH]; [done|]. cbn. destruct (p x); cbn; [|done]. destruct (q x); by rewrite IH.
Qed.

Lemma filter_sorted_seq {A} (f : A -> Z) (p : A -> bool) l :
  StronglySorted Z.lt (map f l) -> StronglySorted Z.lt (map f (List.filter p l)).
Proof.
  induction l as [|x l IH]; cbn; intros Hs; [constructor|].
  apply StronglySorted_inv in Hs as [Hs Hx]. destruct (p x); cbn; [|auto]. constructor; [auto|].
  rewrite Forall_forall in Hx |- *. intros y Hy. apply Hx.
  apply list_elem_of_fmap in Hy as (z & -> & Hz). apply list_elem_of_fmap_2.
  apply list_elem_of_In, List.filter_In in Hz as [? _]. by apply list_elem_of_In.
Qed.

Lemma map_sorted_lt {A} (f : A -> Z) l :
  StronglySorted Z.lt (map f l) -> StronglySorted (fun x y => (f x <=? f y) = true) l.
Proof.
  induction l as [|x l IH]; cbn; intros Hs; [constructor|].
  apply StronglySorted_inv in Hs as [Hs Hx]. constructor; [auto|].
  rewrite Forall_forall in Hx. apply Forall_forall. intros y Hy. apply Z.leb_le.
  apply Z.lt_le_incl, Hx. by apply list_elem_of_fmap_2.
Qed.

Lemma rows_after_sorted rows j a :
  StronglySorted Z.lt (seqs_of rows j) ->
  rows_after rows j a = List.filter (fun r => a <? ev_sequence r) (rows_of rows j).
Proof.
  intros Hs. unfold rows_after. rewrite filter_and. apply py_sorted_id, map_sorted_lt.
  by apply filter_sorted_seq.
Qed.

Lemma take_fst {A} n (l l' : list (Z * A)) : take n l = take n l' -> take n l.*2 = take n l'.*2.
Proof. intros Hl. by rewrite <- !fmap_take, Hl. Qed.

Section replay.
Context `{Externals}.

Lemma frame_seqs rows : map fr_sequence (map frame_of_row rows) = map ev_sequence rows.
Proof. rewrite map_map. by apply map_ext. Qed.

Lemma filter_frames_of_rows p rows :
  List.filter (fun e => p (fr_sequence e)) (map frame_of_row rows)
  = map frame_of_row (List.filter (fun r => p (ev_sequence r)) rows).
Proof. induction rows as [|r rows IH]; [done|]. cbn. destruct (p (ev_sequence r)); by rewrite IH. Qed.

(** The bounded read is the first [limit] frames after the client's position. *)
Lemma replay_spec st j a n :
  inv st ->
  replay (st_rows st) (st_sink st) j a n
  = take n (List.filter (fun x => a <? x.1) (stream_of st j)).*2.
Proof.
  intros [(Hs & _) Hl]. destruct (Hs j) as [Hsj _].
  set (p := fun k => a <? k).
  set (P := map frame_of_row (List.filter (fun r => p (ev_sequence r)) (rows_of (st_rows st) j))).
  assert (HP : StronglySorted Z.lt (map fr_sequence P)).
  { unfold P. rewrite frame_seqs. by apply filter_sorted_seq. }
  assert (Hlv : StronglySorted Z.lt (map fr_sequence (default [] (live (st_sink st) !! j)))).
  { destruct (live (st_sink st) !! j) as [l|] eqn:El; [|constructor]. by apply (Hl j l). }
  assert (Hst : List.filter (fun x => p x.1) (stream_of st j)
                = ascending (frames_by_sequence P ∪ frames_by_sequence (live_after (st_sink st) j a))).
  { unfold stream_of. rewrite <- ascending_filter, key_filter_union. f_equal.
    rewrite !filter_frames by (rewrite ?frame_seqs; by apply sorted_NoDup).
    by rewrite filter_frames_of_rows. }
  rewrite Hst. unfold replay. rewrite rows_after_sorted by done.
  destruct (live_after (st_sink st) j a) as [|e lv] eqn:El.
  - change (frames_by_sequence []) with (∅ : gmap Z Frame).
    rewrite (map_union_empty (frames_by_sequence P)), ascending_frames by done.
    change (map frame_of_row (take n (List.filter (fun r => p (ev_sequence r))
              (rows_of (st_rows st) j))) = take n (map snd (map (fun e => (fr_sequence e, e)) P))).
    by rewrite map_map, map_id, <- firstn_map.
  - apply take_fst, (eq_trans (y := take n (ascending
        (frames_by_sequence (take n P) ∪ frames_by_sequence (e :: lv))))); [|by apply take_merge].
    unfold P. by rewrite firstn_map.
Qed.
End replay.

(** ** Lemmas: draining *)

Lemma key_filter_list_twice {A} (a b : Z) (l : list (Z * A)) :
  a <= b ->
  List.filter (fun x => b <? x.1) (List.filter (fun x => a <? x.1) l)
  = List.filter (fun x => b <? x.1) l.
Proof.
  intros Hab. induction l as [|x l IH]; [done|]. cbn.
  destruct (Z.ltb_spec a (x.1)) as [Ha|Ha]; cbn; rewrite IH; [done|].
  by rewrite (proj2 (Z.ltb_ge b x.1)) by lia.
Qed.

Lemma filter_none {A} (p : A -> bool) l : (forall x, x ∈ l -> p x = false) -> List.filter p l = [].
Proof.
  induction l as [|x l IH]; intros Hp; [done|]. cbn. rewrite Hp by left. apply IH.
  intros y Hy. apply Hp. by right.
Qed.

Lemma filter_all {A} (p : A -> bool) l : (forall x, x ∈ l -> p x = true) -> List.filter p l = l.
Proof.
  induction l as [|x l IH]; intros Hp; [done|]. cbn. rewrite Hp by left. f_equal. apply IH.
  intros y Hy. apply Hp. by right.
Qed.

Lemma key_sorted_app_inv {A} (l l' : list (Z * A)) :
  StronglySorted key_lt (l ++ l') ->
  StronglySorted key_lt l /\ (forall x y, x ∈ l -> y ∈ l' -> x.1 < y.1).
Proof.
  induction l as [|a l IH]; cbn; intros Hs.
  - split; [constructor|]. intros x y Hx. by apply not_elem_of_nil in Hx.
  - apply StronglySorted_inv in Hs as [Hs Ha]. destruct (IH Hs) as [H1 H3].
    apply Forall_app in Ha as [Ha1 Ha2]. split; [by constructor|].
    intros x y [->|Hx]%elem_of_cons Hy; [|auto]. rewrite Forall_forall in Ha2. by apply Ha2.
Qed.

Lemma filter_after_last {A} n (l : list (Z * A)) x :
  StronglySorted key_lt l -> last (take n l) = Some x ->
  List.filter (fun y => x.1 <? y.1) l = drop n l.
Proof.
  intros Hs Hx. rewrite <- (take_drop n l) in Hs.
  destruct (key_sorted_app_inv _ _ Hs) as [Hs1 Hlt].
  rewrite <- (take_drop n l) at 1. rewrite List.filter_app.
  apply last_Some in Hx as [l0 Hl0]. rewrite Hl0 in Hs1, Hlt |- *.
  rewrite (filter_none _ (l0 ++ [x])), (filter_all _ (drop n l)); [done| |].
  - intros y Hy. apply Z.ltb_lt, Hlt; [set_solver|done].
  - intros y [Hy|Hy]%elem_of_app; apply Z.ltb_ge.
    + apply Z.lt_le_incl. apply (proj2 (key_sorted_app_inv _ _ Hs1)); [done|by left].
    + apply list_elem_of_singleton in Hy as ->. lia.
Qed.

Lemma stream_of_key `{Externals} st j x : inv st -> x ∈ stream_of st j -> fr_sequence x.2 = x.1.
Proof.
  intros [(Hs & _) Hl] Hx. apply ascending_elem, lookup_union_Some_raw in Hx.
  assert (Hnd : NoDup (map fr_sequence (map frame_of_row (rows_of (st_rows st) j))))
    by (rewrite frame_seqs; apply sorted_NoDup, Hs).
  destruct Hx as [Hx|[_ Hx]]; [by apply frames_lookup in Hx as [_ ?]|].
  destruct (live (st_sink st) !! j) as [l|] eqn:El; [|by (cbn in Hx; rewrite lookup_empty in Hx)].
  apply frames_lookup in Hx as [_ ?]; [done|]. apply sorted_NoDup. by apply (Hl j l).
Qed.

Lemma drain_stream `{Externals} n st j a limit :
  inv st -> (0 < limit)%nat ->
  (length (List.filter (fun x => (a <? x.1)%Z) (stream_of st j)) <= n)%nat ->
  drain n (st_rows st) (st_sink st) j a limit
  = (List.filter (fun x => a <? x.1) (stream_of st j)).*2.
Proof.
  intros Hi Hlim. revert a. induction n as [|n IH]; intros a Hn.
  { destruct (List.filter _ _); [done|cbn in Hn; lia]. }
  cbn [drain]. rewrite replay_spec by done.
  set (F := List.filter (fun x => a <? x.1) (stream_of st j)) in *.
  assert (HF : StronglySorted key_lt F) by apply key_sorted_filter, ascending_sorted.
  rewrite <- fmap_take, fmap_last. destruct (last (take limit F)) as [x|] eqn:Ex; cbn.
  2:{ apply last_None in Ex. by destruct limit, F; try lia. }
  assert (Hx : x ∈ F).
  { apply last_Some in Ex as [l0 Hl0]. rewrite <- (take_drop limit F), Hl0. set_solver. }
  apply list_elem_of_In, List.filter_In in Hx as [Hx Ha]. apply list_elem_of_In in Hx. bool_to_prop.
  rewrite (stream_of_key st j x Hi Hx).
  assert (Hd : List.filter (fun y => x.1 <? y.1) (stream_of st j) = drop limit F).
  { rewrite <- (filter_after_last limit F x HF Ex). symmetry. apply key_filter_list_twice. lia. }
  rewrite IH; rewrite Hd.
  - by rewrite <- fmap_app, take_drop.
  - rewrite length_drop. assert (F <> []) by (intros E; rewrite E, take_nil in Ex; done).
    destruct F; [done|cbn in *; lia].
Qed.

Lemma stored_in_stream `{Externals} st r :
  inv st -> r ∈ st_rows st -> (ev_sequence r, frame_of_row r) ∈ stream_of st (ev_job_id r).
Proof.
  intros [(Hs & _) _] Hr. apply ascending_elem. cbn. apply lookup_union_Some_l, frames_lookup.
  - rewrite frame_seqs. apply sorted_NoDup, Hs.
  - split; [|done]. apply list_elem_of_fmap_2, list_elem_of_In, List.filter_In.
    rewrite bool_decide_true by done. split; [|done]. by apply list_elem_of_In.
Qed.

Lemma buffered_in_stream `{Externals} st j e :
  inv st -> e ∈ default [] (live (st_sink st) !! j) -> (fr_sequence e, e) ∈ stream_of st j.
Proof.
  intros [(Hs & _) Hl] He. destruct (live (st_sink st) !! j) as [l|] eqn:El;
    [|by apply not_elem_of_nil in He].
  destruct (Hl j l El) as (_ & Hss & _ & Hd). apply ascending_elem. cbn.
  apply lookup_union_Some_raw. right. rewrite El. cbn. split.
  - apply eq_None_not_Some. intros [x Hx]. apply frames_lookup in Hx as [Hx Heq].
    + apply (Hd e He). rewrite <- Heq. apply list_elem_of_fmap in Hx as (r & -> & Hr).
      exact (list_elem_of_fmap_2 ev_sequence _ _ Hr).
    + rewrite frame_seqs. apply sorted_NoDup, Hs.
  - by apply frames_lookup; [apply sorted_NoDup|].
Qed.

(** What a run of appends adds to each part of the writer. *)
Lemma append_high_mono `{Externals} calls w j h :
  wr_high w !! j = Some h ->
  exists h', wr_high (run_appends calls w) !! j = Some h' /\ h <= h'.
Proof.
  revert w h. induction calls as [|c calls IH]; intros w h Hh; [exists h; split; [done|lia]|].
  unfold run_appends. cbn [fold_left].
  fold (run_appends calls (append (ac_job c) (ac_type c) (ac_now c) (ac_message c) (ac_data c) w)).
  set (w1 := append _ _ _ _ _ w).
  assert (exists h1, wr_high w1 !! j = Some h1 /\ h <= h1) as (h1 & H1 & H2).
  { cbn. destruct (decide (ac_job c = j)) as [->|].
    - rewrite lookup_insert_eq, Hh. cbn. eexists. split; [done|lia].
    - rewrite lookup_insert_ne by done. exists h. split; [done|lia]. }
  destruct (IH w1 h1 H1) as (h' & ? & ?). exists h'. split; [done|lia].
Qed.

Lemma run_appends_writer `{Externals} calls w :
  exists rows,
    wr_rows (run_appends calls w) = wr_rows w ++ rows /\
    map (fun r => (ev_job_id r, ev_event_type r)) rows = map (fun c => (ac_job c, ac_type c)) calls /\
    staged (run_appends calls w) = staged w ++ map (fun r => (ev_job_id r, frame_of_row r)) rows /\
    (forall r, r ∈ rows ->
       exists h, wr_high (run_appends calls w) !! ev_job_id r = Some h /\ ev_sequence r <= h).
Proof.
  revert w. induction calls as [|c calls IH]; intros w.
  - exists []. rewrite !app_nil_r. repeat split; try done. intros r Hr. by apply not_elem_of_nil in Hr.
  - unfold run_appends. cbn [fold_left].
    fold (run_appends calls (append (ac_job c) (ac_type c) (ac_now c) (ac_message c) (ac_data c) w)).
    set (w1 := append _ _ _ _ _ w). destruct (IH w1) as (rows & Hr & Hm & Hst & Hh).
    eexists (mkEvent _ _ _ _ _ _ _ :: rows). rewrite Hr, Hst. cbn. rewrite <- !app_assoc. cbn.
    split; [done|]. split; [by f_equal|]. split; [done|].
    intros r [->|Hin]%elem_of_cons; [|auto]. cbn.
    destruct (append_high_mono calls w1 (ac_job c)
      (Z.max (stored_max (wr_rows w) (ac_job c)) (default 0 (wr_high w !! ac_job c)) + 1))
      as (h & ? & ?); [by cbn; rewrite lookup_insert_eq|]. by exists h.
Qed.

(** A concrete environment, for the witnesses of this and later files. *)
#[export] Instance sample_externals : Externals := {|
  to_rfc3339 := pretty;
  new_id := pretty;
  sha256 := fun s => s;
  TOKEN_EVENT := "token"
|}.

#[export] Instance sample_laws : ExternalsLaws.
Proof. constructor. exact pretty_nat_inj. Qed.

(** A job that is queued, starts, and streams two tokens. *)
Definition sample_state : State :=
  let calls := [mkAppend "j" "job.queued" 0 None []; mkAppend "j" "job.executing" 5 None []]%string in
  let st := commit_write (run_appends calls (begin_write initial)) initial in
  let s1 := (publish_live "j" "token" [] (st_sink st)).1 in
  mkState (st_rows st) (publish_live "j" "token" [] s1).1 (st_ids st).

Lemma sample_reachable : rtc step initial sample_state.
Proof.
  eapply rtc_l; [apply (step_commit [mkAppend "j" "job.queued" 0 None [];
    mkAppend "j" "job.executing" 5 None []]%string)|].
  eapply rtc_l; [apply (step_live "j" "token" []); by eexists|].
  eapply rtc_l; [apply (step_live "j" "token" []); by eexists|].
  apply rtc_refl.
Qed.

(** ** Properties *)

Module Properties.



(** One write transaction is all or nothing, and publication follows it: a
    committed transaction appends exactly one row per call, in order, and hands the broker exactly
    the frames those rows will replay as; a transaction whose body raised leaves the table and the
    broker untouched, and the job's counter stays at or above every number it drew. *)
Theorem write_atomic `{Externals} (calls : list AppendCall) (st : State) :
  let w := run_appends calls (begin_write st) in
  exists rows,
    st_rows (commit_write w st) = st_rows st ++ rows /\
    map (fun r => (ev_job_id r, ev_event_type r)) rows = map (fun c => (ac_job c, ac_type c)) calls /\
    published (st_sink (commit_write w st))
      = published (st_sink st) ++ map (fun r => (ev_job_id r, frame_of_row r)) rows /\
    st_rows (rollback_write w st) = st_rows st /\
    published (st_sink (rollback_write w st)) = published (st_sink st) /\
    (forall r, r ∈ rows ->
       exists h, high (st_sink (rollback_write w st)) !! ev_job_id r = Some h /\ ev_sequence r <= h).
Proof.
  intros w. destruct (run_appends_writer calls (begin_write st)) as (rows & Hr & Hm & Hp & Hh).
  exists rows. cbn. rewrite publish_staged_published. unfold w. rewrite Hr, Hp. cbn. naive_solver.
Qed.

(** Reconnecting loses and repeats nothing: in any reachable state, a client
    that keeps asking for batches of any positive size from the last sequence it was given
    receives, in ascending order and exactly once, every stored event above its position and every
    buffered frame, and needs at most one request per frame. *)
Theorem drain_complete `{ExternalsLaws} (st : State) (j : string) (after : Z) (limit n : nat) :
  rtc step initial st -> (0 < limit)%nat ->
  let expected := List.filter (fun x => (after <? x.1)%Z) (stream_of st j) in
  (length expected <= n)%nat ->
  drain n (st_rows st) (st_sink st) j after limit = expected.*2 /\
  StronglySorted key_lt expected /\
  (forall r, r ∈ st_rows st -> ev_job_id r = j -> after < ev_sequence r ->
     (ev_sequence r, frame_of_row r) ∈ expected) /\
  (forall e, e ∈ default [] (live (st_sink st) !! j) -> after < fr_sequence e ->
     (fr_sequence e, e) ∈ expected).
Proof.
  intros Hr Hlim expected Hn. pose proof (inv_reachable st Hr) as Hi.
  split; [by apply drain_stream|]. split; [apply key_sorted_filter, ascending_sorted|].
  split; intros x Hx; intros; apply list_elem_of_In, List.filter_In; cbn;
    (split; [|by apply Z.ltb_lt]); apply list_elem_of_In.
  - subst j. by apply stored_in_stream.
  - by apply buffered_in_stream.
Qed.

Lemma drain_complete_witness :
  map fr_sequence (drain 4 (st_rows sample_state) (st_sink sample_state) "j" 1 2) = [2; 3; 4].
Proof.
  destruct (drain_complete sample_state "j" 1 2 4 sample_reachable) as [-> _].
  - lia.
  - vm_compute. lia.
  - vm_compute. reflexivity.
Defined.

End Properties.
