(* ===== verification/Submission.v ===== *)
(** * Job submissions and their persisted form

    [JobSubmission] of [services/queue.py] with its [request_json] codec, and the message and tool
    codecs of [services/execution.py] it uses.  Messages, tool definitions, tool calls and runtime
    profiles are classes of [modelrack] and [baseaicore]: the model reaches them through [Wire],
    the constructors and attributes the source uses. *)

From S2P Require Import Prelude PyFloat Json Priority.
#[local] Open Scope Z_scope.

Class Wire := {
  Role : Type;
  role_value : Role -> string;
  Role_of : string -> result Role;                         (* Role(value) *)
  SYSTEM : Role;
  USER : Role;
  ToolCall : Type;
  call_id : ToolCall -> string;
  call_name : ToolCall -> string;
  call_arguments : ToolCall -> list (string * json);
  call_raw_arguments : ToolCall -> option string;
  make_call : string -> string -> list (string * json) -> option string -> result ToolCall;
  Message : Type;
  msg_role : Message -> Role;
  msg_content : Message -> string;
  msg_tool_call_id : Message -> option string;
  msg_tool_calls : Message -> list ToolCall;
  make_message : Role -> string -> option string -> list ToolCall -> result Message;
  ToolDefinition : Type;
  tool_name : ToolDefinition -> string;
  tool_description : ToolDefinition -> string;
  tool_parameters : ToolDefinition -> list (string * json);
  make_tool : string -> string -> list (string * json) -> result ToolDefinition;
  RuntimeProfile : Type;
  context_size : RuntimeProfile -> json;
  kv_cache_precision : RuntimeProfile -> json;
  flash_attention : RuntimeProfile -> json;
  keep_alive : RuntimeProfile -> json;
  make_profile : json -> json -> json -> json -> result RuntimeProfile;
  (* [str(x)] and [dict(x)] on values no row this program writes holds *)
  str_other : json -> string;
  dict_other : json -> result (list (string * json))
}.

(** An immutable value is rebuilt from its own attributes. *)
Class WireLaws `{Wire} : Prop := {
  role_round r : Role_of (role_value r) = Ok r;
  call_round c : make_call (call_id c) (call_name c) (call_arguments c) (call_raw_arguments c) = Ok c;
  message_round m : make_message (msg_role m) (msg_content m) (msg_tool_call_id m) (msg_tool_calls m) = Ok m;
  tool_round t : make_tool (tool_name t) (tool_description t) (tool_parameters t) = Ok t
}.

Definition jopt_str (x : option string) : json := match x with Some s => JStr s | None => JNull end.
Definition jopt_int (x : option Z) : json := match x with Some z => JInt z | None => JNull end.

(** [cast("str | None", x)] on a column that holds a string or null. *)
Definition cast_opt_str (x : json) : option string := as_str x.

(** [x[k]]. *)
Definition py_item (x : json) (k : string) : result json :=
  match x with
  | JObj l => match assoc k l with Some v => Ok v | None => Raise KeyError end
  | _ => Raise TypeError
  end.

(** [x.get(k, d)]. *)
Definition py_get_default (x : json) (k : string) (d : json) : result json :=
  match x with JObj l => Ok (default d (assoc k l)) | _ => Raise AttributeError end.

(** [[f(x) for x in l]] with a body that can raise. *)
Fixpoint map_result {A B} (f : A -> result B) (l : list A) : result (list B) :=
  match l with
  | [] => Ok []
  | x :: l' => y ← f x; ys ← map_result f l'; Ok (y :: ys)
  end.

Section codec.
Context `{Wire}.

Definition py_str (x : json) : string := match x with JStr s => s | _ => str_other x end.

Definition py_dict (x : json) : result (list (string * json)) :=
  match x with JObj l => Ok l | _ => dict_other x end.

(** ** Transcripts *)

Definition call_json (call : ToolCall) : json :=
  JObj [("id", JStr (call_id call)); ("name", JStr (call_name call));
        ("arguments", match call_raw_arguments call with
                      | Some raw => JStr raw
                      | None => JObj (call_arguments call)
                      end)]%string.

Definition message_json (message : Message) : json :=
  JObj ([("role", JStr (role_value (msg_role message)));
         ("content", JStr (msg_content message));
         ("tool_call_id", jopt_str (msg_tool_call_id message))]%string ++
        match msg_tool_calls message with
        | [] => []
        | calls => [("tool_calls"%string, JArr (map call_json calls))]
        end).

Definition call_of_json (entry : json) : result ToolCall :=
  arguments ← py_get_default entry "arguments" (JObj []);
  id ← py_item entry "id";
  name ← py_item entry "name";
  match arguments with
  | JStr raw => make_call (py_str id) (py_str name) [] (Some raw)
  | _ => args ← py_dict arguments; make_call (py_str id) (py_str name) args None
  end.

Definition tool_calls_of_json (payload : json) : result (list ToolCall) :=
  match payload with
  | JArr entries => map_result call_of_json (List.filter is_mapping entries)
  | _ => Ok []
  end.

Definition message_of_json (turn : json) : result Message :=
  role ← py_item turn "role";
  role' ← Role_of (py_str role);
  content ← py_item turn "content";
  call_id ← py_get turn "tool_call_id";
  calls ← py_get turn "tool_calls";
  calls' ← tool_calls_of_json calls;
  make_message role' (py_str content) (cast_opt_str call_id) calls'.

Definition messages_of_json (payload : json) : result (list Message) :=
  match payload with
  | JArr turns => map_result message_of_json turns
  | _ => Ok []
  end.

(** ** Tools *)

Definition tool_definitions_json (tools : list ToolDefinition) : json :=
  JArr (map (fun tool =>
    JObj [("name", JStr (tool_name tool)); ("description", JStr (tool_description tool));
          ("parameters", JObj (tool_parameters tool))]%string) tools).

(** [isinstance(entry, Mapping) and entry.get("name")]. *)
Definition names_a_tool (entry : json) : bool :=
  match entry with JObj l => truthy (default JNull (assoc "name"%string l)) | _ => false end.

Definition tool_of_json (entry : json) : result ToolDefinition :=
  name ← py_item entry "name";
  description ← py_get_default entry "description" (JStr "");
  parameters ← py_get_default entry "parameters" (JObj []);
  params ← py_dict parameters;
  make_tool (py_str name) (py_str description) params.

Definition tool_definitions_of_json (payload : json) : result (list ToolDefinition) :=
  match payload with
  | JArr entries => map_result tool_of_json (List.filter names_a_tool entries)
  | _ => Ok []
  end.

(** ** Submissions *)

Record RuntimeOverrides := mkOverrides {
  model : option string;
  adapter : option string;
  runtime_profile : option RuntimeProfile;
  disallow_fallback : bool;
  require_evidence : bool;
  ignore_residency : bool
}.

Record JobSubmission := mkSubmission {
  task : string;
  prompt : option string;
  system : option string;
  messages : option (list Message);
  response_format : option string;
  sampling : list (string * json);
  overrides : option RuntimeOverrides;
  tools : list ToolDefinition;
  sub_job_class : JobClass;
  priority : option Z;
  sub_max_wait_seconds : option Z;
  sub_idempotent : bool;
  sub_idempotency_key : option string;
  data_classification : option string;
  sub_source : string;
  stream : bool
}.

Definition transcript (s : JobSubmission) : result (list Message) :=
  match messages s with
  | Some turns => Ok turns
  | None =>
      turns ← match system s with
              | Some text => m ← make_message SYSTEM text None []; Ok [m]
              | None => Ok []
              end;
      user ← make_message USER (or_str (prompt s) "") None [];
      Ok (turns ++ [user])
  end.

Definition profile_json (profile : option RuntimeProfile) : json :=
  match profile with
  | None => JNull
  | Some p => JObj [("context_size", context_size p); ("kv_cache_precision", kv_cache_precision p);
                    ("flash_attention", flash_attention p); ("keep_alive", keep_alive p)]%string
  end.

Definition overrides_json (o : option RuntimeOverrides) : json :=
  match o with
  | None => JNull
  | Some o =>
      JObj [("model", jopt_str (model o)); ("adapter", jopt_str (adapter o));
            ("ignore_residency", JBool (ignore_residency o));
            ("runtime_profile", profile_json (runtime_profile o));
            ("disallow_fallback", JBool (disallow_fallback o));
            ("require_evidence", JBool (require_evidence o))]%string
  end.

Definition as_request_json (s : JobSubmission) : result json :=
  turns ← transcript s;
  Ok (JObj [("task", JStr (task s)); ("messages", JArr (map message_json turns));
            ("response_format", jopt_str (response_format s)); ("sampling", JObj (sampling s));
            ("overrides", overrides_json (overrides s)); ("tools", tool_definitions_json (tools s));
            ("data_classification", jopt_str (data_classification s));
            ("stream", JBool (stream s))]%string).

Definition profile_of_json (raw : json) : result (option RuntimeProfile) :=
  match raw with
  | JNull => Ok None
  | _ =>
      c ← py_get raw "context_size";
      kv ← py_get raw "kv_cache_precision";
      fa ← py_get raw "flash_attention";
      ka ← py_get raw "keep_alive";
      p ← make_profile c kv fa ka;
      Ok (Some p)
  end.

Definition overrides_of_json (raw : json) : result (option RuntimeOverrides) :=
  match raw with
  | JNull => Ok None
  | _ =>
      raw_profile ← py_get raw "runtime_profile";
      profile ← profile_of_json raw_profile;
      mdl ← py_get raw "model";
      adp ← py_get raw "adapter";
      df ← py_get_default raw "disallow_fallback" (JBool false);
      re ← py_get_default raw "require_evidence" (JBool false);
      ir ← py_get_default raw "ignore_residency" (JBool false);
      Ok (Some (mkOverrides (cast_opt_str mdl) (cast_opt_str adp) profile (truthy df) (truthy re)
                  (truthy ir)))
  end.

Definition from_request_json (payload : json) (job_class : JobClass) (prio : Z)
    (max_wait_seconds : option Z) (idempotent : bool) (idempotency_key : option string)
    (source : string) : result JobSubmission :=
  raw_overrides ← py_get payload "overrides";
  ov ← overrides_of_json raw_overrides;
  raw_messages ← py_get payload "messages";
  msgs ← messages_of_json raw_messages;
  tsk ← py_item payload "task";
  raw_tools ← py_get payload "tools";
  tls ← tool_definitions_of_json raw_tools;
  fmt ← py_get payload "response_format";
  raw_sampling ← py_get_default payload "sampling" (JObj []);
  smp ← py_dict raw_sampling;
  dc ← py_get payload "data_classification";
  st ← py_get_default payload "stream" (JBool false);
  Ok (mkSubmission (py_str tsk) None None (Some msgs) (cast_opt_str fmt) smp ov tls job_class
        (Some prio) max_wait_seconds idempotent idempotency_key (cast_opt_str dc) source (truthy st)).
End codec.

(** ** Lemmas *)

Lemma map_result_round {A} (f : A -> json) (g : json -> result A) (l : list A) :
  (forall x, x ∈ l -> g (f x) = Ok x) -> map_result g (map f l) = Ok l.
Proof.
  induction l as [|x l IH]; intros Hg; [done|]. cbn. rewrite Hg by left. cbn.
  rewrite IH; [done|]. intros y Hy. apply Hg. by right.
Qed.

Lemma filter_map_all {A} (p : json -> bool) (f : A -> json) (l : list A) :
  (forall x, x ∈ l -> p (f x) = true) -> List.filter p (map f l) = map f l.
Proof.
  induction l as [|x l IH]; intros Hp; [done|]. cbn. rewrite Hp by left. f_equal.
  apply IH. intros y Hy. apply Hp. by right.
Qed.

Lemma cast_jopt_str x : cast_opt_str (jopt_str x) = x.
Proof. by destruct x. Qed.

Section round_trip.
Context `{WireLaws}.

(** A call carries either parsed arguments or the raw text of ones that did not parse. *)
Definition call_ok (c : ToolCall) : Prop := call_raw_arguments c = None \/ call_arguments c = [].

Lemma call_of_call_json c : call_ok c -> call_of_json (call_json c) = Ok c.
Proof.
  intros Hc. unfold call_of_json, call_json. cbn.
  pose proof (call_round c) as Hr. destruct (call_raw_arguments c) as [raw|] eqn:Er; cbn.
  - destruct Hc as [?|Ha]; [congruence|]. by rewrite Ha in Hr.
  - exact Hr.
Qed.

Definition message_ok (m : Message) : Prop := Forall call_ok (msg_tool_calls m).

Lemma message_calls_round m :
  message_ok m ->
  (calls ← py_get (message_json m) "tool_calls"; tool_calls_of_json calls) = Ok (msg_tool_calls m).
Proof.
  unfold message_ok, message_json. destruct (msg_tool_calls m) as [|c l]; intros Hm; [done|].
  cbn [py_get assoc app bool_decide]. cbn. fold (is_mapping).
  change (map_result call_of_json (List.filter is_mapping (map call_json (c :: l))) = Ok (c :: l)).
  rewrite filter_map_all by done. apply map_result_round.
  rewrite Forall_forall in Hm. intros x Hx. by apply call_of_call_json, Hm.
Qed.

Lemma message_of_message_json m : message_ok m -> message_of_json (message_json m) = Ok m.
Proof.
  intros Hm. pose proof (message_calls_round m Hm) as Hc. unfold message_of_json.
  assert (Hr : py_item (message_json m) "role" = Ok (JStr (role_value (msg_role m)))) by done.
  assert (Hct : py_item (message_json m) "content" = Ok (JStr (msg_content m))) by done.
  assert (Hid : py_get (message_json m) "tool_call_id" = Ok (jopt_str (msg_tool_call_id m))) by done.
  rewrite Hr, bind_Ok. cbn [py_str]. rewrite role_round, bind_Ok, Hct, bind_Ok, Hid, bind_Ok.
  apply bind_Ok_inv in Hc as (calls & Hcalls & Hc). rewrite Hcalls, bind_Ok, Hc, bind_Ok.
  cbn [py_str]. rewrite cast_jopt_str. apply message_round.
Qed.

Lemma messages_round turns :
  Forall message_ok turns -> messages_of_json (JArr (map message_json turns)) = Ok turns.
Proof.
  intros Hm. apply map_result_round. rewrite Forall_forall in Hm.
  intros x Hx. by apply message_of_message_json, Hm.
Qed.

Lemma tools_round tls :
  Forall (fun t => tool_name t <> ""%string) tls ->
  tool_definitions_of_json (tool_definitions_json tls) = Ok tls.
Proof.
  intros Ht. rewrite Forall_forall in Ht. unfold tool_definitions_json, tool_definitions_of_json.
  rewrite filter_map_all.
  - apply map_result_round. intros t _. apply tool_round.
  - intros t Hin. change (negb (bool_decide (tool_name t = ""%string)) = true).
    rewrite bool_decide_false; [done|]. by apply Ht.
Qed.

(** A runtime profile made of the four settings an override can carry. *)
Definition profile_ok (p : RuntimeProfile) : Prop :=
  make_profile (context_size p) (kv_cache_precision p) (flash_attention p) (keep_alive p) = Ok p.

Lemma overrides_round o :
  (forall ov p, o = Some ov -> runtime_profile ov = Some p -> profile_ok p) ->
  overrides_of_json (overrides_json o) = Ok o.
Proof.
  intros Hp. destruct o as [[mdl adp prof df re ir]|]; [|done].
  assert (Hprof : profile_of_json (profile_json prof) = Ok prof).
  { destruct prof as [p|]; [|done]. 
    transitivity (q ← make_profile (context_size p) (kv_cache_precision p) (flash_attention p)
                        (keep_alive p); Ok (Some q)); [reflexivity|].
    pose proof (Hp _ p eq_refl eq_refl) as Hq. unfold profile_ok in Hq. by rewrite Hq. }
  unfold overrides_of_json, overrides_json. cbn [runtime_profile model adapter].
  set (raw := JObj _).
  assert (H1 : py_get raw "runtime_profile" = Ok (profile_json prof)) by done.
  rewrite H1, bind_Ok, Hprof, bind_Ok.
  transitivity (Ok (Some (mkOverrides (cast_opt_str (jopt_str mdl)) (cast_opt_str (jopt_str adp))
                            prof df re ir))); [reflexivity|]. by rewrite !cast_jopt_str.
Qed.

(** What a submission must look like for its persisted form to be complete. *)
Definition submission_ok (s : JobSubmission) (turns : list Message) : Prop :=
  transcript s = Ok turns /\ Forall message_ok turns /\
  Forall (fun t => tool_name t <> ""%string) (tools s) /\
  (forall ov p, overrides s = Some ov -> runtime_profile ov = Some p -> profile_ok p).
End round_trip.

(** The submission a worker rebuilds: the same one, with its transcript resolved and the priority
    the row was given. *)
Definition resolved `{Wire} (s : JobSubmission) (turns : list Message) (prio : Z)
    (wait : option Z) : JobSubmission :=
  mkSubmission (task s) None None (Some turns) (response_format s) (sampling s) (overrides s)
    (tools s) (sub_job_class s) (Some prio) wait (sub_idempotent s) (sub_idempotency_key s)
    (data_classification s) (sub_source s) (stream s).

#[local] Open Scope string_scope.

(** A concrete wire: the attributes are the value. *)
Definition sample_wire : Wire := {|
  Role := string; role_value := fun r => r; Role_of := fun v => Ok v;
  SYSTEM := "system"; USER := "user";
  ToolCall := string * string * list (string * json) * option string;
  call_id := fun c => c.1.1.1; call_name := fun c => c.1.1.2; call_arguments := fun c => c.1.2;
  call_raw_arguments := fun c => c.2; make_call := fun i n a r => Ok (i, n, a, r);
  Message := string * string * option string * list (string * string * list (string * json) * option string);
  msg_role := fun m => m.1.1.1; msg_content := fun m => m.1.1.2; msg_tool_call_id := fun m => m.1.2;
  msg_tool_calls := fun m => m.2; make_message := fun r c i l => Ok (r, c, i, l);
  ToolDefinition := string * string * list (string * json);
  tool_name := fun t => t.1.1; tool_description := fun t => t.1.2; tool_parameters := fun t => t.2;
  make_tool := fun n d p => Ok (n, d, p);
  RuntimeProfile := json * json * json * json;
  context_size := fun p => p.1.1.1; kv_cache_precision := fun p => p.1.1.2;
  flash_attention := fun p => p.1.2; keep_alive := fun p => p.2;
  make_profile := fun c k f a => Ok (c, k, f, a);
  str_other := fun _ => ""; dict_other := fun _ => Raise TypeError
|}.

#[export] Instance sample_wire_laws : @WireLaws sample_wire.
Proof.
  constructor; [done|intros [[[? ?] ?] ?]; done|intros [[[? ?] ?] ?]; done|intros [[? ?] ?]; done].
Qed.

Definition sample_submission : @JobSubmission sample_wire :=
  @mkSubmission sample_wire "chat" (Some "hello") (Some "be brief") None None
    [("temperature", JInt 0)]
    (Some (@mkOverrides sample_wire (Some "m:7b") (Some "ad") (Some (JInt 4096, JNull, JBool true, JNull))
             true false true))
    [("f", "does f", [("type", JStr "object")])] NORMAL None None true (Some "key") None "cli" false.

(** The persisted form read back with a row's columns. *)
Lemma request_json_reads_back `{WireLaws} s turns :
  submission_ok s turns ->
  exists payload, as_request_json s = Ok payload /\ or_empty payload = payload /\
  forall job_class prio wait idempotent key source,
    from_request_json payload job_class prio wait idempotent key source
    = Ok (mkSubmission (task s) None None (Some turns) (response_format s) (sampling s) (overrides s)
            (tools s) job_class (Some prio) wait idempotent key (data_classification s) source
            (stream s)).
Proof.
  intros (Ht & Hm & Htl & Hp). unfold as_request_json. rewrite Ht, bind_Ok.
  eexists. split; [reflexivity|]. split; [reflexivity|]. intros. unfold from_request_json.
  set (payload := JObj _).
  assert (H1 : py_get payload "overrides" = Ok (overrides_json (overrides s))) by done.
  assert (H2 : py_get payload "messages" = Ok (JArr (map message_json turns))) by done.
  assert (H3 : py_get payload "tools" = Ok (tool_definitions_json (tools s))) by done.
  assert (H4 : py_get payload "response_format" = Ok (jopt_str (response_format s))) by done.
  assert (H5 : py_get_default payload "sampling" (JObj []) = Ok (JObj (sampling s))) by done.
  assert (H6 : py_get payload "data_classification" = Ok (jopt_str (data_classification s))) by done.
  assert (H7 : py_get_default payload "stream" (JBool false) = Ok (JBool (stream s))) by done.
  rewrite H1, bind_Ok, overrides_round, bind_Ok, H2, bind_Ok, messages_round, bind_Ok by done.
  change (py_item payload "task") with (Ok (JStr (task s))). rewrite bind_Ok, H3, bind_Ok.
  rewrite tools_round, bind_Ok by done.
  rewrite H4, bind_Ok, H5, bind_Ok. cbn [py_dict]. rewrite bind_Ok, H6, bind_Ok, H7, bind_Ok.
  by rewrite !cast_jopt_str.
Qed.

Module Properties.



End Properties.
