(* ===== verification/QueueStore.v ===== *)
(** * The job store ([infrastructure/db/models.py], [services/queue.py])

    The [jobs] table as a map, SQL assignments, the write transaction of [JobEventSink.write] over
    the table and the event writer, the compare-and-set [transition] and [move].  Enum columns hold
    the enum ([state_value] is injective and [state_of_value] inverts it).  Instants are
    microseconds. *)

From S2P Require Import Prelude PyFloat Json QueueState Priority JobEvents.
#[local] Open Scope Z_scope.

(** ** The row *)

(** [Job].  [j_other] holds the columns the queue neither reads nor writes (hashes, timings, token
    counts, outputs), by column name. *)
Record Job := mkJob {
  j_task_profile_id : string;
  j_task_profile_version : string;
  j_job_class : JobClass;
  j_base_priority : Z;
  j_effective_priority : Z;
  j_source : string;
  j_state : JobState;
  j_state_reason : option string;
  j_idempotency_key : option string;
  j_idempotent : bool;
  j_idempotency_expires_at : option Z;
  j_request_json : json;
  j_selected_model_id : option string;
  j_target_gpu_index : option Z;
  j_attempt : Z;
  j_max_attempts : Z;
  j_lease_owner : option string;
  j_lease_expires_at : option Z;
  j_cancel_requested : bool;
  j_created_at : Z;
  j_scheduled_for : option Z;
  j_queued_at : option Z;
  j_started_at : option Z;
  j_completed_at : option Z;
  j_max_wait_seconds : option Z;
  j_error_code : option string;
  j_error_text : option string;
  j_other : gmap string json
}.

(** One [column = value] of an [UPDATE]. *)
Inductive Assign :=
| SetState (v : JobState)
| SetStateReason (v : option string)
| SetEffectivePriority (v : Z)
| SetIdempotencyKey (v : option string)
| SetIdempotencyExpiresAt (v : option Z)
| SetSelectedModelId (v : option string)
| SetTargetGpuIndex (v : option Z)
| SetAttempt (v : Z)
| SetLeaseOwner (v : option string)
| SetLeaseExpiresAt (v : option Z)
| SetCancelRequested (v : bool)
| SetScheduledFor (v : option Z)
| SetStartedAt (v : option Z)
| SetCompletedAt (v : option Z)
| SetErrorCode (v : option string)
| SetErrorText (v : option string)
| SetOther (column : string) (v : json).

Definition assign (a : Assign) (j : Job) : Job := {|
  j_task_profile_id := j_task_profile_id j;
  j_task_profile_version := j_task_profile_version j;
  j_job_class := j_job_class j;
  j_base_priority := j_base_priority j;
  j_effective_priority := match a with SetEffectivePriority v => v | _ => j_effective_priority j end;
  j_source := j_source j;
  j_state := match a with SetState v => v | _ => j_state j end;
  j_state_reason := match a with SetStateReason v => v | _ => j_state_reason j end;
  j_idempotency_key := match a with SetIdempotencyKey v => v | _ => j_idempotency_key j end;
  j_idempotent := j_idempotent j;
  j_idempotency_expires_at :=
    match a with SetIdempotencyExpiresAt v => v | _ => j_idempotency_expires_at j end;
  j_request_json := j_request_json j;
  j_selected_model_id := match a with SetSelectedModelId v => v | _ => j_selected_model_id j end;
  j_target_gpu_index := match a with SetTargetGpuIndex v => v | _ => j_target_gpu_index j end;
  j_attempt := match a with SetAttempt v => v | _ => j_attempt j end;
  j_max_attempts := j_max_attempts j;
  j_lease_owner := match a with SetLeaseOwner v => v | _ => j_lease_owner j end;
  j_lease_expires_at := match a with SetLeaseExpiresAt v => v | _ => j_lease_expires_at j end;
  j_cancel_requested := match a with SetCancelRequested v => v | _ => j_cancel_requested j end;
  j_created_at := j_created_at j;
  j_scheduled_for := match a with SetScheduledFor v => v | _ => j_scheduled_for j end;
  j_queued_at := j_queued_at j;
  j_started_at := match a with SetStartedAt v => v | _ => j_started_at j end;
  j_completed_at := match a with SetCompletedAt v => v | _ => j_completed_at j end;
  j_max_wait_seconds := j_max_wait_seconds j;
  j_error_code := match a with SetErrorCode v => v | _ => j_error_code j end;
  j_error_text := match a with SetErrorText v => v | _ => j_error_text j end;
  j_other := match a with SetOther c v => <[c := v]> (j_other j) | _ => j_other j end
|}.

(** An [UPDATE] with several assignments: a later assignment to a column replaces an earlier one. *)
Definition assign_all (l : list Assign) (j : Job) : Job := fold_left (fun j a => assign a j) l j.

(** ** The database and the process *)

(** A stored task profile, as far as enqueueing reads it. *)
Record StoredTaskProfile := mkProfile {
  profile_id : string;
  profile_version : string;
  profile_enabled : bool
}.

(** The tables, the event sink, and the workers' wake-up flag.  [profiles] is in the order
    [list_stored_task_profiles] returns them; [model_rows] are [(id, canonical_id)]. *)
Record World := mkWorld {
  jobs : gmap string Job;
  ev : JobEvents.State;
  settings : gmap string (json * Z);
  model_rows : list (string * string);
  profiles : list StoredTaskProfile;
  woken : bool
}.

Definition with_jobs (js : gmap string Job) (w : World) : World :=
  mkWorld js (ev w) (settings w) (model_rows w) (profiles w) (woken w).

Definition with_ev (e : JobEvents.State) (w : World) : World :=
  mkWorld (jobs w) e (settings w) (model_rows w) (profiles w) (woken w).

(** State passing with exceptions: the state survives a raise (Python mutations do). *)
Definition prog (S A : Type) : Type := S -> S * result A.

#[export] Instance prog_ret S : MRet (prog S) := fun _ a s => (s, Ok a).
#[export] Instance prog_bind S : MBind (prog S) :=
  fun _ _ f m s => let '(s', r) := m s in
    match r with Ok a => f a s' | Raise e => (s', Raise e) end.

Definition raise {S A} (e : exn) : prog S A := fun s => (s, Raise e).
Definition lift {S A} (r : result A) : prog S A := fun s => (s, r).
Definition get {S} : prog S S := fun s => (s, Ok s).

(** [for x in l: f(x)]. *)
Fixpoint for_each {S A} (f : A -> prog S unit) (l : list A) : prog S unit :=
  match l with
  | [] => mret tt
  | x :: l' => _ ← f x; for_each f l'
  end.

(** What a write transaction sees. *)
Record Tx := mkTx { t_jobs : gmap string Job; t_writer : Writer }.

Definition put_jobs (js : gmap string Job) : prog Tx unit := fun t => (mkTx js (t_writer t), Ok tt).

Definition append_event `{Externals} (job_id event_type : string) (now : Z)
    (message : option string) (data : list (string * json)) : prog Tx unit :=
  fun t => (mkTx (t_jobs t) (append job_id event_type now message data (t_writer t)), Ok tt).

(** [with sink.write(database) as (session, events): body]: commit and publish when the body
    returns, roll the tables back when it raises. *)
Definition sink_write {A} (body : prog Tx A) : prog World A :=
  fun w =>
    let '(t, r) := body (mkTx (jobs w) (begin_write (ev w))) in
    match r with
    | Ok a => (with_ev (commit_write (t_writer t) (ev w)) (with_jobs (t_jobs t) w), Ok a)
    | Raise e => (with_ev (rollback_write (t_writer t) (ev w)) w, Raise e)
    end.

(** ** Transitions *)

Definition transition_assignments (target : JobState) (now : Z) (reason : option string)
    (values : list Assign) : list Assign :=
  [SetState target; SetStateReason reason] ++
  (if is_waiting target || is_terminal target
   then [SetLeaseOwner None; SetLeaseExpiresAt None] else []) ++
  (if bool_decide (target = QUEUED) then [SetScheduledFor (Some now)] else []) ++
  (if is_terminal target then [SetCompletedAt (Some now)] else []) ++
  values.

(** [Job.state == current] and, with a fence, [Job.lease_owner == owner]. *)
Definition cas_matches (current : JobState) (owner : option string) (j : Job) : bool :=
  bool_decide (j_state j = current) &&
  match owner with Some o => bool_decide (j_lease_owner j = Some o) | None => true end.

Definition transition (job_id : string) (current target : JobState) (now : Z)
    (owner reason : option string) (values : list Assign) : prog Tx unit :=
  _ ← lift (check_transition current target);
  t ← get;
  match t_jobs t !! job_id with
  | Some j =>
      if cas_matches current owner j
      then put_jobs (<[job_id := assign_all (transition_assignments target now reason values) j]> (t_jobs t))
      else raise (TransitionRefused job_id (state_value current) (state_value target))
  | None => raise (TransitionRefused job_id (state_value current) (state_value target))
  end.

(** [payload.setdefault(k, v)]. *)
Definition setdefault (k : string) (v : json) (l : list (string * json)) : list (string * json) :=
  match assoc k l with Some _ => l | None => l ++ [(k, v)] end.

Definition move_message (current target : JobState) (message : option string) : string :=
  or_str message (state_value current +:+ " -> " +:+ state_value target).

Definition move `{Externals} (job_id : string) (current target : JobState) (now : Z)
    (owner reason message : option string) (data : list (string * json)) (values : list Assign)
  : prog World unit :=
  sink_write (
    _ ← transition job_id current target now owner reason values;
    append_event job_id (event_type_for target) now (Some (move_message current target message))
      (match reason with Some r => setdefault "reason" (JStr r) data | None => data end)).

(** ** Lemmas: the program monad *)

Lemma prog_bind_run {S A B} (m : prog S A) (f : A -> prog S B) s :
  (m ≫= f) s = let '(s', r) := m s in match r with Ok a => f a s' | Raise e => (s', Raise e) end.
Proof. reflexivity. Qed.

Lemma bind_get {S B} (f : S -> prog S B) s : (get ≫= f) s = f s s.
Proof. reflexivity. Qed.

Lemma bind_lift {S A B} (r : result A) (f : A -> prog S B) s :
  (lift r ≫= f) s = match r with Ok a => f a s | Raise e => (s, Raise e) end.
Proof. reflexivity. Qed.

Lemma bind_ret {S A B} (a : A) (f : A -> prog S B) s : (mret a ≫= f) s = f a s.
Proof. reflexivity. Qed.

Lemma bind_put {B} js (f : unit -> prog Tx B) t : (put_jobs js ≫= f) t = f tt (mkTx js (t_writer t)).
Proof. reflexivity. Qed.

(** ** Lemmas: assignments *)

(** An assignment that leaves the state, lease, completion and attempt columns alone: all a caller
    of [transition] ever passes in [values]. *)
Definition plain (a : Assign) : Prop :=
  match a with
  | SetState _ | SetLeaseOwner _ | SetLeaseExpiresAt _ | SetCompletedAt _ | SetAttempt _
  | SetEffectivePriority _ | SetIdempotencyKey _ | SetScheduledFor _ => False
  | _ => True
  end.

(** The columns no statement of the queue assigns. *)
Definition immutable (j : Job) :=
  (j_task_profile_id j, j_task_profile_version j, j_job_class j, j_base_priority j, j_source j,
   j_idempotent j, j_request_json j, j_max_attempts j, j_created_at j, j_queued_at j,
   j_max_wait_seconds j).

Lemma immutable_assign a j : immutable (assign a j) = immutable j.
Proof. by destruct a. Qed.

Lemma immutable_assign_all l j : immutable (assign_all l j) = immutable j.
Proof. revert j. induction l as [|a l IH]; intros j; [done|]. cbn. by rewrite IH, immutable_assign. Qed.

Lemma assign_all_app l l' j : assign_all (l ++ l') j = assign_all l' (assign_all l j).
Proof. apply fold_left_app. Qed.

(** The columns a plain assignment keeps. *)
Definition kept (j : Job) :=
  (j_state j, j_lease_owner j, j_lease_expires_at j, j_completed_at j, j_attempt j,
   j_effective_priority j, j_idempotency_key j, j_scheduled_for j).

Lemma kept_plain l j : Forall plain l -> kept (assign_all l j) = kept j.
Proof.
  revert j. induction l as [|a l IH]; intros j Hl; [done|].
  apply Forall_cons in Hl as [Ha Hl]. cbn. rewrite IH by done. by destruct a.
Qed.

(** ** The row invariant *)

(** A waiting or terminal job holds no lease, a terminal one is stamped, and a lease has an owner
    exactly when it has an expiry.  The first part is what makes the reaper's predicate, which
    looks at [lease_expires_at] alone, honest. *)
Definition job_ok (j : Job) : Prop :=
  (is_waiting (j_state j) || is_terminal (j_state j) = true ->
     j_lease_owner j = None /\ j_lease_expires_at j = None) /\
  (is_terminal (j_state j) = true -> is_Some (j_completed_at j)) /\
  (is_Some (j_lease_expires_at j) <-> is_Some (j_lease_owner j)).

Definition unique_keys (m : gmap string Job) : Prop :=
  forall i i' j j' k, m !! i = Some j -> m !! i' = Some j' -> j_source j = j_source j' ->
    j_idempotency_key j = Some k -> j_idempotency_key j' = Some k -> i = i'.

Definition store_ok (m : gmap string Job) : Prop := map_Forall (fun _ => job_ok) m /\ unique_keys m.

(** How a row may change: immutable columns and [attempt] stay, the state follows the transition
    table. *)
Definition job_le (j j' : Job) : Prop :=
  immutable j' = immutable j /\ j_attempt j' = j_attempt j /\
  rtc QueueState.step (j_state j) (j_state j').

(** No row disappears. *)
Definition jobs_le (m m' : gmap string Job) : Prop :=
  forall id j, m !! id = Some j -> exists j', m' !! id = Some j' /\ job_le j j'.

#[export] Instance job_le_preorder : PreOrder job_le.
Proof.
  split.
  - intros j. repeat split. apply rtc_refl.
  - intros j1 j2 j3 (H1 & H2 & H3) (H4 & H5 & H6). split; [congruence|]. split; [congruence|].
    by etrans.
Qed.

#[export] Instance jobs_le_preorder : PreOrder jobs_le.
Proof.
  split.
  - intros m id j Hj. exists j. by split.
  - intros m1 m2 m3 H1 H2 id j Hj. destruct (H1 id j Hj) as (j2 & Hj2 & Hle).
    destruct (H2 id j2 Hj2) as (j3 & Hj3 & Hle'). exists j3. split; [done|]. by etrans.
Qed.

Lemma transition_result target now reason values j :
  Forall plain values ->
  let j' := assign_all (transition_assignments target now reason values) j in
  j_state j' = target /\ immutable j' = immutable j /\ j_attempt j' = j_attempt j /\
  j_effective_priority j' = j_effective_priority j /\
  j_idempotency_key j' = j_idempotency_key j /\
  j_scheduled_for j' = (if bool_decide (target = QUEUED) then Some now else j_scheduled_for j) /\
  (j_lease_owner j', j_lease_expires_at j')
    = (if is_waiting target || is_terminal target then (None, None)
       else (j_lease_owner j, j_lease_expires_at j)) /\
  j_completed_at j' = (if is_terminal target then Some now else j_completed_at j).
Proof.
  intros Hv j'. unfold j', transition_assignments. rewrite immutable_assign_all.
  rewrite !app_assoc, assign_all_app.
  set (j1 := assign_all _ j). pose proof (kept_plain values j1 Hv) as Hk.
  unfold kept in Hk. injection Hk as -> -> -> -> -> -> -> ->. unfold j1. by destruct target.
Qed.

Lemma transition_job_ok target now reason values j :
  Forall plain values -> job_ok j ->
  job_ok (assign_all (transition_assignments target now reason values) j).
Proof.
  intros Hv (H1 & H2 & H3). generalize (transition_result target now reason values j Hv). cbv zeta.
  generalize (assign_all (transition_assignments target now reason values) j).
  intros j' (Hs & _ & _ & _ & _ & _ & Hl & Hc).
  unfold job_ok. rewrite Hs, Hc.
  destruct (is_waiting target || is_terminal target) eqn:E; injection Hl as Ho He; rewrite Ho, He.
  - split; [done|]. split; [intros ->; by eexists|]. split; intros [? ?]; congruence.
  - apply orb_false_iff in E as [_ ->]. split; [done|]. by split.
Qed.

(** Replacing one row. *)
Lemma store_ok_insert m id j j' :
  store_ok m -> m !! id = Some j -> job_ok j' ->
  j_source j' = j_source j -> (j_idempotency_key j' = j_idempotency_key j \/ j_idempotency_key j' = None) ->
  store_ok (<[id := j']> m).
Proof.
  intros [Hm Hu] Hj Hok Hsrc Hkey. split; [by apply map_Forall_insert_2|].
  intros i i' a a' k Hi Hi' Hs Ha Ha'.
  assert (Hold : forall x b, <[id := j']> m !! x = Some b -> j_idempotency_key b = Some k ->
    exists b0, m !! x = Some b0 /\ j_source b0 = j_source b /\ j_idempotency_key b0 = Some k).
  { intros x b Hx Hb. destruct (decide (id = x)) as [<-|Hne].
    - rewrite lookup_insert_eq in Hx. injection Hx as <-. exists j. split; [done|]. split; [done|].
      destruct Hkey; congruence.
    - rewrite lookup_insert_ne in Hx by done. by exists b. }
  destruct (Hold i a Hi Ha) as (b & Hb & Hsb & Hkb).
  destruct (Hold i' a' Hi' Ha') as (b' & Hb' & Hsb' & Hkb').
  eapply (Hu i i' b b' k); eauto. congruence.
Qed.

Lemma jobs_le_insert m id j j' : m !! id = Some j -> job_le j j' -> jobs_le m (<[id := j']> m).
Proof.
  intros Hj Hle x b Hx. destruct (decide (id = x)) as [<-|Hne].
  - exists j'. rewrite lookup_insert_eq. split; [done|]. by simplify_eq.
  - exists b. rewrite lookup_insert_ne by done. by split.
Qed.

#[global] Arguments assign_all : simpl never.
#[global] Arguments transition_assignments : simpl never.

(** ** Programs that keep the store well formed *)

(** What a transaction body may do to its view: keep the invariant, evolve rows legally, append
    events. *)
Definition tx_le `{Externals} (t t' : Tx) : Prop :=
  (store_ok (t_jobs t) -> store_ok (t_jobs t')) /\ jobs_le (t_jobs t) (t_jobs t') /\
  exists calls, t_writer t' = run_appends calls (t_writer t).

#[export] Instance tx_le_preorder `{Externals} : PreOrder tx_le.
Proof.
  split.
  - intros t. split; [done|]. split; [done|]. by exists [].
  - intros t1 t2 t3 (H1 & H2 & c1 & H3) (H4 & H5 & c2 & H6). split; [auto|]. split; [by etrans|].
    exists (c1 ++ c2). unfold run_appends in *. by rewrite fold_left_app, <- H3.
Qed.

Definition good_tx `{Externals} {A} (p : prog Tx A) (t : Tx) : Prop := tx_le t (p t).1.

(** The same at the level of the world: the job table and the event process. *)
Definition world_le `{Externals} (w w' : World) : Prop :=
  (store_ok (jobs w) -> store_ok (jobs w')) /\ jobs_le (jobs w) (jobs w') /\
  rtc JobEvents.step (ev w) (ev w').

#[export] Instance world_le_preorder `{Externals} : PreOrder world_le.
Proof.
  split.
  - intros t. split; [done|]. split; [done|]. apply rtc_refl.
  - intros t1 t2 t3 (H1 & H2 & H3) (H4 & H5 & H6). split; [auto|]. split; [by etrans|]. by etrans.
Qed.

Definition good `{Externals} {A} (p : prog World A) (w : World) : Prop := world_le w (p w).1.

Section good.
Context `{Externals}.

Lemma good_tx_bind {A B} (p : prog Tx A) (f : A -> prog Tx B) t :
  good_tx p t -> (forall a t', p t = (t', Ok a) -> good_tx (f a) t') -> good_tx (p ≫= f) t.
Proof.
  unfold good_tx. rewrite prog_bind_run. destruct (p t) as [t' [a|e]]; cbn; intros Hp Hf; [|done].
  etrans; [exact Hp|]. by apply Hf.
Qed.

Lemma good_tx_ret {A} (a : A) t : good_tx (mret a) t.
Proof. unfold good_tx. by cbn. Qed.

Lemma good_tx_raise {A} e t : good_tx (raise (A := A) e) t.
Proof. unfold good_tx. by cbn. Qed.

Lemma good_tx_lift {A} (r : result A) t : good_tx (lift r) t.
Proof. unfold good_tx. by cbn. Qed.

Lemma good_tx_get {B} (f : Tx -> prog Tx B) t : good_tx (f t) t -> good_tx (get ≫= f) t.
Proof. done. Qed.

Lemma good_tx_append j ty now m d t : good_tx (append_event j ty now m d) t.
Proof.
  split; [done|]. split; [done|]. exists [mkAppend j ty now m d]. reflexivity.
Qed.

Lemma good_tx_put js t :
  (store_ok (t_jobs t) -> store_ok js) -> jobs_le (t_jobs t) js -> good_tx (put_jobs js) t.
Proof. intros H1 H2. split; [done|]. split; [done|]. by exists []. Qed.

Lemma good_tx_for_each {A} (f : A -> prog Tx unit) l t :
  (forall x t', x ∈ l -> good_tx (f x) t') -> good_tx (for_each f l) t.
Proof.
  revert t. induction l as [|x l IH]; intros t Hf; [apply good_tx_ret|].
  apply good_tx_bind; [apply Hf; by left|]. intros _ t' _. apply IH. intros y t'' Hy.
  apply Hf. by right.
Qed.

(** [transition], on every branch. *)
Lemma transition_run id current target now owner reason values t :
  transition id current target now owner reason values t =
  if is_legal current target then
    match t_jobs t !! id with
    | Some j =>
        if cas_matches current owner j
        then (mkTx (<[id := assign_all (transition_assignments target now reason values) j]> (t_jobs t))
                (t_writer t), Ok tt)
        else (t, Raise (TransitionRefused id (state_value current) (state_value target)))
    | None => (t, Raise (TransitionRefused id (state_value current) (state_value target)))
    end
  else (t, Raise (IllegalTransition (state_value current) (state_value target))).
Proof.
  unfold transition. rewrite bind_lift. unfold check_transition.
  destruct (is_legal current target); cbn [negb]; [|done]. rewrite bind_get.
  destruct (t_jobs t !! id) as [j|]; [|done]. by destruct (cas_matches current owner j).
Qed.

Lemma good_tx_transition id current target now owner reason values t :
  Forall plain values -> good_tx (transition id current target now owner reason values) t.
Proof.
  intros Hv. unfold good_tx. rewrite transition_run.
  destruct (is_legal current target) eqn:Hleg; [|done].
  destruct (t_jobs t !! id) as [j|] eqn:Hj; [|done].
  destruct (cas_matches current owner j) eqn:Hcas; [|done]. cbn.
  pose proof (transition_result target now reason values j Hv) as Hr.
  pose proof (transition_job_ok target now reason values j Hv) as Hok. cbv zeta in Hr.
  revert Hr Hok. generalize (assign_all (transition_assignments target now reason values) j).
  intros j' (Hs & Him & Hat & _ & Hk & _) Hok.
  unfold cas_matches in Hcas. apply andb_true_iff in Hcas as [Hc _]. bool_to_prop.
  assert (Hle : job_le j j').
  { split; [done|]. split; [done|]. rewrite Hc, Hs. by apply rtc_once. }
  cbn [fst t_jobs t_writer]. split; [|split; [by eapply jobs_le_insert|by exists []]].
  intros Hst. eapply store_ok_insert; [done|done| | |by left].
  - apply Hok. by apply (proj1 Hst id).
  - unfold immutable in Him. congruence.
Qed.

Lemma good_bind {A B} (p : prog World A) (f : A -> prog World B) w :
  good p w -> (forall a w', p w = (w', Ok a) -> good (f a) w') -> good (p ≫= f) w.
Proof.
  unfold good. rewrite prog_bind_run. destruct (p w) as [w' [a|e]]; cbn; intros Hp Hf; [|done].
  etrans; [exact Hp|]. by apply Hf.
Qed.

Lemma good_ret {A} (a : A) w : good (mret a) w.
Proof. unfold good. by cbn. Qed.

Lemma good_raise {A} e w : good (raise (A := A) e) w.
Proof. unfold good. by cbn. Qed.

Lemma good_lift {A} (r : result A) w : good (lift r) w.
Proof. unfold good. by cbn. Qed.

Lemma good_get {B} (f : World -> prog World B) w : good (f w) w -> good (get ≫= f) w.
Proof. done. Qed.

Lemma good_sink_write {A} (body : prog Tx A) w :
  good_tx body (mkTx (jobs w) (begin_write (ev w))) -> good (sink_write body) w.
Proof.
  unfold good_tx, good, sink_write. destruct (body _) as [t r]; cbn.
  intros (H1 & H2 & calls & H3). cbn in *. rewrite H3. destruct r; cbn.
  - split; [done|]. split; [done|]. apply rtc_once, step_commit.
  - split; [done|]. split; [reflexivity|]. apply rtc_once, step_rollback.
Qed.
End good.

#[export] Hint Resolve good_tx_ret good_tx_raise good_tx_lift good_tx_append good_tx_transition
  good_ret good_raise good_lift : loadcoach.

(** ** The compare-and-set, end to end *)

(** What [move] does, on every branch. *)
Lemma move_run `{Externals} id current target now owner reason message data values w :
  let matches := match jobs w !! id with Some j => cas_matches current owner j | None => false end in
  let '(w', r) := move id current target now owner reason message data values w in
  if is_legal current target && matches then
    exists j row,
      jobs w !! id = Some j /\ r = Ok tt /\
      jobs w' = <[id := assign_all (transition_assignments target now reason values) j]> (jobs w) /\
      st_rows (ev w') = st_rows (ev w) ++ [row] /\
      ev_job_id row = id /\ ev_event_type row = event_type_for target /\ ev_timestamp row = now /\
      published (st_sink (ev w')) = published (st_sink (ev w)) ++ [(id, frame_of_row row)]
  else
    w' = w /\
    r = Raise (if is_legal current target
               then TransitionRefused id (state_value current) (state_value target)
               else IllegalTransition (state_value current) (state_value target)).
Proof.
  cbv zeta. unfold move, sink_write. rewrite prog_bind_run, transition_run. cbn [t_jobs t_writer].
  assert (Hroll : with_ev (rollback_write (begin_write (ev w)) (ev w)) w = w).
  { by destruct w as [? [? [? ? ?] ?] ? ? ? ?]. }
  destruct (is_legal current target); cbn [andb]; [|by split].
  destruct (jobs w !! id) as [j|] eqn:Hj; [|by split].
  destruct (cas_matches current owner j); [|by split].
  cbn. set (row := mkEvent _ _ _ _ _ _ _). exists j, row. repeat split; try done.
  rewrite publish_staged_published. done.
Qed.

Lemma lease_pair j j' target :
  (j_lease_owner j', j_lease_expires_at j')
    = (if is_waiting target || is_terminal target then (None, None)
       else (j_lease_owner j, j_lease_expires_at j)) ->
  (is_waiting target || is_terminal target = true ->
     j_lease_owner j' = None /\ j_lease_expires_at j' = None) /\
  (is_waiting target || is_terminal target = false ->
     j_lease_owner j' = j_lease_owner j /\ j_lease_expires_at j' = j_lease_expires_at j).
Proof. destruct (is_waiting target || is_terminal target); intros [= ? ?]; by split. Qed.

(** A row for the witnesses: an idempotent job leased to [w/1]. *)
Definition sample_job (s : JobState) (owner : option string) (expires : option Z) (prio created : Z)
  : Job := {|
  j_task_profile_id := "chat"; j_task_profile_version := "1"; j_job_class := NORMAL;
  j_base_priority := prio; j_effective_priority := prio; j_source := "cli"; j_state := s;
  j_state_reason := None; j_idempotency_key := None; j_idempotent := true;
  j_idempotency_expires_at := None; j_request_json := JObj [("task", JStr "chat")];
  j_selected_model_id := None; j_target_gpu_index := None; j_attempt := 0; j_max_attempts := 3;
  j_lease_owner := owner; j_lease_expires_at := expires; j_cancel_requested := false;
  j_created_at := created; j_scheduled_for := Some created; j_queued_at := Some created;
  j_started_at := None; j_completed_at := None; j_max_wait_seconds := Some 3600;
  j_error_code := None; j_error_text := None; j_other := ∅
|}%string.

Definition sample_world (js : gmap string Job) : World :=
  mkWorld js initial ∅ [] [mkProfile "chat" "1" true]%string false.

Module Properties.

(** [move] is a fenced compare-and-set, committed or refused as a whole: it
    succeeds exactly when the move is in the transition table and the row is in [current] under
    the given owner; it then puts that one row in [target] with its identity and [attempt]
    untouched, clears the lease exactly when [target] is waiting or terminal, stamps
    [scheduled_for] and [completed_at], and stores and publishes exactly one event; otherwise it
    raises and the world is unchanged, so a worker that lost its lease cannot overwrite the
    reclaimer. *)
Theorem move_compare_and_set `{Externals} (id : string) (current target : JobState) (now : Z)
    (owner reason message : option string) (data : list (string * json)) (values : list Assign)
    (w w' : World) (r : result unit) :
  Forall plain values ->
  move id current target now owner reason message data values w = (w', r) ->
  (r = Ok tt <-> is_legal current target = true /\
     exists j, jobs w !! id = Some j /\ cas_matches current owner j = true) /\
  (r <> Ok tt -> w' = w) /\
  (r = Ok tt -> exists j j' row,
     jobs w !! id = Some j /\ jobs w' = <[id := j']> (jobs w) /\
     j_state j' = target /\ immutable j' = immutable j /\ j_attempt j' = j_attempt j /\
     (is_waiting target || is_terminal target = true ->
        j_lease_owner j' = None /\ j_lease_expires_at j' = None) /\
     (is_waiting target || is_terminal target = false ->
        j_lease_owner j' = j_lease_owner j /\ j_lease_expires_at j' = j_lease_expires_at j) /\
     j_scheduled_for j' = (if bool_decide (target = QUEUED) then Some now else j_scheduled_for j) /\
     j_completed_at j' = (if is_terminal target then Some now else j_completed_at j) /\
     st_rows (ev w') = st_rows (ev w) ++ [row] /\ ev_job_id row = id /\
     ev_event_type row = event_type_for target /\
     published (st_sink (ev w')) = published (st_sink (ev w)) ++ [(id, frame_of_row row)]).
Proof.
  intros Hv Hm. pose proof (move_run id current target now owner reason message data values w) as Hr.
  cbv zeta in Hr. rewrite Hm in Hr.
  destruct (is_legal current target); cbn [andb] in Hr.
  2:{ destruct Hr as [-> ->]. split; [split; [discriminate|]|split; [done|discriminate]].
      intros (? & ? & ? & ?). congruence. }
  destruct (jobs w !! id) as [j|] eqn:Hj.
  2:{ destruct Hr as [-> ->]. split; [split; [discriminate|]|split; [done|discriminate]].
      intros (? & ? & ? & ?). congruence. }
  destruct (cas_matches current owner j) eqn:Hc.
  2:{ destruct Hr as [-> ->]. split; [split; [discriminate|]|split; [done|discriminate]].
      intros (? & ? & ? & ?). congruence. }
  destruct Hr as (j0 & row & [= <-] & -> & Hjobs & Hrows & Hid & Hty & _ & Hpub).
  split; [split; [eauto|done]|]. split; [done|]. intros _. exists j. eexists. exists row.
  split; [done|]. split; [exact Hjobs|].
  destruct (transition_result target now reason values j Hv)
    as (Hs & Him & Hat & _ & _ & Hsch & Hl & Hcomp).
  destruct (lease_pair _ _ _ Hl). auto 15.
Qed.

Lemma move_compare_and_set_witness :
  let w := sample_world {["a" := sample_job LEASED (Some "w/1") (Some 60) 400 0]}%string in
  (move "a" LEASED ADMITTED 5 (Some "w/2") None None [] [] w).1 = w /\
  is_ok (move "a" LEASED ADMITTED 5 (Some "w/1") None None [] [] w).2 = true.
Proof.
  intros w. split; [|vm_compute; reflexivity].
  destruct (move "a" LEASED ADMITTED 5 (Some "w/2"%string) None None [] [] w) as [w' r] eqn:E.
  destruct (move_compare_and_set "a" LEASED ADMITTED 5 (Some "w/2"%string) None None [] [] w w' r
              (Forall_nil_2 _) E) as (_ & H & _).
  apply H. vm_compute in E. injection E as <- <-. discriminate.
Defined.

End Properties.
