(* ===== verification/Queue.v ===== *)
(** * The queue service ([services/queue.py])

    Enqueue, the atomic claim, cancellation, leases, the ageing sweep, the absolute wait bound and
    the reads the scheduler and API use; and the idempotency and reservation helpers of
    [services/execution.py] the queue shares.  Each operation is one program over [World]; a
    statement without [order_by] visits rows in the map's order. *)

From S2P Require Import Prelude PyFloat Json QueueState Priority Authorization JobEvents Submission QueueStore.
#[local] Open Scope Z_scope.

(** The SQL dialects the statements are written for, and each one's
    [now - queued_at] in seconds as its own date arithmetic computes it. *)
Inductive Dialect := Sqlite | Postgresql.

Class Sql := {
  dialect : Dialect;
  waiting_seconds : Z -> Z -> f64
}.

Record QueueSettings := mkSettings {
  max_depth : Z;
  max_active_per_source : Z;
  lease_seconds : Z;
  q_max_wait_seconds : Z;
  ageing_priority_per_minute : f64;
  overflow_allowance : Z;
  idempotency_ttl_hours : f64
}.

Record EnqueueOutcome := mkEnqueued { eo_job_id : string; eo_state : JobState; eo_created : bool }.

Record CancelOutcome := mkCancelOutcome { co_job_id : string; co_state : JobState; co_already : bool }.

Record ReapSummary := mkReap { requeued : list string; failed : list string }.

Record AffinityHint := mkAffinity {
  resident_model_ids : gset string;
  streak : Z;
  max_streak : Z
}.

(** ** Small programs over the world *)

(** A statement of its own transaction that only touches the job table. *)
Definition db_write_jobs (f : gmap string Job -> gmap string Job) : prog World unit :=
  fun w => (with_jobs (f (jobs w)) w, Ok tt).

(** [new_id()] drawn outside a transaction. *)
Definition draw_id `{Externals} : prog World string :=
  fun w => let e := ev w in
    (with_ev (JobEvents.mkState (st_rows e) (st_sink e) (S (st_ids e))) w, Ok (new_id (st_ids e))).

Definition wake (wakeup : bool) : prog World unit :=
  fun w => (mkWorld (jobs w) (ev w) (settings w) (model_rows w) (profiles w) (woken w || wakeup), Ok tt).

(** The rows a query selects, with their ids. *)
Definition select_jobs (p : string -> Job -> bool) (js : gmap string Job) : list (string * Job) :=
  List.filter (fun '(id, j) => p id j) (map_to_list js).

(** [UPDATE jobs SET ... WHERE p]. *)
Definition update_where (p : string -> Job -> bool) (f : Job -> Job) (js : gmap string Job)
  : gmap string Job := map_imap (fun id j => Some (if p id j then f j else j)) js.

(** ** Reservation and idempotency *)

(** [load_task_profile]: the first enabled profile with that id. *)
Definition load_task_profile (ps : list StoredTaskProfile) (tsk : string)
  : result StoredTaskProfile :=
  match List.filter (fun p => bool_decide (profile_id p = tsk) && profile_enabled p) ps with
  | p :: _ => Ok p
  | [] => Raise (TaskProfileNotFound tsk)
  end.

Definition holds_key (source key : string) (j : Job) : bool :=
  bool_decide (j_source j = source) && bool_decide (j_idempotency_key j = Some key).

(** [existing_job_for_key]: the unexpired job of that key; an expired key is released. *)
Definition existing_job_for_key (source key : string) (now : Z)
  : prog World (option (string * JobState)) :=
  w ← get;
  match select_jobs (fun _ j => holds_key source key j) (jobs w) with
  | [] => mret None
  | (id, j) :: _ =>
      match j_idempotency_expires_at j with
      | Some t =>
          if t <=? now
          then _ ← db_write_jobs (update_where (fun id' _ => bool_decide (id' = id))
                      (assign_all [SetIdempotencyKey None; SetIdempotencyExpiresAt None]));
               mret None
          else mret (Some (id, j_state j))
      | None => mret (Some (id, j_state j))
      end
  end.

(** [UniqueConstraint("source", "idempotency_key")] and the primary key; NULL keys never clash. *)
Definition insert_clash (id : string) (j : Job) (js : gmap string Job) : bool :=
  bool_decide (is_Some (js !! id)) ||
  match j_idempotency_key j with
  | Some k => negb (bool_decide (select_jobs (fun _ j' => holds_key (j_source j) k j') js = []))
  | None => false
  end.

(** [session.add(job)] and the flush. *)
Definition insert_job (id : string) (j : Job) : prog Tx unit :=
  t ← get;
  if insert_clash id j (t_jobs t) then raise IntegrityError
  else put_jobs (<[id := j]> (t_jobs t)).

(** [try: ... except IntegrityError: ...]. *)
Definition catch_integrity {S A} (body handler : prog S A) : prog S A :=
  fun s => let '(s', r) := body s in
    match r with Raise IntegrityError => handler s' | _ => (s', r) end.

(** ** Enqueue *)

Definition active_count (source : option string) (js : gmap string Job) : Z :=
  Z.of_nat (length (select_jobs (fun _ j =>
    is_active (j_state j) &&
    match source with Some s => bool_decide (j_source j = s) | None => true end) js)).

Definition resolve_model_id (canonical_id : string) (w : World) : option string :=
  match List.filter (fun '(_, c) => bool_decide (c = canonical_id)) (model_rows w) with
  | (id, _) :: _ => Some id
  | [] => None
  end.

Section enqueue.
Context `{Externals} `{Wire}.

Definition hash_transcript (turns : list Message) : string :=
  sha256 (String.concat (String (Ascii.ascii_of_nat 10) EmptyString)
            (map (fun m => role_value (msg_role m) +:+ ":" +:+ msg_content m) turns)).

Definition existing_by_key (s : JobSubmission) (now : Z) : prog World (option EnqueueOutcome) :=
  found ← existing_job_for_key (sub_source s) (default "" (sub_idempotency_key s)) now;
  mret (match found with Some (id, st) => Some (mkEnqueued id st false) | None => None end).

(** The row [enqueue] inserts. *)
Definition new_job (s : JobSubmission) (profile : StoredTaskProfile) (prio now : Z)
    (pinned : option string) (payload : json) (turns : list Message) (q : QueueSettings)
    (max_attempts : Z) : Job := {|
  j_task_profile_id := profile_id profile;
  j_task_profile_version := profile_version profile;
  j_job_class := sub_job_class s;
  j_base_priority := prio;
  j_effective_priority := prio;
  j_source := sub_source s;
  j_state := QUEUED;
  j_state_reason := None;
  j_idempotency_key := sub_idempotency_key s;
  j_idempotent := sub_idempotent s;
  j_idempotency_expires_at :=
    match sub_idempotency_key s with
    | None => None
    | Some _ => Some (now + timedelta_hours_us (idempotency_ttl_hours q))
    end;
  j_request_json := payload;
  j_selected_model_id := pinned;
  j_target_gpu_index := None;
  j_attempt := 0;
  j_max_attempts := max_attempts;
  j_lease_owner := None;
  j_lease_expires_at := None;
  j_cancel_requested := false;
  j_created_at := now;
  j_scheduled_for := Some now;
  j_queued_at := Some now;
  j_started_at := None;
  j_completed_at := None;
  j_max_wait_seconds := Some (or_int (sub_max_wait_seconds s) (q_max_wait_seconds q));
  j_error_code := None;
  j_error_text := None;
  j_other := {["prompt_hash" := JStr (hash_transcript turns)]} ∪ {["degradations_json" := JArr []]}
|}.

(** The checks before the insert: depth, then the per-source cap. *)
Definition check_capacity (s : JobSubmission) (q : QueueSettings) : prog World unit :=
  w ← get;
  _ ← lift (guard_raise (max_depth q <=? active_count None (jobs w))
              (QueueFull (active_count None (jobs w)) (max_depth q)));
  if max_active_per_source q =? 0 then mret tt
  else lift (guard_raise (max_active_per_source q <=? active_count (Some (sub_source s)) (jobs w))
               (QueueFull (active_count (Some (sub_source s)) (jobs w)) (max_active_per_source q))).

Definition queued_message (s : JobSubmission) (prio : Z) : string :=
  "queued as " +:+ class_value (sub_job_class s) +:+ " at priority " +:+ pretty prio.

(** The insert and its event, and what losing the race for the key does. *)
Definition insert_queued (s : JobSubmission) (profile : StoredTaskProfile) (prio now : Z)
    (q : QueueSettings) (max_attempts : Z) (wakeup : bool) : prog World EnqueueOutcome :=
  job_id ← draw_id;
  turns ← lift (transcript s);
  w ← get;
  let pinned := match overrides s with Some o => model o | None => None end in
  let pinned_model_id :=
    match pinned with Some c => resolve_model_id c w | None => None end in
  outcome ← catch_integrity
    (_ ← sink_write (
       payload ← lift (as_request_json s);
       _ ← insert_job job_id (new_job s profile prio now pinned_model_id payload turns q max_attempts);
       append_event job_id (event_type_for QUEUED) now (Some (queued_message s prio))
         [("class", JStr (class_value (sub_job_class s))); ("base_priority", JInt prio);
          ("task_profile_id", JStr (profile_id profile)); ("source", JStr (sub_source s))]%string);
     mret None)
    (existing ← existing_by_key s now;
     match existing with Some o => mret (Some o) | None => raise IntegrityError end);
  match outcome with
  | Some o => mret o
  | None => _ ← wake wakeup; mret (mkEnqueued job_id QUEUED true)
  end.

Definition enqueue (s : JobSubmission) (now : Z) (q : QueueSettings) (max_attempts : Z)
    (wakeup : bool) (principal : option Principal) : prog World EnqueueOutcome :=
  _ ← lift (authorize principal "write");
  w ← get;
  profile ← lift (load_task_profile (profiles w) (task s));
  prio ← lift (base_priority (sub_job_class s) (priority s));
  existing ← (match sub_idempotency_key s with
              | Some _ => existing_by_key s now
              | None => mret None
              end);
  match existing with
  | Some o => mret o
  | None => _ ← check_capacity s q; insert_queued s profile prio now q max_attempts wakeup
  end.
End enqueue.

(** ** Synchronous executions ([services/execution.py]) *)

(** The parts of [GenerateRequest] the reservation stores. *)
Record GenerateRequest `{Wire} := mkRequest {
  g_task : string;
  g_transcript : list Message;
  g_tools : list ToolDefinition;
  g_response_format : option string;
  g_sampling : list (string * json);
  g_stream : bool;
  g_source : string;
  g_idempotency_key : option string
}.

Record ReservedJob := mkReserved { r_job_id : string; r_created : bool; r_state : JobState }.

Section reserve.
Context `{Externals} `{Wire}.

Definition sync_job (r : GenerateRequest) (profile : StoredTaskProfile) (now : Z) (ttl_hours : f64)
  : Job := {|
  j_task_profile_id := profile_id profile;
  j_task_profile_version := profile_version profile;
  j_job_class := INTERACTIVE;
  j_base_priority := 800;
  j_effective_priority := 800;
  j_source := g_source r;
  j_state := EXECUTING;
  j_state_reason := Some "synchronous"%string;
  j_idempotency_key := g_idempotency_key r;
  j_idempotent := match g_idempotency_key r with Some _ => true | None => false end;
  j_idempotency_expires_at :=
    match g_idempotency_key r with
    | None => None
    | Some _ => Some (now + timedelta_hours_us ttl_hours)
    end;
  j_request_json :=
    JObj [("task", JStr (g_task r)); ("messages", JArr (map message_json (g_transcript r)));
          ("tools", tool_definitions_json (g_tools r));
          ("response_format", jopt_str (g_response_format r)); ("sampling", JObj (g_sampling r));
          ("stream", JBool (g_stream r))]%string;
  j_selected_model_id := None;
  j_target_gpu_index := None;
  j_attempt := 0;
  j_max_attempts := 1;
  j_lease_owner := None;
  j_lease_expires_at := None;
  j_cancel_requested := false;
  j_created_at := now;
  j_scheduled_for := None;
  j_queued_at := None;
  j_started_at := Some now;
  j_completed_at := None;
  j_max_wait_seconds := None;
  j_error_code := None;
  j_error_text := None;
  j_other := {["prompt_hash" := JStr (hash_transcript (g_transcript r))]} ∪
             {["degradations_json" := JArr []]}
|}.

(** [database.write()] around the insert: no sink, so no event. *)
Definition db_insert (id : string) (j : Job) : prog World unit :=
  fun w => if insert_clash id j (jobs w) then (w, Raise IntegrityError)
           else (with_jobs (<[id := j]> (jobs w)) w, Ok tt).

Definition reserve_sync_job (r : GenerateRequest) (now : Z) (ttl_hours : f64)
  : prog World ReservedJob :=
  w ← get;
  profile ← lift (load_task_profile (profiles w) (g_task r));
  existing ← (match g_idempotency_key r with
              | Some k => existing_job_for_key (g_source r) k now
              | None => mret None
              end);
  match existing with
  | Some (id, st) => mret (mkReserved id false st)
  | None =>
      job_id ← draw_id;
      outcome ← catch_integrity
        (_ ← db_insert job_id (sync_job r profile now ttl_hours); mret None)
        (found ← existing_job_for_key (g_source r) (default "" (g_idempotency_key r))%string now;
         match found with Some o => mret (Some o) | None => raise IntegrityError end);
      match outcome with
      | Some (id, st) => mret (mkReserved id false st)
      | None => mret (mkReserved job_id true EXECUTING)
      end
  end.
End reserve.

(** ** The claim *)

Record ClaimedJob `{Wire} := mkClaimed {
  c_job_id : string;
  c_job : Job;                       (* the columns the record copies *)
  c_queued_at : Z;
  c_scheduled_for : Z;
  c_lease_expires_at : Z;
  c_submission : JobSubmission;
  c_by_affinity : bool
}.

Definition eligible (now : Z) (j : Job) : bool :=
  bool_decide (j_state j = QUEUED) &&
  match j_scheduled_for j with Some t => t <=? now | None => false end.

(** [order_by(effective_priority.desc(), created_at.asc())]. *)
Definition claim_leb (x y : string * Job) : bool :=
  (j_effective_priority y.2 <? j_effective_priority x.2) ||
  ((j_effective_priority x.2 =? j_effective_priority y.2) &&
   (j_created_at x.2 <=? j_created_at y.2)).

Definition candidate (now : Z) (extra : Job -> bool) (js : gmap string Job)
  : option (string * Job) :=
  head (py_sorted claim_leb (select_jobs (fun _ j => eligible now j && extra j) js)).

Definition lease_assignments (owner : string) (now lease_s : Z) : list Assign :=
  [SetState LEASED; SetStateReason None; SetLeaseOwner (Some owner);
   SetLeaseExpiresAt (Some (now + 1000000 * lease_s))].

Definition claim_matching (owner : string) (now lease_s : Z) (extra : Job -> bool)
  : prog Tx (option string) :=
  t ← get;
  match candidate now extra (t_jobs t) with
  | None => mret None
  | Some (id, j) =>
      _ ← put_jobs (<[id := assign_all (lease_assignments owner now lease_s) j]> (t_jobs t));
      mret (Some id)
  end.

(** [func.max(effective_priority)] over the eligible rows. *)
Definition top_priority (now : Z) (js : gmap string Job) : option Z :=
  match select_jobs (fun _ j => eligible now j) js with
  | [] => None
  | (_, j) :: l => Some (fold_left (fun m x => Z.max m (j_effective_priority x.2)) l (j_effective_priority j))
  end.

Definition affinity_applies (a : option AffinityHint) : bool :=
  match a with
  | Some a => negb (bool_decide (resident_model_ids a = ∅)) && (streak a <? max_streak a)
  | None => false
  end.

Definition resident_selected (a : option AffinityHint) (j : Job) : bool :=
  match a, j_selected_model_id j with
  | Some a, Some m => bool_decide (m ∈ resident_model_ids a)
  | _, _ => false
  end.

Section claim.
Context `{Externals} `{Wire}.

Definition claimed (id : string) (j : Job) (by_affinity : bool) : result ClaimedJob :=
  match j_queued_at j, j_lease_expires_at j with
  | Some queued_at, Some lease_expires_at =>
      submission ← from_request_json (or_empty (j_request_json j)) (j_job_class j)
        (j_base_priority j) (j_max_wait_seconds j) (j_idempotent j) (j_idempotency_key j)
        (j_source j);
      Ok (mkClaimed _ id j queued_at (default queued_at (j_scheduled_for j)) lease_expires_at
            submission by_affinity)
  | _, _ => Raise AssertionError
  end.

(** The affinity claim over the top priority's resident jobs, when the hint applies. *)
Definition claim_by_affinity (owner : string) (now lease_s : Z) (a : option AffinityHint)
  : prog Tx (option string) :=
  if affinity_applies a then
    t ← get;
    match top_priority now (t_jobs t) with
    | None => mret None
    | Some top =>
        claim_matching owner now lease_s
          (fun j => (j_effective_priority j =? top) && resident_selected a j)
    end
  else mret None.

Definition leased_message (owner : string) (by_affinity : bool) : string :=
  "leased by " +:+ owner +:+ (if by_affinity then " (affinity)" else "").

Definition finish_claim (id owner : string) (now lease_s : Z) (by_affinity : bool)
  : prog Tx (option ClaimedJob) :=
  t ← get;
  match t_jobs t !! id with
  | None => raise KeyError            (* [get_one] of a row just updated: not reachable *)
  | Some j =>
      _ ← append_event id (event_type_for LEASED) now (Some (leased_message owner by_affinity))
            [("lease_owner", JStr owner); ("lease_seconds", JInt lease_s);
             ("affinity", JBool by_affinity)]%string;
      c ← lift (claimed id j by_affinity);
      mret (Some c)
  end.

Definition claim (owner : string) (now lease_s : Z) (affinity : option AffinityHint)
  : prog World (option ClaimedJob) :=
  sink_write (
    first ← claim_by_affinity owner now lease_s affinity;
    match first with
    | Some id => finish_claim id owner now lease_s true
    | None =>
        second ← claim_matching owner now lease_s (fun _ => true);
        match second with
        | Some id => finish_claim id owner now lease_s false
        | None => mret None
        end
    end).
End claim.

(** ** Cancellation *)

(** [on_request] is the in-flight registry's hook; the outcome says whether it was called. *)
Definition cancel_job `{Externals} (job_id : string) (now : Z) (principal : option Principal)
  : prog World CancelOutcome :=
  _ ← lift (authorize principal "write");
  sink_write (
    t ← get;
    match t_jobs t !! job_id with
    | None => raise (JobNotFound job_id)
    | Some j =>
        let current := j_state j in
        if is_terminal current then raise (JobNotCancellable job_id (state_value current))
        else match cancel_target current with
             | None => mret (mkCancelOutcome job_id current true)
             | Some target =>
                 _ ← transition job_id current target now None
                       (Some (if bool_decide (target = CANCELLING) then "cancel_requested"
                              else "GENERATION_CANCELLED"))
                       ([SetCancelRequested true] ++
                        (if bool_decide (target = CANCELLED)
                         then [SetErrorCode (Some "GENERATION_CANCELLED")] else []));
                 _ ← append_event job_id (event_type_for target) now
                       (Some ("cancel requested in " +:+ state_value current))
                       [("previous_state", JStr (state_value current));
                        ("reason", JStr "cancel_requested")];
                 mret (mkCancelOutcome job_id target false)
             end
    end)%string.

(** The latest event of a type for a job: its timestamp and its data. *)
Definition latest_event (rows : list JobEvent) (job_id event_type : string) : option JobEvent :=
  last (py_sorted row_leb
    (List.filter (fun r => bool_decide (ev_job_id r = job_id) &&
                           bool_decide (ev_event_type r = event_type)) rows)).

Definition cancelling_since (w : World) : list (string * option Z) :=
  map (fun '(id, _) =>
        (id, ev_timestamp <$> latest_event (st_rows (ev w)) id (event_type_for CANCELLING)))
    (select_jobs (fun _ j => bool_decide (j_state j = CANCELLING)) (jobs w)).

Definition waiting_deferrals (w : World) : list (string * option (list (string * json))) :=
  map (fun '(id, _) =>
        (id, match latest_event (st_rows (ev w)) id (event_type_for WAITING_RESOURCES) with
             | Some e => match ev_data e with JObj l => Some l | _ => None end
             | None => None
             end))
    (select_jobs (fun _ j => bool_decide (j_state j = WAITING_RESOURCES)) (jobs w)).

(** ** Leases *)

Definition renewable (owner : string) (ids : gset string) (id : string) (j : Job) : bool :=
  bool_decide (id ∈ ids) && bool_decide (j_lease_owner j = Some owner) &&
  bool_decide (j_state j ∈ LEASE_HOLDING_STATES ++ [CANCELLING]).

Definition renew_leases (owner : string) (ids : gset string) (now lease_s : Z)
  : prog World (gset string) :=
  w ← get;
  if bool_decide (ids = ∅) then mret ∅
  else
    _ ← db_write_jobs (update_where (renewable owner ids)
          (assign_all [SetLeaseExpiresAt (Some (now + 1000000 * lease_s))]));
    mret (ids ∖ list_to_set (select_jobs (renewable owner ids) (jobs w)).*1).

Definition lease_expired (now : Z) (j : Job) : bool :=
  match j_lease_expires_at j with Some t => t <? now | None => false end.

Definition opt_text (x : option string) : string := default "None"%string x.

Definition reap_reason (target : JobState) : string :=
  if bool_decide (target = CANCELLED) then "cancelled"
  else if bool_decide (target = QUEUED) then "lease_expired" else "worker_lost".

(** One row of the reaper's loop; [None] is the [continue]. *)
Definition reap_one `{Externals} (now : Z) (row : string * Job) : prog Tx unit :=
  let '(id, j) := row in
  match recovery_target (j_state j) (j_idempotent j) with
  | None => mret tt
  | Some target =>
      _ ← transition id (j_state j) target now None (Some (reap_reason target))
            (if bool_decide (target = FAILED)
             then [SetErrorCode (Some "WORKER_LOST");
                   SetErrorText (Some ("lease held by " +:+ opt_text (j_lease_owner j) +:+ " expired"))]
             else []);
      append_event id (event_type_for target) now
        (Some ("lease held by " +:+ opt_text (j_lease_owner j) +:+ " expired in " +:+
               state_value (j_state j) +:+ ": " +:+ reap_reason target))
        [("reason", JStr (reap_reason target)); ("previous_state", JStr (state_value (j_state j)));
         ("lease_owner", jopt_str (j_lease_owner j))]
  end%string.

(** The ids of the rows whose recovery target satisfies [p], in visiting order. *)
Definition recovered_as (p : JobState -> bool) (rows : list (string * Job)) : list string :=
  (List.filter (fun '(_, j) =>
     match recovery_target (j_state j) (j_idempotent j) with
     | Some t => p t
     | None => false
     end) rows).*1.

Definition reap_expired_leases `{Externals} (now : Z) : prog World ReapSummary :=
  sink_write (
    t ← get;
    let rows := select_jobs (fun _ j => lease_expired now j) (t_jobs t) in
    _ ← for_each (reap_one now) rows;
    mret (mkReap (recovered_as (fun s => bool_decide (s = QUEUED)) rows)
            (recovered_as (fun s => negb (bool_decide (s = QUEUED))) rows))).

(** ** The ageing sweep and the absolute wait bound *)

(** [func.max(points, 0.0)] and [func.greatest(points, 0.0)]: SQLite's [max] of NULL is NULL,
    PostgreSQL's [greatest] ignores it. *)
Definition sql_non_negative `{Sql} (points : option f64) : option f64 :=
  match points, dialect with
  | Some p, _ => Some (Z.max p 0)
  | None, Sqlite => None
  | None, Postgresql => Some 0
  end.

Definition class_cap (c : JobClass) : Z :=
  if bool_decide (c = INTERACTIVE) then 999
  else if bool_decide (c = NORMAL) then 799
  else if bool_decide (c = BACKGROUND) then 399 else 99.

(** [fresh], NULL when the wait is. *)
Definition fresh_priority `{Sql} (now : Z) (q : QueueSettings) (j : Job) : option Z :=
  let points := (fun t =>
    fadd (fmul (fdiv (waiting_seconds now t) (60 * fone)) (ageing_priority_per_minute q))
      AGEING_EPSILON_POINTS) <$> j_queued_at j in
  (fun p => Z.min (j_base_priority j + ffloor p) (class_cap (j_job_class j) + overflow_allowance q))
    <$> sql_non_negative points.

Definition sweep_changes `{Sql} (now : Z) (q : QueueSettings) (j : Job) : bool :=
  is_waiting (j_state j) &&
  match fresh_priority now q j with
  | Some p => negb (j_effective_priority j =? p)
  | None => false
  end.

Definition ageing_sweep `{Sql} (now : Z) (q : QueueSettings) : prog World Z :=
  w ← get;
  _ ← db_write_jobs (update_where (fun _ j => sweep_changes now q j)
        (fun j => assign (SetEffectivePriority
                            (default (j_effective_priority j) (fresh_priority now q j))) j));
  mret (Z.of_nat (length (select_jobs (fun _ j => sweep_changes now q j) (jobs w)))).

Definition overdue `{Sql} (now default_max : Z) (j : Job) : bool :=
  is_waiting (j_state j) &&
  match j_queued_at j with
  | Some t => default default_max (j_max_wait_seconds j) * fone <? waiting_seconds now t
  | None => false
  end.

Definition expire_one `{Externals} (now default_max : Z) (row : string * Job) : prog Tx unit :=
  let '(id, j) := row in
  let bound := or_int (j_max_wait_seconds j) default_max in
  _ ← transition id (j_state j) FAILED now None (Some "MAX_WAIT_EXCEEDED")
        [SetErrorCode (Some "MAX_WAIT_EXCEEDED");
         SetErrorText (Some ("waited longer than max_wait_seconds (" +:+ pretty bound +:+ ")"))];
  append_event id (event_type_for FAILED) now
    (Some ("max_wait_seconds (" +:+ pretty bound +:+ ") exceeded in " +:+ state_value (j_state j)))
    [("reason", JStr "MAX_WAIT_EXCEEDED"); ("previous_state", JStr (state_value (j_state j)));
     ("max_wait_seconds", JInt bound)]%string.

Definition expire_max_wait `{Externals} `{Sql} (now default_max : Z) : prog World (list string) :=
  sink_write (
    t ← get;
    let rows := select_jobs (fun _ j => overdue now default_max j) (t_jobs t) in
    _ ← for_each (expire_one now default_max) rows;
    mret rows.*1).

(** ** Reading *)

Record QueueSnapshot := mkQueueSnapshot {
  depth_by_state : gmap string Z;
  depth_by_class : gmap string Z;
  oldest_queued_age_seconds : option f64;
  starving : Z;
  active : Z
}.

(** [group_by(key)] with [count()]. *)
Definition group_count (key : Job -> string) (rows : list (string * Job)) : gmap string Z :=
  fold_left (fun m r => <[key r.2 := default 0 (m !! key r.2) + 1]> m) rows ∅.

Definition age_step (now default_max : Z) (acc : option f64 * Z) (row : string * Job)
  : option f64 * Z :=
  match j_queued_at row.2 with
  | None => acc
  | Some t =>
      let age := total_seconds (now - t) in
      (Some (match acc.1 with None => age | Some o => Z.max o age end),
       if starvation_threshold_seconds (or_int (j_max_wait_seconds row.2) default_max) <=? age
       then acc.2 + 1 else acc.2)
  end.

Definition queue_snapshot (now default_max : Z) (w : World) : QueueSnapshot :=
  let rows := select_jobs (fun _ j => is_active (j_state j)) (jobs w) in
  let waiting := select_jobs (fun _ j => is_waiting (j_state j)) (jobs w) in
  let by_state := group_count (fun j => state_value (j_state j)) rows in
  let '(oldest, starving) := fold_left (age_step now default_max) waiting (None, 0) in
  mkQueueSnapshot by_state (group_count (fun j => class_value (j_job_class j)) rows) oldest starving
    (sumZ (map_to_list by_state).*2).

Definition get_job (job_id : string) (w : World) : result Job :=
  match jobs w !! job_id with Some j => Ok j | None => Raise (JobNotFound job_id) end.

Definition QUEUE_FLAG_KEYS : list string := ["queue.paused"; "queue.draining"]%string.

(** Insert or update one [settings] row. *)
Definition put_setting (name : string) (value : json) (now : Z) : prog World unit :=
  fun w => (mkWorld (jobs w) (ev w) (<[name := (value, now)]> (settings w)) (model_rows w)
              (profiles w) (woken w), Ok tt).

Definition set_queue_flag (name : string) (value : bool) (now : Z) (principal : option Principal)
  : prog World unit :=
  _ ← lift (authorize principal "admin");
  if bool_decide (name ∈ QUEUE_FLAG_KEYS) then put_setting name (JBool value) now
  else raise ValueError.

Definition queue_flag (name : string) (w : World) : bool :=
  match settings w !! name with Some (v, _) => truthy v | None => false end.

Definition queue_flags (w : World) : list (string * bool) :=
  map (fun name => (name, queue_flag name w)) QUEUE_FLAG_KEYS.

(** ** Lemmas: queries and updates *)

Lemma elem_of_select p js id j :
  (id, j) ∈ select_jobs p js <-> js !! id = Some j /\ p id j = true.
Proof.
  unfold select_jobs. rewrite list_elem_of_In, List.filter_In, <- list_elem_of_In, elem_of_map_to_list.
  done.
Qed.

Lemma select_NoDup p js : NoDup (select_jobs p js).*1.
Proof.
  unfold select_jobs. pose proof (NoDup_fst_map_to_list js) as Hnd.
  induction (map_to_list js) as [|[id j] l IH]; [constructor|].
  cbn in Hnd. apply NoDup_cons in Hnd as [Hni Hnd]. cbn. destruct (p id j); cbn; [|auto].
  constructor; [|auto]. intros Hin. apply Hni. apply list_elem_of_fmap in Hin as (x & -> & Hx).
  apply list_elem_of_fmap_2. apply list_elem_of_In, List.filter_In in Hx as [? _].
  by apply list_elem_of_In.
Qed.

Lemma select_nil p js :
  select_jobs p js = [] <-> (forall id j, js !! id = Some j -> p id j = false).
Proof.
  split.
  - intros Hn id j Hj. destruct (p id j) eqn:E; [|done].
    assert (Hin : (id, j) ∈ select_jobs p js) by (by apply elem_of_select).
    rewrite Hn in Hin. by apply not_elem_of_nil in Hin.
  - intros Hall. destruct (select_jobs p js) as [|[id j] l] eqn:E; [done|].
    assert (Hin : (id, j) ∈ select_jobs p js) by (rewrite E; left).
    apply elem_of_select in Hin as [Hj Hp]. by rewrite Hall in Hp.
Qed.

Lemma lookup_update_where p f js id :
  update_where p f js !! id = (fun j => if p id j then f j else j) <$> js !! id.
Proof. unfold update_where. rewrite map_lookup_imap. by destruct (js !! id). Qed.

Lemma update_where_id p f js :
  (forall id j, js !! id = Some j -> p id j = false) -> update_where p f js = js.
Proof.
  intros Hp. apply map_eq. intros id. rewrite lookup_update_where.
  destruct (js !! id) as [j|] eqn:Hj; [|done]. cbn. by rewrite (Hp id j Hj).
Qed.

(** A set-based update that keeps every row well formed. *)
Definition row_ok_update (f : Job -> Job) (j : Job) : Prop :=
  job_le j (f j) /\ (job_ok j -> job_ok (f j)) /\
  (j_idempotency_key (f j) = j_idempotency_key j \/ j_idempotency_key (f j) = None).

Lemma update_where_ok p f js :
  (forall id j, js !! id = Some j -> p id j = true -> row_ok_update f j) ->
  (store_ok js -> store_ok (update_where p f js)) /\ jobs_le js (update_where p f js).
Proof.
  intros Hf.
  assert (Hrow : forall id j, js !! id = Some j ->
            row_ok_update (fun j => if p id j then f j else j) j).
  { intros id j Hj. specialize (Hf id j Hj). unfold row_ok_update in *.
    destruct (p id j); [auto|]. split; [reflexivity|]. split; [done|by left]. }
  split.
  - intros [Hm Hu]. split.
    + intros id j' Hj'. rewrite lookup_update_where in Hj'.
      destruct (js !! id) as [j|] eqn:Hj; [|done]. injection Hj' as <-.
      apply (Hrow id j Hj). by apply (Hm id).
    + intros i i' a a' k Hi Hi' Hs Ha Ha'. rewrite lookup_update_where in Hi, Hi'.
      destruct (js !! i) as [b|] eqn:Hb; [|done]. destruct (js !! i') as [b'|] eqn:Hb'; [|done].
      injection Hi as <-. injection Hi' as <-.
      destruct (Hrow i b Hb) as ((Him & _) & _ & Hk). destruct (Hrow i' b' Hb') as ((Him' & _) & _ & Hk').
      unfold immutable in Him, Him'. eapply (Hu i i' b b' k); try done; [congruence|..].
      * destruct Hk; congruence.
      * destruct Hk'; congruence.
  - intros id j Hj. eexists. rewrite lookup_update_where, Hj. split; [done|]. by apply Hrow.
Qed.

Section goodness.
Context `{Externals}.

Lemma good_db_write p f w :
  (forall id j, jobs w !! id = Some j -> p id j = true -> row_ok_update f j) ->
  good (db_write_jobs (update_where p f)) w.
Proof.
  intros Hf. destruct (update_where_ok p f (jobs w) Hf) as [H1 H2].
  split; [done|]. split; [done|]. apply rtc_refl.
Qed.

Lemma good_draw_id w : good draw_id w.
Proof. split; [done|]. split; [reflexivity|]. apply rtc_once, step_draw. Qed.

Lemma good_wake b w : good (wake b) w.
Proof. split; [done|]. split; [reflexivity|]. apply rtc_refl. Qed.

Lemma good_put_setting n v now w : good (put_setting n v now) w.
Proof. split; [done|]. split; [reflexivity|]. apply rtc_refl. Qed.

(** An assignment of non-lifecycle columns keeps a row well formed. *)
Lemma row_ok_assign a j :
  match a with
  | SetState _ | SetLeaseOwner _ | SetLeaseExpiresAt _ | SetCompletedAt _ | SetAttempt _
  | SetIdempotencyKey (Some _) => False
  | _ => True
  end -> row_ok_update (assign a) j.
Proof.
  intros Ha. split; [|split].
  - split; [by destruct a|]. split; [by destruct a|]. destruct a; try done; cbn; apply rtc_refl.
  - unfold job_ok. by destruct a.
  - destruct a as [| | |[]| | | | | | | | | | | | |]; try done; auto.
Qed.

Lemma row_ok_compose f g j :
  row_ok_update f j -> row_ok_update g (f j) -> row_ok_update (fun j => g (f j)) j.
Proof.
  intros (H1 & H2 & H3) (H4 & H5 & H6). split; [by etrans|]. split; [auto|].
  destruct H6 as [->| ->]; auto.
Qed.

Lemma good_existing_job_for_key source key now w : good (existing_job_for_key source key now) w.
Proof.
  apply good_get. destruct (select_jobs _ _) as [|[id j] l]; [apply good_ret|].
  destruct (j_idempotency_expires_at j) as [t|]; [|apply good_ret].
  destruct (t <=? now); [|apply good_ret].
  apply good_bind; [|intros; apply good_ret]. apply good_db_write. intros id' j' _ _.
  apply (row_ok_compose (assign (SetIdempotencyKey None))); by apply row_ok_assign.
Qed.

Lemma insert_clash_false id j js :
  insert_clash id j js = false ->
  js !! id = None /\
  (forall id' j' k, js !! id' = Some j' -> j_idempotency_key j = Some k ->
     j_idempotency_key j' = Some k -> j_source j' <> j_source j).
Proof.
  unfold insert_clash. intros Hc. apply orb_false_iff in Hc as [H1 H2]. bool_to_prop. split.
  - by apply eq_None_not_Some.
  - intros id' j' k Hj' Hk Hk' Hs. rewrite Hk in H2. bool_to_prop.
    assert (Hin : (id', j') ∈ select_jobs (fun _ j' => holds_key (j_source j) k j') js).
    { apply elem_of_select. split; [done|]. unfold holds_key. by rewrite !bool_decide_true. }
    rewrite H2 in Hin. by apply not_elem_of_nil in Hin.
Qed.

Lemma insert_ok id j js :
  job_ok j -> insert_clash id j js = false ->
  (store_ok js -> store_ok (<[id := j]> js)) /\ jobs_le js (<[id := j]> js).
Proof.
  intros Hok Hc. destruct (insert_clash_false id j js Hc) as [Hfresh Hkey]. split.
  - intros [Hm Hu]. split; [by apply map_Forall_insert_2|].
    intros i i' a a' k Hi Hi' Hs Ha Ha'.
    destruct (decide (id = i)) as [<-|Hn]; destruct (decide (id = i')) as [<-|Hn']; [done|..];
      rewrite ?lookup_insert_eq in *; rewrite ?lookup_insert_ne in * by done; simplify_eq.
    + exfalso. by eapply (Hkey i' a' k).
    + exfalso. by eapply (Hkey i a k).
    + by eapply (Hu i i' a a' k).
  - intros x b Hx. exists b. rewrite lookup_insert_ne by congruence. by split.
Qed.

Lemma good_tx_insert id j t : job_ok j -> good_tx (insert_job id j) t.
Proof.
  intros Hok. apply good_tx_get. destruct (insert_clash id j (t_jobs t)) eqn:Hc;
    [apply good_tx_raise|]. destruct (insert_ok id j (t_jobs t) Hok Hc). by apply good_tx_put.
Qed.

Lemma good_catch {A} (body handler : prog World A) w :
  good body w -> (forall w', good handler w') -> good (catch_integrity body handler) w.
Proof.
  unfold good, catch_integrity. destruct (body w) as [w' [a|e]]; cbn; intros Hb Hh; [done|].
  destruct e; cbn; try done. etrans; [exact Hb|]. apply Hh.
Qed.
End goodness.

#[export] Hint Resolve good_draw_id good_wake good_put_setting good_existing_job_for_key : loadcoach.

(** ** Every operation keeps the store well formed *)

Section operations.
Context `{Externals} `{Wire}.

Lemma new_job_ok s profile prio now pinned payload turns q n :
  job_ok (new_job s profile prio now pinned payload turns q n).
Proof. split; [done|]. split; [done|]. split; intros [? ?]; done. Qed.

Lemma sync_job_ok r profile now ttl : job_ok (sync_job r profile now ttl).
Proof. split; [done|]. split; [done|]. split; intros [? ?]; done. Qed.

Lemma good_existing_by_key s now w : good (existing_by_key s now) w.
Proof. apply good_bind; [eauto with loadcoach|]. intros; apply good_ret. Qed.

Lemma good_check_capacity s q w : good (check_capacity s q) w.
Proof.
  apply good_get, good_bind; [apply good_lift|]. intros _ w' _.
  destruct (max_active_per_source q =? 0); [apply good_ret|apply good_lift].
Qed.

Lemma good_insert_queued s profile prio now q n wk w :
  good (insert_queued s profile prio now q n wk) w.
Proof.
  apply good_bind; [apply good_draw_id|]. intros id w1 _.
  apply good_bind; [apply good_lift|]. intros turns w2 _.
  apply good_get, good_bind.
  - apply good_catch.
    + apply good_bind; [|intros; apply good_ret]. apply good_sink_write.
      apply good_tx_bind; [apply good_tx_lift|]. intros payload t1 _.
      apply good_tx_bind; [apply good_tx_insert, new_job_ok|]. intros; apply good_tx_append.
    + intros w'. apply good_bind; [apply good_existing_by_key|].
      intros [o|] w3 _; [apply good_ret|apply good_raise].
  - intros [o|] w3 _; [apply good_ret|].
    apply good_bind; [apply good_wake|]. intros; apply good_ret.
Qed.

Lemma good_enqueue s now q n wk p w : good (enqueue s now q n wk p) w.
Proof.
  apply good_bind; [apply good_lift|]. intros _ w1 _. apply good_get.
  apply good_bind; [apply good_lift|]. intros profile w2 _.
  apply good_bind; [apply good_lift|]. intros prio w3 _.
  apply good_bind.
  { destruct (sub_idempotency_key s); [apply good_existing_by_key|apply good_ret]. }
  intros [o|] w4 _; [apply good_ret|].
  apply good_bind; [apply good_check_capacity|]. intros; apply good_insert_queued.
Qed.

Lemma good_db_insert id j w : job_ok j -> good (db_insert id j) w.
Proof.
  intros Hok. unfold good, db_insert. destruct (insert_clash id j (jobs w)) eqn:Hc; [done|].
  destruct (insert_ok id j (jobs w) Hok Hc). split; [done|]. split; [done|]. apply rtc_refl.
Qed.

Lemma good_reserve_sync_job r now ttl w : good (reserve_sync_job r now ttl) w.
Proof.
  apply good_get, good_bind; [apply good_lift|]. intros profile w1 _.
  apply good_bind.
  { destruct (g_idempotency_key r); [eauto with loadcoach|apply good_ret]. }
  intros [[id st]|] w2 _; [apply good_ret|].
  apply good_bind; [apply good_draw_id|]. intros id w3 _. apply good_bind.
  - apply good_catch.
    + apply good_bind; [apply good_db_insert, sync_job_ok|]. intros; apply good_ret.
    + intros w'. apply good_bind; [eauto with loadcoach|].
      intros [o|] w4 _; [apply good_ret|apply good_raise].
  - intros [[? ?]|] w4 _; apply good_ret.
Qed.

Lemma candidate_Some now extra js id j :
  candidate now extra js = Some (id, j) ->
  js !! id = Some j /\ eligible now j = true /\ extra j = true /\
  forall id' j', js !! id' = Some j' -> eligible now j' = true -> extra j' = true ->
    claim_leb (id, j) (id', j') = true.
Proof.
  unfold candidate. set (l := select_jobs _ js). intros Hh.
  assert (Hs : StronglySorted (fun x y => claim_leb x y = true) (py_sorted claim_leb l)).
  { apply py_sorted_Sorted; unfold claim_leb; intros.
    - destruct (Z.ltb_spec (j_effective_priority x.2) (j_effective_priority y.2)); [right; done|].
      destruct (Z.ltb_spec (j_effective_priority y.2) (j_effective_priority x.2)); [left; done|].
      assert (He : j_effective_priority x.2 = j_effective_priority y.2) by lia.
      rewrite He, Z.eqb_refl. cbn.
      destruct (Z.leb_spec (j_created_at x.2) (j_created_at y.2)); [by left|right; apply Z.leb_le; lia].
    - apply orb_true_iff in H1. apply orb_true_iff in H2. apply orb_true_iff.
      rewrite !andb_true_iff, !Z.ltb_lt, !Z.eqb_eq, !Z.leb_le in *. lia. }
  destruct (py_sorted claim_leb l) as [|x l'] eqn:E; [done|]. injection Hh as ->.
  assert (Hin : (id, j) ∈ l) by (rewrite <- (elem_of_py_sorted claim_leb), E; left).
  apply elem_of_select in Hin as [Hj Hp]. apply andb_true_iff in Hp as [He Hx].
  split; [done|]. split; [done|]. split; [done|]. intros id' j' Hj' He' Hx'.
  assert (Hin' : (id', j') ∈ (id, j) :: l').
  { rewrite <- E, elem_of_py_sorted. apply elem_of_select. split; [done|]. by rewrite He', Hx'. }
  apply elem_of_cons in Hin' as [[= -> ->]|Hin'].
  - unfold claim_leb. cbn. rewrite Z.eqb_refl, Z.leb_refl. by rewrite orb_true_r.
  - apply StronglySorted_inv in Hs as [_ Hs]. rewrite Forall_forall in Hs. by apply Hs.
Qed.

Lemma candidate_None now extra js :
  candidate now extra js = None <->
  forall id j, js !! id = Some j -> (eligible now j && extra j) = false.
Proof.
  unfold candidate. rewrite <- (select_nil (fun _ j => eligible now j && extra j)).
  set (l := select_jobs _ js). split.
  - intros Hh. apply length_zero_iff_nil. rewrite <- (py_sorted_length claim_leb l).
    by destruct (py_sorted claim_leb l).
  - by intros ->.
Qed.

Lemma eligible_queued now j : eligible now j = true -> j_state j = QUEUED.
Proof. unfold eligible. intros [He _]%andb_true_iff. by bool_to_prop. Qed.

Lemma lease_job_le owner now ls j :
  j_state j = QUEUED -> job_le j (assign_all (lease_assignments owner now ls) j).
Proof. intros Hq. split; [done|]. split; [done|]. rewrite Hq. by apply rtc_once. Qed.

Lemma good_tx_claim_matching owner now ls extra t : good_tx (claim_matching owner now ls extra) t.
Proof.
  apply good_tx_get. destruct (candidate now extra (t_jobs t)) as [[id j]|] eqn:Ec;
    [|apply good_tx_ret]. apply candidate_Some in Ec as (Hj & He & _).
  apply eligible_queued in He. apply good_tx_bind; [|intros; apply good_tx_ret].
  apply good_tx_put.
  - intros Hst. eapply store_ok_insert; [done|done| |done|by left].
    split; [done|]. split; [done|]. by split; eexists.
  - eapply jobs_le_insert; [done|]. by apply lease_job_le.
Qed.

Lemma good_tx_finish id owner now ls b t : good_tx (finish_claim id owner now ls b) t.
Proof.
  apply good_tx_get. destruct (t_jobs t !! id) as [j|]; [|apply good_tx_raise].
  apply good_tx_bind; [apply good_tx_append|]. intros _ t1 _.
  apply good_tx_bind; [apply good_tx_lift|]. intros; apply good_tx_ret.
Qed.

Lemma good_tx_affinity owner now ls a t : good_tx (claim_by_affinity owner now ls a) t.
Proof.
  unfold claim_by_affinity. destruct (affinity_applies a); [|apply good_tx_ret].
  apply good_tx_get. destruct (top_priority now (t_jobs t)); [apply good_tx_claim_matching|apply good_tx_ret].
Qed.

Lemma good_claim owner now ls a w : good (claim owner now ls a) w.
Proof.
  apply good_sink_write, good_tx_bind; [apply good_tx_affinity|].
  intros [id|] t1 _; [apply good_tx_finish|].
  apply good_tx_bind; [apply good_tx_claim_matching|].
  intros [id|] t2 _; [apply good_tx_finish|apply good_tx_ret].
Qed.

Lemma good_cancel_job id now p w : good (cancel_job id now p) w.
Proof.
  apply good_bind; [apply good_lift|]. intros _ w1 _. apply good_sink_write, good_tx_get.
  cbn [t_jobs]. destruct (jobs w1 !! id) as [j|]; [|apply good_tx_raise].
  destruct (is_terminal (j_state j)); [apply good_tx_raise|].
  destruct (cancel_target (j_state j)) as [target|]; [|apply good_tx_ret].
  apply good_tx_bind; [apply good_tx_transition|].
  - apply Forall_app. split; [by repeat constructor|]. case_bool_decide; by repeat constructor.
  - intros _ t1 _. apply good_tx_bind; [apply good_tx_append|]. intros; apply good_tx_ret.
Qed.

Lemma good_renew_leases owner ids now ls w : good (renew_leases owner ids now ls) w.
Proof.
  apply good_get. case_bool_decide; [apply good_ret|].
  apply good_bind; [|intros; apply good_ret]. apply good_db_write. intros id j Hj Hr.
  unfold renewable in Hr. bool_to_prop.
  split; [split; [done|split; [done|apply rtc_refl]]|]. split; [|by left].
  intros (H1' & H2' & H3'). split; [|split; [done|]]; cbn.
  - intros Hw. destruct (H1' Hw) as [Ho _]. congruence.
  - split; intros _; [by eexists|by eexists].
Qed.

Lemma good_tx_reap_one now row t : good_tx (reap_one now row) t.
Proof.
  destruct row as [id j]. unfold reap_one.
  destruct (recovery_target _ _) as [target|]; [|apply good_tx_ret].
  apply good_tx_bind; [apply good_tx_transition|intros; apply good_tx_append].
  case_bool_decide; by repeat constructor.
Qed.

Lemma good_reap now w : good (reap_expired_leases now) w.
Proof.
  apply good_sink_write, good_tx_get, good_tx_bind; [|intros; apply good_tx_ret].
  apply good_tx_for_each. intros; apply good_tx_reap_one.
Qed.

Lemma good_tx_expire_one now d row t : good_tx (expire_one now d row) t.
Proof.
  destruct row as [id j]. apply good_tx_bind; [apply good_tx_transition|intros; apply good_tx_append].
  by repeat constructor.
Qed.

Context `{Sql}.

Lemma good_expire now d w : good (expire_max_wait now d) w.
Proof.
  apply good_sink_write, good_tx_get, good_tx_bind; [|intros; apply good_tx_ret].
  apply good_tx_for_each. intros; apply good_tx_expire_one.
Qed.

Lemma good_sweep now q w : good (ageing_sweep now q) w.
Proof.
  apply good_get, good_bind; [|intros; apply good_ret]. apply good_db_write.
  intros id j _ _. by apply (row_ok_assign (SetEffectivePriority _)).
Qed.

Lemma good_set_queue_flag n v now p w : good (set_queue_flag n v now p) w.
Proof.
  apply good_bind; [apply good_lift|]. intros _ w1 _. unfold set_queue_flag.
  case_bool_decide; [apply good_put_setting|apply good_raise].
Qed.

Lemma good_move id c t now o r m d v w :
  Forall plain v -> good (move id c t now o r m d v) w.
Proof.
  intros Hv. apply good_sink_write, good_tx_bind; [by apply good_tx_transition|].
  intros; apply good_tx_append.
Qed.
End operations.

#[export] Hint Resolve good_enqueue good_reserve_sync_job good_claim good_cancel_job
  good_renew_leases good_reap good_expire good_sweep good_set_queue_flag good_move : loadcoach.
