(* ===== verification/QueueTheory.v ===== *)
(** * What the queue service guarantees

    Functional specifications of the operations of [Queue.v], each on every branch, and the
    system-level theorems over arbitrary interleavings of them. *)

From S2P Require Import Prelude PyFloat Json QueueState Priority Authorization JobEvents Submission QueueStore Queue.
#[local] Open Scope Z_scope.

(** ** The vocabulary of the specifications

    What it means for a job to be due, for a lease to have run out and for a wait to have exceeded
    its bound, stated over the row's columns; the lemmas tie the statements' [where] clauses to it. *)
Definition due (now : Z) (j : Job) : Prop :=
  j_state j = QUEUED /\ exists t, j_scheduled_for j = Some t /\ t <= now.

Definition lease_ran_out (now : Z) (j : Job) : Prop :=
  exists t, j_lease_expires_at j = Some t /\ t < now.

Definition waited_out `{Sql} (now default_max : Z) (j : Job) : Prop :=
  (j_state j = QUEUED \/ j_state j = WAITING_RESOURCES) /\
  exists t, j_queued_at j = Some t /\
    default default_max (j_max_wait_seconds j) * fone < waiting_seconds now t.

Lemma reflects_false (b : bool) (P : Prop) : (b = true <-> P) -> (b = false <-> ~ P).
Proof. intros Hb. rewrite <- Hb. by destruct b. Qed.

Lemma eligible_due now j : eligible now j = true <-> due now j.
Proof.
  unfold eligible, due. rewrite andb_true_iff, bool_decide_eq_true.
  destruct (j_scheduled_for j) as [t|]; [rewrite Z.leb_le; naive_solver|naive_solver].
Qed.

Lemma lease_expired_ran_out now j : lease_expired now j = true <-> lease_ran_out now j.
Proof.
  unfold lease_expired, lease_ran_out.
  destruct (j_lease_expires_at j); [rewrite Z.ltb_lt; naive_solver|naive_solver].
Qed.

Lemma overdue_waited_out `{Sql} now d j : overdue now d j = true <-> waited_out now d j.
Proof.
  unfold overdue, waited_out. rewrite andb_true_iff.
  assert (is_waiting (j_state j) = true <-> j_state j = QUEUED \/ j_state j = WAITING_RESOURCES) as ->.
  { destruct (j_state j); cbn; naive_solver. }
  destruct (j_queued_at j); [rewrite Z.ltb_lt; naive_solver|naive_solver].
Qed.

(** A rolled-back transaction changes nothing a reader can see: only the sequence numbers and ids
    it drew are gone. *)
Definition unchanged (w w' : World) : Prop :=
  jobs w' = jobs w /\ st_rows (ev w') = st_rows (ev w) /\
  published (st_sink (ev w')) = published (st_sink (ev w)) /\
  settings w' = settings w /\ model_rows w' = model_rows w /\ profiles w' = profiles w.

Lemma unchanged_refl w : unchanged w w.
Proof. repeat split. Qed.

(** One more stored event, published as it is stored. *)
Definition one_event `{Externals} (w w' : World) (id event_type : string) (now : Z) : Prop :=
  exists row, st_rows (ev w') = st_rows (ev w) ++ [row] /\ ev_job_id row = id /\
    ev_event_type row = event_type /\ ev_timestamp row = now /\
    published (st_sink (ev w')) = published (st_sink (ev w)) ++ [(id, frame_of_row row)].

Lemma commit_begin w : with_ev (commit_write (begin_write (ev w)) (ev w)) (with_jobs (jobs w) w) = w.
Proof. by destruct w as [? [? [? ? ?] ?] ? ? ? ?]. Qed.

(** ** The claim *)

(** The row a claim takes: the affinity candidate when there is one, else the plain one. *)
Definition pick (now : Z) (a : option AffinityHint) (js : gmap string Job)
  : option (string * Job * bool) :=
  let plain := match candidate now (fun _ => true) js with
               | Some (id, j) => Some (id, j, false) | None => None end in
  if affinity_applies a then
    match top_priority now js with
    | Some top =>
        match candidate now (fun j => (j_effective_priority j =? top) && resident_selected a j) js with
        | Some (id, j) => Some (id, j, true)
        | None => plain
        end
    | None => plain
    end
  else plain.

Section claim.
Context `{Externals} `{Wire}.

Lemma claim_matching_run owner now ls extra t :
  claim_matching owner now ls extra t =
  match candidate now extra (t_jobs t) with
  | None => (t, Ok None)
  | Some (id, j) =>
      (mkTx (<[id := assign_all (lease_assignments owner now ls) j]> (t_jobs t)) (t_writer t),
       Ok (Some id))
  end.
Proof. unfold claim_matching. rewrite bind_get. by destruct (candidate now extra (t_jobs t)) as [[id j]|]. Qed.

(** The three outcomes of the transaction body. *)
Lemma claim_body owner now ls a w :
  let w1 := begin_write (ev w) in
  claim owner now ls a w =
  match pick now a (jobs w) with
  | None => (w, Ok None)
  | Some (id, j, b) =>
      let js := <[id := assign_all (lease_assignments owner now ls) j]> (jobs w) in
      sink_write (fun _ => finish_claim id owner now ls b (mkTx js w1)) w
  end.
Proof.
  cbv zeta. unfold claim, sink_write at 1, pick. rewrite prog_bind_run.
  unfold claim_by_affinity. destruct (affinity_applies a).
  - rewrite bind_get. cbn [t_jobs]. destruct (top_priority now (jobs w)) as [top|].
    + rewrite claim_matching_run. cbn [t_jobs].
      destruct (candidate now (fun j => (j_effective_priority j =? top) && resident_selected a j) (jobs w))
        as [[id j]|]; [reflexivity|].
      rewrite prog_bind_run, claim_matching_run. cbn [t_jobs].
      destruct (candidate now (fun _ => true) (jobs w)) as [[id j]|]; [reflexivity|].
      cbn -[commit_write begin_write]. by rewrite commit_begin.
    + cbn [mret prog_ret]. rewrite prog_bind_run, claim_matching_run. cbn [t_jobs].
      destruct (candidate now (fun _ => true) (jobs w)) as [[id j]|]; [reflexivity|].
      cbn -[commit_write begin_write]. by rewrite commit_begin.
  - cbn [mret prog_ret]. rewrite prog_bind_run, claim_matching_run. cbn [t_jobs].
    destruct (candidate now (fun _ => true) (jobs w)) as [[id j]|]; [reflexivity|].
    cbn -[commit_write begin_write]. by rewrite commit_begin.
Qed.

(** Storing the lease and its event commits or, when the row cannot be turned into a claim, rolls
    back. *)
Lemma finish_claim_spec id owner now ls b j' js w :
  js !! id = Some j' ->
  let '(w', r) := sink_write (fun _ => finish_claim id owner now ls b (mkTx js (begin_write (ev w)))) w in
  match claimed id j' b with
  | Ok c => r = Ok (Some c) /\ jobs w' = js /\ one_event w w' id (event_type_for LEASED) now
  | Raise e => r = Raise e /\ unchanged w w'
  end.
Proof.
  intros Hj. unfold sink_write, finish_claim. rewrite bind_get. cbn [t_jobs]. rewrite Hj.
  rewrite prog_bind_run. cbn -[publish_staged]. rewrite bind_lift.
  destruct (claimed id j' b) as [c|e]; cbn -[publish_staged].
  - split; [done|]. split; [done|]. unfold one_event. cbn -[publish_staged].
    rewrite publish_staged_published. by eexists.
  - split; [done|]. by repeat split.
Qed.

Lemma claimed_spec id j b :
  (forall c, claimed id j b = Ok c -> c_job_id c = id /\ c_by_affinity c = b) /\
  (j_queued_at j = None -> claimed id j b = Raise AssertionError).
Proof.
  unfold claimed. split.
  - intros c. destruct (j_queued_at j), (j_lease_expires_at j); try done.
    intros (s & Hs & [= <-])%bind_Ok_inv. done.
  - by intros ->.
Qed.

Lemma top_priority_spec now js top :
  top_priority now js = Some top ->
  forall id j, js !! id = Some j -> eligible now j = true -> j_effective_priority j <= top.
Proof.
  unfold top_priority. intros Ht id j Hj He.
  assert (Hin : (id, j) ∈ select_jobs (fun _ j => eligible now j) js) by (by apply elem_of_select).
  destruct (select_jobs _ js) as [|[id0 j0] l]; [done|]. injection Ht as <-.
  assert (Hfold : forall l m, m <= fold_left (fun m (x : string * Job) => Z.max m (j_effective_priority x.2)) l m /\
            Forall (fun x : string * Job => j_effective_priority x.2 <=
                     fold_left (fun m (x : string * Job) => Z.max m (j_effective_priority x.2)) l m) l).
  { clear. induction l as [|x l IH]; intros m; cbn; [split; [lia|constructor]|].
    destruct (IH (Z.max m (j_effective_priority x.2))) as [H1 H2].
    split; [lia|]. constructor; [lia|done]. }
  destruct (Hfold l (j_effective_priority j0)) as [H1 H2].
  apply elem_of_cons in Hin as [[= -> ->]|Hin]; [done|].
  rewrite Forall_forall in H2. by apply (H2 (id, j)).
Qed.

(** The picked row heads the order; with affinity it is one of the resident jobs of the tie. *)
Lemma pick_spec now a js id j b :
  pick now a js = Some (id, j, b) ->
  js !! id = Some j /\ eligible now j = true /\
  (b = true -> affinity_applies a = true /\ resident_selected a j = true) /\
  forall id' j', js !! id' = Some j' -> eligible now j' = true ->
    j_effective_priority j' <= j_effective_priority j /\
    (j_effective_priority j' = j_effective_priority j ->
     b = false \/ resident_selected a j' = true -> j_created_at j <= j_created_at j').
Proof.
  assert (Hplain : forall id j, candidate now (fun _ => true) js = Some (id, j) ->
    js !! id = Some j /\ eligible now j = true /\
    forall id' j', js !! id' = Some j' -> eligible now j' = true ->
    j_effective_priority j' <= j_effective_priority j /\
    (j_effective_priority j' = j_effective_priority j -> j_created_at j <= j_created_at j')).
  { intros i x Hx. apply candidate_Some in Hx as (Hj & He & _ & Hmax). split; [done|].
    split; [done|]. intros i' x' Hj' He'. specialize (Hmax i' x' Hj' He' eq_refl).
    unfold claim_leb in Hmax. cbn in Hmax.
    rewrite orb_true_iff, andb_true_iff, Z.ltb_lt, Z.eqb_eq, Z.leb_le in Hmax. lia. }
  assert (Hp : match candidate now (fun _ => true) js with
               | Some (id, j) => Some (id, j, false) | None => None end = Some (id, j, b) ->
    js !! id = Some j /\ eligible now j = true /\
    (b = true -> affinity_applies a = true /\ resident_selected a j = true) /\
    forall id' j', js !! id' = Some j' -> eligible now j' = true ->
      j_effective_priority j' <= j_effective_priority j /\
      (j_effective_priority j' = j_effective_priority j ->
       b = false \/ resident_selected a j' = true -> j_created_at j <= j_created_at j')).
  { destruct (candidate now (fun _ => true) js) as [[i x]|] eqn:Ec; [|done]. intros [= -> -> <-].
    destruct (Hplain id j eq_refl) as (? & ? & Hm). split; [done|]. split; [done|]. split; [done|].
    intros i' x' Hj' He'. destruct (Hm i' x' Hj' He'). auto. }
  unfold pick. destruct (affinity_applies a) eqn:Ea; [|exact Hp].
  destruct (top_priority now js) as [top|] eqn:Et; [|exact Hp].
  destruct (candidate now
    (fun j => (j_effective_priority j =? top) && resident_selected a j) js) as [[i x]|] eqn:Ec; [|exact Hp].
  intros [= -> -> <-]. apply candidate_Some in Ec as (Hj & He & Hx & Hmax).
  apply andb_true_iff in Hx as [Htop Hres]. bool_to_prop.
  split; [done|]. split; [done|]. split; [done|]. intros i' x' Hj' He'.
  pose proof (top_priority_spec now js top Et i' x' Hj' He'). split; [lia|].
  intros Heq [?|Hr]; [done|].
  specialize (Hmax i' x' Hj' He'). rewrite Hr, andb_true_r in Hmax.
  specialize (Hmax (proj2 (Z.eqb_eq _ _) (eq_trans Heq Htop))). unfold claim_leb in Hmax. cbn in Hmax.
  rewrite orb_true_iff, andb_true_iff, Z.ltb_lt, Z.eqb_eq, Z.leb_le in Hmax. lia.
Qed.

Lemma pick_None now a js :
  pick now a js = None <-> forall id j, js !! id = Some j -> eligible now j = false.
Proof.
  assert (Hc : candidate now (fun _ => true) js = None <->
               forall id j, js !! id = Some j -> eligible now j = false).
  { rewrite candidate_None. split; intros Ha id j Hj; specialize (Ha id j Hj); by rewrite andb_true_r in *. }
  split.
  - unfold pick. intros Hn. apply Hc. revert Hn.
    destruct (affinity_applies a), (top_priority now js) as [top|];
      try destruct (candidate now
    (fun j => (j_effective_priority j =? top) && resident_selected a j) js) as [[? ?]|];
      by destruct (candidate now (fun _ => true) js) as [[? ?]|].
  - intros Ha. destruct (pick now a js) as [[[id j] b]|] eqn:E; [|done].
    apply pick_spec in E as (Hj & He & _). by rewrite (Ha id j Hj) in He.
Qed.
End claim.

(** ** Loops over selected rows

    [reap_expired_leases], [recover_jobs] and [expire_max_wait] select rows once and then run one
    compare-and-set and one event per row.  The rows are distinct and nothing else writes in the
    transaction, so every row is still in the state it was selected in. *)

(** What one iteration does to its row: [None] is the [continue]. *)
Record RowAction := mkAction { ra_target : JobState; ra_assign : list Assign; ra_append : AppendCall }.

(** The iteration in its normal form, on the rows the query can select: if the row is as it was
    selected, move it and append. *)
Definition runs_action `{Externals} (ok : Job -> Prop) (f : string * Job -> prog Tx unit)
    (act : string * Job -> option RowAction) : Prop :=
  forall id j t, ok j -> t_jobs t !! id = Some j ->
    f (id, j) t =
    match act (id, j) with
    | None => (t, Ok tt)
    | Some a => (mkTx (<[id := assign_all (ra_assign a) j]> (t_jobs t))
                   (run_appends [ra_append a] (t_writer t)), Ok tt)
    end.

Definition apply_actions (act : string * Job -> option RowAction) (rows : list (string * Job))
    (js : gmap string Job) : gmap string Job :=
  fold_left (fun js row => match act row with
                           | Some a => <[row.1 := assign_all (ra_assign a) row.2]> js
                           | None => js end) rows js.

Definition action_events (act : string * Job -> option RowAction) (rows : list (string * Job))
  : list AppendCall := omap (fun row => ra_append <$> act row) rows.

Lemma apply_actions_notin act rows js id :
  id ∉ rows.*1 -> apply_actions act rows js !! id = js !! id.
Proof.
  revert js. induction rows as [|[i j] rows IH]; intros js Hni; [done|].
  cbn in Hni. apply not_elem_of_cons in Hni as [Hne Hni]. unfold apply_actions in *. cbn.
  rewrite IH by done. destruct (act (i, j)); [|done]. by rewrite lookup_insert_ne.
Qed.

Lemma apply_actions_in act rows js id j :
  NoDup rows.*1 -> (id, j) ∈ rows -> js !! id = Some j ->
  apply_actions act rows js !! id
  = Some (match act (id, j) with Some a => assign_all (ra_assign a) j | None => j end).
Proof.
  revert js. induction rows as [|[i x] rows IH]; intros js Hnd Hin Hj; [by apply not_elem_of_nil in Hin|].
  cbn in Hnd. apply NoDup_cons in Hnd as [Hni Hnd].
  apply elem_of_cons in Hin as [[= <- <-]|Hin].
  - unfold apply_actions. cbn. fold (apply_actions act rows).
    change (fold_left _ rows ?m) with (apply_actions act rows m).
    rewrite apply_actions_notin by done. destruct (act (id, j)); [by rewrite lookup_insert_eq|done].
  - assert (id <> i).
    { intros ->. apply Hni. apply (list_elem_of_fmap_2 fst) in Hin. exact Hin. }
    unfold apply_actions. cbn. change (fold_left _ rows ?m) with (apply_actions act rows m).
    apply IH; [done|done|]. destruct (act (i, x)); [|done]. by rewrite lookup_insert_ne.
Qed.

Lemma for_each_actions `{Externals} ok f act rows t :
  runs_action ok f act -> NoDup rows.*1 ->
  (forall id j, (id, j) ∈ rows -> ok j /\ t_jobs t !! id = Some j) ->
  for_each f rows t =
  (mkTx (apply_actions act rows (t_jobs t)) (run_appends (action_events act rows) (t_writer t)), Ok tt).
Proof.
  intros Hf. revert t. induction rows as [|[i x] rows IH]; intros t Hnd Hrows.
  - by destruct t.
  - cbn in Hnd. apply NoDup_cons in Hnd as [Hni Hnd]. cbn [for_each]. rewrite prog_bind_run.
    destruct (Hrows i x) as [Hok Hx]; [left|]. rewrite Hf by done. unfold apply_actions, action_events. cbn.
    destruct (act (i, x)) as [a|] eqn:Ea; cbn.
    + rewrite IH; [done|done|]. cbn. intros id j Hin. rewrite lookup_insert_ne.
      * apply Hrows. by right.
      * intros ->. apply Hni. apply (list_elem_of_fmap_2 fst) in Hin. exact Hin.
    + apply IH; [done|]. intros id j Hin. apply Hrows. by right.
Qed.

(** A compare-and-set on the very state the row is in, followed by its event. *)
Lemma transition_action `{Externals} id j t target now reason values ty m d :
  t_jobs t !! id = Some j -> is_legal (j_state j) target = true ->
  (_ ← transition id (j_state j) target now None reason values; append_event id ty now m d) t
  = (mkTx (<[id := assign_all (transition_assignments target now reason values) j]> (t_jobs t))
       (run_appends [mkAppend id ty now m d] (t_writer t)), Ok tt).
Proof.
  intros Hj Hl. rewrite prog_bind_run, transition_run, Hl, Hj. unfold cas_matches.
  by rewrite bool_decide_true.
Qed.

(** The whole sweep over the selected rows, committed. *)
Lemma sweep_rows `{Externals} {A} ok f act (p : string -> Job -> bool)
    (res : list (string * Job) -> A) w :
  runs_action ok f act -> (forall id j, p id j = true -> ok j) ->
  let rows := select_jobs p (jobs w) in
  let calls := action_events act rows in
  sink_write (t ← get; let rows := select_jobs p (t_jobs t) in
              _ ← for_each f rows; mret (res rows)) w
  = (with_ev (commit_write (run_appends calls (begin_write (ev w))) (ev w))
       (with_jobs (apply_actions act rows (jobs w)) w), Ok (res rows)).
Proof.
  intros Hf Hp rows calls. unfold sink_write. rewrite bind_get. cbn [t_jobs]. fold rows.
  rewrite prog_bind_run, (for_each_actions ok f act); [done|done|apply select_NoDup|].
  intros id j Hin. apply elem_of_select in Hin as [? Hpj]. eauto.
Qed.

Lemma swept_lookup act p js id :
  apply_actions act (select_jobs p js) js !! id =
  (fun j => if p id j then match act (id, j) with Some a => assign_all (ra_assign a) j | None => j end
            else j) <$> js !! id.
Proof.
  destruct (js !! id) as [j|] eqn:Hj; cbn.
  - destruct (p id j) eqn:Hp.
    + apply apply_actions_in; [apply select_NoDup|by apply elem_of_select|done].
    + rewrite apply_actions_notin; [done|]. intros Hin.
      apply list_elem_of_fmap in Hin as ([i x] & Heq & Hin). cbn in Heq. subst i.
      apply elem_of_select in Hin as [Hx Hpx]. simplify_eq. congruence.
  - rewrite apply_actions_notin; [done|]. intros Hin.
    apply list_elem_of_fmap in Hin as ([i x] & Heq & Hin). cbn in Heq. subst i.
    apply elem_of_select in Hin as [Hx _]. congruence.
Qed.

(** ** Reaping *)

Definition reap_action (now : Z) (row : string * Job) : option RowAction :=
  (fun target => mkAction target
     (transition_assignments target now (Some (reap_reason target))
        (if bool_decide (target = FAILED)
         then [SetErrorCode (Some "WORKER_LOST");
               SetErrorText (Some ("lease held by " +:+ opt_text (j_lease_owner row.2) +:+ " expired"))]
         else []))
     (mkAppend row.1 (event_type_for target) now
        (Some ("lease held by " +:+ opt_text (j_lease_owner row.2) +:+ " expired in " +:+
               state_value (j_state row.2) +:+ ": " +:+ reap_reason target))
        [("reason", JStr (reap_reason target)); ("previous_state", JStr (state_value (j_state row.2)));
         ("lease_owner", jopt_str (j_lease_owner row.2))]))%string
  <$> recovery_target (j_state row.2) (j_idempotent row.2).

Lemma recovery_target_legal s b t : recovery_target s b = Some t -> is_legal s t = true.
Proof. by destruct s, b; intros [= <-]. Qed.

Lemma recovery_target_waits s b t :
  recovery_target s b = Some t -> is_waiting t || is_terminal t = true.
Proof. by destruct s, b; intros [= <-]. Qed.

Lemma recovery_target_None s b :
  recovery_target s b = None <-> is_waiting s || is_terminal s = true.
Proof. by destruct s, b. Qed.

Lemma reap_runs `{Externals} now : runs_action (fun _ => True) (reap_one now) (reap_action now).
Proof.
  intros id j t _ Hj. unfold reap_one, reap_action. cbn [fst snd].
  destruct (recovery_target (j_state j) (j_idempotent j)) as [target|] eqn:Et; [|done].
  cbn [fmap option_fmap option_map ra_assign ra_append]. apply transition_action; [done|].
  by eapply recovery_target_legal.
Qed.

(** ** The sweep computes the domain's ageing policy *)

Lemma class_cap_top c : class_cap c = (band_of c).2.
Proof. by destruct c. Qed.

(** SQL clamps the points, the domain clamps the wait: the same priority either way. *)
Lemma sql_points_agree ws rate :
  0 <= rate ->
  ffloor (Z.max (fadd (fmul (fdiv ws (60 * fone)) rate) AGEING_EPSILON_POINTS) 0)
  = aged_points ws rate.
Proof.
  intros Hrate. pose proof fone_pos as Hp. pose proof epsilon_pos as He.
  destruct (Z_le_gt_dec 0 ws) as [Hw|Hw].
  - unfold aged_points. rewrite (Z.max_l ws 0) by done. rewrite Z.max_l; [done|].
    apply fadd_nonneg; [|lia]. apply fmul_nonneg; [apply fdiv_nonneg; lia|done].
  - rewrite aged_points_fresh by lia.
    set (x := fadd (fmul (fdiv ws (60 * fone)) rate) AGEING_EPSILON_POINTS).
    assert (Hd : fdiv ws (60 * fone) <= 0).
    { replace 0 with (fdiv 0 (60 * fone)) by (unfold fdiv; by rewrite Z.mul_0_r).
      apply fdiv_mono; lia. }
    assert (Hm : fmul (fdiv ws (60 * fone)) rate <= 0).
    { rewrite <- (fround_0 fone). apply fround_mono; [done|done|]. nia. }
    assert (Hx : x <= fadd 0 AGEING_EPSILON_POINTS) by (apply fadd_mono; lia).
    assert (Hf : ffloor (fadd 0 AGEING_EPSILON_POINTS) = 0) by (vm_compute; reflexivity).
    apply Z.le_antisymm; [|apply ffloor_nonneg; lia].
    rewrite <- Hf. apply ffloor_mono. apply Z.max_lub; [done|].
    apply fadd_nonneg; lia.
Qed.

Lemma fresh_priority_spec `{Sql} now q j t :
  0 <= ageing_priority_per_minute q -> j_queued_at j = Some t ->
  fresh_priority now q j
  = Some (effective_priority (j_base_priority j) (j_job_class j) (waiting_seconds now t)
            (ageing_priority_per_minute q) (overflow_allowance q)).
Proof.
  intros Hr Ht. unfold fresh_priority. rewrite Ht. cbn [fmap option_fmap option_map sql_non_negative].
  rewrite effective_priority_points, <- sql_points_agree by done.
  unfold ageing_cap. by rewrite class_cap_top.
Qed.

Lemma ageing_sweep_run `{Sql} now q w :
  ageing_sweep now q w =
  (with_jobs (update_where (fun _ j => sweep_changes now q j)
     (fun j => assign (SetEffectivePriority (default (j_effective_priority j) (fresh_priority now q j))) j)
     (jobs w)) w,
   Ok (Z.of_nat (length (select_jobs (fun _ j => sweep_changes now q j) (jobs w))))).
Proof. reflexivity. Qed.

Lemma assign_priority_same j : assign (SetEffectivePriority (j_effective_priority j)) j = j.
Proof. by destruct j. Qed.

(** Where a row ends up: waiting rows with a known wait are current, the rest are untouched. *)
Definition swept `{Sql} (now : Z) (q : QueueSettings) (j : Job) : Job :=
  if is_waiting (j_state j)
  then assign (SetEffectivePriority (default (j_effective_priority j) (fresh_priority now q j))) j
  else j.

Lemma sweep_lookup `{Sql} now q w id :
  jobs (ageing_sweep now q w).1 !! id = swept now q <$> jobs w !! id.
Proof.
  rewrite ageing_sweep_run. cbn. rewrite lookup_update_where.
  destruct (jobs w !! id) as [j|]; [|done]. cbn. f_equal. unfold sweep_changes, swept.
  destruct (is_waiting (j_state j)); [|done]. cbn [andb].
  destruct (fresh_priority now q j) as [p|] eqn:Ef; cbn [default from_option].
  - destruct (Z.eqb_spec (j_effective_priority j) p) as [<-|]; cbn; [|done].
    by rewrite assign_priority_same.
  - by rewrite assign_priority_same.
Qed.

Lemma fresh_priority_swept `{Sql} now q j : fresh_priority now q (swept now q j) = fresh_priority now q j.
Proof. unfold swept. by destruct (is_waiting (j_state j)). Qed.

Lemma swept_no_change `{Sql} now q j : sweep_changes now q (swept now q j) = false.
Proof.
  unfold sweep_changes. rewrite fresh_priority_swept. unfold swept.
  destruct (is_waiting (j_state j)) eqn:Ew; cbn [j_state assign]; rewrite Ew; [|done]. cbn [andb].
  destruct (fresh_priority now q j); cbn; [|done]. by rewrite Z.eqb_refl.
Qed.

(** ** Expiry of the absolute wait bound *)

Definition expire_action (now default_max : Z) (row : string * Job) : option RowAction :=
  let bound := or_int (j_max_wait_seconds row.2) default_max in
  Some (mkAction FAILED
    (transition_assignments FAILED now (Some "MAX_WAIT_EXCEEDED")
       [SetErrorCode (Some "MAX_WAIT_EXCEEDED");
        SetErrorText (Some ("waited longer than max_wait_seconds (" +:+ pretty bound +:+ ")"))])
    (mkAppend row.1 (event_type_for FAILED) now
       (Some ("max_wait_seconds (" +:+ pretty bound +:+ ") exceeded in " +:+ state_value (j_state row.2)))
       [("reason", JStr "MAX_WAIT_EXCEEDED"); ("previous_state", JStr (state_value (j_state row.2)));
        ("max_wait_seconds", JInt bound)]))%string.

Lemma expire_runs `{Externals} now d :
  runs_action (fun j => is_waiting (j_state j) = true) (expire_one now d) (expire_action now d).
Proof.
  intros id j t Hw Hj. unfold expire_one. apply transition_action; [done|]. by destruct (j_state j).
Qed.

Lemma overdue_waiting `{Sql} now d j : overdue now d j = true -> is_waiting (j_state j) = true.
Proof. unfold overdue. by intros [? _]%andb_true_iff. Qed.

(** ** Idempotency keys *)

Definition unexpired (now : Z) (j : Job) : bool :=
  match j_idempotency_expires_at j with Some t => now <? t | None => true end.

Definition release_expired (source : string) (key : option string) (now : Z) (js : gmap string Job)
  : gmap string Job :=
  match key with
  | None => js
  | Some k => update_where (fun _ j => holds_key source k j && negb (unexpired now j))
                (assign_all [SetIdempotencyKey None; SetIdempotencyExpiresAt None]) js
  end.

Lemma holds_key_spec source key j :
  holds_key source key j = true <-> j_source j = source /\ j_idempotency_key j = Some key.
Proof. unfold holds_key. rewrite andb_true_iff, !bool_decide_eq_true. done. Qed.

(** The unique constraint: at most one row holds a key. *)
Lemma holder_unique source key js id j l :
  unique_keys js -> select_jobs (fun _ j => holds_key source key j) js = (id, j) :: l ->
  js !! id = Some j /\ holds_key source key j = true /\
  forall id' j', js !! id' = Some j' -> holds_key source key j' = true -> id' = id.
Proof.
  intros Hu Hs. assert (Hin : (id, j) ∈ select_jobs (fun _ j => holds_key source key j) js)
    by (rewrite Hs; left). apply elem_of_select in Hin as [Hj Hh]. split; [done|]. split; [done|].
  intros id' j' Hj' Hh'. apply holds_key_spec in Hh as [? ?]. apply holds_key_spec in Hh' as [? ?].
  eapply (Hu id' id j' j); eauto. congruence.
Qed.

Lemma existing_job_for_key_run source key now w :
  unique_keys (jobs w) ->
  existing_job_for_key source key now w =
  match select_jobs (fun _ j => holds_key source key j && unexpired now j) (jobs w) with
  | (id, j) :: _ => (w, Ok (Some (id, j_state j)))
  | [] => (with_jobs (release_expired source (Some key) now (jobs w)) w, Ok None)
  end.
Proof.
  intros Hu. unfold existing_job_for_key. rewrite bind_get. unfold release_expired.
  destruct (select_jobs (fun _ j => holds_key source key j) (jobs w)) as [|[id j] l] eqn:Es.
  - pose proof (proj1 (select_nil _ _) Es) as Hn.
    rewrite (proj2 (select_nil (fun _ j => holds_key source key j && unexpired now j) (jobs w))).
    + rewrite update_where_id; [by destruct w|]. intros i x Hx. by rewrite (Hn i x Hx).
    + intros i x Hx. by rewrite (Hn i x Hx).
  - destruct (holder_unique _ _ _ _ _ _ Hu Es) as (Hj & Hh & Honly).
    assert (Hlive : unexpired now j = true ->
      exists l', select_jobs (fun _ j => holds_key source key j && unexpired now j) (jobs w) = (id, j) :: l').
    { intros Hun. destruct (select_jobs (fun _ j => holds_key source key j && unexpired now j) (jobs w))
        as [|[i x] l'] eqn:E.
      - pose proof (proj1 (select_nil _ _) E id j Hj) as Hf. cbn in Hf. by rewrite Hh, Hun in Hf.
      - assert (Hin : (i, x) ∈ select_jobs (fun _ j => holds_key source key j && unexpired now j) (jobs w))
          by (rewrite E; left).
        apply elem_of_select in Hin as [Hx Hp]. apply andb_true_iff in Hp as [Hp _].
        assert (i = id) as -> by (by eapply Honly). simplify_eq. by exists l'. }
    unfold unexpired in Hlive at 1. destruct (j_idempotency_expires_at j) as [t|] eqn:Et.
    2:{ destruct (Hlive eq_refl) as [l' ->]. done. }
    destruct (Z.leb_spec t now) as [Hle|Hgt].
    2:{ destruct (Hlive (proj2 (Z.ltb_lt _ _) Hgt)) as [l' ->]. done. }
    rewrite (proj2 (select_nil (fun _ j => holds_key source key j && unexpired now j) (jobs w))).
    + rewrite prog_bind_run. unfold db_write_jobs, mret, prog_ret. cbv beta iota.
      apply (f_equal (fun js => (with_jobs js w, Ok None))), map_eq. intros i.
      rewrite !lookup_update_where. destruct (jobs w !! i) as [x|] eqn:Hx; [|done]. cbn. f_equal.
      case_bool_decide as Hi.
      * subst i. simplify_eq. unfold unexpired. rewrite Hh, Et. by rewrite (proj2 (Z.ltb_ge now t)).
      * destruct (holds_key source key x) eqn:Hhx; [|done]. exfalso. apply Hi. by eapply Honly.
    + intros i x Hx. destruct (holds_key source key x) eqn:Hhx; [|done].
      assert (i = id) as -> by (by eapply Honly). simplify_eq. unfold unexpired. rewrite Et. cbn.
      by apply Z.ltb_ge.
Qed.

(** The row holding the submission's key, if it still reserves it. *)
Definition holder (source : string) (key : option string) (now : Z) (js : gmap string Job)
  : option (string * Job) :=
  match key with
  | None => None
  | Some k => head (select_jobs (fun _ j => holds_key source k j && unexpired now j) js)
  end.

Definition full (s_source : string) (q : QueueSettings) (js : gmap string Job) : option exn :=
  if max_depth q <=? active_count None js then Some (QueueFull (active_count None js) (max_depth q))
  else if max_active_per_source q =? 0 then None
  else if max_active_per_source q <=? active_count (Some s_source) js
       then Some (QueueFull (active_count (Some s_source) js) (max_active_per_source q))
       else None.

Lemma check_capacity_run `{Wire} s q w :
  check_capacity s q w =
  (w, match full (sub_source s) q (jobs w) with Some e => Raise e | None => Ok tt end).
Proof.
  unfold check_capacity, full, guard_raise. rewrite bind_get, bind_lift.
  destruct (max_depth q <=? active_count None (jobs w)); [done|].
  destruct (max_active_per_source q =? 0); [done|]. unfold lift.
  by destruct (max_active_per_source q <=? _).
Qed.

Section enqueue_spec.
Context `{Externals} `{Wire}.
Context (s : JobSubmission) (profile : StoredTaskProfile) (prio now : Z) (q : QueueSettings)
  (max_attempts : Z) (wakeup : bool) (principal : option Principal) (turns : list Message)
  (payload : json).

Definition pinned_model (w : World) : option string :=
  match match overrides s with Some o => model o | None => None end with
  | Some c => resolve_model_id c w
  | None => None
  end.

Definition inserted (w : World) : Job :=
  new_job s profile prio now (pinned_model w) payload turns q max_attempts.

Context (Hturns : transcript s = Ok turns) (Hpayload : as_request_json s = Ok payload).

Lemma insert_queued_run w :
  let id := new_id (st_ids (ev w)) in
  insert_clash id (inserted w) (jobs w) = false ->
  let '(w', r) := insert_queued s profile prio now q max_attempts wakeup w in
  r = Ok (mkEnqueued id QUEUED true) /\ jobs w' = <[id := inserted w]> (jobs w) /\
  one_event w w' id (event_type_for QUEUED) now /\ woken w' = woken w || wakeup /\
  profiles w' = profiles w.
Proof using Hturns Hpayload.
  intros id Hc. unfold insert_queued. rewrite prog_bind_run. cbn [draw_id]. unfold draw_id.
  rewrite bind_lift, Hturns, bind_get. rewrite prog_bind_run. unfold catch_integrity.
  rewrite prog_bind_run. unfold sink_write. rewrite bind_lift, Hpayload, prog_bind_run.
  unfold insert_job at 1. rewrite bind_get. cbn [t_jobs]. fold id.
  change (jobs (with_ev _ w)) with (jobs w).
  change (resolve_model_id ?c (with_ev _ w)) with (resolve_model_id c w).
  change (new_job _ _ _ _ _ _ _ _ _) with (inserted w). rewrite Hc.
  cbn -[publish_staged inserted]. split; [done|]. split; [done|]. split; [|by split].
  unfold one_event. cbn -[publish_staged]. rewrite publish_staged_published. by eexists.
Qed.

Lemma enqueue_run w :
  authorize principal "write" = Ok principal ->
  load_task_profile (profiles w) (task s) = Ok profile ->
  base_priority (sub_job_class s) (priority s) = Ok prio ->
  unique_keys (jobs w) ->
  enqueue s now q max_attempts wakeup principal w =
  match holder (sub_source s) (sub_idempotency_key s) now (jobs w) with
  | Some (id, j) => (w, Ok (mkEnqueued id (j_state j) false))
  | None =>
      let w1 := with_jobs (release_expired (sub_source s) (sub_idempotency_key s) now (jobs w)) w in
      match full (sub_source s) q (jobs w1) with
      | Some e => (w1, Raise e)
      | None => insert_queued s profile prio now q max_attempts wakeup w1
      end
  end.
Proof.
  intros Ha Hl Hb Hu. unfold enqueue. rewrite bind_lift, Ha, bind_get, bind_lift, Hl, bind_lift, Hb.
  rewrite prog_bind_run. unfold holder, existing_by_key.
  destruct (sub_idempotency_key s) as [k|].
  - rewrite prog_bind_run. cbn [default from_option]. rewrite existing_job_for_key_run by done.
    destruct (select_jobs _ (jobs w)) as [|[id j] l]; cbn [head]; [|done].
    cbn [mret prog_ret]. rewrite prog_bind_run, check_capacity_run.
    by destruct (full (sub_source s) q _).
  - cbn [mret prog_ret release_expired]. rewrite prog_bind_run, check_capacity_run.
    replace (with_jobs (jobs w) w) with w by (by destruct w).
    by destruct (full (sub_source s) q _).
Qed.
End enqueue_spec.

(** ** Reaping, in total *)

Definition reaped (now : Z) (id : string) (j : Job) : Job :=
  if lease_expired now j
  then match reap_action now (id, j) with Some a => assign_all (ra_assign a) j | None => j end
  else j.

Definition reap_rows (now : Z) (js : gmap string Job) : list (string * Job) :=
  select_jobs (fun _ j => lease_expired now j) js.

Lemma reap_run `{Externals} now w :
  let rows := reap_rows now (jobs w) in
  reap_expired_leases now w =
  (with_ev (commit_write (run_appends (action_events (reap_action now) rows) (begin_write (ev w))) (ev w))
     (with_jobs (apply_actions (reap_action now) rows (jobs w)) w),
   Ok (mkReap (recovered_as (fun s => bool_decide (s = QUEUED)) rows)
         (recovered_as (fun s => negb (bool_decide (s = QUEUED))) rows))).
Proof.
  intros rows.
  exact (sweep_rows (fun _ => True) (reap_one now) (reap_action now) (fun _ j => lease_expired now j)
    (fun rows => mkReap (recovered_as (fun s => bool_decide (s = QUEUED)) rows)
                   (recovered_as (fun s => negb (bool_decide (s = QUEUED))) rows)) w (reap_runs now)
    (fun _ _ _ => I)).
Qed.

Lemma reap_lookup `{Externals} now w id :
  jobs (reap_expired_leases now w).1 !! id = reaped now id <$> jobs w !! id.
Proof.
  rewrite reap_run. cbn [fst jobs with_ev with_jobs]. unfold reap_rows. rewrite swept_lookup.
  by destruct (jobs w !! id).
Qed.

(** An expired lease is held by a job with a recovery target. *)
Lemma expired_target now j :
  job_ok j -> lease_expired now j = true ->
  exists target, recovery_target (j_state j) (j_idempotent j) = Some target.
Proof.
  intros (Hok & _) He. destruct (recovery_target (j_state j) (j_idempotent j)) as [t|] eqn:Et;
    [by exists t|]. apply recovery_target_None in Et. apply Hok in Et as [_ Hn].
  unfold lease_expired in He. by rewrite Hn in He.
Qed.

Definition reap_values (j : Job) (target : JobState) : list Assign :=
  if bool_decide (target = FAILED)
  then [SetErrorCode (Some "WORKER_LOST"%string);
        SetErrorText (Some ("lease held by " +:+ opt_text (j_lease_owner j) +:+ " expired")%string)]
  else [].

Lemma reaped_eq now id j target :
  lease_expired now j = true -> recovery_target (j_state j) (j_idempotent j) = Some target ->
  reaped now id j
  = assign_all (transition_assignments target now (Some (reap_reason target)) (reap_values j target)) j.
Proof. intros He Ht. unfold reaped, reap_action. cbn [fst snd]. by rewrite He, Ht. Qed.

Lemma reap_values_plain j target : Forall plain (reap_values j target).
Proof. unfold reap_values. case_bool_decide; by repeat constructor. Qed.

Lemma recovered_result target now reason values j :
  Forall plain values -> is_waiting target || is_terminal target = true ->
  let j' := assign_all (transition_assignments target now reason values) j in
  j_state j' = target /\ j_lease_owner j' = None /\ j_lease_expires_at j' = None /\
  j_attempt j' = j_attempt j /\ immutable j' = immutable j /\
  (target = QUEUED -> j_scheduled_for j' = Some now).
Proof.
  intros Hv Hw j'. destruct (transition_result target now reason values j Hv)
    as (Hs & Him & Hat & _ & _ & Hsch & Hl & _). fold j' in Hs, Him, Hat, Hsch, Hl.
  destruct (lease_pair _ _ _ Hl) as [Hn _]. destruct (Hn Hw). repeat split; try done.
  intros ->. by rewrite Hsch.
Qed.

Lemma reaped_settled now id j :
  job_ok j -> lease_expired now (reaped now id j) = false.
Proof.
  intros Hok. destruct (lease_expired now j) eqn:He; [|unfold reaped; by rewrite He].
  destruct (expired_target now j Hok He) as [target Ht]. rewrite (reaped_eq now id j target He Ht).
  destruct (recovered_result target now (Some (reap_reason target)) (reap_values j target) j)
    as (_ & _ & Hn & _); [apply reap_values_plain|by eapply recovery_target_waits|].
  unfold lease_expired. by rewrite Hn.
Qed.

(** The summary's lists. *)
Lemma elem_of_recovered p sel js id j target :
  js !! id = Some j -> sel id j = true -> recovery_target (j_state j) (j_idempotent j) = Some target ->
  id ∈ recovered_as p (select_jobs sel js) <-> p target = true.
Proof.
  intros Hj Hsel Ht. unfold recovered_as. split.
  - intros Hin. apply list_elem_of_fmap in Hin as ([i x] & Heq & Hin). cbn in Heq. subst i.
    apply list_elem_of_In, List.filter_In in Hin as [Hin Hp]. apply list_elem_of_In in Hin.
    apply elem_of_select in Hin as [Hx _]. simplify_eq. by rewrite Ht in Hp.
  - intros Hp. apply (list_elem_of_fmap_2 fst _ (id, j)), list_elem_of_In, List.filter_In.
    split; [by apply list_elem_of_In, elem_of_select|]. by rewrite Ht.
Qed.

Lemma store_ok_singleton id j : job_ok j -> store_ok {[id := j]}.
Proof.
  intros Hok. split; [by apply map_Forall_singleton|]. intros i i' a a' k Hi Hi' _ _ _.
  apply lookup_singleton_Some in Hi as [<- _]. by apply lookup_singleton_Some in Hi' as [<- _].
Qed.

(** ** Expiry, in total *)

Lemma expire_run `{Externals} `{Sql} now d w :
  let rows := select_jobs (fun _ j => overdue now d j) (jobs w) in
  expire_max_wait now d w =
  (with_ev (commit_write (run_appends (action_events (expire_action now d) rows) (begin_write (ev w))) (ev w))
     (with_jobs (apply_actions (expire_action now d) rows (jobs w)) w), Ok rows.*1).
Proof.
  intros rows.
  exact (sweep_rows _ (expire_one now d) (expire_action now d) (fun _ j => overdue now d j)
    (fun rows => rows.*1) w (expire_runs now d) (fun _ j => overdue_waiting now d j)).
Qed.

Definition expired (now d : Z) (j : Job) : Job :=
  assign_all (transition_assignments FAILED now (Some "MAX_WAIT_EXCEEDED"%string)
    [SetErrorCode (Some "MAX_WAIT_EXCEEDED"%string);
     SetErrorText (Some ("waited longer than max_wait_seconds (" +:+
                         pretty (or_int (j_max_wait_seconds j) d) +:+ ")")%string)]) j.

Lemma expire_lookup `{Externals} `{Sql} now d w id :
  jobs (expire_max_wait now d w).1 !! id
  = (fun j => if overdue now d j then expired now d j else j) <$> jobs w !! id.
Proof.
  rewrite expire_run. cbn [fst jobs with_ev with_jobs]. rewrite swept_lookup.
  by destruct (jobs w !! id).
Qed.

(** ** Inserting after the key check *)

(** Once the key's reservation is gone the insert cannot clash. *)
Lemma insert_clash_released `{Externals} `{Wire} s profile prio now q n turns payload w :
  jobs w !! new_id (st_ids (ev w)) = None ->
  holder (sub_source s) (sub_idempotency_key s) now (jobs w) = None ->
  insert_clash (new_id (st_ids (ev w)))
    (inserted s profile prio now q n turns payload
       (with_jobs (release_expired (sub_source s) (sub_idempotency_key s) now (jobs w)) w))
    (release_expired (sub_source s) (sub_idempotency_key s) now (jobs w)) = false.
Proof.
  intros Hfresh Hh. unfold insert_clash. cbn [j_idempotency_key inserted new_job j_source].
  apply orb_false_iff. split.
  - apply bool_decide_eq_false. intros [x Hx]. unfold release_expired in Hx.
    destruct (sub_idempotency_key s); [|congruence].
    rewrite lookup_update_where, Hfresh in Hx. done.
  - unfold holder in Hh. destruct (sub_idempotency_key s) as [k|]; [|done].
    apply negb_false_iff, bool_decide_eq_true, select_nil. intros i x Hx. cbn [release_expired] in Hx.
    rewrite lookup_update_where in Hx. destruct (jobs w !! i) as [y|] eqn:Hy; [|done].
    injection Hx as <-.
    destruct (holds_key (sub_source s) k y) eqn:Hk; cbn [andb]; [|done].
    destruct (unexpired now y) eqn:Hun; cbn [negb].
    + assert (Hin : (i, y) ∈ select_jobs (fun _ j => holds_key (sub_source s) k j && unexpired now j) (jobs w))
        by (apply elem_of_select; split; [done|]; by rewrite Hk, Hun).
      destruct (select_jobs _ (jobs w)); [by apply not_elem_of_nil in Hin|done].
    + unfold holds_key. cbn. apply andb_false_r.
Qed.

(** A row that reserves a key is the one a submission with that key finds. *)
Lemma holder_is source k now js id j :
  unique_keys js -> js !! id = Some j -> holds_key source k j = true -> unexpired now j = true ->
  holder source (Some k) now js = Some (id, j).
Proof.
  intros Hu Hj Hk Hun. unfold holder.
  set (p := fun (_ : string) j => holds_key source k j && unexpired now j).
  assert (Hin : (id, j) ∈ select_jobs p js) by (apply elem_of_select; unfold p; by rewrite Hk, Hun).
  destruct (select_jobs p js) as [|[i x] l] eqn:E; [by apply not_elem_of_nil in Hin|].
  assert (Hx : (i, x) ∈ select_jobs p js) by (rewrite E; left).
  apply elem_of_select in Hx as [Hx Hp]. unfold p in Hp. apply andb_true_iff in Hp as [Hkx _].
  apply holds_key_spec in Hk as [? ?]. apply holds_key_spec in Hkx as [? ?].
  assert (i = id) as -> by (eapply (Hu i id x j); eauto; congruence). cbn. congruence.
Qed.

(** ** Cancellation *)

Lemma rollback_begin w : with_ev (rollback_write (begin_write (ev w)) (ev w)) w = w.
Proof. by destruct w as [? [? [? ? ?] ?] ? ? ? ?]. Qed.

Definition cancel_assignments (target : JobState) (now : Z) : list Assign :=
  transition_assignments target now
    (Some (if bool_decide (target = CANCELLING) then "cancel_requested"
           else "GENERATION_CANCELLED")%string)
    ([SetCancelRequested true] ++
     (if bool_decide (target = CANCELLED)
      then [SetErrorCode (Some "GENERATION_CANCELLED"%string)] else [])).

Lemma cancel_target_legal s t : cancel_target s = Some t -> is_legal s t = true.
Proof. by destruct s; intros [= <-]. Qed.

Lemma cancel_target_cases s t :
  cancel_target s = Some t -> s <> CANCELLING /\ t = (if is_waiting s then CANCELLED else CANCELLING).
Proof. by destruct s; intros [= <-]. Qed.

Lemma cancel_target_None s : is_terminal s = false -> cancel_target s = None -> s = CANCELLING.
Proof. by destruct s. Qed.

Lemma cancel_job_run `{Externals} id now p w :
  authorize p "write" = Ok p ->
  match jobs w !! id with
  | None => cancel_job id now p w = (w, Raise (JobNotFound id))
  | Some j =>
      if is_terminal (j_state j)
      then cancel_job id now p w = (w, Raise (JobNotCancellable id (state_value (j_state j))))
      else match cancel_target (j_state j) with
           | None => cancel_job id now p w = (w, Ok (mkCancelOutcome id (j_state j) true))
           | Some target =>
               exists w', cancel_job id now p w = (w', Ok (mkCancelOutcome id target false)) /\
                 jobs w' = <[id := assign_all (cancel_assignments target now) j]> (jobs w) /\
                 one_event w w' id (event_type_for target) now
           end
  end.
Proof.
  intros Ha. unfold cancel_job. rewrite bind_lift, Ha. unfold sink_write. rewrite bind_get. cbn [t_jobs].
  destruct (jobs w !! id) as [j|] eqn:Hj; [|cbn -[rollback_write begin_write]; by rewrite rollback_begin].
  destruct (is_terminal (j_state j)) eqn:Ht;
    [cbn -[rollback_write begin_write]; by rewrite rollback_begin|].
  destruct (cancel_target (j_state j)) as [target|] eqn:Ec;
    [|cbn -[commit_write begin_write]; by rewrite commit_begin].
  rewrite prog_bind_run, transition_run, (cancel_target_legal _ _ Ec). cbn [t_jobs]. rewrite Hj.
  unfold cas_matches. rewrite bool_decide_true by done. cbn [andb].
  eexists. split; [reflexivity|]. split; [reflexivity|].
  unfold one_event. cbn -[publish_staged]. rewrite publish_staged_published. by eexists.
Qed.

(** The claim as its pick, its lease and its event. *)
Lemma claim_cases `{Externals} `{Wire} owner now ls a w w' r :
  claim owner now ls a w = (w', r) ->
  match pick now a (jobs w) with
  | None => w' = w /\ r = Ok None
  | Some (id, j, b) =>
      let j' := assign_all (lease_assignments owner now ls) j in
      match claimed id j' b with
      | Ok c => r = Ok (Some c) /\ jobs w' = <[id := j']> (jobs w) /\
                one_event w w' id (event_type_for LEASED) now /\
                c_job_id c = id /\ c_by_affinity c = b
      | Raise e => r = Raise e /\ unchanged w w'
      end
  end.
Proof.
  rewrite claim_body. destruct (pick now a (jobs w)) as [[[id j] b]|]; [|by intros [= <- <-]].
  cbv zeta. set (j' := assign_all (lease_assignments owner now ls) j). intros Hrun.
  pose proof (finish_claim_spec id owner now ls b j' (<[id := j']> (jobs w)) w
                (lookup_insert_eq _ _ _)) as Hf.
  rewrite Hrun in Hf. destruct (claimed id j' b) as [c|e] eqn:Ec; [|done].
  destruct Hf as (-> & Hjobs & Hev). destruct (proj1 (claimed_spec id j' b) c Ec) as [? ?]. auto.
Qed.

Lemma request_payload `{Wire} s : (exists turns, transcript s = Ok turns) ->
  exists payload, as_request_json s = Ok payload.
Proof. intros [turns Ht]. unfold as_request_json. rewrite Ht, bind_Ok. by eexists. Qed.

(** A concrete dialect: exact whole seconds. *)
Definition sample_sql : Sql := {|
  dialect := Sqlite;
  waiting_seconds := fun now queued => (now - queued) / 1000000 * fone
|}.

Definition sample_settings : QueueSettings :=
  mkSettings 1000 200 60 3600 fone 100 (24 * fone).

Definition two_queued : World :=
  sample_world {["a" := sample_job QUEUED None None 400 7; "b" := sample_job QUEUED None None 500 9]}%string.

Definition submit_world : World := sample_world ∅.

(** ** Properties *)

Lemma not_expired now j : lease_expired now j = false <-> ~ lease_ran_out now j.
Proof. apply reflects_false, lease_expired_ran_out. Qed.

Lemma not_overdue `{Sql} now d j : overdue now d j = false <-> ~ waited_out now d j.
Proof. apply reflects_false, overdue_waited_out. Qed.

Module Properties.

(** The claim takes the right job, and only that. When it returns a job, that
    job was eligible (queued, its [scheduled_for] passed), no eligible job has a higher effective
    priority, and among the eligible jobs of that priority it is the oldest (with affinity: the
    oldest whose selected model is resident); exactly that row becomes [leased] under the owner
    until [now + lease_seconds] with [attempt] and its identity untouched, and one event is stored.
    It returns [None] exactly when nothing is eligible.  If it raises, the transaction left no
    trace, and the row it would have taken could not be turned into a claim. *)
Theorem claim_takes_the_head `{Externals} `{Wire} (owner : string) (now ls : Z)
    (a : option AffinityHint) (w w' : World) (r : result (option ClaimedJob)) :
  claim owner now ls a w = (w', r) ->
  match r with
  | Ok (Some c) =>
      exists j j', jobs w !! c_job_id c = Some j /\ due now j /\
        (c_by_affinity c = true -> resident_selected a j = true) /\
        (forall id2 j2, jobs w !! id2 = Some j2 -> due now j2 ->
           j_effective_priority j2 <= j_effective_priority j /\
           (j_effective_priority j2 = j_effective_priority j ->
            c_by_affinity c = false \/ resident_selected a j2 = true ->
            j_created_at j <= j_created_at j2)) /\
        jobs w' = <[c_job_id c := j']> (jobs w) /\
        j_state j' = LEASED /\ j_lease_owner j' = Some owner /\
        j_lease_expires_at j' = Some (now + 1000000 * ls) /\
        j_attempt j' = j_attempt j /\ immutable j' = immutable j /\
        one_event w w' (c_job_id c) "job.leased" now
  | Ok None => w' = w /\ forall id j, jobs w !! id = Some j -> ~ due now j
  | Raise e =>
      unchanged w w' /\
      exists id j b, pick now a (jobs w) = Some (id, j, b) /\
        claimed id (assign_all (lease_assignments owner now ls) j) b = Raise e
  end.
Proof.
  intros Hc. apply claim_cases in Hc. destruct (pick now a (jobs w)) as [[[id j] b]|] eqn:Ep.
  2:{ destruct Hc as [-> ->]. split; [done|]. intros id j Hj.
    rewrite <- eligible_due, (proj1 (pick_None _ _ _) Ep id j Hj). done. }
  cbv zeta in Hc. destruct (claimed id _ b) as [c|e] eqn:Ec.
  - destruct Hc as (-> & Hjobs & Hev & -> & ->).
    apply pick_spec in Ep as (Hj & He & Haff & Hmax). exists j, (assign_all (lease_assignments owner now ls) j).
    split; [done|]. split; [by apply eligible_due|]. split; [intros Hb; by apply Haff|].
    split; [intros id2 j2 H2 He2%eligible_due; by apply (Hmax id2 j2)|]. by repeat split.
  - destruct Hc as [-> Hun]. split; [done|]. by exists id, j, b.
Qed.

Lemma claim_takes_the_head_witness :
  let w' := (@claim sample_externals sample_wire "w/1" 10 60 None two_queued).1 in
  exists j', jobs w' !! "b"%string = Some j' /\ j_lease_owner j' = Some "w/1"%string.
Proof.
  destruct (@claim sample_externals sample_wire "w/1" 10 60 None two_queued) as [w' r] eqn:E.
  pose proof (@claim_takes_the_head sample_externals sample_wire "w/1" 10 60 None two_queued w' r E) as H.
  assert (Hr : exists c, r = Ok (Some c) /\ c_job_id c = "b"%string).
  { vm_compute in E. injection E as _ <-. eexists. split; reflexivity. }
  destruct Hr as (c & -> & Hid). destruct H as (j & j' & _ & _ & _ & _ & Hjobs & _ & Ho & _).
  exists j'. cbn [fst]. rewrite Hjobs, Hid, lookup_insert_eq. by split.
Defined.


Definition got_job {A} (r : result (option A)) : bool :=
  match r with Ok (Some _) => true | _ => false end.




(** C14: Lease reaping never raises and recovers exactly the expired leases. Each
    row whose lease has expired moves to its recovery target: an idempotent one back to [queued],
    due now, with [attempt] untouched; a non-idempotent one to [failed] with [WORKER_LOST]; a
    [cancelling] one to [cancelled]; in every case it holds no lease any more.  All other rows are
    untouched, the summary lists exactly the recovered ids, no expired lease is left, and reaping
    again at the same instant changes nothing. *)
Theorem reap_recovers_expired `{Externals} (now : Z) (w : World) :
  store_ok (jobs w) ->
  exists w' s, reap_expired_leases now w = (w', Ok s) /\
    (forall id j, jobs w !! id = Some j -> ~ lease_ran_out now j -> jobs w' !! id = Some j) /\
    (forall id j, jobs w !! id = Some j -> lease_ran_out now j ->
       exists j' target, jobs w' !! id = Some j' /\
         recovery_target (j_state j) (j_idempotent j) = Some target /\ j_state j' = target /\
         j_lease_owner j' = None /\ j_lease_expires_at j' = None /\
         j_attempt j' = j_attempt j /\ immutable j' = immutable j /\
         (target = QUEUED -> j_scheduled_for j' = Some now) /\
         (target = FAILED -> j_error_code j' = Some "WORKER_LOST"%string) /\
         (id ∈ requeued s <-> target = QUEUED) /\ (id ∈ failed s <-> target <> QUEUED)) /\
    (forall id, jobs w' !! id = None <-> jobs w !! id = None) /\
    (forall id j, jobs w' !! id = Some j -> ~ lease_ran_out now j) /\
    reap_expired_leases now w' = (w', Ok (mkReap [] [])).
Proof.
  intros Hst. eexists (reap_expired_leases now w).1, _.
  split; [rewrite reap_run at 1 2; reflexivity|].
  assert (Hl : forall id, jobs (reap_expired_leases now w).1 !! id = reaped now id <$> jobs w !! id)
    by (intros id; apply reap_lookup).
  split; [intros id j Hj He%not_expired; rewrite Hl, Hj; cbn; unfold reaped; by rewrite He|]. split.
  - intros id j Hj He%lease_expired_ran_out. rewrite Hl, Hj.
    destruct (expired_target now j (proj1 Hst id j Hj) He) as [target Ht].
    exists (reaped now id j), target. split; [done|]. split; [done|].
    rewrite (reaped_eq now id j target He Ht).
    destruct (recovered_result target now (Some (reap_reason target)) (reap_values j target) j)
      as (H1 & H2 & H3 & H4 & H5 & H6); [apply reap_values_plain|by eapply recovery_target_waits|].
    do 6 (split; [done|]). split; [by intros ->|]. cbn [requeued failed]. unfold reap_rows.
    rewrite !(elem_of_recovered _ _ _ id j target) by done.
    by rewrite negb_true_iff, bool_decide_eq_true, bool_decide_eq_false.
  - split; [intros id; rewrite Hl; by destruct (jobs w !! id)|].
    assert (Hno : forall id j, jobs (reap_expired_leases now w).1 !! id = Some j ->
                    lease_expired now j = false).
    { intros id j. rewrite reap_lookup. destruct (jobs w !! id) as [x|] eqn:Hx; [|done].
      intros [= <-]. apply reaped_settled. by apply (proj1 Hst id). }
    split; [intros id j Hj; by apply not_expired, (Hno id)|]. rewrite (reap_run now (reap_expired_leases now w).1). unfold reap_rows.
    rewrite (proj2 (select_nil _ _) Hno). unfold apply_actions, action_events, recovered_as. cbn [fold_left].
    cbn [omap list_omap run_appends fold_left]. by rewrite commit_begin.
Qed.

Lemma reap_recovers_expired_witness :
  let w := sample_world {["a" := sample_job EXECUTING (Some "w/1") (Some 5) 400 0]}%string in
  exists w' s, @reap_expired_leases sample_externals 9 w = (w', Ok s) /\ "a"%string ∈ requeued s.
Proof.
  intros w. assert (Hst : store_ok (jobs w)).
  { apply store_ok_singleton. split; [done|]. split; [done|]. split; intros _; by eexists. }
  destruct (@reap_recovers_expired sample_externals 9 w Hst) as (w' & s & Hr & _ & Hexp & _).
  exists w', s. split; [exact Hr|].
  destruct (Hexp "a"%string _ (lookup_singleton_eq _ _)
    (ex_intro _ 5 (conj eq_refl eq_refl)))
    as (j' & target & _ & Ht & _ & _ & _ & _ & _ & _ & _ & Hq & _).
  apply Hq. vm_compute in Ht. congruence.
Defined.

(** The absolute wait bound: exactly the waiting rows whose wait, by the
    database's clock arithmetic, exceeds their own bound (or the default where they have none) fail
    with [MAX_WAIT_EXCEEDED], stamped now and holding no lease; their ids are returned; every other
    row is untouched; it never raises; and a second pass at the same instant fails nothing more. *)
Theorem max_wait_enforced `{Externals} `{Sql} (now d : Z) (w : World) :
  exists w' ids, expire_max_wait now d w = (w', Ok ids) /\
    (forall id j, jobs w !! id = Some j -> ~ waited_out now d j -> jobs w' !! id = Some j) /\
    (forall id j, jobs w !! id = Some j -> waited_out now d j ->
       exists j', jobs w' !! id = Some j' /\ j_state j' = FAILED /\
         j_error_code j' = Some "MAX_WAIT_EXCEEDED"%string /\ j_completed_at j' = Some now /\
         j_lease_owner j' = None /\ j_lease_expires_at j' = None /\
         j_attempt j' = j_attempt j /\ immutable j' = immutable j) /\
    (forall id, id ∈ ids <-> exists j, jobs w !! id = Some j /\ waited_out now d j) /\
    expire_max_wait now d w' = (w', Ok []).
Proof.
  eexists (expire_max_wait now d w).1, _. split; [rewrite expire_run at 1 2; reflexivity|].
  split; [intros id j Hj Ho%not_overdue; rewrite expire_lookup, Hj; cbn; by rewrite Ho|]. split; [|split].
  - intros id j Hj Ho%overdue_waited_out. eexists. rewrite expire_lookup, Hj. cbn. rewrite Ho.
    split; [reflexivity|]. by repeat split.
  - intros id. split.
    + intros Hin. apply list_elem_of_fmap in Hin as ([i j] & -> & Hin).
      apply elem_of_select in Hin as [? ?%overdue_waited_out]. by exists j.
    + intros (j & Hj & Ho%overdue_waited_out). by apply (list_elem_of_fmap_2 fst _ (id, j)), elem_of_select.
  - assert (Hno : forall id j, jobs (expire_max_wait now d w).1 !! id = Some j -> overdue now d j = false).
    { intros id j. rewrite expire_lookup. destruct (jobs w !! id) as [x|]; [|done]. intros [= <-].
      cbn. destruct (overdue now d x) eqn:Ho; done. }
    rewrite (expire_run now d (expire_max_wait now d w).1), (proj2 (select_nil _ _) Hno).
    unfold apply_actions, action_events. cbn [fold_left omap list_omap run_appends]. cbn [fmap list_fmap].
    by rewrite commit_begin.
Qed.

(** C13: Enqueueing, on every branch after authorization, task profile and
    priority are accepted. While the submission's key reserves a job, that job is returned and
    nothing changes, whatever the queue's depth. Otherwise an expired reservation is released, and
    then: at [max_depth] active jobs, or at the source's cap, it raises [QueueFull] and inserts
    nothing; else exactly one row, in [queued] at its base priority, is inserted with its event and
    the workers are woken. *)
Theorem enqueue_outcomes `{Externals} `{Wire} (s : JobSubmission) (profile : StoredTaskProfile)
    (prio now : Z) (q : QueueSettings) (n : Z) (wk : bool) (p : option Principal)
    (turns : list Message) (payload : json) (w : World) :
  authorize p "write" = Ok p ->
  load_task_profile (profiles w) (task s) = Ok profile ->
  base_priority (sub_job_class s) (priority s) = Ok prio ->
  transcript s = Ok turns -> as_request_json s = Ok payload ->
  unique_keys (jobs w) -> jobs w !! new_id (st_ids (ev w)) = None ->
  let '(w', r) := enqueue s now q n wk p w in
  let js := release_expired (sub_source s) (sub_idempotency_key s) now (jobs w) in
  match holder (sub_source s) (sub_idempotency_key s) now (jobs w) with
  | Some (id, j) => w' = w /\ r = Ok (mkEnqueued id (j_state j) false)
  | None =>
      match full (sub_source s) q js with
      | Some e => w' = with_jobs js w /\ r = Raise e
      | None =>
          let id := new_id (st_ids (ev w)) in
          r = Ok (mkEnqueued id QUEUED true) /\ jobs w' = <[id := inserted s profile prio now q n turns payload w]> js /\
          one_event w w' id "job.queued" now /\ woken w' = woken w || wk
      end
  end.
Proof.
  intros Ha Hl Hb Ht Hp Hu Hfresh.
  rewrite (enqueue_run s profile prio now q n wk p w Ha Hl Hb Hu).
  destruct (holder _ _ now (jobs w)) as [[id j]|] eqn:Eh; [done|]. cbv zeta. cbn [jobs with_jobs].
  destruct (full (sub_source s) q _) as [e|]; [done|].
  set (w1 := with_jobs (release_expired (sub_source s) (sub_idempotency_key s) now (jobs w)) w).
  pose proof (insert_queued_run s profile prio now q n wk turns payload Ht Hp w1) as Hi.
  cbv zeta in Hi. change (ev w1) with (ev w) in Hi.
  specialize (Hi (insert_clash_released s profile prio now q n turns payload w Hfresh Eh)).
  destruct (insert_queued s profile prio now q n wk w1) as [w' r].
  destruct Hi as (? & ? & ? & ? & _). by repeat split.
Qed.

Lemma enqueue_outcomes_witness :
  exists w', @enqueue sample_externals sample_wire sample_submission 5 sample_settings 3 true (Some LOCAL)
               submit_world = (w', Ok (mkEnqueued "0" QUEUED true)).
Proof.
  destruct (@request_payload sample_wire sample_submission) as [payload Hp]; [eexists; reflexivity|].
  pose proof (@enqueue_outcomes sample_externals sample_wire sample_submission (mkProfile "chat" "1" true)
    400 5 sample_settings 3 true (Some LOCAL)
    [("system", "be brief", None, []); ("user", "hello", None, [])]%string payload submit_world
    eq_refl eq_refl eq_refl eq_refl Hp) as H.
  destruct (@enqueue sample_externals sample_wire sample_submission 5 sample_settings 3 true (Some LOCAL)
              submit_world) as [w' r].
  exists w'. destruct H as [-> _]; [intros ? ? ? ? ? Hi; done|reflexivity|reflexivity].
Defined.

(** A retried submission is safe: once a submission with an idempotency key has
    been queued, submitting it again before the reservation lapses, even when the queue has filled
    up or its settings have changed meanwhile, returns the same job and changes nothing. *)
Theorem retry_returns_same_job `{Externals} `{Wire} (s : JobSubmission) (profile : StoredTaskProfile)
    (prio now now' : Z) (q q' : QueueSettings) (n n' : Z) (wk wk' : bool) (p : option Principal)
    (turns : list Message) (payload : json) (k : string) (w w1 : World) :
  authorize p "write" = Ok p ->
  load_task_profile (profiles w) (task s) = Ok profile ->
  base_priority (sub_job_class s) (priority s) = Ok prio ->
  transcript s = Ok turns -> as_request_json s = Ok payload ->
  store_ok (jobs w) -> jobs w !! new_id (st_ids (ev w)) = None ->
  sub_idempotency_key s = Some k ->
  enqueue s now q n wk p w = (w1, Ok (mkEnqueued (new_id (st_ids (ev w))) QUEUED true)) ->
  now' < now + timedelta_hours_us (idempotency_ttl_hours q) ->
  enqueue s now' q' n' wk' p w1 = (w1, Ok (mkEnqueued (new_id (st_ids (ev w))) QUEUED false)).
Proof.
  intros Ha Hl Hb Ht Hp Hst Hfresh Hk He Hnow.
  pose proof (proj1 (good_enqueue s now q n wk p w)) as Hst1. rewrite He in Hst1.
  specialize (Hst1 Hst). cbn [fst] in Hst1.
  rewrite (enqueue_run s profile prio now q n wk p w Ha Hl Hb (proj2 Hst)) in He.
  destruct (holder _ _ now (jobs w)) as [[id j]|] eqn:Eh; [by injection He|]. cbv zeta in He.
  destruct (full (sub_source s) q _) as [e|]; [done|].
  set (w0 := with_jobs (release_expired (sub_source s) (sub_idempotency_key s) now (jobs w)) w) in He.
  pose proof (insert_queued_run s profile prio now q n wk turns payload Ht Hp w0) as Hi.
  cbv zeta in Hi. rewrite He in Hi. change (ev w0) with (ev w) in Hi.
  destruct (Hi (insert_clash_released s profile prio now q n turns payload w Hfresh Eh))
    as (_ & Hjobs & _ & _ & Hprof).
  assert (Hnew : jobs w1 !! new_id (st_ids (ev w)) = Some (inserted s profile prio now q n turns payload w0))
    by (by rewrite Hjobs, lookup_insert_eq).
  rewrite (enqueue_run s profile prio now' q' n' wk' p w1 Ha); [|by rewrite Hprof|done|apply Hst1].
  rewrite Hk, (holder_is _ _ _ _ _ _ (proj2 Hst1) Hnew); [done| |].
  - apply holds_key_spec. cbn. by rewrite Hk.
  - unfold unexpired. cbn. rewrite Hk. by apply Z.ltb_lt.
Qed.

Lemma retry_returns_same_job_witness :
  let first := @enqueue sample_externals sample_wire sample_submission 5 sample_settings 3 true (Some LOCAL)
                 submit_world in
  @enqueue sample_externals sample_wire sample_submission 6 sample_settings 3 true (Some LOCAL) first.1
  = (first.1, Ok (mkEnqueued "0" QUEUED false)).
Proof.
  destruct (@request_payload sample_wire sample_submission) as [payload Hp]; [eexists; reflexivity|].
  apply (@retry_returns_same_job sample_externals sample_wire sample_submission (mkProfile "chat" "1" true)
    400 5 6 sample_settings sample_settings 3 3 true true (Some LOCAL)
    [("system", "be brief", None, []); ("user", "hello", None, [])]%string payload "key"%string
    submit_world); try reflexivity.
  - exact Hp.
  - split; [apply map_Forall_empty|]. intros ? ? ? ? ? Hi. done.
Defined.

(** A cancel request, on every branch: an unknown job and a terminal one are
    refused with the world unchanged; a waiting job is [cancelled] at once, stamped and coded; a job
    a worker holds moves to [cancelling] with the flag set and its lease kept; a job already
    [cancelling] is reported as such and nothing changes. *)
Theorem cancel_outcomes `{Externals} (id : string) (now : Z) (p : option Principal) (w w' : World)
    (r : result CancelOutcome) :
  cancel_job id now p w = (w', r) ->
  match authorize p "write" with
  | Raise e => w' = w /\ r = Raise e
  | Ok _ =>
      match jobs w !! id with
      | None => w' = w /\ r = Raise (JobNotFound id)
      | Some j =>
          if is_terminal (j_state j)
          then w' = w /\ r = Raise (JobNotCancellable id (state_value (j_state j)))
          else if bool_decide (j_state j = CANCELLING)
          then w' = w /\ r = Ok (mkCancelOutcome id CANCELLING true)
          else exists j' target, jobs w' = <[id := j']> (jobs w) /\ r = Ok (mkCancelOutcome id target false) /\
            j_state j' = target /\ j_cancel_requested j' = true /\ j_attempt j' = j_attempt j /\
            one_event w w' id (event_type_for target) now /\
            if is_waiting (j_state j)
            then target = CANCELLED /\ j_completed_at j' = Some now /\
                 j_error_code j' = Some "GENERATION_CANCELLED"%string
            else target = CANCELLING /\ j_lease_owner j' = j_lease_owner j /\
                 j_lease_expires_at j' = j_lease_expires_at j
      end
  end.
Proof.
  intros Hc. destruct (authorize p "write") as [p'|e] eqn:Ha.
  2:{ unfold cancel_job in Hc. rewrite bind_lift, Ha in Hc. by injection Hc as <- <-. }
  assert (p' = p) as ->.
  { unfold authorize in Ha. case_bool_decide; [|done]. cbn in Ha. destruct p as [x|]; [|congruence].
    destruct (grants x "write"); congruence. }
  pose proof (cancel_job_run id now p w Ha) as Hr. rewrite Hc in Hr.
  destruct (jobs w !! id) as [j|] eqn:Hj; [|by injection Hr as <- <-].
  destruct (is_terminal (j_state j)) eqn:Ht; [by injection Hr as <- <-|].
  destruct (cancel_target (j_state j)) as [target|] eqn:Et.
  - destruct (cancel_target_cases _ _ Et) as (Hne & Hcase). rewrite bool_decide_false by done.
    destruct Hr as (w1 & [= -> ->] & Hjobs & Hev). exists (assign_all (cancel_assignments target now) j), target.
    split; [exact Hjobs|]. split; [done|].
    destruct (is_waiting (j_state j)); subst target; by repeat split.
  - rewrite (cancel_target_None _ Ht Et) in Hr |- *. rewrite bool_decide_true by done.
    by injection Hr as <- <-.
Qed.

Lemma cancel_outcomes_witness :
  let w := sample_world {["a" := sample_job EXECUTING (Some "w/1") (Some 60) 400 0]}%string in
  exists j', jobs (@cancel_job sample_externals "a" 5 None w).1 !! "a"%string = Some j' /\
             j_state j' = CANCELLING.
Proof.
  intros w. destruct (@cancel_job sample_externals "a" 5 None w) as [w' r] eqn:E.
  pose proof (@cancel_outcomes sample_externals "a" 5 None w w' r E) as H. cbn in H.
  destruct H as (j' & target & Hjobs & _ & Hs & _ & _ & _ & Ht & _). exists j'. cbn [fst].
  rewrite Hjobs, lookup_insert_eq. split; [reflexivity|]. congruence.
Defined.

End Properties.
