(* ===== verification/Recovery.v ===== *)
(** * Startup recovery ([services/recovery.py])

    One pass over the jobs a dead process left in flight, then the scheduler's re-evaluation (a
    callback of the caller) and the ageing sweep. *)

From S2P Require Import Prelude PyFloat Json QueueState Priority JobEvents Submission QueueStore Queue QueueTheory.
#[local] Open Scope Z_scope.

Record RecoverySummary := mkRecovery {
  rs_requeued : list string;
  rs_failed : list string;
  rs_cancelled : list string;
  rs_reevaluated : list string;
  rs_aged : Z
}.

Definition touched (s : RecoverySummary) : Z :=
  Z.of_nat (length (rs_requeued s) + length (rs_failed s) + length (rs_cancelled s)
            + length (rs_reevaluated s)).

(** [owner is not None and owner.startswith(f"{owner_prefix}/")]. *)
Definition ours (owner_prefix : string) (j : Job) : bool :=
  match j_lease_owner j with
  | Some owner => String.prefix (owner_prefix +:+ "/") owner
  | None => false
  end.

(** The rows the loop does not skip. *)
Definition orphaned (owner_prefix : string) (j : Job) : bool :=
  bool_decide (j_state j ∈ LEASE_HOLDING_STATES ++ [CANCELLING]) && negb (ours owner_prefix j).

Definition recover_reason (target : JobState) : string :=
  if bool_decide (target = CANCELLED) then "recovered_cancelling"
  else if bool_decide (target = QUEUED) then "recovered" else "worker_lost".

Definition recover_values (j : Job) (target : JobState) : list Assign :=
  if bool_decide (target = FAILED)
  then [SetErrorCode (Some "WORKER_LOST");
        SetErrorText (Some ("recovered at startup from " +:+ state_value (j_state j) +:+
                            "; lease held by " +:+ opt_text (j_lease_owner j)))]%string
  else if bool_decide (target = CANCELLED) then [SetErrorCode (Some "GENERATION_CANCELLED"%string)]
  else [].

Definition recover_one `{Externals} (now : Z) (row : string * Job) : prog Tx unit :=
  let '(id, j) := row in
  match recovery_target (j_state j) (j_idempotent j) with
  | None => mret tt
  | Some target =>
      _ ← transition id (j_state j) target now None (Some (recover_reason target))
            (recover_values j target);
      append_event id (event_type_for target) now
        (Some ("startup recovery: " +:+ state_value (j_state j) +:+ " -> " +:+ state_value target
               +:+ " (lease held by " +:+ opt_text (j_lease_owner j) +:+ ")"))
        [("reason", JStr (recover_reason target));
         ("previous_state", JStr (state_value (j_state j)));
         ("lease_owner", jopt_str (j_lease_owner j))]
  end%string.

Definition recover_jobs `{Externals} (now : Z) (owner_prefix : string)
  : prog World (list string * list string * list string) :=
  sink_write (
    t ← get;
    let rows := select_jobs (fun _ j => orphaned owner_prefix j) (t_jobs t) in
    _ ← for_each (recover_one now) rows;
    mret (recovered_as (fun s => bool_decide (s = QUEUED)) rows,
          recovered_as (fun s => negb (bool_decide (s = QUEUED)) && negb (bool_decide (s = CANCELLED))) rows,
          recovered_as (fun s => bool_decide (s = CANCELLED)) rows)).

Definition recover `{Externals} `{Sql} (now : Z) (owner_prefix : string) (q : QueueSettings)
    (reevaluate : option (Z -> prog World (list string))) : prog World RecoverySummary :=
  buckets ← recover_jobs now owner_prefix;
  reevaluated ← (match reevaluate with Some f => f now | None => mret [] end);
  aged ← ageing_sweep now q;
  mret (mkRecovery buckets.1.1 buckets.1.2 buckets.2 reevaluated aged).

(** ** Lemmas *)

Definition recover_action (now : Z) (row : string * Job) : option RowAction :=
  (fun target => mkAction target
     (transition_assignments target now (Some (recover_reason target)) (recover_values row.2 target))
     (mkAppend row.1 (event_type_for target) now
        (Some ("startup recovery: " +:+ state_value (j_state row.2) +:+ " -> " +:+ state_value target
               +:+ " (lease held by " +:+ opt_text (j_lease_owner row.2) +:+ ")"))
        [("reason", JStr (recover_reason target));
         ("previous_state", JStr (state_value (j_state row.2)));
         ("lease_owner", jopt_str (j_lease_owner row.2))]))%string
  <$> recovery_target (j_state row.2) (j_idempotent row.2).

Lemma recover_runs `{Externals} now : runs_action (fun _ => True) (recover_one now) (recover_action now).
Proof.
  intros id j t _ Hj. unfold recover_one, recover_action. cbn [fst snd].
  destruct (recovery_target (j_state j) (j_idempotent j)) as [target|] eqn:Et; [|done].
  cbn [fmap option_fmap option_map ra_assign ra_append]. apply transition_action; [done|].
  by eapply recovery_target_legal.
Qed.

Definition recover_buckets (rows : list (string * Job)) : list string * list string * list string :=
  (recovered_as (fun s => bool_decide (s = QUEUED)) rows,
   recovered_as (fun s => negb (bool_decide (s = QUEUED)) && negb (bool_decide (s = CANCELLED))) rows,
   recovered_as (fun s => bool_decide (s = CANCELLED)) rows).

Lemma recover_jobs_run `{Externals} now prefix w :
  let rows := select_jobs (fun _ j => orphaned prefix j) (jobs w) in
  recover_jobs now prefix w =
  (with_ev (commit_write (run_appends (action_events (recover_action now) rows) (begin_write (ev w))) (ev w))
     (with_jobs (apply_actions (recover_action now) rows (jobs w)) w), Ok (recover_buckets rows)).
Proof.
  intros rows.
  exact (sweep_rows (fun _ => True) (recover_one now) (recover_action now)
    (fun _ j => orphaned prefix j) recover_buckets w (recover_runs now) (fun _ _ _ => I)).
Qed.

(** An orphan always has a recovery target. *)
Lemma orphaned_target prefix j :
  orphaned prefix j = true -> exists target, recovery_target (j_state j) (j_idempotent j) = Some target.
Proof.
  unfold orphaned. intros [Hs _]%andb_true_iff.
  destruct (recovery_target (j_state j) (j_idempotent j)) as [t|] eqn:Et; [by exists t|].
  exfalso. apply recovery_target_None in Et. revert Hs Et. by destruct (j_state j).
Qed.

Definition recovered (now : Z) (prefix : string) (j : Job) : Job :=
  if orphaned prefix j
  then match recovery_target (j_state j) (j_idempotent j) with
       | Some target => assign_all (transition_assignments target now (Some (recover_reason target))
                                      (recover_values j target)) j
       | None => j
       end
  else j.

Lemma recover_jobs_lookup `{Externals} now prefix w id :
  jobs (recover_jobs now prefix w).1 !! id = recovered now prefix <$> jobs w !! id.
Proof.
  rewrite recover_jobs_run. cbn [fst jobs with_ev with_jobs]. rewrite swept_lookup.
  destruct (jobs w !! id) as [j|]; [|done]. cbn. unfold recovered, recover_action. cbn [fst snd].
  destruct (orphaned prefix j); [|done]. by destruct (recovery_target _ _).
Qed.

Lemma recover_values_plain j target : Forall plain (recover_values j target).
Proof. unfold recover_values. repeat case_bool_decide; by repeat constructor. Qed.

Lemma recovered_settled now prefix j : orphaned prefix (recovered now prefix j) = false.
Proof.
  destruct (orphaned prefix j) eqn:Ho; [|unfold recovered; by rewrite Ho].
  destruct (orphaned_target prefix j Ho) as [target Ht].
  unfold recovered. rewrite Ho, Ht.
  destruct (recovered_result target now (Some (recover_reason target)) (recover_values j target) j)
    as (Hs & _); [apply recover_values_plain|by eapply recovery_target_waits|].
  unfold orphaned. rewrite Hs. apply recovery_target_waits in Ht. by destruct target.
Qed.

Lemma recover_run `{Externals} `{Sql} now prefix q w :
  recover now prefix q None w =
  let w1 := (recover_jobs now prefix w).1 in
  let rows := select_jobs (fun _ j => orphaned prefix j) (jobs w) in
  ((ageing_sweep now q w1).1,
   Ok (mkRecovery (recover_buckets rows).1.1 (recover_buckets rows).1.2 (recover_buckets rows).2 []
         (Z.of_nat (length (select_jobs (fun _ j => sweep_changes now q j) (jobs w1)))))).
Proof.
  cbv zeta. unfold recover. rewrite prog_bind_run, recover_jobs_run. cbn [fst].
  rewrite bind_ret, prog_bind_run, ageing_sweep_run. reflexivity.
Qed.

(** Where a row is after the whole pass. *)
Lemma recover_lookup `{Externals} `{Sql} now prefix q w id :
  jobs (recover now prefix q None w).1 !! id
  = (fun j => swept now q (recovered now prefix j)) <$> jobs w !! id.
Proof.
  rewrite recover_run. cbn [fst]. rewrite sweep_lookup, recover_jobs_lookup.
  by destruct (jobs w !! id).
Qed.

Lemma orphaned_swept `{Sql} now q prefix j : orphaned prefix (swept now q j) = orphaned prefix j.
Proof. unfold swept. by destruct (is_waiting (j_state j)). Qed.

(** ** A recovered synchronous execution *)

(** A reservation that created its row stored exactly [sync_job]. *)
Lemma reserve_created `{Externals} `{Wire} r now ttl w w1 id :
  reserve_sync_job r now ttl w = (w1, Ok (mkReserved id true EXECUTING)) ->
  exists profile, jobs w1 !! id = Some (sync_job r profile now ttl).
Proof.
  unfold reserve_sync_job. rewrite bind_get, bind_lift.
  destruct (load_task_profile (profiles w) (g_task r)) as [profile|]; [|done].
  rewrite prog_bind_run.
  match goal with |- match ?m with (_, _) => _ end = _ -> _ => destruct m as [w2 [[[i st]|]|]] end;
    [done| |done].
  rewrite prog_bind_run. unfold draw_id at 1. rewrite prog_bind_run. unfold catch_integrity.
  rewrite prog_bind_run. unfold db_insert. set (w3 := with_ev _ w2). set (jid := new_id _).
  destruct (insert_clash jid (sync_job r profile now ttl) (jobs w3)) eqn:Hc.
  - rewrite prog_bind_run. destruct (existing_job_for_key _ _ _ w3) as [w4 [[[? ?]|]|]]; done.
  - cbn. intros [= <- <-]. exists profile. apply lookup_insert_eq.
Qed.

(** The row after the crash: queued, due, at the top of the interactive band, and never enqueued. *)
Definition stuck (now : Z) (j : Job) : Prop :=
  j_state j = QUEUED /\ j_effective_priority j = 800 /\ j_scheduled_for j = Some now /\
  j_queued_at j = None.

Lemma recovered_sync_job `{Externals} `{Wire} `{Sql} r profile k now now1 ttl prefix q :
  g_idempotency_key r = Some k -> 0 <= overflow_allowance q ->
  stuck now1 (swept now1 q (recovered now1 prefix (sync_job r profile now ttl))).
Proof.
  intros Hk Hov. unfold recovered, orphaned, ours. cbn [j_lease_owner sync_job j_state j_idempotent].
  rewrite Hk. change (bool_decide (EXECUTING ∈ _) && negb false) with true. cbv iota.
  cbn [recovery_target]. change (recovery_target EXECUTING true) with (Some QUEUED). cbv iota.
  set (j1 := assign_all _ _). unfold swept. change (is_waiting (j_state j1)) with true. cbv iota.
  assert (Hf : default (j_effective_priority j1) (fresh_priority now1 q j1) = 800).
  { unfold fresh_priority. change (j_queued_at j1) with (@None Z). cbn [fmap option_fmap option_map].
    unfold sql_non_negative. destruct dialect; cbn [fmap option_fmap option_map default from_option].
    - reflexivity.
    - change (Z.min (800 + 0) (999 + overflow_allowance q) = 800). lia. }
  rewrite Hf. by repeat split.
Qed.

(** Workers polling one after another. *)
Record ClaimCall := mkCall { cc_owner : string; cc_now : Z; cc_lease : Z; cc_affinity : option AffinityHint }.

Fixpoint run_claims `{Externals} `{Wire} (calls : list ClaimCall) (w : World)
  : World * list (result (option ClaimedJob)) :=
  match calls with
  | [] => (w, [])
  | c :: calls' =>
      let '(w1, r) := claim (cc_owner c) (cc_now c) (cc_lease c) (cc_affinity c) w in
      let '(w2, rs) := run_claims calls' w1 in (w2, r :: rs)
  end.

(** A stuck row ahead of every other queued job makes every claim raise and roll back. *)
Lemma stuck_blocks_claim `{Externals} `{Wire} c now1 id j w :
  jobs w !! id = Some j -> stuck now1 j -> now1 <= cc_now c ->
  (forall id2 j2, jobs w !! id2 = Some j2 -> id2 <> id -> j_state j2 = QUEUED -> j_effective_priority j2 < 800) ->
  let '(w', r) := claim (cc_owner c) (cc_now c) (cc_lease c) (cc_affinity c) w in
  r = Raise AssertionError /\ unchanged w w'.
Proof.
  intros Hj (Hs & Hp & Hsch & Hq) Hn Hothers.
  assert (He : eligible (cc_now c) j = true).
  { unfold eligible. rewrite Hs, Hsch. by apply andb_true_iff; split; [|apply Z.leb_le]. }
  destruct (claim _ _ _ _ w) as [w' r] eqn:E. apply claim_cases in E.
  destruct (pick (cc_now c) (cc_affinity c) (jobs w)) as [[[i x] b]|] eqn:Ep.
  2:{ pose proof (proj1 (pick_None _ _ _) Ep id j Hj). congruence. }
  apply pick_spec in Ep as (Hx & Hex & _ & Hmax). apply eligible_queued in Hex.
  destruct (decide (i = id)) as [->|Hne].
  - rewrite Hj in Hx. injection Hx as <-. cbv zeta in E.
    rewrite (proj2 (claimed_spec id (assign_all (lease_assignments (cc_owner c) (cc_now c) (cc_lease c)) j) b)) in E
      by exact Hq. destruct E. by split.
  - specialize (Hothers i x Hx Hne Hex). destruct (Hmax id j Hj He) as [Hle _]. lia.
Qed.

Section good_recover.
Context `{Externals} `{Sql}.

Lemma good_tx_recover_one now row t : good_tx (recover_one now row) t.
Proof.
  destruct row as [id j]. unfold recover_one.
  destruct (recovery_target _ _) as [target|]; [|apply good_tx_ret].
  apply good_tx_bind; [apply good_tx_transition, recover_values_plain|intros; apply good_tx_append].
Qed.

Lemma good_recover now prefix q f w :
  (forall g w, f = Some g -> good (g now) w) -> good (recover now prefix q f) w.
Proof.
  intros Hf. apply good_bind.
  { apply good_sink_write, good_tx_get, good_tx_bind; [|intros; apply good_tx_ret].
    apply good_tx_for_each. intros; apply good_tx_recover_one. }
  intros b w1 _. apply good_bind; [destruct f; [by apply Hf|apply good_ret]|].
  intros l w2 _. apply good_bind; [apply good_sweep|]. intros; apply good_ret.
Qed.
End good_recover.

(** A row the sweep reaches keeps everything but its effective priority. *)
Lemma swept_keeps `{Sql} now q j :
  immutable (swept now q j) = immutable j /\ j_attempt (swept now q j) = j_attempt j /\
  j_state (swept now q j) = j_state j /\ j_lease_owner (swept now q j) = j_lease_owner j /\
  j_lease_expires_at (swept now q j) = j_lease_expires_at j /\
  j_scheduled_for (swept now q j) = j_scheduled_for j /\
  j_error_code (swept now q j) = j_error_code j /\ j_completed_at (swept now q j) = j_completed_at j.
Proof. unfold swept. by destruct (is_waiting (j_state j)). Qed.

Definition sync_request : @GenerateRequest sample_wire :=
  @mkRequest sample_wire "chat" [] [] None [] false "cli" (Some "key"%string).

(** One normal job is waiting behind the crashed execution. *)
Definition crash_world : World :=
  sample_world {["n" := sample_job QUEUED None None 400 0]}%string.

(** A row whose worker is gone: neither waiting nor terminal, and not held by this process. *)
Definition abandoned (owner_prefix : string) (j : Job) : Prop :=
  is_waiting (j_state j) = false /\ is_terminal (j_state j) = false /\
  forall owner, j_lease_owner j = Some owner -> String.prefix (owner_prefix +:+ "/") owner = false.

Lemma orphaned_abandoned prefix j : orphaned prefix j = true <-> abandoned prefix j.
Proof.
  unfold orphaned, abandoned, ours. rewrite andb_true_iff, negb_true_iff.
  assert (bool_decide (j_state j ∈ LEASE_HOLDING_STATES ++ [CANCELLING]) = true <->
          is_waiting (j_state j) = false /\ is_terminal (j_state j) = false) as ->.
  { destruct (j_state j); cbn; naive_solver. }
  destruct (j_lease_owner j); naive_solver.
Qed.

Lemma not_orphaned prefix j : orphaned prefix j = false <-> ~ abandoned prefix j.
Proof. apply reflects_false, orphaned_abandoned. Qed.

Module Properties.

(** Startup recovery reconciles everything a dead process left, in one pass:
    every orphaned in-flight row (no owner, or another process's) moves to its recovery target with
    its lease released, its [attempt] untouched and its id in the bucket of that target; every other
    row keeps its state and lease (a waiting one is aged); and running recovery again at the same
    instant changes nothing and reports nothing. *)
Theorem recovery_reconciles `{Externals} `{Sql} (now : Z) (prefix : string) (q : QueueSettings)
    (w : World) :
  exists w' s, recover now prefix q None w = (w', Ok s) /\
    (forall id j, jobs w !! id = Some j -> ~ abandoned prefix j ->
       jobs w' !! id = Some (swept now q j)) /\
    (forall id j, jobs w !! id = Some j -> abandoned prefix j ->
       exists j' target, jobs w' !! id = Some j' /\
         recovery_target (j_state j) (j_idempotent j) = Some target /\ j_state j' = target /\
         j_lease_owner j' = None /\ j_lease_expires_at j' = None /\
         j_attempt j' = j_attempt j /\ immutable j' = immutable j /\
         (id ∈ rs_requeued s <-> target = QUEUED) /\ (id ∈ rs_cancelled s <-> target = CANCELLED) /\
         (id ∈ rs_failed s <-> target = FAILED)) /\
    (forall id, jobs w' !! id = None <-> jobs w !! id = None) /\
    recover now prefix q None w' = (w', Ok (mkRecovery [] [] [] [] 0)).
Proof.
  eexists (recover now prefix q None w).1, _. split; [rewrite recover_run at 1 2; reflexivity|].
  split; [|split; [|split]].
  - intros id j Hj Ho%not_orphaned. rewrite recover_lookup, Hj. cbn. unfold recovered. by rewrite Ho.
  - intros id j Hj Ho%orphaned_abandoned. destruct (orphaned_target prefix j Ho) as [target Ht].
    destruct (recovered_result target now (Some (recover_reason target)) (recover_values j target) j)
      as (H1 & H2 & H3 & H4 & H5 & _); [apply recover_values_plain|by eapply recovery_target_waits|].
    assert (Hrec : recovered now prefix j = assign_all (transition_assignments target now
                     (Some (recover_reason target)) (recover_values j target)) j)
      by (unfold recovered; by rewrite Ho, Ht).
    rewrite <- Hrec in H1, H2, H3, H4, H5.
    destruct (swept_keeps now q (recovered now prefix j)) as (E1 & E2 & E3 & E4 & E5 & _).
    exists (swept now q (recovered now prefix j)), target. rewrite recover_lookup, Hj.
    rewrite E1, E2, E3, E4, E5.
    do 7 (split; [done|]). cbn [rs_requeued rs_failed rs_cancelled recover_buckets fst snd].
    rewrite !(elem_of_recovered _ _ _ id j target) by done.
    revert Ht. destruct (j_state j), (j_idempotent j); intros [= <-]; cbn; by repeat split.
  - intros id. rewrite recover_lookup. by destruct (jobs w !! id).
  - set (w1 := (recover now prefix q None w).1).
    assert (Hrow : forall id j, jobs w1 !! id = Some j -> orphaned prefix j = false /\ sweep_changes now q j = false).
    { intros id j. unfold w1. rewrite recover_lookup. destruct (jobs w !! id) as [x|]; [|done].
      intros [= <-]. rewrite orphaned_swept, recovered_settled. split; [done|apply swept_no_change]. }
    rewrite recover_run. cbv zeta.
    assert (Hn : select_jobs (fun _ j => orphaned prefix j) (jobs w1) = [])
      by (apply select_nil; intros id j Hj; by apply Hrow in Hj as [? _]).
    assert (Hw1 : (recover_jobs now prefix w1).1 = w1).
    { rewrite recover_jobs_run. rewrite Hn. cbn [fst].
      unfold apply_actions, action_events. cbn [fold_left omap list_omap run_appends].
      apply commit_begin. }
    rewrite Hw1, Hn. unfold recover_buckets, recovered_as. cbn [fst snd List.filter fmap list_fmap].
    rewrite ageing_sweep_run. rewrite update_where_id by (intros id j Hj; by apply Hrow in Hj as [_ ?]).
    rewrite (proj2 (select_nil (fun _ j => sweep_changes now q j) (jobs w1)))
      by (intros id j Hj; by apply Hrow in Hj as [_ ?]).
    by destruct w1.
Qed.

(** C15: A defect the model exhibits: a synchronous execution with an idempotency
    key, interrupted by a crash, blocks the queue. Recovery requeues its row (it is marked
    idempotent) but leaves [queued_at] NULL, which [claim] asserts is not; the row sits at priority
    800, so as long as every other queued job is below that, every claim by every worker picks it,
    raises [AssertionError] and rolls back, however often the workers retry; nothing is ever
    claimed; and the absolute wait bound, which needs [queued_at], never removes it. *)
Theorem recovered_sync_job_blocks_queue `{Externals} `{Wire} `{Sql} (r : GenerateRequest)
    (k id prefix : string) (now now1 d : Z) (ttl : f64) (q : QueueSettings) (w w1 w2 : World)
    (s : RecoverySummary) (calls : list ClaimCall) :
  g_idempotency_key r = Some k -> 0 <= overflow_allowance q ->
  reserve_sync_job r now ttl w = (w1, Ok (mkReserved id true EXECUTING)) ->
  recover now1 prefix q None w1 = (w2, Ok s) ->
  (forall id2 j2, jobs w2 !! id2 = Some j2 -> id2 <> id -> j_state j2 = QUEUED ->
     j_effective_priority j2 < 800) ->
  Forall (fun c => now1 <= cc_now c) calls ->
  let '(w3, results) := run_claims calls w2 in
  jobs w3 = jobs w2 /\ Forall (fun x => x = Raise AssertionError) results /\
  exists j, jobs w3 !! id = Some j /\ j_state j = QUEUED /\ forall later, ~ waited_out later d j.
Proof.
  intros Hk Hov Hres Hrec Hothers Hcalls. apply reserve_created in Hres as [profile Hrow].
  assert (Hj : jobs w2 !! id = Some (swept now1 q (recovered now1 prefix (sync_job r profile now ttl)))).
  { replace w2 with (recover now1 prefix q None w1).1 by (by rewrite Hrec).
    by rewrite recover_lookup, Hrow. }
  pose proof (recovered_sync_job r profile k now now1 ttl prefix q Hk Hov) as Hst.
  set (j := swept _ _ _) in *.
  enough (Hrun : forall w', jobs w' = jobs w2 ->
    let '(w3, results) := run_claims calls w' in
    jobs w3 = jobs w2 /\ Forall (fun x => x = Raise AssertionError) results).
  { specialize (Hrun w2 eq_refl). destruct (run_claims calls w2) as [w3 results].
    destruct Hrun as [-> ?]. split; [done|]. split; [done|]. exists j. split; [done|].
    destruct Hst as (? & _ & _ & Hq). split; [done|]. intros later. apply not_overdue. unfold overdue. rewrite Hq.
    apply andb_false_r. }
  induction Hcalls as [|c calls Hc _ IH]; intros w' Hw'; [by split|]. cbn [run_claims].
  pose proof (stuck_blocks_claim c now1 id j w') as Hb. rewrite Hw' in Hb.
  specialize (Hb Hj Hst Hc Hothers). destruct (claim _ _ _ _ w') as [w4 x].
  destruct Hb as [-> (Hjobs & _)]. specialize (IH w4). rewrite Hjobs in IH. specialize (IH Hw').
  destruct (run_claims calls w4) as [w5 xs]. destruct IH as [-> ?]. split; [done|]. by constructor.
Qed.

Lemma recovered_sync_job_blocks_queue_witness :
  let w1 := (@reserve_sync_job sample_externals sample_wire sync_request 5 (24 * fone) crash_world).1 in
  let w2 := (@recover sample_externals sample_sql 9 "w" sample_settings None w1).1 in
  let calls := [mkCall "w/1" 10 60 None; mkCall "w/2" 11 60 None]%string in
  jobs (@run_claims sample_externals sample_wire calls w2).1 = jobs w2.
Proof.
  cbv zeta.
  destruct (@reserve_sync_job sample_externals sample_wire sync_request 5 (24 * fone) crash_world)
    as [w1 r1] eqn:E1.
  assert (Hr1 : r1 = Ok (mkReserved "0" true EXECUTING))
    by (apply (f_equal snd) in E1; cbn [snd] in E1; rewrite <- E1; vm_compute; reflexivity).
  cbn [fst].
  destruct (@recover sample_externals sample_sql 9 "w" sample_settings None w1) as [w2 r2] eqn:E2.
  assert (Hr2 : exists s, r2 = Ok s).
  { rewrite recover_run in E2. cbv zeta in E2. injection E2 as _ <-. by eexists. }
  destruct Hr2 as [s ->]. subst r1. cbn [fst].
  pose proof (@recovered_sync_job_blocks_queue sample_externals sample_wire sample_sql sync_request
    "key" "0" "w" 5 9 3600 (24 * fone) sample_settings crash_world w1 w2 s
    [mkCall "w/1" 10 60 None; mkCall "w/2" 11 60 None]%string eq_refl) as H.
  destruct (run_claims _ w2) as [w3 rs]. cbn [fst]. apply H; [vm_compute; discriminate|exact E1|exact E2| |].
  - assert (Hall : forallb (fun x => bool_decide (x.1 = "0"%string) || (j_effective_priority x.2 <? 800))
                     (map_to_list (jobs w2)) = true).
    { apply (f_equal fst) in E2. cbn [fst] in E2. apply (f_equal fst) in E1. cbn [fst] in E1.
      rewrite <- E2, <- E1. vm_compute. reflexivity. }
    intros id2 j2 Hj2 Hne _. rewrite forallb_forall in Hall.
    assert (Hin : (id2, j2) ∈ map_to_list (jobs w2)) by (by apply elem_of_map_to_list).
    apply list_elem_of_In, Hall in Hin. cbn in Hin. apply orb_true_iff in Hin as [Hin|Hin].
    + by apply bool_decide_eq_true in Hin.
    + by apply Z.ltb_lt.
  - apply Forall_cons. split; [cbn; lia|]. apply Forall_cons. split; [cbn; lia|constructor].
Defined.

End Properties.
