(* ===== verification/QueueSystem.v ===== *)
(** * The queue as a transition system

    Any interleaving of the queue's committed operations, by any number of submitters, workers,
    schedulers and operators, and of process restarts; the invariants that hold in every reachable
    world; and what reaches a worker. *)

From S2P Require Import Prelude PyFloat Json QueueState Priority Authorization JobEvents Submission QueueStore Queue QueueTheory Recovery.
#[local] Open Scope Z_scope.

Section system.
Context `{Externals} `{Wire} `{Sql}.

(** One operation, run to its commit or its rollback.  [q_move] stands for every transition a worker
    or the scheduler makes; the columns it may set are the ones they set ([plain]). *)
Inductive qstep : World -> World -> Prop :=
| q_enqueue s now q n wk p w : qstep w (enqueue s now q n wk p w).1
| q_reserve r now ttl w : qstep w (reserve_sync_job r now ttl w).1
| q_claim owner now ls a w : qstep w (claim owner now ls a w).1
| q_move id current target now owner reason message data values w :
    Forall plain values ->
    qstep w (move id current target now owner reason message data values w).1
| q_cancel id now p w : qstep w (cancel_job id now p w).1
| q_renew owner ids now ls w : qstep w (renew_leases owner ids now ls w).1
| q_reap now w : qstep w (reap_expired_leases now w).1
| q_sweep now q w : qstep w (ageing_sweep now q w).1
| q_expire now d w : qstep w (expire_max_wait now d w).1
| q_flag name v now p w : qstep w (set_queue_flag name v now p w).1
| q_recover now prefix q w : qstep w (recover now prefix q None w).1
| q_restart w : qstep w (with_ev (JobEvents.mkState (st_rows (ev w)) new_sink (st_ids (ev w))) w)
| q_token id ty body w :
    is_Some (high (st_sink (ev w)) !! id) ->
    qstep w (with_ev (JobEvents.mkState (st_rows (ev w)) (publish_live id ty body (st_sink (ev w))).1
                        (st_ids (ev w))) w).

Lemma qstep_world_le w w' : qstep w w' -> world_le w w'.
Proof.
  destruct 1.
  - apply good_enqueue.
  - apply good_reserve_sync_job.
  - apply good_claim.
  - by apply good_move.
  - apply good_cancel_job.
  - apply good_renew_leases.
  - apply good_reap.
  - apply good_sweep.
  - apply good_expire.
  - apply good_set_queue_flag.
  - by apply good_recover.
  - split; [done|]. split; [reflexivity|]. apply rtc_once, step_restart.
  - split; [done|]. split; [reflexivity|]. by apply rtc_once, step_live.
Qed.

Lemma qsteps_world_le w w' : rtc qstep w w' -> world_le w w'.
Proof.
  induction 1 as [|x y z Hxy _ IH]; [reflexivity|]. etrans; [|exact IH]. by apply qstep_world_le.
Qed.

(** An installation starts with no jobs and no events. *)
Definition fresh_world (w : World) : Prop := jobs w = ∅ /\ ev w = initial.

Lemma fresh_store_ok w : fresh_world w -> store_ok (jobs w).
Proof. intros [-> _]. split; [apply map_Forall_empty|]. intros ? ? ? ? ? Hi. done. Qed.

Lemma reachable_store_ok w w' : fresh_world w -> rtc qstep w w' -> store_ok (jobs w').
Proof. intros Hf Hr. apply (qsteps_world_le w w' Hr). by apply fresh_store_ok. Qed.

Lemma reachable_events w w' : fresh_world w -> rtc qstep w w' -> rtc JobEvents.step initial (ev w').
Proof. intros [_ He] Hr. rewrite <- He. by apply (qsteps_world_le w w' Hr). Qed.

(** A terminal state is never left. *)
Lemma terminal_path s t : rtc QueueState.step s t -> is_terminal s = true -> t = s.
Proof.
  induction 1 as [|x y z Hxy _ IH]; [done|]. intros Ht. exfalso. revert Hxy Ht.
  unfold QueueState.step. by destruct x, y.
Qed.

(** A claim over eligible rows that were enqueued with a readable request succeeds. *)
Definition claimable (now : Z) (j : Job) : Prop :=
  eligible now j = true -> is_Some (j_queued_at j) /\
    exists s, from_request_json (or_empty (j_request_json j)) (j_job_class j) (j_base_priority j)
                (j_max_wait_seconds j) (j_idempotent j) (j_idempotency_key j) (j_source j) = Ok s.

Lemma claimed_ok id j owner now ls b :
  eligible now j = true -> claimable now j ->
  exists c, claimed id (assign_all (lease_assignments owner now ls) j) b = Ok c.
Proof.
  intros He Hc. destruct (Hc He) as ([t Ht] & s & Hs). unfold claimed.
  change (j_queued_at (assign_all _ j)) with (j_queued_at j). rewrite Ht.
  change (j_lease_expires_at (assign_all _ j)) with (Some (now + 1000000 * ls)).
  cbv iota. eexists. change (from_request_json _ _ _ _ _ _ _) with
    (from_request_json (or_empty (j_request_json j)) (j_job_class j) (j_base_priority j)
       (j_max_wait_seconds j) (j_idempotent j) (j_idempotency_key j) (j_source j)).
  rewrite Hs. reflexivity.
Qed.
End system.

Module Properties.

(** C1: The store's invariant, over every interleaving: from an empty installation,
    whatever sequence of operations, restarts and rollbacks has run, (1) a waiting or terminal job
    holds no lease, so the reaper's state-blind predicate only ever sees lease-holding jobs;
    (2) a terminal job is stamped; (3) a lease has an owner exactly when it has an expiry; and
    (4) no two jobs of one source hold the same idempotency key. *)
Theorem reachable_jobs_well_formed `{Externals} `{Wire} `{Sql} (w0 w : World) :
  fresh_world w0 -> rtc qstep w0 w ->
  (forall id j, jobs w !! id = Some j ->
     (is_waiting (j_state j) || is_terminal (j_state j) = true ->
        j_lease_owner j = None /\ j_lease_expires_at j = None) /\
     (forall t, j_lease_expires_at j = Some t -> recovery_target (j_state j) (j_idempotent j) <> None) /\
     (is_terminal (j_state j) = true -> is_Some (j_completed_at j)) /\
     (is_Some (j_lease_expires_at j) <-> is_Some (j_lease_owner j))) /\
  (forall id1 id2 j1 j2 k, jobs w !! id1 = Some j1 -> jobs w !! id2 = Some j2 ->
     j_source j1 = j_source j2 -> j_idempotency_key j1 = Some k -> j_idempotency_key j2 = Some k ->
     id1 = id2).
Proof.
  intros Hf Hr. destruct (reachable_store_ok w0 w Hf Hr) as [Hm Hu]. split; [|exact Hu].
  intros id j Hj. destruct (Hm id j Hj) as (H1' & H2' & H3'). split; [done|]. split; [|by split].
  intros t Ht Hn. apply recovery_target_None in Hn. destruct (H1' Hn). congruence.
Qed.

Lemma reachable_jobs_well_formed_witness :
  let w := (@reserve_sync_job sample_externals sample_wire sync_request 5 (24 * fone) (sample_world ∅)).1 in
  exists j, jobs w !! "0"%string = Some j /\
    (is_Some (j_lease_expires_at j) <-> is_Some (j_lease_owner j)).
Proof.
  cbv zeta.
  pose proof (q_reserve (H := sample_externals) (H0 := sample_wire) (H1 := sample_sql)
    sync_request 5 (24 * fone) (sample_world ∅)) as Hstep.
  destruct (@reserve_sync_job sample_externals sample_wire sync_request 5 (24 * fone) (sample_world ∅))
    as [w1 r1] eqn:E1.
  assert (Hr1 : r1 = Ok (mkReserved "0" true EXECUTING))
    by (apply (f_equal snd) in E1; cbn [snd] in E1; rewrite <- E1; vm_compute; reflexivity).
  subst r1. destruct (reserve_created _ _ _ _ _ _ E1) as [profile Hj]. cbn [fst].
  destruct (@reachable_jobs_well_formed sample_externals sample_wire sample_sql (sample_world ∅) w1)
    as [H _].
  - split; reflexivity.
  - apply rtc_once. exact Hstep.
  - destruct (H _ _ Hj) as (_ & _ & _ & Hl). eexists. split; [exact Hj|exact Hl].
Defined.





(** C4: The queue makes progress: when every eligible job was enqueued with a
    readable request (true of every job [enqueue] stored), a claim never raises, and it returns a
    job whenever one is eligible. *)
Theorem claim_progress `{Externals} `{Wire} (owner : string) (now ls : Z) (a : option AffinityHint)
    (w w' : World) (r : result (option ClaimedJob)) :
  (forall id j, jobs w !! id = Some j -> claimable now j) ->
  claim owner now ls a w = (w', r) ->
  (exists o, r = Ok o) /\
  ((exists id j, jobs w !! id = Some j /\ due now j) -> exists c, r = Ok (Some c)).
Proof.
  intros Hall Hc. apply claim_cases in Hc. destruct (pick now a (jobs w)) as [[[id j] b]|] eqn:Ep.
  - apply pick_spec in Ep as (Hj & He & _).
    destruct (claimed_ok id j owner now ls b He (Hall id j Hj)) as [c Hcl]. cbv zeta in Hc.
    rewrite Hcl in Hc. destruct Hc as (-> & _). split; [by eexists|]. intros _. by eexists.
  - destruct Hc as [_ ->]. split; [by eexists|]. intros (id & j & Hj & He%eligible_due).
    pose proof (proj1 (pick_None _ _ _) Ep id j Hj). congruence.
Qed.

Lemma claim_progress_witness :
  exists c, (@claim sample_externals sample_wire "w/1" 10 60 None two_queued).2 = Ok (Some c).
Proof.
  destruct (@claim sample_externals sample_wire "w/1" 10 60 None two_queued)
    as [w' r] eqn:E.
  apply (@claim_progress sample_externals sample_wire "w/1" 10 60 None two_queued w' r).
  - intros id j Hj _. unfold two_queued, sample_world in Hj. cbn [jobs] in Hj.
    apply lookup_insert_Some in Hj as [[_ <-]|[_ Hj]];
      [|apply lookup_singleton_Some in Hj as [_ <-]]; (split; [by eexists|]); eexists; reflexivity.
  - exact E.
  - exists "a"%string. eexists. split; [reflexivity|]. split; [reflexivity|]. eexists. split; [reflexivity|lia].
Defined.

End Properties.
