(* ===== verification/Reliability.v ===== *)
(** * Production reliability ([domain/reliability.py])

    Rolling windows, per-window statistics with their sample bounds, the incremental ledger, the
    routing factor and the regression test.  Instants are microseconds, rates binary64; a stored
    latency or token count is an integer. *)

From S2P Require Import Prelude PyFloat.
#[local] Open Scope Z_scope.

Definition PRODUCTION_MINIMUM_SAMPLES : Z := 20.
Definition MINIMUM_RATE_SAMPLES : Z := 5.
Definition MINIMUM_MEAN_SAMPLES : Z := 5.
Definition MINIMUM_PERCENTILE_SAMPLES : Z := 20.
Definition RELIABILITY_FACTOR_FLOOR : f64 := flit 1 2.
Definition FEEDBACK_WEIGHT : f64 := flit 1 2.
Definition EDITED_ACCEPTANCE_CREDIT : f64 := flit 1 2.
Definition REGRESSION_MINIMUM_SAMPLES : Z := 20.
Definition REGRESSION_MINIMUM_DROP : f64 := flit 15 100.
Definition REGRESSION_Z_THRESHOLD : f64 := 2 * fone.

Definition SUCCESS_OUTCOMES : list string := ["completed"; "validation_failed"].
Definition TIMEOUT_OUTCOMES : list string := ["timeout"].
Definition CANCELLED_OUTCOMES : list string := ["cancelled"].
Definition VALIDATED_OUTCOME : string := "completed".

(** ** Windows *)

Record Window := mkWindow { w_name : string; w_seconds : option f64 }.

Definition horizon (w : Window) (now : Z) : option Z :=
  match w_seconds w with None => None | Some s => Some (now - timedelta_us s) end.

Definition WINDOW_7D : Window := mkWindow "7d" (Some (fmul (of_int 7) (86400 * fone))).
Definition WINDOW_30D : Window := mkWindow "30d" (Some (fmul (of_int 30) (86400 * fone))).
Definition WINDOW_ALL : Window := mkWindow "all" None.
Definition WINDOWS : list Window := [WINDOW_7D; WINDOW_30D; WINDOW_ALL].
Definition FACTOR_WINDOWS : list Window := [WINDOW_7D; WINDOW_30D].

Definition window_named (name : string) : result Window :=
  match List.filter (fun w => bool_decide (w_name w = name)) WINDOWS with
  | w :: _ => Ok w
  | [] => Raise ValueError
  end.

Definition in_window (at_ : Z) (w : Window) (now : Z) : bool :=
  if now <? at_ then false
  else match horizon w now with None => true | Some h => h <? at_ end.

(** ** Samples *)

Record AttemptOutcome := mkAttempt {
  a_at : Z;
  a_outcome : string;
  a_latency_ms : option Z;
  a_output_tokens : option Z
}.

Definition a_counted (a : AttemptOutcome) : bool := negb (bool_decide (a_outcome a ∈ CANCELLED_OUTCOMES)).

Definition a_tokens_per_second (a : AttemptOutcome) : option f64 :=
  match a_latency_ms a, a_output_tokens a with
  | Some l, Some t =>
      if l <=? 0 then None else Some (fdiv (of_int t) (fdiv (of_int l) (1000 * fone)))
  | _, _ => None
  end.

Record FeedbackOutcome := mkFeedback {
  f_at : Z;
  f_accepted : bool;
  f_quality_score : option f64;
  f_edited : bool;
  f_validation_passed : option bool
}.

Definition counts_as_success (outcome : string) : bool := bool_decide (outcome ∈ SUCCESS_OUTCOMES).

Definition acceptance_credit (f : FeedbackOutcome) : f64 :=
  if bool_decide (f_validation_passed f = Some false) || negb (f_accepted f) then 0
  else if f_edited f then EDITED_ACCEPTANCE_CREDIT else fone.

(** [ordered[rank - 1]] with Python's negative indices. *)
Definition py_index (l : list Z) (i : Z) : result Z :=
  let n := Z.of_nat (length l) in
  let k := if i <? 0 then n + i else i in
  if (k <? 0) || (n <=? k) then Raise IndexError
  else match l !! Z.to_nat k with Some v => Ok v | None => Raise IndexError end.

Definition percentile_rank (q : f64) (n : Z) : Z := fceil (fmul q (of_int n)).

Definition percentile (values : list Z) (q : f64) : result Z :=
  match values with
  | [] => Raise ValueError
  | _ =>
      if negb ((0 <? q) && (q <=? fone)) then Raise ValueError
      else py_index (py_sorted Z.leb values) (percentile_rank q (Z.of_nat (length values)) - 1)
  end.

(** ** Statistics *)

Record Statistic (A : Type) := mkStatistic { value : option A; samples : Z; minimum : Z }.
Arguments mkStatistic {_} _ _ _.
Arguments value {_} _.
Arguments samples {_} _.
Arguments minimum {_} _.

Definition bounded {A} (v : option A) (n m : Z) : Statistic A :=
  mkStatistic (if n <? m then None else v) n m.

Record WindowStats := mkStats {
  ws_window : string;
  attempts : Z;
  successes : Z;
  validation_passes : Z;
  errors : Z;
  timeouts : Z;
  cancellations : Z;
  latency_count : Z;
  p50_latency_ms : option Z;
  p95_latency_ms : option Z;
  output_token_count : Z;
  mean_output_tokens : option f64;
  tokens_per_second_count : Z;
  mean_tokens_per_second : option f64;
  feedback_count : Z;
  acceptance_rate : option f64;
  quality_count : Z;
  mean_quality : option f64
}.

Definition counted (s : WindowStats) : Z := attempts s - cancellations s.
Definition failures (s : WindowStats) : Z := errors s + timeouts s.

(** [None if d == 0 else n / d]. *)
Definition rate (n d : Z) : option f64 := if d =? 0 then None else Some (int_div n d).

Definition success_rate (s : WindowStats) : Statistic f64 :=
  bounded (rate (successes s) (counted s)) (counted s) MINIMUM_RATE_SAMPLES.
Definition validation_pass_rate (s : WindowStats) : Statistic f64 :=
  bounded (rate (validation_passes s) (successes s)) (successes s) MINIMUM_RATE_SAMPLES.
Definition validated_success_rate (s : WindowStats) : Statistic f64 :=
  bounded (rate (validation_passes s) (counted s)) (counted s) MINIMUM_RATE_SAMPLES.
Definition error_rate (s : WindowStats) : Statistic f64 :=
  bounded (rate (errors s) (counted s)) (counted s) MINIMUM_RATE_SAMPLES.
Definition timeout_rate (s : WindowStats) : Statistic f64 :=
  bounded (rate (timeouts s) (counted s)) (counted s) MINIMUM_RATE_SAMPLES.
Definition acceptance (s : WindowStats) : Statistic f64 :=
  mkStatistic (acceptance_rate s) (feedback_count s) MINIMUM_RATE_SAMPLES.
Definition quality (s : WindowStats) : Statistic f64 :=
  mkStatistic (mean_quality s) (quality_count s) MINIMUM_MEAN_SAMPLES.
Definition p50 (s : WindowStats) : Statistic Z :=
  mkStatistic (p50_latency_ms s) (latency_count s) MINIMUM_PERCENTILE_SAMPLES.
Definition p95 (s : WindowStats) : Statistic Z :=
  mkStatistic (p95_latency_ms s) (latency_count s) MINIMUM_PERCENTILE_SAMPLES.
Definition output_tokens (s : WindowStats) : Statistic f64 :=
  mkStatistic (mean_output_tokens s) (output_token_count s) MINIMUM_MEAN_SAMPLES.
Definition tokens_per_second (s : WindowStats) : Statistic f64 :=
  mkStatistic (mean_tokens_per_second s) (tokens_per_second_count s) MINIMUM_MEAN_SAMPLES.

(** A percentile, absent below its bound. *)
Definition bounded_percentile (l : list Z) (q : f64) : result (option Z) :=
  if zlen l <? MINIMUM_PERCENTILE_SAMPLES then Ok None else v ← percentile l q; Ok (Some v).

(** A mean of integers and a mean of floats, absent below their bounds. *)
Definition bounded_int_mean (l : list Z) : option f64 :=
  if zlen l <? MINIMUM_MEAN_SAMPLES then None else Some (int_div (sumZ l) (zlen l)).
Definition bounded_mean (m : Z) (l : list f64) : option f64 :=
  if zlen l <? m then None else Some (fdiv (py_sum l) (of_int (zlen l))).

Definition compute_stats (atts : list AttemptOutcome) (fbs : list FeedbackOutcome) (w : Window)
    (now : Z) : result WindowStats :=
  let ca := List.filter (fun a => in_window (a_at a) w now) atts in
  let cf := List.filter (fun f => in_window (f_at f) w now) fbs in
  let succ := countb (fun a => counts_as_success (a_outcome a)) ca in
  let passes := countb (fun a => bool_decide (a_outcome a = VALIDATED_OUTCOME)) ca in
  let touts := countb (fun a => bool_decide (a_outcome a ∈ TIMEOUT_OUTCOMES)) ca in
  let cancels := countb (fun a => bool_decide (a_outcome a ∈ CANCELLED_OUTCOMES)) ca in
  let latencies := omap a_latency_ms ca in
  let tokens := omap a_output_tokens ca in
  let throughputs := omap a_tokens_per_second ca in
  let credits := map acceptance_credit cf in
  let qualities := omap f_quality_score cf in
  v50 ← bounded_percentile latencies (flit 1 2);
  v95 ← bounded_percentile latencies (flit 95 100);
  Ok {| ws_window := w_name w; attempts := zlen ca; successes := succ; validation_passes := passes;
        errors := zlen ca - succ - touts - cancels; timeouts := touts; cancellations := cancels;
        latency_count := zlen latencies; p50_latency_ms := v50; p95_latency_ms := v95;
        output_token_count := zlen tokens; mean_output_tokens := bounded_int_mean tokens;
        tokens_per_second_count := zlen throughputs;
        mean_tokens_per_second := bounded_mean MINIMUM_MEAN_SAMPLES throughputs;
        feedback_count := zlen credits; acceptance_rate := bounded_mean MINIMUM_RATE_SAMPLES credits;
        quality_count := zlen qualities; mean_quality := bounded_mean MINIMUM_MEAN_SAMPLES qualities |}.

(** ** The incremental ledger *)

Record ReliabilityLedger := mkLedger {
  l_window : Window;
  l_attempts : list AttemptOutcome;
  l_feedback : list FeedbackOutcome
}.

Definition with_attempt (a : AttemptOutcome) (l : ReliabilityLedger) : ReliabilityLedger :=
  mkLedger (l_window l) (l_attempts l ++ [a]) (l_feedback l).
Definition with_feedback (f : FeedbackOutcome) (l : ReliabilityLedger) : ReliabilityLedger :=
  mkLedger (l_window l) (l_attempts l) (l_feedback l ++ [f]).
Definition trimmed (now : Z) (l : ReliabilityLedger) : ReliabilityLedger :=
  match horizon (l_window l) now with
  | None => l
  | Some h => mkLedger (l_window l) (List.filter (fun a => h <? a_at a) (l_attempts l))
                (List.filter (fun f => h <? f_at f) (l_feedback l))
  end.
Definition stats (now : Z) (l : ReliabilityLedger) : result WindowStats :=
  compute_stats (l_attempts l) (l_feedback l) (l_window l) now.

(** ** The factor *)

Record ReliabilityFactor := mkFactor {
  rf_value : f64;
  rf_window : option string;
  rf_attempts : Z;
  rf_success_rate : option f64;
  rf_validation_pass_rate : option f64;
  rf_error_rate : option f64;
  rf_timeout_rate : option f64;
  rf_acceptance_rate : option f64;
  rf_feedback_count : Z
}.

Definition rf_neutral (f : ReliabilityFactor) : bool := bool_decide (rf_window f = None).

(** [max(counts.values(), default=0)] over the windows seen. *)
Definition neutral_factor (counts : list Z) : ReliabilityFactor :=
  mkFactor fone None (match counts with [] => 0 | c :: l => fold_left Z.max l c end)
    None None None None None 0.

(** What the caller's verdicts contribute, when there are enough of them. *)
Definition feedback_term (acceptance : option f64) : f64 :=
  match acceptance with
  | None => fone
  | Some a => fsub fone (fmul FEEDBACK_WEIGHT (fsub fone a))
  end.

(** The factor of one window that has enough samples. *)
Definition window_factor (name : string) (s : WindowStats) : ReliabilityFactor :=
  let success := int_div (successes s) (counted s) in
  let validation := if successes s =? 0 then fone else int_div (validation_passes s) (successes s) in
  let acc := if MINIMUM_RATE_SAMPLES <=? feedback_count s then acceptance_rate s else None in
  let v := fadd RELIABILITY_FACTOR_FLOOR
             (fmul (fsub fone RELIABILITY_FACTOR_FLOOR)
                (fmul (fmul success validation) (feedback_term acc))) in
  mkFactor v (Some name) (counted s) (Some success)
    (if successes s =? 0 then None else Some validation)
    (Some (int_div (errors s) (counted s))) (Some (int_div (timeouts s) (counted s))) acc
    (feedback_count s).

Definition reliability_factor (stats_by_window : gmap string WindowStats) : ReliabilityFactor :=
  let seen := omap (fun w => counted <$> stats_by_window !! w_name w) FACTOR_WINDOWS in
  let live := omap (fun w =>
    match stats_by_window !! w_name w with
    | Some s => if counted s <? PRODUCTION_MINIMUM_SAMPLES then None else Some (w_name w, s)
    | None => None
    end) FACTOR_WINDOWS in
  match live with
  | (name, s) :: _ => window_factor name s
  | [] => neutral_factor seen
  end.

(** ** Regression *)

Inductive RegressionStatus := REGRESSED | STABLE | INSUFFICIENT_SAMPLES.

#[export] Instance RegressionStatus_eq_dec : EqDecision RegressionStatus.
Proof. solve_decision. Defined.

Record RegressionVerdict := mkRegression {
  rv_status : RegressionStatus;
  rv_recent_rate : option f64;
  rv_baseline_rate : option f64;
  rv_drop : option f64;
  rv_z_score : option f64;
  rv_recent_samples : Z;
  rv_baseline_samples : Z
}.

Definition regressed (v : RegressionVerdict) : bool := bool_decide (rv_status v = REGRESSED).

(** [pooled * (1 - pooled) * (1 / n1 + 1 / n2)]. *)
Definition pooled_variance (pooled : f64) (n1 n2 : Z) : f64 :=
  fmul (fmul pooled (fsub fone pooled)) (fadd (fdiv fone (of_int n1)) (fdiv fone (of_int n2))).

(** [math.sqrt]: a [ValueError] on a negative argument. *)
Definition math_sqrt (x : f64) : result f64 := if x <? 0 then Raise ValueError else Ok (fsqrt x).

(** [x / y] on floats: a [ZeroDivisionError] on a zero divisor. *)
Definition py_div (x y : f64) : result f64 :=
  if y =? 0 then Raise ZeroDivisionError else Ok (fdiv x y).

Definition detect_regression (recent all_time : WindowStats) : result RegressionVerdict :=
  let recent_n := counted recent in
  let baseline_n := counted all_time - counted recent in
  let baseline_passes := validation_passes all_time - validation_passes recent in
  if (recent_n <? REGRESSION_MINIMUM_SAMPLES) || (baseline_n <? REGRESSION_MINIMUM_SAMPLES)
  then Ok (mkRegression INSUFFICIENT_SAMPLES
             (if recent_n =? 0 then None else Some (int_div (validation_passes recent) recent_n))
             (if baseline_n <=? 0 then None else Some (int_div baseline_passes baseline_n))
             None None recent_n (Z.max baseline_n 0))
  else
    let recent_rate := int_div (validation_passes recent) recent_n in
    let baseline_rate := int_div baseline_passes baseline_n in
    let drop := fsub baseline_rate recent_rate in
    let pooled := int_div (validation_passes recent + baseline_passes) (recent_n + baseline_n) in
    let variance := pooled_variance pooled recent_n baseline_n in
    z_score ← (if variance =? 0 then Ok 0 else root ← math_sqrt variance; py_div drop root);
    Ok (mkRegression
          (if (REGRESSION_MINIMUM_DROP <=? drop) && (REGRESSION_Z_THRESHOLD <=? z_score)
           then REGRESSED else STABLE)
          (Some recent_rate) (Some baseline_rate) (Some drop) (Some z_score) recent_n baseline_n).

(** ** Lists of samples *)

Lemma filter_filter_weaker {A} (p q : A -> bool) l :
  (forall x, p x = true -> q x = true) -> List.filter p (List.filter q l) = List.filter p l.
Proof.
  intros Hpq. induction l as [|x l IH]; cbn; [done|].
  destruct (q x) eqn:Eq; cbn; [by rewrite IH|].
  destruct (p x) eqn:Ep; [by rewrite (Hpq _ Ep) in Eq|done].
Qed.

Lemma zlen_nonneg {A} (l : list A) : 0 <= zlen l.
Proof. unfold zlen. lia. Qed.

Lemma zlen_omap {A B} (f : A -> option B) l : zlen (omap f l) <= zlen l.
Proof. unfold zlen. induction l as [|x l IH]; cbn; [lia|]. destruct (f x); cbn; lia. Qed.

Lemma zlen_filter {A} (p : A -> bool) l : zlen (List.filter p l) <= zlen l.
Proof. apply countb_le_length. Qed.

Lemma countb_app {A} (p : A -> bool) l k : countb p (l ++ k) = countb p l + countb p k.
Proof. unfold countb. rewrite List.filter_app, length_app. lia. Qed.

Lemma countb_disjoint {A} (p q r : A -> bool) l :
  (forall x, p x = true -> q x = true -> False) -> (forall x, p x = true \/ q x = true -> r x = true) ->
  countb p l + countb q l <= countb r l.
Proof.
  unfold countb. intros Hd Hr. induction l as [|x l IH]; cbn; [lia|].
  destruct (p x) eqn:Ep, (q x) eqn:Eq; [destruct (Hd x Ep Eq)|..];
    rewrite ?(Hr x) by auto; [cbn; lia..|]. destruct (r x); cbn; lia.
Qed.

Lemma countb_true {A} (l : list A) : countb (fun _ => true) l = zlen l.
Proof. unfold countb, zlen. by induction l; cbn; [|lia]. Qed.

(** What a narrower filter leaves out of each count. *)
Lemma countb_filter {A} (p q : A -> bool) l :
  countb p (List.filter q l) = countb (fun x => q x && p x) l.
Proof.
  unfold countb. induction l as [|x l IH]; cbn; [done|].
  destruct (q x); cbn; [destruct (p x); cbn; lia|done].
Qed.

(** ** Windows *)

Lemma horizon_mono w t now h h' :
  t <= now -> horizon w t = Some h -> horizon w now = Some h' -> h <= h'.
Proof. unfold horizon. destruct (w_seconds w); intros; simplify_eq; lia. Qed.

Lemma in_window_spec at_ w now :
  in_window at_ w now = true <->
    at_ <= now /\ (forall h, horizon w now = Some h -> h < at_).
Proof.
  unfold in_window. destruct (Z.ltb_spec now at_); [split; [done|lia]|].
  destruct (horizon w now) as [h|]; [rewrite Z.ltb_lt|].
  - split; [intros; split; [lia|]; by intros ? [= <-]|]. intros [_ H1]. by apply H1.
  - split; [|done]. intros _. split; [lia|done].
Qed.

(** A sample the trim of an earlier instant drops never counts again. *)
Lemma trim_keeps_counted at_ w t now h :
  t <= now -> horizon w t = Some h -> in_window at_ w now = true -> (h <? at_) = true.
Proof.
  intros Ht Hh [_ Hw]%in_window_spec.
  destruct (horizon w now) as [h'|] eqn:E;
    [|unfold horizon in *; by destruct (w_seconds w)].
  specialize (Hw h' eq_refl). pose proof (horizon_mono _ _ _ _ _ Ht Hh E). lia.
Qed.

(** ** The ledger *)

(** The statistics read the samples through the window only. *)
Lemma compute_stats_windowed a1 a2 f1 f2 w now :
  List.filter (fun a => in_window (a_at a) w now) a1 = List.filter (fun a => in_window (a_at a) w now) a2 ->
  List.filter (fun f => in_window (f_at f) w now) f1 = List.filter (fun f => in_window (f_at f) w now) f2 ->
  compute_stats a1 f1 w now = compute_stats a2 f2 w now.
Proof. intros Ha Hf. unfold compute_stats. by rewrite Ha, Hf. Qed.

Inductive ledger_op :=
| FoldAttempt (a : AttemptOutcome)
| FoldFeedback (f : FeedbackOutcome)
| Trim (t : Z).

Definition apply_op (l : ReliabilityLedger) (o : ledger_op) : ReliabilityLedger :=
  match o with
  | FoldAttempt a => with_attempt a l
  | FoldFeedback f => with_feedback f l
  | Trim t => trimmed t l
  end.

Definition op_attempts (ops : list ledger_op) : list AttemptOutcome :=
  omap (fun o => match o with FoldAttempt a => Some a | _ => None end) ops.
Definition op_feedback (ops : list ledger_op) : list FeedbackOutcome :=
  omap (fun o => match o with FoldFeedback f => Some f | _ => None end) ops.

(** [l] and [(atts, fbs)] show the same samples to every instant from [t] on. *)
Definition ledger_agrees_from (t : Z) (l : ReliabilityLedger) (atts : list AttemptOutcome)
    (fbs : list FeedbackOutcome) : Prop :=
  List.filter (fun a => in_window (a_at a) (l_window l) t) (l_attempts l) =
    List.filter (fun a => in_window (a_at a) (l_window l) t) atts /\
  List.filter (fun f => in_window (f_at f) (l_window l) t) (l_feedback l) =
    List.filter (fun f => in_window (f_at f) (l_window l) t) fbs.

Lemma apply_op_window l o : l_window (apply_op l o) = l_window l.
Proof. destruct o; cbn; [done..|]. unfold trimmed. by case_goal. Qed.

Lemma apply_op_agrees now l o atts fbs :
  (forall t, o = Trim t -> t <= now) -> ledger_agrees_from now l atts fbs ->
  ledger_agrees_from now (apply_op l o) (atts ++ op_attempts [o]) (fbs ++ op_feedback [o]).
Proof.
  unfold ledger_agrees_from. intros Ht [Ha Hf]. rewrite !apply_op_window.
  destruct o as [a|f|t]; cbn; rewrite ?app_nil_r, ?List.filter_app, ?Ha, ?Hf; [done..|].
  unfold trimmed. destruct (horizon (l_window l) t) as [h|] eqn:E; [|done]. cbn.
  rewrite !filter_filter_weaker; [done|..]; intros x Hx;
    by apply (trim_keeps_counted _ _ _ _ _ (Ht t eq_refl) E Hx).
Qed.

Lemma apply_ops_agree now ops l atts fbs :
  (forall t, Trim t ∈ ops -> t <= now) -> ledger_agrees_from now l atts fbs ->
  ledger_agrees_from now (foldl apply_op l ops) (atts ++ op_attempts ops) (fbs ++ op_feedback ops).
Proof.
  revert l atts fbs. induction ops as [|o ops IH]; intros l atts fbs Ht Hl.
  - cbn. by rewrite !app_nil_r.
  - cbn [foldl]. change (o :: ops) with ([o] ++ ops). unfold op_attempts, op_feedback.
    rewrite !omap_app, !app_assoc. apply IH; [set_solver|].
    apply apply_op_agrees; [set_solver|done].
Qed.

Lemma apply_ops_window ops l : l_window (foldl apply_op l ops) = l_window l.
Proof.
  revert l. induction ops as [|o ops IH]; intros l; cbn; [done|]. by rewrite IH, apply_op_window.
Qed.

(** ** Percentiles *)

(** In a sorted list, the element at [k] has [k + 1] elements at or below it and at most [k]
    strictly below it. *)
Lemma sorted_rank (l : list Z) k v :
  StronglySorted (fun x y => Z.leb x y = true) l -> l !! k = Some v ->
  Z.of_nat k < countb (fun x => x <=? v) l /\ countb (fun x => x <? v) l <= Z.of_nat k.
Proof.
  intros Hs. revert k. induction Hs as [|x l Hs IH Hx]; intros k Hk; [done|].
  rewrite Forall_forall in Hx. unfold countb in *. destruct k as [|k]; cbn in *.
  - simplify_eq. rewrite Z.leb_refl, Z.ltb_irrefl. cbn. split; [lia|].
    enough (List.filter (fun y => y <? v) l = []) as -> by done.
    clear - Hx. induction l as [|y l IH]; cbn; [done|].
    pose proof (Hx y ltac:(left)). destruct (Z.ltb_spec y v); [lia|].
    apply IH. intros. apply Hx. by right.
  - destruct (IH k Hk). pose proof (Hx v ltac:(by eapply list_elem_of_lookup_2)).
    apply Z.leb_le in H1. rewrite (proj2 (Z.leb_le x v)) by done. cbn.
    split; [lia|]. destruct (x <? v); cbn; lia.
Qed.

Lemma countb_perm {A} (p : A -> bool) l k : l ≡ₚ k -> countb p l = countb p k.
Proof.
  unfold countb. induction 1 as [|x l k _ IH|x y l|l1 l2 l3 _ IH1 _ IH2]; cbn.
  - done.
  - destruct (p x); cbn; lia.
  - destruct (p x), (p y); cbn; lia.
  - congruence.
Qed.

Lemma percentile_rank_bounds q n :
  0 < q <= fone -> 0 < n <= 2 ^ 53 -> 1 <= percentile_rank q n <= n.
Proof.
  intros Hq Hn. unfold percentile_rank. pose proof fone_pos.
  rewrite of_int_exact by lia. split.
  - enough (~ fceil (fmul q (n * fone)) <= 0) by lia. rewrite fceil_spec.
    enough (1 <= fmul q (n * fone)) by lia. apply fround_ge_repr; [done|vm_compute; reflexivity|].
    pose proof (Z.mul_pos_pos n fone). nia.
  - apply fceil_spec. apply fround_le_repr; [done|apply repr_int; lia|].
    pose proof (Z.mul_pos_pos n fone). nia.
Qed.

Lemma py_sorted_Z_sorted l : StronglySorted (fun x y => Z.leb x y = true) (py_sorted Z.leb l).
Proof. apply py_sorted_Sorted; intros; rewrite ?Z.leb_le in *; lia. Qed.

(** The nearest-rank percentile of a non-empty list: never an exception, an element of the list,
    with at least the [q] share of the values at or below it and less than that strictly below. *)
Lemma percentile_nearest_rank l q :
  l <> [] -> zlen l <= 2 ^ 53 -> 0 < q <= fone ->
  exists v, percentile l q = Ok v /\ v ∈ l /\
    fmul q (of_int (zlen l)) <= countb (fun x => x <=? v) l * fone /\
    countb (fun x => x <? v) l * fone < fmul q (of_int (zlen l)).
Proof.
  intros Hl Hn Hq. destruct l as [|x l0] eqn:El; [done|]. rewrite <- El in *.
  assert (Hpos : 0 < zlen l) by (subst l; unfold zlen; cbn; lia).
  pose proof (percentile_rank_bounds q (zlen l) Hq ltac:(lia)) as Hr.
  assert (Hlen : length (py_sorted Z.leb l) = length l) by apply py_sorted_length.
  set (k := Z.to_nat (percentile_rank q (zlen l) - 1)).
  destruct (lookup_lt_is_Some_2 (py_sorted Z.leb l) k) as [v Hv]; [unfold zlen in *; lia|].
  assert (Hp : percentile l q = Ok v).
  { unfold percentile. rewrite El, <- El. fold (zlen l).
    rewrite (proj2 (Z.ltb_lt 0 q)), (proj2 (Z.leb_le q fone)) by lia. cbn [andb negb].
    unfold py_index. rewrite Hlen. fold (zlen l).
    rewrite !(proj2 (Z.ltb_ge (percentile_rank q (zlen l) - 1) 0)) by lia.
    rewrite (proj2 (Z.leb_gt (zlen l) _)) by lia. cbn [orb]. fold k. by rewrite Hv. }
  exists v. split; [done|]. split.
  { rewrite <- (elem_of_py_sorted Z.leb). by eapply list_elem_of_lookup_2. }
  destruct (sorted_rank _ k v (py_sorted_Z_sorted l) Hv) as [H1 H2].
  rewrite !(countb_perm _ _ _ (py_sorted_perm Z.leb l)) in *.
  split.
  - apply fceil_spec. fold (percentile_rank q (zlen l)). lia.
  - apply Z.lt_nge. rewrite <- fceil_spec. fold (percentile_rank q (zlen l)). lia.
Qed.

(** ** The acceptance rate *)

(** The compensated sum of halves is exact, so the mean acceptance is a ratio of at most one. *)
Definition half_integer (m : Z) (x : f64) : Prop := exists k, x = k * 2 ^ 1073 /\ 0 <= k <= m.

Lemma fone_half : fone = 2 * 2 ^ 1073.
Proof. vm_compute. reflexivity. Qed.

Lemma half_integer_repr m x : m <= 2 ^ 53 -> half_integer m x -> repr x.
Proof. intros Hm (k & -> & Hk). apply repr_scaled; lia. Qed.

Lemma neumaier_halves l m s :
  half_integer m s -> Forall (half_integer 2) l -> m + 2 * zlen l <= 2 ^ 53 ->
  exists t, neumaier s 0 l = (t, 0) /\ half_integer (m + 2 * zlen l) t.
Proof.
  revert m s. induction l as [|x l IH]; intros m s Hs Hl Hm.
  - exists s. split; [done|]. by rewrite Z.add_0_r.
  - apply Forall_cons in Hl as [Hx Hl].
    assert (Hz : zlen (x :: l) = zlen l + 1) by (unfold zlen; cbn; lia).
    pose proof (zlen_nonneg l). rewrite Hz in *.
    destruct Hs as (k & Es & Hk), Hx as (j & Ex & Hj).
    assert (Esum : fadd s x = s + x).
    { apply fadd_exact. apply (half_integer_repr (m + 2)); [lia|]. exists (k + j). lia. }
    destruct (IH (m + 2) (s + x)) as (t & Et & Ht); [exists (k + j); lia|done|lia|].
    exists t. split; [|by replace (m + 2 * (zlen l + 1)) with (m + 2 + 2 * zlen l) by lia].
    cbn [neumaier]. rewrite Esum. rewrite <- Et. f_equal.
    rewrite (fsub_exact s (s + x)), (fsub_exact x (s + x)).
    + unfold fadd. replace (s - (s + x) + x) with 0 by lia. replace (x - (s + x) + s) with 0 by lia.
      by case_goal.
    + replace (x - (s + x)) with (- s) by lia. apply repr_opp, (half_integer_repr m); [lia|].
      by exists k.
    + replace (s - (s + x)) with (- x) by lia. apply repr_opp, (half_integer_repr 2); [lia|].
      by exists j.
Qed.

Lemma py_sum_halves l :
  Forall (half_integer 2) l -> 2 * zlen l <= 2 ^ 53 -> half_integer (2 * zlen l) (py_sum l).
Proof.
  intros Hl Hm. destruct l as [|x l]; [by exists 0|]. apply Forall_cons in Hl as [Hx Hl].
  assert (Hz : zlen (x :: l) = zlen l + 1) by (unfold zlen; cbn; lia). rewrite Hz in *.
  destruct (neumaier_halves l 2 x Hx Hl ltac:(lia)) as (t & Et & Ht).
  unfold py_sum. rewrite Et. cbn. by replace (2 * (zlen l + 1)) with (2 + 2 * zlen l) by lia.
Qed.

Lemma acceptance_credit_half f : half_integer 2 (acceptance_credit f).
Proof.
  unfold acceptance_credit. case_goal; [exists 0; lia|].
  case_goal; [exists 1|exists 2]; (split; [|lia]); [vm_compute; reflexivity|].
  rewrite fone_half. lia.
Qed.

Lemma mean_acceptance_unit fbs a :
  zlen fbs <= 2 ^ 52 -> bounded_mean MINIMUM_RATE_SAMPLES (map acceptance_credit fbs) = Some a ->
  0 <= a <= fone.
Proof.
  intros Hn. unfold bounded_mean, MINIMUM_RATE_SAMPLES.
  assert (Hz : zlen (map acceptance_credit fbs) = zlen fbs) by (unfold zlen; by rewrite length_map).
  rewrite Hz. destruct (Z.ltb_spec (zlen fbs) 5) as [|Hge]; [done|]. intros [= <-].
  destruct (py_sum_halves (map acceptance_credit fbs)) as (k & Ek & Hk).
  - apply Forall_map, Forall_true. apply acceptance_credit_half.
  - rewrite Hz. lia.
  - rewrite Hz in Hk. pose proof fone_pos. pose proof fone_half. rewrite of_int_exact by lia.
    apply fdiv_unit; [|nia]. rewrite Ek. nia.
Qed.

(** ** Well-formed statistics *)

Definition unit_or_absent (o : option f64) : Prop :=
  match o with Some r => 0 <= r <= fone | None => True end.

Record stats_ok (s : WindowStats) : Prop := {
  ok_passes : 0 <= validation_passes s <= successes s;
  ok_parts : attempts s = successes s + errors s + timeouts s + cancellations s;
  ok_errors : 0 <= errors s;
  ok_timeouts : 0 <= timeouts s;
  ok_cancellations : 0 <= cancellations s;
  ok_acceptance : unit_or_absent (acceptance_rate s);
  ok_acceptance_bound : feedback_count s < MINIMUM_RATE_SAMPLES -> acceptance_rate s = None
}.

Lemma stats_ok_counted s : stats_ok s -> 0 <= successes s <= counted s.
Proof. intros []. unfold counted. lia. Qed.

(** The samples of [now] counted by [w] and by an older window. *)
Lemma bounded_percentile_ok l q :
  zlen l <= 2 ^ 53 -> 0 < q <= fone -> exists o, bounded_percentile l q = Ok o.
Proof.
  intros Hn Hq. unfold bounded_percentile, MINIMUM_PERCENTILE_SAMPLES.
  destruct (Z.ltb_spec (zlen l) 20); [by eexists|].
  destruct (percentile_nearest_rank l q) as (v & -> & _); [by intros ->|done|done|].
  by eexists.
Qed.

Lemma percentiles_in_unit : (0 < flit 1 2 <= fone) /\ (0 < flit 95 100 <= fone).
Proof. vm_compute. repeat split; discriminate. Qed.

Definition in_stats (atts : list AttemptOutcome) (w : Window) (now : Z) :=
  List.filter (fun a => in_window (a_at a) w now) atts.

(** The counts of [compute_stats], and that it raises nothing. *)
Lemma compute_stats_total atts fbs w now :
  zlen atts <= 2 ^ 53 ->
  exists s, compute_stats atts fbs w now = Ok s /\
    ws_window s = w_name w /\
    attempts s = zlen (in_stats atts w now) /\
    successes s = countb (fun a => counts_as_success (a_outcome a)) (in_stats atts w now) /\
    validation_passes s =
      countb (fun a => bool_decide (a_outcome a = VALIDATED_OUTCOME)) (in_stats atts w now) /\
    timeouts s = countb (fun a => bool_decide (a_outcome a ∈ TIMEOUT_OUTCOMES)) (in_stats atts w now) /\
    cancellations s =
      countb (fun a => bool_decide (a_outcome a ∈ CANCELLED_OUTCOMES)) (in_stats atts w now) /\
    errors s = attempts s - successes s - timeouts s - cancellations s /\
    feedback_count s = zlen (map acceptance_credit
                         (List.filter (fun f => in_window (f_at f) w now) fbs)) /\
    acceptance_rate s = bounded_mean MINIMUM_RATE_SAMPLES
      (map acceptance_credit (List.filter (fun f => in_window (f_at f) w now) fbs)).
Proof.
  intros Hn. unfold compute_stats. fold (in_stats atts w now).
  pose proof (zlen_filter (fun a => in_window (a_at a) w now) atts) as Hf.
  fold (in_stats atts w now) in Hf.
  pose proof (zlen_omap a_latency_ms (in_stats atts w now)) as Ho.
  assert (Hlat : zlen (omap a_latency_ms (in_stats atts w now)) <= 2 ^ 53) by (etransitivity; [exact Ho|etransitivity; [exact Hf|exact Hn]]).
  destruct percentiles_in_unit as [H50 H95].
  destruct (bounded_percentile_ok (omap a_latency_ms (in_stats atts w now)) (flit 1 2) Hlat H50) as [v50 ->].
  destruct (bounded_percentile_ok (omap a_latency_ms (in_stats atts w now)) (flit 95 100) Hlat H95) as [v95 ->].
  rewrite !bind_Ok. eexists. split; [reflexivity|]. repeat split.
Qed.

Lemma outcome_classes_disjoint o :
  counts_as_success o = true -> bool_decide (o ∈ TIMEOUT_OUTCOMES) || bool_decide (o ∈ CANCELLED_OUTCOMES) = true ->
  False.
Proof.
  unfold counts_as_success. rewrite orb_true_iff, !bool_decide_eq_true.
  unfold SUCCESS_OUTCOMES, TIMEOUT_OUTCOMES, CANCELLED_OUTCOMES.
  rewrite !elem_of_cons, elem_of_nil. intuition congruence.
Qed.

Lemma stop_outcomes_disjoint o :
  bool_decide (o ∈ TIMEOUT_OUTCOMES) = true -> bool_decide (o ∈ CANCELLED_OUTCOMES) = true -> False.
Proof. rewrite !bool_decide_eq_true. unfold TIMEOUT_OUTCOMES, CANCELLED_OUTCOMES.
  rewrite !elem_of_cons, elem_of_nil. intuition congruence. Qed.

Lemma outcome_counts (l : list AttemptOutcome) :
  countb (fun a => counts_as_success (a_outcome a)) l
    + countb (fun a => bool_decide (a_outcome a ∈ TIMEOUT_OUTCOMES)) l
    + countb (fun a => bool_decide (a_outcome a ∈ CANCELLED_OUTCOMES)) l <= zlen l /\
  countb (fun a => bool_decide (a_outcome a = VALIDATED_OUTCOME)) l
    <= countb (fun a => counts_as_success (a_outcome a)) l.
Proof.
  split.
  - rewrite <- countb_true.
    pose proof (countb_disjoint (fun a => bool_decide (a_outcome a ∈ TIMEOUT_OUTCOMES))
      (fun a => bool_decide (a_outcome a ∈ CANCELLED_OUTCOMES))
      (fun a => bool_decide (a_outcome a ∈ TIMEOUT_OUTCOMES) || bool_decide (a_outcome a ∈ CANCELLED_OUTCOMES)) l
      (fun a => stop_outcomes_disjoint (a_outcome a)) ltac:(intros a [-> | ->]; [done|by rewrite orb_true_r])).
    pose proof (countb_disjoint (fun a => counts_as_success (a_outcome a))
      (fun a => bool_decide (a_outcome a ∈ TIMEOUT_OUTCOMES) || bool_decide (a_outcome a ∈ CANCELLED_OUTCOMES))
      (fun _ => true) l (fun a => outcome_classes_disjoint (a_outcome a)) ltac:(done)). lia.
  - apply countb_mono. intros a ->%bool_decide_eq_true. reflexivity.
Qed.

Lemma compute_stats_ok atts fbs w now :
  zlen atts <= 2 ^ 53 -> zlen fbs <= 2 ^ 52 ->
  exists s, compute_stats atts fbs w now = Ok s /\ ws_window s = w_name w /\ stats_ok s.
Proof.
  intros Hn Hm.
  destruct (compute_stats_total atts fbs w now Hn) as (s & E & Hw & Ha & Hs & Hp & Ht & Hc & He & Hf & Hr).
  exists s. split; [done|]. split; [done|].
  destruct (outcome_counts (in_stats atts w now)) as [H1 H2].
  pose proof (zlen_filter (fun f => in_window (f_at f) w now) fbs).
  split.
  - rewrite Hp, Hs. pose proof (countb_nonneg (fun a => bool_decide (a_outcome a = VALIDATED_OUTCOME))
      (in_stats atts w now)). lia.
  - lia.
  - lia.
  - rewrite Ht. apply countb_nonneg.
  - rewrite Hc. apply countb_nonneg.
  - rewrite Hr. destruct (bounded_mean _ _) as [a|] eqn:Eb; [|done].
    apply (mean_acceptance_unit _ a) in Eb; [done|lia].
  - rewrite Hf, Hr. intros Hlt. unfold bounded_mean. by rewrite (proj2 (Z.ltb_lt _ _) Hlt).
Qed.

(** [s] counts a subset of the samples [t] counts, with a part of its passes. *)
Definition part_of (s t : WindowStats) : Prop :=
  counted s <= counted t /\
  validation_passes s <= validation_passes t /\
  validation_passes t - validation_passes s <= counted t - counted s.

Lemma countb_neg {A} (p : A -> bool) l : countb p l + countb (fun x => negb (p x)) l = zlen l.
Proof. unfold countb, zlen. induction l as [|x l IH]; cbn; [done|]. destruct (p x); cbn; lia. Qed.

(** The recent window counts a subset of what the unbounded window counts. *)
Lemma recent_part_of_all atts fbs w now s t :
  zlen atts <= 2 ^ 53 ->
  compute_stats atts fbs w now = Ok s -> compute_stats atts fbs WINDOW_ALL now = Ok t -> part_of s t.
Proof.
  intros Hn Es Et.
  destruct (compute_stats_total atts fbs w now Hn) as (s' & E & _ & Ha & _ & Hp & _ & Hc & _).
  rewrite Es in E. injection E as <-.
  destruct (compute_stats_total atts fbs WINDOW_ALL now Hn) as (t' & E & _ & Ha' & _ & Hp' & _ & Hc' & _).
  rewrite Et in E. injection E as <-.
  unfold part_of, counted. rewrite Ha, Hp, Hc, Ha', Hp', Hc'. unfold in_stats.
  rewrite <- !countb_true, !countb_filter. clear.
  assert (Hsub : forall a, in_window (a_at a) w now = true -> in_window (a_at a) WINDOW_ALL now = true).
  { intros a. rewrite !in_window_spec. intros [? _]. split; [done|]. by intros ? [=]. }
  assert (Hv : forall a, bool_decide (a_outcome a = VALIDATED_OUTCOME) = true ->
                 bool_decide (a_outcome a ∈ CANCELLED_OUTCOMES) = false).
  { intros a ->%bool_decide_eq_true. reflexivity. }
  unfold countb. induction atts as [|a l IH]; cbn; [lia|].
  specialize (Hsub a). specialize (Hv a).
  destruct (in_window (a_at a) w now); [rewrite (Hsub eq_refl)|destruct (in_window (a_at a) WINDOW_ALL now)]; cbn [andb].
  all: destruct (bool_decide (a_outcome a = VALIDATED_OUTCOME)); [rewrite ?(Hv eq_refl)|
    destruct (bool_decide (a_outcome a ∈ CANCELLED_OUTCOMES))]; cbn [length]; lia.
Qed.

(** ** The factor *)

(** One half, and one quarter. *)
Definition fhalf : f64 := 2 ^ 1073.
Definition fquarter : f64 := 2 ^ 1072.

Lemma flit_half : flit 1 2 = fhalf.
Proof. vm_compute. reflexivity. Qed.

Lemma half_facts : fone = 2 * fhalf /\ fhalf = 2 * fquarter /\ 0 < fquarter.
Proof. repeat split; vm_compute; reflexivity. Qed.

Lemma half_repr : repr fhalf.
Proof. unfold fhalf. rewrite <- (Z.mul_1_l (2 ^ 1073)). apply repr_scaled; lia. Qed.

Lemma quarters_repr n : 0 <= n <= 4 -> repr (n * fquarter).
Proof. intros. apply repr_scaled; lia. Qed.

#[global] Opaque fhalf fquarter.

Lemma one_minus_half : fsub fone fhalf = fhalf.
Proof.
  pose proof half_repr as Hh. destruct half_facts as (E & _ & _). rewrite fsub_exact.
  - lia.
  - assert (fone - fhalf = fhalf) as -> by lia. exact Hh.
Qed.

(** [1/2 + (1 - 1/2) * x] stays in [[1/2, 1]] without clamping. *)
Lemma factor_term_bounds x : 0 <= x <= fone ->
  fhalf <= fadd RELIABILITY_FACTOR_FLOOR (fmul (fsub fone RELIABILITY_FACTOR_FLOOR) x) <= fone.
Proof.
  intros Hx. unfold RELIABILITY_FACTOR_FLOOR. rewrite flit_half.
  pose proof half_repr as Hh. destruct half_facts as (E1 & E2 & E3).
  rewrite one_minus_half.
  pose proof (fmul_nonneg (fhalf) x ltac:(lia) ltac:(lia)).
  pose proof (fmul_le_l (fhalf) x Hh ltac:(lia) ltac:(lia)).
  split; [apply fround_ge_repr; [lia|exact Hh|lia]|apply fround_le_repr; [lia|apply repr_one|lia]].
Qed.

(** The caller's term lies between one half and one. *)
Lemma feedback_term_bounds (acc : option f64) : unit_or_absent acc ->
  fhalf <= feedback_term acc <= fone.
Proof.
  pose proof half_repr as Hh. destruct half_facts as (E1 & E2 & E3).
  destruct acc as [a|]; cbn; [|lia]. intros Ha. unfold FEEDBACK_WEIGHT. rewrite flit_half.
  assert (0 <= fsub fone a <= fone).
  { split; [apply fround_nonneg; lia|apply fround_le_repr; [done|apply repr_one|lia]]. }
  pose proof (fmul_nonneg (fhalf) (fsub fone a) ltac:(lia) ltac:(lia)).
  pose proof (fmul_le_l (fhalf) (fsub fone a) Hh ltac:(lia) ltac:(lia)).
  split; [apply fround_ge_repr; [lia|exact Hh|lia]|apply fround_le_repr; [lia|apply repr_one|lia]].
Qed.

Definition validation_term (s : WindowStats) : f64 :=
  if successes s =? 0 then fone else int_div (validation_passes s) (successes s).

Lemma validation_term_bounds s : stats_ok s -> 0 <= validation_term s <= fone.
Proof.
  intros Hs. unfold validation_term. pose proof fone_pos. destruct (Z.eqb_spec (successes s) 0); [lia|].
  destruct Hs. apply int_div_unit; lia.
Qed.

Lemma used_acceptance_unit s : stats_ok s ->
  unit_or_absent (if MINIMUM_RATE_SAMPLES <=? feedback_count s then acceptance_rate s else None).
Proof. intros Hs. destruct (_ <=? _); [apply (ok_acceptance s Hs)|done]. Qed.

Lemma window_factor_bounds name s : stats_ok s -> 0 < counted s ->
  fhalf <= rf_value (window_factor name s) <= fone.
Proof.
  intros Hs Hc. cbn [window_factor rf_value]. fold (validation_term s). apply factor_term_bounds.
  apply fmul_unit; [apply fmul_unit|].
  - apply int_div_unit; [|done]. by apply stats_ok_counted.
  - by apply validation_term_bounds.
  - pose proof (feedback_term_bounds _ (used_acceptance_unit s Hs)) as Ht.
    destruct half_facts as (E1 & E2 & E3). split; [etransitivity; [|apply Ht]; lia|apply Ht].
Qed.

Lemma int_div_self n : 0 < n -> int_div n n = fone.
Proof.
  intros. rewrite int_div_pos_eq by done. apply fround_repr_eq; [done|apply repr_one|lia].
Qed.

(** Caller feedback alone can pull the factor halfway to its floor and no further. *)
Lemma feedback_alone_bounded name s :
  stats_ok s -> 0 < counted s -> validation_passes s = counted s ->
  3 * fquarter <= rf_value (window_factor name s).
Proof.
  intros Hs Hc Hp. pose proof (stats_ok_counted s Hs). pose proof (ok_passes s Hs).
  assert (Es' : successes s = counted s) by lia.
  cbn [window_factor rf_value]. rewrite Es'. rewrite (proj2 (Z.eqb_neq _ _)) by lia.
  rewrite Hp, !int_div_self by done. rewrite (fmul_one_l fone) by apply repr_one.
  pose proof (feedback_term_bounds _ (used_acceptance_unit s Hs)) as Ht.
  set (t := feedback_term _) in *.
  pose proof half_repr as Hh. destruct half_facts as (E1 & E2 & E3).
  assert (Hx : fhalf <= fmul fone t).
  { apply fround_ge_repr; [apply fone_pos|exact Hh|nia]. }
  unfold RELIABILITY_FACTOR_FLOOR. rewrite flit_half.
  rewrite one_minus_half.
  assert (Hq : fquarter <= fmul (fhalf) (fmul fone t)).
  { rewrite <- (Z.mul_1_l fquarter). apply fround_ge_repr; [apply fone_pos|apply quarters_repr; lia|nia]. }
  apply fround_ge_repr; [lia|apply quarters_repr; lia|lia].
Qed.

(** Which window decides. *)
Definition too_few (m : gmap string WindowStats) (name : string) : Prop :=
  forall s, m !! name = Some s -> counted s < PRODUCTION_MINIMUM_SAMPLES.

Lemma live_window m name :
  too_few m name \/ exists s, m !! name = Some s /\ PRODUCTION_MINIMUM_SAMPLES <= counted s.
Proof.
  unfold too_few. destruct (m !! name) as [s|]; [|by left].
  destruct (Z.lt_ge_cases (counted s) PRODUCTION_MINIMUM_SAMPLES); [left; by intros ? [= <-]|].
  right. by exists s.
Qed.

Lemma reliability_factor_cases m :
  (exists s, m !! "7d"%string = Some s /\ PRODUCTION_MINIMUM_SAMPLES <= counted s /\
     reliability_factor m = window_factor "7d" s) \/
  (too_few m "7d" /\ exists s, m !! "30d"%string = Some s /\ PRODUCTION_MINIMUM_SAMPLES <= counted s /\
     reliability_factor m = window_factor "30d" s) \/
  (too_few m "7d" /\ too_few m "30d" /\
     rf_window (reliability_factor m) = None /\ rf_value (reliability_factor m) = fone).
Proof.
  unfold reliability_factor. cbn [FACTOR_WINDOWS w_name WINDOW_7D WINDOW_30D omap list_omap].
  destruct (live_window m "7d") as [H7|(s & E & Hs)].
  - right. destruct (live_window m "30d") as [H30|(t & E & Ht)]; [right|left]; (split; [exact H7|]).
    + split; [exact H30|]. unfold too_few in *.
      destruct (m !! "7d"%string) as [s|]; [rewrite (proj2 (Z.ltb_lt _ _) (H7 s eq_refl))|];
        (destruct (m !! "30d"%string) as [t|]; [rewrite (proj2 (Z.ltb_lt _ _) (H30 t eq_refl))|]);
        by split.
    + exists t. do 2 (split; [done|]). unfold too_few in H7. rewrite E, (proj2 (Z.ltb_ge _ _) Ht).
      destruct (m !! "7d"%string) as [s|]; [by rewrite (proj2 (Z.ltb_lt _ _) (H7 s eq_refl))|done].
  - left. exists s. do 2 (split; [done|]). by rewrite E, (proj2 (Z.ltb_ge _ _) Hs).
Qed.

Lemma window_factor_named name s :
  rf_window (window_factor name s) = Some name /\ rf_attempts (window_factor name s) = counted s.
Proof. by split. Qed.

(** ** Regression *)

Lemma fsqrt_pos x : 1 <= x -> 1 <= fsqrt x.
Proof.
  intros Hx. unfold fsqrt. pose proof fone_pos.
  assert (Hs : 1 <= Z.sqrt (x * fone)).
  { change 1 with (Z.sqrt 1). apply Z.sqrt_le_mono. nia. }
  apply fround_ge_repr; [done|vm_compute; reflexivity|]. case_goal; lia.
Qed.

Lemma pooled_variance_nonneg p n1 n2 :
  0 <= p <= fone -> 0 < n1 -> 0 < n2 -> 0 <= pooled_variance p n1 n2.
Proof.
  intros Hp H1 H2. unfold pooled_variance. pose proof fone_pos.
  assert (Hof : forall n, 0 < n -> 0 < of_int n).
  { intros n Hn. enough (fone <= of_int n) by lia.
    apply fround_ge_repr; [done|apply repr_one|nia]. }
  apply fmul_nonneg; [apply fmul_nonneg; [lia|apply fround_nonneg; lia]|].
  apply fadd_nonneg; apply fdiv_nonneg; auto; lia.
Qed.

(** The z-score of the test, on any drop: the root and the division never raise. *)
Lemma z_score_total drop variance : 0 <= variance ->
  exists z, (if variance =? 0 then Ok 0 else root ← math_sqrt variance; py_div drop root) = Ok z.
Proof.
  intros Hv. destruct (Z.eqb_spec variance 0); [by eexists|].
  unfold math_sqrt. rewrite (proj2 (Z.ltb_ge _ _)) by done. rewrite bind_Ok.
  unfold py_div. pose proof (fsqrt_pos variance ltac:(lia)).
  rewrite (proj2 (Z.eqb_neq _ _)) by lia. by eexists.
Qed.

(** The verdict on statistics of which one counts a part of the other's samples. *)
Lemma detect_regression_verdict s t :
  stats_ok s -> part_of s t ->
  exists v, detect_regression s t = Ok v /\
    rv_recent_samples v = counted s /\
    (rv_status v = INSUFFICIENT_SAMPLES <->
       counted s < REGRESSION_MINIMUM_SAMPLES \/ counted t - counted s < REGRESSION_MINIMUM_SAMPLES) /\
    (rv_status v = REGRESSED -> exists d z,
       rv_drop v = Some d /\ rv_z_score v = Some z /\
       REGRESSION_MINIMUM_DROP <= d /\ REGRESSION_Z_THRESHOLD <= z /\
       validation_passes s * (counted t - counted s)
         < (validation_passes t - validation_passes s) * counted s) /\
    (rv_status v = STABLE -> exists d z,
       rv_drop v = Some d /\ rv_z_score v = Some z /\
       (d < REGRESSION_MINIMUM_DROP \/ z < REGRESSION_Z_THRESHOLD)).
Proof.
  intros Hs (Hc & Hp & Hb). pose proof (stats_ok_counted s Hs) as Hcs.
  pose proof (ok_passes s Hs) as Hps. unfold detect_regression, REGRESSION_MINIMUM_SAMPLES in *.
  destruct (Z.ltb_spec (counted s) 20) as [Hlt|Hge1]; cbn [orb];
    [|destruct (Z.ltb_spec (counted t - counted s) 20) as [Hlt|Hge2]].
  1,2: eexists; (split; [reflexivity|]); cbn; split; [done|]; split; [split; [lia|done]|];
    split; discriminate.
  set (n := counted t - counted s) in *. set (b := validation_passes t - validation_passes s) in *.
  destruct (z_score_total (fsub (int_div b n) (int_div (validation_passes s) (counted s)))
    (pooled_variance (int_div (validation_passes s + b) (counted s + n)) (counted s) n)) as [z Hz].
  { apply pooled_variance_nonneg; [|lia..]. apply int_div_unit; lia. }
  rewrite Hz, bind_Ok. eexists. split; [reflexivity|]. cbn [rv_recent_samples rv_status rv_drop rv_z_score].
  split; [done|].
  set (d := fsub _ _) in *.
  destruct (Z.leb_spec REGRESSION_MINIMUM_DROP d) as [Hd|Hd];
    destruct (Z.leb_spec REGRESSION_Z_THRESHOLD z) as [Hzz|Hzz]; cbn [andb].
  2-4: split; [split; [done|lia]|]; split; [done|]; intros _; exists d, z; auto.
  split; [split; [done|lia]|]. split; [|done]. intros _. exists d, z. repeat (split; [done|]).
  apply Z.lt_nge. intros Hle. enough (d <= 0) as H0.
  { assert (0 < REGRESSION_MINIMUM_DROP) by (vm_compute; reflexivity). lia. }
  unfold d. pose proof (int_div_mono b n (validation_passes s) (counted s) ltac:(lia) ltac:(lia) ltac:(lia)).
  apply fround_le_repr; [done|apply repr_0|lia].
Qed.

(** ** Reported rates *)

(** A reported rate is absent exactly below its bound, and otherwise a number in [[0, 1]]. *)
Definition honest_rate (r : Statistic f64) (n : Z) : Prop :=
  samples r = n /\ minimum r = MINIMUM_RATE_SAMPLES /\
  (value r = None <-> n < MINIMUM_RATE_SAMPLES) /\ unit_or_absent (value r).

Lemma bounded_rate_honest k n : 0 <= k <= n ->
  honest_rate (bounded (rate k n) n MINIMUM_RATE_SAMPLES) n.
Proof.
  intros Hk. unfold honest_rate, bounded, rate, MINIMUM_RATE_SAMPLES. cbn [samples minimum value].
  do 2 (split; [done|]). destruct (Z.ltb_spec n 5) as [|Hn]; [done|].
  rewrite (proj2 (Z.eqb_neq _ _)) by lia. split; [split; [done|lia]|].
  cbn. apply int_div_unit; lia.
Qed.

(** ** Sample histories for the witnesses *)

(** Thirty days of a model that answered and validated, then a day of provider errors. *)
Definition day_us : Z := 86400000000.
Definition sample_now : Z := 60 * day_us.
Definition sample_attempts : list AttemptOutcome :=
  replicate 30 (mkAttempt (40 * day_us) "completed" (Some 800) None) ++
  replicate 20 (mkAttempt (59 * day_us) "provider_error" (Some 50) None).
Definition sample_feedback : list FeedbackOutcome :=
  replicate 6 (mkFeedback (40 * day_us) true (Some fone) true None).

Definition sample_stats (w : Window) : result WindowStats :=
  compute_stats sample_attempts sample_feedback w sample_now.

Lemma sample_sizes : zlen sample_attempts <= 2 ^ 53 /\ zlen sample_feedback <= 2 ^ 52.
Proof. split; vm_compute; discriminate. Qed.

Module Properties.

(** C19: the incremental ledger and the from-scratch computation agree on every field: after any
    sequence of folds and trims, its statistics at any instant not before the trims are
    [compute_stats] over every sample ever folded, in order (exceptions included). *)
Theorem ledger_agrees (w : Window) (ops : list ledger_op) (now : Z)
    (Htrims : forall t, Trim t ∈ ops -> t <= now) :
  stats now (foldl apply_op (mkLedger w [] []) ops) =
    compute_stats (op_attempts ops) (op_feedback ops) w now.
Proof.
  unfold stats. rewrite apply_ops_window. cbn [l_window].
  destruct (apply_ops_agree now ops (mkLedger w [] []) [] [] Htrims) as [Ha Hf]; [done|].
  rewrite apply_ops_window in Ha, Hf. by apply compute_stats_windowed.
Qed.

Lemma ledger_agrees_witness :
  let ops := [FoldAttempt (mkAttempt 0 "timeout" None None); Trim (50 * day_us);
              FoldAttempt (mkAttempt (59 * day_us) "completed" (Some 7) (Some 3)); Trim (58 * day_us)] in
  (forall t, Trim t ∈ ops -> t <= sample_now) /\
  length (l_attempts (foldl apply_op (mkLedger WINDOW_7D [] []) ops)) = 1%nat /\
  stats sample_now (foldl apply_op (mkLedger WINDOW_7D [] []) ops) =
    compute_stats (op_attempts ops) (op_feedback ops) WINDOW_7D sample_now.
Proof.
  assert (H : forall t, Trim t ∈
      [FoldAttempt (mkAttempt 0 "timeout" None None); Trim (50 * day_us);
       FoldAttempt (mkAttempt (59 * day_us) "completed" (Some 7) (Some 3)); Trim (58 * day_us)] ->
      t <= sample_now).
  { intros t. rewrite !elem_of_cons, elem_of_nil. unfold sample_now, day_us.
    intros [[=]|[[= ->]|[[=]|[[= ->]|[]]]]]; lia. }
  split; [exact H|]. split; [vm_compute; reflexivity|]. apply ledger_agrees. exact H.
Defined.

(** [percentile] is the nearest rank: on a non-empty list and a [q] in (0, 1] it returns,
    without an exception, a value of the list such that at least [q * n] values are at or below it
    and fewer than [q * n] are strictly below it. *)
Theorem percentile_spec (l : list Z) (q : f64) (Hl : l <> []) (Hn : zlen l <= 2 ^ 53)
    (Hq : 0 < q <= fone) :
  exists v, percentile l q = Ok v /\ v ∈ l /\
    fmul q (of_int (zlen l)) <= countb (fun x => x <=? v) l * fone /\
    countb (fun x => x <? v) l * fone < fmul q (of_int (zlen l)).
Proof. by apply percentile_nearest_rank. Qed.

Lemma percentile_spec_witness :
  percentile [5; 1; 9; 3] (flit 1 2) = Ok 3 /\
  exists v, percentile [5; 1; 9; 3] (flit 1 2) = Ok v /\ v ∈ [5; 1; 9; 3] /\
    fmul (flit 1 2) (of_int (zlen [5; 1; 9; 3])) <= countb (fun x => x <=? v) [5; 1; 9; 3] * fone /\
    countb (fun x => x <? v) [5; 1; 9; 3] * fone < fmul (flit 1 2) (of_int (zlen [5; 1; 9; 3])).
Proof.
  split; [vm_compute; reflexivity|]. apply (percentile_spec [5; 1; 9; 3] (flit 1 2)).
  - discriminate.
  - vm_compute. discriminate.
  - apply percentiles_in_unit.
Defined.

(** The statistics of any history are computed without an exception and are honest: the four
    outcome classes partition the attempts, validations are among the successes, and every rate
    reported carries its sample count, is absent exactly below its bound and otherwise lies in
    [[0, 1]]. *)
Theorem stats_well_formed (atts : list AttemptOutcome) (fbs : list FeedbackOutcome) (w : Window)
    (now : Z) (Ha : zlen atts <= 2 ^ 53) (Hf : zlen fbs <= 2 ^ 52) :
  exists s, compute_stats atts fbs w now = Ok s /\ ws_window s = w_name w /\ stats_ok s /\
    honest_rate (success_rate s) (counted s) /\
    honest_rate (validated_success_rate s) (counted s) /\
    honest_rate (error_rate s) (counted s) /\
    honest_rate (timeout_rate s) (counted s) /\
    honest_rate (validation_pass_rate s) (successes s).
Proof.
  destruct (compute_stats_ok atts fbs w now Ha Hf) as (s & E & Hw & Hs).
  exists s. do 3 (split; [done|]). destruct Hs. unfold counted in *.
  repeat split_and; apply bounded_rate_honest; unfold counted; lia.
Qed.

Lemma stats_well_formed_witness :
  exists s, sample_stats WINDOW_ALL = Ok s /\ ws_window s = w_name WINDOW_ALL /\ stats_ok s /\
    honest_rate (success_rate s) (counted s) /\
    honest_rate (validated_success_rate s) (counted s) /\
    honest_rate (error_rate s) (counted s) /\
    honest_rate (timeout_rate s) (counted s) /\
    honest_rate (validation_pass_rate s) (successes s).
Proof. apply stats_well_formed; apply sample_sizes. Defined.

(** On well-formed statistics the reliability factor lies in [[1/2, 1]] with no clamp, it is
    neutral, exactly 1, when no factor window has twenty counted attempts, the freshest window that
    has them decides, and caller feedback alone never pulls the factor of a model whose attempts
    all validated below 3/4. *)
Theorem factor_bounds (m : gmap string WindowStats) (Hm : map_Forall (fun _ s => stats_ok s) m) :
  fhalf <= rf_value (reliability_factor m) <= fone /\
  (rf_neutral (reliability_factor m) = true <-> too_few m "7d" /\ too_few m "30d") /\
  (rf_neutral (reliability_factor m) = true -> rf_value (reliability_factor m) = fone) /\
  (forall s, m !! "7d"%string = Some s -> PRODUCTION_MINIMUM_SAMPLES <= counted s ->
     rf_window (reliability_factor m) = Some "7d"%string /\
     rf_attempts (reliability_factor m) = counted s /\
     (validation_passes s = counted s -> 3 * fquarter <= rf_value (reliability_factor m))).
Proof.
  unfold rf_neutral. rewrite !bool_decide_eq_true.
  assert (Hlive : forall k s, too_few m k -> m !! k = Some s -> PRODUCTION_MINIMUM_SAMPLES <= counted s -> False).
  { intros k s Hk Es Hge. specialize (Hk s Es). lia. }
  assert (Hp : 0 < PRODUCTION_MINIMUM_SAMPLES) by done.
  destruct (reliability_factor_cases m) as [(s & E & Hs & R)|[(H7 & s & E & Hs & R)|(H7 & H30 & Hn & Hv)]].
  - rewrite R. pose proof (Hm _ _ E) as Hok.
    split; [apply (window_factor_bounds "7d" s Hok); lia|].
    split; [split; [discriminate|intros [H7 _]; destruct (Hlive _ _ H7 E Hs)]|].
    split; [discriminate|]. rewrite E. intros s' [= <-] _.
    do 2 (split; [apply window_factor_named|]). apply (feedback_alone_bounded "7d" s Hok). lia.
  - rewrite R. pose proof (Hm _ _ E) as Hok.
    split; [apply (window_factor_bounds "30d" s Hok); lia|].
    split; [split; [discriminate|intros [_ H30]; destruct (Hlive _ _ H30 E Hs)]|].
    split; [discriminate|]. intros s' E' Hs'. destruct (Hlive _ _ H7 E' Hs').
  - rewrite Hn, Hv. destruct half_facts as (E1 & E2 & E3).
    split; [clear -E1 E2 E3; lia|]. split; [done|]. split; [done|].
    intros s' E' Hs'. destruct (Hlive _ _ H7 E' Hs').
Qed.

Lemma factor_bounds_witness :
  exists s, sample_stats WINDOW_30D = Ok s /\
    map_Forall (fun _ s => stats_ok s) ({["30d"%string := s]} : gmap string WindowStats) /\
    fhalf <= rf_value (reliability_factor {["30d"%string := s]}) <= fone.
Proof.
  destruct (compute_stats_ok sample_attempts sample_feedback WINDOW_30D sample_now
    (proj1 sample_sizes) (proj2 sample_sizes)) as (s & E & _ & Hs).
  assert (Hm : map_Forall (fun _ s => stats_ok s) ({["30d"%string := s]} : gmap string WindowStats)).
  { apply map_Forall_singleton. exact Hs. }
  exists s. split; [exact E|]. split; [exact Hm|].
  exact (proj1 (factor_bounds {["30d"%string := s]} Hm)).
Defined.

(** The regression test over one history, its seven-day statistics against its all-time
    statistics, never raises: it abstains exactly when either side has under twenty counted
    attempts, reports a regression only when both thresholds are met and the recent
    validated-success proportion is strictly below the baseline's, and calls a model stable only
    when one of the thresholds is missed. *)
Theorem regression_sound (atts : list AttemptOutcome) (fbs : list FeedbackOutcome) (now : Z)
    (recent all_time : WindowStats)
    (Ha : zlen atts <= 2 ^ 53) (Hf : zlen fbs <= 2 ^ 52)
    (Hr : compute_stats atts fbs WINDOW_7D now = Ok recent)
    (Ht : compute_stats atts fbs WINDOW_ALL now = Ok all_time) :
  exists v, detect_regression recent all_time = Ok v /\
    rv_recent_samples v = counted recent /\
    (rv_status v = INSUFFICIENT_SAMPLES <->
       counted recent < REGRESSION_MINIMUM_SAMPLES \/
       counted all_time - counted recent < REGRESSION_MINIMUM_SAMPLES) /\
    (rv_status v = REGRESSED -> exists d z,
       rv_drop v = Some d /\ rv_z_score v = Some z /\
       REGRESSION_MINIMUM_DROP <= d /\ REGRESSION_Z_THRESHOLD <= z /\
       validation_passes recent * (counted all_time - counted recent)
         < (validation_passes all_time - validation_passes recent) * counted recent) /\
    (rv_status v = STABLE -> exists d z,
       rv_drop v = Some d /\ rv_z_score v = Some z /\
       (d < REGRESSION_MINIMUM_DROP \/ z < REGRESSION_Z_THRESHOLD)).
Proof.
  destruct (compute_stats_ok atts fbs WINDOW_7D now Ha Hf) as (s & E & _ & Hs).
  rewrite Hr in E. injection E as <-. apply detect_regression_verdict; [exact Hs|].
  exact (recent_part_of_all atts fbs WINDOW_7D now recent all_time Ha Hr Ht).
Qed.

Lemma regression_sound_witness :
  exists recent all_time v,
    sample_stats WINDOW_7D = Ok recent /\ sample_stats WINDOW_ALL = Ok all_time /\
    detect_regression recent all_time = Ok v /\ rv_recent_samples v = counted recent.
Proof.
  destruct (compute_stats_ok sample_attempts sample_feedback WINDOW_7D sample_now
    (proj1 sample_sizes) (proj2 sample_sizes)) as (s & Es & _ & _).
  destruct (compute_stats_ok sample_attempts sample_feedback WINDOW_ALL sample_now
    (proj1 sample_sizes) (proj2 sample_sizes)) as (t & Et & _ & _).
  destruct (regression_sound sample_attempts sample_feedback sample_now s t
    (proj1 sample_sizes) (proj2 sample_sizes) Es Et) as (v & Ev & Hn & _).
  exists s, t, v. exact (conj Es (conj Et (conj Ev Hn))).
Defined.
End Properties.

(** The sample history is a regression: thirty validated attempts, then twenty errors. *)
Example sample_regressed :
  (s ← sample_stats WINDOW_7D; t ← sample_stats WINDOW_ALL; v ← detect_regression s t;
   Ok (rv_status v)) = Ok REGRESSED.
Proof. vm_compute. reflexivity. Qed.
