(* ===== verification/PyStr.v ===== *)
(** * Python strings

    A [str] is the byte string of its UTF-8 encoding: equality and order of code point sequences
    are equality and order of those bytes.  The methods below only look for ASCII separators and
    for whitespace, so they work on bytes; what depends on Unicode's digit classes is a class with
    the documented behaviour of [str.isdigit] and [int]. *)

From Stdlib Require Import Ascii String.
From S2P Require Import Prelude.
#[local] Open Scope Z_scope.

(** [s.partition(c)]: head, whether the separator occurs, tail. *)
Fixpoint partition_at (c : ascii) (s : string) : string * bool * string :=
  match s with
  | EmptyString => (EmptyString, false, EmptyString)
  | String a s' =>
      if Ascii.eqb a c then (EmptyString, true, s')
      else let '(h, found, t) := partition_at c s' in (String a h, found, t)
  end.

(** [s.split(c)]. *)
Fixpoint split_at (c : ascii) (s : string) : list string :=
  match s with
  | EmptyString => [EmptyString]
  | String a s' =>
      if Ascii.eqb a c then EmptyString :: split_at c s'
      else match split_at c s' with
           | h :: t => String a h :: t
           | [] => [String a EmptyString]
           end
  end.

(** Bytes as code points below 256. *)
Definition of_bytes (l : list N) : string :=
  string_of_list_ascii (map ascii_of_N l).

(** The UTF-8 encodings of the characters [str.isspace] accepts. *)
Definition space_encodings : list string :=
  map of_bytes ([[9]; [10]; [11]; [12]; [13]; [28]; [29]; [30]; [31]; [32]; [194; 133]; [194; 160];
                 [225; 154; 128]; [226; 128; 168]; [226; 128; 169]; [226; 128; 175];
                 [226; 129; 159]; [227; 128; 128]]%N
                ++ map (fun k => [226; 128; 128 + N.of_nat k]%N) (seq 0 11)).

(** [s] without the prefix [p], when it has it. *)
Fixpoint drop_prefix (p s : string) : option string :=
  match p, s with
  | EmptyString, _ => Some s
  | String a p', String b s' => if Ascii.eqb a b then drop_prefix p' s' else None
  | String _ _, EmptyString => None
  end.

Fixpoint first_drop (ps : list string) (s : string) : option string :=
  match ps with
  | [] => None
  | p :: ps' => match drop_prefix p s with Some t => Some t | None => first_drop ps' s end
  end.

Fixpoint lstrip_with (fuel : nat) (ps : list string) (s : string) : string :=
  match fuel with
  | O => s
  | S n => match first_drop ps s with Some t => lstrip_with n ps t | None => s end
  end.

Definition string_rev (s : string) : string := string_of_list_ascii (rev (list_ascii_of_string s)).

(** [s.strip()]: each step drops at least one byte, so the length is fuel enough. *)
Definition strip (s : string) : string :=
  let l := lstrip_with (String.length s) space_encodings s in
  string_rev (lstrip_with (String.length l) (map string_rev space_encodings) (string_rev l)).

(** [len(s)]: a code point has one byte that does not continue another. *)
Definition py_len (s : string) : Z :=
  countb (fun a => let n := N_of_ascii a in negb ((128 <=? n)%N && (n <? 192)%N)) (list_ascii_of_string s).

(** [s.lower()] on the ASCII letters.  A non-ASCII letter keeps its bytes; its lower case differs
    from an ASCII string either way unless it is the Kelvin sign, whose lower case is [k]. *)
Definition lower_ascii (a : ascii) : ascii :=
  let n := N_of_ascii a in
  if (65 <=? n)%N && (n <=? 90)%N then ascii_of_N (n + 32) else a.
Fixpoint lower (s : string) : string :=
  match s with EmptyString => EmptyString | String a s' => String (lower_ascii a) (lower s') end.

Definition ascii_digit (a : ascii) : bool :=
  let n := N_of_ascii a in (48 <=? n)%N && (n <=? 57)%N.
Definition is_ascii (a : ascii) : bool := (N_of_ascii a <? 128)%N.

Definition decimal_value (s : string) : Z :=
  fold_left (fun v a => 10 * v + (Z.of_N (N_of_ascii a) - 48)) (list_ascii_of_string s) 0.

(** [s.isdigit()] and [int(s)]. *)
Class Digits := {
  isdigit : string -> bool;
  int_of : string -> result Z
}.

(** What the language reference says of them: on ASCII text [isdigit] is "non-empty and all of
    0-9", and [int] reads such a text (up to the interpreter's limit of 4300 digits) in decimal;
    the superscript two is a digit character that is not a decimal one, so [isdigit] accepts it and
    [int] refuses it. *)
Definition superscript_two : string := of_bytes [194; 178]%N.

Class DigitsLaws `{Digits} : Prop := {
  isdigit_empty : isdigit EmptyString = false;
  isdigit_ascii s : forallb is_ascii (list_ascii_of_string s) = true -> s <> EmptyString ->
    isdigit s = forallb ascii_digit (list_ascii_of_string s);
  int_ascii s : s <> EmptyString -> forallb ascii_digit (list_ascii_of_string s) = true ->
    (String.length s <= 4300)%nat -> int_of s = Ok (decimal_value s);
  isdigit_superscript : isdigit superscript_two = true;
  int_superscript : int_of superscript_two = Raise ValueError
}.

(** An interpretation that knows the ASCII digits and that one superscript. *)
Definition ascii_number (s : string) : bool :=
  negb (String.eqb s EmptyString) && forallb ascii_digit (list_ascii_of_string s).
#[local] Instance sample_digits : Digits := {|
  isdigit s := ascii_number s || String.eqb s superscript_two;
  int_of s := if ascii_number s && (String.length s <=? 4300)%nat then Ok (decimal_value s)
              else Raise ValueError
|}.

#[local] Instance sample_digits_laws : DigitsLaws.
Proof.
  assert (Hn : forall s, s <> EmptyString -> ascii_number s = forallb ascii_digit (list_ascii_of_string s)).
  { intros s Hs. unfold ascii_number. by rewrite (proj2 (String.eqb_neq s EmptyString) Hs). }
  split; cbn [isdigit int_of sample_digits].
  - reflexivity.
  - intros s Ha Hs. rewrite Hn by done.
    destruct (String.eqb_spec s superscript_two) as [->|]; [discriminate Ha|]. by rewrite orb_false_r.
  - intros s Hs Hd Hl. rewrite Hn, Hd by done. by rewrite (proj2 (Nat.leb_le _ _) Hl).
  - reflexivity.
  - reflexivity.
Qed.

Example strip_lower : lower (strip (String.append (of_bytes [194; 160]%N) " F16 "%string)) = "f16"%string.
Proof. reflexivity. Qed.
