(* ===== verification/Ordering.v ===== *)
(** * Orders and groups by Python keys

    Python compares strings by code point, tuples and lists lexicographically and sorts stably.  A
    key's order is a three-way comparison; the class below is what makes it a total order, its
    instances follow the shape of the key, and the lemmas say what [sorted] and [max] by a key
    return, and what grouping by a key into a dictionary of lists yields. *)

From Stdlib Require Import Ascii String.
From S2P Require Import Prelude.
#[local] Open Scope Z_scope.

Class TotalCmp {A} (cmp : A -> A -> comparison) : Prop := {
  cmp_eq x y : cmp x y = Eq <-> x = y;
  cmp_opp x y : cmp y x = CompOpp (cmp x y);
  cmp_trans x y z : cmp x y = Lt -> cmp y z = Lt -> cmp x z = Lt
}.

Lemma cmp_refl {A} (cmp : A -> A -> comparison) `{TotalCmp A cmp} x : cmp x x = Eq.
Proof. by apply cmp_eq. Qed.

#[export] Hint Mode TotalCmp - ! : typeclass_instances.

(** Larger first. *)
Definition cmp_desc {A} (cmp : A -> A -> comparison) (x y : A) : comparison := cmp y x.

(** Tuples. *)
Definition cmp_pair {A B} (ca : A -> A -> comparison) (cb : B -> B -> comparison) (x y : A * B)
  : comparison :=
  match ca x.1 y.1 with Eq => cb x.2 y.2 | r => r end.

(** Tuples of one type and any length: a proper prefix is smaller. *)
Fixpoint cmp_list {A} (ca : A -> A -> comparison) (l k : list A) : comparison :=
  match l, k with
  | [], [] => Eq
  | [], _ :: _ => Lt
  | _ :: _, [] => Gt
  | x :: l', y :: k' => match ca x y with Eq => cmp_list ca l' k' | r => r end
  end.

(** An optional number with [None] standing for [float("inf")]. *)
Definition cmp_inf {A} (ca : A -> A -> comparison) (x y : option A) : comparison :=
  match x, y with
  | Some a, Some b => ca a b
  | Some _, None => Lt
  | None, Some _ => Gt
  | None, None => Eq
  end.

(** By a key. *)
Definition cmp_on {A K} (key : A -> K) (ck : K -> K -> comparison) (x y : A) : comparison :=
  ck (key x) (key y).

Definition leb_of {A} (cmp : A -> A -> comparison) (x y : A) : bool :=
  match cmp x y with Gt => false | _ => true end.
Definition ltb_of {A} (cmp : A -> A -> comparison) (x y : A) : bool :=
  match cmp x y with Lt => true | _ => false end.

#[global] Typeclasses Opaque cmp_desc cmp_pair cmp_list cmp_inf cmp_on.

(** ** Instances *)

#[export] Instance cmp_Z : TotalCmp Z.compare.
Proof.
  split.
  - apply Z.compare_eq_iff.
  - intros. apply Z.compare_antisym.
  - intros x y z. rewrite !Z.compare_lt_iff. lia.
Qed.

Lemma ascii_compare_trans x y z :
  Ascii.compare x y = Lt -> Ascii.compare y z = Lt -> Ascii.compare x z = Lt.
Proof. unfold Ascii.compare. rewrite !N.compare_lt_iff. lia. Qed.

#[export] Instance cmp_ascii : TotalCmp Ascii.compare.
Proof.
  split.
  - intros x y. split; [apply Ascii.compare_eq_iff|intros ->; apply N.compare_refl].
  - intros x y. apply Ascii.compare_antisym.
  - apply ascii_compare_trans.
Qed.

Lemma ascii_eq x y : Ascii.compare x y = Eq <-> x = y.
Proof. apply cmp_eq. Qed.

#[export] Instance cmp_string : TotalCmp String.compare.
Proof.
  split.
  - intros x y. split; [apply String.compare_eq_iff|intros ->].
    induction y as [|c y IH]; cbn; [done|]. by rewrite (proj2 (ascii_eq c c) eq_refl).
  - intros x y. apply String.compare_antisym.
  - intros x. induction x as [|a x IH]; intros [|b y] [|c z]; cbn; try done.
    destruct (Ascii.compare a b) eqn:E1; try done; destruct (Ascii.compare b c) eqn:E2; try done.
    + apply ascii_eq in E1 as ->, E2 as ->. rewrite (proj2 (ascii_eq c c) eq_refl). apply IH.
    + apply ascii_eq in E1 as ->. by rewrite E2.
    + apply ascii_eq in E2 as ->. by rewrite E1.
    + by rewrite (ascii_compare_trans _ _ _ E1 E2).
Qed.

#[export] Instance cmp_desc_total {A} (cmp : A -> A -> comparison) `{TotalCmp A cmp} :
  TotalCmp (cmp_desc cmp).
Proof.
  unfold cmp_desc. split.
  - intros x y. rewrite cmp_eq. naive_solver.
  - intros x y. apply cmp_opp.
  - intros x y z H1 H2. by apply (cmp_trans z y x).
Qed.

#[export] Instance cmp_pair_total {A B} (ca : A -> A -> comparison) (cb : B -> B -> comparison)
  `{TotalCmp A ca} `{TotalCmp B cb} : TotalCmp (cmp_pair ca cb).
Proof.
  unfold cmp_pair. split.
  - intros [x1 x2] [y1 y2]. cbn. destruct (ca x1 y1) eqn:E.
    + apply cmp_eq in E as ->. rewrite cmp_eq. split; [by intros ->|by intros [= ->]].
    + split; [done|]. intros [= -> ->]. by rewrite (cmp_refl ca y1) in E.
    + split; [done|]. intros [= -> ->]. by rewrite (cmp_refl ca y1) in E.
  - intros [x1 x2] [y1 y2]. cbn. rewrite (cmp_opp x1 y1). destruct (ca x1 y1); cbn; [|done..].
    apply cmp_opp.
  - intros [x1 x2] [y1 y2] [z1 z2]. cbn.
    destruct (ca x1 y1) eqn:E1; try done; destruct (ca y1 z1) eqn:E2; try done.
    + apply cmp_eq in E1 as ->, E2 as ->. rewrite (cmp_refl ca z1). apply cmp_trans.
    + apply cmp_eq in E1 as ->. by rewrite E2.
    + apply cmp_eq in E2 as ->. by rewrite E1.
    + by rewrite (cmp_trans _ _ _ E1 E2).
Qed.

#[export] Instance cmp_list_total {A} (ca : A -> A -> comparison) `{TotalCmp A ca} :
  TotalCmp (cmp_list ca).
Proof.
  split.
  - intros x. induction x as [|a x IH]; intros [|b y]; cbn; try done.
    destruct (ca a b) eqn:E.
    + apply cmp_eq in E as ->. rewrite IH. split; [by intros ->|by intros [= ->]].
    + split; [done|]. intros [= -> ->]. by rewrite (cmp_refl ca b) in E.
    + split; [done|]. intros [= -> ->]. by rewrite (cmp_refl ca b) in E.
  - intros x. induction x as [|a x IH]; intros [|b y]; cbn; try done.
    rewrite (cmp_opp a b). destruct (ca a b); cbn; [apply IH|done..].
  - intros x. induction x as [|a x IH]; intros [|b y] [|c z]; cbn; try done.
    destruct (ca a b) eqn:E1; try done; destruct (ca b c) eqn:E2; try done.
    + apply cmp_eq in E1 as ->, E2 as ->. rewrite (cmp_refl ca c). apply IH.
    + apply cmp_eq in E1 as ->. by rewrite E2.
    + apply cmp_eq in E2 as ->. by rewrite E1.
    + by rewrite (cmp_trans _ _ _ E1 E2).
Qed.

#[export] Instance cmp_inf_total {A} (ca : A -> A -> comparison) `{TotalCmp A ca} :
  TotalCmp (cmp_inf ca).
Proof.
  split.
  - intros [x|] [y|]; cbn; try done. rewrite cmp_eq. split; [by intros ->|by intros [= ->]].
  - intros [x|] [y|]; cbn; try done. apply cmp_opp.
  - intros [x|] [y|] [z|]; cbn; try done. apply cmp_trans.
Qed.

(** ** Sorting and selecting by a key *)

Section by_key.
Context {A K : Type} (key : A -> K) (ck : K -> K -> comparison) `{TotalCmp K ck}.

Lemma leb_of_total x y : leb_of (cmp_on key ck) x y = true \/ leb_of (cmp_on key ck) y x = true.
Proof using All.
  unfold leb_of, cmp_on. rewrite (cmp_opp (key x) (key y)). destruct (ck (key x) (key y)); cbn; auto.
Qed.

Lemma leb_of_trans x y z :
  leb_of (cmp_on key ck) x y = true -> leb_of (cmp_on key ck) y z = true ->
  leb_of (cmp_on key ck) x z = true.
Proof using All.
  unfold leb_of, cmp_on.
  destruct (ck (key x) (key y)) eqn:E1; try done; destruct (ck (key y) (key z)) eqn:E2; try done; intros _ _.
  - apply cmp_eq in E1 as ->, E2 as ->. by rewrite (cmp_refl ck).
  - apply cmp_eq in E1 as ->. by rewrite E2.
  - apply cmp_eq in E2 as <-. by rewrite E1.
  - by rewrite (cmp_trans _ _ _ E1 E2).
Qed.

Lemma leb_of_antisym x y :
  leb_of (cmp_on key ck) x y = true -> leb_of (cmp_on key ck) y x = true -> key x = key y.
Proof using All.
  unfold leb_of, cmp_on. rewrite (cmp_opp (key x) (key y)).
  destruct (ck (key x) (key y)) eqn:E; try done. by apply cmp_eq in E.
Qed.

Lemma sorted_by_key l : StronglySorted (fun x y => leb_of (cmp_on key ck) x y = true)
  (py_sorted (leb_of (cmp_on key ck)) l).
Proof using All. apply py_sorted_Sorted; [apply leb_of_total|apply leb_of_trans]. Qed.

(** Two sorted lists with the same elements and distinct keys are the same list. *)
Lemma sorted_unique l k :
  StronglySorted (fun x y => leb_of (cmp_on key ck) x y = true) l ->
  StronglySorted (fun x y => leb_of (cmp_on key ck) x y = true) k ->
  l ≡ₚ k -> NoDup (map key l) -> l = k.
Proof using All.
  intros Hl. revert k. induction Hl as [|x l Hl IH Hx]; intros k Hk Hp Hn.
  - by apply Permutation_nil in Hp as ->.
  - destruct k as [|y k]; [by apply Permutation_sym, Permutation_nil in Hp|].
    assert (x = y) as <-.
    { apply StronglySorted_inv in Hk as [Hk Hy]. rewrite Forall_forall in Hx, Hy.
      assert (Hyx : y ∈ x :: l) by (rewrite Hp; left).
      assert (Hxy : x ∈ y :: k) by (rewrite <- Hp; left).
      apply elem_of_cons in Hyx as [->|Hyl]; [done|].
      apply elem_of_cons in Hxy as [->|Hxk]; [done|].
      cbn in Hn. apply NoDup_cons in Hn as [Hnin _]. exfalso. apply Hnin.
      rewrite (leb_of_antisym x y) by auto. by apply list_elem_of_fmap_2. }
    f_equal. apply StronglySorted_inv in Hk as [Hk _]. cbn in Hn. apply NoDup_cons in Hn as [_ Hn].
    apply Permutation_cons_inv in Hp. by apply IH.
Qed.

(** Sorting by distinct keys depends on the set of elements only. *)
Lemma sort_permutation l k :
  l ≡ₚ k -> NoDup (map key l) ->
  py_sorted (leb_of (cmp_on key ck)) l = py_sorted (leb_of (cmp_on key ck)) k.
Proof using All.
  intros Hp Hn. apply sorted_unique; [apply sorted_by_key..| |].
  - by rewrite !py_sorted_perm.
  - enough (map key (py_sorted (leb_of (cmp_on key ck)) l) ≡ₚ map key l) as -> by done.
    apply fmap_Permutation, py_sorted_perm.
Qed.

(** [max(l, key=...)]: an element of the list no other element is above. *)
Lemma py_max_spec best l :
  py_max_from (ltb_of (cmp_on key ck)) best l ∈ best :: l /\
  forall x, x ∈ best :: l -> leb_of (cmp_on key ck) x (py_max_from (ltb_of (cmp_on key ck)) best l) = true.
Proof using All.
  assert (Hrefl : forall x, leb_of (cmp_on key ck) x x = true).
  { intros x. unfold leb_of, cmp_on. by rewrite (cmp_refl ck). }
  revert best. induction l as [|y l IH]; intros best; cbn [py_max_from].
  - split; [left|]. intros x Hx. apply elem_of_cons in Hx as [->|Hx]; [done|]. by apply elem_of_nil in Hx.
  - set (b := if ltb_of (cmp_on key ck) best y then y else best).
    assert (Hb : b ∈ [best; y] /\ leb_of (cmp_on key ck) best b = true /\ leb_of (cmp_on key ck) y b = true).
    { unfold b, ltb_of.
      assert (Hflip : cmp_on key ck y best = CompOpp (cmp_on key ck best y))
        by exact (cmp_opp (cmp := ck) (key best) (key y)).
      destruct (cmp_on key ck best y) eqn:E.
      - split; [left|]. split; [done|]. unfold leb_of. by rewrite Hflip.
      - split; [right; left|]. split; [|done]. unfold leb_of. by rewrite E.
      - split; [left|]. split; [done|]. unfold leb_of. by rewrite Hflip. }
    destruct Hb as (Hin & H1 & H2). destruct (IH b) as [Hm Hmax]. split.
    + apply elem_of_cons in Hm as [->|Hm]; set_solver.
    + intros x Hx. apply elem_of_cons in Hx as [->|Hx].
      * eapply leb_of_trans; [exact H1|apply Hmax; left].
      * apply elem_of_cons in Hx as [->|Hx]; [eapply leb_of_trans; [exact H2|apply Hmax; left]|].
        apply Hmax. by right.
Qed.
End by_key.

(** ** Groups *)

(** [grouped.setdefault(key(x), []).append(x)] over the list: groups in order of first key. *)
Fixpoint group_add {K A} `{EqDecision K} (k : K) (x : A) (groups : list (K * list A))
  : list (K * list A) :=
  match groups with
  | [] => [(k, [x])]
  | (k', xs) :: rest => if bool_decide (k' = k) then (k', xs ++ [x]) :: rest
                        else (k', xs) :: group_add k x rest
  end.

Definition group_by {K A} `{EqDecision K} (key : A -> K) (l : list A) : list (K * list A) :=
  fold_left (fun gs x => group_add (key x) x gs) l [].

Section groups.
Context {A K : Type} `{EqDecision K} (key : A -> K).

Definition groups_of (l : list A) (gs : list (K * list A)) : Prop :=
  NoDup gs.*1 /\
  forall k xs, (k, xs) ∈ gs <-> xs = List.filter (fun x => bool_decide (key x = k)) l /\ xs <> [].

Lemma group_add_fst k x (gs : list (K * list A)) :
  (group_add k x gs).*1 = if bool_decide (k ∈ gs.*1) then gs.*1 else gs.*1 ++ [k].
Proof.
  induction gs as [|[k' xs] gs IH]; cbn; [done|]. destruct (decide (k' = k)) as [->|Hne].
  - rewrite bool_decide_eq_true_2 by done. cbn. rewrite bool_decide_eq_true_2; [done|].
    apply elem_of_cons. by left.
  - rewrite (bool_decide_eq_false_2 (k' = k)) by done. cbn. rewrite IH.
    destruct (decide (k ∈ gs.*1)) as [Hin|Hin].
    + rewrite (bool_decide_eq_true_2 (k ∈ gs.*1)) by done. rewrite bool_decide_eq_true_2; [done|].
      apply elem_of_cons. by right.
    + rewrite (bool_decide_eq_false_2 (k ∈ gs.*1)) by done. rewrite bool_decide_eq_false_2; [done|].
      rewrite elem_of_cons. intros [?|?]; congruence.
Qed.

Lemma group_add_elem k x (gs : list (K * list A)) k0 xs0 :
  NoDup gs.*1 ->
  (k0, xs0) ∈ group_add k x gs <->
    (k0 <> k /\ (k0, xs0) ∈ gs) \/
    (k0 = k /\ exists xs, xs0 = xs ++ [x] /\ ((k, xs) ∈ gs \/ (xs = [] /\ k ∉ gs.*1))).
Proof.
  induction gs as [|[k' xs'] gs IH]; intros Hn; cbn [group_add].
  - rewrite list_elem_of_singleton. split.
    + intros [= -> ->]. right. split; [done|]. exists []. split; [done|]. right.
      split; [done|]. apply not_elem_of_nil.
    + intros [[_ ?%elem_of_nil]|[-> (xs & -> & [?%elem_of_nil|[-> _]])]]; done.
  - cbn in Hn. apply NoDup_cons in Hn as [Hk' Hn]. specialize (IH Hn).
    assert (Hmem : forall ys, (k', ys) ∉ gs).
    { intros ys Hy. apply Hk'. by apply (list_elem_of_fmap_2 fst) in Hy. }
    case_bool_decide as E; cbn; setoid_rewrite elem_of_cons.
    + subst k'. split.
      * intros [[= -> ->]|Hin]; [right; split; [done|]; exists xs'; auto|].
        left. split; [|auto]. intros ->. by apply (Hmem xs0).
      * intros [[Hne [Heq|Hin]]|[-> (xs & -> & [[Heq|Hin]|[_ Hnk]])]].
        -- congruence.
        -- by right.
        -- left. congruence.
        -- by apply Hmem in Hin.
        -- destruct Hnk. by left.
    + rewrite IH. split.
      * intros [[= -> ->]|[[Hne Hin]|[-> (xs & -> & Hxs)]]]; [left; auto|left; auto|].
        right. split; [done|]. exists xs. split; [done|]. destruct Hxs as [?|[-> Hnk]]; [auto|].
        right. split; [done|]. intros [?|?]; congruence.
      * intros [[Hne [Heq|Hin]]|[-> (xs & -> & [[Heq|Hin]|[-> Hnk]])]].
        -- by left.
        -- right. by left.
        -- congruence.
        -- right. right. split; [done|]. exists xs. auto.
        -- right. right. split; [done|]. exists []. split; [done|]. right. split; [done|].
           intros ?. apply Hnk. by right.
Qed.

Lemma group_add_groups l gs x : groups_of l gs -> groups_of (l ++ [x]) (group_add (key x) x gs).
Proof.
  intros [Hn Hg]. split.
  - rewrite group_add_fst. case_bool_decide as Hin; [done|].
    apply NoDup_app. split; [done|]. split; [|apply NoDup_singleton].
    intros y Hy ->%list_elem_of_singleton. done.
  - intros k xs. rewrite group_add_elem by done. rewrite List.filter_app. cbn.
    assert (Hnone : key x ∉ gs.*1 -> List.filter (fun y => bool_decide (key y = key x)) l = []).
    { intros Hni. destruct (List.filter _ l) as [|y ys] eqn:E; [done|]. destruct Hni.
      change (key x) with (key x, y :: ys).1. apply list_elem_of_fmap_2, Hg. by rewrite E. }
    split.
    + intros [[Hne [-> Hne2]%Hg]|[-> (ys & -> & [[-> Hy]%Hg|[-> Hni]])]].
      * rewrite bool_decide_eq_false_2 by done. by rewrite app_nil_r.
      * rewrite bool_decide_eq_true_2 by done. split; [done|]. by destruct (List.filter _ l).
      * rewrite bool_decide_eq_true_2, Hnone by done. done.
    + case_bool_decide as E; intros [-> Hne].
      * right. split; [done|]. subst k. eexists. split; [reflexivity|].
        destruct (decide (key x ∈ gs.*1)) as [Hin|Hin]; [left|right; auto].
        apply list_elem_of_fmap in Hin as ([k' ys] & Hk & Hy). cbn in Hk. subst k'.
        by pose proof (proj1 (proj1 (Hg _ _) Hy)) as <-.
      * left. rewrite app_nil_r in *. split; [done|]. by apply Hg.
Qed.

Lemma group_by_groups l : groups_of l (group_by key l).
Proof.
  unfold group_by. induction l as [|x l IH] using rev_ind.
  - split; [constructor|]. intros k xs. cbn. split; [by intros ?%elem_of_nil|by intros [-> ?]].
  - rewrite fold_left_app. cbn. by apply group_add_groups.
Qed.
End groups.

(** Positions in a sorted list. *)
Lemma sorted_lookup_lt {A} (R : A -> A -> Prop) l i j x y :
  StronglySorted R l -> (i < j)%nat -> l !! i = Some x -> l !! j = Some y -> R x y.
Proof.
  intros Hs. revert i j. induction Hs as [|z l Hs IH Hz]; intros i j Hij Hi Hj; [done|].
  rewrite Forall_forall in Hz. destruct i as [|i], j as [|j]; cbn in *; try lia.
  - simplify_eq. apply Hz. by eapply list_elem_of_lookup_2.
  - apply (IH i j); [lia|done..].
Qed.
