(* ===== verification/EvidencePolicy.v ===== *)
(** * The evidence policy ([domain/evidence_policy.py])

    What an imported measurement binds to, whether it is stale, whether it describes this machine,
    and which of several records of one subject is the one that scores.  Instants are microseconds.
    The sentences a decision carries are kept as data: the constructor of a note says which sentence
    it is, its arguments are the values it interpolates. *)

From Stdlib Require Import Ascii String.
From S2P Require Import Prelude PyFloat Json PyStr Ordering.
#[local] Open Scope string_scope.
#[local] Open Scope list_scope.
#[local] Open Scope Z_scope.

Definition USER_CAPABILITY_ROOT : string := "user".
Definition QUALITY_HALF_LIFE_DAYS : Z := 90.
Definition PERFORMANCE_HALF_LIFE_DAYS : Z := 30.
Definition FRESHNESS_FLOOR : f64 := flit 3 10.
Definition STALE_BELOW_FRESHNESS : f64 := flit 1 2.
Definition PERFORMANCE_CAPABILITY_ROOTS : list string :=
  ["speed"; "latency"; "memory_efficiency"; "energy_efficiency"].
Definition EVIDENCE_PROFILE_MISMATCH : string := "evidence_profile_mismatch".
Definition EVIDENCE_FOREIGN_MACHINE : string := "evidence_foreign_machine".
Definition EVIDENCE_UNBOUND : string := "evidence_unbound".
Definition EVIDENCE_EXCLUSIONS : list string :=
  [EVIDENCE_PROFILE_MISMATCH; EVIDENCE_FOREIGN_MACHINE; EVIDENCE_UNBOUND].
Definition DRIFT_FIELDS_ALL : list string := ["provider_kind"; "provider_version"].
Definition DRIFT_FIELDS_PERFORMANCE : list string := ["gpu_driver_version"; "cuda_version"].

(** ** Identities and their binding *)

Inductive MatchState := BOUND | UNMATCHED | AMBIGUOUS_NAME_ONLY.

#[export] Instance MatchState_eq_dec : EqDecision MatchState.
Proof. solve_decision. Defined.

Definition match_state_value (m : MatchState) : string :=
  match m with BOUND => "bound" | UNMATCHED => "unmatched" | AMBIGUOUS_NAME_ONLY => "ambiguous_name_only" end.

Record EvidenceIdentity := mkIdentity {
  id_provider_kind : string;
  id_provider_model_name : string;
  id_artifact_digest : option string;
  id_canonical_id : string;
  id_adapter_name : option string;
  id_adapter_artifact_digest : option string
}.

Definition is_name_only (i : EvidenceIdentity) : bool := bool_decide (id_artifact_digest i = None).
Definition is_adapter_bearing (i : EvidenceIdentity) : bool :=
  bool_decide (id_adapter_artifact_digest i <> None).

Record LocalModel := mkLocalModel {
  lm_model_id : string;
  lm_provider_kind : string;
  lm_provider_model_name : string;
  lm_artifact_digest : option string;
  lm_canonical_id : string
}.

Record LocalAdapter := mkLocalAdapter {
  la_adapter_id : string;
  la_artifact_digest : string;
  la_name : string
}.

Inductive BindingNote :=
| ExactTriple
| RegistryUpgraded (digest : option string)
| NoDiscoveredModel
| NameOnlyAgainstDigest
| NoSuchAdapter (label : option string)
| AdapterButNoBase (label : option string) (base : BindingNote)
| BoundUnderAdapter (label : option string) (base : BindingNote).

Record Binding := mkBinding {
  bi_match_state : MatchState;
  bi_model_id : option string;
  bi_upgrade_model_id : option string;
  bi_upgrade_digest : option string;
  bi_note : BindingNote;
  bi_adapter_id : option string
}.

Definition is_bound (b : Binding) : bool := bool_decide (bi_match_state b = BOUND).

Definition same_name (i : EvidenceIdentity) (row : LocalModel) : bool :=
  bool_decide (lm_provider_kind row = id_provider_kind i) &&
  bool_decide (lm_provider_model_name row = id_provider_model_name i).

(** [next((row for row in rows if p(row)), None)]. *)
Definition find_first {A} (p : A -> bool) (l : list A) : option A := head (List.filter p l).

Definition bind_base (i : EvidenceIdentity) (registry : list LocalModel) : Binding :=
  let same := List.filter (same_name i) registry in
  match find_first (fun row => bool_decide (lm_artifact_digest row = id_artifact_digest i)) same with
  | Some row => mkBinding BOUND (Some (lm_model_id row)) None None ExactTriple None
  | None =>
      match id_artifact_digest i with
      | Some digest =>
          match find_first (fun row => bool_decide (lm_artifact_digest row = None)) same with
          | Some row =>
              mkBinding BOUND (Some (lm_model_id row)) (Some (lm_model_id row)) (Some digest)
                (RegistryUpgraded (Some digest)) None
          | None => mkBinding UNMATCHED None None None NoDiscoveredModel None
          end
      | None =>
          match same with
          | _ :: _ => mkBinding AMBIGUOUS_NAME_ONLY None None None NameOnlyAgainstDigest None
          | [] => mkBinding UNMATCHED None None None NoDiscoveredModel None
          end
      end
  end.

(** [identity.adapter_name or identity.adapter_artifact_digest]. *)
Definition adapter_label (i : EvidenceIdentity) : option string :=
  match id_adapter_name i with
  | Some n => if bool_decide (n = "") then id_adapter_artifact_digest i else Some n
  | None => id_adapter_artifact_digest i
  end.

Definition bind_identity (i : EvidenceIdentity) (registry : list LocalModel)
    (adapters : list LocalAdapter) : Binding :=
  let base := bind_base i registry in
  if negb (is_adapter_bearing i) then base
  else
    let label := adapter_label i in
    match find_first (fun row => bool_decide (Some (la_artifact_digest row) = id_adapter_artifact_digest i))
            adapters with
    | None => mkBinding UNMATCHED None None None (NoSuchAdapter label) None
    | Some resolved =>
        if negb (is_bound base)
        then mkBinding (bi_match_state base) None None None (AdapterButNoBase label (bi_note base)) None
        else mkBinding BOUND (bi_model_id base) (bi_upgrade_model_id base) (bi_upgrade_digest base)
               (BoundUnderAdapter label (bi_note base)) (Some (la_adapter_id resolved))
    end.

(** ** Capability terms *)

Definition is_user_capability (capability_id : string) : bool :=
  let '(root, separator, slug) := partition_at "." capability_id in
  bool_decide (root = USER_CAPABILITY_ROOT) && separator && negb (bool_decide (slug = "")).

Definition user_goal_slug (capability_id : string) : option string :=
  if is_user_capability capability_id then Some (partition_at "." capability_id).2 else None.

Definition weights_admit (capability_id : string) (weights : gmap string f64) : bool :=
  if is_user_capability capability_id then bool_decide (is_Some (weights !! capability_id)) else true.

Definition is_performance_capability (capability_id : string) : bool :=
  bool_decide ((partition_at "." capability_id).1.1 ∈ PERFORMANCE_CAPABILITY_ROOTS).

Definition capability_half_life_days (capability_id : string) : Z :=
  if is_performance_capability capability_id then PERFORMANCE_HALF_LIFE_DAYS
  else QUALITY_HALF_LIFE_DAYS.

Definition machine_admits (evidence_fingerprint : string) (local_fingerprint : option string)
    (capability_id : string) : bool :=
  match local_fingerprint with
  | None => true
  | Some local => if bool_decide (evidence_fingerprint = local) then true
                  else negb (is_performance_capability capability_id)
  end.

Definition profile_admits (evidence_profile_hash candidate_profile_hash : string) : bool :=
  bool_decide (evidence_profile_hash = candidate_profile_hash).

(** ** Staleness *)

(** [0.5 ** x], the C library's [pow]. *)
Class HalfPow := { half_pow : f64 -> f64 }.

Class HalfPowLaws `{HalfPow} : Prop := {
  half_pow_0 : half_pow 0 = fone;
  half_pow_antitone x y : 0 <= x <= y -> half_pow y <= half_pow x
}.

(** [max(0, int(seconds // 86400))]: the floor of the exact quotient. *)
Definition whole_days (seconds : f64) : Z := Z.max 0 (seconds / (86400 * fone)).

Definition freshness_factor `{HalfPow} (measured_at now : Z) (capability_id : string) : f64 :=
  let age_days := Z.max 0 (fdiv (total_seconds (now - measured_at)) (86400 * fone)) in
  let decayed := half_pow (fdiv age_days (of_int (capability_half_life_days capability_id))) in
  Z.max FRESHNESS_FLOOR (Z.min fone decayed).

(** [before != after] on values an environment record holds. *)
Class PyEq := { py_ne : json -> json -> bool }.

Fixpoint first_drift `{PyEq} (measured current : list (string * json)) (fields : list string)
  : option string :=
  match fields with
  | [] => None
  | field :: fields' =>
      match default JNull (assoc field measured), default JNull (assoc field current) with
      | JNull, _ | _, JNull => first_drift measured current fields'
      | before, after =>
          if py_ne before after then Some field else first_drift measured current fields'
      end
  end.

Definition environment_drift `{PyEq} (measured current : option (list (string * json)))
    (capability_id : string) : option string :=
  match measured, current with
  | Some ((_ :: _) as m), Some ((_ :: _) as c) =>
      first_drift m c (if is_performance_capability capability_id
                       then DRIFT_FIELDS_ALL ++ DRIFT_FIELDS_PERFORMANCE else DRIFT_FIELDS_ALL)
  | _, _ => None
  end.

Record Staleness := mkStaleness {
  st_stale : bool;
  st_reason : option string;
  st_age_days : Z;
  st_freshness_factor : f64;
  st_half_life_days : Z
}.

Definition evaluate_staleness `{HalfPow} (measured_at now : Z) (capability_id : string)
    (drift_field : option string) (superseded source_unreachable : bool) : Staleness :=
  let age_days := whole_days (total_seconds (now - measured_at)) in
  let factor := freshness_factor measured_at now capability_id in
  let half_life := capability_half_life_days capability_id in
  let stale reason := mkStaleness true (Some reason) age_days factor half_life in
  if superseded then stale "superseded"
  else if source_unreachable then stale "source_unreachable"
  else match drift_field with
       | Some field => stale ("environment_drift:" +:+ field)
       | None =>
           if factor <? STALE_BELOW_FRESHNESS then stale "freshness"
           else mkStaleness false None age_days factor half_life
       end.

(** ** Selecting the record that scores *)

Record CalibrationFacts := mkCalibration {
  kappa_w : f64;
  n_holdout : Z;
  graded_by : string;
  cal_measured_at : Z
}.

Record EvidenceCandidate := mkCandidate {
  ec_row_id : string;
  ec_capability_id : string;
  ec_runtime_profile_hash : string;
  ec_machine_fingerprint : string;
  ec_policy_version : string;
  ec_measured_at : Z;
  ec_score : f64;
  ec_confidence : f64;
  ec_sample_count : Z;
  ec_benchmark_versions : list (string * string);
  ec_calibration : option CalibrationFacts
}.

(** [tuple(f(x) for x in l)] with a body that can raise. *)
Fixpoint map_ok {A B} (f : A -> result B) (l : list A) : result (list B) :=
  match l with
  | [] => Ok []
  | x :: l' => y ← f x; ys ← map_ok f l'; Ok (y :: ys)
  end.

(** [parts and all(...)]: [split] never returns an empty list. *)
Definition policy_version_key `{Digits} (policy_version : string) : result (list Z * string) :=
  let parts := split_at "." policy_version in
  if forallb isdigit parts
  then ns ← map_ok int_of parts; Ok (ns, policy_version)
  else Ok ([], policy_version).

Definition SelectionKey : Type := Z * ((list Z * string) * (Z * string)).

Definition cmp_selection : SelectionKey -> SelectionKey -> comparison :=
  cmp_pair Z.compare (cmp_pair (cmp_pair (cmp_list Z.compare) String.compare)
                        (cmp_pair Z.compare String.compare)).

Definition is_local (local : option string) (c : EvidenceCandidate) : bool :=
  match local with None => true | Some m => bool_decide (ec_machine_fingerprint c = m) end.

Definition selection_key `{Digits} (local : option string) (c : EvidenceCandidate)
  : result SelectionKey :=
  version ← policy_version_key (ec_policy_version c);
  Ok (if is_local local c then 1 else 0, (version, (ec_measured_at c, ec_row_id c))).

(** [max(group, key=...)]: every key is computed; a group is never empty. *)
Definition best_of `{Digits} (local : option string) (group : list EvidenceCandidate)
  : result EvidenceCandidate :=
  keyed ← map_ok (fun c => k ← selection_key local c; Ok (k, c)) group;
  match keyed with
  | [] => Raise ValueError
  | kc :: rest => Ok (py_max_from (ltb_of (cmp_on fst cmp_selection)) kc rest).2
  end.

Definition evidence_key (c : EvidenceCandidate) : string * string :=
  (ec_capability_id c, ec_runtime_profile_hash c).

(** [sorted(grouped.items())]: the keys are distinct, so the groups are never compared. *)
Definition cmp_key : string * string -> string * string -> comparison :=
  cmp_pair String.compare String.compare.

Definition collapse_evidence `{Digits} (candidates : list EvidenceCandidate) (local : option string)
  : result (list EvidenceCandidate) :=
  map_ok (fun g => best_of local g.2)
    (py_sorted (leb_of (cmp_on fst cmp_key)) (group_by evidence_key candidates)).

(** ** The overview's status *)

Record EvidenceOverview := mkOverview {
  eo_configured : bool;
  eo_source_status : option string;
  eo_rows : Z;
  eo_bound : Z;
  eo_unmatched : Z;
  eo_ambiguous : Z;
  eo_stale : Z;
  eo_imported_at : option Z;
  eo_generated_at : option Z;
  eo_oldest_measured_at : option Z;
  eo_newest_measured_at : option Z;
  eo_bundle_schema_version : option string;
  eo_policy_version : option string;
  eo_vocabulary_version : option string;
  eo_error_text : option string
}.

Definition overview_status (o : EvidenceOverview) : string :=
  if negb (eo_configured o) && (eo_rows o =? 0) then "not_configured"
  else match eo_source_status o with
       | Some s =>
           if bool_decide (s ∈ ["unreachable"; "refused"; "incompatible"; "failed"]) then s
           else if (eo_rows o =? 0) then "none" else "ok"
       | None => if (eo_rows o =? 0) then "none" else "ok"
       end.

(** ** Binding *)

Lemma find_first_Some {A} (p : A -> bool) l x : find_first p l = Some x -> x ∈ l /\ p x = true.
Proof.
  unfold find_first. intros H. assert (Hin : x ∈ List.filter p l).
  { destruct (List.filter p l); [done|]. injection H as ->. left. }
  apply list_elem_of_In, List.filter_In in Hin as [Hin Hp]. by rewrite list_elem_of_In.
Qed.

Lemma find_first_None {A} (p : A -> bool) l : find_first p l = None <-> forall x, x ∈ l -> p x = false.
Proof.
  unfold find_first. induction l as [|y l IH]; cbn; [split; [by intros _ x ?%elem_of_nil|done]|].
  destruct (p y) eqn:Ep; cbn.
  - split; [done|]. intros H. rewrite (H y) in Ep by left. done.
  - rewrite IH. split.
    + intros H x [->|Hx]%elem_of_cons; [done|by apply H].
    + intros H x Hx. apply H. by right.
Qed.

Lemma find_first_is_Some {A} (p : A -> bool) l x :
  x ∈ l -> p x = true -> exists y, find_first p l = Some y.
Proof.
  intros Hx Hp. destruct (find_first p l) as [y|] eqn:E; [by exists y|].
  rewrite (proj1 (find_first_None p l) E x Hx) in Hp. done.
Qed.

(** With at most one candidate, the first one does not depend on the order. *)
Lemma find_first_perm {A} (p : A -> bool) l k :
  l ≡ₚ k -> (forall x y, x ∈ l -> y ∈ l -> p x = true -> p y = true -> x = y) ->
  find_first p l = find_first p k.
Proof.
  intros Hp Hu. destruct (find_first p l) as [x|] eqn:E.
  - apply find_first_Some in E as [Hx Hpx].
    destruct (find_first_is_Some p k x) as [y Hy]; [by rewrite <- Hp|done|].
    rewrite Hy. apply find_first_Some in Hy as [Hky Hpy]. f_equal. apply Hu; try done. by rewrite Hp.
  - symmetry. apply find_first_None. intros x Hx. rewrite <- Hp in Hx.
    by apply (proj1 (find_first_None p l) E).
Qed.

(** The row an identity names by kind and name, and the triple the schema makes unique. *)
Definition named (i : EvidenceIdentity) (row : LocalModel) : Prop :=
  lm_provider_kind row = id_provider_kind i /\ lm_provider_model_name row = id_provider_model_name i.

Definition row_triple (row : LocalModel) : string * string * option string :=
  (lm_provider_kind row, lm_provider_model_name row, lm_artifact_digest row).

Definition unique_triples (registry : list LocalModel) : Prop :=
  forall x y, x ∈ registry -> y ∈ registry -> row_triple x = row_triple y -> x = y.
Definition unique_digests (adapters : list LocalAdapter) : Prop :=
  forall x y, x ∈ adapters -> y ∈ adapters -> la_artifact_digest x = la_artifact_digest y -> x = y.

Lemma same_name_named i row : same_name i row = true <-> named i row.
Proof. unfold same_name, named. by rewrite andb_true_iff, !bool_decide_eq_true. Qed.

(** A bound base names a row whose weights are proven to be the measured ones, or that becomes so
    by the upgrade it asks for; otherwise nothing is named. *)
Lemma bind_base_sound i registry :
  (is_bound (bind_base i registry) = true ->
     exists row, row ∈ registry /\ named i row /\ bi_model_id (bind_base i registry) = Some (lm_model_id row) /\
       ((lm_artifact_digest row = id_artifact_digest i /\
         bi_upgrade_model_id (bind_base i registry) = None /\ bi_upgrade_digest (bind_base i registry) = None) \/
        (lm_artifact_digest row = None /\ is_Some (id_artifact_digest i) /\
         bi_upgrade_model_id (bind_base i registry) = Some (lm_model_id row) /\
         bi_upgrade_digest (bind_base i registry) = id_artifact_digest i))) /\
  (is_bound (bind_base i registry) = false ->
     bi_model_id (bind_base i registry) = None /\ bi_upgrade_model_id (bind_base i registry) = None /\
     (forall row, row ∈ registry -> named i row ->
        lm_artifact_digest row <> id_artifact_digest i /\
        (is_Some (id_artifact_digest i) -> lm_artifact_digest row <> None))) /\
  bi_adapter_id (bind_base i registry) = None.
Proof.
  unfold bind_base. set (same := List.filter (same_name i) registry).
  assert (Hsame : forall row, row ∈ same <-> row ∈ registry /\ named i row).
  { intros row. unfold same. by rewrite elem_of_filter_bool, same_name_named. }
  destruct (find_first _ same) as [row|] eqn:E1.
  { apply find_first_Some in E1 as [[Hr Hn]%Hsame Hd%bool_decide_eq_true].
    split; [|by split]. intros _. exists row. repeat split; try apply Hn; auto. }
  assert (Hno : forall row, row ∈ registry -> named i row -> lm_artifact_digest row <> id_artifact_digest i).
  { intros row Hr Hn. pose proof (proj1 (find_first_None _ _) E1 row (proj2 (Hsame row) (conj Hr Hn))) as Hf.
    by apply bool_decide_eq_false_1 in Hf. }
  destruct (id_artifact_digest i) as [digest|] eqn:Ei.
  - destruct (find_first (fun row => bool_decide (lm_artifact_digest row = None)) same) as [row|] eqn:E2.
    + apply find_first_Some in E2 as [[Hr Hn]%Hsame Hd%bool_decide_eq_true].
      split; [|by split]. intros _. exists row. split; [done|]. split; [done|]. split; [done|].
      right. by repeat split.
    + split; [done|]. split; [|done]. intros _. do 2 (split; [done|]). intros row Hr Hn.
      split; [by apply Hno|]. intros _.
      pose proof (proj1 (find_first_None _ _) E2 row (proj2 (Hsame row) (conj Hr Hn))) as Hf.
      by apply bool_decide_eq_false_1 in Hf.
  - destruct same; (split; [done|]; split; [|done]; intros _; do 2 (split; [done|]); intros row Hr Hn;
      split; [by apply Hno|by intros []]).
Qed.

Lemma bind_base_perm i r1 r2 :
  r1 ≡ₚ r2 -> unique_triples r1 -> bind_base i r1 = bind_base i r2.
Proof.
  intros Hp Hu. unfold bind_base.
  assert (Hf : List.filter (same_name i) r1 ≡ₚ List.filter (same_name i) r2) by (by apply filter_perm).
  assert (Hd : forall (p : LocalModel -> bool) d, (forall x, p x = true -> lm_artifact_digest x = d) ->
    find_first p (List.filter (same_name i) r1) = find_first p (List.filter (same_name i) r2)).
  { intros p d Hpd. apply find_first_perm; [done|].
    intros x y [Hx [Hk1 Hn1]%same_name_named]%elem_of_filter_bool [Hy [Hk2 Hn2]%same_name_named]%elem_of_filter_bool.
    intros H1%Hpd H2%Hpd. apply Hu; try done. unfold row_triple. congruence. }
  rewrite (Hd _ (id_artifact_digest i)) by (by intros x ?%bool_decide_eq_true).
  rewrite (Hd (fun row => bool_decide (lm_artifact_digest row = None)) None)
    by (by intros x ?%bool_decide_eq_true).
  destruct (find_first _ _); [done|]. destruct (id_artifact_digest i); [done|].
  destruct (List.filter (same_name i) r1) as [|x l] eqn:E1.
  - apply Permutation_nil in Hf as ->. done.
  - destruct (List.filter (same_name i) r2) eqn:E2; [|done].
    by apply Permutation_sym, Permutation_nil in Hf.
Qed.

(** ** The best record of a group *)

Lemma map_ok_Ok {A B} (f : A -> result B) (g : A -> B) l :
  (forall x, x ∈ l -> f x = Ok (g x)) -> map_ok f l = Ok (map g l).
Proof.
  induction l as [|x l IH]; intros H; cbn; [done|]. rewrite H by left. cbn.
  rewrite IH by (intros y Hy; apply H; by right). done.
Qed.

Lemma map_ok_Raise {A B} (f : A -> result B) l x e :
  x ∈ l -> f x = Raise e -> exists e', map_ok f l = Raise e'.
Proof.
  induction l as [|y l IH]; intros Hx He; [by apply elem_of_nil in Hx|]. cbn.
  destruct (f y) as [b|e'] eqn:Ey; [|by eexists]. cbn.
  apply elem_of_cons in Hx as [->|Hx]; [congruence|]. destruct (IH Hx He) as [e' ->]. by eexists.
Qed.

Section collapse.
Context `{Digits}.

Definition readable (c : EvidenceCandidate) : Prop :=
  is_ok (policy_version_key (ec_policy_version c)) = true.

Definition version_of (v : string) : list Z * string :=
  match policy_version_key v with Ok k => k | Raise _ => ([], v) end.

(** The four criteria, in their order. *)
Definition rank_of (local : option string) (c : EvidenceCandidate) : SelectionKey :=
  (if is_local local c then 1 else 0,
   (version_of (ec_policy_version c), (ec_measured_at c, ec_row_id c))).

(** [c] is preferred to [x] or is [x]. *)
Definition at_least (local : option string) (c x : EvidenceCandidate) : Prop :=
  cmp_selection (rank_of local x) (rank_of local c) <> Gt.

#[local] Instance cmp_selection_total : TotalCmp cmp_selection.
Proof. unfold cmp_selection. apply _. Qed.

Lemma selection_key_readable local c : readable c -> selection_key local c = Ok (rank_of local c).
Proof.
  unfold readable, selection_key, rank_of, version_of. destruct (policy_version_key _); done.
Qed.

Lemma best_of_spec local group :
  group <> [] -> (forall c, c ∈ group -> readable c) ->
  exists b, best_of local group = Ok b /\ b ∈ group /\ forall x, x ∈ group -> at_least local b x.
Proof.
  intros Hne Hr. unfold best_of.
  rewrite (map_ok_Ok _ (fun c => (rank_of local c, c))).
  2:{ intros c Hc. by rewrite (selection_key_readable local c (Hr c Hc)). }
  rewrite bind_Ok. destruct group as [|c group]; [done|]. cbn [map].
  set (kc := (rank_of local c, c)). set (rest := map _ group).
  destruct (py_max_spec fst cmp_selection kc rest) as [Hin Hmax].
  set (m := py_max_from _ kc rest) in *.
  assert (Hkeyed : forall p, p ∈ kc :: rest <-> exists x, x ∈ c :: group /\ p = (rank_of local x, x)).
  { intros p. change (kc :: rest) with (map (fun c => (rank_of local c, c)) (c :: group)).
    rewrite list_elem_of_fmap. naive_solver. }
  exists m.2. split; [done|]. apply Hkeyed in Hin as (b & Hb & Em). rewrite Em in *. split; [done|].
  intros x Hx. assert (Hxin : (rank_of local x, x) ∈ kc :: rest) by (apply Hkeyed; by exists x).
  specialize (Hmax _ Hxin). unfold leb_of, cmp_on in Hmax. cbn in Hmax. unfold at_least.
  by destruct (cmp_selection _ _).
Qed.

Lemma at_least_antisym local x y :
  at_least local x y -> at_least local y x -> rank_of local x = rank_of local y.
Proof.
  unfold at_least. rewrite (cmp_opp (rank_of local x) (rank_of local y)).
  destruct (cmp_selection (rank_of local x) (rank_of local y)) eqn:E; cbn; [|done..].
  intros _ _. by apply cmp_eq in E.
Qed.

Lemma rank_of_inj local x y : rank_of local x = rank_of local y -> ec_row_id x = ec_row_id y.
Proof. unfold rank_of. congruence. Qed.

Definition distinct_rows (cs : list EvidenceCandidate) : Prop :=
  forall x y, x ∈ cs -> y ∈ cs -> ec_row_id x = ec_row_id y -> x = y.

(** [c] is the record of its subject and profile that scores. *)
Definition selected (local : option string) (cs : list EvidenceCandidate) (c : EvidenceCandidate) : Prop :=
  c ∈ cs /\ forall x, x ∈ cs -> evidence_key x = evidence_key c -> at_least local c x.

Lemma map_ok_Forall2 {A B} (f : A -> result B) (P : A -> B -> Prop) l :
  (forall x, x ∈ l -> exists y, f x = Ok y /\ P x y) -> exists ys, map_ok f l = Ok ys /\ Forall2 P l ys.
Proof.
  induction l as [|x l IH]; intros Hl; [by exists []|]. cbn.
  destruct (Hl x) as (y & -> & Hy); [apply elem_of_cons; by left|].
  destruct IH as (ys & -> & Hys); [intros z Hz; apply Hl, elem_of_cons; by right|].
  exists (y :: ys). split; [done|]. by constructor.
Qed.

(** A list sorted by distinct keys is strictly sorted by them. *)
Lemma sorted_strict {A} (gs : list ((string * string) * A)) :
  StronglySorted (fun x y => leb_of (cmp_on fst cmp_key) x y = true) gs -> NoDup gs.*1 ->
  StronglySorted (fun x y => cmp_key x y = Lt) gs.*1.
Proof.
  induction 1 as [|g gs Hs IH Hg]; cbn; intros Hn; [constructor|].
  apply NoDup_cons in Hn as [Hnin Hn]. constructor; [by apply IH|].
  rewrite Forall_forall in Hg. apply Forall_forall. intros k Hk. apply list_elem_of_fmap in Hk as (g' & -> & Hg').
  specialize (Hg g' Hg'). unfold leb_of, cmp_on in Hg.
  destruct (cmp_key g.1 g'.1) eqn:E; [|done|done].
  apply (cmp_eq (cmp := cmp_key)) in E. destruct Hnin. rewrite E. by apply list_elem_of_fmap_2.
Qed.

(** What a group and its chosen record have to do with each other. *)
Definition chosen_of (local : option string) (g : (string * string) * list EvidenceCandidate)
    (b : EvidenceCandidate) : Prop :=
  evidence_key b = g.1 /\ b ∈ g.2 /\ forall x, x ∈ g.2 -> at_least local b x.

Lemma collapse_chosen local cs :
  (forall c, c ∈ cs -> readable c) ->
  exists out, collapse_evidence cs local = Ok out /\
    Forall2 (chosen_of local) (py_sorted (leb_of (cmp_on fst cmp_key)) (group_by evidence_key cs)) out.
Proof.
  intros Hr. destruct (group_by_groups evidence_key cs) as [_ Hg].
  unfold collapse_evidence. apply map_ok_Forall2. intros [k xs] Hin. cbn [fst snd].
  apply elem_of_py_sorted in Hin. pose proof (proj1 (Hg k xs) Hin) as [Exs Hne].
  assert (Hmem : forall c, c ∈ xs <-> c ∈ cs /\ evidence_key c = k).
  { intros c. rewrite Exs, elem_of_filter_bool, bool_decide_eq_true. done. }
  destruct (best_of_spec local xs) as (b & Eb & Hb & Hmax); [done|intros c [? _]%Hmem; by apply Hr|].
  exists b. split; [done|]. split; [by apply Hmem in Hb as [_ ?]|]. by split.
Qed.

Lemma strict_by_key local gs out :
  Forall2 (chosen_of local) gs out -> StronglySorted (fun x y => cmp_key x y = Lt) gs.*1 ->
  StronglySorted (fun x y => cmp_key (evidence_key x) (evidence_key y) = Lt) out.
Proof.
  induction 1 as [|g b gs out (Ek & _) Hf IH]; cbn; [constructor|].
  intros [Hs Hall]%StronglySorted_inv. constructor; [by apply IH|].
  rewrite Forall_forall in Hall. apply Forall_forall. intros c Hc.
  apply list_elem_of_lookup in Hc as [i Hi]. destruct (Forall2_lookup_r _ _ _ _ _ Hf Hi) as (g' & Hg' & Ek' & _).
  rewrite Ek, Ek'. apply Hall, list_elem_of_fmap_2. by eapply list_elem_of_lookup_2.
Qed.

Lemma collapse_selects local cs :
  (forall c, c ∈ cs -> readable c) -> distinct_rows cs ->
  exists out, collapse_evidence cs local = Ok out /\
    (forall c, c ∈ out <-> selected local cs c) /\
    StronglySorted (fun x y => cmp_key (evidence_key x) (evidence_key y) = Lt) out.
Proof.
  intros Hr Hd. destruct (collapse_chosen local cs Hr) as (out & Eo & Hf). exists out.
  destruct (group_by_groups evidence_key cs) as [Hnd Hg].
  assert (Hmem : forall k xs c, (k, xs) ∈ group_by evidence_key cs -> c ∈ xs <-> c ∈ cs /\ evidence_key c = k).
  { intros k xs c [-> _]%Hg. by rewrite elem_of_filter_bool, bool_decide_eq_true. }
  split; [done|]. split.
  - intros c. split.
    + intros [i Hi]%list_elem_of_lookup.
      destruct (Forall2_lookup_r _ _ _ _ _ Hf Hi) as ([k xs] & Hgi & Ek & Hc & Hmax). cbn in *.
      apply list_elem_of_lookup_2, elem_of_py_sorted in Hgi.
      split; [by apply (Hmem k xs c Hgi) in Hc as [? _]|].
      intros x Hx Hk. apply Hmax, (Hmem k xs x Hgi). split; [done|congruence].
    + intros [Hc Hmax]. set (k := evidence_key c).
      set (xs := List.filter (fun x => bool_decide (evidence_key x = k)) cs).
      assert (Hxc : c ∈ xs) by (apply elem_of_filter_bool; by rewrite bool_decide_eq_true).
      assert (Hgi : (k, xs) ∈ group_by evidence_key cs).
      { apply Hg. split; [done|]. intros E. rewrite E in Hxc. by apply elem_of_nil in Hxc. }
      pose proof (proj2 (elem_of_py_sorted (leb_of (cmp_on fst cmp_key)) _ _) Hgi) as Hsi.
      apply list_elem_of_lookup in Hsi as [i Hi].
      destruct (Forall2_lookup_l _ _ _ _ _ Hf Hi) as (b & Hb & Ek & Hbx & Hbmax). cbn in *.
      apply (Hmem k xs b Hgi) in Hbx as [Hbc Hbk].
      assert (b = c) as <-; [|by eapply list_elem_of_lookup_2].
      apply Hd; [done..|]. apply (rank_of_inj local), at_least_antisym; [by apply Hbmax|].
      by apply Hmax.
  - apply (strict_by_key local _ _ Hf), sorted_strict; [apply sorted_by_key; apply _|].
    by rewrite py_sorted_perm.
Qed.

(** Two outputs with the same records are the same list. *)
Lemma selected_sorted_agree l k :
  StronglySorted (fun x y => cmp_key (evidence_key x) (evidence_key y) = Lt) l ->
  StronglySorted (fun x y => cmp_key (evidence_key x) (evidence_key y) = Lt) k ->
  (forall c, c ∈ l <-> c ∈ k) -> l = k.
Proof.
  intros Hl. revert k. induction Hl as [|x l Hl IH Hx]; intros k Hk Hm.
  - destruct k as [|y k]; [done|]. exfalso.
    apply (not_elem_of_nil y), Hm, elem_of_cons. by left.
  - inversion Hk as [|y k' Hk' Hy]; subst; [exfalso; apply (not_elem_of_nil x), Hm, elem_of_cons; by left|].
    rewrite Forall_forall in Hx, Hy.
    assert (Hirr : forall z, cmp_key (evidence_key z) (evidence_key z) = Lt -> False).
    { intros z. by rewrite (cmp_refl cmp_key). }
    assert (x = y) as <-.
    { assert (Hxk : x ∈ y :: k') by (apply Hm, elem_of_cons; by left).
      assert (Hyl : y ∈ x :: l) by (apply Hm, elem_of_cons; by left).
      apply elem_of_cons in Hxk as [->|Hxk]; [done|]. apply elem_of_cons in Hyl as [->|Hyl]; [done|].
      destruct (Hirr x). apply (cmp_trans _ (evidence_key y)); [by apply Hx|by apply Hy]. }
    f_equal. apply IH; [done|]. intros c. specialize (Hm c). rewrite !elem_of_cons in Hm.
    split; intros Hc.
    + destruct Hm as [Hm _]. destruct Hm as [->|?]; [by right| |done]. destruct (Hirr x). by apply Hx.
    + destruct Hm as [_ Hm]. destruct Hm as [->|?]; [by right| |done]. destruct (Hirr x). by apply Hy.
Qed.

Lemma collapse_raises local cs c e :
  c ∈ cs -> policy_version_key (ec_policy_version c) = Raise e ->
  exists e', collapse_evidence cs local = Raise e'.
Proof.
  intros Hc He. destruct (group_by_groups evidence_key cs) as [_ Hg].
  set (xs := List.filter (fun x => bool_decide (evidence_key x = evidence_key c)) cs).
  assert (Hxc : c ∈ xs) by (apply elem_of_filter_bool; by rewrite bool_decide_eq_true).
  assert (Hgi : (evidence_key c, xs) ∈ group_by evidence_key cs).
  { apply Hg. split; [done|]. intros E. rewrite E in Hxc. by apply elem_of_nil in Hxc. }
  assert (Hb : exists e', best_of local xs = Raise e').
  { unfold best_of. destruct (map_ok_Raise (fun c => k ← selection_key local c; Ok (k, c)) xs c e Hxc) as [e' ->].
    - unfold selection_key. by rewrite He.
    - by eexists. }
  destruct Hb as [e1 Hb]. unfold collapse_evidence.
  by apply (map_ok_Raise _ _ (evidence_key c, xs) e1); [apply elem_of_py_sorted|].
Qed.
End collapse.

(** ** Freshness *)

Lemma freshness_bounds `{HalfPowLaws} measured_at now c :
  FRESHNESS_FLOOR <= freshness_factor measured_at now c <= fone.
Proof.
  unfold freshness_factor. assert (FRESHNESS_FLOOR <= fone) by (vm_compute; discriminate). lia.
Qed.

Lemma total_seconds_mono a b : a <= b -> total_seconds a <= total_seconds b.
Proof. intros. apply int_div_mono; lia. Qed.

Lemma freshness_antitone `{HalfPowLaws} measured_at now now' c :
  now <= now' -> freshness_factor measured_at now' c <= freshness_factor measured_at now c.
Proof.
  intros Hn. unfold freshness_factor. pose proof fone_pos.
  set (d := of_int (capability_half_life_days c)).
  assert (Hd : 0 < d).
  { unfold d, capability_half_life_days.
    destruct (is_performance_capability c); vm_compute; reflexivity. }
  set (x := Z.max 0 (fdiv (total_seconds (now - measured_at)) (86400 * fone))).
  set (y := Z.max 0 (fdiv (total_seconds (now' - measured_at)) (86400 * fone))).
  assert (Hxy : 0 <= x <= y).
  { assert (fdiv (total_seconds (now - measured_at)) (86400 * fone)
            <= fdiv (total_seconds (now' - measured_at)) (86400 * fone)); [|lia].
    apply fdiv_mono; [lia|]. apply total_seconds_mono. lia. }
  pose proof (half_pow_antitone (fdiv x d) (fdiv y d)
    (conj (fdiv_nonneg x d (proj1 Hxy) Hd) (fdiv_mono x y d Hd (proj2 Hxy)))). lia.
Qed.

Lemma freshness_new `{HalfPowLaws} measured_at now c :
  now <= measured_at -> freshness_factor measured_at now c = fone.
Proof.
  intros Hn. unfold freshness_factor. pose proof fone_pos.
  assert (Hz : fdiv (total_seconds (now - measured_at)) (86400 * fone) <= 0).
  { rewrite fdiv_pos_eq by lia. apply fround_le_repr; [lia|apply repr_0|].
    assert (total_seconds (now - measured_at) <= 0); [|nia].
    unfold total_seconds. rewrite int_div_pos_eq by lia.
    apply fround_le_repr; [lia|apply repr_0|nia]. }
  rewrite (Z.max_l 0) by lia.
  assert (fdiv 0 (of_int (capability_half_life_days c)) = 0) as ->.
  { unfold fdiv. by rewrite Z.mul_0_r, Z.mul_0_l. }
  rewrite half_pow_0. assert (FRESHNESS_FLOOR <= fone) by (vm_compute; discriminate). lia.
Qed.

Lemma whole_days_mono a b : a <= b -> 0 <= whole_days a <= whole_days b.
Proof.
  intros. unfold whole_days. pose proof fone_pos.
  pose proof (Z.div_le_mono a b (86400 * fone) ltac:(lia) H). lia.
Qed.

(** ** Samples for the witnesses *)

Definition sample_registry : list LocalModel :=
  [mkLocalModel "m1" "ollama" "qwen" (Some "sha256:aa") "ollama/qwen@sha256:aa";
   mkLocalModel "m2" "ollama" "llama" None "ollama/llama"].

Definition sample_identity : EvidenceIdentity :=
  mkIdentity "ollama" "llama" (Some "sha256:bb") "ollama/llama@sha256:bb" None None.

Lemma sample_registry_unique : unique_triples sample_registry.
Proof.
  intros x y. unfold sample_registry. rewrite !elem_of_cons, !elem_of_nil.
  intros [->|[->|[]]] [->|[->|[]]] H; solve [done | vm_compute in H; discriminate H].
Qed.

Definition sample_candidate (row capability machine version : string) (at_ : Z) : EvidenceCandidate :=
  mkCandidate row capability "p1" machine version at_ (flit 7 10) (flit 8 10) 30 [] None.

Definition sample_candidates : list EvidenceCandidate :=
  [sample_candidate "r1" "code" "here" "1.9.0" 5; sample_candidate "r2" "code" "here" "1.10.0" 3;
   sample_candidate "r3" "code" "there" "2.0.0" 9].

Lemma sample_candidates_ok :
  (forall c, c ∈ sample_candidates -> @readable sample_digits c) /\ distinct_rows sample_candidates.
Proof.
  split.
  - intros c. unfold sample_candidates. rewrite !elem_of_cons, elem_of_nil.
    intros [->|[->|[->|[]]]]; vm_compute; reflexivity.
  - intros x y. unfold sample_candidates. rewrite !elem_of_cons, !elem_of_nil.
    intros [->|[->|[->|[]]]] [->|[->|[->|[]]]] H; solve [done | vm_compute in H; discriminate H].
Qed.

Definition step_half_pow : HalfPow := {|
  half_pow x := if x <=? 0 then fone else if x <=? fone then flit 1 2 else 0
|}.
Lemma step_half_pow_laws : @HalfPowLaws step_half_pow.
Proof.
  assert (0 <= flit 1 2 <= fone) by (split; vm_compute; discriminate).
  split; cbn [half_pow step_half_pow]; [done|]. intros x y Hxy.
  destruct (Z.leb_spec y 0), (Z.leb_spec x 0); try lia.
  - destruct (Z.leb_spec y fone); lia.
  - destruct (Z.leb_spec y fone), (Z.leb_spec x fone); lia.
Qed.

Module Properties.

(** Binding never attaches a measurement to weights it was not taken on.  An identity is bound
    exactly when a registry row carries its provider kind and name with the same digest, or with no
    digest while the record has one (the upgrade), and, for a record measured under an adapter, an
    adapter row carries that digest; a bound record names such a row, asks for the upgrade exactly
    when the row had no digest, and names an adapter exactly when it was measured under one; an
    unbound record names nothing.  In particular evidence known by name only never binds to a row
    with a digest. *)
Theorem binding_sound (i : EvidenceIdentity) (registry : list LocalModel) (adapters : list LocalAdapter) :
  let b := bind_identity i registry adapters in
  (is_bound b = true <->
     (exists row, row ∈ registry /\ named i row /\
        (lm_artifact_digest row = id_artifact_digest i \/
         (lm_artifact_digest row = None /\ is_Some (id_artifact_digest i)))) /\
     (forall d, id_adapter_artifact_digest i = Some d ->
        exists a, a ∈ adapters /\ la_artifact_digest a = d)) /\
  (is_bound b = true ->
     exists row, row ∈ registry /\ named i row /\ bi_model_id b = Some (lm_model_id row) /\
       ((lm_artifact_digest row = id_artifact_digest i /\
         bi_upgrade_model_id b = None /\ bi_upgrade_digest b = None) \/
        (lm_artifact_digest row = None /\ is_Some (id_artifact_digest i) /\
         bi_upgrade_model_id b = Some (lm_model_id row) /\ bi_upgrade_digest b = id_artifact_digest i)) /\
       (id_adapter_artifact_digest i = None -> bi_adapter_id b = None) /\
       (forall d, id_adapter_artifact_digest i = Some d ->
          exists a, a ∈ adapters /\ la_artifact_digest a = d /\ bi_adapter_id b = Some (la_adapter_id a))) /\
  (is_bound b = false -> bi_model_id b = None /\ bi_upgrade_model_id b = None /\ bi_adapter_id b = None).
Proof.
  intros b. destruct (bind_base_sound i registry) as (Hb & Hu & Ha).
  set (base := bind_base i registry) in *.
  assert (Hrow : is_bound base = true <-> exists row, row ∈ registry /\ named i row /\
            (lm_artifact_digest row = id_artifact_digest i \/
             (lm_artifact_digest row = None /\ is_Some (id_artifact_digest i)))).
  { split.
    - intros Hbd. destruct (Hb Hbd) as (row & Hr & Hn & _ & Hd). exists row. split; [done|]. split; [done|].
      destruct Hd as [[? _]|(? & ? & _)]; auto.
    - intros (row & Hr & Hn & Hd). destruct (is_bound base) eqn:E; [done|].
      destruct (Hu eq_refl) as (_ & _ & Hno). destruct (Hno row Hr Hn) as [H1 H2].
      destruct Hd as [?|[? ?]]; [congruence|]. by destruct (H2 H0). }
  unfold b, bind_identity. fold base. unfold is_adapter_bearing.
  destruct (id_adapter_artifact_digest i) as [d|] eqn:Ed.
  - rewrite bool_decide_eq_true_2 by done. cbn [negb].
    destruct (find_first _ adapters) as [a|] eqn:Ef.
    + apply find_first_Some in Ef as [Hain Had%bool_decide_eq_true]. injection Had as Had.
      destruct (is_bound base) eqn:Ebd; cbn [negb].
      * split; [split; [|done]|]; [intros _; split; [by apply Hrow|intros d' [= <-]; by exists a]|].
        split; [|done]. intros _. destruct (Hb eq_refl) as (row & Hr & Hn & Hm & Hd).
        exists row. cbn. do 4 (split; [done|]). split; [done|]. intros d' [= <-]. by exists a.
      * assert (Hnb : is_bound (mkBinding (bi_match_state base) None None None
                  (AdapterButNoBase (adapter_label i) (bi_note base)) None) = false) by exact Ebd.
        rewrite Hnb. split; [split; [done|]|]; [|by split].
        intros [Hr _]. by apply Hrow in Hr.
    + split; [split; [done|]|by split]. intros [_ Hd]. destruct (Hd d eq_refl) as (a & Hain & Had).
      pose proof (proj1 (find_first_None _ _) Ef a Hain) as Hf. cbn in Hf.
      apply bool_decide_eq_false_1 in Hf. congruence.
  - rewrite bool_decide_eq_false_2 by (by intros []). cbn [negb].
    split; [rewrite Hrow; naive_solver|]. split.
    + intros Hbd. destruct (Hb Hbd) as (row & Hr & Hn & Hm & Hd). exists row.
      do 4 (split; [done|]). by split.
    + intros Hbd. destruct (Hu Hbd) as (Hm & Hup & _). by repeat split.
Qed.

(** The result of a binding does not depend on the order the registry and the adapter rows are
    read in, given the uniqueness the schema enforces: one row per provider kind, name and digest
    (an absent digest included) and one adapter per digest. *)
Theorem binding_order_independent (i : EvidenceIdentity) (r1 r2 : list LocalModel)
    (a1 a2 : list LocalAdapter) (Hr : r1 ≡ₚ r2) (Ha : a1 ≡ₚ a2)
    (Hur : unique_triples r1) (Hua : unique_digests a1) :
  bind_identity i r1 a1 = bind_identity i r2 a2.
Proof.
  unfold bind_identity. rewrite (bind_base_perm i r1 r2 Hr Hur).
  rewrite (find_first_perm _ a1 a2 Ha); [done|].
  intros x y Hx Hy Hdx%bool_decide_eq_true Hdy%bool_decide_eq_true. apply Hua; congruence.
Qed.

Lemma binding_order_independent_witness :
  bind_identity sample_identity sample_registry [] = bind_identity sample_identity (rev sample_registry) [].
Proof.
  apply binding_order_independent.
  - apply Permutation_rev.
  - reflexivity.
  - exact sample_registry_unique.
  - intros x y Hx. exfalso. exact (not_elem_of_nil x Hx).
Defined.

(** Collapsing evidence selects and never merges.  When every policy version is readable and
    rows are distinct, the result is one record per capability and runtime profile that has any, in
    order of capability then profile, and it is a record of the input that no other record of its
    group precedes: this machine's before another's, then the higher policy version (dotted integers
    compared numerically), then the later measurement, then the row id.  The result does not depend
    on the order the rows are read in. *)
Theorem collapse_spec `{Digits} (cs cs' : list EvidenceCandidate) (local : option string)
    (Hread : forall c, c ∈ cs -> readable c) (Hrows : distinct_rows cs) (Hperm : cs ≡ₚ cs') :
  exists out, collapse_evidence cs local = Ok out /\
    (forall c, c ∈ out <-> selected local cs c) /\
    StronglySorted (fun x y => cmp_key (evidence_key x) (evidence_key y) = Lt) out /\
    collapse_evidence cs' local = Ok out.
Proof.
  destruct (collapse_selects local cs Hread Hrows) as (out & Eo & Hm & Hs).
  destruct (collapse_selects local cs') as (out' & Eo' & Hm' & Hs').
  - intros c. rewrite <- Hperm. apply Hread.
  - intros x y. rewrite <- Hperm. apply Hrows.
  - exists out. do 3 (split; [done|]). rewrite Eo'. f_equal. apply selected_sorted_agree; [done..|].
    intros c. rewrite Hm', Hm. unfold selected. by setoid_rewrite Hperm.
Qed.

Lemma collapse_spec_witness :
  exists out, @collapse_evidence sample_digits sample_candidates (Some "here") = Ok out /\
    @collapse_evidence sample_digits (rev sample_candidates) (Some "here") = Ok out.
Proof.
  destruct sample_candidates_ok as [Hr Hd].
  destruct (@collapse_spec sample_digits sample_candidates (rev sample_candidates) (Some "here") Hr Hd
    (Permutation_rev _)) as (out & E1 & _ & _ & E2).
  exists out. exact (conj E1 E2).
Defined.

(** A defect the model exhibits: the version key, documented to fall back rather than raise on
    a producer's naming choice, raises [ValueError] on a version with a part such as the
    superscript two, which [str.isdigit] accepts and [int] refuses; and one such record makes the
    selection over every record of its model raise. *)
Theorem unreadable_version_raises `{DigitsLaws} (cs : list EvidenceCandidate) (local : option string)
    (c : EvidenceCandidate) (Hc : c ∈ cs) (Hv : ec_policy_version c = superscript_two) :
  policy_version_key (ec_policy_version c) = Raise ValueError /\
  exists e, collapse_evidence cs local = Raise e.
Proof.
  assert (Hk : policy_version_key (ec_policy_version c) = Raise ValueError).
  { rewrite Hv. unfold policy_version_key.
    assert (split_at "." superscript_two = [superscript_two]) as -> by reflexivity.
    cbn [forallb]. rewrite isdigit_superscript. cbn [andb map_ok]. by rewrite int_superscript. }
  split; [done|]. by apply (collapse_raises local cs c ValueError).
Qed.

Lemma unreadable_version_raises_witness :
  exists e, @collapse_evidence sample_digits
    (sample_candidate "r9" "code" "here" superscript_two 1 :: sample_candidates) None = Raise e.
Proof.
  apply (@unreadable_version_raises sample_digits sample_digits_laws _ None
    (sample_candidate "r9" "code" "here" superscript_two 1)).
  - apply elem_of_cons. left. reflexivity.
  - reflexivity.
Defined.

(** Staleness is a badge with one reason, the most actionable that applies (superseded, then an
    unreachable source, then drift, then age), never raised on a fresh record; the freshness stays
    in the band from its floor to 1, is 1 for a measurement not yet old, never grows with time, and
    the age in whole days is never negative and never decreases. *)
Theorem staleness_spec `{HalfPowLaws} (measured_at now now' : Z) (capability : string)
    (drift : option string) (superseded unreachable : bool) (Hlater : now <= now') :
  let s := evaluate_staleness measured_at now capability drift superseded unreachable in
  let s' := evaluate_staleness measured_at now' capability drift superseded unreachable in
  (st_stale s = true <->
     superseded = true \/ unreachable = true \/ is_Some drift \/
     st_freshness_factor s < STALE_BELOW_FRESHNESS) /\
  (is_Some (st_reason s) <-> st_stale s = true) /\
  (superseded = true -> st_reason s = Some "superseded") /\
  FRESHNESS_FLOOR <= st_freshness_factor s' <= st_freshness_factor s /\
  st_freshness_factor s <= fone /\
  (now <= measured_at -> st_freshness_factor s = fone) /\
  0 <= st_age_days s <= st_age_days s' /\
  (st_stale s = true -> st_stale s' = true).
Proof.
  intros s s'.
  assert (Hf : forall n, st_freshness_factor (evaluate_staleness measured_at n capability drift superseded unreachable)
                 = freshness_factor measured_at n capability).
  { intros n. unfold evaluate_staleness.
    destruct superseded; [reflexivity|]. destruct unreachable; [reflexivity|].
    destruct drift; [reflexivity|]. destruct (_ <? _); reflexivity. }
  assert (Hage : forall n, st_age_days (evaluate_staleness measured_at n capability drift superseded unreachable)
                 = whole_days (total_seconds (n - measured_at))).
  { intros n. unfold evaluate_staleness.
    destruct superseded; [reflexivity|]. destruct unreachable; [reflexivity|].
    destruct drift; [reflexivity|]. destruct (_ <? _); reflexivity. }
  assert (Hst : forall n,
    (st_stale (evaluate_staleness measured_at n capability drift superseded unreachable) = true <->
       superseded = true \/ unreachable = true \/ is_Some drift \/
       freshness_factor measured_at n capability < STALE_BELOW_FRESHNESS) /\
    (is_Some (st_reason (evaluate_staleness measured_at n capability drift superseded unreachable)) <->
     st_stale (evaluate_staleness measured_at n capability drift superseded unreachable) = true)).
  { intros n. unfold evaluate_staleness.
    destruct superseded; cbn; [split; [|by split]; split; auto|].
    destruct unreachable; cbn; [split; [|by split]; split; auto|].
    destruct drift; cbn; [split; [|by split]; split; [intros _; right; right; left; by eexists|auto]|].
    destruct (Z.ltb_spec (freshness_factor measured_at n capability) STALE_BELOW_FRESHNESS); cbn.
    - split; [|by split]. split; auto.
    - split; [split; [done|]|split; [by intros []|done]]. intros [?|[?|[[]|?]]]; [done..|lia]. }
  unfold s, s'. rewrite !Hf, !Hage. split; [apply (Hst now)|]. split; [apply (Hst now)|].
  split; [unfold evaluate_staleness; by intros ->|].
  pose proof (freshness_antitone measured_at now now' capability Hlater) as Hdec.
  destruct (freshness_bounds measured_at now capability) as [_ Hone].
  destruct (freshness_bounds measured_at now' capability) as [Hfloor _].
  split; [split; [exact Hfloor|exact Hdec]|]. split; [exact Hone|].
  split; [exact (freshness_new measured_at now capability)|]. split; [apply whole_days_mono, total_seconds_mono; lia|].
  rewrite (proj1 (Hst now)), (proj1 (Hst now')).
  intros [?|[?|[?|Hlt]]]; [by left|by right; left|by right; right; left|].
  right. right. right. exact (Z.le_lt_trans _ _ _ Hdec Hlt).
Qed.

Lemma staleness_spec_witness :
  0 <= st_age_days (@evaluate_staleness step_half_pow 0 (5 * 86400000000) "speed.decode" None false false).
Proof.
  assert (Hlater : 5 * 86400000000 <= 6 * 86400000000) by discriminate.
  destruct (@staleness_spec step_half_pow step_half_pow_laws 0 (5 * 86400000000) (6 * 86400000000)
    "speed.decode" None false false Hlater) as (_ & _ & _ & _ & _ & _ & Hage & _).
  exact (proj1 Hage).
Defined.
End Properties.

(** The numeric order of policy versions, and the selection it makes. *)
Example collapse_prefers_local_then_version :
  match @collapse_evidence sample_digits sample_candidates (Some "here") with
  | Ok out => map ec_row_id out = ["r2"]
  | Raise _ => False
  end.
Proof. vm_compute. reflexivity. Qed.

Example performance_roots :
  is_performance_capability "speed.decode" = true /\ is_performance_capability "token_efficiency" = false /\
  is_user_capability "user.tone" = true /\ is_user_capability "user" = false /\ is_user_capability "user." = false.
Proof. by repeat split. Qed.
