(* ===== verification/Subject.v ===== *)
(** * Execution subjects ([domain/routing/subject.py])

    What routing knows of a model, a provider and an adapter; the resolution of the runtime profile
    and of the served context; the runtime settings a provider cannot honour; and the grouping of
    capability signals.  [RuntimeProfile] and [AdapterIdentity] are [baseaicore]'s: the model
    reaches them through [Profiles], the attributes and constructors the source uses. *)

From S2P Require Import Prelude PyFloat Json Ordering EvidencePolicy.
#[local] Open Scope string_scope.
#[local] Open Scope list_scope.
#[local] Open Scope Z_scope.

Class Profiles := {
  RuntimeProfile : Type;
  context_size : RuntimeProfile -> option Z;
  kv_cache_precision : RuntimeProfile -> option string;
  gpu_layers : RuntimeProfile -> option json;
  flash_attention : RuntimeProfile -> option bool;
  threads : RuntimeProfile -> option json;
  batch_size : RuntimeProfile -> option json;
  keep_alive : RuntimeProfile -> option json;
  provider_options : RuntimeProfile -> list (string * json);
  adapters_registered : RuntimeProfile -> option bool;
  make_runtime_profile : option Z -> option string -> option json -> option bool -> option json ->
    option json -> option json -> list (string * json) -> RuntimeProfile;
  replace_adapters_registered : bool -> RuntimeProfile -> RuntimeProfile;
  profile_hash : RuntimeProfile -> string;
  canonical_suffix : string -> string -> string            (* AdapterIdentity(name, artifact_digest) *)
}.

(** A frozen dataclass: a field of a constructed or replaced value is the argument given for it, and
    [adapters_registered] is [None] unless stated. *)
Class ProfilesLaws `{Profiles} : Prop := {
  context_size_make a b c d e f g h : context_size (make_runtime_profile a b c d e f g h) = a;
  kv_cache_precision_make a b c d e f g h : kv_cache_precision (make_runtime_profile a b c d e f g h) = b;
  gpu_layers_make a b c d e f g h : gpu_layers (make_runtime_profile a b c d e f g h) = c;
  flash_attention_make a b c d e f g h : flash_attention (make_runtime_profile a b c d e f g h) = d;
  threads_make a b c d e f g h : threads (make_runtime_profile a b c d e f g h) = e;
  batch_size_make a b c d e f g h : batch_size (make_runtime_profile a b c d e f g h) = f;
  keep_alive_make a b c d e f g h : keep_alive (make_runtime_profile a b c d e f g h) = g;
  provider_options_make a b c d e f g h : provider_options (make_runtime_profile a b c d e f g h) = h;
  adapters_registered_make a b c d e f g h :
    adapters_registered (make_runtime_profile a b c d e f g h) = None;
  context_size_replace x p : context_size (replace_adapters_registered x p) = context_size p;
  kv_cache_precision_replace x p :
    kv_cache_precision (replace_adapters_registered x p) = kv_cache_precision p;
  gpu_layers_replace x p : gpu_layers (replace_adapters_registered x p) = gpu_layers p;
  flash_attention_replace x p : flash_attention (replace_adapters_registered x p) = flash_attention p;
  threads_replace x p : threads (replace_adapters_registered x p) = threads p;
  batch_size_replace x p : batch_size (replace_adapters_registered x p) = batch_size p;
  keep_alive_replace x p : keep_alive (replace_adapters_registered x p) = keep_alive p;
  provider_options_replace x p : provider_options (replace_adapters_registered x p) = provider_options p;
  adapters_registered_replace x p : adapters_registered (replace_adapters_registered x p) = Some x
}.

(** ** Facts *)

Record ModelFacts := mkModelFacts {
  mf_model_id : string;
  mf_canonical_id : string;
  mf_provider_kind : string;
  mf_provider_model_name : string;
  mf_artifact_digest : option string;
  mf_available : bool;
  mf_unavailable_reason : option string;
  mf_enabled : bool;
  mf_max_context : option Z;
  mf_size_bytes : option Z;
  mf_parameter_count : option Z;
  mf_layers : option Z;
  mf_kv_heads : option Z;
  mf_head_dim : option Z;
  mf_is_remote : bool;
  mf_provider_name : string
}.

Record ProviderFacts := mkProviderFacts {
  pf_healthy : bool;
  pf_context_configurable : bool;
  pf_reported_served_context : option Z;
  pf_supports_tool_use : bool;
  pf_supports_structured_output : bool;
  pf_supports_streaming : bool;
  pf_supports_thinking_control : bool;
  pf_is_remote : bool;
  pf_adapter_hot_swap : bool;
  pf_adapters_registered : option bool
}.

Record AdapterFacts := mkAdapterFacts {
  af_adapter_id : string;
  af_name : string;
  af_artifact_digest : string;
  af_base_model_name : string;
  af_base_artifact_digest : option string;
  af_base_confidence : string;
  af_declared_capabilities : list string;
  af_data_classification : string
}.

Record CapabilitySignal := mkSignal {
  cap_capability_id : string;
  cap_source : string;
  cap_score : f64;
  cap_confidence : f64;
  cap_runtime_profile_hash : option string;
  cap_machine_fingerprint : option string;
  cap_measured_at : option Z;
  cap_sample_count : option Z;
  cap_match_state : option string;
  cap_age_days : option Z;
  cap_stale : bool;
  cap_stale_reason : option string;
  cap_calibration : option CalibrationFacts
}.

Record ServedContext := mkServed { sc_tokens : Z; sc_source : string }.

(** ** Small Python idioms *)

(** [fallback if preferred is None else preferred]. *)
Definition first_of {T} (preferred fallback : option T) : option T :=
  match preferred with None => fallback | Some _ => preferred end.

(** [{**a, **b}]: [b]'s bindings replace [a]'s in place, its other keys follow. *)
Definition dict_set {A} (d : list (string * A)) (kv : string * A) : list (string * A) :=
  if bool_decide (kv.1 ∈ d.*1)
  then map (fun e => if bool_decide (e.1 = kv.1) then (e.1, kv.2) else e) d
  else d ++ [kv].
Definition dict_merge {A} (a b : list (string * A)) : list (string * A) := fold_left dict_set b a.

Definition signals_by_capability (signals : list CapabilitySignal)
  : list (string * list CapabilitySignal) := group_by cap_capability_id signals.

Section subject.
Context `{Profiles}.

Record ExecutionSubject := mkSubject {
  es_facts : ModelFacts;
  es_provider : ProviderFacts;
  es_runtime_profile : RuntimeProfile;
  es_served_context : ServedContext;
  es_signals : list CapabilitySignal;
  es_adapter : option AdapterFacts
}.

Definition runtime_profile_hash (s : ExecutionSubject) : string := profile_hash (es_runtime_profile s).

Definition adapter_suffix (a : AdapterFacts) : string := canonical_suffix (af_name a) (af_artifact_digest a).

Definition subject_canonical_id (s : ExecutionSubject) : string :=
  match es_adapter s with
  | None => mf_canonical_id (es_facts s)
  | Some a => mf_canonical_id (es_facts s) +:+ adapter_suffix a
  end.

(** ** The runtime profile *)

Definition merge (base : RuntimeProfile) (layer : option RuntimeProfile) : RuntimeProfile :=
  match layer with
  | None => base
  | Some l =>
      make_runtime_profile
        (first_of (context_size l) (context_size base))
        (first_of (kv_cache_precision l) (kv_cache_precision base))
        (first_of (gpu_layers l) (gpu_layers base))
        (first_of (flash_attention l) (flash_attention base))
        (first_of (threads l) (threads base))
        (first_of (batch_size l) (batch_size base))
        (first_of (keep_alive l) (keep_alive base))
        (dict_merge (provider_options base) (provider_options l))
  end.

Definition apply_task_profile_context (p : RuntimeProfile) (min_context_tokens : Z)
    (context_configurable : bool) : RuntimeProfile :=
  if (min_context_tokens <=? 0) || negb context_configurable || bool_decide (is_Some (context_size p))
  then p
  else make_runtime_profile (Some min_context_tokens) (kv_cache_precision p) (gpu_layers p)
         (flash_attention p) (threads p) (batch_size p) (keep_alive p) (provider_options p).

Definition resolve_runtime_profile (defaults : RuntimeProfile) (per_model : option RuntimeProfile)
    (min_context_tokens : Z) (context_configurable : bool) (override : option RuntimeProfile)
    (registered : option bool) : RuntimeProfile :=
  let resolved := merge defaults per_model in
  let resolved := apply_task_profile_context resolved min_context_tokens context_configurable in
  let resolved := merge resolved override in
  match registered with None => resolved | Some r => replace_adapters_registered r resolved end.

Definition jbool_opt (b : option bool) : json := match b with Some b => JBool b | None => JNull end.
Definition jstr_opt (s : option string) : json := match s with Some s => JStr s | None => JNull end.

(** The settings stated, in the order the dictionary lists them. *)
Definition stated_settings (p : RuntimeProfile) : list (string * json) :=
  match flash_attention p with Some b => [("flash_attention", JBool b)] | None => [] end ++
  match kv_cache_precision p with Some s => [("kv_cache_precision", JStr s)] | None => [] end.

Definition runtime_profile_refusal (p : RuntimeProfile) (provider_kind : string)
  : option (string * list (string * json)) :=
  match stated_settings p with
  | (field, v) :: _ =>
      if bool_decide (provider_kind = "ollama")
      then Some ("runtime_setting_unhonoured",
                 [("field", JStr field); ("value", v); ("provider_kind", JStr provider_kind)])
      else if bool_decide (kv_cache_precision p ∈ [Some "q8_0"; Some "q4_0"]) &&
              negb (bool_decide (flash_attention p = Some true))
      then Some ("kv_cache_needs_flash_attention",
                 [("kv_cache_precision", jstr_opt (kv_cache_precision p));
                  ("flash_attention", jbool_opt (flash_attention p))])
      else None
  | [] => None
  end.

(** ** The served context *)

Definition resolve_served_context (p : RuntimeProfile) (provider : ProviderFacts)
    (max_context : option Z) : option ServedContext :=
  match context_size p, pf_context_configurable provider with
  | Some tokens, true => Some (mkServed tokens "configured")
  | _, _ =>
      match pf_reported_served_context provider with
      | Some tokens => Some (mkServed tokens "reported")
      | None => match max_context with
                | Some tokens => Some (mkServed tokens "assumed")
                | None => None
                end
      end
  end.

(** ** Lemmas *)

(** The last level that states a setting decides it. *)
Definition stated {A} (levels : list (option A)) : option A := fold_left (fun x l => first_of l x) levels None.

Lemma first_of_None_r {T} (x : option T) : first_of x None = x.
Proof. by destruct x. Qed.

Lemma first_of_assoc {T} (a b c : option T) : first_of a (first_of b c) = first_of (first_of a b) c.
Proof. by destruct a. Qed.

Lemma first_of_Some {T} (a b : option T) v :
  first_of a b = Some v <-> a = Some v \/ (a = None /\ b = Some v).
Proof. destruct a; cbn; naive_solver. Qed.

Context `{!ProfilesLaws}.

Lemma merge_context base l :
  context_size (merge base l) = first_of (l ≫= context_size) (context_size base).
Proof using All. destruct l; [apply context_size_make|done]. Qed.

Lemma merge_kv base l :
  kv_cache_precision (merge base l) = first_of (l ≫= kv_cache_precision) (kv_cache_precision base).
Proof using All. destruct l; [apply kv_cache_precision_make|done]. Qed.

Lemma merge_flash base l :
  flash_attention (merge base l) = first_of (l ≫= flash_attention) (flash_attention base).
Proof using All. destruct l; [apply flash_attention_make|done]. Qed.

Lemma merge_keep_alive base l :
  keep_alive (merge base l) = first_of (l ≫= keep_alive) (keep_alive base).
Proof using All. destruct l; [apply keep_alive_make|done]. Qed.

Lemma apply_context p m c :
  context_size (apply_task_profile_context p m c) =
    first_of (context_size p) (if (0 <? m) && c then Some m else None).
Proof using All.
  unfold apply_task_profile_context. rewrite Z.leb_antisym.
  destruct (0 <? m), c, (context_size p) eqn:E; cbn; rewrite ?E, ?context_size_make; done.
Qed.

Lemma apply_others p m c :
  kv_cache_precision (apply_task_profile_context p m c) = kv_cache_precision p /\
  flash_attention (apply_task_profile_context p m c) = flash_attention p /\
  keep_alive (apply_task_profile_context p m c) = keep_alive p.
Proof using All.
  unfold apply_task_profile_context. destruct (_ || _); [done|].
  by rewrite kv_cache_precision_make, flash_attention_make, keep_alive_make.
Qed.
End subject.

Lemma served_context_spec `{Profiles} (p : RuntimeProfile) provider max_context :
  (forall s, resolve_served_context p provider max_context = Some s ->
     (sc_source s = "configured" <-> pf_context_configurable provider = true /\ is_Some (context_size p)) /\
     (sc_source s = "configured" -> Some (sc_tokens s) = context_size p) /\
     (sc_source s = "assumed" -> pf_reported_served_context provider = None /\ max_context = Some (sc_tokens s))) /\
  (resolve_served_context p provider max_context = None ->
     max_context = None /\ pf_reported_served_context provider = None).
Proof.
  unfold resolve_served_context.
  destruct (context_size p) as [n|], (pf_context_configurable provider),
    (pf_reported_served_context provider), max_context;
    (split; [intros s [= <-]; cbn; (split; [split|split])|]); try done; try (by intros _; eauto);
    by intros [? []].
Qed.

(** ** A concrete profile type, for evaluation *)

Record PlainProfile := mkPlain {
  pp_context : option Z; pp_kv : option string; pp_gpu : option json; pp_flash : option bool;
  pp_threads : option json; pp_batch : option json; pp_keep : option json;
  pp_options : list (string * json); pp_adapters : option bool
}.

Definition plain_profiles : Profiles := {|
  RuntimeProfile := PlainProfile;
  context_size := pp_context; kv_cache_precision := pp_kv; gpu_layers := pp_gpu;
  flash_attention := pp_flash; threads := pp_threads; batch_size := pp_batch; keep_alive := pp_keep;
  provider_options := pp_options; adapters_registered := pp_adapters;
  make_runtime_profile a b c d e f g h := mkPlain a b c d e f g h None;
  replace_adapters_registered x p := mkPlain (pp_context p) (pp_kv p) (pp_gpu p) (pp_flash p)
    (pp_threads p) (pp_batch p) (pp_keep p) (pp_options p) (Some x);
  profile_hash p := match pp_context p with Some n => pretty n | None => "default" end;
  canonical_suffix n d := "+" +:+ n +:+ "@" +:+ d
|}.

Lemma plain_profiles_laws : @ProfilesLaws plain_profiles.
Proof. by split. Qed.

Definition empty_profile : PlainProfile := mkPlain None None None None None None None [] None.
Definition context_profile (n : Z) : PlainProfile := mkPlain (Some n) None None None None None None [] None.

Module Properties.

(** The runtime profile of an execution is resolved level by level: a setting takes the value of
    the most specific level that states it (the request, then the model, then the defaults), a
    level that says nothing erases nothing, and the task profile's context requirement sets the
    context only when the provider can be told one and no configured level stated one; whether
    adapters are registered is the server's statement alone.  The context then served is the stated
    one exactly when the provider accepts a setting, and is called [assumed] only when neither a
    setting nor a report exists. *)
Theorem profile_resolution `{ProfilesLaws} (defaults : RuntimeProfile)
    (per_model override : option RuntimeProfile) (m : Z) (c : bool) (registered : option bool)
    (provider : ProviderFacts) (max_context : option Z) :
  let p := resolve_runtime_profile defaults per_model m c override registered in
  context_size p =
    first_of (override ≫= context_size) (first_of (per_model ≫= context_size)
      (first_of (context_size defaults) (if (0 <? m) && c then Some m else None))) /\
  kv_cache_precision p =
    first_of (override ≫= kv_cache_precision)
      (first_of (per_model ≫= kv_cache_precision) (kv_cache_precision defaults)) /\
  flash_attention p =
    first_of (override ≫= flash_attention)
      (first_of (per_model ≫= flash_attention) (flash_attention defaults)) /\
  (forall r, registered = Some r -> adapters_registered p = Some r) /\
  (forall s, resolve_served_context p provider max_context = Some s ->
     (sc_source s = "configured" <-> pf_context_configurable provider = true /\ is_Some (context_size p)) /\
     (sc_source s = "configured" -> Some (sc_tokens s) = context_size p) /\
     (sc_source s = "assumed" -> pf_reported_served_context provider = None /\ max_context = Some (sc_tokens s))) /\
  (resolve_served_context p provider max_context = None ->
     max_context = None /\ pf_reported_served_context provider = None).
Proof.
  intros p.
  assert (Hrep : forall q, (match registered with None => q | Some r => replace_adapters_registered r q end) = p ->
    context_size p = context_size q /\ kv_cache_precision p = kv_cache_precision q /\
    flash_attention p = flash_attention q).
  { intros q <-. destruct registered; [|done].
    by rewrite context_size_replace, kv_cache_precision_replace, flash_attention_replace. }
  destruct (Hrep _ eq_refl) as (E1 & E2 & E3).
  destruct (apply_others (merge defaults per_model) m c) as (Ek & Ef & _).
  split; [by rewrite E1, merge_context, apply_context, merge_context, <- !first_of_assoc|].
  split; [by rewrite E2, merge_kv, Ek, merge_kv|]. split; [by rewrite E3, merge_flash, Ef, merge_flash|].
  split; [intros r Er; unfold p, resolve_runtime_profile; rewrite Er; apply adapters_registered_replace|].
  exact (served_context_spec p provider max_context).
Qed.

Lemma profile_resolution_witness :
  let p := @resolve_runtime_profile plain_profiles empty_profile (Some empty_profile) 4096 true None None in
  @context_size plain_profiles p = Some 4096.
Proof.
  exact (proj1 (@profile_resolution plain_profiles plain_profiles_laws empty_profile (Some empty_profile)
    None 4096 true None (mkProviderFacts true true None false false false false false false None) None)).
Defined.
End Properties.
