(* ===== verification/Scoring.v ===== *)
(** * Capability scoring ([domain/routing/scoring.py])

    The resolution of one capability's signals into a score, the weighted mean over the capabilities
    that have one, the parameter-band priors and the adjustment factors.  Sums are Python's [sum] on
    binary64; prose notes and remedies are kept as their structured reasons. *)

From S2P Require Import Prelude PyFloat Json Ordering EvidencePolicy Reliability Subject.
#[local] Open Scope string_scope.
#[local] Open Scope list_scope.
#[local] Open Scope Z_scope.

Definition DECLARED_PRIOR_SCORE : f64 := flit 1 2.
Definition DECLARED_PRIOR_CONFIDENCE : f64 := flit 3 10.
Definition PARAMETER_BAND_PRIOR_FLOOR : f64 := flit 40 100.
Definition PARAMETER_BAND_PRIOR_CEILING : f64 := flit 60 100.
Definition MEASURED_SOURCES : list string := ["benchmark"; "production"; "manual"].
Definition SOURCE_PRECEDENCE : list string := ["benchmark"; "production"; "manual"; "declared"].

(** Why a score is what it is: the facts the [note] sentence states. *)
Inductive ScoreNote :=
| UnboundEvidence (match_state : option string)
| ForeignMeasurement (machine : option string)
| OtherProfile (measured : option string) (executing : string)
| DeclaredFlag
| UserGoal (capability_id : string) (calibration : option CalibrationFacts)
| ForeignQuality (machine : option string)
| BandPrior
| NoEvidence.

(** The FreeWeight invocation a remedy names. *)
Inductive Remedy := MeasureHere | MeasureThisProfile.

Record CapabilityScore := mkCapScore {
  cs_capability_id : string;
  cs_weight : f64;
  cs_score : option f64;
  cs_confidence : option f64;
  cs_source : string;
  cs_note : option ScoreNote;
  cs_remedy : option Remedy;
  cs_evidence_age_days : option Z;
  cs_sample_count : option Z;
  cs_measured_profile_hash : option string;
  cs_measured_machine_fingerprint : option string;
  cs_stale : bool;
  cs_stale_reason : option string
}.

Definition present (c : CapabilityScore) : bool :=
  bool_decide (is_Some (cs_score c)) && bool_decide (is_Some (cs_confidence c)).
Definition measured (c : CapabilityScore) : bool := present c && bool_decide (cs_source c ∈ MEASURED_SOURCES).

Record TaskFit := mkTaskFit {
  task_fit : f64;
  tf_capabilities : list CapabilityScore;
  present_weight : f64;
  measured_weight : f64
}.

Definition mean_confidence (t : TaskFit) : f64 :=
  match omap cs_confidence (tf_capabilities t) with
  | [] => 0
  | l => fdiv (py_sum l) (of_int (zlen l))
  end.

Record ScoringInputs := mkScoringInputs {
  weights : gmap string f64;
  min_confidence : f64;
  parameter_priors : option (gmap string f64);
  require_evidence : bool;
  machine_fingerprint : option string
}.

(** ** The parameter band *)

(** [{count: index}] over the distinct counts, ascending. *)
Definition distinct_counts (known : gmap string Z) : list Z :=
  elements (list_to_set (map_to_list known).*2 : gset Z).

Fixpoint index_of (count : Z) (l : list Z) : Z :=
  match l with [] => 0 | x :: l' => if x =? count then 0 else 1 + index_of count l' end.

Definition band_midpoint : f64 := fdiv (fadd PARAMETER_BAND_PRIOR_FLOOR PARAMETER_BAND_PRIOR_CEILING) (2 * fone).
Definition band_span : f64 := fsub PARAMETER_BAND_PRIOR_CEILING PARAMETER_BAND_PRIOR_FLOOR.

(** The prior of a model at [index] among [n] distinct counts. *)
Definition band_prior_at (index n : Z) : f64 :=
  fadd PARAMETER_BAND_PRIOR_FLOOR (fmul band_span (int_div index (n - 1))).

Definition parameter_band_priors (counts : gmap string (option Z)) : gmap string f64 :=
  let known := omap id counts in
  let distinct := py_sorted Z.leb (distinct_counts known) in
  match distinct with
  | [] => ∅
  | [_] => (fun _ => band_midpoint) <$> known
  | _ => (fun count => band_prior_at (index_of count distinct) (zlen distinct)) <$> known
  end.

(** ** One capability *)

Definition benchmark_exclusion (capability_id : string) (weight : f64) (profile_hash : string)
    (fingerprint : option string) (s : CapabilitySignal) : option CapabilityScore :=
  let excluded source note remedy hash machine :=
    Some (mkCapScore capability_id weight None None source (Some note) remedy None None hash machine false None) in
  if bool_decide (is_Some (cap_match_state s)) && negb (bool_decide (cap_match_state s = Some "bound"))
  then excluded EVIDENCE_UNBOUND (UnboundEvidence (cap_match_state s)) None None None
  else if match cap_machine_fingerprint s with
          | Some machine => negb (machine_admits machine fingerprint capability_id)
          | None => false
          end
  then excluded EVIDENCE_FOREIGN_MACHINE (ForeignMeasurement (cap_machine_fingerprint s)) (Some MeasureHere)
         None (cap_machine_fingerprint s)
  else if negb (bool_decide (cap_runtime_profile_hash s = Some profile_hash))
  then excluded EVIDENCE_PROFILE_MISMATCH (OtherProfile (cap_runtime_profile_hash s) profile_hash)
         (Some MeasureThisProfile) (cap_runtime_profile_hash s) None
  else None.

(** What one iteration of the loop does with a signal. *)
Inductive SignalFate := Skipped | Excluded (c : CapabilityScore) | Usable.

Definition signal_fate (capability_id : string) (weight : f64) (profile_hash : string) (min_conf : f64)
    (fingerprint : option string) (s : CapabilitySignal) : SignalFate :=
  if cap_confidence s <? min_conf then Skipped
  else
    match (if bool_decide (cap_source s = "benchmark")
           then benchmark_exclusion capability_id weight profile_hash fingerprint s else None) with
    | Some c => Excluded c
    | None =>
        if bool_decide (cap_source s = "production") &&
           match cap_sample_count s with None => true | Some n => n <? PRODUCTION_MINIMUM_SAMPLES end
        then Skipped else Usable
    end.

(** [usable.setdefault(source, signal)] and [excluded or ...] along the signals. *)
Fixpoint gather (fate : CapabilitySignal -> SignalFate) (usable : gmap string CapabilitySignal)
    (excluded : option CapabilityScore) (signals : list CapabilitySignal)
  : gmap string CapabilitySignal * option CapabilityScore :=
  match signals with
  | [] => (usable, excluded)
  | s :: rest =>
      match fate s with
      | Skipped => gather fate usable excluded rest
      | Excluded c => gather fate usable (match excluded with Some e => Some e | None => Some c end) rest
      | Usable =>
          gather fate (match usable !! cap_source s with Some _ => usable | None => <[cap_source s := s]> usable end)
            excluded rest
      end
  end.

Definition is_foreign (fingerprint : option string) (s : CapabilitySignal) : bool :=
  match cap_machine_fingerprint s, fingerprint with
  | Some m, Some here => negb (bool_decide (m = here))
  | _, _ => false
  end.

Definition scored (capability_id : string) (weight : f64) (fingerprint : option string) (source : string)
    (s : CapabilitySignal) : CapabilityScore :=
  let foreign := is_foreign fingerprint s in
  mkCapScore capability_id weight (Some (cap_score s)) (Some (cap_confidence s)) source
    (if is_user_capability capability_id then Some (UserGoal capability_id (cap_calibration s))
     else if foreign then Some (ForeignQuality (cap_machine_fingerprint s)) else None)
    None (cap_age_days s) (cap_sample_count s) None
    (if foreign then cap_machine_fingerprint s else None) (cap_stale s) (cap_stale_reason s).

Definition declared_score (capability_id : string) (weight : f64) : CapabilityScore :=
  mkCapScore capability_id weight (Some DECLARED_PRIOR_SCORE) (Some DECLARED_PRIOR_CONFIDENCE) "declared"
    (Some DeclaredFlag) None None None None None false None.

(** The second loop: [None] where it ends or breaks without a result. *)
Fixpoint choose (capability_id : string) (weight : f64) (fingerprint : option string) (require : bool)
    (usable : gmap string CapabilitySignal) (sources : list string) : option CapabilityScore :=
  match sources with
  | [] => None
  | source :: rest =>
      match usable !! source with
      | None => choose capability_id weight fingerprint require usable rest
      | Some chosen =>
          if bool_decide (source ∈ ["declared"; "manual"]) && require then None
          else if bool_decide (source = "declared") then Some (declared_score capability_id weight)
          else Some (scored capability_id weight fingerprint source chosen)
      end
  end.

(** [replace(excluded, score=..., confidence=...)]. *)
Definition with_prior (prior : f64) (c : CapabilityScore) : CapabilityScore :=
  mkCapScore (cs_capability_id c) (cs_weight c) (Some prior) (Some DECLARED_PRIOR_CONFIDENCE) (cs_source c)
    (cs_note c) (cs_remedy c) (cs_evidence_age_days c) (cs_sample_count c) (cs_measured_profile_hash c)
    (cs_measured_machine_fingerprint c) (cs_stale c) (cs_stale_reason c).

(** Where no signal scores: the band prior, under the exclusion's own source if there is one. *)
Definition unscored (capability_id : string) (weight : f64) (band_prior : option f64) (require : bool)
    (excluded : option CapabilityScore) : CapabilityScore :=
  match (if require then None else band_prior), excluded with
  | Some prior, Some c => with_prior prior c
  | Some prior, None =>
      mkCapScore capability_id weight (Some prior) (Some DECLARED_PRIOR_CONFIDENCE) "prior" (Some BandPrior)
        None None None None None false None
  | None, Some c => c
  | None, None =>
      mkCapScore capability_id weight None None "absent" (Some NoEvidence) None None None None None false None
  end.

Definition resolve_capability (capability_id : string) (weight : f64) (signals : list CapabilitySignal)
    (profile_hash : string) (min_conf : f64) (band_prior : option f64) (require : bool)
    (fingerprint : option string) : CapabilityScore :=
  let '(usable, excluded) :=
    gather (signal_fate capability_id weight profile_hash min_conf fingerprint) ∅ None signals in
  match choose capability_id weight fingerprint require usable SOURCE_PRECEDENCE with
  | Some c => c
  | None => unscored capability_id weight band_prior require excluded
  end.

(** ** The weighted mean *)

(** [s.weight * s.score * s.confidence] of a present capability. *)
Definition contribution (c : CapabilityScore) : option f64 :=
  match cs_score c, cs_confidence c with
  | Some s, Some k => Some (fmul (fmul (cs_weight c) s) k)
  | _, _ => None
  end.

Definition fit_of (scores : list CapabilityScore) : TaskFit :=
  let numerator := py_sum (omap contribution scores) in
  let present_weight := py_sum (map cs_weight (List.filter present scores)) in
  let measured_weight := py_sum (map cs_weight (List.filter measured scores)) in
  mkTaskFit (if 0 <? present_weight then fdiv numerator present_weight else 0) scores present_weight measured_weight.

(** [sorted(inputs.weights.items())]: the keys are distinct, so the names alone decide. *)
Definition sorted_weights (w : gmap string f64) : list (string * f64) :=
  py_sorted (leb_of (cmp_on fst String.compare)) (map_to_list w).

Record ResidencyDetail := mkResidencyDetail {
  rd_level : string;
  rd_resident_bases : list string;
  rd_prefer_resident_bonus : f64;
  rd_base_switch_penalty : f64;
  rd_ignore_residency : bool
}.

Record AdjustmentFactors := mkFactors {
  fa_reliability : f64;
  fa_availability : f64;
  fa_residency : f64;
  fa_cost : f64;
  fa_reliability_detail : option ReliabilityFactor;
  fa_residency_detail : ResidencyDetail
}.

Section scoring.
Context `{Profiles}.

(** The generator's body: one weighted capability of one candidate. *)
Definition score_of (subject : ExecutionSubject) (inputs : ScoringInputs) (kw : string * f64) : CapabilityScore :=
  let grouped := signals_by_capability (es_signals subject) in
  let band_prior := default ∅ (parameter_priors inputs) !! mf_canonical_id (es_facts subject) in
  resolve_capability kw.1 kw.2 (default [] (assoc kw.1 grouped)) (runtime_profile_hash subject)
    (min_confidence inputs) band_prior (require_evidence inputs) (machine_fingerprint inputs).

Definition score_subject (subject : ExecutionSubject) (inputs : ScoringInputs) : TaskFit :=
  fit_of (map (score_of subject inputs) (sorted_weights (weights inputs))).

(** ** Adjustment factors *)

Definition product (f : AdjustmentFactors) : f64 :=
  fmul (fmul (fmul (fa_reliability f) (fa_availability f)) (fa_residency f)) (fa_cost f).

Definition residency_term (subject : ExecutionSubject) (resident_models : gset string)
    (prefer_resident_bonus base_switch_penalty : f64) (ignore_residency : bool) : f64 * string :=
  if ignore_residency then (fone, "ignored")
  else if bool_decide (mf_canonical_id (es_facts subject) ∈ resident_models)
  then (fadd fone prefer_resident_bonus, "resident_base")
  else if negb (bool_decide (resident_models = ∅)) then (fsub fone base_switch_penalty, "base_switch")
  else (fone, "nothing_resident").

(** [reliability] is a plain multiplier or the record behind one. *)
Definition adjustment_factors (subject : ExecutionSubject) (resident_models : gset string)
    (prefer_resident_bonus base_switch_penalty : f64) (ignore_residency : bool) (remote_cost_factor : f64)
    (reliability : f64 + ReliabilityFactor) (availability : f64) : AdjustmentFactors :=
  let '(residency, level) :=
    residency_term subject resident_models prefer_resident_bonus base_switch_penalty ignore_residency in
  mkFactors (match reliability with inl v => v | inr r => rf_value r end) availability residency
    (if mf_is_remote (es_facts subject) then remote_cost_factor else fone)
    (match reliability with inl _ => None | inr r => Some r end)
    (mkResidencyDetail level (py_sorted (leb_of String.compare) (elements resident_models)) prefer_resident_bonus
       base_switch_penalty ignore_residency).
End scoring.

(** ** Lemmas: gathering *)

Definition usable_signal (fate : CapabilitySignal -> SignalFate) (s : CapabilitySignal) : bool :=
  match fate s with Usable => true | _ => false end.

Definition exclusion (fate : CapabilitySignal -> SignalFate) (s : CapabilitySignal) : option CapabilityScore :=
  match fate s with Excluded c => Some c | _ => None end.

(** The map holds the first usable signal of each source. *)
Lemma gather_usable fate u e l k :
  (gather fate u e l).1 !! k =
    match u !! k with
    | Some x => Some x
    | None => find_first (fun s => usable_signal fate s && bool_decide (cap_source s = k)) l
    end.
Proof.
  revert u e. induction l as [|s l IH]; intros u e; cbn [gather]; [by unfold find_first; cbn; destruct (u !! k)|].
  unfold find_first, usable_signal in *. cbn [List.filter]. destruct (fate s); cbn [andb].
  - apply IH.
  - apply IH.
  - rewrite IH. destruct (u !! cap_source s) eqn:E; case_bool_decide as Hk; subst; cbn.
    + by rewrite E.
    + done.
    + by rewrite lookup_insert_eq, E.
    + by rewrite lookup_insert_ne.
Qed.

Lemma gather_excluded fate u e l :
  (gather fate u e l).2 = match e with Some c => Some c | None => head (omap (exclusion fate) l) end.
Proof.
  revert u e. induction l as [|s l IH]; intros u e; cbn [gather]; [by destruct e|].
  cbn [omap list_omap]. unfold exclusion at 1. destruct (fate s); rewrite IH; by destruct e.
Qed.

Section resolve.
Context (capability_id : string) (weight : f64) (profile_hash : string) (min_conf : f64)
  (fingerprint : option string).

(** A benchmark describes this execution when it is bound, its machine is admitted for the
    capability and it was taken under the executing profile. *)
Definition describes (s : CapabilitySignal) : Prop :=
  cap_source s = "benchmark" ->
  (cap_match_state s = None \/ cap_match_state s = Some "bound") /\
  (forall m, cap_machine_fingerprint s = Some m ->
     fingerprint = None \/ fingerprint = Some m \/ is_performance_capability capability_id = false) /\
  cap_runtime_profile_hash s = Some profile_hash.

(** What the rules admit as the source of a score. *)
Definition admissible (s : CapabilitySignal) : Prop :=
  min_conf <= cap_confidence s /\ describes s /\
  (cap_source s = "production" -> exists n, cap_sample_count s = Some n /\ 20 <= n).

Lemma exclusion_spec s :
  match benchmark_exclusion capability_id weight profile_hash fingerprint s with
  | Some c => cs_score c = None /\ cs_confidence c = None /\ cs_source c ∈ EVIDENCE_EXCLUSIONS
  | None => True
  end.
Proof. unfold benchmark_exclusion. repeat case_match; try done; cbn; set_solver. Qed.

Lemma machine_admits_spec m :
  machine_admits m fingerprint capability_id = true <->
  fingerprint = None \/ fingerprint = Some m \/ is_performance_capability capability_id = false.
Proof.
  unfold machine_admits. destruct fingerprint as [l|]; [|naive_solver].
  case_bool_decide as E; subst; [naive_solver|]. destruct (is_performance_capability _); naive_solver.
Qed.

Lemma benchmark_admitted s :
  cap_source s = "benchmark" ->
  benchmark_exclusion capability_id weight profile_hash fingerprint s = None <-> describes s.
Proof.
  intros Hs. unfold benchmark_exclusion, describes.
  destruct (bool_decide (is_Some (cap_match_state s)) && negb (bool_decide (cap_match_state s = Some "bound"))) eqn:E.
  - split; [done|]. intros Hd. destruct (Hd Hs) as ([Hm|Hm] & _); rewrite Hm in E; done.
  - assert (Hm : cap_match_state s = None \/ cap_match_state s = Some "bound").
    { destruct (cap_match_state s) as [m|]; [right|by left]. cbn in E.
      by apply negb_false_iff, bool_decide_eq_true in E. }
    destruct (match cap_machine_fingerprint s with Some m => negb (machine_admits m fingerprint capability_id)
              | None => false end) eqn:E2.
    + split; [done|]. intros Hd. destruct (Hd Hs) as (_ & Ha & _).
      destruct (cap_machine_fingerprint s) as [m|]; [|done].
      apply negb_true_iff in E2. by rewrite (proj2 (machine_admits_spec m) (Ha m eq_refl)) in E2.
    + assert (Ha : forall m, cap_machine_fingerprint s = Some m ->
        fingerprint = None \/ fingerprint = Some m \/ is_performance_capability capability_id = false).
      { intros m Em. rewrite Em in E2. by apply machine_admits_spec, negb_false_iff. }
      destruct (decide (cap_runtime_profile_hash s = Some profile_hash)) as [Eh|Eh].
      * rewrite bool_decide_eq_true_2 by done. by split.
      * rewrite bool_decide_eq_false_2 by done. split; [done|]. intros Hd. by destruct (Hd Hs) as (_ & _ & ?).
Qed.

Let fate := signal_fate capability_id weight profile_hash min_conf fingerprint.

Lemma usable_admissible s : usable_signal fate s = true <-> admissible s.
Proof.
  unfold usable_signal, fate, signal_fate, admissible.
  destruct (Z.ltb_spec (cap_confidence s) min_conf) as [Hlt|Hge].
  { split; [done|]. intros [H1 _]. destruct (Z.lt_irrefl (cap_confidence s)). by eapply Z.lt_le_trans. }
  case_bool_decide as Eb.
  - pose proof (benchmark_admitted s Eb) as Hb.
    destruct (benchmark_exclusion capability_id weight profile_hash fingerprint s).
    + split; [done|]. intros (_ & Hd & _). by apply Hb in Hd.
    + rewrite bool_decide_eq_false_2 by (rewrite Eb; done). cbn [andb]. split; [|done]. intros _.
      split; [done|]. split; [by apply Hb|]. rewrite Eb. done.
  - case_bool_decide as Ep; cbn [andb].
    + unfold PRODUCTION_MINIMUM_SAMPLES. destruct (cap_sample_count s) as [n|].
      * destruct (Z.ltb_spec n 20).
        -- split; [done|]. intros (_ & _ & Hn). destruct (Hn Ep) as (k & [= ->] & ?). lia.
        -- split; [|done]. intros _. split; [done|]. split; [done|]. intros _. by exists n.
      * split; [done|]. intros (_ & _ & Hn). by destruct (Hn Ep) as (k & ? & _).
    + split; [|done]. intros _. by split.
Qed.

Lemma exclusion_source s c :
  exclusion fate s = Some c ->
  cs_score c = None /\ cs_confidence c = None /\ cs_source c ∈ EVIDENCE_EXCLUSIONS /\ ~ describes s.
Proof.
  unfold exclusion, fate, signal_fate. destruct (_ <? _); [done|].
  case_bool_decide as Eb; [|by destruct (_ && _)].
  pose proof (exclusion_spec s) as Hx. pose proof (benchmark_admitted s Eb) as Hb.
  destruct (benchmark_exclusion capability_id weight profile_hash fingerprint s); [|by destruct (_ && _)].
  intros [= ->]. destruct Hx as (? & ? & ?). repeat split; try done. intros Hd. by apply Hb in Hd.
Qed.

Lemma first_exclusion l c :
  head (omap (exclusion fate) l) = Some c ->
  cs_score c = None /\ cs_confidence c = None /\ cs_source c ∈ EVIDENCE_EXCLUSIONS.
Proof.
  intros Hc. assert (Hin : c ∈ omap (exclusion fate) l).
  { destruct (omap _ l); simplify_eq/=. left. }
  apply list_elem_of_omap in Hin as (s & _ & Hs). apply exclusion_source in Hs. naive_solver.
Qed.
End resolve.

(** The measured sources in order: a benchmark before production statistics before a manual score. *)
Definition outranks (a b : string) : Prop :=
  (a = "benchmark" /\ (b = "production" \/ b = "manual")) \/ (a = "production" /\ b = "manual").

Lemma choose_cases capability_id weight fingerprint require usable :
  match choose capability_id weight fingerprint require usable SOURCE_PRECEDENCE with
  | Some c =>
      (exists source s, usable !! source = Some s /\ source ∈ ["benchmark"; "production"; "manual"] /\
         c = scored capability_id weight fingerprint source s /\ (require = true -> source <> "manual") /\
         (forall a, outranks a source -> usable !! a = None)) \/
      (c = declared_score capability_id weight /\ require = false /\ is_Some (usable !! "declared") /\
         usable !! "benchmark" = None /\ usable !! "production" = None /\ usable !! "manual" = None)
  | None =>
      usable !! "benchmark" = None /\ usable !! "production" = None /\
      (require = false -> usable !! "manual" = None /\ usable !! "declared" = None)
  end.
Proof.
  unfold SOURCE_PRECEDENCE. cbn [choose].
  destruct (usable !! "benchmark") as [s|] eqn:E1.
  { left. exists "benchmark", s. repeat split; try done; [set_solver|].
    intros a [[-> [?|?]]|[-> ?]]; done. }
  destruct (usable !! "production") as [s|] eqn:E2.
  { left. exists "production", s. repeat split; try done; [set_solver|].
    intros a [[-> _]|[-> ?]]; done. }
  destruct (usable !! "manual") as [s|] eqn:E3.
  { destruct require; cbn; [done|]. left. exists "manual", s. repeat split; try done; [set_solver|].
    intros a [[-> _]|[-> _]]; done. }
  destruct (usable !! "declared") as [s|] eqn:E4; [|done].
  destruct require; cbn; [done|]. right. by repeat split.
Qed.

Lemma first_usable_spec (p : CapabilitySignal -> bool) l k s :
  find_first (fun s => p s && bool_decide (cap_source s = k)) l = Some s <->
  exists pre post, l = pre ++ s :: post /\ p s = true /\ cap_source s = k /\
    forall x, x ∈ pre -> p x = true -> cap_source x <> k.
Proof.
  unfold find_first. split.
  - induction l as [|x l IH]; cbn; [done|].
    destruct (p x && bool_decide (cap_source x = k)) eqn:E; cbn.
    + intros [= ->]. apply andb_true_iff in E as [? ?%bool_decide_eq_true].
      exists [], l. repeat split; try done. intros y Hy. by apply not_elem_of_nil in Hy.
    + intros (pre & post & -> & ? & ? & Hp)%IH. exists (x :: pre), post. repeat split; try done.
      intros y [->|Hy]%elem_of_cons; [|by apply Hp]. intros Hy Hk.
      by rewrite Hy, bool_decide_eq_true_2 in E.
  - intros (pre & post & -> & Hs & Hk & Hp). induction pre as [|x pre IH]; cbn.
    + by rewrite Hs, bool_decide_eq_true_2.
    + destruct (p x) eqn:E; cbn.
      * rewrite bool_decide_eq_false_2 by (apply Hp; [by left|done]). apply IH.
        intros y Hy. apply Hp. by right.
      * apply IH. intros y Hy. apply Hp. by right.
Qed.

Lemma none_usable_spec (p : CapabilitySignal -> bool) l k :
  find_first (fun s => p s && bool_decide (cap_source s = k)) l = None <->
  forall x, x ∈ l -> p x = true -> cap_source x <> k.
Proof.
  rewrite find_first_None. split; intros Hn x Hx.
  - intros Hp Hk. specialize (Hn x Hx). cbn in Hn. by rewrite Hp, bool_decide_eq_true_2 in Hn.
  - cbn. destruct (p x) eqn:E; [|done]. cbn. apply bool_decide_eq_false_2. by apply Hn.
Qed.

#[export] Instance describes_dec capability_id profile_hash fingerprint s :
  Decision (describes capability_id profile_hash fingerprint s).
Proof.
  destruct (decide (cap_source s = "benchmark")) as [E|E]; [|left; by intros ?].
  destruct (benchmark_exclusion capability_id 0 profile_hash fingerprint s) eqn:X.
  - right. intros Hd. by rewrite (proj2 (benchmark_admitted _ _ _ _ _ E) Hd) in X.
  - left. by apply (benchmark_admitted _ _ _ _ _ E) in X.
Defined.

Section resolution.
Context (capability_id : string) (weight : f64) (profile_hash : string) (min_conf : f64)
  (fingerprint : option string).
Let fate := signal_fate capability_id weight profile_hash min_conf fingerprint.
Let adm := admissible capability_id profile_hash min_conf fingerprint.
Let usable_of l := (gather fate ∅ None l).1.

Lemma usable_lookup l k s :
  usable_of l !! k = Some s <->
  exists pre post, l = pre ++ s :: post /\ adm s /\ cap_source s = k /\
    forall x, x ∈ pre -> adm x -> cap_source x <> k.
Proof.
  unfold usable_of; rewrite gather_usable, lookup_empty, first_usable_spec.
  split; intros (pre & post & -> & Hs & Hk & Hp); exists pre, post; repeat split;
    try (by eapply usable_admissible); try done; intros x Hx Ha; (apply Hp; [done|by eapply usable_admissible]).
Qed.

Lemma usable_lookup_None l k : usable_of l !! k = None <-> forall x, x ∈ l -> adm x -> cap_source x <> k.
Proof.
  unfold usable_of; rewrite gather_usable, lookup_empty, none_usable_spec.
  split; intros Hp x Hx Ha; (apply Hp; [done|by eapply usable_admissible]).
Qed.

(** Dropping the benchmarks that do not describe this execution leaves the usable signals alone. *)
Lemma usable_describing l :
  usable_of (filter (describes capability_id profile_hash fingerprint) l) = usable_of l.
Proof.
  apply map_eq. intros k. unfold usable_of. rewrite !gather_usable, lookup_empty.
  induction l as [|s l IH]; [done|]. rewrite filter_cons. unfold find_first in *. cbn [List.filter].
  destruct (decide (describes capability_id profile_hash fingerprint s)) as [Hd|Hd]; cbn [List.filter].
  - case_match; [done|apply IH].
  - destruct (usable_signal fate s) eqn:Eu; [|apply IH]. by apply usable_admissible in Eu as (_ & ? & _).
Qed.

Lemma describing_not_excluded l c :
  ~ head (omap (exclusion fate) (filter (describes capability_id profile_hash fingerprint) l)) = Some c.
Proof.
  intros Hc. assert (Hin : c ∈ omap (exclusion fate) (filter (describes capability_id profile_hash fingerprint) l)).
  { destruct (omap _ _); simplify_eq/=. left. }
  apply list_elem_of_omap in Hin as (s & [Hd _]%list_elem_of_filter & Hs).
  by apply exclusion_source in Hs as (_ & _ & _ & ?).
Qed.
End resolution.

Lemma exclusions_not_measured source : source ∈ EVIDENCE_EXCLUSIONS -> source ∉ MEASURED_SOURCES.
Proof.
  unfold EVIDENCE_EXCLUSIONS. rewrite !elem_of_cons, elem_of_nil.
  intros [->|[->|[->|[]]]]; by apply (bool_decide_unpack _).
Qed.

Lemma measured_iff c :
  measured c = true <->
  is_Some (cs_score c) /\ is_Some (cs_confidence c) /\ cs_source c ∈ ["benchmark"; "production"; "manual"].
Proof. unfold measured, present. rewrite !andb_true_iff, !bool_decide_eq_true. naive_solver. Qed.

Lemma measured_excluded c : cs_source c ∈ EVIDENCE_EXCLUSIONS -> measured c = false.
Proof. intros Hc%exclusions_not_measured. apply not_true_iff_false. rewrite measured_iff. naive_solver. Qed.

Lemma resolve_eq capability_id weight signals profile_hash min_conf band require fingerprint :
  let g := gather (signal_fate capability_id weight profile_hash min_conf fingerprint) ∅ None signals in
  resolve_capability capability_id weight signals profile_hash min_conf band require fingerprint =
    match choose capability_id weight fingerprint require g.1 SOURCE_PRECEDENCE with
    | Some c => c
    | None => unscored capability_id weight band require (head (omap (exclusion
                (signal_fate capability_id weight profile_hash min_conf fingerprint)) signals))
    end.
Proof.
  intros g. pose proof (gather_excluded (signal_fate capability_id weight profile_hash min_conf fingerprint)
    ∅ None signals) as He. cbn beta iota in He. rewrite <- He. fold g. unfold resolve_capability. fold g. by destruct g.
Qed.

Lemma unscored_numbers capability_id weight band require excluded :
  (forall c, excluded = Some c ->
     cs_score c = None /\ cs_confidence c = None /\ cs_source c ∈ EVIDENCE_EXCLUSIONS) ->
  let r := unscored capability_id weight band require excluded in
  let prior := if require then None else band in
  cs_score r = prior /\ cs_confidence r = (prior ≫= fun _ => Some DECLARED_PRIOR_CONFIDENCE) /\
  measured r = false.
Proof.
  intros He r prior. unfold r, unscored. fold prior. destruct excluded as [c|]; [|by destruct prior].
  destruct (He c eq_refl) as (Hs & Hk & Hsrc).
  destruct prior; repeat split; try done; apply measured_excluded; exact Hsrc.
Qed.

Lemma unscored_source capability_id weight band require c :
  cs_source (unscored capability_id weight band require (Some c)) = cs_source c.
Proof. unfold unscored. by destruct require, band. Qed.

(** The signal the rules select: admissible, of a source that counts, the first of its source, and
    no admissible signal of a better source. *)
Definition selects (capability_id profile_hash : string) (min_conf : f64) (require : bool)
    (fingerprint : option string) (signals : list CapabilitySignal) (s : CapabilitySignal) : Prop :=
  let adm := admissible capability_id profile_hash min_conf fingerprint in
  exists before after, signals = before ++ s :: after /\ adm s /\
    (cap_source s = "benchmark" \/ cap_source s = "production" \/ (cap_source s = "manual" /\ require = false)) /\
    (forall x, x ∈ before -> adm x -> cap_source x <> cap_source s) /\
    (forall x, x ∈ signals -> adm x -> ~ outranks (cap_source x) (cap_source s)).

Lemma selects_usable capability_id weight profile_hash min_conf require fingerprint signals s :
  let usable := (gather (signal_fate capability_id weight profile_hash min_conf fingerprint) ∅ None signals).1 in
  selects capability_id profile_hash min_conf require fingerprint signals s <->
  usable !! cap_source s = Some s /\
  (cap_source s = "benchmark" \/ cap_source s = "production" \/ (cap_source s = "manual" /\ require = false)) /\
  (forall a, outranks a (cap_source s) -> usable !! a = None).
Proof.
  intros usable. unfold usable. rewrite usable_lookup. split.
  - intros (pre & post & -> & Ha & Hs & Hf & Ho). split; [by exists pre, post|]. split; [done|].
    intros a Hr. apply usable_lookup_None. intros x Hx Hax <-. by apply (Ho x).
  - intros ((pre & post & -> & Ha & _ & Hf) & Hs & Ho). exists pre, post. split; [done|]. split; [exact Ha|].
    split; [exact Hs|]. split; [exact Hf|]. intros x Hx Hax Hr. apply Ho in Hr. rewrite usable_lookup_None in Hr. by apply (Hr x).
Qed.

Lemma resolve_cases capability_id weight signals profile_hash min_conf band require fingerprint :
  let r := resolve_capability capability_id weight signals profile_hash min_conf band require fingerprint in
  let sel := selects capability_id profile_hash min_conf require fingerprint signals in
  let declared := exists x, x ∈ signals /\ admissible capability_id profile_hash min_conf fingerprint x /\
                    cap_source x = "declared" in
  let prior := if require then None else band in
  (exists s, sel s /\ cs_source r = cap_source s /\ cs_score r = Some (cap_score s) /\
     cs_confidence r = Some (cap_confidence s) /\ measured r = true) \/
  ((forall s, ~ sel s) /\ measured r = false /\ require = false /\ declared /\
     cs_score r = Some DECLARED_PRIOR_SCORE /\ cs_confidence r = Some DECLARED_PRIOR_CONFIDENCE) \/
  ((forall s, ~ sel s) /\ measured r = false /\ (require = true \/ ~ declared) /\
     cs_score r = prior /\ cs_confidence r = (prior ≫= fun _ => Some DECLARED_PRIOR_CONFIDENCE)).
Proof.
  intros r sel declared prior. unfold r. rewrite resolve_eq. cbv zeta.
  set (usable := (gather _ ∅ None signals).1).
  assert (Hsel : forall s, sel s -> usable !! cap_source s = Some s /\ _) by (intros s; apply selects_usable).
  pose proof (choose_cases capability_id weight fingerprint require usable) as Hc.
  destruct (choose _ _ _ _ _ _) as [c|] eqn:E.
  - destruct Hc as [(source & s & Hu & Hsrc & -> & Hm & Ho)|(-> & Hreq & [x Hd] & E1 & E2 & E3)].
    + left. exists s. assert (Hs : cap_source s = source) by (apply usable_lookup in Hu; naive_solver).
      rewrite <- Hs in *. repeat split; try done.
      * apply (selects_usable _ weight). repeat split; [exact Hu| |exact Ho].
        rewrite !elem_of_cons, elem_of_nil in Hsrc. destruct Hsrc as [?|[?|[?|[]]]]; [by left|by right; left|].
        right. right. split; [done|]. destruct require; [|done]. by destruct (Hm eq_refl).
      * apply measured_iff. cbn. rewrite Hs in Hsrc |- *. repeat split; [by eexists..|exact Hsrc].
    + right. left. apply usable_lookup in Hd as (p & q & Hl & Ha & Hx & _).
      assert (Hns : forall s, ~ sel s).
      { intros s [Hu [[Hk|[Hk|[Hk _]]] _]]%Hsel; rewrite Hk in Hu; congruence. }
      repeat split; try done. exists x. split; [rewrite Hl; apply elem_of_app; right; left|by split].
  - right. right. destruct Hc as (E1 & E2 & E34).
    assert (Hns : forall s, ~ sel s).
    { intros s [Hu [[Hk|[Hk|[Hk Hr]]] _]]%Hsel; rewrite Hk in Hu; [congruence..|].
      destruct (E34 Hr). congruence. }
    destruct (unscored_numbers capability_id weight band require _
      (first_exclusion capability_id weight profile_hash min_conf fingerprint signals)) as (-> & -> & ->).
    repeat split; try done. destruct require; [by left|right]. intros (x & Hx & Ha & Hd).
    destruct (E34 eq_refl) as [_ E4]. by apply (proj1 (usable_lookup_None _ weight _ _ _ signals "declared") E4 x).
Qed.


(** ** Lemmas: the weighted mean *)

Lemma fit_of_absent a c b :
  present c = false ->
  let f := fit_of (a ++ c :: b) in let g := fit_of (a ++ b) in
  task_fit f = task_fit g /\ present_weight f = present_weight g /\ measured_weight f = measured_weight g.
Proof.
  intros Hc. assert (Hk : contribution c = None).
  { unfold contribution, present in *. by destruct (cs_score c), (cs_confidence c). }
  assert (Hm : measured c = false) by (unfold measured; by rewrite Hc).
  unfold fit_of. cbn [task_fit present_weight measured_weight].
  rewrite !omap_app, !List.filter_app, !map_app. cbn [List.filter omap list_omap].
  by rewrite Hk, Hc, Hm.
Qed.

(** No capability present: zero, without a division. *)
Lemma fit_of_nothing l : (forall x, x ∈ l -> cs_score x = None) -> task_fit (fit_of l) = 0.
Proof.
  intros Hn. unfold fit_of. cbn [task_fit]. enough (List.filter present l = []) as -> by done.
  induction l as [|x l IH]; [done|]. cbn [List.filter].
  unfold present at 1. rewrite (Hn x) by left. cbn. apply IH. intros y Hy. apply Hn. by right.
Qed.

Lemma resolve_both_absent capability_id weight signals profile_hash min_conf band require fingerprint :
  let r := resolve_capability capability_id weight signals profile_hash min_conf band require fingerprint in
  cs_score r = None -> cs_confidence r = None.
Proof.
  intros r Hr. pose proof (resolve_cases capability_id weight signals profile_hash min_conf band require fingerprint) as Hc.
  cbv zeta in Hc. fold r in Hc.
  destruct Hc as [(s & _ & _ & H1 & _)|[(_ & _ & _ & _ & H1 & _)|(_ & _ & _ & H1 & H2)]]; [congruence..|].
  rewrite Hr in H1. by rewrite H2, <- H1.
Qed.

Lemma sorted_remove {A} (R : A -> A -> Prop) (a b : list A) x :
  StronglySorted R (a ++ x :: b) -> StronglySorted R (a ++ b).
Proof.
  induction a as [|y a IH]; cbn; intros Hs; apply StronglySorted_inv in Hs as [Hs Hx]; [done|].
  constructor; [by apply IH|]. rewrite !Forall_app, Forall_cons in *. naive_solver.
Qed.

Lemma map_to_list_keys_NoDup (m : gmap string f64) : NoDup (map fst (map_to_list m)).
Proof. apply NoDup_fst_map_to_list. Qed.

Lemma sorted_weights_delete (m : gmap string f64) a k w b :
  sorted_weights m = a ++ (k, w) :: b -> sorted_weights (delete k m) = a ++ b.
Proof.
  intros E. symmetry. unfold sorted_weights in *.
  assert (Hp : map_to_list m ≡ₚ a ++ (k, w) :: b) by (rewrite <- E; symmetry; apply py_sorted_perm).
  assert (Hk : m !! k = Some w).
  { apply elem_of_map_to_list. rewrite Hp. apply elem_of_app. right. left. }
  assert (Hd : a ++ b ≡ₚ map_to_list (delete k m)).
  { apply (Permutation_cons_inv (a := (k, w))). rewrite map_to_list_delete by done.
    rewrite Hp. apply Permutation_middle. }
  apply (sorted_unique fst String.compare).
  - eapply sorted_remove. rewrite <- E. apply (sorted_by_key fst String.compare).
  - apply (sorted_by_key fst String.compare).
  - by rewrite py_sorted_perm.
  - rewrite Hd. apply map_to_list_keys_NoDup.
Qed.

Lemma exclusion_capability capability_id weight profile_hash min_conf fingerprint l c :
  head (omap (exclusion (signal_fate capability_id weight profile_hash min_conf fingerprint)) l) = Some c ->
  cs_capability_id c = capability_id.
Proof.
  intros Hc. assert (Hin : c ∈ omap (exclusion (signal_fate capability_id weight profile_hash min_conf fingerprint)) l).
  { destruct (omap _ l); simplify_eq/=. left. }
  apply list_elem_of_omap in Hin as (s & _ & Hs).
  unfold exclusion, signal_fate, benchmark_exclusion in Hs. repeat case_match; by simplify_eq.
Qed.

Lemma resolve_capability_id capability_id weight signals profile_hash min_conf band require fingerprint :
  cs_capability_id (resolve_capability capability_id weight signals profile_hash min_conf band require fingerprint)
    = capability_id.
Proof.
  rewrite resolve_eq. cbv zeta.
  pose proof (choose_cases capability_id weight fingerprint require
    (gather (signal_fate capability_id weight profile_hash min_conf fingerprint) ∅ None signals).1) as Hc.
  destruct (choose _ _ _ _ _ _) as [c|]; [by destruct Hc as [(? & ? & _ & _ & -> & _)|(-> & _)]|].
  unfold unscored. destruct (head _) as [c|] eqn:E.
  - apply exclusion_capability in E. by destruct require, band.
  - by destruct require, band.
Qed.

(** ** Lemmas: the parameter band *)

Lemma index_of_bounds x l : x ∈ l -> 0 <= index_of x l <= zlen l - 1.
Proof.
  unfold zlen. induction l as [|y l IH]; [by intros ?%elem_of_nil|]. intros Hx. cbn.
  destruct (Z.eqb_spec y x) as [|Hne]; [lia|]. apply elem_of_cons in Hx as [->|Hx]; [done|].
  specialize (IH Hx). lia.
Qed.

Definition Zsorted : list Z -> Prop := StronglySorted (fun x y => Z.leb x y = true).

Lemma index_of_mono a b l : Zsorted l -> a ∈ l -> b ∈ l -> a <= b -> index_of a l <= index_of b l.
Proof.
  induction 1 as [|x l Hs IH Hx]; intros Ha Hb Hab; [by apply elem_of_nil in Ha|]. cbn.
  rewrite Forall_forall in Hx. destruct (Z.eqb_spec x a) as [->|Ha'].
  - destruct (Z.eqb_spec a b) as [|Hb']; [lia|]. apply elem_of_cons in Hb as [?|Hb]; [lia|].
    pose proof (index_of_bounds b l Hb). lia.
  - apply elem_of_cons in Ha as [?|Ha]; [lia|]. pose proof (Hx a Ha) as ?%Z.leb_le.
    destruct (Z.eqb_spec x b); [lia|]. apply elem_of_cons in Hb as [?|Hb]; [lia|].
    specialize (IH Ha Hb Hab). lia.
Qed.

Lemma index_of_least a l : Zsorted l -> a ∈ l -> (forall b, b ∈ l -> a <= b) -> index_of a l = 0.
Proof.
  intros Hs Ha Hle. destruct l as [|x l]; [by apply elem_of_nil in Ha|]. cbn.
  apply StronglySorted_inv in Hs as [_ Hx]. rewrite Forall_forall in Hx.
  destruct (Z.eqb_spec x a); [done|]. apply elem_of_cons in Ha as [?|Ha]; [lia|].
  pose proof (Hx a Ha) as ?%Z.leb_le. pose proof (Hle x ltac:(left)). lia.
Qed.

Lemma index_of_greatest a l :
  NoDup l -> a ∈ l -> Zsorted l -> (forall b, b ∈ l -> b <= a) -> index_of a l = zlen l - 1.
Proof.
  unfold zlen. intros Hn Ha Hs. revert Hn Ha. induction Hs as [|x l Hs IH Hx]; intros Hn Ha Hle.
  - by apply elem_of_nil in Ha.
  - cbn. apply NoDup_cons in Hn as [Hnin Hn]. rewrite Forall_forall in Hx.
    destruct (Z.eqb_spec x a) as [->|Hne].
    + destruct l as [|y l]; [done|]. pose proof (Hx y ltac:(left)) as ?%Z.leb_le.
      pose proof (Hle y ltac:(right; left)). replace y with a in Hnin by lia. destruct Hnin. left.
    + apply elem_of_cons in Ha as [?|Ha]; [lia|]. rewrite IH; [lia|done..|]. intros b Hb. apply Hle. by right.
Qed.

Lemma band_facts :
  0 <= band_span /\ PARAMETER_BAND_PRIOR_FLOOR <= band_midpoint <= PARAMETER_BAND_PRIOR_CEILING /\
  fadd PARAMETER_BAND_PRIOR_FLOOR 0 = PARAMETER_BAND_PRIOR_FLOOR /\
  fadd PARAMETER_BAND_PRIOR_FLOOR (fmul band_span fone) = PARAMETER_BAND_PRIOR_CEILING /\ 0 <= PARAMETER_BAND_PRIOR_FLOOR.
Proof. vm_compute. repeat split; discriminate. Qed.

Lemma band_ends : flit 40 100 = PARAMETER_BAND_PRIOR_FLOOR /\ flit 60 100 = PARAMETER_BAND_PRIOR_CEILING.
Proof. split; reflexivity. Qed.

#[local] Opaque PARAMETER_BAND_PRIOR_FLOOR PARAMETER_BAND_PRIOR_CEILING band_midpoint band_span.

Lemma band_prior_at_mono i j n : 1 < n -> 0 <= i <= j -> band_prior_at i n <= band_prior_at j n.
Proof.
  intros Hn Hij. destruct band_facts as (Hspan & _). unfold band_prior_at.
  apply fadd_mono; [apply Z.le_refl|]. apply fmul_mono; [split; [exact Hspan|apply Z.le_refl]|].
  split; [apply int_div_nonneg; lia|apply int_div_mono; nia].
Qed.

Lemma band_prior_at_ends n : 1 < n ->
  band_prior_at 0 n = PARAMETER_BAND_PRIOR_FLOOR /\ band_prior_at (n - 1) n = PARAMETER_BAND_PRIOR_CEILING.
Proof.
  intros Hn. destruct band_facts as (_ & _ & H0 & H1 & _). unfold band_prior_at. split.
  - rewrite int_div_pos_eq by lia. rewrite Z.mul_0_l, fround_0, fmul_0_r. exact H0.
  - rewrite int_div_self by lia. exact H1.
Qed.

(** The distinct reported counts, ascending, and the prior a count gets. *)
Definition band_counts (counts : gmap string (option Z)) : list Z :=
  py_sorted Z.leb (distinct_counts (omap id counts)).

Definition band_value (counts : gmap string (option Z)) (count : Z) : f64 :=
  match band_counts counts with
  | [_] => band_midpoint
  | distinct => band_prior_at (index_of count distinct) (zlen distinct)
  end.

Lemma band_counts_elem counts n : n ∈ band_counts counts <-> exists name, counts !! name = Some (Some n).
Proof.
  unfold band_counts, distinct_counts. rewrite elem_of_py_sorted, (elem_of_elements (C := gset Z)), (elem_of_list_to_set (C := gset Z)).
  rewrite list_elem_of_fmap. split.
  - intros ([name n'] & -> & Hn%elem_of_map_to_list). exists name. rewrite lookup_omap in Hn.
    by destruct (counts !! name) as [[?|]|]; simplify_eq/=.
  - intros [name Hn]. exists (name, n). split; [done|]. apply elem_of_map_to_list. by rewrite lookup_omap, Hn.
Qed.

Lemma band_counts_sorted counts : Zsorted (band_counts counts) /\ NoDup (band_counts counts).
Proof.
  split; [apply py_sorted_Z_sorted|]. unfold band_counts, distinct_counts. rewrite py_sorted_perm. apply NoDup_elements.
Qed.

Lemma band_priors_lookup counts name :
  parameter_band_priors counts !! name =
    match counts !! name with Some (Some n) => Some (band_value counts n) | _ => None end.
Proof.
  pose proof (band_counts_elem counts) as He.
  unfold parameter_band_priors, band_value. fold (band_counts counts).
  destruct (band_counts counts) as [|a [|b l]].
  - rewrite lookup_empty. destruct (counts !! name) as [[n|]|] eqn:E; [|done..].
    exfalso. assert (Hn : n ∈ []) by (apply He; by exists name). by apply elem_of_nil in Hn.
  - rewrite lookup_fmap, lookup_omap. by destruct (counts !! name) as [[n|]|].
  - rewrite lookup_fmap, lookup_omap. by destruct (counts !! name) as [[n|]|].
Qed.

Section band.
Context (counts : gmap string (option Z)).

Lemma band_value_cases n : n ∈ band_counts counts ->
  (band_value counts n = band_midpoint /\ band_counts counts = [n]) \/
  (1 < zlen (band_counts counts) /\
   band_value counts n = band_prior_at (index_of n (band_counts counts)) (zlen (band_counts counts)) /\
   0 <= index_of n (band_counts counts) <= zlen (band_counts counts) - 1).
Proof.
  intros Hn. pose proof (index_of_bounds n _ Hn) as Hi. unfold band_value.
  destruct (band_counts counts) as [|a [|b l]]; [by apply elem_of_nil in Hn| |].
  - left. split; [done|]. by apply list_elem_of_singleton in Hn as ->.
  - right. split; [unfold zlen; cbn; lia|]. by split.
Qed.

Lemma band_value_bounds n : n ∈ band_counts counts ->
  PARAMETER_BAND_PRIOR_FLOOR <= band_value counts n <= PARAMETER_BAND_PRIOR_CEILING.
Proof.
  intros Hn. destruct (band_value_cases n Hn) as [[-> _]|(Hl & -> & Hi)]; [exact (proj1 (proj2 band_facts))|].
  destruct (band_prior_at_ends _ Hl) as [<- <-]. split; apply band_prior_at_mono; lia.
Qed.

Lemma band_value_mono a b :
  a ∈ band_counts counts -> b ∈ band_counts counts -> a <= b -> band_value counts a <= band_value counts b.
Proof.
  intros Ha Hb Hab. destruct (band_counts_sorted counts) as [Hs _].
  destruct (band_value_cases a Ha) as [[-> H1]|(Hl & -> & Hi)],
    (band_value_cases b Hb) as [[-> H2]|(Hl' & -> & Hj)].
  - apply Z.le_refl.
  - exfalso. rewrite H1 in Hl'. unfold zlen in Hl'. cbn in Hl'. lia.
  - exfalso. rewrite H2 in Hl. unfold zlen in Hl. cbn in Hl. lia.
  - apply band_prior_at_mono; [done|]. split; [lia|]. by apply index_of_mono.
Qed.

Lemma band_value_top a b :
  a ∈ band_counts counts -> b ∈ band_counts counts -> a < b -> (forall c, c ∈ band_counts counts -> c <= b) ->
  band_value counts b = PARAMETER_BAND_PRIOR_CEILING.
Proof.
  intros Ha Hb Hab Hle. destruct (band_counts_sorted counts) as [Hs Hn].
  destruct (band_value_cases b Hb) as [[_ H1]|(Hl & -> & Hi)]; [rewrite H1 in Ha; apply list_elem_of_singleton in Ha; lia|].
  rewrite index_of_greatest by done. exact (proj2 (band_prior_at_ends _ Hl)).
Qed.

Lemma band_value_bottom a b :
  a ∈ band_counts counts -> b ∈ band_counts counts -> a < b -> (forall c, c ∈ band_counts counts -> a <= c) ->
  band_value counts a = PARAMETER_BAND_PRIOR_FLOOR.
Proof.
  intros Ha Hb Hab Hle. destruct (band_counts_sorted counts) as [Hs Hn].
  destruct (band_value_cases a Ha) as [[_ H1]|(Hl & -> & Hi)]; [rewrite H1 in Hb; apply list_elem_of_singleton in Hb; lia|].
  rewrite index_of_least by done. exact (proj1 (band_prior_at_ends _ Hl)).
Qed.
End band.

Module Properties.

(** A benchmark that does not describe the execution - unbound evidence, a performance
    measurement of another machine, a measurement under another runtime profile - changes no number:
    the capability gets the score, the confidence and the measured flag it would have had, had those
    measurements never been made.  Only the named source can differ, and then it names one of the
    three exclusions. *)
Theorem displaced_prior (capability_id : string) (weight : f64) (signals : list CapabilitySignal)
    (profile_hash : string) (min_conf : f64) (band : option f64) (require : bool) (fingerprint : option string) :
  let resolve l := resolve_capability capability_id weight l profile_hash min_conf band require fingerprint in
  let all := resolve signals in
  let kept := resolve (filter (describes capability_id profile_hash fingerprint) signals) in
  cs_score all = cs_score kept /\ cs_confidence all = cs_confidence kept /\
  measured all = measured kept /\
  (cs_source all = cs_source kept \/
   cs_source all ∈ ["evidence_profile_mismatch"; "evidence_foreign_machine"; "evidence_unbound"]).
Proof.
  cbv beta zeta. rewrite !resolve_eq. cbv beta zeta. rewrite usable_describing.
  destruct (choose _ _ _ _ _ _); [by eauto|].
  pose proof (first_exclusion capability_id weight profile_hash min_conf fingerprint) as Hx.
  destruct (unscored_numbers capability_id weight band require _ (Hx signals)) as (-> & -> & ->).
  destruct (unscored_numbers capability_id weight band require _
    (Hx (filter (describes capability_id profile_hash fingerprint) signals))) as (-> & -> & ->).
  repeat split. destruct (head (omap _ signals)) as [c|] eqn:E.
  - right. rewrite unscored_source. by destruct (Hx signals c E) as (_ & _ & ?).
  - left. destruct (head (omap _ (filter _ signals))) as [c|] eqn:E'; [|done].
    by apply describing_not_excluded in E'.
Qed.

(** What scores a capability.  A score counts as measured exactly when some signal the rules
    admit - enough confidence, a benchmark of this very execution, twenty production samples - is
    selected: benchmarks first, then production, then (unless evidence is required) manual scores,
    the first of its source; and then the numbers are that signal's.  Without one, evidence that is
    required leaves the capability absent; otherwise a declared flag contributes the neutral prior,
    and failing that the parameter band does. *)
Theorem capability_resolution (capability_id : string) (weight : f64) (signals : list CapabilitySignal)
    (profile_hash : string) (min_conf : f64) (band : option f64) (require : bool) (fingerprint : option string) :
  let r := resolve_capability capability_id weight signals profile_hash min_conf band require fingerprint in
  let sel := selects capability_id profile_hash min_conf require fingerprint signals in
  let declared := exists x, x ∈ signals /\ admissible capability_id profile_hash min_conf fingerprint x /\
                    cap_source x = "declared" in
  (measured r = true <-> exists s, sel s) /\
  (measured r = true -> exists s, sel s /\ cs_source r = cap_source s /\
     cs_score r = Some (cap_score s) /\ cs_confidence r = Some (cap_confidence s)) /\
  (measured r = false -> require = true -> cs_score r = None /\ cs_confidence r = None) /\
  (measured r = false -> require = false -> declared -> cs_score r = Some (flit 1 2)) /\
  (measured r = false -> require = false -> ~ declared -> cs_score r = band) /\
  (measured r = false -> is_Some (cs_score r) -> cs_confidence r = Some (flit 3 10)).
Proof.
  intros r sel declared.
  pose proof (resolve_cases capability_id weight signals profile_hash min_conf band require fingerprint) as Hc.
  cbv zeta in Hc. fold r sel declared in Hc.
  destruct Hc as [(s & Hs & H1 & H2 & H3 & Hm)|[(Hn & Hm & Hr & Hd & H1 & H2)|(Hn & Hm & Hr & H1 & H2)]];
    rewrite Hm.
  - split; [split; [by exists s|done]|]. split; [intros _; by exists s|].
    repeat (split; [discriminate|]). discriminate.
  - split; [split; [done|by intros [s ?%Hn]]|]. split; [done|]. split; [by rewrite Hr|].
    split; [intros _ _ _; exact H1|]. split; [by intros _ _ []|]. intros _ _. exact H2.
  - split; [split; [done|by intros [s ?%Hn]]|]. split; [done|].
    split; [intros _ Hreq; by rewrite H1, H2, Hreq|].
    split; [intros _ Hreq Hdec; destruct Hr; [congruence|done]|].
    split; [intros _ Hreq _; by rewrite H1, Hreq|].
    rewrite H1, H2. intros _ [b ->]. reflexivity.
Qed.

(** The parameter band.  Exactly the models whose count is reported get a prior; it lies between
    0.40 and 0.60 (as floats) whatever the counts, a model with more parameters never gets a smaller
    one, equal counts get equal ones, and on a machine with at least two distinct counts the largest
    model gets the ceiling and the smallest the floor. *)
Theorem band_priors (counts : gmap string (option Z)) :
  let p := parameter_band_priors counts in
  let count name n := counts !! name = Some (Some n) in
  (forall name, is_Some (p !! name) <-> exists n, count name n) /\
  (forall name x, p !! name = Some x -> flit 40 100 <= x <= flit 60 100) /\
  (forall a b na nb xa xb, count a na -> count b nb -> p !! a = Some xa -> p !! b = Some xb ->
     (na <= nb -> xa <= xb) /\
     (na < nb -> (forall c nc, count c nc -> nc <= nb) -> xb = flit 60 100) /\
     (na < nb -> (forall c nc, count c nc -> na <= nc) -> xa = flit 40 100)).
Proof.
  intros p count. destruct band_ends as [-> ->].
  assert (Hp : forall name, p !! name = (counts !! name ≫= id) ≫= fun n => Some (band_value counts n)).
  { intros name. unfold p. rewrite band_priors_lookup. by destruct (counts !! name) as [[n|]|]. }
  assert (Hc : forall name n, count name n -> n ∈ band_counts counts) by (intros name n Hn; by apply band_counts_elem; exists name).
  split; [|split].
  - intros name. rewrite Hp. unfold count. split; [|intros [n ->]; by eexists].
    destruct (counts !! name) as [[n|]|]; cbn; [intros _; by exists n|by intros [? ?]..].
  - intros name x. rewrite Hp. destruct (counts !! name) as [[n|]|] eqn:E; [|done..].
    intros [= <-]. apply band_value_bounds. by apply (Hc name).
  - intros a b na nb xa xb Ha Hb Hxa Hxb. rewrite Hp, Ha in Hxa. rewrite Hp, Hb in Hxb.
    injection Hxa as <-. injection Hxb as <-. repeat split.
    + intros. apply band_value_mono; eauto.
    + intros Hlt Hle. apply band_value_top with na; eauto. intros c (name & Hn)%band_counts_elem. eauto.
    + intros Hlt Hle. apply band_value_bottom with nb; eauto. intros c (name & Hn)%band_counts_elem. eauto.
Qed.

(** A capability with nothing behind it is excluded from the numerator and the denominator:
    dropping it from the task profile's weights changes neither the candidate's fit nor the present
    and measured weight nor the mean confidence, and removes exactly its line of the breakdown.  A
    candidate with no capability present at all scores zero. *)
Theorem absent_is_neutral `{Profiles} (subject : ExecutionSubject) (inputs : ScoringInputs) (c : CapabilityScore) :
  let fit := score_subject subject inputs in
  let without := score_subject subject (mkScoringInputs (delete (cs_capability_id c) (weights inputs))
    (min_confidence inputs) (parameter_priors inputs) (require_evidence inputs) (machine_fingerprint inputs)) in
  ((forall x, x ∈ tf_capabilities fit -> cs_score x = None) -> task_fit fit = 0) /\
  (c ∈ tf_capabilities fit -> cs_score c = None ->
   task_fit fit = task_fit without /\ present_weight fit = present_weight without /\
   measured_weight fit = measured_weight without /\ mean_confidence fit = mean_confidence without /\
   exists before after, tf_capabilities fit = before ++ c :: after /\ tf_capabilities without = before ++ after).
Proof.
  intros fit without. split.
  { intros Hn. apply fit_of_nothing. exact Hn. }
  intros Hc Hs. unfold fit, without, score_subject in *. cbn [tf_capabilities fit_of] in Hc.
  apply list_elem_of_fmap in Hc as ([k w] & Ec & Hin). apply list_elem_of_split in Hin as (a & b & E).
  assert (Hk : cs_capability_id c = k) by (rewrite Ec; apply resolve_capability_id).
  assert (Hn : cs_confidence c = None) by (rewrite Ec in Hs |- *; by apply resolve_both_absent).
  cbn [weights]. rewrite Hk, (sorted_weights_delete _ _ _ _ _ E), E, !map_app. cbn [map]. rewrite <- Ec.
  set (f := score_of subject inputs).
  change (score_of subject (mkScoringInputs _ _ _ _ _)) with f.
  destruct (fit_of_absent (map f a) c (map f b)) as (E1 & E2 & E3); [unfold present; by rewrite Hs|].
  split; [exact E1|]. split; [exact E2|]. split; [exact E3|]. split; [|by eexists _, _].
  unfold mean_confidence. cbn [tf_capabilities fit_of]. rewrite !omap_app. cbn [omap list_omap]. by rewrite Hn.
Qed.
End Properties.


(** ** A concrete run *)

Definition sample_signal (source : string) (score conf : f64) (machine : string) : CapabilitySignal :=
  mkSignal "speed" source score conf (Some "h1") (Some machine) None (Some 30) (Some "bound") None false None None.

(** A foreign speed benchmark is displaced by the production statistics behind it, and without them
    by the band prior, under its own source. *)
Example foreign_speed_displaced :
  let resolve l := resolve_capability "speed" fone l "h1" (flit 5 100) (Some band_midpoint) false (Some "here") in
  let foreign := sample_signal "benchmark" (flit 9 10) (flit 8 10) "there" in
  let local := sample_signal "production" (flit 7 10) (flit 6 10) "here" in
  cs_source (resolve [foreign; local]) = "production" /\ cs_score (resolve [foreign; local]) = Some (flit 7 10) /\
  cs_source (resolve [foreign]) = "evidence_foreign_machine" /\ cs_score (resolve [foreign]) = Some (flit 50 100) /\
  measured (resolve [foreign]) = false.
Proof. vm_compute. repeat split. Qed.
