(* ===== verification/Constraints.v ===== *)
(** * Memory estimates and hard constraints ([domain/routing/constraints.py])

    The VRAM estimate of a candidate, the per-device fit, and the ordered filter that stops at the
    first constraint a candidate fails.  Telemetry quantities and the ordered classification of data
    are third-party types, reached through classes; rejections carry the same details as the code,
    as JSON values, the prose of [problem] strings apart. *)

From Stdlib Require Import Ascii String.
From S2P Require Import Prelude PyFloat PyStr Json Telemetry Ordering EvidencePolicy Reliability Subject Scoring.
#[local] Open Scope string_scope.
#[local] Open Scope list_scope.
#[local] Open Scope Z_scope.

Definition LOADING_OVERHEAD_FACTOR : f64 := flit 105 100.
Definition ACTIVATION_OVERHEAD_BYTES : Z := 256 * 1024 * 1024.
Definition ASSUMED_KV_CACHE_PRECISION : string := "f16".
Definition DEFAULT_VRAM_HEADROOM_BYTES : Z := 512 * 1024 * 1024.

Definition BYTES_PER_ELEMENT : list (string * f64) :=
  [("f32", 4 * fone); ("fp32", 4 * fone); ("f16", 2 * fone); ("fp16", 2 * fone); ("bf16", 2 * fone);
   ("q8_0", fone); ("q8", fone); ("q5_1", flit 625 1000); ("q5_0", flit 625 1000);
   ("q4_0", flit 1 2); ("q4_1", flit 1 2); ("q4", flit 1 2)].

Record VramEstimate := mkEstimate {
  ve_total_bytes : option Z;
  ve_weights_bytes : option Z;
  ve_kv_bytes : option Z;
  ve_activation_bytes : Z;
  ve_kv_bytes_per_token : option f64;
  ve_kv_source : string;
  ve_kv_precision_assumed : bool;
  ve_served_context : Z;
  ve_unknown_reason : option string
}.

Definition jint_opt (z : option Z) : json := match z with Some z => JInt z | None => JNull end.
Definition jfloat_opt (f : option f64) : json := match f with Some f => JFloat f | None => JNull end.

Definition estimate_json (e : VramEstimate) : json :=
  JObj [("total_bytes", jint_opt (ve_total_bytes e)); ("weights_bytes", jint_opt (ve_weights_bytes e));
        ("kv_bytes", jint_opt (ve_kv_bytes e)); ("activation_bytes", JInt (ve_activation_bytes e));
        ("kv_bytes_per_token", jfloat_opt (ve_kv_bytes_per_token e)); ("kv_source", JStr (ve_kv_source e));
        ("kv_precision_assumed", JBool (ve_kv_precision_assumed e));
        ("served_context", JInt (ve_served_context e)); ("unknown_reason", jstr_opt (ve_unknown_reason e))].

Record DeviceFit := mkFit {
  df_gpu_index : Z;
  df_free_bytes : option Z;
  df_required_bytes : option Z;
  df_headroom_bytes : Z;
  df_fits : bool
}.

(** ** The estimate *)

Definition kv_bytes_per_token (layers kv_heads head_dim : option Z) (kv_cache_precision : option string)
    (observed : option f64) : option f64 * string * bool :=
  match observed with
  | Some o => (Some o, "observed", false)
  | None =>
      match layers, kv_heads, head_dim with
      | Some l, Some h, Some d =>
          let precision := lower (strip (or_str kv_cache_precision ASSUMED_KV_CACHE_PRECISION)) in
          match assoc precision BYTES_PER_ELEMENT with
          | None => (None, "unknown", false)
          | Some element_bytes =>
              (Some (fmul (fmul (fmul (fmul (2 * fone) (of_int l)) (of_int h)) (of_int d)) element_bytes),
               "theoretical", bool_decide (kv_cache_precision = None))
          end
      | _, _, _ => (None, "unknown", false)
      end
  end.

Definition NO_WEIGHTS_NOR_GEOMETRY : string :=
  "the provider reported neither a weight size nor the geometry a KV figure needs".
Definition NO_WEIGHTS : string := "the provider reported no weight size for this model".
Definition NO_KV : string :=
  "no measured KV figure exists and the provider reported no layers/kv_heads/head_dim to compute a theoretical one".

Definition estimate_vram (size_bytes : option Z) (served_context : Z) (layers kv_heads head_dim : option Z)
    (kv_cache_precision : option string) (observed : option f64) (loading_overhead_factor : f64)
    (activation_overhead_bytes : Z) : VramEstimate :=
  let '(per_token, kv_source, assumed) :=
    kv_bytes_per_token layers kv_heads head_dim kv_cache_precision observed in
  let weights := match size_bytes with
                 | None => None
                 | Some size => Some (ftrunc (fmul (of_int size) loading_overhead_factor))
                 end in
  let kv := match per_token with None => None | Some b => Some (ftrunc (fmul b (of_int served_context))) end in
  let reason := match size_bytes, per_token with
                | None, None => Some NO_WEIGHTS_NOR_GEOMETRY
                | None, Some _ => Some NO_WEIGHTS
                | Some _, None => Some NO_KV
                | Some _, Some _ => None
                end in
  let total := match weights, kv with
               | Some w, Some k => Some (w + k + activation_overhead_bytes)
               | _, _ => None
               end in
  mkEstimate total weights kv activation_overhead_bytes per_token kv_source assumed served_context reason.

(** [math.inf] for an unknown estimate. *)
Definition sortable_estimate (e : VramEstimate) : option f64 := of_int <$> ve_total_bytes e.

(** ** Devices *)

Section devices.
Context {M : Type} `{Measurement M}.

Definition gpu_free (gpu : Gpu M) : option Z :=
  let total := vram_total_bytes gpu in
  let used := vram_used_bytes gpu in
  if is_supported total && is_supported used then Some (Z.max (to_int total - to_int used) 0) else None.

(** A dictionary: a repeated index keeps the last observation. *)
Definition free_vram_by_gpu (snapshot : TelemetrySnapshot M) : gmap Z (option Z) :=
  fold_left (fun free gpu => <[gpu_index gpu := gpu_free gpu]> free) (gpus snapshot) ∅.

(** [sorted(d.items())]: the indices are distinct, so they alone decide. *)
Definition sorted_items {A} (m : gmap Z A) : list (Z * A) :=
  py_sorted (leb_of (cmp_on fst Z.compare)) (map_to_list m).

Definition device_ok (required : option Z) (headroom_bytes : Z) (free : option Z) : bool :=
  match required, free with
  | Some r, Some f => r + headroom_bytes <=? f
  | _, _ => false
  end.

Definition device_fits (e : VramEstimate) (snapshot : TelemetrySnapshot M) (headroom_bytes : Z) : list DeviceFit :=
  map (fun kv => mkFit kv.1 kv.2 (ve_total_bytes e) headroom_bytes
                   (device_ok (ve_total_bytes e) headroom_bytes kv.2))
    (sorted_items (free_vram_by_gpu snapshot)).
End devices.

(** ** Rejections *)

Record Rejection := mkRejection { reason : string; detail : list (string * json) }.

(** A sequence of [if ...: return (Rejection(...), ...)]: the first that fires. *)
Definition first_rejection (checks : list (option Rejection)) : option Rejection := head (omap id checks).

(** [baseaicore.DataClassification], an ordered enumeration of strings. *)
Class Classification := {
  DataClassification : Type;
  classification_of : string -> option DataClassification;    (* the constructor; [None] is ValueError *)
  classification_value : DataClassification -> string;
  classification_rank : DataClassification -> Z
}.

Class ClassificationLaws `{Classification} : Prop := {
  classification_value_of s c : classification_of s = Some c -> classification_value c = s;
  classification_of_value c : classification_of (classification_value c) = Some c;
  classification_rank_inj a b : classification_rank a = classification_rank b -> a = b
}.

Definition join_classification `{Classification} (caller : option string) (adapter : string) : string :=
  match classification_of adapter with
  | None => adapter
  | Some a =>
      match caller with
      | None => classification_value a
      | Some c =>
          match classification_of c with
          | None => classification_value a
          | Some c => classification_value (if classification_rank c <? classification_rank a then a else c)
          end
      end
  end.

(** Narrower than scoring's set: a manual score is not a measurement here. *)
Definition ADAPTER_MEASURED_SOURCES : list string := ["benchmark"; "production"].

Definition capability_support (capability : string) (p : ProviderFacts) : option bool :=
  if bool_decide (capability = "tool_use") then Some (pf_supports_tool_use p)
  else if bool_decide (capability = "structured_output") then Some (pf_supports_structured_output p)
  else None.

Section constraints.
Context `{Profiles} `{Classification} {M : Type} `{Measurement M}.

Record ConstraintInputs := mkConstraints {
  min_context_tokens : Z;
  requires_capabilities : list string;
  min_capability_scores : option (gmap string f64);
  exclude_models : list string;
  allow_remote_providers : bool;
  required_context : option Z;
  resolved_capabilities : option (gmap string CapabilityScore);
  snapshot : option (TelemetrySnapshot M);
  vram_headroom_bytes : Z;
  open_circuit_breakers : gset string;
  resident_devices : gmap string (gset Z);
  circuit_breaker_details : gmap string (list (string * json));
  request_capabilities : gset string;
  requires_thinking_control : option string;
  require_adapter_evidence : bool;
  top_weighted_capability : option string;
  caller_data_classification : option string
}.

Definition resolved_score (inputs : ConstraintInputs) (capability : string) : option CapabilityScore :=
  default ∅ (resolved_capabilities inputs) !! capability.

Definition adapter_unmeasured_detail (adapter_name capability : string) (resolved : option CapabilityScore)
    (executing_profile_hash : string) : list (string * json) :=
  let source := match resolved with None => "absent" | Some c => cs_source c end in
  [("adapter", JStr adapter_name); ("capability", JStr capability); ("require_adapter_evidence", JBool true);
   ("resolved_source", JStr source)] ++
  match resolved with
  | None => []
  | Some c =>
      (if bool_decide (source ∈ EVIDENCE_EXCLUSIONS)
       then [("executing_profile_hash", JStr executing_profile_hash)] else []) ++
      match cs_measured_profile_hash c with Some h => [("measured_profile_hash", JStr h)] | None => [] end ++
      match cs_measured_machine_fingerprint c with
      | Some m => [("measured_machine_fingerprint", JStr m)] | None => [] end
  end.

(** The adapter can be applied: [adapter_incompatible] twice, [adapter_unmeasured] and
    [adapter_classification_conflict], in this order. *)
Definition check_hot_swap (subject : ExecutionSubject) (adapter : AdapterFacts) : option Rejection :=
  if pf_adapter_hot_swap (es_provider subject) then None
  else Some (mkRejection "adapter_incompatible"
    [("adapter", JStr (af_name adapter)); ("provider_name", JStr (mf_provider_name (es_facts subject)));
     ("provider_kind", JStr (mf_provider_kind (es_facts subject)))]).

Definition check_declared_base (subject : ExecutionSubject) (adapter : AdapterFacts) : option Rejection :=
  let served_digest := mf_artifact_digest (es_facts subject) in
  let declared_digest := af_base_artifact_digest adapter in
  if bool_decide (is_Some declared_digest) && bool_decide (is_Some served_digest) &&
     negb (bool_decide (declared_digest = served_digest))
  then Some (mkRejection "adapter_incompatible"
    [("adapter", JStr (af_name adapter)); ("declared_base_name", JStr (af_base_model_name adapter));
     ("declared_base_digest", jstr_opt declared_digest); ("served_base_digest", jstr_opt served_digest)])
  else None.

Definition check_adapter_evidence (subject : ExecutionSubject) (inputs : ConstraintInputs)
    (adapter : AdapterFacts) : option Rejection :=
  match top_weighted_capability inputs with
  | Some capability =>
      let resolved := resolved_score inputs capability in
      let measured := match resolved with
                      | Some c => present c && bool_decide (cs_source c ∈ ADAPTER_MEASURED_SOURCES)
                      | None => false
                      end in
      if require_adapter_evidence inputs && negb measured
      then Some (mkRejection "adapter_unmeasured"
             (adapter_unmeasured_detail (af_name adapter) capability resolved (runtime_profile_hash subject)))
      else None
  | None => None
  end.

Definition check_egress (subject : ExecutionSubject) (inputs : ConstraintInputs)
    (adapter : AdapterFacts) : option Rejection :=
  let facts := es_facts subject in
  if mf_is_remote facts || pf_is_remote (es_provider subject) then
    Some (mkRejection "adapter_classification_conflict"
      [("adapter", JStr (af_name adapter)); ("adapter_classification", JStr (af_data_classification adapter));
       ("caller_classification", jstr_opt (caller_data_classification inputs));
       ("effective_classification",
         JStr (join_classification (caller_data_classification inputs) (af_data_classification adapter)));
       ("provider_name", JStr (mf_provider_name facts)); ("provider_remote", JBool true)])
  else None.

Definition check_adapter (subject : ExecutionSubject) (inputs : ConstraintInputs) : option Rejection :=
  match es_adapter subject with
  | None => None
  | Some adapter =>
      first_rejection [check_hot_swap subject adapter; check_declared_base subject adapter;
                       check_adapter_evidence subject inputs adapter; check_egress subject inputs adapter]
  end.

(** ** The model, its profile and its context *)

Definition check_enabled (subject : ExecutionSubject) : option Rejection :=
  if mf_enabled (es_facts subject) then None
  else Some (mkRejection "model_disabled" [("enabled", JBool false)]).

Definition check_profile (subject : ExecutionSubject) : option Rejection :=
  match runtime_profile_refusal (es_runtime_profile subject) (mf_provider_kind (es_facts subject)) with
  | Some (name, d) => Some (mkRejection name d)
  | None => None
  end.

Definition check_available (subject : ExecutionSubject) : option Rejection :=
  let facts := es_facts subject in
  if negb (mf_available facts) || negb (pf_healthy (es_provider subject)) then
    Some (mkRejection "model_unavailable"
      [("available", JBool (mf_available facts)); ("provider_healthy", JBool (pf_healthy (es_provider subject)));
       ("reason", jstr_opt (mf_unavailable_reason facts))])
  else None.

Definition check_min_context (subject : ExecutionSubject) (inputs : ConstraintInputs) : option Rejection :=
  let served := es_served_context subject in
  if (0 <? min_context_tokens inputs) && (sc_tokens served <? min_context_tokens inputs) then
    Some (mkRejection "context_too_small"
      [("served_context", JInt (sc_tokens served)); ("served_context_source", JStr (sc_source served));
       ("min_context_tokens", JInt (min_context_tokens inputs));
       ("advertised_max_context", jint_opt (mf_max_context (es_facts subject)))])
  else None.

Definition check_configurable (subject : ExecutionSubject) (inputs : ConstraintInputs) : option Rejection :=
  let served := es_served_context subject in
  match context_size (es_runtime_profile subject) with
  | Some requested =>
      if negb (pf_context_configurable (es_provider subject)) && negb (requested =? sc_tokens served) then
        Some (mkRejection "context_not_configurable"
          [("requested_context", JInt requested); ("served_context", JInt (sc_tokens served));
           ("served_context_source", JStr (sc_source served));
           ("min_context_tokens", JInt (min_context_tokens inputs)); ("context_configurable", JBool false)])
      else None
  | None => None
  end.

Definition check_required_context (subject : ExecutionSubject) (inputs : ConstraintInputs) : option Rejection :=
  let served := es_served_context subject in
  match required_context inputs with
  | Some required =>
      if sc_tokens served <? required then
        Some (mkRejection "context_limit_exceeded"
          [("required_context", JInt required); ("served_context", JInt (sc_tokens served));
           ("served_context_source", JStr (sc_source served))])
      else None
  | None => None
  end.

Fixpoint check_capabilities (subject : ExecutionSubject) (inputs : ConstraintInputs) (capabilities : list string)
  : option Rejection :=
  match capabilities with
  | [] => None
  | capability :: rest =>
      if match capability_support capability (es_provider subject) with Some b => negb b | None => false end
      then Some (mkRejection "capability_unsupported"
             [("capability", JStr capability); ("provider_kind", JStr (mf_provider_kind (es_facts subject)));
              ("required_by", JStr (if bool_decide (capability ∈ request_capabilities inputs)
                                    then "request" else "task_profile"))])
      else check_capabilities subject inputs rest
  end.

Definition check_thinking (subject : ExecutionSubject) (inputs : ConstraintInputs) : option Rejection :=
  match requires_thinking_control inputs with
  | Some who =>
      if negb (pf_supports_thinking_control (es_provider subject)) then
        Some (mkRejection "capability_unsupported"
          [("capability", JStr "thinking_control"); ("provider_kind", JStr (mf_provider_kind (es_facts subject)));
           ("required_by", JStr who)])
      else None
  | None => None
  end.

(** ** Memory *)

Definition check_host_ram (e : VramEstimate) (s : TelemetrySnapshot M) : option Rejection :=
  match ve_total_bytes e with
  | None => None
  | Some required =>
      if negb (is_supported (ram_available_bytes s)) then None
      else if to_int (ram_available_bytes s) <? required then
        Some (mkRejection "insufficient_ram"
          [("estimated_bytes", JInt required); ("free_bytes", JInt (to_int (ram_available_bytes s)))])
      else None
  end.

(** The rejection, the fits and the target device. *)
Definition check_memory (subject : ExecutionSubject) (e : VramEstimate) (inputs : ConstraintInputs)
  : option Rejection * list DeviceFit * option Z :=
  match snapshot inputs with
  | None => (None, [], None)
  | Some s =>
      let fits := device_fits e s (vram_headroom_bytes inputs) in
      match fits with
      | [] => (check_host_ram e s, [], None)
      | _ =>
          let resident_on := default ∅ (resident_devices inputs !! mf_canonical_id (es_facts subject)) in
          let resident_here := List.filter (fun f => bool_decide (df_gpu_index f ∈ resident_on)) fits in
          let satisfying := List.filter df_fits fits in
          match resident_here, satisfying with
          | f :: _, _ => (None, fits, Some (df_gpu_index f))
          | [], [] =>
              (Some (mkRejection "insufficient_vram"
                 [("estimated_bytes", jint_opt (ve_total_bytes e));
                  ("free_bytes_by_gpu", JObj (map (fun f => (pretty (df_gpu_index f), jint_opt (df_free_bytes f))) fits));
                  ("headroom_bytes", JInt (vram_headroom_bytes inputs)); ("estimate", estimate_json e)]), fits, None)
          | [], f :: _ => (None, fits, Some (df_gpu_index f))
          end
      end
  end.

(** ** Policy *)

Fixpoint below_minimum (inputs : ConstraintInputs) (floors : list (string * f64)) : option Rejection :=
  match floors with
  | [] => None
  | (capability, floor) :: rest =>
      match resolved_score inputs capability ≫= cs_score with
      | Some score =>
          if score <? floor then
            Some (mkRejection "below_minimum_score"
              [("capability", JStr capability); ("score", JFloat score); ("minimum", JFloat floor)])
          else below_minimum inputs rest
      | None => below_minimum inputs rest
      end
  end.

Definition check_minimum_scores (inputs : ConstraintInputs) : option Rejection :=
  below_minimum inputs (sorted_weights (default ∅ (min_capability_scores inputs))).

Definition check_excluded (subject : ExecutionSubject) (inputs : ConstraintInputs) : option Rejection :=
  if bool_decide (mf_canonical_id (es_facts subject) ∈ exclude_models inputs)
  then Some (mkRejection "excluded_by_policy" [("rule", JStr "exclude_models")]) else None.

Definition check_remote (subject : ExecutionSubject) (inputs : ConstraintInputs) : option Rejection :=
  if mf_is_remote (es_facts subject) && negb (allow_remote_providers inputs)
  then Some (mkRejection "excluded_by_policy"
         [("rule", JStr "allow_remote_providers"); ("provider_kind", JStr (mf_provider_kind (es_facts subject)))])
  else None.

Definition check_breaker (subject : ExecutionSubject) (inputs : ConstraintInputs) : option Rejection :=
  let key := subject_canonical_id subject in
  if bool_decide (key ∈ open_circuit_breakers inputs)
  then Some (mkRejection "recently_failing"
         (dict_merge [("circuit_breaker", JStr "open")] (default [] (circuit_breaker_details inputs !! key))))
  else None.

(** ** The filter *)

Definition evaluate_constraints (subject : ExecutionSubject) (e : VramEstimate) (inputs : ConstraintInputs)
  : option Rejection * list DeviceFit * option Z :=
  match first_rejection
          [check_enabled subject; check_profile subject; check_available subject;
           check_min_context subject inputs; check_configurable subject inputs;
           check_required_context subject inputs;
           check_capabilities subject inputs (requires_capabilities inputs);
           check_thinking subject inputs] with
  | Some r => (Some r, [], None)
  | None =>
      let '(rejection, fits, target_gpu_index) := check_memory subject e inputs in
      match first_rejection
              [rejection; check_minimum_scores inputs; check_excluded subject inputs; check_remote subject inputs;
               check_adapter subject inputs; check_breaker subject inputs] with
      | Some r => (Some r, fits, None)
      | None => (None, fits, target_gpu_index)
      end
  end.
End constraints.

(** ** Lemmas: devices *)

Section device_lemmas.
Context {M : Type} `{Measurement M}.

(** [gpu] is what the snapshot last reports for device [g]. *)
Definition reports (s : TelemetrySnapshot M) (g : Z) (gpu : Gpu M) : Prop :=
  exists before after, gpus s = before ++ gpu :: after /\ gpu_index gpu = g /\
    forall x, x ∈ after -> gpu_index x <> g.

Lemma free_vram_fold (l : list (Gpu M)) (m : gmap Z (option Z)) g free :
  fold_left (fun free gpu => <[gpu_index gpu := gpu_free gpu]> free) l m !! g = Some free <->
  (exists before gpu after, l = before ++ gpu :: after /\ gpu_index gpu = g /\
     (forall x, x ∈ after -> gpu_index x <> g) /\ free = gpu_free gpu) \/
  ((forall x, x ∈ l -> gpu_index x <> g) /\ m !! g = Some free).
Proof.
  induction l as [|x l IH] using rev_ind; cbn.
  - split; [intros Hm; right; split; [by intros x ?%elem_of_nil|done]|].
    intros [(b & gpu & a & E & _)|[_ Hm]]; [by destruct b|done].
  - rewrite fold_left_app. cbn. destruct (decide (gpu_index x = g)) as [Hx|Hx].
    + rewrite Hx, lookup_insert_eq. split.
      * intros [= <-]. left. exists l, x, []. repeat split; [done|]. by intros y ?%elem_of_nil.
      * intros [(b & gpu & a & E & Hg & Ha & ->)|[Hn _]].
        -- destruct a as [|y a _] using rev_ind; [by apply app_inj_tail in E as [_ ->]|].
           rewrite app_comm_cons, app_assoc in E. apply app_inj_tail in E as [_ ->].
           destruct (Ha y); [|done]. apply elem_of_app. right. left.
        -- destruct (Hn x); [|done]. apply elem_of_app. right. left.
    + rewrite lookup_insert_ne by done. rewrite IH. split.
      * intros [(b & gpu & a & -> & Hg & Ha & ->)|[Hn Hm]]; [left|right].
        -- exists b, gpu, (a ++ [x]). rewrite <- app_assoc. repeat split; [done|].
           intros y [Hy| ->%list_elem_of_singleton]%elem_of_app; [by apply Ha|done].
        -- split; [|done]. intros y [Hy| ->%list_elem_of_singleton]%elem_of_app; [by apply Hn|done].
      * intros [(b & gpu & a & E & Hg & Ha & ->)|[Hn Hm]]; [left|right].
        -- destruct a as [|y a _] using rev_ind.
           { apply app_inj_tail in E as [_ <-]. done. }
           rewrite app_comm_cons, app_assoc in E. apply app_inj_tail in E as [-> ->].
           exists b, gpu, a. repeat split; [done|]. intros z Hz. apply Ha, elem_of_app. by left.
        -- split; [|done]. intros y Hy. apply Hn, elem_of_app. by left.
Qed.

Lemma free_vram_spec s g free :
  free_vram_by_gpu s !! g = Some free <-> exists gpu, reports s g gpu /\ free = gpu_free gpu.
Proof.
  unfold free_vram_by_gpu, reports. rewrite free_vram_fold, lookup_empty. split.
  - intros [(b & gpu & a & ? & ? & ? & ?)|[_ [=]]]. exists gpu. split; [by exists b, a|done].
  - intros (gpu & (b & a & ? & ? & ?) & ->). left. by exists b, gpu, a.
Qed.

(** A device alone holds the estimate: both numbers are known and the headroom stays free. *)
Definition holds_alone (e : VramEstimate) (headroom : Z) (free : option Z) : Prop :=
  exists r f, ve_total_bytes e = Some r /\ free = Some f /\ r + headroom <= f.

Lemma device_ok_spec e headroom free :
  device_ok (ve_total_bytes e) headroom free = true <-> holds_alone e headroom free.
Proof.
  unfold device_ok, holds_alone. destruct (ve_total_bytes e), free; rewrite ?Z.leb_le; naive_solver.
Qed.

Lemma elem_of_sorted_items {A} (m : gmap Z A) kv : kv ∈ sorted_items m <-> m !! kv.1 = Some kv.2.
Proof. unfold sorted_items. destruct kv. by rewrite elem_of_py_sorted, elem_of_map_to_list. Qed.

Lemma elem_of_device_fits e s headroom f :
  f ∈ device_fits e s headroom <->
  exists gpu, reports s (df_gpu_index f) gpu /\
    f = mkFit (df_gpu_index f) (gpu_free gpu) (ve_total_bytes e) headroom
          (device_ok (ve_total_bytes e) headroom (gpu_free gpu)).
Proof.
  unfold device_fits. rewrite list_elem_of_fmap. split.
  - intros ([g free] & -> & Hf%elem_of_sorted_items). cbn in Hf. apply free_vram_spec in Hf as (gpu & Hr & ->).
    by exists gpu.
  - intros (gpu & Hr & ->). exists (df_gpu_index f, gpu_free gpu). split; [done|].
    apply elem_of_sorted_items, free_vram_spec. by exists gpu.
Qed.

Lemma device_fits_nil e s headroom : device_fits e s headroom = [] <-> gpus s = [].
Proof.
  split.
  - intros E. destruct (gpus s) as [|x l _] eqn:Eg using rev_ind; [done|]. exfalso.
    apply (not_elem_of_nil (mkFit (gpu_index x) (gpu_free x) (ve_total_bytes e) headroom
      (device_ok (ve_total_bytes e) headroom (gpu_free x)))).
    rewrite <- E. apply elem_of_device_fits. exists x. split; [|done]. exists l, [].
    repeat split; [done|]. by intros y ?%elem_of_nil.
  - intros E. unfold device_fits, free_vram_by_gpu. by rewrite E.
Qed.

(** Ascending device order. *)
Lemma device_fits_sorted e s headroom :
  StronglySorted (fun a b => leb_of (cmp_on df_gpu_index Z.compare) a b = true) (device_fits e s headroom).
Proof.
  unfold device_fits.
  pose proof (sorted_by_key fst Z.compare (map_to_list (free_vram_by_gpu s))) as Hs.
  unfold sorted_items. induction Hs as [|x l Hs IH Hx]; [constructor|]. cbn. constructor; [done|].
  rewrite Forall_forall in Hx. apply Forall_forall. intros f (kv & -> & Hkv)%list_elem_of_fmap. exact (Hx kv Hkv).
Qed.
End device_lemmas.

Lemma head_filter_least {A} (key : A -> Z) (p : A -> bool) l x rest :
  StronglySorted (fun a b => leb_of (cmp_on key Z.compare) a b = true) l ->
  List.filter p l = x :: rest ->
  x ∈ l /\ p x = true /\ forall y, y ∈ l -> p y = true -> key x <= key y.
Proof.
  intros Hs. revert x rest. induction Hs as [|z l Hs IH Hz]; intros x rest E; [done|]. cbn in E.
  destruct (p z) eqn:Ep.
  - injection E as -> _. split; [left|]. split; [done|]. intros y [->|Hy]%elem_of_cons _; [lia|].
    rewrite Forall_forall in Hz. specialize (Hz y Hy). unfold leb_of, cmp_on in Hz.
    destruct (Z.compare_spec (key x) (key y)); lia || done.
  - destruct (IH x rest E) as (H1 & H2 & H3). split; [by right|]. split; [done|].
    intros y [->|Hy]%elem_of_cons Hp; [congruence|]. by apply H3.
Qed.

Lemma filter_nil_false {A} (p : A -> bool) l x : List.filter p l = [] -> x ∈ l -> p x = false.
Proof.
  intros E Hx. destruct (p x) eqn:Ep; [|done]. apply list_elem_of_In in Hx.
  assert (Hin : In x (List.filter p l)) by (by apply List.filter_In). by rewrite E in Hin.
Qed.

(** ** Lemmas: the ordered filter *)

(** A check decides a requirement: it fires, under the requirement's name, exactly when the
    requirement fails. *)
Definition decides (check : option Rejection) (r : string * Prop) : Prop :=
  match check with None => r.2 | Some x => ~ r.2 /\ reason x = r.1 end.

Lemma first_rejection_app a b :
  first_rejection (a ++ b) = match first_rejection a with Some r => Some r | None => first_rejection b end.
Proof. unfold first_rejection. induction a as [|[x|] a IH]; cbn; [done..|exact IH]. Qed.

Lemma first_rejection_cons c l :
  first_rejection (c :: l) = match c with Some r => Some r | None => first_rejection l end.
Proof. by destruct c. Qed.

Lemma decided checks reqs :
  Forall2 decides checks reqs ->
  match first_rejection checks with
  | None => forall name P, (name, P) ∈ reqs -> P
  | Some r => exists before P after, reqs = before ++ (reason r, P) :: after /\
                (forall n Q, (n, Q) ∈ before -> Q) /\ ~ P
  end.
Proof.
  induction 1 as [|c [n P] checks reqs Hd Hf IH]; [by intros ? ? ?%elem_of_nil|].
  rewrite first_rejection_cons. destruct c as [r|]; cbn in Hd.
  - destruct Hd as [Hn <-]. exists [], P, reqs. repeat split; [by intros ? ? ?%elem_of_nil|done].
  - destruct (first_rejection checks) as [r|].
    + destruct IH as (b & Q & a & -> & Hb & HQ). exists ((n, P) :: b), Q, a. repeat split; [|done].
      intros m R [[= -> ->]|Hm]%elem_of_cons; [done|by eapply Hb].
    + intros m R [[= -> ->]|Hm]%elem_of_cons; [done|by eapply IH].
Qed.

Lemma decides_if (b : bool) r (P : Prop) name :
  reason r = name -> (b = true -> ~ P) -> (b = false -> P) -> decides (if b then Some r else None) (name, P).
Proof. intros Hn Ht Hf. destruct b; cbn; [split; [by apply Ht|done]|by apply Hf]. Qed.

Section filter.
Context `{Profiles} `{Classification} {M : Type} `{Measurement M}.
Implicit Types (subject : ExecutionSubject) (inputs : ConstraintInputs (M := M)).

(** The documented constraints, in their order, each as a condition on the candidate. *)
Definition requirements (subject : ExecutionSubject) (e : VramEstimate) (inputs : ConstraintInputs (M := M))
  : list (string * Prop) :=
  let facts := es_facts subject in
  let provider := es_provider subject in
  let profile := es_runtime_profile subject in
  let tokens := sc_tokens (es_served_context subject) in
  let base := mf_canonical_id facts in
  let resident := default ∅ (resident_devices inputs !! base) in
  let with_adapter (P : AdapterFacts -> Prop) := forall a, es_adapter subject = Some a -> P a in
  [("model_disabled", mf_enabled facts = true);
   ("runtime_setting_unhonoured",
     mf_provider_kind facts = "ollama" -> flash_attention profile = None /\ kv_cache_precision profile = None);
   ("kv_cache_needs_flash_attention",
     forall kv, kv_cache_precision profile = Some kv -> kv = "q8_0" \/ kv = "q4_0" ->
     flash_attention profile = Some true);
   ("model_unavailable", mf_available facts = true /\ pf_healthy provider = true);
   ("context_too_small", 0 < min_context_tokens inputs -> min_context_tokens inputs <= tokens);
   ("context_not_configurable",
     forall n, context_size profile = Some n -> pf_context_configurable provider = true \/ n = tokens);
   ("context_limit_exceeded", forall n, required_context inputs = Some n -> n <= tokens);
   ("capability_unsupported",
     ("tool_use" ∈ requires_capabilities inputs -> pf_supports_tool_use provider = true) /\
     ("structured_output" ∈ requires_capabilities inputs -> pf_supports_structured_output provider = true));
   ("capability_unsupported",
     is_Some (requires_thinking_control inputs) -> pf_supports_thinking_control provider = true);
   ("insufficient_vram",
     forall s, snapshot inputs = Some s -> gpus s <> [] ->
     exists g gpu, reports s g gpu /\ (g ∈ resident \/ holds_alone e (vram_headroom_bytes inputs) (gpu_free gpu)));
   ("insufficient_ram",
     forall s r, snapshot inputs = Some s -> gpus s = [] -> ve_total_bytes e = Some r ->
     is_supported (ram_available_bytes s) = true -> r <= to_int (ram_available_bytes s));
   ("below_minimum_score",
     forall capability floor c x, default ∅ (min_capability_scores inputs) !! capability = Some floor ->
     resolved_score inputs capability = Some c -> cs_score c = Some x -> floor <= x);
   ("excluded_by_policy", base ∉ exclude_models inputs);
   ("excluded_by_policy", mf_is_remote facts = true -> allow_remote_providers inputs = true);
   ("adapter_incompatible", with_adapter (fun _ => pf_adapter_hot_swap provider = true));
   ("adapter_incompatible", with_adapter (fun a => forall declared served,
     af_base_artifact_digest a = Some declared -> mf_artifact_digest facts = Some served -> declared = served));
   ("adapter_unmeasured", with_adapter (fun _ => forall capability,
     require_adapter_evidence inputs = true -> top_weighted_capability inputs = Some capability ->
     exists c, resolved_score inputs capability = Some c /\ is_Some (cs_score c) /\ is_Some (cs_confidence c) /\
       (cs_source c = "benchmark" \/ cs_source c = "production")));
   ("adapter_classification_conflict",
     with_adapter (fun _ => mf_is_remote facts = false /\ pf_is_remote provider = false));
   ("recently_failing", subject_canonical_id subject ∉ open_circuit_breakers inputs)].

(** The profile's two refusals as two checks. *)
Definition profile_checks (subject : ExecutionSubject) : list (option Rejection) :=
  let p := es_runtime_profile subject in
  [if bool_decide (mf_provider_kind (es_facts subject) = "ollama") &&
      (bool_decide (is_Some (flash_attention p)) || bool_decide (is_Some (kv_cache_precision p)))
   then check_profile subject else None;
   if bool_decide (kv_cache_precision p ∈ [Some "q8_0"; Some "q4_0"]) && negb (bool_decide (flash_attention p = Some true))
   then Some (mkRejection "kv_cache_needs_flash_attention"
          [("kv_cache_precision", jstr_opt (kv_cache_precision p)); ("flash_attention", jbool_opt (flash_attention p))])
   else None].

Lemma check_profile_split subject : check_profile subject = first_rejection (profile_checks subject).
Proof.
  unfold profile_checks, check_profile, runtime_profile_refusal, stated_settings.
  set (kind := mf_provider_kind _). set (p := es_runtime_profile subject).
  destruct (flash_attention p) as [f|], (kv_cache_precision p) as [kv|]; cbn;
    destruct (bool_decide (kind = "ollama")); cbn; try done.
  all: by destruct (_ && _).
Qed.

Lemma decides_enabled subject : decides (check_enabled subject) ("model_disabled", mf_enabled (es_facts subject) = true).
Proof. unfold check_enabled. by destruct (mf_enabled _). Qed.

Lemma decides_profile subject :
  Forall2 decides (profile_checks subject)
    [("runtime_setting_unhonoured", mf_provider_kind (es_facts subject) = "ollama" ->
        flash_attention (es_runtime_profile subject) = None /\ kv_cache_precision (es_runtime_profile subject) = None);
     ("kv_cache_needs_flash_attention",
        forall kv, kv_cache_precision (es_runtime_profile subject) = Some kv -> kv = "q8_0" \/ kv = "q4_0" ->
        flash_attention (es_runtime_profile subject) = Some true)].
Proof.
  set (p := es_runtime_profile subject). constructor; [|constructor; [|constructor]].
  - unfold profile_checks, check_profile, runtime_profile_refusal, stated_settings. fold p.
    destruct (decide (mf_provider_kind (es_facts subject) = "ollama")) as [E|E].
    + rewrite (bool_decide_eq_true_2 _ E). destruct (flash_attention p), (kv_cache_precision p); cbn;
        try (split; [intros Hn; destruct (Hn E); done|done]). done.
    + by rewrite (bool_decide_eq_false_2 _ E).
  - apply decides_if; [done|..].
    + intros [Hk Hf]%andb_true_iff Hn. apply bool_decide_eq_true in Hk.
      apply negb_true_iff, bool_decide_eq_false in Hf. fold p in Hk, Hf. apply Hf.
      rewrite !elem_of_cons, elem_of_nil in Hk. destruct Hk as [Hk|[Hk|[]]]; apply (Hn _ Hk); auto.
    + intros Hb kv Hk Hq. apply andb_false_iff in Hb as [Hb|Hb].
      * apply bool_decide_eq_false in Hb. destruct Hb. fold p. rewrite Hk.
        destruct Hq as [-> | ->]; set_solver.
      * by apply negb_false_iff, bool_decide_eq_true in Hb.
Qed.

Lemma decides_available subject : decides (check_available subject)
  ("model_unavailable", mf_available (es_facts subject) = true /\ pf_healthy (es_provider subject) = true).
Proof. unfold check_available. destruct (mf_available _), (pf_healthy _); cbn; intuition congruence. Qed.

Lemma decides_min_context subject inputs : decides (check_min_context subject inputs)
  ("context_too_small", 0 < min_context_tokens inputs -> min_context_tokens inputs <= sc_tokens (es_served_context subject)).
Proof.
  apply decides_if; [done|..].
  - rewrite andb_true_iff, !Z.ltb_lt. lia.
  - rewrite andb_false_iff, !Z.ltb_ge. lia.
Qed.

Lemma decides_configurable subject inputs : decides (check_configurable subject inputs)
  ("context_not_configurable", forall n, context_size (es_runtime_profile subject) = Some n ->
     pf_context_configurable (es_provider subject) = true \/ n = sc_tokens (es_served_context subject)).
Proof.
  unfold check_configurable. destruct (context_size _) as [n|]; [|done]. apply decides_if; [done|..].
  - intros [Hc Hn]%andb_true_iff Hp. apply negb_true_iff in Hc, Hn. apply Z.eqb_neq in Hn.
    destruct (Hp n eq_refl); congruence.
  - intros Hb m [= <-]. apply andb_false_iff in Hb as [Hb|Hb]; apply negb_false_iff in Hb; [by left|].
    right. by apply Z.eqb_eq.
Qed.

Lemma decides_required_context subject inputs : decides (check_required_context subject inputs)
  ("context_limit_exceeded", forall n, required_context inputs = Some n -> n <= sc_tokens (es_served_context subject)).
Proof.
  unfold check_required_context. destruct (required_context _) as [n|]; [|done]. apply decides_if; [done|..].
  - rewrite Z.ltb_lt. intros Hlt Hn. specialize (Hn n eq_refl). lia.
  - rewrite Z.ltb_ge. by intros Hge m [= <-].
Qed.

Lemma decides_capabilities subject inputs l : decides (check_capabilities subject inputs l)
  ("capability_unsupported",
     ("tool_use" ∈ l -> pf_supports_tool_use (es_provider subject) = true) /\
     ("structured_output" ∈ l -> pf_supports_structured_output (es_provider subject) = true)).
Proof.
  induction l as [|c l IH]; cbn [check_capabilities].
  - split; by intros ?%elem_of_nil.
  - unfold capability_support. case_bool_decide as E1; [|case_bool_decide as E2].
    + subst c. destruct (pf_supports_tool_use _) eqn:Es; cbn [negb].
      * destruct (check_capabilities _ _ _); cbn in *; [|set_solver].
        split; [|by apply IH]. intros [_ Hs]. apply IH. by split; [|set_solver].
      * split; [|done]. intros [Ht _]. specialize (Ht ltac:(left)). congruence.
    + subst c. destruct (pf_supports_structured_output _) eqn:Es; cbn [negb].
      * destruct (check_capabilities _ _ _); cbn in *; [|set_solver].
        split; [|by apply IH]. intros [Ht _]. apply IH. by split; [set_solver|].
      * split; [|done]. intros [_ Ht]. specialize (Ht ltac:(left)). congruence.
    + destruct (check_capabilities _ _ _); cbn in *.
      * split; [|by apply IH]. intros [Ht Hs]. apply IH. split; set_solver.
      * destruct IH as [Ht Hs]. split; intros [?|?]%elem_of_cons; solve [congruence|auto].
Qed.

Lemma decides_thinking subject inputs : decides (check_thinking subject inputs)
  ("capability_unsupported",
     is_Some (requires_thinking_control inputs) -> pf_supports_thinking_control (es_provider subject) = true).
Proof.
  unfold check_thinking. destruct (requires_thinking_control _); [|by intros [? ?]].
  destruct (pf_supports_thinking_control _); cbn; [done|]. split; [|done]. intros Hn. by discriminate Hn.
Qed.
End filter.

(** ** Lemmas: memory, policy and adapters *)

Section filter_after.
Context `{Profiles} `{Classification} {M : Type} `{Measurement M}.
Implicit Types (subject : ExecutionSubject) (inputs : ConstraintInputs (M := M)).

Local Definition resident subject inputs : gset Z :=
  default ∅ (resident_devices inputs !! mf_canonical_id (es_facts subject)).

(** The memory block as two checks. *)
Definition memory_checks (subject : ExecutionSubject) (e : VramEstimate) (inputs : ConstraintInputs (M := M))
  : list (option Rejection) :=
  let r := (check_memory subject e inputs).1.1 in
  match snapshot inputs with
  | Some s => if bool_decide (gpus s = []) then [None; r] else [r; None]
  | None => [None; None]
  end.

Lemma memory_checks_first subject e inputs :
  first_rejection (memory_checks subject e inputs) = (check_memory subject e inputs).1.1.
Proof.
  unfold memory_checks. destruct (snapshot inputs) as [s|] eqn:E.
  - case_bool_decide; destruct (check_memory subject e inputs).1.1; done.
  - unfold check_memory. by rewrite E.
Qed.

(** Every branch of the memory block where a device is visible. *)
Lemma check_memory_gpus subject e inputs s :
  snapshot inputs = Some s -> gpus s <> [] ->
  let '(r, fits, target) := check_memory subject e inputs in
  fits = device_fits e s (vram_headroom_bytes inputs) /\
  match r with
  | Some x => reason x = "insufficient_vram" /\ target = None /\
      forall g gpu, reports s g gpu ->
        (g ∉ resident subject inputs) /\ ~ holds_alone e (vram_headroom_bytes inputs) (gpu_free gpu)
  | None => exists g gpu, target = Some g /\ reports s g gpu /\
      ((g ∈ resident subject inputs /\
        forall g' gpu', reports s g' gpu' -> g' ∈ resident subject inputs -> g <= g') \/
       (holds_alone e (vram_headroom_bytes inputs) (gpu_free gpu) /\
        forall g' gpu', reports s g' gpu' -> (g' ∉ resident subject inputs) /\
          (holds_alone e (vram_headroom_bytes inputs) (gpu_free gpu') -> g <= g')))
  end.
Proof.
  intros Es Hg. unfold check_memory. rewrite Es. fold (resident subject inputs).
  set (fits := device_fits e s (vram_headroom_bytes inputs)).
  assert (Hne : fits <> []) by (unfold fits; by rewrite device_fits_nil).
  assert (Hmem : forall f, f ∈ fits <-> exists gpu, reports s (df_gpu_index f) gpu /\
    f = mkFit (df_gpu_index f) (gpu_free gpu) (ve_total_bytes e) (vram_headroom_bytes inputs)
          (device_ok (ve_total_bytes e) (vram_headroom_bytes inputs) (gpu_free gpu)))
    by (intros f; apply elem_of_device_fits).
  assert (Hin : forall g gpu, reports s g gpu -> mkFit g (gpu_free gpu) (ve_total_bytes e)
    (vram_headroom_bytes inputs) (device_ok (ve_total_bytes e) (vram_headroom_bytes inputs) (gpu_free gpu)) ∈ fits)
    by (intros g gpu Hr; apply Hmem; by exists gpu).
  pose proof (device_fits_sorted e s (vram_headroom_bytes inputs)) as Hs. fold fits in Hs.
  set (p := fun f => bool_decide (df_gpu_index f ∈ resident subject inputs)).
  destruct fits as [|f0 fits0] eqn:Ef; [done|]. rewrite <- Ef in *.
  assert (Hres : List.filter p fits = [] -> forall g gpu, reports s g gpu -> g ∉ resident subject inputs).
  { intros Hnil g gpu Hr. pose proof (filter_nil_false p _ _ Hnil (Hin g gpu Hr)) as Hp.
    by apply bool_decide_eq_false in Hp. }
  cbv zeta. fold p. destruct (List.filter p fits) as [|x rest] eqn:Ep.
  - destruct (List.filter df_fits fits) as [|x rest] eqn:Eq.
    + split; [done|]. split; [done|]. split; [done|]. intros g gpu Hr. split; [by eapply Hres|].
      rewrite <- device_ok_spec. intros Hok.
      pose proof (filter_nil_false _ _ _ Eq (Hin g gpu Hr)) as Hf. cbn in Hf. congruence.
    + split; [done|]. destruct (head_filter_least df_gpu_index df_fits _ _ _ Hs Eq) as (Hx & Hp & Hle).
      apply Hmem in Hx as (gpu & Hr & Ex). exists (df_gpu_index x), gpu. split; [done|]. split; [done|].
      right. split; [apply device_ok_spec; by rewrite Ex in Hp|].
      intros g' gpu' Hr'. split; [by eapply Hres|]. intros Hh. apply device_ok_spec in Hh.
      exact (Hle _ (Hin g' gpu' Hr') Hh).
  - split; [done|]. destruct (head_filter_least df_gpu_index p _ _ _ Hs Ep) as (Hx & Hp & Hle).
    apply Hmem in Hx as (gpu & Hr & Ex). exists (df_gpu_index x), gpu. split; [done|]. split; [done|].
    left. split; [by apply bool_decide_eq_true in Hp|]. intros g' gpu' Hr' Hg'.
    apply (Hle _ (Hin g' gpu' Hr')). by apply bool_decide_eq_true.
Qed.

Lemma check_memory_no_gpus subject e inputs s :
  snapshot inputs = Some s -> gpus s = [] -> check_memory subject e inputs = (check_host_ram e s, [], None).
Proof.
  intros Es Hg. unfold check_memory. rewrite Es.
  by rewrite (proj2 (device_fits_nil e s (vram_headroom_bytes inputs)) Hg).
Qed.

Lemma decides_memory subject e inputs :
  Forall2 decides (memory_checks subject e inputs)
    [("insufficient_vram",
       forall s, snapshot inputs = Some s -> gpus s <> [] ->
       exists g gpu, reports s g gpu /\
         (g ∈ resident subject inputs \/ holds_alone e (vram_headroom_bytes inputs) (gpu_free gpu)));
     ("insufficient_ram",
       forall s r, snapshot inputs = Some s -> gpus s = [] -> ve_total_bytes e = Some r ->
       is_supported (ram_available_bytes s) = true -> r <= to_int (ram_available_bytes s))].
Proof.
  unfold memory_checks. destruct (snapshot inputs) as [s|] eqn:Es; [|by repeat constructor].
  case_bool_decide as Hg; (constructor; [|constructor; [|constructor]]).
  - by intros s' [= <-].
  - rewrite (check_memory_no_gpus subject e inputs s Es Hg). cbn [fst].
    unfold check_host_ram. destruct (ve_total_bytes e) as [r|]; [|done].
    destruct (is_supported (ram_available_bytes s)) eqn:Esup; cbn.
    + apply decides_if; [done|..]; rewrite ?Z.ltb_lt, ?Z.ltb_ge.
      * intros Hlt Hn. specialize (Hn s r eq_refl Hg eq_refl Esup). lia.
      * by intros Hge s' r' [= <-] _ [= <-] _.
    + intros s' r' [= <-] _ _ Hsup. congruence.
  - pose proof (check_memory_gpus subject e inputs s Es Hg) as Hc.
    destruct (check_memory subject e inputs) as [[r fits] target]. cbn [fst]. destruct Hc as [_ Hc].
    destruct r as [x|]; cbn.
    + destruct Hc as (Hx & _ & Hn). split; [|done]. intros Hp. destruct (Hp s eq_refl Hg) as (g & gpu & Hr & Hor).
      destruct (Hn g gpu Hr). tauto.
    + intros s' [= <-] _. destruct Hc as (g & gpu & _ & Hr & Hor). exists g, gpu. split; [done|]. tauto.
  - by intros s' r' [= <-].
Qed.

Lemma below_minimum_spec inputs l : decides (below_minimum inputs l)
  ("below_minimum_score", forall capability floor c x, (capability, floor) ∈ l ->
     resolved_score inputs capability = Some c -> cs_score c = Some x -> floor <= x).
Proof.
  induction l as [|[k f] l IH]; cbn [below_minimum]; [by intros ? ? ? ? ?%elem_of_nil|].
  assert (Hskip : (forall c x, resolved_score inputs k = Some c -> cs_score c = Some x -> f <= x) ->
    decides (below_minimum inputs l) ("below_minimum_score", forall capability floor c x,
      (capability, floor) ∈ (k, f) :: l -> resolved_score inputs capability = Some c -> cs_score c = Some x -> floor <= x)).
  { intros Hk. destruct (below_minimum inputs l); cbn in *.
    - split; [|by apply IH]. intros Hp. apply IH. intros k' f' c x Hin. apply Hp. by right.
    - intros k' f' c x [[= -> ->]|Hin]%elem_of_cons; [apply Hk|by apply IH]. }
  destruct (resolved_score inputs k) as [c|] eqn:Ec; cbn; [|by apply Hskip].
  destruct (cs_score c) as [x|] eqn:Ex; [|apply Hskip; congruence].
  destruct (Z.ltb_spec x f) as [Hlt|Hge]; [|apply Hskip; congruence].
  split; [|done]. intros Hp. apply (Z.lt_irrefl x). eapply Z.lt_le_trans; [exact Hlt|].
  by apply (Hp k f c x); [left|..].
Qed.

Lemma decides_minimum_scores inputs : decides (check_minimum_scores inputs)
  ("below_minimum_score",
     forall capability floor c x, default ∅ (min_capability_scores inputs) !! capability = Some floor ->
     resolved_score inputs capability = Some c -> cs_score c = Some x -> floor <= x).
Proof.
  unfold check_minimum_scores.
  pose proof (below_minimum_spec inputs (sorted_weights (default ∅ (min_capability_scores inputs)))) as Hb.
  assert (Hin : forall k f, (k, f) ∈ sorted_weights (default ∅ (min_capability_scores inputs)) <->
    default ∅ (min_capability_scores inputs) !! k = Some f).
  { intros k f. unfold sorted_weights. by rewrite elem_of_py_sorted, elem_of_map_to_list. }
  destruct (below_minimum _ _); cbn in *.
  - split; [|apply Hb]. intros Hp. apply Hb. intros k f c x Hk. apply Hp. by apply Hin.
  - intros k f c x Hk. apply Hb. by apply Hin.
Qed.

Lemma decides_excluded subject inputs : decides (check_excluded subject inputs)
  ("excluded_by_policy", mf_canonical_id (es_facts subject) ∉ exclude_models inputs).
Proof. unfold check_excluded. case_bool_decide; cbn; [|done]. by split; [intros []|]. Qed.

Lemma decides_remote subject inputs : decides (check_remote subject inputs)
  ("excluded_by_policy", mf_is_remote (es_facts subject) = true -> allow_remote_providers inputs = true).
Proof.
  unfold check_remote. destruct (mf_is_remote _), (allow_remote_providers inputs); cbn; try done.
  split; [|done]. intros Hn. by discriminate Hn.
Qed.

Lemma decides_breaker subject inputs : decides (check_breaker subject inputs)
  ("recently_failing", subject_canonical_id subject ∉ open_circuit_breakers inputs).
Proof. unfold check_breaker. case_bool_decide; cbn; [|done]. by split; [intros []|]. Qed.

Definition adapter_checks (subject : ExecutionSubject) (inputs : ConstraintInputs (M := M)) : list (option Rejection) :=
  match es_adapter subject with
  | None => [None; None; None; None]
  | Some a => [check_hot_swap subject a; check_declared_base subject a; check_adapter_evidence subject inputs a;
               check_egress subject inputs a]
  end.

Lemma adapter_checks_first subject inputs : first_rejection (adapter_checks subject inputs) = check_adapter subject inputs.
Proof. unfold adapter_checks, check_adapter. by destruct (es_adapter subject). Qed.

Lemma decides_adapter subject inputs :
  let facts := es_facts subject in
  let provider := es_provider subject in
  let with_adapter (P : AdapterFacts -> Prop) := forall a, es_adapter subject = Some a -> P a in
  Forall2 decides (adapter_checks subject inputs)
    [("adapter_incompatible", with_adapter (fun _ => pf_adapter_hot_swap provider = true));
     ("adapter_incompatible", with_adapter (fun a => forall declared served,
       af_base_artifact_digest a = Some declared -> mf_artifact_digest facts = Some served -> declared = served));
     ("adapter_unmeasured", with_adapter (fun _ => forall capability,
       require_adapter_evidence inputs = true -> top_weighted_capability inputs = Some capability ->
       exists c, resolved_score inputs capability = Some c /\ is_Some (cs_score c) /\ is_Some (cs_confidence c) /\
         (cs_source c = "benchmark" \/ cs_source c = "production")));
     ("adapter_classification_conflict",
       with_adapter (fun _ => mf_is_remote facts = false /\ pf_is_remote provider = false))].
Proof.
  intros facts provider with_adapter. unfold adapter_checks, with_adapter.
  destruct (es_adapter subject) as [a|]; [|by repeat constructor].
  constructor; [|constructor; [|constructor; [|constructor; [|constructor]]]].
  - unfold check_hot_swap. fold provider. destruct (pf_adapter_hot_swap provider); cbn; [by intros|].
    split; [|done]. intros Hn. by specialize (Hn a eq_refl).
  - unfold check_declared_base. fold facts. apply decides_if; [done|..].
    + intros [[[d Hd]%bool_decide_eq_true [s Hs]%bool_decide_eq_true]%andb_true_iff Hne]%andb_true_iff Hp.
      apply negb_true_iff, bool_decide_eq_false in Hne. apply Hne. rewrite Hd, Hs. f_equal. by apply (Hp a).
    + intros Hb a' [= <-] d s Hd Hs. rewrite Hd, Hs in Hb. rewrite !bool_decide_eq_true_2 in Hb by by eexists.
      cbn in Hb. apply negb_false_iff, bool_decide_eq_true in Hb. congruence.
  - unfold check_adapter_evidence. destruct (top_weighted_capability inputs) as [k|]; [|done].
    destruct (require_adapter_evidence inputs); cbn; [|done].
    destruct (resolved_score inputs k) as [c|] eqn:Ec; cbn.
    + unfold present, ADAPTER_MEASURED_SOURCES.
      destruct (_ && bool_decide (cs_source c ∈ _)) eqn:E; cbn.
      * apply andb_true_iff in E as [[Hs%bool_decide_eq_true Hk%bool_decide_eq_true]%andb_true_iff Hin%bool_decide_eq_true].
        intros _ _ k' _ [= <-]. exists c. rewrite !elem_of_cons, elem_of_nil in Hin. naive_solver.
      * split; [|done]. intros Hp. destruct (Hp a eq_refl k eq_refl eq_refl) as (c' & Hc' & Hs & Hk & Hsrc).
        rewrite Ec in Hc'. injection Hc' as <-.
        rewrite !bool_decide_eq_true_2 in E; [done| |done..]. destruct Hsrc as [-> | ->]; set_solver.
    + split; [|done]. intros Hp. destruct (Hp a eq_refl k eq_refl eq_refl) as (c' & Hc' & _). congruence.
  - unfold check_egress. fold facts provider. destruct (mf_is_remote facts), (pf_is_remote provider); cbn; try done;
      split; try done; intros Hp; by destruct (Hp a eq_refl).
Qed.

(** The filter's rejection is the first that fires of one flat list of checks. *)
Definition all_checks (subject : ExecutionSubject) (e : VramEstimate) (inputs : ConstraintInputs (M := M))
  : list (option Rejection) :=
  [check_enabled subject] ++ profile_checks subject ++
  [check_available subject; check_min_context subject inputs; check_configurable subject inputs;
   check_required_context subject inputs; check_capabilities subject inputs (requires_capabilities inputs);
   check_thinking subject inputs] ++
  memory_checks subject e inputs ++
  [check_minimum_scores inputs; check_excluded subject inputs; check_remote subject inputs] ++
  adapter_checks subject inputs ++ [check_breaker subject inputs].

Lemma evaluate_first subject e inputs :
  (evaluate_constraints subject e inputs).1.1 = first_rejection (all_checks subject e inputs).
Proof.
  unfold all_checks, evaluate_constraints. rewrite !first_rejection_app.
  rewrite <- check_profile_split, memory_checks_first, adapter_checks_first.
  rewrite !first_rejection_cons. cbn [first_rejection omap list_omap head].
  destruct (check_enabled subject); [done|]. destruct (check_profile subject); [done|].
  repeat (match goal with |- context [match ?c with Some r => Some r | None => _ end] => destruct c; [done|] end).
  cbn. destruct (check_memory subject e inputs) as [[r fits] target]. cbn [fst].
  rewrite !first_rejection_cons. destruct r; [done|].
  repeat (match goal with |- context [match ?c with Some r => Some r | None => _ end] => destruct c; [done|] end). done.
Qed.

Lemma all_decided subject e inputs :
  Forall2 decides (all_checks subject e inputs) (requirements subject e inputs).
Proof.
  apply (Forall2_app (l1' := [_])); [constructor; [apply decides_enabled|constructor]|].
  apply (Forall2_app (l1' := [_; _])); [apply decides_profile|].
  apply (Forall2_app (l1' := [_; _; _; _; _; _])).
  { repeat constructor; [apply decides_available|apply decides_min_context|apply decides_configurable
      |apply decides_required_context|apply decides_capabilities|apply decides_thinking]. }
  apply (Forall2_app (l1' := [_; _])); [apply decides_memory|].
  apply (Forall2_app (l1' := [_; _; _])).
  { repeat constructor; [apply decides_minimum_scores|apply decides_excluded|apply decides_remote]. }
  apply (Forall2_app (l1' := [_; _; _; _])); [apply decides_adapter|].
  constructor; [apply decides_breaker|constructor].
Qed.
End filter_after.

(** ** Lemmas: the estimate and the placement *)

Lemma ftrunc_mono x y : 0 <= x -> x <= y -> ftrunc x <= ftrunc y.
Proof. intros. apply Z.quot_le_mono; [apply fone_pos|done]. Qed.

Lemma ftrunc_int n : ftrunc (n * fone) = n.
Proof. apply Z.quot_mul. pose proof fone_pos. lia. Qed.

Lemma weights_at_least size factor :
  0 <= size <= 2 ^ 53 -> fone <= factor -> size <= ftrunc (fmul (of_int size) factor).
Proof.
  intros Hs Hf. pose proof fone_pos as Hp. rewrite of_int_exact by lia.
  rewrite <- (ftrunc_int size) at 1. apply ftrunc_mono; [nia|].
  apply fround_ge_repr; [done|apply repr_int; lia|].
  apply Z.mul_le_mono_nonneg_l; [nia|exact Hf].
Qed.

Lemma scaled_mono a b x y :
  0 <= a <= b -> 0 <= x <= y -> ftrunc (fmul a x) <= ftrunc (fmul b y).
Proof.
  intros Ha Hx. apply ftrunc_mono; [apply fmul_nonneg; [apply Ha|apply Hx]|by apply fmul_mono].
Qed.

(** The per-token figure depends on the geometry and the precision only. *)
Lemma estimate_parts size ctx layers kv_heads head_dim precision observed factor act :
  let e := estimate_vram size ctx layers kv_heads head_dim precision observed factor act in
  let per_token := (kv_bytes_per_token layers kv_heads head_dim precision observed).1.1 in
  ve_activation_bytes e = act /\ ve_kv_bytes_per_token e = per_token /\
  ve_weights_bytes e = (fun s => ftrunc (fmul (of_int s) factor)) <$> size /\
  ve_kv_bytes e = (fun b => ftrunc (fmul b (of_int ctx))) <$> per_token /\
  ve_total_bytes e = match ve_weights_bytes e, ve_kv_bytes e with Some w, Some k => Some (w + k + act) | _, _ => None end /\
  (ve_unknown_reason e = None <-> is_Some size /\ is_Some per_token).
Proof.
  unfold estimate_vram. destruct (kv_bytes_per_token _ _ _ _ _) as [[b source] assumed]. cbn.
  destruct size, b; cbn; repeat split; try done; try (by eexists); try (by intros [[? ?] [? ?]]); discriminate.
Qed.

Section placement.
Context `{Profiles} `{Classification} {M : Type} `{Measurement M}.
Implicit Types (subject : ExecutionSubject) (inputs : ConstraintInputs (M := M)).

(** The shape of an evaluation: a rejection has no target; a survivor has the memory block's. *)
Lemma evaluate_shape subject e inputs :
  let '(rejection, fits, target) := evaluate_constraints subject e inputs in
  match rejection with
  | Some _ => target = None /\ (fits = [] \/ fits = (check_memory subject e inputs).1.2)
  | None => check_memory subject e inputs = (None, fits, target)
  end.
Proof.
  unfold evaluate_constraints. destruct (first_rejection _); [by split; [|left]|].
  destruct (check_memory subject e inputs) as [[[r|] fits] target]; rewrite first_rejection_cons; [by split; [|right]|].
  destruct (first_rejection _); [by split; [|right]|done].
Qed.

Lemma check_memory_fits subject e inputs f :
  f ∈ (check_memory subject e inputs).1.2 ->
  exists s gpu, snapshot inputs = Some s /\ reports s (df_gpu_index f) gpu /\
    df_free_bytes f = gpu_free gpu /\
    (df_fits f = true <-> holds_alone e (vram_headroom_bytes inputs) (gpu_free gpu)).
Proof.
  destruct (snapshot inputs) as [s|] eqn:Es; [|by unfold check_memory; rewrite Es; intros ?%elem_of_nil].
  intros Hf. exists s. destruct (decide (gpus s = [])) as [Hg|Hg].
  { rewrite (check_memory_no_gpus subject e inputs s Es Hg) in Hf. by apply elem_of_nil in Hf. }
  pose proof (check_memory_gpus subject e inputs s Es Hg) as Hc.
  destruct (check_memory subject e inputs) as [[r fits] target]. destruct Hc as [-> _]. cbn in Hf.
  apply elem_of_device_fits in Hf as (gpu & Hr & ->). exists gpu. cbn.
  split; [done|]. split; [done|]. split; [done|]. apply device_ok_spec.
Qed.
End placement.

(** The join is the larger of the two levels; an absent or unreadable caller level adds nothing. *)
Lemma join_classification_spec `{ClassificationLaws} caller adapter a :
  classification_of adapter = Some a ->
  exists r, classification_of (join_classification caller adapter) = Some r /\
    classification_rank a <= classification_rank r /\
    match caller ≫= classification_of with
    | Some c => classification_rank c <= classification_rank r /\ (r = a \/ r = c)
    | None => r = a
    end.
Proof.
  intros Ha. unfold join_classification. rewrite Ha.
  destruct caller as [s|]; cbn; [destruct (classification_of s) as [c|]|].
  - exists (if classification_rank c <? classification_rank a then a else c).
    split; [apply classification_of_value|]. destruct (Z.ltb_spec (classification_rank c) (classification_rank a)).
    + split; [lia|]. split; [lia|by left].
    + split; [lia|]. split; [lia|by right].
  - exists a. split; [apply classification_of_value|]. by split; [lia|].
  - exists a. split; [apply classification_of_value|]. by split; [lia|].
Qed.

Module Properties.

(** The constraint filter applies the documented constraints in their order and stops at the
    first that fails: a candidate survives exactly when every one of the nineteen requirements holds,
    and a rejection carries the name of the first requirement that does not, all earlier ones
    holding. *)
Theorem first_failure_decides `{Profiles} `{Classification} {M : Type} `{Measurement M} (subject : ExecutionSubject)
    (e : VramEstimate) (inputs : ConstraintInputs (M := M)) :
  match (evaluate_constraints subject e inputs).1.1 with
  | None => forall name P, (name, P) ∈ requirements subject e inputs -> P
  | Some r => exists before P after, requirements subject e inputs = before ++ (reason r, P) :: after /\
                (forall n Q, (n, Q) ∈ before -> Q) /\ ~ P
  end.
Proof. rewrite evaluate_first. apply decided, all_decided. Qed.

(** Where a candidate is placed.  A rejected candidate has no target device, nor has one
    evaluated without a visible device.  A survivor's device is the first of those its base is
    resident on, or, when there is none, the first whose own free memory holds the whole estimate
    and the headroom: no sum over devices ever places a candidate, and an unknown estimate or an
    unreported device only ever fits where the base is resident.  The recorded verdicts say of each
    device whether it alone holds the candidate. *)
Theorem placement `{Profiles} `{Classification} {M : Type} `{Measurement M} (subject : ExecutionSubject)
    (e : VramEstimate) (inputs : ConstraintInputs (M := M)) :
  let '(rejection, fits, target) := evaluate_constraints subject e inputs in
  let resident := default ∅ (resident_devices inputs !! mf_canonical_id (es_facts subject)) in
  let holds gpu := exists r f, ve_total_bytes e = Some r /\ gpu_free gpu = Some f /\ r + vram_headroom_bytes inputs <= f in
  (is_Some rejection -> target = None) /\
  ((forall s, snapshot inputs = Some s -> gpus s = []) -> target = None) /\
  (forall s, rejection = None -> snapshot inputs = Some s -> gpus s <> [] ->
   exists g gpu, target = Some g /\ reports s g gpu /\
     ((g ∈ resident /\ forall g' gpu', reports s g' gpu' -> g' ∈ resident -> g <= g') \/
      (holds gpu /\ forall g' gpu', reports s g' gpu' -> (g' ∉ resident) /\ (holds gpu' -> g <= g')))) /\
  (forall f, f ∈ fits -> exists s gpu, snapshot inputs = Some s /\ reports s (df_gpu_index f) gpu /\
     (df_fits f = true <-> holds gpu)).
Proof.
  pose proof (evaluate_shape subject e inputs) as Hs.
  pose proof (check_memory_fits subject e inputs) as Hf.
  destruct (evaluate_constraints subject e inputs) as [[rejection fits] target].
  split; [intros [r ->]; apply Hs|]. split; [|split].
  - intros Hg. destruct rejection; [apply Hs|]. destruct (snapshot inputs) as [s|] eqn:Es.
    + rewrite (check_memory_no_gpus subject e inputs s Es (Hg s eq_refl)) in Hs. congruence.
    + unfold check_memory in Hs. rewrite Es in Hs. congruence.
  - intros s -> Es Hg. pose proof (check_memory_gpus subject e inputs s Es Hg) as Hc.
    rewrite Hs in Hc. by destruct Hc as [_ Hc].
  - intros f Hin. assert (Hm : f ∈ (check_memory subject e inputs).1.2).
    { destruct rejection; [|by rewrite Hs]. destruct Hs as [_ [->| ->]]; [by apply elem_of_nil in Hin|done]. }
    destruct (Hf f Hm) as (s & gpu & Es & Hr & _ & Hh). by exists s, gpu.
Qed.

(** The memory estimate.  It is unknown exactly when the weight size or the per-token figure is,
    and then a reason is recorded; otherwise it is the sum of its three parts.  A measured per-token
    figure is used as it is.  The weights part is never below the size on disk, and the estimate grows
    with the size and with the served context. *)
Theorem estimate_spec (size size' : option Z) (ctx ctx' : Z) (layers kv_heads head_dim : option Z)
    (precision : option string) (observed : option f64) (factor : f64) (act : Z)
    (Hfactor : fone <= factor) (Hctx : 0 <= ctx <= ctx')
    (Hsize : forall s s', size = Some s -> size' = Some s' -> 0 <= s <= s')
    (Htoken : forall b, ve_kv_bytes_per_token
       (estimate_vram size ctx layers kv_heads head_dim precision observed factor act) = Some b -> 0 <= b) :
  let e := estimate_vram size ctx layers kv_heads head_dim precision observed factor act in
  let e' := estimate_vram size' ctx' layers kv_heads head_dim precision observed factor act in
  (ve_total_bytes e = None <-> size = None \/ ve_kv_bytes_per_token e = None) /\
  (is_Some (ve_unknown_reason e) <-> ve_total_bytes e = None) /\
  (forall t, ve_total_bytes e = Some t -> exists w k, ve_weights_bytes e = Some w /\ ve_kv_bytes e = Some k /\
     t = w + k + ve_activation_bytes e /\ (forall s, size = Some s -> s <= 2 ^ 53 -> size' = Some s -> s <= w)) /\
  (forall o, observed = Some o -> ve_kv_bytes_per_token e = Some o) /\
  (forall t t', ve_total_bytes e = Some t -> ve_total_bytes e' = Some t' -> t <= t').
Proof.
  intros e e'.
  destruct (estimate_parts size ctx layers kv_heads head_dim precision observed factor act) as (Ea & Eb & Ew & Ek & Et & Er).
  destruct (estimate_parts size' ctx' layers kv_heads head_dim precision observed factor act) as (_ & _ & Ew' & Ek' & Et' & _).
  fold e in Ea, Eb, Ew, Ek, Et, Er, Htoken. fold e' in Ew', Ek', Et'.
  clearbody e e'. rewrite Eb in *.
  assert (Hobs : forall o, observed = Some o -> (kv_bytes_per_token layers kv_heads head_dim precision observed).1.1 = Some o)
    by (by (intros o Ho; unfold kv_bytes_per_token; rewrite Ho; reflexivity)).
  destruct ((kv_bytes_per_token layers kv_heads head_dim precision observed).1.1) as [b|].
  2: { rewrite Ew, Ek in Et. cbn in Et. assert (Hn : ve_total_bytes e = None) by (rewrite Et; by destruct size).
       rewrite Hn. split; [tauto|]. split; [|by split; [|split]].
       split; [done|]. intros _. destruct (ve_unknown_reason e); [by eexists|]. destruct Er as [[_ []] _]; done. }
  destruct size as [s|]; rewrite Ew, Ek in Et; cbn in Et; rewrite Et.
  2: { split; [tauto|]. split; [|by split].
       split; [done|]. intros _. destruct (ve_unknown_reason e); [by eexists|]. destruct Er as [[[] _] _]; done. }
  split; [intuition discriminate|]. split.
  { rewrite (proj2 Er) by (by split; eexists). split; [by intros []|discriminate]. }
  split; [|split; [done|]].
  - intros t [= <-]. eexists _, _. rewrite Ew, Ek. split; [reflexivity|]. split; [reflexivity|].
    split; [by rewrite Ea|]. intros s0 [= <-] Hle Hs'. apply weights_at_least; [|exact Hfactor].
    split; [|exact Hle]. exact (proj1 (Hsize s s eq_refl Hs')).
  - intros t t' [= <-]. rewrite Et', Ew', Ek'. destruct size' as [s'|]; cbn; [|discriminate]. intros [= <-].
    pose proof fone_pos as Hp. assert (H0 : 0 <= factor) by (exact (Z.le_trans _ _ _ (Z.lt_le_incl _ _ Hp) Hfactor)).
    destruct (Hsize s s' eq_refl eq_refl) as [Hs1 Hs2].
    apply Z.add_le_mono_r, Z.add_le_mono; apply scaled_mono.
    + split; [apply of_int_nonneg|apply of_int_mono]; lia.
    + split; [exact H0|apply Z.le_refl].
    + split; [exact (Htoken b eq_refl)|apply Z.le_refl].
    + split; [apply of_int_nonneg|apply of_int_mono]; lia.
Qed.

Lemma estimate_spec_witness :
  let e := estimate_vram (Some 1000) 10 None None None None (Some fone) fone 5 in
  ve_total_bytes e = Some 1015 /\ (is_Some (ve_unknown_reason e) <-> ve_total_bytes e = None).
Proof.
  split; [vm_compute; reflexivity|].
  refine (proj1 (proj2 (estimate_spec (Some 1000) (Some 2000) 10 20 None None None None (Some fone) fone 5 _ _ _ _))).
  - apply Z.le_refl.
  - lia.
  - intros s s' [= <-] [= <-]. lia.
  - intros b [= <-]. exact (Z.lt_le_incl _ _ fone_pos).
Defined.
End Properties.

(** ** A concrete run *)

Definition plain_classification : Classification := {|
  DataClassification := bool;
  classification_of s := if bool_decide (s = "public") then Some false
                         else if bool_decide (s = "private") then Some true else None;
  classification_value c := if c : bool then "private" else "public";
  classification_rank c := if c : bool then 1 else 0
|}.

(** 14 GB on two devices with 8 GB free each is rejected; a third device that holds it alone is the
    target, and so is the device the base already resides on. *)
Example devices_are_never_summed :
  let gb := 1000000000 in
  let gpu i free := mkGpu (M := option Z) i (Some 0) (Some (free * gb)) in
  let estimate := mkEstimate (Some (14 * gb)) (Some (14 * gb)) (Some 0) 0 None "observed" false 4096 None in
  let facts := mkModelFacts "m" "kind:model" "llamacpp" "model" None true None true None None None None None None false "p" in
  let provider := mkProviderFacts true true None true true true true false true None in
  let subject := @mkSubject plain_profiles facts provider empty_profile (mkServed 4096 "configured") [] None in
  let inputs gpus resident := @mkConstraints _ 0 [] None [] false None None (Some (mkSnapshot gpus None)) 0 ∅
    resident ∅ ∅ None true None None in
  let run gpus resident :=
    let '(r, fits, target) := @evaluate_constraints plain_profiles plain_classification (option Z) _ subject estimate (inputs gpus resident) in
    (reason <$> r, target) in
  run [gpu 0 8; gpu 1 8] ∅ = (Some "insufficient_vram", None) /\
  run [gpu 0 8; gpu 1 8; gpu 2 15] ∅ = (None, Some 2) /\
  run [gpu 0 8; gpu 1 8] {[ "kind:model" := {[ 1 ]} ]} = (None, Some 1).
Proof. vm_compute. repeat split. Qed.
