(* ===== verification/Ranking.v ===== *)
(** * The order over candidates ([domain/routing/ranking.py])

    The sort key of a surviving candidate, the ranking and the choice of primary and fallbacks. *)

From Stdlib Require Import Ascii String.
From S2P Require Import Prelude PyFloat Json Ordering EvidencePolicy Reliability Subject Scoring.
#[local] Open Scope string_scope.
#[local] Open Scope list_scope.
#[local] Open Scope Z_scope.

Section ranking.
Context `{Profiles}.

Record RankedCandidate := mkRanked {
  rc_subject : ExecutionSubject;
  rc_fit : TaskFit;
  rc_factors : AdjustmentFactors;
  rc_estimated_vram_bytes : option Z;
  rc_target_gpu_index : option Z;
  rc_resident : bool;
  rc_rank : Z
}.

Definition final_score (c : RankedCandidate) : f64 := fmul (task_fit (rc_fit c)) (product (rc_factors c)).

(** [(-final_score, -mean_confidence, 0|1, vram, canonical_id, model_id)], [None] for infinity. *)
Definition OrderKey : Type := f64 * (f64 * (Z * (option f64 * (string * string)))).

Definition order_key (c : RankedCandidate) : OrderKey :=
  (- final_score c, (- mean_confidence (rc_fit c), ((if rc_resident c then 0 else 1),
    (of_int <$> rc_estimated_vram_bytes c,
      (mf_canonical_id (es_facts (rc_subject c)), mf_model_id (es_facts (rc_subject c))))))).

Definition cmp_order : OrderKey -> OrderKey -> comparison :=
  cmp_pair Z.compare (cmp_pair Z.compare (cmp_pair Z.compare (cmp_pair (cmp_inf Z.compare)
    (cmp_pair String.compare String.compare)))).

Record Ranking := mkRanking {
  ordered : list RankedCandidate;
  primary : option RankedCandidate;
  fallbacks : list RankedCandidate
}.

Definition with_rank (position : Z) (c : RankedCandidate) : RankedCandidate :=
  mkRanked (rc_subject c) (rc_fit c) (rc_factors c) (rc_estimated_vram_bytes c) (rc_target_gpu_index c)
    (rc_resident c) position.

(** [enumerate(l, start=n)] with the rank assigned. *)
Fixpoint enumerate_from (n : Z) (l : list RankedCandidate) : list RankedCandidate :=
  match l with [] => [] | c :: l' => with_rank n c :: enumerate_from (n + 1) l' end.

Definition rank_candidates (candidates : list RankedCandidate) (fallback_depth : Z) (disallow_fallback : bool)
  : Ranking :=
  let ordered := enumerate_from 1 (py_sorted (leb_of (cmp_on order_key cmp_order)) candidates) in
  match ordered with
  | [] => mkRanking [] None []
  | first :: rest =>
      let depth := if disallow_fallback then 0 else Z.max fallback_depth 0 in
      mkRanking ordered (Some first) (take (Z.to_nat depth) rest)
  end.

(** ** Lemmas *)

#[export] Instance cmp_order_total : TotalCmp cmp_order.
Proof. unfold cmp_order. exact _. Qed.

(** [a] is ahead of [b] in the documented order: score, then confidence, then residency, then the
    smaller estimate, an unknown one last, then the identifiers. *)
Definition smaller_estimate (a b : option f64) : Prop :=
  match a, b with Some x, Some y => x < y | Some _, None => True | None, _ => False end.

Definition ahead (a b : RankedCandidate) : Prop :=
  let conf c := mean_confidence (rc_fit c) in
  let vram c := of_int <$> rc_estimated_vram_bytes c in
  let facts c := es_facts (rc_subject c) in
  final_score b < final_score a \/ (final_score a = final_score b /\
  (conf b < conf a \/ (conf a = conf b /\
  ((rc_resident a = true /\ rc_resident b = false) \/ (rc_resident a = rc_resident b /\
  (smaller_estimate (vram a) (vram b) \/ (vram a = vram b /\
  (String.compare (mf_canonical_id (facts a)) (mf_canonical_id (facts b)) = Lt \/
   (mf_canonical_id (facts a) = mf_canonical_id (facts b) /\
    String.compare (mf_model_id (facts a)) (mf_model_id (facts b)) = Lt))))))))).

Lemma cmp_pair_Lt {A B} (ca : A -> A -> comparison) (cb : B -> B -> comparison) `{!TotalCmp ca} x y :
  cmp_pair ca cb x y = Lt <-> ca x.1 y.1 = Lt \/ (x.1 = y.1 /\ cb x.2 y.2 = Lt).
Proof.
  unfold cmp_pair. destruct (ca x.1 y.1) eqn:E.
  - pose proof (proj1 (cmp_eq (cmp := ca) _ _) E). naive_solver.
  - naive_solver.
  - split; [done|]. intros [?|[Heq _]]; [done|]. rewrite Heq, (cmp_refl ca) in E. done.
Qed.

Lemma order_key_ahead a b : cmp_order (order_key a) (order_key b) = Lt <-> ahead a b.
Proof.
  unfold cmp_order, ahead, order_key. rewrite !cmp_pair_Lt. cbn [fst snd]. rewrite !Z.compare_lt_iff.
  assert (Hr : (if rc_resident a then 0 else 1) < (if rc_resident b then 0 else 1) <->
    rc_resident a = true /\ rc_resident b = false) by (destruct (rc_resident a), (rc_resident b); intuition (lia || congruence)).
  assert (Hr' : (if rc_resident a then 0 else 1) = (if rc_resident b then 0 else 1) <->
    rc_resident a = rc_resident b) by (destruct (rc_resident a), (rc_resident b); intuition (lia || congruence)).
  assert (Hv : forall x y, cmp_inf Z.compare x y = Lt <-> smaller_estimate x y).
  { intros [x|] [y|]; cbn; rewrite ?Z.compare_lt_iff; naive_solver. }
  rewrite Hr, Hr', Hv. rewrite <- !Z.opp_lt_mono, !Z.opp_inj_wd. tauto. all: exact _.
Qed.

Lemma enumerate_from_map n l : forall P : RankedCandidate -> Prop,
  (forall k c, P (with_rank k c) <-> P c) -> Forall P (enumerate_from n l) <-> Forall P l.
Proof.
  intros P HP. revert n. induction l as [|c l IH]; intros n; cbn; [done|].
  by rewrite !Forall_cons, HP, IH.
Qed.

Lemma enumerate_from_lookup n l i :
  enumerate_from n l !! i = with_rank (n + Z.of_nat i) <$> l !! i.
Proof.
  revert n i. induction l as [|c l IH]; intros n [|i]; cbn; try done.
  - by rewrite Z.add_0_r.
  - rewrite IH. do 2 f_equal. lia.
Qed.

Lemma enumerate_from_length n l : length (enumerate_from n l) = length l.
Proof. revert n. induction l as [|c l IH]; intros n; cbn; [done|]. by rewrite IH. Qed.

Lemma enumerate_from_take n k l : take k (enumerate_from n l) = enumerate_from n (take k l).
Proof. revert n k. induction l as [|c l IH]; intros n [|k]; cbn; [done..|]. by rewrite IH. Qed.
End ranking.

(** ** Concrete candidates *)

Definition sample_facts (canonical model : string) : ModelFacts :=
  mkModelFacts model canonical "llamacpp" "m" None true None true None None None None None None false "p".

Definition sample_provider_facts : ProviderFacts :=
  mkProviderFacts true true None true true true true false true None.

Definition sample_ranked (canonical model : string) (adapter : option AdapterFacts) (fit : f64)
  : @RankedCandidate plain_profiles :=
  @mkRanked plain_profiles
    (@mkSubject plain_profiles (sample_facts canonical model) sample_provider_facts empty_profile
       (mkServed 4096 "configured") [] adapter)
    (mkTaskFit fit [] 0 0) (mkFactors fone fone fone fone None (mkResidencyDetail "nothing_resident" [] 0 0 false))
    None None false 0.

Definition sample_adapter : AdapterFacts := mkAdapterFacts "a1" "tone" "sha:1" "m" None "verified" [] "private".

Module Properties.

(** The ranking.  Every eligible candidate appears exactly once, with ranks 1, 2, 3, ... and
    nothing else of it changed; whoever is ranked later is not ahead of anyone earlier in the
    documented order (score, then confidence, then residency, then the smaller estimate with unknown
    last, then the identifiers); the primary is rank 1, and the fallbacks are the next candidates, as
    many as the profile's depth allows and none where fallback is refused. *)
Theorem ranking_spec `{Profiles} (candidates : list RankedCandidate) (depth : Z) (disallow : bool) :
  let r := rank_candidates candidates depth disallow in
  let allowed := if disallow then 0 else Z.max depth 0 in
  (exists l, l ≡ₚ candidates /\ length (ordered r) = length l /\
     (forall i c, l !! i = Some c -> ordered r !! i = Some (with_rank (Z.of_nat i + 1) c)) /\
     (forall i j a b, (i < j)%nat -> l !! i = Some a -> l !! j = Some b -> ~ ahead b a)) /\
  primary r = ordered r !! 0%nat /\
  (primary r = None <-> candidates = []) /\
  fallbacks r = take (Z.to_nat allowed) (drop 1 (ordered r)).
Proof.
  set (l := py_sorted (leb_of (cmp_on order_key cmp_order)) candidates). intros r allowed.
  assert (Hp : l ≡ₚ candidates) by apply py_sorted_perm.
  assert (Ho : ordered r = enumerate_from 1 l).
  { unfold r, rank_candidates. fold l. by destruct (enumerate_from 1 l). }
  split.
  - exists l. split; [done|]. rewrite Ho. split; [apply enumerate_from_length|]. split.
    + intros i c Hi. rewrite enumerate_from_lookup, Hi. cbn. do 2 f_equal. lia.
    + intros i j a b Hij Ha Hb Hba. apply order_key_ahead in Hba.
      pose proof (sorted_by_key order_key cmp_order candidates) as Hs. fold l in Hs.
      pose proof (sorted_lookup_lt _ _ _ _ _ _ Hs Hij Ha Hb) as Hle.
      unfold leb_of, cmp_on in Hle. rewrite (cmp_opp (cmp := cmp_order) (order_key b) (order_key a)), Hba in Hle. done.
  - assert (Hn : candidates = [] <-> enumerate_from 1 l = []).
    { split; [intros ->; done|]. intros En. apply Permutation_nil. rewrite <- Hp.
      apply (f_equal length) in En. rewrite enumerate_from_length in En. by destruct l. }
    unfold r, rank_candidates in *. fold l in Ho |- *. fold allowed.
    destruct (enumerate_from 1 l) as [|x rest].
    + split; [done|]. split; [by split; [intros _; apply Hn|]|]. cbn. by destruct (Z.to_nat allowed).
    + split; [done|]. split; [split; [done|by intros ?%Hn]|]. cbn. by rewrite drop_0.
Qed.

(** The ranking does not depend on the order in which candidates are gathered, as long as no two
    of them share base and model identifiers. *)
Theorem ranking_order_independent `{Profiles} (candidates candidates' : list RankedCandidate) (depth : Z)
    (disallow : bool) (Hperm : candidates ≡ₚ candidates')
    (Hdistinct : NoDup (map (fun c => (mf_canonical_id (es_facts (rc_subject c)), mf_model_id (es_facts (rc_subject c))))
                          candidates)) :
  rank_candidates candidates depth disallow = rank_candidates candidates' depth disallow.
Proof.
  unfold rank_candidates. rewrite (sort_permutation order_key cmp_order candidates candidates'); [done..|].
  apply (NoDup_fmap_1 (fun k => k.2.2.2.2)). rewrite <- list_fmap_compose. exact Hdistinct.
Qed.

Lemma ranking_order_independent_witness :
  let a := sample_ranked "base:a" "m1" None (flit 1 2) in
  let b := sample_ranked "base:b" "m2" None (flit 1 2) in
  rank_candidates [a; b] 1 false = rank_candidates [b; a] 1 false.
Proof.
  apply (@ranking_order_independent plain_profiles).
  - apply Permutation_swap.
  - apply (bool_decide_unpack _). vm_compute. exact I.
Defined.

(** Two subjects of one base - the base itself and an adapter on it, or two adapters - carry the
    same base and model identifiers, so the key can tie and then the order in which they were gathered
    decides which one is the primary. *)
Theorem adapter_tie :
  exists (c1 c2 : @RankedCandidate plain_profiles),
    subject_canonical_id (rc_subject c1) <> subject_canonical_id (rc_subject c2) /\
    order_key c1 = order_key c2 /\
    (subject_canonical_id ∘ rc_subject) <$> primary (rank_candidates [c1; c2] 0 false) <>
    (subject_canonical_id ∘ rc_subject) <$> primary (rank_candidates [c2; c1] 0 false).
Proof.
  exists (sample_ranked "base:a" "m1" None (flit 1 2)),
    (sample_ranked "base:a" "m1" (Some sample_adapter) (flit 1 2)).
  split; [vm_compute; discriminate|]. split; [reflexivity|]. vm_compute. discriminate.
Qed.
End Properties.
