(* ===== verification/TaskProfile.v ===== *)
(** * Task profiles and registry entries ([domain/task_profile.py], [domain/registry.py])

    The shape of a task profile and the rules that refuse a malformed one at startup; the operator's
    manual scores; the declared capabilities and the geometry a provider reports.  Pydantic's
    parsing, the SetSpec vocabulary and the schemas directory are parameters. *)

From Stdlib Require Import Ascii String.
From S2P Require Import Prelude PyFloat Json Telemetry Ordering EvidencePolicy.
#[local] Open Scope string_scope.
#[local] Open Scope list_scope.
#[local] Open Scope Z_scope.

Definition WEIGHT_SUM_TOLERANCE : f64 := flit 1 1000000.

Record TaskProfileConstraints := mkConstraintsBlock {
  tc_min_context_tokens : Z;
  tc_requires_capabilities : list string;
  tc_max_latency_p95_seconds : option f64;
  tc_min_capability_scores : gmap string f64;
  tc_exclude_models : list string;
  tc_allow_remote_providers : bool
}.

Record TaskProfileExecution := mkExecution {
  te_temperature : f64;
  te_max_output_tokens : Z;
  te_min_output_tokens : option Z;
  te_response_format : string;
  te_json_schema_ref : option string;
  te_max_attempts : Z;
  te_fallback_depth : Z;
  te_think : option bool
}.

Record TaskProfileValidation := mkValidation {
  tv_require_valid_json : bool;
  tv_require_schema : bool;
  tv_required_fields : list string;
  tv_max_output_chars : Z
}.

(** [weights] in insertion order: the sum is taken along it. *)
Record TaskProfile := mkTaskProfile {
  tp_profile_id : string;
  tp_version : string;
  tp_weights : list (string * f64);
  tp_constraints : TaskProfileConstraints;
  tp_execution : TaskProfileExecution;
  tp_validation : TaskProfileValidation;
  tp_enabled : bool
}.

(** Pydantic's [model_validate] (any exception of it is [None]), the vocabulary of SetSpec, and the
    schemas directory. *)
Class ProfileWorld := {
  model_validate : string -> json -> option TaskProfile;
  is_known_capability : string -> bool;
  resolves_inside : string -> bool;
  is_schema_file : string -> bool
}.

Section profiles.
Context `{ProfileWorld}.

Definition fail {A} (profile_id problem : string) : result A := Raise (TaskProfileInvalid profile_id problem).

(** [sorted(set(weights) | set(requires) | set(min scores))]. *)
Definition capability_names (p : TaskProfile) : list string :=
  py_sorted (leb_of String.compare)
    (elements (list_to_set (tp_weights p).*1 ∪ list_to_set (tc_requires_capabilities (tp_constraints p)) ∪
               dom (tc_min_capability_scores (tp_constraints p)) : gset string)).

Fixpoint check_vocabulary (profile_id : string) (names : list string) : result unit :=
  match names with
  | [] => Ok tt
  | c :: rest => if is_known_capability c then check_vocabulary profile_id rest
                 else fail profile_id ("capability " +:+ c)
  end.

(** [if b: raise _fail(file, profile_id, problem)]. *)
Definition fail_if (profile_id : string) (b : bool) (problem : string) : result unit :=
  if b then fail profile_id problem else Ok tt.

Definition check_schema_ref (profile_id : string) (e : TaskProfileExecution) : result unit :=
  match te_json_schema_ref e with
  | None => Ok tt
  | Some ref =>
      _ ← fail_if profile_id (negb (resolves_inside ref)) "json_schema_ref outside";
      fail_if profile_id (negb (is_schema_file ref)) "json_schema_ref missing"
  end.

(** [not profile.execution.json_schema_ref]. *)
Definition falsy_ref (r : option string) : bool :=
  match r with Some s => bool_decide (s = "") | None => true end.

Definition validate_one (profile_id : string) (raw : json) : result TaskProfile :=
  match model_validate profile_id raw with
  | None => fail profile_id "shape"
  | Some p =>
      let weight_sum := py_sum (tp_weights p).*2 in
      let e := tp_execution p in
      _ ← fail_if profile_id (bool_decide (tp_weights p = [])) "weights is empty";
      _ ← fail_if profile_id (WEIGHT_SUM_TOLERANCE <? Z.abs (fsub weight_sum fone)) "weights sum";
      _ ← check_vocabulary profile_id (capability_names p);
      _ ← check_schema_ref profile_id e;
      _ ← fail_if profile_id (bool_decide (te_response_format e = "json_schema") &&
                              bool_decide (te_json_schema_ref e = None)) "json_schema without ref";
      _ ← fail_if profile_id (match te_min_output_tokens e with
                              | Some n => te_max_output_tokens e <? n
                              | None => false
                              end) "min_output_tokens";
      _ ← fail_if profile_id (tv_require_schema (tp_validation p) && falsy_ref (te_json_schema_ref e))
            "require_schema without ref";
      Ok p
  end.

Definition load_task_profiles (profiles : list (string * json)) : result (list TaskProfile) :=
  map_ok (fun kv => validate_one kv.1 kv.2) profiles.

(** ** Registry entries *)

Definition DECLARED_SCORE : f64 := fone.
Definition DECLARED_CONFIDENCE : f64 := flit 1 2.

Record ManualCapabilityScore := mkManualScore {
  ms_canonical_id : string;
  ms_capability_id : string;
  ms_score : f64;
  ms_confidence : f64
}.

(** [isinstance(x, (int, float)) and not isinstance(x, bool) and 0.0 <= x <= 1.0], then [float(x)]. *)
Definition unit_number (x : option json) : option f64 :=
  match x with
  | Some (JInt z) => if (0 <=? z) && (z <=? 1) then Some (of_int z) else None
  | Some (JFloat f) => if (0 <=? f) && (f <=? fone) then Some f else None
  | _ => None
  end.

Definition validate_manual_score (index : Z) (raw : list (string * json)) : result ManualCapabilityScore :=
  match assoc "canonical_id" raw with
  | Some (JStr canonical_id) =>
      if bool_decide (canonical_id = "") then Raise (ManualScoreInvalid index "canonical_id")
      else
        match assoc "capability_id" raw with
        | Some (JStr capability_id) =>
            if negb (is_known_capability capability_id) then Raise (ManualScoreInvalid index "capability_id")
            else
              match unit_number (assoc "score" raw) with
              | None => Raise (ManualScoreInvalid index "score")
              | Some score =>
                  match unit_number (assoc "confidence" raw) with
                  | None => Raise (ManualScoreInvalid index "confidence")
                  | Some confidence => Ok (mkManualScore canonical_id capability_id score confidence)
                  end
              end
        | _ => Raise (ManualScoreInvalid index "capability_id")
        end
  | _ => Raise (ManualScoreInvalid index "canonical_id")
  end.
End profiles.

Definition DESCRIPTOR_GEOMETRY_FIELDS : list string :=
  ["layers"; "kv_heads"; "head_dim"; "attention_heads"; "embedding_dim"; "vocab_size"; "sliding_window"].

(** The descriptor's attributes by name. *)
Definition descriptor_geometry {M} `{Measurement M} (descriptor : string -> M) : list (string * Z) :=
  omap (fun name => let v := descriptor name in if is_supported v then Some (name, to_int v) else None)
    DESCRIPTOR_GEOMETRY_FIELDS.

Definition geometry_from_json (stored : json) (field : string) : option Z :=
  match stored with
  | JObj l => match assoc field l with Some (JInt z) => Some z | _ => None end
  | _ => None
  end.

(** ** Lemmas *)

(** What a profile must satisfy beyond its shape. *)
Definition acceptable `{ProfileWorld} (p : TaskProfile) : Prop :=
  let c := tp_constraints p in let e := tp_execution p in
  tp_weights p <> [] /\
  Z.abs (fsub (py_sum (tp_weights p).*2) fone) <= flit 1 1000000 /\
  (forall k, k ∈ (tp_weights p).*1 \/ k ∈ tc_requires_capabilities c \/ is_Some (tc_min_capability_scores c !! k) ->
     is_known_capability k = true) /\
  (forall ref, te_json_schema_ref e = Some ref -> resolves_inside ref = true /\ is_schema_file ref = true) /\
  (te_response_format e = "json_schema" -> is_Some (te_json_schema_ref e)) /\
  (forall n, te_min_output_tokens e = Some n -> n <= te_max_output_tokens e) /\
  (tv_require_schema (tp_validation p) = true -> exists ref, te_json_schema_ref e = Some ref /\ ref <> "").

Section lemmas.
Context `{ProfileWorld}.

(** A step returns [a] when its condition holds and otherwise raises, naming the profile. *)
Definition guards {A} (pid : string) (a : A) (r : result A) (P : Prop) : Prop :=
  (r = Ok a /\ P) \/ (~ P /\ exists problem, r = Raise (TaskProfileInvalid pid problem)).

Lemma guards_if pid b problem (P : Prop) :
  (b = true -> ~ P) -> (b = false -> P) -> guards pid tt (fail_if pid b problem) P.
Proof. intros Ht Hf. destruct b; [right; split; [by apply Ht|by eexists]|left; split; [done|by apply Hf]]. Qed.

Lemma guards_bind {A} pid r (a : A) s P Q :
  guards pid tt r P -> guards pid a s Q -> guards pid a (_ ← r; s) (P /\ Q).
Proof.
  intros [[-> HP]|[HP [problem ->]]] Hs; cbn.
  - destruct Hs as [[-> HQ]|[HQ Hr]]; [by left|right]. split; [tauto|done].
  - right. split; [tauto|by eexists].
Qed.

Lemma guards_iff {A} pid (a : A) r P Q : guards pid a r P -> (P <-> Q) -> guards pid a r Q.
Proof. unfold guards. tauto. Qed.

Lemma elem_of_capability_names p k :
  k ∈ capability_names p <->
  k ∈ (tp_weights p).*1 \/ k ∈ tc_requires_capabilities (tp_constraints p) \/
  is_Some (tc_min_capability_scores (tp_constraints p) !! k).
Proof.
  unfold capability_names. rewrite elem_of_py_sorted, (elem_of_elements (C := gset string)).
  rewrite !elem_of_union, !(elem_of_list_to_set (C := gset string)), elem_of_dom. tauto.
Qed.

Lemma guards_vocabulary pid names :
  guards pid tt (check_vocabulary pid names) (forall c, c ∈ names -> is_known_capability c = true).
Proof.
  induction names as [|c names IH]; cbn; [left; split; [done|by intros c ?%elem_of_nil]|].
  destruct (is_known_capability c) eqn:E.
  - eapply guards_iff; [exact IH|]. split; [|set_solver]. by intros Hk c' [->|Hc']%elem_of_cons; [|apply Hk].
  - right. split; [|by eexists]. intros Hk. rewrite Hk in E; [done|left].
Qed.

Lemma guards_schema_ref pid e :
  guards pid tt (check_schema_ref pid e)
    (forall ref, te_json_schema_ref e = Some ref -> resolves_inside ref = true /\ is_schema_file ref = true).
Proof.
  unfold check_schema_ref. destruct (te_json_schema_ref e) as [ref|]; [|by left].
  apply (guards_iff _ _ _ (resolves_inside ref = true /\ is_schema_file ref = true)).
  - apply guards_bind; apply guards_if; rewrite ?negb_true_iff, ?negb_false_iff; congruence.
  - split; [by intros Hr ? [= <-]|by auto].
Qed.

Lemma guards_json_schema pid e problem :
  guards pid tt (fail_if pid (bool_decide (te_response_format e = "json_schema") && bool_decide (te_json_schema_ref e = None)) problem)
    (te_response_format e = "json_schema" -> is_Some (te_json_schema_ref e)).
Proof.
  apply guards_if; rewrite ?andb_true_iff, ?andb_false_iff, ?bool_decide_eq_true, ?bool_decide_eq_false.
  - intros [Hf Hn] Hs. destruct (Hs Hf). congruence.
  - intros [Hf|Hn] Hs; [done|]. destruct (te_json_schema_ref e); [by eexists|done].
Qed.

Lemma guards_output pid e problem :
  guards pid tt (fail_if pid (match te_min_output_tokens e with Some n => te_max_output_tokens e <? n | None => false end) problem)
    (forall n, te_min_output_tokens e = Some n -> n <= te_max_output_tokens e).
Proof.
  destruct (te_min_output_tokens e) as [n|]; [|by left]. apply guards_if; rewrite ?Z.ltb_lt, ?Z.ltb_ge.
  - intros Hlt Hn. specialize (Hn n eq_refl). lia.
  - by intros Hle ? [= <-].
Qed.

Lemma guards_require_schema pid p problem :
  guards pid tt (fail_if pid (tv_require_schema (tp_validation p) && falsy_ref (te_json_schema_ref (tp_execution p))) problem)
    (tv_require_schema (tp_validation p) = true ->
     exists ref, te_json_schema_ref (tp_execution p) = Some ref /\ ref <> "").
Proof.
  destruct (tv_require_schema (tp_validation p)); [|by left]. cbn.
  destruct (te_json_schema_ref (tp_execution p)) as [r|]; cbn.
  - apply guards_if; rewrite ?bool_decide_eq_true, ?bool_decide_eq_false; naive_solver.
  - right. split; [|by eexists]. intros Hs. destruct (Hs eq_refl) as (? & ? & _). congruence.
Qed.

Lemma guards_above pid x t problem : guards pid tt (fail_if pid (t <? x) problem) (x <= t).
Proof. apply guards_if; rewrite ?Z.ltb_lt, ?Z.ltb_ge; lia. Qed.

(** Either accepted and returned as parsed, or refused naming the profile. *)
Lemma validate_one_spec pid raw p :
  model_validate pid raw = Some p -> guards pid p (validate_one pid raw) (acceptable p).
Proof.
  intros E. unfold validate_one, acceptable. rewrite E. cbv zeta.
  apply guards_bind; [apply guards_if; rewrite ?bool_decide_eq_true, ?bool_decide_eq_false; tauto|].
  apply guards_bind; [apply guards_above|].
  apply guards_bind.
  { eapply guards_iff; [apply guards_vocabulary|]. by setoid_rewrite elem_of_capability_names. }
  apply guards_bind; [apply guards_schema_ref|]. apply guards_bind; [apply guards_json_schema|].
  apply guards_bind; [apply guards_output|].
  eapply (guards_iff _ _ _ (_ /\ True)); [|split; [intros [Hs _]; exact Hs|intros Hs; split; [exact Hs|exact I]]].
  apply guards_bind; [apply guards_require_schema|by left].
Qed.
End lemmas.

(** ** A concrete parser, for evaluation *)

Definition sample_profile (id : string) (w : f64) : TaskProfile :=
  mkTaskProfile id "1.0.0" [("coding", w)] (mkConstraintsBlock 0 [] None ∅ [] false)
    (mkExecution 0 1024 None "text" None 1 0 None) (mkValidation false false [] 1000000) true.

(** Parses a float as a one-capability profile with that weight. *)
Definition sample_world : ProfileWorld := {|
  model_validate pid raw := match raw with JFloat w => Some (sample_profile pid w) | _ => None end;
  is_known_capability c := bool_decide (c = "coding");
  resolves_inside _ := true;
  is_schema_file _ := false
|}.

Module Properties.

(** Task profiles load all or nothing.  When loading succeeds, the profiles are the parsed ones in
    the order given, and every one is acceptable: weights that are there and sum to one within 1e-6,
    only known capabilities, a schema reference that stays inside the schemas directory and exists,
    and no contradictory execution or validation setting.  When it raises, it names the first profile
    that does not parse or is not acceptable, all before it being fine. *)
Theorem profiles_all_or_nothing `{ProfileWorld} (profiles : list (string * json)) :
  match load_task_profiles profiles with
  | Ok ps => Forall2 (fun kv p => model_validate kv.1 kv.2 = Some p /\ acceptable p) profiles ps
  | Raise e => exists before pid raw after problem, profiles = before ++ (pid, raw) :: after /\
      e = TaskProfileInvalid pid problem /\
      (forall p, model_validate pid raw = Some p -> ~ acceptable p) /\
      forall kv, kv ∈ before -> exists p, model_validate kv.1 kv.2 = Some p /\ acceptable p
  end.
Proof.
  unfold load_task_profiles. induction profiles as [|[pid raw] profiles IH]; cbn; [constructor|].
  destruct (model_validate pid raw) as [p|] eqn:E.
  - destruct (validate_one_spec pid raw p E) as [[-> Ha]|[Ha [problem ->]]]; cbn.
    + destruct (map_ok _ profiles) as [ps|e]; cbn; [by constructor|].
      destruct IH as (b & pid' & raw' & a & problem & -> & -> & Hn & Hb).
      exists ((pid, raw) :: b), pid', raw', a, problem. repeat split; [done|].
      intros kv [->|Hkv]%elem_of_cons; [by exists p|by apply Hb].
    + exists [], pid, raw, profiles, problem. repeat split; [|by intros kv ?%elem_of_nil].
      intros p' Hp'. congruence.
  - unfold validate_one. rewrite E. cbn. eexists [], pid, raw, profiles, _. repeat split; [congruence|].
    by intros kv ?%elem_of_nil.
Qed.

(** The geometry a provider reports survives storage: a field read back from the stored descriptor
    is the reported number, and a field never reported reads back as absent, never as zero. *)
Theorem geometry_round_trip {M} `{Measurement M} (descriptor : string -> M) (field : string) :
  geometry_from_json (JObj (map (fun kv => (kv.1, JInt kv.2)) (descriptor_geometry descriptor))) field =
    if bool_decide (field ∈ ["layers"; "kv_heads"; "head_dim"; "attention_heads"; "embedding_dim"; "vocab_size"; "sliding_window"]) &&
       is_supported (descriptor field)
    then Some (to_int (descriptor field)) else None.
Proof.
  unfold geometry_from_json, descriptor_geometry.
  change (["layers"; "kv_heads"; _; _; _; _; _]) with DESCRIPTOR_GEOMETRY_FIELDS.
  induction DESCRIPTOR_GEOMETRY_FIELDS as [|f l IH]; [done|]. cbn [omap list_omap].
  destruct (is_supported (descriptor f)) eqn:E; cbn.
  - destruct (decide (field = f)) as [->|Hf].
    + rewrite (bool_decide_eq_true_2 (f = f)) by done. rewrite bool_decide_eq_true_2 by left. by rewrite E.
    + rewrite (bool_decide_eq_false_2 (field = f)) by done. rewrite IH. rewrite (bool_decide_ext (field ∈ f :: l) (field ∈ l)); [done|].
      rewrite elem_of_cons. tauto.
  - rewrite IH. destruct (decide (field = f)) as [->|Hf].
    + rewrite E, !andb_false_r. done.
    + rewrite (bool_decide_ext (field ∈ f :: l) (field ∈ l)); [done|]. rewrite elem_of_cons. tauto.
Qed.

(** A manual score is accepted exactly when it names a model, a known capability and two numbers
    between zero and one - booleans are not numbers - and then it is those values. *)
Theorem manual_score_spec `{ProfileWorld} (index : Z) (raw : list (string * json)) :
  (forall s, validate_manual_score index raw = Ok s ->
     assoc "canonical_id" raw = Some (JStr (ms_canonical_id s)) /\ ms_canonical_id s <> "" /\
     assoc "capability_id" raw = Some (JStr (ms_capability_id s)) /\ is_known_capability (ms_capability_id s) = true /\
     0 <= ms_score s <= fone /\ 0 <= ms_confidence s <= fone) /\
  (forall e, validate_manual_score index raw = Raise e -> exists problem, e = ManualScoreInvalid index problem).
Proof.
  assert (Hu : forall x v, unit_number x = Some v -> 0 <= v <= fone).
  { intros [[| | z|f| | |]|] v; cbn; try discriminate.
    - destruct (Z.leb_spec 0 z), (Z.leb_spec z 1); cbn; try discriminate. intros [= <-].
      rewrite of_int_exact by lia. pose proof fone_pos. nia.
    - destruct (Z.leb_spec 0 f) as [H0|], (Z.leb_spec f fone) as [H1|]; cbn; try discriminate.
      intros [= <-]. split; assumption. }
  unfold validate_manual_score. repeat case_match; split; intros ? [= <-]; cbn; try (by eexists).
  all: repeat split; try done; try (by eapply bool_decide_eq_false); try (by eapply negb_false_iff);
    try (by eapply Hu).
Qed.
End Properties.
