(* ===== verification/EvidenceStore.v ===== *)
(** * The evidence importer ([services/evidence.py])

    Importing a FreeWeight bundle in one transaction, keeping stored measurements bound to the
    registry, the badges of superseded rows and of unreachable sources, and the reads: the overview,
    the sources, the pages of records and the coverage.  SetSpec's envelope and record validation are
    a class; a validated record has the attributes the source reads.  Rows are kept under their
    uniqueness key, the registry in the order its query yields it. *)

From Stdlib Require Import Ascii String.
From S2P Require Import Prelude PyFloat PyStr Json Ordering Authorization EvidencePolicy Reliability.
#[local] Open Scope string_scope.
#[local] Open Scope list_scope.
#[local] Open Scope Z_scope.

(** ** Rows *)

Record ModelRow := mkModelRow {
  mr_id : string;
  mr_canonical_id : string;
  mr_provider_kind : string;
  mr_provider_name : string;
  mr_provider_model_name : string;
  mr_artifact_digest : option string;
  mr_identity_confidence : string;
  mr_available : bool;
  mr_unavailable_reason : option string;
  mr_enabled : bool;
  mr_max_context : option Z;
  mr_size_bytes : option Z;
  mr_parameter_count : option Z;
  mr_is_remote : bool;
  mr_descriptor_json : json
}.

(** A validated [capability.evidence] record: the attributes read, and its JSON dump. *)
Record EvidenceAdapter := mkEvidenceAdapter { ea_name : string; ea_artifact_digest : string; ea_canonical_suffix : string }.

Record CapabilityEvidenceFields := mkEvidenceFields {
  ef_provider_kind : string;
  ef_provider_model_name : string;
  ef_artifact_digest : option string;
  ef_canonical_id : string;
  ef_adapter : option EvidenceAdapter;
  ef_runtime_profile_hash : string;
  ef_machine_fingerprint : string;
  ef_capability_id : string;
  ef_policy_version : string;
  ef_vocabulary_version : string;
  ef_score : f64;
  ef_confidence : f64;
  ef_sample_count : Z;
  ef_excluded_count : Z;
  ef_measured_at : Z;
  ef_benchmark_versions : list (string * string);
  ef_calibration : option CalibrationFacts;
  ef_environment : option (list (string * json));
  ef_dump : json
}.

(** The uniqueness key: source, base, adapter digest (empty for the base itself), profile, machine,
    capability, policy. *)
Definition EvidenceKey : Type := string * string * string * string * string * string * string.

Definition key_source (k : EvidenceKey) : string := k.1.1.1.1.1.1.

Record EvidenceRow := mkEvidenceRow {
  er_candidate : EvidenceCandidate;        (* the row's id, capability, profile, machine, policy, score... *)
  er_model_id : option string;
  er_adapter_id : option string;
  er_match_state : string;
  er_stale : bool;
  er_stale_reason : option string;
  er_provider_kind : string;
  er_provider_model_name : string;
  er_artifact_digest : option string;
  er_canonical_id : string;
  er_adapter : option EvidenceAdapter;     (* of the stored document *)
  er_adapter_artifact_digest : string;
  er_source_id : string;
  er_vocabulary_version : string;
  er_excluded_count : Z;
  er_imported_at : Z;
  er_record : json
}.

Record SourceRow := mkSource {
  so_id : string;
  so_source_key : string;
  so_kind : string;
  so_url : option string;
  so_last_import_at : option Z;
  so_last_status : option string;
  so_schema_version : option string;
  so_record_count : Z;
  so_error_text : option string;
  so_generated_at : option Z
}.

Record EvidenceDb := mkEvidenceDb {
  ed_models : list ModelRow;
  ed_adapters : list LocalAdapter;
  ed_rows : gmap EvidenceKey EvidenceRow;
  ed_sources : list SourceRow
}.

Definition set_models (models : list ModelRow) (d : EvidenceDb) : EvidenceDb :=
  mkEvidenceDb models (ed_adapters d) (ed_rows d) (ed_sources d).
Definition set_rows (rows : gmap EvidenceKey EvidenceRow) (d : EvidenceDb) : EvidenceDb :=
  mkEvidenceDb (ed_models d) (ed_adapters d) rows (ed_sources d).
Definition set_sources (sources : list SourceRow) (d : EvidenceDb) : EvidenceDb :=
  mkEvidenceDb (ed_models d) (ed_adapters d) (ed_rows d) sources.

(** ** Identities and keys *)

Definition identity_of (r : CapabilityEvidenceFields) : EvidenceIdentity :=
  mkIdentity (ef_provider_kind r) (ef_provider_model_name r) (ef_artifact_digest r) (ef_canonical_id r)
    (ea_name <$> ef_adapter r) (ea_artifact_digest <$> ef_adapter r).

(** [row.adapter_artifact_digest or None]. *)
Definition identity_of_row (r : EvidenceRow) : EvidenceIdentity :=
  mkIdentity (er_provider_kind r) (er_provider_model_name r) (er_artifact_digest r) (er_canonical_id r)
    (ea_name <$> er_adapter r)
    (if bool_decide (er_adapter_artifact_digest r = "") then None else Some (er_adapter_artifact_digest r)).

Definition row_subject_canonical_id (r : EvidenceRow) : string :=
  if bool_decide (er_adapter_artifact_digest r = "") then er_canonical_id r
  else match er_adapter r with
       | Some a => er_canonical_id r +:+ ea_canonical_suffix a
       | None => er_canonical_id r
       end.

Definition local_model (m : ModelRow) : LocalModel :=
  mkLocalModel (mr_id m) (mr_provider_kind m) (mr_provider_model_name m) (mr_artifact_digest m) (mr_canonical_id m).

Definition registry_of (d : EvidenceDb) : list LocalModel := map local_model (ed_models d).

Definition adapter_key (r : CapabilityEvidenceFields) : string :=
  match ef_adapter r with None => "" | Some a => ea_artifact_digest a end.

Definition uniqueness_key (r : CapabilityEvidenceFields) (source_row_id : string) : EvidenceKey :=
  (source_row_id, ef_canonical_id r, adapter_key r, ef_runtime_profile_hash r, ef_machine_fingerprint r,
   ef_capability_id r, ef_policy_version r).

(** ** Sources *)

(** [max(imported, key=(last_import_at, id))], else [min(rows, key=id)]. *)
Definition import_key (s : SourceRow) : Z * string := (default 0 (so_last_import_at s), so_id s).

Definition source_for_url (sources : list SourceRow) (url : string) : option SourceRow :=
  let rows := List.filter (fun s => bool_decide (so_url s = Some url)) sources in
  match List.filter (fun s => bool_decide (is_Some (so_last_import_at s))) rows, rows with
  | s :: rest, _ => Some (py_max_from (ltb_of (cmp_on import_key (cmp_pair Z.compare String.compare))) s rest)
  | [], s :: rest => Some (py_max_from (ltb_of (cmp_desc (cmp_on so_id String.compare))) s rest)
  | [], [] => None
  end.

(** An attribute assignment on the row with that id. *)
Definition update_source (id : string) (f : SourceRow -> SourceRow) (sources : list SourceRow) : list SourceRow :=
  map (fun s => if bool_decide (so_id s = id) then f s else s) sources.

Definition imported_source (source_key kind : string) (url : option string) (schema_version : string)
    (generated_at : option Z) (now : Z) (s : SourceRow) : SourceRow :=
  mkSource (so_id s) source_key kind (match url with Some u => Some u | None => so_url s end) (Some now) (Some "ok")
    (Some schema_version) (so_record_count s) None generated_at.

(** The row of the producer, or the placeholder of the URL, which adopts the producer's key, or a new
    row; then refreshed. *)
Definition upsert_source (new_id source_key kind : string) (url : option string) (schema_version : string)
    (generated_at : option Z) (now : Z) (sources : list SourceRow) : list SourceRow * string :=
  let refresh := imported_source source_key kind url schema_version generated_at now in
  let placeholder :=
    match url with
    | None => None
    | Some u => find_first (fun s => bool_decide (so_source_key s = u) && bool_decide (so_url s = Some u)) sources
    end in
  match find_first (fun s => bool_decide (so_source_key s = source_key)) sources, placeholder with
  | Some s, _ | None, Some s => (update_source (so_id s) refresh sources, so_id s)
  | None, None =>
      (sources ++ [refresh (mkSource new_id source_key kind url None None None 0 None None)], new_id)
  end.

(** ** Import *)

Inductive RejectionReason := INVALID_RECORD | DUPLICATE_RECORD.

Record RejectedRecord := mkRejected {
  rr_index : Z;
  rr_canonical_id : option string;
  rr_capability_id : option string;
  rr_reason : RejectionReason
}.

Record ImportOutcome := mkImportOutcome {
  io_source_row_id : string;
  io_source_key : string;
  io_schema_version : string;
  io_generated_at : option Z;
  io_complete : bool;
  io_total : Z;
  io_imported : Z;
  io_updated : Z;
  io_unmatched : Z;
  io_ambiguous : Z;
  io_bound : Z;
  io_upgraded_models : Z;
  io_superseded : Z;
  io_rejected : list RejectedRecord
}.

(** The envelope SetSpec returns for a document, and its two refusals. *)
Record Envelope := mkEnvelope { en_payload : json; en_schema_version : string; en_generated_at : option Z }.
Inductive Negotiation := Negotiated (e : Envelope) | VersionUnsupported | EnvelopeInvalid.

(** [document] is the text of a bundle (its length is what is compared with the limit) or an already
    parsed mapping. *)
Inductive Document := Text (text : string) | Parsed (value : json).

Class SetSpec := {
  MAX_PAYLOAD_BYTES : Z;
  load_envelope : Document -> list Z -> Negotiation;
  validate_record : json -> option CapabilityEvidenceFields
}.

Definition upgrade_row (digest canonical_id : string) (m : ModelRow) : ModelRow :=
  mkModelRow (mr_id m) canonical_id (mr_provider_kind m) (mr_provider_name m) (mr_provider_model_name m) (Some digest)
    "digest" (mr_available m) (mr_unavailable_reason m) (mr_enabled m) (mr_max_context m) (mr_size_bytes m)
    (mr_parameter_count m) (mr_is_remote m) (mr_descriptor_json m).

(** [session.get(Model, id)] and the assignment, when the row still has no digest. *)
Definition apply_upgrade (b : Binding) (canonical_id : string) (models : list ModelRow) : list ModelRow * bool :=
  match bi_upgrade_model_id b, bi_upgrade_digest b with
  | Some id, Some digest =>
      match find_first (fun m => bool_decide (mr_id m = id)) models with
      | Some m =>
          if bool_decide (mr_artifact_digest m = None)
          then (map (fun m => if bool_decide (mr_id m = id) then upgrade_row digest canonical_id m else m) models, true)
          else (models, false)
      | None => (models, false)
      end
  | _, _ => (models, false)
  end.

Section import.
Context `{HalfPow} `{PyEq}.

Definition row_values (r : CapabilityEvidenceFields) (b : Binding) (row_id source_row_id : string) (now : Z)
    (current_environment : option (list (string * json))) : EvidenceRow :=
  let drift := environment_drift (ef_environment r) current_environment (ef_capability_id r) in
  let staleness := evaluate_staleness (ef_measured_at r) now (ef_capability_id r) drift false false in
  mkEvidenceRow
    (mkCandidate row_id (ef_capability_id r) (ef_runtime_profile_hash r) (ef_machine_fingerprint r) (ef_policy_version r)
       (ef_measured_at r) (ef_score r) (ef_confidence r) (ef_sample_count r) (ef_benchmark_versions r) (ef_calibration r))
    (bi_model_id b) (bi_adapter_id b) (match_state_value (bi_match_state b)) (st_stale staleness) (st_reason staleness)
    (ef_provider_kind r) (ef_provider_model_name r) (ef_artifact_digest r) (ef_canonical_id r) (ef_adapter r)
    (adapter_key r) source_row_id (ef_vocabulary_version r) (ef_excluded_count r) now (ef_dump r).

(** The state of the loop over the validated records. *)
Record ImportState := mkImportState {
  im_models : list ModelRow;
  im_rows : gmap EvidenceKey EvidenceRow;
  im_seen : list EvidenceKey;
  im_rejected : list RejectedRecord;
  im_imported : Z;
  im_updated : Z;
  im_bound : Z;
  im_unmatched : Z;
  im_ambiguous : Z;
  im_upgraded : Z
}.

Definition add_if (b : bool) (n : Z) : Z := if b then n + 1 else n.

(** One iteration; [new_row_id] is the id a new row gets. *)
Definition import_record (adapters : list LocalAdapter) (existing : gset EvidenceKey) (source_row_id : string) (now : Z)
    (current_environment : option (list (string * json))) (new_row_id : Z -> string) (s : ImportState)
    (ir : Z * CapabilityEvidenceFields) : ImportState :=
  let '(index, r) := ir in
  let key := uniqueness_key r source_row_id in
  if bool_decide (key ∈ im_seen s) then
    mkImportState (im_models s) (im_rows s) (im_seen s)
      (im_rejected s ++ [mkRejected index (Some (ef_canonical_id r)) (Some (ef_capability_id r)) DUPLICATE_RECORD])
      (im_imported s) (im_updated s) (im_bound s) (im_unmatched s) (im_ambiguous s) (im_upgraded s)
  else
    let b := bind_identity (identity_of r) (map local_model (im_models s)) adapters in
    let '(models, upgraded) := apply_upgrade b (ef_canonical_id r) (im_models s) in
    let row_id := match im_rows s !! key with Some old => ec_row_id (er_candidate old) | None => new_row_id index end in
    let row := row_values r b row_id source_row_id now current_environment in
    let old := bool_decide (key ∈ existing) in
    mkImportState models (<[key := row]> (im_rows s)) (key :: im_seen s) (im_rejected s)
      (add_if (negb old) (im_imported s)) (add_if old (im_updated s))
      (add_if (bool_decide (bi_match_state b = BOUND)) (im_bound s))
      (add_if (bool_decide (bi_match_state b = UNMATCHED)) (im_unmatched s))
      (add_if (bool_decide (bi_match_state b = AMBIGUOUS_NAME_ONLY)) (im_ambiguous s))
      (add_if upgraded (im_upgraded s)).

Definition with_badge (stale : bool) (reason : option string) (r : EvidenceRow) : EvidenceRow :=
  mkEvidenceRow (er_candidate r) (er_model_id r) (er_adapter_id r) (er_match_state r) stale reason (er_provider_kind r)
    (er_provider_model_name r) (er_artifact_digest r) (er_canonical_id r) (er_adapter r) (er_adapter_artifact_digest r)
    (er_source_id r) (er_vocabulary_version r) (er_excluded_count r) (er_imported_at r) (er_record r).

(** A reachable source retires its badge: the row is as stale as its own age says. *)
Definition clear_badge (source_row_id : string) (now : Z) (r : EvidenceRow) : EvidenceRow :=
  if bool_decide (er_source_id r = source_row_id) && bool_decide (er_stale_reason r = Some "source_unreachable") then
    let refreshed := evaluate_staleness (ec_measured_at (er_candidate r)) now (ec_capability_id (er_candidate r))
                       None false false in
    with_badge (st_stale refreshed) (st_reason refreshed) r
  else r.

(** The row of a key the complete bundle omitted. *)
Definition supersede (r : EvidenceRow) : EvidenceRow :=
  if bool_decide (er_stale_reason r = Some "superseded") then r else with_badge true (Some "superseded") r.

(** The keys of the rows the source already had. *)
Definition existing_keys (rows : gmap EvidenceKey EvidenceRow) (source_row_id : string) : gset EvidenceKey :=
  dom (filter (fun kr => er_source_id kr.2 = source_row_id) rows).

Definition with_record_count (n : Z) (s : SourceRow) : SourceRow :=
  mkSource (so_id s) (so_source_key s) (so_kind s) (so_url s) (so_last_import_at s) (so_last_status s)
    (so_schema_version s) n (so_error_text s) (so_generated_at s).

Definition write_bundle (validated : list (Z * CapabilityEvidenceFields)) (rejected : list RejectedRecord)
    (source_key source_kind : string) (url : option string) (complete : bool) (total : Z) (schema_version : string)
    (generated_at : option Z) (now : Z) (current_environment : option (list (string * json))) (new_source_id : string)
    (new_row_id : Z -> string) (d : EvidenceDb) : EvidenceDb * ImportOutcome :=
  let '(sources, source_row_id) :=
    upsert_source new_source_id source_key source_kind url schema_version generated_at now (ed_sources d) in
  let existing := existing_keys (ed_rows d) source_row_id in
  let s := fold_left (import_record (ed_adapters d) existing source_row_id now current_environment new_row_id) validated
             (mkImportState (ed_models d) (ed_rows d) [] rejected 0 0 0 0 0 0) in
  let cleared := clear_badge source_row_id now <$> im_rows s in
  let omitted := if complete then existing ∖ list_to_set (im_seen s) else ∅ in
  let rows := map_imap (fun k r => Some (if bool_decide (k ∈ omitted) then supersede r else r)) cleared in
  let superseded := countb (fun k => match cleared !! k with
                                     | Some r => negb (bool_decide (er_stale_reason r = Some "superseded"))
                                     | None => false end) (elements omitted) in
  (mkEvidenceDb (im_models s) (ed_adapters d) rows (update_source source_row_id (with_record_count (im_imported s + im_updated s)) sources),
   mkImportOutcome source_row_id source_key schema_version generated_at complete total (im_imported s) (im_updated s)
     (im_unmatched s) (im_ambiguous s) (im_bound s) (im_upgraded s) superseded (im_rejected s)).

(** [payload.get(k)] on the payload's mapping. *)
Definition claimed (raw : json) (path : list string) : option string :=
  match fold_left (fun node key => match node with Some (JObj l) => assoc key l | _ => None end) path (Some raw) with
  | Some (JStr s) => Some s
  | _ => None
  end.

Definition negotiate `{SetSpec} (document : Document) (accept_schema_majors : list Z) : result Envelope :=
  let oversized := match document with Text t => MAX_PAYLOAD_BYTES <? py_len t | Parsed _ => false end in
  if oversized then Raise (EvidenceImportFailed "size_bytes")
  else match load_envelope document accept_schema_majors with
       | Negotiated e => Ok e
       | VersionUnsupported => Raise (EvidenceSchemaVersionUnsupported accept_schema_majors)
       | EnvelopeInvalid => Raise (EvidenceImportFailed "envelope")
       end.

(** The records that validate, and the rejections of the others, each with its index. *)
Fixpoint validate_records `{SetSpec} (index : Z) (raw : list json)
  : list (Z * CapabilityEvidenceFields) * list RejectedRecord :=
  match raw with
  | [] => ([], [])
  | x :: rest =>
      let '(validated, rejected) := validate_records (index + 1) rest in
      match validate_record x with
      | Some r => ((index, r) :: validated, rejected)
      | None => (validated,
                 mkRejected index (claimed x ["model"; "canonical_id"]) (claimed x ["capability_id"]) INVALID_RECORD :: rejected)
      end
  end.

Definition import_bundle `{SetSpec} (document : Document) (now : Z) (accept_schema_majors : list Z)
    (source_kind : string) (url : option string) (current_environment : option (list (string * json)))
    (principal : option Principal) (new_source_id : string) (new_row_id : Z -> string) (d : EvidenceDb)
  : EvidenceDb * result ImportOutcome :=
  let checked :=
    _ ← authorize principal "admin";
    envelope ← negotiate document accept_schema_majors;
    match en_payload envelope with
    | JObj payload =>
        match assoc "source_id" payload with
        | Some (JStr source_key) =>
            if bool_decide (source_key = "") then Raise (EvidenceImportFailed "source_id")
            else match assoc "complete" payload with
                 | Some (JBool complete) =>
                     match default (JArr []) (assoc "evidence" payload) with
                     | JArr raw => Ok (envelope, source_key, complete, raw)
                     | _ => Raise (EvidenceImportFailed "evidence")
                     end
                 | _ => Raise (EvidenceImportFailed "complete")
                 end
        | _ => Raise (EvidenceImportFailed "source_id")
        end
    | _ => Raise (EvidenceImportFailed "payload")
    end in
  match checked with
  | Raise e => (d, Raise e)
  | Ok (envelope, source_key, complete, raw) =>
      let '(validated, rejected) := validate_records 0 raw in
      let '(d', outcome) :=
        write_bundle validated rejected source_key source_kind url complete (zlen raw) (en_schema_version envelope)
          (en_generated_at envelope) now current_environment new_source_id new_row_id d in
      (d', Ok outcome)
  end.
End import.

(** ** Re-binding *)

Record RebindOutcome := mkRebindOutcome { ro_bound : Z; ro_unbound : Z; ro_upgraded_models : Z; ro_examined : Z }.

Definition with_binding (b : Binding) (r : EvidenceRow) : EvidenceRow :=
  mkEvidenceRow (er_candidate r) (bi_model_id b) (bi_adapter_id b) (match_state_value (bi_match_state b)) (er_stale r)
    (er_stale_reason r) (er_provider_kind r) (er_provider_model_name r) (er_artifact_digest r) (er_canonical_id r)
    (er_adapter r) (er_adapter_artifact_digest r) (er_source_id r) (er_vocabulary_version r) (er_excluded_count r)
    (er_imported_at r) (er_record r).

(** The assignment changes nothing exactly when it is skipped. *)
Definition binding_differs (b : Binding) (r : EvidenceRow) : bool :=
  negb (bool_decide (er_match_state r = match_state_value (bi_match_state b)) && bool_decide (er_model_id r = bi_model_id b) &&
        bool_decide (er_adapter_id r = bi_adapter_id b)).

(** One iteration, on the registry, the rows visited so far and the counters. *)
Definition rebind_row (adapters : list LocalAdapter) (s : list ModelRow * gmap EvidenceKey EvidenceRow * RebindOutcome)
    (kr : EvidenceKey * EvidenceRow) : list ModelRow * gmap EvidenceKey EvidenceRow * RebindOutcome :=
  let '(models, rows, o) := s in
  let '(key, r) := kr in
  let b := bind_identity (identity_of_row r) (map local_model models) adapters in
  let '(models', upgraded) := apply_upgrade b (er_canonical_id r) models in
  let was_bound := bool_decide (er_match_state r = "bound") in
  let differs := binding_differs b r in
  (models', if differs then <[key := with_binding b r]> rows else rows,
   mkRebindOutcome (add_if (differs && is_bound b) (ro_bound o))
     (add_if (differs && negb (is_bound b) && was_bound) (ro_unbound o))
     (add_if upgraded (ro_upgraded_models o)) (ro_examined o)).

(** The rows in the order the query yields them. *)
Definition rebind_rows (order : list (EvidenceKey * EvidenceRow)) (d : EvidenceDb) : EvidenceDb * RebindOutcome :=
  let '(models, rows, o) :=
    fold_left (rebind_row (ed_adapters d)) order (ed_models d, ed_rows d, mkRebindOutcome 0 0 0 (zlen order)) in
  (mkEvidenceDb models (ed_adapters d) rows (ed_sources d), o).

Definition rebind_evidence (d : EvidenceDb) : EvidenceDb * RebindOutcome := rebind_rows (map_to_list (ed_rows d)) d.

(** ** Sources that fail *)

(** A row the failure badges: not superseded. *)
Definition badge_unreachable (source_id : string) (r : EvidenceRow) : EvidenceRow :=
  if bool_decide (er_source_id r = source_id) && negb (bool_decide (er_stale_reason r = Some "superseded"))
  then with_badge true (Some "source_unreachable") r else r.

Definition newly_badged (source_id : string) (r : EvidenceRow) : bool :=
  bool_decide (er_source_id r = source_id) && negb (bool_decide (er_stale_reason r = Some "superseded")) &&
  (negb (er_stale r) || negb (bool_decide (er_stale_reason r = Some "source_unreachable"))).

Definition with_failure (status reason : string) (s : SourceRow) : SourceRow :=
  mkSource (so_id s) (so_source_key s) (so_kind s) (so_url s) (so_last_import_at s) (Some status)
    (so_schema_version s) (so_record_count s) (Some reason) (so_generated_at s).

Definition mark_source_unreachable (url reason : string) (d : EvidenceDb) : EvidenceDb * Z :=
  match source_for_url (ed_sources d) url with
  | None => (d, 0)
  | Some s =>
      (mkEvidenceDb (ed_models d) (ed_adapters d) (badge_unreachable (so_id s) <$> ed_rows d)
         (update_source (so_id s) (with_failure "unreachable" reason) (ed_sources d)),
       countb (fun kr => newly_badged (so_id s) kr.2) (map_to_list (ed_rows d)))
  end.

Definition record_source_failure (new_id url status reason : string) (d : EvidenceDb) : EvidenceDb :=
  match source_for_url (ed_sources d) url with
  | Some s => set_sources (update_source (so_id s) (with_failure status reason) (ed_sources d)) d
  | None => set_sources (ed_sources d ++ [with_failure status reason
              (mkSource new_id url "freeweight_api" (Some url) None None None 0 None None)]) d
  end.

Definition last_generated_at (sources : list SourceRow) (url : string) : option Z :=
  source_for_url sources url ≫= so_generated_at.

(** What the fetch of a URL ends with; [since] is the producer's own last timestamp. *)
Inductive Fetched := FetchedDocument (document : Document) | SourceRefused (reason : string)
| SourceIncompatible (reason : string) | SourceUnreachable (reason : string).

(** [str(exc)] of a failed import is not modelled: a parameter. *)
Definition refresh_from_freeweight `{HalfPow} `{PyEq} `{SetSpec} (freeweight_url : string)
    (accept_schema_majors : list Z) (fetch : string -> option Z -> Fetched) (error_text : exn -> string) (now : Z)
    (current_environment : option (list (string * json))) (new_source_id : string) (new_row_id : Z -> string)
    (d : EvidenceDb) : EvidenceDb * result (option ImportOutcome) :=
  let url := strip freeweight_url in
  if bool_decide (url = "") then (d, Ok None)
  else match fetch url (last_generated_at (ed_sources d) url) with
       | SourceRefused reason => (record_source_failure new_source_id url "refused" reason d, Ok None)
       | SourceIncompatible reason => (record_source_failure new_source_id url "incompatible" reason d, Ok None)
       | SourceUnreachable reason =>
           (record_source_failure new_source_id url "unreachable" reason (mark_source_unreachable url reason d).1, Ok None)
       | FetchedDocument document =>
           match import_bundle document now accept_schema_majors "freeweight_api" (Some url) current_environment None
                   new_source_id new_row_id d with
           | (d', Ok o) => (d', Ok (Some o))
           | (d', Raise e) => (record_source_failure new_source_id url "failed" (error_text e) d', Raise e)
           end
       end.

(** An [httpx.URL]'s scheme, host and port; [None] where it does not parse. *)
Definition credential_for (origin : string -> option (string * string * option Z)) (resolve_credential : option string)
    (freeweight_url url : string) : option string :=
  let configured := strip freeweight_url in
  if bool_decide (configured = "") then None
  else match origin url, origin configured with
       | Some target, Some owner => if bool_decide (target = owner) then resolve_credential else None
       | _, _ => None
       end.

(** ** Reads *)

Definition rows_of (d : EvidenceDb) : list EvidenceRow := (map_to_list (ed_rows d)).*2.

(** [max(l)] and [min(l)] of SQL: NULL on no row. *)
Definition sql_max (l : list Z) : option Z :=
  match l with [] => None | x :: rest => Some (fold_left Z.max rest x) end.
Definition sql_min (l : list Z) : option Z :=
  match l with [] => None | x :: rest => Some (fold_left Z.min rest x) end.

Definition rows_where (p : EvidenceRow -> bool) (d : EvidenceDb) : Z := countb p (rows_of d).

(** [max(names, key=policy_version_key, default=None)] over distinct names; every key is computed. *)
Definition highest_version `{Digits} (names : list string) : result (option string) :=
  keyed ← map_ok (fun v => k ← policy_version_key v; Ok (k, v)) names;
  match keyed with
  | [] => Ok None
  | kv :: rest => Ok (Some (py_max_from (ltb_of (cmp_on fst (cmp_pair (cmp_list Z.compare) String.compare))) kv rest).2)
  end.

(** The most recently imported source; a row never imported sorts by the dialect's rule for NULLs. *)
Definition latest_source (nulls_first : bool) (sources : list SourceRow) : option SourceRow :=
  let key s := match so_last_import_at s with Some t => (1, t) | None => ((if nulls_first then 2 else 0), 0) end in
  match sources with
  | [] => None
  | s :: rest => Some (py_max_from (ltb_of (cmp_on key (cmp_pair Z.compare Z.compare))) s rest)
  end.

Definition evidence_overview `{Digits} (configured_url : string) (nulls_first : bool) (d : EvidenceDb)
  : result EvidenceOverview :=
  let distinct f := elements (list_to_set (map f (rows_of d)) : gset string) in
  policy ← highest_version (distinct (fun r => ec_policy_version (er_candidate r)));
  vocabulary ← highest_version (distinct er_vocabulary_version);
  let named := if bool_decide (configured_url = "") then None else source_for_url (ed_sources d) configured_url in
  let source := match named with Some s => Some s | None => latest_source nulls_first (ed_sources d) end in
  let measured := map (fun r => ec_measured_at (er_candidate r)) (rows_of d) in
  let state s := rows_where (fun r => bool_decide (er_match_state r = s)) d in
  Ok (mkOverview (negb (bool_decide (configured_url = ""))) (source ≫= so_last_status) (zlen (rows_of d))
        (state "bound") (state "unmatched") (state "ambiguous_name_only") (rows_where er_stale d)
        (sql_max (map er_imported_at (rows_of d))) (source ≫= so_generated_at) (sql_min measured) (sql_max measured)
        (source ≫= so_schema_version) policy vocabulary (source ≫= so_error_text)).

Record SourceStatus := mkSourceStatus {
  ss_source : SourceRow;
  ss_rows : Z;
  ss_stale_rows : Z;
  ss_newest_measured_at : option Z;
  ss_configured : bool
}.

Definition list_sources (configured_url : string) (d : EvidenceDb) : list SourceStatus :=
  map (fun s =>
      let own := List.filter (fun r => bool_decide (er_source_id r = so_id s)) (rows_of d) in
      mkSourceStatus s (zlen own) (countb er_stale own) (sql_max (map (fun r => ec_measured_at (er_candidate r)) own))
        (negb (bool_decide (configured_url = "")) && bool_decide (so_url s = Some configured_url)))
    (py_sorted (leb_of (cmp_on so_source_key String.compare)) (ed_sources d)).

Definition MAX_EVIDENCE_LIMIT : Z := 500.
Definition DEFAULT_EVIDENCE_LIMIT : Z := 50.

Record EvidenceQuery := mkEvidenceQuery {
  eq_capability : option string;
  eq_model : option string;
  eq_match_state : option string;
  eq_min_confidence : option f64;
  eq_stale : option bool;
  eq_limit : Z;
  eq_cursor : option string
}.

(** A filter on a string is applied when it is neither absent nor empty. *)
Definition string_filter (f : option string) (v : string) : bool :=
  match f with Some s => bool_decide (s = "") || bool_decide (v = s) | None => true end.

Definition query_admits (q : EvidenceQuery) (r : EvidenceRow) : bool :=
  string_filter (eq_capability q) (ec_capability_id (er_candidate r)) && string_filter (eq_model q) (er_canonical_id r) &&
  string_filter (eq_match_state q) (er_match_state r) &&
  match eq_min_confidence q with Some c => c <=? ec_confidence (er_candidate r) | None => true end &&
  match eq_stale q with Some b => Bool.eqb (er_stale r) b | None => true end.

Definition row_id (r : EvidenceRow) : string := ec_row_id (er_candidate r).

Definition after_cursor (q : EvidenceQuery) (r : EvidenceRow) : bool :=
  match eq_cursor q with
  | Some c => bool_decide (c = "") || bool_decide (String.compare c (row_id r) = Lt)
  | None => true
  end.

(** A row as it is shown: with its age and its producer. *)
Record EvidenceItem := mkEvidenceItem { ei_row : EvidenceRow; ei_subject : string; ei_age_days : Z; ei_source_key : string }.

Record EvidencePage := mkEvidencePage {
  ep_items : list EvidenceItem;
  ep_limit : Z;
  ep_next_cursor : option string;
  ep_has_more : bool;
  ep_total : Z
}.

Definition evidence_item (d : EvidenceDb) (now : Z) (r : EvidenceRow) : EvidenceItem :=
  mkEvidenceItem r (row_subject_canonical_id r) (whole_days (total_seconds (now - ec_measured_at (er_candidate r))))
    (match find_first (fun s => bool_decide (so_id s = er_source_id r)) (ed_sources d) with
     | Some s => so_source_key s | None => er_source_id r end).

Definition page_limit (q : EvidenceQuery) : Z := Z.max 1 (Z.min (eq_limit q) MAX_EVIDENCE_LIMIT).

(** The matching rows after the cursor, by id. *)
Definition rows_from (d : EvidenceDb) (q : EvidenceQuery) : list EvidenceRow :=
  py_sorted (leb_of (cmp_on row_id String.compare))
    (List.filter (fun r => query_admits q r && after_cursor q r) (rows_of d)).

Definition query_evidence (d : EvidenceDb) (q : EvidenceQuery) (now : Z) : EvidencePage :=
  let limit := page_limit q in
  let rows := take (Z.to_nat (limit + 1)) (rows_from d q) in
  let has_more := limit <? zlen rows in
  let items := map (evidence_item d now) (take (Z.to_nat limit) rows) in
  mkEvidencePage items limit
    (if has_more then (fun i => row_id (ei_row i)) <$> last items else None) has_more (rows_where (query_admits q) d).

Record CapabilityCoverage := mkCoverage {
  cv_capability_id : string;
  cv_models : Z;
  cv_bound : Z;
  cv_stale : Z;
  cv_best_score : option f64;
  cv_best_confidence : option f64;
  cv_newest_measured_at : option Z;
  cv_oldest_measured_at : option Z
}.

Definition coverage_of (group : string * list EvidenceRow) : CapabilityCoverage :=
  let rows := group.2 in
  let bound := List.filter (fun r => bool_decide (er_match_state r = "bound")) rows in
  let best := match bound with
              | [] => None
              | r :: rest => Some (py_max_from (fun a b => ec_score (er_candidate a) <? ec_score (er_candidate b)) r rest)
              end in
  let measured := map (fun r => ec_measured_at (er_candidate r)) rows in
  mkCoverage group.1
    (zlen (elements (list_to_set (map (fun r => (er_canonical_id r, er_adapter_artifact_digest r)) rows) : gset (string * string))))
    (zlen bound) (countb er_stale rows) ((fun r => ec_score (er_candidate r)) <$> best)
    ((fun r => ec_confidence (er_candidate r)) <$> best) (sql_max measured) (sql_min measured).

Definition capability_coverage (d : EvidenceDb) : list CapabilityCoverage :=
  map coverage_of (py_sorted (leb_of (cmp_on fst String.compare))
                     (group_by (fun r => ec_capability_id (er_candidate r)) (rows_of d))).
