(* ===== verification/EvidenceImport.v ===== *)
(** * What an import leaves

    The theory of [import_bundle]: the counts it reports, the row each record becomes, what happens to the
    rows the bundle does not carry, and that a refused bundle changes nothing. *)

From Stdlib Require Import Ascii String.
From S2P Require Import Prelude PyFloat PyStr Json Ordering Authorization EvidencePolicy Reliability EvidenceStore.
#[local] Open Scope string_scope.
#[local] Open Scope list_scope.
#[local] Open Scope Z_scope.

(** ** Lemmas: the import loop *)

Definition row_key (r : EvidenceRow) : EvidenceKey :=
  (er_source_id r, er_canonical_id r, er_adapter_artifact_digest r, ec_runtime_profile_hash (er_candidate r),
   ec_machine_fingerprint (er_candidate r), ec_capability_id (er_candidate r), ec_policy_version (er_candidate r)).

(** Every row is stored under its own key. *)
Definition keyed_rows (rows : gmap EvidenceKey EvidenceRow) : Prop := forall k r, rows !! k = Some r -> row_key r = k.

Lemma keyed_fmap (f : EvidenceRow -> EvidenceRow) (rows : gmap EvidenceKey EvidenceRow) :
  (forall r, row_key (f r) = row_key r) -> keyed_rows rows -> keyed_rows (f <$> rows).
Proof.
  intros Hf Hk k r. rewrite lookup_fmap. destruct (rows !! k) as [r0|] eqn:E; [|done]. intros [= <-].
  rewrite Hf. by apply Hk.
Qed.

Lemma row_key_badge stale reason r : row_key (with_badge stale reason r) = row_key r.
Proof. done. Qed.

Section import_lemmas.
Context `{HalfPow} `{PyEq} (adapters : list LocalAdapter) (existing : gset EvidenceKey) (source : string) (now : Z)
  (environment : option (list (string * json))) (new_row_id : Z -> string).

Abbreviation step := (import_record adapters existing source now environment new_row_id).
Abbreviation key_of := (fun ir : Z * CapabilityEvidenceFields => uniqueness_key ir.2 source).

(** [row] is what importing the record [r] at position [i] stores over [old]. *)
Definition imported_row (old : option EvidenceRow) (i : Z) (r : CapabilityEvidenceFields) (row : EvidenceRow) : Prop :=
  exists models, row = row_values r (bind_identity (identity_of r) (map local_model models) adapters)
    (match old with Some o => ec_row_id (er_candidate o) | None => new_row_id i end) source now environment.

Definition accepted (s : ImportState) : Z := im_imported s + im_updated s.

Lemma import_step s ir :
  let s' := step s ir in
  if bool_decide (key_of ir ∈ im_seen s)
  then im_rows s' = im_rows s /\ im_seen s' = im_seen s /\ accepted s' = accepted s /\ im_imported s' = im_imported s /\
       im_bound s' + im_unmatched s' + im_ambiguous s' = im_bound s + im_unmatched s + im_ambiguous s /\
       im_upgraded s' = im_upgraded s /\
       im_rejected s' = im_rejected s ++
         [mkRejected ir.1 (Some (ef_canonical_id ir.2)) (Some (ef_capability_id ir.2)) DUPLICATE_RECORD]
  else (exists row, imported_row (im_rows s !! key_of ir) ir.1 ir.2 row /\ im_rows s' = <[key_of ir := row]> (im_rows s)) /\
       im_seen s' = key_of ir :: im_seen s /\ accepted s' = accepted s + 1 /\
       im_imported s' = add_if (negb (bool_decide (key_of ir ∈ existing))) (im_imported s) /\
       im_bound s' + im_unmatched s' + im_ambiguous s' = im_bound s + im_unmatched s + im_ambiguous s + 1 /\
       im_upgraded s <= im_upgraded s' <= im_upgraded s + 1 /\ im_rejected s' = im_rejected s.
Proof.
  destruct ir as [i r]. cbn. unfold import_record. case_bool_decide as Hseen; cbn.
  - unfold accepted. cbn. repeat split; lia.
  - set (b := bind_identity _ _ _). destruct (apply_upgrade b (ef_canonical_id r) (im_models s)) as [models upgraded] eqn:Eu.
    cbn. unfold accepted. cbn. split; [eexists; split; [by exists (im_models s)|done]|].
    split; [done|]. split; [|split; [done|split; [|split; [|done]]]].
    + unfold add_if. case_bool_decide; cbn; lia.
    + unfold add_if. destruct (bi_match_state b); repeat case_bool_decide; try done; lia.
    + destruct upgraded; cbn; lia.
Qed.

Lemma row_values_key r b id : row_key (row_values r b id source now environment) = uniqueness_key r source.
Proof. done. Qed.

(** The whole loop. *)
Lemma import_loop l s :
  let s' := fold_left step l s in
  accepted s' + zlen (im_rejected s') = accepted s + zlen (im_rejected s) + zlen l /\
  im_bound s' + im_unmatched s' + im_ambiguous s' - accepted s' = (im_bound s + im_unmatched s + im_ambiguous s) - accepted s /\
  (forall k, k ∈ im_seen s' <-> k ∈ im_seen s \/ k ∈ map key_of l) /\
  im_upgraded s <= im_upgraded s' <= im_upgraded s + (accepted s' - accepted s) /\
  (forall k, k ∈ im_seen s \/ k ∉ map key_of l -> im_rows s' !! k = im_rows s !! k) /\
  (forall k, k ∉ im_seen s -> k ∈ map key_of l ->
     exists before i r after row, l = before ++ ((i, r) :: after) /\ uniqueness_key r source = k /\ k ∉ map key_of before /\
       im_rows s' !! k = Some row /\ imported_row (im_rows s !! k) i r row).
Proof.
  revert s. induction l as [|ir l IH]; intros s; cbn [fold_left].
  { cbn. unfold zlen. cbn. split; [lia|]. split; [lia|]. split; [intros k; rewrite elem_of_nil; tauto|]. split; [lia|]. split; [done|].
    by intros k _ ?%elem_of_nil. }
  pose proof (import_step s ir) as Hstep. specialize (IH (step s ir)). cbn zeta in Hstep, IH |- *.
  destruct IH as (I1 & I2 & I3 & I4 & I5 & I6). set (s' := fold_left step l (step s ir)) in *. set (s1 := step s ir) in *.
  assert (Hl : zlen (ir :: l) = zlen l + 1) by (unfold zlen; cbn; lia).
  destruct (decide (key_of ir ∈ im_seen s)) as [Hseen|Hseen];
    [rewrite (bool_decide_eq_true_2 (key_of ir ∈ im_seen s)) in Hstep by done
    |rewrite (bool_decide_eq_false_2 (key_of ir ∈ im_seen s)) in Hstep by done].
  - destruct Hstep as (E1 & E2 & E3 & _ & E4 & E5 & E6). rewrite E1, E2 in *.
    assert (Hr : zlen (im_rejected s1) = zlen (im_rejected s) + 1).
    { rewrite E6. unfold zlen. rewrite length_app. cbn. lia. }
    split; [lia|]. split; [lia|]. split.
    { intros k. rewrite I3. cbn. rewrite elem_of_cons. naive_solver. }
    split; [lia|]. split.
    { intros k Hk. apply I5. destruct Hk as [?|Hk]; [by left|right]. cbn in Hk. by rewrite elem_of_cons in Hk; tauto. }
    intros k Hk Hin. cbn in Hin. apply elem_of_cons in Hin as [->|Hin]; [done|].
    destruct (I6 k Hk Hin) as (before & i & r & after & row & -> & Hr1 & Hr2 & Hr3 & Hr4).
    exists (ir :: before), i, r, after, row. split; [done|]. split; [done|]. split; [|by split].
    cbn. intros [->|?]%elem_of_cons; [by apply Hk|done].
  - destruct Hstep as ((row & Himp & E1) & E2 & E3 & _ & E4 & E5 & E6). rewrite E1, E2 in *. rewrite E6 in I1.
    split; [lia|]. split; [lia|]. split.
    { intros k. rewrite I3, elem_of_cons. cbn. rewrite elem_of_cons. tauto. }
    split; [lia|]. split.
    { intros k Hk. assert (Hne : k <> key_of ir).
      { intros ->. destruct Hk as [?|Hk]; [done|]. apply Hk. cbn. left. }
      rewrite I5; [by rewrite lookup_insert_ne|]. rewrite elem_of_cons. destruct Hk as [?|Hk]; [tauto|right].
      cbn in Hk. rewrite elem_of_cons in Hk. tauto. }
    intros k Hk Hin. destruct (decide (k = key_of ir)) as [->|Hne].
    + exists [], ir.1, ir.2, l, row. split; [by destruct ir|]. split; [done|]. split; [apply not_elem_of_nil|].
      split; [|done]. rewrite I5 by (left; left). by rewrite lookup_insert_eq.
    + cbn in Hin. apply elem_of_cons in Hin as [?|Hin]; [done|].
      destruct (I6 k) as (before & i & r & after & row' & -> & Hr1 & Hr2 & Hr3 & Hr4); [|done|].
      { by rewrite elem_of_cons; intros [?|?]. }
      exists (ir :: before), i, r, after, row'. split; [done|]. split; [done|]. split.
      { cbn. by intros [?|?]%elem_of_cons. }
      split; [done|]. by rewrite lookup_insert_ne in Hr4 by done.
Qed.

(** The rows counted as new are the rows added. *)
Lemma import_loop_size l s :
  (forall k, key_source k = source -> k ∉ im_seen s -> k ∈ existing <-> is_Some (im_rows s !! k)) ->
  let s' := fold_left step l s in
  Z.of_nat (size (im_rows s')) - im_imported s' = Z.of_nat (size (im_rows s)) - im_imported s.
Proof.
  revert s. induction l as [|ir l IH]; intros s Hex; cbn [fold_left]; [done|].
  pose proof (import_step s ir) as Hstep. cbn zeta in Hstep |- *. set (s1 := step s ir) in *.
  destruct (decide (key_of ir ∈ im_seen s)) as [Hseen|Hseen];
    [rewrite (bool_decide_eq_true_2 (key_of ir ∈ im_seen s)) in Hstep by done
    |rewrite (bool_decide_eq_false_2 (key_of ir ∈ im_seen s)) in Hstep by done].
  - destruct Hstep as (E1 & E2 & _ & E3 & _). rewrite (IH s1); [by rewrite E1, E3|]. by rewrite E1, E2.
  - destruct Hstep as ((row & _ & E1) & E2 & _ & E3 & _). rewrite (IH s1).
    + rewrite E1, E3. pose proof (Hex (key_of ir) eq_refl Hseen) as Hx. unfold add_if.
      destruct (decide (key_of ir ∈ existing)) as [Hin|Hin].
      * rewrite bool_decide_eq_true_2 by done. cbn. rewrite map_size_insert_Some by (by apply Hx). lia.
      * rewrite bool_decide_eq_false_2 by done. cbn. rewrite map_size_insert_None; [lia|].
        apply eq_None_not_Some. by rewrite <- Hx.
    + intros k Hk Hns. rewrite E2, elem_of_cons in Hns. rewrite E1, lookup_insert_ne by naive_solver. apply Hex; tauto.
Qed.
End import_lemmas.

(** ** Lemmas: a written bundle *)

Section write_lemmas.
Context `{HalfPow} `{PyEq}.

(** A measurement's own staleness names neither its source nor its successor. *)
Lemma own_reason measured_at now c drift reason :
  st_reason (evaluate_staleness measured_at now c drift false false) = Some reason ->
  reason <> "source_unreachable" /\ reason <> "superseded".
Proof.
  unfold evaluate_staleness. destruct drift as [field|]; cbn.
  - intros [= <-]. split; discriminate.
  - destruct (_ <? _); [intros [= <-]; split; discriminate|done].
Qed.

Lemma clear_badge_key source now r : row_key (clear_badge source now r) = row_key r.
Proof. unfold clear_badge. by case_match. Qed.

Lemma supersede_key r : row_key (supersede r) = row_key r.
Proof. unfold supersede. by case_match. Qed.

Lemma clear_badge_other source now r :
  er_source_id r <> source \/ er_stale_reason r <> Some "source_unreachable" -> clear_badge source now r = r.
Proof. intros Hr. unfold clear_badge. rewrite <- bool_decide_and, bool_decide_eq_false_2; [done|tauto]. Qed.

(** Badges never touch the measurement, its identity or its binding. *)
Definition same_measurement (r r' : EvidenceRow) : Prop :=
  er_candidate r' = er_candidate r /\ er_model_id r' = er_model_id r /\ er_adapter_id r' = er_adapter_id r /\
  er_match_state r' = er_match_state r /\ row_key r' = row_key r /\ er_record r' = er_record r.

Lemma same_measurement_refl r : same_measurement r r.
Proof. by repeat split. Qed.

Lemma clear_badge_same source now r : same_measurement r (clear_badge source now r).
Proof. unfold clear_badge. case_match; by repeat split. Qed.

Lemma supersede_same r : same_measurement r (supersede r).
Proof. unfold supersede. case_match; by repeat split. Qed.

Lemma same_measurement_trans a b c : same_measurement a b -> same_measurement b c -> same_measurement a c.
Proof. intros (?&?&?&?&?&?) (?&?&?&?&?&?). repeat split; congruence. Qed.

Lemma superseded_reason r : er_stale_reason (supersede r) = Some "superseded".
Proof. unfold supersede. by case_bool_decide. Qed.

Lemma elem_of_existing rows source k :
  k ∈ existing_keys rows source <-> exists r, rows !! k = Some r /\ er_source_id r = source.
Proof.
  unfold existing_keys. rewrite elem_of_dom. split.
  - intros [r Hr]. apply map_lookup_filter_Some in Hr as [? ?]. by exists r.
  - intros (r & Hr & Hs). exists r. by apply map_lookup_filter_Some.
Qed.

(** The id of the source a bundle is filed under is kept by the later count. *)
Definition written_source (new_id source_key kind : string) (url : option string) (version : string) (generated : option Z)
    (now : Z) (d : EvidenceDb) : string :=
  (upsert_source new_id source_key kind url version generated now (ed_sources d)).2.

Context (validated : list (Z * CapabilityEvidenceFields)) (rejected : list RejectedRecord) (source_key source_kind : string)
  (url : option string) (complete : bool) (total : Z) (schema_version : string) (generated_at : option Z) (now : Z)
  (environment : option (list (string * json))) (new_source_id : string) (new_row_id : Z -> string) (d : EvidenceDb).

Let source := written_source new_source_id source_key source_kind url schema_version generated_at now d.
Let existing := existing_keys (ed_rows d) source.
Let final := fold_left (import_record (ed_adapters d) existing source now environment new_row_id) validated
               (mkImportState (ed_models d) (ed_rows d) [] rejected 0 0 0 0 0 0).
Let written := write_bundle validated rejected source_key source_kind url complete total schema_version generated_at now
                 environment new_source_id new_row_id d.
Let carried (k : EvidenceKey) : Prop := k ∈ map (fun ir : Z * CapabilityEvidenceFields => uniqueness_key ir.2 source) validated.

Lemma write_outcome :
  io_source_row_id written.2 = source /\ io_total written.2 = total /\ io_complete written.2 = complete /\
  io_imported written.2 = im_imported final /\ io_updated written.2 = im_updated final /\
  io_bound written.2 = im_bound final /\ io_unmatched written.2 = im_unmatched final /\
  io_ambiguous written.2 = im_ambiguous final /\ io_upgraded_models written.2 = im_upgraded final /\
  io_rejected written.2 = im_rejected final /\ ed_models written.1 = im_models final /\ ed_adapters written.1 = ed_adapters d /\
  (complete = false -> io_superseded written.2 = 0).
Proof.
  unfold written, write_bundle, final, existing, source, written_source.
  destruct (upsert_source _ _ _ _ _ _ _ _) as [sources src]. cbn. do 12 (split; [done|]). by intros ->.
Qed.

Lemma written_lookup k :
  ed_rows written.1 !! k =
    (fun r => let c := clear_badge source now r in
              if bool_decide (complete = true /\ k ∈ existing /\ ~ carried k) then supersede c else c)
      <$> im_rows final !! k.
Proof.
  unfold written, write_bundle. fold source. unfold source, written_source, final, existing in *.
  destruct (upsert_source _ _ _ _ _ _ _ _) as [sources src] eqn:Eu. cbn [fst snd ed_rows].
  rewrite map_lookup_imap, lookup_fmap. set (fin := fold_left _ validated _).
  destruct (im_rows fin !! k) as [r|]; [|done]. cbn. f_equal.
  pose proof (import_loop (ed_adapters d) (existing_keys (ed_rows d) src) src now environment new_row_id validated
    (mkImportState (ed_models d) (ed_rows d) [] rejected 0 0 0 0 0 0)) as (_ & _ & Hseen & _). fold fin in Hseen.
  apply (f_equal (fun b : bool => if b then _ else _)). apply bool_decide_ext.
  destruct complete; [|split; [by intros ?%elem_of_empty|by intros [[=] _]]].
  rewrite elem_of_difference, (elem_of_list_to_set (C := gset EvidenceKey)), Hseen. cbn [im_seen].
  rewrite elem_of_nil. unfold carried, source, written_source. tauto.
Qed.

(** A key the bundle does not carry. *)
Lemma not_carried k : ~ carried k -> im_rows final !! k = ed_rows d !! k.
Proof.
  intros Hk. unfold final.
  destruct (import_loop (ed_adapters d) existing source now environment new_row_id validated
    (mkImportState (ed_models d) (ed_rows d) [] rejected 0 0 0 0 0 0)) as (_ & _ & _ & _ & Hrows & _).
  rewrite Hrows; [done|]. by right.
Qed.

Lemma carried_row k : carried k ->
  exists before i r after row, validated = before ++ ((i, r) :: after) /\ uniqueness_key r source = k /\
    (forall ir, ir ∈ before -> uniqueness_key ir.2 source <> k) /\
    ed_rows written.1 !! k = Some row /\
    imported_row (ed_adapters d) source now environment new_row_id (ed_rows d !! k) i r row.
Proof.
  intros Hk. destruct (import_loop (ed_adapters d) existing source now environment new_row_id validated
    (mkImportState (ed_models d) (ed_rows d) [] rejected 0 0 0 0 0 0)) as (_ & _ & _ & _ & _ & Hrows).
  destruct (Hrows k) as (before & i & r & after & row & Hl & Hr & Hb & E & Himp); [apply not_elem_of_nil|done|].
  fold final in E. exists before, i, r, after, row. split; [done|]. split; [done|]. split.
  { intros ir Hir Hkey. apply Hb. apply list_elem_of_fmap. by exists ir. }
  split; [|done]. rewrite written_lookup, E. cbn. rewrite bool_decide_eq_false_2 by tauto. f_equal.
  apply clear_badge_other. right. destruct Himp as [models ->]. cbn. intros Hreason. by apply own_reason in Hreason as [? _].
Qed.
End write_lemmas.

(** ** Lemmas: validation *)

Section validation.
Context `{SetSpec}.

Lemma validate_count idx raw :
  zlen (validate_records idx raw).1 + zlen (validate_records idx raw).2 = zlen raw.
Proof.
  revert idx. induction raw as [|x raw IH]; intros idx; cbn; [done|]. specialize (IH (idx + 1)).
  destruct (validate_records (idx + 1) raw) as [v j]. destruct (validate_record x); unfold zlen in *; cbn in *; lia.
Qed.

Lemma validate_complete idx raw n x r :
  raw !! n = Some x -> validate_record x = Some r -> (idx + Z.of_nat n, r) ∈ (validate_records idx raw).1.
Proof.
  revert idx n. induction raw as [|y raw IH]; intros idx n Hn Hr; [done|]. cbn.
  pose proof (IH (idx + 1)) as IH'. destruct (validate_records (idx + 1) raw) as [v j].
  destruct n as [|n]; cbn in Hn.
  - injection Hn as ->. rewrite Hr. cbn. rewrite Z.add_0_r. left.
  - specialize (IH' n Hn Hr). replace (idx + Z.of_nat (S n)) with (idx + 1 + Z.of_nat n) by lia.
    destruct (validate_record y); cbn; [by right|done].
Qed.

Lemma validate_split idx raw before i r after :
  (validate_records idx raw).1 = before ++ ((i, r) :: after) ->
  exists n x, i = idx + Z.of_nat n /\ raw !! n = Some x /\ validate_record x = Some r /\
    forall n' x' r', (n' < n)%nat -> raw !! n' = Some x' -> validate_record x' = Some r' -> (idx + Z.of_nat n', r') ∈ before.
Proof.
  revert idx before. induction raw as [|y raw IH]; intros idx before E; cbn in E; [by destruct before|].
  pose proof (IH (idx + 1)) as IH'. destruct (validate_records (idx + 1) raw) as [v j]. cbn in IH'.
  destruct (validate_record y) as [ry|] eqn:Ey; cbn in E.
  - destruct before as [|b before]; cbn in E.
    + injection E as <- <- _. exists 0%nat, y. split; [lia|]. split; [done|]. split; [done|]. lia.
    + injection E as <- E. destruct (IH' before E) as (n & x & -> & Hn & Hr & Hb). exists (S n), x.
      split; [lia|]. split; [done|]. split; [done|]. intros [|n'] x' r' Hlt Hn' Hr'; cbn in Hn'.
      * injection Hn' as ->. rewrite Ey in Hr'. injection Hr' as ->. rewrite Z.add_0_r. left.
      * right. replace (idx + Z.of_nat (S n')) with (idx + 1 + Z.of_nat n') by lia. apply (Hb n' x'); [lia|done..].
  - destruct (IH' before E) as (n & x & -> & Hn & Hr & Hb). exists (S n), x.
    split; [lia|]. split; [done|]. split; [done|]. intros [|n'] x' r' Hlt Hn' Hr'; cbn in Hn'; [congruence|].
    replace (idx + Z.of_nat (S n')) with (idx + 1 + Z.of_nat n') by lia. apply (Hb n' x'); [lia|done..].
Qed.

(** The [n]th element of a bundle is valid, with key [k] and no earlier one with that key. *)
Definition first_with (raw : list json) (source : string) (k : EvidenceKey) (n : nat) (r : CapabilityEvidenceFields) : Prop :=
  (exists x, raw !! n = Some x /\ validate_record x = Some r) /\ uniqueness_key r source = k /\
  forall n' x' r', (n' < n)%nat -> raw !! n' = Some x' -> validate_record x' = Some r' -> uniqueness_key r' source <> k.

Lemma first_with_unique raw source k n r n' r' :
  first_with raw source k n r -> first_with raw source k n' r' -> n = n' /\ r = r'.
Proof.
  intros ((x & Hx & Hr) & Hk & Hm) ((x' & Hx' & Hr') & Hk' & Hm').
  destruct (lt_eq_lt_dec n n') as [[Hlt|Heq]|Hlt].
  - by destruct (Hm' n x r Hlt Hx Hr).
  - subst n'. split; congruence.
  - by destruct (Hm n' x' r' Hlt Hx' Hr').
Qed.

Lemma first_with_carried raw source k n r :
  first_with raw source k n r ->
  k ∈ map (fun ir : Z * CapabilityEvidenceFields => uniqueness_key ir.2 source) (validate_records 0 raw).1.
Proof.
  intros ((x & Hx & Hr) & <- & _). apply list_elem_of_fmap. exists (Z.of_nat n, r). split; [done|].
  exact (validate_complete 0 raw n x r Hx Hr).
Qed.

Lemma split_first raw source k before i r after :
  (validate_records 0 raw).1 = before ++ ((i, r) :: after) -> uniqueness_key r source = k ->
  (forall ir, ir ∈ before -> uniqueness_key ir.2 source <> k) ->
  exists n, i = Z.of_nat n /\ first_with raw source k n r.
Proof.
  intros E Hk Hb. destruct (validate_split _ _ _ _ _ _ E) as (n & x & -> & Hn & Hr & Hbefore). exists n.
  split; [lia|]. split; [by exists x|]. split; [done|]. intros n' x' r' Hlt Hx' Hr'.
  exact (Hb (0 + Z.of_nat n', r') (Hbefore n' x' r' Hlt Hx' Hr')).
Qed.
End validation.

(** What an import that returns has done: the payload it read and the bundle it wrote. *)
Lemma import_bundle_Ok `{HalfPow} `{PyEq} `{SetSpec} document now majors kind url environment principal new_source_id
    new_row_id d d' o :
  import_bundle document now majors kind url environment principal new_source_id new_row_id d = (d', Ok o) ->
  exists envelope payload source_key complete raw,
    authorize principal "admin" = Ok principal /\
    load_envelope document majors = Negotiated envelope /\ en_payload envelope = JObj payload /\
    assoc "source_id" payload = Some (JStr source_key) /\ assoc "complete" payload = Some (JBool complete) /\
    default (JArr []) (assoc "evidence" payload) = JArr raw /\
    (d', o) = write_bundle (validate_records 0 raw).1 (validate_records 0 raw).2 source_key kind url complete (zlen raw)
                (en_schema_version envelope) (en_generated_at envelope) now environment new_source_id new_row_id d.
Proof.
  unfold import_bundle. intros E.
  destruct (authorize_cases principal "admin") as [Ea|(q & _ & Ea)]; [by eexists|..]; rewrite Ea in E; cbn in E; [|done].
  unfold negotiate in E. destruct (match document with Text _ => _ | Parsed _ => _ end); cbn in E; [done|].
  destruct (load_envelope document majors) as [envelope| |] eqn:El; cbn in E; [|done..].
  destruct (en_payload envelope) as [| | | | | |payload] eqn:Ep; try done.
  destruct (assoc "source_id" payload) as [[| | | |source_key| |]|] eqn:Es; try done.
  case_bool_decide; [done|]. destruct (assoc "complete" payload) as [[|complete| | | | |]|] eqn:Ec; try done.
  destruct (default (JArr []) (assoc "evidence" payload)) as [| | | | |raw|] eqn:Er; try done.
  destruct (validate_records 0 raw) as [validated rejected] eqn:Ev. exists envelope, payload, source_key, complete, raw.
  rewrite Ev. cbn. destruct (write_bundle _ _ _ _ _ _ _ _ _ _ _ _ _ _) as [d1 o1]. injection E as <- <-. done.
Qed.

Lemma import_bundle_Raise `{HalfPow} `{PyEq} `{SetSpec} document now majors kind url environment principal new_source_id
    new_row_id d d' e :
  import_bundle document now majors kind url environment principal new_source_id new_row_id d = (d', Raise e) -> d' = d.
Proof.
  unfold import_bundle. destruct (_ ← authorize principal "admin"; _) as [[[[envelope key] complete] raw]|e']; [|by intros [= <- _]].
  destruct (validate_records 0 raw). destruct (write_bundle _ _ _ _ _ _ _ _ _ _ _ _ _ _). by intros [= ? ?].
Qed.

(** A fresh producer's bundle, and the same one again without its second record. *)
Definition sample_setspec : SetSpec := {|
  MAX_PAYLOAD_BYTES := 1000;
  load_envelope doc _ := match doc with
                         | Parsed (JObj p) => Negotiated (mkEnvelope (JObj p) "1.0" (Some 5))
                         | _ => EnvelopeInvalid end;
  validate_record x := match x with
                       | JStr c => Some (mkEvidenceFields "llamacpp" "m" (Some "sha") "base:a" None "h1" "here" c "1.0.0" "1.0.0"
                                     (flit 9 10) (flit 8 10) 40 0 0 [] None None x)
                       | _ => None end
|}.
Definition sample_half_pow : HalfPow := {| half_pow := fun _ => fone |}.
Definition sample_py_eq : PyEq := {| py_ne := fun _ _ => false |}.
Definition empty_db : EvidenceDb := mkEvidenceDb [] [] ∅ [].
Definition sample_bundle (records : list json) : Document :=
  Parsed (JObj [("source_id", JStr "fw"); ("complete", JBool true); ("evidence", JArr records)]).
Definition sample_import (records : list json) (d : EvidenceDb) : EvidenceDb * result ImportOutcome :=
  @import_bundle sample_half_pow sample_py_eq sample_setspec (sample_bundle records) 7 [1] "file" None None None "s1"
    (fun i => "r" +:+ pretty i) d.

Lemma empty_keyed : keyed_rows (ed_rows empty_db).
Proof. intros k r Hr. change ((∅ : gmap EvidenceKey EvidenceRow) !! k = Some r) in Hr. by rewrite lookup_empty in Hr. Qed.

(** ** Lemmas: what a bundle leaves *)

Lemma size_pointwise {A} (f : EvidenceKey -> A -> A) (m m' : gmap EvidenceKey A) :
  (forall k, m' !! k = f k <$> m !! k) -> size m' = size m.
Proof.
  intros Hf. rewrite <- !(size_dom (D := gset EvidenceKey)). f_equal. apply set_eq. intros k.
  by rewrite !elem_of_dom, Hf, fmap_is_Some.
Qed.

Lemma row_key_source r k : row_key r = k -> er_source_id r = key_source k.
Proof. by intros <-. Qed.

Lemma existing_spec rows source : keyed_rows rows -> forall k : EvidenceKey, key_source k = source ->
  k ∈ existing_keys rows source <-> is_Some (rows !! k).
Proof.
  intros Hk k Hs. rewrite elem_of_existing. split; [intros (r & -> & _); by eexists|].
  intros [r Hr]. exists r. split; [done|]. rewrite (row_key_source r k); [done|by apply Hk].
Qed.

Section bundle.
Context `{HalfPow} `{PyEq} `{SetSpec} (document : Document) (now : Z) (majors : list Z) (kind : string) (url : option string)
  (environment : option (list (string * json))) (principal : option Principal) (new_source_id : string)
  (new_row_id : Z -> string) (d d' : EvidenceDb) (o : ImportOutcome).
Hypothesis Himport :
  import_bundle document now majors kind url environment principal new_source_id new_row_id d = (d', Ok o).
Hypothesis Hkeyed : keyed_rows (ed_rows d).

(** The elements of the bundle that was read. *)
Definition bundle_records (raw : list json) : Prop :=
  exists envelope payload, load_envelope document majors = Negotiated envelope /\ en_payload envelope = JObj payload /\
    default (JArr []) (assoc "evidence" payload) = JArr raw /\ assoc "complete" payload = Some (JBool (io_complete o)).

Lemma bundle_accounting :
  exists raw, bundle_records raw /\ io_total o = zlen raw /\
    io_imported o + io_updated o + zlen (io_rejected o) = io_total o /\
    io_bound o + io_unmatched o + io_ambiguous o = io_imported o + io_updated o /\
    0 <= io_upgraded_models o <= io_imported o + io_updated o /\
    Z.of_nat (size (ed_rows d')) = Z.of_nat (size (ed_rows d)) + io_imported o.
Proof using Himport Hkeyed.
  destruct (import_bundle_Ok _ _ _ _ _ _ _ _ _ _ _ _ Himport) as (envelope & payload & source_key & complete & raw & _ & Hl & Hp & _ & Hc & Hr & Hw).
  exists raw. pose proof (write_outcome (validate_records 0 raw).1 (validate_records 0 raw).2 source_key kind url complete
    (zlen raw) (en_schema_version envelope) (en_generated_at envelope) now environment new_source_id new_row_id d) as Ho.
  pose proof (written_lookup (validate_records 0 raw).1 (validate_records 0 raw).2 source_key kind url complete
    (zlen raw) (en_schema_version envelope) (en_generated_at envelope) now environment new_source_id new_row_id d) as Hk.
  rewrite <- Hw in Ho, Hk. cbn [fst snd] in Ho, Hk.
  set (src := written_source _ _ _ _ _ _ _ _) in *. set (ex := existing_keys _ _) in *.
  set (s0 := mkImportState _ _ _ _ _ _ _ _ _ _) in *.
  pose proof (import_loop (ed_adapters d) ex src now environment new_row_id (validate_records 0 raw).1 s0) as (I1 & I2 & _ & I3 & _).
  pose proof (import_loop_size (ed_adapters d) ex src now environment new_row_id (validate_records 0 raw).1 s0) as Hsize.
  set (s := fold_left _ _ s0) in *. unfold accepted in *.
  destruct Ho as (_ & -> & Hoc & -> & -> & -> & -> & -> & -> & -> & _).
  pose proof (validate_count 0 raw) as Hv. cbn [im_imported im_updated im_rejected im_bound im_unmatched im_ambiguous im_upgraded s0] in *.
  split; [exists envelope, payload; by rewrite Hoc|]. split; [done|]. split; [lia|]. split; [lia|]. split; [lia|].
  rewrite (size_pointwise _ _ _ Hk). cbn [im_rows im_seen s0] in Hsize.
  specialize (Hsize (fun k Hks _ => existing_spec _ _ Hkeyed k Hks)). cbn [im_rows im_imported s0] in Hsize. lia.
Qed.

(** Row by row. *)
Lemma bundle_rows :
  exists raw, bundle_records raw /\
    let source := io_source_row_id o in
    (forall k n r, first_with raw source k n r -> exists row, ed_rows d' !! k = Some row /\
       imported_row (ed_adapters d) source now environment new_row_id (ed_rows d !! k) (Z.of_nat n) r row) /\
    (forall k, (forall n r, ~ first_with raw source k n r) ->
       match ed_rows d !! k with
       | None => ed_rows d' !! k = None
       | Some r => exists r', ed_rows d' !! k = Some r' /\ same_measurement r r' /\
           (er_source_id r <> source -> r' = r) /\
           (er_source_id r = source -> io_complete o = true -> er_stale_reason r' = Some "superseded") /\
           (io_complete o = false -> r' = clear_badge source now r)
       end).
Proof using Himport.
  destruct (import_bundle_Ok _ _ _ _ _ _ _ _ _ _ _ _ Himport) as (envelope & payload & source_key & complete & raw & _ & Hl & Hp & _ & Hc & Hr & Hw).
  exists raw. pose proof (write_outcome (validate_records 0 raw).1 (validate_records 0 raw).2 source_key kind url complete
    (zlen raw) (en_schema_version envelope) (en_generated_at envelope) now environment new_source_id new_row_id d) as Ho.
  pose proof (written_lookup (validate_records 0 raw).1 (validate_records 0 raw).2 source_key kind url complete
    (zlen raw) (en_schema_version envelope) (en_generated_at envelope) now environment new_source_id new_row_id d) as Hk.
  pose proof (carried_row (validate_records 0 raw).1 (validate_records 0 raw).2 source_key kind url complete
    (zlen raw) (en_schema_version envelope) (en_generated_at envelope) now environment new_source_id new_row_id d) as Hcar.
  pose proof (not_carried (validate_records 0 raw).1 (validate_records 0 raw).2 source_key kind url
    (en_schema_version envelope) (en_generated_at envelope) now environment new_source_id new_row_id d) as Hnot.
  rewrite <- Hw in Ho, Hk, Hcar. cbn [fst snd] in Ho, Hk, Hcar. destruct Ho as (Hsrc & _ & Hoc & _).
  rewrite <- Hsrc in Hk, Hcar, Hnot. split; [exists envelope, payload; by rewrite Hoc|]. cbn zeta. split.
  - intros k n r Hf. destruct (Hcar k (first_with_carried _ _ _ _ _ Hf)) as (before & i & r0 & after & row & E & Hkey & Hb & Hrow & Himp).
    destruct (split_first raw _ k _ _ _ _ E Hkey Hb) as (m & -> & Hf').
    destruct (first_with_unique _ _ _ _ _ _ _ Hf Hf') as [-> ->]. by exists row.
  - intros k Hno.
    assert (Hnc : ~ k ∈ map (fun ir : Z * CapabilityEvidenceFields => uniqueness_key ir.2 (io_source_row_id o)) (validate_records 0 raw).1).
    { intros Hin. destruct (Hcar k Hin) as (before & i & r0 & after & row & E & Hkey & Hb & _).
      destruct (split_first raw _ k _ _ _ _ E Hkey Hb) as (m & _ & Hf'). by apply (Hno m r0). }
    rewrite Hk, (Hnot k Hnc). destruct (ed_rows d !! k) as [r|] eqn:Er; [|done]. cbn. eexists. split; [reflexivity|].
    rewrite Hoc. split; [|split; [|split]].
    + case_match; [eapply same_measurement_trans; [apply clear_badge_same|apply supersede_same]|apply clear_badge_same].
    + intros Hs. rewrite bool_decide_eq_false_2; [apply clear_badge_other; by left|].
      intros (_ & Hex & _). apply elem_of_existing in Hex as (r0 & E0 & Hs0). congruence.
    + intros Hs ->. rewrite bool_decide_eq_true_2; [apply superseded_reason|]. split; [done|]. split; [|done].
      apply elem_of_existing. by exists r.
    + intros ->. by rewrite bool_decide_eq_false_2 by (by intros [[=] _]).
Qed.

Lemma bundle_keyed : keyed_rows (ed_rows d').
Proof using Himport Hkeyed.
  intros k row Hrow.
  destruct (import_bundle_Ok _ _ _ _ _ _ _ _ _ _ _ _ Himport) as (envelope & payload & source_key & complete & raw' & _ & _ & _ & _ & _ & _ & Hw).
  pose proof (written_lookup (validate_records 0 raw').1 (validate_records 0 raw').2 source_key kind url complete
    (zlen raw') (en_schema_version envelope) (en_generated_at envelope) now environment new_source_id new_row_id d k) as Hk.
  rewrite <- Hw in Hk. cbn [fst] in Hk. rewrite Hk in Hrow.
  destruct (decide (k ∈ map (fun ir : Z * CapabilityEvidenceFields => uniqueness_key ir.2
     (written_source new_source_id source_key kind url (en_schema_version envelope) (en_generated_at envelope) now d))
       (validate_records 0 raw').1)) as [Hc|Hc].
  - destruct (carried_row (validate_records 0 raw').1 (validate_records 0 raw').2 source_key kind url complete
      (zlen raw') (en_schema_version envelope) (en_generated_at envelope) now environment new_source_id new_row_id d k Hc)
      as (before & i & r & after & row' & _ & Hkey & _ & Hrow' & [models Himp]).
    rewrite <- Hw in Hrow'. cbn [fst] in Hrow'. rewrite Hk in Hrow'. rewrite Hrow in Hrow'. injection Hrow' as <-.
    rewrite Himp. exact Hkey.
  - rewrite (not_carried _ _ _ _ _ _ _ _ _ _ _ _ _ Hc) in Hrow. destruct (ed_rows d !! k) as [r|] eqn:Er; [|done].
    cbn in Hrow. injection Hrow as <-. transitivity (row_key r); [|by apply Hkeyed].
    case_match; rewrite ?supersede_key; apply clear_badge_key.
Qed.
End bundle.

Lemma sample_outcome :
  match (sample_import [JStr "coding"; JInt 3; JStr "coding"; JStr "chat"] empty_db).2 with
  | Ok o => (io_imported o =? 2) && (zlen (io_rejected o) =? 2) && io_complete o && bool_decide (io_source_row_id o = "s1")
  | Raise _ => false
  end = true.
Proof. vm_compute. reflexivity. Qed.

(** The first import, and a second complete bundle that omits the second record. *)
Lemma sample_imported : exists d1 o, sample_import [JStr "coding"; JInt 3; JStr "coding"; JStr "chat"] empty_db = (d1, Ok o) /\
  io_imported o = 2 /\ io_source_row_id o = "s1" /\ io_complete o = true.
Proof.
  pose proof sample_outcome as H. destruct (sample_import _ _) as [d1 [o|e]]; [|discriminate].
  cbn [snd] in H. rewrite !andb_true_iff, !Z.eqb_eq, bool_decide_eq_true in H. exists d1, o. tauto.
Qed.

Module Properties.

(** What an import reports.  A bundle that is refused - by scope, size, schema version, shape - changes
    nothing.  One that is imported accounts for each of its elements: new rows, updated rows and
    rejections add up to the total, each stored record is bound, unmatched or ambiguous, models
    learn at most one digest per record, and the table grows by exactly the new rows. *)
Theorem import_accounting `{HalfPow} `{PyEq} `{SetSpec} (document : Document) (now : Z) (majors : list Z) (kind : string)
    (url : option string) (environment : option (list (string * json))) (principal : option Principal)
    (new_source_id : string) (new_row_id : Z -> string) (d : EvidenceDb) (Hkeyed : keyed_rows (ed_rows d)) :
  match import_bundle document now majors kind url environment principal new_source_id new_row_id d with
  | (d', Raise e) => d' = d
  | (d', Ok o) =>
      authorize principal "admin" = Ok principal /\
      (exists raw, bundle_records document majors o raw /\ io_total o = zlen raw) /\
      io_imported o + io_updated o + zlen (io_rejected o) = io_total o /\
      io_bound o + io_unmatched o + io_ambiguous o = io_imported o + io_updated o /\
      0 <= io_upgraded_models o <= io_imported o + io_updated o /\
      Z.of_nat (size (ed_rows d')) = Z.of_nat (size (ed_rows d)) + io_imported o /\
      keyed_rows (ed_rows d')
  end.
Proof.
  destruct (import_bundle _ _ _ _ _ _ _ _ _ d) as [d' [o|e]] eqn:E; [|by eapply import_bundle_Raise].
  destruct (bundle_accounting _ _ _ _ _ _ _ _ _ _ _ _ E Hkeyed) as (raw & Hraw & Ht & Ha & Hb & Hu & Hs).
  destruct (import_bundle_Ok _ _ _ _ _ _ _ _ _ _ _ _ E) as (? & ? & ? & ? & ? & Hauth & _).
  split; [done|]. split; [by exists raw|]. do 4 (split; [done|]). exact (bundle_keyed _ _ _ _ _ _ _ _ _ _ _ _ E Hkeyed).
Qed.

Lemma import_accounting_witness :
  exists d1 o, sample_import [JStr "coding"; JInt 3; JStr "coding"; JStr "chat"] empty_db = (d1, Ok o) /\
    io_imported o = 2 /\ io_imported o + io_updated o + zlen (io_rejected o) = io_total o.
Proof.
  destruct sample_imported as (d1 & o & E & Hi & _). exists d1, o. split; [exact E|]. split; [exact Hi|].
  pose proof (@import_accounting sample_half_pow sample_py_eq sample_setspec
    (sample_bundle [JStr "coding"; JInt 3; JStr "coding"; JStr "chat"]) 7 [1] "file" None None None "s1"
    (fun i => "r" +:+ pretty i) empty_db empty_keyed) as H.
  fold (sample_import [JStr "coding"; JInt 3; JStr "coding"; JStr "chat"] empty_db) in H. rewrite E in H.
  exact (proj1 (proj2 (proj2 H))).
Defined.


End Properties.
