(* ===== verification/EvidenceRebind.v ===== *)
(** * Re-binding and badges

    The theory of [rebind_evidence], which discovery runs after every pass, and of the badges an
    unreachable source leaves on its rows. *)

From Stdlib Require Import Ascii String.
From S2P Require Import Prelude PyFloat PyStr Json Ordering Authorization EvidencePolicy Reliability EvidenceStore EvidenceImport.
#[local] Open Scope string_scope.
#[local] Open Scope list_scope.
#[local] Open Scope Z_scope.

(** ** Lemmas: re-binding *)

Definition no_upgrade (adapters : list LocalAdapter) (models : list ModelRow) (i : EvidenceIdentity) : Prop :=
  bi_upgrade_model_id (bind_identity i (map local_model models) adapters) = None.

(** The registry [models'] knows the same models, some of them by a digest they lacked. *)
Definition refines (models models' : list ModelRow) : Prop :=
  Forall2 (fun m m' => mr_id m' = mr_id m /\ mr_provider_kind m' = mr_provider_kind m /\
                       mr_provider_model_name m' = mr_provider_model_name m /\
                       (mr_artifact_digest m' = mr_artifact_digest m \/ mr_artifact_digest m = None)) models models'.

Lemma refines_refl models : refines models models.
Proof. apply Forall_Forall2_diag, Forall_forall. intros m _. auto. Qed.

Lemma refines_trans a b c : refines a b -> refines b c -> refines a c.
Proof.
  intros Hab. revert c. induction Hab as [|x y a b (?&?&?&Hxy) _ IH]; intros c Hbc; inversion Hbc as [|? z ? c' (?&?&?&Hyz) Hc]; subst;
    constructor; [|by apply IH].
  split; [congruence|]. split; [congruence|]. split; [congruence|]. destruct Hxy, Hyz; [left|right|right|right]; congruence.
Qed.

(** What makes a base identity ask for no upgrade. *)
Lemma no_base_upgrade i registry :
  bi_upgrade_model_id (bind_base i registry) = None <->
  id_artifact_digest i = None \/
  (exists row, row ∈ registry /\ same_name i row = true /\ lm_artifact_digest row = id_artifact_digest i) \/
  (forall row, row ∈ registry -> same_name i row = true -> lm_artifact_digest row <> None).
Proof.
  unfold bind_base. set (same := List.filter (same_name i) registry).
  assert (Hs : forall row, row ∈ same <-> row ∈ registry /\ same_name i row = true) by (intros; apply elem_of_filter_bool).
  destruct (find_first (fun row => bool_decide (lm_artifact_digest row = id_artifact_digest i)) same) as [row|] eqn:E.
  - apply find_first_Some in E as [Hin%Hs Hd%bool_decide_eq_true]. split; [|done]. intros _. right. left. exists row. tauto.
  - destruct (id_artifact_digest i) as [digest|] eqn:Ei.
    2: { split; [by left|]. intros _. by destruct same. }
    destruct (find_first (fun row => bool_decide (lm_artifact_digest row = None)) same) as [row|] eqn:E'; cbn.
    + apply find_first_Some in E' as [[Hin Hn]%Hs Hd%bool_decide_eq_true]. split; [done|].
      intros [?|[(r & Hr & Hnr & Hdr)|Hall]]; [done| |by destruct (Hall row Hin Hn)].
      assert (Hr' : r ∈ same) by (by apply Hs). pose proof (proj1 (find_first_None _ _) E r Hr') as Hf.
      by apply bool_decide_eq_false in Hf.
    + split; [|done]. intros _. right. right. intros row Hin Hn.
      assert (Hr' : row ∈ same) by (by apply Hs). pose proof (proj1 (find_first_None _ _) E' row Hr') as Hf.
      by apply bool_decide_eq_false in Hf.
Qed.

(** With an adapter: nothing to apply either when the adapter is unknown. *)
Lemma no_upgrade_iff adapters models i :
  no_upgrade adapters models i <->
  (is_adapter_bearing i = true /\
   find_first (fun row => bool_decide (Some (la_artifact_digest row) = id_adapter_artifact_digest i)) adapters = None) \/
  bi_upgrade_model_id (bind_base i (map local_model models)) = None.
Proof.
  unfold no_upgrade, bind_identity. destruct (is_adapter_bearing i); cbn; [|by split; [right|intros [[? _]|?]]].
  destruct (find_first _ adapters) as [a|] eqn:E; cbn; [|by split; [left|]].
  destruct (is_bound (bind_base i (map local_model models))) eqn:Eb; cbn; [by split; [right|intros [[_ ?]|?]]|].
  split; [|done]. intros _. right. destruct (bind_base_sound i (map local_model models)) as (_ & Hu & _).
  by destruct (Hu Eb) as (_ & ? & _).
Qed.

Lemma same_name_ids i m m' : mr_provider_kind m' = mr_provider_kind m -> mr_provider_model_name m' = mr_provider_model_name m ->
  same_name i (local_model m') = same_name i (local_model m).
Proof. unfold same_name. cbn. by intros -> ->. Qed.

Lemma no_upgrade_refines adapters models models' i :
  refines models models' -> no_upgrade adapters models i -> no_upgrade adapters models' i.
Proof.
  intros Hr. rewrite !no_upgrade_iff. intros [Ha|Hb]; [by left|right]. revert Hb. rewrite !no_base_upgrade.
  intros [Hn|[(row & Hin & Hn & Hd)|Hall]]; [by left| |].
  - destruct (id_artifact_digest i) as [digest|] eqn:Ei; [|by left]. right. left.
    apply list_elem_of_fmap in Hin as (m & -> & Hm). apply list_elem_of_lookup in Hm as [n Hm].
    destruct (Forall2_lookup_l _ _ _ _ _ Hr Hm) as (m' & Hm' & _ & Hk & Hnm & Hdig). exists (local_model m'). split.
    { apply list_elem_of_fmap. exists m'. split; [done|]. by apply list_elem_of_lookup_2 in Hm'. }
    split; [by rewrite (same_name_ids i m m')|]. cbn in *. destruct Hdig as [->|]; [done|congruence].
  - right. right. intros row Hin Hn Hd. apply list_elem_of_fmap in Hin as (m' & -> & Hm').
    apply list_elem_of_lookup in Hm' as [n Hm']. destruct (Forall2_lookup_r _ _ _ _ _ Hr Hm') as (m & Hm & _ & Hk & Hnm & Hdig).
    apply (Hall (local_model m)).
    + apply list_elem_of_fmap. exists m. split; [done|]. by apply list_elem_of_lookup_2 in Hm.
    + by rewrite <- (same_name_ids i m m').
    + cbn in *. destruct Hdig as [<-|]; done.
Qed.

(** An upgrade is applied to a row of the registry that has the identity's name and no digest. *)
Lemma upgrade_target i registry adapters id :
  bi_upgrade_model_id (bind_identity i registry adapters) = Some id ->
  exists row digest, row ∈ registry /\ same_name i row = true /\ lm_artifact_digest row = None /\ lm_model_id row = id /\
    bi_upgrade_digest (bind_identity i registry adapters) = Some digest /\ id_artifact_digest i = Some digest.
Proof.
  intros E.
  assert (Eb : bi_upgrade_model_id (bind_base i registry) = Some id /\
               bi_upgrade_digest (bind_identity i registry adapters) = bi_upgrade_digest (bind_base i registry)).
  { unfold bind_identity in *. destruct (is_adapter_bearing i); cbn in *; [|done].
    destruct (find_first _ adapters); cbn in *; [|done]. by destruct (is_bound (bind_base i registry)). }
  destruct Eb as [Eb ->]. unfold bind_base in *. destruct (find_first _ _); cbn in *; [done|].
  destruct (id_artifact_digest i) as [digest|]; cbn in *; [|by destruct (List.filter _ _)].
  destruct (find_first _ (List.filter _ _)) as [row|] eqn:Ef; cbn in *; [|done]. injection Eb as <-.
  apply find_first_Some in Ef as [[Hin Hn]%elem_of_filter_bool Hd%bool_decide_eq_true]. by exists row, digest.
Qed.

Lemma apply_upgrade_spec adapters models i canonical :
  NoDup (map mr_id models) ->
  let '(models', up) := apply_upgrade (bind_identity i (map local_model models) adapters) canonical models in
  refines models models' /\ no_upgrade adapters models' i /\
  (no_upgrade adapters models i -> models' = models /\ up = false).
Proof.
  intros Hn. set (b := bind_identity i (map local_model models) adapters). unfold apply_upgrade.
  destruct (bi_upgrade_model_id b) as [id|] eqn:Eid.
  2: { split; [apply refines_refl|]. split; done. }
  destruct (upgrade_target i (map local_model models) adapters id Eid) as (row & digest & Hin & Hname & Hd & Hid & Edig & Ei).
  fold b in Edig. rewrite Edig. apply list_elem_of_fmap in Hin as (m & -> & Hm). cbn in Hid, Hd.
  assert (Hfind : find_first (fun m => bool_decide (mr_id m = id)) models = Some m).
  { destruct (find_first _ models) as [m0|] eqn:Ef.
    - apply find_first_Some in Ef as [Hm0 Hid0%bool_decide_eq_true]. f_equal. apply (NoDup_map_inj mr_id models); [done..|congruence].
    - pose proof (proj1 (find_first_None _ _) Ef m Hm) as Hf. by apply bool_decide_eq_false in Hf. }
  rewrite Hfind, bool_decide_eq_true_2 by done.
  set (models' := map (fun m0 => if bool_decide (mr_id m0 = id) then upgrade_row digest canonical m0 else m0) models).
  assert (Href : refines models models').
  { unfold refines, models'. apply Forall2_fmap_r, Forall_Forall2_diag, Forall_forall. intros m0 Hm0.
    unfold compose. case_bool_decide as Hi0; [|auto]. cbn. split; [done|]. split; [done|]. split; [done|]. right.
    by rewrite (NoDup_map_inj mr_id models m0 m Hn Hm0 Hm) by congruence. }
  split; [exact Href|]. split.
  - apply no_upgrade_iff. right. apply no_base_upgrade. right. left. exists (local_model (upgrade_row digest canonical m)).
    split; [|by split]. apply list_elem_of_fmap. exists (upgrade_row digest canonical m). split; [done|].
    apply list_elem_of_fmap. exists m. split; [|done]. by rewrite bool_decide_eq_true_2.
  - intros Hno. unfold no_upgrade in Hno. fold b in Hno. congruence.
Qed.

Lemma refines_ids models models' : refines models models' -> map mr_id models' = map mr_id models.
Proof. induction 1 as [|m m' l l' (Hid & _) _ IH]; cbn; [done|]. by rewrite Hid, IH. Qed.

Section rebinding.
Context (adapters : list LocalAdapter).

(** The binding of a row against a registry. *)
Definition binding_of (models : list ModelRow) (r : EvidenceRow) : Binding :=
  bind_identity (identity_of_row r) (map local_model models) adapters.

Lemma with_binding_same b r : binding_differs b r = false -> with_binding b r = r.
Proof.
  unfold binding_differs. rewrite negb_false_iff, !andb_true_iff, !bool_decide_eq_true. intros [[E1 E2] E3].
  destruct r. unfold with_binding. cbn in *. by subst.
Qed.

Lemma with_binding_stable b r : binding_differs b (with_binding b r) = false.
Proof. unfold binding_differs. cbn. by rewrite !bool_decide_eq_true_2. Qed.

Lemma with_binding_identity b r : identity_of_row (with_binding b r) = identity_of_row r.
Proof. done. Qed.

(** One pass over a registry that already knows everything the rows could tell it. *)
Lemma rebind_settled models order rows o :
  NoDup (map mr_id models) -> NoDup order.*1 ->
  (forall k r, (k, r) ∈ order -> rows !! k = Some r) ->
  (forall k r, (k, r) ∈ order -> no_upgrade adapters models (identity_of_row r)) ->
  let '(models', rows', o') := fold_left (rebind_row adapters) order (models, rows, o) in
  models' = models /\ ro_upgraded_models o' = ro_upgraded_models o /\ ro_examined o' = ro_examined o /\
  (forall k, k ∉ order.*1 -> rows' !! k = rows !! k) /\
  (forall k r, (k, r) ∈ order -> rows' !! k = Some (with_binding (binding_of models r) r)) /\
  ((forall k r, (k, r) ∈ order -> binding_differs (binding_of models r) r = false) -> rows' = rows /\ o' = o).
Proof.
  intros Hids. revert rows o. induction order as [|[k r] order IH]; intros rows o Hn Hrows Hno; cbn [fold_left].
  { do 4 (split; [done|]). split; [by intros k r ?%elem_of_nil|]. done. }
  cbn in Hn. apply NoDup_cons in Hn as [Hk Hn].
  unfold rebind_row at 2. fold (binding_of models r).
  pose proof (apply_upgrade_spec adapters models (identity_of_row r) (er_canonical_id r) Hids) as Hup.
  fold (binding_of models r) in Hup.
  destruct (apply_upgrade (binding_of models r) (er_canonical_id r) models) as [models1 up].
  destruct Hup as (_ & _ & Hup). destruct (Hup (Hno k r ltac:(left))) as [-> ->]. cbn [add_if].
  set (rows1 := if binding_differs (binding_of models r) r then _ else rows).
  set (o1 := mkRebindOutcome _ _ _ _).
  assert (Hr1 : rows1 = <[k := with_binding (binding_of models r) r]> rows).
  { unfold rows1. destruct (binding_differs (binding_of models r) r) eqn:E; [done|].
    rewrite (with_binding_same _ _ E). symmetry. apply insert_id. apply Hrows. left. }
  specialize (IH rows1 o1 Hn). rewrite Hr1 in *.
  assert (Hrows' : forall k' r', (k', r') ∈ order -> <[k := with_binding (binding_of models r) r]> rows !! k' = Some r').
  { intros k' r' Hin. rewrite lookup_insert_ne; [apply Hrows; by right|]. intros ->. apply Hk.
    apply list_elem_of_fmap. by exists (k', r'). }
  specialize (IH Hrows' ltac:(intros k' r' Hin; apply (Hno k' r'); by right)).
  destruct (fold_left _ order _) as [[models' rows'] o']. destruct IH as (-> & Hu & He & Hout & Hin & Hsame).
  split; [done|]. split; [done|]. split; [done|]. split; [|split].
  - intros k' Hk'. cbn in Hk'. apply not_elem_of_cons in Hk' as [? ?]. rewrite Hout by done. by rewrite lookup_insert_ne.
  - intros k' r' [[= -> ->]|Hkr]%elem_of_cons; [rewrite Hout by done; apply lookup_insert_eq|by apply Hin].
  - intros Hd. pose proof (Hd k r ltac:(left)) as Hd0. destruct Hsame as [-> ->].
    { intros k' r' Hin'. apply (Hd k' r'). by right. }
    unfold o1. rewrite Hd0. cbn. rewrite (with_binding_same _ _ Hd0). split; [|by destruct o].
    apply insert_id. apply Hrows. left.
Qed.

(** Any pass: the registry only learns digests, no visited row asks for more, identities stay. *)
Lemma rebind_learns models order rows o :
  NoDup (map mr_id models) ->
  (forall k r, (k, r) ∈ order -> rows !! k = Some r) -> NoDup order.*1 ->
  let '(models', rows', _) := fold_left (rebind_row adapters) order (models, rows, o) in
  refines models models' /\
  (forall k r, (k, r) ∈ order -> no_upgrade adapters models' (identity_of_row r)) /\
  (forall k, match rows !! k, rows' !! k with
             | Some r, Some r' => identity_of_row r' = identity_of_row r
             | None, None => True
             | _, _ => False end).
Proof.
  revert models rows o. induction order as [|[k r] order IH]; intros models rows o Hids Hrows Hn; cbn [fold_left].
  { split; [apply refines_refl|]. split; [by intros k r ?%elem_of_nil|]. intros k. by destruct (rows !! k). }
  cbn in Hn. apply NoDup_cons in Hn as [Hk Hn].
  unfold rebind_row at 2. fold (binding_of models r).
  pose proof (apply_upgrade_spec adapters models (identity_of_row r) (er_canonical_id r) Hids) as Hup.
  fold (binding_of models r) in Hup.
  destruct (apply_upgrade (binding_of models r) (er_canonical_id r) models) as [models1 up].
  destruct Hup as (Href & Hno & _). set (rows1 := if binding_differs (binding_of models r) r then _ else rows).
  set (o1 := mkRebindOutcome _ _ _ _).
  assert (Hid1 : forall k', match rows !! k', rows1 !! k' with
             | Some r, Some r' => identity_of_row r' = identity_of_row r | None, None => True | _, _ => False end).
  { intros k'. unfold rows1. destruct (binding_differs _ r); [|by destruct (rows !! k')].
    destruct (decide (k' = k)) as [->|]; [|rewrite lookup_insert_ne by done; by destruct (rows !! k')].
    by rewrite lookup_insert_eq, (Hrows k r) by left. }
  specialize (IH models1 rows1 o1). destruct (fold_left _ order _) as [[models' rows'] o'].
  destruct IH as (Href' & Hno' & Hid').
  - by rewrite (refines_ids models models1).
  - intros k' r' Hin. unfold rows1. destruct (binding_differs _ r); [|apply Hrows; by right].
    rewrite lookup_insert_ne; [apply Hrows; by right|]. intros ->. apply Hk. apply list_elem_of_fmap. by exists (k', r').
  - done.
  - split; [by eapply refines_trans|]. split.
    + intros k' r' [[= -> ->]|Hin]%elem_of_cons; [by eapply no_upgrade_refines|by apply (Hno' k' r')].
    + intros k'. specialize (Hid1 k'). specialize (Hid' k').
      destruct (rows !! k'), (rows1 !! k'), (rows' !! k'); try done. congruence.
Qed.
End rebinding.

Lemma order_facts (d : EvidenceDb) (order : list (EvidenceKey * EvidenceRow)) :
  order ≡ₚ map_to_list (ed_rows d) ->
  NoDup order.*1 /\ forall k r, (k, r) ∈ order <-> ed_rows d !! k = Some r.
Proof.
  intros Hp. split.
  - rewrite Hp. apply NoDup_fst_map_to_list.
  - intros k r. rewrite Hp. apply elem_of_map_to_list.
Qed.

(** The pass as a store. *)
Lemma rebind_rows_fold order d :
  rebind_rows order d =
    (let '(models, rows, o) := fold_left (rebind_row (ed_adapters d)) order
                                 (ed_models d, ed_rows d, mkRebindOutcome 0 0 0 (zlen order)) in
     (mkEvidenceDb models (ed_adapters d) rows (ed_sources d), o)).
Proof. reflexivity. Qed.

(** A row says what binding it now would say. *)
Definition up_to_date (d : EvidenceDb) (r : EvidenceRow) : Prop :=
  binding_differs (binding_of (ed_adapters d) (ed_models d) r) r = false.

Lemma first_pass d order :
  NoDup (map mr_id (ed_models d)) -> order ≡ₚ map_to_list (ed_rows d) ->
  let d' := (rebind_rows order d).1 in
  NoDup (map mr_id (ed_models d')) /\ ed_adapters d' = ed_adapters d /\
  forall k r, ed_rows d' !! k = Some r -> no_upgrade (ed_adapters d') (ed_models d') (identity_of_row r).
Proof.
  intros Hids Ho. destruct (order_facts d order Ho) as [Hn Hin]. rewrite rebind_rows_fold.
  pose proof (rebind_learns (ed_adapters d) (ed_models d) order (ed_rows d) (mkRebindOutcome 0 0 0 (zlen order)) Hids
    (fun k r Hkr => proj1 (Hin k r) Hkr) Hn) as Hl.
  destruct (fold_left _ order _) as [[models' rows'] o']. destruct Hl as (Href & Hno & Hid). cbn.
  split; [by rewrite (refines_ids _ _ Href)|]. split; [done|]. intros k r' Hr'. specialize (Hid k). rewrite Hr' in Hid.
  destruct (ed_rows d !! k) as [r|] eqn:Er; [|done]. rewrite Hid. apply (Hno k). by apply Hin.
Qed.

Lemma settled_pass d order :
  NoDup (map mr_id (ed_models d)) -> order ≡ₚ map_to_list (ed_rows d) ->
  (forall k r, ed_rows d !! k = Some r -> no_upgrade (ed_adapters d) (ed_models d) (identity_of_row r)) ->
  let '(d', o) := rebind_rows order d in
  ed_models d' = ed_models d /\ ed_adapters d' = ed_adapters d /\ ro_upgraded_models o = 0 /\
  (forall k r, ed_rows d' !! k = Some r -> up_to_date d' r) /\
  ((forall k r, ed_rows d !! k = Some r -> up_to_date d r) -> d' = d /\ o = mkRebindOutcome 0 0 0 (zlen order)).
Proof.
  intros Hids Ho Hno. destruct (order_facts d order Ho) as [Hn Hin]. rewrite rebind_rows_fold.
  pose proof (rebind_settled (ed_adapters d) (ed_models d) order (ed_rows d) (mkRebindOutcome 0 0 0 (zlen order)) Hids Hn
    (fun k r Hkr => proj1 (Hin k r) Hkr) (fun k r Hkr => Hno k r (proj1 (Hin k r) Hkr))) as Hl.
  destruct (fold_left _ order _) as [[models' rows'] o']. destruct Hl as (-> & Hu & _ & Hout & Hrow & Hsame). cbn.
  split; [done|]. split; [done|]. split; [exact Hu|]. split.
  - intros k r Hr. destruct (decide (k ∈ order.*1)) as [Hk|Hk].
    + apply list_elem_of_fmap in Hk as ([k' r0] & -> & Hkr). cbn in Hr. rewrite (Hrow k' r0 Hkr) in Hr. injection Hr as <-.
      unfold up_to_date. cbn. apply with_binding_stable.
    + rewrite (Hout k Hk) in Hr. destruct Hk. apply list_elem_of_fmap. exists (k, r). split; [done|]. by apply Hin.
  - intros Hup. destruct Hsame as [-> ->]; [intros k r Hkr; apply (Hup k), Hin, Hkr|]. split; [by destruct d|done].
Qed.

(** The badge retired: the row's own age decides. *)
Lemma clear_badge_badged `{HalfPow} source now r :
  er_source_id r = source -> er_stale_reason r = Some "source_unreachable" ->
  let age := evaluate_staleness (ec_measured_at (er_candidate r)) now (ec_capability_id (er_candidate r)) None false false in
  er_stale (clear_badge source now r) = st_stale age /\ er_stale_reason (clear_badge source now r) = st_reason age.
Proof.
  intros Hs Hr age. unfold clear_badge. fold age. clearbody age. rewrite Hs, Hr, !bool_decide_eq_true_2 by reflexivity.
  split; reflexivity.
Qed.

(** ** Concrete rows *)

Definition sample_row (id capability : string) (digest : option string) (match_state : string) (reason : option string)
  : EvidenceRow :=
  mkEvidenceRow (mkCandidate id capability "h1" "here" "1.0.0" 0 (flit 9 10) (flit 8 10) 40 [] None) None None match_state
    (bool_decide (is_Some reason)) reason "llamacpp" "m" digest "base" None "" "s1" "1.0.0" 0 0 JNull.

Definition nameless_model : ModelRow :=
  mkModelRow "m1" "base" "llamacpp" "" "m" None "name" true None true None None None false JNull.

Definition order_db : EvidenceDb :=
  let a := sample_row "r1" "coding" None "unmatched" None in
  let b := sample_row "r2" "chat" (Some "sha") "unmatched" None in
  mkEvidenceDb [nameless_model] [] {[ row_key a := a; row_key b := b ]} [].

Definition sample_source : SourceRow := mkSource "s1" "fw" "freeweight_api" (Some "u") (Some 1) (Some "ok") None 1 None None.
Definition drifted : EvidenceRow := sample_row "r1" "coding" None "unmatched" (Some "environment_drift:provider_version").
Definition drifted_db : EvidenceDb := mkEvidenceDb [] [] {[ row_key drifted := drifted ]} [sample_source].
Definition delta_bundle : Document :=
  Parsed (JObj [("source_id", JStr "fw"); ("complete", JBool false); ("evidence", JArr [])]).

Definition delta_import (d : EvidenceDb) : EvidenceDb * result ImportOutcome :=
  @import_bundle sample_half_pow sample_py_eq sample_setspec delta_bundle 7 [1] "file" None None None "s2"
    (fun i => pretty i) d.

Lemma drifted_outcome :
  match (delta_import (mark_source_unreachable "u" "down" drifted_db).1).2 with
  | Ok o => bool_decide (io_source_row_id o = so_id sample_source) && negb (io_complete o)
  | Raise _ => false
  end = true.
Proof. vm_compute. reflexivity. Qed.

Lemma drifted_import : exists d2 o,
  delta_import (mark_source_unreachable "u" "down" drifted_db).1 = (d2, Ok o) /\
  io_source_row_id o = so_id sample_source /\ io_complete o = false.
Proof.
  pose proof drifted_outcome as H. destruct (delta_import _) as [d2 [o|e]]; [|discriminate].
  apply andb_true_iff in H as [Hs%bool_decide_eq_true Hc%negb_true_iff]. by exists d2, o.
Qed.

Module Properties.

(** C23: re-binding settles.  Whatever order the passes visit the rows in, from the second pass on the
    registry learns nothing, every row says exactly what binding its identity against the registry
    says, and further passes change nothing and report no change. *)
Theorem rebind_settles (d : EvidenceDb) (first second third : list (EvidenceKey * EvidenceRow))
    (Hids : NoDup (map mr_id (ed_models d)))
    (Hfirst : first ≡ₚ map_to_list (ed_rows d))
    (Hsecond : second ≡ₚ map_to_list (ed_rows (rebind_rows first d).1))
    (Hthird : third ≡ₚ map_to_list (ed_rows (rebind_rows second (rebind_rows first d).1).1)) :
  let d1 := (rebind_rows first d).1 in
  let d2 := (rebind_rows second d1).1 in
  registry_of d2 = registry_of d1 /\ ro_upgraded_models (rebind_rows second d1).2 = 0 /\
  (forall k r, ed_rows d2 !! k = Some r ->
     let b := bind_identity (identity_of_row r) (registry_of d2) (ed_adapters d2) in
     er_match_state r = match_state_value (bi_match_state b) /\ er_model_id r = bi_model_id b /\
     er_adapter_id r = bi_adapter_id b) /\
  rebind_rows third d2 = (d2, mkRebindOutcome 0 0 0 (zlen third)).
Proof.
  cbv zeta. destruct (first_pass d first Hids Hfirst) as (Hids1 & _ & Hno1). set (d1 := (rebind_rows first d).1) in *.
  pose proof (settled_pass d1 second Hids1 Hsecond Hno1) as H2. destruct (rebind_rows second d1) as [d2 o2] eqn:E2.
  cbn [fst snd] in *. destruct H2 as (Hm & Ha & Hu & Hup & _). split; [unfold registry_of; by rewrite Hm|]. split; [done|]. split.
  - intros k r Hr. specialize (Hup k r Hr). unfold up_to_date, binding_differs in Hup.
    rewrite negb_false_iff, !andb_true_iff, !bool_decide_eq_true in Hup. destruct Hup as [[? ?] ?]. done.
  - assert (Hids2 : NoDup (map mr_id (ed_models d2))) by (by rewrite Hm).
    assert (Hno2 : forall k r, ed_rows d2 !! k = Some r -> no_upgrade (ed_adapters d2) (ed_models d2) (identity_of_row r)).
    { intros k r Hr. rewrite Hm, Ha.
      pose proof (rebind_learns (ed_adapters d1) (ed_models d1) second (ed_rows d1) (mkRebindOutcome 0 0 0 (zlen second)) Hids1
        (fun k r Hkr => proj1 (proj2 (order_facts d1 second Hsecond) k r) Hkr) (proj1 (order_facts d1 second Hsecond))) as Hl.
      rewrite rebind_rows_fold in E2. destruct (fold_left _ second _) as [[models' rows'] o']. injection E2 as <- _.
      destruct Hl as (_ & _ & Hid). specialize (Hid k). cbn in Hr. rewrite Hr in Hid.
      destruct (ed_rows d1 !! k) as [r1|] eqn:E1; [|done]. rewrite Hid. by apply (Hno1 k). }
    pose proof (settled_pass d2 third Hids2 Hthird Hno2) as H3. destruct (rebind_rows third d2) as [d3 o3].
    destruct H3 as (_ & _ & _ & _ & Hfix). by destruct (Hfix Hup) as [-> ->].
Qed.

Lemma rebind_settles_witness :
  let pass d := (rebind_evidence d).1 in
  rebind_evidence (pass (pass order_db)) = (pass (pass order_db), mkRebindOutcome 0 0 0 2).
Proof.
  intros pass. etransitivity; [exact (proj2 (proj2 (proj2 (rebind_settles order_db _ _ _ (NoDup_singleton _)
    (Permutation_refl _) (Permutation_refl _) (Permutation_refl _)))))|].
  reflexivity.
Defined.

(** One pass is not enough.  A row without a digest visited before the row that tells the registry the
    model's digest stays bound - and scores - although the registry the pass leaves makes it
    ambiguous by name only, which must never score. *)
Theorem one_pass_leaves_ambiguous_bound :
  exists (d : EvidenceDb) (order : list (EvidenceKey * EvidenceRow)) (k : EvidenceKey) (r : EvidenceRow),
    order ≡ₚ map_to_list (ed_rows d) /\ NoDup (map mr_id (ed_models d)) /\
    let d' := (rebind_rows order d).1 in
    ed_rows d' !! k = Some r /\ er_match_state r = "bound" /\
    bi_match_state (bind_identity (identity_of_row r) (registry_of d') (ed_adapters d')) = AMBIGUOUS_NAME_ONLY.
Proof.
  set (a := sample_row "r1" "coding" None "unmatched" None). set (b := sample_row "r2" "chat" (Some "sha") "unmatched" None).
  exists order_db, [(row_key a, a); (row_key b, b)], (row_key a), (with_binding (mkBinding BOUND (Some "m1") None None ExactTriple None) a).
  split.
  { unfold order_db. fold a b. cbn [ed_rows]. rewrite map_to_list_insert by (vm_compute; reflexivity).
    by rewrite map_to_list_singleton. }
  split; [apply NoDup_singleton|]. split; [vm_compute; reflexivity|]. split; vm_compute; reflexivity.
Qed.

(** The badge of an unreachable source.  A failure badges exactly the source's rows that are not
    superseded, counts those it newly badged, and leaves every measurement and binding alone; an
    unknown source changes nothing.  The next bundle of that source that does not carry a row
    replaces the badge by what the row's age alone says: an environment drift the row was badged for
    before the failure is forgotten. *)
Theorem badge_lifecycle `{HalfPow} `{PyEq} `{SetSpec} (d d2 : EvidenceDb) (url reason : string) (s : SourceRow)
    (document : Document) (now : Z) (majors : list Z) (kind : string) (import_url : option string)
    (environment : option (list (string * json))) (principal : option Principal) (new_source_id : string)
    (new_row_id : Z -> string) (o : ImportOutcome)
    (Hsource : source_for_url (ed_sources d) url = Some s)
    (Himport : import_bundle document now majors kind import_url environment principal new_source_id new_row_id
                 (mark_source_unreachable url reason d).1 = (d2, Ok o))
    (Hsame : io_source_row_id o = so_id s) :
  let '(d1, n) := mark_source_unreachable url reason d in
  n = countb (fun kr => bool_decide (er_source_id kr.2 = so_id s /\ er_stale_reason kr.2 <> Some "superseded" /\
                          ~ (er_stale kr.2 = true /\ er_stale_reason kr.2 = Some "source_unreachable"))) (map_to_list (ed_rows d)) /\
  (forall k r, ed_rows d !! k = Some r -> exists r1, ed_rows d1 !! k = Some r1 /\ same_measurement r r1 /\
     (er_source_id r = so_id s -> er_stale_reason r <> Some "superseded" ->
        er_stale r1 = true /\ er_stale_reason r1 = Some "source_unreachable") /\
     (er_source_id r <> so_id s \/ er_stale_reason r = Some "superseded" -> r1 = r)) /\
  (forall k r, ed_rows d !! k = Some r -> er_source_id r = so_id s -> er_stale_reason r <> Some "superseded" ->
     io_complete o = false ->
     (forall raw, bundle_records document majors o raw -> forall n r', ~ first_with raw (io_source_row_id o) k n r') ->
     let age := evaluate_staleness (ec_measured_at (er_candidate r)) now (ec_capability_id (er_candidate r)) None false false in
     exists r2, ed_rows d2 !! k = Some r2 /\ er_stale r2 = st_stale age /\ er_stale_reason r2 = st_reason age).
Proof.
  unfold mark_source_unreachable in *. rewrite Hsource in *. cbn [fst] in Himport. split; [|split].
  - unfold countb. do 2 f_equal. apply List.filter_ext. intros [k r]. unfold newly_badged. cbn.
    destruct (er_stale r); repeat case_bool_decide; cbn; try done; exfalso; intuition congruence.
  - intros k r Hr. exists (badge_unreachable (so_id s) r). cbn. rewrite lookup_fmap, Hr. split; [done|].
    unfold badge_unreachable. split; [case_match; by repeat split|]. split.
    + intros -> Hn. rewrite bool_decide_eq_true_2, bool_decide_eq_false_2 by done. done.
    + intros Hor. destruct (bool_decide (er_source_id r = so_id s) && _) eqn:E; [|done].
      apply andb_true_iff in E as [?%bool_decide_eq_true E%negb_true_iff]. apply bool_decide_eq_false in E. tauto.
  - intros k r Hr Hs Hn Hc Hno. destruct (bundle_rows _ _ _ _ _ _ _ _ _ _ _ _ Himport) as (raw & Hraw & _ & Hrest).
    specialize (Hrest k (Hno raw Hraw)). cbn [ed_rows] in Hrest. rewrite lookup_fmap, Hr in Hrest. cbn in Hrest.
    destruct Hrest as (r2 & Hr2 & _ & _ & _ & Hclear). exists r2. split; [done|]. rewrite (Hclear Hc), Hsame.
    unfold badge_unreachable. rewrite Hs, bool_decide_eq_true_2, bool_decide_eq_false_2 by done.
    exact (clear_badge_badged (so_id s) now (with_badge true (Some "source_unreachable") r) Hs eq_refl).
Qed.

Lemma badge_lifecycle_witness :
  er_stale drifted = true /\
  exists r2, ed_rows (delta_import (mark_source_unreachable "u" "down" drifted_db).1).1 !! row_key drifted = Some r2 /\
    er_stale r2 = false.
Proof.
  split; [reflexivity|]. destruct drifted_import as (d2 & o & E & Ho1 & Ho2).
  destruct (proj2 (proj2 (@badge_lifecycle sample_half_pow sample_py_eq sample_setspec drifted_db d2 "u" "down" sample_source
    delta_bundle 7 [1] "file" None None None "s2" (fun i => pretty i) o eq_refl E Ho1))
    (row_key drifted) drifted eq_refl eq_refl) as (r2 & Hr2 & Hst & _).
  - discriminate.
  - exact Ho2.
  - intros raw (envelope & payload & Hl & Hp & Hr & _) n r' ((x & Hx & _) & _).
    cbn in Hl. injection Hl as <-. cbn in Hp. injection Hp as <-. cbn in Hr. injection Hr as <-. done.
  - exists r2. rewrite E. split; [exact Hr2|]. rewrite Hst. vm_compute. reflexivity.
Defined.
End Properties.
