(* ===== verification/EvidenceReads.v ===== *)
(** * Reading the evidence

    The theory of [query_evidence]: following the cursors from the first page visits every matching
    row exactly once, in the order of the ids, and ends. *)

From Stdlib Require Import Ascii String.
From S2P Require Import Prelude PyFloat PyStr Json Ordering Authorization EvidencePolicy Reliability EvidenceStore.
#[local] Open Scope string_scope.
#[local] Open Scope list_scope.
#[local] Open Scope Z_scope.

(** A client that asks for the next page as long as it is given a cursor; [None] when the fuel ends
    first. *)
Definition with_cursor (c : option string) (q : EvidenceQuery) : EvidenceQuery :=
  mkEvidenceQuery (eq_capability q) (eq_model q) (eq_match_state q) (eq_min_confidence q) (eq_stale q) (eq_limit q) c.

Fixpoint walk (fuel : nat) (d : EvidenceDb) (q : EvidenceQuery) (now : Z) : option (list EvidenceItem) :=
  match fuel with
  | O => None
  | S n =>
      let page := query_evidence d q now in
      match ep_next_cursor page with
      | None => Some (ep_items page)
      | Some c => (app (ep_items page)) <$> walk n d (with_cursor (Some c) q) now
      end
  end.

(** ** Lemmas *)

Definition by_id : EvidenceRow -> EvidenceRow -> Prop := fun x y => leb_of (cmp_on row_id String.compare) x y = true.
Definition before_id (x y : EvidenceRow) : Prop := String.compare (row_id x) (row_id y) = Lt.

(** Rows with distinct ids, by id. *)
Definition matching (d : EvidenceDb) (q : EvidenceQuery) : list EvidenceRow :=
  py_sorted (leb_of (cmp_on row_id String.compare)) (List.filter (query_admits q) (rows_of d)).

Lemma strictly_sorted (l : list EvidenceRow) :
  NoDup (map row_id l) -> StronglySorted by_id l -> StronglySorted before_id l.
Proof.
  intros Hn Hs. induction Hs as [|x l Hs IH Hx]; [constructor|]. cbn in Hn. apply NoDup_cons in Hn as [Hx' Hn].
  constructor; [by apply IH|]. rewrite Forall_forall in Hx |- *. intros y Hy. specialize (Hx y Hy).
  unfold by_id, leb_of, cmp_on, before_id in *. destruct (String.compare (row_id x) (row_id y)) eqn:E; [|done|done].
  apply cmp_eq in E. destruct Hx'. rewrite E. by apply list_elem_of_fmap_2.
Qed.

Lemma filter_sorted {A} (R : A -> A -> Prop) (p : A -> bool) l : StronglySorted R l -> StronglySorted R (List.filter p l).
Proof.
  induction 1 as [|x l Hs IH Hx]; cbn; [constructor|]. destruct (p x); [|done]. constructor; [done|].
  rewrite Forall_forall in Hx |- *. intros y Hy. apply Hx. by apply elem_of_filter_bool in Hy as [? _].
Qed.

Lemma NoDup_map_filter {A B} (f : A -> B) (p : A -> bool) l : NoDup (map f l) -> NoDup (map f (List.filter p l)).
Proof.
  induction l as [|x l IH]; cbn; [done|]. intros Hn. apply NoDup_cons in Hn as [Hx Hn]. destruct (p x); cbn; [|by apply IH].
  apply NoDup_cons. split; [|by apply IH]. intros Hin. apply Hx. apply list_elem_of_fmap in Hin as (y & -> & Hy).
  apply list_elem_of_fmap_2. by apply elem_of_filter_bool in Hy as [? _].
Qed.

(** Sorting commutes with selecting. *)
Lemma sort_filter (p : EvidenceRow -> bool) l :
  NoDup (map row_id l) ->
  py_sorted (leb_of (cmp_on row_id String.compare)) (List.filter p l) =
  List.filter p (py_sorted (leb_of (cmp_on row_id String.compare)) l).
Proof.
  intros Hn. apply (sorted_unique row_id String.compare).
  - apply (sorted_by_key row_id String.compare).
  - apply filter_sorted, (sorted_by_key row_id String.compare).
  - rewrite py_sorted_perm. apply filter_perm. by rewrite py_sorted_perm.
  - assert (E : map row_id (py_sorted (leb_of (cmp_on row_id String.compare)) (List.filter p l)) ≡ₚ map row_id (List.filter p l))
      by apply Permutation_map, py_sorted_perm.
    rewrite E. by apply NoDup_map_filter.
Qed.

(** In id order, what follows a row is what its cursor selects. *)
Lemma filter_after (a b : list EvidenceRow) x :
  StronglySorted before_id (a ++ (x :: b)) ->
  List.filter (fun r => bool_decide (String.compare (row_id x) (row_id r) = Lt)) (a ++ (x :: b)) = b.
Proof.
  induction a as [|y a IH]; cbn; intros Hs; apply StronglySorted_inv in Hs as [Hs Hall]; rewrite Forall_forall in Hall.
  - rewrite bool_decide_eq_false_2 by (by rewrite (cmp_refl String.compare)).
    clear Hs. induction b as [|z b IH]; cbn; [done|]. rewrite bool_decide_eq_true_2 by (apply Hall; left).
    f_equal. apply IH. intros w Hw. apply Hall. by right.
  - rewrite bool_decide_eq_false_2; [by apply IH|]. intros Hlt.
    assert (Hyx : before_id y x) by (apply Hall, elem_of_app; right; left). unfold before_id in Hyx.
    rewrite (cmp_opp (cmp := String.compare) (row_id y) (row_id x)), Hyx in Hlt. done.
Qed.

Section pages.
Context (d : EvidenceDb) (now : Z).
Hypothesis Hids : NoDup (map row_id (rows_of d)).
Hypothesis Hnonempty : forall r, r ∈ rows_of d -> row_id r <> "".

Lemma matching_sorted q : StronglySorted before_id (matching d q).
Proof using Hids.
  apply strictly_sorted; [|apply (sorted_by_key row_id String.compare)]. unfold matching.
  assert (E : map row_id (py_sorted (leb_of (cmp_on row_id String.compare)) (List.filter (query_admits q) (rows_of d))) ≡ₚ
              map row_id (List.filter (query_admits q) (rows_of d))) by apply Permutation_map, py_sorted_perm.
  rewrite E. by apply NoDup_map_filter.
Qed.

Lemma rows_from_start q : eq_cursor q = None -> rows_from d q = matching d q.
Proof.
  intros Hc. unfold rows_from, matching. f_equal. apply List.filter_ext. intros r. unfold after_cursor. rewrite Hc.
  apply andb_true_r.
Qed.

Lemma filter_filter_andb {A} (p p' : A -> bool) l : List.filter (fun x => p x && p' x) l = List.filter p' (List.filter p l).
Proof. induction l as [|x l IH]; cbn; [done|]. destruct (p x); cbn; [|done]. destruct (p' x); by rewrite IH. Qed.

Lemma rows_from_cursor q c : c <> "" ->
  rows_from d (with_cursor (Some c) q) =
  List.filter (fun r => bool_decide (String.compare c (row_id r) = Lt)) (matching d q).
Proof using Hids.
  intros Hc. unfold matching. rewrite <- sort_filter by (by apply NoDup_map_filter). unfold rows_from. f_equal.
  rewrite <- filter_filter_andb. apply List.filter_ext. intros r.
  change (query_admits (with_cursor (Some c) q) r) with (query_admits q r). f_equal.
  unfold after_cursor. cbn. by rewrite (bool_decide_eq_false_2 (c = "")).
Qed.

(** One page of the rows that are left. *)
Lemma page_of q rest :
  rows_from d q = rest ->
  let n := Z.to_nat (page_limit q) in
  ep_items (query_evidence d q now) = map (evidence_item d now) (take n rest) /\
  (if (n <? length rest)%nat
   then exists a x, take n rest = a ++ [x] /\ ep_next_cursor (query_evidence d q now) = Some (row_id x)
   else ep_next_cursor (query_evidence d q now) = None /\ take n rest = rest).
Proof.
  intros E n. assert (Hl : 1 <= page_limit q) by (unfold page_limit; lia).
  unfold query_evidence. rewrite E. cbn [ep_items ep_next_cursor].
  assert (En : Z.to_nat (page_limit q + 1) = S n) by (unfold n; lia). rewrite En.
  assert (Et : take n (take (S n) rest) = take n rest) by (rewrite take_take; f_equal; lia).
  change (Z.to_nat (page_limit q)) with n. rewrite Et. split; [done|].
  assert (Hz : (page_limit q <? zlen (take (S n) rest)) = (n <? length rest)%nat).
  { unfold zlen. rewrite length_take. destruct (Nat.ltb_spec n (length rest)); [apply Z.ltb_lt|apply Z.ltb_ge]; lia. }
  rewrite Hz. destruct (Nat.ltb_spec n (length rest)) as [Hlt|Hge].
  - destruct (exists_last (l := take n rest)) as (a & x & Ex).
    { intros Hnil. apply (f_equal length) in Hnil. rewrite length_take in Hnil. cbn in Hnil. lia. }
    exists a, x. split; [done|]. rewrite Ex, map_app. cbn [map]. by rewrite last_snoc.
  - split; [done|]. apply take_ge. lia.
Qed.

(** The walk over what is left of the matching rows. *)
Lemma walk_from fuel q done rest :
  matching d q = done ++ rest -> rows_from d q = rest -> (length rest < fuel)%nat ->
  walk fuel d q now = Some (map (evidence_item d now) rest).
Proof using Hids Hnonempty.
  revert q done rest. induction fuel as [|fuel IH]; intros q done rest Hm Hr Hf; [lia|]. cbn [walk].
  destruct (page_of q rest Hr) as [Hi Hn]. set (n := Z.to_nat (page_limit q)) in *. rewrite Hi.
  destruct (Nat.ltb_spec n (length rest)) as [Hlt|Hge]; [|destruct Hn as [-> ->]; done].
  destruct Hn as (a & x & Et & ->).
  assert (Hx : x ∈ rows_of d).
  { assert (Hin : x ∈ matching d q).
    { rewrite Hm, <- (take_drop n rest), Et. apply elem_of_app. right. apply elem_of_app. left. apply elem_of_app. right. left. }
    unfold matching in Hin. rewrite elem_of_py_sorted in Hin. by apply elem_of_filter_bool in Hin as [? _]. }
  assert (Hsplit : matching d q = (done ++ a) ++ (x :: drop n rest)).
  { rewrite Hm, <- app_assoc. f_equal. rewrite <- (take_drop n rest) at 1. rewrite Et, <- app_assoc. done. }
  rewrite (IH (with_cursor (Some (row_id x)) q) (done ++ a ++ [x]) (drop n rest)).
  - cbn. f_equal. rewrite <- map_app. f_equal. apply take_drop.
  - change (matching d (with_cursor (Some (row_id x)) q)) with (matching d q). rewrite Hsplit. by rewrite <- !app_assoc.
  - rewrite rows_from_cursor by (by apply Hnonempty). rewrite Hsplit. apply filter_after.
    rewrite <- Hsplit. apply matching_sorted.
  - rewrite length_drop. assert (1 <= page_limit q) by (unfold page_limit; lia). unfold n in *. lia.
Qed.
End pages.

Module Properties.

(** Paging through the evidence ends and misses nothing.  Whatever page size was asked for, a client
    that follows the cursors from the first page gets every row the filters admit exactly once, in the
    order of the ids, and is given no further cursor after at most one page per row; every page is
    within the documented limits and reports the same total. *)
Theorem paging_complete (d : EvidenceDb) (q : EvidenceQuery) (now : Z)
    (Hids : NoDup (map row_id (rows_of d))) (Hnonempty : forall r, r ∈ rows_of d -> row_id r <> "")
    (Hstart : eq_cursor q = None) :
  (exists items, walk (S (length (rows_of d))) d q now = Some items /\
     map ei_row items ≡ₚ List.filter (query_admits q) (rows_of d) /\
     StronglySorted (fun x y => String.compare (row_id (ei_row x)) (row_id (ei_row y)) = Lt) items /\
     zlen items = ep_total (query_evidence d q now)) /\
  (forall c, 1 <= ep_limit (query_evidence d (with_cursor c q) now) <= 500 /\
     zlen (ep_items (query_evidence d (with_cursor c q) now)) <= ep_limit (query_evidence d (with_cursor c q) now) /\
     ep_total (query_evidence d (with_cursor c q) now) = ep_total (query_evidence d q now)).
Proof.
  split.
  - exists (map (evidence_item d now) (matching d q)). split; [|split; [|split]].
    + apply (walk_from d now Hids Hnonempty _ q [] (matching d q)); [done|by apply rows_from_start|].
      unfold matching. rewrite py_sorted_length. pose proof (List.filter_length_le (query_admits q) (rows_of d)). lia.
    + rewrite map_map. cbn. rewrite map_id. apply py_sorted_perm.
    + pose proof (matching_sorted d Hids q) as Hs. induction Hs as [|x l _ IH Hx]; cbn; [constructor|].
      constructor; [exact IH|]. apply Forall_forall. intros y Hy. apply list_elem_of_fmap in Hy as (z & -> & Hz).
      exact (proj1 (Forall_forall _ _) Hx z Hz).
    + unfold zlen. rewrite length_map. unfold matching. by rewrite py_sorted_length.
  - intros c. cbn. split; [unfold page_limit, MAX_EVIDENCE_LIMIT; lia|]. split; [|done].
    unfold zlen. rewrite length_map, !length_take. unfold page_limit. lia.
Qed.

Lemma paging_complete_witness :
  let row id := mkEvidenceRow (mkCandidate id "coding" "h" "m" id 0 0 0 1 [] None) None None "unmatched" false None
                  "k" "m" None "base" None "" "s" "1" 0 0 JNull in
  let d := mkEvidenceDb [] [] (list_to_map (map (fun id => (("s", "base", "", "h", "m", "coding", id), row id)) ["c"; "a"; "b"])) [] in
  let q := mkEvidenceQuery None None None None None 2 None in
  exists items, walk 4 d q 0 = Some items /\ map (fun i => row_id (ei_row i)) items = ["a"; "b"; "c"].
Proof.
  intros row d q.
  destruct (proj1 (paging_complete d q 0 ltac:(apply (bool_decide_unpack _); vm_compute; exact I)
    ltac:(apply Forall_forall, (bool_decide_unpack _); vm_compute; exact I) eq_refl)) as (items & Hw & _).
  exists items. split; [exact Hw|]. vm_compute in Hw. injection Hw as <-. reflexivity.
Defined.
End Properties.
