(* ===== verification/Candidates.v ===== *)
(** * Candidates and their signals ([services/routing.py], [services/evidence.py], [services/adapters.py])

    What routing reads before it decides: one candidate per model and one per adapter a hot-swapping
    provider could serve on it, each with the signals of its own subject and of no other.  The rows
    of the three tables are records; the stored JSON of benchmark versions and calibrations is taken
    as already parsed. *)

From Stdlib Require Import Ascii String.
From S2P Require Import Prelude PyFloat PyStr Json Ordering EvidencePolicy Reliability Subject Scoring TaskProfile EvidenceStore.
#[local] Open Scope string_scope.
#[local] Open Scope list_scope.
#[local] Open Scope Z_scope.

(** ** Rows *)

Record CapabilityRow := mkCapabilityRow {
  cr_model_id : string;
  cr_capability_id : string;
  cr_score : option f64;
  cr_confidence : f64;
  cr_source : string
}.

Record AdapterRow := mkAdapterRow { ar_facts : AdapterFacts; ar_available : bool }.

(** ** Imported evidence *)

(** [row.adapter_id or ""]. *)
Definition subject_key (model_id : string) (adapter_id : option string) : string * string :=
  (model_id, default "" adapter_id).

(** The rows that may become signals, with the subject each belongs to, in the order of the query. *)
Definition admitted_rows (weights : gmap string f64) (rows : list EvidenceRow) : list (string * string * EvidenceRow) :=
  omap (fun row =>
      if negb (bool_decide (er_match_state row = "bound")) then None
      else match er_model_id row with
           | None => None
           | Some model_id =>
               if weights_admit (ec_capability_id (er_candidate row)) weights
               then Some (subject_key model_id (er_adapter_id row), row) else None
           end) rows.

(** [facts[row_id]]: the last row stored under the id; ids are primary keys. *)
Definition row_named (rows : list EvidenceRow) (row_id : string) : option EvidenceRow :=
  find_first (fun r => bool_decide (ec_row_id (er_candidate r) = row_id)) (rev rows).

Definition evidence_signal (rows : list EvidenceRow) (now : Z) (c : EvidenceCandidate) : CapabilitySignal :=
  let row := row_named rows (ec_row_id c) in
  mkSignal (ec_capability_id c) "benchmark" (ec_score c) (ec_confidence c) (Some (ec_runtime_profile_hash c))
    (Some (ec_machine_fingerprint c)) (Some (ec_measured_at c)) (Some (ec_sample_count c)) (Some "bound")
    (Some (whole_days (total_seconds (now - ec_measured_at c))))
    (match row with Some r => er_stale r | None => false end) (row ≫= er_stale_reason) (ec_calibration c).

Definition bound_signals_for_routing `{Digits} (rows : list EvidenceRow) (weights : gmap string f64) (now : Z)
    (local_machine_fingerprint : option string) : result (list (string * string * list CapabilitySignal)) :=
  let admitted := admitted_rows weights rows in
  map_ok (fun g =>
      selected ← collapse_evidence (map (fun kr => er_candidate kr.2) g.2) local_machine_fingerprint;
      Ok (g.1, map (evidence_signal (map snd admitted) now) selected))
    (group_by fst admitted).

(** [signals.get(subject, ())]. *)
Definition signals_of (evidence : list (string * string * list CapabilitySignal)) (subject : string * string)
  : list CapabilitySignal :=
  match find_first (fun g => bool_decide (g.1 = subject)) evidence with Some g => g.2 | None => [] end.

(** ** Stored capabilities and adapters *)

Definition plain_signal (capability_id source : string) (score confidence : f64) : CapabilitySignal :=
  mkSignal capability_id source score confidence None None None None None None false None None.

Definition signals_for (rows : list CapabilityRow) : list CapabilitySignal :=
  omap (fun row => match cr_score row with
                   | None => None
                   | Some score => Some (plain_signal (cr_capability_id row) (cr_source row) score (cr_confidence row))
                   end) rows.

Definition adapter_signals (a : AdapterFacts) : list CapabilitySignal :=
  map (fun c => plain_signal c "declared" DECLARED_SCORE DECLARED_CONFIDENCE) (af_declared_capabilities a).

(** Available adapters by the base name they declare, each group in name order ([rows] are ordered by
    name, as the query is). *)
Definition adapter_facts_by_base_name (rows : list AdapterRow) : list (string * list AdapterFacts) :=
  group_by af_base_model_name (map ar_facts (List.filter ar_available rows)).

Definition facts_for (m : ModelRow) (is_remote : bool) : ModelFacts :=
  mkModelFacts (mr_id m) (mr_canonical_id m) (mr_provider_kind m) (mr_provider_model_name m) (mr_artifact_digest m)
    (mr_available m) (mr_unavailable_reason m) (mr_enabled m) (mr_max_context m) (mr_size_bytes m)
    (mr_parameter_count m) (geometry_from_json (mr_descriptor_json m) "layers")
    (geometry_from_json (mr_descriptor_json m) "kv_heads") (geometry_from_json (mr_descriptor_json m) "head_dim")
    (if negb (bool_decide (mr_provider_name m = "")) then mr_is_remote m else is_remote) (mr_provider_name m).

(** ** Candidates *)

Definition Candidate : Type := ModelFacts * ProviderFacts * list CapabilitySignal * option AdapterFacts.

Definition candidates_of_model (provider : ProviderFacts) (provider_facts_by_name : gmap string ProviderFacts)
    (capability_rows : list CapabilityRow) (evidence : list (string * string * list CapabilitySignal))
    (adapters : list (string * list AdapterFacts)) (m : ModelRow) : list Candidate :=
  let facts := facts_for m (pf_is_remote provider) in
  let candidate_provider := default provider (provider_facts_by_name !! mr_provider_name m) in
  let signals := signals_for (List.filter (fun r => bool_decide (cr_model_id r = mr_id m)) capability_rows) ++
                 signals_of evidence (mr_id m, "") in
  (facts, candidate_provider, signals, None) ::
  if negb (pf_adapter_hot_swap candidate_provider) then []
  else map (fun a => (facts, candidate_provider,
                      adapter_signals a ++ signals_of evidence (mr_id m, af_adapter_id a), Some a))
         (default [] (assoc (mf_provider_model_name facts) adapters)).

(** [models] in the order of the query: by canonical id. *)
Definition read_candidates `{Digits} (models : list ModelRow) (capability_rows : list CapabilityRow)
    (evidence_rows : list EvidenceRow) (adapter_rows : list AdapterRow) (provider : ProviderFacts)
    (provider_facts_by_name : gmap string ProviderFacts) (weights : gmap string f64) (now : Z)
    (machine_fingerprint : option string) : result (list Candidate) :=
  evidence ← bound_signals_for_routing evidence_rows weights now machine_fingerprint;
  Ok (models ≫= candidates_of_model provider provider_facts_by_name capability_rows evidence
        (adapter_facts_by_base_name adapter_rows)).

(** ** Lemmas *)

Lemma map_ok_elem {A B} (f : A -> result B) l ys y :
  map_ok f l = Ok ys -> y ∈ ys -> exists x, x ∈ l /\ f x = Ok y.
Proof.
  revert ys. induction l as [|x l IH]; intros ys E Hy; cbn in E; [injection E as <-; by apply elem_of_nil in Hy|].
  apply bind_Ok_inv in E as (z & Ez & E). apply bind_Ok_inv in E as (zs & Ezs & E). injection E as <-.
  apply elem_of_cons in Hy as [->|Hy]; [exists x; split; [left|done]|].
  destruct (IH zs Ezs Hy) as (x' & Hx' & E'). exists x'. split; [by right|done].
Qed.

Lemma best_of_elem `{Digits} local group c : best_of local group = Ok c -> c ∈ group.
Proof.
  unfold best_of. intros E. apply bind_Ok_inv in E as ([|kc rest] & Ek & E); [done|]. injection E as <-.
  assert (Hin : py_max_from (ltb_of (cmp_on fst cmp_selection)) kc rest ∈ kc :: rest).
  { clear Ek. revert kc. induction rest as [|x rest IH]; intros kc; cbn; [left|].
    specialize (IH (if ltb_of (cmp_on fst cmp_selection) kc x then x else kc)).
    apply elem_of_cons in IH as [->|?]; [destruct (ltb_of _ _ _); [right; left|left]|by right; right]. }
  destruct (map_ok_elem _ _ _ _ Ek Hin) as (x & Hx & E).
  apply bind_Ok_inv in E as (k & _ & E). injection E as <-. done.
Qed.

(** Selecting never invents a record. *)
Lemma collapse_subset `{Digits} cs local l c : collapse_evidence cs local = Ok l -> c ∈ l -> c ∈ cs.
Proof.
  unfold collapse_evidence. intros E Hc. destruct (map_ok_elem _ _ _ _ E Hc) as ([k xs] & Hg & Eb).
  rewrite elem_of_py_sorted in Hg. apply best_of_elem in Eb. cbn in Eb.
  destruct (group_by_groups evidence_key cs) as [_ Hgs]. apply Hgs in Hg as [-> _].
  by apply elem_of_filter_bool in Eb as [? _].
Qed.

(** Where a benchmark signal comes from: a bound row of that very subject. *)
Definition comes_from (rows : list EvidenceRow) (weights : gmap string f64) (model_id adapter_key : string)
    (s : CapabilitySignal) : Prop :=
  exists row, row ∈ rows /\ er_match_state row = "bound" /\ er_model_id row = Some model_id /\
    default "" (er_adapter_id row) = adapter_key /\
    cap_capability_id s = ec_capability_id (er_candidate row) /\
    cap_score s = ec_score (er_candidate row) /\ cap_confidence s = ec_confidence (er_candidate row) /\
    cap_runtime_profile_hash s = Some (ec_runtime_profile_hash (er_candidate row)) /\
    cap_machine_fingerprint s = Some (ec_machine_fingerprint (er_candidate row)) /\
    (is_user_capability (cap_capability_id s) = true -> is_Some (weights !! cap_capability_id s)).

Lemma bound_signals_sound `{Digits} rows weights now local evidence model_id adapter_key s :
  bound_signals_for_routing rows weights now local = Ok evidence ->
  s ∈ signals_of evidence (model_id, adapter_key) ->
  cap_source s = "benchmark" /\ comes_from rows weights model_id adapter_key s.
Proof.
  unfold bound_signals_for_routing, signals_of. intros E Hs.
  destruct (find_first _ evidence) as [g|] eqn:Ef; [|by apply elem_of_nil in Hs].
  apply find_first_Some in Ef as [Hg Hk%bool_decide_eq_true].
  destruct (map_ok_elem _ _ _ _ E Hg) as ([k xs] & Hin & Eb).
  apply bind_Ok_inv in Eb as (selected & Esel & Eg). injection Eg as <-. cbn in Hk, Hs. subst k.
  apply list_elem_of_fmap in Hs as (c & -> & Hc). split; [done|].
  pose proof (collapse_subset _ _ _ _ Esel Hc) as Hcand.
  apply list_elem_of_fmap in Hcand as ([k row] & -> & Hrow). cbn in Hc |- *.
  destruct (group_by_groups fst (admitted_rows weights rows)) as [_ Hgs]. apply Hgs in Hin as [-> _].
  apply elem_of_filter_bool in Hrow as [Hrow Hk]. apply bool_decide_eq_true in Hk. cbn in Hk. subst k.
  apply list_elem_of_omap in Hrow as (row' & Hrow & Hm). exists row.
  case_bool_decide as Hb; cbn in Hm; [|done]. destruct (er_model_id row') as [m|] eqn:Em; [|done].
  destruct (weights_admit _ weights) eqn:Ew; [|done]. unfold subject_key in Hm. injection Hm as -> <- ->.
  repeat split; try done. cbn. intros Hu. unfold weights_admit in Ew. rewrite Hu in Ew.
  by apply bool_decide_eq_true in Ew.
Qed.

Lemma elem_of_candidates_of_model provider by_name rows evidence adapters m facts prov signals adapter :
  (facts, prov, signals, adapter) ∈ candidates_of_model provider by_name rows evidence adapters m ->
  facts = facts_for m (pf_is_remote provider) /\
  match adapter with
  | None => signals = signals_for (List.filter (fun r => bool_decide (cr_model_id r = mr_id m)) rows) ++
                      signals_of evidence (mr_id m, "")
  | Some a => pf_adapter_hot_swap prov = true /\
              signals = adapter_signals a ++ signals_of evidence (mr_id m, af_adapter_id a)
  end.
Proof.
  unfold candidates_of_model. intros [[= -> -> -> ->]|Hc]%elem_of_cons; [done|].
  destruct (pf_adapter_hot_swap (default provider (by_name !! mr_provider_name m))) eqn:E;
    cbn in Hc; [|by apply elem_of_nil in Hc].
  apply list_elem_of_fmap in Hc as (a & [= -> -> -> ->] & _). done.
Qed.

Lemma elem_of_signals_for rows s :
  s ∈ signals_for rows -> exists r, r ∈ rows /\ cap_source s = cr_source r /\ cap_sample_count s = None.
Proof.
  intros Hs. apply list_elem_of_omap in Hs as (r & Hr & E). destruct (cr_score r); [|done].
  injection E as <-. by exists r.
Qed.

Definition sample_digest_row (id model : string) (adapter : option string) (score : f64) : EvidenceRow :=
  mkEvidenceRow (mkCandidate id "coding" "h1" "here" "1.0.0" 0 score (flit 8 10) 40 [] None)
    (Some model) adapter "bound" false None "llamacpp" "m" None "base:a" None "" "s1" "1.0.0" 0 0 JNull.

Definition sample_model : ModelRow :=
  mkModelRow "m1" "base:a" "llamacpp" "" "m" None "name" true None true None None None false JNull.
Definition sample_provider : ProviderFacts := mkProviderFacts true true None true true true true false true None.
Definition sample_evidence : list EvidenceRow :=
  [sample_digest_row "e1" "m1" None (flit 9 10); sample_digest_row "e2" "m1" (Some "a1") (flit 2 10)].
Definition sample_adapters : list AdapterRow :=
  [mkAdapterRow (mkAdapterFacts "a1" "tone" "sha:1" "m" None "verified" [] "private") true].
Definition sample_pool : list Candidate :=
  match @read_candidates sample_digits [sample_model] [] sample_evidence sample_adapters sample_provider ∅ ∅ 0 None with
  | Ok cs => cs
  | Raise _ => []
  end.

Module Properties.

(** No evidence crosses between subjects.  Every benchmark signal a candidate carries comes from an
    imported row that is bound to that model and was measured under exactly that adapter, or under
    none for the bare base; its score, confidence, profile and machine are that row's; a
    [user.*] measurement only appears when the task profile weights it.  Adapter candidates exist only
    on providers that hot-swap.  A stored production row never becomes admissible, so production
    success never raises a score. *)
Theorem candidates_isolated `{Digits} (models : list ModelRow) (capability_rows : list CapabilityRow)
    (evidence_rows : list EvidenceRow) (adapter_rows : list AdapterRow) (provider : ProviderFacts)
    (by_name : gmap string ProviderFacts) (weights : gmap string f64) (now : Z) (machine : option string)
    (cs : list Candidate)
    (Hsource : forall r, r ∈ capability_rows -> cr_source r <> "benchmark")
    (Hread : read_candidates models capability_rows evidence_rows adapter_rows provider by_name weights now machine = Ok cs) :
  (forall m, m ∈ models -> exists prov signals, (facts_for m (pf_is_remote provider), prov, signals, None) ∈ cs) /\
  forall facts prov signals adapter, (facts, prov, signals, adapter) ∈ cs ->
    (is_Some adapter -> pf_adapter_hot_swap prov = true) /\
    forall s, s ∈ signals ->
      (cap_source s = "benchmark" ->
       comes_from evidence_rows weights (mf_model_id facts)
         (match adapter with Some a => af_adapter_id a | None => "" end) s) /\
      (cap_source s = "production" -> forall capability hash min_conf fingerprint,
         ~ admissible capability hash min_conf fingerprint s).
Proof.
  unfold read_candidates in Hread. apply bind_Ok_inv in Hread as (evidence & He & Hread). injection Hread as <-.
  split.
  { intros m Hm. eexists _, _. apply list_elem_of_bind. exists m. split; [left|done]. }
  intros facts prov signals adapter Hc. apply list_elem_of_bind in Hc as (m & Hc & _).
  apply elem_of_candidates_of_model in Hc as [-> Hsig].
  assert (Hno : forall s, cap_source s = "production" -> cap_sample_count s = None ->
    forall capability hash min_conf fingerprint, ~ admissible capability hash min_conf fingerprint s).
  { intros s Hp Hn capability hash min_conf fingerprint (_ & _ & Ha). destruct (Ha Hp) as (? & ? & _). congruence. }
  assert (Hev : forall s k, s ∈ signals_of evidence (mr_id m, k) ->
    (cap_source s = "benchmark" -> comes_from evidence_rows weights (mr_id m) k s) /\
    (cap_source s = "production" -> forall capability hash min_conf fingerprint,
       ~ admissible capability hash min_conf fingerprint s)).
  { intros s k Hs. destruct (bound_signals_sound _ _ _ _ _ _ _ _ He Hs) as [Hb Hf]. split; [done|congruence]. }
  destruct adapter as [a|].
  - destruct Hsig as [Hh ->]. split; [done|]. intros s [Hs|Hs]%elem_of_app; [|by apply Hev].
    apply list_elem_of_fmap in Hs as (c & -> & _). by split.
  - subst signals. split; [by intros []|]. intros s [Hs|Hs]%elem_of_app; [|by apply Hev].
    apply elem_of_signals_for in Hs as (r & Hr & Hsrc & Hn). apply elem_of_filter_bool in Hr as [Hr _].
    split; [intros Hb; destruct (Hsource r Hr); congruence|]. intros Hp. by apply Hno.
Qed.

Lemma candidates_isolated_witness :
  exists prov signals, (facts_for sample_model false, prov, signals, None) ∈ sample_pool.
Proof.
  refine (proj1 (@candidates_isolated sample_digits [sample_model] [] sample_evidence sample_adapters
    sample_provider ∅ ∅ 0 None sample_pool _ _) sample_model _).
  - intros r Hr. by apply elem_of_nil in Hr.
  - reflexivity.
  - left.
Defined.
End Properties.
