(* ===== verification/Explanation.v ===== *)
(** * The explanation of a decision ([domain/routing/explanation.py])

    What a decision records about itself: the rejected candidates, the flags, what evidence stood
    behind it.  The explanation keeps the values its JSON payload renders; rendering is left out. *)

From S2P Require Import Prelude PyFloat Json ContextBudget Ordering EvidencePolicy Reliability Subject Scoring Constraints Ranking.
#[local] Open Scope string_scope.
#[local] Open Scope list_scope.
#[local] Open Scope Z_scope.

Definition STRATEGY_VERSION : string := "1.0.0".
Definition CONFIDENCE_POLICY_VERSION : string := "1.0.0".

Record EvidenceSummary := mkSummary {
  sm_source : string;
  sm_contributing_sources : list string;
  sm_profile_mismatched : Z;
  sm_foreign_machine : Z;
  sm_unbound : Z;
  sm_stale_used : Z;
  sm_candidates_considered : Z;
  sm_store : option (string * EvidenceOverview)       (* the overview and its status *)
}.

Section explanation.
Context `{Profiles}.

Record RejectedCandidate := mkRejectedCandidate {
  rj_subject : ExecutionSubject;
  rj_rejection : Rejection;
  rj_estimate : option VramEstimate
}.

(** What one score adds to the summary: the sources seen, and the counts of the three exclusions and
    of stale evidence used. *)
Definition summarize_score (acc : gset string * (Z * Z * Z * Z)) (c : CapabilityScore) : gset string * (Z * Z * Z * Z) :=
  let '(sources, (mismatched, foreign, unbound, stale)) := acc in
  if bool_decide (cs_source c = "evidence_profile_mismatch") then (sources, (mismatched + 1, foreign, unbound, stale))
  else if bool_decide (cs_source c = "evidence_foreign_machine") then (sources, (mismatched, foreign + 1, unbound, stale))
  else if bool_decide (cs_source c = "evidence_unbound") then (sources, (mismatched, foreign, unbound + 1, stale))
  else if present c
  then ({[ cs_source c ]} ∪ sources, (mismatched, foreign, unbound, if cs_stale c then stale + 1 else stale))
  else acc.

Definition scores_of (r : Ranking) : list CapabilityScore :=
  concat (map (fun c => tf_capabilities (rc_fit c)) (ordered r)).

Definition evidence_summary_of (r : Ranking) (rejected : list RejectedCandidate) (store : option EvidenceOverview)
  : EvidenceSummary :=
  let '(sources, (mismatched, foreign, unbound, stale)) :=
    fold_left summarize_score (scores_of r) (∅, (0, 0, 0, 0)) in
  mkSummary (if bool_decide ("benchmark" ∈ sources) then "freeweight" else "none")
    (py_sorted (leb_of String.compare) (elements sources)) mismatched foreign unbound stale
    (zlen (ordered r) + zlen rejected) ((fun o => (overview_status o, o)) <$> store).

Record Explanation := mkExplanation {
  ex_decision_id : string;
  ex_task_profile : string * string;
  ex_strategy : string * string;
  ex_requested_at : Z;
  ex_duration_ms : Z;
  ex_ranking : Ranking;
  ex_rejected : list RejectedCandidate;
  ex_flags : list string;
  ex_budget : option ContextBudget;
  ex_summary : EvidenceSummary;
  ex_telemetry : json;
  ex_overrides : json
}.

Definition flags_of (r : Ranking) (budget : option ContextBudget) (min_present_weight : f64)
    (breaker_state_unavailable : bool) : list string :=
  match primary r with
  | Some p =>
      (if measured_weight (rc_fit p) <? min_present_weight then ["low_evidence"] else []) ++
      (if bool_decide (sc_source (es_served_context (rc_subject p)) = "assumed") then ["assumed_context"] else [])
  | None => []
  end ++
  match budget with Some b => if b_reduced b then ["output_tokens_reduced"] else [] | None => [] end ++
  (if breaker_state_unavailable then ["breaker_state_unavailable"] else []).

Definition build_explanation (decision_id task_profile_id task_profile_version strategy_name : string)
    (requested_at duration_ms : Z) (r : Ranking) (rejected : list RejectedCandidate) (budget : option ContextBudget)
    (telemetry_snapshot overrides : json) (min_present_weight : f64) (evidence : option EvidenceOverview)
    (breaker_state_unavailable : bool) : Explanation :=
  mkExplanation decision_id (task_profile_id, task_profile_version) (strategy_name, STRATEGY_VERSION) requested_at duration_ms
    r rejected (flags_of r budget min_present_weight breaker_state_unavailable) budget
    (evidence_summary_of r rejected evidence) telemetry_snapshot overrides.

(** ** Lemmas *)

Definition excluded_as (source : string) (c : CapabilityScore) : bool := bool_decide (cs_source c = source).

(** A score that was used: present, under a source that is not an exclusion. *)
Definition contributes (c : CapabilityScore) : bool :=
  present c && negb (bool_decide (cs_source c ∈ EVIDENCE_EXCLUSIONS)).

Lemma countb_filter_and {A} (p q : A -> bool) l : countb (fun x => p x && q x) l = countb q (List.filter p l).
Proof.
  unfold countb. induction l as [|x l IH]; [done|]. cbn [List.filter]. destruct (p x); cbn [andb List.filter]; [|done].
  destruct (q x); [|done]. cbn [length]. lia.
Qed.

Lemma tally_eq (s s' : gset string) (a b c d a' b' c' d' : Z) :
  s = s' -> a = a' -> b = b' -> c = c' -> d = d' -> (s, (a, b, c, d)) = (s', (a', b', c', d')).
Proof. by intros -> -> -> -> ->. Qed.

Lemma summarize_scores l (sources : gset string) (mismatched foreign unbound stale : Z) :
  fold_left summarize_score l (sources, (mismatched, foreign, unbound, stale)) =
    (list_to_set (map cs_source (List.filter contributes l)) ∪ sources,
     (mismatched + countb (excluded_as EVIDENCE_PROFILE_MISMATCH) l, foreign + countb (excluded_as EVIDENCE_FOREIGN_MACHINE) l,
      unbound + countb (excluded_as EVIDENCE_UNBOUND) l, stale + countb (fun c => contributes c && cs_stale c) l)).
Proof.
  revert sources mismatched foreign unbound stale. induction l as [|c l IH]; intros sources m f u s; cbn [fold_left].
  { cbn. unfold countb. cbn. rewrite !Z.add_0_r. by rewrite (left_id_L ∅ (∪)). }
  assert (Hc : forall p : CapabilityScore -> bool, countb p (c :: l) = (if p c then 1 else 0) + countb p l).
  { intros p. unfold countb. cbn. destruct (p c); cbn; lia. }
  rewrite !Hc. cbn [List.filter].
  destruct (decide (cs_source c = "evidence_profile_mismatch")) as [E1|E1].
  { assert (Hs : summarize_score (sources, (m, f, u, s)) c = (sources, (m + 1, f, u, s))) by (unfold summarize_score; rewrite E1; done).
    assert (Hn : contributes c = false) by (unfold contributes; rewrite E1; apply andb_false_r).
    assert (Hx : excluded_as EVIDENCE_PROFILE_MISMATCH c = true /\ excluded_as EVIDENCE_FOREIGN_MACHINE c = false /\ excluded_as EVIDENCE_UNBOUND c = false) by (unfold excluded_as; rewrite E1; done).
    destruct Hx as (-> & -> & ->). rewrite Hs, IH, Hn. cbn -[countb]. apply tally_eq; [done|lia..]. }
  destruct (decide (cs_source c = "evidence_foreign_machine")) as [E2|E2].
  { assert (Hs : summarize_score (sources, (m, f, u, s)) c = (sources, (m, f + 1, u, s))) by (unfold summarize_score; rewrite E2; done).
    assert (Hn : contributes c = false) by (unfold contributes; rewrite E2; apply andb_false_r).
    assert (Hx : excluded_as EVIDENCE_PROFILE_MISMATCH c = false /\ excluded_as EVIDENCE_FOREIGN_MACHINE c = true /\ excluded_as EVIDENCE_UNBOUND c = false) by (unfold excluded_as; rewrite E2; done).
    destruct Hx as (-> & -> & ->). rewrite Hs, IH, Hn. cbn -[countb]. apply tally_eq; [done|lia..]. }
  destruct (decide (cs_source c = "evidence_unbound")) as [E3|E3].
  { assert (Hs : summarize_score (sources, (m, f, u, s)) c = (sources, (m, f, u + 1, s))) by (unfold summarize_score; rewrite E3; done).
    assert (Hn : contributes c = false) by (unfold contributes; rewrite E3; apply andb_false_r).
    assert (Hx : excluded_as EVIDENCE_PROFILE_MISMATCH c = false /\ excluded_as EVIDENCE_FOREIGN_MACHINE c = false /\ excluded_as EVIDENCE_UNBOUND c = true) by (unfold excluded_as; rewrite E3; done).
    destruct Hx as (-> & -> & ->). rewrite Hs, IH, Hn. cbn -[countb]. apply tally_eq; [done|lia..]. }
  assert (Hx : excluded_as EVIDENCE_PROFILE_MISMATCH c = false /\ excluded_as EVIDENCE_FOREIGN_MACHINE c = false /\
               excluded_as EVIDENCE_UNBOUND c = false) by (unfold excluded_as; rewrite !bool_decide_eq_false; done).
  destruct Hx as (-> & -> & ->).
  assert (Hn : contributes c = present c).
  { unfold contributes, EVIDENCE_EXCLUSIONS, EVIDENCE_PROFILE_MISMATCH, EVIDENCE_FOREIGN_MACHINE, EVIDENCE_UNBOUND in *.
    rewrite bool_decide_eq_false_2 by set_solver. apply andb_true_r. }
  assert (Hs : summarize_score (sources, (m, f, u, s)) c =
      if present c then ({[ cs_source c ]} ∪ sources, (m, f, u, if cs_stale c then s + 1 else s)) else (sources, (m, f, u, s))).
  { unfold summarize_score. rewrite !bool_decide_eq_false_2 by done. done. }
  rewrite Hs, Hn. destruct (present c); rewrite IH.
  - destruct (cs_stale c); cbn -[countb]; (apply tally_eq; [set_solver|lia..]).
  - cbn -[countb]. apply tally_eq; [done|lia..].
Qed.
End explanation.

Module Properties.

(** The honesty of an explanation.  [low_evidence] is raised exactly when a candidate was selected
    whose measured weight - benchmark, production or manual, never a declared flag or a prior - is
    below the floor; [assumed_context] exactly when its served context was assumed;
    [output_tokens_reduced] exactly when the budget reduced the allowance;
    [breaker_state_unavailable] exactly when no breaker registry was consulted; no other flag
    exists and each is raised once.  The evidence summary counts, over the ranked candidates' own
    breakdowns, the capabilities excluded for each of the three reasons and the stale ones used,
    names exactly the sources that contributed, and says [freeweight] exactly when a benchmark did. *)
Theorem explanation_honest `{Profiles} (decision_id task version strategy : string) (requested_at duration_ms : Z)
    (r : Ranking) (rejected : list RejectedCandidate) (budget : option ContextBudget) (telemetry overrides : json)
    (floor : f64) (evidence : option EvidenceOverview) (unavailable : bool) :
  let e := build_explanation decision_id task version strategy requested_at duration_ms r rejected budget telemetry
             overrides floor evidence unavailable in
  let used := List.filter contributes (scores_of r) in
  ("low_evidence" ∈ ex_flags e <-> exists p, primary r = Some p /\ measured_weight (rc_fit p) < floor) /\
  ("assumed_context" ∈ ex_flags e <->
     exists p, primary r = Some p /\ sc_source (es_served_context (rc_subject p)) = "assumed") /\
  ("output_tokens_reduced" ∈ ex_flags e <-> exists b, budget = Some b /\ b_reduced b = true) /\
  ("breaker_state_unavailable" ∈ ex_flags e <-> unavailable = true) /\
  NoDup (ex_flags e) /\
  (forall f, f ∈ ex_flags e ->
     f ∈ ["low_evidence"; "assumed_context"; "output_tokens_reduced"; "breaker_state_unavailable"]) /\
  (forall s, s ∈ sm_contributing_sources (ex_summary e) <-> exists c, c ∈ used /\ cs_source c = s) /\
  (sm_source (ex_summary e) = "freeweight" <-> exists c, c ∈ used /\ cs_source c = "benchmark") /\
  sm_profile_mismatched (ex_summary e) = countb (excluded_as EVIDENCE_PROFILE_MISMATCH) (scores_of r) /\
  sm_foreign_machine (ex_summary e) = countb (excluded_as EVIDENCE_FOREIGN_MACHINE) (scores_of r) /\
  sm_unbound (ex_summary e) = countb (excluded_as EVIDENCE_UNBOUND) (scores_of r) /\
  sm_stale_used (ex_summary e) = countb cs_stale used /\
  sm_candidates_considered (ex_summary e) = zlen (ordered r) + zlen rejected.
Proof.
  intros e used. unfold e, build_explanation, flags_of. cbn [ex_flags ex_summary].
  set (low := match primary r with Some p => measured_weight (rc_fit p) <? floor | None => false end).
  set (assumed := match primary r with Some p => bool_decide (sc_source (es_served_context (rc_subject p)) = "assumed") | None => false end).
  set (reduced := match budget with Some b => b_reduced b | None => false end).
  set (flags := _ ++ _ ++ _).
  assert (Hf : flags = (if low then ["low_evidence"] else []) ++ (if assumed then ["assumed_context"] else []) ++
                       (if reduced then ["output_tokens_reduced"] else []) ++ (if unavailable then ["breaker_state_unavailable"] else [])).
  { unfold flags, low, assumed, reduced. destruct (primary r), budget; rewrite <- ?app_assoc; done. }
  assert (Hlow : low = true <-> exists p, primary r = Some p /\ measured_weight (rc_fit p) < floor).
  { unfold low. destruct (primary r); [rewrite Z.ltb_lt|]; naive_solver. }
  assert (Hassumed : assumed = true <-> exists p, primary r = Some p /\ sc_source (es_served_context (rc_subject p)) = "assumed").
  { unfold assumed. destruct (primary r); [rewrite bool_decide_eq_true|]; naive_solver. }
  assert (Hreduced : reduced = true <-> exists b, budget = Some b /\ b_reduced b = true).
  { unfold reduced. destruct budget; naive_solver. }
  rewrite <- Hlow, <- Hassumed, <- Hreduced, Hf. clearbody low assumed reduced.
  split; [destruct low, assumed, reduced, unavailable; cbn; set_solver|].
  split; [destruct low, assumed, reduced, unavailable; cbn; set_solver|].
  split; [destruct low, assumed, reduced, unavailable; cbn; set_solver|].
  split; [destruct low, assumed, reduced, unavailable; cbn; set_solver|].
  split; [destruct low, assumed, reduced, unavailable; apply (bool_decide_unpack _); vm_compute; exact I|].
  split; [destruct low, assumed, reduced, unavailable; cbn; set_solver|].
  unfold evidence_summary_of. rewrite summarize_scores. cbn. rewrite !Z.add_0_l.
  assert (Hin : forall s, s ∈ (list_to_set (map cs_source used) ∪ ∅ : gset string) <-> exists c, c ∈ used /\ cs_source c = s).
  { intros s. rewrite elem_of_union, (elem_of_list_to_set (C := gset string)), elem_of_empty, list_elem_of_fmap. naive_solver. }
  split; [intros s; rewrite elem_of_py_sorted, (elem_of_elements (C := gset string)); apply Hin|].
  split; [rewrite <- Hin; fold used; case_bool_decide as Hb; split; (done || tauto)|].
  do 3 (split; [done|]). split; [|done].
  apply countb_filter_and.
Qed.
End Properties.
