(* ===== verification/ReliabilityService.v ===== *)
(** * The reliability service ([services/reliability.py])

    The tables behind the statistics - attempts, feedback, jobs, [reliability_stats] - and the
    operations on them: the recomputation of one subject and of every known one, the factors a
    routing decision reads, the circuit breaker's samples and the persistence of its verdicts, and
    the report.  A write transaction that raises leaves the store as it was. *)

From Stdlib Require Import Ascii String.
From S2P Require Import Prelude PyFloat Json Ordering EvidencePolicy Reliability CircuitBreaker Subject.
#[local] Open Scope string_scope.
#[local] Open Scope list_scope.
#[local] Open Scope Z_scope.

(** ** Rows *)

Record JobRow := mkJobRow {
  jr_task_profile_id : string;
  jr_selected_model_id : option string;
  jr_selected_adapter_id : option string
}.

Record AttemptRow := mkAttemptRow {
  ar_job_id : string;
  ar_model_id : option string;
  ar_adapter_id : option string;
  ar_subject_canonical_id : option string;
  ar_completed_at : option Z;
  ar_outcome : string;
  ar_provider_ms : option Z;
  ar_output_tokens : option Z
}.

Record FeedbackRow := mkFeedbackRow {
  fr_accepted : bool;
  fr_quality_score : option f64;
  fr_edited : bool;
  fr_validation_passed : option bool;
  fr_validation_detail : json;
  fr_notes : option string;
  fr_created_at : Z;
  fr_updated_at : Z
}.

(** A subject of one task profile: [(model_id, task_profile_id, adapter_key)]; the empty adapter key
    is the bare base. *)
Definition Pair : Type := string * string * string.
Definition pair_model (p : Pair) : string := p.1.1.
Definition pair_task (p : Pair) : string := p.1.2.
Definition pair_adapter (p : Pair) : string := p.2.

(** A row of [reliability_stats] under its uniqueness key, the pair and the window. *)
Record StatRow := mkStatRow {
  st_adapter_id : option string;
  st_stats : WindowStats;
  st_circuit_state : BreakerState;
  st_circuit_opened_at : option Z;
  st_circuit_reason : option Reason;
  st_updated_at : Z
}.

Record Store := mkStore {
  s_jobs : gmap string JobRow;
  s_attempts : list AttemptRow;
  s_feedback : gmap (string * string) FeedbackRow;       (* by (job_id, source) *)
  s_stats : gmap (Pair * string) StatRow;
  s_models : gmap string string;                         (* models.id -> canonical_id *)
  s_adapters : gmap string (string * string)             (* adapters.id -> name, artifact_sha256 *)
}.

Definition set_stats (stats : gmap (Pair * string) StatRow) (s : Store) : Store :=
  mkStore (s_jobs s) (s_attempts s) (s_feedback s) stats (s_models s) (s_adapters s).

(** ** Samples of one pair *)

(** The inner join with [jobs], the coalesced adapter and the task profile. *)
Definition attempt_outcome_of (jobs : gmap string JobRow) (p : Pair) (r : AttemptRow) : option AttemptOutcome :=
  match jobs !! ar_job_id r, ar_completed_at r with
  | Some j, Some completed_at =>
      if bool_decide (ar_model_id r = Some (pair_model p)) &&
         bool_decide (default "" (ar_adapter_id r) = pair_adapter p) &&
         bool_decide (jr_task_profile_id j = pair_task p)
      then Some (mkAttempt completed_at (ar_outcome r) (ar_provider_ms r) (ar_output_tokens r)) else None
  | _, _ => None
  end.

Definition attempt_outcomes (s : Store) (p : Pair) : list AttemptOutcome :=
  omap (attempt_outcome_of (s_jobs s) p) (s_attempts s).

Definition feedback_outcome_of (jobs : gmap string JobRow) (p : Pair) (r : string * string * FeedbackRow)
  : option FeedbackOutcome :=
  match jobs !! r.1.1 with
  | Some j =>
      if bool_decide (jr_selected_model_id j = Some (pair_model p)) &&
         bool_decide (default "" (jr_selected_adapter_id j) = pair_adapter p) &&
         bool_decide (jr_task_profile_id j = pair_task p)
      then Some (mkFeedback (fr_updated_at r.2) (fr_accepted r.2) (fr_quality_score r.2) (fr_edited r.2)
                   (fr_validation_passed r.2)) else None
  | None => None
  end.

Definition feedback_outcomes (s : Store) (p : Pair) : list FeedbackOutcome :=
  omap (feedback_outcome_of (s_jobs s) p) (map_to_list (s_feedback s)).

(** ** Recomputation *)

(** [weightsdb.upsert] of the statistics columns: an existing row keeps its breaker columns, a new
    one has the columns' defaults. *)
Definition upserted (old : option StatRow) (p : Pair) (now : Z) (w : WindowStats) : StatRow :=
  let adapter_id := if bool_decide (pair_adapter p = "") then None else Some (pair_adapter p) in
  match old with
  | Some r => mkStatRow adapter_id w (st_circuit_state r) (st_circuit_opened_at r) (st_circuit_reason r) now
  | None => mkStatRow adapter_id w CLOSED None None now
  end.

Definition upsert_window (p : Pair) (now : Z) (stats : gmap (Pair * string) StatRow) (w : WindowStats)
  : gmap (Pair * string) StatRow :=
  <[(p, ws_window w) := upserted (stats !! (p, ws_window w)) p now w]> stats.

Definition write_windows (p : Pair) (windows : list WindowStats) (now : Z) (stats : gmap (Pair * string) StatRow)
  : gmap (Pair * string) StatRow := fold_left (upsert_window p now) windows stats.

Definition fresh_windows (s : Store) (p : Pair) (now : Z) : result (list WindowStats) :=
  map_ok (fun w => compute_stats (attempt_outcomes s p) (feedback_outcomes s p) w now) WINDOWS.

Definition recompute_pair (p : Pair) (now : Z) (s : Store) : Store * result (list WindowStats) :=
  match fresh_windows s p now with
  | Ok windows => (set_stats (write_windows p windows now (s_stats s)) s, Ok windows)
  | Raise e => (s, Raise e)
  end.

Definition attempted_pair (jobs : gmap string JobRow) (r : AttemptRow) : option Pair :=
  match jobs !! ar_job_id r, ar_model_id r with
  | Some j, Some m => Some (m, jr_task_profile_id j, default "" (ar_adapter_id r))
  | _, _ => None
  end.

Definition judged_pair (jobs : gmap string JobRow) (r : string * string * FeedbackRow) : option Pair :=
  match jobs !! r.1.1 with
  | Some j => match jr_selected_model_id j with
              | Some m => Some (m, jr_task_profile_id j, default "" (jr_selected_adapter_id j))
              | None => None
              end
  | None => None
  end.

(** The pairs with a row. *)
Definition stored_pairs (stats : gmap (Pair * string) StatRow) : gset Pair :=
  list_to_set (map (fun kr => kr.1.1) (map_to_list stats)).

Definition known_pairs (s : Store) : gset Pair :=
  list_to_set (omap (attempted_pair (s_jobs s)) (s_attempts s)) ∪
  list_to_set (omap (judged_pair (s_jobs s)) (map_to_list (s_feedback s))) ∪
  stored_pairs (s_stats s).

(** The loop over the pairs, each a transaction of its own; an exception ends it. *)
Fixpoint recompute_each (pairs : list Pair) (now : Z) (s : Store) : Store * result unit :=
  match pairs with
  | [] => (s, Ok tt)
  | p :: rest =>
      match recompute_pair p now s with
      | (s', Ok _) => recompute_each rest now s'
      | (s', Raise e) => (s', Raise e)
      end
  end.

(** [sorted] on the triples. *)
Definition cmp_pairs : Pair -> Pair -> comparison := cmp_pair (cmp_pair String.compare String.compare) String.compare.

Definition recompute_all (now : Z) (s : Store) : Store * result Z :=
  let pairs := py_sorted (leb_of (cmp_on id cmp_pairs)) (elements (known_pairs s)) in
  let '(s', r) := recompute_each pairs now s in
  (s', _ ← r; Ok (zlen pairs)).

(** ** Reads *)

Definition window_of_row (p : Pair) (kr : Pair * string * StatRow) : option (string * WindowStats) :=
  if bool_decide (kr.1.1 = p) then Some (kr.1.2, st_stats kr.2) else None.

(** [{row.window: _stats_of(row) for row in rows}]; a pair has one row per window. *)
Definition window_rows (stats : gmap (Pair * string) StatRow) (p : Pair) : gmap string WindowStats :=
  list_to_map (omap (window_of_row p) (map_to_list stats)).

Definition stats_for (s : Store) (p : Pair) : gmap string WindowStats := window_rows (s_stats s) p.

(** Every subject of the profile with a row, and the factor of its windows. *)
Definition factors_for_task (s : Store) (task_profile_id : string) : gmap (string * string) ReliabilityFactor :=
  list_to_map (map (fun p => ((pair_model p, pair_adapter p), reliability_factor (window_rows (s_stats s) p)))
    (List.filter (fun p => bool_decide (pair_task p = task_profile_id)) (elements (stored_pairs (s_stats s))))).

(** ** The circuit breaker *)

(** The subject an attempt counts for; an attempt without a subject string ran on the bare base. *)
Definition sample_subject (models : gmap string string) (r : AttemptRow) : option string :=
  match ar_model_id r ≫= fun m => models !! m with
  | Some canonical_id => Some (or_str (ar_subject_canonical_id r) canonical_id)
  | None => None
  end.

Definition breaker_sample (s : Store) (since : Z) (r : AttemptRow) : option (string * AttemptSample) :=
  match sample_subject (s_models s) r, ar_completed_at r with
  | Some subject, Some completed_at =>
      if (since <? completed_at) && negb (bool_decide (ar_outcome r = "cancelled"))
      then Some (subject, mkSample completed_at (counts_as_success (ar_outcome r))) else None
  | _, _ => None
  end.

Definition breaker_samples (s : Store) (since : Z) : gmap string (list AttemptSample) :=
  (fun l => map snd l) <$> list_to_map (group_by fst (omap (breaker_sample s since) (s_attempts s))).

Section subjects.
Context `{Profiles}.

Definition subject_id_of (canonical_id : string) (adapter : option (string * string)) : string :=
  match adapter with
  | None => canonical_id
  | Some (name, digest) => canonical_id +:+ canonical_suffix name digest
  end.

(** The subject a row is about, by the inner join with [models] and the outer join with [adapters]. *)
Definition row_subject (s : Store) (p : Pair) (r : StatRow) : option string :=
  canonical_id ← s_models s !! pair_model p;
  Some (subject_id_of canonical_id (st_adapter_id r ≫= fun a => s_adapters s !! a)).

(** [{verdict.canonical_id: verdict for verdict in verdicts}]. *)
Definition verdicts_by_subject (vs : list BreakerVerdict) : gmap string BreakerVerdict :=
  fold_left (fun m v => <[v_id v := v]> m) vs ∅.

Definition verdict_of_row (s : Store) (vs : gmap string BreakerVerdict) (k : Pair * string) (r : StatRow)
  : option BreakerVerdict := subject ← row_subject s k.1 r; vs !! subject.

Definition with_verdict (now : Z) (v : BreakerVerdict) (r : StatRow) : StatRow :=
  mkStatRow (st_adapter_id r) (st_stats r) (v_state v) (v_opened_at v) (Some (v_reason v)) now.

Definition record_breaker_verdicts (vs : list BreakerVerdict) (now : Z) (s : Store) : Store * Z :=
  let by_subject := verdicts_by_subject vs in
  if bool_decide (by_subject = ∅) then (s, 0)
  else
    (set_stats (map_imap (fun k r => Some (match verdict_of_row s by_subject k r with
                                           | Some v => with_verdict now v r | None => r end)) (s_stats s)) s,
     countb (fun kr => bool_decide (is_Some (verdict_of_row s by_subject kr.1 kr.2))) (map_to_list (s_stats s))).

(** ** The report *)

Record ReliabilityEntry := mkEntry {
  re_model_id : string;
  re_canonical_id : string;
  re_task_profile_id : string;
  re_windows : gmap string WindowStats;
  re_factor : ReliabilityFactor;
  re_regression : RegressionVerdict;
  re_circuit_state : BreakerState;
  re_circuit_opened_at : option Z;
  re_circuit_reason : option Reason;
  re_updated_at : Z;
  re_subject_canonical_id : string;
  re_adapter_name : option string
}.

(** [WindowStats(window=name)]. *)
Definition empty_stats (name : string) : WindowStats :=
  mkStats name 0 0 0 0 0 0 0 None None 0 None 0 None 0 None 0 None.

(** subject, profile, model, base and adapter name. *)
Definition EntryKey : Type := string * string * string * string * option string.

Definition entry_row (s : Store) (task_profile_id canonical_id : option string) (kr : Pair * string * StatRow)
  : option (EntryKey * (string * StatRow)) :=
  let p := kr.1.1 in
  match s_models s !! pair_model p with
  | None => None
  | Some base =>
      if match task_profile_id with Some t => bool_decide (pair_task p = t) | None => true end &&
         match canonical_id with Some c => bool_decide (base = c) | None => true end
      then
        let adapter := st_adapter_id kr.2 ≫= fun a => s_adapters s !! a in
        Some ((subject_id_of base adapter, pair_task p, pair_model p, base, fst <$> adapter), (kr.1.2, kr.2))
      else None
  end.

(** A later row of the same window replaces an earlier one; a window without one is empty. *)
Definition entry_windows (rows : list (string * StatRow)) : gmap string WindowStats :=
  fold_left (fun m kr => <[kr.1 := st_stats kr.2]> m) rows ∅ ∪
  list_to_map (map (fun w => (w_name w, empty_stats (w_name w))) WINDOWS).

Definition later_row (a b : string * StatRow) : bool := st_updated_at a.2 <? st_updated_at b.2.

Definition entry_of (g : EntryKey * list (string * StatRow)) : result (list ReliabilityEntry) :=
  let '(subject, profile, model_id, base, adapter_name) := g.1 in
  match g.2 with
  | [] => Ok []
  | first :: rest =>
      let windows := entry_windows g.2 in
      let latest := (py_max_from later_row first rest).2 in
      regression ← detect_regression (default (empty_stats "7d") (windows !! "7d"))
                     (default (empty_stats "all") (windows !! "all"));
      Ok [mkEntry model_id base profile windows (reliability_factor windows) regression (st_circuit_state latest)
            (st_circuit_opened_at latest) (st_circuit_reason latest) (st_updated_at latest) subject adapter_name]
  end.

Definition cmp_entries : EntryKey -> EntryKey -> comparison :=
  cmp_on (fun k : EntryKey => k.1.1) (cmp_pair (cmp_pair String.compare String.compare) String.compare).

Definition reliability_report (s : Store) (task_profile_id canonical_id : option string)
  : result (list ReliabilityEntry) :=
  let grouped := group_by fst (omap (entry_row s task_profile_id canonical_id) (map_to_list (s_stats s))) in
  entries ← map_ok (fun g => entry_of (g.1, map snd g.2)) (py_sorted (leb_of (cmp_on fst cmp_entries)) grouped);
  Ok (concat entries).

Definition regression_warnings (s : Store) : result (list ReliabilityEntry) :=
  entries ← reliability_report s None None;
  Ok (List.filter (fun e => regressed (re_regression e)) entries).
End subjects.

(** ** Lemmas: recomputation *)

Lemma find_first_cons {A} (p : A -> bool) x l : find_first p (x :: l) = if p x then Some x else find_first p l.
Proof. unfold find_first. cbn. by destruct (p x). Qed.

Lemma compute_stats_window atts fbs w now s : compute_stats atts fbs w now = Ok s -> ws_window s = w_name w.
Proof.
  unfold compute_stats. intros E. apply bind_Ok_inv in E as (? & _ & E). apply bind_Ok_inv in E as (? & _ & E).
  by injection E as <-.
Qed.

Lemma upserted_idem old p now w : upserted (Some (upserted old p now w)) p now w = upserted old p now w.
Proof. by destruct old. Qed.

Lemma upserted_adapter old p now w :
  st_adapter_id (upserted old p now w) = if bool_decide (pair_adapter p = "") then None else Some (pair_adapter p).
Proof. by destruct old. Qed.

(** The row a window of [windows] leaves under [(p, w)], if any. *)
Definition written (windows : list WindowStats) (p : Pair) (now : Z) (w : string) (old : option StatRow)
  : option StatRow :=
  match find_first (fun x => bool_decide (ws_window x = w)) windows with
  | Some x => Some (upserted old p now x)
  | None => old
  end.

Lemma write_windows_lookup (p : Pair) (windows : list WindowStats) (now : Z) (stats : gmap (Pair * string) StatRow) (q : Pair) (w : string) :
  NoDup (map ws_window windows) ->
  write_windows p windows now stats !! (q, w) =
    if bool_decide (q = p) then written windows p now w (stats !! (q, w)) else stats !! (q, w).
Proof.
  unfold write_windows. revert stats. induction windows as [|x windows IH]; intros stats Hn; cbn.
  - by case_bool_decide.
  - apply NoDup_cons in Hn as [Hx Hn]. rewrite IH by done. clear IH. unfold upsert_window.
    destruct (decide (q = p)) as [->|Hq].
    2: { rewrite !bool_decide_eq_false_2 by done. by rewrite lookup_insert_ne by congruence. }
    rewrite !bool_decide_eq_true_2 by done. unfold written. rewrite find_first_cons. case_bool_decide as Hw.
    + subst w. rewrite lookup_insert_eq.
      rewrite (proj2 (find_first_None (fun y => bool_decide (ws_window y = ws_window x)) windows)); [done|].
      intros y Hy. apply bool_decide_eq_false. intros E. apply Hx. rewrite <- E. by apply list_elem_of_fmap_2.
    + by rewrite lookup_insert_ne by congruence.
Qed.

Lemma fresh_windows_total s p now :
  zlen (s_attempts s) <= 2 ^ 53 -> exists windows : list WindowStats, fresh_windows s p now = Ok windows /\
    map ws_window windows = map w_name WINDOWS /\
    (forall w x, (w, x) ∈ zip WINDOWS windows -> compute_stats (attempt_outcomes s p) (feedback_outcomes s p) w now = Ok x).
Proof.
  intros Hs. assert (Ha : zlen (attempt_outcomes s p) <= 2 ^ 53).
  { etransitivity; [apply zlen_omap|done]. }
  assert (Hall : forall w, exists x, compute_stats (attempt_outcomes s p) (feedback_outcomes s p) w now = Ok x).
  { intros w. destruct (compute_stats_total (attempt_outcomes s p) (feedback_outcomes s p) w now Ha) as (x & E & _). by exists x. }
  unfold fresh_windows. generalize WINDOWS. intros ws. induction ws as [|w ws (xs & E & Hn & Hz)].
  - exists []. split; [done|]. split; [done|]. by intros w x ?%elem_of_nil.
  - destruct (Hall w) as [x Ex]. exists (x :: xs). cbn. rewrite Ex, E. cbn. split; [done|].
    rewrite (compute_stats_window _ _ _ _ _ Ex), Hn. split; [done|].
    intros w' x' [[= -> ->]|Hin]%elem_of_cons; [done|by apply Hz].
Qed.

Lemma windows_distinct : NoDup (map w_name WINDOWS).
Proof. apply (bool_decide_unpack _). vm_compute. exact I. Qed.

(** What recomputing [p] makes of the row of window [w]. *)
Definition refreshed (s : Store) (now : Z) (p : Pair) (w : string) : option StatRow :=
  match fresh_windows s p now with
  | Ok windows => written windows p now w (s_stats s !! (p, w))
  | Raise _ => s_stats s !! (p, w)
  end.

Lemma written_idem (windows : list WindowStats) (p : Pair) (now : Z) (w : string) (old : option StatRow) :
  written windows p now w (written windows p now w old) = written windows p now w old.
Proof. unfold written. destruct (find_first _ windows); [by rewrite upserted_idem|done]. Qed.

Lemma recompute_pair_spec s p now :
  zlen (s_attempts s) <= 2 ^ 53 ->
  exists (stats : gmap (Pair * string) StatRow) windows, recompute_pair p now s = (set_stats stats s, Ok windows) /\
    forall q w, stats !! (q, w) = if bool_decide (q = p) then refreshed s now p w else s_stats s !! (q, w).
Proof.
  intros Hs. destruct (fresh_windows_total s p now Hs) as (windows & E & Hn & _).
  unfold recompute_pair, refreshed. rewrite E. eexists _, windows. split; [done|]. intros q w.
  rewrite write_windows_lookup by (rewrite Hn; apply windows_distinct). case_bool_decide; subst; done.
Qed.

(** A pass over any pairs: each row of theirs is refreshed once, every other row is as before. *)
Lemma recompute_each_spec s pairs now :
  zlen (s_attempts s) <= 2 ^ 53 ->
  exists stats : gmap (Pair * string) StatRow, recompute_each pairs now s = (set_stats stats s, Ok tt) /\
    forall q w, stats !! (q, w) = if bool_decide (q ∈ pairs) then refreshed s now q w else s_stats s !! (q, w).
Proof.
  revert s. induction pairs as [|p pairs IH]; intros s Hs.
  { exists (s_stats s). split; [by destruct s|]. intros q w. rewrite bool_decide_eq_false_2; [done|apply not_elem_of_nil]. }
  destruct (recompute_pair_spec s p now Hs) as (stats & windows & E & Hl).
  destruct (IH (set_stats stats s) Hs) as (stats' & E' & Hl'). exists stats'. cbn. rewrite E. split; [exact E'|].
  intros q w. rewrite Hl'. change (s_stats (set_stats stats s)) with stats.
  assert (Hr : refreshed (set_stats stats s) now q w =
    match fresh_windows s q now with Ok ws => written ws q now w (stats !! (q, w)) | Raise _ => stats !! (q, w) end) by done.
  rewrite Hr, !Hl. clear Hr. unfold refreshed at 1 2.
  destruct (decide (q = p)) as [->|Hq].
  - rewrite (bool_decide_eq_true_2 (p = p)) by done. rewrite (bool_decide_eq_true_2 (p ∈ p :: pairs)) by left.
    unfold refreshed. destruct (fresh_windows s p now); [rewrite written_idem|]; by case_bool_decide.
  - rewrite (bool_decide_eq_false_2 (q = p)) by done. unfold refreshed.
    destruct (decide (q ∈ pairs)) as [Hin|Hin].
    + rewrite !bool_decide_eq_true_2; [done|by right|done].
    + rewrite !bool_decide_eq_false_2; [done| |done]. by intros [?|?]%elem_of_cons.
Qed.

Lemma window_rows_lookup (stats : gmap (Pair * string) StatRow) (p : Pair) (w : string) : window_rows stats p !! w = st_stats <$> stats !! (p, w).
Proof.
  unfold window_rows. set (l := omap (window_of_row p) (map_to_list stats)).
  assert (Hin : forall x, (w, x) ∈ l <-> exists r, stats !! (p, w) = Some r /\ x = st_stats r).
  { intros x. unfold l. rewrite list_elem_of_omap. split.
    - intros ([[q w'] r] & Hr%elem_of_map_to_list & E). unfold window_of_row in E. cbn in E.
      case_bool_decide; [|done]. injection E as <- <-. subst. by exists r.
    - intros (r & Hr & ->). exists (p, w, r). split; [by apply elem_of_map_to_list|].
      unfold window_of_row. cbn. by rewrite bool_decide_eq_true_2. }
  assert (Hd : forall x y, (w, x) ∈ l -> (w, y) ∈ l -> x = y).
  { intros x y (r & Hr & ->)%Hin (r' & Hr' & ->)%Hin. congruence. }
  destruct (stats !! (p, w)) as [r|] eqn:Er; cbn.
  - apply elem_of_list_to_map_1'; [intros y Hy; apply Hd; [|done]|]; apply Hin; by exists r.
  - apply not_elem_of_list_to_map_1. intros Hw. apply list_elem_of_fmap in Hw as ([w' x] & -> & Hx).
    apply Hin in Hx as (r & ? & _). cbn in *. congruence.
Qed.

Lemma refreshed_fresh s now p w :
  zlen (s_attempts s) <= 2 ^ 53 -> w ∈ WINDOWS ->
  exists x, refreshed s now p (w_name w) = Some (upserted (s_stats s !! (p, w_name w)) p now x) /\
    compute_stats (attempt_outcomes s p) (feedback_outcomes s p) w now = Ok x.
Proof.
  intros Hs Hw. destruct (fresh_windows_total s p now Hs) as (windows & E & Hn & Hz).
  unfold refreshed, written. rewrite E. clear E.
  assert (Hf : exists x, find_first (fun x => bool_decide (ws_window x = w_name w)) windows = Some x /\ (w, x) ∈ zip WINDOWS windows).
  { pose proof windows_distinct as Hd. clear Hz Hs. revert windows Hn Hw Hd. generalize WINDOWS. intros ws.
    induction ws as [|v ws IH]; intros [|y windows] Hn Hw Hd; try done; [by apply elem_of_nil in Hw|].
    cbn in Hn, Hd. injection Hn as Hy Hn. apply NoDup_cons in Hd as [Hv Hd]. rewrite find_first_cons, Hy.
    apply elem_of_cons in Hw as [->|Hw].
    - rewrite bool_decide_eq_true_2 by done. exists y. split; [done|]. cbn. left.
    - rewrite bool_decide_eq_false_2.
      + destruct (IH windows Hn Hw Hd) as (x & Hx & Hin). exists x. split; [done|]. cbn. by right.
      + intros Heq. apply Hv. rewrite Heq. by apply list_elem_of_fmap_2. }
  destruct Hf as (x & -> & Hin). exists x. split; [done|]. by apply Hz.
Qed.

Lemma refreshed_is_Some s now p w r :
  s_stats s !! (p, w) = Some r -> exists r', refreshed s now p w = Some r' /\
    st_circuit_state r' = st_circuit_state r /\ st_circuit_opened_at r' = st_circuit_opened_at r /\
    st_circuit_reason r' = st_circuit_reason r.
Proof.
  intros Hr. unfold refreshed, written. rewrite Hr. destruct (fresh_windows s p now) as [ws|e]; [|by exists r].
  destruct (find_first _ ws); [by eexists|by exists r].
Qed.

Lemma refreshed_idem (s : Store) (stats : gmap (Pair * string) StatRow) (now : Z) (q : Pair) (w : string) :
  stats !! (q, w) = refreshed s now q w -> refreshed (set_stats stats s) now q w = refreshed s now q w.
Proof.
  intros Hl. unfold refreshed at 1. change (s_stats (set_stats stats s)) with stats. rewrite Hl.
  change (fresh_windows (set_stats stats s) q now) with (fresh_windows s q now).
  unfold refreshed. destruct (fresh_windows s q now); [by rewrite written_idem|done].
Qed.

Lemma elem_of_stored_pairs (stats : gmap (Pair * string) StatRow) (p : Pair) :
  p ∈ stored_pairs stats <-> exists w, is_Some (stats !! (p, w)).
Proof.
  unfold stored_pairs. rewrite (elem_of_list_to_set (C := gset Pair)). rewrite list_elem_of_fmap. split.
  - intros ([[q w] r] & -> & Hr%elem_of_map_to_list). exists w. by exists r.
  - intros (w & r & Hr). exists (p, w, r). split; [done|]. by apply elem_of_map_to_list.
Qed.

(** A pair nobody knows has no sample. *)
Lemma unknown_pair s p : p ∉ known_pairs s ->
  attempt_outcomes s p = [] /\ feedback_outcomes s p = [] /\ forall w, s_stats s !! (p, w) = None.
Proof.
  unfold known_pairs. rewrite !elem_of_union, !(elem_of_list_to_set (C := gset Pair)), elem_of_stored_pairs.
  intros Hp. destruct p as [[m t] a].
  assert (Hnil : forall {A B} (f : A -> option B) l, (forall x, x ∈ l -> f x = None) -> omap f l = []).
  { intros A B f l Hf. induction l as [|x l IH]; cbn; [done|]. rewrite (Hf x) by left.
    apply IH. intros y Hy. apply Hf. by right. }
  split; [|split].
  - apply Hnil. intros r Hr. destruct (attempt_outcome_of (s_jobs s) (m, t, a) r) eqn:E; [|done]. exfalso.
    apply Hp. left. left. apply list_elem_of_omap. exists r. split; [done|].
    unfold attempt_outcome_of, attempted_pair in *. destruct (s_jobs s !! ar_job_id r); [|done].
    destruct (ar_completed_at r); [|done]. case_match eqn:Hb; [|done]. bool_to_prop.
    repeat match goal with H : ar_model_id r = _ |- _ => rewrite H | H : bool_decide _ = true |- _ => apply bool_decide_eq_true in H end.
    cbn in *. by subst.
  - apply Hnil. intros r Hr. destruct (feedback_outcome_of (s_jobs s) (m, t, a) r) eqn:E; [|done]. exfalso.
    apply Hp. left. right. apply list_elem_of_omap. exists r. split; [done|].
    unfold feedback_outcome_of, judged_pair in *. destruct (s_jobs s !! r.1.1) as [j|]; [|done].
    case_match eqn:Hb; [|done]. bool_to_prop.
    repeat match goal with H : jr_selected_model_id j = _ |- _ => rewrite H end. cbn in *. by subst.
  - intros w. apply eq_None_not_Some. intros Hw. apply Hp. right. by exists w.
Qed.

Lemma recompute_all_store now s :
  zlen (s_attempts s) <= 2 ^ 53 ->
  exists stats : gmap (Pair * string) StatRow,
    recompute_all now s = (set_stats stats s, Ok (Z.of_nat (size (known_pairs s)))) /\
    forall q w, stats !! (q, w) = if bool_decide (q ∈ known_pairs s) then refreshed s now q w else s_stats s !! (q, w).
Proof.
  intros Hs. unfold recompute_all. set (pairs := py_sorted _ _).
  assert (Hp : forall q, q ∈ pairs <-> q ∈ known_pairs s).
  { intros q. unfold pairs. by rewrite elem_of_py_sorted, (elem_of_elements (C := gset Pair)). }
  destruct (recompute_each_spec s pairs now Hs) as (stats & E & Hl). exists stats. rewrite E. split.
  - unfold zlen, pairs. rewrite py_sorted_length. done.
  - intros q w. rewrite Hl. by rewrite (bool_decide_ext _ _ (Hp q)).
Qed.

(** The same set of pairs in any order leaves the same store. *)
Lemma recompute_each_store now s pairs :
  zlen (s_attempts s) <= 2 ^ 53 -> (forall p, p ∈ pairs <-> p ∈ known_pairs s) ->
  recompute_each pairs now s = ((recompute_all now s).1, Ok tt).
Proof.
  intros Hs Hp. destruct (recompute_all_store now s Hs) as (stats & E & Hl).
  destruct (recompute_each_spec s pairs now Hs) as (stats' & E' & Hl'). rewrite E, E'. cbn. do 2 f_equal.
  apply map_eq. intros [q w]. rewrite Hl, Hl'. by rewrite (bool_decide_ext _ _ (Hp q)).
Qed.

Lemma known_pairs_recomputed now s :
  zlen (s_attempts s) <= 2 ^ 53 -> known_pairs (recompute_all now s).1 = known_pairs s.
Proof.
  intros Hs. destruct (recompute_all_store now s Hs) as (stats & E & Hl). rewrite E. cbn.
  apply set_eq. intros p. unfold known_pairs. cbn. rewrite !elem_of_union, !elem_of_stored_pairs.
  split; [|intros [Hp|(w & r & Hr)]; [by left|right]].
  - intros [Hp|(w & Hw)]; [by left|]. rewrite Hl in Hw. case_bool_decide as Hk; [|right; by exists w].
    unfold known_pairs in Hk. by rewrite !elem_of_union, elem_of_stored_pairs in Hk.
  - exists w. rewrite Hl. case_bool_decide as Hk; [|by exists r].
    destruct (refreshed_is_Some s now p w r Hr) as (r' & -> & _). by eexists.
Qed.

Lemma recompute_all_idem now s :
  zlen (s_attempts s) <= 2 ^ 53 -> recompute_all now (recompute_all now s).1 = recompute_all now s.
Proof.
  intros Hs. pose proof (known_pairs_recomputed now s Hs) as Hk.
  destruct (recompute_all_store now s Hs) as (stats & E & Hl). rewrite E in Hk |- *. cbn [fst] in Hk |- *.
  destruct (recompute_all_store now (set_stats stats s) Hs) as (stats' & E' & Hl'). rewrite E'. rewrite Hk. f_equal.
  unfold set_stats. cbn. f_equal. apply map_eq. intros [q w]. rewrite Hl', Hk. cbn. rewrite !Hl.
  case_bool_decide as Hq; [|done]. apply refreshed_idem. by rewrite Hl, bool_decide_eq_true_2.
Qed.

(** ** Lemmas: the breaker *)

(** The samples of one subject, in the order of the rows. *)
Definition samples_of (s : Store) (since : Z) (k : string) : list AttemptSample :=
  omap (fun r => match breaker_sample s since r with
                 | Some (k', x) => if bool_decide (k' = k) then Some x else None
                 | None => None
                 end) (s_attempts s).

Lemma breaker_samples_lookup s since k :
  breaker_samples s since !! k = match samples_of s since k with [] => None | l => Some l end.
Proof.
  unfold breaker_samples. rewrite lookup_fmap. set (l := omap (breaker_sample s since) (s_attempts s)).
  assert (Hsel : map snd (List.filter (fun x : string * AttemptSample => bool_decide (x.1 = k)) l) = samples_of s since k).
  { unfold l, samples_of. induction (s_attempts s) as [|r rows IH]; cbn; [done|].
    destruct (breaker_sample s since r) as [[k' x]|]; cbn; [|exact IH].
    case_bool_decide; cbn; [by rewrite IH|exact IH]. }
  destruct (group_by_groups fst l) as [Hn Hg].
  destruct (list_to_map (M := gmap string (list (string * AttemptSample))) (group_by fst l) !! k) as [xs|] eqn:E; cbn.
  - apply elem_of_list_to_map_2 in E. apply Hg in E as [-> Hne]. rewrite <- Hsel.
    destruct (List.filter _ l); [done|]. done.
  - apply not_elem_of_list_to_map_2 in E. destruct (samples_of s since k) eqn:Es; [done|]. exfalso. apply E.
    apply list_elem_of_fmap. exists (k, List.filter (fun x : string * AttemptSample => bool_decide (x.1 = k)) l).
    split; [done|]. apply Hg. split; [done|]. intros Hnil. rewrite Hnil in Hsel. done.
Qed.

(** The last of [vs] about [k]. *)
Lemma verdicts_by_subject_lookup vs k :
  verdicts_by_subject vs !! k = find_first (fun v => bool_decide (v_id v = k)) (rev vs).
Proof.
  unfold verdicts_by_subject. induction vs as [|v vs IH] using rev_ind; [done|].
  rewrite fold_left_app, rev_app_distr. cbn. rewrite find_first_cons. case_bool_decide as E.
  - subst k. apply lookup_insert_eq.
  - by rewrite lookup_insert_ne.
Qed.

Lemma record_breaker_verdicts_lookup `{Profiles} vs now s k :
  s_stats (record_breaker_verdicts vs now s).1 !! k =
    (fun r => match verdict_of_row s (verdicts_by_subject vs) k r with Some v => with_verdict now v r | None => r end)
      <$> s_stats s !! k.
Proof.
  unfold record_breaker_verdicts. case_bool_decide as E; cbn.
  - rewrite E. unfold verdict_of_row. destruct (s_stats s !! k) as [r|]; [|done]. cbn. f_equal.
    destruct (row_subject s k.1 r); [|done]. cbn. by rewrite lookup_empty.
  - rewrite map_lookup_imap. by destruct (s_stats s !! k).
Qed.

Lemma find_last {A} (p : A -> bool) l x : find_first p (rev l) = Some x ->
  exists before after, l = before ++ x :: after /\ p x = true /\ forall y, y ∈ after -> p y = false.
Proof.
  induction l as [|y l IH] using rev_ind; [done|]. rewrite rev_app_distr. cbn. rewrite find_first_cons.
  destruct (p y) eqn:E.
  - intros [= ->]. exists l, []. split; [done|]. split; [done|]. by intros z ?%elem_of_nil.
  - intros (before & after & -> & Hx & Ha)%IH. exists before, (after ++ [y]). rewrite <- app_assoc. split; [done|].
    split; [done|]. intros z [Hz| ->%list_elem_of_singleton]%elem_of_app; [by apply Ha|done].
Qed.

Lemma list_omap_ext_pointwise {A B} (f g : A -> option B) (l : list A) : (forall x, f x = g x) -> omap f l = omap g l.
Proof. intros E. induction l as [|x l IH]; cbn; [done|]. by rewrite E, IH. Qed.

(** A concrete store: one job of each of two subjects of one model, each with one attempt. *)
Definition sample_store : Store :=
  mkStore {[ "j1" := mkJobRow "chat" (Some "m") None; "j2" := mkJobRow "chat" (Some "m") (Some "a") ]}
    [mkAttemptRow "j1" (Some "m") None (Some "base") (Some 10) "completed" (Some 5) (Some 7);
     mkAttemptRow "j2" (Some "m") (Some "a") (Some "base+a") (Some 20) "timeout" None None]
    ∅ ∅ {[ "m" := "base" ]} {[ "a" := ("a", "sha") ]}.

Module Properties.

(** Recomputing all the statistics agrees with recomputing the same subjects one at a time in any
    order, and nothing is left to do afterwards.  It never fails, counts the subjects somebody has an
    attempt, a verdict or a row for, leaves each of them with the statistics of its own attempts and
    feedback in every window, pools nothing across subjects, and keeps the breaker's columns; a
    subject it skips has no sample at all. *)
Theorem recompute_agrees (s : Store) (now : Z) (pairs : list Pair) (Hsize : zlen (s_attempts s) <= 2 ^ 53)
    (Hcover : forall p, p ∈ pairs <-> p ∈ known_pairs s) :
  let '(s', r) := recompute_all now s in
  r = Ok (Z.of_nat (size (known_pairs s))) /\
  recompute_each pairs now s = (s', Ok tt) /\ recompute_all now s' = (s', r) /\
  (forall p w, p ∈ known_pairs s -> w ∈ WINDOWS -> exists x, stats_for s' p !! w_name w = Some x /\
     compute_stats (attempt_outcomes s p) (feedback_outcomes s p) w now = Ok x) /\
  (forall p, p ∉ known_pairs s -> attempt_outcomes s p = [] /\ feedback_outcomes s p = [] /\ stats_for s' p = ∅) /\
  (forall k row, s_stats s !! k = Some row -> exists row', s_stats s' !! k = Some row' /\
     st_circuit_state row' = st_circuit_state row /\ st_circuit_opened_at row' = st_circuit_opened_at row /\
     st_circuit_reason row' = st_circuit_reason row).
Proof.
  pose proof (recompute_each_store now s pairs Hsize Hcover) as He. pose proof (recompute_all_idem now s Hsize) as Hi.
  destruct (recompute_all_store now s Hsize) as (stats & E & Hl). rewrite E in He, Hi |- *. cbn [fst] in He, Hi.
  split; [done|]. split; [exact He|]. split; [exact Hi|]. split; [|split].
  - intros p w Hp Hw. destruct (refreshed_fresh s now p w Hsize Hw) as (x & Hx & Hc). exists x. split; [|done].
    unfold stats_for. rewrite window_rows_lookup. cbn. rewrite Hl, bool_decide_eq_true_2, Hx by done. cbn.
    by destruct (s_stats s !! (p, w_name w)).
  - intros p Hp. destruct (unknown_pair s p Hp) as (Ha & Hf & Hn). split; [done|]. split; [done|].
    apply map_empty. intros w. unfold stats_for. rewrite window_rows_lookup. cbn.
    by rewrite Hl, bool_decide_eq_false_2, Hn.
  - intros [p w] row Hr. cbn. rewrite Hl. case_bool_decide; [by apply refreshed_is_Some|by exists row].
Qed.

Lemma recompute_agrees_witness :
  recompute_each [("m", "chat", "a"); ("m", "chat", "")] 30 sample_store = ((recompute_all 30 sample_store).1, Ok tt).
Proof.
  pose proof (recompute_agrees sample_store 30 [("m", "chat", "a"); ("m", "chat", "")]) as H.
  destruct (recompute_all 30 sample_store) as [s' r]. cbn [fst]. refine (proj1 (proj2 (H _ _))).
  - vm_compute. discriminate.
  - assert (E : list_to_set ([("m", "chat", "a"); ("m", "chat", "")] : list Pair) = known_pairs sample_store)
      by (apply (bool_decide_unpack _); vm_compute; exact I).
    intros p. rewrite <- E. by rewrite (elem_of_list_to_set (C := gset Pair)).
Defined.

(** A subject's breaker looks at that subject alone.  Its samples are its own uncancelled attempts
    since the start of the window, in order, whatever attempts other subjects have; and persisting
    verdicts changes a row exactly when the last verdict about the row's subject is among them, then
    only its breaker columns and its timestamp, so that no statistic a decision reads moves. *)
Theorem breaker_isolation `{Profiles} (s : Store) (since now : Z) (vs : list BreakerVerdict) :
  (forall subject, default [] (breaker_samples s since !! subject) =
     omap (fun r => match sample_subject (s_models s) r, ar_completed_at r with
                    | Some k, Some t =>
                        if bool_decide (k = subject /\ since < t /\ ar_outcome r <> "cancelled")
                        then Some (mkSample t (counts_as_success (ar_outcome r))) else None
                    | _, _ => None end) (s_attempts s)) /\
  (let s' := (record_breaker_verdicts vs now s).1 in
   (forall p w row, s_stats s !! (p, w) = Some row -> exists row', s_stats s' !! (p, w) = Some row' /\
      st_stats row' = st_stats row /\ st_adapter_id row' = st_adapter_id row /\
      ((exists subject before v after, row_subject s p row = Some subject /\ vs = before ++ v :: after /\
          v_id v = subject /\ (forall x, x ∈ after -> v_id x <> subject) /\
          st_circuit_state row' = v_state v /\ st_circuit_opened_at row' = v_opened_at v /\ st_updated_at row' = now) \/
       ((forall subject v, row_subject s p row = Some subject -> v ∈ vs -> v_id v <> subject) /\ row' = row))) /\
   (forall t, factors_for_task s' t = factors_for_task s t)).
Proof.
  split.
  - intros subject. rewrite breaker_samples_lookup.
    transitivity (samples_of s since subject); [by destruct (samples_of s since subject)|].
    unfold samples_of. apply list_omap_ext_pointwise. intros r. unfold breaker_sample.
    destruct (sample_subject (s_models s) r) as [k|]; [|done]. destruct (ar_completed_at r) as [t|]; [|done].
    rewrite !bool_decide_and, (bool_decide_not (ar_outcome r = "cancelled")).
    destruct (Z.ltb_spec since t); [|rewrite (bool_decide_eq_false_2 (since < t)) by lia; by rewrite andb_false_r].
    rewrite (bool_decide_eq_true_2 (since < t)) by lia. cbn. destruct (negb _); cbn; by rewrite ?andb_true_r, ?andb_false_r.
  - split.
    + intros p w row Hr. rewrite record_breaker_verdicts_lookup, Hr. cbn. eexists. split; [reflexivity|].
      unfold verdict_of_row. cbn. destruct (row_subject s p row) as [subject|] eqn:Es; cbn.
      2: { split; [done|]. split; [done|]. right. by split. }
      rewrite verdicts_by_subject_lookup. destruct (find_first _ (rev vs)) as [v|] eqn:Ef.
      * split; [done|]. split; [done|]. left. apply find_last in Ef as (before & after & -> & Hv & Ha).
        exists subject, before, v, after. apply bool_decide_eq_true in Hv. repeat split; try done.
        intros x Hx. pose proof (Ha x Hx) as Hf. by apply bool_decide_eq_false in Hf.
      * split; [done|]. split; [done|]. right. split; [|done]. intros subject' v [= <-] Hv.
        assert (Hf : v ∈ rev vs) by (rewrite list_elem_of_In, <- in_rev, <- list_elem_of_In; done).
        pose proof (proj1 (find_first_None _ _) Ef v Hf) as Hd. by apply bool_decide_eq_false in Hd.
    + intros t. unfold factors_for_task.
      assert (Hw : forall p, window_rows (s_stats (record_breaker_verdicts vs now s).1) p = window_rows (s_stats s) p).
      { intros p. apply map_eq. intros w. rewrite !window_rows_lookup, record_breaker_verdicts_lookup.
        destruct (s_stats s !! (p, w)) as [r|]; [|done]. cbn. by destruct (verdict_of_row _ _ _ _). }
      assert (Hp : stored_pairs (s_stats (record_breaker_verdicts vs now s).1) = stored_pairs (s_stats s)).
      { apply set_eq. intros p. rewrite !elem_of_stored_pairs. f_equiv. intros w.
        by rewrite record_breaker_verdicts_lookup, fmap_is_Some. }
      rewrite Hp. f_equal. apply list_fmap_ext. intros ? p _. by rewrite Hw.
Qed.
End Properties.
