(* ===== verification/Feedback.v ===== *)
(** * Feedback and the refresh of the statistics

    A caller's verdict on a job ([services/feedback.py]), and the three places that refresh the
    statistics after an event: feedback, a worker's attempt ([services/worker.py]) and a synchronous
    execution ([services/execution.py]).  Row ids are not modelled: a verdict is named by its job and
    its source. *)

From Stdlib Require Import Ascii String.
From S2P Require Import Prelude PyFloat PyStr Json Ordering EvidencePolicy Authorization Reliability CircuitBreaker Subject ReliabilityService.
#[local] Open Scope string_scope.
#[local] Open Scope list_scope.
#[local] Open Scope Z_scope.

Definition MAX_SOURCE_LENGTH : Z := 64.
Definition MAX_NOTES_LENGTH : Z := 4000.

Record FeedbackSubmission := mkFeedbackSubmission {
  fs_source : string;
  fs_accepted : bool;
  fs_quality_score : option f64;
  fs_edited : bool;
  fs_validation_passed : option bool;
  fs_validation_detail : json;
  fs_notes : option string
}.

Record FeedbackOutcome := mkFeedbackOutcome {
  fo_record : string * string * FeedbackRow;
  fo_created : bool;
  fo_model_id : option string;
  fo_task_profile_id : string
}.

Definition set_feedback (feedback : gmap (string * string) FeedbackRow) (s : Store) : Store :=
  mkStore (s_jobs s) (s_attempts s) feedback (s_stats s) (s_models s) (s_adapters s).

(** The paths of the problems, in the order they are listed. *)
Definition feedback_problems (b : FeedbackSubmission) : list string :=
  (if bool_decide (strip (fs_source b) = "") || (MAX_SOURCE_LENGTH <? py_len (fs_source b)) then ["source"] else []) ++
  match fs_quality_score b with
  | Some q => if (0 <=? q) && (q <=? fone) then [] else ["quality_score"] | None => [] end ++
  match fs_notes b with Some n => if MAX_NOTES_LENGTH <? py_len n then ["notes"] else [] | None => [] end.

Definition check_feedback (b : FeedbackSubmission) : result unit :=
  match feedback_problems b with [] => Ok tt | l => Raise (ValidationErrors l) end.

(** The stored row after the call. *)
Definition feedback_row (old : option FeedbackRow) (b : FeedbackSubmission) (now : Z) : FeedbackRow :=
  mkFeedbackRow (fs_accepted b) (fs_quality_score b) (fs_edited b) (fs_validation_passed b)
    (fs_validation_detail b) (fs_notes b) (match old with Some r => fr_created_at r | None => now end) now.

(** [recompute_pair] without an adapter key: the pair of the bare base. *)
Definition base_pair (model_id task_profile_id : string) : Pair := (model_id, task_profile_id, "").

Definition refresh_statistics (o : FeedbackOutcome) (now : Z) (s : Store) : Store * result unit :=
  match fo_model_id o with
  | None => (s, Ok tt)
  | Some m => let '(s', r) := recompute_pair (base_pair m (fo_task_profile_id o)) now s in (s', _ ← r; Ok tt)
  end.

Definition record_feedback (job_id : string) (b : FeedbackSubmission) (now : Z) (principal : option Principal)
    (s : Store) : Store * result FeedbackOutcome :=
  match (_ ← authorize principal "write"; check_feedback b) with
  | Raise e => (s, Raise e)
  | Ok _ =>
      match s_jobs s !! job_id with
      | None => (s, Raise (JobNotFound job_id))
      | Some job =>
          let key := (job_id, fs_source b) in
          let old := s_feedback s !! key in
          let row := feedback_row old b now in
          let s1 := set_feedback (<[key := row]> (s_feedback s)) s in
          let outcome := mkFeedbackOutcome (key, row) (bool_decide (old = None)) (jr_selected_model_id job)
                           (jr_task_profile_id job) in
          let '(s2, r) := refresh_statistics outcome now s1 in
          (s2, _ ← r; Ok outcome)
      end
  end.

Definition cmp_feedback : string * string * FeedbackRow -> string * string * FeedbackRow -> comparison :=
  cmp_on (fun r => (fr_created_at r.2, r.1.2)) (cmp_pair Z.compare String.compare).

(** Oldest first, then by source. *)
Definition feedback_for_job (s : Store) (job_id : string) : list (string * string * FeedbackRow) :=
  py_sorted (leb_of cmp_feedback) (List.filter (fun r => bool_decide (r.1.1 = job_id)) (map_to_list (s_feedback s))).

Definition list_feedback (s : Store) (job_id : string) : result (list (string * string * FeedbackRow)) :=
  match s_jobs s !! job_id with None => Raise (JobNotFound job_id) | Some _ => Ok (feedback_for_job s job_id) end.

(** ** After an attempt *)

(** A worker's attempt; a failure is logged. *)
Definition refresh_after_attempt (model_id : option string) (completed_at : option Z) (task : string) (now : Z)
    (s : Store) : Store :=
  match model_id, completed_at with
  | Some m, Some _ => (recompute_pair (base_pair m task) now s).1
  | _, _ => s
  end.

(** The records of a synchronous execution: one recomputation per model among them. *)
Definition refresh_after_execution (model_ids : list (option string)) (task_profile_id : string) (now : Z)
    (s : Store) : Store :=
  fold_left (fun s m => (recompute_pair (base_pair m task_profile_id) now s).1)
    (elements (list_to_set (omap id model_ids) : gset string)) s.

(** ** The running system *)

(** What may happen to the store: the three refreshes, the persistence of verdicts, and any change of
    the tables that are not the statistics. *)
Inductive step `{Profiles} (s : Store) : Store -> Prop :=
| StepOther s' : s_stats s' = s_stats s -> step s s'
| StepFeedback job_id b now principal : step s (record_feedback job_id b now principal s).1
| StepAttempt model_id completed_at task now : step s (refresh_after_attempt model_id completed_at task now s)
| StepExecution model_ids task now : step s (refresh_after_execution model_ids task now s)
| StepVerdicts vs now : step s (record_breaker_verdicts vs now s).1.

Definition reachable `{Profiles} : Store -> Store -> Prop := rtc step.

(** ** Lemmas *)

(** Statistics of adapters: none is stored. *)
Definition bare_only (s : Store) : Prop := forall p w, is_Some (s_stats s !! (p, w)) -> pair_adapter p = "".

Lemma recompute_bare p now s : pair_adapter p = "" -> bare_only s -> bare_only (recompute_pair p now s).1.
Proof.
  intros Hp Hs. unfold recompute_pair. destruct (fresh_windows s p now) as [ws|e]; [|done]. cbn.
  intros q w. cbn. unfold write_windows.
  assert (Hg : forall (stats : gmap (Pair * string) StatRow), (forall q w, is_Some (stats !! (q, w)) -> pair_adapter q = "") ->
    is_Some (fold_left (upsert_window p now) ws stats !! (q, w)) -> pair_adapter q = ""); [|by apply Hg].
  induction ws as [|x ws IH]; intros stats Hstats; cbn; [apply Hstats|]. apply IH. intros q' w'. unfold upsert_window.
  destruct (decide ((p, ws_window x) = (q', w'))) as [[= <- <-]|Hne]; [done|]. rewrite lookup_insert_ne by done. apply Hstats.
Qed.

Lemma step_bare `{Profiles} s s' : step s s' -> bare_only s -> bare_only s'.
Proof.
  intros Hstep Hs. destruct Hstep as [s' E|job_id b now principal|m t task now|ms task now|vs now].
  - intros p w. rewrite E. apply Hs.
  - unfold record_feedback. destruct (_ ← authorize principal "write"; check_feedback b) as [[]|e]; [|done].
    destruct (s_jobs s !! job_id) as [j|]; [|done]. cbn. unfold refresh_statistics. cbn.
    destruct (jr_selected_model_id j) as [m|]; [|done].
    set (s1 := set_feedback _ _). pose proof (recompute_bare (base_pair m (jr_task_profile_id j)) now s1 eq_refl Hs) as Hb.
    by destruct (recompute_pair (base_pair m (jr_task_profile_id j)) now s1) as [s2 r].
  - unfold refresh_after_attempt. destruct m as [m|], t; try done. by apply recompute_bare.
  - unfold refresh_after_execution. revert s Hs. induction (elements _) as [|m l IH]; intros s Hs; [done|]. cbn.
    by apply IH, recompute_bare.
  - intros p w. rewrite record_breaker_verdicts_lookup, fmap_is_Some. apply Hs.
Qed.

Lemma reachable_bare `{Profiles} s s' : reachable s s' -> bare_only s -> bare_only s'.
Proof. induction 1; [done|]. intros Hs. by eapply IHrtc, step_bare. Qed.

Lemma factor_of_no_row s t m a : bare_only s -> a <> "" -> factors_for_task s t !! (m, a) = None.
Proof.
  intros Hs Ha. apply not_elem_of_list_to_map_1. intros Hin.
  apply list_elem_of_fmap in Hin as (kf & E & Hin). apply list_elem_of_fmap in Hin as (p & -> & Hin).
  cbn in E. injection E as -> ->. apply list_elem_of_In, List.filter_In in Hin as [Hin _].
  apply list_elem_of_In, (elem_of_elements (C := gset Pair)), elem_of_stored_pairs in Hin as (w & Hw).
  by apply Ha, (Hs p w).
Qed.

Lemma feedback_well_formed b :
  feedback_problems b = [] <->
  strip (fs_source b) <> "" /\ py_len (fs_source b) <= 64 /\
  (forall q, fs_quality_score b = Some q -> 0 <= q <= fone) /\
  (forall n, fs_notes b = Some n -> py_len n <= 4000).
Proof.
  assert (Hif : forall (c : bool) (x : string), (if c then [x] else []) = [] <-> c = false) by (intros [] x; split; done).
  assert (Hif' : forall (c : bool) (x : string), (if c then [] else [x]) = [] <-> c = true) by (intros [] x; split; done).
  unfold feedback_problems, MAX_SOURCE_LENGTH, MAX_NOTES_LENGTH.
  rewrite !app_nil, Hif, orb_false_iff, bool_decide_eq_false, Z.ltb_ge.
  assert (Hq : match fs_quality_score b with Some q => if (0 <=? q) && (q <=? fone) then [] else ["quality_score"] | None => [] end = [] <->
    forall q, fs_quality_score b = Some q -> 0 <= q <= fone).
  { destruct (fs_quality_score b) as [q|]; [|by split]. rewrite Hif', andb_true_iff, !Z.leb_le.
    split; [by intros Hq x [= <-]|intros Hq; by apply Hq]. }
  assert (Hn : match fs_notes b with Some n => if 4000 <? py_len n then ["notes"] else [] | None => [] end = [] <->
    forall n, fs_notes b = Some n -> py_len n <= 4000).
  { destruct (fs_notes b) as [n|]; [|by split]. rewrite Hif, Z.ltb_ge. split; [by intros Hn x [= <-]|intros Hn; by apply Hn]. }
  rewrite Hq, Hn. tauto.
Qed.

Module Properties.

(** Recording feedback.  A caller without the write scope, a malformed verdict (with the fields at
    fault, in order; a verdict is well formed when its source is not blank and no longer than 64, its
    score in the unit interval and its notes no longer than 4000) and an unknown job are refused and change nothing.  Otherwise the verdict is the
    stored row of this job and source - created at the first call, with the creation instant kept by
    later ones - and no other verdict, job or attempt changes; with a selected model the statistics
    of the bare base and the job's profile are those of the rows now stored. *)
Theorem feedback_outcomes_spec (s : Store) (job_id : string) (b : FeedbackSubmission) (now : Z)
    (principal : option Principal) (Hsize : zlen (s_attempts s) <= 2 ^ 53) :
  (feedback_problems b = [] <->
     strip (fs_source b) <> "" /\ py_len (fs_source b) <= 64 /\
     (forall q, fs_quality_score b = Some q -> 0 <= q <= fone) /\
     (forall n, fs_notes b = Some n -> py_len n <= 4000)) /\
  let '(s', r) := record_feedback job_id b now principal s in
  let key := (job_id, fs_source b) in
  match authorize principal "write", feedback_problems b, s_jobs s !! job_id with
  | Raise e, _, _ => s' = s /\ r = Raise e
  | Ok _, (_ :: _) as l, _ => s' = s /\ r = Raise (ValidationErrors l)
  | Ok _, [], None => s' = s /\ r = Raise (JobNotFound job_id)
  | Ok _, [], Some job =>
      exists row, s_feedback s' = <[key := row]> (s_feedback s) /\
        s_jobs s' = s_jobs s /\ s_attempts s' = s_attempts s /\
        r = Ok (mkFeedbackOutcome (key, row) (bool_decide (s_feedback s !! key = None)) (jr_selected_model_id job)
                  (jr_task_profile_id job)) /\
        fr_accepted row = fs_accepted b /\ fr_quality_score row = fs_quality_score b /\ fr_updated_at row = now /\
        fr_created_at row = match s_feedback s !! key with Some old => fr_created_at old | None => now end /\
        (forall m w, jr_selected_model_id job = Some m -> w ∈ WINDOWS ->
           let p := (m, jr_task_profile_id job, "") in
           exists x, stats_for s' p !! w_name w = Some x /\
             compute_stats (attempt_outcomes s' p) (feedback_outcomes s' p) w now = Ok x)
  end.
Proof.
  split; [apply feedback_well_formed|].
  unfold record_feedback. destruct (authorize principal "write") as [p|e]; cbn; [|done].
  unfold check_feedback. destruct (feedback_problems b) as [|f l]; [|done].
  destruct (s_jobs s !! job_id) as [job|]; [|done]. set (key := (job_id, fs_source b)).
  set (row := feedback_row _ b now). set (s1 := set_feedback _ s). unfold refresh_statistics. cbn.
  destruct (jr_selected_model_id job) as [m|]; cbn.
  - destruct (recompute_pair_spec s1 (base_pair m (jr_task_profile_id job)) now Hsize) as (stats & ws & E & Hl).
    rewrite E. cbn. exists row. do 8 (split; [reflexivity|]). intros m' w [= <-] Hw.
    destruct (refreshed_fresh s1 now (base_pair m (jr_task_profile_id job)) w Hsize Hw) as (x & Hx & Hc).
    exists x. split; [|exact Hc]. unfold stats_for. rewrite window_rows_lookup. cbn [s_stats set_stats].
    rewrite Hl, bool_decide_eq_true_2 by done. rewrite Hx. cbn. by destruct (s_stats s !! _).
  - exists row. do 8 (split; [reflexivity|]). discriminate.
Qed.

(** The statistics of an adapter are never computed.  Feedback, a worker's attempt and a
    synchronous execution each recompute the bare base's pair, so from a store without rows of
    adapters no sequence of them - interleaved with persisted breaker verdicts and any change of the
    other tables - ever writes one, and no routing decision sees a factor for an adapter, whatever
    its attempts and verdicts.  The full recomputation, which the program never runs, would write it. *)
Theorem adapter_statistics_lost `{Profiles} (s s' : Store) (Hreach : reachable s s') (Hbare : bare_only s)
    (Hsize : zlen (s_attempts s') <= 2 ^ 53) :
  (forall task model_id adapter_id, adapter_id <> "" -> factors_for_task s' task !! (model_id, adapter_id) = None) /\
  (forall p w now, p ∈ known_pairs s' -> w ∈ WINDOWS -> pair_adapter p <> "" ->
     stats_for s' p !! w_name w = None /\ is_Some (stats_for (recompute_all now s').1 p !! w_name w)).
Proof.
  pose proof (reachable_bare s s' Hreach Hbare) as Hb. split; [by intros; apply factor_of_no_row|].
  intros p w now Hp Hw Ha. unfold stats_for. rewrite !window_rows_lookup. split.
  - destruct (s_stats s' !! (p, w_name w)) eqn:E; [|done]. destruct Ha. by apply (Hb p (w_name w)).
  - destruct (recompute_all_store now s' Hsize) as (stats & E & Hl). rewrite E. cbn.
    rewrite Hl, bool_decide_eq_true_2 by done.
    destruct (refreshed_fresh s' now p w Hsize Hw) as (x & -> & _). by eexists.
Qed.

Lemma feedback_outcomes_spec_witness :
  let b := mkFeedbackSubmission "me" true None false None JNull None in
  (record_feedback "none" b 5 None sample_store).2 = Raise (JobNotFound "none").
Proof.
  intros b. pose proof (feedback_outcomes_spec sample_store "none" b 5 None) as H.
  destruct (record_feedback "none" b 5 None sample_store) as [s' r].
  refine (proj2 (proj2 (H _))). vm_compute. discriminate.
Defined.

Lemma adapter_statistics_lost_witness :
  let s := refresh_after_attempt (Some "m") (Some 20) "chat" 30 sample_store in
  known_pairs s = list_to_set [("m", "chat", ""); ("m", "chat", "a")] /\
  factors_for_task s "chat" !! ("m", "a") = None.
Proof.
  split; [apply (bool_decide_unpack _); vm_compute; exact I|].
  refine (proj1 (@adapter_statistics_lost plain_profiles sample_store _ _ _ _) "chat" "m" "a" _).
  - apply rtc_once. apply StepAttempt.
  - intros p w [r Hr]. done.
  - vm_compute. discriminate.
  - discriminate.
Defined.
End Properties.
