(* ===== verification/Routing.v ===== *)
(** * The routing pipeline ([services/routing.py], [services/task_profiles.py])

    From a request to a decision: the enabled task profile, the tightening of its constraints, one
    execution subject per candidate, the hard constraints, the scores, the ranking and the
    explanation.  [decide_route] is [route] up to the point where it writes; RoutingStore adds the rows.
    The JSON columns of a stored profile are taken as parsed: [import_task_profiles] is their only
    writer and dumps every key. *)

From Stdlib Require Import Ascii String.
From S2P Require Import Prelude PyFloat PyStr Json Telemetry Authorization ContextBudget Ordering EvidencePolicy Reliability Subject Scoring Constraints Ranking TaskProfile EvidenceStore Candidates ReliabilityService Explanation.
#[local] Open Scope string_scope.
#[local] Open Scope list_scope.
#[local] Open Scope Z_scope.

(** ** Stored task profiles *)

(** One row of [task_profiles]; it is what [StoredTaskProfile] reads back. *)
Record StoredTaskProfile := mkStored {
  sp_id : string;
  sp_profile_id : string;
  sp_version : string;
  sp_weights : gmap string f64;
  sp_constraints : TaskProfileConstraints;
  sp_execution : TaskProfileExecution;
  sp_validation : TaskProfileValidation;
  sp_enabled : bool;
  sp_created_at : Z;
  sp_updated_at : Z
}.

Definition same_profile (p : TaskProfile) (r : StoredTaskProfile) : bool :=
  bool_decide (sp_profile_id r = tp_profile_id p) && bool_decide (sp_version r = tp_version p).

Definition stored_values (id : string) (created_at : Z) (p : TaskProfile) (now : Z) : StoredTaskProfile :=
  mkStored id (tp_profile_id p) (tp_version p) (list_to_map (tp_weights p)) (tp_constraints p) (tp_execution p)
    (tp_validation p) (tp_enabled p) created_at now.

(** [weightsdb.upsert] on [(profile_id, version)], leaving [created_at] alone; [new_id] is the key a
    new row would get. *)
Definition import_one (new_id : string) (p : TaskProfile) (now : Z) (rows : list StoredTaskProfile)
  : list StoredTaskProfile :=
  if existsb (same_profile p) rows
  then map (fun r => if same_profile p r then stored_values (sp_id r) (sp_created_at r) p now else r) rows
  else rows ++ [stored_values new_id now p now].

Definition import_task_profiles (profiles : list (string * TaskProfile)) (now : Z) (rows : list StoredTaskProfile)
  : list StoredTaskProfile * Z :=
  (fold_left (fun rows ip => import_one ip.1 ip.2 now rows) profiles rows, zlen profiles).

Definition list_stored_task_profiles (rows : list StoredTaskProfile) : list StoredTaskProfile :=
  py_sorted (leb_of (cmp_on sp_updated_at (cmp_desc Z.compare))) rows.

Definition load_task_profile (rows : list StoredTaskProfile) (task : string) : result StoredTaskProfile :=
  match List.filter (fun p => bool_decide (sp_profile_id p = task) && sp_enabled p) (list_stored_task_profiles rows) with
  | [] => Raise (TaskProfileNotFound task)
  | p :: _ => Ok p
  end.

(** ** Tightening *)

Definition loosened_floor (base : gmap string f64) (kv : string * f64) : option string :=
  match base !! kv.1 with
  | Some floor => if kv.2 <? floor then Some ("constraints.min_capability_scores." +:+ kv.1) else None
  | None => None
  end.

Definition loosening_problems (base requested : TaskProfileConstraints) : list string :=
  (if (tc_min_context_tokens requested <? tc_min_context_tokens base) && negb (tc_min_context_tokens requested =? 0)
   then ["constraints.min_context_tokens"] else []) ++
  (if tc_allow_remote_providers requested && negb (tc_allow_remote_providers base)
   then ["constraints.allow_remote_providers"] else []) ++
  match tc_max_latency_p95_seconds requested, tc_max_latency_p95_seconds base with
  | Some r, Some b => if b <? r then ["constraints.max_latency_p95_seconds"] else []
  | _, _ => []
  end ++
  omap (loosened_floor (tc_min_capability_scores base)) (map_to_list (tc_min_capability_scores requested)).

(** [tuple(sorted(set(a) | set(b)))]. *)
Definition sorted_union (a b : list string) : list string :=
  py_sorted (leb_of String.compare) (elements (list_to_set a ∪ list_to_set b : gset string)).

(** [max(base.get(c, 0.0), requested.get(c, 0.0))] over the union of the keys. *)
Definition higher_floor (b r : option f64) : option f64 :=
  match b, r with None, None => None | _, _ => Some (Z.max (default 0 b) (default 0 r)) end.

Definition lower_latency (base requested : option f64) : option f64 :=
  match requested with
  | None => base
  | Some r => match base with None => Some r | Some b => Some (Z.min b r) end
  end.

Definition tightened (base requested : TaskProfileConstraints) : TaskProfileConstraints :=
  mkConstraintsBlock
    (Z.max (tc_min_context_tokens base) (tc_min_context_tokens requested))
    (sorted_union (tc_requires_capabilities base) (tc_requires_capabilities requested))
    (lower_latency (tc_max_latency_p95_seconds base) (tc_max_latency_p95_seconds requested))
    (stdpp.base.merge higher_floor (tc_min_capability_scores base) (tc_min_capability_scores requested))
    (sorted_union (tc_exclude_models base) (tc_exclude_models requested))
    (tc_allow_remote_providers base && tc_allow_remote_providers requested).

Definition merged_constraints (base : TaskProfileConstraints) (requested : option TaskProfileConstraints)
  : result TaskProfileConstraints :=
  match requested with
  | None => Ok base
  | Some r =>
      match loosening_problems base r with
      | [] => Ok (tightened base r)
      | problems => Raise (ConstraintsNotTightening (py_sorted (leb_of String.compare) problems))
      end
  end.

Definition set_requires (l : list string) (c : TaskProfileConstraints) : TaskProfileConstraints :=
  mkConstraintsBlock (tc_min_context_tokens c) l (tc_max_latency_p95_seconds c) (tc_min_capability_scores c)
    (tc_exclude_models c) (tc_allow_remote_providers c).

(** What the request itself needs, unioned onto what the profile needs. *)
Definition with_request_capabilities (requested : list string) (c : TaskProfileConstraints) : TaskProfileConstraints :=
  if forallb (fun k => bool_decide (k ∈ tc_requires_capabilities c)) requested then c
  else set_requires (sorted_union requested (tc_requires_capabilities c)) c.

(** [max(sorted(weights), key=...)]: the first of the heaviest, in name order. *)
Definition top_weighted_capability (weights : gmap string f64) : option string :=
  match sorted_weights weights with
  | [] => None
  | kv :: rest => Some (fst (py_max_from (ltb_of (cmp_on snd Z.compare)) kv rest))
  end.

(** ** Settings *)

(** The [[runtime]] section and one entry of [[runtime.models]]. *)
Record RuntimeModelOverride := mkModelOverride {
  ro_context_size : option Z;
  ro_kv_cache_precision : option string;
  ro_flash_attention : option bool
}.

Record RuntimeSettings := mkRuntimeSettings {
  rs_context_size : Z;
  rs_kv_cache_precision : string;
  rs_flash_attention : bool;
  rs_keep_alive : string;
  rs_models : gmap string RuntimeModelOverride
}.

(** The fields of [[routing]] and of [[telemetry]] that shape a decision. *)
Record RoutingSettings := mkRoutingSettings {
  se_strategy : string;
  se_min_confidence : f64;
  se_prefer_resident_bonus : f64;
  se_base_switch_penalty : f64;
  se_require_adapter_evidence : bool;
  se_min_present_weight : f64;
  se_remote_cost_factor : f64
}.

(** [s or None]. *)
Definition stated_str (s : string) : option string := if bool_decide (s = "") then None else Some s.

Section routing.
Context `{Profiles} `{Classification} {M : Type} `{Measurement M} `{Digits}.

Record RoutingPolicy := mkPolicy {
  po_strategy : string;
  po_min_confidence : f64;
  po_prefer_resident_bonus : f64;
  po_base_switch_penalty : f64;
  po_require_adapter_evidence : bool;
  po_min_present_weight : f64;
  po_remote_cost_factor : f64;
  po_vram_headroom_bytes : Z;
  po_runtime_defaults : RuntimeProfile;
  po_runtime_per_model : gmap string RuntimeProfile;
  po_machine_fingerprint : option string;
  po_evidence_url : string
}.

Definition runtime_layers (s : RuntimeSettings) : RuntimeProfile * gmap string RuntimeProfile :=
  (make_runtime_profile (if rs_context_size s =? 0 then None else Some (rs_context_size s))
     (stated_str (rs_kv_cache_precision s)) None (if rs_flash_attention s then Some true else None) None None
     (JStr <$> stated_str (rs_keep_alive s)) [],
   (fun o => make_runtime_profile (ro_context_size o) (ro_kv_cache_precision o) None (ro_flash_attention o) None None
               None []) <$> rs_models s).

Definition from_settings (routing : RoutingSettings) (runtime : RuntimeSettings) (vram_headroom_bytes : Z)
    (freeweight_url : option string) (machine_fingerprint : option string) : RoutingPolicy :=
  let '(runtime_defaults, runtime_per_model) := runtime_layers runtime in
  mkPolicy (se_strategy routing) (se_min_confidence routing) (se_prefer_resident_bonus routing)
    (se_base_switch_penalty routing) (se_require_adapter_evidence routing) (se_min_present_weight routing)
    (se_remote_cost_factor routing) vram_headroom_bytes runtime_defaults runtime_per_model machine_fingerprint
    (match freeweight_url with None => "" | Some url => strip url end).

(** ** The request *)

Record RuntimeOverrides := mkRuntimeOverrides {
  ov_model : option string;
  ov_adapter : option string;
  ov_runtime_profile : option RuntimeProfile;
  ov_disallow_fallback : bool;
  ov_require_evidence : bool;
  ov_ignore_residency : bool
}.

Record RouteRequest := mkRouteRequest {
  rq_task : string;
  rq_estimated_input_tokens : option Z;
  rq_max_output_tokens : option Z;
  rq_constraints : option TaskProfileConstraints;
  rq_require_capabilities : list string;
  rq_think : option bool;
  rq_overrides : RuntimeOverrides;
  rq_data_classification : option string
}.

(** The other arguments of [route]: what the caller observed and configured. *)
Record World := mkWorld {
  wo_provider : ProviderFacts;
  wo_provider_facts_by_name : gmap string ProviderFacts;
  wo_policy : RoutingPolicy;
  wo_snapshot : option (TelemetrySnapshot M);
  wo_resident_models : gset string;
  wo_open_circuit_breakers : option (gset string);
  wo_resident_devices : gmap string (gset Z);
  wo_circuit_breaker_details : gmap string (list (string * json));
  wo_now : Z
}.

(** ** One candidate *)

Definition no_context_rejection (facts : ModelFacts) : Rejection :=
  mkRejection "context_too_small"
    [("served_context", JNull); ("served_context_source", JNull);
     ("problem", JStr "the provider reported no served context and the descriptor advertises no maximum, so no context can be established for this model");
     ("canonical_id", JStr (mf_canonical_id facts))].

Definition build_subject (facts : ModelFacts) (signals : list CapabilitySignal) (provider : ProviderFacts)
    (policy : RoutingPolicy) (request : RouteRequest) (constraints : TaskProfileConstraints)
    (adapter : option AdapterFacts) : option ExecutionSubject * ExecutionSubject :=
  let profile := resolve_runtime_profile (po_runtime_defaults policy)
      (po_runtime_per_model policy !! mf_canonical_id facts) (tc_min_context_tokens constraints)
      (pf_context_configurable provider) (ov_runtime_profile (rq_overrides request)) (pf_adapters_registered provider) in
  match resolve_served_context profile provider (mf_max_context facts) with
  | None => (None, mkSubject facts provider profile (mkServed 0 "assumed") signals adapter)
  | Some served =>
      let subject := mkSubject facts provider profile served signals adapter in (Some subject, subject)
  end.

Definition budget_json (b : ContextBudget) : json :=
  JObj [("fits", JBool (fits b)); ("estimated_input_tokens", JInt (b_estimated_input_tokens b));
        ("max_output_tokens", JInt (b_max_output_tokens b));
        ("requested_output_tokens", JInt (b_requested_output_tokens b)); ("reduced", JBool (b_reduced b));
        ("safety_margin_tokens", JInt (b_safety_margin_tokens b)); ("required_context", JInt (b_required_context b));
        ("served_context", JInt (b_served_context b)); ("served_context_source", JStr (b_served_context_source b));
        ("input_estimate_source", JStr (b_input_estimate_source b));
        ("chars_per_token", jfloat_opt (b_chars_per_token b)); ("shortfall_tokens", JInt (b_shortfall_tokens b))].

(** The locals of [route] before its loop. *)
Record Plan := mkPlan {
  pl_profile : StoredTaskProfile;
  pl_constraints : TaskProfileConstraints;
  pl_request_capabilities : gset string;
  pl_requires_thinking_control : option string;
  pl_max_output_tokens : Z;
  pl_min_output_tokens : option Z;
  pl_fallback_depth : Z;
  pl_reliability : gmap (string * string) ReliabilityFactor;
  pl_scoring : ScoringInputs;
  pl_top_weighted : option string
}.

Definition budget_of (request : RouteRequest) (plan : Plan) (served : ServedContext) : option ContextBudget :=
  match rq_estimated_input_tokens request with
  | None => None
  | Some estimated =>
      Some (budget_context estimated (pl_max_output_tokens plan) (sc_tokens served) (sc_source served)
              (pl_min_output_tokens plan) SAFETY_MARGIN_TOKENS "caller" None)
  end.

Definition constraint_inputs (request : RouteRequest) (world : World) (plan : Plan) (budget : option ContextBudget)
    (fit : TaskFit) : ConstraintInputs (M := M) :=
  let c := pl_constraints plan in
  mkConstraints (tc_min_context_tokens c) (tc_requires_capabilities c) (Some (tc_min_capability_scores c))
    (tc_exclude_models c) (tc_allow_remote_providers c)
    (match budget with
     | None => None
     | Some b => if fits b then None else Some (b_required_context b)
     end)
    (Some (list_to_map (rev (map (fun s => (cs_capability_id s, s)) (tf_capabilities fit)))))
    (wo_snapshot world) (po_vram_headroom_bytes (wo_policy world)) (default ∅ (wo_open_circuit_breakers world))
    (wo_resident_devices world) (wo_circuit_breaker_details world) (pl_request_capabilities plan)
    (pl_requires_thinking_control plan)
    (po_require_adapter_evidence (wo_policy world) && bool_decide (ov_adapter (rq_overrides request) = None))
    (pl_top_weighted plan) (rq_data_classification request).

Inductive Fate :=
| OutsidePin
| Refused (r : RejectedCandidate)
| Survives (c : RankedCandidate).

Definition outside_pins (request : RouteRequest) (facts : ModelFacts) (adapter : option AdapterFacts) : bool :=
  match ov_model (rq_overrides request) with
  | Some m => negb (bool_decide (mf_canonical_id facts = m)) | None => false end ||
  match ov_adapter (rq_overrides request) with
  | Some name => match adapter with None => true | Some a => negb (bool_decide (af_name a = name)) end
  | None => false
  end.

Definition estimate_of (subject : ExecutionSubject) : VramEstimate :=
  let facts := es_facts subject in
  estimate_vram (mf_size_bytes facts) (sc_tokens (es_served_context subject)) (mf_layers facts) (mf_kv_heads facts)
    (mf_head_dim facts) (kv_cache_precision (es_runtime_profile subject)) None LOADING_OVERHEAD_FACTOR
    ACTIVATION_OVERHEAD_BYTES.

(** [detail["context_budget"] = budget.as_json()], on that one rejection. *)
Definition with_budget (budget : option ContextBudget) (r : Rejection) : Rejection :=
  match budget with
  | Some b => if bool_decide (reason r = "context_limit_exceeded")
              then mkRejection (reason r) (dict_set (detail r) ("context_budget", budget_json b)) else r
  | None => r
  end.

Definition reliability_of (plan : Plan) (facts : ModelFacts) (adapter : option AdapterFacts) : ReliabilityFactor :=
  default (neutral_factor []) (pl_reliability plan !! (mf_model_id facts, match adapter with None => "" | Some a => af_adapter_id a end)).

Definition ranked_of (request : RouteRequest) (world : World) (plan : Plan) (subject : ExecutionSubject) (fit : TaskFit)
    (estimate : VramEstimate) (target_gpu_index : option Z) : RankedCandidate :=
  let policy := wo_policy world in
  mkRanked subject fit
    (adjustment_factors subject (wo_resident_models world) (po_prefer_resident_bonus policy)
       (po_base_switch_penalty policy) (ov_ignore_residency (rq_overrides request)) (po_remote_cost_factor policy)
       (inr (reliability_of plan (es_facts subject) (es_adapter subject))) fone)
    (ve_total_bytes estimate) target_gpu_index
    (bool_decide (mf_canonical_id (es_facts subject) ∈ wo_resident_models world)) 0.

(** The loop's body. *)
Definition evaluate_candidate (request : RouteRequest) (world : World) (plan : Plan) (c : Candidate) : Fate :=
  let '(facts, provider, signals, adapter) := c in
  match build_subject facts signals provider (wo_policy world) request (pl_constraints plan) adapter with
  | (None, placeholder) => Refused (mkRejectedCandidate placeholder (no_context_rejection facts) None)
  | (Some subject, _) =>
      if outside_pins request facts adapter then OutsidePin
      else
        let estimate := estimate_of subject in
        let fit := score_subject subject (pl_scoring plan) in
        let budget := budget_of request plan (es_served_context subject) in
        match evaluate_constraints subject estimate (constraint_inputs request world plan budget fit) with
        | (Some rejection, _, _) => Refused (mkRejectedCandidate subject (with_budget budget rejection) (Some estimate))
        | (None, _, target_gpu_index) => Survives (ranked_of request world plan subject fit estimate target_gpu_index)
        end
  end.

Definition ranked_of_fates (fates : list Fate) : list RankedCandidate :=
  omap (fun f => match f with Survives c => Some c | _ => None end) fates.
Definition rejected_of_fates (fates : list Fate) : list RejectedCandidate :=
  omap (fun f => match f with Refused r => Some r | _ => None end) fates.

(** ** The decision *)

Record RoutingDb := mkRoutingDb {
  db_profiles : list StoredTaskProfile;
  db_evidence : EvidenceDb;                          (* models, adapters, evidence rows and sources *)
  db_capabilities : list CapabilityRow;
  db_adapters : list AdapterRow;                     (* the same adapters, as routing reads them, by name *)
  db_reliability : ReliabilityService.Store
}.

Definition sorted_models (l : list ModelRow) : list ModelRow := py_sorted (leb_of (cmp_on mr_canonical_id String.compare)) l.

Definition candidates_for (db : RoutingDb) (world : World) (weights : gmap string f64) : result (list Candidate) :=
  read_candidates (sorted_models (ed_models (db_evidence db))) (db_capabilities db) (rows_of (db_evidence db)) (db_adapters db)
    (wo_provider world) (wo_provider_facts_by_name world) weights (wo_now world) (po_machine_fingerprint (wo_policy world)).

(** [{facts.canonical_id: facts.parameter_count for ...}]: the last candidate of an id decides. *)
Definition parameter_counts (candidates : list Candidate) : gmap string (option Z) :=
  fold_left (fun m (c : Candidate) => <[mf_canonical_id c.1.1.1 := mf_parameter_count c.1.1.1]> m) candidates ∅.

Definition thinking_required_by (request : RouteRequest) (execution : TaskProfileExecution) : option string :=
  match rq_think request with
  | Some _ => Some "request"
  | None => match te_think execution with Some _ => Some "task_profile" | None => None end
  end.

Definition plan_of (request : RouteRequest) (world : World) (db : RoutingDb) (profile : StoredTaskProfile)
    (constraints : TaskProfileConstraints) (candidates : list Candidate) : Plan :=
  let execution := sp_execution profile in
  mkPlan profile constraints (list_to_set (rq_require_capabilities request)) (thinking_required_by request execution)
    (or_int (rq_max_output_tokens request) (te_max_output_tokens execution)) (te_min_output_tokens execution)
    (te_fallback_depth execution) (factors_for_task (db_reliability db) (sp_profile_id profile))
    (mkScoringInputs (sp_weights profile) (po_min_confidence (wo_policy world))
       (Some (parameter_band_priors (parameter_counts candidates))) (ov_require_evidence (rq_overrides request))
       (po_machine_fingerprint (wo_policy world)))
    (top_weighted_capability (sp_weights profile)).

Definition known_adapters (candidates : list Candidate) : list string :=
  py_sorted (leb_of String.compare)
    (elements (list_to_set (omap (fun c : Candidate => af_name <$> c.2) candidates) : gset string)).

Definition refuse_unknown_adapter (pinned : option string) (candidates : list Candidate) : result unit :=
  match pinned with
  | None => Ok tt
  | Some name => if bool_decide (name ∈ known_adapters candidates) then Ok tt
                 else Raise (AdapterNotFound name (known_adapters candidates))
  end.

Definition telemetry_snapshot_json (s : option (TelemetrySnapshot M)) (timestamp : json) : json :=
  let measured (m : M) := if is_supported m then JInt (to_int m) else JNull in
  match s with
  | None => JNull
  | Some s =>
      JObj [("timestamp", timestamp); ("ram_available_bytes", measured (ram_available_bytes s));
            ("gpus", JArr (map (fun g => JObj [("index", JInt (gpu_index g)); ("vram_total_bytes", measured (vram_total_bytes g));
                                               ("vram_used_bytes", measured (vram_used_bytes g))]) (gpus s)))]
  end.

Definition overrides_json (o : RuntimeOverrides) : json :=
  if bool_decide (ov_model o = None) && bool_decide (ov_adapter o = None) &&
     match ov_runtime_profile o with None => true | Some _ => false end &&
     negb (ov_disallow_fallback o) && negb (ov_require_evidence o) && negb (ov_ignore_residency o)
  then JNull
  else JObj [("model", jstr_opt (ov_model o)); ("adapter", jstr_opt (ov_adapter o));
             ("ignore_residency", JBool (ov_ignore_residency o));
             ("runtime_profile_hash", jstr_opt (profile_hash <$> ov_runtime_profile o));
             ("disallow_fallback", JBool (ov_disallow_fallback o)); ("require_evidence", JBool (ov_require_evidence o))].

(** What one run produced, before it is written or raised. *)
Record Decision := mkDecision {
  de_explanation : Explanation;
  de_profile : StoredTaskProfile;
  de_budget : option ContextBudget;
  de_plan : Plan;
  de_fates : list (Candidate * Fate)                  (* each candidate in the order evaluated *)
}.

(** From the candidates to the explanation; [duration_ms] and [timestamp] are the clock's and the
    snapshot's, rendered. *)
Definition decision_of (decision_id : string) (duration_ms : Z) (timestamp : json) (db : RoutingDb)
    (request : RouteRequest) (world : World) (profile : StoredTaskProfile) (constraints : TaskProfileConstraints)
    (candidates : list Candidate) (overview : EvidenceOverview) : Decision :=
  let policy := wo_policy world in
  let plan := plan_of request world db profile constraints candidates in
  let fates := map (evaluate_candidate request world plan) candidates in
  let ranking := rank_candidates (ranked_of_fates fates) (pl_fallback_depth plan) (ov_disallow_fallback (rq_overrides request)) in
  let selected_budget := match primary ranking with
                         | Some p => budget_of request plan (es_served_context (rc_subject p))
                         | None => None
                         end in
  mkDecision
    (build_explanation decision_id (sp_profile_id profile) (sp_version profile) (po_strategy policy) (wo_now world)
       (Z.max duration_ms 0) ranking (rejected_of_fates fates) selected_budget
       (telemetry_snapshot_json (wo_snapshot world) timestamp) (overrides_json (rq_overrides request))
       (po_min_present_weight policy) (Some overview)
       (match wo_open_circuit_breakers world with None => true | Some _ => false end))
    profile selected_budget plan (combine candidates fates).

(** [nulls_first] is the database's order of NULL in the evidence overview. *)
Definition decide_route (decision_id : string) (duration_ms : Z) (timestamp : json) (nulls_first : bool) (db : RoutingDb)
    (request : RouteRequest) (world : World) : result Decision :=
  profile ← load_task_profile (db_profiles db) (rq_task request);
  merged ← merged_constraints (sp_constraints profile) (rq_constraints request);
  let constraints := with_request_capabilities (rq_require_capabilities request) merged in
  candidates ← candidates_for db world (sp_weights profile);
  overview ← evidence_overview (po_evidence_url (wo_policy world)) nulls_first (db_evidence db);
  _ ← refuse_unknown_adapter (ov_adapter (rq_overrides request)) candidates;
  Ok (decision_of decision_id duration_ms timestamp db request world profile constraints candidates overview).
End routing.

(** ** Lemmas: constraint blocks *)

Lemma elem_of_sorted_union a b x : x ∈ sorted_union a b <-> x ∈ a \/ x ∈ b.
Proof. unfold sorted_union. rewrite elem_of_py_sorted, (elem_of_elements (C := gset string)). set_solver. Qed.

Lemma elem_of_with_request requested c k :
  k ∈ tc_requires_capabilities (with_request_capabilities requested c) <->
  k ∈ requested \/ k ∈ tc_requires_capabilities c.
Proof.
  unfold with_request_capabilities. destruct (forallb _ _) eqn:E; [|apply elem_of_sorted_union].
  split; [by right|]. intros [Hk|Hk]; [|done]. rewrite forallb_forall in E.
  apply list_elem_of_In, E, bool_decide_eq_true in Hk. done.
Qed.

(** Nothing but the required capabilities depends on the request's own. *)
Lemma with_request_same requested c :
  exists l, with_request_capabilities requested c = set_requires l c.
Proof.
  unfold with_request_capabilities. destruct (forallb _ _); [|by eexists].
  exists (tc_requires_capabilities c). by destruct c.
Qed.

Lemma tightened_floor base r capability :
  tc_min_capability_scores (tightened base r) !! capability =
    higher_floor (tc_min_capability_scores base !! capability) (tc_min_capability_scores r !! capability).
Proof. unfold tightened. cbn. rewrite lookup_merge. by destruct (_ !! _), (_ !! _). Qed.

(** What a block of constraints demands of a candidate, given the scores its profile resolved. *)
Section demands.
Context `{Profiles}.

Definition demands (resolved : string -> option CapabilityScore) (subject : ExecutionSubject) (c : TaskProfileConstraints)
  : Prop :=
  let tokens := sc_tokens (es_served_context subject) in
  let facts := es_facts subject in
  (0 < tc_min_context_tokens c -> tc_min_context_tokens c <= tokens) /\
  ("tool_use" ∈ tc_requires_capabilities c -> pf_supports_tool_use (es_provider subject) = true) /\
  ("structured_output" ∈ tc_requires_capabilities c -> pf_supports_structured_output (es_provider subject) = true) /\
  (forall capability (floor : f64) s (x : f64), tc_min_capability_scores c !! capability = Some floor ->
     resolved capability = Some s -> cs_score s = Some x -> floor <= x) /\
  mf_canonical_id facts ∉ tc_exclude_models c /\
  (mf_is_remote facts = true -> tc_allow_remote_providers c = true).

Lemma demands_tightened resolved subject base r :
  demands resolved subject (tightened base r) -> demands resolved subject base /\ demands resolved subject r.
Proof.
  intros (Hc & Ht & Hs & Hf & He & Hr). cbn in Hc, Ht, Hs, He, Hr.
  rewrite !elem_of_sorted_union in Ht, Hs, He.
  split; (split; [lia|]); (split; [tauto|]); (split; [tauto|]).
  all: split; [|split; [tauto|intros Hm; specialize (Hr Hm); apply andb_true_iff in Hr as [??]; done]].
  all: intros capability floor s x Hl Hs' Hx; specialize (Hf capability).
  all: rewrite tightened_floor, Hl in Hf.
  - destruct (tc_min_capability_scores r !! capability); specialize (Hf _ s x eq_refl Hs' Hx); cbn in Hf; lia.
  - destruct (tc_min_capability_scores base !! capability); specialize (Hf _ s x eq_refl Hs' Hx); cbn in Hf; lia.
Qed.

(** The converse holds where no floor is below zero, the default a missing one counts as. *)
Lemma tightened_demands resolved subject base r :
  map_Forall (fun _ f => 0 <= f) (tc_min_capability_scores base) ->
  map_Forall (fun _ f => 0 <= f) (tc_min_capability_scores r) ->
  demands resolved subject base -> demands resolved subject r -> demands resolved subject (tightened base r).
Proof.
  intros Hb0 Hr0 (Hc & Ht & Hs & Hf & He & Hr) (Hc' & Ht' & Hs' & Hf' & He' & Hr').
  split; [cbn; lia|]. split; [cbn; rewrite elem_of_sorted_union; tauto|].
  split; [cbn; rewrite elem_of_sorted_union; tauto|]. split; [|split].
  - intros capability floor s x Hl Hres Hx. rewrite tightened_floor in Hl.
    specialize (Hf capability). specialize (Hf' capability). specialize (Hb0 capability). specialize (Hr0 capability).
    destruct (tc_min_capability_scores base !! capability) as [fb|], (tc_min_capability_scores r !! capability) as [fr|];
      cbn in Hl; try done; injection Hl as <-.
    + specialize (Hf _ s x eq_refl Hres Hx). specialize (Hf' _ s x eq_refl Hres Hx). lia.
    + specialize (Hf _ s x eq_refl Hres Hx). specialize (Hb0 _ eq_refl). lia.
    + specialize (Hf' _ s x eq_refl Hres Hx). specialize (Hr0 _ eq_refl). lia.
  - cbn. rewrite elem_of_sorted_union. tauto.
  - cbn. intros Hm. by rewrite (Hr Hm), (Hr' Hm).
Qed.
End demands.

Lemma elem_of_loosening base r f :
  f ∈ loosening_problems base r <->
    (f = "constraints.min_context_tokens" /\ tc_min_context_tokens r < tc_min_context_tokens base /\ tc_min_context_tokens r <> 0) \/
    (f = "constraints.allow_remote_providers" /\ tc_allow_remote_providers r = true /\ tc_allow_remote_providers base = false) \/
    (f = "constraints.max_latency_p95_seconds" /\ exists lr lb : f64, tc_max_latency_p95_seconds r = Some lr /\
       tc_max_latency_p95_seconds base = Some lb /\ lb < lr) \/
    (exists capability (fr fb : f64), f = "constraints.min_capability_scores." +:+ capability /\
       tc_min_capability_scores r !! capability = Some fr /\ tc_min_capability_scores base !! capability = Some fb /\ fr < fb).
Proof.
  assert (Hif : forall (b : bool) x, f ∈ (if b then [x] else []) <-> f = x /\ b = true).
  { intros b x. destruct b; rewrite ?list_elem_of_singleton, ?elem_of_nil; naive_solver. }
  unfold loosening_problems. rewrite !elem_of_app, !Hif, !andb_true_iff, !negb_true_iff, Z.ltb_lt, Z.eqb_neq.
  apply or_iff_compat_l. apply or_iff_compat_l. f_equiv.
  - destruct (tc_max_latency_p95_seconds r) as [lr|], (tc_max_latency_p95_seconds base) as [lb|];
      rewrite ?Hif, ?Z.ltb_lt, ?elem_of_nil; naive_solver.
  - rewrite list_elem_of_omap. unfold loosened_floor. split.
    + intros ([k v] & Hk%elem_of_map_to_list & Hl). cbn [fst snd] in Hl. destruct (tc_min_capability_scores base !! k) as [fb|] eqn:Eb; [|discriminate Hl].
      destruct (v <? fb) eqn:Hlt; [|discriminate Hl]. apply Z.ltb_lt in Hlt. apply (inj Some) in Hl. exists k, v, fb. split; [by symmetry|done].
    + intros (k & fr & fb & -> & Hr & Hb & Hlt). exists (k, fr). split; [by apply elem_of_map_to_list|]. cbn [fst snd].
      unfold f64 in *. rewrite Hb. by rewrite (proj2 (Z.ltb_lt _ _) Hlt).
Qed.

(** ** Lemmas: one candidate *)

Section pipeline.
Context `{Profiles} `{Classification} {M : Type} `{Measurement M} `{Digits}.
Implicit Types (request : RouteRequest) (world : World (M := M)) (plan : Plan) (c : Candidate).

Lemma accepted subject e (inputs : ConstraintInputs (M := M)) :
  (evaluate_constraints subject e inputs).1.1 = None <->
  forall name P, (name, P) ∈ requirements subject e inputs -> P.
Proof.
  rewrite evaluate_first. pose proof (decided _ _ (all_decided subject e inputs)) as Hd.
  destruct (first_rejection _) as [r|]; [|done]. split; [done|]. intros Hall.
  destruct Hd as (before & P & after & Hr & _ & HP). destruct HP. apply (Hall (reason r)).
  rewrite Hr, elem_of_app. right. left.
Qed.

(** What the executed constraints resolve a capability to: the entry of the breakdown. *)
Definition resolved_in (fit : TaskFit) (capability : string) : option CapabilityScore :=
  (list_to_map (rev (map (fun s => (cs_capability_id s, s)) (tf_capabilities fit))) : gmap string CapabilityScore) !! capability.

(** The constraints of the plan, as demands on an accepted candidate. *)
Lemma accepted_forall subject e (inputs : ConstraintInputs (M := M)) :
  (evaluate_constraints subject e inputs).1.1 = None <-> Forall (fun r : string * Prop => r.2) (requirements subject e inputs).
Proof.
  rewrite accepted, Forall_forall. split; [intros Hall [n P] Hin; exact (Hall n P Hin)|intros Hall n P Hin; exact (Hall _ Hin)].
Qed.

(** The constraints of the plan, as demands on an accepted candidate; and what the others ask. *)
Lemma accepted_demands subject e request world plan budget fit :
  (evaluate_constraints subject e (constraint_inputs request world plan budget fit)).1.1 = None ->
  demands (resolved_in fit) subject (pl_constraints plan) /\
  (mf_enabled (es_facts subject) = true /\ mf_available (es_facts subject) = true /\ pf_healthy (es_provider subject) = true) /\
  (forall b, budget = Some b -> fits b = true \/ b_required_context b <= sc_tokens (es_served_context subject)) /\
  (is_Some (pl_requires_thinking_control plan) -> pf_supports_thinking_control (es_provider subject) = true) /\
  subject_canonical_id subject ∉ default ∅ (wo_open_circuit_breakers world).
Proof.
  rewrite accepted_forall. unfold requirements. rewrite !Forall_cons. cbn [snd].
  intros (Hen & _ & _ & [Hav Hhe] & Hctx & _ & Hreq & [Ht Hs] & Hth & _ & _ & Hfl & Hex & Hrem & _ & _ & _ & _ & Hbr & _).
  split; [|split; [done|split; [|split; [exact Hth|exact Hbr]]]].
  - split; [exact Hctx|]. split; [exact Ht|]. split; [exact Hs|]. split; [exact Hfl|]. split; [exact Hex|exact Hrem].
  - intros b ->. cbn in Hreq. destruct (fits b); [by left|]. right. by apply Hreq.
Qed.
End pipeline.

Lemma ordered_elem `{Profiles} l depth disallow c :
  c ∈ ordered (rank_candidates l depth disallow) -> exists k c0, c0 ∈ l /\ c = with_rank k c0.
Proof.
  assert (Ho : ordered (rank_candidates l depth disallow) =
    enumerate_from 1 (py_sorted (leb_of (cmp_on order_key cmp_order)) l)).
  { unfold rank_candidates. by destruct (enumerate_from _ _). }
  rewrite Ho. intros Hc. apply list_elem_of_lookup in Hc as [i Hi]. rewrite enumerate_from_lookup in Hi.
  destruct (_ !! i) as [c0|] eqn:E; [|done]. injection Hi as <-. eexists _, c0. split; [|done].
  apply list_elem_of_lookup_2 in E. by rewrite elem_of_py_sorted in E.
Qed.

(** ** Lemmas: the stored profile *)

Section stored.

Lemma elem_of_stored rows p : p ∈ list_stored_task_profiles rows <-> p ∈ rows.
Proof. apply elem_of_py_sorted. Qed.

Lemma load_spec rows task p :
  load_task_profile rows task = Ok p ->
  p ∈ rows /\ sp_profile_id p = task /\ sp_enabled p = true /\
  forall q, q ∈ rows -> sp_profile_id q = task -> sp_enabled q = true -> sp_updated_at q <= sp_updated_at p.
Proof.
  unfold load_task_profile. set (keep := fun q => bool_decide (sp_profile_id q = task) && sp_enabled q).
  intros E. destruct (List.filter keep (list_stored_task_profiles rows)) as [|x rest] eqn:Ef; [discriminate E|].
  injection E as ->. pose proof (sorted_by_key sp_updated_at (cmp_desc Z.compare) rows) as Hs.
  fold (list_stored_task_profiles rows) in Hs.
  assert (Hp : p ∈ List.filter keep (list_stored_task_profiles rows)) by (rewrite Ef; left).
  apply elem_of_filter_bool in Hp as [Hp Hk]. rewrite elem_of_stored in Hp. unfold keep in Hk. apply andb_true_iff in Hk as [Hk1 Hk2].
  apply bool_decide_eq_true in Hk1. repeat split; [done..|]. intros q Hq Hqt Hqe.
  assert (Hqk : q ∈ List.filter keep (list_stored_task_profiles rows)).
  { apply elem_of_filter_bool. rewrite elem_of_stored. split; [done|]. unfold keep. by rewrite Hqt, bool_decide_eq_true_2, Hqe. }
  revert Hs Ef Hqk. generalize (list_stored_task_profiles rows) as l. clear - keep. induction 1 as [|y l Hs IH Hy]; [done|].
  cbn. destruct (keep y) eqn:Ek.
  - intros [= -> <-] Hq. apply elem_of_cons in Hq as [->|Hq]; [lia|]. apply elem_of_filter_bool in Hq as [Hq _].
    rewrite Forall_forall in Hy. specialize (Hy q Hq). unfold leb_of, cmp_on, cmp_desc in Hy.
    destruct (Z.compare_spec (sp_updated_at q) (sp_updated_at p)); lia || done.
  - intros Ef Hq. by apply IH.
Qed.
End stored.

(** ** Lemmas: one candidate and its fate *)

Section fates.
Context `{Profiles} `{Classification} {M : Type} `{Measurement M} `{Digits}.
Implicit Types (request : RouteRequest) (world : World (M := M)) (plan : Plan) (c : Candidate).

Lemma build_subject_fields facts signals provider policy request constraints adapter s :
  (build_subject facts signals provider policy request constraints adapter).1 = Some s ->
  es_facts s = facts /\ es_provider s = provider /\ es_signals s = signals /\ es_adapter s = adapter.
Proof. unfold build_subject. destruct (resolve_served_context _ _ _); [|done]. by intros [= <-]. Qed.

Lemma survives_inv request world plan facts provider signals adapter rc :
  evaluate_candidate request world plan (facts, provider, signals, adapter) = Survives rc ->
  let subject := rc_subject rc in
  es_facts subject = facts /\ es_provider subject = provider /\ es_signals subject = signals /\ es_adapter subject = adapter /\
  outside_pins request facts adapter = false /\ rc_fit rc = score_subject subject (pl_scoring plan) /\
  (evaluate_constraints subject (estimate_of subject)
     (constraint_inputs request world plan (budget_of request plan (es_served_context subject)) (rc_fit rc))).1.1 = None.
Proof.
  unfold evaluate_candidate. destruct (build_subject _ _ _ _ _ _ _) as [[s|] placeholder] eqn:Eb; [|done].
  destruct (build_subject_fields facts signals provider (wo_policy world) request (pl_constraints plan) adapter s) as (Ef1 & Ef2 & Ef3 & Ef4);
    [by rewrite Eb|].
  destruct (outside_pins request facts adapter) eqn:Ep; [done|].
  destruct (evaluate_constraints _ _ _) as [[[r|] fits] target] eqn:Ee; [done|]. intros [= <-]. cbn.
  repeat split; try done. by rewrite Ee.
Qed.

Lemma outside_pins_false request facts adapter :
  outside_pins request facts adapter = false <->
  (forall m, ov_model (rq_overrides request) = Some m -> mf_canonical_id facts = m) /\
  (forall name, ov_adapter (rq_overrides request) = Some name -> exists a, adapter = Some a /\ af_name a = name).
Proof.
  unfold outside_pins. rewrite orb_false_iff. f_equiv.
  - destruct (ov_model _) as [m|]; [|done]. rewrite negb_false_iff, bool_decide_eq_true. naive_solver.
  - destruct (ov_adapter _) as [name|]; [|done]. destruct adapter as [a|]; [|naive_solver].
    rewrite negb_false_iff, bool_decide_eq_true. naive_solver.
Qed.

Lemma candidate_facts db world weights cs c :
  candidates_for db world weights = Ok cs -> c ∈ cs ->
  exists m, m ∈ ed_models (db_evidence db) /\ c.1.1.1 = facts_for m (pf_is_remote (wo_provider world)).
Proof.
  unfold candidates_for, read_candidates. intros E Hc. apply bind_Ok_inv in E as (evidence & _ & E). injection E as <-.
  apply list_elem_of_bind in Hc as (m & Hc & Hm). unfold sorted_models in Hm. rewrite elem_of_py_sorted in Hm. exists m. split; [done|].
  unfold candidates_of_model in Hc. apply elem_of_cons in Hc as [->|Hc]; [done|].
  destruct (negb _); [by apply elem_of_nil in Hc|]. by apply list_elem_of_fmap in Hc as (a & -> & _).
Qed.

Lemma budget_admits n out served source floor margin estimate cpt :
  let b := budget_context n out served source floor margin estimate cpt in
  fits b = true \/ b_required_context b <= served ->
  exists o, o <= out /\ (o = out \/ exists m, floor = Some m /\ m <= o) /\ n + o + margin <= served.
Proof.
  unfold budget_context. destruct (Z.leb_spec (n + out + margin) served) as [Hle|Hgt]; cbn.
  { intros _. exists out. split; [lia|]. by split; [left|]. }
  destruct floor as [m|]; cbn; [|intros [?|?]; [done|lia]].
  destruct (Z.leb_spec m (served - n - margin)); cbn; [|intros [?|?]; [done|lia]].
  intros _. exists (Z.min out (served - n - margin)). split; [lia|]. split; [|lia].
  destruct (Z.min_spec out (served - n - margin)) as [[? ->]|[? ->]]; [by left|right; by exists m].
Qed.

(** The parts of a completed decision. *)
Lemma decide_inv decision_id duration_ms timestamp nulls_first db request world d :
  decide_route decision_id duration_ms timestamp nulls_first db request world = Ok d ->
  exists profile merged candidates overview,
    load_task_profile (db_profiles db) (rq_task request) = Ok profile /\
    merged_constraints (sp_constraints profile) (rq_constraints request) = Ok merged /\
    candidates_for db world (sp_weights profile) = Ok candidates /\
    evidence_overview (po_evidence_url (wo_policy world)) nulls_first (db_evidence db) = Ok overview /\
    refuse_unknown_adapter (ov_adapter (rq_overrides request)) candidates = Ok tt /\
    let plan := plan_of request world db profile (with_request_capabilities (rq_require_capabilities request) merged) candidates in
    let fates := map (evaluate_candidate request world plan) candidates in
    let ranking := rank_candidates (ranked_of_fates fates) (pl_fallback_depth plan) (ov_disallow_fallback (rq_overrides request)) in
    de_profile d = profile /\ de_plan d = plan /\ de_fates d = combine candidates fates /\
    de_budget d = match primary ranking with Some p => budget_of request plan (es_served_context (rc_subject p)) | None => None end /\
    ex_ranking (de_explanation d) = ranking /\ ex_rejected (de_explanation d) = rejected_of_fates fates /\
    ex_decision_id (de_explanation d) = decision_id.
Proof.
  unfold decide_route. intros E. apply bind_Ok_inv in E as (profile & Ep & E). apply bind_Ok_inv in E as (merged & Em & E).
  apply bind_Ok_inv in E as (candidates & Ec & E). apply bind_Ok_inv in E as (overview & Eo & E).
  apply bind_Ok_inv in E as ([] & Ea & E). injection E as <-.
  exists profile, merged, candidates, overview. by repeat (split; [done|]).
Qed.
End fates.

(** ** A concrete registry *)

Definition sample_weights : gmap string f64 := {[ "coding" := fone ]}.

Definition sample_block (min_context : Z) (excluded : list string) : TaskProfileConstraints :=
  mkConstraintsBlock min_context ["tool_use"] (Some (10 * fone)) ∅ excluded true.

Definition sample_profile : StoredTaskProfile :=
  mkStored "t1" "code.review" "1" sample_weights (sample_block 1024 [])
    (mkExecution 0 512 (Some 128) "text" None 2 1 None) (mkValidation false false [] 0) true 0 5.

Definition sample_registry : list ModelRow :=
  let row id canonical enabled := mkModelRow id canonical "llamacpp" "local" canonical None "verified" true None enabled (Some 8192) None None false JNull in
  [row "m1" "base:a" true; row "m2" "base:b" true; row "m3" "base:c" false].

Definition sample_routing_db : RoutingDb :=
  mkRoutingDb [sample_profile] (mkEvidenceDb sample_registry [] ∅ []) [] [] (mkStore ∅ [] ∅ ∅ ∅ ∅).

Definition sample_classification : Classification :=
  {| DataClassification := Z; classification_of _ := None; classification_value _ := ""; classification_rank z := z |}.

Definition sample_policy : @RoutingPolicy plain_profiles :=
  @mkPolicy plain_profiles "weighted_evidence" 0 0 0 true (flit 1 2) fone 0 empty_profile ∅ None "".

Definition sample_world : @World plain_profiles (option Z) :=
  @mkWorld plain_profiles (option Z) sample_provider_facts ∅ sample_policy None ∅ None ∅ ∅ 7.

Definition sample_request (block : option TaskProfileConstraints) : @RouteRequest plain_profiles :=
  @mkRouteRequest plain_profiles "code.review" (Some 100) None block [] None
    (@mkRuntimeOverrides plain_profiles None None None false false false) None.

Definition sample_decide (block : option TaskProfileConstraints) :=
  @decide_route plain_profiles sample_classification (option Z) option_measurement sample_digits "d1" 3 JNull false
    sample_routing_db (sample_request block) sample_world.

(** Two candidates survive the profile; a request that excludes one leaves the other; the disabled
    model is refused either way. *)
Example sample_decides :
  (fun d => (map (fun c => mf_canonical_id (es_facts (rc_subject c))) (ordered (ex_ranking (de_explanation d))),
             map (fun r => reason (rj_rejection r)) (ex_rejected (de_explanation d)))) <$> sample_decide (Some (sample_block 2048 ["base:a"]))
  = Ok (["base:b"], ["excluded_by_policy"; "model_disabled"]).
Proof. vm_compute. reflexivity. Qed.

(** ** Lemmas: the latency bound *)

Definition with_latency (l : option f64) (c : TaskProfileConstraints) : TaskProfileConstraints :=
  mkConstraintsBlock (tc_min_context_tokens c) (tc_requires_capabilities c) l (tc_min_capability_scores c)
    (tc_exclude_models c) (tc_allow_remote_providers c).

Definition profile_with_latency (l : option f64) (p : StoredTaskProfile) : StoredTaskProfile :=
  mkStored (sp_id p) (sp_profile_id p) (sp_version p) (sp_weights p) (with_latency l (sp_constraints p)) (sp_execution p)
    (sp_validation p) (sp_enabled p) (sp_created_at p) (sp_updated_at p).

Definition db_with_latencies (f : StoredTaskProfile -> option f64) (db : RoutingDb) : RoutingDb :=
  mkRoutingDb (map (fun p => profile_with_latency (f p) p) (db_profiles db)) (db_evidence db) (db_capabilities db)
    (db_adapters db) (db_reliability db).

Lemma py_sorted_map {A B} (f : A -> B) (leb : A -> A -> bool) (leb' : B -> B -> bool) l :
  (forall x y, leb' (f x) (f y) = leb x y) -> py_sorted leb' (map f l) = map f (py_sorted leb l).
Proof.
  intros Hf. induction l as [|x l IH]; [done|]. cbn. rewrite IH. clear IH. induction (py_sorted leb l) as [|y k IH]; [done|].
  cbn. rewrite Hf. destruct (leb x y); [done|]. cbn. by rewrite IH.
Qed.

Lemma load_with_latency f rows task :
  load_task_profile (map (fun p => profile_with_latency (f p) p) rows) task =
    (fun p => profile_with_latency (f p) p) <$> load_task_profile rows task.
Proof.
  unfold load_task_profile, list_stored_task_profiles.
  rewrite (py_sorted_map _ (leb_of (cmp_on sp_updated_at (cmp_desc Z.compare)))) by done.
  induction (py_sorted _ rows) as [|p l IH]; [done|]. cbn [map List.filter]. cbn. destruct (_ && _); [done|exact IH].
Qed.

Lemma merged_with_latency l base requested :
  (forall r, requested = Some r -> tc_max_latency_p95_seconds r = None) ->
  merged_constraints (with_latency l base) requested = with_latency l <$> merged_constraints base requested.
Proof.
  intros Hr. unfold merged_constraints. destruct requested as [r|]; [|done]. specialize (Hr r eq_refl).
  assert (Hp : loosening_problems (with_latency l base) r = loosening_problems base r).
  { unfold loosening_problems. by rewrite Hr. }
  rewrite Hp. destruct (loosening_problems base r); [|done]. cbn. unfold tightened, with_latency. cbn. by rewrite Hr.
Qed.

Lemma with_request_latency l caps c :
  with_request_capabilities caps (with_latency l c) = with_latency l (with_request_capabilities caps c).
Proof. unfold with_request_capabilities. cbn. by destruct (forallb _ _). Qed.

Lemma fmap_bind_ext {A B C} (h : B -> C) (m : result A) (f g : A -> result B) :
  (forall a, h <$> f a = h <$> g a) -> h <$> (m ≫= f) = h <$> (m ≫= g).
Proof. intros Hfg. destruct m; [apply Hfg|done]. Qed.

Section latency.
Context `{Profiles} `{Classification} {M : Type} `{Measurement M} `{Digits}.

Lemma evaluate_with_latency l (request : RouteRequest) (world : World (M := M)) db profile constraints candidates c :
  evaluate_candidate request world (plan_of request world db (profile_with_latency l profile) (with_latency l constraints) candidates) c =
  evaluate_candidate request world (plan_of request world db profile constraints candidates) c.
Proof. destruct c as [[[facts provider] signals] adapter]. reflexivity. Qed.

Lemma decision_with_latency f l decision_id duration_ms timestamp db (request : RouteRequest) (world : World (M := M))
    profile constraints candidates overview :
  de_explanation (decision_of decision_id duration_ms timestamp (db_with_latencies f db) request world
    (profile_with_latency l profile) (with_latency l constraints) candidates overview) =
  de_explanation (decision_of decision_id duration_ms timestamp db request world profile constraints candidates overview).
Proof.
  unfold decision_of. set (plan := plan_of request world db profile constraints candidates).
  change (plan_of request world (db_with_latencies f db) (profile_with_latency l profile) (with_latency l constraints) candidates)
    with (plan_of request world db (profile_with_latency l profile) (with_latency l constraints) candidates).
  rewrite (map_ext _ (evaluate_candidate request world plan) (fun c => evaluate_with_latency l request world db profile constraints candidates c)).
  reflexivity.
Qed.
End latency.

Module Properties.

(** A request's constraints may only tighten.  The merge is refused exactly when some part of the
    request's block would loosen the profile's - a smaller non-zero context, remote providers where
    the profile forbids them, a larger latency, a lower floor on a capability that has one - and the
    refusal names exactly those parts, sorted.  A merge that succeeds demands of every candidate at
    least what the profile's block demands and at least what the request's block does, and, where no
    floor is below zero, nothing beyond the two. *)
Theorem tightening_spec `{Profiles} (base r : TaskProfileConstraints) :
  let loosens f :=
    (f = "constraints.min_context_tokens" /\ tc_min_context_tokens r < tc_min_context_tokens base /\ tc_min_context_tokens r <> 0) \/
    (f = "constraints.allow_remote_providers" /\ tc_allow_remote_providers r = true /\ tc_allow_remote_providers base = false) \/
    (f = "constraints.max_latency_p95_seconds" /\ exists lr lb : f64, tc_max_latency_p95_seconds r = Some lr /\
       tc_max_latency_p95_seconds base = Some lb /\ lb < lr) \/
    (exists capability (fr fb : f64), f = "constraints.min_capability_scores." +:+ capability /\
       tc_min_capability_scores r !! capability = Some fr /\ tc_min_capability_scores base !! capability = Some fb /\ fr < fb) in
  match merged_constraints base (Some r) with
  | Ok merged =>
      (forall f, ~ loosens f) /\
      (forall resolved subject, demands resolved subject merged ->
         demands resolved subject base /\ demands resolved subject r) /\
      (map_Forall (fun _ f => 0 <= f) (tc_min_capability_scores base) ->
       map_Forall (fun _ f => 0 <= f) (tc_min_capability_scores r) ->
       forall resolved subject, demands resolved subject base -> demands resolved subject r ->
         demands resolved subject merged)
  | Raise e => exists fields, e = ConstraintsNotTightening fields /\ fields <> [] /\
      (forall f, f ∈ fields <-> loosens f) /\
      StronglySorted (fun a b => leb_of String.compare a b = true) fields
  end.
Proof.
  intros loosens. assert (Hl : forall f, f ∈ loosening_problems base r <-> loosens f) by apply elem_of_loosening.
  unfold merged_constraints. destruct (loosening_problems base r) as [|x l] eqn:E.
  - split; [intros f Hf; apply Hl in Hf; by apply elem_of_nil in Hf|].
    split; [intros; by apply demands_tightened|intros; by apply tightened_demands].
  - eexists. split; [reflexivity|]. split; [|split].
    + intros Hn. apply (f_equal length) in Hn. rewrite py_sorted_length in Hn. done.
    + intros f. rewrite elem_of_py_sorted. apply Hl.
    + apply (sorted_by_key id String.compare).
Qed.



(** The latency bound decides nothing.  Changing [max_latency_p95_seconds] of every stored profile
    in any way leaves the explanation of every decision - selection, fallbacks, rejections, flags -
    and every refusal as they were, for every request that states no latency bound of its own. *)
Theorem latency_ignored `{Profiles} `{Classification} {M : Type} `{Measurement M} `{Digits} (decision_id : string)
    (duration_ms : Z) (timestamp : json) (nulls_first : bool) (db : RoutingDb) (request : RouteRequest)
    (world : World (M := M)) (latencies : StoredTaskProfile -> option f64)
    (Hr : forall r, rq_constraints request = Some r -> tc_max_latency_p95_seconds r = None) :
  de_explanation <$> decide_route decision_id duration_ms timestamp nulls_first (db_with_latencies latencies db) request world =
  de_explanation <$> decide_route decision_id duration_ms timestamp nulls_first db request world.
Proof.
  unfold decide_route. cbn [db_profiles db_with_latencies]. rewrite load_with_latency.
  destruct (load_task_profile (db_profiles db) (rq_task request)) as [p|]; [|done]. cbn [fmap result_fmap mbind result_bind].
  cbn [sp_constraints profile_with_latency]. rewrite merged_with_latency by exact Hr.
  destruct (merged_constraints (sp_constraints p) (rq_constraints request)) as [merged|]; [|done]. cbn [fmap result_fmap mbind result_bind].
  apply (fmap_bind_ext de_explanation (candidates_for db world (sp_weights p))). intros candidates.
  apply (fmap_bind_ext de_explanation (evidence_overview (po_evidence_url (wo_policy world)) nulls_first (db_evidence db))).
  intros overview.
  apply (fmap_bind_ext de_explanation (refuse_unknown_adapter (ov_adapter (rq_overrides request)) candidates)). intros _.
  apply (f_equal Ok). rewrite with_request_latency. apply decision_with_latency.
Qed.

Lemma latency_ignored_witness :
  is_ok (sample_decide None) = true /\
  de_explanation <$> @decide_route plain_profiles sample_classification (option Z) option_measurement sample_digits "d1" 3 JNull false
    (db_with_latencies (fun _ => Some 0) sample_routing_db) (sample_request None) sample_world = de_explanation <$> sample_decide None.
Proof.
  split; [vm_compute; reflexivity|].
  apply (@latency_ignored plain_profiles sample_classification (option Z) option_measurement sample_digits). by intros r.
Defined.
End Properties.
