(* ===== verification/RoutingStore.v ===== *)
(** * Decisions on record ([services/routing.py])

    The rows a decision leaves, and [route] itself: authorize, decide, write, refuse when nothing was
    eligible; and the two readers of the history.  [runtime_profiles] is a map by [profile_hash], its
    unique key; the explanation is stored as the value its JSON document renders. *)

From Stdlib Require Import Ascii String.
From S2P Require Import Prelude PyFloat PyStr Json Telemetry Authorization ContextBudget Ordering EvidencePolicy Reliability Subject Scoring Constraints Ranking TaskProfile EvidenceStore Candidates ReliabilityService Explanation Routing.
#[local] Open Scope string_scope.
#[local] Open Scope list_scope.
#[local] Open Scope Z_scope.

Record RuntimeProfileRow := mkProfileRow {
  rp_id : string;
  rp_context_size : option Z;
  rp_kv_cache_precision : option string;
  rp_gpu_layers : option json;
  rp_flash_attention : option bool;
  rp_threads : option json;
  rp_batch_size : option json;
  rp_keep_alive : option json;
  rp_provider_options_json : option (list (string * json));
  rp_created_at : Z
}.

Record DecisionSummary := mkSummaryRow {
  su_decision_id : string;
  su_task_profile_id : string;
  su_task_profile_version : string;
  su_requested_at : Z;
  su_duration_ms : Z;
  su_selected_canonical_id : option string;
  su_selected_score : option f64;
  su_flags : list string
}.

Section store.
Context `{Profiles} `{Classification} {M : Type} `{Measurement M} `{Digits}.

Record RoutingDecision := mkDecisionRow {
  rd_id : string;
  rd_task_profile_id : string;
  rd_task_profile_version : string;
  rd_strategy_name : string;
  rd_strategy_version : string;
  rd_confidence_policy_version : string;
  rd_requested_at : Z;
  rd_duration_ms : Z;
  rd_selected_model_id : option string;
  rd_selected_adapter_id : option string;
  rd_selected_subject_canonical_id : option string;
  rd_selected_score : option f64;
  rd_selected_runtime_profile_id : option string;
  rd_selected_served_context : option Z;
  rd_selected_served_context_source : option string;
  rd_selected_target_gpu_index : option Z;
  rd_flags_json : list string;
  rd_evidence_summary_json : EvidenceSummary;
  rd_overrides_json : json;
  rd_telemetry_snapshot_json : json;
  rd_explanation_json : Explanation;
  rd_created_at : Z
}.

Record RoutingCandidate := mkCandidateRow {
  ca_decision_id : string;
  ca_model_id : string;
  ca_adapter_id : option string;
  ca_subject_canonical_id : string;
  ca_runtime_profile_id : option string;
  ca_served_context : Z;
  ca_served_context_source : string;
  ca_target_gpu_index : option Z;
  ca_rank : option Z;
  ca_task_fit : option f64;
  ca_final_score : option f64;
  ca_estimated_vram_bytes : option Z;
  ca_capability_breakdown : list CapabilityScore;
  ca_factors : option AdjustmentFactors;
  ca_rejected : bool;
  ca_rejection_reason : option string;
  ca_rejection_detail : list (string * json);
  ca_created_at : Z
}.

Record DecisionStore := mkDecisionStore {
  ds_profiles : gmap string RuntimeProfileRow;              (* runtime_profiles, by profile_hash *)
  ds_decisions : list RoutingDecision;
  ds_candidates : list RoutingCandidate
}.

(** ** Writing *)

(** The row [weightsdb.upsert] leaves: a known hash keeps its id and its [created_at]. *)
Definition upserted_profile (new_id : string) (profile : RuntimeProfile) (now : Z) (old : option RuntimeProfileRow)
  : RuntimeProfileRow :=
  let '(id, created_at) := match old with Some r => (rp_id r, rp_created_at r) | None => (new_id, now) end in
  mkProfileRow id (context_size profile) (kv_cache_precision profile) (gpu_layers profile) (flash_attention profile)
    (threads profile) (batch_size profile) (keep_alive profile)
    (match provider_options profile with [] => None | l => Some l end) created_at.

(** Upserts the profile and reads its id back; [fresh] gives the key a new row would get. *)
Definition runtime_profile_id (fresh : string -> string) (profile : RuntimeProfile) (now : Z)
    (rows : gmap string RuntimeProfileRow) : gmap string RuntimeProfileRow * string :=
  let hash := profile_hash profile in
  let row := upserted_profile (fresh hash) profile now (rows !! hash) in
  (<[hash := row]> rows, rp_id row).

(** One pass of either loop: [profile_ids[hash] = _runtime_profile_id(...)]. *)
Definition record_profile (fresh : string -> string) (now : Z) (acc : gmap string RuntimeProfileRow * gmap string string)
    (subject : ExecutionSubject) : gmap string RuntimeProfileRow * gmap string string :=
  let '(rows, id) := runtime_profile_id fresh (es_runtime_profile subject) now acc.1 in
  (rows, <[runtime_profile_hash subject := id]> acc.2).

Definition decision_subjects (e : Explanation) : list ExecutionSubject :=
  map rc_subject (ordered (ex_ranking e)) ++ map rj_subject (ex_rejected e).

Definition record_profiles (fresh : string -> string) (now : Z) (e : Explanation) (rows : gmap string RuntimeProfileRow)
  : gmap string RuntimeProfileRow * gmap string string :=
  fold_left (record_profile fresh now) (decision_subjects e) (rows, ∅).

Definition decision_row (e : Explanation) (profile : StoredTaskProfile) (now : Z) (profile_ids : gmap string string)
  : RoutingDecision :=
  let p := primary (ex_ranking e) in
  let subject := rc_subject <$> p in
  mkDecisionRow (ex_decision_id e) (sp_profile_id profile) (sp_version profile) (fst (ex_strategy e)) STRATEGY_VERSION
    CONFIDENCE_POLICY_VERSION now (ex_duration_ms e) (mf_model_id ∘ es_facts <$> subject)
    (subject ≫= fun s => af_adapter_id <$> es_adapter s) (subject_canonical_id <$> subject) (final_score <$> p)
    (subject ≫= fun s => profile_ids !! runtime_profile_hash s) (sc_tokens ∘ es_served_context <$> subject)
    (sc_source ∘ es_served_context <$> subject) (p ≫= rc_target_gpu_index) (ex_flags e) (ex_summary e) (ex_overrides e)
    (ex_telemetry e) e now.

Definition ranked_row (decision_id : string) (now : Z) (profile_ids : gmap string string) (c : RankedCandidate)
  : RoutingCandidate :=
  let s := rc_subject c in
  mkCandidateRow decision_id (mf_model_id (es_facts s)) (af_adapter_id <$> es_adapter s) (subject_canonical_id s)
    (profile_ids !! runtime_profile_hash s) (sc_tokens (es_served_context s)) (sc_source (es_served_context s))
    (rc_target_gpu_index c) (Some (rc_rank c)) (Some (task_fit (rc_fit c))) (Some (final_score c)) (rc_estimated_vram_bytes c)
    (tf_capabilities (rc_fit c)) (Some (rc_factors c)) false None [] now.

Definition rejected_row (decision_id : string) (now : Z) (profile_ids : gmap string string) (r : RejectedCandidate)
  : RoutingCandidate :=
  let s := rj_subject r in
  mkCandidateRow decision_id (mf_model_id (es_facts s)) (af_adapter_id <$> es_adapter s) (subject_canonical_id s)
    (profile_ids !! runtime_profile_hash s) (sc_tokens (es_served_context s)) (sc_source (es_served_context s)) None None
    None None (rj_estimate r ≫= ve_total_bytes) [] None true (Some (reason (rj_rejection r))) (detail (rj_rejection r)) now.

(** One transaction. *)
Definition persist_decision (fresh : string -> string) (e : Explanation) (profile : StoredTaskProfile) (now : Z)
    (s : DecisionStore) : DecisionStore :=
  let '(rows, profile_ids) := record_profiles fresh now e (ds_profiles s) in
  mkDecisionStore rows (ds_decisions s ++ [decision_row e profile now profile_ids])
    (ds_candidates s ++ map (ranked_row (ex_decision_id e) now profile_ids) (ordered (ex_ranking e)) ++
     map (rejected_row (ex_decision_id e) now profile_ids) (ex_rejected e)).

(** ** [route] *)

Definition rejection_reasons (l : list RejectedCandidate) : list (string * string) :=
  map (fun r => (subject_canonical_id (rj_subject r), reason (rj_rejection r))) l.

Definition route (fresh : string -> string) (decision_id : string) (duration_ms : Z) (timestamp : json) (nulls_first : bool)
    (db : RoutingDb) (request : RouteRequest) (world : World (M := M)) (persist : bool) (principal : option Principal)
    (s : DecisionStore) : DecisionStore * result Decision :=
  match authorize principal "write" with
  | Raise e => (s, Raise e)
  | Ok _ =>
      match decide_route decision_id duration_ms timestamp nulls_first db request world with
      | Raise e => (s, Raise e)
      | Ok d =>
          let e := de_explanation d in
          (if persist then persist_decision fresh e (de_profile d) (wo_now world) s else s,
           match primary (ex_ranking e) with
           | None => Raise (NoEligibleModel (ex_decision_id e) (rejection_reasons (ex_rejected e)))
           | Some _ => Ok d
           end)
      end
  end.

(** ** Reading *)

Definition read_decision (s : DecisionStore) (decision_id : string) : option Explanation :=
  rd_explanation_json <$> find_first (fun r => bool_decide (rd_id r = decision_id)) (ds_decisions s).

(** [requested_at DESC, id DESC]. *)
Definition cmp_decisions : RoutingDecision -> RoutingDecision -> comparison :=
  cmp_on (fun r => (rd_requested_at r, rd_id r)) (cmp_desc (cmp_pair Z.compare String.compare)).

Definition summary_of (r : RoutingDecision) : DecisionSummary :=
  mkSummaryRow (rd_id r) (rd_task_profile_id r) (rd_task_profile_version r) (rd_requested_at r) (rd_duration_ms r)
    (mf_canonical_id ∘ es_facts ∘ rc_subject <$> primary (ex_ranking (rd_explanation_json r))) (rd_selected_score r)
    (rd_flags_json r).

Definition recent_decisions (s : DecisionStore) (limit : Z) : list DecisionSummary :=
  map summary_of (take (Z.to_nat limit) (py_sorted (leb_of cmp_decisions) (ds_decisions s))).

(** ** Lemmas *)

(** Whatever is recorded, the rows and the ids collected agree, and known rows keep their identity. *)
Definition profiles_agree (rows : gmap string RuntimeProfileRow) (ids : gmap string string) : Prop :=
  forall hash id, ids !! hash = Some id -> exists r, rows !! hash = Some r /\ rp_id r = id.

Definition keeps_identity (before after : gmap string RuntimeProfileRow) : Prop :=
  forall hash r, before !! hash = Some r ->
    exists r', after !! hash = Some r' /\ rp_id r' = rp_id r /\ rp_created_at r' = rp_created_at r.

Lemma upserted_identity new_id profile now r :
  rp_id (upserted_profile new_id profile now (Some r)) = rp_id r /\
  rp_created_at (upserted_profile new_id profile now (Some r)) = rp_created_at r.
Proof. done. Qed.

Lemma keeps_identity_upsert fresh profile now rows : keeps_identity rows (runtime_profile_id fresh profile now rows).1.
Proof.
  intros hash r Hr. cbn. destruct (decide (profile_hash profile = hash)) as [<-|Hne].
  - rewrite lookup_insert_eq, Hr. eexists. split; [reflexivity|]. apply upserted_identity.
  - rewrite lookup_insert_ne by done. by exists r.
Qed.

Lemma keeps_identity_trans a b c : keeps_identity a b -> keeps_identity b c -> keeps_identity a c.
Proof.
  intros Hab Hbc hash r Hr. destruct (Hab _ _ Hr) as (r1 & H1' & E1 & F1). destruct (Hbc _ _ H1') as (r2 & H2' & E2 & F2).
  exists r2. split; [done|]. split; congruence.
Qed.

Lemma record_profile_eq fresh now acc subject :
  record_profile fresh now acc subject =
    let h := runtime_profile_hash subject in
    let row := upserted_profile (fresh h) (es_runtime_profile subject) now (acc.1 !! h) in
    (<[h := row]> acc.1, <[h := rp_id row]> acc.2).
Proof. reflexivity. Qed.

Lemma record_profile_step fresh now acc subject :
  profiles_agree acc.1 acc.2 ->
  let acc' := record_profile fresh now acc subject in
  profiles_agree acc'.1 acc'.2 /\ keeps_identity acc.1 acc'.1 /\ is_Some (acc'.2 !! runtime_profile_hash subject) /\
  (forall hash, is_Some (acc.2 !! hash) -> is_Some (acc'.2 !! hash)).
Proof.
  intros Hag. rewrite record_profile_eq. cbn [fst snd]. split; [|split; [apply keeps_identity_upsert|split]].
  - intros hash id Hid.
    destruct (decide (runtime_profile_hash subject = hash)) as [<-|Hne].
    + rewrite lookup_insert_eq in Hid. injection Hid as <-. rewrite lookup_insert_eq. by eexists.
    + rewrite lookup_insert_ne in Hid by done. rewrite lookup_insert_ne by done. by apply Hag.
  - rewrite lookup_insert_eq. by eexists.
  - intros hash Hh. destruct (decide (runtime_profile_hash subject = hash)) as [<-|Hne].
    + rewrite lookup_insert_eq. by eexists.
    + by rewrite lookup_insert_ne.
Qed.

Lemma record_profiles_spec fresh now subjects acc :
  profiles_agree acc.1 acc.2 ->
  let acc' := fold_left (record_profile fresh now) subjects acc in
  profiles_agree acc'.1 acc'.2 /\ keeps_identity acc.1 acc'.1 /\
  (forall hash, is_Some (acc.2 !! hash) -> is_Some (acc'.2 !! hash)) /\
  (forall subject, subject ∈ subjects -> is_Some (acc'.2 !! runtime_profile_hash subject)).
Proof.
  revert acc. induction subjects as [|x l IH]; intros acc Hag; cbn [fold_left].
  { split; [done|]. split; [intros hash r Hr; by exists r|]. split; [done|]. by intros ? ?%elem_of_nil. }
  destruct (record_profile_step fresh now acc x Hag) as (Hag' & Hk & Hx & Hmono).
  destruct (IH _ Hag') as (Ha & Hk' & Hm' & Hs'). split; [exact Ha|]. split; [by eapply keeps_identity_trans|].
  split; [intros hash Hh; by apply Hm', Hmono|]. intros subject [->|Hin]%elem_of_cons; [by apply Hm'|by apply Hs'].
Qed.

Lemma find_first_app_fresh {A} (p : A -> bool) l x :
  (forall y, y ∈ l -> p y = false) -> p x = true -> find_first p (l ++ [x]) = Some x.
Proof.
  unfold find_first. induction l as [|y l IH]; intros Hl Hx; cbn [app List.filter]; [by rewrite Hx|].
  rewrite (Hl y) by left. apply IH; [|done]. intros z Hz. apply Hl. by right.
Qed.
End store.

Lemma fates_partition `{Profiles} (candidates : list Candidate) (f : Candidate -> Fate) depth disallow :
  let fates := map f candidates in
  zlen (ordered (rank_candidates (ranked_of_fates fates) depth disallow)) + zlen (rejected_of_fates fates) +
  countb (fun cf : Candidate * Fate => match cf.2 with OutsidePin => true | _ => false end) (combine candidates fates) =
  zlen (combine candidates fates).
Proof.
  cbn zeta. unfold rank_candidates. set (ranked := ranked_of_fates _).
  assert (Hl : zlen (enumerate_from 1 (py_sorted (leb_of (cmp_on order_key cmp_order)) ranked)) = zlen ranked).
  { unfold zlen. by rewrite enumerate_from_length, py_sorted_length. }
  transitivity (zlen ranked + zlen (rejected_of_fates (map f candidates)) +
    countb (fun cf : Candidate * Fate => match cf.2 with OutsidePin => true | _ => false end) (combine candidates (map f candidates))).
  { f_equal. f_equal. rewrite <- Hl. by destruct (enumerate_from _ _). }
  unfold ranked, zlen, countb. clear Hl ranked. induction candidates as [|c l IH]; [done|].
  cbn [map combine]. unfold ranked_of_fates, rejected_of_fates in *. cbn [omap list_omap List.filter]. destruct (f c); cbn; lia.
Qed.

Module Properties.

(** [route] answers or refuses, and writes exactly when it should.  Without the scope, or when the
    request cannot be decided - no such profile, loosened constraints, an unknown adapter, unreadable
    evidence - nothing is written.  Otherwise the outcome is a result exactly when some candidate
    survived, and the refusal names every rejected candidate with its reason; every candidate is
    ranked, rejected or outside a pin; and the decision is written in both cases, unless the caller
    asked not to persist. *)
Theorem route_outcomes `{Profiles} `{Classification} {M : Type} `{Measurement M} `{Digits} (fresh : string -> string)
    (decision_id : string) (duration_ms : Z) (timestamp : json) (nulls_first : bool) (db : RoutingDb) (request : RouteRequest)
    (world : World (M := M)) (persist : bool) (principal : option Principal) (s : DecisionStore) :
  let '(s', outcome) := route fresh decision_id duration_ms timestamp nulls_first db request world persist principal s in
  match authorize principal "write", decide_route decision_id duration_ms timestamp nulls_first db request world with
  | Raise e, _ => outcome = Raise e /\ s' = s
  | Ok _, Raise e => outcome = Raise e /\ s' = s
  | Ok _, Ok d =>
      let e := de_explanation d in
      let outside f := match f with OutsidePin => true | _ => false end in
      outcome = match ordered (ex_ranking e) with
                | [] => Raise (NoEligibleModel decision_id
                                 (map (fun r => (subject_canonical_id (rj_subject r), reason (rj_rejection r))) (ex_rejected e)))
                | _ :: _ => Ok d
                end /\
      zlen (ordered (ex_ranking e)) + zlen (ex_rejected e) + countb (fun cf => outside cf.2) (de_fates d) = zlen (de_fates d) /\
      (persist = false -> s' = s) /\
      (persist = true -> s' = persist_decision fresh e (de_profile d) (wo_now world) s)
  end.
Proof.
  destruct (route _ _ _ _ _ _ _ _ _ _ _) as [s' outcome] eqn:Er. unfold route in Er.
  destruct (authorize principal "write") as [p|e]; [|by injection Er as <- <-].
  destruct (decide_route _ _ _ _ _ _ _) as [d|e] eqn:Ed; [|by injection Er as <- <-].
  destruct (decide_inv _ _ _ _ _ _ _ _ Ed) as (profile & merged & candidates & overview & _ & _ & _ & _ & _ & Hrest).
  cbn zeta in Hrest. set (plan := plan_of _ _ _ _ _ _) in Hrest.
  destruct Hrest as (_ & _ & Hfates & _ & Hrank & Hrej & Hid). cbn zeta.
  assert (Hprim : primary (ex_ranking (de_explanation d)) = head (ordered (ex_ranking (de_explanation d)))).
  { rewrite Hrank. unfold rank_candidates. by destruct (enumerate_from _ _). }
  split; [|split].
  - injection Er as _ <-. rewrite Hprim, Hid. unfold rejection_reasons. by destruct (ordered _).
  - rewrite Hfates, Hrank, Hrej. apply fates_partition.
  - injection Er as <- _. split; [by intros ->|by intros ->].
Qed.

(** C21: what a decision leaves on record.  It can be read back exactly, and every other decision reads
    as before.  Each ranked and each rejected candidate has its row, in order, under the decision's
    id, with its subject, its rank and score or its reason; the runtime profile a row names is
    stored, under the hash of the profile that candidate would run with; and a runtime profile that
    was already known keeps its id and its creation time, so older decisions still point at theirs. *)
Theorem decision_recorded `{Profiles} `{Classification} {M : Type} `{Measurement M} `{Digits} (fresh : string -> string)
    (e : Explanation) (profile : StoredTaskProfile) (now : Z) (s : DecisionStore)
    (Hfresh : forall r, r ∈ ds_decisions s -> rd_id r <> ex_decision_id e) :
  let s' := persist_decision fresh e profile now s in
  let runs_under r subject := exists p, ds_profiles s' !! runtime_profile_hash subject = Some p /\
                                ca_runtime_profile_id r = Some (rp_id p) in
  read_decision s' (ex_decision_id e) = Some e /\
  (forall id, id <> ex_decision_id e -> read_decision s' id = read_decision s id) /\
  (forall hash p, ds_profiles s !! hash = Some p -> exists p', ds_profiles s' !! hash = Some p' /\
     rp_id p' = rp_id p /\ rp_created_at p' = rp_created_at p) /\
  exists rows, ds_candidates s' = ds_candidates s ++ rows /\
    length rows = (length (ordered (ex_ranking e)) + length (ex_rejected e))%nat /\
    Forall (fun r => ca_decision_id r = ex_decision_id e) rows /\
    (forall i c, ordered (ex_ranking e) !! i = Some c -> exists r, rows !! i = Some r /\
       ca_rejected r = false /\ ca_rank r = Some (rc_rank c) /\ ca_final_score r = Some (final_score c) /\
       ca_subject_canonical_id r = subject_canonical_id (rc_subject c) /\ runs_under r (rc_subject c)) /\
    (forall i x, ex_rejected e !! i = Some x -> exists r, rows !! (length (ordered (ex_ranking e)) + i)%nat = Some r /\
       ca_rejected r = true /\ ca_rank r = None /\ ca_rejection_reason r = Some (reason (rj_rejection x)) /\
       ca_subject_canonical_id r = subject_canonical_id (rj_subject x) /\ runs_under r (rj_subject x)).
Proof.
  intros s' runs_under. unfold s', persist_decision in *.
  destruct (record_profiles_spec fresh now (decision_subjects e) (ds_profiles s, ∅)) as (Hag & Hkeep & _ & Hin);
    [by intros ? ? ?|].
  unfold record_profiles in runs_under |- *. destruct (fold_left _ _ _) as [prows ids]. cbn [fst snd ds_profiles ds_candidates] in *.
  assert (Hrun : forall subject, subject ∈ decision_subjects e -> exists p, prows !! runtime_profile_hash subject = Some p /\
    ids !! runtime_profile_hash subject = Some (rp_id p)).
  { intros subject Hs. destruct (Hin _ Hs) as [id Hid]. destruct (Hag _ _ Hid) as (p & Hp & <-). by exists p. }
  split; [|split; [|split; [exact Hkeep|]]].
  - unfold read_decision. cbn [ds_decisions]. rewrite find_first_app_fresh; [done| |by apply bool_decide_eq_true_2].
    intros r Hr. apply bool_decide_eq_false_2. by apply Hfresh.
  - intros id Hne. unfold read_decision. cbn [ds_decisions]. f_equal. unfold find_first. rewrite List.filter_app. cbn.
    rewrite bool_decide_eq_false_2 by (intros E; by destruct Hne). by rewrite app_nil_r.
  - eexists. split; [reflexivity|]. split; [by rewrite length_app, !length_map|]. split; [|split].
    + apply Forall_app. split; apply Forall_forall; intros r Hr; by apply list_elem_of_fmap in Hr as (x & -> & _).
    + intros i c Hc. exists (ranked_row (ex_decision_id e) now ids c). split.
      { apply lookup_app_l_Some. rewrite list_lookup_fmap, Hc. done. }
      do 4 (split; [done|]). apply Hrun. unfold decision_subjects. apply elem_of_app. left.
      apply list_elem_of_fmap. exists c. split; [done|]. by eapply list_elem_of_lookup_2.
    + intros i x Hx. exists (rejected_row (ex_decision_id e) now ids x). split.
      { rewrite lookup_app_r by (rewrite length_map; lia). rewrite length_map.
        replace (_ + i - _)%nat with i by lia. by rewrite list_lookup_fmap, Hx. }
      do 4 (split; [done|]). apply Hrun. unfold decision_subjects. apply elem_of_app. right.
      apply list_elem_of_fmap. exists x. split; [done|]. by eapply list_elem_of_lookup_2.
Qed.

Definition empty_store : @DecisionStore plain_profiles := @mkDecisionStore plain_profiles ∅ [] [].

Lemma decision_recorded_witness :
  exists d, sample_decide None = Ok d /\
    read_decision (persist_decision id (de_explanation d) (de_profile d) 7 empty_store) (ex_decision_id (de_explanation d)) =
      Some (de_explanation d).
Proof.
  pose proof (eq_refl : is_ok (sample_decide None) = true) as E. destruct (sample_decide None) as [d|]; [|discriminate E].
  exists d. split; [reflexivity|].
  apply (@decision_recorded plain_profiles sample_classification (option Z) option_measurement sample_digits). by intros r ?%elem_of_nil.
Defined.
End Properties.
