(* ===== verification/Validation.v ===== *)
(** * Output validation ([domain/validation.py])

    The deterministic checks of a model's output: JSON, schema, required fields, pattern, length.
    The rendered wording of a problem is a constructor; its path is a list of steps.  [json.loads] and
    [re.search] are the standard library's, reached through a class; a parsed document holds finite
    numbers. *)

From Stdlib Require Import Ascii String.
From S2P Require Import Prelude PyFloat PyStr Json Ordering EvidencePolicy Reliability.
#[local] Open Scope string_scope.
#[local] Open Scope list_scope.
#[local] Open Scope Z_scope.

Definition SUPPORTED_SCHEMA_KEYWORDS : gset string :=
  list_to_set ["$schema"; "$comment"; "title"; "description"; "type"; "properties"; "required"; "additionalProperties";
    "items"; "enum"; "const"; "minimum"; "maximum"; "exclusiveMinimum"; "exclusiveMaximum"; "minLength"; "maxLength";
    "minItems"; "maxItems"; "pattern"].

(** [json.loads], [None] for the exceptions [validate_json] catches; [re.search(...) is not None],
    [None] for [re.error]. *)
Class TextTools := {
  json_loads : string -> option json;
  re_search : string -> string -> option bool
}.

(** ** Python equality and comparison on JSON values *)

Definition as_num (x : json) : option f64 :=
  match x with
  | JBool b => Some (if b then fone else 0)
  | JInt z => Some (z * fone)
  | JFloat f => Some f
  | _ => None
  end.

(** [a == b]: numbers and booleans by value, dictionaries without regard to order. *)
Fixpoint py_eq (a b : json) : bool :=
  match a, b with
  | JNull, JNull => true
  | JStr s, JStr t => bool_decide (s = t)
  | JArr l, JArr k =>
      (fix eq_list l k := match l, k with
                          | [], [] => true
                          | x :: l', y :: k' => py_eq x y && eq_list l' k'
                          | _, _ => false
                          end) l k
  | JObj l, JObj k =>
      bool_decide (length l = length k) &&
      (fix eq_fields (l : list (string * json)) :=
         match l with
         | [] => true
         | (key, x) :: l' => match assoc key k with Some y => py_eq x y | None => false end && eq_fields l'
         end) l
  | _, _ => match as_num a, as_num b with Some x, Some y => x =? y | _, _ => false end
  end.

(** [value in container]. *)
Definition py_in (value container : json) : result bool :=
  match container with
  | JArr l => Ok (existsb (fun x => py_eq value x) l)
  | JStr s => match value with
              | JStr t => Ok (match String.index 0 t s with Some _ => true | None => false end)
              | _ => Raise TypeError
              end
  | JObj l => match value with
              | JStr t => Ok (match assoc t l with Some _ => true | None => false end)
              | JArr _ | JObj _ => Raise TypeError
              | _ => Ok false
              end
  | _ => Raise TypeError
  end.

(** The number an ordering comparison uses; comparing with anything else raises. *)
Definition num (x : json) : result f64 := match as_num x with Some f => Ok f | None => Raise TypeError end.

(** [for x in value]. *)
Definition is_continuation (a : ascii) : bool := let n := N_of_ascii a in ((128 <=? n)%N && (n <? 192)%N)%bool.
Fixpoint chars_from (s : string) : string * list string :=
  match s with
  | EmptyString => ("", [])
  | String a s' => let '(pending, l) := chars_from s' in
                   if is_continuation a then (String a pending, l) else ("", String a pending :: l)
  end.
Definition py_iter (x : json) : result (list json) :=
  match x with
  | JArr l => Ok l
  | JStr s => Ok (map JStr (snd (chars_from s)))
  | JObj l => Ok (map (fun kv => JStr kv.1) l)
  | _ => Raise TypeError
  end.

(** ** Checks and problems *)

Inductive Seg := Field (name : json) | Item (index : Z).

Inductive Wording :=
| WrongType (options : list string)
| NotInEnum
| NotConst
| Shorter
| Longer
| NoMatch
| BelowMinimum
| AboveMaximum
| NotAboveExclusive
| NotBelowExclusive
| FewerItems
| MoreItems
| Missing
| NotAllowed.

Record Problem := mkProblem { pr_path : list Seg; pr_problem : Wording }.

Inductive CheckDetail :=
| NoDetail
| NotJson
| SchemaProblems (l : list Problem)
| MissingFields (names : list string)
| NotAnObject
| InvalidPattern
| PatternMissed (pattern : string)
| TooLong (chars maximum : Z).

Record ValidationCheck := mkCheck { vc_kind : string; vc_passed : bool; vc_detail : CheckDetail }.

Record ValidationOutcome := mkOutcome {
  vo_performed : bool;
  vo_passed : option bool;
  vo_checks : list ValidationCheck;
  vo_parsed : json
}.

Definition failures (o : ValidationOutcome) : list ValidationCheck := List.filter (fun c => negb (vc_passed c)) (vo_checks o).

(** ** Unsupported keywords *)

Definition unsupported_keywords (fields : list (string * json)) : list string :=
  py_sorted (leb_of String.compare) (elements (list_to_set fields.*1 ∖ SUPPORTED_SCHEMA_KEYWORDS)).

Fixpoint reject_unsupported (schema : json) : result unit :=
  match schema with
  | JObj fields =>
      match unsupported_keywords fields with
      | [] =>
          (fix each (l : list (string * json)) : result unit :=
             match l with
             | [] => Ok tt
             | (key, value) :: l' =>
                 _ ← (if bool_decide (key = "properties") then
                        match value with
                        | JObj props => (fix subs (ps : list (string * json)) : result unit :=
                                           match ps with
                                           | [] => Ok tt
                                           | (_, sub) :: ps' => _ ← reject_unsupported sub; subs ps'
                                           end) props
                        | _ => Ok tt
                        end
                      else if bool_decide (key = "items") || bool_decide (key = "additionalProperties") then
                        match value with JObj _ => reject_unsupported value | _ => Ok tt end
                      else Ok tt);
                 each l'
             end) fields
      | keywords => Raise (SchemaUnsupported keywords)
      end
  | _ => Ok tt
  end.

(** ** One node *)

Definition type_matches (value expected : json) : result bool :=
  match expected with
  | JStr t =>
      Ok (if bool_decide (t = "integer") then match value with JInt _ => true | _ => false end
          else if bool_decide (t = "number") then match value with JInt _ | JFloat _ => true | _ => false end
          else if bool_decide (t = "boolean") then match value with JBool _ => true | _ => false end
          else if bool_decide (t = "object") then match value with JObj _ => true | _ => false end
          else if bool_decide (t = "array") then match value with JArr _ => true | _ => false end
          else if bool_decide (t = "string") then match value with JStr _ => true | _ => false end
          else if bool_decide (t = "null") then match value with JNull => true | _ => false end
          else false)
  | JArr _ | JObj _ => Raise TypeError
  | _ => Ok false
  end.

(** [any(_type_matches(value, option) for option in options)]. *)
Fixpoint any_type (value : json) (options : list json) : result bool :=
  match options with
  | [] => Ok false
  | o :: rest => b ← type_matches value o; if b : bool then Ok true else any_type value rest
  end.

(** ['|'.join(options)]. *)
Definition joined (options : list json) : result (list string) :=
  map_ok (fun o => match o with JStr s => Ok s | _ => Raise TypeError end) options.

Definition type_options (expected : json) : result (list json) :=
  match expected with JStr _ => Ok [expected] | _ => py_iter expected end.

(** The early return: the type is stated and nothing of it matches. *)
Definition type_problem (value : json) (fields : list (string * json)) : result (option Wording) :=
  match assoc "type" fields with
  | None | Some JNull => Ok None
  | Some expected =>
      options ← type_options expected;
      matched ← any_type value options;
      if matched : bool then Ok None else names ← joined options; Ok (Some (WrongType names))
  end.

(** [if keyword in schema and test: problems.append(...)]. *)
Definition keyword_problem (fields : list (string * json)) (keyword : string) (test : json -> result bool) (w : Wording)
  : result (list Wording) :=
  match assoc keyword fields with
  | None => Ok []
  | Some k => b ← test k; Ok (if b : bool then [w] else [])
  end.

Fixpoint concat_ok {A} (l : list (result (list A))) : result (list A) :=
  match l with [] => Ok [] | r :: l' => x ← r; y ← concat_ok l'; Ok (x ++ y) end.

Section node.
Context `{TextTools}.

Definition scalar_problems (value : json) (fields : list (string * json)) : result (list Wording) :=
  let on := keyword_problem fields in
  let versus (x : f64) (failing : f64 -> f64 -> bool) k := b ← num k; Ok (failing x b) in
  concat_ok (
    [on "enum" (fun k => b ← py_in value k; Ok (negb b)) NotInEnum;
     on "const" (fun k => Ok (negb (py_eq value k))) NotConst] ++
    match value with
    | JStr s =>
        [on "minLength" (versus (py_len s * fone) Z.ltb) Shorter;
         on "maxLength" (versus (py_len s * fone) Z.gtb) Longer;
         on "pattern" (fun k => match k with
                                | JStr p => match re_search p s with Some b => Ok (negb b) | None => Raise RegexError end
                                | _ => Raise TypeError
                                end) NoMatch]
    | JInt _ | JFloat _ =>
        let x := default 0 (as_num value) in
        [on "minimum" (versus x Z.ltb) BelowMinimum; on "maximum" (versus x Z.gtb) AboveMaximum;
         on "exclusiveMinimum" (versus x Z.leb) NotAboveExclusive; on "exclusiveMaximum" (versus x Z.geb) NotBelowExclusive]
    | JArr l =>
        [on "minItems" (versus (zlen l * fone) Z.ltb) FewerItems; on "maxItems" (versus (zlen l * fone) Z.gtb) MoreItems]
    | _ => []
    end).

Definition at_path (path : list Seg) (l : list Wording) : list Problem := map (mkProblem path) l.

(** [for name in schema.get("required", []) if name not in value]. *)
Definition missing_fields (object fields : list (string * json)) : result (list json) :=
  names ← py_iter (default (JArr []) (assoc "required" fields));
  concat_ok (map (fun name => match name with
                              | JStr s => Ok (match assoc s object with Some _ => [] | None => [name] end)
                              | JArr _ | JObj _ => Raise TypeError
                              | _ => Ok [name]
                              end) names).

(** [schema.get("properties", {})]. *)
Definition properties_of (fields : list (string * json)) : json := default (JObj []) (assoc "properties" fields).

Definition extra_fields (object fields : list (string * json)) : result (list json) :=
  match assoc "additionalProperties" fields with
  | Some (JBool false) =>
      concat_ok (map (fun kv => b ← py_in (JStr kv.1) (properties_of fields); Ok (if b : bool then [] else [JStr kv.1])) object)
  | _ => Ok []
  end.

Fixpoint check_items (check : json -> list Seg -> result (list Problem)) (items : list json) (index : Z) (path : list Seg)
  : result (list Problem) :=
  match items with
  | [] => Ok []
  | x :: rest => ps ← check x (path ++ [Item index]); qs ← check_items check rest (index + 1) path; Ok (ps ++ qs)
  end.

(** [_check_node], returning the problems it would append.  The sub-schemas are parts of the schema. *)
Fixpoint check_node (value schema : json) (path : list Seg) {struct schema} : result (list Problem) :=
  match schema with
  | JObj fields =>
      wrong ← type_problem value fields;
      match wrong with
      | Some w => Ok (at_path path [w])
      | None =>
          scalars ← scalar_problems value fields;
          in_items ← match value with
                     | JArr items =>
                         (fix on_items (l : list (string * json)) :=
                            match l with
                            | [] => Ok []
                            | (k, sub) :: l' =>
                                if bool_decide (k = "items")
                                then match sub with
                                     | JObj _ => check_items (fun x p => check_node x sub p) items 0 path
                                     | _ => Ok []
                                     end
                                else on_items l'
                            end) fields
                     | _ => Ok []
                     end;
          in_object ← match value with
                      | JObj object =>
                          missing ← missing_fields object fields;
                          extra ← extra_fields object fields;
                          nested ← (fix on_props (l : list (string * json)) :=
                             match l with
                             | [] => Ok []
                             | (k, props) :: l' =>
                                 if bool_decide (k = "properties")
                                 then match props with
                                      | JObj ps =>
                                          (fix each (ps : list (string * json)) :=
                                             match ps with
                                             | [] => Ok []
                                             | (name, sub) :: ps' =>
                                                 here ← match assoc name object, sub with
                                                        | Some x, JObj _ => check_node x sub (path ++ [Field (JStr name)])
                                                        | _, _ => Ok []
                                                        end;
                                                 rest ← each ps';
                                                 Ok (here ++ rest)
                                             end) ps
                                      | _ => Raise AttributeError
                                      end
                                 else on_props l'
                             end) fields;
                          Ok (map (fun n => mkProblem (path ++ [Field n]) Missing) missing ++
                              map (fun n => mkProblem (path ++ [Field n]) NotAllowed) extra ++ nested)
                      | _ => Ok []
                      end;
          Ok (at_path path scalars ++ in_items ++ in_object)
      end
  | _ => Raise AttributeError
  end.

(** ** The checks of a policy *)

Definition validate_json (text : string) : ValidationCheck * json :=
  match json_loads text with
  | Some parsed => (mkCheck "json" true NoDetail, parsed)
  | None => (mkCheck "json" false NotJson, JNull)
  end.

Definition validate_schema (parsed schema : json) : result ValidationCheck :=
  _ ← reject_unsupported schema;
  problems ← check_node parsed schema [];
  Ok (match problems with
      | [] => mkCheck "json_schema" true NoDetail
      | _ => mkCheck "json_schema" false (SchemaProblems problems)
      end).

Definition validate_required_fields (parsed : json) (fields : list string) : ValidationCheck :=
  match parsed with
  | JObj object =>
      match List.filter (fun name => match assoc name object with Some _ => false | None => true end) fields with
      | [] => mkCheck "required_fields" true NoDetail
      | missing => mkCheck "required_fields" false (MissingFields missing)
      end
  | _ => mkCheck "required_fields" false NotAnObject
  end.

Definition validate_regex (text pattern : string) : ValidationCheck :=
  match re_search pattern text with
  | None => mkCheck "regex" false InvalidPattern
  | Some false => mkCheck "regex" false (PatternMissed pattern)
  | Some true => mkCheck "regex" true NoDetail
  end.

Definition validate_length (text : string) (maximum_chars : Z) : ValidationCheck :=
  if maximum_chars <? py_len text then mkCheck "length" false (TooLong (py_len text) maximum_chars)
  else mkCheck "length" true NoDetail.

(** The checks that read the parsed document. *)
Definition json_checks (text : string) (schema : option json) (required_fields : list string)
  : result (list ValidationCheck * json) :=
  let '(json_check, parsed) := validate_json text in
  if vc_passed json_check then
    s ← match schema with Some sc => c ← validate_schema parsed sc; Ok [c] | None => Ok [] end;
    Ok ([json_check] ++ s ++ match required_fields with [] => [] | l => [validate_required_fields parsed l] end, parsed)
  else Ok ([json_check], parsed).

Definition validate_output (text : string) (require_valid_json : bool) (schema : option json) (required_fields : list string)
    (pattern : option string) (max_output_chars : option Z) : result ValidationOutcome :=
  let needs_json := require_valid_json || bool_decide (is_Some schema) || negb (bool_decide (required_fields = [])) in
  from_json ← (if needs_json then json_checks text schema required_fields else Ok ([], JNull));
  let checks := from_json.1 ++ match pattern with Some p => [validate_regex text p] | None => [] end ++
                match max_output_chars with Some m => [validate_length text m] | None => [] end in
  Ok (match checks with
      | [] => mkOutcome false None [] JNull
      | _ => mkOutcome true (Some (forallb vc_passed checks)) checks from_json.2
      end).
End node.

(** ** The reference: JSON Schema on the supported keywords *)

(** [type], by name. *)
Inductive has_type : string -> json -> Prop :=
| ty_integer z : has_type "integer" (JInt z)
| ty_number_int z : has_type "number" (JInt z)
| ty_number_float f : has_type "number" (JFloat f)
| ty_boolean b : has_type "boolean" (JBool b)
| ty_string s : has_type "string" (JStr s)
| ty_null : has_type "null" JNull
| ty_array l : has_type "array" (JArr l)
| ty_object l : has_type "object" (JObj l).

(** A keyword with a bound holds of the number the value is measured by. *)
Definition bounded (fields : list (string * json)) (keyword : string) (R : f64 -> f64 -> Prop) (x : f64) : Prop :=
  forall k b, assoc keyword fields = Some k -> as_num k = Some b -> R x b.

(** The fields of [properties] when it is an object. *)
Definition property_schemas (fields : list (string * json)) : list (string * json) :=
  match assoc "properties" fields with Some (JObj ps) => ps | _ => [] end.

Section reference.
Context `{TextTools}.

(** What the keywords say of a value by itself. *)
Definition locally_valid (v : json) (fields : list (string * json)) : Prop :=
  (forall k, assoc "enum" fields = Some (JArr k) -> exists x, x ∈ k /\ py_eq v x = true) /\
  (forall k, assoc "const" fields = Some k -> py_eq v k = true) /\
  (forall s, v = JStr s ->
     bounded fields "minLength" Z.ge (py_len s * fone) /\ bounded fields "maxLength" Z.le (py_len s * fone) /\
     forall p, assoc "pattern" fields = Some (JStr p) -> re_search p s = Some true) /\
  (forall x, has_type "number" v -> as_num v = Some x ->
     bounded fields "minimum" Z.ge x /\ bounded fields "maximum" Z.le x /\
     bounded fields "exclusiveMinimum" Z.gt x /\ bounded fields "exclusiveMaximum" Z.lt x) /\
  (forall l, v = JArr l ->
     bounded fields "minItems" Z.ge (zlen l * fone) /\ bounded fields "maxItems" Z.le (zlen l * fone)).

Definition type_valid (v : json) (fields : list (string * json)) : Prop :=
  match assoc "type" fields with
  | Some (JStr t) => has_type t v
  | Some (JArr ts) => exists t, JStr t ∈ ts /\ has_type t v
  | _ => True
  end.

(** [conforms v fields]: the value satisfies the schema object [fields]. *)
Inductive conforms : json -> list (string * json) -> Prop :=
| Conforms v fields :
    type_valid v fields ->
    locally_valid v fields ->
    (forall items sub x, v = JArr items -> assoc "items" fields = Some (JObj sub) -> x ∈ items -> conforms x sub) ->
    (forall object names name, v = JObj object -> assoc "required" fields = Some (JArr names) ->
       JStr name ∈ names -> name ∈ object.*1) ->
    (forall object name, v = JObj object -> assoc "additionalProperties" fields = Some (JBool false) ->
       name ∈ object.*1 -> name ∈ (property_schemas fields).*1) ->
    (forall object name sub x, v = JObj object -> (name, JObj sub) ∈ property_schemas fields ->
       assoc name object = Some x -> conforms x sub) ->
    conforms v fields.

(** ** Well-formed schemas *)

(** [pattern] compiles: whether it does depends on the pattern alone. *)
Definition compiles (p : string) : bool := bool_decide (is_Some (re_search p "")).

Definition is_string (x : json) : bool := match x with JStr _ => true | _ => false end.
Definition is_number (x : json) : bool := bool_decide (is_Some (as_num x)).

Definition BOUND_KEYWORDS : list string :=
  ["minLength"; "maxLength"; "minimum"; "maximum"; "exclusiveMinimum"; "exclusiveMaximum"; "minItems"; "maxItems"].

(** The keyword is supported and its value is what the vocabulary asks for. *)
Definition keyword_ok (kv : string * json) : bool :=
  let '(k, v) := kv in
  if bool_decide (k = "type") then match v with JStr _ => true | JArr l => forallb is_string l | _ => false end
  else if bool_decide (k = "enum") then match v with JArr _ => true | _ => false end
  else if bool_decide (k ∈ BOUND_KEYWORDS) then is_number v
  else if bool_decide (k = "pattern") then match v with JStr p => compiles p | _ => false end
  else if bool_decide (k = "required") then match v with JArr l => forallb is_string l | _ => false end
  else if bool_decide (k = "properties") then is_mapping v
  else if bool_decide (k = "items") then is_mapping v
  else if bool_decide (k = "additionalProperties") then match v with JBool _ => true | _ => false end
  else bool_decide (k ∈ SUPPORTED_SCHEMA_KEYWORDS).

Fixpoint well_formed (schema : json) : bool :=
  match schema with
  | JObj fields =>
      forallb keyword_ok fields &&
      (fix each (l : list (string * json)) : bool :=
         match l with
         | [] => true
         | (k, v) :: l' =>
             (if bool_decide (k = "properties") then
                match v with
                | JObj props => (fix subs (ps : list (string * json)) : bool :=
                                   match ps with [] => true | (_, sub) :: ps' => well_formed sub && subs ps' end) props
                | _ => true
                end
              else if bool_decide (k = "items") then well_formed v else true) && each l'
         end) fields
  | _ => false
  end.
End reference.

(** [re.search] raises for a pattern, never for a subject. *)
Class TextToolsLaws `{TextTools} : Prop := {
  re_search_total p s t : is_Some (re_search p s) -> is_Some (re_search p t)
}.

(** ** Lemmas *)

(** Induction on a JSON value through its arrays and objects. *)
Fixpoint json_induction (P : json -> Prop) (Hn : P JNull) (Hb : forall b, P (JBool b)) (Hi : forall z, P (JInt z))
    (Hf : forall f, P (JFloat f)) (Hs : forall s, P (JStr s)) (Ha : forall l, Forall P l -> P (JArr l))
    (Ho : forall l, Forall (fun kv => P kv.2) l -> P (JObj l)) (x : json) : P x :=
  let rec := json_induction P Hn Hb Hi Hf Hs Ha Ho in
  match x with
  | JNull => Hn | JBool b => Hb b | JInt z => Hi z | JFloat f => Hf f | JStr s => Hs s
  | JArr l => Ha l ((fix go l : Forall P l := match l with
                     | [] => Forall_nil_2 _ | y :: l' => Forall_cons_2 _ _ _ (rec y) (go l') end) l)
  | JObj l => Ho l ((fix go l : Forall (fun kv => P kv.2) l := match l with
                     | [] => Forall_nil_2 _ | kv :: l' => Forall_cons_2 _ kv _ (rec kv.2) (go l') end) l)
  end.

(** [reports r P]: the check runs to its end, and finds nothing exactly when [P]. *)
Definition reports {A} (r : result (list A)) (P : Prop) : Prop := exists l, r = Ok l /\ (l = [] <-> P).

Lemma reports_iff {A} (r : result (list A)) P Q : (P <-> Q) -> reports r P -> reports r Q.
Proof. intros HPQ (l & -> & Hl). exists l. split; [done|]. by rewrite Hl. Qed.

Lemma reports_nil {A} (P : Prop) : P -> reports (Ok ([] : list A)) P.
Proof. intros HP. by exists []. Qed.

Lemma reports_app {A} (r s : result (list A)) P Q :
  reports r P -> reports s Q -> reports (x ← r; y ← s; Ok (x ++ y)) (P /\ Q).
Proof.
  intros (x & -> & Hx) (y & -> & Hy). exists (x ++ y). split; [done|]. rewrite <- Hx, <- Hy. apply app_nil.
Qed.

Lemma reports_concat {A B} (f : A -> result (list B)) (P : A -> Prop) l :
  (forall x, x ∈ l -> reports (f x) (P x)) -> reports (concat_ok (map f l)) (forall x, x ∈ l -> P x).
Proof.
  induction l as [|x l IH]; intros Hl; cbn [map concat_ok].
  - apply reports_nil. intros x Hx. by apply not_elem_of_nil in Hx.
  - eapply reports_iff; [|apply reports_app; [apply Hl; by left|apply IH; intros y Hy; apply Hl; by right]].
    split.
    + intros [H1 H2] y Hy. apply elem_of_cons in Hy as [->|Hy]; auto.
    + intros Hy. split; [apply Hy; by left|]. intros y Hin. apply Hy. by right.
Qed.

Lemma reports_map {A B} (g : A -> B) (r : result (list A)) P :
  reports r P -> reports (x ← r; Ok (map g x)) P.
Proof. intros (x & -> & Hx). exists (map g x). split; [done|]. rewrite <- Hx. by destruct x. Qed.

Lemma keyword_problem_reports fields kw test w (P : json -> Prop) :
  (forall k, assoc kw fields = Some k -> exists b, test k = Ok b /\ (b = false <-> P k)) ->
  reports (keyword_problem fields kw test w) (forall k, assoc kw fields = Some k -> P k).
Proof.
  unfold keyword_problem. destruct (assoc kw fields) as [k|]; intros Hk.
  - destruct (Hk k eq_refl) as (b & -> & Hb). exists (if b then [w] else []). split; [done|]. destruct b.
    + split; [done|]. intros Hp. exfalso. enough (true = false) by done. apply Hb. by apply Hp.
    + split; [|done]. intros _ k' [= <-]. by apply Hb.
  - by apply reports_nil.
Qed.

Section validity.
Context `{TextToolsLaws}.

Lemma keyword_ok_at fields k v : forallb keyword_ok fields = true -> assoc k fields = Some v -> keyword_ok (k, v) = true.
Proof.
  intros Hf Ha. apply assoc_elem in Ha. rewrite forallb_forall in Hf. apply Hf. by apply list_elem_of_In.
Qed.

Lemma type_matches_spec v t : exists b, type_matches v (JStr t) = Ok b /\ (b = true <-> has_type t v).
Proof.
  unfold type_matches. eexists. split; [reflexivity|]. split.
  - intros E.
    repeat (match type of E with context [bool_decide (t = ?n)] => destruct (bool_decide (t = n)) eqn:?; bool_to_prop; subst end);
      destruct v; try discriminate; constructor.
  - by destruct 1.
Qed.

Lemma strings_of l : forallb is_string l = true -> exists ts, l = map JStr ts.
Proof.
  induction l as [|x l IH]; cbn; [by exists []|]. intros E. apply andb_true_iff in E as [Ex El].
  destruct x; try discriminate. destruct (IH El) as [ts ->]. by exists (s :: ts).
Qed.

Lemma any_type_spec v ts : exists b, any_type v (map JStr ts) = Ok b /\ (b = true <-> exists t, t ∈ ts /\ has_type t v).
Proof.
  induction ts as [|t ts (b & IH & Hb)]; cbn [map any_type].
  - exists false. split; [done|]. split; [done|]. intros (t & Ht & _). by apply not_elem_of_nil in Ht.
  - destruct (type_matches_spec v t) as ([] & -> & Ht); cbn.
    + exists true. split; [done|]. split; [|done]. intros _. exists t. split; [left|by apply Ht].
    + exists b. split; [done|]. rewrite Hb. split.
      * intros (t' & Hin & Hty). exists t'. split; [by right|done].
      * intros (t' & Hin & Hty). apply elem_of_cons in Hin as [->|Hin]; [by apply Ht in Hty|eauto].
Qed.

Lemma joined_strings ts : joined (map JStr ts) = Ok ts.
Proof. unfold joined. induction ts as [|t ts IH]; [done|]. cbn. by rewrite IH. Qed.

Lemma elem_of_strings t ts : JStr t ∈ map JStr ts <-> t ∈ ts.
Proof. rewrite list_elem_of_fmap. split; [by intros (? & [= ->] & ?)|eauto]. Qed.

Lemma type_problem_spec v fields : forallb keyword_ok fields = true ->
  exists o, type_problem v fields = Ok o /\ (o = None <-> type_valid v fields).
Proof.
  intros Hf. unfold type_problem, type_valid. destruct (assoc "type" fields) as [k|] eqn:E; [|by exists None].
  pose proof (keyword_ok_at _ _ _ Hf E) as Hk. cbn in Hk.
  assert (Hts : exists ts, type_options k = Ok (map JStr ts) /\
    match k with JStr t => has_type t v | JArr l => exists t, JStr t ∈ l /\ has_type t v | _ => True end
      = (match k with JStr t => has_type t v | _ => exists t, JStr t ∈ map JStr ts /\ has_type t v end) /\
    (match k with JStr t => ts = [t] | _ => True end) /\ k <> JNull).
  { destruct k; try discriminate.
    - by exists [s].
    - destruct (strings_of _ Hk) as [ts ->]. by exists ts. }
  destruct Hts as (ts & Hopt & Heq & Hone & Hnn). rewrite Heq.
  destruct (any_type_spec v ts) as (b & Hany & Hb).
  assert (Hiff : b = true <-> match k with JStr t => has_type t v | _ => exists t, JStr t ∈ map JStr ts /\ has_type t v end).
  { rewrite Hb. destruct k; try (setoid_rewrite elem_of_strings; done). subst ts. split.
    - intros (t & Ht & Hv). apply list_elem_of_singleton in Ht. congruence.
    - intros Hv. exists s. by split; [left|]. }
  destruct k; try done; cbv iota in Hiff |- *; rewrite Hopt; cbn [mbind result_bind]; rewrite Hany; cbn;
    (destruct b; [exists None; split; [done|]; tauto|]); rewrite joined_strings; cbn; eexists;
    (split; [reflexivity|]); (split; [done|]); intros Hp; exfalso; by apply Hiff in Hp.
Qed.

Lemma reports_cons {A} (r : result (list A)) rs P Q :
  reports r P -> reports (concat_ok rs) Q -> reports (concat_ok (r :: rs)) (P /\ Q).
Proof. apply reports_app. Qed.

Lemma bound_reports fields kw w (x : f64) (failing : f64 -> f64 -> bool) (R : f64 -> f64 -> Prop) :
  forallb keyword_ok fields = true -> kw ∈ BOUND_KEYWORDS ->
  (forall b, failing x b = false <-> R x b) ->
  reports (keyword_problem fields kw (fun k => b ← num k; Ok (failing x b)) w) (bounded fields kw R x).
Proof.
  intros Hf Hkw HR.
  eapply reports_iff; [|apply keyword_problem_reports with (P := fun k => forall b, as_num k = Some b -> R x b)].
  - unfold bounded. naive_solver.
  - intros k Hk. pose proof (keyword_ok_at _ _ _ Hf Hk) as Hok.
    assert (Hn : is_number k = true).
    { revert Hok. unfold keyword_ok, BOUND_KEYWORDS in *.
      repeat (apply elem_of_cons in Hkw as [->|Hkw]; [by vm_compute|]). by apply not_elem_of_nil in Hkw. }
    unfold is_number in Hn. bool_to_prop. destruct Hn as [b Hb]. unfold num. rewrite Hb. cbn.
    exists (failing x b). split; [done|]. rewrite HR. naive_solver.
Qed.

Lemma enum_reports v fields : forallb keyword_ok fields = true ->
  reports (keyword_problem fields "enum" (fun k => b ← py_in v k; Ok (negb b)) NotInEnum)
    (forall k, assoc "enum" fields = Some (JArr k) -> exists x, x ∈ k /\ py_eq v x = true).
Proof.
  intros Hf. eapply reports_iff;
    [|apply keyword_problem_reports with (P := fun k => forall l, k = JArr l -> exists x, x ∈ l /\ py_eq v x = true)].
  - naive_solver.
  - intros k Hk. pose proof (keyword_ok_at _ _ _ Hf Hk) as Hok. cbn in Hok. destruct k; try discriminate. cbn.
    eexists. split; [reflexivity|]. rewrite negb_false_iff, existsb_exists. setoid_rewrite <- list_elem_of_In. naive_solver.
Qed.

Lemma pattern_reports s fields : forallb keyword_ok fields = true ->
  reports (keyword_problem fields "pattern"
    (fun k => match k with
              | JStr p => match re_search p s with Some b => Ok (negb b) | None => Raise RegexError end
              | _ => Raise TypeError
              end) NoMatch) (forall p, assoc "pattern" fields = Some (JStr p) -> re_search p s = Some true).
Proof.
  intros Hf. eapply reports_iff;
    [|apply keyword_problem_reports with (P := fun k => forall p, k = JStr p -> re_search p s = Some true)].
  - naive_solver.
  - intros k Hk. pose proof (keyword_ok_at _ _ _ Hf Hk) as Hok. cbn in Hok. destruct k; try discriminate.
    change (compiles s0 = true) in Hok. unfold compiles in Hok. bool_to_prop. destruct (re_search_total _ _ s Hok) as [b Hb]. rewrite Hb.
    exists (negb b). split; [done|]. rewrite negb_false_iff. naive_solver.
Qed.

Lemma ltb_ge_iff (x b : f64) : (x <? b) = false <-> Z.ge x b.
Proof. rewrite Z.ltb_ge. lia. Qed.
Lemma gtb_le_iff (x b : f64) : (x >? b) = false <-> Z.le x b.
Proof. rewrite Z.gtb_ltb, Z.ltb_ge. lia. Qed.
Lemma leb_gt_iff (x b : f64) : (x <=? b) = false <-> Z.gt x b.
Proof. rewrite Z.leb_gt. lia. Qed.
Lemma geb_lt_iff (x b : f64) : (x >=? b) = false <-> Z.lt x b.
Proof. rewrite Z.geb_leb, Z.leb_gt. lia. Qed.

Lemma const_reports v fields :
  reports (keyword_problem fields "const" (fun k => Ok (negb (py_eq v k))) NotConst)
    (forall k, assoc "const" fields = Some k -> py_eq v k = true).
Proof.
  apply keyword_problem_reports. intros k _. exists (negb (py_eq v k)). split; [done|]. apply negb_false_iff.
Qed.

Lemma number_reports (v : json) (x : f64) fields : forallb keyword_ok fields = true ->
  reports (concat_ok
    [keyword_problem fields "minimum" (fun k => b ← num k; Ok (x <? b)) BelowMinimum;
     keyword_problem fields "maximum" (fun k => b ← num k; Ok (x >? b)) AboveMaximum;
     keyword_problem fields "exclusiveMinimum" (fun k => b ← num k; Ok (x <=? b)) NotAboveExclusive;
     keyword_problem fields "exclusiveMaximum" (fun k => b ← num k; Ok (x >=? b)) NotBelowExclusive])
    (bounded fields "minimum" Z.ge x /\ bounded fields "maximum" Z.le x /\
     bounded fields "exclusiveMinimum" Z.gt x /\ bounded fields "exclusiveMaximum" Z.lt x /\ v = v).
Proof.
  intros Hf. repeat apply reports_cons;
    [| | | |by apply reports_nil]; (apply bound_reports; [done|by apply (bool_decide_unpack _)|]); intros b;
    auto using ltb_ge_iff, gtb_le_iff, leb_gt_iff, geb_lt_iff.
Qed.

Lemma scalar_problems_spec v fields : forallb keyword_ok fields = true ->
  reports (scalar_problems v fields) (locally_valid v fields).
Proof.
  intros Hf. unfold scalar_problems, locally_valid. cbn [app].
  eapply reports_iff; [|apply reports_cons; [by apply enum_reports|apply reports_cons; [apply const_reports|]]].
  { apply and_iff_compat_l, and_iff_compat_l. reflexivity. }
  assert (Hnum : forall x, (forall s, v <> JStr s) -> (forall l, v <> JArr l) -> as_num v = Some x -> has_type "number" v ->
    ((bounded fields "minimum" Z.ge x /\ bounded fields "maximum" Z.le x /\
      bounded fields "exclusiveMinimum" Z.gt x /\ bounded fields "exclusiveMaximum" Z.lt x /\ v = v) <->
     ((forall s, v = JStr s ->
       bounded fields "minLength" Z.ge (py_len s * fone) /\ bounded fields "maxLength" Z.le (py_len s * fone) /\
       forall p, assoc "pattern" fields = Some (JStr p) -> re_search p s = Some true) /\
      (forall x, has_type "number" v -> as_num v = Some x ->
        bounded fields "minimum" Z.ge x /\ bounded fields "maximum" Z.le x /\
        bounded fields "exclusiveMinimum" Z.gt x /\ bounded fields "exclusiveMaximum" Z.lt x) /\
      (forall l, v = JArr l ->
        bounded fields "minItems" Z.ge (zlen l * fone) /\ bounded fields "maxItems" Z.le (zlen l * fone))))).
  { intros x Hs Ha Hx Ht. split.
    - intros (H1 & H2 & H3 & H4 & _). split; [intros s E; by destruct (Hs s)|]. split; [|intros l E; by destruct (Ha l)].
      intros y _ Hy. rewrite Hx in Hy. injection Hy as <-. auto.
    - intros (_ & H2 & _). destruct (H2 x Ht Hx) as (? & ? & ? & ?). auto. }
  assert (Hnone : (forall s, v <> JStr s) -> (forall l, v <> JArr l) -> ~ has_type "number" v ->
    reports (Ok ([] : list Wording)) ((forall s, v = JStr s ->
       bounded fields "minLength" Z.ge (py_len s * fone) /\ bounded fields "maxLength" Z.le (py_len s * fone) /\
       forall p, assoc "pattern" fields = Some (JStr p) -> re_search p s = Some true) /\
      (forall x, has_type "number" v -> as_num v = Some x ->
        bounded fields "minimum" Z.ge x /\ bounded fields "maximum" Z.le x /\
        bounded fields "exclusiveMinimum" Z.gt x /\ bounded fields "exclusiveMaximum" Z.lt x) /\
      (forall l, v = JArr l ->
        bounded fields "minItems" Z.ge (zlen l * fone) /\ bounded fields "maxItems" Z.le (zlen l * fone)))).
  { intros Hs Ha Hn. apply reports_nil. split; [intros s E; by destruct (Hs s)|]. split; [done|].
    intros l E; by destruct (Ha l). }
  destruct v as [|b|z|f|s|l|l]; cbn [default].
  - apply Hnone; try done. by inversion 1.
  - apply Hnone; try done. by inversion 1.
  - cbn [as_num]. eapply reports_iff; [apply (Hnum (z * fone)); try done; constructor|by apply (number_reports (JInt z))].
  - cbn [as_num]. eapply reports_iff; [apply (Hnum f); try done; constructor|by apply (number_reports (JFloat f))].
  - eapply reports_iff; [|repeat apply reports_cons; [| | |by apply (reports_nil True)]].
    2-3: apply bound_reports; [done|by apply (bool_decide_unpack _)|]; intros b; auto using ltb_ge_iff, gtb_le_iff.
    2: by apply pattern_reports.
    split.
    + intros (H1 & H2 & H3 & _). split; [intros s' [= <-]; auto|]. split; [by inversion 1|done].
    + intros (H1 & _). destruct (H1 s eq_refl) as (? & ? & ?). auto.
  - eapply reports_iff; [|repeat apply reports_cons; [| |by apply (reports_nil True)]].
    2-3: apply bound_reports; [done|by apply (bool_decide_unpack _)|]; intros b; auto using ltb_ge_iff, gtb_le_iff.
    split.
    + intros (H1 & H2 & _). split; [done|]. split; [by inversion 1|]. intros l' [= <-]. auto.
    + intros (_ & _ & H3). destruct (H3 l eq_refl). auto.
  - apply Hnone; try done. by inversion 1.
Qed.
End validity.

(** The nested recursion, by the fields it reads. *)
Lemma check_node_unfold `{TextTools} v fields path :
  check_node v (JObj fields) path =
  (wrong ← type_problem v fields;
   match wrong with
   | Some w => Ok (at_path path [w])
   | None =>
       scalars ← scalar_problems v fields;
       in_items ← match v, assoc "items" fields with
                  | JArr items, Some (JObj sub) => check_items (fun x p => check_node x (JObj sub) p) items 0 path
                  | _, _ => Ok []
                  end;
       in_object ← match v with
                   | JObj object =>
                       missing ← missing_fields object fields;
                       extra ← extra_fields object fields;
                       nested ← match properties_of fields with
                                | JObj ps => concat_ok (map (fun ns =>
                                    match assoc ns.1 object, ns.2 with
                                    | Some x, JObj _ => check_node x ns.2 (path ++ [Field (JStr ns.1)])
                                    | _, _ => Ok []
                                    end) ps)
                                | _ => Raise AttributeError
                                end;
                       Ok (map (fun n => mkProblem (path ++ [Field n]) Missing) missing ++
                           map (fun n => mkProblem (path ++ [Field n]) NotAllowed) extra ++ nested)
                   | _ => Ok []
                   end;
       Ok (at_path path scalars ++ in_items ++ in_object)
   end).
Proof.
  cbn [check_node]. unfold properties_of.
  assert (Hitems : forall items,
    (fix go (l : list (string * json)) : result (list Problem) := match l with
       | [] => Ok []
       | (k, sub) :: l' =>
           if bool_decide (k = "items")
           then match sub with JObj _ => check_items (fun x p => check_node x sub p) items 0 path | _ => Ok [] end
           else go l'
       end) fields
    = match assoc "items" fields with
      | Some (JObj sub) => check_items (fun x p => check_node x (JObj sub) p) items 0 path
      | _ => Ok []
      end).
  { intros items. induction fields as [|[k sub] l IH]; [done|]. cbn [assoc].
    destruct (decide (k = "items")) as [->|Hk]; [rewrite !bool_decide_true by done; by destruct sub|].
    rewrite bool_decide_false by done. rewrite bool_decide_false by congruence. exact IH. }
  assert (Heach : forall object ps,
    (fix each (ps : list (string * json)) : result (list Problem) := match ps with
       | [] => Ok []
       | (name, sub) :: ps' =>
           here ← match assoc name object, sub with
                  | Some x, JObj _ => check_node x sub (path ++ [Field (JStr name)])
                  | _, _ => Ok []
                  end;
           rest ← each ps'; Ok (here ++ rest)
       end) ps
    = concat_ok (map (fun ns => match assoc ns.1 object, ns.2 with
                                | Some x, JObj _ => check_node x ns.2 (path ++ [Field (JStr ns.1)])
                                | _, _ => Ok []
                                end) ps)).
  { intros object ps. induction ps as [|[name sub] ps IH]; [done|]. cbn [map concat_ok fst snd]. by rewrite IH. }
  assert (Hprops : forall object,
    (fix on_props (l : list (string * json)) : result (list Problem) := match l with
       | [] => Ok []
       | (k, props) :: l' =>
           if bool_decide (k = "properties")
           then match props with
                | JObj ps => (fix each (ps : list (string * json)) : result (list Problem) := match ps with
                     | [] => Ok []
                     | (name, sub) :: ps' =>
                         here ← match assoc name object, sub with
                                | Some x, JObj _ => check_node x sub (path ++ [Field (JStr name)])
                                | _, _ => Ok []
                                end;
                         rest ← each ps'; Ok (here ++ rest)
                     end) ps
                | _ => Raise AttributeError
                end
           else on_props l'
       end) fields
    = match default (JObj []) (assoc "properties" fields) with
      | JObj ps => concat_ok (map (fun ns => match assoc ns.1 object, ns.2 with
                                | Some x, JObj _ => check_node x ns.2 (path ++ [Field (JStr ns.1)])
                                | _, _ => Ok []
                                end) ps)
      | _ => Raise AttributeError
      end).
  { clear Hitems. intros object. induction fields as [|[k props] l IH]; [done|]. cbn [assoc].
    destruct (decide (k = "properties")) as [->|Hk];
      [rewrite !bool_decide_true by done; destruct props; try done; cbn [default]; apply Heach|].
    rewrite bool_decide_false by done. rewrite bool_decide_false by congruence. apply IH. }
  destruct (type_problem v fields) as [[w|]|e]; cbn [mbind result_bind]; try done.
  destruct (scalar_problems v fields) as [sc|e]; cbn [mbind result_bind]; [|done].
  destruct v; try done.
  - by rewrite Hitems.
  - cbn [mbind result_bind]. destruct (missing_fields l fields); cbn [mbind result_bind]; [|done].
    destruct (extra_fields l fields); cbn [mbind result_bind]; [|done]. by rewrite Hprops.
Qed.

(** [map f l] is empty when [l] is. *)
Lemma fmap_nil_inv_iff {A B} (f : A -> B) l : map f l = [] <-> l = [].
Proof. by destruct l. Qed.

Section check.
Context `{TextToolsLaws}.

Lemma missing_spec object fields : forallb keyword_ok fields = true ->
  reports (missing_fields object fields)
    (forall names name, assoc "required" fields = Some (JArr names) -> JStr name ∈ names -> name ∈ object.*1).
Proof.
  intros Hf. unfold missing_fields. destruct (assoc "required" fields) as [k|] eqn:E; cbn [default].
  2:{ by apply reports_nil. }
  pose proof (keyword_ok_at _ _ _ Hf E) as Hk. cbn in Hk. destruct k; try discriminate.
  destruct (strings_of _ Hk) as [ts ->]. cbn [py_iter mbind result_bind].
  eapply reports_iff; [|apply reports_concat with (P := fun n => forall s, n = JStr s -> s ∈ object.*1)].
  - split.
    + intros Hp names name [= <-] Hin. by apply (Hp _ Hin).
    + intros Hp n Hn s ->. by eapply Hp.
  - intros n Hn. apply list_elem_of_fmap in Hn as (s & -> & _). pose proof (assoc_is_Some s object) as Hs.
    destruct (assoc s object) as [x|].
    + apply reports_nil. intros s' [= <-]. apply Hs. by eexists.
    + exists [JStr s]. split; [done|]. split; [done|]. intros Hp. destruct (proj2 Hs (Hp s eq_refl)) as [? ?]. done.
Qed.

Lemma properties_of_ok fields : forallb keyword_ok fields = true -> properties_of fields = JObj (property_schemas fields).
Proof.
  intros Hf. unfold properties_of, property_schemas. destruct (assoc "properties" fields) as [k|] eqn:E; [|done].
  pose proof (keyword_ok_at _ _ _ Hf E) as Hk. cbn in Hk. by destruct k.
Qed.

Lemma extra_spec object fields : forallb keyword_ok fields = true ->
  reports (extra_fields object fields)
    (assoc "additionalProperties" fields = Some (JBool false) ->
     forall name, name ∈ object.*1 -> name ∈ (property_schemas fields).*1).
Proof.
  intros Hf. unfold extra_fields. rewrite properties_of_ok by done.
  destruct (assoc "additionalProperties" fields) as [[|[]| | | | |]|];
    try (by apply reports_nil).
  eapply reports_iff; [|apply reports_concat with (P := fun kv => kv.1 ∈ (property_schemas fields).*1)].
  - split.
    + intros Hp _ name Hn. apply list_elem_of_fmap in Hn as (kv & -> & Hin). auto.
    + intros Hp kv Hin. apply Hp; [done|]. by apply list_elem_of_fmap_2.
  - intros [k x] _. cbn. pose proof (assoc_is_Some k (property_schemas fields)) as Hs.
    destruct (assoc k (property_schemas fields)).
    + apply reports_nil. apply Hs. by eexists.
    + exists [JStr k]. split; [done|]. split; [done|]. intros Hp. by destruct (proj2 Hs Hp) as [? ?].
Qed.

Lemma well_formed_entries fields : well_formed (JObj fields) = true ->
  forallb keyword_ok fields = true /\
  forall k v, (k, v) ∈ fields ->
    (k = "items" -> well_formed v = true) /\
    (forall ps name sub, k = "properties" -> v = JObj ps -> (name, sub) ∈ ps -> well_formed sub = true).
Proof.
  cbn [well_formed]. intros E. apply andb_true_iff in E as [Hf E]. split; [done|]. clear Hf.
  induction fields as [|[k v] l IH]; [intros ? ? Hin; by apply not_elem_of_nil in Hin|].
  apply andb_true_iff in E as [Ehd Etl]. intros k' v' Hin. apply elem_of_cons in Hin as [[= -> ->]|Hin]; [|by apply IH].
  split.
  - intros ->. by cbn in Ehd.
  - intros ps name sub -> -> Hin. rewrite bool_decide_true in Ehd by done. clear -Ehd Hin.
    induction ps as [|[n s] ps IH]; [by apply not_elem_of_nil in Hin|]. apply andb_true_iff in Ehd as [Es Eps].
    apply elem_of_cons in Hin as [[= -> ->]|Hin]; auto.
Qed.

Lemma well_formed_fields fields : well_formed (JObj fields) = true ->
  forallb keyword_ok fields = true /\
  (forall name sub, (name, sub) ∈ property_schemas fields -> well_formed sub = true) /\
  (forall sub, assoc "items" fields = Some sub -> well_formed sub = true).
Proof.
  intros E. destruct (well_formed_entries _ E) as [Hf Hin]. split; [done|]. unfold property_schemas. split.
  - intros name sub Hs. destruct (assoc "properties" fields) as [[| | | | | |ps]|] eqn:Ea;
      try (by apply not_elem_of_nil in Hs). apply assoc_elem in Ea. by apply (Hin _ _ Ea) with ps name.
  - intros sub Ha. apply assoc_elem in Ha. by apply (Hin _ _ Ha).
Qed.

Lemma items_spec (check : json -> list Seg -> result (list Problem)) (P : json -> Prop) items index path :
  (forall x p, x ∈ items -> reports (check x p) (P x)) ->
  reports (check_items check items index path) (forall x, x ∈ items -> P x).
Proof.
  revert index. induction items as [|x items IH]; intros index Hc; cbn [check_items].
  - apply reports_nil. intros x Hx. by apply not_elem_of_nil in Hx.
  - eapply reports_iff; [|apply reports_app; [apply Hc; by left|apply IH; intros y p Hy; apply Hc; by right]].
    split.
    + intros [H1 H2] y Hy. apply elem_of_cons in Hy as [->|Hy]; auto.
    + intros Hy. split; [apply Hy; by left|]. intros y Hin. apply Hy. by right.
Qed.

(** [_check_node] runs to its end on a well-formed schema and finds nothing exactly in the values that
    conform to it. *)
Lemma check_node_reports (v : json) (fields : list (string * json)) (path : list Seg) :
  well_formed (JObj fields) = true ->
  (forall sub x sf p, assoc "items" fields = Some sub -> sub = JObj sf -> reports (check_node x sub p) (conforms x sf)) ->
  (forall name sub x sf p, (name, sub) ∈ property_schemas fields -> sub = JObj sf ->
     reports (check_node x sub p) (conforms x sf)) ->
  reports (check_node v (JObj fields) path) (conforms v fields).
Proof.
  intros Hw Hi Hp. destruct (well_formed_fields _ Hw) as (Hf & _ & _). rewrite check_node_unfold.
  destruct (type_problem_spec v fields Hf) as (o & -> & Ho). cbn [mbind result_bind].
  destruct o as [w|].
  { eexists. split; [done|]. split; [done|]. inversion 1 as [? ? Ht]; subst. by apply Ho in Ht. }
  assert (Ht : type_valid v fields) by (by apply Ho). clear Ho. rewrite properties_of_ok by done.
  destruct (scalar_problems_spec v fields Hf) as (scalars & -> & Hs). cbn [mbind result_bind].
  assert (Hitems : reports
    (match v, assoc "items" fields with
     | JArr items, Some (JObj sub) => check_items (fun x p => check_node x (JObj sub) p) items 0 path
     | _, _ => Ok []
     end)
    (forall items sub x, v = JArr items -> assoc "items" fields = Some (JObj sub) -> x ∈ items -> conforms x sub)).
  { destruct v as [| | | | |items|]; try (by apply reports_nil).
    destruct (assoc "items" fields) as [[| | | | | |sub]|] eqn:E; try (by apply reports_nil).
    eapply reports_iff; [|apply items_spec with (P := fun x => conforms x sub); intros x p _; by eapply Hi].
    naive_solver. }
  destruct Hitems as (in_items & -> & Hit). cbn [mbind result_bind].
  match goal with |- reports (mbind _ ?r) _ => assert (Hobj : reports r (
    (forall object names name, v = JObj object -> assoc "required" fields = Some (JArr names) ->
       JStr name ∈ names -> name ∈ object.*1) /\
    (forall object name, v = JObj object -> assoc "additionalProperties" fields = Some (JBool false) ->
       name ∈ object.*1 -> name ∈ (property_schemas fields).*1) /\
    (forall object name sub x, v = JObj object -> (name, JObj sub) ∈ property_schemas fields ->
       assoc name object = Some x -> conforms x sub))) end.
  { destruct v as [| | | | | |object]; try (by apply reports_nil).
    destruct (missing_spec object fields Hf) as (missing & -> & Hm). cbn [mbind result_bind].
    destruct (extra_spec object fields Hf) as (extra & -> & He). cbn [mbind result_bind].
    edestruct (reports_concat (fun ns : string * json => match assoc ns.1 object, ns.2 with
      | Some x, JObj _ => check_node x ns.2 (path ++ [Field (JStr ns.1)])
      | _, _ => Ok []
      end) (fun ns => forall sub x, ns.2 = JObj sub -> assoc ns.1 object = Some x -> conforms x sub)
      (property_schemas fields)) as (nested & -> & Hn).
    { intros [name sub] Hin. cbn [fst snd]. destruct (assoc name object) as [x|]; [|by apply reports_nil].
      destruct sub as [| | | | | |sub]; try (by apply reports_nil).
      eapply reports_iff; [|by eapply Hp]. naive_solver. }
    cbn [mbind result_bind]. eexists. split; [reflexivity|]. rewrite app_nil, app_nil, Hn.
    rewrite !fmap_nil_inv_iff, Hm, He. split.
    - intros (H1 & H2 & H3). split; [|split].
      + intros o names name E. injection E as <-. apply H1.
      + intros o name E. injection E as <-. intros Ha. by apply H2.
      + intros o name sub x E Hin Hx. injection E as <-. by apply (H3 _ Hin).
    - intros (H1 & H2 & H3). split; [|split].
      { intros names name. by apply H1. }
      { intros Ha name. by apply H2. }
      intros [name s0] Hin sub x Hs0 Hx. cbn in *. subst. by eapply H3. }
  destruct Hobj as (in_object & -> & Hob). cbn [mbind result_bind]. eexists. split; [reflexivity|].
  rewrite !app_nil, Hit, Hob. unfold at_path. rewrite fmap_nil_inv_iff, Hs. split.
  - intros (H1 & H2 & H3 & H4 & H5). by constructor.
  - by inversion 1.
Qed.

(** [_check_node] runs to its end on a well-formed schema and finds nothing exactly in the values that
    conform to it. *)
Lemma check_node_spec schema :
  (forall v fields path, schema = JObj fields -> well_formed schema = true ->
     reports (check_node v schema path) (conforms v fields)) /\
  (forall ps name sub v fields path, schema = JObj ps -> (name, sub) ∈ ps -> sub = JObj fields ->
     well_formed sub = true -> reports (check_node v sub path) (conforms v fields)).
Proof.
  induction schema as [| | | | |l _|l IH] using json_induction; try done. rewrite Forall_forall in IH. split.
  - intros v fields path [= ->] Hw. destruct (well_formed_fields _ Hw) as (_ & Hps & His).
    apply check_node_reports; [done| |].
    + intros sub x sf p Ha ->. pose proof (His _ Ha) as Hsub. apply assoc_elem in Ha.
      by apply (proj1 (IH _ Ha)).
    + intros name sub x sf p Hin ->. pose proof (Hps _ _ Hin) as Hsub. unfold property_schemas in Hin.
      destruct (assoc "properties" fields) as [[| | | | | |ps]|] eqn:Ea; try (by apply not_elem_of_nil in Hin).
      apply assoc_elem in Ea. by apply (proj2 (IH _ Ea) ps name).
  - intros ps name sub v fields path [= ->] Hin -> Hw. by apply (proj1 (IH _ Hin)).
Qed.
End check.

(** ** Which schemas are refused *)

(** [subschema s' s]: the walk of [_reject_unsupported] over [s] reaches [s']. *)
Inductive subschema : json -> json -> Prop :=
| sub_here s : subschema s s
| sub_property fields props name s s' :
    ("properties", JObj props) ∈ fields -> (name, s) ∈ props -> subschema s' s -> subschema s' (JObj fields)
| sub_keyword k fields s s' :
    k = "items" \/ k = "additionalProperties" -> (k, s) ∈ fields -> subschema s' s -> subschema s' (JObj fields).

(** Every keyword of every schema object the walk reaches is supported. *)
Definition supported (schema : json) : Prop :=
  forall fields k, subschema (JObj fields) schema -> k ∈ fields.*1 -> k ∈ SUPPORTED_SCHEMA_KEYWORDS.

(** The refusal names keywords that a reached schema object has and the validator does not implement. *)
Definition refusal_of (schema : json) (r : result unit) : Prop :=
  exists keywords fields, r = Raise (SchemaUnsupported keywords) /\ keywords <> [] /\ subschema (JObj fields) schema /\
    forall k, k ∈ keywords <-> k ∈ fields.*1 /\ k ∉ SUPPORTED_SCHEMA_KEYWORDS.

(** A walk that ends, or stops at the first refusal inside [schema]. *)
Definition walked (schema : json) (ok : Prop) (r : result unit) : Prop := (r = Ok tt /\ ok) \/ refusal_of schema r.

Lemma refusal_lift s schema r : (forall s', subschema s' s -> subschema s' schema) -> refusal_of s r -> refusal_of schema r.
Proof. intros Hs (ks & fields & -> & Hne & Hsub & Hk). exists ks, fields. auto. Qed.

Lemma walked_lift s schema P r : walked s P r -> (forall s', subschema s' s -> subschema s' schema) -> walked schema P r.
Proof. intros [Hok|Hr] Hs; [by left|right]. by eapply refusal_lift. Qed.

Lemma walked_bind schema (P Q : Prop) r r' :
  walked schema P r -> (P -> walked schema Q r') -> walked schema (P /\ Q) (r ≫= fun _ => r').
Proof.
  intros [[-> HP]|Hr] Hr'.
  - destruct (Hr' HP) as [[-> HQ]|Hr2]; [by left|by right].
  - right. destruct Hr as (ks & fields & -> & H). by exists ks, fields.
Qed.

Lemma unsupported_keywords_spec fields k :
  k ∈ unsupported_keywords fields <-> k ∈ fields.*1 /\ k ∉ SUPPORTED_SCHEMA_KEYWORDS.
Proof. unfold unsupported_keywords. rewrite elem_of_py_sorted, elem_of_elements, elem_of_difference, elem_of_list_to_set. done. Qed.

(** One entry of a schema object, as the walk visits it. *)
Definition visit (kv : string * json) : result unit :=
  if bool_decide (kv.1 = "properties") then
    match kv.2 with
    | JObj props => (fix subs (ps : list (string * json)) : result unit :=
                       match ps with [] => Ok tt | (_, sub) :: ps' => _ ← reject_unsupported sub; subs ps' end) props
    | _ => Ok tt
    end
  else if bool_decide (kv.1 = "items") || bool_decide (kv.1 = "additionalProperties") then
    match kv.2 with JObj _ => reject_unsupported kv.2 | _ => Ok tt end
  else Ok tt.

Lemma reject_unfold fields :
  reject_unsupported (JObj fields) =
  match unsupported_keywords fields with
  | [] => foldr (fun kv rest => _ ← visit kv; rest) (Ok tt) fields
  | keywords => Raise (SchemaUnsupported keywords)
  end.
Proof.
  cbn [reject_unsupported]. destruct (unsupported_keywords fields); [|done].
  generalize fields as l. clear fields. induction l as [|[k v] l IH]; [done|]. cbn [foldr]. by rewrite <- IH.
Qed.

Lemma visit_all schema (P : string * json -> Prop) l :
  (forall kv, kv ∈ l -> walked schema (P kv) (visit kv)) ->
  walked schema (forall kv, kv ∈ l -> P kv) (foldr (fun kv rest => _ ← visit kv; rest) (Ok tt) l).
Proof.
  induction l as [|kv l IH]; intros Hl; cbn [foldr].
  - left. split; [done|]. intros kv Hk. by apply not_elem_of_nil in Hk.
  - destruct (walked_bind schema _ _ _ _ (Hl kv ltac:(by left)) (fun _ => IH ltac:(intros y Hy; apply Hl; by right)))
      as [[-> [H1 H2]]|Hr]; [left|by right].
    split; [done|]. intros y Hy. apply elem_of_cons in Hy as [->|Hy]; auto.
Qed.

(** What the walk owes one entry of a schema object. *)
Definition entry_supported (kv : string * json) : Prop :=
  forall s', (exists props name s, kv = ("properties", JObj props) /\ (name, s) ∈ props /\ subschema s' s) \/
             (exists k s, (k = "items" \/ k = "additionalProperties") /\ kv = (k, s) /\ subschema s' s) ->
  forall f k, s' = JObj f -> k ∈ f.*1 -> k ∈ SUPPORTED_SCHEMA_KEYWORDS.

Lemma supported_leaf s : (forall fields, s <> JObj fields) -> supported s.
Proof. intros Hs fields k Hsub. inversion Hsub; subst; by edestruct Hs. Qed.

Lemma walk_properties schema props :
  (forall name sub, (name, sub) ∈ props -> walked sub (supported sub) (reject_unsupported sub)) ->
  (forall name sub, (name, sub) ∈ props -> forall s', subschema s' sub -> subschema s' schema) ->
  walked schema (forall name sub, (name, sub) ∈ props -> supported sub)
    ((fix subs (ps : list (string * json)) : result unit :=
        match ps with [] => Ok tt | (_, sub) :: ps' => _ ← reject_unsupported sub; subs ps' end) props).
Proof.
  induction props as [|[n s] ps IHp]; intros Hsubs Hall.
  - left. split; [done|]. intros ? ? Hk. by apply not_elem_of_nil in Hk.
  - destruct (walked_bind schema (supported s) (forall name sub, (name, sub) ∈ ps -> supported sub)
      (reject_unsupported s) _ (walked_lift _ _ _ _ (Hsubs n s (list_elem_of_here _ _)) (Hall n s (list_elem_of_here _ _)))
      (fun _ => IHp ltac:(intros; eapply Hsubs; by right) ltac:(intros ? ? ?; eapply Hall; by right)))
      as [[-> [H1 H2]]|Hr]; [left|by right].
    split; [done|]. intros name sub Hin. apply elem_of_cons in Hin as [[= -> ->]|Hin]; eauto.
Qed.

Lemma visit_walked fields k v :
  (k, v) ∈ fields -> walked v (supported v) (reject_unsupported v) ->
  (forall props, v = JObj props -> forall name sub, (name, sub) ∈ props -> walked sub (supported sub) (reject_unsupported sub)) ->
  walked (JObj fields) (entry_supported (k, v)) (visit (k, v)).
Proof.
  intros Hin Hv Hsubs. unfold visit. cbn [fst snd]. case_bool_decide as Hk.
  - subst k. destruct v as [| | | | | |props];
      try (left; split; [done|]; intros s' [(? & ? & ? & [=] & _)|(? & ? & [->| ->] & [=] & _)]).
    destruct (walk_properties (JObj fields) props (Hsubs props eq_refl)) as [[Hr Hs]|Hr].
    + intros. by eapply sub_property.
    + left. split; [exact Hr|].
      intros s' [(props' & name & s & [= <-] & Hps & Hsub)|(? & ? & [->| ->] & [=] & _)] f kk -> Hkk.
      by apply (Hs name s Hps f kk).
    + by right.
  - destruct (bool_decide (k = "items") || bool_decide (k = "additionalProperties")) eqn:Ei.
    2:{ left. split; [done|]. apply orb_false_iff in Ei as [Ei Ea]. bool_to_prop.
        intros s' [(? & ? & ? & [= ->] & _)|(? & ? & [->| ->] & [= ->] & _)]; done. }
    apply orb_true_iff in Ei. rewrite !bool_decide_eq_true in Ei.
    destruct v as [| | | | | |sub];
      try (left; split; [done|]; intros s' Hcase g kk -> Hkk;
           destruct Hcase as [(? & ? & ? & E & _)|(? & s0 & _ & [= -> <-] & Hsub)]; [congruence|inversion Hsub]).
    destruct Hv as [[Hr Hs]|Hr].
    + left. split; [exact Hr|]. intros s' Hcase f kk -> Hkk.
      destruct Hcase as [(? & ? & ? & E & _)|(? & s & _ & [= -> <-] & Hsub)]; [congruence|by apply (Hs f kk)].
    + right. eapply refusal_lift; [|exact Hr]. intros s' Hs'. by eapply sub_keyword.
Qed.

Lemma reject_spec schema :
  walked schema (supported schema) (reject_unsupported schema) /\
  (forall props, schema = JObj props -> forall name sub, (name, sub) ∈ props ->
     walked sub (supported sub) (reject_unsupported sub)).
Proof.
  induction schema as [| | | | |l _|fields IH] using json_induction;
    try (split; [left; split; [done|by apply supported_leaf]|done]).
  rewrite Forall_forall in IH. split.
  2:{ intros props [= <-] name sub Hin. by apply (proj1 (IH _ Hin)). }
  rewrite reject_unfold. destruct (unsupported_keywords fields) as [|k0 ks] eqn:Ek.
  2:{ right. exists (k0 :: ks), fields. split; [done|]. split; [done|]. split; [constructor|].
      intros k. rewrite <- Ek. apply unsupported_keywords_spec. }
  destruct (visit_all (JObj fields) entry_supported fields) as [[-> Hok]|Hr]; [|left|by right].
  - intros [k v] Hin. destruct (IH _ Hin). by apply visit_walked.
  - split; [done|]. intros f k Hsub Hk. inversion Hsub as [|fs props name s s' H1 H2 H3|kw fs s s' H1 H2 H3]; subst.
    + destruct (decide (k ∈ SUPPORTED_SCHEMA_KEYWORDS)) as [|Hn]; [done|]. exfalso.
      assert (Hbad : k ∈ unsupported_keywords fields) by (by apply unsupported_keywords_spec). rewrite Ek in Hbad.
      by apply not_elem_of_nil in Hbad.
    + apply (Hok _ H1 (JObj f)) with f; [|done|done]. left. eauto 6.
    + apply (Hok _ H2 (JObj f)) with f; [|done|done]. right. eauto 6.
Qed.

Lemma keyword_ok_supported `{TextTools} k v : keyword_ok (k, v) = true -> k ∈ SUPPORTED_SCHEMA_KEYWORDS.
Proof.
  intros Hk. destruct (decide (k ∈ SUPPORTED_SCHEMA_KEYWORDS)) as [|Hn]; [done|]. exfalso.
  assert (Hl : forall l, bool_decide (l ∈ SUPPORTED_SCHEMA_KEYWORDS) = true -> k <> l)
    by (intros l Hin ->; by apply bool_decide_eq_true in Hin).
  assert (Hb : k ∉ BOUND_KEYWORDS).
  { intros Hin. apply Hn. apply list_elem_of_In in Hin.
    assert (Hall : forallb (fun l => bool_decide (l ∈ SUPPORTED_SCHEMA_KEYWORDS)) BOUND_KEYWORDS = true)
      by (vm_compute; reflexivity).
    rewrite forallb_forall in Hall. apply Hall in Hin. by apply bool_decide_eq_true in Hin. }
  unfold keyword_ok in Hk. rewrite !bool_decide_false in Hk by first [exact Hb | exact Hn | apply Hl; vm_compute; reflexivity].
  done.
Qed.

Lemma well_formed_supported `{TextTools} s : well_formed s = true -> supported s.
Proof.
  intros Hw fields k Hsub. remember (JObj fields) as s' eqn:Es. revert Hw Es.
  induction Hsub as [s|fs props name s s' H1 H2 _ IH|kw fs s s' H1 H2 Hsub IH]; intros Hw Es.
  - subst s. destruct (well_formed_entries _ Hw) as [Hf _]. intros Hk. apply list_elem_of_fmap in Hk as ([k' v] & -> & Hin).
    rewrite forallb_forall in Hf. eapply keyword_ok_supported. apply Hf. by apply list_elem_of_In.
  - destruct (well_formed_entries _ Hw) as [_ Hin]. apply IH; [|done]. by eapply (Hin _ _ H1).
  - destruct (well_formed_entries _ Hw) as [Hf Hin]. destruct H1 as [-> | ->].
    + apply IH; [|done]. by apply (Hin _ _ H2).
    + rewrite forallb_forall in Hf. apply list_elem_of_In in H2. specialize (Hf _ H2). cbn in Hf.
      destruct s; try discriminate. inversion Hsub; subst. discriminate.
Qed.

(** Replacing the value of a key a lookup does not read. *)
Lemma assoc_replace {A} (fields : list (string * A)) k k' (f : A -> A) :
  k <> k' -> assoc k (map (fun kv => if bool_decide (kv.1 = k') then (kv.1, f kv.2) else kv) fields) = assoc k fields.
Proof.
  intros Hne. induction fields as [|[q v] l IH]; [done|]. cbn [map fst snd]. case_bool_decide as Hq; cbn [assoc]; rewrite IH.
  - subst q. by rewrite !(bool_decide_false (k = k')).
  - done.
Qed.

(** [schema] with [value] for each [additionalProperties] of its top level. *)
Definition with_additional (value : json) (fields : list (string * json)) : list (string * json) :=
  map (fun kv => if bool_decide (kv.1 = "additionalProperties") then (kv.1, value) else kv) fields.

Lemma additional_other k value fields : k <> "additionalProperties" -> assoc k (with_additional value fields) = assoc k fields.
Proof. intros Hne. by apply assoc_replace with (f := fun _ => value). Qed.

Lemma additional_value value fields :
  assoc "additionalProperties" (with_additional value fields) =
  match assoc "additionalProperties" fields with Some _ => Some value | None => None end.
Proof.
  induction fields as [|[q v] l IH]; [done|]. unfold with_additional in *. cbn [map fst snd].
  case_bool_decide as Hq; cbn [assoc]; [subst; by rewrite bool_decide_true|]. by rewrite !bool_decide_false.
Qed.

(** ** A policy's verdict *)

(** The kinds of check a policy runs on a text, in order. *)
Definition planned_kinds `{TextTools} (text : string) (require_valid_json : bool) (schema : option json)
    (required_fields : list string) (pattern : option string) (max_output_chars : option Z) : list string :=
  (if require_valid_json || bool_decide (is_Some schema) || negb (bool_decide (required_fields = [])) then
     "json" :: match json_loads text with
               | Some _ => match schema with Some _ => ["json_schema"] | None => [] end ++
                           match required_fields with [] => [] | _ => ["required_fields"] end
               | None => []
               end
   else []) ++
  match pattern with Some _ => ["regex"] | None => [] end ++
  match max_output_chars with Some _ => ["length"] | None => [] end.

(** What makes a check of each kind pass. *)
Definition check_holds `{TextTools} (text : string) (schema : option json) (required_fields : list string)
    (pattern : option string) (max_output_chars : option Z) (kind : string) : Prop :=
  (kind = "json" -> is_Some (json_loads text)) /\
  (kind = "json_schema" -> exists sc parsed c, schema = Some sc /\ json_loads text = Some parsed /\
                             validate_schema parsed sc = Ok c /\ vc_passed c = true) /\
  (kind = "required_fields" -> exists object, json_loads text = Some (JObj object) /\
                                 forall name, name ∈ required_fields -> name ∈ object.*1) /\
  (kind = "regex" -> exists p, pattern = Some p /\ re_search p text = Some true) /\
  (kind = "length" -> exists m, max_output_chars = Some m /\ py_len text <= m).

Section verdict.
Context `{TextTools}.

Lemma validate_schema_kind parsed sc c : validate_schema parsed sc = Ok c -> vc_kind c = "json_schema".
Proof.
  unfold validate_schema. intros E. apply bind_Ok_inv in E as (? & _ & E). apply bind_Ok_inv in E as (ps & _ & E).
  by destruct ps; injection E as <-.
Qed.

Lemma required_fields_check parsed fields :
  vc_kind (validate_required_fields parsed fields) = "required_fields" /\
  (vc_passed (validate_required_fields parsed fields) = true <->
   exists object, parsed = JObj object /\ forall name, name ∈ fields -> name ∈ object.*1).
Proof.
  destruct parsed as [| | | | | |object]; try (split; [done|]; split; [done|]; by intros (? & [=] & _)).
  cbn [validate_required_fields].
  set (miss := List.filter _ fields).
  assert (Hm : miss = [] <-> forall name, name ∈ fields -> name ∈ object.*1).
  { unfold miss. clear miss. induction fields as [|f fields IH]; cbn [List.filter].
    - split; [|done]. intros _ name Hn. by apply not_elem_of_nil in Hn.
    - pose proof (assoc_is_Some f object) as Hf. destruct (assoc f object).
      + rewrite IH. split.
        * intros Hall name Hn. apply elem_of_cons in Hn as [->|Hn]; [apply Hf; by eexists|auto].
        * intros Hall name Hn. apply Hall. by right.
      + split; [done|]. intros Hall. destruct (proj2 Hf (Hall f (list_elem_of_here _ _))) as [? ?]. done. }
  destruct miss; cbn [vc_kind vc_passed]; (split; [done|]); split; try done.
  - intros _. exists object. split; [done|]. by apply Hm.
  - intros (o & [= <-] & Hall). by apply Hm in Hall.
Qed.

Lemma regex_check text p :
  vc_kind (validate_regex text p) = "regex" /\
  (vc_passed (validate_regex text p) = true <-> re_search p text = Some true).
Proof. unfold validate_regex. by destruct (re_search p text) as [[]|]. Qed.

Lemma length_check text m :
  vc_kind (validate_length text m) = "length" /\ (vc_passed (validate_length text m) = true <-> py_len text <= m).
Proof.
  unfold validate_length. destruct (m <? py_len text) eqn:E; bool_to_prop; cbn; (split; [done|]); split; try done; lia.
Qed.

(** Checks and the kinds they settle. *)
Definition judged (holds : string -> Prop) (checks : list ValidationCheck) (kinds : list string) : Prop :=
  Forall2 (fun c k => vc_kind c = k /\ (vc_passed c = true <-> holds k)) checks kinds.

Lemma judged_kinds holds checks kinds : judged holds checks kinds -> map vc_kind checks = kinds.
Proof. induction 1 as [|c k cs ks [E _] _ IH]; [done|]. cbn. by rewrite E, IH. Qed.

Lemma judged_passed holds checks kinds : judged holds checks kinds ->
  forallb vc_passed checks = true <-> forall k, k ∈ kinds -> holds k.
Proof.
  induction 1 as [|c k cs ks [_ Hc] _ IH]; cbn [forallb].
  - split; [|done]. intros _ k Hk. by apply not_elem_of_nil in Hk.
  - rewrite andb_true_iff, IH, Hc. split.
    + intros [H1 H2] k' Hk. apply elem_of_cons in Hk as [->|Hk]; auto.
    + intros Hall. split; [apply Hall; by left|]. intros k' Hk. apply Hall. by right.
Qed.

Lemma judged_nil holds checks kinds : judged holds checks kinds -> checks = [] <-> kinds = [].
Proof. by destruct 1. Qed.

Lemma json_checks_judged text schema required pattern maximum :
  let holds := check_holds text schema required pattern maximum in
  match json_checks text schema required with
  | Raise e => exists sc parsed, schema = Some sc /\ json_loads text = Some parsed /\ validate_schema parsed sc = Raise e
  | Ok (checks, parsed) =>
      (forall sc parsed, schema = Some sc -> json_loads text = Some parsed -> is_ok (validate_schema parsed sc) = true) /\
      parsed = default JNull (json_loads text) /\
      judged holds checks
        ("json" :: match json_loads text with
                   | Some _ => match schema with Some _ => ["json_schema"] | None => [] end ++
                               match required with [] => [] | _ => ["required_fields"] end
                   | None => []
                   end)
  end.
Proof.
  cbv zeta. unfold json_checks, validate_json. destruct (json_loads text) as [parsed|] eqn:Ep; cbn [vc_passed].
  2:{ split; [by intros|]. split; [done|]. constructor; [|constructor]. split; [done|]. split; [done|].
      intros (Hj & _). rewrite Ep in Hj. by destruct (Hj eq_refl). }
  assert (Hjson : forall c, vc_kind c = "json" -> vc_passed c = true ->
    vc_kind c = "json" /\ (vc_passed c = true <-> check_holds text schema required pattern maximum "json")).
  { intros c Hk Hc. split; [done|]. split; [|done]. intros _. by split_and!; intros [=]. }
  assert (Hreq : judged (check_holds text schema required pattern maximum)
    match required with [] => [] | l => [validate_required_fields parsed l] end
    match required with [] => [] | _ => ["required_fields"] end).
  { destruct required as [|f fields]; [constructor|]. destruct (required_fields_check parsed (f :: fields)) as [Hk Hp].
    constructor; [|constructor]. split; [exact Hk|]. rewrite Hp. split.
    - intros (o & -> & Ho). split_and!; intros [=]. by exists o.
    - intros (_ & _ & Hr & _). destruct (Hr eq_refl) as (o & Ho & Hall). exists o. split; [congruence|done]. }
  destruct schema as [sc|].
  2:{ cbn [mbind result_bind app]. split; [by intros|]. split; [done|]. constructor; [by apply Hjson|exact Hreq]. }
  destruct (validate_schema parsed sc) as [c|e] eqn:Ec; cbn [mbind result_bind]; [|by exists sc, parsed].
  split; [intros ? ? [= <-] [= <-]; by rewrite Ec|]. split; [done|]. constructor; [by apply Hjson|].
  cbn [app]. constructor; [|exact Hreq]. split; [by eapply validate_schema_kind|]. split.
  - intros Hc. split_and!; intros [=]. by exists sc, parsed, c.
  - intros (_ & Hs & _). destruct (Hs eq_refl) as (sc' & p' & c' & [= <-] & Hp & Hv & Hc). congruence.
Qed.

Lemma text_checks_judged text schema required pattern maximum :
  judged (check_holds text schema required pattern maximum)
    (match pattern with Some p => [validate_regex text p] | None => [] end ++
     match maximum with Some m => [validate_length text m] | None => [] end)
    (match pattern with Some _ => ["regex"] | None => [] end ++ match maximum with Some _ => ["length"] | None => [] end).
Proof.
  apply Forall2_app.
  - destruct pattern as [p|]; [|constructor]. constructor; [|constructor]. destruct (regex_check text p) as [Hk Hp].
    split; [done|]. rewrite Hp. split.
    + intros Hr. split_and!; intros [=]. eauto.
    + intros (_ & _ & _ & Hr & _). destruct (Hr eq_refl) as (p' & [= <-] & ?). done.
  - destruct maximum as [m|]; [|constructor]. constructor; [|constructor]. destruct (length_check text m) as [Hk Hp].
    split; [done|]. rewrite Hp. split.
    + intros Hr. split_and!; intros [=]. eauto.
    + intros (_ & _ & _ & _ & Hr). destruct (Hr eq_refl) as (m' & [= <-] & ?). done.
Qed.

(** The outcome a list of judged checks is folded into. *)
Lemma outcome_spec holds checks kinds (parsed : json) :
  judged holds checks kinds ->
  let o := match checks with [] => mkOutcome false None [] JNull | _ => mkOutcome true (Some (forallb vc_passed checks)) checks parsed end in
  map vc_kind (vo_checks o) = kinds /\ vo_performed o = negb (bool_decide (kinds = [])) /\
  (vo_passed o = None <-> kinds = []) /\
  (vo_passed o = Some true <-> kinds <> [] /\ forall k, k ∈ kinds -> holds k) /\
  (kinds <> [] -> vo_parsed o = parsed).
Proof.
  cbv zeta. intros Hj. pose proof (judged_kinds _ _ _ Hj) as Hk. pose proof (judged_passed _ _ _ Hj) as Hp.
  pose proof (judged_nil _ _ _ Hj) as Hn. destruct checks as [|c cs]; cbn [vo_checks vo_performed vo_passed vo_parsed].
  - cbn in Hk. subst kinds. split_and!; try done. split; [done|]. by intros [? _].
  - assert (kinds <> []) by (intros E; by apply Hn in E). split_and!; try done.
    + by rewrite bool_decide_false.
    + rewrite <- Hp. generalize (forallb vc_passed (c :: cs)). intros b. split; [by intros [= ->]|]. by intros [_ ->].
Qed.
End verdict.

Module Properties.


(** A schema is refused exactly when some schema object the walk reaches (through [properties], [items]
    or [additionalProperties], at any depth) has a keyword the validator does not implement; the refusal
    names unsupported keywords of one such object, all of them and no others. *)
Theorem unsupported_schemas_refused (schema : json) :
  (reject_unsupported schema = Ok tt <-> supported schema) /\
  (reject_unsupported schema <> Ok tt -> refusal_of schema (reject_unsupported schema)).
Proof.
  destruct (proj1 (reject_spec schema)) as [[-> Hs]|(ks & f & -> & Hne & Hsub & Hk)]; [done|]. split.
  - split; [done|]. intros Hs. exfalso. destruct ks as [|k ks]; [done|].
    destruct (proj1 (Hk k) (list_elem_of_here _ _)) as [Hin Hout]. by apply Hout, (Hs f k).
  - intros _. by exists ks, f.
Qed.

(** [additionalProperties] given as a schema constrains nothing: it is accepted as supported, and
    the check of any document is the same with any other schema, or [true], in its place. *)
Theorem additional_schema_ignored `{TextTools} (fields other sub : list (string * json)) (value : json) (path : list Seg) :
  assoc "additionalProperties" fields = Some (JObj sub) ->
  check_node value (JObj (with_additional (JObj other) fields)) path = check_node value (JObj fields) path /\
  check_node value (JObj (with_additional (JBool true) fields)) path = check_node value (JObj fields) path.
Proof.
  intros Ha. assert (Hall : forall v, v <> JBool false ->
    check_node value (JObj (with_additional v fields)) path = check_node value (JObj fields) path); [|split; by apply Hall].
  intros v Hv. rewrite !check_node_unfold.
  assert (Hkp : forall kw test w, kw <> "additionalProperties" ->
    keyword_problem (with_additional v fields) kw test w = keyword_problem fields kw test w)
    by (intros; unfold keyword_problem; by rewrite additional_other).
  assert (Hex : forall object, extra_fields object (with_additional v fields) = extra_fields object fields).
  { intros object. unfold extra_fields. rewrite additional_value, Ha. by destruct v as [|[]| | | | |]. }
  unfold type_problem, missing_fields, properties_of, scalar_problems.
  rewrite !additional_other by done.
  destruct value; rewrite ?Hex, !Hkp by done; reflexivity.
Qed.

(** A policy's verdict.  It raises exactly when the text parses and the schema check raises.
    Otherwise it runs exactly the planned kinds in order (the checks of the document only when the text
    parses), reports nothing performed and no verdict when nothing was asked, and else passes exactly when
    every planned kind holds; the parsed document is kept when a JSON check ran. *)
Theorem output_verdict `{TextTools} (text : string) (rvj : bool) (schema : option json) (required : list string)
    (pattern : option string) (maximum : option Z) :
  let kinds := planned_kinds text rvj schema required pattern maximum in
  match validate_output text rvj schema required pattern maximum with
  | Raise e => exists sc parsed, schema = Some sc /\ json_loads text = Some parsed /\ validate_schema parsed sc = Raise e
  | Ok o =>
      (forall sc parsed, schema = Some sc -> json_loads text = Some parsed -> is_ok (validate_schema parsed sc) = true) /\
      map vc_kind (vo_checks o) = kinds /\ vo_performed o = negb (bool_decide (kinds = [])) /\
      (vo_passed o = None <-> kinds = []) /\
      (vo_passed o = Some true <-> kinds <> [] /\ forall k, k ∈ kinds -> check_holds text schema required pattern maximum k) /\
      ("json" ∈ kinds -> vo_parsed o = default JNull (json_loads text))
  end.
Proof.
  cbv zeta. unfold validate_output, planned_kinds.
  pose proof (text_checks_judged text schema required pattern maximum) as Htext.
  destruct (rvj || _ || _) eqn:Hneeds; cbn [mbind result_bind fst snd].
  - pose proof (json_checks_judged text schema required pattern maximum) as Hjson. cbv zeta in Hjson.
    destruct (json_checks text schema required) as [[cs parsed]|e]; cbn [mbind result_bind fst snd]; [|exact Hjson].
    destruct Hjson as (Hok & -> & Hj). split; [exact Hok|].
    destruct (outcome_spec _ _ _ (default JNull (json_loads text)) (Forall2_app Hj Htext)) as (H1 & H2 & H3 & H4 & H5).
    split_and!; try done. intros _. by apply H5.
  - cbn [app]. destruct (outcome_spec _ _ _ JNull Htext) as (H1 & H2 & H3 & H4 & H5).
    apply orb_false_iff in Hneeds as [Hneeds _]. apply orb_false_iff in Hneeds as [_ Hns]. bool_to_prop.
    split; [intros sc parsed ->; by destruct Hns|]. split_and!; try done.
    intros Hin. exfalso. destruct pattern, maximum; cbn in Hin;
      repeat (apply elem_of_cons in Hin as [[=]|Hin]); by apply not_elem_of_nil in Hin.
Qed.

(** A library for the witnesses: three documents, and patterns that are prefixes. *)
#[local] Instance sample_tools : TextTools := {|
  json_loads text :=
    if bool_decide (text = "{}") then Some (JObj [])
    else if bool_decide (text = "[1, 2]") then Some (JArr [JInt 1; JInt 2])
    else if bool_decide (text = "7") then Some (JInt 7)
    else None;
  re_search p text := Some (String.prefix p text)
|}.

#[local] Instance sample_tools_laws : TextToolsLaws.
Proof. split. intros. by eexists. Qed.

Definition sample_schema : list (string * json) :=
  [("type", JStr "object"); ("required", JArr [JStr "name"]); ("additionalProperties", JBool false);
   ("properties", JObj [("name", JObj [("type", JStr "string"); ("minLength", JInt 2)])])].


(** The schema asks that every other field be an integer; a text value passes. *)
Lemma additional_schema_ignored_witness :
  let fields := [("type", JStr "object"); ("additionalProperties", JObj [("type", JStr "integer")])] in
  reject_unsupported (JObj fields) = Ok tt /\ check_node (JObj [("x", JStr "no")]) (JObj fields) [] = Ok [].
Proof.
  cbv zeta. split; [vm_compute; reflexivity|].
  destruct (additional_schema_ignored [("type", JStr "object"); ("additionalProperties", JObj [("type", JStr "integer")])]
    [] [("type", JStr "integer")] (JObj [("x", JStr "no")]) [] eq_refl) as [_ <-].
  vm_compute. reflexivity.
Defined.

End Properties.
