(* ===== verification/Dialogue.v ===== *)
(** * Programs that talk to their environment

    A worker and a synchronous execution alternate between committed operations on shared state and
    questions to the rest of the world: the clock, a provider, the breaker registry.  A [dialogue] is such a
    program; [runs] gives it meaning under an environment that may act on the state before every operation
    ([rely]) and answer every question in any way, and [wp] is the corresponding logic. *)

From S2P Require Import Prelude QueueStore.

Section dialogue.
Context {W : Type} {Q : Type} {Ans : Q -> Type}.

(** [Act] runs one operation on the state, and goes on with what it returned or raised; [Starve] marks a
    loop that ran out of fuel. *)
Inductive dialogue (A : Type) : Type :=
| Ret (a : A)
| Throw (e : exn)
| Starve
| Act {B : Type} (body : prog W B) (k : result B -> dialogue A)
| Ask (q : Q) (k : Ans q -> dialogue A).

Arguments Ret {A} a.
Arguments Throw {A} e.
Arguments Starve {A}.
Arguments Act {A B} body k.
Arguments Ask {A} q k.

Fixpoint dbind {A B} (p : dialogue A) (f : A -> dialogue B) : dialogue B :=
  match p with
  | Ret a => f a
  | Throw e => Throw e
  | Starve => Starve
  | Act body k => Act body (fun r => dbind (k r) f)
  | Ask q k => Ask q (fun a => dbind (k a) f)
  end.

(** [try: p except e: h e]; the handler raises again what it does not take. *)
Fixpoint catch {A} (p : dialogue A) (h : exn -> dialogue A) : dialogue A :=
  match p with
  | Ret a => Ret a
  | Throw e => h e
  | Starve => Starve
  | Act body k => Act body (fun r => catch (k r) h)
  | Ask q k => Ask q (fun a => catch (k a) h)
  end.

(** [try: p finally: c]. *)
Fixpoint finally {A} (p : dialogue A) (c : dialogue unit) : dialogue A :=
  match p with
  | Ret a => dbind c (fun _ => Ret a)
  | Throw e => dbind c (fun _ => Throw e)
  | Starve => Starve
  | Act body k => Act body (fun r => finally (k r) c)
  | Ask q k => Ask q (fun a => finally (k a) c)
  end.

Definition of_result {A} (r : result A) : dialogue A := match r with Ok a => Ret a | Raise e => Throw e end.
Definition act {B} (body : prog W B) : dialogue B := Act body of_result.
Definition ask (q : Q) : dialogue (Ans q) := Ask q Ret.

#[export] Instance dialogue_ret : MRet dialogue := fun _ => Ret.
#[export] Instance dialogue_bind : MBind dialogue := fun _ _ f p => dbind p f.

(** ** Runs *)

(** What was observed: an operation with the state around it, or a question with its answer. *)
Inductive Obs :=
| Acted (before after : W)
| Asked (q : Q) (a : Ans q).

Inductive Ending (A : Type) := Done (r : result A) | Starved.
Arguments Done {A} r.
Arguments Starved {A}.

Section meaning.
Context (rely : W -> W -> Prop).

Inductive runs {A} : dialogue A -> W -> list Obs -> W -> Ending A -> Prop :=
| runs_ret a w : runs (Ret a) w [] w (Done (Ok a))
| runs_throw e w : runs (Throw e) w [] w (Done (Raise e))
| runs_starve w : runs Starve w [] w Starved
| runs_act B (body : prog W B) k w w1 w2 r tr w' o :
    rely w w1 -> body w1 = (w2, r) -> runs (k r) w2 tr w' o -> runs (Act body k) w (Acted w1 w2 :: tr) w' o
| runs_ask q k w a tr w' o : runs (k a) w tr w' o -> runs (Ask q k) w (Asked q a :: tr) w' o.

(** ** The logic *)

Fixpoint wp {A} (p : dialogue A) (Post : result A -> W -> list Obs -> Prop) (w : W) (tr : list Obs) : Prop :=
  match p with
  | Ret a => Post (Ok a) w tr
  | Throw e => Post (Raise e) w tr
  | Starve => False
  | Act body k => forall w1, rely w w1 -> wp (k (body w1).2) Post (body w1).1 (tr ++ [Acted w1 (body w1).1])
  | Ask q k => forall a, wp (k a) Post w (tr ++ [Asked q a])
  end.

Lemma wp_mono {A} (p : dialogue A) (P R : result A -> W -> list Obs -> Prop) w tr :
  (forall r w tr, P r w tr -> R r w tr) -> wp p P w tr -> wp p R w tr.
Proof. intros HPR. revert w tr. induction p; cbn; eauto. Qed.

Lemma wp_bind {A B} (p : dialogue A) (f : A -> dialogue B) Post w tr :
  wp p (fun r w tr => match r with Ok a => wp (f a) Post w tr | Raise e => Post (Raise e) w tr end) w tr ->
  wp (p ≫= f) Post w tr.
Proof. change (p ≫= f) with (dbind p f). revert w tr. induction p; cbn; eauto. Qed.

Lemma wp_catch {A} (p : dialogue A) h Post w tr :
  wp p (fun r w tr => match r with Ok a => Post (Ok a) w tr | Raise e => wp (h e) Post w tr end) w tr ->
  wp (catch p h) Post w tr.
Proof. revert w tr. induction p; cbn; eauto. Qed.

Lemma wp_finally {A} (p : dialogue A) c Post w tr :
  wp p (fun r w tr => wp c (fun r' w tr => match r' with Ok _ => Post r w tr | Raise e => Post (Raise e) w tr end) w tr) w tr ->
  wp (finally p c) Post w tr.
Proof.
  revert w tr. induction p; cbn; intros w tr Hp; eauto.
  - apply wp_bind. eapply wp_mono; [|exact Hp]. by intros [].
  - apply wp_bind. eapply wp_mono; [|exact Hp]. by intros [].
Qed.

Lemma wp_act {B} (body : prog W B) Post w tr :
  (forall w1, rely w w1 -> Post (body w1).2 (body w1).1 (tr ++ [Acted w1 (body w1).1])) -> wp (act body) Post w tr.
Proof. cbn. intros H w1 Hr. specialize (H w1 Hr). by destruct (body w1) as [w2 []]. Qed.

Lemma wp_ask q Post w tr : (forall a, Post (Ok a) w (tr ++ [Asked q a])) -> wp (ask q) Post w tr.
Proof. done. Qed.

Lemma wp_of_result {A} (r : result A) Post w tr : Post r w tr -> wp (of_result r) Post w tr.
Proof. by destruct r. Qed.

(** A program proved correct ends, whatever the environment does. *)
Lemma wp_sound {A} (p : dialogue A) Post w tr tr' w' o :
  wp p Post w tr -> runs p w tr' w' o -> exists r, o = Done r /\ Post r w' (tr ++ tr').
Proof.
  intros Hp Hr. revert tr Hp. induction Hr as [a w|e w|w|B body k w w1 w2 r tr' w' o Hrel Hb _ IH|q k w a tr' w' o _ IH]; intros tr Hp; cbn in Hp.
  - exists (Ok a). by rewrite app_nil_r.
  - exists (Raise e). by rewrite app_nil_r.
  - done.
  - specialize (Hp w1 Hrel). rewrite Hb in Hp. destruct (IH _ Hp) as (x & -> & Hx). exists x. split; [done|].
    by rewrite <- app_assoc in Hx.
  - destruct (IH _ (Hp a)) as (x & -> & Hx). exists x. split; [done|]. by rewrite <- app_assoc in Hx.
Qed.

(** ** Invariants of runs *)

(** Questions and operations a program may make, whatever it is answered. *)
Fixpoint within {A} (okq : Q -> Prop) (okb : forall B, prog W B -> Prop) (p : dialogue A) : Prop :=
  match p with
  | Ret _ | Throw _ | Starve => True
  | Act body k => okb _ body /\ forall r, within okq okb (k r)
  | Ask q k => okq q /\ forall a, within okq okb (k a)
  end.

Lemma within_bind {A B} okq okb (p : dialogue A) (f : A -> dialogue B) :
  within okq okb p -> (forall a, within okq okb (f a)) -> within okq okb (p ≫= f).
Proof.
  change (p ≫= f) with (dbind p f). induction p; cbn; intros Hp Hf; try done; auto.
  - destruct Hp. split; auto.
  - destruct Hp. split; auto.
Qed.

Lemma within_catch {A} okq okb (p : dialogue A) h :
  within okq okb p -> (forall e, within okq okb (h e)) -> within okq okb (catch p h).
Proof. induction p; cbn; intros Hp Hh; try done; destruct Hp; split; auto. Qed.

Lemma within_finally {A} okq okb (p : dialogue A) c :
  within okq okb p -> within okq okb c -> within okq okb (finally p c).
Proof.
  induction p; cbn; intros Hp Hc; try done.
  - by apply (within_bind okq okb c (fun _ => Ret a)).
  - by apply (within_bind okq okb c (fun _ => Throw e)).
  - destruct Hp. split; auto.
  - destruct Hp. split; auto.
Qed.

Lemma within_mono {A} (okq okq' : Q -> Prop) (okb okb' : forall B, prog W B -> Prop) (p : dialogue A) :
  (forall q, okq q -> okq' q) -> (forall B body, okb B body -> okb' B body) -> within okq okb p -> within okq' okb' p.
Proof. intros Hq Hb. induction p; cbn; try done; intros [H1 H2]; split; auto. Qed.

Lemma within_act {B} okq (okb : forall B, prog W B -> Prop) (body : prog W B) : okb B body -> within okq okb (act body).
Proof. intros Hb. split; [done|]. by intros []. Qed.

Lemma within_of_result {A} okq okb (r : result A) : within okq okb (of_result r).
Proof. by destruct r. Qed.

Lemma within_acted {A} okq (okb : forall B, prog W B -> Prop) (p : dialogue A) w tr w' o w1 w2 :
  within okq okb p -> runs p w tr w' o -> Acted w1 w2 ∈ tr -> exists B (body : prog W B), okb B body /\ (body w1).1 = w2.
Proof.
  intros Hp Hr. revert Hp. induction Hr as [| | |B body k w0 u1 u2 r tr' w' o Hrel Hb _ IH|q k w0 a tr' w' o _ IH]; intros Hp Hin.
  1-3: by apply not_elem_of_nil in Hin.
  - destruct Hp as [Hok Hp]. apply elem_of_cons in Hin as [Hin|Hin]; [|by apply (IH (Hp r))].
    injection Hin as -> ->. exists B, body. by rewrite Hb.
  - destruct Hp as [_ Hp]. apply elem_of_cons in Hin as [Hin|Hin]; [done|]. by apply (IH (Hp a)).
Qed.

Lemma within_runs {A} okq okb (p : dialogue A) w tr w' o :
  within okq okb p -> runs p w tr w' o -> forall q a, Asked q a ∈ tr -> okq q.
Proof.
  intros Hp Hr. revert Hp. induction Hr as [| | |B body k w w1 w2 r tr' w' o Hrel Hb _ IH|q k w a tr' w' o _ IH]; intros Hp q' a' Hin.
  1-3: by apply not_elem_of_nil in Hin.
  - apply elem_of_cons in Hin as [Hin|Hin]; [done|]. destruct Hp as [_ Hp]. by eapply (IH (Hp r)).
  - destruct Hp as [Hq Hp]. apply elem_of_cons in Hin as [Hin|Hin]; [|by eapply (IH (Hp a))].
    by injection Hin as ->.
Qed.
End meaning.

(** Less interference, fewer runs. *)
Lemma runs_mono {A} (rely1 rely2 : W -> W -> Prop) (p : dialogue A) w tr w' o :
  (forall w w', rely1 w w' -> rely2 w w') -> runs rely1 p w tr w' o -> runs rely2 p w tr w' o.
Proof. intros Hle. induction 1; econstructor; eauto. Qed.

(** ** Playing a program

    The run under a given environment: [answers] is told how many questions were asked before. *)
Fixpoint play {A} (answers : nat -> forall q, Ans q) (n : nat) (p : dialogue A) (w : W) : list Obs * W * Ending A :=
  match p with
  | Ret a => ([], w, Done (Ok a))
  | Throw e => ([], w, Done (Raise e))
  | Starve => ([], w, Starved)
  | Act body k =>
      let '(w2, r) := body w in
      let '(tr, w', o) := play answers n (k r) w2 in (Acted w w2 :: tr, w', o)
  | Ask q k => let '(tr, w', o) := play answers (S n) (k (answers n q)) w in (Asked q (answers n q) :: tr, w', o)
  end.

Lemma play_runs {A} (rely : W -> W -> Prop) answers n (p : dialogue A) w tr w' o :
  (forall w, rely w w) -> play answers n p w = (tr, w', o) -> runs rely p w tr w' o.
Proof.
  intros Hrel. revert n w tr w' o. induction p as [a|e| |B body k IH|q k IH]; intros n w tr w' o; cbn.
  - intros [= <- <- <-]. constructor.
  - intros [= <- <- <-]. constructor.
  - intros [= <- <- <-]. constructor.
  - destruct (body w) as [w2 r] eqn:Eb. destruct (play answers n (k r) w2) as [[tr2 w3] o2] eqn:Ep.
    intros [= <- <- <-]. econstructor; [apply Hrel|exact Eb|by eapply IH].
  - destruct (play answers (S n) _ w) as [[tr2 w3] o2] eqn:Ep. intros [= <- <- <-]. constructor. by eapply IH.
Qed.
End dialogue.

Arguments dialogue {W} {Q} Ans A.
Arguments Ret {W Q Ans A} a.
Arguments Throw {W Q Ans A} e.
Arguments Starve {W Q Ans A}.
Arguments Act {W Q Ans A B} body k.
Arguments Ask {W Q Ans A} q k.
Arguments Obs W {Q} Ans.
Arguments Done {A} r.
Arguments Starved {A}.

(** What is observed is only added to. *)
Lemma wp_extends {W Q} {Ans : Q -> Type} (rely : W -> W -> Prop) {A} (p : dialogue Ans A) Post w tr :
  wp rely p Post w tr -> wp rely p (fun r w' tr' => (exists more, tr' = tr ++ more) /\ Post r w' tr') w tr.
Proof.
  revert w tr. induction p as [a|e| |B body k IH|q k IH]; cbn; intros w tr Hp.
  - split; [|done]. exists []. by rewrite app_nil_r.
  - split; [|done]. exists []. by rewrite app_nil_r.
  - done.
  - intros w1 Hr. eapply wp_mono; [|by apply IH, Hp]. cbn. intros r w' tr' [[more ->] HP]. split; [|done].
    eexists. by rewrite <- app_assoc.
  - intros a. eapply wp_mono; [|by apply IH, Hp]. cbn. intros r w' tr' [[more ->] HP]. split; [|done].
    eexists. by rewrite <- app_assoc.
Qed.

Lemma wp_ret {W Q} {Ans : Q -> Type} (rely : W -> W -> Prop) {A} (a : A) (Post : result A -> W -> list (Obs W Ans) -> Prop) w tr :
  Post (Ok a) w tr -> wp rely (mret a : dialogue Ans A) Post w tr.
Proof. done. Qed.

Section sequencing.
Context {W Q : Type} {Ans : Q -> Type} (rely : W -> W -> Prop).
#[local] Abbreviation prog := (dialogue (W := W) Ans).

(** A run, read off its program. *)
Lemma runs_inv {A} (p : prog A) w tr w' o :
  runs rely p w tr w' o ->
  match p with
  | Ret a => tr = [] /\ w' = w /\ o = Done (Ok a)
  | Throw e => tr = [] /\ w' = w /\ o = Done (Raise e)
  | Starve => tr = [] /\ w' = w /\ o = Starved
  | Act body k => exists w1 tr', rely w w1 /\ tr = Acted w1 (body w1).1 :: tr' /\ runs rely (k (body w1).2) (body w1).1 tr' w' o
  | Ask q k => exists a tr', tr = Asked q a :: tr' /\ runs rely (k a) w tr' w' o
  end.
Proof.
  destruct 1 as [| | |B body k w w1 w2 r tr w' o Hrel Hb Hr|q k w a tr w' o Hr]; try done.
  - exists w1, tr. rewrite Hb. by split_and!.
  - by exists a, tr.
Qed.

(** A run of a sequence is a run of its first part, alone when it fails, and one of the rest. *)
Lemma runs_bind {A B} (p : prog A) (f : A -> prog B) w tr w' o :
  runs rely (p ≫= f) w tr w' o ->
  (exists a tr1 w1 tr2, runs rely p w tr1 w1 (Done (Ok a)) /\ runs rely (f a) w1 tr2 w' o /\ tr = tr1 ++ tr2) \/
  (exists e, o = Done (Raise e) /\ runs rely p w tr w' (Done (Raise e))) \/
  (o = Starved /\ runs rely p w tr w' Starved).
Proof.
  change (p ≫= f) with (dbind p f). revert w tr w' o. induction p as [a|e| |C body k IH|q k IH]; cbn [dbind]; intros w tr w' o Hr.
  - left. exists a, [], w, tr. split; [constructor|]. by split.
  - apply runs_inv in Hr as (-> & -> & ->). right; left. exists e. split; [done|constructor].
  - apply runs_inv in Hr as (-> & -> & ->). right; right. split; [done|constructor].
  - apply runs_inv in Hr as (w1 & tr' & Hrel & -> & Hk). destruct (body w1) as [w2 r] eqn:Eb. cbn [fst snd] in *.
    destruct (IH _ _ _ _ _ Hk) as [(a & t1 & w3 & t2 & Hp & Hf & ->)|[(e & -> & Hp)|[-> Hp]]].
    + left. exists a, (Acted w1 w2 :: t1), w3, t2. split; [by econstructor|]. by split.
    + right; left. exists e. split; [done|by econstructor].
    + right; right. split; [done|by econstructor].
  - apply runs_inv in Hr as (a & tr' & -> & Hk).
    destruct (IH _ _ _ _ _ Hk) as [(b & t1 & w3 & t2 & Hp & Hf & ->)|[(e & -> & Hp)|[-> Hp]]].
    + left. exists b, (Asked q a :: t1), w3, t2. split; [by econstructor|]. by split.
    + right; left. exists e. split; [done|by econstructor].
    + right; right. split; [done|by econstructor].
Qed.

(** A predicate the others and every operation of the program keep holds after every run. *)
Lemma within_invariant {A} okq (P : W -> Prop) (p : prog A) w tr w' o :
  (forall w1 w2, rely w1 w2 -> P w1 -> P w2) ->
  within okq (fun B body => forall w, P w -> P (body w).1) p -> runs rely p w tr w' o -> P w -> P w'.
Proof.
  intros Hrel Hp Hr. revert Hp. induction Hr as [| | |B body k w0 u1 u2 r tr' w' o Hu Hb _ IH|q k w0 a tr' w' o _ IH]; intros Hp HP; try done.
  - destruct Hp as [Hok Hp]. apply IH; [apply Hp|]. replace u2 with (body u1).1 by (by rewrite Hb). by apply Hok, (Hrel w0).
  - destruct Hp as [_ Hp]. by apply IH.
Qed.
End sequencing.

(** ** A program inside a larger one

    The questions of a part, asked as questions of the whole. *)
Section redirect.
Context {W Q Q' : Type} {Ans : Q -> Type} {Ans' : Q' -> Type} (f : Q -> Q') (back : forall q, Ans' (f q) -> Ans q).

Fixpoint redirect {A} (p : dialogue (W := W) Ans A) : dialogue (W := W) Ans' A :=
  match p with
  | Ret a => Ret a
  | Throw e => Throw e
  | Starve => Starve
  | Act body k => Act body (fun r => redirect (k r))
  | Ask q k => Ask (f q) (fun a => redirect (k (back q a)))
  end.

Lemma redirect_runs (rely : W -> W -> Prop) {A} (p : dialogue (W := W) Ans A) w tr w' o :
  runs rely (redirect p) w tr w' o -> exists tr0, runs rely p w tr0 w' o.
Proof.
  revert w tr. induction p as [a|e| |B body k IH|q k IH]; intros w tr Hr; apply runs_inv in Hr.
  - destruct Hr as (_ & -> & ->). exists []. constructor.
  - destruct Hr as (_ & -> & ->). exists []. constructor.
  - destruct Hr as (_ & -> & ->). exists []. constructor.
  - destruct Hr as (w1 & tr' & Hrel & _ & Hk). destruct (IH _ _ _ Hk) as [tr0 Hr0]. eexists. eapply runs_act; [exact Hrel|apply surjective_pairing|exact Hr0].
  - destruct Hr as (a & tr' & _ & Hk). destruct (IH _ _ _ Hk) as [tr0 Hr0]. eexists. eapply runs_ask. exact Hr0.
Qed.

Lemma redirect_within (okq : Q' -> Prop) (okb : forall B, QueueStore.prog W B -> Prop) {A} (p : dialogue (W := W) Ans A) :
  (forall q, okq (f q)) -> (forall B body, okb B body) -> within okq okb (redirect p).
Proof. intros Hq Hb. induction p; cbn; try done; split; auto. Qed.
End redirect.
