(* ===== verification/Generation.v ===== *)
(** * One provider call ([services/execution.py])

    What a generation sends, what comes back from the stream, how it is checked and recorded, and the
    corrective turn that follows an answer that failed its checks.  ModelRack's providers, errors, results
    and request validation are a class, as are the prompt pack and the rendering of text; a provider's reply
    to one call is data: the events of its stream, how the stream ended, and the two readings of the
    performance counter. *)

From Stdlib Require Import Ascii String.
From stdpp Require Import sorting.
From S2P Require Import Prelude PyFloat PyStr Json Telemetry JobEvents Submission RetryPolicy Subject Scoring Constraints Ranking TaskProfile Explanation Routing QueueStore Validation Dialogue.
#[local] Open Scope string_scope.
#[local] Open Scope list_scope.
#[local] Open Scope Z_scope.

(** A usage figure: [is_supported(value) and isinstance(value, (int, float))], or not. *)
Inductive Quantity := Unsupported | IntQuantity (z : Z) | FloatQuantity (f : f64) | OtherQuantity.

Definition count (value : Quantity) : option Z :=
  match value with IntQuantity z => Some z | FloatQuantity f => Some (ftrunc f) | _ => None end.

Record Usage := mkUsage {
  u_input_tokens : Quantity;
  u_output_tokens : Quantity;
  u_cache_write_tokens : Quantity;
  u_cache_read_tokens : Quantity;
  u_thinking_tokens : Quantity
}.

(** ModelRack: handles, errors with their classes, results. *)
Class Rack := {
  Provider : Type;
  ProviderError : Type;
  error_is : ProviderError -> ProviderErrorClass -> bool;
  is_adapter_not_found : ProviderError -> bool;
  is_profile_mismatch : ProviderError -> bool;
  error_type : ProviderError -> string;
  error_message : ProviderError -> string;
  GenerationResult : Type;
  result_usage : GenerationResult -> Usage;
  result_finish_reason : GenerationResult -> string
}.

(** [RenderedPrompt] of SetSpec. *)
Record RenderedPrompt := mkPrompt {
  pt_system : option string;
  pt_user : string;
  pt_id : string;
  pt_version : string;
  pt_sha256 : string
}.

(** One line of [_problems_text]. *)
Inductive ProblemLine :=
| FieldLine (p : Problem)
| MissingLine (name : string)
| DetailLine (kind : string) (detail : CheckDetail).

(** Text: the problem lines joined, a check's detail as stored, [json.dumps] of a schema, the prompt pack. *)
Class Prompts := {
  render_lines : list ProblemLine -> string;
  detail_json : CheckDetail -> json;
  dumps : json -> string;
  render_corrective_retry : string -> string -> string -> RenderedPrompt    (* problems, schema, previous output *)
}.

Inductive ResponseFormat := FormatJson | FormatSchema (schema : json).

Record SamplingParameters := mkSampling {
  sm_temperature : json;
  sm_max_output_tokens : json;
  sm_top_p : json;
  sm_seed : json;
  sm_think : json
}.

Record StreamChunk := mkChunk { ch_kind : string; ch_payload : list (string * json) }.

Section generation.
Context `{Wire} `{Profiles} `{Rack} `{Prompts}.

(** ** The request *)

Record GenerateRequest := mkGenerate {
  gr_task : string;
  gr_system : option string;
  gr_prompt : option string;
  gr_messages : option (list Message);
  gr_response_format : option string;
  gr_sampling : list (string * json);
  gr_overrides : option (RuntimeOverrides (H := H0));
  gr_tools : list ToolDefinition;
  gr_data_classification : option string;
  gr_source : string;
  gr_idempotency_key : option string;
  gr_stream : bool
}.

(** [GenerateRequest.transcript]. *)
Definition transcript (r : GenerateRequest) : result (list Message) :=
  match gr_messages r with
  | Some turns => Ok turns
  | None =>
      turns ← match gr_system r with
              | Some text => m ← make_message SYSTEM text None []; Ok [m]
              | None => Ok []
              end;
      user ← make_message USER (or_str (gr_prompt r) "") None [];
      Ok (turns ++ [user])
  end.

(** [d.get(k, default)]. *)
Definition get_or (k : string) (l : list (string * json)) (default : json) : json :=
  match assoc k l with Some v => v | None => default end.

Definition jbool_or_null (b : option bool) : json := match b with Some b => JBool b | None => JNull end.

Definition sampling_for (request : GenerateRequest) (execution_policy : TaskProfileExecution) : SamplingParameters :=
  let s := gr_sampling request in
  mkSampling (get_or "temperature" s (JFloat (te_temperature execution_policy)))
    (get_or "max_output_tokens" s (JInt (te_max_output_tokens execution_policy)))
    (get_or "top_p" s JNull) (get_or "seed" s JNull)
    (get_or "think" s (jbool_or_null (te_think execution_policy))).

Definition response_format_of (kind : string) (schema : option json) : option ResponseFormat :=
  match schema with
  | Some s => if bool_decide (kind = "json_schema") then Some (FormatSchema s)
              else if bool_decide (kind = "json") then Some FormatJson else None
  | None => if bool_decide (kind = "json") then Some FormatJson else None
  end.

(** [GenerationRequest] of ModelRack, with the identity triple [_identity_of] rebuilds. *)
Record Call := mkCall {
  ca_identity : string * string * option string;       (* provider kind, model name, digest *)
  ca_adapter : option string;
  ca_messages : list Message;
  ca_runtime_profile : Subject.RuntimeProfile;
  ca_tools : list ToolDefinition;
  ca_sampling : SamplingParameters;
  ca_response_format : option ResponseFormat;
  ca_timeout_seconds : option f64
}.

Definition identity_of (facts : ModelFacts) : string * string * option string :=
  (mf_provider_kind facts, mf_provider_model_name facts, mf_artifact_digest facts).

(** ** The stream *)

Inductive StreamEvent :=
| TokenDelta (text : string)
| ThinkingDelta (text : string)
| ToolCallDelta (call_index : Z) (id name : option string) (arguments_fragment : option string)
| StreamCompleted (result : GenerationResult)
| StreamFailed (error : ProviderError) (partial_text : string)
| OtherEvent.

(** How the iteration of the stream ended: normally, with one of ModelRack's errors, or with another
    exception. *)
Inductive StreamEnd := Finished | ProviderRaised (error : ProviderError) | Raised (e : exn).

(** The reply to one call.  [rp_first_token_ms] is the reading at the first token, [rp_elapsed_ms] the one
    at the end. *)
Record Reply := mkReply {
  rp_events : list StreamEvent;
  rp_end : StreamEnd;
  rp_first_token_ms : Z;
  rp_elapsed_ms : Z
}.

Record Collected := mkCollected {
  co_text : string;
  co_thinking : string;
  co_tool_calls : list (list (string * json));
  co_result : option GenerationResult;
  co_failure : option ProviderError;
  co_ttft_ms : option Z;
  co_provider_ms : Z
}.

Definition new_collected : Collected := mkCollected "" "" [] None None None 0.

Definition fragment_json (call_index : Z) (id name arguments_fragment : option string) : list (string * json) :=
  [("call_index", JInt call_index); ("id", Subject.jstr_opt id); ("name", Subject.jstr_opt name);
   ("arguments_fragment", Subject.jstr_opt arguments_fragment)].

(** One event: the new state, the token and thinking counters, and the chunks handed to the caller. *)
Definition drain_event (first_token_ms : Z) (event : StreamEvent) (st : Collected * Z * Z)
  : Collected * Z * Z * list StreamChunk :=
  let '(c, index, thinking_index) := st in
  match event with
  | TokenDelta text =>
      (mkCollected (co_text c +:+ text) (co_thinking c) (co_tool_calls c) (co_result c) (co_failure c)
         (Some (default first_token_ms (co_ttft_ms c))) (co_provider_ms c), index + 1, thinking_index,
       [mkChunk "token" [("delta", JStr text); ("index", JInt index)]])
  | ThinkingDelta text =>
      let c' := mkCollected (co_text c) (co_thinking c +:+ text) (co_tool_calls c) (co_result c) (co_failure c)
                  (co_ttft_ms c) (co_provider_ms c) in
      if bool_decide (text = "") then (c', index, thinking_index, [])
      else (c', index, thinking_index + 1, [mkChunk "thinking" [("delta", JStr text); ("index", JInt thinking_index)]])
  | ToolCallDelta call_index id name fragment =>
      let entry := fragment_json call_index id name fragment in
      (mkCollected (co_text c) (co_thinking c) (co_tool_calls c ++ [entry]) (co_result c) (co_failure c)
         (co_ttft_ms c) (co_provider_ms c), index, thinking_index, [mkChunk "tool_call" entry])
  | StreamCompleted result =>
      (mkCollected (co_text c) (co_thinking c) (co_tool_calls c) (Some result) (co_failure c) (co_ttft_ms c)
         (co_provider_ms c), index, thinking_index, [])
  | StreamFailed error partial_text =>
      (mkCollected (if bool_decide (partial_text = "") then co_text c else partial_text) (co_thinking c)
         (co_tool_calls c) (co_result c) (Some error) (co_ttft_ms c) (co_provider_ms c), index, thinking_index, [])
  | OtherEvent => (c, index, thinking_index, [])
  end.

Fixpoint drain (first_token_ms : Z) (events : list StreamEvent) (st : Collected * Z * Z) : Collected * list StreamChunk :=
  match events with
  | [] => (st.1.1, [])
  | e :: rest =>
      let '(st', chunks) := drain_event first_token_ms e st in
      let '(c, more) := drain first_token_ms rest st' in (c, chunks ++ more)
  end.

(** [_run_stream], from the reply: what was collected and the chunks sent on, or the exception that is not a
    provider error. *)
Definition run_stream (reply : Reply) : result Collected * list StreamChunk :=
  let '(c, chunks) := drain (rp_first_token_ms reply) (rp_events reply) (new_collected, 0, 0) in
  match rp_end reply with
  | Raised e => (Raise e, chunks)
  | ending =>
      (Ok (mkCollected (co_text c) (co_thinking c) (co_tool_calls c) (co_result c)
             (match ending with ProviderRaised e => Some e | _ => co_failure c end) (co_ttft_ms c) (rp_elapsed_ms reply)),
       chunks)
  end.

(** ** Tool calls *)

(** [assemble_tool_calls]: one call per [call_index], the first id and name that are not empty, the
    fragments joined. *)
Record Assembled := mkAssembled { as_id : json; as_name : json; as_text : string }.

(** The string of [str(x or "")] for a fragment: the fragments this program writes are strings or null. *)
Definition fragment_text (fragment : list (string * json)) : string :=
  match get_or "arguments_fragment" fragment JNull with JStr s => s | _ => "" end.

Definition add_fragment (calls : gmap Z Assembled) (fragment : list (string * json)) : gmap Z Assembled :=
  let index := match get_or "call_index" fragment (JInt 0) with JInt z => z | _ => 0 end in
  let call := default (mkAssembled JNull JNull "") (calls !! index) in
  let id := get_or "id" fragment JNull in
  let name := get_or "name" fragment JNull in
  <[index := mkAssembled (if truthy id && negb (truthy (as_id call)) then id else as_id call)
               (if truthy name && negb (truthy (as_name call)) then name else as_name call)
               (as_text call +:+ fragment_text fragment)]> calls.

Definition parsed_arguments `{TextTools} (text : string) : json :=
  if bool_decide (text = "") then JObj [] else default (JStr text) (json_loads text).

Definition assemble_tool_calls `{TextTools} (fragments : list (list (string * json))) : list json :=
  let grouped : gmap Z Assembled := fold_left add_fragment fragments ∅ in
  map (fun '(index, call) =>
         JObj [("call_index", JInt index); ("id", as_id call); ("name", as_name call);
               ("arguments", parsed_arguments (as_text call))])
    (py_sorted (fun x y : Z * Assembled => x.1 <=? y.1) (map_to_list grouped)).

(** ** Checking and recording *)

Definition validate `{TextTools} (text : string) (policy : TaskProfileValidation) (schema : option json) : result ValidationOutcome :=
  validate_output text (tv_require_valid_json policy) (if tv_require_schema policy then schema else None)
    (tv_required_fields policy) None (Some (tv_max_output_chars policy)).

Definition failure_outcome (error : ProviderError) : string :=
  if error_is error ProviderTimeout then "timeout"
  else if error_is error ContextLimitExceeded then "context_exceeded"
  else "provider_error".

Record AttemptRecord := mkRecord {
  ar_attempt : Z;
  ar_canonical_id : string;
  ar_model_id : string;
  ar_runtime_profile_hash : string;
  ar_rank : Z;
  ar_outcome : string;
  ar_started_at : Z;
  ar_completed_at : Z;
  ar_provider_ms : Z;
  ar_ttft_ms : option Z;
  ar_input_tokens : option Z;
  ar_output_tokens : option Z;
  ar_cache_write_tokens : option Z;
  ar_cache_read_tokens : option Z;
  ar_finish_reason : option string;
  ar_error_code : option string;
  ar_error_text : option string;
  ar_partial_response_hash : option string;
  ar_prompt : option (string * string * string);            (* id, version, sha256 *)
  ar_validation : option ValidationOutcome;
  ar_text : string;
  ar_subject_canonical_id : string;
  ar_adapter_id : option string;
  ar_adapter_name : option string;
  ar_adapter_data_classification : option string;
  ar_effective_data_classification : option string
}.

Definition text_sha256 `{Externals} (text : string) : string := "sha256:" +:+ sha256 text.

Definition record_of `{Externals} `{Classification} (attempt : Z) (candidate : RankedCandidate) (started_at completed_at : Z)
    (collected : Collected) (caller_data_classification : option string) (outcome : string)
    (error : option ProviderError) (validation : option ValidationOutcome) (correction : option RenderedPrompt)
  : AttemptRecord :=
  let subject := rc_subject candidate in
  let tokens f := match co_result collected with Some r => count (f (result_usage r)) | None => None end in
  mkRecord attempt (mf_canonical_id (es_facts subject)) (mf_model_id (es_facts subject)) (runtime_profile_hash subject)
    (rc_rank candidate) outcome started_at completed_at (co_provider_ms collected) (co_ttft_ms collected)
    (tokens u_input_tokens) (tokens u_output_tokens) (tokens u_cache_write_tokens) (tokens u_cache_read_tokens)
    (result_finish_reason <$> co_result collected) (error_type <$> error) (error_message <$> error)
    (if bool_decide (co_text collected = "") then None else Some (text_sha256 (co_text collected)))
    ((fun p => (pt_id p, pt_version p, pt_sha256 p)) <$> correction) validation (co_text collected)
    (subject_canonical_id subject) (af_adapter_id <$> es_adapter subject) (af_name <$> es_adapter subject)
    (af_data_classification <$> es_adapter subject)
    ((fun a => join_classification caller_data_classification (af_data_classification a)) <$> es_adapter subject).

(** [AttemptRecord.as_json]. *)
Definition record_json (r : AttemptRecord) : list (string * json) :=
  [("attempt", JInt (ar_attempt r)); ("model", JStr (ar_canonical_id r));
   ("subject", JStr (if bool_decide (ar_subject_canonical_id r = "") then ar_canonical_id r else ar_subject_canonical_id r));
   ("adapter", Subject.jstr_opt (ar_adapter_name r)); ("runtime_profile_hash", JStr (ar_runtime_profile_hash r));
   ("rank", JInt (ar_rank r)); ("outcome", JStr (ar_outcome r)); ("provider_ms", JInt (ar_provider_ms r));
   ("ttft_ms", jint_opt (ar_ttft_ms r)); ("error_code", Subject.jstr_opt (ar_error_code r));
   ("prompt_id", Subject.jstr_opt (fst ∘ fst <$> ar_prompt r)); ("prompt_version", Subject.jstr_opt (snd ∘ fst <$> ar_prompt r));
   ("prompt_sha256", Subject.jstr_opt (snd <$> ar_prompt r))].

Record AttemptOutcome := mkAttemptOutcome {
  ao_record : AttemptRecord;
  ao_failure : option ProviderError;
  ao_cancelled : bool;
  ao_validation : option ValidationOutcome;
  ao_text : string;
  ao_result : option GenerationResult;
  ao_thinking : string;
  ao_tool_calls : list (list (string * json))
}.

(** [AttemptOutcome.passed]. *)
Definition passed (o : AttemptOutcome) : bool :=
  match ao_failure o with
  | Some _ => false
  | None => match ao_validation o with
            | Some v => negb (bool_decide (vo_passed v = Some false))
            | None => true
            end
  end.

(** ** The corrective turn *)

Definition problem_lines (outcome : ValidationOutcome) : list ProblemLine :=
  concat (map (fun check => match vc_detail check with
                            | SchemaProblems ps => map FieldLine ps
                            | MissingFields names => map MissingLine names
                            | d => [DetailLine (vc_kind check) d]
                            end) (failures outcome)).

Definition problems_text (outcome : ValidationOutcome) : string :=
  match problem_lines outcome with
  | [] => "the output did not satisfy the required format"
  | l => render_lines l
  end.

Definition NO_PREVIOUS_OUTPUT : string := "(the previous attempt returned no output at all)".

(** The caller's turns, followed by the previous answer when there was one and LoadCoach's own prompt. *)
Definition corrective_turns (ASSISTANT : Role) (turns : list Message) (previous_text : string) (outcome : ValidationOutcome)
    (schema : option json) : result (list Message * RenderedPrompt) :=
  let correction := render_corrective_retry (problems_text outcome)
    (match schema with Some s => if truthy s then dumps s else "{}" | None => "{}" end)
    (if bool_decide (previous_text = "") then NO_PREVIOUS_OUTPUT else previous_text) in
  answer ← (if bool_decide (previous_text = "") then Ok [] else m ← make_message ASSISTANT previous_text None []; Ok [m]);
  system ← match pt_system correction with
           | Some s => if bool_decide (s = "") then Ok [] else m ← make_message SYSTEM s None []; Ok [m]
           | None => Ok []
           end;
  user ← make_message USER (pt_user correction) None [];
  Ok (turns ++ answer ++ system ++ [user], correction).

(** [_permanent_refusal]. *)
Definition permanent_refusal (failure : option ProviderError) : option exn :=
  match failure with
  | None => None
  | Some e => if is_adapter_not_found e then Some (AdapterNotFound (error_message e) [])
              else if is_profile_mismatch e then Some ProfileMismatched else None
  end.

(** ** One attempt *)

(** [run_attempt], over the questions it asks: the clock, the provider, and what becomes of the chunks.
    [refusal] is ModelRack's validation of the request it is given. *)
Definition run_attempt `{Externals} `{Classification} `{TextTools} {W : Type} {Q : Type} {Ans : Q -> Type}
    (now : dialogue (W := W) Ans Z) (stream : Provider -> Call -> dialogue (W := W) Ans Reply)
    (emit : list StreamChunk -> dialogue (W := W) Ans unit) (refusal : Call -> option exn)
    (provider : Provider) (request : GenerateRequest) (candidate : RankedCandidate) (turns : list Message)
    (attempt_number : Z) (schema : option json) (execution_policy : TaskProfileExecution)
    (validation_policy : TaskProfileValidation) (timeout_seconds : option f64) (correction : option RenderedPrompt)
  : dialogue (W := W) Ans AttemptOutcome :=
  let subject := rc_subject candidate in
  let base_format := match gr_response_format request with
                     | Some f => if bool_decide (f = "") then te_response_format execution_policy else f
                     | None => te_response_format execution_policy
                     end in
  started_at ← now;
  let call := mkCall (identity_of (es_facts subject)) (af_name <$> es_adapter subject) turns (es_runtime_profile subject)
                (gr_tools request) (sampling_for request execution_policy) (response_format_of base_format schema)
                timeout_seconds in
  match refusal call with
  | Some e => Throw e
  | None =>
      reply ← stream provider call;
      let '(drained, chunks) := run_stream reply in
      _ ← emit chunks;
      collected ← of_result drained;
      match co_failure collected with
      | Some failure =>
          let cancelled := error_is failure GenerationCancelled in
          completed_at ← now;
          mret (mkAttemptOutcome
            (record_of attempt_number candidate started_at completed_at collected (gr_data_classification request)
               (if cancelled then "cancelled" else failure_outcome failure) (Some failure) None correction)
            (Some failure) cancelled None (co_text collected) None (co_thinking collected) (co_tool_calls collected))
      | None =>
          validation ← of_result (validate (co_text collected) validation_policy schema);
          completed_at ← now;
          mret (mkAttemptOutcome
            (record_of attempt_number candidate started_at completed_at collected (gr_data_classification request)
               (if bool_decide (vo_passed validation = Some false) then "validation_failed" else "completed") None
               (Some validation) correction)
            None false (Some validation) (co_text collected) (co_result collected) (co_thinking collected)
            (co_tool_calls collected))
      end
  end.
End generation.

(** ** Lemmas: the stream *)

Section streams.
Context `{Rack}.

(** The texts of one kind of event, in order. *)
Definition token_texts (l : list StreamEvent) : list string := omap (fun e => match e with TokenDelta t => Some t | _ => None end) l.
Definition thinking_texts (l : list StreamEvent) : list string :=
  omap (fun e => match e with ThinkingDelta t => if bool_decide (t = "") then None else Some t | _ => None end) l.
Definition fragments (l : list StreamEvent) : list (list (string * json)) :=
  omap (fun e => match e with ToolCallDelta i d n f => Some (fragment_json i d n f) | _ => None end) l.

(** The stream reports a failure with the text it replaces the deltas by. *)
Definition replaces_text (e : StreamEvent) : bool :=
  match e with StreamFailed _ t => negb (bool_decide (t = "")) | _ => false end.

Definition concat_text (l : list string) : string := String.concat "" l.

(** The frames of a kind, numbered from [n]. *)
Fixpoint numbered (kind : string) (n : Z) (texts : list string) : list StreamChunk :=
  match texts with
  | [] => []
  | t :: rest => mkChunk kind [("delta", JStr t); ("index", JInt n)] :: numbered kind (n + 1) rest
  end.

Definition of_kind (kind : string) (l : list StreamChunk) : list StreamChunk :=
  List.filter (fun c => bool_decide (ch_kind c = kind)) l.

Lemma append_assoc (a b c : string) : (a +:+ b) +:+ c = a +:+ (b +:+ c).
Proof. induction a as [|x a IH]; [done|]. cbn. unfold String.app in *. by rewrite IH. Qed.

Lemma append_empty (a : string) : a +:+ "" = a.
Proof. induction a as [|x a IH]; [done|]. cbn. unfold String.app in *. by rewrite IH. Qed.

Lemma concat_text_cons t l : concat_text (t :: l) = t +:+ concat_text l.
Proof. unfold concat_text. destruct l; cbn; [by rewrite append_empty|done]. Qed.

Lemma of_kind_app k a b : of_kind k (a ++ b) = of_kind k a ++ of_kind k b.
Proof. apply List.filter_app. Qed.

Lemma drain_spec first events c i k c' chunks :
  drain first events (c, i, k) = (c', chunks) ->
  of_kind "token" chunks = numbered "token" i (token_texts events) /\
  of_kind "thinking" chunks = numbered "thinking" k (thinking_texts events) /\
  of_kind "tool_call" chunks = map (mkChunk "tool_call") (fragments events) /\
  co_tool_calls c' = co_tool_calls c ++ fragments events /\
  co_thinking c' = co_thinking c +:+ concat_text (thinking_texts events) /\
  (existsb replaces_text events = false -> co_text c' = co_text c +:+ concat_text (token_texts events)) /\
  co_ttft_ms c' = match co_ttft_ms c with Some t => Some t | None => if bool_decide (token_texts events = []) then None else Some first end.
Proof.
  revert c i k c' chunks. induction events as [|e rest IH]; intros c i k c' chunks; cbn [drain].
  { intros [= <- <-]. cbn. rewrite !append_empty, app_nil_r. repeat split; try done. by destruct (co_ttft_ms c). }
  destruct (drain_event first e (c, i, k)) as [[[c1 i1] k1] ch] eqn:E.
  destruct (drain first rest (c1, i1, k1)) as [c2 more] eqn:D. intros [= <- <-].
  destruct (IH _ _ _ _ _ D) as (H1 & H2 & H3 & H4 & H5 & H6 & H7). rewrite !of_kind_app, H1, H2, H3, H4, H5, H7.
  destruct e as [t|t|ci id n fr|r|er t|]; cbn [drain_event] in E.
  - injection E as <- <- <- <-. change (token_texts (TokenDelta t :: rest)) with (t :: token_texts rest).
    change (thinking_texts (TokenDelta t :: rest)) with (thinking_texts rest).
    change (fragments (TokenDelta t :: rest)) with (fragments rest).
    rewrite concat_text_cons, <- append_assoc. split_and!; try done. by destruct (co_ttft_ms c).
  - change (token_texts (ThinkingDelta t :: rest)) with (token_texts rest).
    change (fragments (ThinkingDelta t :: rest)) with (fragments rest).
    assert (Ht : thinking_texts (ThinkingDelta t :: rest)
                 = if bool_decide (t = "") then thinking_texts rest else t :: thinking_texts rest).
    { unfold thinking_texts. cbn. by destruct (bool_decide (t = "")). }
    rewrite Ht. case_bool_decide; injection E as <- <- <- <-; cbn [co_thinking co_tool_calls co_ttft_ms].
    + subst t. rewrite append_empty. by split_and!.
    + rewrite concat_text_cons, append_assoc. by split_and!.
  - injection E as <- <- <- <-. change (token_texts (ToolCallDelta ci id n fr :: rest)) with (token_texts rest).
    change (thinking_texts (ToolCallDelta ci id n fr :: rest)) with (thinking_texts rest).
    change (fragments (ToolCallDelta ci id n fr :: rest)) with (fragment_json ci id n fr :: fragments rest).
    cbn [co_tool_calls]. rewrite <- app_assoc. by split_and!.
  - injection E as <- <- <- <-. by split_and!.
  - injection E as <- <- <- <-. split_and!; try done. cbn [existsb replaces_text]. intros Hr.
    apply orb_false_iff in Hr as [Ht Hr]. apply negb_false_iff in Ht. rewrite (H6 Hr). cbn [co_text]. by rewrite Ht.
  - injection E as <- <- <- <-. by split_and!.
Qed.
End streams.

(** ** Lemmas: tool calls *)

Definition index_of (fragment : list (string * json)) : Z := match get_or "call_index" fragment (JInt 0) with JInt z => z | _ => 0 end.

(** The first value of a key that is not empty. *)
Definition first_stated (key : string) (l : list (list (string * json))) : json :=
  default JNull (list_find (fun f => truthy (get_or key f JNull) = true) l ≫= fun nf => Some (get_or key nf.2 JNull)).

Definition fragments_at (index : Z) (l : list (list (string * json))) : list (list (string * json)) :=
  List.filter (fun f => index_of f =? index) l.

Lemma first_stated_snoc key l f :
  first_stated key (l ++ [f]) =
  if truthy (get_or key f JNull) && negb (truthy (first_stated key l)) then get_or key f JNull
  else first_stated key l.
Proof.
  induction l as [|g l IH]; unfold first_stated in *; cbn.
  - destruct (decide (truthy (get_or key f JNull) = true)) as [E|E]; cbn.
    + by rewrite E.
    + apply not_true_is_false in E. by rewrite E.
  - destruct (decide (truthy (get_or key g JNull) = true)) as [E|E]; cbn.
    + rewrite E. cbn. by rewrite andb_false_r.
    + destruct (list_find _ (l ++ [f])) as [[? ?]|], (list_find _ l) as [[? ?]|]; cbn in *; exact IH.
Qed.

Definition assembled_at (l : list (list (string * json))) : Assembled :=
  mkAssembled (first_stated "id" l) (first_stated "name" l) (concat_text (map fragment_text l)).

Lemma concat_text_snoc l t : concat_text (l ++ [t]) = concat_text l +:+ t.
Proof.
  induction l as [|x l IH]; [done|].
  change ((x :: l) ++ [t]) with (x :: (l ++ [t])). rewrite !concat_text_cons, IH, append_assoc. done.
Qed.

Lemma add_fragment_eq calls f :
  add_fragment calls f =
  let x := default (mkAssembled JNull JNull "") (calls !! index_of f) in
  <[index_of f := mkAssembled
      (if truthy (get_or "id" f JNull) && negb (truthy (as_id x)) then get_or "id" f JNull else as_id x)
      (if truthy (get_or "name" f JNull) && negb (truthy (as_name x)) then get_or "name" f JNull else as_name x)
      (as_text x +:+ fragment_text f)]> calls.
Proof. reflexivity. Qed.

Lemma add_fragments_lookup l index :
  (fold_left add_fragment l (∅ : gmap Z Assembled)) !! index =
  match fragments_at index l with [] => None | fs => Some (assembled_at fs) end.
Proof.
  induction l as [|f l IH] using rev_ind; [done|]. rewrite fold_left_app. cbn [fold_left].
  unfold fragments_at in *. rewrite List.filter_app. cbn [List.filter]. rewrite add_fragment_eq. cbv zeta.
  destruct (index_of f =? index) eqn:E; bool_to_prop.
  - subst index. rewrite lookup_insert_eq.
    set (fs := List.filter _ l) in *. rewrite IH.
    assert (Hsnoc : forall x : Assembled, x = assembled_at fs ->
      mkAssembled
        (if truthy (get_or "id" f JNull) && negb (truthy (as_id x)) then get_or "id" f JNull else as_id x)
        (if truthy (get_or "name" f JNull) && negb (truthy (as_name x)) then get_or "name" f JNull else as_name x)
        (as_text x +:+ fragment_text f) = assembled_at (fs ++ [f])).
    { intros x ->. unfold assembled_at. rewrite !first_stated_snoc, map_app. cbn [map]. by rewrite concat_text_snoc. }
    destruct fs as [|g gs] eqn:Ef; cbn [default app].
    + f_equal. by apply (Hsnoc (mkAssembled JNull JNull "")).
    + f_equal. by apply Hsnoc.
  - rewrite lookup_insert_ne by congruence. by rewrite app_nil_r.
Qed.

Lemma sorted_map {A B} (R : A -> A -> Prop) (S : B -> B -> Prop) (f : A -> B) l :
  (forall x y, R x y -> S (f x) (f y)) -> StronglySorted R l -> StronglySorted S (map f l).
Proof.
  intros HRS. induction 1 as [|x l _ IH Hx]; cbn; [constructor|]. constructor; [done|].
  clear IH. induction Hx; cbn; constructor; auto.
Qed.

(** The corrective transcript continues the caller's. *)
Lemma corrective_turns_prefix `{Wire} `{Prompts} ASSISTANT turns previous outcome schema turns' correction :
  corrective_turns ASSISTANT turns previous outcome schema = Ok (turns', correction) -> exists rest, turns' = turns ++ rest.
Proof.
  unfold corrective_turns. intros E. apply bind_Ok_inv in E as (a & _ & E). apply bind_Ok_inv in E as (b & _ & E).
  apply bind_Ok_inv in E as (u & _ & E). injection E as <- _. by eexists.
Qed.

Module Properties.

(** What a caller receives of a stream reassembles what the provider sent: the token frames carry the
    text deltas in order under the indices 0, 1, 2, ..., the thinking frames the non-empty reasoning deltas under
    indices of their own, the tool-call frames every fragment; and what is recorded agrees, the text being
    the tokens joined unless the provider's own failure supplied a partial text to keep instead. *)
Theorem stream_reassembles `{Rack} (reply : Reply) (c : Collected) (chunks : list StreamChunk) :
  run_stream reply = (Ok c, chunks) ->
  of_kind "token" chunks = numbered "token" 0 (token_texts (rp_events reply)) /\
  of_kind "thinking" chunks = numbered "thinking" 0 (thinking_texts (rp_events reply)) /\
  of_kind "tool_call" chunks = map (mkChunk "tool_call") (co_tool_calls c) /\
  co_tool_calls c = fragments (rp_events reply) /\
  co_thinking c = concat_text (thinking_texts (rp_events reply)) /\
  (existsb replaces_text (rp_events reply) = false -> co_text c = concat_text (token_texts (rp_events reply))) /\
  (co_ttft_ms c = None <-> token_texts (rp_events reply) = []) /\
  (co_failure c = None -> rp_end reply = Finished).
Proof.
  unfold run_stream. destruct (drain _ _ _) as [c0 ch] eqn:D.
  destruct (drain_spec _ _ _ _ _ _ _ D) as (H1 & H2 & H3 & H4 & H5 & H6 & H7). cbn in H4, H5, H6, H7.
  assert (Ht : co_ttft_ms c0 = None <-> token_texts (rp_events reply) = []).
  { rewrite H7. case_bool_decide; naive_solver. }
  destruct (rp_end reply); intros [= <- <-]; cbn; rewrite H4; by split_and!.
Qed.

Lemma stream_reassembles_witness :
  exists (R : Rack) (reply : @Reply R) c chunks, run_stream reply = (Ok c, chunks) /\ co_text c = "ab" /\
    of_kind "token" chunks = numbered "token" 0 ["a"; "b"].
Proof.
  pose (R := {| Provider := unit; ProviderError := unit; error_is _ _ := false; is_adapter_not_found _ := false;
    is_profile_mismatch _ := false; error_type _ := ""; error_message _ := ""; GenerationResult := unit;
    result_usage _ := mkUsage Unsupported Unsupported Unsupported Unsupported Unsupported; result_finish_reason _ := "stop" |} : Rack).
  pose (reply := mkReply [TokenDelta "a"; ThinkingDelta "hm"; TokenDelta "b"; StreamCompleted tt] Finished 1 2 : @Reply R).
  exists R, reply. destruct (run_stream reply) as [[c|e] chunks] eqn:E; [|discriminate]. exists c, chunks.
  destruct (stream_reassembles reply c chunks E) as (H1 & _ & _ & _ & _ & H6 & _). split; [done|]. split; [by apply H6|exact H1].
Defined.

(** Fragments are grouped by [call_index] and by nothing else: there is one call for each index some
    fragment carries, in ascending order of the index; its id and its name are the first that are not empty
    among the fragments of that index, wherever they come, and its arguments are parsed from those
    fragments' texts joined in order of arrival. *)
Theorem tool_calls_assembled `{TextTools} (l : list (list (string * json))) :
  let indices := py_sorted (fun x y : Z => x <=? y) (elements (list_to_set (map index_of l) : gset Z)) in
  assemble_tool_calls l =
  map (fun index =>
         let call := assembled_at (fragments_at index l) in
         JObj [("call_index", JInt index); ("id", as_id call); ("name", as_name call);
               ("arguments", parsed_arguments (as_text call))]) indices.
Proof.
  cbv zeta. unfold assemble_tool_calls. set (m := fold_left add_fragment l ∅).
  assert (Hm : forall index, m !! index = match fragments_at index l with [] => None | fs => Some (assembled_at fs) end)
    by apply add_fragments_lookup.
  assert (Hdom : forall index, is_Some (m !! index) <-> index ∈ map index_of l).
  { intros index. rewrite Hm. split.
    - intros Hs. destruct (fragments_at index l) as [|f fs] eqn:E; [by destruct Hs|].
      assert (Hin : f ∈ fragments_at index l) by (rewrite E; left). unfold fragments_at in Hin.
      apply list_elem_of_In, List.filter_In in Hin as [Hin Hi]. bool_to_prop. subst index.
      apply list_elem_of_In. by apply in_map.
    - intros Hin. apply list_elem_of_In, in_map_iff in Hin as (f & Hf & Hin).
      assert (Hin' : f ∈ fragments_at index l).
      { apply list_elem_of_In, List.filter_In. split; [done|]. by apply Z.eqb_eq. }
      destruct (fragments_at index l); [by apply not_elem_of_nil in Hin'|by eexists]. }
  set (pairs := py_sorted _ (map_to_list m)). set (indices := py_sorted _ (elements _)).
  assert (Hfst : map fst pairs = indices).
  { apply (StronglySorted_unique Z.le).
    - apply sorted_map with (R := fun x y : Z * Assembled => (x.1 <=? y.1) = true); [intros x y; apply Z.leb_le|].
      apply py_sorted_Sorted; intros; rewrite ?Z.leb_le in *; lia.
    - rewrite <- (map_id indices). apply sorted_map with (R := fun x y : Z => (x <=? y) = true); [intros x y; apply Z.leb_le|].
      apply py_sorted_Sorted; intros; rewrite ?Z.leb_le in *; lia.
    - unfold pairs, indices. rewrite !py_sorted_perm. apply NoDup_Permutation.
      + apply NoDup_fst_map_to_list.
      + apply NoDup_elements.
      + intros x. rewrite elem_of_elements, elem_of_list_to_set, <- Hdom. split.
        * intros Hx. apply list_elem_of_fmap in Hx as ([k a] & -> & Hx). apply elem_of_map_to_list in Hx. by eexists.
        * intros [a Ha]. apply list_elem_of_fmap. exists (x, a). split; [done|]. by apply elem_of_map_to_list. }
  rewrite <- Hfst, map_map. apply map_ext_in. intros [index call] Hin. cbn [fst].
  assert (Hcall : m !! index = Some call).
  { apply elem_of_map_to_list. apply (elem_of_py_sorted (fun x y : Z * Assembled => x.1 <=? y.1)).
    by apply list_elem_of_In. }
  rewrite Hm in Hcall. destruct (fragments_at index l); [done|]. by injection Hcall as <-.
Qed.
End Properties.
