(* ===== verification/Execution.v ===== *)
(** * Synchronous execution ([services/execution.py])

    The loop over the ranked candidates behind POST /generate, the rows it leaves, and [execute]: route,
    execute, validate, record.  The execution runs beside every other actor on the job table; routing, the
    clock, the provider, the breaker registry, residency and the refresh of the statistics are questions.
    The process has an event sink and the
    job was reserved; the variants of one-shot processes without either are left out. *)

From Stdlib Require Import Ascii String.
From S2P Require Import Prelude PyFloat PyStr Json Telemetry QueueState Authorization ContextBudget JobEvents Submission RetryPolicy Subject Scoring Constraints Ranking TaskProfile Explanation Routing QueueStore Queue QueueTheory Recovery QueueSystem Validation Dialogue Generation.
#[local] Open Scope string_scope.
#[local] Open Scope list_scope.
#[local] Open Scope Z_scope.

(** ** Errors *)

(** [SuiteError.code], [None] for an exception that is not one. *)
Definition exn_code (e : exn) : option string :=
  match e with
  | ValidationError _ | ValidationErrors _ => Some "VALIDATION_ERROR"
  | IllegalTransition _ _ => Some "ILLEGAL_TRANSITION"
  | TransitionRefused _ _ _ => Some "TRANSITION_REFUSED"
  | AttemptRefused _ _ => Some "ATTEMPT_REFUSED"
  | AllCandidatesFailed _ => Some "ALL_CANDIDATES_FAILED"
  | ProfileMismatched => Some "PROFILE_MISMATCH"
  | AdapterNotFound _ _ => Some "ADAPTER_NOT_FOUND"
  | NoEligibleModel _ _ => Some "NO_ELIGIBLE_MODEL"
  | TaskProfileNotFound _ => Some "TASK_PROFILE_NOT_FOUND"
  | InsufficientScope _ _ => Some "INSUFFICIENT_SCOPE"
  | JobNotFound _ => Some "JOB_NOT_FOUND"
  | JobNotCancellable _ _ => Some "JOB_NOT_CANCELLABLE"
  | QueueFull _ _ => Some "QUEUE_FULL"
  | TaskProfileInvalid _ _ => Some "TASK_PROFILE_INVALID"
  | ManualScoreInvalid _ _ => Some "MANUAL_SCORE_INVALID"
  | ConstraintsNotTightening _ => Some "VALIDATION_ERROR"
  | EvidenceImportFailed _ => Some "EVIDENCE_IMPORT_FAILED"
  | EvidenceSchemaVersionUnsupported _ => Some "SCHEMA_VERSION_UNSUPPORTED"
  | OtherException code => code
  | _ => None
  end.

Definition is_validation_error (e : exn) : bool :=
  match e with ValidationError _ | ValidationErrors _ => true | _ => false end.

(** The text and details an exception of another module carries. *)
Class ErrorText := {
  message_of : exn -> string;
  details_of : exn -> list (string * json)
}.

(** An error as [_persist] and [_fail_reserved] read it. *)
Record Failure := mkFailure { fl_error : exn; fl_message : string; fl_details : list (string * json) }.

Definition failure_of `{ErrorText} (e : exn) : Failure := mkFailure e (message_of e) (details_of e).

(** ** The tables of an execution *)

(** One [validations] row and one [job_attempts] row. *)
Record ValidationRow := mkValidationRow { vr_kind : string; vr_passed : bool; vr_detail : CheckDetail; vr_created_at : Z }.

Record AttemptRow := mkAttemptRow {
  at_job_id : string;
  at_attempt : Z;
  at_record : AttemptRecord;
  at_validations : list ValidationRow
}.

(** The queue's world, the attempts, and the job each routing decision is linked to. *)
Record Store := mkStore {
  s_world : QueueStore.World;
  s_attempts : list AttemptRow;
  s_decisions : gmap string (option string)
}.

(** What a transaction over all of them sees. *)
Record STx := mkSTx { x_tx : Tx; x_attempts : list AttemptRow; x_decisions : gmap string (option string) }.

(** A statement on the queue's tables. *)
Definition on_queue {A} (body : prog Tx A) : prog STx A :=
  fun t => let '(x, r) := body (x_tx t) in (mkSTx x (x_attempts t) (x_decisions t), r).

Definition store_write {A} (body : prog STx A) : prog Store A :=
  fun s =>
    let w := s_world s in
    let '(t, r) := body (mkSTx (mkTx (jobs w) (begin_write (ev w))) (s_attempts s) (s_decisions s)) in
    match r with
    | Ok a => (mkStore (with_ev (commit_write (t_writer (x_tx t)) (ev w)) (with_jobs (t_jobs (x_tx t)) w))
                 (x_attempts t) (x_decisions t), Ok a)
    | Raise e => (mkStore (with_ev (rollback_write (t_writer (x_tx t)) (ev w)) w) (s_attempts s) (s_decisions s), Raise e)
    end.

Definition link_decision (decision_id job_id : string) : prog STx unit :=
  fun t => (mkSTx (x_tx t) (x_attempts t)
              (match x_decisions t !! decision_id with
               | Some _ => <[decision_id := Some job_id]> (x_decisions t)
               | None => x_decisions t
               end), Ok tt).

Definition validation_rows (record : AttemptRecord) (now : Z) : list ValidationRow :=
  match ar_validation record with
  | Some v => map (fun c => mkValidationRow (vc_kind c) (vc_passed c) (vc_detail c) now) (vo_checks v)
  | None => []
  end.

(** [UNIQUE (job_id, attempt)]. *)
Definition holds_attempt (job_id : string) (number : Z) (r : AttemptRow) : bool :=
  bool_decide (at_job_id r = job_id) && (at_attempt r =? number).

(** [UPDATE jobs SET attempt = attempt + 1 ... RETURNING attempt], fenced on the owner when one is given, and
    the rows of the attempt. *)
Definition write_attempt (job_id : string) (record : AttemptRecord) (now : Z) (owner : option string) : prog STx Z :=
  t ← get;
  match t_jobs (x_tx t) !! job_id with
  | Some j =>
      if match owner with Some o => bool_decide (j_lease_owner j = Some o) | None => true end then
        let number := j_attempt j + 1 in
        _ ← on_queue (put_jobs (<[job_id := assign (SetAttempt number) j]> (t_jobs (x_tx t))));
        if negb (number =? ar_attempt record) then raise (AttemptRefused job_id (ar_attempt record))
        else if existsb (holds_attempt job_id number) (x_attempts t) then raise IntegrityError
        else fun t' => (mkSTx (x_tx t') (x_attempts t' ++ [mkAttemptRow job_id number record (validation_rows record now)])
                          (x_decisions t'), Ok number)
      else raise (AttemptRefused job_id (ar_attempt record))
  | None => raise (AttemptRefused job_id (ar_attempt record))
  end.

Section execution.
Context `{Externals} `{Wire} `{Profiles} `{Classification} `{Rack} `{Prompts} `{TextTools} `{ErrorText}.
(** ModelRack's assistant role, its validation of a request, and the payload of an explanation. *)
Context (ASSISTANT : Role) (refusal : Call -> option exn) (payload_of : Explanation.Explanation -> list (string * json)).

(** ** Questions *)

Inductive Question :=
| Now
| PerfMs
| CallProvider (provider : Provider) (call : Call)
| AllowProbe (subject : string) (now : Z)
| ProbeBusy (subject : string)
| ReleaseProbe (subject : string)
| MakeResident (candidate : RankedCandidate)
| Route (request : RouteRequest)
| LoadSchema (schema_ref : option string)
| SupportsStreaming
| RefreshReliability (models : list string).

(** [Route] answers with the explanation and the stored profile. *)
Definition Answer (q : Question) : Type :=
  match q with
  | Now | PerfMs => Z
  | CallProvider _ _ => Reply
  | AllowProbe _ _ | ProbeBusy _ | SupportsStreaming => bool
  | ReleaseProbe _ | MakeResident _ | RefreshReliability _ => unit
  | Route _ => result (Explanation.Explanation * Routing.StoredTaskProfile)
  | LoadSchema _ => result (option json)
  end.

#[local] Abbreviation session := (dialogue (W := Store) Answer).

Definition put (q : Question) : session (Answer q) := ask q.

(** ** The loop *)

(** The chunks are the caller's; nothing of the store depends on them. *)
Definition attempt_now : session Z := put Now.
Definition call_provider (p : Provider) (c : Call) : session Reply := put (CallProvider p c).
Definition no_emit (_ : list StreamChunk) : session unit := mret tt.

(** The five values [_execute_attempts] returns. *)
Record Attempts := mkAttempts {
  ats_records : list AttemptRecord;
  ats_selected : option RankedCandidate;
  ats_collected : option Collected;
  ats_validation : ValidationOutcome;
  ats_refusal : option exn
}.

Record LoopState := mkLoop { lp_records : list AttemptRecord; lp_validation : ValidationOutcome; lp_number : Z }.

Definition collected_of (o : AttemptOutcome) : Collected :=
  mkCollected (ao_text o) (ao_thinking o) (ao_tool_calls o) (ao_result o) (ao_failure o) (ar_ttft_ms (ao_record o))
    (ar_provider_ms (ao_record o)).

(** [try: p except ValidationError as refusal]. *)
Definition refusable {A} (p : session A) : session (exn + A) :=
  catch (a ← p; mret (inr a)) (fun e => if is_validation_error e then mret (inl e) else Throw e).

Section loop.
Context (provider : Provider) (request : GenerateRequest) (transcript : list Message) (schema : option json)
  (execution_policy : TaskProfileExecution) (validation_policy : TaskProfileValidation) (timeout_seconds : option f64)
  (has_breakers : bool) (candidate_count : Z).

(** [for _ in range(max_attempts)] on one candidate; [inl] is a return of the whole loop. *)
Fixpoint tries (n : nat) (candidate : RankedCandidate) (holds_probe : bool) (turns : list Message)
    (correction : option RenderedPrompt) (st : LoopState) : session (Attempts + LoopState) :=
  match n with
  | O => mret (inr st)
  | S n' =>
      let number := lp_number st + 1 in
      let st1 := mkLoop (lp_records st) (lp_validation st) number in
      made ← refusable (run_attempt attempt_now call_provider no_emit refusal provider request candidate turns number
                          schema execution_policy validation_policy timeout_seconds correction);
      match made with
      | inl e => mret (inl (mkAttempts (lp_records st1) None None (lp_validation st1) (Some e)))
      | inr outcome =>
          let records := lp_records st1 ++ [ao_record outcome] in
          match permanent_refusal (ao_failure outcome) with
          | Some e => mret (inl (mkAttempts records None None (lp_validation st1) (Some e)))
          | None =>
              let collected := collected_of outcome in
              match ao_failure outcome with
              | Some _ =>
                  if ao_cancelled outcome then
                    _ ← (if holds_probe && has_breakers then put (ReleaseProbe (subject_canonical_id (rc_subject candidate))) else mret tt);
                    mret (inl (mkAttempts records (Some candidate) (Some collected) (lp_validation st1) None))
                  else mret (inr (mkLoop records (lp_validation st1) number))
              | None =>
                  match ao_validation outcome with
                  | None => Throw AssertionError
                  | Some validation =>
                      if passed outcome then mret (inl (mkAttempts records (Some candidate) (Some collected) validation None))
                      else if te_max_attempts execution_policy * candidate_count <=? number
                      then mret (inr (mkLoop records validation number))
                      else
                        next ← refusable (of_result (corrective_turns ASSISTANT transcript (ao_text outcome) validation schema));
                        match next with
                        | inl e => mret (inl (mkAttempts records None None validation (Some e)))
                        | inr (turns', correction') =>
                            tries n' candidate holds_probe turns' (Some correction') (mkLoop records validation number)
                        end
                  end
              end
          end
      end
  end.

(** The candidate's probe, asked for before its first attempt: whether it is held, and whether the candidate
    is skipped because another probe is out. *)
Definition probe (candidate : RankedCandidate) : session (bool * bool) :=
  if has_breakers then
    now ← put Now;
    holds ← put (AllowProbe (subject_canonical_id (rc_subject candidate)) now);
    if holds : bool then mret (true, false)
    else busy ← put (ProbeBusy (subject_canonical_id (rc_subject candidate))); mret (false, busy : bool)
  else mret (false, false).

Fixpoint over_candidates (candidates : list (option RankedCandidate)) (st : LoopState) : session Attempts :=
  match candidates with
  | [] => mret (mkAttempts (lp_records st) None None (lp_validation st) None)
  | None :: rest => over_candidates rest st
  | Some candidate :: rest =>
      _ ← put (MakeResident candidate);
      pr ← probe candidate;
      if (snd pr : bool) then over_candidates rest st
      else
        r ← tries (Z.to_nat (te_max_attempts execution_policy)) candidate (fst pr) transcript None st;
        match r with inl a => mret a | inr st' => over_candidates rest st' end
  end.
End loop.

Definition nothing_validated : ValidationOutcome := mkOutcome false None [] JNull.

Definition execute_attempts (provider : Provider) (request : GenerateRequest) (ranking : Ranking) (schema : option json)
    (execution_policy : TaskProfileExecution) (validation_policy : TaskProfileValidation) (timeout_seconds : option f64)
    (has_breakers : bool) : session Attempts :=
  turns ← of_result (Generation.transcript request);
  let candidates := primary ranking :: map Some (fallbacks ranking) in
  over_candidates provider request turns schema execution_policy validation_policy timeout_seconds has_breakers
    (Z.of_nat (length candidates)) candidates (mkLoop [] nothing_validated 0).

(** ** What a completed execution reports *)

Record ExecutionOutcome := mkExecution {
  eo_job_id : string;
  eo_text : string;
  eo_structured : json;
  eo_tool_calls : list (list (string * json));
  eo_thinking : option string;
  eo_decision_id : string;
  eo_flags : list string;
  eo_selected : RankedCandidate;
  eo_attempts : list AttemptRecord;
  eo_validation : ValidationOutcome;
  eo_degradations : list string;
  eo_total_ms : Z;
  eo_provider_ms : Z;
  eo_overhead_ms : Z;
  eo_ttft_ms : option Z;
  eo_usage : Usage;
  eo_queue_wait_ms : Z;
  eo_finish_reason : string
}.

(** An absent measurement is the text, never null and never zero. *)
Definition supported_count (q : Quantity) : json := match count q with Some z => JInt z | None => JStr "unsupported" end.

Definition adapter_json (a : AdapterFacts) : json :=
  JObj [("name", JStr (af_name a)); ("artifact_digest", JStr (af_artifact_digest a));
        ("base_confidence", JStr (af_base_confidence a)); ("data_classification", JStr (af_data_classification a));
        ("declared_capabilities", JArr (map JStr (af_declared_capabilities a)))].

Definition check_json (c : ValidationCheck) : json :=
  JObj [("kind", JStr (vc_kind c)); ("passed", JBool (vc_passed c)); ("detail", detail_json (vc_detail c))].

(** [ExecutionOutcome.as_json]. *)
Definition outcome_json (o : ExecutionOutcome) : list (string * json) :=
  let subject := rc_subject (eo_selected o) in
  let facts := es_facts subject in
  [("job_id", JStr (eo_job_id o)); ("status", JStr "completed");
   ("output", JObj [("text", JStr (eo_text o)); ("finish_reason", JStr (eo_finish_reason o)); ("structured", eo_structured o);
                    ("tool_calls", JArr (map JObj (eo_tool_calls o)));
                    ("tool_calls_assembled", JArr (assemble_tool_calls (eo_tool_calls o)))]);
   ("reasoning", JObj [("available", JBool (bool_decide (is_Some (eo_thinking o)))); ("summary", Subject.jstr_opt (eo_thinking o));
                       ("source", match eo_thinking o with Some _ => JStr "provider" | None => JNull end)]);
   ("model", JObj [("canonical_id", JStr (mf_canonical_id facts)); ("subject_canonical_id", JStr (subject_canonical_id subject));
                   ("provider_name", if bool_decide (mf_provider_name facts = "") then JNull else JStr (mf_provider_name facts));
                   ("is_remote", JBool (mf_is_remote facts));
                   ("adapter", match es_adapter subject with Some a => adapter_json a | None => JNull end);
                   ("model_ref", JStr (mf_model_id facts)); ("runtime_profile_hash", JStr (runtime_profile_hash subject));
                   ("served_context", JInt (sc_tokens (es_served_context subject)));
                   ("served_context_source", JStr (sc_source (es_served_context subject)));
                   ("target_gpu_index", jint_opt (rc_target_gpu_index (eo_selected o)))]);
   ("routing", JObj [("decision_id", JStr (eo_decision_id o)); ("rank", JInt (rc_rank (eo_selected o)));
                     ("final_score", JFloat (final_score (eo_selected o))); ("flags", JArr (map JStr (eo_flags o)));
                     ("explanation_url", JStr ("/api/v1/jobs/" +:+ eo_job_id o +:+ "/explanation"))]);
   ("usage", JObj [("input_tokens", supported_count (u_input_tokens (eo_usage o)));
                   ("output_tokens", supported_count (u_output_tokens (eo_usage o)));
                   ("cache_write_tokens", supported_count (u_cache_write_tokens (eo_usage o)));
                   ("cache_read_tokens", supported_count (u_cache_read_tokens (eo_usage o)));
                   ("thinking_tokens", supported_count (u_thinking_tokens (eo_usage o)))]);
   ("timing", JObj [("total_ms", JInt (eo_total_ms o)); ("provider_ms", JInt (eo_provider_ms o));
                    ("loadcoach_overhead_ms", JInt (eo_overhead_ms o)); ("ttft_ms", jint_opt (eo_ttft_ms o));
                    ("queue_wait_ms", JInt (eo_queue_wait_ms o))]);
   ("validation", JObj [("performed", JBool (vo_performed (eo_validation o))); ("passed", jbool_or_null (vo_passed (eo_validation o)));
                        ("attempts", JInt (Z.of_nat (length (eo_attempts o)))); ("checks", JArr (map check_json (vo_checks (eo_validation o))))]);
   ("attempts", JArr (map (fun r => JObj (record_json r)) (eo_attempts o))); ("degradations", JArr (map JStr (eo_degradations o)))].

(** The columns [_persist] and [_complete] fill from the outcome, by column. *)
Definition result_columns (o : ExecutionOutcome) : list Assign :=
  let other c v := SetOther c v in
  let tokens f := jint_opt (count (f (eo_usage o))) in
  let subject := rc_subject (eo_selected o) in
  [other "response_hash" (JStr (text_sha256 (eo_text o))); other "response_text" (JStr (eo_text o));
   other "structured_output_json" (eo_structured o); other "tool_calls_json" (JArr (map JObj (eo_tool_calls o)));
   other "reasoning_available" (JBool (bool_decide (is_Some (eo_thinking o))));
   other "reasoning_summary" (Subject.jstr_opt (eo_thinking o));
   other "reasoning_source" (match eo_thinking o with Some _ => JStr "provider" | None => JNull end);
   SetSelectedModelId (Some (mf_model_id (es_facts subject))); other "runtime_profile_hash" (JStr (runtime_profile_hash subject));
   other "served_context" (JInt (sc_tokens (es_served_context subject)));
   other "served_context_source" (JStr (sc_source (es_served_context subject)));
   SetTargetGpuIndex (rc_target_gpu_index (eo_selected o)); other "provider_ms" (JInt (eo_provider_ms o));
   other "loadcoach_overhead_ms" (JInt (eo_overhead_ms o)); other "total_ms" (JInt (eo_total_ms o));
   other "ttft_ms" (jint_opt (eo_ttft_ms o)); other "input_tokens" (tokens u_input_tokens);
   other "output_tokens" (tokens u_output_tokens); other "cache_write_tokens" (tokens u_cache_write_tokens);
   other "cache_read_tokens" (tokens u_cache_read_tokens); other "thinking_tokens" (tokens u_thinking_tokens);
   other "validation_passed" (jbool_or_null (vo_passed (eo_validation o)));
   other "degradations_json" (JArr (map JStr (eo_degradations o)))].

(** The same columns when there is no outcome. *)
Definition absent_columns : list Assign :=
  map (fun c => SetOther c JNull)
    ["response_hash"; "response_text"; "structured_output_json"; "tool_calls_json"; "reasoning_summary"; "reasoning_source";
     "runtime_profile_hash"; "served_context"; "served_context_source"; "provider_ms"; "loadcoach_overhead_ms"; "total_ms";
     "ttft_ms"; "input_tokens"; "output_tokens"; "cache_write_tokens"; "cache_read_tokens"; "thinking_tokens"; "validation_passed"]
  ++ [SetOther "reasoning_available" (JBool false); SetOther "degradations_json" (JArr []);
      SetSelectedModelId None; SetTargetGpuIndex None].

(** ** The rows *)

(** The columns of a row that only a synchronous execution rewrites. *)
Definition set_run (profile_id version : string) (max_attempts : Z) (j : Job) : Job :=
  mkJob profile_id version (j_job_class j) (j_base_priority j) (j_effective_priority j) (j_source j) (j_state j)
    (j_state_reason j) (j_idempotency_key j) (j_idempotent j) (j_idempotency_expires_at j) (j_request_json j)
    (j_selected_model_id j) (j_target_gpu_index j) (j_attempt j) max_attempts (j_lease_owner j) (j_lease_expires_at j)
    (j_cancel_requested j) (j_created_at j) (j_scheduled_for j) (j_queued_at j) (j_started_at j) (j_completed_at j)
    (j_max_wait_seconds j) (j_error_code j) (j_error_text j) (j_other j).

Definition failure_code (e : Failure) : string := default "" (exn_code (fl_error e)).

(** The assignments of the reserved row, in the order of the code. *)
Definition persisted (outcome : ExecutionOutcome + Failure) (now : Z) : list Assign :=
  match outcome with
  | inl o => [SetState COMPLETED; SetStateReason (Some "synchronous")] ++ result_columns o ++
             [SetCompletedAt (Some now); SetErrorCode None; SetErrorText None]
  | inr e => [SetState FAILED; SetStateReason (Some (failure_code e))] ++ absent_columns ++
             [SetCompletedAt (Some now); SetErrorCode (Some (failure_code e)); SetErrorText (Some (fl_message e))]
  end.

Fixpoint write_attempts (job_id : string) (records : list AttemptRecord) (now : Z) : prog STx unit :=
  match records with
  | [] => mret tt
  | r :: rest => _ ← write_attempt job_id r now None; write_attempts job_id rest now
  end.

(** The terminal event. *)
Definition terminal_event (job_id : string) (outcome : ExecutionOutcome + Failure) (now : Z) : prog STx unit :=
  on_queue (match outcome with
            | inl o => append_event job_id "result" now None (outcome_json o)
            | inr e => append_event job_id "error" now None
                         (dict_merge [("code", JStr (failure_code e)); ("message", JStr (fl_message e))] (fl_details e))
            end).

(** [_persist] on a reserved row: [get_one], then assignments without a compare-and-set. *)
Definition persist (job_id decision_id : string) (profile : Routing.StoredTaskProfile) (outcome : ExecutionOutcome + Failure)
    (records : list AttemptRecord) (now : Z) : prog STx unit :=
  t ← get;
  match t_jobs (x_tx t) !! job_id with
  | None => raise (OtherException None)
  | Some j =>
      let j' := set_run (sp_profile_id profile) (sp_version profile) (Z.max (Z.of_nat (length records)) 1)
                  (assign_all (persisted outcome now) j) in
      _ ← on_queue (put_jobs (<[job_id := j']> (t_jobs (x_tx t))));
      _ ← link_decision decision_id job_id;
      _ ← write_attempts job_id records now;
      terminal_event job_id outcome now
  end.

(** [_fail_reserved]. *)
Definition fail_reserved (job_id : string) (error : Failure) (now : Z) : prog STx unit :=
  t ← get;
  match t_jobs (x_tx t) !! job_id with
  | None => raise (OtherException None)
  | Some j =>
      let j' := assign_all [SetState FAILED; SetStateReason (Some (failure_code error)); SetErrorCode (Some (failure_code error));
                            SetErrorText (Some (fl_message error)); SetCompletedAt (Some now)] j in
      _ ← on_queue (put_jobs (<[job_id := j']> (t_jobs (x_tx t))));
      _ ← match get_or "decision_id" (fl_details error) JNull with
          | JStr d => link_decision d job_id
          | _ => mret tt
          end;
      terminal_event job_id (inr error) now
  end.

(** ** [execute] *)

(** The routing of a job, recorded. *)
Definition record_routing (decision_id job_id : string) (now : Z) (data : list (string * json)) : prog Store unit :=
  store_write (_ ← link_decision decision_id job_id; on_queue (append_event job_id "routing" now None data)).

(** What an execution needs that is not the request. *)
Record ExecutionContext := mkContext {
  cx_provider : Provider;
  cx_provider_by_name : gmap string Provider;
  cx_timeout_seconds : option f64;
  cx_has_breakers : bool
}.

(** The request [execute] routes. *)
Definition route_request (request : GenerateRequest) (turns : list Message) : result RouteRequest :=
  tokens ← estimate_input_tokens (sumZ (map (fun m => py_len (msg_content m)) turns)) CHARS_PER_TOKEN;
  Ok (mkRouteRequest (gr_task request) (Some tokens)
        (as_int (get_or "max_output_tokens" (gr_sampling request) JNull)) None
        (match gr_tools request with [] => [] | _ => ["tool_use"] end)
        (match get_or "think" (gr_sampling request) JNull with JBool b => Some b | _ => None end)
        (default (mkRuntimeOverrides None None None false false false) (gr_overrides request))
        (gr_data_classification request)).

(** The models the written attempts touched. *)
Definition touched_models (records : list AttemptRecord) : list string :=
  elements (list_to_set (map ar_model_id records) : gset string).

(** The failure of an execution no candidate answered. *)
Definition exhausted (job_id : string) (explanation : Explanation.Explanation) (records : list AttemptRecord) : Failure :=
  mkFailure (AllCandidatesFailed job_id)
    (match records with
     | [] => "Every ranked candidate was skipped: a circuit-breaker probe is already in flight on each."
     | _ => "Every candidate was tried and every attempt failed."
     end)
    [("job_id", JStr job_id); ("decision_id", JStr (ex_decision_id explanation));
     ("attempts", JArr (map (fun r => JObj (record_json r)) records))].

(** A job reserved by [reserve_sync_job]; the caller's chunks are left out. *)
Definition execute (request : GenerateRequest) (context : ExecutionContext) (job_id : string) (principal : option Principal)
  : session ExecutionOutcome :=
  _ ← of_result (authorize principal "write");
  started ← put PerfMs;
  now ← put Now;
  turns ← of_result (Generation.transcript request);
  to_route ← of_result (route_request request turns);
  answer ← put (Route to_route);
  match answer with
  | Raise e =>
      match exn_code e with
      | Some _ => _ ← act (store_write (fail_reserved job_id (failure_of e) now)); Throw e
      | None => Throw e
      end
  | Ok (explanation, profile) =>
      found ← put (LoadSchema (te_json_schema_ref (sp_execution profile)));
      schema ← of_result found;
      _ ← act (record_routing (ex_decision_id explanation) job_id now (payload_of explanation));
      streaming ← put SupportsStreaming;
      let degradations := if (streaming : bool) then [] else ["cancellation_deferred_to_completion"] in
      attempts ← execute_attempts (cx_provider context) request (ex_ranking explanation) schema (sp_execution profile)
        (sp_validation profile) (cx_timeout_seconds context) (cx_has_breakers context);
      ended ← put PerfMs;
      let total_ms := ended - started in
      let records := ats_records attempts in
      let provider_ms := sumZ (map ar_provider_ms records) in
      let finish outcome := _ ← act (store_write (persist job_id (ex_decision_id explanation) profile outcome records now));
                            put (RefreshReliability (touched_models records)) in
      match ats_refusal attempts with
      | Some e => _ ← finish (inr (failure_of e)); Throw e
      | None =>
          match ats_selected attempts, ats_collected attempts with
          | Some selected, Some collected =>
              match co_result collected with
              | Some result =>
                  let outcome := mkExecution job_id (co_text collected)
                    (if vo_performed (ats_validation attempts) then vo_parsed (ats_validation attempts) else JNull)
                    (co_tool_calls collected)
                    (if bool_decide (co_thinking collected = "") then None else Some (co_thinking collected))
                    (ex_decision_id explanation) (ex_flags explanation) selected records (ats_validation attempts) degradations
                    total_ms provider_ms (Z.max (total_ms - provider_ms) 0) (last records ≫= ar_ttft_ms)
                    (result_usage result) 0 (result_finish_reason result) in
                  _ ← finish (inl outcome); mret outcome
              | None => _ ← finish (inr (exhausted job_id explanation records)); Throw (AllCandidatesFailed job_id)
              end
          | _, _ => _ ← finish (inr (exhausted job_id explanation records)); Throw (AllCandidatesFailed job_id)
          end
      end
  end.

(** ** Lemmas: the loop *)

Definition is_call (o : Obs Store Answer) : bool := match o with Asked (CallProvider _ _) _ => true | _ => false end.
Definition calls (tr : list (Obs Store Answer)) : Z := countb is_call tr.

Lemma calls_snoc tr o : calls (tr ++ [o]) = calls tr + (if is_call o then 1 else 0).
Proof. unfold calls, countb. rewrite List.filter_app, length_app. cbn. destruct (is_call o); cbn; lia. Qed.

(** What a question of the loop may be: calls go to one provider, with a transcript that starts with the
    caller's turns and the caller's tools. *)
Definition asks_only (provider : Provider) (turns : list Message) (tools : list ToolDefinition) (q : Question) : Prop :=
  match q with
  | CallProvider p c => p = provider /\ (exists rest, ca_messages c = turns ++ rest) /\ ca_tools c = tools
  | _ => True
  end.

(** A verdict is given exactly when something was checked. *)
Definition judged_once (v : ValidationOutcome) : Prop := vo_performed v = bool_decide (is_Some (vo_passed v)).

Lemma validate_judged text vp schema v : validate text vp schema = Ok v -> judged_once v.
Proof.
  unfold validate, validate_output. intros ([checks parsed] & _ & [= <-])%bind_Ok_inv. by destruct (_ ++ _).
Qed.

(** What an attempt reports of itself. *)
Definition attempt_shape (number : Z) (candidate : RankedCandidate) (o : AttemptOutcome) : Prop :=
  ar_attempt (ao_record o) = number /\
  ar_subject_canonical_id (ao_record o) = subject_canonical_id (rc_subject candidate) /\
  ar_model_id (ao_record o) = mf_model_id (es_facts (rc_subject candidate)) /\
  (ao_cancelled o = true -> ar_outcome (ao_record o) = "cancelled") /\
  match ao_failure o with
  | Some _ => ao_validation o = None /\ ao_result o = None
  | None => ao_cancelled o = false /\ ar_finish_reason (ao_record o) = result_finish_reason <$> ao_result o /\
      exists v, ao_validation o = Some v /\ ar_validation (ao_record o) = Some v /\ judged_once v /\
              ar_outcome (ao_record o) = (if bool_decide (vo_passed v = Some false) then "validation_failed" else "completed")
  end.

(** Where an exception out of the loop comes from: the construction of the request, the stream, the checks, or
    the corrective turn. *)
Inductive raised (turns : list Message) (vp : TaskProfileValidation) (schema : option json) (tr : list (Obs Store Answer))
  : exn -> Prop :=
| raised_request call e : refusal call = Some e -> raised turns vp schema tr e
| raised_stream p c (reply : Reply) e : (Asked (CallProvider p c) reply : Obs Store Answer) ∈ tr -> rp_end reply = Raised e -> raised turns vp schema tr e
| raised_check text e : validate text vp schema = Raise e -> raised turns vp schema tr e
| raised_correction text v e : corrective_turns ASSISTANT turns text v schema = Raise e -> raised turns vp schema tr e.

Lemma run_stream_raise reply e chunks : run_stream reply = (Raise e, chunks) -> rp_end reply = Raised e.
Proof. unfold run_stream. destruct (drain _ _ _) as [c ch]. destruct (rp_end reply); congruence. Qed.

Section sync.
Context (rely : Store -> Store -> Prop).
#[local] Abbreviation wp := (wp (W := Store) (Ans := Answer) rely).

Lemma run_attempt_wp base provider request candidate turns number schema ep vp timeout correction
    (Post : result AttemptOutcome -> Store -> list (Obs Store Answer) -> Prop) s tr :
  (forall o tr', attempt_shape number candidate o -> calls tr' = calls tr + 1 -> Post (Ok o) s tr') ->
  (forall e tr', raised base vp schema tr' e -> calls tr <= calls tr' <= calls tr + 1 -> Post (Raise e) s tr') ->
  wp (run_attempt attempt_now call_provider no_emit refusal provider request candidate turns number schema ep vp timeout
        correction) Post s tr.
Proof.
  intros Hok Hraise. unfold run_attempt, attempt_now, call_provider, no_emit, put. cbn. intros started.
  match goal with |- context [refusal ?c] => set (call := c) end.
  destruct (refusal call) as [e|] eqn:Er; cbn.
  { apply Hraise; [by eapply raised_request|]. rewrite calls_snoc. cbn. lia. }
  intros reply. destruct (run_stream reply) as [[c|e] chunks] eqn:Es; cbn.
  2:{ apply Hraise.
      { apply run_stream_raise in Es. eapply raised_stream; [|exact Es]. apply elem_of_app. right. by left. }
      rewrite !calls_snoc. cbn. lia. }
  destruct (co_failure c) as [f|] eqn:Ef; cbn.
  - intros completed. apply Hok; [|rewrite !calls_snoc; cbn; lia]. repeat split; try done; cbn.
    destruct (error_is f GenerationCancelled); [done|]. intros [=].
  - destruct (validate (co_text c) vp schema) as [v|e] eqn:Ev; cbn.
    + intros completed. apply Hok; [|rewrite !calls_snoc; cbn; lia]. repeat split; try done; cbn. exists v. apply validate_judged in Ev. by split_and!.
    + apply Hraise; [by eapply raised_check|]. rewrite !calls_snoc. cbn. lia.
Qed.

Lemma run_attempt_within provider request candidate turns rest number schema ep vp timeout correction okb :
  within (asks_only provider turns (gr_tools request)) okb
    (run_attempt attempt_now call_provider no_emit refusal provider request candidate (turns ++ rest) number schema ep vp
       timeout correction).
Proof.
  unfold run_attempt, attempt_now, call_provider, no_emit, put. cbn. split; [done|]. intros started.
  match goal with |- context [refusal ?c] => destruct (refusal c) end; cbn; [done|].
  split; [split; [done|]; split; [by exists rest|done]|]. intros reply.
  destruct (run_stream reply) as [[c|e] chunks]; cbn; [|done]. destruct (co_failure c); cbn; [by split|].
  by destruct (validate (co_text c) vp schema).
Qed.
End sync.

(** ** Lemmas: what the loop returns *)

(** The records are numbered 1, 2, 3, ... *)
Definition numbered_records (records : list AttemptRecord) : Prop := map ar_attempt records = map Z.of_nat (seq 1 (length records)).

Lemma numbered_snoc records r :
  numbered_records records -> ar_attempt r = Z.of_nat (length records) + 1 -> numbered_records (records ++ [r]).
Proof.
  unfold numbered_records. intros Hn Hr. rewrite length_app. cbn. rewrite Nat.add_comm. cbn [Nat.add].
  rewrite seq_S, !map_app, Hn. cbn [map]. rewrite Hr. do 2 f_equal. lia.
Qed.

(** Between two candidates, with [c0] calls made before the loop. *)
Definition loop_ok (c0 : Z) (st : LoopState) (tr : list (Obs Store Answer)) : Prop :=
  numbered_records (lp_records st) /\ lp_number st = Z.of_nat (length (lp_records st)) /\ calls tr = c0 + lp_number st.

(** The candidate that was selected, with the last record. *)
Definition selection_ok (candidates : list RankedCandidate) (a : Attempts) : Prop :=
  match ats_selected a with
  | None => True
  | Some c =>
      c ∈ candidates /\ ats_refusal a = None /\
      exists records r collected, ats_records a = records ++ [r] /\ ats_collected a = Some collected /\
        ar_subject_canonical_id r = subject_canonical_id (rc_subject c) /\
        ar_model_id r = mf_model_id (es_facts (rc_subject c)) /\
        match co_failure collected with
        | None => ar_outcome r = "completed" /\ ar_validation r = Some (ats_validation a) /\
                  vo_passed (ats_validation a) <> Some false /\ judged_once (ats_validation a) /\
                  ar_finish_reason r = result_finish_reason <$> co_result collected
        | Some _ => ar_outcome r = "cancelled" /\ co_result collected = None
        end
  end.

Definition attempts_ok (candidates : list RankedCandidate) (c0 : Z) (a : Attempts) (tr : list (Obs Store Answer)) : Prop :=
  numbered_records (ats_records a) /\
  c0 + Z.of_nat (length (ats_records a)) <= calls tr <= c0 + Z.of_nat (length (ats_records a)) + 1 /\
  (ats_refusal a = None -> calls tr = c0 + Z.of_nat (length (ats_records a))) /\
  selection_ok candidates a.

Section loop_lemmas.
Context (rely : Store -> Store -> Prop).
#[local] Abbreviation wp := (wp (W := Store) (Ans := Answer) rely).
Context (provider : Provider) (request : GenerateRequest) (turns : list Message) (schema : option json)
  (ep : TaskProfileExecution) (vp : TaskProfileValidation) (timeout : option f64) (has_breakers : bool) (count : Z)
  (candidates : list RankedCandidate) (c0 : Z).

#[local] Abbreviation tries' := (tries provider request turns schema ep vp timeout has_breakers count).

Lemma refusable_wp {A} (p : session A) (Post : result (exn + A) -> Store -> list (Obs Store Answer) -> Prop) s tr :
  wp p (fun r s tr => match r with
                      | Ok a => Post (Ok (inr a)) s tr
                      | Raise e => if is_validation_error e then Post (Ok (inl e)) s tr else Post (Raise e) s tr
                      end) s tr ->
  wp (refusable p) Post s tr.
Proof.
  intros Hp. apply wp_catch. apply wp_bind. eapply wp_mono; [|exact Hp]. intros [a|e] s' tr'; cbn; [done|].
  by destruct (is_validation_error e).
Qed.

Lemma tries_wp n candidate holds turns' correction st s tr
    (Post : result (Attempts + LoopState) -> Store -> list (Obs Store Answer) -> Prop) :
  loop_ok c0 st tr -> candidate ∈ candidates ->
  (forall a tr', attempts_ok candidates c0 a tr' -> calls tr' <= calls tr + Z.of_nat n -> Post (Ok (inl a)) s tr') ->
  (forall st' tr', loop_ok c0 st' tr' -> calls tr' <= calls tr + Z.of_nat n -> Post (Ok (inr st')) s tr') ->
  (forall e tr', raised turns vp schema tr' e -> is_validation_error e = false ->
     calls tr' <= calls tr + Z.of_nat n -> Post (Raise e) s tr') ->
  wp (tries' n candidate holds turns' correction st) Post s tr.
Proof.
  intros Hst Hc. revert turns' correction st s tr Post Hst.
  induction n as [|n IH]; intros turns' correction st s tr Post Hst Hret Hnext Hraise; cbn [tries].
  { apply Hnext; [done|lia]. }
  destruct Hst as (Hnum & Hn & Hcalls).
  apply wp_bind, refusable_wp, (run_attempt_wp rely turns).
  2:{ intros e tr' Hrs Ht. destruct (is_validation_error e) eqn:Eve; [|apply Hraise; [done|done|lia]]. apply Hret; [|lia].
      repeat split; cbn; try done; try lia. }
  intros o tr' (Hat & Hsub & Hmodel & Hcan & Hkind) Ht. cbn [lp_records lp_validation lp_number].
  assert (Hnum' : numbered_records (lp_records st ++ [ao_record o])) by (apply numbered_snoc; [done|lia]).
  assert (Hlen : Z.of_nat (length (lp_records st ++ [ao_record o])) = lp_number st + 1) by (rewrite length_app; cbn; lia).
  destruct (permanent_refusal (ao_failure o)) as [e|].
  { apply Hret; [|lia]. repeat split; cbn [ats_records ats_selected ats_refusal]; try done; rewrite ?Hlen; lia. }
  destruct (ao_failure o) as [f|] eqn:Ef.
  - destruct Hkind as [_ Hres]. destruct (ao_cancelled o) eqn:Ecan.
    + assert (Hok : forall tr2, calls tr2 = calls tr' -> attempts_ok candidates c0
        (mkAttempts (lp_records st ++ [ao_record o]) (Some candidate) (Some (collected_of o)) (lp_validation st) None) tr2).
      { intros tr2 Hc2. repeat split; cbn [ats_records ats_refusal]; rewrite ?Hlen; try done; try lia.
        eexists _, _, _. split_and!; try done. cbn. rewrite Ef. split; [by apply Hcan|done]. }
      destruct (holds && has_breakers).
      * cbn. intros []. apply Hret; [apply Hok|]; rewrite calls_snoc; cbn; lia.
      * apply Hret; [by apply Hok|lia].
    + apply Hnext; [|lia]. repeat split; cbn [lp_records lp_number]; rewrite ?Hlen; try done; lia.
  - destruct Hkind as (Hcf & Hfin & v & Hv & Hrv & Hju & Hout). rewrite Hv. unfold passed. rewrite Ef, Hv.
    case_bool_decide as Hpass; cbn [negb].
    + destruct (te_max_attempts ep * count <=? lp_number st + 1).
      * apply Hnext; [|lia]. repeat split; cbn [lp_records lp_number]; rewrite ?Hlen; try done; lia.
      * assert (Hst' : loop_ok c0 (mkLoop (lp_records st ++ [ao_record o]) v (lp_number st + 1)) tr')
          by (repeat split; cbn [lp_records lp_number]; rewrite ?Hlen; try done; lia).
        apply wp_bind, refusable_wp.
        destruct (corrective_turns ASSISTANT turns (ao_text o) v schema) as [[turns2 correction2]|e] eqn:Ec; cbn [of_result].
        -- cbn [Dialogue.wp]. apply IH; [exact Hst'| | |].
           ++ intros a tr2 Ha Hle. apply Hret; [done|lia].
           ++ intros st2 tr2 Hs2 Hle. apply Hnext; [done|lia].
           ++ intros e tr2 Hrs Hve Hle. apply Hraise; [done|done|lia].
        -- cbn [Dialogue.wp]. destruct (is_validation_error e) eqn:Eve; [|apply Hraise; [by eapply raised_correction|done|lia]]. apply Hret; [|lia].
           repeat split; cbn [ats_records ats_selected ats_refusal]; try done; rewrite ?Hlen; lia.
    + apply Hret; [|lia]. repeat split; cbn [ats_records ats_refusal]; rewrite ?Hlen; try done; try lia.
      eexists _, _, _. split_and!; try done. cbn. rewrite Ef. by split_and!.
Qed.

Lemma attempts_ok_weaken a tr tr' : calls tr' = calls tr -> attempts_ok candidates c0 a tr -> attempts_ok candidates c0 a tr'.
Proof. intros E (Hn & Hb & Hr & Hs). unfold attempts_ok. rewrite E. auto. Qed.

#[local] Abbreviation over := (over_candidates provider request turns schema ep vp timeout has_breakers count).

Lemma over_candidates_wp l st s tr (Post : result Attempts -> Store -> list (Obs Store Answer) -> Prop) :
  loop_ok c0 st tr -> (forall c, Some c ∈ l -> c ∈ candidates) ->
  (forall a tr', attempts_ok candidates c0 a tr' ->
     calls tr' <= calls tr + Z.of_nat (Z.to_nat (te_max_attempts ep)) * Z.of_nat (length l) -> Post (Ok a) s tr') ->
  (forall e tr', raised turns vp schema tr' e -> is_validation_error e = false ->
     calls tr' <= calls tr + Z.of_nat (Z.to_nat (te_max_attempts ep)) * Z.of_nat (length l) -> Post (Raise e) s tr') ->
  wp (over l st) Post s tr.
Proof.
  set (m := Z.of_nat (Z.to_nat (te_max_attempts ep))). assert (0 <= m) as Hm by (unfold m; lia).
  revert st tr. induction l as [|[c|] l IH]; intros st tr Hst Hin Hret Hraise; cbn [over_candidates].
  - destruct Hst as (Hn & Hl & Hc). apply Hret; [|cbn; lia]. repeat split; cbn; try done; lia.
  - assert (Hskip : forall tr', calls tr' = calls tr -> wp (over l st) Post s tr').
    { intros tr' Ht. destruct Hst as (Hn & Hl & Hc). apply IH.
      - repeat split; try done. lia.
      - intros c' Hc'. apply Hin. by right.
      - intros a tr2 Ha Hle. apply Hret; [done|]. cbn [length]. nia.
      - intros e tr2 Hrs Hve Hle. apply Hraise; [done|done|]. cbn [length]. nia. }
    assert (Hrun : forall holds tr', calls tr' = calls tr ->
      wp (r ← tries' (Z.to_nat (te_max_attempts ep)) c holds turns None st;
          match r with inl a => mret a | inr st' => over l st' end) Post s tr').
    { intros holds tr' Ht. destruct Hst as (Hn & Hl & Hc). apply wp_bind, tries_wp.
      - repeat split; try done. lia.
      - apply Hin. by left.
      - intros a tr2 Ha Hle. apply Hret; [done|]. fold m in Hle. cbn [length]. nia.
      - intros st2 tr2 Hs2 Hle. fold m in Hle. apply IH; [done| | |].
        + intros c' Hc'. apply Hin. by right.
        + intros a tr3 Ha Hle2. apply Hret; [done|]. cbn [length]. nia.
        + intros e tr3 Hrs Hve Hle2. apply Hraise; [done|done|]. cbn [length]. nia.
      - intros e tr2 Hrs Hve Hle. apply Hraise; [done|done|]. fold m in Hle. cbn [length]. nia. }
    cbn [Dialogue.wp put ask mbind dialogue_bind dbind]. intros []. unfold probe. destruct has_breakers.
    + cbn. intros now [].
      * cbn [snd fst]. apply Hrun. rewrite !calls_snoc. cbn. lia.
      * intros busy. cbn [snd fst]. destruct busy; [apply Hskip|apply Hrun]; rewrite !calls_snoc; cbn; lia.
    + cbn. apply Hrun. rewrite calls_snoc. cbn. lia.
  - apply IH; [done| | |].
    + intros c' Hc'. apply Hin. by right.
    + intros a tr2 Ha Hle. apply Hret; [done|]. cbn [length]. nia.
    + intros e tr2 Hrs Hve Hle. apply Hraise; [done|done|]. cbn [length]. nia.
Qed.

Lemma tries_within n candidate holds rest correction st okb :
  within (asks_only provider turns (gr_tools request)) okb (tries' n candidate holds (turns ++ rest) correction st).
Proof.
  revert rest correction st. induction n as [|n IH]; intros rest correction st; cbn [tries]; [done|].
  apply within_bind.
  { apply within_catch; [|intros e; by destruct (is_validation_error e)].
    apply within_bind; [apply run_attempt_within|done]. }
  intros [e|o]; [done|]. destruct (permanent_refusal _); [done|]. destruct (ao_failure o).
  { destruct (ao_cancelled o); [|done]. apply within_bind; [|done]. by destruct (holds && has_breakers). }
  destruct (ao_validation o) as [v|]; [|done]. destruct (passed o); [done|].
  destruct (te_max_attempts ep * count <=? _); [done|].
  destruct (corrective_turns ASSISTANT turns (ao_text o) v schema) as [[turns2 correction2]|e] eqn:Ec.
  - apply corrective_turns_prefix in Ec as [rest2 ->]. apply (IH rest2).
  - cbn. by destruct (is_validation_error e).
Qed.

Lemma over_candidates_within l st okb : within (asks_only provider turns (gr_tools request)) okb (over l st).
Proof.
  revert st. induction l as [|[c|] l IH]; intros st; cbn [over_candidates]; [done| |apply IH].
  split; [done|]. intros []. apply within_bind.
  { unfold probe. destruct has_breakers; [|done]. cbn. split; [done|]. intros now. split; [done|].
    by intros []. }
  intros [holds []]; cbn [snd fst]; [apply IH|]. apply within_bind; [|by intros [a|st']].
  pose proof (tries_within (Z.to_nat (te_max_attempts ep)) c holds [] None st okb) as Ht. by rewrite app_nil_r in Ht.
Qed.
End loop_lemmas.

(** ** Lemmas: the rows an execution leaves *)

Definition attempt_row (job_id : string) (now : Z) (r : AttemptRecord) : AttemptRow :=
  mkAttemptRow job_id (ar_attempt r) r (validation_rows r now).

Definition unattempted (job_id : string) (l : list AttemptRow) : Prop := forall r, r ∈ l -> at_job_id r <> job_id.

Lemma assign_attempt_same j : assign (SetAttempt (j_attempt j)) j = j.
Proof. by destruct j. Qed.

Lemma assign_attempt_twice a b j : assign (SetAttempt b) (assign (SetAttempt a) j) = assign (SetAttempt b) j.
Proof. reflexivity. Qed.

(** [write_attempt] on every branch. *)
Lemma write_attempt_run job_id record now owner t :
  write_attempt job_id record now owner t =
  match t_jobs (x_tx t) !! job_id with
  | Some j =>
      if match owner with Some o => bool_decide (j_lease_owner j = Some o) | None => true end then
        let js := <[job_id := assign (SetAttempt (j_attempt j + 1)) j]> (t_jobs (x_tx t)) in
        let t' := mkSTx (mkTx js (t_writer (x_tx t))) (x_attempts t) (x_decisions t) in
        if negb (j_attempt j + 1 =? ar_attempt record) then (t', Raise (AttemptRefused job_id (ar_attempt record)))
        else if existsb (holds_attempt job_id (j_attempt j + 1)) (x_attempts t) then (t', Raise IntegrityError)
        else (mkSTx (mkTx js (t_writer (x_tx t))) (x_attempts t ++ [mkAttemptRow job_id (j_attempt j + 1) record (validation_rows record now)])
                (x_decisions t), Ok (j_attempt j + 1))
      else (t, Raise (AttemptRefused job_id (ar_attempt record)))
  | None => (t, Raise (AttemptRefused job_id (ar_attempt record)))
  end.
Proof.
  unfold write_attempt. rewrite bind_get. destruct (t_jobs (x_tx t) !! job_id) as [j|]; [|done].
  destruct (match owner with Some o => _ | None => _ end); [|done]. cbv zeta. rewrite prog_bind_run. unfold on_queue. cbn.
  destruct (negb _); [done|]. by destruct (existsb _ _).
Qed.

(** Numbered records are all written, from the attempt the row is at. *)
Lemma write_attempts_run job_id records now t j :
  t_jobs (x_tx t) !! job_id = Some j -> 0 <= j_attempt j ->
  (forall r, r ∈ x_attempts t -> at_job_id r = job_id -> at_attempt r <= j_attempt j) ->
  map ar_attempt records = map Z.of_nat (seq (S (Z.to_nat (j_attempt j))) (length records)) ->
  write_attempts job_id records now t =
  (mkSTx (mkTx (<[job_id := assign (SetAttempt (j_attempt j + Z.of_nat (length records))) j]> (t_jobs (x_tx t))) (t_writer (x_tx t)))
     (x_attempts t ++ map (attempt_row job_id now) records) (x_decisions t), Ok tt).
Proof.
  revert t j. induction records as [|r rest IH]; intros t j Hj H0' Hb Hn; cbn [write_attempts].
  { cbn. rewrite Z.add_0_r, assign_attempt_same, insert_id, app_nil_r by done. by destruct t as [[] ? ?]. }
  rewrite prog_bind_run, write_attempt_run, Hj. cbn [map length seq] in Hn. injection Hn as Hr Hn.
  cbv zeta. replace (j_attempt j + 1 =? ar_attempt r) with true by (symmetry; apply Z.eqb_eq; lia). cbn [negb].
  replace (existsb _ _) with false.
  2:{ symmetry. apply not_true_is_false. intros (x & Hx & He)%existsb_exists. unfold holds_attempt in He.
      apply andb_true_iff in He as [He1 He2]. bool_to_prop. apply list_elem_of_In in Hx. specialize (Hb x Hx He1). lia. }
  rewrite (IH _ (assign (SetAttempt (j_attempt j + 1)) j)); cbn [x_tx t_jobs t_writer x_attempts x_decisions].
  - rewrite assign_attempt_twice, insert_insert_eq, <- app_assoc. do 2 f_equal.
    + do 4 f_equal. cbn [j_attempt assign length]. lia.
    + unfold attempt_row. cbn [map app]. by replace (j_attempt j + 1) with (ar_attempt r) by lia.
  - apply lookup_insert_eq.
  - cbn. lia.
  - cbn [assign j_attempt]. intros x Hx Hid. apply elem_of_app in Hx as [Hx|Hx]; [specialize (Hb x Hx Hid); lia|].
    apply list_elem_of_singleton in Hx as ->. cbn. lia.
  - cbn [assign j_attempt]. rewrite Hn. do 3 f_equal. lia.
Qed.

(** The row of a settled execution. *)
Definition settled_job (profile : Routing.StoredTaskProfile) (outcome : ExecutionOutcome + Failure) (records : list AttemptRecord)
    (now : Z) (j : Job) : Job :=
  assign (SetAttempt (Z.of_nat (length records)))
    (set_run (sp_profile_id profile) (sp_version profile) (Z.max (Z.of_nat (length records)) 1) (assign_all (persisted outcome now) j)).

(** One row was appended to the events. *)
Definition one_event (job_id ty : string) (s s' : Store) : Prop :=
  exists e, st_rows (ev (s_world s')) = st_rows (ev (s_world s)) ++ [e] /\ ev_job_id e = job_id /\ ev_event_type e = ty.

Definition outcome_event (outcome : ExecutionOutcome + Failure) : string := match outcome with inl _ => "result" | inr _ => "error" end.

Lemma persist_run job_id decision_id profile outcome records now s j :
  jobs (s_world s) !! job_id = Some j -> j_attempt j = 0 -> unattempted job_id (s_attempts s) -> numbered_records records ->
  exists s', store_write (persist job_id decision_id profile outcome records now) s = (s', Ok tt) /\
    jobs (s_world s') = <[job_id := settled_job profile outcome records now j]> (jobs (s_world s)) /\
    s_attempts s' = s_attempts s ++ map (attempt_row job_id now) records /\
    one_event job_id (outcome_event outcome) s s'.
Proof.
  intros Hj Ha Hu Hn. unfold store_write, persist. rewrite bind_get. cbn [x_tx t_jobs]. rewrite Hj. cbv zeta.
  set (j' := set_run _ _ _ _).
  assert (Ha' : j_attempt j' = 0) by (unfold j', persisted; destruct outcome; cbn; exact Ha).
  rewrite prog_bind_run. cbn [on_queue x_tx t_jobs t_writer put_jobs x_attempts x_decisions].
  rewrite prog_bind_run. cbn [link_decision x_tx t_jobs t_writer x_attempts x_decisions].
  rewrite prog_bind_run. rewrite (write_attempts_run _ _ _ _ j'); cbn [x_tx t_jobs t_writer x_attempts x_decisions].
  - rewrite Ha', Z.add_0_l, insert_insert_eq. unfold terminal_event, on_queue.
    destruct outcome as [o|f]; cbn -[settled_job assign assign_all set_run]; eexists; (split; [reflexivity|]); cbn -[assign assign_all set_run];
      (split; [reflexivity|]); (split; [reflexivity|]); eexists; split_and!; reflexivity.
  - apply lookup_insert_eq.
  - lia.
  - intros r Hr Hid. by destruct (Hu r Hr).
  - rewrite Ha'. exact Hn.
Qed.

(** The row of an execution that was refused before it was routed. *)
Definition refused_job (e : Failure) (now : Z) (j : Job) : Job :=
  assign_all [SetState FAILED; SetStateReason (Some (failure_code e)); SetErrorCode (Some (failure_code e));
              SetErrorText (Some (fl_message e)); SetCompletedAt (Some now)] j.

Lemma fail_reserved_run job_id e now s j :
  jobs (s_world s) !! job_id = Some j ->
  exists s', store_write (fail_reserved job_id e now) s = (s', Ok tt) /\
    jobs (s_world s') = <[job_id := refused_job e now j]> (jobs (s_world s)) /\
    s_attempts s' = s_attempts s /\ one_event job_id "error" s s'.
Proof.
  intros Hj. unfold store_write, fail_reserved. rewrite bind_get. cbn [x_tx t_jobs]. rewrite Hj. cbv zeta.
  rewrite prog_bind_run. cbn [on_queue x_tx t_jobs t_writer put_jobs x_attempts x_decisions].
  rewrite prog_bind_run. destruct (get_or "decision_id" (fl_details e) JNull); cbn -[assign_all];
    eexists; (split; [reflexivity|]); cbn -[assign_all]; (split; [reflexivity|]); (split; [reflexivity|]);
    eexists; split_and!; reflexivity.
Qed.

(** ** Lemmas: what goes on beside an execution *)

(** Between two operations of its execution the rest of the program moves the job along legal edges, keeping
    its row and its attempt number, and writes no attempt of it. *)
Definition beside (job_id : string) (s s' : Store) : Prop :=
  (forall j, jobs (s_world s) !! job_id = Some j -> exists j', jobs (s_world s') !! job_id = Some j' /\ job_le j j') /\
  (forall r, r ∈ s_attempts s' -> at_job_id r = job_id -> r ∈ s_attempts s).

#[export] Instance beside_preorder job_id : PreOrder (beside job_id).
Proof.
  split.
  - intros s. split; [|done]. intros j Hj. exists j. by split.
  - intros s1 s2 s3 [Hj1 Ha1] [Hj2 Ha2]. split.
    + intros j Hj. destruct (Hj1 j Hj) as (j2 & Hj2' & Hle). destruct (Hj2 j2 Hj2') as (j3 & Hj3 & Hle').
      exists j3. split; [done|]. by etrans.
    + intros r Hr Hid. auto.
Qed.

(** Every operation of the queue, in any number, goes on beside an execution. *)
Lemma jobs_le_beside job_id s s' :
  jobs_le (jobs (s_world s)) (jobs (s_world s')) -> s_attempts s' = s_attempts s -> beside job_id s s'.
Proof. intros Hj Ha. split; [apply Hj|]. by rewrite Ha. Qed.

Lemma qsteps_beside `{Sql} job_id s s' :
  rtc qstep (s_world s) (s_world s') -> s_attempts s' = s_attempts s -> beside job_id s s'.
Proof. intros Hr. apply jobs_le_beside. by apply (qsteps_world_le _ _ Hr). Qed.

(** A reservation that has not been run. *)
Definition reserved (job_id : string) (s : Store) : Prop :=
  (exists j, jobs (s_world s) !! job_id = Some j /\ j_attempt j = 0) /\ unattempted job_id (s_attempts s).

Lemma beside_reserved job_id s s' : beside job_id s s' -> reserved job_id s -> reserved job_id s'.
Proof.
  intros [Hj Ha] [(j & Hj0 & Hat) Hu]. split.
  - destruct (Hj j Hj0) as (j' & Hj' & _ & Hat' & _). exists j'. split; [done|congruence].
  - intros r Hr Hid. by apply (Hu r (Ha r Hr Hid)).
Qed.

(** The routing of a job, recorded. *)
Lemma routing_written job_id decision_id now data s :
  exists s', record_routing decision_id job_id now data s = (s', Ok tt) /\ jobs (s_world s') = jobs (s_world s) /\
    s_attempts s' = s_attempts s /\ one_event job_id "routing" s s'.
Proof.
  unfold record_routing, store_write. rewrite prog_bind_run. cbn. eexists. split; [reflexivity|]. split; [done|]. split; [done|].
  eexists. split_and!; reflexivity.
Qed.

(** What the rest of the program may do between two operations of an execution: at least the recording of a
    routing decision, at most what goes on beside it. *)
Class Interference (job_id : string) (R : Store -> Store -> Prop) : Prop := {
  interference_preorder :: PreOrder R;
  interference_beside s s' : R s s' -> beside job_id s s';
  interference_routing s s' : jobs (s_world s') = jobs (s_world s) -> s_attempts s' = s_attempts s ->
    one_event job_id "routing" s s' -> R s s'
}.

#[export] Instance beside_interference job_id : Interference job_id (beside job_id).
Proof.
  split; [apply _|done|]. intros s s' Hj Ha _. apply jobs_le_beside; [by rewrite Hj|done].
Qed.

(** How an execution left its row: [s1] is the state of its last write, whatever had gone on before it. *)
Definition answered (R : Store -> Store -> Prop) (job_id : string) (outcome : ExecutionOutcome + exn) (records : list AttemptRecord) (s s' : Store) : Prop :=
  exists s1 j j' now, R s s1 /\ jobs (s_world s1) !! job_id = Some j /\
    jobs (s_world s') = <[job_id := j']> (jobs (s_world s1)) /\
    j_state j' = (match outcome with inl _ => COMPLETED | inr _ => FAILED end) /\
    j_error_code j' = (match outcome with inl _ => None | inr e => Some (default "" (exn_code e)) end) /\
    is_Some (j_completed_at j') /\ j_attempt j' = Z.of_nat (length records) /\
    s_attempts s' = s_attempts s1 ++ map (attempt_row job_id now) records /\ numbered_records records /\
    one_event job_id (match outcome with inl _ => "result" | inr _ => "error" end) s1 s' /\
    match outcome with
    | inl o => exists profile, j' = settled_job profile (inl o) records now j
    | inr _ => True
    end.

Lemma settled_job_fields profile outcome records now j :
  j_state (settled_job profile outcome records now j) = (match outcome with inl _ => COMPLETED | inr _ => FAILED end) /\
  j_error_code (settled_job profile outcome records now j) = (match outcome with inl _ => None | inr f => Some (failure_code f) end) /\
  j_completed_at (settled_job profile outcome records now j) = Some now /\
  j_attempt (settled_job profile outcome records now j) = Z.of_nat (length records).
Proof. destruct outcome; split_and!; reflexivity. Qed.

Lemma persist_answered R `{!Interference job_id R} decision_id profile outcome records now s s1 :
  R s s1 -> reserved job_id s -> numbered_records records ->
  exists s', store_write (persist job_id decision_id profile outcome records now) s1 = (s', Ok tt) /\
    answered R job_id (match outcome with inl o => inl o | inr f => inr (fl_error f) end) records s s'.
Proof.
  intros Hb Hr Hn. destruct (beside_reserved _ _ _ (interference_beside _ _ Hb) Hr) as [(j & Hj & Ha) Hu].
  destruct (persist_run job_id decision_id profile outcome records now s1 j Hj Ha Hu Hn) as (s' & Hw & Hjobs & Hat & He).
  destruct (settled_job_fields profile outcome records now j) as (Hst & Hec & Hca & Hatt).
  exists s'. split; [done|]. exists s1, j, (settled_job profile outcome records now j), now.
  rewrite Hst, Hec, Hca, Hatt. split; [done|]. split; [done|]. split; [exact Hjobs|].
  destruct outcome as [o|f]; (split; [reflexivity|]); (split; [reflexivity|]); (split; [by eexists|]); split_and!; try done. by exists profile.
Qed.

Lemma fail_reserved_answered R `{!Interference job_id R} e now s s1 :
  R s s1 -> reserved job_id s ->
  exists s', store_write (fail_reserved job_id e now) s1 = (s', Ok tt) /\ answered R job_id (inr (fl_error e)) [] s s'.
Proof.
  intros Hb Hr. destruct (beside_reserved _ _ _ (interference_beside _ _ Hb) Hr) as [(j & Hj & Ha) Hu].
  destruct (fail_reserved_run job_id e now s1 j Hj) as (s' & Hw & Hjobs & Hat & He).
  exists s'. split; [done|]. exists s1, j, (refused_job e now j), now. split; [done|]. split; [done|]. split; [exact Hjobs|].
  split; [reflexivity|]. split; [reflexivity|]. split; [by eexists|]. split; [exact Ha|].
  split; [by rewrite Hat, app_nil_r|]. by split.
Qed.

(** ** Lemmas: the whole execution *)

(** Where an exception that leaves the row as it is comes from: before routing, routing itself when its
    exception is not one of the program's, the schema file, or the loop. *)
Inductive unrecorded (request : GenerateRequest) (principal : option Principal) (tr : list (Obs Store Answer)) : exn -> Prop :=
| not_authorized e : authorize principal "write" = Raise e -> unrecorded request principal tr e
| no_transcript e : Generation.transcript request = Raise e -> unrecorded request principal tr e
| not_routable turns e : Generation.transcript request = Ok turns -> route_request request turns = Raise e -> unrecorded request principal tr e
| route_crashed r e : (Asked (Route r) (Raise e) : Obs Store Answer) ∈ tr -> exn_code e = None -> unrecorded request principal tr e
| no_schema r e : (Asked (LoadSchema r) (Raise e) : Obs Store Answer) ∈ tr -> unrecorded request principal tr e
| loop_crashed turns vp schema e :
    Generation.transcript request = Ok turns -> raised turns vp schema tr e -> is_validation_error e = false ->
    unrecorded request principal tr e.

(** How an execution ends. *)
Definition settles (R : Store -> Store -> Prop) (request : GenerateRequest) (job_id : string) (principal : option Principal) (s : Store)
    (r : result ExecutionOutcome) (s' : Store) (tr : list (Obs Store Answer)) : Prop :=
  match r with
  | Ok o =>
      eo_job_id o = job_id /\ answered R job_id (inl o) (eo_attempts o) s s' /\
      exists records a, eo_attempts o = records ++ [a] /\ ar_outcome a = "completed" /\ ar_validation a = Some (eo_validation o) /\
        vo_passed (eo_validation o) <> Some false /\ judged_once (eo_validation o) /\ ar_finish_reason a = Some (eo_finish_reason o) /\
        ar_subject_canonical_id a = subject_canonical_id (rc_subject (eo_selected o))
  | Raise e => (exists records, answered R job_id (inr e) records s s') \/ (R s s' /\ unrecorded request principal tr e)
  end.

Lemma raised_snoc turns vp schema tr o e : raised turns vp schema tr e -> raised turns vp schema (tr ++ [o]) e.
Proof.
  destruct 1; [by eapply raised_request| |by eapply raised_check|by eapply raised_correction].
  eapply raised_stream; [|done]. apply elem_of_app. by left.
Qed.

Lemma execute_wp R `{!Interference job_id R} request context principal s :
  reserved job_id s -> wp R (execute request context job_id principal) (settles R request job_id principal s) s [].
Proof.
  intros Hres. unfold execute, put.
  assert (Hid : R s s) by reflexivity.
  apply wp_bind, wp_of_result. destruct (authorize principal "write") as [u|e] eqn:Eau.
  2:{ right. split; [done|]. by apply not_authorized. }
  apply wp_bind, (wp_ask (Ans := Answer) _ PerfMs). intros started. apply wp_bind, (wp_ask (Ans := Answer) _ Now). intros now.
  apply wp_bind, wp_of_result. destruct (Generation.transcript request) as [turns|e] eqn:Etr.
  2:{ right. split; [done|]. by apply no_transcript. }
  apply wp_bind, wp_of_result. destruct (route_request request turns) as [to_route|e] eqn:Ert.
  2:{ right. split; [done|]. by eapply not_routable. }
  apply wp_bind, (wp_ask (Ans := Answer) _ (Route to_route)). intros answer. cbn in answer. destruct answer as [[explanation profile]|e].
  2:{ destruct (exn_code e) as [c|] eqn:Ec.
      - apply wp_bind, wp_act. intros s1 Hs1.
        destruct (fail_reserved_answered R (failure_of e) now s s1 Hs1 Hres) as (s2 & Hw & Hans). rewrite Hw.
        left. by exists [].
      - right. split; [done|]. eapply route_crashed; [|done]. apply elem_of_app. right. by left. }
  apply wp_bind, (wp_ask (Ans := Answer) _ (LoadSchema (te_json_schema_ref (sp_execution profile)))). intros found. cbn in found. apply wp_bind, wp_of_result.
  destruct found as [schema|e].
  2:{ right. split; [done|]. eapply no_schema. apply elem_of_app. right. by left. }
  apply wp_bind, wp_act. intros s1 Hs1.
  destruct (routing_written job_id (ex_decision_id explanation) now (payload_of explanation) s1) as (s2 & Hw & Hjs & Hat & He2).
  rewrite Hw. cbn [fst snd]. apply wp_bind, (wp_ask (Ans := Answer) _ SupportsStreaming). intros streaming.
  assert (Hb2 : R s s2).
  { etrans; [exact Hs1|]. by apply (interference_routing (job_id := job_id)). }
  match goal with |- Dialogue.wp _ _ _ _ ?t => set (tr0 := t) end.
  apply wp_bind. unfold execute_attempts. rewrite Etr. apply wp_bind, wp_of_result.
  apply (over_candidates_wp R _ _ _ _ _ _ _ _ _
    (omap id (primary (ex_ranking explanation) :: map Some (fallbacks (ex_ranking explanation)))) (calls tr0)).
  { split; [done|]. split; [done|]. cbn. lia. }
  { intros c Hc. apply list_elem_of_omap. by exists (Some c). }
  2:{ intros e tr' Hr Hv _. right. split; [done|]. by eapply loop_crashed. }
  intros a tr' (Hnum & Hb1 & Hcalls & Hsel) _. apply wp_bind, (wp_ask (Ans := Answer) _ PerfMs). intros ended.
  assert (Hfin : forall outcome e, (match outcome with inl _ => False | inr f => fl_error f = e end) ->
    forall tr2, Dialogue.wp R
      (_ ← (_ ← act (store_write (persist job_id (ex_decision_id explanation) profile outcome (ats_records a) now));
            ask (RefreshReliability (touched_models (ats_records a)))); Throw e)
      (settles R request job_id principal s) s2 tr2).
  { intros [o|f] e He tr2; [done|]. apply wp_bind, wp_bind, wp_act. intros s3 Hs3.
    destruct (persist_answered R (ex_decision_id explanation) profile (inr f) (ats_records a) now s s3) as (s4 & Hp & Hans);
      [etrans; [exact Hb2|exact Hs3]|exact Hres|exact Hnum|]. rewrite Hp. apply (wp_ask (Ans := Answer) _ (RefreshReliability (touched_models (ats_records a)))). intros refreshed.
    left. exists (ats_records a). by rewrite He in Hans. }
  cbv zeta.
  destruct (ats_refusal a) as [e|] eqn:Eref.
  { apply Hfin. reflexivity. }
  destruct (ats_selected a) as [c|] eqn:Esel; [|by apply Hfin].
  destruct (ats_collected a) as [co|] eqn:Eco; [|by apply Hfin].
  destruct (co_result co) as [res|] eqn:Eres; [|by apply Hfin].
  unfold selection_ok in Hsel. rewrite Esel in Hsel. destruct Hsel as (_ & _ & records & r & co' & Hrec & Hco' & Hsub & _ & Hkind).
  rewrite Eco in Hco'. injection Hco' as <-.
  destruct (co_failure co) as [f|]; [destruct Hkind as [_ Hn]; congruence|]. destruct Hkind as (Hout & Hval & Hpass & Hju & Hfr). rewrite Eres in Hfr.
  match goal with |- context [persist _ _ _ (inl ?o) _ _] => set (out := o) end.
  apply wp_bind, wp_bind, wp_act. intros s3 Hs3.
  destruct (persist_answered R (ex_decision_id explanation) profile (inl out) (ats_records a) now s s3) as (s4 & Hp & Hans);
    [etrans; [exact Hb2|exact Hs3]|exact Hres|exact Hnum|]. rewrite Hp. apply (wp_ask (Ans := Answer) _ (RefreshReliability (touched_models (ats_records a)))). intros refreshed.
  split; [done|]. split; [done|]. by exists records, r.
Qed.
End execution.

(** ** A concrete installation *)

#[local] Instance sample_rack : Rack := {|
  Provider := string; ProviderError := string; error_is _ _ := false; is_adapter_not_found _ := false;
  is_profile_mismatch _ := false; error_type e := e; error_message e := e; GenerationResult := unit;
  result_usage _ := mkUsage Unsupported Unsupported Unsupported Unsupported Unsupported; result_finish_reason _ := "stop" |}.
#[local] Instance sample_prompts : Prompts := {|
  render_lines _ := "problems"; detail_json _ := JNull; dumps _ := "{}";
  render_corrective_retry p s o := mkPrompt None p "retry" "1" "sha" |}.
#[local] Instance sample_text : TextTools := {| json_loads _ := None; re_search _ _ := Some true |}.
#[local] Instance sample_errors : ErrorText := {| message_of _ := "failed"; details_of _ := [] |}.

Definition sample_generate : @Generation.GenerateRequest sample_wire plain_profiles :=
  @mkGenerate sample_wire plain_profiles "code.review" None (Some "hello") None None [] None [] None "cli" None false.

Definition sample_stored : Routing.StoredTaskProfile :=
  let p := Routing.sample_profile in
  mkStored (sp_id p) (sp_profile_id p) (sp_version p) (sp_weights p) (sp_constraints p) (sp_execution p)
    (mkValidation false false [] 100) true 0 5.

Definition sample_state : Store :=
  mkStore (QueueStore.sample_world {["s" := sample_job EXECUTING None None 400 0]}) [] {["d1" := None]}.

#[local] Abbreviation SampleQuestion := (@Question sample_wire plain_profiles sample_rack).
#[local] Abbreviation SampleAnswer := (@Answer sample_wire plain_profiles sample_rack).

(** The first call fails, the second answers. *)
Definition sample_answers (n : nat) (q : SampleQuestion) : SampleAnswer q :=
  match q as q' return SampleAnswer q' with
  | Now | PerfMs => 7
  | CallProvider _ _ =>
      if (n <=? 9)%nat then mkReply [] (ProviderRaised "down") 0 1
      else mkReply [TokenDelta "hi"; StreamCompleted tt] Finished 1 2
  | AllowProbe _ _ | ProbeBusy _ | SupportsStreaming => true
  | ReleaseProbe _ | MakeResident _ | RefreshReliability _ => tt
  | Route _ => d ← sample_decide None; Ok (de_explanation d, sample_stored)
  | LoadSchema _ => Ok None
  end.

Definition sample_execute :=
  @execute sample_externals sample_wire plain_profiles sample_classification sample_rack sample_prompts sample_text sample_errors
    "assistant" (fun _ => None) (fun _ => []) sample_generate (@mkContext sample_rack "rack" ∅ None true) "s" None.

Definition sample_turns : list (@Message sample_wire) := [("user", "hello", None, [])].

Definition sample_ranking : Ranking :=
  match sample_decide None with Ok d => ex_ranking (de_explanation d) | Raise _ => mkRanking [] None [] end.

Definition sample_loop :=
  @execute_attempts sample_externals sample_wire plain_profiles sample_classification sample_rack sample_prompts sample_text
    "assistant" (fun _ => None) "rack" sample_generate sample_ranking None (sp_execution sample_stored)
    (sp_validation sample_stored) None true.

Definition sample_loop_answers (n : nat) (q : SampleQuestion) : SampleAnswer q := sample_answers (n + 5) q.

Lemma sample_loop_ends :
  (match (play sample_loop_answers 0 sample_loop sample_state).2 with Done (Ok a) => Some (length (ats_records a)) | _ => None end)
  = Some 2%nat.
Proof. vm_compute. reflexivity. Qed.

Lemma sample_loop_bound :
  Z.max 0 (te_max_attempts (sp_execution sample_stored)) * (1 + Z.of_nat (length (fallbacks sample_ranking))) = 4.
Proof. vm_compute. reflexivity. Qed.

Lemma sample_execute_returns :
  (match (play sample_answers 0 sample_execute sample_state).2 with Done (Ok _) => true | _ => false end) = true.
Proof. vm_compute. reflexivity. Qed.

Lemma sample_reserved : reserved "s" sample_state.
Proof.
  split; [|intros x Hx; by apply not_elem_of_nil in Hx].
  exists (sample_job EXECUTING None None 400 0). split; [vm_compute; reflexivity|reflexivity].
Qed.

Module Properties.
Section properties.
Context `{Externals} `{Wire} `{Profiles} `{Classification} `{Rack} `{Prompts} `{TextTools} `{ErrorText}.
Context (ASSISTANT : Role) (refusal : Call -> option exn) (payload_of : Explanation.Explanation -> list (string * json)).

(** The synchronous loop is bounded and keeps its records straight, whatever the clock, the provider and
    the breakers answer: it ends without touching the store; it makes at most [max_attempts] calls for each
    ranked candidate; every call goes to the one provider it was given, whichever provider the candidate is
    registered under, with the caller's turns unchanged at the front and the caller's tools; the records are
    numbered 1, 2, 3, ..., one for each call except for a call whose turns were refused; and a candidate is
    selected only if it is one of the ranked ones and the last record is its own, completed with checks that
    did not fail, or cancelled. *)
Theorem synchronous_attempts (rely : Store -> Store -> Prop) (provider : Provider) (request : GenerateRequest)
    (ranking : Ranking) (schema : option json) (ep : TaskProfileExecution) (vp : TaskProfileValidation)
    (timeout : option f64) (has_breakers : bool) (turns : list Message) (s s' : Store)
    (tr : list (Obs Store Answer)) (o : Ending Attempts) :
  runs rely (execute_attempts ASSISTANT refusal provider request ranking schema ep vp timeout has_breakers) s tr s' o ->
  Generation.transcript request = Ok turns ->
  exists r, o = Done r /\ s' = s /\
    calls tr <= Z.max 0 (te_max_attempts ep) * (1 + Z.of_nat (length (fallbacks ranking))) /\
    (forall p c (reply : Reply), (Asked (CallProvider p c) reply : Obs Store Answer) ∈ tr ->
       p = provider /\ (exists rest, ca_messages c = turns ++ rest) /\ ca_tools c = gr_tools request) /\
    match r with
    | Ok a => attempts_ok (omap id (primary ranking :: map Some (fallbacks ranking))) 0 a tr
    | Raise e => raised ASSISTANT refusal turns vp schema tr e
    end.
Proof.
  intros Hr Ht. set (cands := primary ranking :: map Some (fallbacks ranking)).
  assert (Hwp : Dialogue.wp rely (execute_attempts ASSISTANT refusal provider request ranking schema ep vp timeout has_breakers)
    (fun r s1 tr1 => s1 = s /\ calls tr1 <= Z.of_nat (Z.to_nat (te_max_attempts ep)) * Z.of_nat (length cands) /\
       match r with Ok a => attempts_ok (omap id cands) 0 a tr1 | Raise e => raised ASSISTANT refusal turns vp schema tr1 e end) s []).
  { unfold execute_attempts. rewrite Ht. apply wp_bind, wp_of_result.
    apply (over_candidates_wp ASSISTANT refusal rely _ _ _ _ _ _ _ _ _ (omap id cands) 0); [done| | |].
    - intros c Hc. apply list_elem_of_omap. by exists (Some c).
    - intros a tr1 Ha Hle. by split_and!.
    - intros e tr1 He _ Hle. by split_and!. }
  destruct (wp_sound _ _ _ _ _ _ _ _ Hwp Hr) as (r & -> & -> & Hle & Hpost). exists r. split; [done|]. split; [done|].
  cbn [app] in Hle, Hpost. split.
  { unfold cands in Hle. cbn [length] in Hle. rewrite length_map in Hle. lia. }
  split; [|exact Hpost]. intros p c reply Hin.
  assert (Hw : within (asks_only provider turns (gr_tools request)) (fun _ _ => True)
    (execute_attempts ASSISTANT refusal provider request ranking schema ep vp timeout has_breakers)).
  { unfold execute_attempts. rewrite Ht. apply over_candidates_within. }
  exact (within_runs rely _ _ _ _ _ _ _ Hw Hr _ _ Hin).
Qed.

End properties.

Lemma synchronous_attempts_witness : exists tr s' o r,
  runs eq sample_loop sample_state tr s' o /\ o = Done (Ok r) /\ calls tr <= 4 /\ length (ats_records r) = 2%nat.
Proof.
  destruct (play sample_loop_answers 0 sample_loop sample_state) as [[tr s'] o] eqn:E.
  pose proof (play_runs eq _ _ _ _ _ _ _ (fun w => eq_refl) E) as Hruns.
  destruct (synchronous_attempts (H := sample_externals) (H0 := sample_wire) (H1 := plain_profiles) (H2 := sample_classification)
    (H3 := sample_rack) (H4 := sample_prompts) (H5 := sample_text)
    "assistant" (fun _ => None) eq "rack" sample_generate sample_ranking None (sp_execution sample_stored)
    (sp_validation sample_stored) None true sample_turns sample_state s' tr o Hruns eq_refl) as (r & Ho & _ & Hle & _).
  pose proof sample_loop_ends as Hn. rewrite E in Hn. cbn [snd] in Hn. rewrite sample_loop_bound in Hle.
  clear E. destruct o as [[a|e]|]; [|discriminate Hn|discriminate Hn]. exists tr, s', (Done (Ok a)), a.
  split; [exact Hruns|]. split; [reflexivity|]. split; [exact Hle|by injection Hn].
Defined.

End Properties.
