(* ===== verification/Raises.v ===== *)
(** * Which exceptions the policies raise

    The functions a worker calls inside its own error handling, with the exceptions each can raise. *)

From Stdlib Require Import Ascii String.
From S2P Require Import Prelude PyFloat PyStr Json Telemetry Ordering EvidencePolicy Reliability Admission RetryPolicy ContextBudget Validation.
#[local] Open Scope string_scope.
#[local] Open Scope list_scope.
#[local] Open Scope Z_scope.

Definition raises_only {A} (E : exn -> Prop) (r : result A) : Prop := forall e, r = Raise e -> E e.

Lemma raises_ok {A} E (a : A) : raises_only E (Ok a).
Proof. by intros e. Qed.

Lemma raises_raise {A} (E : exn -> Prop) e : E e -> raises_only E (Raise (A := A) e).
Proof. by intros He e' [= <-]. Qed.

Lemma raises_bind {A B} E (m : result A) (f : A -> result B) :
  raises_only E m -> (forall a, m = Ok a -> raises_only E (f a)) -> raises_only E (m ≫= f).
Proof. intros Hm Hf e. destruct m as [a|e']; cbn; [by apply Hf|]. intros [= <-]. by apply Hm. Qed.

Lemma raises_concat {A} E (l : list (result (list A))) : Forall (raises_only E) l -> raises_only E (concat_ok l).
Proof.
  induction 1 as [|r l Hr _ IH]; cbn [concat_ok]; [apply raises_ok|]. apply raises_bind; [done|]. intros x _.
  apply raises_bind; [done|]. intros y _. apply raises_ok.
Qed.

Create HintDb raises.
#[export] Hint Resolve raises_ok raises_raise : raises.
#[export] Hint Extern 2 (raises_only _ (_ ≫= _)) => apply raises_bind; [|intros] : raises.
#[export] Hint Extern 3 (raises_only _ (match ?x with _ => _ end)) => destruct x : raises.

Definition check_error (e : exn) : Prop :=
  match e with SchemaUnsupported _ | TypeError | AttributeError | RegexError => True | _ => False end.

Section errors.
Context `{TextTools}.

Lemma raises_num k : raises_only check_error (num k).
Proof. unfold num. destruct (as_num k); auto with raises. by apply raises_raise. Qed.

Lemma raises_py_in v k : raises_only check_error (py_in v k).
Proof. destruct k, v; cbn; auto with raises; by apply raises_raise. Qed.

Lemma raises_py_iter k : raises_only check_error (py_iter k).
Proof. destruct k; cbn; auto with raises; by apply raises_raise. Qed.

Lemma raises_type_problem v fields : raises_only check_error (type_problem v fields).
Proof.
  unfold type_problem. destruct (assoc "type" fields) as [k|]; [|apply raises_ok].
  assert (Hk : raises_only check_error
    (options ← type_options k; matched ← any_type v options;
     if matched : bool then Ok None else names ← joined options; Ok (Some (WrongType names)))).
  { apply raises_bind; [destruct k; try apply raises_py_iter; apply raises_ok|]. intros options _. apply raises_bind.
    - induction options as [|o options IH]; cbn [any_type]; [apply raises_ok|]. apply raises_bind.
      + destruct o; cbn; auto with raises; by apply raises_raise.
      + intros [] _; [apply raises_ok|exact IH].
    - intros [] _; [apply raises_ok|]. apply raises_bind; [|intros; apply raises_ok]. unfold joined.
      induction options as [|o options IH]; cbn [map_ok]; [apply raises_ok|].
      apply raises_bind; [destruct o; auto with raises; by apply raises_raise|]. intros s _.
      apply raises_bind; [exact IH|]. intros; apply raises_ok. }
  destruct k; try exact Hk. apply raises_ok.
Qed.

Lemma raises_keyword fields keyword test w :
  (forall k, raises_only check_error (test k)) -> raises_only check_error (keyword_problem fields keyword test w).
Proof.
  intros Ht. unfold keyword_problem. destruct (assoc keyword fields) as [k|]; [|apply raises_ok].
  apply raises_bind; [apply Ht|]. intros [] _; apply raises_ok.
Qed.

Lemma raises_scalars v fields : raises_only check_error (scalar_problems v fields).
Proof.
  assert (Hb : forall (x : f64) (failing : f64 -> f64 -> bool) k, raises_only check_error (b ← num k; Ok (failing x b))).
  { intros x failing k. apply raises_bind; [apply raises_num|]. intros. apply raises_ok. }
  unfold scalar_problems. apply raises_concat. apply Forall_app. split.
  - repeat constructor; apply raises_keyword; intros k; [|apply raises_ok].
    apply raises_bind; [apply raises_py_in|]. intros. apply raises_ok.
  - destruct v; repeat constructor; apply raises_keyword; auto. intros k. destruct k; try (by apply raises_raise).
    destruct (re_search _ _); [apply raises_ok|by apply raises_raise].
Qed.

Lemma raises_check_items f items index path :
  (forall x p, raises_only check_error (f x p)) -> raises_only check_error (check_items f items index path).
Proof.
  intros Hf. revert index. induction items as [|x items IH]; intros index; cbn [check_items]; [apply raises_ok|].
  apply raises_bind; [apply Hf|]. intros. apply raises_bind; [apply IH|]. intros. apply raises_ok.
Qed.

Lemma raises_check_node_all schema :
  (forall v path, raises_only check_error (check_node v schema path)) /\
  match schema with
  | JObj fields => forall k sub, (k, sub) ∈ fields -> forall v path, raises_only check_error (check_node v sub path)
  | _ => True
  end.
Proof.
  induction schema as [| | | | | |fields IH] using json_induction; try (split; [|done]; intros v path; by apply raises_raise).
  rewrite Forall_forall in IH.
  assert (Hsub : forall k sub, (k, sub) ∈ fields -> forall v path, raises_only check_error (check_node v sub path))
    by (intros k sub Hin; apply (IH _ Hin)).
  split; [|exact Hsub]. intros v path.
  rewrite check_node_unfold. apply raises_bind; [apply raises_type_problem|]. intros [w|] _; [apply raises_ok|].
  apply raises_bind; [apply raises_scalars|]. intros scalars _. apply raises_bind.
  { destruct v as [| | | | |items|]; try apply raises_ok. destruct (assoc "items" fields) as [sub|] eqn:E; [|apply raises_ok].
    destruct sub; try apply raises_ok. apply raises_check_items. intros x p. apply assoc_elem in E. by eapply Hsub. }
  intros in_items _. apply raises_bind; [|intros; apply raises_ok].
  destruct v as [| | | | | |object]; try apply raises_ok. apply raises_bind.
  { apply raises_bind; [apply raises_py_iter|]. intros names _. apply raises_concat, Forall_map, Forall_true.
    intros []; auto with raises; by apply raises_raise. }
  intros missing _. apply raises_bind.
  { unfold extra_fields. destruct (assoc "additionalProperties" fields) as [[|[]| | | | |]|]; try apply raises_ok.
    apply raises_concat, Forall_map, Forall_true. intros kv.
    apply raises_bind; [apply raises_py_in|]. intros [] _; apply raises_ok. }
  intros extra _. apply raises_bind; [|intros; apply raises_ok]. unfold properties_of.
  destruct (assoc "properties" fields) as [props|] eqn:E; cbn [default]; [|apply raises_ok].
  destruct props as [| | | | | |ps]; try (by apply raises_raise). apply assoc_elem in E.
  destruct (IH _ E) as [_ Hps]. cbn [snd] in Hps.
  apply raises_concat, Forall_map, Forall_forall. intros [name sub] Hin. cbn [fst snd].
  destruct (assoc name object) as [x|]; [|apply raises_ok]. destruct sub; try apply raises_ok. by eapply Hps.
Qed.

Lemma raises_reject_all schema :
  raises_only check_error (reject_unsupported schema) /\
  match schema with
  | JObj fields => forall k sub, (k, sub) ∈ fields -> raises_only check_error (reject_unsupported sub)
  | _ => True
  end.
Proof.
  induction schema as [| | | | | |fields IH] using json_induction; try (split; [|done]; apply raises_ok).
  rewrite Forall_forall in IH. split; [|intros k sub Hin; apply (IH _ Hin)].
  cbn [reject_unsupported]. destruct (unsupported_keywords fields) as [|x l] eqn:Eu; [|by apply raises_raise].
  clear Eu. induction fields as [|[key value] rest IHl]; [apply raises_ok|].
  apply raises_bind; [|intros; apply IHl; intros y Hy; apply IH; by right].
  pose proof (IH (key, value) ltac:(by left)) as [Hv Hps]. cbn [snd] in Hv, Hps.
  case_bool_decide.
  - destruct value as [| | | | | |props]; try apply raises_ok. clear - Hps.
    induction props as [|[k sub] ps IHp]; [apply raises_ok|]. apply raises_bind; [apply (Hps k); by left|]. intros _ _.
    apply IHp. intros k' sub' Hin. apply (Hps k'). by right.
  - destruct (bool_decide _ || _); [|apply raises_ok]. destruct value; try apply raises_ok. exact Hv.
Qed.

Lemma raises_validate_output text need schema fields pattern max :
  raises_only check_error (validate_output text need schema fields pattern max).
Proof.
  unfold validate_output. apply raises_bind; [|intros; apply raises_ok].
  destruct (need || _ || _); [|apply raises_ok]. unfold json_checks. destruct (validate_json text) as [c parsed].
  destruct (vc_passed c); [|apply raises_ok]. apply raises_bind; [|intros; apply raises_ok].
  destruct schema as [sc|]; [|apply raises_ok]. apply raises_bind; [|intros; apply raises_ok].
  unfold validate_schema. apply raises_bind; [apply raises_reject_all|]. intros _ _.
  apply raises_bind; [apply raises_check_node_all|]. intros. apply raises_ok.
Qed.
End errors.

(** ** The other policies *)

Lemma raises_classify rejected : raises_only (eq AttributeError) (classify_rejections rejected).
Proof.
  assert (Hget : forall d k, raises_only (eq AttributeError) (py_get d k)) by (intros [] k; cbn; auto with raises).
  unfold classify_rejections. apply raises_bind; [|intros; apply raises_ok]. generalize classify_init.
  induction rejected as [|item rest IH]; intros st; cbn [classify_loop]; [apply raises_ok|].
  apply raises_bind; [|intros; apply IH]. unfold classify_step. case_bool_decide; [apply raises_ok|].
  destruct (negb _); [apply raises_ok|]. unfold classify_resource.
  apply raises_bind; [apply Hget|]. intros estimated _. apply raises_bind; [apply Hget|]. intros est _.
  apply raises_bind; [destruct (is_mapping _); [apply Hget|apply raises_ok]|]. intros reason _.
  apply raises_bind; [apply Hget|]. intros hr _. apply raises_bind; [apply Hget|]. intros by_gpu _. apply raises_ok.
Qed.

Lemma raises_next_candidate served current larger : raises_only (eq IndexError) (next_candidate_index served current larger).
Proof.
  unfold next_candidate_index. apply raises_bind; [|intros; apply raises_ok].
  destruct larger; [|apply raises_ok]. destruct (served !! current); [apply raises_ok|by apply raises_raise].
Qed.

Lemma raises_backoff base n jitter : raises_only (eq OverflowError) (backoff_seconds base n jitter).
Proof.
  unfold backoff_seconds. destruct (base <=? 0); [apply raises_ok|]. destruct (1024 <=? _); [by apply raises_raise|apply raises_ok].
Qed.

Lemma raises_estimate n c : raises_only (eq ValueError) (estimate_input_tokens n c).
Proof. unfold estimate_input_tokens. destruct (c <=? 0); [by apply raises_raise|apply raises_ok]. Qed.
