(* ===== verification/Bystanders.v ===== *)
(** * What the queue's operations leave of a lease

    A worker processes its job beside submitters, operators, the keeper, the reaper, the sweeps and other
    workers.  Here: none of their operations gives a job out in this worker's name, and while the lease
    lasts they move its job at most to [cancelling]. *)

From S2P Require Import Prelude PyFloat Json QueueState Priority Authorization JobEvents Submission QueueStore Queue QueueTheory Recovery.
#[local] Open Scope Z_scope.

Section lease.
Context (owner : string).

Definition lease_le (j j' : Job) : Prop :=
  j_lease_owner j' = Some owner ->
  j_lease_owner j = Some owner /\ j_attempt j' = j_attempt j /\ (j_state j' = j_state j \/ j_state j' = CANCELLING).

(** No row is lost, each respects the lease, and no row comes in this owner's name. *)
Definition leases_le (js js' : gmap string Job) : Prop :=
  (forall id j, js !! id = Some j -> exists j', js' !! id = Some j' /\ lease_le j j') /\
  (forall id j', js' !! id = Some j' -> js !! id = None -> j_lease_owner j' <> Some owner).

Lemma lease_le_refl j : lease_le j j.
Proof. intros Hl. split; [done|]. split; [done|]. by left. Qed.

#[export] Instance leases_le_preorder : PreOrder leases_le.
Proof.
  split.
  - intros js. split; [|congruence]. intros id j Hj. exists j. split; [done|]. apply lease_le_refl.
  - intros js1 js2 js3 [H12 N12] [H23 N23]. split.
    + intros id j Hj. destruct (H12 id j Hj) as (j2 & Hj2 & Hle2).
      destruct (H23 id j2 Hj2) as (j3 & Hj3 & Hle3). exists j3. split; [done|]. intros Hl.
      destruct (Hle3 Hl) as (Hl2 & Ha3 & Hs3). destruct (Hle2 Hl2) as (Hl1 & Ha2 & Hs2).
      split; [done|]. split; [congruence|]. destruct Hs3 as [-> | ->]; [exact Hs2|by right].
    + intros id j3 Hj3 Hn. destruct (js2 !! id) as [j2|] eqn:Hj2; [|by eapply N23].
      destruct (H23 id j2 Hj2) as (j & Hj & Hle). rewrite Hj3 in Hj. injection Hj as <-. intros Hl.
      destruct (Hle Hl) as [Hl2 _]. by eapply N12.
Qed.

Lemma leases_le_insert js id j j' : js !! id = Some j -> lease_le j j' -> leases_le js (<[id := j']> js).
Proof.
  intros Hj Hle. split; intros x b Hx; (destruct (decide (id = x)) as [<-|Hne]; [rewrite ?lookup_insert_eq in *|rewrite ?lookup_insert_ne in * by done]).
  - exists j'. split; [done|]. by simplify_eq.
  - exists b. split; [done|apply lease_le_refl].
  - congruence.
  - congruence.
Qed.

Lemma leases_le_new js id j : js !! id = None -> j_lease_owner j = None -> leases_le js (<[id := j]> js).
Proof.
  intros Hj Hl. split; intros x b Hx.
  - exists b. rewrite lookup_insert_ne by congruence. split; [done|apply lease_le_refl].
  - destruct (decide (id = x)) as [<-|Hne]; [|rewrite lookup_insert_ne in Hx by done; congruence].
    rewrite lookup_insert_eq in Hx. injection Hx as <-. by rewrite Hl.
Qed.

Lemma leases_le_update p f js : (forall id j, js !! id = Some j -> p id j = true -> lease_le j (f j)) -> leases_le js (update_where p f js).
Proof.
  intros Hf. split; intros id j Hj.
  - eexists. rewrite lookup_update_where, Hj. split; [done|]. destruct (p id j) eqn:E; [by eapply Hf|apply lease_le_refl].
  - intros Hn. by rewrite lookup_update_where, Hn in Hj.
Qed.

(** ** Programs that respect the lease *)

Section programs.
Context {St : Type} (view : St -> gmap string Job).

Definition respects {A} (p : prog St A) : Prop := forall s, leases_le (view s) (view (p s).1).

Lemma respects_bind {A B} (p : prog St A) (f : A -> prog St B) : respects p -> (forall a, respects (f a)) -> respects (p ≫= f).
Proof.
  intros Hp Hf s. rewrite prog_bind_run. specialize (Hp s). destruct (p s) as [s' [a|e]]; cbn in *; [|done].
  etrans; [exact Hp|apply Hf].
Qed.

Lemma respects_get {B} (f : St -> prog St B) : (forall s, leases_le (view s) (view (f s s).1)) -> respects (get ≫= f).
Proof. intros Hf s. apply Hf. Qed.

Lemma respects_same {A} (p : prog St A) : (forall s, view (p s).1 = view s) -> respects p.
Proof. intros Hp s. by rewrite Hp. Qed.

Lemma respects_for_each {A} (f : A -> prog St unit) l : (forall x, respects (f x)) -> respects (for_each f l).
Proof.
  intros Hf. induction l as [|x l IH]; cbn [for_each]; [by apply respects_same|].
  apply respects_bind; [apply Hf|]. by intros [].
Qed.
End programs.

#[local] Abbreviation respects_tx := (respects t_jobs).
#[local] Abbreviation respects_db := (respects jobs).

Lemma respects_write {A} (body : prog Tx A) : respects_tx body -> respects_db (sink_write body).
Proof.
  intros Hb w. unfold sink_write. specialize (Hb (mkTx (jobs w) (begin_write (ev w)))).
  destruct (body _) as [t [a|e]]; cbn in *; [exact Hb|done].
Qed.

Lemma respects_db_write p f :
  (forall id j, p id j = true -> lease_le j (f j)) -> respects_db (db_write_jobs (update_where p f)).
Proof. intros Hf w. apply leases_le_update. intros id j _. by apply Hf. Qed.

Lemma respects_catch {A} (body handler : prog World A) :
  respects_db body -> respects_db handler -> respects_db (catch_integrity body handler).
Proof.
  intros Hb Hh w. unfold catch_integrity. specialize (Hb w). destruct (body w) as [w' [a|e]]; cbn in *; [done|].
  destruct e; cbn; try done. etrans; [exact Hb|apply Hh].
Qed.

(** A transition that gives the lease up, or asks for the cancellation. *)
Lemma respects_transition id current target now o reason values :
  Forall plain values -> is_waiting target || is_terminal target = true \/ target = CANCELLING ->
  respects_tx (transition id current target now o reason values).
Proof.
  intros Hv Ht t. rewrite transition_run. destruct (is_legal current target); [|done].
  destruct (t_jobs t !! id) as [j|] eqn:Hj; [|done]. destruct (cas_matches current o j); [|done]. cbn.
  pose proof (transition_result target now reason values j Hv) as Hr. cbv zeta in Hr. revert Hr.
  generalize (assign_all (transition_assignments target now reason values) j).
  intros j' (Hs & _ & Ha & _ & _ & _ & Hl & _). eapply leases_le_insert; [exact Hj|]. intros Ho. destruct Ht as [Ht| ->].
  - rewrite Ht in Hl. injection Hl as Hl _. congruence.
  - injection Hl as Hl _. split; [congruence|]. split; [done|by right].
Qed.

Lemma recovered_waits s b t : recovery_target s b = Some t -> is_waiting t || is_terminal t = true \/ t = CANCELLING.
Proof. intros Ht. left. by eapply recovery_target_waits. Qed.

Lemma cancelled_waits s t : cancel_target s = Some t -> is_waiting t || is_terminal t = true \/ t = CANCELLING.
Proof. intros Ht. destruct (cancel_target_cases s t Ht) as [_ ->]. destruct (is_waiting s); [by left|by right]. Qed.

Section operations.
Context `{Externals} `{Wire} `{Sql}.

Lemma respects_existing source key now : respects_db (existing_job_for_key source key now).
Proof.
  apply respects_get. intros w. destruct (select_jobs _ _) as [|[id j] l]; [done|].
  destruct (j_idempotency_expires_at j) as [t|]; [|done]. destruct (t <=? now); [|done].
  apply (respects_bind jobs); [|by intros; apply respects_same]. apply respects_db_write. intros id' j' _ Hl.
  split; [exact Hl|]. split; [done|]. by left.
Qed.

Lemma respects_insert id j : j_lease_owner j = None -> respects_tx (insert_job id j).
Proof.
  intros Hl.  apply respects_get. intros t. destruct (insert_clash id j (t_jobs t)) eqn:Hc; [done|].
  destruct (insert_clash_false _ _ _ Hc) as [Hn _]. cbn. by apply leases_le_new.
Qed.

Lemma respects_enqueue s now q n wk p : respects_db (enqueue s now q n wk p).
Proof.
  apply respects_bind; [by apply respects_same|]. intros _. apply respects_get. intros w.
  apply (respects_bind jobs); [by apply respects_same|]. intros profile. apply respects_bind; [by apply respects_same|]. intros prio.
  assert (Hby : respects_db (existing_by_key s now)) by (apply respects_bind; [apply respects_existing|by intros; apply respects_same]).
  apply respects_bind; [destruct (sub_idempotency_key s); [exact Hby|by apply respects_same]|]. intros [o|]; [by apply respects_same|].
  apply respects_bind.
  { apply respects_get. intros w'. apply (respects_bind jobs); [by apply respects_same|]. intros _. destruct (_ =? 0); by apply respects_same. }
  intros _. apply respects_bind; [by apply respects_same|]. intros id. apply respects_bind; [by apply respects_same|]. intros turns.
  apply respects_get. intros w'. apply (respects_bind jobs).
  - apply respects_catch.
    + apply respects_bind; [|by intros; apply respects_same]. apply respects_write.
      apply respects_bind; [by apply respects_same|]. intros payload. apply respects_bind; [by apply respects_insert|].
      intros _. by apply respects_same.
    + apply respects_bind; [exact Hby|]. intros [o|]; by apply respects_same.
  - intros [o|]; [by apply respects_same|]. apply respects_bind; intros; by apply respects_same.
Qed.

Lemma respects_reserve r now ttl : respects_db (reserve_sync_job r now ttl).
Proof.
  apply respects_get. intros w. apply (respects_bind jobs); [by apply respects_same|]. intros profile.
  apply respects_bind; [destruct (g_idempotency_key r); [apply respects_existing|by apply respects_same]|].
  intros [[id st]|]; [by apply respects_same|]. apply respects_bind; [by apply respects_same|]. intros id. apply respects_bind.
  - apply respects_catch.
    + apply respects_bind; [|by intros; apply respects_same]. intros w'. unfold db_insert.
      destruct (insert_clash _ _ _) eqn:Hc; [done|]. destruct (insert_clash_false _ _ _ Hc) as [Hn _]. by apply leases_le_new.
    + apply respects_bind; [apply respects_existing|]. intros [o|]; by apply respects_same.
  - intros [[? ?]|]; by apply respects_same.
Qed.

Lemma respects_claim owner' now ls a : owner' <> owner -> respects_db (claim owner' now ls a).
Proof.
  intros Hne.
  assert (Hm : forall extra, respects_tx (claim_matching owner' now ls extra)).
  { intros extra. apply respects_get. intros t. destruct (candidate now extra (t_jobs t)) as [[id j]|] eqn:Ec; [|done].
    apply candidate_Some in Ec as (Hj & _). eapply leases_le_insert; [exact Hj|]. intros Hl.
    change (Some owner' = Some owner) in Hl. congruence. }
  assert (Hf : forall id b, respects_tx (finish_claim id owner' now ls b)).
  { intros id b. apply respects_get. intros t. destruct (t_jobs t !! id); [|done].
    apply (respects_bind t_jobs); [by apply respects_same|]. intros _. apply respects_bind; intros; by apply respects_same. }
  apply respects_write, respects_bind.
  - unfold claim_by_affinity. destruct (affinity_applies a); [|by apply respects_same].
    apply respects_get. intros t. destruct (top_priority now (t_jobs t)); [apply Hm|done].
  - intros [id|]; [apply Hf|]. apply respects_bind; [apply Hm|]. intros [id|]; [apply Hf|by apply respects_same].
Qed.

Lemma respects_cancel id now p : respects_db (cancel_job id now p).
Proof.
  apply respects_bind; [by apply respects_same|]. intros _. apply respects_write, respects_get. intros t.
  destruct (t_jobs t !! id) as [j|]; [|done]. cbv zeta. destruct (is_terminal (j_state j)); [done|].
  destruct (cancel_target (j_state j)) as [target|] eqn:Et; [|done]. apply (respects_bind t_jobs).
  - apply respects_transition; [|by eapply cancelled_waits].
    apply Forall_app. split; [by repeat constructor|]. case_bool_decide; by repeat constructor.
  - intros _. apply respects_bind; intros; by apply respects_same.
Qed.

Lemma respects_renew o ids now ls : respects_db (renew_leases o ids now ls).
Proof.
  apply respects_get. intros w. case_bool_decide; [done|]. apply (respects_bind jobs); [|by intros; apply respects_same].
  apply respects_db_write. intros id j _ Hl. split; [exact Hl|]. split; [done|by left].
Qed.

Lemma respects_reap now : respects_db (reap_expired_leases now).
Proof.
  apply respects_write, respects_get. intros t. apply (respects_bind t_jobs); [|by intros; apply respects_same].
  apply respects_for_each. intros [id j]. unfold reap_one. destruct (recovery_target _ _) as [target|] eqn:Et; [|by apply respects_same].
  apply respects_bind; [|intros _; by apply respects_same].
  apply respects_transition; [case_bool_decide; by repeat constructor|by eapply recovered_waits].
Qed.

Lemma respects_sweep now q : respects_db (ageing_sweep now q).
Proof.
  apply respects_get. intros w. apply (respects_bind jobs); [|by intros; apply respects_same].
  apply respects_db_write. intros id j _ Hl. split; [exact Hl|]. split; [done|by left].
Qed.

Lemma respects_expire now d : respects_db (expire_max_wait now d).
Proof.
  apply respects_write, respects_get. intros t. apply (respects_bind t_jobs); [|by intros; apply respects_same].
  apply respects_for_each. intros [id j]. apply respects_bind; [|intros _; by apply respects_same].
  apply respects_transition; [by repeat constructor|by left].
Qed.

Lemma respects_flag name v now p : respects_db (set_queue_flag name v now p).
Proof.
  apply respects_bind; [by apply respects_same|]. intros _. unfold set_queue_flag. case_bool_decide; by apply respects_same.
Qed.

Lemma respects_recover now prefix q : respects_db (recover now prefix q None).
Proof.
  apply respects_bind.
  - apply respects_write, respects_get. intros t. apply (respects_bind t_jobs); [|by intros; apply respects_same].
    apply respects_for_each. intros [id j]. unfold recover_one. destruct (recovery_target _ _) as [target|] eqn:Et; [|by apply respects_same].
    apply respects_bind; [|intros _; by apply respects_same].
    apply respects_transition; [apply recover_values_plain|by eapply recovered_waits].
  - intros b. apply respects_bind; [by apply respects_same|]. intros l. apply respects_bind; [apply respects_sweep|].
    intros; by apply respects_same.
Qed.

Lemma respects_move id current target now o reason message data values :
  Forall plain values -> is_waiting target || is_terminal target = true \/ target = CANCELLING ->
  respects_db (move id current target now o reason message data values).
Proof.
  intros Hv Ht. apply respects_write, respects_bind; [by apply respects_transition|]. intros _. by apply respects_same.
Qed.
End operations.
End lease.
