(* ===== verification/Runtime.v ===== *)
(** * The process around the queue ([services/worker.py])

    The registry of jobs this process holds, the operator's flags, the telemetry admission sees, and the
    provider a candidate runs on.  The registry's dict is a map under its key: nothing the code does with
    its entries depends on their order.  An entry's cancellation token is a flag of the entry. *)

From S2P Require Import Prelude PyFloat Json Telemetry QueueState Priority Authorization JobEvents QueueStore Queue Admission CircuitBreaker.
#[local] Open Scope Z_scope.

(** ** The registry *)

Record InFlightEntry := mkInFlight {
  en_job_id : string;
  en_worker_id : string;
  en_owner : string;
  en_cancelled : bool;
  en_claimed_at : Z;
  en_job_class : JobClass;
  en_state : JobState;
  en_canonical_id : option string;
  en_model_id : option string;
  en_target_gpu_index : option Z;
  en_estimated_bytes : option Z;
  en_lost : bool
}.

(** Keyed by [(owner, job_id)]. *)
Abbreviation Registry := (gmap (string * string) InFlightEntry).

Definition register (entry : InFlightEntry) (r : Registry) : Registry := <[(en_owner entry, en_job_id entry) := entry]> r.

(** [update] with some fields, as a function on the entry. *)
Definition update_entry (job_id owner : string) (f : InFlightEntry -> InFlightEntry) (r : Registry) : Registry :=
  alter f (owner, job_id) r.

Definition remove (job_id owner : string) (r : Registry) : Registry := delete (owner, job_id) r.

Definition get_entry (job_id owner : string) (r : Registry) : option InFlightEntry := r !! (owner, job_id).

Definition entries_for_job (job_id : string) (r : Registry) : list InFlightEntry :=
  map snd (List.filter (fun kv : (string * string) * InFlightEntry => bool_decide (kv.1.2 = job_id)) (map_to_list r)).

Definition snapshot (r : Registry) : list InFlightEntry := map snd (map_to_list r).

Definition job_ids_for (owner : string) (r : Registry) : list string :=
  map (fun kv : (string * string) * InFlightEntry => kv.1.2)
    (List.filter (fun kv : (string * string) * InFlightEntry => bool_decide (kv.1.1 = owner)) (map_to_list r)).

(** [entry.cancel.cancel()] and [entry.lost = True]. *)
Definition cancel_entry (e : InFlightEntry) : InFlightEntry :=
  mkInFlight (en_job_id e) (en_worker_id e) (en_owner e) true (en_claimed_at e) (en_job_class e) (en_state e)
    (en_canonical_id e) (en_model_id e) (en_target_gpu_index e) (en_estimated_bytes e) (en_lost e).

Definition lose_entry (e : InFlightEntry) : InFlightEntry :=
  mkInFlight (en_job_id e) (en_worker_id e) (en_owner e) true (en_claimed_at e) (en_job_class e) (en_state e)
    (en_canonical_id e) (en_model_id e) (en_target_gpu_index e) (en_estimated_bytes e) true.

Definition mark_lost (job_id owner : string) (r : Registry) : Registry := update_entry job_id owner lose_entry r.

Definition request_cancel (job_id : string) (r : Registry) : Registry * bool :=
  (map_imap (fun k e => Some (if bool_decide (k.2 = job_id) then cancel_entry e else e)) r,
   negb (bool_decide (entries_for_job job_id r = []))).

(** The fields the worker's updates set. *)
Definition set_entry_state (s : JobState) (e : InFlightEntry) : InFlightEntry :=
  mkInFlight (en_job_id e) (en_worker_id e) (en_owner e) (en_cancelled e) (en_claimed_at e) (en_job_class e) s
    (en_canonical_id e) (en_model_id e) (en_target_gpu_index e) (en_estimated_bytes e) (en_lost e).

Definition set_entry_model (s : JobState) (canonical_id model_id : string) (gpu estimate : option Z) (e : InFlightEntry) : InFlightEntry :=
  mkInFlight (en_job_id e) (en_worker_id e) (en_owner e) (en_cancelled e) (en_claimed_at e) (en_job_class e) s
    (Some canonical_id) (Some model_id) gpu estimate (en_lost e).

(** ** The operator's flags *)

Record QueueFlags := mkFlags { paused : bool; draining : bool }.

Definition claiming (f : QueueFlags) : bool := negb (paused f || draining f).

(** Flags and the database they mirror; the lock makes each of the two operations one step. *)
Definition FlagState : Type := World * QueueFlags.

Definition on_world {A} (body : prog World A) : prog FlagState A := fun s => let '(w, r) := body s.1 in ((w, s.2), r).

Definition set_flags (f : QueueFlags -> QueueFlags) : prog FlagState unit := fun s => ((s.1, f s.2), Ok tt).

Definition update_flags (now : Z) (p d : option bool) (principal : option Principal) : prog FlagState unit :=
  _ ← lift (authorize principal "admin");
  _ ← match p with
      | Some v => _ ← on_world (set_queue_flag "queue.paused" v now principal); set_flags (fun f => mkFlags v (draining f))
      | None => mret tt
      end;
  match d with
  | Some v => _ ← on_world (set_queue_flag "queue.draining" v now principal); set_flags (fun f => mkFlags (paused f) v)
  | None => mret tt
  end.

Definition refresh_flags (s : FlagState) : FlagState :=
  (s.1, mkFlags (queue_flag "queue.paused" s.1) (queue_flag "queue.draining" s.1)).

(** ** Models in use and the memory admission sees *)

(** [entry.job_id != excluding_job]. *)
Definition not_excluded (excluding : option string) (e : InFlightEntry) : bool := negb (bool_decide (Some (en_job_id e) = excluding)).

Definition in_use_model_ids (excluding : option string) (r : Registry) : gset string :=
  list_to_set (omap (fun e => if not_excluded excluding e then en_model_id e else None) (snapshot r)).

(** The reservation of an entry: its estimate on its device, unless its model is already resident there. *)
Definition reservation_of (excluding : option string) (resident_devices : gmap string (gset Z)) (e : InFlightEntry)
  : option Reservation :=
  match en_target_gpu_index e, en_estimated_bytes e with
  | Some g, Some b =>
      if not_excluded excluding e && bool_decide (en_state e ∈ IN_FLIGHT_STATES) &&
         negb match en_canonical_id e with
              | Some c => bool_decide (g ∈ default ∅ (resident_devices !! c))
              | None => false
              end
      then Some (mkReservation (en_job_id e) g b) else None
  | _, _ => None
  end.

Definition admission_snapshot {M} `{Measurement M} (excluding : option string) (telemetry : option (TelemetrySnapshot M))
    (resident_devices : gmap string (gset Z)) (evictable : gset string -> gmap Z Z) (r : Registry)
  : option (TelemetrySnapshot M) :=
  adjust_snapshot telemetry (reserved_bytes_by_device (omap (reservation_of excluding resident_devices) (snapshot r)))
    (Some (evictable (in_use_model_ids excluding r))).

(** ** Providers by registration *)

(** [provider_for] and [residency_for]: the registration of that name, else the primary. *)
Definition provider_for {P} (primary : P) (registrations : list (string * P)) (provider_name : string) : P :=
  match head (List.filter (fun r => bool_decide (r.1 = provider_name)) registrations) with Some r => r.2 | None => primary end.

Definition residency_for {R} (primary : R) (by_name : gmap string R) (provider_name : string) : R :=
  default primary (by_name !! provider_name).

(** ** Breakers *)

(** What was last written of each subject's verdict: its state and the text of its reason. *)
Definition Persisted : Type := gmap string (BreakerState * string).

Section breakers.
Context (render : Reason -> string).

Definition persisted_of (v : BreakerVerdict) : BreakerState * string := (v_state v, render (v_reason v)).

Definition changed_verdicts (vs : gmap string BreakerVerdict) (persisted : Persisted) : list BreakerVerdict :=
  map snd (List.filter (fun kv : string * BreakerVerdict => negb (bool_decide (persisted !! kv.1 = Some (persisted_of kv.2)))) (map_to_list vs)).

Definition persist_verdicts (changed : list BreakerVerdict) (persisted : Persisted) : Persisted :=
  fold_left (fun m v => <[v_id v := persisted_of v]> m) changed persisted.

(** The verdicts to write, and whether the waiters are woken. *)
Record Refresh := mkRefresh { rf_changed : list BreakerVerdict; rf_resources_changed : bool; rf_persisted : Persisted }.

(** [refresh_breakers], from the samples; [written] says whether [record_breaker_verdicts] returned. *)
Definition refresh_breakers (cfg : Config) (samples : gmap string (list AttemptSample)) (now : Z) (written : bool)
    (persisted : Persisted) (vs : gmap string BreakerVerdict) : gmap string BreakerVerdict * result Refresh :=
  let '(vs', r) := update cfg samples now vs in
  (vs', match r with
        | Raise e => Raise e
        | Ok vs' =>
            let changed := changed_verdicts vs' persisted in
            Ok (mkRefresh changed (existsb (fun v => negb (excludes v)) changed)
                  (if written then persist_verdicts changed persisted else persisted))
        end).
End breakers.
