(* ===== verification/Worker.v ===== *)
(** * The worker ([services/worker.py])

    One claimed job on one worker: routing, admission, the failure table over the ranked candidates, and the
    endings.  A worker runs beside every other actor on the job table; the clock, the provider, routing, the
    breaker registry, residency and the statistics are questions.  [_Cancelled] is a loop that ends; the log
    is left out. *)

From Stdlib Require Import Ascii String.
From S2P Require Import Prelude PyFloat PyStr Json Telemetry QueueState Priority Authorization ContextBudget Admission JobEvents Submission RetryPolicy Subject Scoring Constraints Ranking TaskProfile Explanation Routing QueueStore Queue Validation Dialogue Generation Execution Runtime.
#[local] Open Scope string_scope.
#[local] Open Scope list_scope.
#[local] Open Scope Z_scope.

(** The sentences an event or an error column carries. *)
Class WorkerText := {
  defer_text : AdmissionVerdict -> string;
  requeue_text : list string -> string;
  crash_text : exn -> string
}.

(** The tables with the process that runs the workers. *)
Record Process := mkProcess { pr_store : Store; pr_registry : Registry; pr_resources_changed : bool }.

(** The tables of the queue in it. *)
Definition with_world (w : World) (p : Process) : Process :=
  mkProcess (mkStore w (s_attempts (pr_store p)) (s_decisions (pr_store p))) (pr_registry p) (pr_resources_changed p).

(** A transaction on the tables, an update of the registry, [resources_changed.set()]. *)
Definition job_write {A} (body : prog STx A) : prog Process A :=
  fun p => let '(s, r) := store_write body (pr_store p) in (mkProcess s (pr_registry p) (pr_resources_changed p), r).

Definition registry_write (f : Registry -> Registry) : prog Process unit :=
  fun p => (mkProcess (pr_store p) (f (pr_registry p)) (pr_resources_changed p), Ok tt).

Definition signal_resources : prog Process unit := fun p => (mkProcess (pr_store p) (pr_registry p) true, Ok tt).

(** [runtime.wakeup.set()]. *)
Definition wake_workers : prog Process unit :=
  fun p =>
    let s := pr_store p in
    let w := s_world s in
    (mkProcess (mkStore (mkWorld (jobs w) (ev w) (settings w) (model_rows w) (profiles w) true) (s_attempts s) (s_decisions s))
       (pr_registry p) (pr_resources_changed p), Ok tt).

(** The refusals of this worker's right to the job: the queue alone raises them. *)
Definition lost_right (e : exn) : bool := match e with TransitionRefused _ _ _ | AttemptRefused _ _ => true | _ => false end.

(** An exception of another module, and what may raise one. *)
Record Foreign := mkForeign { fe_exn : exn; fe_foreign : lost_right fe_exn = false }.

Inductive foreign_result (A : Type) := Fine (a : A) | Fault (e : Foreign).
Arguments Fine {A} a.
Arguments Fault {A} e.

Section worker.
Context `{Externals} `{Wire} `{Profiles} `{Classification} `{Rack} `{Prompts} `{TextTools} `{ErrorText} `{WorkerText}.
Context (ASSISTANT : Role) (refusal : Call -> option exn).
(** The runtime profile of a submission, as routing reads it: the two interfaces describe one class. *)
Context (profile_of_wire : Submission.RuntimeProfile -> Subject.RuntimeProfile).

(** ** Questions *)

(** What [route] answers: a routing, [NoEligibleModel] with its details, or another exception. *)
Inductive RouteAnswer :=
| Routed (explanation : Explanation.Explanation) (profile : Routing.StoredTaskProfile)
| Unroutable (decision_id : option string) (candidates : list (RejectedEntry * option string)) (message : string)
    (details : list (string * json))
| RouteFailed (e : Foreign).

Inductive Question :=
| Now
| PerfMs
| CallProvider (provider : Provider) (call : Call)
| AllowProbe (subject : string) (now : Z)
| ProbeBusy (subject : string)
| ReleaseProbe (subject : string)
| RefreshBreakers (now : Z)
| Route (request : RouteRequest)
| LoadSchema (schema_ref : option string)
| EnsureLoaded (candidate : RankedCandidate)
| RecordUse (candidate : RankedCandidate)
| RecomputePair (model_id task : string)
| Jitter
| Sleep (seconds : f64)
| SupportsStreaming (provider : Provider).

(** A provider's reply raises no refusal of the queue either. *)
Record ProviderReply := mkProviderReply {
  pr_reply : Reply;
  pr_foreign : forall e, rp_end pr_reply = Raised e -> lost_right e = false
}.

(** [EnsureLoaded] answers with the outcome and whether a model was evicted. *)
Definition Answer (q : Question) : Type :=
  match q with
  | Now | PerfMs => Z
  | CallProvider _ _ => ProviderReply
  | AllowProbe _ _ | ProbeBusy _ | SupportsStreaming _ => bool
  | ReleaseProbe _ | RecordUse _ | RecomputePair _ _ | Sleep _ => unit
  | RefreshBreakers _ => foreign_result unit
  | Route _ => RouteAnswer
  | LoadSchema _ => foreign_result (option json)
  | EnsureLoaded _ => foreign_result (json * bool)
  | Jitter => f64
  end.

#[local] Abbreviation session := (dialogue (W := Process) Answer).

Definition put (q : Question) : session (Answer q) := ask q.

Definition of_foreign {A} (r : foreign_result A) : session A := match r with Fine a => mret a | Fault e => Throw (fe_exn e) end.

Definition call_provider (p : Provider) (c : Call) : session Reply := reply ← put (CallProvider p c); mret (pr_reply reply).

(** ** One worker and its job *)

Record WorkerConfig := mkWorker {
  wk_id : string;
  wk_owner : string;
  wk_timeout_seconds : option f64;
  wk_backoff_seconds : f64;
  wk_provider : Provider;
  wk_registrations : list (string * Provider)
}.

(** [JobSubmission.to_generate_request]. *)
Definition overrides_of (o : Submission.RuntimeOverrides) : Routing.RuntimeOverrides :=
  mkRuntimeOverrides (Submission.model o) (Submission.adapter o) (profile_of_wire <$> Submission.runtime_profile o)
    (Submission.disallow_fallback o) (Submission.require_evidence o) (Submission.ignore_residency o).

Definition to_generate_request (s : JobSubmission) : result GenerateRequest :=
  turns ← Submission.transcript s;
  Ok (mkGenerate (Submission.task s) None None (Some turns) (Submission.response_format s) (Submission.sampling s)
        (overrides_of <$> Submission.overrides s) (Submission.tools s) (Submission.data_classification s)
        (sub_source s) (sub_idempotency_key s) (Submission.stream s)).

Section job.
Context (wk : WorkerConfig) (job : ClaimedJob).
#[local] Abbreviation id := (c_job_id job).
#[local] Abbreviation owner := (wk_owner wk).

Definition new_entry (claimed_at : Z) : InFlightEntry :=
  mkInFlight id (wk_id wk) owner false claimed_at (j_job_class (c_job job)) LEASED None None None None false.

(** A transition of this job, fenced on this worker's lease. *)
Definition fenced_transition (current target : JobState) (now : Z) (reason : option string) (values : list Assign) : prog STx unit :=
  on_queue (transition id current target now (Some owner) reason values).

Definition job_event (target : JobState) (now : Z) (message : string) (data : list (string * json)) : prog STx unit :=
  on_queue (append_event id (event_type_for target) now (Some message) data).

Definition link_opt (decision_id : option string) : prog STx unit :=
  match decision_id with Some d => link_decision d id | None => mret tt end.

Definition set_state (s : JobState) : prog Process unit := registry_write (update_entry id owner (set_entry_state s)).

(** [entry.cancel.is_cancelled] and [entry.cancel.is_cancelled or entry.lost]. *)
Definition token_cancelled : prog Process bool :=
  fun p => (p, Ok match get_entry id owner (pr_registry p) with Some e => en_cancelled e | None => false end).
Definition token_stopped : prog Process bool :=
  fun p => (p, Ok match get_entry id owner (pr_registry p) with Some e => en_cancelled e || en_lost e | None => false end).

(** [scalar_one()] raises without a row. *)
Definition cancel_requested : prog Process bool :=
  fun p => (p, match jobs (s_world (pr_store p)) !! id with
               | Some j => Ok (j_cancel_requested j)
               | None => Raise (OtherException None)
               end).

(** ** Endings *)

Definition last_cancelled (records : list AttemptRecord) : option AttemptRecord :=
  match last records with Some r => if bool_decide (ar_outcome r = "cancelled") then Some r else None | None => None end.

Definition cancel_body (records : list AttemptRecord) (now : Z) : prog STx unit :=
  t ← get;
  match t_jobs (x_tx t) !! id with
  | Some j =>
      if bool_decide (j_lease_owner j = Some owner) then
        let state := j_state j in
        _ ← match last_cancelled records with
            | Some r => _ ← write_attempt id r now (Some owner); mret tt
            | None => mret tt
            end;
        _ ← (if bool_decide (state = CANCELLING) then mret tt
             else _ ← fenced_transition state CANCELLING now (Some "cancel_requested") [];
                  job_event CANCELLING now ("cancel requested in " +:+ state_value state) [("previous_state", JStr (state_value state))]);
        _ ← fenced_transition CANCELLING CANCELLED now (Some "GENERATION_CANCELLED")
              [SetErrorCode (Some "GENERATION_CANCELLED"); SetCancelRequested true];
        job_event CANCELLED now "cancelled"
          [("reason", JStr "GENERATION_CANCELLED"); ("attempts", JArr (map (fun r => JObj (record_json r)) records))]
      else raise (TransitionRefused id "" "")
  | None => raise (TransitionRefused id "" "")
  end.

Definition cancel_from (records : list AttemptRecord) : session unit :=
  now ← put Now; act (job_write (cancel_body records now)).

Definition fail_message (code : string) (records : list AttemptRecord) : string :=
  if bool_decide (code = "ATTEMPTS_EXHAUSTED")
  then "attempts exhausted after " +:+ pretty (Z.of_nat (length records)) +:+ " (max " +:+ pretty (j_max_attempts (c_job job)) +:+ ")"
  else if bool_decide (code = "ALL_CANDIDATES_FAILED") then "every candidate was tried and every attempt failed" else code.

Definition fail_job (started : Z) (state : JobState) (records : list AttemptRecord) (code : string) : session unit :=
  now ← put Now;
  ended ← put PerfMs;
  let message := fail_message code records in
  act (job_write (
    _ ← fenced_transition state FAILED now (Some code)
          [SetErrorCode (Some code); SetErrorText (Some message); SetOther "total_ms" (JInt (ended - started));
           SetOther "provider_ms" (JInt (sumZ (map ar_provider_ms records)))];
    job_event FAILED now message
      [("reason", JStr code); ("previous_state", JStr (state_value state));
       ("attempts", JArr (map (fun r => JObj (record_json r)) records))])).

Definition crash_code (e : exn) : string := match exn_code e with Some c => c | None => "INTERNAL_ERROR" end.

(** [_fail_after_crash]: an exception of the program is logged. *)
Definition fail_after_crash (e : exn) : session unit :=
  now ← put Now;
  catch
    (act (job_write (
       t ← get;
       match t_jobs (x_tx t) !! id with
       | Some j =>
           if bool_decide (j_lease_owner j = Some owner) then
             _ ← fenced_transition (j_state j) FAILED now (Some (crash_code e))
                   [SetErrorCode (Some (crash_code e)); SetErrorText (Some (crash_text e))];
             job_event FAILED now ("failed in " +:+ state_value (j_state j) +:+ ": " +:+ crash_code e)
               [("reason", JStr (crash_code e)); ("previous_state", JStr (state_value (j_state j))); ("error", JStr (crash_text e))]
           else mret tt
       | None => mret tt
       end)))
    (fun e' => match exn_code e' with Some _ => mret tt | None => Throw e' end).

(** ** Routing and admission *)

Definition jint_map (m : gmap string (option Z)) : json := JObj (map (fun kv => (kv.1, jint_opt kv.2)) (map_to_list m)).

(** [AdmissionVerdict.as_json]. *)
Definition verdict_json (v : AdmissionVerdict) : list (string * json) :=
  [("required_bytes", jint_opt (required_bytes v)); ("headroom_bytes", jint_opt (headroom_bytes v));
   ("free_bytes_by_gpu", jint_map (free_bytes_by_gpu v)); ("unknown_reasons", JArr (map JStr (unknown_reasons v)));
   ("candidates", JArr (map JStr (Admission.candidates v))); ("probe_candidates", JArr (map JStr (probe_candidates v)))].

(** The model of the first candidate rejected for want of memory. *)
Definition first_model_id (rejected : list (RejectedEntry * option string)) (v : AdmissionVerdict) : option string :=
  match head (List.filter (fun c => bool_decide (rej_canonical_id c.1 ∈ Admission.candidates v)) rejected) with
  | Some c => c.2
  | None => None
  end.

Definition defer_reason (v : AdmissionVerdict) : string :=
  match probe_candidates v, Admission.candidates v with _ :: _, [] => "PROBE_IN_FLIGHT" | _, _ => "INSUFFICIENT_RESOURCES" end.

Definition defer_job (v : AdmissionVerdict) (decision_id : option string) (rejected : list (RejectedEntry * option string)) : session unit :=
  now ← put Now;
  act (job_write (
    _ ← fenced_transition LEASED WAITING_RESOURCES now (Some (defer_reason v))
          [SetErrorText (Some (defer_text v)); SetSelectedModelId (first_model_id rejected v)];
    _ ← link_opt decision_id;
    job_event WAITING_RESOURCES now (defer_text v)
      (dict_merge [("reason", JStr (defer_reason v)); ("decision_id", Subject.jstr_opt decision_id)] (verdict_json v)))).

Definition fail_admission (decision_id : option string) (message : string) (details : list (string * json)) : session unit :=
  now ← put Now;
  act (job_write (
    _ ← fenced_transition LEASED FAILED now (Some "NO_ELIGIBLE_MODEL")
          [SetErrorCode (Some "NO_ELIGIBLE_MODEL"); SetErrorText (Some message)];
    _ ← link_opt decision_id;
    job_event FAILED now ("no eligible model: " +:+ message)
      (dict_merge [("reason", JStr "NO_ELIGIBLE_MODEL"); ("previous_state", JStr "leased")] details))).

(** The request a worker routes: neither the tools, nor [think], nor the data classification. *)
Definition worker_route_request (s : JobSubmission) (turns : list Message) : result RouteRequest :=
  tokens ← estimate_input_tokens (sumZ (map (fun m => py_len (msg_content m)) turns)) CHARS_PER_TOKEN;
  Ok (mkRouteRequest (Submission.task s) (Some tokens) (as_int (get_or "max_output_tokens" (Submission.sampling s) JNull)) None
        [] None
        (match Submission.overrides s with
         | Some o => overrides_of o
         | None => mkRuntimeOverrides None None None false false false
         end) None).

(** [_route]; [None] when the job left [leased]. *)
Definition route_job : session (option (Explanation.Explanation * Routing.StoredTaskProfile)) :=
  request ← of_result (to_generate_request (c_submission job));
  turns ← of_result (Generation.transcript request);
  now ← put Now;
  refreshed ← put (RefreshBreakers now);
  _ ← of_foreign refreshed;
  to_route ← of_result (worker_route_request (c_submission job) turns);
  answer ← put (Route to_route);
  match answer with
  | Routed explanation profile => mret (Some (explanation, profile))
  | RouteFailed e => Throw (fe_exn e)
  | Unroutable decision_id rejected message details =>
      verdict ← of_result (classify_rejections (map fst rejected));
      _ ← (if defer verdict then defer_job verdict decision_id rejected else fail_admission decision_id message details);
      mret None
  end.
(** The columns a selection sets. *)
Definition selection_columns (c : RankedCandidate) : list Assign :=
  let s := rc_subject c in
  [SetSelectedModelId (Some (mf_model_id (es_facts s))); SetOther "runtime_profile_hash" (JStr (runtime_profile_hash s));
   SetOther "served_context" (JInt (sc_tokens (es_served_context s)));
   SetOther "served_context_source" (JStr (sc_source (es_served_context s))); SetTargetGpuIndex (rc_target_gpu_index c)].

Definition enter_model (c : RankedCandidate) : prog Process unit :=
  let facts := es_facts (rc_subject c) in
  registry_write (update_entry id owner
    (set_entry_model ADMITTED (mf_canonical_id facts) (mf_model_id facts) (rc_target_gpu_index c) (rc_estimated_vram_bytes c))).

Definition admit_job (explanation : Explanation.Explanation) : session unit :=
  match primary (ex_ranking explanation) with
  | None => Throw AssertionError
  | Some c =>
      let facts := es_facts (rc_subject c) in
      now ← put Now;
      _ ← act (job_write (
            _ ← fenced_transition LEASED ADMITTED now None (selection_columns c);
            _ ← link_decision (ex_decision_id explanation) id;
            job_event ADMITTED now ("admitted on " +:+ mf_canonical_id facts)
              [("decision_id", JStr (ex_decision_id explanation)); ("canonical_id", JStr (mf_canonical_id facts));
               ("target_gpu_index", jint_opt (rc_target_gpu_index c)); ("estimated_vram_bytes", jint_opt (rc_estimated_vram_bytes c))]));
      act (enter_model c)
  end.

(** ** Attempts *)

Definition requeue_for_probe (state : JobState) (skipped : list string) : session unit :=
  now ← put Now;
  _ ← act (job_write (
        _ ← fenced_transition state QUEUED now (Some "PROBE_IN_FLIGHT") [];
        job_event QUEUED now (requeue_text skipped)
          [("reason", JStr "PROBE_IN_FLIGHT"); ("probe_candidates", JArr (map JStr skipped))]));
  act wake_workers.

(** The answer of residency, and the signal when it evicted something. *)
Definition ensure_resident (c : RankedCandidate) : session json :=
  loaded ← put (EnsureLoaded c);
  found ← of_foreign loaded;
  _ ← (if snd found : bool then act signal_resources else mret tt);
  mret (fst found).

Definition start_executing (state : JobState) (attempt_number : Z) (residency : json) : session JobState :=
  now ← put Now;
  let values := if (attempt_number =? j_attempt (c_job job) + 1) && (j_attempt (c_job job) =? 0)
                then [SetStartedAt (Some now); SetOther "queue_wait_ms" (JInt ((now - c_queued_at job) `quot` 1000))] else [] in
  _ ← act (job_write (
        _ ← fenced_transition state EXECUTING now None values;
        job_event EXECUTING now ("attempt " +:+ pretty attempt_number +:+ " started")
          [("attempt", JInt attempt_number); ("residency", residency)]));
  _ ← act (set_state EXECUTING);
  mret EXECUTING.

(** The attempt's rows and the move out of [executing], in one transaction; then the statistics. *)
Definition write_outcome (target : JobState) (reason : option string) (record : AttemptRecord) : session JobState :=
  now ← put Now;
  _ ← act (job_write (
        _ ← write_attempt id record now (Some owner);
        _ ← fenced_transition EXECUTING target now reason [];
        job_event target now
          ("attempt " +:+ pretty (ar_attempt record) +:+ " on " +:+ ar_canonical_id record +:+ ": " +:+ ar_outcome record)
          (record_json record)));
  _ ← act (set_state target);
  _ ← put (RecomputePair (ar_model_id record) (Submission.task (c_submission job)));
  mret target.

Definition record_failed_attempt (record : AttemptRecord) : session JobState := write_outcome RETRYING (ar_error_code record) record.
Definition validate_attempt (record : AttemptRecord) : session JobState := write_outcome VALIDATING None record.

(** [_readmit]; [None] is [_Cancelled]. *)
Definition readmit (state : JobState) (c : RankedCandidate) (why : string) (retry_number : Z) : session (option JobState) :=
  _ ← (if bool_decide (state = RETRYING) then mret tt
       else now ← put Now;
            _ ← act (job_write (
                  _ ← fenced_transition state RETRYING now (Some why) [];
                  job_event RETRYING now why [("reason", JStr why)]));
            act (set_state RETRYING));
  _ ← (if 0 <? retry_number then
         jitter ← put Jitter;
         backoff ← of_result (backoff_seconds (wk_backoff_seconds wk) retry_number jitter);
         if 0 <? backoff then put (Sleep backoff) else mret tt
       else mret tt);
  stopped ← act token_stopped;
  if stopped : bool then _ ← cancel_from []; mret None
  else
    now ← put Now;
    _ ← act (job_write (
          _ ← fenced_transition RETRYING ADMITTED now (Some why) (selection_columns c);
          job_event ADMITTED now ("re-admitted on " +:+ mf_canonical_id (es_facts (rc_subject c)) +:+ " (" +:+ why +:+ ")")
            [("reason", JStr why); ("canonical_id", JStr (mf_canonical_id (es_facts (rc_subject c))));
             ("target_gpu_index", jint_opt (rc_target_gpu_index c))]));
    _ ← act (enter_model c);
    mret (Some ADMITTED).

(** [_on_chunk]: tokens and thinking are published live when the job streams. *)
Definition publish_chunk (s : Sink) (c : StreamChunk) : Sink :=
  if bool_decide (ch_kind c = "token") then fst (publish_token id (ch_payload c) s)
  else if bool_decide (ch_kind c = "thinking") then fst (publish_live id THINKING_EVENT (ch_payload c) s) else s.

Definition publish_chunks (chunks : list StreamChunk) : prog Process unit :=
  fun p =>
    let s := pr_store p in
    let w := s_world s in
    let e := ev w in
    (mkProcess (mkStore (with_ev (JobEvents.mkState (st_rows e) (fold_left publish_chunk chunks (st_sink e)) (st_ids e)) w)
                  (s_attempts s) (s_decisions s)) (pr_registry p) (pr_resources_changed p), Ok tt).

Definition emit (chunks : list StreamChunk) : session unit :=
  if Submission.stream (c_submission job) then act (publish_chunks chunks) else mret tt.

Definition queue_wait_ms : prog Process Z :=
  fun p => (p, Ok match jobs (s_world (pr_store p)) !! id with
                  | Some j => match j_other j !! "queue_wait_ms" with Some v => default 0 (as_int v) | None => 0 end
                  | None => 0
                  end).

Definition complete (explanation : Explanation.Explanation) (started : Z) (records : list AttemptRecord) (outcome : Generation.AttemptOutcome)
    (c : RankedCandidate) : session unit :=
  now ← put Now;
  match ao_result outcome, ao_validation outcome with
  | Some result, Some validation =>
      ended ← put PerfMs;
      let total_ms := ended - started in
      let provider_ms := sumZ (map ar_provider_ms records) in
      streaming ← put (SupportsStreaming (provider_for (wk_provider wk) (wk_registrations wk) (mf_provider_name (es_facts (rc_subject c)))));
      waited ← act queue_wait_ms;
      let summary := Execution.mkExecution id (ao_text outcome)
        (if vo_performed validation then vo_parsed validation else JNull) (ao_tool_calls outcome)
        (if bool_decide (ao_thinking outcome = "") then None else Some (ao_thinking outcome))
        (ex_decision_id explanation) (ex_flags explanation) c records validation
        (if streaming : bool then [] else ["cancellation_deferred_to_completion"])
        total_ms provider_ms (Z.max (total_ms - provider_ms) 0) (last records ≫= ar_ttft_ms)
        (result_usage result) waited (result_finish_reason result) in
      act (job_write (
        _ ← fenced_transition VALIDATING COMPLETED now None (result_columns summary ++ [SetErrorCode None; SetErrorText None]);
        job_event COMPLETED now ("completed on " +:+ mf_canonical_id (es_facts (rc_subject c))) (outcome_json summary)))
  | _, _ => Throw AssertionError
  end.

(** Between two attempts. *)
Record Progress := mkProgress { pg_records : list AttemptRecord; pg_number : Z; pg_state : JobState }.

(** How the attempts on one candidate end: the job is settled, or the next candidate is chosen. *)
Inductive Turned := Settled | Onward (next : option nat) (progress : Progress).

Section attempts.
Context (explanation : Explanation.Explanation) (profile : Routing.StoredTaskProfile) (schema : option json) (started : Z)
  (request : GenerateRequest) (turns0 : list Message) (served_contexts : list Z).

(** Before an attempt: the model is loaded, and whether to stop is asked of the token and then of the row. *)
Definition prepare (c : RankedCandidate) : session (json * bool) :=
  residency ← ensure_resident c;
  stopped ← act token_stopped;
  asked ← (if stopped : bool then mret true else act cancel_requested);
  mret (residency, asked : bool).

(** A cancelled probe is handed back. *)
Definition cancel_attempts (holds_probe : bool) (c : RankedCandidate) (records : list AttemptRecord) : session Turned :=
  _ ← (if holds_probe then put (ReleaseProbe (subject_canonical_id (rc_subject c))) else mret tt);
  _ ← cancel_from records;
  mret Settled.

(** After an attempt: its rows, and the completion of one that passed; else what failed, and the state. *)
Definition settle_attempt (records : list AttemptRecord) (outcome : Generation.AttemptOutcome) (c : RankedCandidate)
  : session (option (FailureKind * JobState)) :=
  match ao_failure outcome with
  | Some f => state ← record_failed_attempt (ao_record outcome); mret (Some (classify_failure error_is f, state))
  | None =>
      match ao_validation outcome with
      | None => Throw AssertionError
      | Some _ =>
          state ← validate_attempt (ao_record outcome);
          if passed outcome then _ ← complete explanation started records outcome c; mret None
          else mret (Some (VALIDATION, state))
      end
  end.

(** The turns of a retry: LoadCoach's corrective turn after a failed check, the same turns otherwise. *)
Definition retry_turns (kind : FailureKind) (outcome : Generation.AttemptOutcome) (turns : list Message)
    (correction : option RenderedPrompt) : session (list Message * option RenderedPrompt) :=
  match kind, ao_validation outcome with
  | VALIDATION, Some v => r ← of_result (corrective_turns ASSISTANT turns0 (ao_text outcome) v schema); mret (r.1, Some r.2)
  | VALIDATION, None => Throw AssertionError
  | _, _ => mret (turns, correction)
  end.

(** [while True] on one candidate; [n] bounds the attempts. *)
Fixpoint attempt_loop (n : nat) (index : nat) (c : RankedCandidate) (holds_probe : bool) (turns : list Message)
    (correction : option RenderedPrompt) (attempts_here : Z) (pg : Progress) : session Turned :=
  match n with
  | O => Starve
  | S n' =>
      if j_max_attempts (c_job job) <=? pg_number pg then
        _ ← fail_job started (pg_state pg) (pg_records pg) "ATTEMPTS_EXHAUSTED"; mret Settled
      else
        let number := pg_number pg + 1 in
        let here := attempts_here + 1 in
        ready ← prepare c;
        if snd ready : bool then cancel_attempts holds_probe c (pg_records pg)
        else
          _ ← start_executing (pg_state pg) number (fst ready);
          outcome ← run_attempt (put Now) call_provider emit refusal
                      (provider_for (wk_provider wk) (wk_registrations wk) (mf_provider_name (es_facts (rc_subject c))))
                      request c turns number schema (sp_execution profile) (sp_validation profile) (wk_timeout_seconds wk) correction;
          let records := pg_records pg ++ [ao_record outcome] in
          _ ← put (RecordUse c);
          cancelled ← (if ao_cancelled outcome then mret true else act token_cancelled);
          if cancelled : bool then cancel_attempts holds_probe c records
          else
            step ← settle_attempt records outcome c;
            match step with
            | None => mret Settled
            | Some (kind, state) =>
                let decision := next_action kind here (te_max_attempts (sp_execution profile)) in
                match RetryPolicy.action decision with
                | STOP => _ ← cancel_from records; mret Settled
                | RETRY_SAME =>
                    if j_max_attempts (c_job job) <=? number then
                      _ ← fail_job started state records "ATTEMPTS_EXHAUSTED"; mret Settled
                    else
                      next ← retry_turns kind outcome turns correction;
                      admitted ← readmit state c (RetryPolicy.reason decision) here;
                      match admitted with
                      | None => mret Settled
                      | Some state' => attempt_loop n' index c holds_probe (fst next) (snd next) here (mkProgress records number state')
                      end
                | FALLBACK =>
                    next ← of_result (next_candidate_index served_contexts index (larger_context_only decision));
                    mret (Onward next (mkProgress records number state))
                end
            end
  end.

(** [while index is not None] over the candidates; [n] bounds the steps. *)
Fixpoint candidate_loop (n : nat) (candidates : list RankedCandidate) (index : option nat) (first : bool) (skipped : list string)
    (pg : Progress) : session unit :=
  match n with
  | O => Starve
  | S n' =>
      match index with
      | None => fail_job started (pg_state pg) (pg_records pg) "ALL_CANDIDATES_FAILED"
      | Some i =>
          match candidates !! i with
          | None => Throw IndexError
          | Some c =>
              let subject := subject_canonical_id (rc_subject c) in
              now ← put Now;
              holds ← put (AllowProbe subject now);
              busy ← (if holds : bool then mret false else put (ProbeBusy subject));
              if busy : bool then
                next ← of_result (next_candidate_index served_contexts i false);
                match next with
                | None => requeue_for_probe (pg_state pg) (skipped ++ [subject])
                | Some _ => candidate_loop n' candidates next first (skipped ++ [subject]) pg
                end
              else
                admitted ← (if first then mret (Some (pg_state pg)) else readmit (pg_state pg) c "fallback" 0);
                match admitted with
                | None => mret tt
                | Some state =>
                    turned ← attempt_loop (S (Z.to_nat (j_max_attempts (c_job job) - pg_number pg))) i c holds turns0 None 0
                               (mkProgress (pg_records pg) (pg_number pg) state);
                    match turned with
                    | Settled => mret tt
                    | Onward next pg' => candidate_loop n' candidates next false skipped pg'
                    end
                end
          end
      end
  end.
End attempts.

Definition attempts (explanation : Explanation.Explanation) (profile : Routing.StoredTaskProfile) (schema : option json) (started : Z)
  : session unit :=
  let ranking := ex_ranking explanation in
  let candidates := omap (fun c => c) (primary ranking :: map Some (fallbacks ranking)) in
  let served_contexts := map (fun c => sc_tokens (es_served_context (rc_subject c))) candidates in
  request ← of_result (to_generate_request (c_submission job));
  turns ← of_result (Generation.transcript request);
  candidate_loop explanation profile schema started request turns served_contexts (S (length candidates)) candidates (Some 0%nat)
    true [] (mkProgress [] (j_attempt (c_job job)) ADMITTED).

(** ** One job *)

Definition run_job : session unit :=
  started ← put PerfMs;
  asked ← (if j_cancel_requested (c_job job) then mret true else act cancel_requested);
  if asked : bool then cancel_from []
  else
    routed ← route_job;
    match routed with
    | None => mret tt
    | Some (explanation, profile) =>
        found ← put (LoadSchema (te_json_schema_ref (sp_execution profile)));
        schema ← of_foreign found;
        _ ← admit_job explanation;
        asked' ← act cancel_requested;
        if asked' : bool then cancel_from [] else attempts explanation profile schema started
    end.

(** [process]. *)
Definition process : session unit :=
  claimed_at ← put Now;
  _ ← act (registry_write (register (new_entry claimed_at)));
  finally
    (catch run_job (fun e =>
       if lost_right e then act (registry_write (update_entry id owner cancel_entry)) else fail_after_crash e))
    (_ ← act (registry_write (remove id owner)); act signal_resources).
End job.
End worker.
