(* ===== verification/WorkerTheory.v ===== *)
(** * What a worker does to the tables

    Every write of a worker is fenced on its lease; other workers and the queue's own operations respect
    that fence in turn; and under their interference the processing of a job ends with the lease given back. *)

From Stdlib Require Import Ascii String.
From S2P Require Import Prelude PyFloat PyStr Json Telemetry QueueState Priority Authorization ContextBudget Admission JobEvents Submission RetryPolicy Subject Scoring Constraints Ranking TaskProfile Explanation Routing QueueStore Queue QueueTheory Validation Raises Dialogue Generation Execution Runtime Worker.
#[local] Open Scope string_scope.
#[local] Open Scope list_scope.
#[local] Open Scope Z_scope.

(** ** Fenced writes *)

(** What a program may do to the row and the attempts of one job, and to nothing else: only while the job is
    leased to [owner], along legal edges, keeping the lease or giving it up, numbering the attempts it adds. *)
Definition fenced_rows (id owner : string) (js js' : gmap string Job) (ats ats' : list AttemptRow) : Prop :=
  (forall i, i <> id -> js' !! i = js !! i) /\
  exists rows, ats' = ats ++ rows /\
    ((js' !! id = js !! id /\ rows = []) \/
     (exists j j', js !! id = Some j /\ j_lease_owner j = Some owner /\ js' !! id = Some j' /\
        immutable j' = immutable j /\ rtc QueueState.step (j_state j) (j_state j') /\
        (j_lease_owner j' = Some owner \/ j_lease_owner j' = None) /\
        j_attempt j' = j_attempt j + Z.of_nat (length rows) /\
        map at_attempt rows = map (fun k => j_attempt j + Z.of_nat k) (seq 1 (length rows)) /\
        Forall (fun r => at_job_id r = id) rows)).

Lemma fenced_rows_refl id owner js ats : fenced_rows id owner js js ats ats.
Proof. split; [done|]. exists []. rewrite app_nil_r. split; [done|]. by left. Qed.

Lemma fenced_rows_trans id owner js1 js2 js3 a1 a2 a3 :
  fenced_rows id owner js1 js2 a1 a2 -> fenced_rows id owner js2 js3 a2 a3 -> fenced_rows id owner js1 js3 a1 a3.
Proof.
  intros (Ho1 & r1 & -> & Hr1) (Ho2 & r2 & -> & Hr2).
  split; [intros i Hi; rewrite Ho2 by done; by apply Ho1|]. exists (r1 ++ r2). split; [by rewrite app_assoc|].
  destruct Hr1 as [[Hj1 ->]|(j & j' & Hj & Hl & Hj' & Him & Hst & Hl' & Ha & Hn & Hf)].
  { rewrite Hj1 in Hr2. exact Hr2. }
  right. destruct Hr2 as [[Hj2 ->]|(k & k' & Hk & Hkl & Hk' & Him2 & Hst2 & Hl2 & Ha2 & Hn2 & Hf2)].
  { exists j, j'. rewrite app_nil_r, Hj2. by split_and!. }
  rewrite Hj' in Hk. injection Hk as <-. exists j, k'.
  split; [done|]. split; [done|]. split; [done|]. split; [congruence|]. split; [by etrans|]. split; [done|].
  rewrite length_app. split; [lia|]. split; [|by apply Forall_app].
  rewrite map_app, Hn, Hn2, seq_app, map_app. f_equal. rewrite Nat.add_comm.
  rewrite <- (fmap_add_seq (length r1) 1). change (fmap (Nat.add (length r1))) with (map (Nat.add (length r1))).
  rewrite map_map. apply map_ext. intros x. lia.
Qed.

Definition fenced_tx (id owner : string) (t t' : STx) : Prop :=
  fenced_rows id owner (t_jobs (x_tx t)) (t_jobs (x_tx t')) (x_attempts t) (x_attempts t').

(** A body that is fenced whenever it returns; a body that raises is rolled back. *)
Definition fenced_body (id owner : string) {A} (body : prog STx A) : Prop :=
  forall t t' a, body t = (t', Ok a) -> fenced_tx id owner t t'.

(** A write of the worker, on the whole process: also the registry changes at its own key only. *)
Definition fenced (id owner : string) (p p' : Process) : Prop :=
  fenced_rows id owner (jobs (s_world (pr_store p))) (jobs (s_world (pr_store p')))
    (s_attempts (pr_store p)) (s_attempts (pr_store p')) /\
  forall k, k <> (owner, id) -> pr_registry p' !! k = pr_registry p !! k.

(** ** Interference *)

(** What everybody else does between two operations of the worker that is processing a job: they do not
    give this worker's lease out; while it lasts they keep the attempt and move the job at most to
    [cancelling], and write no attempt of it; and nobody registers a hold for this worker. *)
Definition others (id owner : string) (p p' : Process) : Prop :=
  (forall j, jobs (s_world (pr_store p)) !! id = Some j ->
     exists j', jobs (s_world (pr_store p')) !! id = Some j' /\
       (j_lease_owner j' = Some owner ->
          j_lease_owner j = Some owner /\ j_attempt j' = j_attempt j /\
          (j_state j' = j_state j \/ j_state j' = CANCELLING) /\
          (forall r, r ∈ s_attempts (pr_store p') -> at_job_id r = id -> r ∈ s_attempts (pr_store p)))) /\
  (pr_registry p !! (owner, id) = None -> pr_registry p' !! (owner, id) = None).

(** The job is in [st] after [n] attempts, if it is still this worker's; unless it is being cancelled. *)
Definition mine (id owner : string) (st : JobState) (n : Z) (p : Process) : Prop :=
  exists j, jobs (s_world (pr_store p)) !! id = Some j /\
    (j_lease_owner j = Some owner ->
       (j_state j = st \/ j_state j = CANCELLING) /\ j_attempt j = n /\
       (forall r, r ∈ s_attempts (pr_store p) -> at_job_id r = id -> at_attempt r <= n)).

(** The worker has let the job go: at most its cancellation is left to be completed. *)
Definition released (id owner : string) (p : Process) : Prop :=
  exists j, jobs (s_world (pr_store p)) !! id = Some j /\ (j_lease_owner j = Some owner -> j_state j = CANCELLING).

(** The job is in flight if it is this worker's. *)
Definition held (id owner : string) (p : Process) : Prop :=
  exists j, jobs (s_world (pr_store p)) !! id = Some j /\
    (j_lease_owner j = Some owner -> is_lease_holding (j_state j) = true \/ j_state j = CANCELLING).

Section bodies.
Context (id owner : string).

Lemma fenced_bind {A B} (m : prog STx A) (f : A -> prog STx B) :
  fenced_body id owner m -> (forall a, fenced_body id owner (f a)) -> fenced_body id owner (m ≫= f).
Proof.
  intros Hm Hf t t' b. rewrite prog_bind_run. destruct (m t) as [t1 [a|e]] eqn:E; [|done].
  intros Hb. eapply fenced_rows_trans; [by eapply (Hm t)|by eapply (Hf a)].
Qed.

Lemma fenced_get {B} (f : STx -> prog STx B) :
  (forall t t' b, f t t = (t', Ok b) -> fenced_tx id owner t t') -> fenced_body id owner (get ≫= f).
Proof. intros Hf t t' b. rewrite bind_get. apply Hf. Qed.

Lemma fenced_ret {A} (a : A) : fenced_body id owner (mret a).
Proof. intros t t' b [= <- _]. apply fenced_rows_refl. Qed.

Lemma fenced_raise {A} e : fenced_body id owner (raise (A := A) e).
Proof. intros t t' b [=]. Qed.

Lemma fenced_append `{Externals} j ty now m d : fenced_body id owner (on_queue (append_event j ty now m d)).
Proof. intros t t' b [= <- _]. apply fenced_rows_refl. Qed.

Lemma fenced_link d j : fenced_body id owner (link_decision d j).
Proof. intros t t' b [= <- _]. apply fenced_rows_refl. Qed.

Lemma fenced_transition_ok current target now reason values :
  Forall plain values -> fenced_body id owner (on_queue (transition id current target now (Some owner) reason values)).
Proof.
  intros Hv t t' b. unfold on_queue. rewrite transition_run.
  destruct (is_legal current target) eqn:Hleg; [|done].
  destruct (t_jobs (x_tx t) !! id) as [j|] eqn:Hj; [|done].
  destruct (cas_matches current (Some owner) j) eqn:Hc; [|done]. intros [= <- _].
  unfold cas_matches in Hc. apply andb_true_iff in Hc as [Hc1 Hc2]. bool_to_prop.
  pose proof (transition_result target now reason values j Hv) as Hr. cbv zeta in Hr. cbn [x_tx t_jobs x_attempts].
  revert Hr. generalize (assign_all (transition_assignments target now reason values) j).
  intros j' (Hs & Him & Ha & _ & _ & _ & Hl & _). split; [intros i Hi; cbn; by rewrite lookup_insert_ne by congruence|].
  exists []. rewrite app_nil_r. split; [done|]. right. exists j, j'.
  split; [done|]. split; [done|]. split; [apply lookup_insert_eq|]. split; [done|].
  split; [rewrite Hs, Hc1; by apply rtc_once|]. split.
  { destruct (is_waiting target || is_terminal target); injection Hl as -> _; [by right|by left]. }
  split; [cbn; lia|]. by split.
Qed.

Lemma fenced_write_attempt record now : fenced_body id owner (write_attempt id record now (Some owner)).
Proof.
  intros t t' a. rewrite write_attempt_run. destruct (t_jobs (x_tx t) !! id) as [j|] eqn:Hj; [|done].
  destruct (bool_decide (j_lease_owner j = Some owner)) eqn:Hl; [|done]. bool_to_prop. cbv zeta.
  destruct (negb _); [done|]. destruct (existsb _ _); [done|]. intros [= <- _].
  split; [intros i Hi; cbn; by rewrite lookup_insert_ne by congruence|].
  eexists. split; [reflexivity|]. right. exists j, (assign (SetAttempt (j_attempt j + 1)) j).
  split; [done|]. split; [done|]. split; [apply lookup_insert_eq|]. split; [done|].
  split; [apply rtc_refl|]. split; [by left|]. split; [reflexivity|]. split; [reflexivity|]. by constructor.
Qed.

Lemma fenced_job_write {A} (body : prog STx A) p : fenced_body id owner body -> fenced id owner p (job_write body p).1.
Proof.
  intros Hb. unfold job_write, store_write. cbn.
  destruct (body _) as [t [a|e]] eqn:E; cbn; (split; [|done]); [|apply fenced_rows_refl]. by apply (Hb _ _ _ E).
Qed.

Lemma fenced_registry f p :
  (forall r k, k <> (owner, id) -> f r !! k = r !! k) -> fenced id owner p (registry_write f p).1.
Proof. intros Hf. split; [apply fenced_rows_refl|]. intros k Hk. by apply Hf. Qed.

Lemma fenced_same p p' :
  jobs (s_world (pr_store p')) = jobs (s_world (pr_store p)) -> s_attempts (pr_store p') = s_attempts (pr_store p) ->
  pr_registry p' = pr_registry p -> fenced id owner p p'.
Proof. intros Hj Ha Hr. split; [rewrite Hj, Ha; apply fenced_rows_refl|]. by rewrite Hr. Qed.
End bodies.


Section worker.
Context `{Externals} `{Wire} `{Profiles} `{Classification} `{Rack} `{Prompts} `{TextTools} `{ErrorText} `{WorkerText}.
Context (ASSISTANT : Role) (refusal : Call -> option exn) (profile_of_wire : Submission.RuntimeProfile -> Subject.RuntimeProfile).
Context (wk : WorkerConfig) (job : ClaimedJob).
#[local] Abbreviation id := (c_job_id job).
#[local] Abbreviation owner := (wk_owner wk).

(** ** Every write is fenced *)

Definition fenced_op (B : Type) (body : prog Process B) : Prop := forall p, fenced id owner p (body p).1.
#[local] Abbreviation within_fence := (within (W := Process) (Ans := Answer) (fun _ => True) fenced_op).

Lemma within_of_foreign {A} (r : foreign_result A) : within_fence (of_foreign r).
Proof. by destruct r. Qed.

Lemma fence_write {A} (body : prog STx A) : fenced_body id owner body -> within_fence (act (job_write body)).
Proof. intros Hb. apply within_act. intros p. by apply fenced_job_write. Qed.

Lemma fence_registry f : (forall r k, k <> (owner, id) -> f r !! k = r !! k) -> within_fence (act (registry_write f)).
Proof. intros Hf. apply within_act. intros p. by apply fenced_registry. Qed.

Lemma fence_read {B} (body : prog Process B) : (forall p, (body p).1 = p) -> within_fence (act body).
Proof. intros Hb. apply within_act. intros p. rewrite Hb. by apply fenced_same. Qed.

Lemma fence_update f : within_fence (act (registry_write (update_entry id owner f))).
Proof. apply fence_registry. intros r k Hk. unfold update_entry. by rewrite lookup_alter_ne by congruence. Qed.

Lemma fence_signal : within_fence (act signal_resources).
Proof. apply within_act. intros p. by apply fenced_same. Qed.

Lemma fence_wake : within_fence (act wake_workers).
Proof. apply within_act. intros p. by apply fenced_same. Qed.

Lemma fence_publish chunks : within_fence (act (publish_chunks job chunks)).
Proof. apply within_act. intros p. by apply fenced_same. Qed.

Lemma fence_emit chunks : within_fence (emit job chunks).
Proof. unfold emit. case_match; [apply fence_publish|done]. Qed.

Lemma fence_cancelled : within_fence (act (token_cancelled wk job)).
Proof. by apply fence_read. Qed.
Lemma fence_stopped : within_fence (act (token_stopped wk job)).
Proof. by apply fence_read. Qed.
Lemma fence_requested : within_fence (act (cancel_requested job)).
Proof. by apply fence_read. Qed.
Lemma fence_waited : within_fence (act (queue_wait_ms job)).
Proof. by apply fence_read. Qed.

Lemma plain_selection c : Forall plain (selection_columns c).
Proof. by repeat constructor. Qed.

Lemma plain_result o : Forall plain (result_columns o).
Proof. by repeat constructor. Qed.

Lemma fenced_move current target now reason values message data :
  Forall plain values ->
  fenced_body id owner (_ ← fenced_transition wk job current target now reason values; job_event job target now message data).
Proof. intros Hv. apply fenced_bind; [by apply fenced_transition_ok|]. intros _. apply fenced_append. Qed.

Lemma fenced_move_link current target now reason values d message data :
  Forall plain values ->
  fenced_body id owner (_ ← fenced_transition wk job current target now reason values; _ ← link_opt job d;
                        job_event job target now message data).
Proof.
  intros Hv. apply fenced_bind; [by apply fenced_transition_ok|]. intros _. apply fenced_bind; [|intros _; apply fenced_append].
  destruct d; [apply fenced_link|apply fenced_ret].
Qed.

Lemma fence_cancel_from records : within_fence (cancel_from wk job records).
Proof.
  split; [done|]. intros now. apply fence_write. unfold cancel_body. apply fenced_get. intros t t' b.
  destruct (t_jobs (x_tx t) !! id) as [j|]; [|done]. destruct (bool_decide _); [|done].
  apply fenced_bind.
  { destruct (last_cancelled records); [|apply fenced_ret].
    apply fenced_bind; [apply fenced_write_attempt|intros _; apply fenced_ret]. }
  intros _. apply fenced_bind.
  { destruct (bool_decide _); [apply fenced_ret|]. by apply fenced_move. }
  intros _. apply fenced_move. by repeat constructor.
Qed.

Lemma fence_fail started state records code : within_fence (fail_job wk job started state records code).
Proof. split; [done|]. intros now. split; [done|]. intros ended. apply fence_write, fenced_move. by repeat constructor. Qed.

Lemma fence_crash e : within_fence (fail_after_crash wk job e).
Proof.
  split; [done|]. intros now. apply within_catch; [|intros e'; by destruct (exn_code e')].
  apply fence_write, fenced_get. intros t t' b.
  destruct (t_jobs (x_tx t) !! id) as [j|]; [|intros [= <- _]; apply fenced_rows_refl].
  destruct (bool_decide _); [|intros [= <- _]; apply fenced_rows_refl]. apply fenced_move. by repeat constructor.
Qed.

Lemma fence_route : within_fence (route_job profile_of_wire wk job).
Proof.
  unfold route_job. apply within_bind; [apply within_of_result|]. intros request.
  apply within_bind; [apply within_of_result|]. intros turns. split; [done|]. intros now. split; [done|]. intros refreshed.
  apply within_bind; [apply within_of_foreign|]. intros _. apply within_bind; [apply within_of_result|]. intros to_route.
  split; [done|]. intros [explanation profile|decision_id rejected message details|e]; [done| |done].
  apply within_bind; [apply within_of_result|]. intros verdict. apply within_bind; [|done].
  destruct (defer verdict); (split; [done|]; intros t; apply fence_write, fenced_move_link; by repeat constructor).
Qed.

Lemma fence_admit explanation : within_fence (admit_job wk job explanation).
Proof.
  unfold admit_job. destruct (primary _) as [c|]; [|done]. split; [done|]. intros now. apply within_bind.
  - apply fence_write. apply (fenced_move_link LEASED ADMITTED now None _ (Some (ex_decision_id explanation))). apply plain_selection.
  - intros _. apply fence_update.
Qed.

Lemma fence_readmit state c why n : within_fence (readmit wk job state c why n).
Proof.
  unfold readmit. apply within_bind.
  { destruct (bool_decide _); [done|]. split; [done|]. intros now. apply within_bind; [by apply fence_write, fenced_move|].
    intros _. apply fence_update. }
  intros _. apply within_bind.
  { destruct (0 <? n); [|done]. split; [done|]. intros jitter. apply within_bind; [apply within_of_result|].
    intros backoff. by destruct (0 <? backoff). }
  intros _. apply within_bind; [apply fence_stopped|]. intros []; [apply within_bind; [apply fence_cancel_from|done]|].
  split; [done|]. intros now. apply within_bind; [apply fence_write, fenced_move, plain_selection|].
  intros _. apply within_bind; [apply fence_update|done].
Qed.

Lemma fence_write_outcome target reason record : within_fence (write_outcome wk job target reason record).
Proof.
  split; [done|]. intros now. apply within_bind.
  { apply fence_write, fenced_bind; [apply fenced_write_attempt|]. intros _. by apply fenced_move. }
  intros _. apply within_bind; [apply fence_update|]. intros _. by split.
Qed.

Lemma fence_start state number residency : within_fence (start_executing wk job state number residency).
Proof.
  split; [done|]. intros now. apply within_bind.
  - apply fence_write, fenced_move. destruct ((_ =? _) && (_ =? _)); by repeat constructor.
  - intros _. apply within_bind; [apply fence_update|done].
Qed.

Lemma fence_run_attempt provider request c turns number schema ep vp timeout correction :
  within_fence (run_attempt (put Now) call_provider (emit job) refusal provider request c turns number
                  schema ep vp timeout correction).
Proof.
  unfold run_attempt. apply within_bind; [by split|]. intros started. destruct (refusal _); [done|].
  apply within_bind; [by split|]. intros reply. destruct (run_stream reply) as [drained chunks].
  apply within_bind; [apply fence_emit|]. intros _. apply within_bind; [apply within_of_result|]. intros collected.
  destruct (co_failure collected); [by split|]. apply within_bind; [apply within_of_result|]. intros v. by split.
Qed.

Lemma fence_complete explanation started records outcome c : within_fence (complete wk job explanation started records outcome c).
Proof.
  unfold complete. split; [done|]. intros now. destruct (ao_result outcome); [|done]. destruct (ao_validation outcome); [|done].
  split; [done|]. intros ended. split; [done|]. intros streaming. apply within_bind; [apply fence_waited|]. intros waited.
  apply fence_write, fenced_move. apply Forall_app. split; [apply plain_result|by repeat constructor].
Qed.

Lemma fence_prepare c : within_fence (prepare wk job c).
Proof.
  unfold prepare. apply within_bind.
  { split; [done|]. intros loaded. apply within_bind; [apply within_of_foreign|]. intros found.
    apply within_bind; [|done]. destruct (snd found); [apply fence_signal|done]. }
  intros residency. apply within_bind; [apply fence_stopped|]. intros stopped. apply within_bind; [|done].
  destruct stopped; [done|apply fence_requested].
Qed.

Lemma fence_cancel_attempts holds c records : within_fence (cancel_attempts wk job holds c records).
Proof. apply within_bind; [by destruct holds|]. intros _. apply within_bind; [apply fence_cancel_from|done]. Qed.

Lemma fence_settle explanation started records outcome c : within_fence (settle_attempt wk job explanation started records outcome c).
Proof.
  unfold settle_attempt. destruct (ao_failure outcome); [apply within_bind; [apply fence_write_outcome|done]|].
  destruct (ao_validation outcome); [|done]. apply within_bind; [apply fence_write_outcome|]. intros state.
  destruct (passed outcome); [|done]. apply within_bind; [apply fence_complete|done].
Qed.

Lemma fence_attempt_loop explanation profile schema started request turns0 served n index c holds turns correction here pg :
  within_fence (attempt_loop ASSISTANT refusal wk job explanation profile schema started request turns0 served n index c holds turns
                  correction here pg).
Proof.
  revert turns correction here pg. induction n as [|n IH]; intros turns correction here pg; cbn [attempt_loop]; [done|].
  destruct (_ <=? _); [apply within_bind; [apply fence_fail|done]|].
  apply within_bind; [apply fence_prepare|]. intros [residency []]; cbn [snd fst]; [apply fence_cancel_attempts|].
  apply within_bind; [apply fence_start|]. intros _. apply within_bind; [apply fence_run_attempt|]. intros outcome.
  apply within_bind; [by split|]. intros _.
  apply within_bind. { destruct (ao_cancelled outcome); [done|apply fence_cancelled]. }
  intros []; [apply fence_cancel_attempts|]. apply within_bind; [apply fence_settle|].
  intros [[kind state]|]; [|done]. destruct (RetryPolicy.action _).
  - destruct (_ <=? _); [apply within_bind; [apply fence_fail|done]|]. apply within_bind.
    { unfold retry_turns. destruct kind; try done. destruct (ao_validation outcome); [|done].
      apply within_bind; [apply within_of_result|done]. }
    intros next. apply within_bind; [apply fence_readmit|]. intros [state'|]; [apply IH|done].
  - apply within_bind; [apply within_of_result|done].
  - apply within_bind; [apply fence_cancel_from|done].
Qed.

Lemma fence_candidate_loop explanation profile schema started request turns0 served n candidates index first skipped pg :
  within_fence (candidate_loop ASSISTANT refusal wk job explanation profile schema started request turns0 served n candidates index
                  first skipped pg).
Proof.
  revert index first skipped pg. induction n as [|n IH]; intros index first skipped pg; cbn [candidate_loop]; [done|].
  destruct index as [i|]; [|apply fence_fail]. destruct (candidates !! i) as [c|]; [|done].
  split; [done|]. intros now. split; [done|]. intros holds. apply within_bind; [by destruct holds|]. intros [].
  - apply within_bind; [apply within_of_result|]. intros [next|]; [apply IH|].
    split; [done|]. intros t. apply within_bind; [by apply fence_write, fenced_move|]. intros _. apply fence_wake.
  - apply within_bind; [destruct first; [done|apply fence_readmit]|]. intros [state|]; [|done].
    apply within_bind; [apply fence_attempt_loop|]. intros [|next pg']; [done|apply IH].
Qed.

Lemma fence_process : within_fence (process ASSISTANT refusal profile_of_wire wk job).
Proof.
  unfold process. split; [done|]. intros claimed_at. apply within_bind.
  { apply fence_registry. intros r k Hk. unfold register, new_entry. cbn. by rewrite lookup_insert_ne by congruence. }
  intros _. apply within_finally.
  - apply within_catch; [|intros e; destruct (lost_right e); [apply fence_update|apply fence_crash]].
    unfold run_job. split; [done|]. intros started. apply within_bind.
    { destruct (j_cancel_requested _); [done|apply fence_requested]. }
    intros []; [apply fence_cancel_from|]. apply within_bind; [apply fence_route|]. intros [[explanation profile]|]; [|done].
    split; [done|]. intros found. apply within_bind; [apply within_of_foreign|]. intros schema.
    apply within_bind; [apply fence_admit|]. intros _. apply within_bind; [apply fence_requested|].
    intros []; [apply fence_cancel_from|]. unfold attempts. apply within_bind; [apply within_of_result|]. intros request.
    apply within_bind; [apply within_of_result|]. intros turns. apply fence_candidate_loop.
  - apply within_bind; [|intros _; apply fence_signal]. apply fence_registry. intros r k Hk. unfold remove.
    by rewrite lookup_delete_ne by congruence.
Qed.

(** ** Specifications of the operations *)

#[local] Abbreviation session := (dialogue (W := Process) Answer).

Definition is_call (o : Obs Process Answer) : bool := match o with Asked (CallProvider _ _) _ => true | _ => false end.
Definition calls (tr : list (Obs Process Answer)) : Z := countb is_call tr.

Lemma worker_calls_snoc tr o : calls (tr ++ [o]) = calls tr + (if is_call o then 1 else 0).
Proof. unfold calls, countb. rewrite List.filter_app, length_app. cbn. destruct (is_call o); cbn; lia. Qed.

#[local] Abbreviation Mine := (mine id owner).
#[local] Abbreviation Released := (released id owner).
#[local] Abbreviation Held := (held id owner).
#[local] Abbreviation Others := (others id owner).
#[local] Abbreviation wp := (Dialogue.wp (W := Process) (Ans := Answer) Others).

(** A predicate the others and every step that leaves the tables alone keep. *)
Definition stable (P : Process -> Prop) : Prop :=
  (forall p p', Others p p' -> P p -> P p') /\
  (forall p p', jobs (s_world (pr_store p')) = jobs (s_world (pr_store p)) ->
     s_attempts (pr_store p') = s_attempts (pr_store p) -> P p -> P p').

Lemma stable_mine st n : stable (Mine st n).
Proof.
  split.
  - intros p p' [Ho _] (j & Hj & Hm). destruct (Ho j Hj) as (j' & Hj' & Hle). exists j'. split; [done|]. intros Hl.
    destruct (Hle Hl) as (Hl0 & Ha & Hs & Hat). destruct (Hm Hl0) as (Hs0 & Hn & Hb). split.
    { destruct Hs as [Hs|Hs]; [rewrite Hs; exact Hs0|by right]. }
    split; [congruence|]. intros r Hr Hid. auto.
  - intros p p' Hj Ha. unfold mine. by rewrite Hj, Ha.
Qed.

Lemma stable_released : stable Released.
Proof.
  split.
  - intros p p' [Ho _] (j & Hj & Hm). destruct (Ho j Hj) as (j' & Hj' & Hle). exists j'. split; [done|]. intros Hl.
    destruct (Hle Hl) as (Hl0 & _ & Hs & _). specialize (Hm Hl0). destruct Hs as [Hs|Hs]; congruence.
  - intros p p' Hj Ha. unfold released. by rewrite Hj.
Qed.

Lemma stable_held : stable Held.
Proof.
  split.
  - intros p p' [Ho _] (j & Hj & Hm). destruct (Ho j Hj) as (j' & Hj' & Hle). exists j'. split; [done|]. intros Hl.
    destruct (Hle Hl) as (Hl0 & _ & Hs & _). destruct Hs as [Hs|Hs]; [|by right]. rewrite Hs. by apply Hm.
  - intros p p' Hj Ha. unfold held. by rewrite Hj.
Qed.

Lemma mine_held st n p : is_lease_holding st = true -> Mine st n p -> Held p.
Proof. intros Hst (j & Hj & Hm). exists j. split; [done|]. intros Hl. destruct (Hm Hl) as [[->| ->] _]; auto. Qed.

Lemma released_held p : Released p -> Held p.
Proof. intros (j & Hj & Hm). exists j. split; [done|]. auto. Qed.

(** What holds where an exception leaves the code. *)
Definition failed (e : exn) (p : Process) : Prop := Held p /\ (lost_right e = true -> Released p).

(** From [P], at most [n] calls, then [Q] or a failure; the program ends. *)
Definition spec {A} (n : nat) (m : session A) (P : Process -> Prop) (Q : A -> Process -> Prop) : Prop :=
  forall p tr, P p ->
    wp m (fun r p' tr' => calls tr' <= calls tr + Z.of_nat n /\ match r with Ok a => Q a p' | Raise e => failed e p' end) p tr.

Lemma spec_ret {A} (a : A) P (Q : A -> Process -> Prop) : (forall p, P p -> Q a p) -> spec 0 (mret a) P Q.
Proof. intros HQ p tr Hp. split; [lia|]. by apply HQ. Qed.

Lemma spec_throw {A} e (P : Process -> Prop) (Q : A -> Process -> Prop) : (forall p, P p -> failed e p) -> spec 0 (Throw e) P Q.
Proof. intros HQ p tr Hp. split; [lia|]. by apply HQ. Qed.

Lemma spec_bind {A B} n1 n2 (m : session A) (f : A -> session B) P R Q :
  spec n1 m P R -> (forall a, spec n2 (f a) (R a) Q) -> spec (n1 + n2) (m ≫= f) P Q.
Proof.
  intros Hm Hf p tr Hp. apply wp_bind. eapply wp_mono; [|by apply Hm]. intros [a|e] p' tr' [Hle Hr].
  - eapply wp_mono; [|by apply (Hf a)]. intros r p2 tr2 [Hle2 Hr2]. split; [lia|exact Hr2].
  - split; [lia|exact Hr].
Qed.

(** Sequencing without calls, and with the calls in the second part. *)
Lemma spec_seq {A B} n (m : session A) (f : A -> session B) P R Q :
  spec 0 m P R -> (forall a, spec n (f a) (R a) Q) -> spec n (m ≫= f) P Q.
Proof. apply (spec_bind 0 n). Qed.

Lemma spec_conseq {A} n n' (m : session A) P P' Q Q' :
  spec n m P Q -> (n <= n')%nat -> (forall p, P' p -> P p) -> (forall a p, Q a p -> Q' a p) -> spec n' m P' Q'.
Proof.
  intros Hm Hn HP HQ p tr Hp. eapply wp_mono; [|by apply Hm, HP]. intros [a|e] p' tr' [Hle Hr]; (split; [lia|]); auto.
Qed.

(** Questions leave the tables alone; only a call of the provider counts. *)
Lemma spec_put q P : (match q with CallProvider _ _ => False | _ => True end) -> spec 0 (put q) P (fun _ => P).
Proof. intros Hq p tr Hp a. split; [|done]. rewrite worker_calls_snoc. destruct q; cbn; (done || lia). Qed.

Lemma spec_put_ret {A} q (f : Answer q -> A) P :
  (match q with CallProvider _ _ => False | _ => True end) -> spec 0 (a ← put q; mret (f a)) P (fun _ => P).
Proof. intros Hq. apply (spec_seq 0 _ _ P (fun _ => P)); [by apply spec_put|]. intros a. by apply spec_ret. Qed.

Lemma spec_call provider c P : spec 1 (call_provider provider c) P (fun r p => P p /\ forall e, rp_end r = Raised e -> lost_right e = false).
Proof. intros p tr Hp a. split; [rewrite worker_calls_snoc; cbn; lia|]. split; [done|]. apply (pr_foreign a). Qed.

Lemma foreign_failed e p : lost_right e = false -> Held p -> failed e p.
Proof. intros He Hp. split; [done|]. congruence. Qed.

Lemma spec_of_foreign {A} (r : foreign_result A) P :
  (forall p, P p -> Held p) -> spec 0 (of_foreign r) P (fun _ => P).
Proof.
  intros Hh. destruct r as [a|e]; [by apply spec_ret|]. apply spec_throw. intros p Hp.
  apply foreign_failed; [apply fe_foreign|auto].
Qed.

Lemma spec_of_result {A} (r : result A) P :
  (forall e, r = Raise e -> lost_right e = false) -> (forall p, P p -> Held p) ->
  spec 0 (of_result r) P (fun a p => P p /\ r = Ok a).
Proof.
  intros He Hh. destruct r as [a|e]; [by apply spec_ret|]. apply spec_throw. intros p Hp. apply foreign_failed; auto.
Qed.

(** An operation that leaves the tables alone and returns. *)
Lemma spec_quiet {A} (body : prog Process A) (P : Process -> Prop) :
  stable P ->
  (forall p, is_ok (body p).2 = true /\ jobs (s_world (pr_store (body p).1)) = jobs (s_world (pr_store p)) /\
             s_attempts (pr_store (body p).1) = s_attempts (pr_store p)) ->
  spec 0 (act body) P (fun _ => P).
Proof.
  intros [Ho Hs] Hb p tr Hp. apply wp_act. intros p1 Hp1. destruct (Hb p1) as (Hok & Hj & Ha).
  split; [rewrite worker_calls_snoc; cbn; lia|]. destruct (body p1).2; [|done]. eapply Hs; [exact Hj|exact Ha|]. by eapply Ho.
Qed.

(** ** Writes *)

(** The part of a body after its transition: it appends events and links the decision. *)
Definition quiet (k : prog STx unit) : Prop :=
  forall t, exists t', k t = (t', Ok tt) /\ t_jobs (x_tx t') = t_jobs (x_tx t) /\ x_attempts t' = x_attempts t.

Lemma quiet_event target now message data : quiet (job_event job target now message data).
Proof. intros t. eexists. split; [reflexivity|]. by split. Qed.

Lemma quiet_bind k1 k2 : quiet k1 -> quiet k2 -> quiet (_ ← k1; k2).
Proof.
  intros H1' H2' t. destruct (H1' t) as (t1 & E1 & Hj1 & Ha1). destruct (H2' t1) as (t2 & E2 & Hj2 & Ha2).
  exists t2. rewrite prog_bind_run, E1. split; [done|]. split; congruence.
Qed.

Lemma quiet_link d : quiet (link_opt job d).
Proof. intros t. destruct d; eexists; (split; [reflexivity|]); by split. Qed.

(** A transition of this job on the process, then a quiet rest. *)
Lemma fenced_transition_run st target now reason values t :
  fenced_transition wk job st target now reason values t =
  if is_legal st target then
    match t_jobs (x_tx t) !! id with
    | Some j =>
        if cas_matches st (Some owner) j
        then (mkSTx (mkTx (<[id := assign_all (transition_assignments target now reason values) j]> (t_jobs (x_tx t))) (t_writer (x_tx t)))
                (x_attempts t) (x_decisions t), Ok tt)
        else (t, Raise (TransitionRefused id (state_value st) (state_value target)))
    | None => (t, Raise (TransitionRefused id (state_value st) (state_value target)))
    end
  else (t, Raise (IllegalTransition (state_value st) (state_value target))).
Proof.
  unfold fenced_transition, on_queue. rewrite transition_run. destruct (is_legal st target); [|by destruct t].
  destruct (t_jobs (x_tx t) !! id) as [j|]; [|by destruct t]. destruct (cas_matches _ _ _); [done|by destruct t].
Qed.

(** [job_write] from the run of its body. *)
Lemma job_write_run {A} (body : prog STx A) p t r :
  body (mkSTx (mkTx (jobs (s_world (pr_store p))) (begin_write (ev (s_world (pr_store p))))) (s_attempts (pr_store p)) (s_decisions (pr_store p)))
    = (t, r) ->
  (job_write body p).2 = r /\ pr_registry (job_write body p).1 = pr_registry p /\
  match r with
  | Ok _ => jobs (s_world (pr_store (job_write body p).1)) = t_jobs (x_tx t) /\ s_attempts (pr_store (job_write body p).1) = x_attempts t
  | Raise _ => jobs (s_world (pr_store (job_write body p).1)) = jobs (s_world (pr_store p)) /\
               s_attempts (pr_store (job_write body p).1) = s_attempts (pr_store p)
  end.
Proof. intros E. unfold job_write, store_write. rewrite E. by destruct r. Qed.

Definition gives_up (target : JobState) : bool := is_waiting target || is_terminal target.

(** The row after a transition of this job. *)
Lemma moved_row target now reason values j j1 n (p p' : Process) :
  Forall plain values -> j_attempt j1 = n -> j_lease_owner j1 = Some owner ->
  jobs (s_world (pr_store p')) !! id = Some (assign_all (transition_assignments target now reason values) j1) ->
  (forall r, r ∈ s_attempts (pr_store p') -> at_job_id r = id -> at_attempt r <= n) ->
  jobs (s_world (pr_store p)) !! id = Some j ->
  Mine target n p' /\ (gives_up target = true -> Released p').
Proof.
  intros Hv Ha Hl Hj' Hat Hj. pose proof (transition_result target now reason values j1 Hv) as Hr. cbv zeta in Hr.
  revert Hr Hj'. generalize (assign_all (transition_assignments target now reason values) j1).
  intros j' (Hs & _ & Ha' & _ & _ & _ & Hl' & _) Hj'. split.
  - exists j'. split; [done|]. intros _. split; [by left|]. split; [congruence|done].
  - unfold gives_up. intros Hg. exists j'. split; [done|]. rewrite Hg in Hl'. injection Hl' as Hl' _. congruence.
Qed.

Lemma spec_move st target n values k (now : Z) reason :
  is_legal st target = true -> st <> CANCELLING -> Forall plain values -> quiet k ->
  spec 0 (act (job_write (_ ← fenced_transition wk job st target now reason values; k))) (Mine st n)
    (fun _ p => Mine target n p /\ (gives_up target = true -> Released p)).
Proof.
  intros Hleg Hst Hv Hk p tr Hp. apply wp_act. intros p1 Hp1. apply (proj1 (stable_mine st n)) in Hp1; [|done].
  destruct Hp1 as (j & Hj & Hm).
  set (t0 := mkSTx (mkTx (jobs (s_world (pr_store p1))) (begin_write (ev (s_world (pr_store p1))))) (s_attempts (pr_store p1)) (s_decisions (pr_store p1))).
  assert (Hc : forall o, calls (tr ++ [Acted o.1 o.2]) <= calls tr + Z.of_nat 0) by (intros o; rewrite worker_calls_snoc; cbn; lia).
  split; [apply (Hc (_, _))|].
  destruct (cas_matches st (Some owner) j) eqn:Ecas.
  - unfold cas_matches in Ecas. apply andb_true_iff in Ecas as [Es El]. bool_to_prop.
    destruct (Hm El) as (_ & Han & Hb).
    set (t1 := mkSTx (mkTx (<[id := assign_all (transition_assignments target now reason values) j]> (t_jobs (x_tx t0))) (t_writer (x_tx t0)))
                 (x_attempts t0) (x_decisions t0)).
    destruct (Hk t1) as (t2 & Ek & Hj2 & Ha2).
    destruct (job_write_run (_ ← fenced_transition wk job st target now reason values; k) p1 t2 (Ok tt)) as (-> & _ & Hjobs & Hat).
    { fold t0. rewrite prog_bind_run, fenced_transition_run, Hleg. cbn [x_tx t_jobs t0]. rewrite Hj. unfold cas_matches.
      rewrite !bool_decide_true by done. cbn [andb]. exact Ek. }
    eapply (moved_row target now reason values j j n p1); [done|done|done| | |done].
    + rewrite Hjobs, Hj2. apply lookup_insert_eq.
    + rewrite Hat, Ha2. exact Hb.
  - destruct (job_write_run (_ ← fenced_transition wk job st target now reason values; k) p1 t0
      (Raise (TransitionRefused id (state_value st) (state_value target)))) as (-> & _ & Hjobs & Hat).
    { fold t0. rewrite prog_bind_run, fenced_transition_run, Hleg. cbn [x_tx t_jobs t0]. by rewrite Hj, Ecas. }
    assert (Hrel : Released (job_write (_ ← fenced_transition wk job st target now reason values; k) p1).1).
    { exists j. rewrite Hjobs. split; [done|]. intros El. destruct (Hm El) as ([Es|Es] & _); [|done].
      unfold cas_matches in Ecas. by rewrite !bool_decide_true in Ecas by done. }
    split; [by apply released_held|]. done.
Qed.

Lemma spec_ask {B} q n (f : Answer q -> session B) P Q :
  (match q with CallProvider _ _ => False | _ => True end) -> (forall a, spec n (f a) P Q) -> spec n (put q ≫= f) P Q.
Proof. intros Hq Hf. by apply (spec_seq n _ _ P (fun _ => P)); [apply spec_put|]. Qed.

(** [write_attempt] under the lease, with the next number. *)
Lemma write_attempt_mine record now t j n :
  t_jobs (x_tx t) !! id = Some j -> j_lease_owner j = Some owner -> j_attempt j = n -> ar_attempt record = n + 1 ->
  (forall r, r ∈ x_attempts t -> at_job_id r = id -> at_attempt r <= n) ->
  exists row, at_attempt row = n + 1 /\
  write_attempt id record now (Some owner) t =
  (mkSTx (mkTx (<[id := assign (SetAttempt (n + 1)) j]> (t_jobs (x_tx t))) (t_writer (x_tx t))) (x_attempts t ++ [row]) (x_decisions t),
   Ok (n + 1)).
Proof.
  intros Hj Hl Ha Hr Hb. exists (mkAttemptRow id (n + 1) record (validation_rows record now)). split; [done|].
  rewrite write_attempt_run, Hj, bool_decide_true by done. cbv zeta. rewrite Ha, Hr, Z.eqb_refl. cbn [negb].
  destruct (existsb _ _) eqn:E; [|done]. apply existsb_exists in E as (x & Hx & Hh). unfold holds_attempt in Hh.
  apply andb_true_iff in Hh as [Hh1 Hh2]. bool_to_prop. apply list_elem_of_In in Hx. specialize (Hb x Hx Hh1). lia.
Qed.

Lemma bound_snoc (l : list AttemptRow) row n :
  (forall r, r ∈ l -> at_job_id r = id -> at_attempt r <= n) -> at_attempt row = n + 1 ->
  forall r, r ∈ l ++ [row] -> at_job_id r = id -> at_attempt r <= n + 1.
Proof.
  intros Hb Hr r Hin Hid. apply elem_of_app in Hin as [Hin|Hin]; [specialize (Hb r Hin Hid); lia|].
  apply list_elem_of_singleton in Hin as ->. lia.
Qed.

(** The attempt and the move out of [executing], in one transaction. *)
Lemma spec_outcome_write target reason record (now : Z) n k :
  is_legal EXECUTING target = true -> ar_attempt record = n + 1 -> quiet k ->
  spec 0 (act (job_write (_ ← write_attempt id record now (Some owner);
                          _ ← fenced_transition wk job EXECUTING target now reason []; k)))
    (Mine EXECUTING n) (fun _ => Mine target (n + 1)).
Proof.
  intros Hleg Hr Hk p tr Hp. apply wp_act. intros p1 Hp1. apply (proj1 (stable_mine EXECUTING n)) in Hp1; [|done].
  destruct Hp1 as (j & Hj & Hm).
  set (t0 := mkSTx (mkTx (jobs (s_world (pr_store p1))) (begin_write (ev (s_world (pr_store p1))))) (s_attempts (pr_store p1)) (s_decisions (pr_store p1))).
  split; [rewrite worker_calls_snoc; cbn; lia|].
  set (body := _ ← write_attempt id record now (Some owner); _ ← fenced_transition wk job EXECUTING target now reason []; k).
  destruct (decide (j_lease_owner j = Some owner)) as [El|El].
  - destruct (Hm El) as (Hs & Han & Hb).
    destruct (write_attempt_mine record now t0 j n Hj El Han Hr Hb) as (row & Hrow & Ew).
    set (t1 := mkSTx _ _ _) in Ew. set (j1 := assign (SetAttempt (n + 1)) j) in *.
    assert (Hj1 : t_jobs (x_tx t1) !! id = Some j1) by apply lookup_insert_eq.
    destruct (cas_matches EXECUTING (Some owner) j1) eqn:Ecas.
    + set (t2 := mkSTx (mkTx (<[id := assign_all (transition_assignments target now reason []) j1]> (t_jobs (x_tx t1))) (t_writer (x_tx t1)))
                   (x_attempts t1) (x_decisions t1)).
      destruct (Hk t2) as (t3 & Ek & Hj3 & Ha3).
      destruct (job_write_run body p1 t3 (Ok tt)) as (-> & _ & Hjobs & Hat).
      { fold t0. unfold body. rewrite prog_bind_run, Ew, prog_bind_run, fenced_transition_run, Hleg, Hj1, Ecas. exact Ek. }
      eapply (moved_row target now reason [] j j1 (n + 1) p1); [done|done|exact El| | |done].
      * rewrite Hjobs, Hj3. apply lookup_insert_eq.
      * rewrite Hat, Ha3. by apply bound_snoc.
    + destruct (job_write_run body p1 t1 (Raise (TransitionRefused id (state_value EXECUTING) (state_value target)))) as (-> & _ & Hjobs & Hat).
      { fold t0. unfold body. rewrite prog_bind_run, Ew, prog_bind_run, fenced_transition_run, Hleg, Hj1, Ecas. done. }
      assert (Hrel : Released (job_write body p1).1).
      { exists j. rewrite Hjobs. split; [done|]. intros _. destruct Hs as [Hs|Hs]; [|done].
        unfold cas_matches in Ecas. unfold j1 in Ecas. cbn [j_state j_lease_owner assign] in Ecas.
        by rewrite !bool_decide_true in Ecas by done. }
      split; [by apply released_held|done].
  - destruct (job_write_run body p1 t0 (Raise (AttemptRefused id (ar_attempt record)))) as (-> & _ & Hjobs & Hat).
    { fold t0. unfold body. rewrite prog_bind_run, write_attempt_run. cbn [x_tx t_jobs t0]. rewrite Hj.
      by rewrite bool_decide_false by done. }
    assert (Hrel : Released (job_write body p1).1) by (exists j; rewrite Hjobs; by split).
    split; [by apply released_held|done].
Qed.

Lemma spec_update f P : stable P -> spec 0 (act (registry_write (update_entry id owner f))) P (fun _ => P).
Proof. intros Hs. by apply spec_quiet. Qed.

Lemma spec_write_outcome target reason record n :
  is_legal EXECUTING target = true -> ar_attempt record = n + 1 ->
  spec 0 (write_outcome wk job target reason record) (Mine EXECUTING n) (fun s p => s = target /\ Mine target (n + 1) p).
Proof.
  intros Hleg Hr. unfold write_outcome. apply (spec_ask Now); [done|]. intros now.
  eapply spec_seq; [apply spec_outcome_write; [done|done|apply quiet_event]|]. intros []. cbn beta.
  eapply spec_seq; [apply spec_update, stable_mine|]. intros []. cbn beta.
  apply (spec_ask (RecomputePair (ar_model_id record) (Submission.task (c_submission job)))); [done|]. intros [].
  apply spec_ret. intros p Hp. by split.
Qed.

(** A cancellation always lets the job go. *)
Lemma spec_cancel_from st n records :
  is_lease_holding st = true ->
  (forall r, last_cancelled records = Some r -> ar_attempt r = n + 1) ->
  spec 0 (cancel_from wk job records) (Mine st n) (fun _ => Released).
Proof.
  intros Hst Hrec. unfold cancel_from. apply (spec_ask Now); [done|]. intros now.
  intros p tr Hp. apply wp_act. intros p1 Hp1. apply (proj1 (stable_mine st n)) in Hp1; [|done].
  destruct Hp1 as (j & Hj & Hm).
  set (t0 := mkSTx (mkTx (jobs (s_world (pr_store p1))) (begin_write (ev (s_world (pr_store p1))))) (s_attempts (pr_store p1)) (s_decisions (pr_store p1))).
  split; [rewrite worker_calls_snoc; cbn; lia|]. set (body := cancel_body wk job records now).
  destruct (decide (j_lease_owner j = Some owner)) as [El|El].
  2:{ destruct (job_write_run body p1 t0 (Raise (TransitionRefused id "" ""))) as (-> & _ & Hjobs & Hat).
      { fold t0. unfold body, cancel_body. rewrite bind_get. cbn [x_tx t_jobs t0]. rewrite Hj. by rewrite bool_decide_false by done. }
      assert (Hrel : Released (job_write body p1).1) by (exists j; rewrite Hjobs; by split).
      split; [by apply released_held|done]. }
  destruct (Hm El) as (Hs & Han & Hb).
  (* the attempt, when the last one was cancelled *)
  assert (Hatt : exists t1 j1, (match last_cancelled records with
                                | Some r => _ ← write_attempt id r now (Some owner); mret tt
                                | None => mret tt end) t0 = (t1, Ok tt) /\
            t_jobs (x_tx t1) !! id = Some j1 /\ j_state j1 = j_state j /\ j_lease_owner j1 = Some owner).
  { destruct (last_cancelled records) as [r|] eqn:Er.
    - destruct (write_attempt_mine r now t0 j n Hj El Han (Hrec r eq_refl) Hb) as (row & _ & Ew).
      eexists _, (assign (SetAttempt (n + 1)) j). split; [by rewrite prog_bind_run, Ew|].
      split; [apply lookup_insert_eq|]. by split.
    - exists t0, j. by split. }
  destruct Hatt as (t1 & j1 & E1 & Hj1 & Hs1 & Hl1).
  (* to [cancelling] *)
  assert (Hcan : exists t2 j2, (if bool_decide (j_state j = CANCELLING) then mret tt
             else _ ← fenced_transition wk job (j_state j) CANCELLING now (Some "cancel_requested") [];
                  job_event job CANCELLING now ("cancel requested in " +:+ state_value (j_state j)) [("previous_state", JStr (state_value (j_state j)))]) t1
            = (t2, Ok tt) /\ t_jobs (x_tx t2) !! id = Some j2 /\ j_state j2 = CANCELLING /\ j_lease_owner j2 = Some owner).
  { case_bool_decide as Ec.
    - exists t1, j1. split; [done|]. split; [done|]. split; [congruence|done].
    - assert (Hleg : is_legal (j_state j) CANCELLING = true) by (destruct Hs as [->|]; [by destruct st|done]).
      assert (Hcas : cas_matches (j_state j) (Some owner) j1 = true)
        by (unfold cas_matches; by rewrite Hs1, Hl1, !bool_decide_true by done).
      rewrite prog_bind_run, fenced_transition_run, Hleg, Hj1, Hcas. eexists _, _. split; [reflexivity|].
      split; [apply lookup_insert_eq|].
      pose proof (transition_result CANCELLING now (Some "cancel_requested") [] j1 ltac:(done)) as (Ht & _ & _ & _ & _ & _ & Hlo & _).
      split; [exact Ht|]. apply (f_equal fst) in Hlo. cbn [fst] in Hlo. etrans; [exact Hlo|exact Hl1]. }
  destruct Hcan as (t2 & j2 & E2 & Hj2 & Hs2 & Hl2).
  set (values := [SetErrorCode (Some "GENERATION_CANCELLED"); SetCancelRequested true]).
  assert (Hv : Forall plain values) by (by repeat constructor).
  assert (Hcas : cas_matches CANCELLING (Some owner) j2 = true)
    by (unfold cas_matches; by rewrite Hs2, Hl2, !bool_decide_true by done).
  pose proof (transition_result CANCELLED now (Some "GENERATION_CANCELLED") values j2 Hv) as (_ & _ & _ & _ & _ & _ & Hlo & _).
  eassert (Erun : body t0 = (_, Ok tt)).
  { unfold body, cancel_body. rewrite bind_get. cbn [x_tx t_jobs t0]. rewrite Hj, bool_decide_true by done. cbv zeta.
    rewrite prog_bind_run, E1, prog_bind_run, E2, prog_bind_run, fenced_transition_run, Hj2.
    fold values. rewrite Hcas. reflexivity. }
  destruct (job_write_run body p1 _ _ Erun) as (-> & _ & Hjobs & _).
  eexists. rewrite Hjobs. split; [apply lookup_insert_eq|]. intros Hl'. apply (f_equal fst) in Hlo.
  cbn [fst] in Hlo. rewrite Hlo in Hl'. discriminate Hl'.
Qed.

Lemma spec_fail started st n records code :
  st = ADMITTED \/ st = RETRYING \/ st = VALIDATING ->
  spec 0 (fail_job wk job started st records code) (Mine st n) (fun _ => Released).
Proof.
  intros Hst. unfold fail_job. apply (spec_ask Now); [done|]. intros now.
  apply (spec_ask PerfMs); [done|]. intros ended.
  eapply spec_conseq; [apply (spec_move st FAILED n); [|by destruct Hst as [->|[->| ->]]|by repeat constructor|apply quiet_event]|lia|done|].
  - by destruct Hst as [->|[->| ->]].
  - intros _ p [_ Hg]. by apply Hg.
Qed.

(** ** The parts of a job *)

Definition not_lost (e : exn) : Prop := lost_right e = false.

(** Neither ModelRack's messages nor its requests raise a refusal of the queue. *)
Context (messages_foreign : forall role content i tc, raises_only not_lost (make_message role content i tc)).
Context (requests_foreign : forall c e, refusal c = Some e -> not_lost e).

Lemma raises_weaken {A} (E F : exn -> Prop) (r : result A) : (forall e, E e -> F e) -> raises_only E r -> raises_only F r.
Proof. intros HEF Hr e He. by apply HEF, Hr. Qed.

Lemma check_not_lost e : check_error e -> not_lost e.
Proof. by destruct e. Qed.

Lemma raises_generate_request s : raises_only not_lost (to_generate_request profile_of_wire s).
Proof.
  unfold to_generate_request. apply raises_bind; [|intros; apply raises_ok]. unfold Submission.transcript.
  destruct (messages s); [apply raises_ok|]. apply raises_bind.
  { destruct (system s); [|apply raises_ok]. apply raises_bind; [apply messages_foreign|]. intros; apply raises_ok. }
  intros turns _. apply raises_bind; [apply messages_foreign|]. intros; apply raises_ok.
Qed.

Lemma raises_transcript r : raises_only not_lost (Generation.transcript r).
Proof.
  unfold Generation.transcript. destruct (gr_messages r); [apply raises_ok|]. apply raises_bind.
  { destruct (gr_system r); [|apply raises_ok]. apply raises_bind; [apply messages_foreign|]. intros; apply raises_ok. }
  intros turns _. apply raises_bind; [apply messages_foreign|]. intros; apply raises_ok.
Qed.

Lemma raises_corrective turns text v schema : raises_only not_lost (corrective_turns ASSISTANT turns text v schema).
Proof.
  unfold corrective_turns. cbv zeta. apply raises_bind.
  { destruct (bool_decide (text = "")); [apply raises_ok|]. apply raises_bind; [apply messages_foreign|]. intros; apply raises_ok. }
  intros answer _. apply raises_bind.
  { match goal with |- context [pt_system ?c] => destruct (pt_system c) end; [|apply raises_ok].
    destruct (bool_decide _); [apply raises_ok|]. apply raises_bind; [apply messages_foreign|]. intros; apply raises_ok. }
  intros sys _. apply raises_bind; [apply messages_foreign|]. intros; apply raises_ok.
Qed.

(** [of_result] of what raises nothing of the queue's, followed by the rest. *)
Lemma spec_result {A B} n (r : result A) (f : A -> session B) P Q :
  raises_only not_lost r -> (forall p, P p -> Held p) -> (forall a, r = Ok a -> spec n (f a) P Q) ->
  spec n (of_result r ≫= f) P Q.
Proof.
  intros Hr Hh Hf p tr Hp. apply wp_bind, wp_of_result. destruct r as [a|e]; [by apply Hf|].
  split; [lia|]. apply foreign_failed; [by apply Hr|auto].
Qed.

Lemma spec_foreign {A B} n (r : foreign_result A) (f : A -> session B) P Q :
  (forall p, P p -> Held p) -> (forall a, spec n (f a) P Q) -> spec n (of_foreign r ≫= f) P Q.
Proof. intros Hh Hf. by apply (spec_seq n _ _ P (fun _ => P)); [apply spec_of_foreign|]. Qed.

Lemma mine_leased_held st n : is_lease_holding st = true -> forall p, Mine st n p -> Held p.
Proof. intros Hst p. by apply mine_held. Qed.

(** What the route leaves of the job. *)
Definition routed_as (n : Z) (o : option (Explanation.Explanation * Routing.StoredTaskProfile)) (p : Process) : Prop :=
  match o with Some _ => Mine LEASED n p | None => Released p end.

Lemma spec_route n : spec 0 (route_job profile_of_wire wk job) (Mine LEASED n) (routed_as n).
Proof.
  pose proof (mine_leased_held LEASED n eq_refl) as Hh. unfold route_job.
  apply spec_result; [apply raises_generate_request|done|]. intros request _.
  apply spec_result; [apply raises_transcript|done|]. intros turns _.
  apply (spec_ask Now); [done|]. intros now. apply (spec_ask (RefreshBreakers now)); [done|]. intros refreshed.
  apply spec_foreign; [done|]. intros _.
  apply spec_result; [unfold worker_route_request; apply raises_bind; [|intros; apply raises_ok];
    eapply raises_weaken; [|apply raises_estimate]; by intros e <-|done|]. intros to_route _.
  apply (spec_ask (Route to_route)); [done|]. intros answer. cbn in answer.
  destruct answer as [explanation profile|decision_id rejected message details|e].
  - by apply spec_ret.
  - apply spec_result; [eapply raises_weaken; [|apply raises_classify]; by intros e <-|done|]. intros verdict _.
    apply (spec_seq 0 _ _ _ (fun _ => Released)); [|intros _; by apply spec_ret].
    destruct (defer verdict).
    + apply (spec_ask Now); [done|]. intros t. eapply spec_conseq;
        [apply (spec_move LEASED WAITING_RESOURCES n); [done|done|by repeat constructor|apply quiet_bind; [apply quiet_link|apply quiet_event]]|lia|done|].
      intros [] p [_ Hg]. by apply Hg.
    + apply (spec_ask Now); [done|]. intros t. eapply spec_conseq;
        [apply (spec_move LEASED FAILED n); [done|done|by repeat constructor|apply quiet_bind; [apply quiet_link|apply quiet_event]]|lia|done|].
      intros [] p [_ Hg]. by apply Hg.
  - apply spec_throw. intros p Hp. apply foreign_failed; [apply fe_foreign|auto].
Qed.

Lemma spec_enter c n : spec 0 (act (enter_model wk job c)) (Mine ADMITTED n) (fun _ => Mine ADMITTED n).
Proof. apply spec_update, stable_mine. Qed.

Lemma spec_admit explanation n :
  spec 0 (admit_job wk job explanation) (Mine LEASED n) (fun _ p => Mine ADMITTED n p /\ is_Some (primary (ex_ranking explanation))).
Proof.
  unfold admit_job. destruct (primary _) as [c|].
  - apply (spec_ask Now); [done|]. intros now. apply (spec_seq 0 _ _ _ (fun _ => Mine ADMITTED n)).
    + eapply spec_conseq; [apply (spec_move LEASED ADMITTED n); [done|done|apply plain_selection|]|lia|done|by intros [] p [Hm _]].
      apply quiet_bind; [apply (quiet_link (Some (ex_decision_id explanation)))|apply quiet_event].
    + intros u0. eapply spec_conseq; [apply spec_enter|lia|done|]. intros u p Hp. split; [exact Hp|by exists c].
  - apply spec_throw. intros p Hp. apply foreign_failed; [done|by apply (mine_held LEASED n)].
Qed.

Lemma spec_token_stopped P : stable P -> spec 0 (act (token_stopped wk job)) P (fun _ => P).
Proof. intros Hs. by apply spec_quiet. Qed.

Lemma spec_token_cancelled P : stable P -> spec 0 (act (token_cancelled wk job)) P (fun _ => P).
Proof. intros Hs. by apply spec_quiet. Qed.

Lemma spec_cancel_requested st n : spec 0 (act (cancel_requested job)) (Mine st n) (fun _ => Mine st n).
Proof.
  intros p tr Hp. apply wp_act. intros p1 Hp1. apply (proj1 (stable_mine st n)) in Hp1; [|done].
  split; [rewrite worker_calls_snoc; cbn; lia|]. unfold cancel_requested. cbn.
  assert (Hrow : is_Some (jobs (s_world (pr_store p1)) !! id)) by (destruct Hp1 as (j & Hj & _); by exists j).
  destruct Hrow as [j Hj]. by rewrite Hj.
Qed.

(** What [_readmit] leaves: the job admitted again, or cancelled. *)
Definition readmitted_as (n : Z) (o : option JobState) (p : Process) : Prop :=
  match o with Some s => s = ADMITTED /\ Mine ADMITTED n p | None => Released p end.

Lemma spec_readmit st c why retry n :
  st = RETRYING \/ st = VALIDATING -> spec 0 (readmit wk job st c why retry) (Mine st n) (readmitted_as n).
Proof.
  intros Hst. unfold readmit. apply (spec_seq 0 _ _ _ (fun _ => Mine RETRYING n)).
  { case_bool_decide as E; [subst st; by apply spec_ret|]. destruct Hst as [->| ->]; [done|].
    apply (spec_ask Now); [done|]. intros now. apply (spec_seq 0 _ _ _ (fun _ => Mine RETRYING n)).
    - eapply spec_conseq; [apply (spec_move VALIDATING RETRYING n); [done|done|done|apply quiet_event]|lia|done|by intros [] p [Hm _]].
    - intros _. apply spec_update, stable_mine. }
  intros _. apply (spec_seq 0 _ _ _ (fun _ => Mine RETRYING n)).
  { destruct (0 <? retry); [|by apply spec_ret]. apply (spec_ask Jitter); [done|]. intros jitter.
    apply spec_result; [eapply raises_weaken; [|apply raises_backoff]; by intros e <-|by apply mine_leased_held|]. intros backoff _.
    destruct (0 <? backoff); [by apply (spec_put (Sleep backoff))|by apply spec_ret]. }
  intros _. apply (spec_seq 0 _ _ _ (fun _ => Mine RETRYING n)); [apply spec_token_stopped, stable_mine|]. intros [].
  - apply (spec_seq 0 _ _ _ (fun _ => Released)); [by apply spec_cancel_from|]. intros _. by apply spec_ret.
  - apply (spec_ask Now); [done|]. intros now. apply (spec_seq 0 _ _ _ (fun _ => Mine ADMITTED n)).
    + eapply spec_conseq; [apply (spec_move RETRYING ADMITTED n); [done|done|apply plain_selection|apply quiet_event]|lia|done|by intros [] p [Hm _]].
    + intros _. apply (spec_seq 0 _ _ _ (fun _ => Mine ADMITTED n)); [apply spec_enter|]. intros _. by apply spec_ret.
Qed.

Lemma spec_start_executing n number residency :
  spec 0 (start_executing wk job ADMITTED number residency) (Mine ADMITTED n) (fun _ => Mine EXECUTING n).
Proof.
  unfold start_executing. apply (spec_ask Now); [done|]. intros now. apply (spec_seq 0 _ _ _ (fun _ => Mine EXECUTING n)).
  - eapply spec_conseq; [apply (spec_move ADMITTED EXECUTING n); [done|done| |apply quiet_event]|lia|done|by intros [] p [Hm _]].
    destruct ((_ =? _) && (_ =? _)); by repeat constructor.
  - intros _. apply (spec_seq 0 _ _ _ (fun _ => Mine EXECUTING n)); [apply spec_update, stable_mine|]. intros _. by apply spec_ret.
Qed.

(** What one attempt reports. *)
Definition attempt_ok (number : Z) (o : Generation.AttemptOutcome) : Prop :=
  ar_attempt (ao_record o) = number /\
  (ar_outcome (ao_record o) = "cancelled" -> ao_cancelled o = true) /\
  (ao_failure o = None -> is_Some (ao_validation o)).

Lemma spec_run_attempt provider request c turns number schema ep vp timeout correction n :
  spec 1 (run_attempt (put Now) call_provider (emit job) refusal provider request c turns number schema ep vp timeout correction)
    (Mine EXECUTING n) (fun o p => attempt_ok number o /\ Mine EXECUTING n p).
Proof.
  pose proof (mine_leased_held EXECUTING n eq_refl) as Hh. unfold run_attempt.
  apply (spec_ask Now); [done|]. intros started. cbv zeta.
  match goal with |- context [refusal ?x] => set (call := x) end.
  destruct (refusal call) as [e|] eqn:Er.
  { intros p tr Hp. split; [lia|]. apply foreign_failed; [by eapply requests_foreign|auto]. }
  apply (spec_bind 1 0 _ _ _ _ _ (spec_call provider call (Mine EXECUTING n))). intros reply.
  destruct (run_stream reply) as [drained chunks] eqn:Es.
  set (R := fun p => Mine EXECUTING n p /\ forall e, rp_end reply = Raised e -> lost_right e = false).
  assert (HsR : stable R).
  { destruct (stable_mine EXECUTING n) as [H1' H2']. split.
    - intros p p' Ho [Hp Hf]. split; [by eapply H1'|done].
    - intros p p' Hj Ha [Hp Hf]. split; [by eapply H2'|done]. }
  apply (spec_seq 0 _ _ R (fun _ => R)).
  { unfold emit. case_match; [by apply spec_quiet|by apply spec_ret]. }
  intros _ p tr [Hp Hf]. apply wp_bind, wp_of_result. destruct drained as [collected|e].
  2:{ split; [lia|]. apply foreign_failed; [|auto]. apply Hf. by eapply run_stream_raise. }
  match goal with |- Dialogue.wp _ ?m _ _ _ =>
    enough (Hs : spec 0 m (Mine EXECUTING n) (fun o p => attempt_ok number o /\ Mine EXECUTING n p)) by exact (Hs p tr Hp) end.
  clear p tr Hp.
  destruct (co_failure collected) as [f|].
  - apply (spec_ask Now); [done|]. intros completed. apply spec_ret. intros p Hp. split; [|done].
    split; [done|]. cbn. split; [|done]. destruct (error_is f GenerationCancelled); [done|]. unfold failure_outcome.
    by repeat case_match.
  - apply spec_result; [eapply raises_weaken; [|apply raises_validate_output]; apply check_not_lost|done|]. intros v _.
    apply (spec_ask Now); [done|]. intros completed. apply spec_ret. intros p Hp. split; [|done].
    split; [done|]. cbn. split; [by case_bool_decide|]. intros _. by eexists.
Qed.

Lemma spec_complete explanation started records outcome c n :
  spec 0 (complete wk job explanation started records outcome c) (Mine VALIDATING n) (fun _ => Released).
Proof.
  unfold complete. apply (spec_ask Now); [done|]. intros now.
  assert (Hthrow : spec 0 (Throw AssertionError : session unit) (Mine VALIDATING n) (fun _ => Released)).
  { apply spec_throw. intros p Hp. apply foreign_failed; [done|by apply (mine_held VALIDATING n)]. }
  destruct (ao_result outcome) as [result|]; [|done]. destruct (ao_validation outcome) as [v|]; [|done].
  apply (spec_ask PerfMs); [done|]. intros ended.
  apply (spec_ask (SupportsStreaming (provider_for (wk_provider wk) (wk_registrations wk) (mf_provider_name (es_facts (rc_subject c)))))); [done|].
  intros streaming. apply (spec_seq 0 _ _ _ (fun _ => Mine VALIDATING n)).
  { apply spec_quiet; [apply stable_mine|done]. }
  intros waited. eapply spec_conseq; [apply (spec_move VALIDATING COMPLETED n); [done|done| |apply quiet_event]|lia|done|].
  - apply Forall_app. split; [apply plain_result|by repeat constructor].
  - intros [] p [_ Hg]. by apply Hg.
Qed.

(** One step of a program whose first part meets a specification. *)
Lemma wp_step {A B} n (m : session A) (f : A -> session B) P R (Post : result B -> Process -> list (Obs Process Answer) -> Prop) p tr :
  spec n m P R -> P p ->
  (forall a p' tr', calls tr' <= calls tr + Z.of_nat n -> R a p' -> wp (f a) Post p' tr') ->
  (forall e p' tr', calls tr' <= calls tr + Z.of_nat n -> failed e p' -> Post (Raise e) p' tr') ->
  wp (m ≫= f) Post p tr.
Proof.
  intros Hm Hp Hf He. apply wp_bind. eapply wp_mono; [|by apply Hm]. intros [a|e] p' tr' [Hle Hr]; auto.
Qed.

Lemma next_candidate_later served i larger i' :
  next_candidate_index served i larger = Ok (Some i') -> (i < i' < length served)%nat.
Proof.
  unfold next_candidate_index. intros E. apply bind_Ok_inv in E as (floor & _ & E). injection E as E.
  apply first_above_spec in E as (j & c & -> & Hj & _). apply lookup_lt_Some in Hj. rewrite length_drop in Hj. lia.
Qed.

Lemma last_cancelled_snoc records o n :
  attempt_ok n o -> last_cancelled (records ++ [ao_record o]) = if bool_decide (ar_outcome (ao_record o) = "cancelled") then Some (ao_record o) else None.
Proof. intros _. unfold last_cancelled. by rewrite last_snoc. Qed.

(** The state between two candidates. *)
Definition progress_ok (pg : Progress) (p : Process) : Prop :=
  Mine (pg_state pg) (pg_number pg) p /\ last_cancelled (pg_records pg) = None /\
  (pg_state pg = ADMITTED \/ pg_state pg = RETRYING \/ pg_state pg = VALIDATING).

Lemma spec_prepare c n : spec 0 (prepare wk job c) (Mine ADMITTED n) (fun _ => Mine ADMITTED n).
Proof.
  unfold prepare. apply (spec_seq 0 _ _ _ (fun _ => Mine ADMITTED n)).
  { unfold ensure_resident. apply (spec_ask (EnsureLoaded c)); [done|]. intros loaded.
    apply spec_foreign; [by apply mine_leased_held|]. intros found.
    apply (spec_seq 0 _ _ _ (fun _ => Mine ADMITTED n)); [|intros _; by apply spec_ret].
    destruct (snd found); [by apply spec_quiet; [apply stable_mine|]|by apply spec_ret]. }
  intros residency. apply (spec_seq 0 _ _ _ (fun _ => Mine ADMITTED n)); [apply spec_token_stopped, stable_mine|].
  intros stopped. apply (spec_seq 0 _ _ _ (fun _ => Mine ADMITTED n)); [|intros asked; by apply spec_ret].
  destruct stopped; [by apply spec_ret|apply spec_cancel_requested].
Qed.

(** A settled job is let go; anything else is left to the loop. *)
Definition settled_as (t : Turned) (p : Process) : Prop := match t with Settled => Released p | Onward _ _ => False end.

Lemma spec_cancel_attempts holds c records st n :
  is_lease_holding st = true -> (forall r, last_cancelled records = Some r -> ar_attempt r = n + 1) ->
  spec 0 (cancel_attempts wk job holds c records) (Mine st n) settled_as.
Proof.
  intros Hst Hr. unfold cancel_attempts. apply (spec_seq 0 _ _ _ (fun _ => Mine st n)).
  { destruct holds; [by apply (spec_put (ReleaseProbe _))|by apply spec_ret]. }
  intros _. apply (spec_seq 0 _ _ _ (fun _ => Released)); [by apply spec_cancel_from|]. intros _. by apply spec_ret.
Qed.

Lemma spec_settle explanation started records o c n :
  attempt_ok (n + 1) o ->
  spec 0 (settle_attempt wk job explanation started records o c) (Mine EXECUTING n)
    (fun r p => match r with
                | None => Released p
                | Some (_, st) => (st = RETRYING \/ st = VALIDATING) /\ Mine st (n + 1) p
                end).
Proof.
  intros (Hnum & _ & Hval). unfold settle_attempt. destruct (ao_failure o) as [f|].
  - eapply spec_seq; [by apply (spec_write_outcome RETRYING _ _ n)|]. intros st. cbn beta. apply spec_ret. intros p [-> Hp]. auto.
  - destruct (Hval eq_refl) as [v ->]. eapply spec_seq; [by apply (spec_write_outcome VALIDATING _ _ n)|]. intros st. cbn beta.
    destruct (passed o).
    + apply (spec_seq 0 _ _ _ (fun _ => Released)); [|intros _; by apply spec_ret].
      eapply spec_conseq; [apply (spec_complete explanation started records o c (n + 1))|lia|by intros p [_ Hp]|done].
    + apply spec_ret. intros p [-> Hp]. auto.
Qed.

Lemma spec_retry_turns schema turns0 kind o turns correction st n :
  is_lease_holding st = true ->
  spec 0 (retry_turns ASSISTANT schema turns0 kind o turns correction) (Mine st n) (fun _ => Mine st n).
Proof.
  intros Hst. assert (Hthrow : spec 0 (Throw AssertionError : session (list Message * option RenderedPrompt)) (Mine st n) (fun _ => Mine st n)).
  { apply spec_throw. intros p Hp. apply foreign_failed; [done|by apply (mine_held st n)]. }
  unfold retry_turns. destruct kind; try (by apply spec_ret). destruct (ao_validation o) as [v|]; [|exact Hthrow].
  apply spec_result; [apply raises_corrective|by apply mine_leased_held|]. intros r _. by apply spec_ret.
Qed.

Section loops.
Context (explanation : Explanation.Explanation) (profile : Routing.StoredTaskProfile) (schema : option json) (started : Z)
  (request : GenerateRequest) (turns0 : list Message) (served : list Z).

#[local] Abbreviation max := (j_max_attempts (c_job job)).
#[local] Abbreviation loop := (attempt_loop ASSISTANT refusal wk job explanation profile schema started request turns0 served).

(** How the attempts on a candidate end, from [number] attempts and [calls0] calls. *)
Definition turned_ok (index : nat) (number calls0 : Z) (r : result Turned) (p : Process) (tr : list (Obs Process Answer)) : Prop :=
  calls tr <= calls0 + Z.max 0 (max - number) /\
  match r with
  | Ok Settled => Released p
  | Ok (Onward next pg) =>
      progress_ok pg p /\ number <= pg_number pg <= max /\ calls tr <= calls0 + (pg_number pg - number) /\
      (pg_state pg = RETRYING \/ pg_state pg = VALIDATING) /\
      (match next with Some i => (index < i < length served)%nat | None => True end)
  | Raise e => failed e p
  end.

Lemma turned_fails index number calls0 e p tr :
  calls tr <= calls0 + Z.max 0 (max - number) -> failed e p -> turned_ok index number calls0 (Raise e) p tr.
Proof. by split. Qed.

Lemma turned_settles index number calls0 t p tr :
  calls tr <= calls0 + Z.max 0 (max - number) -> settled_as t p -> turned_ok index number calls0 (Ok t) p tr.
Proof. intros Hc Ht. split; [done|]. by destruct t. Qed.

(** The end of a program that settles the job. *)
Lemma wp_settles n (m : session Turned) index number calls0 st k p tr :
  spec n m (Mine st k) settled_as -> Mine st k p -> calls tr + Z.of_nat n <= calls0 + Z.max 0 (max - number) ->
  wp m (turned_ok index number calls0) p tr.
Proof.
  intros Hm Hp Hc. eapply wp_mono; [|by apply Hm]. intros [t|e] p' tr' [Hle Hr].
  - apply turned_settles; [lia|done].
  - apply turned_fails; [lia|done].
Qed.

Lemma spec_fail_settles st n records code :
  st = ADMITTED \/ st = RETRYING \/ st = VALIDATING ->
  spec 0 (_ ← fail_job wk job started st records code; mret Settled) (Mine st n) settled_as.
Proof. intros Hst. apply (spec_seq 0 _ _ _ (fun _ => Released)); [by apply spec_fail|]. intros _. by apply spec_ret. Qed.

Lemma attempt_loop_wp n index c holds turns correction here pg p tr :
  (Z.to_nat (max - pg_number pg) < n)%nat -> pg_state pg = ADMITTED -> last_cancelled (pg_records pg) = None ->
  Mine ADMITTED (pg_number pg) p ->
  wp (loop n index c holds turns correction here pg) (turned_ok index (pg_number pg) (calls tr)) p tr.
Proof.
  revert turns correction here pg p tr. induction n as [|n IH]; intros turns correction here pg p tr Hn Hst Hlast Hp; [lia|].
  cbn [attempt_loop]. destruct (max <=? pg_number pg) eqn:Emax; bool_to_prop.
  { rewrite Hst. eapply (wp_settles 0); [apply (spec_fail_settles ADMITTED (pg_number pg)); by left|done|lia]. }
  set (k := pg_number pg) in *. cbv zeta.
  eapply (wp_step 0); [apply (spec_prepare c k)|exact Hp| |intros e p1 tr1 Hc1 Hf; apply turned_fails; [lia|done]].
  intros [residency []] p1 tr1 Hc1 Hp1; cbn [snd fst].
  { eapply (wp_settles 0); [apply (spec_cancel_attempts holds c (pg_records pg) ADMITTED k); [done|congruence]|exact Hp1|lia]. }
  rewrite Hst. eapply (wp_step 0); [apply (spec_start_executing k)|exact Hp1| |intros e p2 tr2 Hc2 Hf; apply turned_fails; [lia|done]].
  intros s2 p2 tr2 Hc2 Hp2. cbn beta in Hp2.
  eapply (wp_step 1); [apply (spec_run_attempt _ _ _ _ _ _ _ _ _ _ k)|exact Hp2| |intros e p3 tr3 Hc3 Hf; apply turned_fails; [lia|done]].
  intros o p3 tr3 Hc3 [Hok Hp3].
  eapply (wp_step 0 _ _ _ (fun _ => Mine EXECUTING k)); [by apply (spec_put (RecordUse c))|exact Hp3| |intros e p4 tr4 Hc4 Hf; apply turned_fails; [lia|done]].
  intros [] p4 tr4 Hc4 Hp4.
  pose proof Hok as (Hnum & Hcan & _). pose proof (last_cancelled_snoc (pg_records pg) o _ Hok) as Hlast'.
  eapply (wp_step 0 _ _ _ (fun b p => (b = false -> ao_cancelled o = false) /\ Mine EXECUTING k p)); [|exact Hp4| |intros e p5 tr5 Hc5 Hf; apply turned_fails; [lia|done]].
  { destruct (ao_cancelled o) eqn:Eo; [by apply spec_ret|].
    eapply spec_conseq; [apply spec_token_cancelled, stable_mine|lia|done|by intros b p5]. }
  intros cancelled p5 tr5 Hc5 [Hno Hp5]. destruct cancelled.
  { eapply (wp_settles 0); [apply (spec_cancel_attempts holds c _ EXECUTING k); [done|]|exact Hp5|lia].
    intros r. rewrite Hlast'. case_bool_decide; [|done]. by intros [= <-]. }
  assert (Hlast2 : last_cancelled (pg_records pg ++ [ao_record o]) = None).
  { rewrite Hlast'. case_bool_decide as Eo; [|done]. apply Hcan in Eo. by rewrite Hno in Eo. }
  eapply (wp_step 0); [apply (spec_settle explanation started (pg_records pg ++ [ao_record o]) o c k Hok)|exact Hp5| |intros e p6 tr6 Hc6 Hf; apply turned_fails; [lia|done]].
  intros [[kind state]|] p6 tr6 Hc6 Hr6; [destruct Hr6 as [Hstate Hp6]|by apply turned_settles; [lia|]].
  assert (Hlh : is_lease_holding state = true) by (by destruct Hstate as [->| ->]).
  destruct (RetryPolicy.action _).
  - destruct (max <=? k + 1) eqn:Emax2; bool_to_prop.
    { eapply (wp_settles 0); [apply (spec_fail_settles state (k + 1)); by right|exact Hp6|lia]. }
    eapply (wp_step 0); [apply (spec_retry_turns schema turns0 kind o turns correction state (k + 1) Hlh)|exact Hp6| |intros e p7 tr7 Hc7 Hf; apply turned_fails; [lia|done]].
    intros next p7 tr7 Hc7 Hp7. cbn beta in Hp7.
    eapply (wp_step 0); [apply (spec_readmit state c _ _ (k + 1) Hstate)|exact Hp7| |intros e p8 tr8 Hc8 Hf; apply turned_fails; [lia|done]].
    intros [state'|] p8 tr8 Hc8 Hr8; [|by apply turned_settles; [lia|]]. destruct Hr8 as [-> Hp8].
    eapply wp_mono; [|apply IH; [cbn; lia|done|exact Hlast2|exact Hp8]]. cbn [pg_number].
    intros r p9 tr9 [Hc9 Hr9]. split; [lia|]. destruct r as [[|next' pg']|e]; [done| |done].
    destruct Hr9 as (Hpg & Hnum9 & Hc9' & Hst9 & Hidx). split; [done|]. split; [lia|]. split; [lia|]. by split.
  - apply wp_bind, wp_of_result. destruct (next_candidate_index _ _ _) as [next|e] eqn:En.
    + split; [lia|]. split; [|split; [cbn; lia|split; [cbn; lia|split; [exact Hstate|]]]].
      * split; [done|]. split; [done|by right].
      * destruct next as [i'|]; [|done]. by apply next_candidate_later in En.
    + apply turned_fails; [lia|]. apply foreign_failed; [|by apply (mine_held state (k + 1))].
      apply raises_next_candidate in En as <-. done.
  - eapply (wp_settles 0); [|exact Hp6|lia]. apply (spec_seq 0 _ _ _ (fun _ => Released)); [|intros _; by apply spec_ret].
    apply spec_cancel_from; [done|congruence].
Qed.

#[local] Abbreviation over := (candidate_loop ASSISTANT refusal wk job explanation profile schema started request turns0 served).

(** How the whole loop ends. *)
Definition loop_ends (number calls0 : Z) (r : result unit) (p : Process) (tr : list (Obs Process Answer)) : Prop :=
  calls tr <= calls0 + Z.max 0 (max - number) /\ match r with Ok _ => Released p | Raise e => failed e p end.

Lemma wp_ends n (m : session unit) number calls0 st k p tr :
  spec n m (Mine st k) (fun _ => Released) -> Mine st k p -> calls tr + Z.of_nat n <= calls0 + Z.max 0 (max - number) ->
  wp m (loop_ends number calls0) p tr.
Proof.
  intros Hm Hp Hc. eapply wp_mono; [|by apply Hm]. intros [t|e] p' tr' [Hle Hr]; (split; [lia|done]).
Qed.

Lemma spec_requeue st skipped n :
  st = ADMITTED \/ st = RETRYING \/ st = VALIDATING ->
  spec 0 (requeue_for_probe wk job st skipped) (Mine st n) (fun _ => Released).
Proof.
  intros Hst. unfold requeue_for_probe. apply (spec_ask Now); [done|]. intros now.
  apply (spec_seq 0 _ _ _ (fun _ => Released)); [|intros _; by apply spec_quiet; [apply stable_released|]].
  eapply spec_conseq; [apply (spec_move st QUEUED n); [|by destruct Hst as [->|[->| ->]]|done|apply quiet_event]|lia|done|].
  - by destruct Hst as [->|[->| ->]].
  - intros _ p [_ Hg]. by apply Hg.
Qed.

Lemma candidate_loop_wp n candidates index (first : bool) skipped pg p tr :
  length served = length candidates ->
  (match index with Some i => (i < length candidates)%nat /\ (length candidates - i < n)%nat | None => (0 < n)%nat end) ->
  progress_ok pg p -> (if first then pg_state pg = ADMITTED else pg_state pg = RETRYING \/ pg_state pg = VALIDATING) ->
  wp (over n candidates index first skipped pg) (loop_ends (pg_number pg) (calls tr)) p tr.
Proof.
  intros Hlen. revert index first skipped pg p tr. induction n as [|n IH]; intros index first skipped pg p tr Hn (Hp & Hlast & Hst) Hfirst.
  { destruct index; lia. }
  cbn [candidate_loop]. destruct index as [i|].
  2:{ eapply (wp_ends 0); [apply spec_fail; exact Hst|exact Hp|lia]. }
  destruct Hn as [Hi Hn]. destruct (lookup_lt_is_Some_2 _ _ Hi) as [c Hc]. rewrite Hc. cbv zeta.
  set (k := pg_number pg) in *. set (P := Mine (pg_state pg) k) in *.
  assert (Hhp : forall p, P p -> Held p).
  { apply mine_leased_held. by destruct Hst as [->|[->| ->]]. }
  assert (Hfail : forall e p' tr', calls tr' <= calls tr -> failed e p' -> loop_ends k (calls tr) (Raise e) p' tr') by (intros; split; [lia|done]).
  eapply (wp_step 0 _ _ _ (fun _ => P)); [by apply (spec_put Now)|exact Hp| |intros e p1 tr1 Hc1 Hf; apply Hfail; [lia|done]].
  intros now p1 tr1 Hc1 Hp1.
  eapply (wp_step 0 _ _ _ (fun _ => P)); [by apply (spec_put (AllowProbe _ now))|exact Hp1| |intros e p2 tr2 Hc2 Hf; apply Hfail; [lia|done]].
  intros holds p2 tr2 Hc2 Hp2.
  eapply (wp_step 0 _ _ _ (fun _ => P)); [|exact Hp2| |intros e p3 tr3 Hc3 Hf; apply Hfail; [lia|done]].
  { destruct holds; [by apply spec_ret|by apply (spec_put (ProbeBusy _))]. }
  intros busy p3 tr3 Hc3 Hp3. destruct busy.
  - apply wp_bind, wp_of_result. destruct (next_candidate_index served i false) as [next|e] eqn:En.
    2:{ apply Hfail; [lia|]. apply foreign_failed; [|auto]. apply raises_next_candidate in En as <-. done. }
    destruct next as [i'|].
    + apply next_candidate_later in En. eapply wp_mono; [|apply IH; [lia|done|exact Hfirst]].
      intros r p4 tr4 [Hc4 Hr4]. split; [lia|done].
    + eapply (wp_ends 0); [apply spec_requeue; exact Hst|exact Hp3|lia].
  - eapply (wp_step 0 _ _ _ (readmitted_as k)); [|exact Hp3| |intros e p4 tr4 Hc4 Hf; apply Hfail; [lia|done]].
    { destruct first; [|by apply spec_readmit]. apply spec_ret. intros p4 Hp4. unfold P in Hp4. rewrite Hfirst in *. by split. }
    intros [state|] p4 tr4 Hc4 Hr4; [|by split; [lia|]]. destruct Hr4 as [-> Hp4].
    apply wp_bind. eapply wp_mono; [|apply attempt_loop_wp; [cbn; lia|done|exact Hlast|exact Hp4]]. cbn [pg_number].
    intros [[|next pg']|e] p5 tr5 [Hc5 Hr5]; [by split; [lia|]| |by split; [lia|]].
    destruct Hr5 as (Hpg & Hnum & Hc5' & Hps & Hidx).
    eapply wp_mono; [|apply IH; [|exact Hpg|exact Hps]].
    + intros r p6 tr6 [Hc6 Hr6]. split; [lia|done].
    + destruct next; lia.
Qed.
End loops.

(** After a crash the job is failed from whatever state it is in; a failure that is refused is logged. *)
Lemma crash_wp e p tr :
  Held p -> wp (fail_after_crash wk job e) (fun r p' tr' => r = Ok tt /\ Released p' /\ calls tr' = calls tr) p tr.
Proof.
  intros Hp. unfold fail_after_crash. apply wp_bind, (wp_ask (Ans := Answer) _ Now). intros now. apply wp_catch, wp_act.
  intros p1 Hp1. apply (proj1 stable_held) in Hp1; [|done]. destruct Hp1 as (j & Hj & Hm).
  set (t0 := mkSTx (mkTx (jobs (s_world (pr_store p1))) (begin_write (ev (s_world (pr_store p1))))) (s_attempts (pr_store p1)) (s_decisions (pr_store p1))).
  match goal with |- context [job_write ?b p1] => set (body := b) end.
  assert (Hc : calls ((tr ++ [Asked Now now]) ++ [Acted p1 (job_write body p1).1]) = calls tr) by (rewrite !worker_calls_snoc; cbn; lia).
  assert (Hrun : exists t r, body t0 = (t, r) /\ match r with
      | Ok _ => exists j', t_jobs (x_tx t) !! id = Some j' /\ (j_lease_owner j' = Some owner -> j_state j' = CANCELLING)
      | Raise e' => (exists c, exn_code e' = Some c) /\ (j_lease_owner j = Some owner -> j_state j = CANCELLING) end).
  { unfold body. rewrite bind_get. cbn [x_tx t_jobs t0]. rewrite Hj. case_bool_decide as El.
    2:{ eexists _, _. split; [reflexivity|]. by exists j. }
    rewrite prog_bind_run, fenced_transition_run. cbn [x_tx t_jobs t0]. rewrite Hj.
    assert (Hcas : cas_matches (j_state j) (Some owner) j = true) by (unfold cas_matches; by rewrite El, !bool_decide_true by done).
    rewrite Hcas. destruct (is_legal (j_state j) FAILED) eqn:Hleg.
    - eexists _, _. split; [reflexivity|]. eexists. split; [apply lookup_insert_eq|].
      match goal with |- context [transition_assignments FAILED now ?why ?vs] =>
        pose proof (transition_result FAILED now why vs j ltac:(by repeat constructor)) as (_ & _ & _ & _ & _ & _ & Hlo & _) end.
      apply (f_equal fst) in Hlo. cbn [fst] in Hlo. intros Hl. rewrite Hlo in Hl. discriminate Hl.
    - eexists _, _. split; [reflexivity|]. split; [by eexists|]. intros _. destruct (Hm El) as [Hs|Hs]; [|done].
      by destruct (j_state j). }
  destruct Hrun as (t & r & Erun & Hr). destruct (job_write_run body p1 t r Erun) as (-> & _ & Hjobs). destruct r as [u|e'].
  - split; [by destruct u|]. split; [|exact Hc]. destruct Hjobs as [Hjobs _]. destruct Hr as (j' & Hj' & Hl'). exists j'. by rewrite Hjobs.
  - destruct Hr as ([c Ec] & Hl). rewrite Ec. split; [done|]. split; [|exact Hc]. exists j. destruct Hjobs as [-> _]. by split.
Qed.

(** ** One job *)

Lemma loop_ends_weaken number c0 c1 r p tr :
  c0 <= c1 -> loop_ends number c0 r p tr -> loop_ends number c1 r p tr.
Proof. intros Hle [Hc Hr]. split; [lia|done]. Qed.

Lemma attempts_wp explanation profile schema started p tr :
  Mine ADMITTED (j_attempt (c_job job)) p -> is_Some (primary (ex_ranking explanation)) ->
  wp (attempts ASSISTANT refusal profile_of_wire wk job explanation profile schema started)
    (loop_ends (j_attempt (c_job job)) (calls tr)) p tr.
Proof.
  intros Hp [c Hprimary]. pose proof (mine_leased_held ADMITTED (j_attempt (c_job job)) eq_refl p Hp) as Hh. unfold attempts. cbv zeta.
  assert (Hfail : forall e, not_lost e -> loop_ends (j_attempt (c_job job)) (calls tr) (Raise e) p tr).
  { intros e He. split; [lia|]. by apply foreign_failed. }
  apply wp_bind, wp_of_result. destruct (to_generate_request _ _) as [request|e] eqn:Er; [|by apply Hfail, (raises_generate_request _ e Er)].
  apply wp_bind, wp_of_result. destruct (Generation.transcript request) as [turns|e] eqn:Et; [|by apply Hfail, (raises_transcript _ e Et)].
  match goal with |- context [candidate_loop _ _ _ _ _ _ _ _ _ _ _ _ ?cs] => set (candidates := cs) end.
  assert (Hlen : (0 < length candidates)%nat) by (unfold candidates; rewrite Hprimary; cbn; lia).
  apply (candidate_loop_wp explanation profile schema started request turns _ _ candidates (Some 0%nat) true []
           (mkProgress [] (j_attempt (c_job job)) ADMITTED)); [apply length_map|split; lia| |done].
  split; [done|]. split; [done|by left].
Qed.

Lemma spec_asked st n (known : bool) :
  spec 0 (if known then mret true else act (cancel_requested job)) (Mine st n) (fun _ => Mine st n).
Proof. destruct known; [by apply spec_ret|apply spec_cancel_requested]. Qed.

Lemma run_job_wp p tr :
  Mine LEASED (j_attempt (c_job job)) p ->
  wp (run_job ASSISTANT refusal profile_of_wire wk job) (loop_ends (j_attempt (c_job job)) (calls tr)) p tr.
Proof.
  set (k := j_attempt (c_job job)). intros Hp. unfold run_job.
  assert (Hfail : forall e p' tr', calls tr' <= calls tr -> failed e p' -> loop_ends k (calls tr) (Raise e) p' tr') by (intros; split; [lia|done]).
  eapply (wp_step 0 _ _ _ (fun _ => Mine LEASED k)); [by apply (spec_put PerfMs)|exact Hp| |intros e p1 tr1 Hc1 Hf; apply Hfail; [lia|done]].
  intros started p1 tr1 Hc1 Hp1.
  eapply (wp_step 0); [apply (spec_asked LEASED k)|exact Hp1| |intros e p2 tr2 Hc2 Hf; apply Hfail; [lia|done]].
  intros asked p2 tr2 Hc2 Hp2. cbn beta in Hp2. destruct asked.
  { apply (wp_ends 0 _ k (calls tr) LEASED k); [by apply spec_cancel_from|exact Hp2|lia]. }
  eapply (wp_step 0); [apply (spec_route k)|exact Hp2| |intros e p3 tr3 Hc3 Hf; apply Hfail; [lia|done]].
  intros [[explanation profile]|] p3 tr3 Hc3 Hp3; [|by split; [lia|]]. cbn [routed_as] in Hp3.
  eapply (wp_step 0 _ _ _ (fun _ => Mine LEASED k)); [by apply (spec_put (LoadSchema _))|exact Hp3| |intros e p4 tr4 Hc4 Hf; apply Hfail; [lia|done]].
  intros found p4 tr4 Hc4 Hp4.
  eapply (wp_step 0 _ _ _ (fun _ => Mine LEASED k)); [by apply spec_of_foreign, mine_leased_held|exact Hp4| |intros e p5 tr5 Hc5 Hf; apply Hfail; [lia|done]].
  intros schema p5 tr5 Hc5 Hp5.
  eapply (wp_step 0); [apply (spec_admit explanation k)|exact Hp5| |intros e p6 tr6 Hc6 Hf; apply Hfail; [lia|done]].
  intros [] p6 tr6 Hc6 [Hp6 Hprimary].
  eapply (wp_step 0); [apply (spec_cancel_requested ADMITTED k)|exact Hp6| |intros e p7 tr7 Hc7 Hf; apply Hfail; [lia|done]].
  intros asked' p7 tr7 Hc7 Hp7. cbn beta in Hp7. destruct asked'.
  { apply (wp_ends 0 _ k (calls tr) ADMITTED k); [by apply spec_cancel_from|exact Hp7|lia]. }
  eapply wp_mono; [|by apply attempts_wp]. intros r p8 tr8. apply loop_ends_weaken. lia.
Qed.

(** How the processing of a claimed job ends. *)
Definition settled (calls0 : Z) (r : result unit) (p : Process) (tr : list (Obs Process Answer)) : Prop :=
  r = Ok tt /\ Released p /\ pr_registry p !! (owner, id) = None /\ calls tr <= calls0 + Z.max 0 (j_max_attempts (c_job job) - j_attempt (c_job job)).

Lemma wp_quiet {A} (body : prog Process A) (R : result A -> Process -> list (Obs Process Answer) -> Prop) p tr :
  (forall p1, Others p p1 -> forall tr', calls tr' = calls tr -> R (body p1).2 (body p1).1 tr') -> wp (act body) R p tr.
Proof. intros Hr. apply wp_act. intros p1 Hp1. apply Hr; [done|]. rewrite worker_calls_snoc. cbn. lia. Qed.

Lemma process_wp p tr :
  Mine LEASED (j_attempt (c_job job)) p -> wp (process ASSISTANT refusal profile_of_wire wk job) (settled (calls tr)) p tr.
Proof.
  intros Hp. unfold process. apply wp_bind, (wp_ask (Ans := Answer) _ Now). intros claimed_at.
  apply wp_bind, wp_quiet. intros p1 Ho1 tr1 Hc1. rewrite worker_calls_snoc in Hc1. cbn in Hc1.
  apply (proj1 (stable_mine _ _) _ _ Ho1) in Hp. 
  match goal with |- context [registry_write ?f p1] =>
    change ((registry_write f p1).2) with (Ok tt : result unit); set (p2 := (registry_write f p1).1) end.
  assert (Hp2 : Mine LEASED (j_attempt (c_job job)) p2) by exact Hp. clearbody p2. clear p1 Ho1 Hp.
  (* the last two operations *)
  assert (Hend : forall p' tr', Released p' -> calls tr' <= calls tr + Z.max 0 (j_max_attempts (c_job job) - j_attempt (c_job job)) ->
    wp (_ ← act (registry_write (remove id owner)); act signal_resources)
      (fun r' w tr0 => match r' with Ok _ => settled (calls tr) (Ok tt) w tr0 | Raise e => settled (calls tr) (Raise e) w tr0 end) p' tr').
  { intros p' tr' Hp' Hc'. apply wp_bind, wp_quiet. intros p3 Ho3 tr3 Hc3. apply (proj1 stable_released _ _ Ho3) in Hp'.
    apply wp_quiet. intros p4 Ho4 tr4 Hc4. split; [done|]. split; [|split; [|lia]].
    - apply (proj1 stable_released _ _ Ho4). exact Hp'.
    - apply (proj2 Ho4). apply lookup_delete_eq. }
  apply wp_finally, wp_catch. eapply wp_mono; [|by apply run_job_wp]. intros [[]|e] p3 tr3 [Hc3 Hp3].
  { apply Hend; [done|lia]. }
  destruct Hp3 as [Hh Hl]. destruct (lost_right e).
  - apply wp_quiet. intros p4 Ho4 tr4 Hc4. apply Hend; [|lia]. apply (proj1 stable_released _ _ Ho4). by apply Hl.
  - eapply wp_mono; [|by apply crash_wp]. intros r p4 tr4 (-> & Hp4 & Hc4). apply Hend; [exact Hp4|lia].
Qed.

End worker.
