(* ===== verification/WorkerSystem.v ===== *)
(** * Workers beside the rest of the system

    What the queue, other workers and the registry's clients do between two operations of a worker, as a
    transition system; the processing of a job under it; and a concrete run. *)

From Stdlib Require Import Ascii String.
From S2P Require Import Prelude PyFloat PyStr Json Telemetry QueueState Priority Authorization ContextBudget Admission JobEvents Submission RetryPolicy Subject Scoring Constraints Ranking TaskProfile Explanation Routing QueueStore Queue QueueTheory Recovery Bystanders Validation Raises Dialogue Generation Execution Runtime Worker WorkerTheory.
#[local] Open Scope string_scope.
#[local] Open Scope list_scope.
#[local] Open Scope Z_scope.

(** ** Who else acts *)

Definition with_registry (r : Registry) (p : Process) : Process := mkProcess (pr_store p) r (pr_resources_changed p).

Section system.
Context `{Externals} `{Wire} `{Sql}.

(** One step of the others around the worker [owner] on the job [id]: an operation of the queue, where a claim
    is in another owner's name; a fenced write of another worker or on another job; a write that leaves this job,
    its attempts and this hold alone; a cancellation through the registry, and a hold marked lost by the keeper. *)
Inductive bystander (id owner : string) : Process -> Process -> Prop :=
| b_enqueue s now q n wk pr p : bystander id owner p (with_world (enqueue s now q n wk pr (s_world (pr_store p))).1 p)
| b_reserve r now ttl p : bystander id owner p (with_world (reserve_sync_job r now ttl (s_world (pr_store p))).1 p)
| b_claim owner' now ls a p :
    owner' <> owner -> bystander id owner p (with_world (claim owner' now ls a (s_world (pr_store p))).1 p)
| b_cancel id' now pr p : bystander id owner p (with_world (cancel_job id' now pr (s_world (pr_store p))).1 p)
| b_renew owner' ids now ls p : bystander id owner p (with_world (renew_leases owner' ids now ls (s_world (pr_store p))).1 p)
| b_reap now p : bystander id owner p (with_world (reap_expired_leases now (s_world (pr_store p))).1 p)
| b_sweep now q p : bystander id owner p (with_world (ageing_sweep now q (s_world (pr_store p))).1 p)
| b_expire now d p : bystander id owner p (with_world (expire_max_wait now d (s_world (pr_store p))).1 p)
| b_flag name v now pr p : bystander id owner p (with_world (set_queue_flag name v now pr (s_world (pr_store p))).1 p)
| b_recover now prefix q p : bystander id owner p (with_world (recover now prefix q None (s_world (pr_store p))).1 p)
| b_release id' current target now o reason message data values p :
    Forall plain values -> is_waiting target || is_terminal target = true \/ target = CANCELLING ->
    bystander id owner p (with_world (move id' current target now o reason message data values (s_world (pr_store p))).1 p)
| b_worker id' owner' p p' : (owner', id') <> (owner, id) -> fenced id' owner' p p' -> bystander id owner p p'
| b_elsewhere p p' :
    jobs (s_world (pr_store p')) !! id = jobs (s_world (pr_store p)) !! id ->
    (forall r, r ∈ s_attempts (pr_store p') -> at_job_id r = id -> r ∈ s_attempts (pr_store p)) ->
    pr_registry p' !! (owner, id) = pr_registry p !! (owner, id) -> bystander id owner p p'
| b_cancel_token id' p : bystander id owner p (with_registry (request_cancel id' (pr_registry p)).1 p)
| b_lost id' owner' p : bystander id owner p (with_registry (mark_lost id' owner' (pr_registry p)) p).

(** An operation of the queue that respects this owner's leases. *)
Lemma others_queue id owner w' p : leases_le owner (jobs (s_world (pr_store p))) (jobs w') -> others id owner p (with_world w' p).
Proof.
  intros Hle. split; [|done]. intros j Hj. destruct (proj1 Hle id j Hj) as (j' & Hj' & Hl). exists j'. split; [done|].
  intros Ho. destruct (Hl Ho) as (Hl0 & Ha & Hs). by split_and!.
Qed.

(** A fenced write on another job, or in another owner's name. *)
Lemma others_fenced id owner id' owner' p p' : (owner', id') <> (owner, id) -> fenced id' owner' p p' -> others id owner p p'.
Proof.
  intros Hne [(Hrows & rows & Hat & Hcase) Hreg]. split; [|by rewrite Hreg by congruence].
  intros j Hj. destruct (decide (id' = id)) as [->|Hid].
  - destruct Hcase as [[Hjs ->]|(j0 & j' & Hj0 & Hl0 & Hj' & _ & _ & Hl' & _)].
    + exists j. rewrite Hjs. split; [done|]. intros Hl. rewrite Hat, app_nil_r. split_and!; auto.
    + exists j'. split; [done|]. intros Hl. exfalso. destruct Hl'; congruence.
  - exists j. rewrite Hrows by done. split; [done|]. intros Hl. split; [done|]. split; [done|]. split; [by left|].
    intros r Hr Hrid. rewrite Hat in Hr. apply elem_of_app in Hr as [Hr|Hr]; [done|]. exfalso.
    destruct Hcase as [[_ ->]|(j0 & j' & _ & _ & _ & _ & _ & _ & _ & _ & Hf)]; [by apply not_elem_of_nil in Hr|].
    rewrite Forall_forall in Hf. specialize (Hf r Hr). cbn in Hf. congruence.
Qed.

Lemma others_registry id owner r p :
  (pr_registry p !! (owner, id) = None -> r !! (owner, id) = None) -> others id owner p (with_registry r p).
Proof. intros Hr. split; [|done]. intros j Hj. exists j. split; [done|]. intros Hl. split_and!; auto. Qed.

Lemma bystander_others id owner p p' : bystander id owner p p' -> others id owner p p'.
Proof.
  destruct 1 as [| | | | | | | | | | | |p p' Hj Ha Hr| |].
  - apply others_queue, respects_enqueue.
  - apply others_queue, respects_reserve.
  - by apply others_queue, respects_claim.
  - apply others_queue, respects_cancel.
  - apply others_queue, respects_renew.
  - apply others_queue, respects_reap.
  - apply others_queue, respects_sweep.
  - apply others_queue, respects_expire.
  - apply others_queue, respects_flag.
  - apply others_queue, respects_recover.
  - by apply others_queue, respects_move.
  - by eapply others_fenced.
  - split; [|by rewrite Hr]. intros j Hj0. exists j. rewrite Hj. split; [done|]. intros Hl. split_and!; auto.
  - apply others_registry. cbn. intros Hr. by rewrite map_lookup_imap, Hr.
  - apply others_registry. intros Hr. unfold mark_lost, update_entry.
    destruct (decide ((owner', id') = (owner, id))) as [->|Hn]; [by rewrite lookup_alter_eq, Hr|by rewrite lookup_alter_ne].
Qed.

#[export] Instance others_preorder id owner : PreOrder (others id owner).
Proof.
  split.
  - intros p. split; [|done]. intros j Hj. exists j. split; [done|]. intros Hl. split_and!; auto.
  - intros p1 p2 p3 [H12 R12] [H23 R23]. split; [|auto]. intros j Hj. destruct (H12 j Hj) as (j2 & Hj2 & Hle2).
    destruct (H23 j2 Hj2) as (j3 & Hj3 & Hle3). exists j3. split; [done|]. intros Hl.
    destruct (Hle3 Hl) as (Hl2 & Ha3 & Hs3 & Hat3). destruct (Hle2 Hl2) as (Hl1 & Ha2 & Hs2 & Hat2).
    split; [done|]. split; [congruence|]. split; [destruct Hs3 as [-> | ->]; [exact Hs2|by right]|]. auto.
Qed.

Lemma bystanders_others id owner p p' : rtc (bystander id owner) p p' -> others id owner p p'.
Proof. induction 1 as [|p1 p2 p3 Hs _ IH]; [reflexivity|]. etrans; [by apply bystander_others|exact IH]. Qed.
End system.

(** ** A concrete installation *)

#[local] Existing Instances sample_rack sample_prompts sample_text sample_errors.
#[local] Instance sample_worker_text : WorkerText := {| defer_text _ := "waiting"; requeue_text _ := "probe"; crash_text _ := "crash" |}.

Definition sample_job_submission : @JobSubmission sample_wire :=
  @mkSubmission sample_wire "code.review" (Some "hello") None None None [] None [] NORMAL None None true None None "cli" false.

Definition sample_leased : Job := sample_job LEASED (Some "w/1") (Some 90) 400 0.
Definition sample_claimed : @ClaimedJob sample_wire := @mkClaimed sample_wire "s" sample_leased 0 0 90 sample_job_submission false.
Definition sample_worker : @WorkerConfig sample_rack := @mkWorker sample_rack "1" "w/1" None 0 "rack" [].

Definition sample_process : Process :=
  mkProcess (mkStore (QueueStore.sample_world {["s" := sample_leased]}) [] {["d1" := None]}) ∅ false.

#[local] Abbreviation WQuestion := (@Worker.Question sample_wire plain_profiles sample_rack).
#[local] Abbreviation WAnswer := (@Worker.Answer sample_wire plain_profiles sample_rack).

Definition failing_reply : @ProviderReply sample_rack :=
  @mkProviderReply sample_rack (mkReply [] (ProviderRaised "down") 0 1) (fun e He => ltac:(discriminate He)).
Definition good_reply : @ProviderReply sample_rack :=
  @mkProviderReply sample_rack (mkReply [TokenDelta "hi"; StreamCompleted tt] Finished 1 2) (fun e He => ltac:(discriminate He)).

(** The first call fails, the second answers. *)
Definition sample_worker_answers (n : nat) (q : WQuestion) : WAnswer q :=
  match q as q' return WAnswer q' with
  | Worker.Now | Worker.PerfMs => 7
  | Worker.CallProvider _ _ => if (n <=? 14)%nat then failing_reply else good_reply
  | Worker.AllowProbe _ _ | Worker.SupportsStreaming _ => true
  | Worker.ProbeBusy _ => false
  | Worker.ReleaseProbe _ | RecordUse _ | RecomputePair _ _ | Sleep _ => tt
  | RefreshBreakers _ => Fine tt
  | Worker.Route _ =>
      match sample_decide None with
      | Ok d => Routed (de_explanation d) sample_stored
      | Raise _ => Unroutable None [] "" []
      end
  | Worker.LoadSchema _ => Fine None
  | EnsureLoaded _ => Fine (JNull, false)
  | Jitter => 0
  end.

Definition sample_processing :=
  @process sample_externals sample_wire plain_profiles sample_classification sample_rack sample_prompts sample_text
    sample_worker_text "assistant" (fun _ => None) (fun _ => empty_profile) sample_worker sample_claimed.

Definition sample_played := play (sample_worker_answers) 0 sample_processing sample_process.

Lemma sample_played_ends :
  (match sample_played with (_, p, o) =>
     (match o with Done (Ok tt) => true | _ => false end, (fun j => (j_state j, j_attempt j)) <$> jobs (s_world (pr_store p)) !! "s") end)
  = (true, Some (COMPLETED, 2)).
Proof. vm_compute. reflexivity. Qed.

Lemma sample_first_write :
  (match sample_played with (Asked _ _ :: Acted a b :: _, _, _) => bool_decide (pr_registry a = ∅) && negb (bool_decide (pr_registry b = ∅)) | _ => false end)
  = true.
Proof. vm_compute. reflexivity. Qed.

Lemma sample_mine : mine "s" "w/1" LEASED 0 sample_process.
Proof.
  exists sample_leased. split; [vm_compute; reflexivity|]. intros _. split; [by left|]. split; [done|].
  intros r Hr. by apply not_elem_of_nil in Hr.
Qed.

Module Properties.
Section properties.
Context `{Externals} `{Wire} `{Profiles} `{Classification} `{Rack} `{Prompts} `{TextTools} `{ErrorText} `{WorkerText} `{Sql}.
Context (ASSISTANT : Role) (refusal : Call -> option exn) (profile_of_wire : Submission.RuntimeProfile -> Subject.RuntimeProfile).
Context (wk : WorkerConfig) (job : ClaimedJob).
#[local] Abbreviation id := (c_job_id job).
#[local] Abbreviation owner := (wk_owner wk).
#[local] Abbreviation processing := (process ASSISTANT refusal profile_of_wire wk job).

(** C6: A worker writes under its lease only.  Whatever the provider, routing and the rest of the process
    answer, and whatever goes on beside it, each operation of [process] on the shared state (its endings, its
    retries and the handling of a crash included) either leaves the job alone or finds it leased to this worker,
    moves it along legal edges, keeps or gives up that lease, numbers the attempts it adds in sequence and adds
    them to this job; no other job's row, no other job's attempts and no other hold of the registry change. *)
Theorem worker_fenced (rely : Process -> Process -> Prop) (p p' : Process) (tr : list (Obs Process Answer)) (o : Ending unit)
    (before after : Process) :
  runs rely processing p tr p' o -> Acted before after ∈ tr -> fenced id owner before after.
Proof.
  intros Hr Hin. destruct (within_acted _ _ _ _ _ _ _ _ _ _ (fence_process ASSISTANT refusal profile_of_wire wk job) Hr Hin)
    as (B & body & Hb & <-). apply Hb.
Qed.

(** C7: The processing of a claimed job ends, beside any number of submitters, operators, other workers,
    reapers and sweeps.  If the job is leased to this worker with its attempts on record, then whatever is
    answered [process] returns (no exception leaves it); the job is no longer this worker's, or only its
    cancellation is left for the reaper to complete; the worker's hold is gone from the registry; and the
    provider was called at most [max_attempts - attempt] times, over all candidates, retries and fallbacks.
    ModelRack's messages and requests are assumed to raise no refusal of the queue's own. *)
Theorem worker_settles (p p' : Process) (tr : list (Obs Process Answer)) (o : Ending unit) :
  (forall role content i tc, raises_only not_lost (make_message role content i tc)) ->
  (forall c e, refusal c = Some e -> not_lost e) ->
  mine id owner LEASED (j_attempt (c_job job)) p ->
  runs (rtc (bystander id owner)) processing p tr p' o ->
  o = Done (Ok tt) /\ released id owner p' /\ get_entry id owner (pr_registry p') = None /\
  calls tr <= Z.max 0 (j_max_attempts (c_job job) - j_attempt (c_job job)).
Proof.
  intros Hm Hreq Hp Hr. apply (runs_mono _ (others id owner)) in Hr; [|intros w w'; apply bystanders_others].
  destruct (wp_sound _ _ _ _ [] _ _ _ (process_wp ASSISTANT refusal profile_of_wire wk job Hm Hreq p [] Hp) Hr)
    as (r & -> & -> & Hrel & Hreg & Hc). split; [done|]. split; [done|]. split; [done|]. exact Hc.
Qed.

(** A lease keeps everybody else away.  Whatever sequence of enqueues, reservations, claims in other
    owners' names, cancellations, renewals, reaps, sweeps, expiries, recoveries, releases and other workers'
    writes goes on, a job leased to this worker at the end was leased to it at the start: its attempt number is
    the same, its state is the same or [cancelling], and it has no new attempt; so a lease that was lost is not
    given back, and two workers never both hold a job. *)
Theorem lease_excludes (p p' : Process) (j : Job) :
  rtc (bystander id owner) p p' -> jobs (s_world (pr_store p)) !! id = Some j ->
  exists j', jobs (s_world (pr_store p')) !! id = Some j' /\   (j_lease_owner j' = Some owner ->
     j_lease_owner j = Some owner /\ j_attempt j' = j_attempt j /\ (j_state j' = j_state j \/ j_state j' = CANCELLING) /\
     (forall r, r ∈ s_attempts (pr_store p') -> at_job_id r = id -> r ∈ s_attempts (pr_store p))).
Proof. intros Hr. apply (proj1 (bystanders_others id owner p p' Hr)). Qed.
End properties.

Lemma worker_fenced_witness : exists tr p' o before after,
  runs eq sample_processing sample_process tr p' o /\ pr_registry before = ∅ /\ pr_registry after <> ∅ /\ fenced "s" "w/1" before after.
Proof.
  destruct sample_played as [[tr p'] o] eqn:E. pose proof sample_first_write as Hf. rewrite E in Hf.
  pose proof (play_runs eq _ _ _ _ _ _ _ (fun w => eq_refl) E) as Hruns. clear E.
  destruct tr as [|[a b|q a] tr]; [discriminate Hf|discriminate Hf|]. destruct tr as [|[a1 b1|q1 a1] tr]; [discriminate Hf| |discriminate Hf].
  apply andb_true_iff in Hf as [Ha Hb]. apply bool_decide_eq_true in Ha. apply negb_true_iff, bool_decide_eq_false in Hb.
  exists (Asked q a :: Acted a1 b1 :: tr), p', o, a1, b1. split; [exact Hruns|]. split; [exact Ha|]. split; [exact Hb|].
  eapply (worker_fenced (H := sample_externals) (H0 := sample_wire) (H1 := plain_profiles) (H2 := sample_classification)
    (H3 := sample_rack) (H4 := sample_prompts) (H5 := sample_text) (H7 := sample_worker_text)
    "assistant" (fun _ => None) (fun _ => empty_profile) sample_worker sample_claimed eq); [exact Hruns|].
  right. left.
Defined.

Lemma worker_settles_witness : exists tr p',
  runs (rtc (@bystander sample_externals sample_wire sample_sql "s" "w/1")) sample_processing sample_process tr p' (Done (Ok tt)) /\
  get_entry "s" "w/1" (pr_registry p') = None /\ calls tr <= 3.
Proof.
  destruct sample_played as [[tr p'] o] eqn:E.
  pose proof (play_runs (rtc (@bystander sample_externals sample_wire sample_sql "s" "w/1")) _ _ _ _ _ _ _ (fun w => rtc_refl _ w) E) as Hruns.
  destruct (worker_settles (H := sample_externals) (H0 := sample_wire) (H1 := plain_profiles) (H2 := sample_classification)
    (H3 := sample_rack) (H4 := sample_prompts) (H5 := sample_text) (H7 := sample_worker_text) (H8 := sample_sql)
    "assistant" (fun _ => None) (fun _ => empty_profile) sample_worker sample_claimed _ _ _ _
    (fun _ _ _ _ _ Hn => ltac:(discriminate Hn)) (fun _ _ Hn => ltac:(discriminate Hn)) sample_mine Hruns) as (-> & _ & Hg & Hc).
  exists tr, p'. split; [exact Hruns|]. split; [exact Hg|exact Hc].
Defined.

Lemma lease_excludes_witness :
  let p := with_world (@cancel_job sample_externals "s" 9 None (s_world (pr_store sample_process))).1 sample_process in
  exists j, jobs (s_world (pr_store p)) !! "s" = Some j /\ j_lease_owner j = Some "w/1" /\ j_state j = CANCELLING /\ j_attempt j = 0.
Proof.
  cbv zeta.
  destruct (lease_excludes (H := sample_externals) (H0 := sample_wire) (H3 := sample_rack) (H8 := sample_sql) sample_worker sample_claimed
    _ _ sample_leased (rtc_once _ _ (b_cancel "s" "w/1" "s" 9 None sample_process)) eq_refl) as (j & Hj & Hl).
  exists j. split; [exact Hj|]. 
  assert (Hf : (fun j => (j_lease_owner j, j_state j)) <$>
    jobs (s_world (pr_store (with_world (@cancel_job sample_externals "s" 9 None (s_world (pr_store sample_process))).1 sample_process))) !! "s"
    = Some (Some "w/1", CANCELLING)) by (vm_compute; reflexivity).
  cbn [c_job_id sample_claimed] in Hj. rewrite Hj in Hf. injection Hf as Ho Hs. split; [exact Ho|]. split; [exact Hs|].
  by apply Hl.
Defined.
End Properties.
