(* ===== verification/Scheduler.v ===== *)
(** * The scheduler ([services/worker.py])

    One thread beside the workers: it keeps the leases of this process, reaps, expires, ages, wakes waiting
    jobs, ends cancellations that do not end and runs the periodic chores.  Telemetry, the breakers, residency
    and the chores of other modules are questions; the simulator's enable flags are part of the configuration. *)

From Stdlib Require Import Ascii String.
From S2P Require Import Prelude PyFloat Json Telemetry QueueState Priority Authorization ContextBudget Admission JobEvents Submission Scoring Constraints QueueStore Queue Dialogue Validation Generation Execution Runtime Worker.
#[local] Open Scope string_scope.
#[local] Open Scope list_scope.
#[local] Open Scope Z_scope.

(** ** Cadences, in seconds *)

Definition REAPER_INTERVAL_SECONDS : f64 := fone.
Definition MAX_WAIT_INTERVAL_SECONDS : f64 := 5 * fone.
Definition FLAGS_INTERVAL_SECONDS : f64 := fone.
Definition REEVALUATE_INTERVAL_SECONDS : f64 := 5 * fone.
Definition EVICT_INTERVAL_SECONDS : f64 := 10 * fone.
Definition SYNC_INTERVAL_SECONDS : f64 := 60 * fone.
Definition BREAKER_INTERVAL_SECONDS : f64 := 10 * fone.
Definition WATCHDOG_INTERVAL_SECONDS : f64 := 5 * fone.
Definition RETENTION_INTERVAL_SECONDS : f64 := 60 * fone.

(** What the scheduler reads of the settings and of its own switches. *)
Record SchedulerConfig := mkSchedulerConfig {
  sg_queue : QueueSettings;
  sg_lease_renewal_interval_seconds : Z;
  sg_ageing_interval_seconds : Z;
  sg_cancelling_watchdog_seconds : Z;
  sg_evidence_interval_hours : option f64;      (* [None]: no evidence source is configured *)
  sg_vram_headroom_bytes : Z;
  sg_worker_owners : list string;
  keeper_enabled : bool;
  reaper_enabled : bool;
  sweep_enabled : bool;
  max_wait_enabled : bool
}.

(** The scheduler and what it shares with the process. *)
Record Sched := mkSched {
  sc_process : Process;
  sc_flags : QueueFlags;
  sc_last : gmap string Z;
  sc_renewals : Z;
  sc_sweeps : Z;
  sc_requeued : Z;
  sc_forced : Z
}.

Definition with_process (p : Process) (s : Sched) : Sched :=
  mkSched p (sc_flags s) (sc_last s) (sc_renewals s) (sc_sweeps s) (sc_requeued s) (sc_forced s).
Definition count_renewals (n : Z) (s : Sched) : Sched :=
  mkSched (sc_process s) (sc_flags s) (sc_last s) (sc_renewals s + n) (sc_sweeps s) (sc_requeued s) (sc_forced s).
Definition count_sweep (s : Sched) : Sched :=
  mkSched (sc_process s) (sc_flags s) (sc_last s) (sc_renewals s) (sc_sweeps s + 1) (sc_requeued s) (sc_forced s).
Definition count_requeued (n : Z) (s : Sched) : Sched :=
  mkSched (sc_process s) (sc_flags s) (sc_last s) (sc_renewals s) (sc_sweeps s) (sc_requeued s + n) (sc_forced s).
Definition count_forced (n : Z) (s : Sched) : Sched :=
  mkSched (sc_process s) (sc_flags s) (sc_last s) (sc_renewals s) (sc_sweeps s) (sc_requeued s) (sc_forced s + n).

(** An operation on the process, one on its tables, and a field. *)
Definition on_process {A} (body : prog Process A) : prog Sched A :=
  fun s => let '(p, r) := body (sc_process s) in (with_process p s, r).
Definition on_db {A} (body : prog World A) : prog Process A :=
  fun p => let '(w, r) := body (s_world (pr_store p)) in (with_world w p, r).
Definition set_sched (f : Sched -> Sched) : prog Sched unit := fun s => (f s, Ok tt).

Section scheduler.
Context `{Externals} `{Sql}.
Context {M : Type} `{Measurement M}.
Context (cfg : SchedulerConfig).

Inductive SchedQuestion :=
| TakeTelemetry
| ReadResidentDevices
| ReadEvictable (in_use : gset string)
| ReadExcluded
| EvictIdle (now : Z) (in_use : gset string)
| SyncResidency (now : Z)
| RefreshVerdicts (now : Z)
| ApplySettings
| SweepRetention (now : Z)
| RefreshEvidence (now : Z).

(** [RefreshVerdicts] answers whether it signalled that resources changed. *)
Definition SchedAnswer (q : SchedQuestion) : Type :=
  match q with
  | TakeTelemetry => option (TelemetrySnapshot M)
  | ReadResidentDevices => gmap string (gset Z)
  | ReadEvictable _ => gmap Z Z
  | ReadExcluded => gset string
  | EvictIdle _ _ => result (list string)
  | SyncResidency _ => result unit
  | RefreshVerdicts _ => result bool
  | ApplySettings | SweepRetention _ | RefreshEvidence _ => unit
  end.

#[local] Abbreviation session := (dialogue (W := Sched) SchedAnswer).

Definition inquire (q : SchedQuestion) : session (SchedAnswer q) := ask q.
Definition in_process {A} (body : prog Process A) : session A := act (on_process body).
Definition in_db {A} (body : prog World A) : session A := act (on_process (on_db body)).
Definition reading {A} (f : Process -> A) : session A := in_process (fun p => (p, Ok (f p))).

(** [move] of one row; a row that left its state meanwhile is passed over. *)
Definition try_move (job_id : string) (current target : JobState) (now : Z) (reason message : string)
    (data : list (string * json)) (values : list Assign) : session bool :=
  catch (_ ← in_db (move job_id current target now None (Some reason) (Some message) data values); mret true)
    (fun e => match e with TransitionRefused _ _ _ => mret false | _ => Throw e end).

(** [for x in l], counting the times the body says so. *)
Fixpoint each {A} (f : A -> session bool) (l : list A) : session Z :=
  match l with
  | [] => mret 0
  | x :: rest => b ← f x; n ← each f rest; mret ((if b : bool then 1 else 0) + n)
  end.

Fixpoint each_unit {A} (f : A -> session unit) (l : list A) : session unit :=
  match l with [] => mret tt | x :: rest => _ ← f x; each_unit f rest end.

(** ** Due *)

Definition due_at (name : string) (now : Z) (interval : f64) (s : Sched) : bool :=
  match sc_last s !! name with Some last => negb (total_seconds (now - last) <? interval) | None => true end.

Definition stamp (name : string) (now : Z) (s : Sched) : Sched :=
  mkSched (sc_process s) (sc_flags s) (<[name := now]> (sc_last s)) (sc_renewals s) (sc_sweeps s) (sc_requeued s) (sc_forced s).

(** [_due]. *)
Definition due (name : string) (now : Z) (interval : f64) : session bool :=
  act (fun s => if due_at name now interval s then (stamp name now s, Ok true) else (s, Ok false)).

(** ** The keeper *)

Definition flagged_jobs (held : list string) (w : World) : list string :=
  map fst (select_jobs (fun id j => bool_decide (id ∈ held) && j_cancel_requested j) (jobs w)).

Definition keep_owner (now : Z) (owner : string) : session unit :=
  job_ids ← reading (fun p => job_ids_for owner (pr_registry p));
  if bool_decide (job_ids = []) then mret tt
  else
    lost ← in_db (renew_leases owner (list_to_set job_ids) now (lease_seconds (sg_queue cfg)));
    _ ← act (set_sched (count_renewals (Z.of_nat (length job_ids) - Z.of_nat (size lost))));
    each_unit (fun id => in_process (registry_write (mark_lost id owner))) (elements lost).

Definition keep_leases (now : Z) : session unit :=
  _ ← each_unit (keep_owner now) (sg_worker_owners cfg);
  held ← reading (fun p => List.concat (map (fun owner => job_ids_for owner (pr_registry p)) (sg_worker_owners cfg)));
  if bool_decide (held = []) then mret tt
  else
    flagged ← reading (fun p => flagged_jobs held (s_world (pr_store p)));
    each_unit (fun id => in_process (registry_write (fun r => (request_cancel id r).1))) flagged.

(** ** The watchdog *)

Definition watchdog_message (limit : Z) : string :=
  "cancelling for more than " +:+ pretty limit +:+ " s: terminal transition forced by the watchdog".

Definition overstays (now limit : Z) (entered_at : option Z) : bool :=
  match entered_at with Some t => negb (total_seconds (now - t) <? limit * fone) | None => true end.

Definition watchdog (now : Z) : session Z :=
  let limit := sg_cancelling_watchdog_seconds cfg in
  rows ← reading (fun p => cancelling_since (s_world (pr_store p)));
  forced ← each (fun '(job_id, entered_at) =>
    if overstays now limit entered_at then
      _ ← in_process (registry_write (fun r => (request_cancel job_id r).1));
      try_move job_id CANCELLING CANCELLED now "cancelling_watchdog" (watchdog_message limit)
        [("forced", JBool true); ("watchdog_seconds", JInt limit)] [SetErrorCode (Some "GENERATION_CANCELLED")]
    else mret false) rows;
  _ ← act (set_sched (count_forced forced));
  mret forced.

(** ** Waiting jobs *)

(** The strings of an array; the deferral records hold nothing else. *)
Definition string_items (x : json) : list string :=
  match x with JArr l => omap (fun y => match y with JStr s => Some s | _ => None end) l | _ => [] end.

Definition record_get (key : string) (record : option (list (string * json))) : json :=
  match record with Some r => default JNull (assoc key r) | None => JNull end.

(** Admission's rule on one deferral record. *)
Definition may_proceed (snapshot : option (TelemetrySnapshot M)) (resident_devices : gmap string (gset Z)) (excluded : gset string)
    (record : option (list (string * json))) : bool :=
  let probes := list_to_set (string_items (record_get "probe_candidates" record)) : gset string in
  let wanted := string_items (record_get "candidates" record) in
  if negb (bool_decide (probes = ∅)) && bool_decide (probes ∩ excluded = ∅) then true
  else if negb (bool_decide (probes = ∅)) && bool_decide (wanted = []) then false
  else match record, snapshot with
       | Some _, Some snap =>
           if bool_decide (gpus snap = []) then true
           else waiting_job_can_proceed (as_int (record_get "required_bytes" record))
                  (default (sg_vram_headroom_bytes cfg) (as_int (record_get "headroom_bytes" record)))
                  (free_vram_by_gpu snap) (⋃ map (fun c => default ∅ (resident_devices !! c)) wanted)
       | _, _ => true
       end.

Definition reevaluate_waiting (now : Z) : session Z :=
  waiting ← reading (fun p => waiting_deferrals (s_world (pr_store p)));
  if bool_decide (waiting = []) then mret 0
  else
    devices ← inquire ReadResidentDevices;
    registry ← reading pr_registry;
    in_use ← reading (fun p => in_use_model_ids None (pr_registry p));
    evictable ← inquire (ReadEvictable in_use);
    telemetry ← inquire TakeTelemetry;
    let snapshot := admission_snapshot None telemetry devices (fun _ => evictable) registry in
    resident_devices ← inquire ReadResidentDevices;
    requeued ← each (fun '(job_id, record) =>
      excluded ← inquire ReadExcluded;
      if may_proceed snapshot resident_devices excluded record
      then try_move job_id WAITING_RESOURCES QUEUED now "resources_freed" "resources may now be available: re-queued for admission" [] []
      else mret false) waiting;
    _ ← (if 0 <? requeued then _ ← act (set_sched (count_requeued requeued)); in_process wake_workers else mret tt);
    mret requeued.

(** ** Chores *)

Definition evict_idle (now : Z) : session unit :=
  in_use ← reading (fun p => in_use_model_ids None (pr_registry p));
  unloaded ← inquire (EvictIdle now in_use);
  gone ← of_result unloaded;
  if bool_decide (gone = []) then mret tt else in_process signal_resources.

Definition refresh_operator_flags : session unit :=
  act (fun s => (mkSched (sc_process s) (refresh_flags (s_world (pr_store (sc_process s)), sc_flags s)).2 (sc_last s) (sc_renewals s) (sc_sweeps s)
                   (sc_requeued s) (sc_forced s), Ok tt)).

(** [resources_changed.is_set()], and its clearing. *)
Definition resources_signalled : session bool := reading pr_resources_changed.
Definition clear_resources : session unit := in_process (fun p => (mkProcess (pr_store p) (pr_registry p) false, Ok tt)).

(** [if enabled and self._due(...): body]. *)
Definition when_due (enabled : bool) (name : string) (now : Z) (interval : f64) (body : session unit) : session unit :=
  if enabled then ok ← due name now interval; if ok : bool then body else mret tt else mret tt.

(** ** The tick *)

Definition tick (now : Z) : session unit :=
  let q := sg_queue cfg in
  _ ← when_due (keeper_enabled cfg) "keeper" now (sg_lease_renewal_interval_seconds cfg * fone) (keep_leases now);
  _ ← when_due (reaper_enabled cfg) "reaper" now REAPER_INTERVAL_SECONDS (_ ← in_db (reap_expired_leases now); mret tt);
  _ ← when_due (max_wait_enabled cfg) "max_wait" now MAX_WAIT_INTERVAL_SECONDS (_ ← in_db (expire_max_wait now (q_max_wait_seconds q)); mret tt);
  _ ← when_due (sweep_enabled cfg) "sweep" now (sg_ageing_interval_seconds cfg * fone)
        (_ ← in_db (ageing_sweep now q); act (set_sched count_sweep));
  signalled ← resources_signalled;
  again ← (if signalled : bool then mret true else due "reevaluate" now REEVALUATE_INTERVAL_SECONDS);
  _ ← (if again : bool then
         _ ← clear_resources;
         _ ← act (set_sched (stamp "reevaluate" now));
         _ ← reevaluate_waiting now; mret tt
       else mret tt);
  _ ← when_due true "evict" now EVICT_INTERVAL_SECONDS (evict_idle now);
  _ ← when_due true "sync" now SYNC_INTERVAL_SECONDS (r ← inquire (SyncResidency now); of_result r);
  _ ← when_due true "breakers" now BREAKER_INTERVAL_SECONDS
        (r ← inquire (RefreshVerdicts now); signal ← of_result r; if signal : bool then in_process signal_resources else mret tt);
  _ ← when_due true "watchdog" now WATCHDOG_INTERVAL_SECONDS (_ ← watchdog now; mret tt);
  _ ← when_due true "flags" now FLAGS_INTERVAL_SECONDS (_ ← refresh_operator_flags; inquire ApplySettings);
  _ ← when_due true "retention" now RETENTION_INTERVAL_SECONDS (inquire (SweepRetention now));
  match sg_evidence_interval_hours cfg with
  | Some hours => when_due true "evidence" now (fmul hours (3600 * fone)) (inquire (RefreshEvidence now))
  | None => mret tt
  end.
End scheduler.
