(* ===== verification/SchedulerTheory.v ===== *)
(** * What the scheduler does beside the workers

    Every step of a tick is one of those a worker's processing allows beside it; and a tick never takes a job
    of its own process away, however late it comes. *)

From Stdlib Require Import Ascii String.
From S2P Require Import Prelude PyFloat Json Telemetry QueueState Priority Authorization ContextBudget Admission JobEvents Submission Scoring Constraints QueueStore Queue QueueTheory EvidencePolicy Dialogue Validation Generation Execution Runtime Worker WorkerTheory WorkerSystem Scheduler.
#[local] Open Scope string_scope.
#[local] Open Scope list_scope.
#[local] Open Scope Z_scope.

Section scheduler.
Context `{Externals} `{Wire} `{Sql}.
Context {M : Type} `{Measurement M}.
Context (cfg : SchedulerConfig).

#[local] Abbreviation session := (dialogue (W := Sched) (SchedAnswer (M := M))).
#[local] Abbreviation SchedTrace := (list (Obs Sched (SchedAnswer (M := M)))).

(** ** Walking through a tick

    What every operation of the scheduler satisfies, every step of the tick satisfies. *)
Section walk.
Context (ok : forall B, prog Sched B -> Prop) (now : Z).
#[local] Abbreviation walks := (within (W := Sched) (Ans := SchedAnswer (M := M)) (fun _ => True) ok).

Definition stamping (name : string) (t : Z) (interval : f64) : prog Sched bool :=
  fun s => if due_at name t interval s then (stamp name t s, Ok true) else (s, Ok false).

(** The operations of a tick at [now]. *)
Record sched_ops : Prop := {
  op_read : forall A (f : Process -> A), ok A (on_process (fun p => (p, Ok (f p))));
  op_stamp : forall name interval, name <> "keeper" -> ok bool (stamping name now interval);
  op_restamp : ok unit (set_sched (stamp "reevaluate" now));
  op_sweeps : ok unit (set_sched count_sweep);
  op_requeued : forall n, ok unit (set_sched (count_requeued n));
  op_forced : forall n, ok unit (set_sched (count_forced n));
  op_cancel : forall id, ok unit (on_process (registry_write (fun r => (request_cancel id r).1)));
  op_reap : ok ReapSummary (on_process (on_db (reap_expired_leases now)));
  op_expire : forall d, ok (list string) (on_process (on_db (expire_max_wait now d)));
  op_sweep : forall q, ok Z (on_process (on_db (ageing_sweep now q)));
  op_move : forall id current target reason message data values,
    (current = WAITING_RESOURCES /\ target = QUEUED \/ current = CANCELLING /\ target = CANCELLED) -> Forall plain values ->
    ok unit (on_process (on_db (move id current target now None (Some reason) (Some message) data values)));
  op_wake : ok unit (on_process wake_workers);
  op_signal : ok unit (on_process signal_resources);
  op_clear : ok unit (on_process (fun p => (mkProcess (pr_store p) (pr_registry p) false, Ok tt)));
  op_flags : ok unit (fun s => (mkSched (sc_process s) (refresh_flags (s_world (pr_store (sc_process s)), sc_flags s)).2 (sc_last s)
                                  (sc_renewals s) (sc_sweeps s) (sc_requeued s) (sc_forced s), Ok tt))
}.

(** The operations of the keeper. *)
Record keeper_ops : Prop := {
  op_view : forall A (f : Process -> A), ok A (on_process (fun p => (p, Ok (f p))));
  op_flag : forall id, ok unit (on_process (registry_write (fun r => (request_cancel id r).1)));
  op_renew : forall owner ids, ok (gset string) (on_process (on_db (renew_leases owner ids now (lease_seconds (sg_queue cfg)))));
  op_renewals : forall n, ok unit (set_sched (count_renewals n));
  op_lost : forall id owner, ok unit (on_process (registry_write (mark_lost id owner)))
}.



Lemma walk_act {B} (body : prog Sched B) : ok B body -> walks (act body).
Proof. apply within_act. Qed.

Lemma walk_each_unit {A} (f : A -> session unit) l : (forall x, walks (f x)) -> walks (each_unit f l).
Proof. intros Hf. induction l as [|x l IH]; [done|]. cbn [each_unit]. apply within_bind; [apply Hf|]. by intros _. Qed.

Lemma walk_when_at enabled name interval body :
  ok bool (stamping name now interval) -> walks body -> walks (when_due enabled name now interval body).
Proof.
  intros Hs Hb. unfold when_due. destruct enabled; [|done]. apply within_bind; [by apply walk_act|]. by intros [].
Qed.

Section keeper.
Context (kops : keeper_ops).

Lemma walk_keep_owner owner : walks (keep_owner cfg now owner).
Proof.
  unfold keep_owner. apply within_bind; [apply walk_act, kops|]. intros ids. case_bool_decide; [done|].
  apply within_bind; [apply walk_act, kops|]. intros lost. apply within_bind; [apply walk_act, kops|]. intros _.
  apply walk_each_unit. intros id. apply walk_act, kops.
Qed.

Lemma walk_keeper : walks (keep_leases cfg now).
Proof.
  unfold keep_leases. apply within_bind; [apply walk_each_unit; intros owner; apply walk_keep_owner|]. intros _.
  apply within_bind; [apply walk_act, kops|]. intros held. case_bool_decide; [done|]. apply within_bind; [apply walk_act, kops|].
  intros flagged. apply walk_each_unit. intros id. apply walk_act, kops.
Qed.

End keeper.

Section chores.
Context (ops : sched_ops).

Lemma walk_ask q : walks (inquire q).
Proof. by split. Qed.

Lemma walk_read {A} (f : Process -> A) : walks (reading f).
Proof. apply walk_act, ops. Qed.

Lemma walk_each {A} (f : A -> session bool) l : (forall x, walks (f x)) -> walks (each f l).
Proof.
  intros Hf. induction l as [|x l IH]; [done|]. cbn [each]. apply within_bind; [apply Hf|]. intros b.
  apply within_bind; [exact IH|done].
Qed.

Lemma walk_move id current target reason message data values :
  (current = WAITING_RESOURCES /\ target = QUEUED \/ current = CANCELLING /\ target = CANCELLED) -> Forall plain values ->
  walks (try_move id current target now reason message data values).
Proof.
  intros Ht Hv. unfold try_move. apply within_catch; [|by intros []]. apply within_bind; [|done].
  apply walk_act. by apply (op_move ops).
Qed.

Lemma walk_when enabled name interval body : name <> "keeper" -> walks body -> walks (when_due enabled name now interval body).
Proof. intros Hn. by apply walk_when_at, ops. Qed.

Lemma walk_watchdog : walks (watchdog cfg now).
Proof.
  unfold watchdog. apply within_bind; [apply walk_read|]. intros rows. apply within_bind.
  { apply walk_each. intros [id entered]. destruct (overstays _ _ _); [|done].
    apply within_bind; [apply walk_act, ops|]. intros _. apply walk_move; [by right|by repeat constructor]. }
  intros forced. apply within_bind; [apply walk_act, ops|done].
Qed.

Lemma walk_reevaluate : walks (reevaluate_waiting cfg now).
Proof.
  unfold reevaluate_waiting. apply within_bind; [apply walk_read|]. intros waiting. case_bool_decide; [done|].
  apply within_bind; [apply walk_ask|]. intros devices. apply within_bind; [apply walk_read|]. intros registry.
  apply within_bind; [apply walk_read|]. intros in_use. apply within_bind; [apply walk_ask|]. intros evictable.
  apply within_bind; [apply walk_ask|]. intros telemetry. cbv zeta. apply within_bind; [apply walk_ask|]. intros resident.
  apply within_bind.
  { apply walk_each. intros [id record]. apply within_bind; [apply walk_ask|]. intros excluded.
    destruct (may_proceed _ _ _ _ _); [|done]. apply walk_move; [by left|done]. }
  intros requeued. apply within_bind; [|done]. destruct (0 <? requeued); [|done].
  apply within_bind; [apply walk_act, ops|]. intros _. apply walk_act, ops.
Qed.

Lemma walk_evict : walks (evict_idle now).
Proof.
  unfold evict_idle. apply within_bind; [apply walk_read|]. intros in_use. apply within_bind; [apply walk_ask|]. intros unloaded.
  apply within_bind; [apply within_of_result|]. intros gone. case_bool_decide; [done|]. apply walk_act, ops.
Qed.

(** The tick after its keeper. *)
Definition after_keeper : session unit :=
  let q := sg_queue cfg in
  _ ← when_due (reaper_enabled cfg) "reaper" now REAPER_INTERVAL_SECONDS (_ ← in_db (reap_expired_leases now); mret tt);
  _ ← when_due (max_wait_enabled cfg) "max_wait" now MAX_WAIT_INTERVAL_SECONDS (_ ← in_db (expire_max_wait now (q_max_wait_seconds q)); mret tt);
  _ ← when_due (sweep_enabled cfg) "sweep" now (sg_ageing_interval_seconds cfg * fone)
        (_ ← in_db (ageing_sweep now q); act (set_sched count_sweep));
  signalled ← resources_signalled;
  again ← (if signalled : bool then mret true else due "reevaluate" now REEVALUATE_INTERVAL_SECONDS);
  _ ← (if again : bool then
         _ ← clear_resources;
         _ ← act (set_sched (stamp "reevaluate" now));
         _ ← reevaluate_waiting cfg now; mret tt
       else mret tt);
  _ ← when_due true "evict" now EVICT_INTERVAL_SECONDS (evict_idle now);
  _ ← when_due true "sync" now SYNC_INTERVAL_SECONDS (r ← inquire (SyncResidency now); of_result r);
  _ ← when_due true "breakers" now BREAKER_INTERVAL_SECONDS
        (r ← inquire (RefreshVerdicts now); signal ← of_result r; if signal : bool then in_process signal_resources else mret tt);
  _ ← when_due true "watchdog" now WATCHDOG_INTERVAL_SECONDS (_ ← watchdog cfg now; mret tt);
  _ ← when_due true "flags" now FLAGS_INTERVAL_SECONDS (_ ← refresh_operator_flags; inquire ApplySettings);
  _ ← when_due true "retention" now RETENTION_INTERVAL_SECONDS (inquire (SweepRetention now));
  match sg_evidence_interval_hours cfg with
  | Some hours => when_due true "evidence" now (fmul hours (3600 * fone)) (inquire (RefreshEvidence now))
  | None => mret tt
  end.

Lemma walk_after : walks after_keeper.
Proof.
  unfold after_keeper. cbv zeta.
  apply within_bind; [apply walk_when; [done|apply within_bind; [apply walk_act, ops|done]]|]. intros _.
  apply within_bind; [apply walk_when; [done|apply within_bind; [apply walk_act, ops|done]]|]. intros _.
  apply within_bind; [apply walk_when; [done|]; apply within_bind; [apply walk_act, ops|intros _; apply walk_act, ops]|]. intros _.
  apply within_bind; [apply walk_read|]. intros signalled.
  apply within_bind; [destruct signalled; [done|by apply walk_act, (op_stamp ops)]|]. intros again.
  apply within_bind.
  { destruct again; [|done]. apply within_bind; [apply walk_act, ops|]. intros _. apply within_bind; [apply walk_act, ops|]. intros _.
    apply within_bind; [apply walk_reevaluate|done]. }
  intros _. apply within_bind; [apply walk_when; [done|]; apply walk_evict|]. intros _.
  apply within_bind; [apply walk_when; [done|]; apply within_bind; [apply walk_ask|intros r; apply within_of_result]|]. intros _.
  apply within_bind.
  { apply walk_when; [done|]; apply within_bind; [apply walk_ask|]. intros r. apply within_bind; [apply within_of_result|].
    intros []; [apply walk_act, ops|done]. }
  intros _. apply within_bind; [apply walk_when; [done|]; apply within_bind; [apply walk_watchdog|done]|]. intros _.
  apply within_bind; [apply walk_when; [done|]; apply within_bind; [apply walk_act, ops|intros _; apply walk_ask]|]. intros _.
  apply within_bind; [apply walk_when; [done|]; apply walk_ask|]. intros _.
  destruct (sg_evidence_interval_hours cfg); [apply walk_when; [done|]; apply walk_ask|done].
Qed.

End chores.

Lemma walk_tick : sched_ops -> keeper_ops -> ok bool (stamping "keeper" now (sg_lease_renewal_interval_seconds cfg * fone)) -> walks (tick cfg now).
Proof.
  intros ops kops Hdue. change (tick cfg now) with
    (_ ← when_due (keeper_enabled cfg) "keeper" now (sg_lease_renewal_interval_seconds cfg * fone) (keep_leases cfg now); after_keeper).
  apply within_bind; [apply walk_when_at; [exact Hdue|by apply walk_keeper]|]. intros _. by apply walk_after.
Qed.
End walk.

(** ** Beside a worker *)

Definition beside_op (id owner : string) (B : Type) (body : prog Sched B) : Prop :=
  forall s, rtc (bystander id owner) (sc_process s) (sc_process (body s).1).

Lemma beside_same id owner B (body : prog Sched B) :
  (forall s, sc_process (body s).1 = sc_process s) -> beside_op id owner B body.
Proof. intros Hb s. by rewrite Hb. Qed.

Lemma beside_db id owner B (body : prog World B) :
  (forall p, bystander id owner p (with_world (body (s_world (pr_store p))).1 p)) -> beside_op id owner B (on_process (on_db body)).
Proof.
  intros Hb s. specialize (Hb (sc_process s)). unfold on_process, on_db. destruct (body _) as [w r]. by apply rtc_once.
Qed.

Lemma beside_sched_ops id owner now : sched_ops (beside_op id owner) now.
Proof.
  split; try (intros; by apply beside_same).
  - intros name interval _. apply beside_same. intros s. unfold stamping. by destruct (due_at _ _ _ _).
  - intros id' s. apply rtc_once. apply (b_cancel_token id owner id' (sc_process s)).
  - apply beside_db. apply b_reap.
  - intros d. apply beside_db. apply b_expire.
  - intros q. apply beside_db. apply b_sweep.
  - intros id' current target reason message data values Ht Hv. apply beside_db. intros p. apply b_release; [done|].
    destruct Ht as [[-> ->]|[-> ->]]; by left.
  - intros s. by apply rtc_once, b_elsewhere.
  - intros s. by apply rtc_once, b_elsewhere.
  - intros s. by apply rtc_once, b_elsewhere.
Qed.

Lemma beside_keeper_ops id owner now : keeper_ops (beside_op id owner) now.
Proof.
  split; try (intros; by apply beside_same).
  - intros id' s. apply rtc_once. apply (b_cancel_token id owner id' (sc_process s)).
  - intros owner' ids. apply beside_db. apply b_renew.
  - intros id' owner' s. apply rtc_once. apply (b_lost id owner id' owner' (sc_process s)).
Qed.

(** ** The leases of this process *)

(** The job is in flight in [st], leased to [owner] until [until] at least. *)
Definition keeps (id owner : string) (st : JobState) (n until : Z) (s : Sched) : Prop :=
  exists j, jobs (s_world (pr_store (sc_process s))) !! id = Some j /\ j_lease_owner j = Some owner /\ j_state j = st /\
    j_attempt j = n /\ exists t, j_lease_expires_at j = Some t /\ until <= t.

Definition keeper_ran (last : Z) (s : Sched) : Prop := sc_last s !! "keeper" = Some last.

(** An operation that keeps the job and the keeper's stamp. *)
Definition kept_op (id owner : string) (st : JobState) (n last until : Z) (B : Type) (body : prog Sched B) : Prop :=
  forall s, keeps id owner st n until s /\ keeper_ran last s -> keeps id owner st n until (body s).1 /\ keeper_ran last (body s).1.

Lemma kept_same id owner st n last until B (body : prog Sched B) :
  (forall s, pr_store (sc_process (body s).1) = pr_store (sc_process s) /\ sc_last (body s).1 = sc_last s) ->
  kept_op id owner st n last until B body.
Proof. intros Hb s [Hk Hl]. destruct (Hb s) as [Hs Hla]. unfold keeps, keeper_ran. by rewrite Hs, Hla. Qed.

(** An operation of the tables, from what it does to the row. *)
Lemma kept_db id owner st n last until B (body : prog World B) :
  (forall w j, jobs w !! id = Some j -> j_lease_owner j = Some owner -> j_state j = st ->
     (exists t, j_lease_expires_at j = Some t /\ until <= t) ->
     exists j', jobs (body w).1 !! id = Some j' /\ j_lease_owner j' = Some owner /\ j_state j' = st /\ j_attempt j' = j_attempt j /\
       exists t, j_lease_expires_at j' = Some t /\ until <= t) ->
  kept_op id owner st n last until B (on_process (on_db body)).
Proof.
  intros Hb s [(j & Hj & Hl & Hs & Ha & Ht) Hla]. destruct (Hb _ j Hj Hl Hs Ht) as (j' & Hj' & Hl' & Hs' & Ha' & Ht').
  unfold on_process, on_db. destruct (body _) as [w r] eqn:E. cbn [fst] in *. split; [|exact Hla].
  exists j'. split; [exact Hj'|]. split; [done|]. split; [done|]. split; [congruence|done].
Qed.

Lemma unwaiting st : is_lease_holding st = true -> is_waiting st = false /\ st <> CANCELLING /\ st <> WAITING_RESOURCES.
Proof. by destruct st. Qed.

(** A move of a row that is in another state does nothing to this one. *)
Lemma move_other id id' current target now reason message data values w j :
  jobs w !! id = Some j -> j_state j <> current -> jobs (move id' current target now None reason message data values w).1 !! id = Some j.
Proof.
  intros Hj Hs. unfold move, sink_write. rewrite prog_bind_run, transition_run. cbn [t_jobs].
  destruct (is_legal current target); [|exact Hj]. destruct (jobs w !! id') as [j'|] eqn:Hj'; [|exact Hj].
  destruct (cas_matches current None j') eqn:Hc; [|exact Hj]. cbn. rewrite lookup_insert_ne; [exact Hj|]. intros ->.
  unfold cas_matches in Hc. apply andb_true_iff in Hc as [Hc _]. bool_to_prop. congruence.
Qed.

Lemma kept_sched_ops id owner st n last until now :
  is_lease_holding st = true -> now <= until -> sched_ops (kept_op id owner st n last until) now.
Proof.
  intros Hst Hnow. destruct (unwaiting st Hst) as (Hw & Hc & Hr).
  split; try (intros; by apply kept_same).
  - intros name interval Hname s [Hk Hla]. unfold stamping. destruct (due_at _ _ _ _); [|by split].
    split; [exact Hk|]. unfold keeper_ran, stamp. cbn. by rewrite lookup_insert_ne.
  - intros s [Hk Hla]. split; [exact Hk|]. unfold keeper_ran, set_sched, stamp. cbn. by rewrite lookup_insert_ne.
  - apply kept_db. intros w j Hj Hl Hs (t & Ht & Hle). exists j. rewrite reap_lookup, Hj. cbn. split.
    + f_equal. unfold reaped, lease_expired. rewrite Ht. by rewrite (proj2 (Z.ltb_ge t now)) by lia.
    + split_and!; try done. by exists t.
  - intros d. apply kept_db. intros w j Hj Hl Hs Ht. exists j. rewrite expire_lookup, Hj. cbn. split; [|done].
    unfold overdue. by rewrite Hs, Hw.
  - intros q. apply kept_db. intros w j Hj Hl Hs Ht. exists j. rewrite sweep_lookup, Hj. cbn. split; [|done].
    unfold swept. by rewrite Hs, Hw.
  - intros id' current target reason message data values Hcur Hv. apply kept_db. intros w j Hj Hl Hs Ht. exists j.
    split; [|done]. apply move_other; [exact Hj|]. by destruct Hcur as [[-> _]|[-> _]]; congruence.
  - intros s Hk. exact Hk.
Qed.

(** The keeper's renewal of this owner's leases. *)
Lemma renew_lookup owner ids now ls w id :
  jobs (renew_leases owner ids now ls w).1 !! id =
  (fun j => if renewable owner ids id j then assign_all [SetLeaseExpiresAt (Some (now + 1000000 * ls))] j else j) <$> jobs w !! id.
Proof.
  unfold renew_leases. rewrite bind_get. case_bool_decide as Hids.
  - subst ids. destruct (jobs w !! id) as [j|] eqn:Hj; cbn; [|exact Hj]. by rewrite Hj.
  - rewrite prog_bind_run. cbn. by rewrite lookup_update_where.
Qed.

(** Before the renewal: the job is this owner's and in the registry. *)
Definition in_hand (id owner : string) (st : JobState) (n now : Z) (s : Sched) : Prop :=
  (exists j, jobs (s_world (pr_store (sc_process s))) !! id = Some j /\ j_lease_owner j = Some owner /\ j_state j = st /\ j_attempt j = n) /\
  is_Some (pr_registry (sc_process s) !! (owner, id)) /\ keeper_ran now s.

#[local] Abbreviation renewed now := (now + 1000000 * lease_seconds (sg_queue cfg)).

Lemma in_hand_ops id owner st n now : keeper_ops (fun B body => forall s, in_hand id owner st n now s -> in_hand id owner st n now (body s).1) now.
Proof.
  split; try done.
  - intros id' s (Hj & Hr & Hk). split; [exact Hj|]. split; [|exact Hk]. cbn. rewrite map_lookup_imap. by destruct Hr as [e ->].
  - intros owner' ids s ((j & Hj & Hl & Hs & Ha) & Hr & Hk). unfold on_process, on_db.
    pose proof (renew_lookup owner' ids now (lease_seconds (sg_queue cfg)) (s_world (pr_store (sc_process s))) id) as Hlk. rewrite Hj in Hlk.
    destruct (renew_leases _ _ _ _ _) as [w r]. cbn [fst snd] in *. split; [|by split]. eexists. split; [exact Hlk|].
    by destruct (renewable owner' ids id j).
  - intros id' owner' s (Hj & Hr & Hk). split; [exact Hj|]. split; [|exact Hk]. cbn. unfold mark_lost, update_entry.
    destruct (decide ((owner', id') = (owner, id))) as [[= -> ->]|Hne]; [rewrite lookup_alter_eq|by rewrite lookup_alter_ne].
    destruct Hr as [e ->]. by eexists.
Qed.

Lemma kept_keeper_ops id owner st n now : keeper_ops (kept_op id owner st n now (renewed now)) now.
Proof.
  split; try (intros; by apply kept_same).
  intros owner' ids. apply kept_db. intros w j Hj Hl Hs (t & Ht & Hle). rewrite renew_lookup, Hj. cbn. eexists. split; [reflexivity|].
  destruct (renewable owner' ids id j); [|split_and!; try done; by exists t].
  split_and!; try done. exists (renewed now). split; [done|lia].
Qed.

Lemma job_ids_in owner id r : is_Some (r !! (owner, id)) -> id ∈ job_ids_for owner r.
Proof.
  intros [e He]. unfold job_ids_for. apply list_elem_of_fmap. exists ((owner, id), e). split; [done|].
  apply list_elem_of_In, filter_In. split; [by apply list_elem_of_In, elem_of_map_to_list|]. by rewrite bool_decide_true.
Qed.

(** The keeper of this owner renews the job's lease. *)
Lemma keep_owner_renews id owner st n now s (tr : SchedTrace) s' o :
  is_lease_holding st = true -> in_hand id owner st n now s -> runs eq (keep_owner cfg now owner) s tr s' o ->
  keeps id owner st n (renewed now) s' /\ keeper_ran now s'.
Proof.
  intros Hst Hin Hruns. pose proof (kept_keeper_ops id owner st n now) as kops. unfold keep_owner in Hruns.
  apply runs_inv in Hruns. cbn -[renew_leases] in Hruns. destruct Hruns as (s1 & tr1 & <- & -> & Hruns). cbn [on_process fst snd] in Hruns.
  assert (Hs1 : with_process (sc_process s) s = s) by (by destruct s). rewrite Hs1 in Hruns.
  case_bool_decide as Hids.
  { exfalso. destruct Hin as (_ & Hr & _). apply job_ids_in in Hr. rewrite Hids in Hr. by apply not_elem_of_nil in Hr. }
  apply runs_inv in Hruns. cbn -[renew_leases] in Hruns. destruct Hruns as (s2 & tr2 & <- & -> & Hruns).
  set (ids := list_to_set (job_ids_for owner (pr_registry (sc_process s))) : gset string) in *.
  destruct Hin as ((j & Hj & Hl & Hs & Ha) & Hr & Hk).
  assert (Hren : renewable owner ids id j = true).
  { unfold renewable. rewrite !andb_true_iff, !bool_decide_eq_true. split_and!; [|done|].
    - apply elem_of_list_to_set. by apply job_ids_in.
    - rewrite Hs. by destruct st; try done; set_solver. }
  pose proof (renew_lookup owner ids now (lease_seconds (sg_queue cfg)) (s_world (pr_store (sc_process s))) id) as Hlk.
  rewrite Hj in Hlk. cbn [fmap option_fmap option_map] in Hlk. rewrite Hren in Hlk.
  assert (Hgoal : forall w r, renew_leases owner ids now (lease_seconds (sg_queue cfg)) (s_world (pr_store (sc_process s))) = (w, r) ->
    keeps id owner st n (renewed now) (with_process (with_world w (sc_process s)) s) /\ keeper_ran now (with_process (with_world w (sc_process s)) s)).
  { intros w r E. rewrite E in Hlk. split; [|exact Hk]. eexists. split; [exact Hlk|]. split; [done|]. split; [done|]. split; [done|].
    exists (renewed now). split; [done|lia]. }
  unfold on_process, on_db in Hruns. destruct (renew_leases _ _ _ _ _) as [w [lost|e]]; cbn [fst snd] in *.
  2:{ apply runs_inv in Hruns as (-> & -> & ->). by eapply Hgoal. }
  revert Hruns. specialize (Hgoal w _ eq_refl). revert Hgoal. generalize (with_process (with_world w (sc_process s)) s). intros s3 Hgoal Hruns.
  refine (within_invariant eq (fun _ => True) (fun s => keeps id owner st n (renewed now) s /\ keeper_ran now s) _ _ _ _ _ _ _ Hruns Hgoal).
  { by intros w1 w2 <-. }
  cbn [of_result dbind]. apply (within_bind _ _ (act (set_sched (count_renewals _)))); [apply (walk_act _ _), (op_renewals _ _ kops)|]. intros _.
  apply walk_each_unit. intros id'. apply (walk_act _ _), (op_lost _ _ kops).
Qed.

(** The keeper's loops end. *)
#[local] Abbreviation ends m := (forall s (tr : SchedTrace), Dialogue.wp (W := Sched) (Ans := SchedAnswer (M := M)) eq m (fun r _ _ => r = Ok tt) s tr).

Lemma each_unit_ends {A} (f : A -> session unit) l : (forall x, ends (f x)) -> ends (each_unit f l).
Proof.
  intros Hf. induction l as [|x l IH]; intros s tr; cbn [each_unit]; [done|]. apply wp_bind.
  eapply wp_mono; [|apply Hf]. intros r s' tr' ->. apply IH.
Qed.

Lemma renew_ok owner ids now ls w : exists lost, (renew_leases owner ids now ls w).2 = Ok lost.
Proof. unfold renew_leases. rewrite bind_get. case_bool_decide; by eexists. Qed.

Lemma keep_owner_ends now owner : ends (keep_owner cfg now owner).
Proof.
  intros s tr. unfold keep_owner. apply wp_bind, wp_act. intros s1 <-. cbn [on_process fst snd].
  case_bool_decide; [done|]. apply wp_bind, wp_act. intros s2 <-. unfold on_process, on_db.
  match goal with |- context [renew_leases ?o ?i ?t ?l ?w] => destruct (renew_ok o i t l w) as [lost Hlost]; destruct (renew_leases o i t l w) as [w' r'] end.
  cbn [snd fst] in *. subst r'. apply wp_bind, wp_act. intros s3 <-. cbn. apply each_unit_ends. intros id s4 tr4.
  apply wp_act. by intros s5 <-.
Qed.

Lemma owners_renew id owner st n now l s (tr : SchedTrace) s' o :
  is_lease_holding st = true -> owner ∈ l -> in_hand id owner st n now s ->
  runs eq (each_unit (keep_owner cfg now) l) s tr s' o -> o = Done (Ok tt) /\ keeps id owner st n (renewed now) s' /\ keeper_ran now s'.
Proof.
  intros Hst. revert s tr. induction l as [|x l IH]; intros s tr Hin Hh Hruns; [by apply not_elem_of_nil in Hin|].
  cbn [each_unit] in Hruns. apply runs_bind in Hruns as [(a & tr1 & s1 & tr2 & Hx & Hl & ->)|Hfail].
  2:{ exfalso. destruct Hfail as [(e & -> & Hx)|[-> Hx]];
      destruct (wp_sound _ _ _ _ [] _ _ _ (keep_owner_ends now x s []) Hx) as (r & Hr & ->); discriminate Hr. }
  destruct (decide (x = owner)) as [->|Hne].
  - split.
    { destruct (wp_sound _ _ _ _ [] _ _ _ (each_unit_ends _ l (keep_owner_ends now) s1 []) Hl) as (r & -> & ->). done. }
    apply (within_invariant eq (fun _ => True) (fun s => keeps id owner st n (renewed now) s /\ keeper_ran now s) _ _ _ _ _) in Hl.
    + exact Hl.
    + by intros w1 w2 <-.
    + apply walk_each_unit. intros x. apply (walk_keep_owner _ now). apply kept_keeper_ops.
    + by eapply keep_owner_renews.
  - apply elem_of_cons in Hin as [Hin|Hin]; [by subst|]. eapply IH; [exact Hin| |exact Hl].
    eapply (within_invariant eq (fun _ => True) (in_hand id owner st n now)); [by intros w1 w2 <-| |exact Hx|exact Hh].
    apply (walk_keep_owner _ now), in_hand_ops.
Qed.

(** The keeper renews the lease of every job in hand. *)
Lemma keep_leases_renews id owner st n now s (tr : SchedTrace) s' o :
  is_lease_holding st = true -> owner ∈ sg_worker_owners cfg -> in_hand id owner st n now s ->
  runs eq (keep_leases cfg now) s tr s' o -> keeps id owner st n (renewed now) s' /\ keeper_ran now s'.
Proof.
  intros Hst Hin Hh Hruns. unfold keep_leases in Hruns. apply runs_bind in Hruns as [(a & tr1 & s1 & tr2 & Ho & Hl & ->)|Hfail].
  2:{ exfalso. destruct Hfail as [(e & -> & Hx)|[-> Hx]]; by destruct (owners_renew _ _ _ _ _ _ _ _ _ _ Hst Hin Hh Hx) as [[=] _]. }
  destruct (owners_renew _ _ _ _ _ _ _ _ _ _ Hst Hin Hh Ho) as (_ & Hk).
  refine (within_invariant eq (fun _ => True) (fun s => keeps id owner st n (renewed now) s /\ keeper_ran now s) _ _ _ _ _ _ _ Hl Hk).
  { by intros w1 w2 <-. }
  pose proof (kept_keeper_ops id owner st n now) as kops.
  apply within_bind; [apply within_act, (op_view _ _ kops)|]. intros held. case_bool_decide; [done|].
  apply within_bind; [apply within_act, (op_view _ _ kops)|]. intros flagged. apply walk_each_unit. intros id'. apply within_act, (op_flag _ _ kops).
Qed.

(** Not due again: the interval has not gone by. *)
Lemma not_due name now interval last s :
  sc_last s !! name = Some last -> 0 <= interval <= 2 ^ 53 -> due_at name now (interval * fone) s = false -> now < last + 1000000 * interval.
Proof.
  intros Hl Hi. unfold due_at. rewrite Hl. intros Hn. apply negb_false_iff, Z.ltb_lt in Hn.
  destruct (Z_lt_le_dec now (last + 1000000 * interval)) as [|Hle]; [done|]. exfalso.
  assert (Hex : total_seconds (1000000 * interval) = interval * fone).
  { unfold total_seconds. rewrite int_div_pos_eq by lia. apply fround_repr_eq; [lia|apply repr_int; lia|lia]. }
  pose proof (total_seconds_mono (1000000 * interval) (now - last) ltac:(lia)). lia.
Qed.
(** The whole tick, for a job of this process. *)
Lemma tick_keeps id owner now s (tr : SchedTrace) s' o j :
  keeper_enabled cfg = true -> 0 <= sg_lease_renewal_interval_seconds cfg <= 2 ^ 53 ->
  sg_lease_renewal_interval_seconds cfg <= lease_seconds (sg_queue cfg) ->
  owner ∈ sg_worker_owners cfg -> is_Some (pr_registry (sc_process s) !! (owner, id)) ->
  jobs (s_world (pr_store (sc_process s))) !! id = Some j -> j_lease_owner j = Some owner -> is_lease_holding (j_state j) = true ->
  (forall last, keeper_ran last s -> exists t, j_lease_expires_at j = Some t /\ renewed last <= t) ->
  runs eq (tick cfg now) s tr s' o ->
  exists last, keeper_ran last s' /\ keeps id owner (j_state j) (j_attempt j) (renewed last) s' /\ now <= renewed last.
Proof.
  intros Hen Hiv Hls Hin Hr Hj Hl Hst Hfresh Hruns.
  change (tick cfg now) with
    (_ ← when_due (keeper_enabled cfg) "keeper" now (sg_lease_renewal_interval_seconds cfg * fone) (keep_leases cfg now); after_keeper now) in Hruns.
  assert (Hkeeper : forall (tr1 : SchedTrace) s1 o1, runs eq (when_due (keeper_enabled cfg) "keeper" now (sg_lease_renewal_interval_seconds cfg * fone)
      (keep_leases cfg now)) s tr1 s1 o1 ->
    exists last, keeper_ran last s1 /\ keeps id owner (j_state j) (j_attempt j) (renewed last) s1 /\ now <= renewed last).
  { intros tr1 s1 o1 Hr1. rewrite Hen in Hr1. unfold when_due, due in Hr1. apply runs_inv in Hr1.
    cbn -[due_at keep_leases] in Hr1. destruct Hr1 as (s2 & tr2 & <- & -> & Hr1).
    destruct (due_at "keeper" now _ s) eqn:Edue; cbn [fst snd of_result dbind] in Hr1.
    - apply (keep_leases_renews id owner (j_state j) (j_attempt j)) in Hr1; [|done|done|].
      + destruct Hr1 as [Hk Hran]. exists now. split; [done|]. split; [done|lia].
      + split; [by exists j|]. split; [done|]. apply lookup_insert_eq.
    - destruct (sc_last s !! "keeper") as [last|] eqn:Elast; [|unfold due_at in Edue; by rewrite Elast in Edue].
      pose proof (not_due _ _ _ _ _ Elast Hiv Edue) as Hnow. apply runs_inv in Hr1 as (-> & -> & ->).
      exists last. split; [done|]. split; [|lia]. exists j. destruct (Hfresh last Elast) as (t & Ht & Hle). split_and!; try done. by exists t. }
  apply runs_bind in Hruns as [(a & tr1 & s1 & tr2 & Hk & Ha & ->)|Hfail].
  2:{ destruct Hfail as [(e & -> & Hk)|[-> Hk]]; by eapply Hkeeper. }
  destruct (Hkeeper _ _ _ Hk) as (last & Hran & Hkeeps & Hnow). exists last.
  enough (keeps id owner (j_state j) (j_attempt j) (renewed last) s' /\ keeper_ran last s') as [? ?] by done.
  refine (within_invariant eq (fun _ => True) (fun s => keeps id owner (j_state j) (j_attempt j) (renewed last) s /\ keeper_ran last s)
    _ _ _ _ _ _ _ Ha (conj Hkeeps Hran)); [by intros w1 w2 <-|].
  apply (walk_after _ now). by apply kept_sched_ops.
Qed.
End scheduler.

(** ** A concrete installation *)

Definition sample_config : SchedulerConfig :=
  mkSchedulerConfig sample_settings 1 30 30 None 0 ["w/1"] true true true true.

Definition sample_running : Job := sample_job EXECUTING (Some "w/1") (Some 5) 400 0.

Definition sample_entry : InFlightEntry :=
  mkInFlight "s" "1" "w/1" false 0 NORMAL EXECUTING None None None None false.

(** The lease ran out at 5; the scheduler has not run before, and comes at 9. *)
Definition sample_sched : Sched :=
  mkSched (mkProcess (mkStore (QueueStore.sample_world {["s" := sample_running]}) [] ∅) {[("w/1", "s") := sample_entry]} false)
    (mkFlags false false) ∅ 0 0 0 0.

Definition sample_chores (n : nat) (q : SchedQuestion) : SchedAnswer (M := option Z) q :=
  match q as q' return SchedAnswer (M := option Z) q' with
  | TakeTelemetry => None
  | ReadResidentDevices => ∅
  | ReadEvictable _ => ∅
  | ReadExcluded => ∅
  | EvictIdle _ _ => Ok []
  | SyncResidency _ => Ok tt
  | RefreshVerdicts _ => Ok false
  | ApplySettings | SweepRetention _ | RefreshEvidence _ => tt
  end.

Definition sample_tick := @tick sample_externals sample_sql (option Z) option_measurement sample_config 9.
Definition sample_ticked := play sample_chores 0 sample_tick sample_sched.

Lemma sample_ticked_ends :
  (match sample_ticked with (tr, s, o) =>
     (match o with Done (Ok _) => true | _ => false end,
      (fun j => (j_state j, j_lease_expires_at j)) <$> jobs (s_world (pr_store (sc_process s))) !! "s",
      existsb (fun o => match o with Acted a b => bool_decide (sc_renewals a = 0) && bool_decide (sc_renewals b = 1) | _ => false end) tr) end)
  = (true, Some (EXECUTING, Some 60000009), true).
Proof. vm_compute. reflexivity. Qed.

Module Properties.
Section properties.
Context `{Externals} `{Wire} `{Sql}.
Context {M : Type} `{Measurement M}.
Context (cfg : SchedulerConfig).

(** C9: The keeper protects every job of its own process, however late a tick comes. Take a job in flight,
    leased to a worker of this process that holds it in the registry, and not about to expire before the
    renewal after the keeper's last run (as a claim and a renewal leave it). A tick at any later instant, even
    long after the lease ran out and whatever the chores of other modules answer or raise, leaves the job
    leased to that worker, in its state, with its attempt; and the lease is again good for the next ticks.
    The settings' check that a lease lasts several renewal intervals is what is needed of them. *)
Theorem tick_keeps_own_leases (id owner : string) (now : Z) (s s' : Sched) (tr : list (Obs Sched (SchedAnswer (M := M)))) (o : Ending unit) (j : Job) :
  keeper_enabled cfg = true -> 0 <= sg_lease_renewal_interval_seconds cfg <= 2 ^ 53 ->
  3 * sg_lease_renewal_interval_seconds cfg <= lease_seconds (sg_queue cfg) ->
  owner ∈ sg_worker_owners cfg -> is_Some (pr_registry (sc_process s) !! (owner, id)) ->
  jobs (s_world (pr_store (sc_process s))) !! id = Some j -> j_lease_owner j = Some owner -> is_lease_holding (j_state j) = true ->
  (forall last, sc_last s !! "keeper" = Some last ->
     exists t, j_lease_expires_at j = Some t /\ last + 1000000 * lease_seconds (sg_queue cfg) <= t) ->
  runs eq (tick cfg now) s tr s' o ->
  exists j' last t, jobs (s_world (pr_store (sc_process s'))) !! id = Some j' /\ j_lease_owner j' = Some owner /\
    j_state j' = j_state j /\ j_attempt j' = j_attempt j /\ sc_last s' !! "keeper" = Some last /\
    j_lease_expires_at j' = Some t /\ last + 1000000 * lease_seconds (sg_queue cfg) <= t /\ now <= t.
Proof.
  intros Hen Hiv Hls Hin Hr Hj Hl Hst Hfresh Hruns.
  destruct (tick_keeps cfg id owner now s tr s' o j Hen Hiv ltac:(lia) Hin Hr Hj Hl Hst Hfresh Hruns)
    as (last & Hran & (j' & Hj' & Hl' & Hs' & Ha' & t & Ht & Hle) & Hnow).
  exists j', last, t. split_and!; try done. lia.
Qed.

(** The scheduler is one of those a worker's processing allows beside it: each operation of a tick on the
    shared state is a sequence of the steps [worker_settles] is proved against, for every worker and job of
    this process or another. Its moves and its reaper may end a job's lease and flag it as cancelled; they never
    give a lease out. *)
Theorem scheduler_beside_workers (rely : Sched -> Sched -> Prop) (id owner : string) (now : Z) (s s' : Sched)
    (tr : list (Obs Sched (SchedAnswer (M := M)))) (o : Ending unit) (before after : Sched) :
  runs rely (tick cfg now) s tr s' o -> Acted before after ∈ tr -> rtc (bystander id owner) (sc_process before) (sc_process after).
Proof.
  intros Hr Hin.
  destruct (within_acted _ _ _ _ _ _ _ _ _ _ (walk_tick cfg (beside_op id owner) now (beside_sched_ops id owner now) (beside_keeper_ops cfg id owner now)
    ltac:(apply beside_same; intros x; unfold stamping; by destruct (due_at _ _ _ _))) Hr Hin) as (B & body & Hb & <-). apply Hb.
Qed.
End properties.

Lemma tick_keeps_own_leases_witness : exists tr s' o j',
  runs eq sample_tick sample_sched tr s' o /\ lease_expired 9 sample_running = true /\
  jobs (s_world (pr_store (sc_process s'))) !! "s" = Some j' /\ j_lease_owner j' = Some "w/1" /\ j_state j' = EXECUTING.
Proof.
  destruct sample_ticked as [[tr s'] o] eqn:E. pose proof (play_runs eq _ _ _ _ _ _ _ (fun w => eq_refl) E) as Hruns. clear E.
  destruct (tick_keeps_own_leases (H := sample_externals) (H1 := sample_sql) sample_config "s" "w/1" 9 sample_sched s' tr o sample_running
    eq_refl ltac:(cbn; lia) ltac:(cbn; lia) ltac:(left) ltac:(by eexists) eq_refl eq_refl eq_refl
    (fun last Hn => ltac:(discriminate Hn)) Hruns) as (j' & last & t & Hj' & Hl' & Hs' & _).
  exists tr, s', o, j'. split; [exact Hruns|]. split; [vm_compute; reflexivity|]. split; [exact Hj'|]. split; [exact Hl'|exact Hs'].
Defined.

Lemma scheduler_beside_workers_witness : exists tr s' o before after,
  runs eq sample_tick sample_sched tr s' o /\ sc_renewals before = 0 /\ sc_renewals after = 1 /\
  rtc (@bystander sample_externals sample_wire sample_sql "s" "w/1") (sc_process before) (sc_process after).
Proof.
  destruct sample_ticked as [[tr s'] o] eqn:E. pose proof sample_ticked_ends as He. rewrite E in He.
  pose proof (play_runs eq _ _ _ _ _ _ _ (fun w => eq_refl) E) as Hruns. clear E. injection He as _ _ He.
  apply existsb_exists in He as (x & Hin & Hx). destruct x as [a b|q a]; [|discriminate Hx].
  apply andb_true_iff in Hx as [Ha Hb]. apply bool_decide_eq_true in Ha, Hb.
  exists tr, s', o, a, b. split; [exact Hruns|]. split; [exact Ha|]. split; [exact Hb|].
  eapply (scheduler_beside_workers (H := sample_externals) (H0 := sample_wire) (H1 := sample_sql) sample_config eq); [exact Hruns|].
  exact (proj2 (list_elem_of_In _ _) Hin).
Defined.
End Properties.
