(* ===== verification/Residency.v ===== *)
(** * Residency ([services/residency.py])

    What is loaded where, and what decides it: the [residency] table of one installation, read and written
    by a service per provider registration.  The provider is a partner that answers; any number of other
    services, workers and processes act on the table between two operations. *)

From Stdlib Require Import Ascii String.
From S2P Require Import Prelude PyFloat Json JobEvents Ordering QueueStore Dialogue.
#[local] Open Scope string_scope.
#[local] Open Scope list_scope.
#[local] Open Scope Z_scope.

Definition REASON_UNMANAGED : string := "residency_unmanaged".

(** ** The tables *)

(** [Residency], one episode of one model on one device. *)
Record ResidencyRow := mkRow {
  rr_model_id : string;
  rr_adapter_id : option string;
  rr_adapter_key : string;
  rr_gpu_index : Z;
  rr_loaded_at : Z;
  rr_last_used_at : Z;
  rr_vram_bytes : option f64;
  rr_vram_bytes_unavailable_reason : option string;
  rr_resident : bool;
  rr_unloaded_at : option Z;
  rr_unload_reason : option string
}.

(** The columns of [Model] a resident entry shows. *)
Record ModelRow := mkModelRow {
  mr_canonical_id : string;
  mr_provider_kind : string;
  mr_provider_model_name : string;
  mr_artifact_digest : option string
}.

Record Tables := mkTables { t_rows : gmap string ResidencyRow; t_models : gmap string ModelRow; t_ids : nat }.

Definition with_rows (rows : gmap string ResidencyRow) (t : Tables) : Tables := mkTables rows (t_models t) (t_ids t).

(** The unique key of an episode. *)
Definition episode_key (r : ResidencyRow) : string * string * Z * Z :=
  (rr_model_id r, rr_adapter_key r, rr_gpu_index r, rr_loaded_at r).

(** Writing one row, refused when another row has its key. *)
Definition put_row (id : string) (r : ResidencyRow) : prog Tables unit :=
  fun t =>
    if existsb (fun kv : string * ResidencyRow => negb (bool_decide (kv.1 = id)) && bool_decide (episode_key kv.2 = episode_key r)) (map_to_list (t_rows t))
    then (t, Raise IntegrityError)
    else (with_rows (<[id := r]> (t_rows t)) t, Ok tt).

Record ResidentEntry := mkEntry {
  re_residency_id : string;
  re_model_id : string;
  re_canonical_id : string;
  re_provider_kind : string;
  re_provider_model_name : string;
  re_artifact_digest : option string;
  re_gpu_index : Z;
  re_loaded_at : Z;
  re_last_used_at : Z;
  re_vram_bytes : option Z
}.

(** [ModelIdentity]. *)
Definition identity : Type := string * string * option string.

Definition entry_identity (e : ResidentEntry) : identity :=
  (re_provider_kind e, re_provider_model_name e, re_artifact_digest e).

Record LoadOutcome := mkLoad {
  lo_loaded : bool;
  lo_already_resident : bool;
  lo_evicted : list string;
  lo_reason : option string
}.

Definition load_json (o : LoadOutcome) : json :=
  JObj [("loaded", JBool (lo_loaded o)); ("already_resident", JBool (lo_already_resident o));
        ("evicted", JArr (map JStr (lo_evicted o))); ("reason", match lo_reason o with Some x => JStr x | None => JNull end)].

(** ** Reading *)

(** The join of one row with its model. *)
Definition entry_of (models : gmap string ModelRow) (kv : string * ResidencyRow) : option ResidentEntry :=
  let '(id, r) := kv in
  if rr_resident r then
    m ← models !! rr_model_id r;
    Some (mkEntry id (rr_model_id r) (mr_canonical_id m) (mr_provider_kind m) (mr_provider_model_name m) (mr_artifact_digest m)
            (rr_gpu_index r) (rr_loaded_at r) (rr_last_used_at r) (ftrunc <$> rr_vram_bytes r))
  else None.

Definition oldest_use : ResidentEntry -> ResidentEntry -> bool :=
  leb_of (cmp_on (fun e => (re_last_used_at e, re_residency_id e)) (cmp_pair Z.compare String.compare)).

(** [resident]: every open episode of the table, oldest use first. *)
Definition resident (t : Tables) : list ResidentEntry :=
  py_sorted oldest_use (omap (entry_of (t_models t)) (map_to_list (t_rows t))).

Definition resident_model_ids (t : Tables) : gset string := list_to_set (map re_model_id (resident t)).
Definition resident_canonical_ids (t : Tables) : gset string := list_to_set (map re_canonical_id (resident t)).

Definition resident_devices (t : Tables) : gmap string (gset Z) :=
  fold_left (fun m e => <[re_canonical_id e := default ∅ (m !! re_canonical_id e) ∪ {[re_gpu_index e]}]> m) (resident t) ∅.

Definition evictable_bytes (entries : list ResidentEntry) (in_use : gset string) : gmap Z Z :=
  fold_left (fun m e =>
    if bool_decide (re_model_id e ∈ in_use) then m
    else match re_vram_bytes e with
         | None => m
         | Some b => <[re_gpu_index e := default 0 (m !! re_gpu_index e) + b]> m
         end) entries ∅.

(** ** The service *)

(** What the provider declares it lets the service do; [unknown_support] is what is assumed when its
    declaration cannot be read. *)
Class Support := {
  Capabilities : Type;
  ResidencySupport : Type;
  residency_support : Capabilities -> ResidencySupport;
  unknown_support : ResidencySupport;
  is_manageable : ResidencySupport -> bool;
  can_query : ResidencySupport -> bool
}.

(** An answer of the provider: a value, a [ProviderError] with its code, or another exception. *)
Inductive provider_reply (A : Type) := Replied (a : A) | Refused (code : string) | Broke (e : exn).
Arguments Replied {A} a.
Arguments Refused {A} code.
Arguments Broke {A} e.

Section service.
Context `{Externals} `{Support}.
Context {RuntimeProfile : Type}.

(** A model the provider reports as loaded; [None] stands for memory it does not report. *)
Record ReportedModel := mkReported { rm_identity : identity; rm_vram_bytes : option Z }.

Inductive Question :=
| ReadCapabilities
| Load (model : identity) (profile : RuntimeProfile)
| Unload (model : identity)
| ListResident.

Definition Answer (q : Question) : Type :=
  match q with
  | ReadCapabilities => provider_reply Capabilities
  | Load _ _ | Unload _ => provider_reply unit
  | ListResident => provider_reply (list ReportedModel)
  end.

(** The tables, and what the service remembers of its provider. *)
Record Service := mkService { sv_tables : Tables; sv_support : option ResidencySupport }.

#[local] Abbreviation session := (dialogue (W := Service) Answer).

Definition ask_provider (q : Question) : session (Answer q) := ask q.

Definition on_tables {A} (body : prog Tables A) : session A :=
  act (fun s => let '(t, r) := body (sv_tables s) in (mkService t (sv_support s), r)).

Definition remembered : session (option ResidencySupport) := act (fun s => (s, Ok (sv_support s))).
Definition remember (x : ResidencySupport) : session unit := act (fun s => (mkService (sv_tables s) (Some x), Ok tt)).

Definition read {A} (f : Tables -> A) : session A := on_tables (fun t => (t, Ok (f t))).

(** [support]: read once; a declaration that cannot be read is asked for again the next time. *)
Definition support : session ResidencySupport :=
  known ← remembered;
  match known with
  | Some x => mret x
  | None =>
      declared ← ask_provider ReadCapabilities;
      match declared with
      | Replied c => _ ← remember (residency_support c); mret (residency_support c)
      | Refused _ => mret unknown_support
      | Broke e => Throw e
      end
  end.

Definition manageable : session bool := s ← support; mret (is_manageable s).

Definition evictable_bytes_by_device (in_use : gset string) : session (gmap Z Z) :=
  ok ← manageable;
  if ok : bool then entries ← read resident; mret (evictable_bytes entries in_use) else mret ∅.

(** The open episodes of one model on one device; [scalar_one_or_none] raises when there are two. *)
Definition episodes (model_id : string) (gpu_index : Z) (t : Tables) : list (string * ResidencyRow) :=
  List.filter (fun kv : string * ResidencyRow =>
    bool_decide (rr_model_id kv.2 = model_id) && (rr_gpu_index kv.2 =? gpu_index) && rr_resident kv.2) (map_to_list (t_rows t)).

Definition used (adapter_id : option string) (adapter_key : string) (now : Z) (r : ResidencyRow) : ResidencyRow :=
  mkRow (rr_model_id r) adapter_id adapter_key (rr_gpu_index r) (rr_loaded_at r) now (rr_vram_bytes r)
    (rr_vram_bytes_unavailable_reason r) (rr_resident r) (rr_unloaded_at r) (rr_unload_reason r).

Definition closed (now : Z) (reason : string) (r : ResidencyRow) : ResidencyRow :=
  mkRow (rr_model_id r) (rr_adapter_id r) (rr_adapter_key r) (rr_gpu_index r) (rr_loaded_at r) (rr_last_used_at r) (rr_vram_bytes r)
    (rr_vram_bytes_unavailable_reason r) false (Some now) (Some reason).

Definition record_use (model_id : string) (gpu_index now : Z) (adapter_id : option string) (adapter_key : string) : session unit :=
  on_tables (fun t => match episodes model_id gpu_index t with
                      | [] => (t, Ok tt)
                      | [(id, r)] => put_row id (used adapter_id adapter_key now r) t
                      | _ => (t, Raise (OtherException None))
                      end).

(** Closing an episode; the key does not change, so no other row can have it. *)
Definition close_row (id : string) (now : Z) (reason : string) : session unit :=
  on_tables (fun t => (with_rows (alter (closed now reason) id (t_rows t)) t, Ok tt)).

(** [_unload]. *)
Definition unload (entry : ResidentEntry) (reason : string) (now : Z) : session bool :=
  answer ← ask_provider (Unload (entry_identity entry));
  match answer with
  | Replied _ => _ ← close_row (re_residency_id entry) now reason; mret true
  | Refused _ => mret false
  | Broke e => Throw e
  end.

(** [_reported_vram]: the first reported model of that name. *)
Definition reported_vram (model : identity) : session (option Z) :=
  s ← support;
  if can_query s then
    answer ← ask_provider ListResident;
    match answer with
    | Replied l => mret (head (List.filter (fun m => bool_decide ((rm_identity m).1.2 = model.1.2)) l) ≫= rm_vram_bytes)
    | Refused _ => mret None
    | Broke e => Throw e
    end
  else mret None.

(** ** Loading *)

Definition over_limit (max_resident : Z) (on_device evicted : nat) : bool := max_resident <=? Z.of_nat on_device - Z.of_nat evicted.

Definition no_room (required_bytes free : option Z) (headroom_bytes : Z) : bool :=
  match required_bytes, free with Some r, Some f => f <? r + headroom_bytes | _, _ => false end.

Section ensure.
Context (max_resident : Z) (model_id canonical_id : string) (model : identity) (profile : RuntimeProfile)
  (in_use : gset string) (required_bytes : option Z) (headroom_bytes now : Z).

(** [for entry in on_device], oldest use first; the models evicted so far and the memory they leave free. *)
Fixpoint make_room (on_device : nat) (entries : list ResidentEntry) (evicted : list string) (free : option Z) : session (list string) :=
  match entries with
  | [] => mret evicted
  | entry :: rest =>
      if over_limit max_resident on_device (length evicted) || no_room required_bytes free headroom_bytes then
        if bool_decide (re_model_id entry ∈ in_use) then make_room on_device rest evicted free
        else
          gone ← unload entry ("evicted_for:" +:+ canonical_id) now;
          if gone : bool
          then make_room on_device rest (evicted ++ [re_canonical_id entry])
                 (match free, re_vram_bytes entry with Some f, Some b => Some (f + b) | _, _ => free end)
          else make_room on_device rest evicted free
      else mret evicted
  end.

Definition new_episode (gpu_index : Z) (adapter_id : option string) (adapter_key : string) (vram : option Z) : ResidencyRow :=
  mkRow model_id adapter_id adapter_key gpu_index now now (of_int <$> vram)
    (match vram with Some _ => None | None => Some "provider_does_not_report_vram" end) true None None.

(** The insert, under the next id. *)
Definition open_episode (r : ResidencyRow) : session unit :=
  on_tables (fun t =>
    let id := new_id (t_ids t) in
    let t' := mkTables (t_rows t) (t_models t) (S (t_ids t)) in
    match t_rows t !! id with Some _ => (t', Raise IntegrityError) | None => put_row id r t' end).

Definition ensure_loaded (gpu_index : option Z) (free_bytes : option Z) (adapter_id : option string) (adapter_key : string)
  : session LoadOutcome :=
  ok ← manageable;
  if ok : bool then
    match gpu_index with
    | None => mret (mkLoad false false [] (Some "no_device"))
    | Some gpu =>
        entries ← read resident;
        let on_device := List.filter (fun e => re_gpu_index e =? gpu) entries in
        if existsb (fun e => bool_decide (re_model_id e = model_id)) on_device then
          _ ← record_use model_id gpu now adapter_id adapter_key;
          mret (mkLoad false true [] None)
        else
          evicted ← make_room (length on_device) on_device [] free_bytes;
          answer ← ask_provider (Load model profile);
          match answer with
          | Refused code => mret (mkLoad false false evicted (Some code))
          | Broke e => Throw e
          | Replied _ =>
              vram ← reported_vram model;
              _ ← open_episode (new_episode gpu adapter_id adapter_key vram);
              mret (mkLoad true false evicted None)
          end
    end
  else mret (mkLoad false false [] (Some REASON_UNMANAGED)).
End ensure.

(** ** Evicting and reconciling *)

Section sweep.
Context (in_use : gset string) (idle_after : f64) (now : Z).

Definition is_idle (entry : ResidentEntry) : bool :=
  negb (bool_decide (re_model_id entry ∈ in_use)) && (idle_after <=? total_seconds (now - re_last_used_at entry)).

Fixpoint evict_entries (entries : list ResidentEntry) (unloaded : list string) : session (list string) :=
  match entries with
  | [] => mret unloaded
  | entry :: rest =>
      if is_idle entry then
        gone ← unload entry "idle" now;
        evict_entries rest (if gone : bool then unloaded ++ [re_canonical_id entry] else unloaded)
      else evict_entries rest unloaded
  end.

Definition evict_idle : session (list string) :=
  ok ← manageable;
  if ok : bool then entries ← read resident; evict_entries entries [] else mret [].
End sweep.

Fixpoint close_missing (now : Z) (reported : gset string) (entries : list ResidentEntry) : session unit :=
  match entries with
  | [] => mret tt
  | entry :: rest =>
      _ ← (if bool_decide (re_provider_model_name entry ∈ reported) then mret tt
           else close_row (re_residency_id entry) now "provider_reported_unloaded");
      close_missing now reported rest
  end.

(** [sync]: episodes the provider no longer reports are closed. *)
Definition sync (now : Z) : session unit :=
  s ← support;
  if can_query s then
    answer ← ask_provider ListResident;
    match answer with
    | Replied l => entries ← read resident; close_missing now (list_to_set (map (fun m => (rm_identity m).1.2) l)) entries
    | Refused _ => mret tt
    | Broke e => Throw e
    end
  else mret tt.
End service.

(** ** Lemmas: the open episodes *)

Definition open_rows (t : Tables) : list ResidentEntry := omap (entry_of (t_models t)) (map_to_list (t_rows t)).

Lemma resident_perm t : resident t ≡ₚ open_rows t.
Proof. apply py_sorted_perm. Qed.

Lemma entry_of_id models kv e : entry_of models kv = Some e -> re_residency_id e = kv.1.
Proof.
  destruct kv as [id r]. unfold entry_of. destruct (rr_resident r); [|done].
  destruct (models !! rr_model_id r); [|done]. by intros [= <-].
Qed.

Lemma elem_of_resident t e :
  e ∈ resident t <-> exists r, t_rows t !! re_residency_id e = Some r /\ entry_of (t_models t) (re_residency_id e, r) = Some e.
Proof.
  rewrite resident_perm. unfold open_rows. rewrite list_elem_of_omap. split.
  - intros ([id r] & Hin & He). pose proof (entry_of_id _ _ _ He) as Hid. cbn in Hid. subst id.
    apply elem_of_map_to_list in Hin. by exists r.
  - intros (r & Hr & He). exists (re_residency_id e, r). split; [by apply elem_of_map_to_list|done].
Qed.

Lemma resident_nodup t : NoDup (map re_residency_id (resident t)).
Proof.
  rewrite resident_perm. unfold open_rows.
  pose proof (NoDup_fst_map_to_list (t_rows t)) as Hn. revert Hn. generalize (map_to_list (t_rows t)). intros l.
  induction l as [|kv l IH]; cbn; [constructor|]. intros [Hnot Hn]%NoDup_cons.
  destruct (entry_of (t_models t) kv) as [e|] eqn:Ee; [|by apply IH]. cbn. apply NoDup_cons. split; [|by apply IH].
  intros Hin. apply Hnot. apply list_elem_of_fmap in Hin as (e' & He' & Hin). apply list_elem_of_omap in Hin as (kv' & Hkv' & Ee').
  apply list_elem_of_fmap. exists kv'. split; [|done]. apply entry_of_id in Ee, Ee'. congruence.
Qed.

(** Closing an open episode takes its entry away. *)
Lemma resident_close t id r e now reason :
  t_rows t !! id = Some r -> entry_of (t_models t) (id, r) = Some e ->
  resident t ≡ₚ e :: resident (with_rows (alter (closed now reason) id (t_rows t)) t).
Proof.
  intros Hr He. rewrite !resident_perm. unfold open_rows, with_rows. cbn [t_rows t_models].
  rewrite <- (map_to_list_delete (t_rows t) id r Hr).
  replace (alter (closed now reason) id (t_rows t)) with (<[id := closed now reason r]> (delete id (t_rows t))).
  2:{ rewrite insert_delete_eq. apply map_eq. intros i. destruct (decide (i = id)) as [->|Hne].
      - by rewrite lookup_insert_eq, lookup_alter_eq, Hr.
      - by rewrite lookup_insert_ne, lookup_alter_ne by congruence. }
  rewrite map_to_list_insert by apply lookup_delete_eq. cbn [omap list_omap]. by rewrite He.
Qed.

Lemma resident_open t id r e :
  t_rows t !! id = None -> entry_of (t_models t) (id, r) = Some e ->
  resident (with_rows (<[id := r]> (t_rows t)) t) ≡ₚ e :: resident t.
Proof.
  intros Hr He. rewrite !resident_perm. unfold open_rows, with_rows. cbn [t_rows t_models].
  rewrite map_to_list_insert by done. cbn [omap list_omap]. by rewrite He.
Qed.

(** How many models are resident on a device, and how many of them are in use. *)
Definition on_device (gpu : Z) (t : Tables) : list ResidentEntry := List.filter (fun e => re_gpu_index e =? gpu) (resident t).

Definition is_in_use (in_use : gset string) (e : ResidentEntry) : bool := bool_decide (re_model_id e ∈ in_use).

Lemma on_device_close gpu t id r e now reason :
  t_rows t !! id = Some r -> entry_of (t_models t) (id, r) = Some e -> re_gpu_index e = gpu ->
  length (on_device gpu t) = S (length (on_device gpu (with_rows (alter (closed now reason) id (t_rows t)) t))).
Proof.
  intros Hr He Hg. unfold on_device. rewrite (filter_perm _ _ _ (resident_close t id r e now reason Hr He)). cbn.
  by rewrite Hg, Z.eqb_refl.
Qed.

Section residency.
Context `{Externals} `{Support}.
Context {RuntimeProfile : Type}.

#[local] Abbreviation session := (dialogue (W := Service) (Answer (RuntimeProfile := RuntimeProfile))).
#[local] Abbreviation Trace := (list (Obs Service (Answer (RuntimeProfile := RuntimeProfile)))).
#[local] Abbreviation wp := (Dialogue.wp (W := Service) (Ans := Answer (RuntimeProfile := RuntimeProfile)) eq).

(** The provider carried out every unload it was asked for. *)
Definition unloads_done (tr : Trace) : Prop :=
  forall i (a : Answer (Unload i)), Asked (Ans := Answer (RuntimeProfile := RuntimeProfile)) (Unload i) a ∈ tr -> a = Replied tt.

Lemma unloads_done_prefix tr more : unloads_done (tr ++ more) -> unloads_done tr.
Proof. intros Hd i a Hin. apply (Hd i a). apply elem_of_app. by left. Qed.

(** Reading and closing, as steps. *)
Lemma wp_tables {A B} (body : prog Tables A) (f : A -> session B) Post s tr :
  (forall t r more, body (sv_tables s) = (t, r) ->
     match r with
     | Ok a => wp (f a) Post (mkService t (sv_support s)) (tr ++ more)
     | Raise e => Post (Raise e) (mkService t (sv_support s)) (tr ++ more)
     end) ->
  wp (on_tables body ≫= f) Post s tr.
Proof.
  intros Hb. apply wp_bind, wp_act. intros s1 <-. destruct (body (sv_tables s)) as [t r] eqn:E.
  specialize (Hb t r [Acted s (mkService t (sv_support s))] eq_refl). by destruct r.
Qed.

Lemma wp_support {B} (f : ResidencySupport -> session B) Post s tr :
  (forall x known more, wp (f x) Post (mkService (sv_tables s) known) (tr ++ more)) ->
  (forall e known more, Post (Raise e) (mkService (sv_tables s) known) (tr ++ more)) ->
  wp (support ≫= f) Post s tr.
Proof.
  intros Hf He. unfold support. apply wp_bind, wp_bind, wp_act. intros s1 <-. cbn [snd fst].
  destruct s as [t [x|]]; cbn [sv_tables sv_support] in *.
  - apply Hf.
  - apply wp_bind, (wp_ask (Ans := Answer) _ ReadCapabilities). intros [c|code|e].
    + apply wp_bind, wp_act. intros s1 <-. rewrite <- !app_assoc. apply Hf.
    + rewrite <- app_assoc. apply Hf.
    + rewrite <- app_assoc. apply He.
Qed.

Lemma wp_manageable {B} (f : bool -> session B) Post s tr :
  (forall b known more, wp (f b) Post (mkService (sv_tables s) known) (tr ++ more)) ->
  (forall e known more, Post (Raise e) (mkService (sv_tables s) known) (tr ++ more)) ->
  wp (manageable ≫= f) Post s tr.
Proof. intros Hf He. unfold manageable. apply wp_bind, wp_support; [|exact He]. intros x known more. apply Hf. Qed.

(** Entries still open, each once, on one device. *)
Definition open_entries (gpu : Z) (t : Tables) (entries : list ResidentEntry) : Prop :=
  NoDup (map re_residency_id entries) /\
  forall e, e ∈ entries -> re_gpu_index e = gpu /\
    exists r, t_rows t !! re_residency_id e = Some r /\ entry_of (t_models t) (re_residency_id e, r) = Some e.

Lemma open_entries_tail gpu t e rest : open_entries gpu t (e :: rest) -> open_entries gpu t rest.
Proof. intros [Hn He]. split; [by inversion Hn|]. intros x Hx. apply He. by right. Qed.

Lemma open_entries_close gpu t e rest now reason :
  open_entries gpu t (e :: rest) ->
  open_entries gpu (with_rows (alter (closed now reason) (re_residency_id e) (t_rows t)) t) rest.
Proof.
  intros [Hn He]. inversion Hn as [|? ? Hnot Hn']. subst. split; [done|]. intros x Hx.
  destruct (He x) as (Hg & r & Hr & Hx'); [by right|]. split; [done|]. exists r. cbn [with_rows t_rows t_models].
  split; [|done]. rewrite lookup_alter_ne; [done|]. intros Heq. apply Hnot. rewrite Heq. by apply list_elem_of_fmap_2.
Qed.

Lemma on_device_open gpu t : open_entries gpu t (on_device gpu t).
Proof.
  split.
  - pose proof (resident_nodup t) as Hn. unfold on_device. revert Hn. generalize (resident t). intros l.
    induction l as [|e l IH]; cbn; [constructor|]. intros [Hnot Hn]%NoDup_cons. destruct (re_gpu_index e =? gpu); [|by apply IH].
    cbn. apply NoDup_cons. split; [|by apply IH]. intros Hin. apply Hnot. apply list_elem_of_fmap in Hin as (x & Hx & Hin).
    apply list_elem_of_fmap. exists x. split; [done|]. apply list_elem_of_In, filter_In in Hin as [Hin _]. by apply list_elem_of_In.
  - intros e Hin. apply list_elem_of_In, filter_In in Hin as [Hin Hg]. bool_to_prop. split; [done|].
    apply list_elem_of_In, elem_of_resident in Hin as (r & Hr & He). by exists r.
Qed.

Section room.
Context (max_resident : Z) (canonical_id : string) (in_use : gset string) (required_bytes : option Z) (headroom_bytes now : Z) (gpu : Z).

#[local] Abbreviation room := (make_room (RuntimeProfile := RuntimeProfile) max_resident canonical_id in_use required_bytes headroom_bytes now).

Definition idle_count (entries : list ResidentEntry) : nat := length (List.filter (fun e => negb (is_in_use in_use e)) entries).

(** What making room leaves on the device. *)
Definition room_made (n : nat) (t : Tables) (entries : list ResidentEntry) (evicted : list string) (r : result (list string)) (t' : Tables) : Prop :=
  match r with
  | Raise _ => True
  | Ok evicted' =>
      (length (on_device gpu t') + length evicted' = length (on_device gpu t) + length evicted)%nat /\ t_models t' = t_models t /\
      (over_limit max_resident n (length evicted') = false \/ length evicted' = (length evicted + idle_count entries)%nat)
  end.

Lemma make_room_wp n entries evicted free s tr :
  open_entries gpu (sv_tables s) entries ->
  wp (room n entries evicted free)
    (fun r s' tr' => unloads_done tr' -> room_made n (sv_tables s) entries evicted r (sv_tables s')) s tr.
Proof.
  revert evicted free s tr. induction entries as [|e rest IH]; intros evicted free s tr Ho; cbn [make_room].
  { intros _. split; [done|]. split; [done|]. right. unfold idle_count. cbn. lia. }
  destruct (over_limit _ _ _ || no_room _ _ _) eqn:Enot.
  2:{ intros _. split; [done|]. split; [done|]. left. by apply orb_false_iff in Enot as [Hn _]. }
  case_bool_decide as Euse.
  { eapply wp_mono; [|by apply IH; eapply open_entries_tail]. intros [evicted'|ex] s' tr' Hr Hd; [|done].
    destruct (Hr Hd) as (Hl & Hm & Hc). split; [done|]. split; [done|]. destruct Hc as [Hc|Hc]; [by left|right].
    unfold idle_count in *. cbn [List.filter]. unfold is_in_use at 1. by rewrite bool_decide_true. }
  destruct Ho as [Hn He]. destruct (He e) as (Hg & r & Hr & Hee); [by left|].
  unfold unload. apply wp_bind, wp_bind, (wp_ask (Ans := Answer) _ (Unload (entry_identity e))). intros answer.
  destruct answer as [[]|code|ex].
  - apply wp_tables. intros t r0 more [= <- <-]. apply wp_ret. cbv beta iota.
    eapply wp_mono; [|apply IH; by apply open_entries_close].
    intros [evicted'|ex] s' tr' Hr' Hd; [|done]. cbn [sv_tables] in Hr'. destruct (Hr' Hd) as (Hl & Hm & Hc).
    pose proof (on_device_close gpu (sv_tables s) _ r e now ("evicted_for:" +:+ canonical_id) Hr Hee Hg) as Hlen.
    rewrite length_app in *. cbn [length] in *. split; [lia|]. split; [done|]. destruct Hc as [Hc|Hc]; [by left|right].
    unfold idle_count in *. cbn [List.filter]. unfold is_in_use at 1. rewrite bool_decide_false by done. cbn [negb length]. lia.
  - apply wp_ret. cbv beta iota. eapply wp_mono; [|apply wp_extends; by apply IH; eapply open_entries_tail].
    intros r' s' tr' [[more ->] _] Hd. exfalso.
    assert (Hx : Refused code = Replied tt); [|discriminate Hx].
    apply (Hd (entry_identity e) (Refused code)). apply elem_of_app. left. apply elem_of_app. right. by apply list_elem_of_singleton.
  - intros _. done.
Qed.
End room.

(** The insert of an episode adds at most one entry. *)
Lemma on_device_put gpu id r t t' :
  t_rows t !! id = None -> put_row id r t = (t', Ok tt) -> (length (on_device gpu t') <= S (length (on_device gpu t)))%nat.
Proof.
  intros Hn. unfold put_row. destruct (existsb _ _); [done|]. intros [= <-]. unfold on_device.
  destruct (entry_of (t_models t) (id, r)) as [e|] eqn:Ee.
  - rewrite (filter_perm _ _ _ (resident_open t id r e Hn Ee)). cbn. destruct (_ =? _); cbn; lia.
  - assert (Hp : resident (with_rows (<[id := r]> (t_rows t)) t) ≡ₚ resident t).
    { rewrite !resident_perm. unfold open_rows, with_rows. cbn [t_rows t_models]. rewrite map_to_list_insert by done.
      cbn [omap list_omap]. by rewrite Ee. }
    rewrite (filter_perm _ _ _ Hp). lia.
Qed.

Lemma wp_reported_vram {B} model (f : option Z -> session B) Post s tr :
  (forall v known more, wp (f v) Post (mkService (sv_tables s) known) (tr ++ more)) ->
  (forall e known more, Post (Raise e) (mkService (sv_tables s) known) (tr ++ more)) ->
  wp (reported_vram model ≫= f) Post s tr.
Proof.
  intros Hf He. unfold reported_vram. apply wp_bind, wp_support; [|exact He]. intros x known more.
  destruct (can_query x); [|apply wp_ret, Hf].
  apply wp_bind, (wp_ask (Ans := Answer) _ ListResident). intros [l|code|e].
  - apply wp_ret. rewrite <- app_assoc. apply Hf.
  - apply wp_ret. rewrite <- app_assoc. apply Hf.
  - cbn. rewrite <- app_assoc. apply He.
Qed.

Section ensure.
Context (max_resident : Z) (model_id canonical_id : string) (model : identity) (profile : RuntimeProfile)
  (in_use : gset string) (required_bytes : option Z) (headroom_bytes now : Z).

#[local] Abbreviation ensure := (ensure_loaded max_resident model_id canonical_id model profile in_use required_bytes headroom_bytes now).

(** How many models of a device are in use. *)
Definition busy (gpu : Z) (t : Tables) : list ResidentEntry := List.filter (is_in_use in_use) (on_device gpu t).

Lemma idle_and_busy gpu t : (idle_count in_use (on_device gpu t) + length (busy gpu t) = length (on_device gpu t))%nat.
Proof.
  unfold idle_count, busy. generalize (on_device gpu t). intros l.
  induction l as [|e l IH]; cbn; [done|]. destruct (is_in_use in_use e); cbn in *; lia.
Qed.

(** The occupancy a load leaves on its device. *)
Definition occupancy_ok (gpu : Z) (t : Tables) (r : result LoadOutcome) (t' : Tables) : Prop :=
  match r with
  | Ok o => lo_loaded o = true -> Z.of_nat (length (on_device gpu t')) <= Z.max max_resident (1 + Z.of_nat (length (busy gpu t)))
  | Raise _ => True
  end.

Lemma ensure_wp gpu free adapter_id adapter_key s tr :
  wp (ensure (Some gpu) free adapter_id adapter_key)
    (fun r s' tr' => unloads_done tr' -> occupancy_ok gpu (sv_tables s) r (sv_tables s')) s tr.
Proof.
  unfold ensure_loaded. apply wp_manageable; [|done]. intros [] known more; [|done].
  unfold read. apply wp_tables. intros t r more1 [= <- <-]. cbv zeta. cbn [sv_tables sv_support].
  fold (on_device gpu (sv_tables s)).
  set (n := length (on_device gpu (sv_tables s))).
  destruct (existsb _ _).
  { unfold record_use. apply wp_tables. intros t r more2 E. by destruct r. }
  apply wp_bind. eapply wp_mono; [|apply (make_room_wp _ _ _ _ _ _ gpu), on_device_open].
  intros [evicted|e] s2 tr2 Hroom; [|done]. cbn [sv_tables] in Hroom.
  apply wp_bind, (wp_ask (Ans := Answer) _ (Load model profile)). intros [[]|code|e]; [|done|done].
  apply wp_reported_vram; [|done]. intros vram known2 more2. unfold open_episode. apply wp_tables.
  intros t r more3 Eput. cbn [sv_tables sv_support] in *. destruct r as [[]|e]; [|done]. apply wp_ret. intros Hd _. cbn [sv_tables].
  assert (Hd2 : unloads_done tr2) by (do 3 apply unloads_done_prefix in Hd; exact Hd).
  destruct (Hroom Hd2) as (Hlen & _ & Hcase). fold n in Hlen.
  destruct (t_rows (sv_tables s2) !! new_id (t_ids (sv_tables s2))) eqn:Enew; [discriminate Eput|].
  apply (on_device_put gpu) in Eput; [|exact Enew].
  change (on_device gpu (mkTables (t_rows (sv_tables s2)) (t_models (sv_tables s2)) (S (t_ids (sv_tables s2)))))
    with (on_device gpu (sv_tables s2)) in Eput.
  pose proof (idle_and_busy gpu (sv_tables s)) as Hb. fold n in Hb. cbn [length] in *.
  destruct Hcase as [Hcase|Hcase].
  - unfold over_limit in Hcase. apply Z.leb_gt in Hcase. fold n in Hcase. lia.
  - lia.
Qed.
End ensure.

(** ** What is unloaded, whatever goes on beside *)

Section unloads.
Context (rely : Service -> Service -> Prop).
#[local] Abbreviation wpr := (Dialogue.wp (W := Service) (Ans := Answer (RuntimeProfile := RuntimeProfile)) rely).

Definition no_unload (tr : Trace) : Prop := forall i (a : Answer (Unload i)), Asked (Ans := Answer (RuntimeProfile := RuntimeProfile)) (Unload i) a ∉ tr.

Lemma no_unload_app tr tr' : no_unload tr -> no_unload tr' -> no_unload (tr ++ tr').
Proof. intros H1' H2' i a Hin. apply elem_of_app in Hin as [Hin|Hin]; [by apply (H1' i a)|by apply (H2' i a)]. Qed.

Lemma no_unload_acted s s' : no_unload [Acted s s'].
Proof. intros i a Hin. by apply list_elem_of_singleton in Hin. Qed.

Lemma any_tables {A B} (body : prog Tables A) (f : A -> session B) Post s tr :
  (forall s1 t r, rely s s1 -> body (sv_tables s1) = (t, r) ->
     match r with
     | Ok a => wpr (f a) Post (mkService t (sv_support s1)) (tr ++ [Acted s1 (mkService t (sv_support s1))])
     | Raise e => Post (Raise e) (mkService t (sv_support s1)) (tr ++ [Acted s1 (mkService t (sv_support s1))])
     end) ->
  wpr (on_tables body ≫= f) Post s tr.
Proof.
  intros Hb. apply wp_bind, wp_act. intros s1 Hr. destruct (body (sv_tables s1)) as [t r] eqn:E.
  specialize (Hb s1 t r Hr E). by destruct r.
Qed.

Lemma any_support {B} (f : ResidencySupport -> session B) Post s tr :
  (forall x s1 more, no_unload more -> wpr (f x) Post s1 (tr ++ more)) ->
  (forall e s1 more, no_unload more -> Post (Raise e) s1 (tr ++ more)) ->
  wpr (support ≫= f) Post s tr.
Proof.
  intros Hf He. unfold support. apply wp_bind, wp_bind, wp_act. intros s1 _. cbn [snd fst].
  destruct (sv_support s1) as [x|].
  - apply Hf, no_unload_acted.
  - apply wp_bind, (wp_ask (Ans := Answer) _ ReadCapabilities). intros answer.
    assert (Hn : no_unload ([Acted s1 s1] ++ [Asked (Ans := Answer (RuntimeProfile := RuntimeProfile)) ReadCapabilities answer])).
    { apply no_unload_app; [apply no_unload_acted|]. intros i a Hin. by apply list_elem_of_singleton in Hin. }
    rewrite <- app_assoc. destruct answer as [c|code|e]; [|by apply Hf|by apply He].
    apply wp_bind, wp_act. intros s2 _. rewrite <- app_assoc. apply Hf, no_unload_app; [done|apply no_unload_acted].
Qed.

(** An entry that may be unloaded: idle, on the device. *)
Definition may_unload (in_use : gset string) (entries : list ResidentEntry) (i : identity) : Prop :=
  exists e, e ∈ entries /\ re_model_id e ∉ in_use /\ i = entry_identity e.

(** Every unload observed since [tr] is of such an entry. *)
Definition unloads_of (in_use : gset string) (entries : list ResidentEntry) (tr tr' : Trace) : Prop :=
  forall i (a : Answer (Unload i)), Asked (Ans := Answer (RuntimeProfile := RuntimeProfile)) (Unload i) a ∈ tr' ->
    Asked (Ans := Answer (RuntimeProfile := RuntimeProfile)) (Unload i) a ∈ tr \/ may_unload in_use entries i.

Lemma unloads_of_quiet in_use entries tr tr' more : unloads_of in_use entries tr tr' -> no_unload more -> unloads_of in_use entries tr (tr' ++ more).
Proof. intros Hu Hn i a Hin. apply elem_of_app in Hin as [Hin|Hin]; [by apply Hu|by apply Hn in Hin]. Qed.

Lemma unloads_of_step in_use rest e answer tr more tr' :
  re_model_id e ∉ in_use -> no_unload more ->
  unloads_of in_use rest ((tr ++ [Asked (Ans := Answer (RuntimeProfile := RuntimeProfile)) (Unload (entry_identity e)) answer]) ++ more) tr' ->
  unloads_of in_use (e :: rest) tr tr'.
Proof.
  intros He Hn Hu i a Hin. destruct (Hu i a Hin) as [Hold|(x & Hx & Hnot & ->)].
  2:{ right. exists x. split; [by right|by split]. }
  apply elem_of_app in Hold as [Hold|Hold]; [|by apply Hn in Hold].
  apply elem_of_app in Hold as [Hold|Hold]; [by left|]. right. exists e. split; [by left|]. split; [done|].
  apply list_elem_of_singleton in Hold. by injection Hold.
Qed.

Lemma unloads_of_weaken in_use e rest tr tr' : unloads_of in_use rest tr tr' -> unloads_of in_use (e :: rest) tr tr'.
Proof. intros Hu i a Hin. destruct (Hu i a Hin) as [|(x & Hx & Hr)]; [by left|right]. exists x. split; [by right|done]. Qed.


(** The unload of one entry, then the rest. *)
Lemma any_unload {B} e reason now in_use rest (f : bool -> session B) s tr :
  re_model_id e ∉ in_use ->
  (forall b s' tr', wpr (f b) (fun _ _ tr2 => unloads_of in_use rest tr' tr2) s' tr') ->
  wpr (unload e reason now ≫= f) (fun _ _ tr' => unloads_of in_use (e :: rest) tr tr') s tr.
Proof.
  intros He Hf. unfold unload. apply wp_bind, wp_bind, (wp_ask (Ans := Answer) _ (Unload (entry_identity e))). intros answer.
  assert (Hstep : forall b s' more, no_unload more ->
    wpr (f b) (fun _ _ tr' => unloads_of in_use (e :: rest) tr tr') s'
      ((tr ++ [Asked (Ans := Answer (RuntimeProfile := RuntimeProfile)) (Unload (entry_identity e)) answer]) ++ more)).
  { intros b s' more Hn. eapply wp_mono; [|apply Hf]. intros r s2 tr2. by apply unloads_of_step. }
  destruct answer as [[]|code|x].
  - apply any_tables. intros s1 t r _ [= <- <-]. apply wp_ret, Hstep, no_unload_acted.
  - apply wp_ret. cbv beta iota. pose proof (Hstep false s [] ltac:(intros i a Hin; by apply not_elem_of_nil in Hin)) as Hs.
    by rewrite app_nil_r in Hs.
  - intros i a Hin. apply elem_of_app in Hin as [Hin|Hin]; [by left|right]. exists e. split; [by left|]. split; [done|].
    apply list_elem_of_singleton in Hin. by injection Hin.
Qed.

Lemma any_make_room max_resident canonical_id in_use required_bytes headroom_bytes now n entries evicted free s tr :
  wpr (make_room max_resident canonical_id in_use required_bytes headroom_bytes now n entries evicted free)
    (fun _ _ tr' => unloads_of in_use entries tr tr') s tr.
Proof.
  revert evicted free s tr. induction entries as [|e rest IH]; intros evicted free s tr; cbn [make_room].
  { intros i a Hin. by left. }
  destruct (over_limit _ _ _ || no_room _ _ _); [|intros i a Hin; by left]. case_bool_decide as He.
  - eapply wp_mono; [|apply IH]. intros r s' tr'. apply unloads_of_weaken.
  - apply any_unload; [done|]. intros [] s' tr'; apply IH.
Qed.

Lemma any_evict in_use idle_after now entries unloaded s tr :
  wpr (evict_entries in_use idle_after now entries unloaded) (fun _ _ tr' => unloads_of in_use entries tr tr') s tr.
Proof.
  revert unloaded s tr. induction entries as [|e rest IH]; intros unloaded s tr; cbn [evict_entries].
  { intros i a Hin. by left. }
  destruct (is_idle in_use idle_after now e) eqn:Ei.
  - unfold is_idle in Ei. apply andb_true_iff in Ei as [Ei _]. bool_to_prop. apply any_unload; [done|]. intros [] s' tr'; apply IH.
  - eapply wp_mono; [|apply IH]. intros r s' tr'. apply unloads_of_weaken.
Qed.

(** Every unload is of an idle model that was read as resident, on the device when there is one. *)
Definition unloads_idle (in_use : gset string) (gpu : option Z) (tr : Trace) : Prop :=
  forall i (a : Answer (Unload i)), Asked (Ans := Answer (RuntimeProfile := RuntimeProfile)) (Unload i) a ∈ tr ->
    exists s e, Acted s s ∈ tr /\ e ∈ resident (sv_tables s) /\ re_model_id e ∉ in_use /\ i = entry_identity e /\
      (forall g, gpu = Some g -> re_gpu_index e = g).

Lemma idle_app in_use gpu tr more : unloads_idle in_use gpu tr -> no_unload more -> unloads_idle in_use gpu (tr ++ more).
Proof.
  intros Hu Hn i a Hin. apply elem_of_app in Hin as [Hin|Hin]; [|by apply Hn in Hin].
  destruct (Hu i a Hin) as (s & e & Hs & Hr). exists s, e. split; [apply elem_of_app; by left|done].
Qed.

Lemma idle_quiet in_use gpu tr : no_unload tr -> unloads_idle in_use gpu tr.
Proof. intros Hn i a Hin. by apply Hn in Hin. Qed.

Lemma no_unload_asked q (a : Answer q) :
  (match q with Unload _ => False | _ => True end) -> no_unload [Asked (Ans := Answer (RuntimeProfile := RuntimeProfile)) q a].
Proof. intros Hq i b Hin. apply list_elem_of_singleton in Hin. by injection Hin as <-. Qed.

(** Unloads of entries read in [s1], after a quiet start. *)
Lemma idle_of_entries in_use gpu s1 entries tr more :
  no_unload tr -> unloads_of in_use entries (tr ++ [Acted s1 s1]) ((tr ++ [Acted s1 s1]) ++ more) ->
  (forall e, e ∈ entries -> e ∈ resident (sv_tables s1) /\ forall g, gpu = Some g -> re_gpu_index e = g) ->
  unloads_idle in_use gpu ((tr ++ [Acted s1 s1]) ++ more).
Proof.
  intros Hn Hu He i a Hin. destruct (Hu i a Hin) as [Hold|(e & Hine & Hnot & ->)].
  { exfalso. apply (no_unload_app tr [Acted s1 s1] Hn (no_unload_acted s1 s1)) in Hold. done. }
  destruct (He e Hine) as [Hr Hg]. exists s1, e. split; [|done]. apply elem_of_app. left. apply elem_of_app. right. by apply list_elem_of_singleton.
Qed.

Lemma any_vram {B} model (f : option Z -> session B) Post s tr :
  (forall v s1 more, no_unload more -> wpr (f v) Post s1 (tr ++ more)) ->
  (forall e s1 more, no_unload more -> Post (Raise e) s1 (tr ++ more)) ->
  wpr (reported_vram model ≫= f) Post s tr.
Proof.
  intros Hf He. unfold reported_vram. apply wp_bind, any_support; [|exact He]. intros x s1 more Hn.
  destruct (can_query x); [|by apply wp_ret, Hf].
  apply wp_bind, (wp_ask (Ans := Answer) _ ListResident). intros answer.
  assert (Hn2 : no_unload (more ++ [Asked (Ans := Answer (RuntimeProfile := RuntimeProfile)) ListResident answer]))
    by (apply no_unload_app; [done|by apply no_unload_asked]).
  rewrite <- app_assoc. destruct answer as [l|code|e]; [by apply wp_ret, Hf|by apply wp_ret, Hf|by apply He].
Qed.

Lemma ensure_unloads max_resident model_id canonical_id model profile in_use required_bytes headroom_bytes now gpu free adapter_id adapter_key s :
  wpr (ensure_loaded max_resident model_id canonical_id model profile in_use required_bytes headroom_bytes now gpu free adapter_id adapter_key)
    (fun _ _ tr' => unloads_idle in_use gpu tr') s [].
Proof.
  unfold ensure_loaded, manageable. apply wp_bind, any_support; [|intros e s1 more Hn; by apply idle_quiet].
  intros x s0 tr0 Hn0. apply wp_ret. cbn [app]. destruct (is_manageable x); [|by apply idle_quiet].
  destruct gpu as [gpu|]; [|by apply idle_quiet]. unfold read. apply any_tables. intros s1 t r _ [= <- <-]. cbv zeta.
  assert (Hs1 : mkService (sv_tables s1) (sv_support s1) = s1) by (by destruct s1). rewrite Hs1.
  fold (on_device gpu (sv_tables s1)). destruct (existsb _ _).
  { unfold record_use. apply any_tables. intros s2 t r _ E.
    assert (Hq : unloads_idle in_use (Some gpu) ((tr0 ++ [Acted s1 s1]) ++ [Acted s2 (mkService t (sv_support s2))]))
      by (apply idle_quiet; repeat apply no_unload_app; (done || apply no_unload_acted)).
    by destruct r. }
  apply wp_bind. eapply wp_mono; [|apply wp_extends, any_make_room]. intros r s2 tr2 [[more ->] Hu].
  assert (Hidle : unloads_idle in_use (Some gpu) ((tr0 ++ [Acted s1 s1]) ++ more)).
  { eapply idle_of_entries; [done|exact Hu|]. intros e He. apply list_elem_of_In, filter_In in He as [He Hg]. bool_to_prop.
    split; [by apply list_elem_of_In|]. by intros g [= <-]. }
  destruct r as [evicted|e]; [|exact Hidle].
  apply wp_bind, (wp_ask (Ans := Answer) _ (Load model profile)). intros answer.
  assert (Hidle2 : unloads_idle in_use (Some gpu)
    (((tr0 ++ [Acted s1 s1]) ++ more) ++ [Asked (Ans := Answer (RuntimeProfile := RuntimeProfile)) (Load model profile) answer]))
    by (apply idle_app; [done|by apply no_unload_asked]).
  destruct answer as [[]|code|e]; [|exact Hidle2|exact Hidle2]. apply any_vram.
  2:{ intros e s3 more3 Hn3. by apply idle_app. }
  intros v s3 more3 Hn3. unfold open_episode. apply any_tables. intros s4 t r _ E.
  assert (Hq : unloads_idle in_use (Some gpu)
    (((((tr0 ++ [Acted s1 s1]) ++ more) ++ [Asked (Ans := Answer (RuntimeProfile := RuntimeProfile)) (Load model profile) (Replied ())]) ++ more3)
       ++ [Acted s4 (mkService t (sv_support s4))])) by (apply idle_app; [by apply idle_app|apply no_unload_acted]).
  by destruct r as [[]|e].
Qed.

Lemma evict_unloads in_use idle_after now s :
  wpr (evict_idle in_use idle_after now) (fun _ _ tr' => unloads_idle in_use None tr') s [].
Proof.
  unfold evict_idle, manageable. apply wp_bind, any_support; [|intros e s1 more Hn; by apply idle_quiet].
  intros x s0 tr0 Hn0. apply wp_ret. cbn [app]. destruct (is_manageable x); [|by apply idle_quiet].
  unfold read. apply any_tables. intros s1 t r _ [= <- <-].
  assert (Hs1 : mkService (sv_tables s1) (sv_support s1) = s1) by (by destruct s1). rewrite Hs1.
  eapply wp_mono; [|apply wp_extends, any_evict]. intros r s2 tr2 [[more ->] Hu].
  eapply idle_of_entries; [done|exact Hu|]. intros e He. by split.
Qed.
End unloads.

(** ** Reconciliation *)

(** What [sync] does to a row: it is closed when it is open, its model is known and is not reported. *)
Definition synced (now : Z) (reported : gset string) (t : Tables) (r : ResidencyRow) : ResidencyRow :=
  if rr_resident r then
    match t_models t !! rr_model_id r with
    | Some m => if bool_decide (mr_provider_model_name m ∈ reported) then r else closed now "provider_reported_unloaded" r
    | None => r
    end
  else r.

(** Closing a list of entries whose names are not reported. *)
Lemma close_missing_wp now reported entries s tr :
  NoDup (map re_residency_id entries) ->
  wp (close_missing now reported entries)
    (fun r s' _ => r = Ok tt /\ t_models (sv_tables s') = t_models (sv_tables s) /\
       forall id, t_rows (sv_tables s') !! id =
         (if existsb (fun e => bool_decide (re_residency_id e = id) && negb (bool_decide (re_provider_model_name e ∈ reported))) entries
          then closed now "provider_reported_unloaded" <$> t_rows (sv_tables s) !! id else t_rows (sv_tables s) !! id)) s tr.
Proof.
  revert s tr. induction entries as [|e rest IH]; intros s tr Hn; cbn [close_missing].
  { apply wp_ret. by split. }
  inversion Hn as [|? ? Hnot Hn']. subst. case_bool_decide as Hrep.
  - apply (wp_bind eq), wp_ret. eapply wp_mono; [|by apply IH]. cbn. intros r s' tr' (-> & Hm & Hrows). split; [done|]. split; [done|].
    intros id. rewrite Hrows. cbn [existsb]. by rewrite (bool_decide_true (re_provider_model_name e ∈ reported)), andb_false_r by done.
  - unfold close_row. apply wp_tables. intros t r more [= <- <-]. eapply wp_mono; [|by apply IH]. cbn [sv_tables sv_support with_rows t_rows t_models].
    intros r s' tr' (-> & Hm & Hrows). split; [done|]. split; [done|]. intros id. rewrite Hrows. cbn [existsb].
    rewrite (bool_decide_false (re_provider_model_name e ∈ reported)) by done. cbn [negb andb]. rewrite andb_true_r.
    destruct (decide (re_residency_id e = id)) as [<-|Hne].
    + rewrite bool_decide_true by done. cbn [orb]. rewrite lookup_alter_eq.
      replace (existsb _ rest) with false; [done|]. symmetry. apply not_true_iff_false. intros Hex.
      apply existsb_exists in Hex as (x & Hx & Hb). apply andb_true_iff in Hb as [Hb _]. bool_to_prop.
      apply Hnot. rewrite <- Hb. apply list_elem_of_fmap_2. by apply list_elem_of_In.
    + rewrite bool_decide_false by done. cbn [orb]. by rewrite lookup_alter_ne by congruence.
Qed.

Lemma sync_wp now s tr :
  wp (sync (RuntimeProfile := RuntimeProfile) now)
    (fun r s' tr' => match r with
       | Ok _ => sv_tables s' = sv_tables s \/
           exists l, Asked (Ans := Answer (RuntimeProfile := RuntimeProfile)) ListResident (Replied l) ∈ tr' /\
             forall id, t_rows (sv_tables s') !! id =
               synced now (list_to_set (map (fun m => (rm_identity m).1.2) l)) (sv_tables s) <$> t_rows (sv_tables s) !! id
       | Raise _ => sv_tables s' = sv_tables s
       end) s tr.
Proof.
  unfold sync. apply wp_support; [|done]. intros x known more. destruct (can_query x); [|apply wp_ret; by left].
  apply wp_bind, (wp_ask (Ans := Answer) _ ListResident). intros [l|code|e]; [|apply wp_ret; by left|done].
  unfold read. apply wp_tables. intros t r more2 [= <- <-]. cbn [sv_tables sv_support].
  set (reported := list_to_set (map (fun m => (rm_identity m).1.2) l) : gset string).
  eapply wp_mono; [|apply wp_extends, close_missing_wp, resident_nodup].
  intros r s' tr' [[more3 ->] (-> & Hm & Hrows)]. right. exists l. split.
  { apply elem_of_app. left. apply elem_of_app. left. apply elem_of_app. right. by apply list_elem_of_singleton. }
  intros id. rewrite Hrows. cbn [sv_tables].
  destruct (t_rows (sv_tables s) !! id) as [row|] eqn:Er; [|by destruct (existsb _ _)]. cbn [fmap option_fmap option_map]. unfold synced.
  destruct (existsb _ _) eqn:Eex.
  - apply existsb_exists in Eex as (e & He & Hb). apply andb_true_iff in Hb as [Hid Hrep]. bool_to_prop. 
    apply list_elem_of_In, elem_of_resident in He as (row' & Hrow' & Hee).
    rewrite Hid in *. rewrite Er in Hrow'. injection Hrow' as <-. unfold entry_of in Hee.
    destruct (rr_resident row); [|done]. destruct (t_models (sv_tables s) !! rr_model_id row) as [m|]; [|done].
    injection Hee as <-. cbn in Hrep. by rewrite bool_decide_false by done.
  - destruct (rr_resident row) eqn:Eres; [|done]. destruct (t_models (sv_tables s) !! rr_model_id row) as [m|] eqn:Em; [|done].
    case_bool_decide as Hrep; [done|]. exfalso. apply not_true_iff_false in Eex. apply Eex. apply existsb_exists.
    assert (Hee : exists e, entry_of (t_models (sv_tables s)) (id, row) = Some e /\ re_residency_id e = id /\ re_provider_model_name e = mr_provider_model_name m).
    { unfold entry_of. rewrite Eres, Em. by eexists. }
    destruct Hee as (e & Hee & Hid & Hname). exists e. split.
    + apply list_elem_of_In, elem_of_resident. exists row. rewrite Hid. by split.
    + rewrite Hid, Hname. by rewrite bool_decide_true, bool_decide_false by done.
Qed.
End residency.

(** ** A concrete installation *)

#[local] Instance sample_support : Support := {|
  Capabilities := unit; ResidencySupport := bool; residency_support _ := true; unknown_support := false;
  is_manageable b := b; can_query b := b |}.

Definition sample_episode (model_id : string) (last_used : Z) : ResidencyRow :=
  mkRow model_id None "" 0 1 last_used (Some (4 * fone)) None true None None.

(** Two models of one provider and one of another on device 0. *)
Definition sample_tables : Tables :=
  mkTables {["r1" := sample_episode "m1" 5; "r2" := sample_episode "m2" 6]}
    {["m1" := mkModelRow "a:7b" "rack" "a" None; "m2" := mkModelRow "b:7b" "other" "b" None; "m3" := mkModelRow "c:7b" "rack" "c" None]} 0.

Definition sample_service : Service := mkService sample_tables None.

Definition sample_provider (n : nat) (q : Question (RuntimeProfile := unit)) : Answer q :=
  match q as q' return Answer q' with
  | ReadCapabilities => Replied tt
  | Load _ _ | Unload _ => Replied tt
  | ListResident => Replied [mkReported ("rack", "a", None) (Some 4)]
  end.

Definition sample_ensure := @ensure_loaded sample_externals sample_support unit 1 "m3" "c:7b" ("rack", "c", None) tt {["m2"]} (Some 3) 1 9 (Some 0) (Some 2) None "".
Definition sample_sync := @sync sample_support unit 9.
Definition sample_loading := play sample_provider 0 sample_ensure sample_service.
Definition sample_syncing := play sample_provider 0 sample_sync sample_service.

Lemma sample_loading_ends :
  (match sample_loading with (tr, s, o) =>
     (match o with Done (Ok x) => Some (lo_loaded x, lo_evicted x) | _ => None end, length (on_device 0 (sv_tables s)),
      forallb (fun o => match o with Asked (Unload _) (Refused _) | Asked (Unload _) (Broke _) => false | _ => true end) tr,
      existsb (fun o => match o with Asked (Unload i) _ => bool_decide (i = ("rack", "a", None)) | _ => false end) tr) end)
  = (Some (true, ["a:7b"]), 2%nat, true, true).
Proof. vm_compute. reflexivity. Qed.

Lemma sample_busy : length (busy {["m2"]} 0 sample_tables) = 1%nat.
Proof. vm_compute. reflexivity. Qed.

Lemma sample_syncing_ends :
  (match sample_syncing with (_, s, o) =>
     (match o with Done (Ok _) => true | _ => false end, rr_resident <$> t_rows (sv_tables s) !! "r1", rr_resident <$> t_rows (sv_tables s) !! "r2") end)
  = (true, Some true, Some false).
Proof. vm_compute. reflexivity. Qed.

Module Properties.
Section properties.
Context `{Externals} `{Support}.
Context {RuntimeProfile : Type}.
#[local] Abbreviation Trace := (list (Obs Service (Answer (RuntimeProfile := RuntimeProfile)))).

(** The residency bound, per device: when the provider carries out the unloads it is asked for and nothing
    else writes the table meanwhile, a load leaves on its device at most [max_resident_models] models, or the
    models in use there and the new one when those alone are more. *)
Theorem device_occupancy (max_resident : Z) (model_id canonical_id : string) (model : identity) (profile : RuntimeProfile)
    (in_use : gset string) (required_bytes : option Z) (headroom_bytes now gpu : Z) (free_bytes : option Z)
    (adapter_id : option string) (adapter_key : string) (s s' : Service) (tr : Trace) (outcome : LoadOutcome) :
  runs eq (ensure_loaded max_resident model_id canonical_id model profile in_use required_bytes headroom_bytes now
             (Some gpu) free_bytes adapter_id adapter_key) s tr s' (Done (Ok outcome)) ->
  unloads_done tr -> lo_loaded outcome = true ->
  Z.of_nat (length (on_device gpu (sv_tables s'))) <= Z.max max_resident (1 + Z.of_nat (length (busy in_use gpu (sv_tables s)))).
Proof.
  intros Hr Hd Hl. destruct (wp_sound _ _ _ _ [] _ _ _ (ensure_wp max_resident model_id canonical_id model profile in_use
    required_bytes headroom_bytes now gpu free_bytes adapter_id adapter_key s []) Hr) as (r & [= <-] & Hp). by apply Hp.
Qed.


(** The reconciliation closes, of the whole table, every open episode whose model name this provider does
    not report, and changes no other row: nothing restricts it to the models this provider serves, so with
    several registrations the episodes of the others are closed as unloaded. *)
Theorem sync_closes_unreported (now : Z) (s s' : Service) (tr : Trace) (r : result unit) :
  runs eq (sync (RuntimeProfile := RuntimeProfile) now) s tr s' (Done r) ->
  match r with
  | Ok _ => sv_tables s' = sv_tables s \/
      exists l, Asked (Ans := Answer (RuntimeProfile := RuntimeProfile)) ListResident (Replied l) ∈ tr /\
        forall id, t_rows (sv_tables s') !! id =
          synced now (list_to_set (map (fun m => (rm_identity m).1.2) l)) (sv_tables s) <$> t_rows (sv_tables s) !! id
  | Raise _ => sv_tables s' = sv_tables s
  end.
Proof. intros Hr. by destruct (wp_sound _ _ _ _ [] _ _ _ (sync_wp now s []) Hr) as (r' & [= <-] & Hp). Qed.
End properties.

Lemma device_occupancy_witness : exists tr s' x,
  runs eq sample_ensure sample_service tr s' (Done (Ok x)) /\ lo_evicted x = ["a:7b"] /\
  Z.of_nat (length (on_device 0 (sv_tables s'))) <= 2.
Proof.
  destruct sample_loading as [[tr s'] o] eqn:E. pose proof sample_loading_ends as He. rewrite E in He.
  pose proof (play_runs eq _ _ _ _ _ _ _ (fun w => eq_refl) E) as Hruns. clear E.
  destruct o as [[x|e]|]; [|discriminate He|discriminate He]. injection He as Hl Hev Hn Hf _.
  exists tr, s', x. split; [exact Hruns|]. split; [exact Hev|].
  assert (Hd : unloads_done tr).
  { intros i a Hin. rewrite forallb_forall in Hf. specialize (Hf _ (proj1 (list_elem_of_In _ _) Hin)).
    destruct a as [[]|code|e]; [reflexivity|discriminate Hf|discriminate Hf]. }
  pose proof (device_occupancy (H := sample_externals) (H0 := sample_support) 1 "m3" "c:7b" ("rack", "c", None) tt {["m2"]} (Some 3) 1 9 0 (Some 2)
    None "" sample_service s' tr x Hruns Hd Hl) as Hle.
  change (sv_tables sample_service) with sample_tables in Hle. rewrite sample_busy in Hle. exact Hle.
Defined.


Lemma sync_closes_unreported_witness : exists tr s',
  runs eq sample_sync sample_service tr s' (Done (Ok tt)) /\ rr_resident <$> t_rows (sv_tables s') !! "r2" = Some false /\
  (sv_tables s' = sample_tables \/ exists l, Asked (Ans := Answer (RuntimeProfile := unit)) ListResident (Replied l) ∈ tr).
Proof.
  destruct sample_syncing as [[tr s'] o] eqn:E. pose proof sample_syncing_ends as He. rewrite E in He.
  pose proof (play_runs eq _ _ _ _ _ _ _ (fun w => eq_refl) E) as Hruns. clear E.
  destruct o as [[[]|e]|]; [|discriminate He|discriminate He]. injection He as _ Hclosed.
  exists tr, s'. split; [exact Hruns|]. split; [exact Hclosed|].
  destruct (sync_closes_unreported (H0 := sample_support) 9 sample_service s' tr (Ok tt) Hruns) as [Hsame|(l & Hl & _)]; [by left|right].
  by exists l.
Defined.
End Properties.
