(* ===== verification/ClaimLoop.v ===== *)
(** * The worker's loop ([services/worker.py])

    What a worker thread does for ever: claim the next job with a hint of what is loaded, process it to its end,
    and back off while there is nothing to do.  Its streak of affinity claims and its back-off are its own;
    everything else is shared.  The theorems put the queue's claim and the processing of a job together. *)

From Stdlib Require Import Ascii String.
From S2P Require Import Prelude PyFloat PyStr Json Telemetry QueueState Priority Authorization ContextBudget Admission JobEvents Submission RetryPolicy Subject Scoring Constraints Ranking TaskProfile Explanation Routing QueueStore Queue QueueTheory Recovery QueueSystem Bystanders Validation Raises Dialogue Generation Execution Runtime Worker WorkerTheory WorkerSystem Scheduler.
#[local] Open Scope string_scope.
#[local] Open Scope list_scope.
#[local] Open Scope Z_scope.

Definition POLL_BUSY_SECONDS : f64 := flit 1 20.
Definition POLL_IDLE_SECONDS : f64 := fone.

Section loop.
Context `{Externals} `{Wire} `{Profiles} `{Classification} `{Rack} `{Prompts} `{TextTools} `{ErrorText} `{WorkerText}.
Context (ASSISTANT : Role) (refusal : Call -> option exn) (profile_of_wire : Submission.RuntimeProfile -> Subject.RuntimeProfile).
Context (wk : WorkerConfig) (q : QueueSettings) (max_affinity_streak : Z).
#[local] Abbreviation owner := (wk_owner wk).

(** What the loop asks beside the questions of the job it runs. *)
Inductive LoopQuestion :=
| OfJob (question : Worker.Question)
| IsStopping
| IsClaiming
| ReadResident
| ReadClock
| WaitWakeup (seconds : f64)
| RecordDispatch (milliseconds : f64).

(** [WaitWakeup] answers whether the worker was woken. *)
Definition LoopAnswer (question : LoopQuestion) : Type :=
  match question with
  | OfJob question => Worker.Answer question
  | IsStopping | IsClaiming | WaitWakeup _ => bool
  | ReadResident => result (gset string)
  | ReadClock => Z
  | RecordDispatch _ => unit
  end.

#[local] Abbreviation session := (dialogue (W := Process) LoopAnswer).

Definition enquire (question : LoopQuestion) : session (LoopAnswer question) := ask question.

(** [runtime.wakeup.clear()]. *)
Definition clear_wakeup : prog Process unit :=
  fun p => let w := s_world (pr_store p) in
           (with_world (mkWorld (jobs w) (ev w) (settings w) (model_rows w) (profiles w) false) p, Ok tt).

Definition affinity_hint (resident : gset string) (streak : Z) : option AffinityHint :=
  if bool_decide (resident = ∅) then None else Some (mkAffinity resident streak max_affinity_streak).

Definition next_streak (streak : Z) (c : ClaimedJob) : Z := if c_by_affinity c then streak + 1 else 0.

Definition dispatch_ms (now : Z) (c : ClaimedJob) : f64 := Z.max (fmul (total_seconds (now - c_scheduled_for c)) (1000 * fone)) 0.

(** [_claim]: the job, and the streak it leaves. *)
Definition claim_next (streak : Z) : session (option ClaimedJob * Z) :=
  answer ← enquire ReadResident;
  resident ← of_result answer;
  now ← enquire ReadClock;
  job ← act (on_db (claim owner now (lease_seconds q) (affinity_hint resident streak)));
  match job with
  | None => mret (None, streak)
  | Some c =>
      later ← enquire ReadClock;
      _ ← enquire (RecordDispatch (dispatch_ms later c));
      mret (Some c, next_streak streak c)
  end.

(** A claim that raises is logged, and is like no job. *)
Definition claim_or_none (streak : Z) : session (option ClaimedJob * Z) :=
  catch (claim_next streak) (fun _ => mret (None, streak)).

Definition process_job (c : ClaimedJob) : session unit :=
  redirect OfJob (fun _ a => a) (process ASSISTANT refusal profile_of_wire wk c).

Definition next_backoff (woken : bool) (backoff : f64) : f64 :=
  if woken then POLL_BUSY_SECONDS else Z.min (fmul backoff (2 * fone)) POLL_IDLE_SECONDS.

(** [run], for as many turns of the loop as there is fuel. *)
Fixpoint run (turns : nat) (streak : Z) (backoff : f64) : session unit :=
  match turns with
  | O => Starve
  | S turns =>
      stopping ← enquire IsStopping;
      if stopping : bool then mret tt
      else
        claiming ← enquire IsClaiming;
        if claiming : bool then
          next ← claim_or_none streak;
          match next.1 with
          | None =>
              woken ← enquire (WaitWakeup backoff);
              _ ← act clear_wakeup;
              run turns next.2 (next_backoff woken backoff)
          | Some c => _ ← process_job c; run turns next.2 POLL_BUSY_SECONDS
          end
        else
          _ ← enquire (WaitWakeup POLL_IDLE_SECONDS);
          _ ← act clear_wakeup;
          run turns streak backoff
  end.

Definition worker_loop (turns : nat) : session unit := run turns 0 POLL_BUSY_SECONDS.
End loop.

(** ** The neighbours of a worker

    One committed operation of anybody else: an operation of the queue that gives no lease out in this worker's
    name (every operation but its own claims, by [Bystanders]), a write of another worker on the job it holds, a
    write of a synchronous execution on its own job, which is never enqueued, and the changes of the shared
    process that leave the tables alone. *)
Section neighbours.
Context `{Externals} `{Wire} `{Sql}.
Context (owner : string).

Definition rows_of (p : Process) : gmap string Job := jobs (s_world (pr_store p)).

Inductive neighbour : Process -> Process -> Prop :=
| n_queue w p :
    qstep (s_world (pr_store p)) w -> leases_le owner (rows_of p) (jobs w) -> neighbour p (with_world w p)
| n_worker id owner' p p' : owner' <> owner -> fenced id owner' p p' -> neighbour p p'
| n_execution id p p' j j' :
    rows_of p !! id = Some j -> rows_of p' !! id = Some j' -> j_queued_at j' = None -> j_lease_owner j' = None ->
    (forall i, i <> id -> rows_of p' !! i = rows_of p !! i) ->
    (forall r, r ∈ s_attempts (pr_store p') -> at_job_id r <> id -> r ∈ s_attempts (pr_store p)) ->
    pr_registry p' = pr_registry p -> neighbour p p'
| n_process p p' :
    rows_of p' = rows_of p -> s_attempts (pr_store p') = s_attempts (pr_store p) ->
    (forall id, pr_registry p !! (owner, id) = None -> pr_registry p' !! (owner, id) = None) -> neighbour p p'.

(** The attempts on record for an enqueued job are among those its row counts; no row, no attempts. *)
Definition counted (id : string) (p : Process) : Prop :=
  match rows_of p !! id with
  | Some j => is_Some (j_queued_at j) -> forall r, r ∈ s_attempts (pr_store p) -> at_job_id r = id -> at_attempt r <= j_attempt j
  | None => forall r, r ∈ s_attempts (pr_store p) -> at_job_id r <> id
  end.

(** Nothing of this job is left in this worker's hands, but a cancellation to be completed. *)
Definition idle (id : string) (p : Process) : Prop :=
  (forall j, rows_of p !! id = Some j -> j_lease_owner j = Some owner -> j_state j = CANCELLING) /\
  pr_registry p !! (owner, id) = None.

Lemma counted_queue id w p : jobs_le (rows_of p) (jobs w) -> counted id p -> counted id (with_world w p).
Proof.
  unfold counted, rows_of. cbn. intros Hle Hc. destruct (jobs (s_world (pr_store p)) !! id) as [j|] eqn:Hj.
  - destruct (Hle id j Hj) as (j' & Hj' & Him & Ha & _). rewrite Hj'. unfold immutable in Him. injection Him as _ _ _ _ _ _ _ _ _ Hq _.
    rewrite Hq, Ha. exact Hc.
  - destruct (jobs w !! id) as [j'|]; [|exact Hc]. intros _ r Hr Hid. by destruct (Hc r Hr).
Qed.

Lemma counted_fenced id id' owner' p p' : fenced id' owner' p p' -> counted id p -> counted id p'.
Proof.
  unfold counted. intros [(Hrows & rows & Hat & Hcase) _] Hc. fold (rows_of p) (rows_of p') in *. rewrite Hat.
  destruct (decide (id = id')) as [<-|Hne].
  - destruct Hcase as [[-> ->]|(j & j' & Hj & _ & Hj' & Him & _ & _ & Ha & Hnum & _)]; [by rewrite app_nil_r|].
    rewrite Hj' . rewrite Hj in Hc. unfold immutable in Him. injection Him as _ _ _ _ _ _ _ _ _ Hq _. rewrite Hq.
    intros Hen r Hr Hid. apply elem_of_app in Hr as [Hr|Hr]; [specialize (Hc Hen r Hr Hid); lia|].
    apply (list_elem_of_fmap_2 at_attempt) in Hr. change (at_attempt <$> rows) with (map at_attempt rows) in Hr. rewrite Hnum in Hr.
    apply list_elem_of_In, in_map_iff in Hr as (k & Hk & Hin). apply in_seq in Hin. lia.
  - rewrite Hrows by done.
    assert (Hnew : forall r, r ∈ rows -> at_job_id r <> id).
    { intros r Hr. destruct Hcase as [[_ ->]|(j & j' & _ & _ & _ & _ & _ & _ & _ & _ & Hf)]; [by apply not_elem_of_nil in Hr|].
      rewrite Forall_forall in Hf. specialize (Hf r Hr). cbn in Hf. congruence. }
    destruct (rows_of p !! id) as [j|].
    + intros Hen r Hr Hid. apply elem_of_app in Hr as [Hr|Hr]; [by apply Hc|]. by destruct (Hnew r Hr).
    + intros r Hr. apply elem_of_app in Hr as [Hr|Hr]; [by apply Hc|by apply Hnew].
Qed.

Lemma neighbour_counted id p p' : neighbour p p' -> counted id p -> counted id p'.
Proof.
  destruct 1 as [w p Hq Hle|id' owner' p p' Hne Hf|id' p p' j j' Hj Hj' Hnq Hl Hrows Hat Hreg|p p' Hrows Hat Hreg]; intros Hc.
  - apply counted_queue; [|done]. by destruct (qstep_world_le _ _ Hq) as (_ & ? & _).
  - by eapply counted_fenced.
  - unfold counted in *. destruct (decide (id = id')) as [->|Hne].
    + rewrite Hj', Hnq. by intros [? ?].
    + rewrite Hrows by done. destruct (rows_of p !! id) as [j0|].
      * intros Hen r Hr Hid. apply Hc; [done| |done]. apply Hat; [done|congruence].
      * intros r Hr Hid. apply (Hc r); [|done]. apply Hat; [done|congruence].
  - unfold counted in *. by rewrite Hrows, Hat.
Qed.

Lemma neighbour_idle id p p' : neighbour p p' -> idle id p -> idle id p'.
Proof.
  destruct 1 as [w p Hq Hle|id' owner' p p' Hne Hf|id' p p' j j' Hj Hj' Hnq Hl Hrows Hat Hreg|p p' Hrows Hat Hreg]; intros [Hidle Hr].
  - split; [|done]. change (rows_of (with_world w p)) with (jobs w). intros j' Hj' Hl'. destruct (rows_of p !! id) as [j|] eqn:Hj; [|by destruct (proj2 Hle id j' Hj' Hj)].
    destruct (proj1 Hle id j Hj) as (j2 & Hj2 & Hlease). rewrite Hj' in Hj2. injection Hj2 as <-. destruct (Hlease Hl') as (Hl & _ & Hs).
    specialize (Hidle j eq_refl Hl). destruct Hs; congruence.
  - destruct Hf as [(Hrows & rows & _ & Hcase) Hreg]. fold (rows_of p) (rows_of p') in *.
    split; [|by rewrite Hreg by congruence]. intros j Hj Hl. destruct (decide (id = id')) as [<-|Hid].
    + destruct Hcase as [[Hs _]|(j0 & j' & Hj0 & Hl0 & Hj' & _ & _ & Hl' & _)]; [rewrite Hs in Hj; by apply Hidle|].
      rewrite Hj in Hj'. injection Hj' as <-. destruct Hl'; congruence.
    + rewrite Hrows in Hj by done. by apply Hidle.
  - split; [|by rewrite Hreg]. intros j0 Hj0 Hl0. destruct (decide (id = id')) as [->|Hne]; [congruence|]. rewrite Hrows in Hj0 by done. by apply Hidle.
  - split; [|by apply Hreg]. rewrite Hrows. exact Hidle.
Qed.

Lemma neighbour_others id p p' : neighbour p p' -> others id owner p p'.
Proof.
  destruct 1 as [w p Hq Hle|id' owner' p p' Hne Hf|id' p p' j j' Hj Hj' Hnq Hl Hrows Hat Hreg|p p' Hrows Hat Hreg].
  - by apply others_queue.
  - eapply others_fenced; [|exact Hf]. congruence.
  - split; [|by rewrite Hreg]. intros j0 Hj0. fold (rows_of p) (rows_of p') in *. destruct (decide (id = id')) as [->|Hne].
    + exists j'. split; [done|]. by rewrite Hl.
    + exists j0. rewrite Hrows by done. split; [done|]. intros Hl0. split_and!; auto. intros r Hr Hid. apply Hat; [done|congruence].
  - split; [|by apply Hreg]. intros j0 Hj0. fold (rows_of p) (rows_of p') in *. exists j0. rewrite Hrows. split; [done|]. rewrite Hat. intros Hl0.
    split_and!; auto.
Qed.

(** A property every neighbour keeps is kept by any number of them. *)
Lemma neighbours_keep (P : Process -> Prop) p p' : (forall p p', neighbour p p' -> P p -> P p') -> rtc neighbour p p' -> P p -> P p'.
Proof. intros Hs. induction 1; eauto. Qed.

Lemma neighbours_others id p p' : rtc neighbour p p' -> others id owner p p'.
Proof. induction 1 as [|p1 p2 p3 Hs _ IH]; [reflexivity|]. etrans; [by apply neighbour_others|exact IH]. Qed.

(** Between two turns of the loop. *)
Definition between (p : Process) : Prop := forall id, idle id p /\ counted id p.

Lemma neighbours_between p p' : rtc neighbour p p' -> between p -> between p'.
Proof.
  apply neighbours_keep. intros p1 p2 Hs Hb id. destruct (Hb id) as [Hi Hc].
  split; [by eapply neighbour_idle|by eapply neighbour_counted].
Qed.

(** While it processes one job: the others are idle. *)
Definition busy_with (id : string) (p : Process) : Prop := (forall i, i <> id -> idle i p) /\ (forall i, counted i p).

Lemma neighbours_busy id p p' : rtc neighbour p p' -> busy_with id p -> busy_with id p'.
Proof.
  apply neighbours_keep. intros p1 p2 Hs [Hi Hc]. split; intros i; [intros Hne; eapply neighbour_idle; [exact Hs|by apply Hi]|].
  by eapply neighbour_counted.
Qed.

Lemma fenced_busy id p p' : fenced id owner p p' -> busy_with id p -> busy_with id p'.
Proof.
  intros Hf [Hi Hc]. split; [|intros i; by eapply counted_fenced]. intros i Hne. destruct (Hi i Hne) as [Hidle Hr].
  destruct Hf as [(Hrows & _) Hreg]. split; [|by rewrite Hreg by congruence]. unfold rows_of in *. by rewrite Hrows.
Qed.
End neighbours.

(** ** The loop *)
Section theory.
Context `{Externals} `{Wire} `{Profiles} `{Classification} `{Rack} `{Prompts} `{TextTools} `{ErrorText} `{WorkerText} `{Sql}.
Context (ASSISTANT : Role) (refusal : Call -> option exn) (profile_of_wire : Submission.RuntimeProfile -> Subject.RuntimeProfile).
Context (wk : WorkerConfig) (q : QueueSettings) (max_affinity_streak : Z).
#[local] Abbreviation owner := (wk_owner wk).
#[local] Abbreviation session := (dialogue (W := Process) LoopAnswer).
#[local] Abbreviation Trace := (list (Obs Process LoopAnswer)).
#[local] Abbreviation others_act := (rtc (neighbour owner)).

(** What a claim leaves: the claimed job in this worker's hands, and no other. *)
Definition claim_left (p : Process) (r : result (option ClaimedJob)) : Prop :=
  match r with
  | Ok (Some c) => busy_with owner (c_job_id c) p /\ mine (c_job_id c) owner LEASED (j_attempt (c_job c)) p
  | _ => between owner p
  end.

Lemma claimed_row id j b c : claimed id j b = Ok c -> c_job c = j /\ is_Some (j_queued_at j).
Proof.
  unfold claimed. destruct (j_queued_at j) as [t|]; [|done]. destruct (j_lease_expires_at j) as [e|]; [|done].
  intros Hc. apply bind_Ok_inv in Hc as (s & _ & [= <-]). split; [done|by eexists].
Qed.

Lemma claim_leaves now ls a p :
  between owner p -> claim_left (on_db (claim owner now ls a) p).1 (on_db (claim owner now ls a) p).2.
Proof.
  intros Hb. unfold on_db. destruct (claim owner now ls a (s_world (pr_store p))) as [w r] eqn:E. cbn [fst snd].
  pose proof (claim_cases owner now ls a _ w r E) as Hc.
  assert (Hsame : jobs w = rows_of p -> between owner (with_world w p)).
  { intros Hj id. destruct (Hb id) as [[Hi Hr] Hn]. unfold idle, counted. change (rows_of (with_world w p)) with (jobs w). rewrite Hj. by split. }
  destruct (pick now a (jobs (s_world (pr_store p)))) as [[[id j] b]|] eqn:Ep; [|destruct Hc as [-> ->]; by apply Hsame].
  cbv zeta in Hc. set (j' := assign_all (lease_assignments owner now ls) j) in *.
  destruct (claimed id j' b) as [c|e] eqn:Ec; [|destruct Hc as [-> [Hj _]]; by apply Hsame].
  destruct Hc as (-> & Hj & _ & Hid & _). destruct (claimed_row id j' b c Ec) as [Hrow Hq]. apply pick_spec in Ep as (Hk & He & _).
  assert (Hle : jobs_le (rows_of p) (jobs w)).
  { pose proof (good_claim owner now ls a (s_world (pr_store p))) as Hg. unfold good in Hg. rewrite E in Hg. by destruct Hg as (_ & ? & _). }
  cbn [claim_left]. rewrite Hid. split; [split|].
  - intros i Hne. destruct (Hb i) as [[Hi Hr] _]. unfold idle. change (rows_of (with_world w p)) with (jobs w). rewrite Hj, lookup_insert_ne by done. by split.
  - intros i. apply counted_queue; [exact Hle|]. apply Hb.
  - exists j'. cbn. rewrite Hj, lookup_insert_eq. split; [done|]. intros _. split; [by left|]. rewrite Hrow. split; [done|].
    destruct (Hb id) as [_ Hn]. unfold counted, rows_of in Hn. rewrite Hk in Hn. exact (Hn Hq).
Qed.

Lemma claim_or_none_wp streak p tr :
  between owner p ->
  wp others_act (claim_or_none wk q max_affinity_streak streak)
    (fun r p' _ => match r with Ok next => claim_left p' (Ok next.1) | Raise _ => False end) p tr.
Proof.
  intros Hb. unfold claim_or_none, claim_next. apply wp_catch, wp_bind, (wp_ask (Ans := LoopAnswer) _ ReadResident).
  intros answer. apply wp_bind, wp_of_result. destruct answer as [resident|e]; [|by apply wp_ret].
  apply wp_bind, (wp_ask (Ans := LoopAnswer) _ ReadClock). intros now. apply wp_bind, wp_act. intros p1 Ho.
  apply (neighbours_between _ _ _ Ho) in Hb. pose proof (claim_leaves now (lease_seconds q) (affinity_hint max_affinity_streak resident streak) p1 Hb) as Hc.
  destruct (on_db _ p1) as [p2 r]. cbn [fst snd] in *. destruct r as [[c|]|e].
  - apply wp_bind, (wp_ask (Ans := LoopAnswer) _ ReadClock). intros later. apply wp_bind, (wp_ask (Ans := LoopAnswer) _ (RecordDispatch _)).
    intros ?. by apply wp_ret.
  - by apply wp_ret.
  - by apply wp_ret.
Qed.

Context (messages_foreign : forall role content i tc, raises_only not_lost (make_message role content i tc)).
Context (requests_foreign : forall c e, refusal c = Some e -> not_lost e).

(** The processing of the job the worker has just claimed. *)
Lemma process_job_ends c p tr p' o :
  busy_with owner (c_job_id c) p -> mine (c_job_id c) owner LEASED (j_attempt (c_job c)) p ->
  runs others_act (process_job ASSISTANT refusal profile_of_wire wk c) p tr p' o -> o = Done (Ok tt) /\ between owner p'.
Proof using All.
  intros Hb Hm Hr. apply redirect_runs in Hr as [tr0 Hr].
  assert (Hb' : busy_with owner (c_job_id c) p').
  { revert Hb. eapply (within_invariant _ (fun _ => True)); [intros w1 w2; apply neighbours_busy| |exact Hr].
    eapply within_mono; [| |apply (fence_process ASSISTANT refusal profile_of_wire wk c)]; [done|].
    intros B body Hf w. apply fenced_busy. apply Hf. }
  apply (runs_mono _ (others (c_job_id c) owner)) in Hr; [|intros w w'; apply neighbours_others].
  destruct (wp_sound _ _ _ _ [] _ _ _ (process_wp ASSISTANT refusal profile_of_wire wk c messages_foreign requests_foreign p [] Hm) Hr)
    as (r & -> & -> & (j & Hj & Hrel) & Hreg & _).
  split; [done|]. intros id. destruct Hb' as [Hi Hc]. split; [|apply Hc]. destruct (decide (id = c_job_id c)) as [->|Hne]; [|by apply Hi].
  split; [|exact Hreg]. intros j0 Hj0. unfold rows_of in Hj0. rewrite Hj in Hj0. by injection Hj0 as <-.
Qed.

Lemma runs_enquire {A} question (f : LoopAnswer question -> session A) p tr p' o :
  runs others_act (enquire question ≫= f) p tr p' o -> exists a tr', runs others_act (f a) p tr' p' o.
Proof. intros Hr. apply runs_inv in Hr as (a & tr' & _ & Hr). by exists a, tr'. Qed.

(** The loop, by its turns. *)
Lemma run_ends turns streak backoff p tr p' o :
  between owner p -> runs others_act (run ASSISTANT refusal profile_of_wire wk q max_affinity_streak turns streak backoff) p tr p' o ->
  (o = Starved \/ o = Done (Ok tt)) /\ between owner p'.
Proof using All.
  revert streak backoff p tr. induction turns as [|turns IH]; intros streak backoff p tr Hb Hr; cbn [run] in Hr.
  { apply runs_inv in Hr as (_ & -> & ->). split; [by left|done]. }
  apply runs_enquire in Hr as (stopping & tr1 & Hr). destruct stopping.
  { apply runs_inv in Hr as (_ & -> & ->). split; [by right|done]. }
  apply runs_enquire in Hr as (claiming & tr2 & Hr).
  assert (Hidle : forall (seconds : f64) streak (backoff_of : bool -> f64) p0 tr0,
    runs others_act (woken ← enquire (WaitWakeup seconds); _ ← act clear_wakeup;
      run ASSISTANT refusal profile_of_wire wk q max_affinity_streak turns streak (backoff_of woken)) p0 tr0 p' o ->
    between owner p0 -> (o = Starved \/ o = Done (Ok tt)) /\ between owner p').
  { intros seconds streak' backoff_of p0 tr0 Hr0 Hb0. apply runs_enquire in Hr0 as (woken & tr3 & Hr0).
    apply runs_inv in Hr0 as (p1 & tr4 & Ho & _ & Hr0). apply (neighbours_between _ _ _ Ho) in Hb0. by eapply IH; [|exact Hr0]. }
  destruct claiming; [|by eapply (Hidle POLL_IDLE_SECONDS streak (fun _ => backoff))].
  apply runs_bind in Hr as [(next & t1 & p1 & t2 & Hc & Hr & _)|[(e & _ & Hc)|[_ Hc]]];
    (destruct (wp_sound _ _ _ _ [] _ _ _ (claim_or_none_wp streak p [] Hb) Hc) as (r & Hdone & Hleft); try discriminate Hdone);
    injection Hdone as <-; [|done].
  destruct next as [[c|] streak']; cbn [fst snd claim_left] in *.
  - destruct Hleft as [Hbusy Hmine]. apply runs_bind in Hr as [([] & t3 & p2 & t4 & Hp & Hr & _)|[(e & _ & Hp)|[_ Hp]]];
      destruct (process_job_ends c p1 _ _ _ Hbusy Hmine Hp) as [Hd Hb2]; try discriminate Hd.
    by eapply IH; [|exact Hr].
  - by eapply (Hidle backoff streak' (fun woken => next_backoff woken backoff)).
Qed.

(** How long the loop waits. *)
Definition waits_within (question : LoopQuestion) : Prop :=
  match question with WaitWakeup seconds => POLL_BUSY_SECONDS <= seconds <= POLL_IDLE_SECONDS | _ => True end.

Lemma poll_bounds : 0 <= POLL_BUSY_SECONDS <= POLL_IDLE_SECONDS.
Proof using. split; vm_compute; discriminate. Qed.

Lemma next_backoff_bounds woken backoff :
  POLL_BUSY_SECONDS <= backoff <= POLL_IDLE_SECONDS -> POLL_BUSY_SECONDS <= next_backoff woken backoff <= POLL_IDLE_SECONDS.
Proof using.
  intros Hb. pose proof poll_bounds as Hp. unfold next_backoff. destruct woken; [lia|]. split; [|lia]. apply Z.min_glb; [|lia].
  rewrite <- (fmul_one_r POLL_BUSY_SECONDS) at 1 by apply (repr_flit 1 20 eq_refl).
  pose proof fone_pos. apply fmul_mono; lia.
Qed.

Lemma run_within turns streak backoff :
  POLL_BUSY_SECONDS <= backoff <= POLL_IDLE_SECONDS ->
  within waits_within (fun _ _ => True) (run ASSISTANT refusal profile_of_wire wk q max_affinity_streak turns streak backoff).
Proof using.
  revert streak backoff. induction turns as [|turns IH]; intros streak backoff Hb; [done|]. cbn [run].
  apply within_bind; [done|]. intros [|]; [done|]. apply within_bind; [done|].
  assert (Hact : within (Ans := LoopAnswer) waits_within (fun _ _ => True) (act clear_wakeup)) by by apply within_act.
  intros [|].
  - apply within_bind.
    { apply within_catch; [|done]. apply within_bind; [done|]. intros answer. apply within_bind; [apply within_of_result|].
      intros resident. apply within_bind; [done|]. intros now. apply within_bind; [by apply within_act|]. by intros [c|]. }
    intros [[c|] streak']; cbn [fst snd].
    + apply within_bind; [by apply redirect_within|]. intros _. apply IH. pose proof poll_bounds. lia.
    + apply within_bind; [done|]. intros woken. apply within_bind; [exact Hact|]. intros _. by apply IH, next_backoff_bounds.
  - apply within_bind; [pose proof poll_bounds; repeat split; (lia || done)|]. intros ?. apply within_bind; [exact Hact|]. intros _. by apply IH.
Qed.

(** ** Affinity *)

(** The claims of one worker, each from a process left as it may be by whatever came before. *)
Inductive claims : Z -> list ClaimedJob -> Prop :=
| claims_end streak : claims streak []
| claims_none streak streak' p tr p' l rely :
    runs rely (claim_next wk q max_affinity_streak streak) p tr p' (Done (Ok (None, streak'))) -> claims streak' l -> claims streak l
| claims_one streak streak' p tr p' c l rely :
    runs rely (claim_next wk q max_affinity_streak streak) p tr p' (Done (Ok (Some c, streak'))) -> claims streak' l -> claims streak (c :: l).

Lemma claim_next_streak rely streak p tr p' job streak' :
  runs rely (claim_next wk q max_affinity_streak streak) p tr p' (Done (Ok (job, streak'))) ->
  match job with
  | None => streak' = streak
  | Some c => streak' = next_streak streak c /\ (c_by_affinity c = true -> streak < max_affinity_streak)
  end.
Proof using.
  intros Hr.
  assert (Hw : wp rely (claim_next wk q max_affinity_streak streak) (fun r _ _ => match r with
      | Ok (None, s') => s' = streak
      | Ok (Some c, s') => s' = next_streak streak c /\ (c_by_affinity c = true -> streak < max_affinity_streak)
      | Raise _ => True end) p []).
  { unfold claim_next. apply wp_bind, (wp_ask (Ans := LoopAnswer) _ ReadResident). intros answer.
    apply wp_bind, wp_of_result. destruct answer as [resident|e]; [|done].
    apply wp_bind, (wp_ask (Ans := LoopAnswer) _ ReadClock). intros now. apply wp_bind, wp_act. intros p1 _.
    unfold on_db. destruct (claim owner now _ _ _) as [w r] eqn:E. cbn [fst snd]. destruct r as [[c|]|e]; [|by apply wp_ret|done].
    apply claim_cases in E. destruct (pick now _ _) as [[[id j] b]|] eqn:Ep; [|by destruct E]. cbv zeta in E.
    destruct (claimed id _ b) as [c'|]; [|by destruct E]. destruct E as ([= <-] & _ & _ & _ & Hb).
    apply wp_bind, (wp_ask (Ans := LoopAnswer) _ ReadClock). intros later. apply wp_bind, (wp_ask (Ans := LoopAnswer) _ (RecordDispatch _)).
    intros ?. apply wp_ret. split; [done|]. rewrite Hb. intros ->. apply pick_spec in Ep as (_ & _ & Ha & _). destruct (Ha eq_refl) as [Hh _].
    unfold affinity_applies, affinity_hint in Hh. destruct (bool_decide (resident = ∅)); [done|]. cbn in Hh. bool_to_prop. lia. }
  destruct (wp_sound _ _ _ _ [] _ _ _ Hw Hr) as (r & [= <-] & Hp). by destruct job.
Qed.

Lemma claims_streak streak l :
  0 <= streak -> claims streak l ->
  forall k, Forall (fun c => c_by_affinity c = true) (take k l) -> Z.of_nat (length (take k l)) <= Z.max 0 (max_affinity_streak - streak).
Proof using.
  intros Hnn Hc. induction Hc as [streak|streak streak' p tr p' l rely Hr _ IH|streak streak' p tr p' c l rely Hr _ IH]; intros k Hk.
  - rewrite take_nil. cbn. lia.
  - apply claim_next_streak in Hr as ->. by apply IH.
  - apply claim_next_streak in Hr as [-> Ha]. destruct k as [|k]; [cbn; lia|]. cbn in *. apply Forall_cons in Hk as [Hb Hk].
    specialize (Ha Hb). unfold next_streak in IH. rewrite Hb in IH. specialize (IH ltac:(lia) k Hk). lia.
Qed.

Lemma claims_drop streak l k : 0 <= streak -> claims streak l -> exists streak', 0 <= streak' /\ claims streak' (drop k l).
Proof using.
  intros Hnn Hc. revert k. induction Hc as [streak|streak streak' p tr p' l rely Hr Hc IH|streak streak' p tr p' c l rely Hr Hc IH]; intros k.
  - exists streak. rewrite drop_nil. split; [done|constructor].
  - pose proof (claim_next_streak _ _ _ _ _ _ _ Hr) as ->. by apply IH.
  - pose proof (claim_next_streak _ _ _ _ _ _ _ Hr) as [Hs _]. destruct k as [|k].
    + exists streak. split; [done|]. by eapply claims_one.
    + apply IH. rewrite Hs. unfold next_streak. destruct (c_by_affinity c); lia.
Qed.
End theory.

(** ** A concrete loop *)

#[local] Existing Instances sample_rack sample_prompts sample_text sample_errors.
#[local] Instance loop_worker_text : WorkerText := {| defer_text _ := "waiting"; requeue_text _ := "probe"; crash_text _ := "crash" |}.

Definition sample_settings : QueueSettings := mkSettings 10 10 60 3600 0 0 0.

(** The job is queued, and prefers a model that is loaded. *)
Definition sample_queued : Job := assign (SetSelectedModelId (Some "m1")) (sample_job QUEUED None None 400 0).
Definition sample_idle_process : Process :=
  mkProcess (mkStore (QueueStore.sample_world {["s" := sample_queued]}) [] {["d1" := None]}) ∅ false.

#[local] Abbreviation LQuestion := (@LoopQuestion sample_wire plain_profiles sample_rack).
#[local] Abbreviation LAnswer := (@LoopAnswer sample_wire plain_profiles sample_rack).

(** The worker is stopped once its job is done. *)
Definition sample_loop_answers (n : nat) (question : LQuestion) : LAnswer question :=
  match question as q' return LAnswer q' with
  | OfJob q' => sample_worker_answers (n - 5) q'
  | IsStopping => (10 <? Z.of_nat n)
  | IsClaiming => true
  | ReadResident => Ok {["m1"]}
  | ReadClock => 7
  | WaitWakeup _ => false
  | RecordDispatch _ => tt
  end.

Definition sample_loop := @worker_loop sample_externals sample_wire plain_profiles sample_classification sample_rack sample_prompts sample_text
  loop_worker_text "assistant" (fun _ => None) (fun _ => empty_profile) sample_worker sample_settings 1 3.
Definition sample_looped := play sample_loop_answers 0 sample_loop sample_idle_process.
Definition sample_claim := @claim_next sample_externals sample_wire plain_profiles sample_rack sample_worker sample_settings 1 0.
Definition sample_claiming := play sample_loop_answers 0 sample_claim sample_idle_process.

Lemma sample_looped_ends :
  (match sample_looped with (_, p, o) =>
     (match o with Done (Ok tt) => true | _ => false end, (fun j => (j_state j, j_lease_owner j)) <$> rows_of p !! "s") end)
  = (true, Some (COMPLETED, None)).
Proof. vm_compute. reflexivity. Qed.

Lemma sample_claiming_ends :
  (match sample_claiming with (_, _, o) => match o with Done (Ok (Some c, s)) => (c_by_affinity c, s) | _ => (false, 9) end end) = (true, 1).
Proof. vm_compute. reflexivity. Qed.

Lemma sample_between : between "w/1" sample_idle_process.
Proof.
  intros id. unfold idle, counted. destruct (decide (id = "s")) as [->|Hne].
  - split; [split; [|reflexivity]|].
    + change (rows_of sample_idle_process !! "s") with (Some sample_queued). intros j [= <-]. cbn. discriminate.
    + change (rows_of sample_idle_process !! "s") with (Some sample_queued). cbn. intros _ r Hr. by apply not_elem_of_nil in Hr.
  - assert (Hn : rows_of sample_idle_process !! id = None) by (apply lookup_insert_None; done). rewrite Hn.
    split; [split; [done|reflexivity]|]. cbn. intros r Hr. by apply not_elem_of_nil in Hr.
Qed.

Module Properties.
Section properties.
Context `{Externals} `{Wire} `{Profiles} `{Classification} `{Rack} `{Prompts} `{TextTools} `{ErrorText} `{WorkerText} `{Sql}.
Context (ASSISTANT : Role) (refusal : Call -> option exn) (profile_of_wire : Submission.RuntimeProfile -> Subject.RuntimeProfile).
Context (wk : WorkerConfig) (q : QueueSettings) (max_affinity_streak : Z).
#[local] Abbreviation owner := (wk_owner wk).

(** C8: A worker thread survives its jobs and leaves nothing behind.  Whatever it is answered, and beside any
    number of operations of anybody else, no exception leaves the loop: however long it runs, it is still
    turning, or it was told to stop.  When it has stopped (and whenever it is between two jobs) no job is left
    leased to it, but those whose cancellation the reaper has to complete, and no hold of it in the registry;
    and every wait is between the busy and the idle interval, so it neither spins nor sleeps through work.
    ModelRack's messages and requests are assumed to raise no refusal of the queue's own. *)
Theorem worker_loop_settles (turns : nat) (p p' : Process) (tr : list (Obs Process LoopAnswer)) (o : Ending unit) :
  (forall role content i tc, raises_only not_lost (make_message role content i tc)) ->
  (forall c e, refusal c = Some e -> not_lost e) ->
  between owner p ->
  runs (rtc (neighbour owner)) (worker_loop ASSISTANT refusal profile_of_wire wk q max_affinity_streak turns) p tr p' o ->
  (o = Starved \/ o = Done (Ok tt)) /\ between owner p' /\
  (forall seconds woken, Asked (Ans := LoopAnswer) (WaitWakeup seconds) woken ∈ tr -> POLL_BUSY_SECONDS <= seconds <= POLL_IDLE_SECONDS).
Proof.
  intros Hm Hreq Hb Hr.
  destruct (run_ends ASSISTANT refusal profile_of_wire wk q max_affinity_streak Hm Hreq _ _ _ _ _ _ _ Hb Hr) as [Ho Hb'].
  split; [done|]. split; [done|]. intros seconds woken Hin.
  exact (within_runs _ _ _ _ _ _ _ _ (run_within ASSISTANT refusal profile_of_wire wk q max_affinity_streak turns 0 POLL_BUSY_SECONDS
    ltac:(pose proof poll_bounds; lia)) Hr _ _ Hin).
Qed.

(** Affinity never starves the oldest job: among the jobs a worker claims in a row, whatever is loaded and
    whatever else happens to the queue, at most [max_affinity_streak] successive ones were taken for their
    model. *)
Theorem affinity_bounded (l : list ClaimedJob) (i n : nat) :
  claims wk q max_affinity_streak 0 l -> Forall (fun c => c_by_affinity c = true) (take n (drop i l)) ->
  Z.of_nat (length (take n (drop i l))) <= Z.max 0 max_affinity_streak.
Proof.
  intros Hc Ha. destruct (claims_drop _ _ _ 0 l i ltac:(lia) Hc) as (streak & Hs & Hd).
  pose proof (claims_streak _ _ _ streak _ Hs Hd n Ha). lia.
Qed.
End properties.

Lemma worker_loop_settles_witness : exists tr p',
  runs (rtc (@neighbour sample_externals sample_wire sample_sql "w/1")) sample_loop sample_idle_process tr p' (Done (Ok tt)) /\
  (fun j => (j_state j, j_lease_owner j)) <$> rows_of p' !! "s" = Some (COMPLETED, None) /\ between "w/1" p'.
Proof.
  destruct sample_looped as [[tr p'] o] eqn:E. pose proof sample_looped_ends as He. rewrite E in He.
  pose proof (play_runs (rtc (@neighbour sample_externals sample_wire sample_sql "w/1")) _ _ _ _ _ _ _ (fun w => rtc_refl _ w) E) as Hruns. clear E.
  destruct o as [[[]|e]|]; [|discriminate He|discriminate He]. injection He as He.
  exists tr, p'. split; [exact Hruns|]. split; [exact He|].
  exact (proj1 (proj2 (worker_loop_settles (H := sample_externals) (H0 := sample_wire) (H1 := plain_profiles) (H2 := sample_classification)
    (H3 := sample_rack) (H4 := sample_prompts) (H5 := sample_text) (H7 := loop_worker_text) (H8 := sample_sql)
    "assistant" (fun _ => None) (fun _ => empty_profile) sample_worker sample_settings 1 3 _ _ _ _
    (fun _ _ _ _ _ Hn => ltac:(discriminate Hn)) (fun _ _ Hn => ltac:(discriminate Hn)) sample_between Hruns))).
Defined.

Lemma affinity_bounded_witness : exists c,
  @claims sample_externals sample_wire plain_profiles sample_rack sample_worker sample_settings 1 0 [c] /\
  c_by_affinity c = true /\ Z.of_nat (length (take 1 (drop 0 [c]))) <= 1.
Proof.
  destruct sample_claiming as [[tr p'] o] eqn:E. pose proof sample_claiming_ends as He. rewrite E in He.
  pose proof (play_runs eq _ _ _ _ _ _ _ (fun w => eq_refl) E) as Hruns. clear E.
  destruct o as [[[[c|] s]|e]|]; [|discriminate He|discriminate He|discriminate He]. injection He as Hc Hs.
  exists c. assert (Hl : @claims sample_externals sample_wire plain_profiles sample_rack sample_worker sample_settings 1 0 [c])
    by (eapply claims_one; [exact Hruns|constructor]).
  split; [exact Hl|]. split; [exact Hc|].
  exact (affinity_bounded (H := sample_externals) (H0 := sample_wire) (H3 := sample_rack) sample_worker sample_settings 1 [c] 0 1 Hl
    (Forall_cons_2 _ _ _ Hc (Forall_nil_2 _))).
Defined.
End Properties.
