(* ===== verification/Retention.v ===== *)
(** * Content retention ([services/retention.py])

    The sweep that removes the text of finished jobs, as one transaction on the tables of [QueueStore.World],
    and what it promises: which rows it touches, what it leaves of them, when it gets to every row it should,
    and the history on which it never gets to another one. *)

From Stdlib Require Import Ascii String.
From S2P Require Import Prelude Json QueueState Priority JobEvents Ordering QueueStore Queue.
#[local] Open Scope string_scope.
#[local] Open Scope list_scope.
#[local] Open Scope Z_scope.

Definition SCRUBBED_MARKER : string := "content_scrubbed_at".
Definition SCRUBBED_EVENT_KEYS : list string := ["output"; "reasoning"].

Record RetentionOutcome := mkOutcome { scrubbed_jobs : Z; scrubbed_events : Z; cutoff : Z }.

(** [d.pop(k, None)], and [d[k] = v]. *)
Definition dict_pop (k : string) (d : list (string * json)) : list (string * json) :=
  List.filter (fun kv => negb (bool_decide (kv.1 = k))) d.

Definition dict_set (k : string) (v : json) (d : list (string * json)) : list (string * json) :=
  if existsb (fun kv => bool_decide (kv.1 = k)) d
  then map (fun kv => if bool_decide (kv.1 = k) then (k, v) else kv) d
  else d ++ [(k, v)].

Definition has_key (k : string) (d : list (string * json)) : bool := existsb (fun kv => bool_decide (kv.1 = k)) d.

(** [dict(job.request_json) if isinstance(job.request_json, dict) else {}]. *)
Definition request_of (j : Job) : list (string * json) := match j_request_json j with JObj d => d | _ => [] end.

Definition is_scrubbed (j : Job) : bool := has_key SCRUBBED_MARKER (request_of j).

(** The rows of a table, in the order the database happens to read them. *)
Class Scan := {
  scan : gmap string Job -> list (string * Job);
  scan_rows (js : gmap string Job) : scan js ≡ₚ map_to_list js
}.

Section retention.
Context `{Externals} `{Scan}.

Definition scrub_request (now : Z) (d : list (string * json)) : list (string * json) :=
  dict_set SCRUBBED_MARKER (JStr (to_rfc3339 now)) (dict_pop "tools" (dict_pop "system" (dict_pop "prompt" (dict_pop "messages" d)))).

Definition set_request (d : list (string * json)) (j : Job) : Job := {|
  j_task_profile_id := j_task_profile_id j;
  j_task_profile_version := j_task_profile_version j;
  j_job_class := j_job_class j;
  j_base_priority := j_base_priority j;
  j_effective_priority := j_effective_priority j;
  j_source := j_source j;
  j_state := j_state j;
  j_state_reason := j_state_reason j;
  j_idempotency_key := j_idempotency_key j;
  j_idempotent := j_idempotent j;
  j_idempotency_expires_at := j_idempotency_expires_at j;
  j_request_json := JObj d;
  j_selected_model_id := j_selected_model_id j;
  j_target_gpu_index := j_target_gpu_index j;
  j_attempt := j_attempt j;
  j_max_attempts := j_max_attempts j;
  j_lease_owner := j_lease_owner j;
  j_lease_expires_at := j_lease_expires_at j;
  j_cancel_requested := j_cancel_requested j;
  j_created_at := j_created_at j;
  j_scheduled_for := j_scheduled_for j;
  j_queued_at := j_queued_at j;
  j_started_at := j_started_at j;
  j_completed_at := j_completed_at j;
  j_max_wait_seconds := j_max_wait_seconds j;
  j_error_code := j_error_code j;
  j_error_text := j_error_text j;
  j_other := j_other j
|}.

(** The columns of a job that hold text. *)
Definition TEXT_COLUMNS : list string :=
  ["prompt_text"; "response_text"; "structured_output_json"; "tool_calls_json"; "reasoning_summary"].

Definition scrub_job (now : Z) (j : Job) : Job :=
  assign_all (map (fun c => SetOther c JNull) TEXT_COLUMNS) (set_request (scrub_request now (request_of j)) j).

Definition holds_result (job_id : string) (e : JobEvent) : bool :=
  bool_decide (ev_job_id e = job_id) && bool_decide (ev_event_type e ∈ ["result"; "job.completed"]).

Definition event_text (e : JobEvent) : option (list (string * json)) :=
  match ev_data e with
  | JObj d => if existsb (fun k => has_key k d) SCRUBBED_EVENT_KEYS then Some d else None
  | _ => None
  end.

Definition cleaned (now : Z) (d : list (string * json)) : list (string * json) :=
  dict_set SCRUBBED_MARKER (JStr (to_rfc3339 now)) (List.filter (fun kv => negb (bool_decide (kv.1 ∈ SCRUBBED_EVENT_KEYS))) d).

Definition scrub_event (now : Z) (job_id : string) (e : JobEvent) : JobEvent :=
  if holds_result job_id e then
    match event_text e with
    | Some d => mkEvent (ev_id e) (ev_job_id e) (ev_sequence e) (ev_timestamp e) (ev_event_type e) (ev_message e) (JObj (cleaned now d))
    | None => e
    end
  else e.

Definition events_to_scrub (job_id : string) (rows : list JobEvent) : Z :=
  countb (fun e => holds_result job_id e && match event_text e with Some _ => true | None => false end) rows.

(** The finished jobs whose text is due, oldest first. *)
Definition finished_by (limit : Z) (j : Job) : bool :=
  is_terminal (j_state j) && match j_completed_at j with Some t => t <=? limit | None => false end.

Definition oldest_completion : string * Job -> string * Job -> bool :=
  leb_of (cmp_on (fun r => default 0 (j_completed_at r.2)) Z.compare).

Definition selected (limit batch_size : Z) (js : gmap string Job) : list (string * Job) :=
  take (Z.to_nat (batch_size * 4)) (py_sorted oldest_completion (List.filter (fun r => finished_by limit r.2) (scan js))).

(** What the sweep has done so far: the tables, and what it counts. *)
Record Sweep := mkSweep { sw_jobs : gmap string Job; sw_rows : list JobEvent; sw_scrubbed : Z; sw_events : Z }.

Definition scrub_one (now : Z) (id : string) (j : Job) (s : Sweep) : Sweep :=
  mkSweep (<[id := scrub_job now j]> (sw_jobs s)) (map (scrub_event now id) (sw_rows s)) (sw_scrubbed s + 1)
    (sw_events s + events_to_scrub id (sw_rows s)).

Fixpoint scrub_rows (now batch_size : Z) (rows : list (string * Job)) (s : Sweep) : Sweep :=
  match rows with
  | [] => s
  | (id, j) :: rest =>
      if is_scrubbed j then scrub_rows now batch_size rest s
      else if batch_size <=? sw_scrubbed s then s
      else scrub_rows now batch_size rest (scrub_one now id j s)
  end.

Definition scrub_content (now retention_hours batch_size : Z) : prog World RetentionOutcome :=
  fun w =>
    let limit := now - retention_hours * 3600000000 in
    let s := scrub_rows now batch_size (selected limit batch_size (jobs w)) (mkSweep (jobs w) (st_rows (ev w)) 0 0) in
    (with_ev (mkState (sw_rows s) (st_sink (ev w)) (st_ids (ev w))) (with_jobs (sw_jobs s) w),
     Ok (mkOutcome (sw_scrubbed s) (sw_events s) limit)).

(** ** The sweep as a fold over the rows it chooses *)

Definition chosen (n : Z) (rows : list (string * Job)) : list (string * Job) :=
  take (Z.to_nat n) (List.filter (fun r => negb (is_scrubbed r.2)) rows).

Lemma scrub_rows_fold now batch_size rows s :
  scrub_rows now batch_size rows s =
  fold_left (fun s r => scrub_one now r.1 r.2 s) (chosen (batch_size - sw_scrubbed s) rows) s.
Proof.
  unfold chosen. revert s. induction rows as [|[id j] rows IH]; intros s; cbn; [by rewrite take_nil|].
  destruct (is_scrubbed j); [apply IH|]. cbn. destruct (batch_size <=? sw_scrubbed s) eqn:E; bool_to_prop.
  - by replace (Z.to_nat (batch_size - sw_scrubbed s)) with O by lia.
  - replace (Z.to_nat (batch_size - sw_scrubbed s)) with (S (Z.to_nat (batch_size - (sw_scrubbed s + 1)))) by lia.
    apply IH.
Qed.

Lemma scrub_event_job now id e : ev_job_id (scrub_event now id e) = ev_job_id e.
Proof. unfold scrub_event. destruct (holds_result id e); [|done]. by destruct (event_text e). Qed.

Lemma scrub_event_other now id e : ev_job_id e <> id -> scrub_event now id e = e.
Proof. intros Hne. unfold scrub_event, holds_result. by rewrite (bool_decide_eq_false_2 _ Hne). Qed.

(** Scrubbing the events of the jobs in a set. *)
Definition scrub_events (now : Z) (ids : gset string) (e : JobEvent) : JobEvent :=
  if bool_decide (ev_job_id e ∈ ids) then scrub_event now (ev_job_id e) e else e.

Definition scrubbed_in (now : Z) (ids : gset string) (js js' : gmap string Job) : Prop :=
  forall id, js' !! id = if bool_decide (id ∈ ids) then scrub_job now <$> js !! id else js !! id.

Lemma scrub_fold now rows s :
  NoDup rows.*1 -> (forall id j, (id, j) ∈ rows -> sw_jobs s !! id = Some j) ->
  let s' := fold_left (fun s r => scrub_one now r.1 r.2 s) rows s in
  scrubbed_in now (list_to_set rows.*1) (sw_jobs s) (sw_jobs s') /\
  sw_rows s' = map (scrub_events now (list_to_set rows.*1)) (sw_rows s) /\
  sw_scrubbed s' = sw_scrubbed s + Z.of_nat (length rows).
Proof.
  revert s. induction rows as [|[id j] rows IH]; intros s Hn Hin; cbn [fold_left fst snd].
  - split_and!; [intros i; by rewrite bool_decide_eq_false_2 by set_solver| |cbn; lia].
    rewrite <- (List.map_id (sw_rows s)) at 1. apply List.map_ext. intros e. unfold scrub_events. by rewrite bool_decide_eq_false_2 by set_solver.
  - change (((id, j) :: rows).*1) with (id :: rows.*1) in *. apply NoDup_cons in Hn as [Hid Hn]. destruct (IH (scrub_one now id j s) Hn) as (Hj & Hr & Hc).
    { intros i k Hk. cbn. rewrite lookup_insert_ne by (intros ->; apply Hid; apply list_elem_of_fmap; by exists (i, k)).
      apply Hin. by right. }
    assert (Hjs : sw_jobs s !! id = Some j) by (apply Hin; left). split_and!.
    + intros i. rewrite Hj. cbn [scrub_one sw_jobs]. destruct (decide (i = id)) as [->|Hne].
      * rewrite bool_decide_eq_false_2 by set_solver. rewrite bool_decide_eq_true_2 by set_solver. by rewrite lookup_insert_eq, Hjs.
      * rewrite lookup_insert_ne by done. rewrite (bool_decide_ext (i ∈ (list_to_set (id :: rows.*1) : gset string)) (i ∈ (list_to_set rows.*1 : gset string))) by set_solver.
        done.
    + rewrite Hr. cbn [scrub_one sw_rows]. rewrite List.map_map. apply List.map_ext. intros e. unfold scrub_events. rewrite scrub_event_job.
      destruct (decide (ev_job_id e = id)) as [He|Hne].
      * rewrite bool_decide_eq_false_2 by (rewrite He; set_solver). rewrite bool_decide_eq_true_2 by (rewrite He; set_solver). by rewrite He.
      * rewrite (scrub_event_other now id e Hne).
        by rewrite (bool_decide_ext (ev_job_id e ∈ (list_to_set (id :: rows.*1) : gset string)) (ev_job_id e ∈ (list_to_set rows.*1 : gset string))) by set_solver.
    + rewrite Hc. cbn. lia.
Qed.

(** ** The rows a sweep chooses *)

Lemma NoDup_sublist {A B} (g : A -> B) (l k : list A) : sublist l k -> NoDup (map g k) -> NoDup (map g l).
Proof. intros Hs Hn. eapply sublist_NoDup; [|by apply fmap_sublist]. exact Hn. Qed.

Lemma filter_sublist {A} (p : A -> bool) (l : list A) : sublist (List.filter p l) l.
Proof. induction l as [|x l IH]; cbn; [constructor|]. destruct (p x); by constructor. Qed.

Definition due_rows (limit : Z) (js : gmap string Job) : list (string * Job) :=
  List.filter (fun r => finished_by limit r.2) (scan js).

Lemma elem_of_due limit js id j : (id, j) ∈ due_rows limit js <-> js !! id = Some j /\ finished_by limit j = true.
Proof.
  unfold due_rows. rewrite list_elem_of_In, filter_In, <- list_elem_of_In, scan_rows, elem_of_map_to_list. done.
Qed.

Lemma due_nodup limit js : NoDup (due_rows limit js).*1.
Proof.
  unfold due_rows. rewrite (filter_perm _ _ _ (scan_rows js)). eapply (NoDup_sublist fst); [apply filter_sublist|apply NoDup_fst_map_to_list].
Qed.

Definition sorted_due (limit : Z) (js : gmap string Job) : list (string * Job) := py_sorted oldest_completion (due_rows limit js).

Lemma sorted_due_perm limit js : sorted_due limit js ≡ₚ due_rows limit js.
Proof. apply py_sorted_perm. Qed.

Lemma elem_of_chosen n rows id j : (id, j) ∈ chosen n rows -> (id, j) ∈ rows /\ is_scrubbed j = false.
Proof.
  intros Hin. apply elem_of_take in Hin as (i & Hi & _). apply list_elem_of_lookup_2 in Hi.
  apply list_elem_of_In, filter_In in Hi as [Hi Hs]. rewrite <- list_elem_of_In in Hi. cbn in Hs. by bool_to_prop.
Qed.

Lemma chosen_sublist n rows : sublist (chosen n rows) rows.
Proof. etrans; [apply sublist_take|apply filter_sublist]. Qed.

Lemma selected_sublist limit batch_size js : sublist (selected limit batch_size js) (sorted_due limit js).
Proof. apply sublist_take. Qed.

Lemma chosen_nodup limit batch_size n js : NoDup (chosen n (selected limit batch_size js)).*1.
Proof.
  eapply (NoDup_sublist fst); [etrans; [apply chosen_sublist|apply selected_sublist]|].
  rewrite (fmap_Permutation fst _ _ (sorted_due_perm limit js)). apply due_nodup.
Qed.

Lemma chosen_rows limit batch_size n js id j :
  (id, j) ∈ chosen n (selected limit batch_size js) -> js !! id = Some j /\ finished_by limit j = true /\ is_scrubbed j = false.
Proof.
  intros Hin. apply elem_of_chosen in Hin as [Hin Hs]. pose proof (elem_of_sublist _ _ _ Hin (selected_sublist _ _ _)) as Hin'; clear Hin; rename Hin' into Hin.
  rewrite sorted_due_perm, elem_of_due in Hin. tauto.
Qed.

(** ** What a sweep leaves *)

(** A scrubbed row: no text in its columns, none in its request, and the marker. *)
Definition content_free (j : Job) : Prop :=
  (forall c, c ∈ TEXT_COLUMNS -> j_other j !! c = Some JNull) /\
  (forall k, k ∈ ["messages"; "prompt"; "system"; "tools"] -> has_key k (request_of j) = false) /\
  is_scrubbed j = true.

Lemma has_key_filter k (f : string -> bool) (p : string * json -> bool) d :
  (forall kv, p kv = f kv.1) -> has_key k (List.filter p d) = f k && has_key k d.
Proof.
  intros Hp. unfold has_key. induction d as [|[a v] d IH]; cbn; [by rewrite andb_false_r|].
  rewrite Hp. cbn. destruct (f a) eqn:Ea; cbn; rewrite IH; case_bool_decide; subst; cbn; rewrite ?Ea; cbn; try done; by destruct (f k).
Qed.

Lemma has_key_pop k k' d : has_key k (dict_pop k' d) = negb (bool_decide (k = k')) && has_key k d.
Proof. by apply (has_key_filter k (fun x => negb (bool_decide (x = k')))). Qed.

Lemma has_key_set k k' v d : has_key k (dict_set k' v d) = bool_decide (k = k') || has_key k d.
Proof.
  unfold dict_set. fold (has_key k' d). destruct (has_key k' d) eqn:E.
  - unfold has_key in *. case_bool_decide as Hk; cbn.
    + subst. induction d as [|[a w] d IH]; cbn in *; [done|]. case_bool_decide; cbn; [by rewrite bool_decide_eq_true_2|].
      rewrite bool_decide_eq_false_2 by done. by apply IH.
    + clear E. induction d as [|[a w] d IH]; cbn; [done|]. rewrite IH. f_equal. destruct (decide (a = k')) as [->|Ha].
      * rewrite (bool_decide_eq_true_2 (k' = k')) by done. cbn. done.
      * by rewrite (bool_decide_eq_false_2 (a = k')) by done.
  - unfold has_key. rewrite existsb_app. cbn. rewrite orb_false_r, orb_comm. f_equal. by apply bool_decide_ext.
Qed.

Lemma request_scrub_job now j : request_of (scrub_job now j) = scrub_request now (request_of j).
Proof. reflexivity. Qed.

Lemma scrub_job_free now j : content_free (scrub_job now j).
Proof.
  split_and!.
  - intros c Hc. unfold TEXT_COLUMNS in Hc. repeat (apply elem_of_cons in Hc as [->|Hc]; [cbn; by simplify_map_eq|]). by apply elem_of_nil in Hc.
  - intros k Hk. rewrite request_scrub_job. unfold scrub_request. rewrite has_key_set, !has_key_pop.
    repeat (apply elem_of_cons in Hk as [->|Hk]; [reflexivity|]). by apply elem_of_nil in Hk.
  - unfold is_scrubbed. rewrite request_scrub_job. unfold scrub_request. by rewrite has_key_set, bool_decide_eq_true_2.
Qed.

(** What the sweep keeps of a row: everything but the text. *)
Definition record_of_job (j : Job) :=
  (kept j, j_job_class j, j_base_priority j, j_source j, j_created_at j, j_queued_at j, j_started_at j, j_error_code j, j_error_text j,
   j_selected_model_id j, j_max_attempts j, j_task_profile_id j).

Lemma scrub_job_keeps now j : record_of_job (scrub_job now j) = record_of_job j.
Proof. by destruct j. Qed.

(** An event with its text removed. *)
Definition output_free (e : JobEvent) : Prop := event_text e = None.

Lemma scrub_event_free now id e : holds_result id e = true -> output_free (scrub_event now id e).
Proof.
  intros Hr. unfold scrub_event, output_free. rewrite Hr. destruct (event_text e) as [d|] eqn:E; [|done]. unfold event_text. cbn [ev_data].
  enough (forall k, k ∈ SCRUBBED_EVENT_KEYS -> has_key k (cleaned now d) = false) as Hk.
  { cbn. rewrite !Hk by (unfold SCRUBBED_EVENT_KEYS; set_solver). done. }
  intros k Hk. unfold cleaned. rewrite has_key_set. rewrite bool_decide_eq_false_2
    by (intros ->; unfold SCRUBBED_EVENT_KEYS, SCRUBBED_MARKER in Hk; set_solver).
  rewrite (has_key_filter k (fun x => negb (bool_decide (x ∈ SCRUBBED_EVENT_KEYS)))) by done. by rewrite bool_decide_eq_true_2.
Qed.

(** ** The whole sweep *)

Definition swept (now limit batch_size : Z) (js : gmap string Job) : list (string * Job) :=
  chosen batch_size (selected limit batch_size js).

Definition ids_of (rows : list (string * Job)) : gset string := list_to_set rows.*1.

Lemma size_ids rows : NoDup rows.*1 -> Z.of_nat (size (ids_of rows)) = Z.of_nat (length rows).
Proof. intros Hn. unfold ids_of. by rewrite size_list_to_set, length_fmap. Qed.

Lemma elem_of_ids id rows : id ∈ ids_of rows <-> exists j, (id, j) ∈ rows.
Proof.
  unfold ids_of. rewrite elem_of_list_to_set, list_elem_of_fmap. split; [intros ([i j] & -> & Hin); by exists j|intros (j & Hin); by exists (id, j)].
Qed.

Lemma scrub_content_run now hours batch_size w :
  let limit := now - hours * 3600000000 in
  let ids := ids_of (swept now limit batch_size (jobs w)) in
  exists w' n, scrub_content now hours batch_size w = (w', Ok (mkOutcome (Z.of_nat (size ids)) n limit)) /\
    scrubbed_in now ids (jobs w) (jobs w') /\ st_rows (ev w') = map (scrub_events now ids) (st_rows (ev w)) /\
    w' = with_ev (mkState (st_rows (ev w')) (st_sink (ev w)) (st_ids (ev w))) (with_jobs (jobs w') w).
Proof.
  intros limit ids. unfold scrub_content. fold limit. rewrite scrub_rows_fold. cbn [sw_scrubbed]. rewrite Z.sub_0_r. fold (swept now limit batch_size (jobs w)).
  destruct (scrub_fold now (swept now limit batch_size (jobs w)) (mkSweep (jobs w) (st_rows (ev w)) 0 0)) as (Hj & Hr & Hc).
  - apply chosen_nodup.
  - intros id j Hin. by apply chosen_rows in Hin as (? & _).
  - set (s := fold_left _ _ _) in *. exists (with_ev (mkState (sw_rows s) (st_sink (ev w)) (st_ids (ev w))) (with_jobs (sw_jobs s) w)), (sw_events s). split; [|split; [exact Hj|split; [exact Hr|by destruct w as [? []]]]].
    cbn zeta. do 2 f_equal. rewrite Hc. cbn [sw_scrubbed]. f_equal. subst ids. rewrite size_ids; [done|]. apply chosen_nodup.
Qed.

(** With no more due rows than one sweep reads, and no more unscrubbed ones than it scrubs, none is left. *)
Lemma swept_all now limit batch_size js :
  Z.of_nat (length (due_rows limit js)) <= batch_size * 4 ->
  countb (fun r => negb (is_scrubbed r.2)) (due_rows limit js) <= batch_size ->
  forall id j, js !! id = Some j -> finished_by limit j = true -> is_scrubbed j = false -> id ∈ ids_of (swept now limit batch_size js).
Proof.
  intros Hall Hun id j Hj Hd Hs. apply elem_of_ids. exists j. unfold swept, chosen, selected. fold (due_rows limit js) (sorted_due limit js).
  pose proof (Permutation_length (sorted_due_perm limit js)) as Hlen. rewrite (take_ge (sorted_due limit js)) by lia.
  rewrite take_ge.
  - apply list_elem_of_In, filter_In. rewrite <- list_elem_of_In, sorted_due_perm, elem_of_due. cbn. by rewrite Hs.
  - rewrite (Permutation_length (filter_perm _ _ _ (sorted_due_perm limit js))). unfold countb in Hun. lia.
Qed.

(** A row of the sorted list has all the strictly older ones before it. *)
Lemma older_before limit js i id j (older : gset string) :
  sorted_due limit js !! i = Some (id, j) ->
  (forall id', id' ∈ older -> exists j', (id', j') ∈ due_rows limit js /\ default 0 (j_completed_at j') < default 0 (j_completed_at j)) ->
  (size older <= i)%nat.
Proof.
  intros Hi Ho. set (l := sorted_due limit js) in *.
  assert (Hs : StronglySorted (fun x y => oldest_completion x y = true) l) by apply (sorted_by_key (fun r => default 0 (j_completed_at r.2)) Z.compare).
  assert (Hsub : older ⊆ ids_of (take i l)).
  { intros id' Hid. destruct (Ho id' Hid) as (j' & Hin & Hlt). apply elem_of_ids. exists j'.
    assert (Hl : (id', j') ∈ l) by (unfold l; by rewrite sorted_due_perm). apply list_elem_of_lookup in Hl as [k Hk].
    apply elem_of_take. exists k. split; [done|]. destruct (decide (k < i)%nat) as [|Hge]; [done|exfalso].
    destruct (decide (k = i)) as [->|Hne]; [rewrite Hi in Hk; injection Hk as <- <-; lia|].
    pose proof (sorted_lookup_lt _ l i k _ _ Hs ltac:(lia) Hi Hk) as Hle. unfold oldest_completion, leb_of, cmp_on in Hle. cbn in Hle.
    destruct (Z.compare_spec (default 0 (j_completed_at j)) (default 0 (j_completed_at j'))); (lia || done). }
  apply subseteq_size in Hsub. unfold ids_of in Hsub. rewrite size_list_to_set in Hsub.
  - rewrite length_fmap, length_take in Hsub. lia.
  - eapply (NoDup_sublist fst); [apply sublist_take|]. unfold l. rewrite (fmap_Permutation fst _ _ (sorted_due_perm limit js)). apply due_nodup.
Qed.

Lemma swept_none now limit batch_size js (old : gset string) :
  batch_size * 4 <= Z.of_nat (size old) ->
  (forall id, id ∈ old -> exists j, js !! id = Some j /\ is_terminal (j_state j) = true /\ is_Some (j_completed_at j) /\ is_scrubbed j = true) ->
  (forall id j id' j', js !! id = Some j -> is_terminal (j_state j) = true -> is_scrubbed j = false -> id' ∈ old -> js !! id' = Some j' ->
     default 0 (j_completed_at j') < default 0 (j_completed_at j)) ->
  swept now limit batch_size js = [].
Proof.
  intros Hsize Hold Hnew. unfold swept, chosen. enough (List.filter (fun r => negb (is_scrubbed r.2)) (selected limit batch_size js) = []) as ->
    by apply take_nil.
  apply filter_none. intros [id j] Hin. cbn. apply negb_false_iff. destruct (is_scrubbed j) eqn:Hs; [done|exfalso].
  apply elem_of_take in Hin as (i & Hi & Hlt).
  assert (Hd : (id, j) ∈ due_rows limit js) by (rewrite <- sorted_due_perm; by eapply list_elem_of_lookup_2).
  apply elem_of_due in Hd as [Hj Hf]. unfold finished_by in Hf. apply andb_true_iff in Hf as [Ht Hc].
  destruct (j_completed_at j) as [c|] eqn:Ec; [|done]. apply Z.leb_le in Hc.
  assert (size old <= i)%nat; [|lia]. apply (older_before limit js i id j old Hi). intros id' Hid. destruct (Hold id' Hid) as (j' & Hj' & Ht' & [c' Ec'] & _).
  pose proof (Hnew id j id' j' Hj Ht Hs Hid Hj') as Hlt'. exists j'. split; [|done]. apply elem_of_due. split; [done|].
  unfold finished_by. rewrite Ht', Ec'. rewrite Ec, Ec' in Hlt'. cbn in Hlt'. apply Z.leb_le. lia.
Qed.

Lemma swept_size now limit batch_size js : Z.of_nat (size (ids_of (swept now limit batch_size js))) <= Z.max 0 batch_size.
Proof. rewrite size_ids by apply chosen_nodup. unfold swept, chosen. rewrite length_take. lia. Qed.

Lemma swept_events now ids rows rows' :
  rows' = map (scrub_events now ids) rows ->
  forall i e, rows !! i = Some e -> exists e', rows' !! i = Some e' /\
    ((ev_job_id e ∉ ids \/ holds_result (ev_job_id e) e = false) -> e' = e) /\
    (ev_job_id e ∈ ids -> holds_result (ev_job_id e) e = true -> output_free e' /\
       (ev_id e', ev_job_id e', ev_sequence e', ev_event_type e') = (ev_id e, ev_job_id e, ev_sequence e, ev_event_type e)).
Proof.
  intros -> i e Hi. exists (scrub_events now ids e). unfold scrub_events. split_and!.
  - change (map (scrub_events now ids) rows) with (scrub_events now ids <$> rows). rewrite list_lookup_fmap, Hi. done.
  - intros [Hno|Hno]; [by rewrite bool_decide_eq_false_2|]. case_bool_decide; [|done]. unfold scrub_event. by rewrite Hno.
  - intros Hin Hr. rewrite bool_decide_eq_true_2 by done. split; [by apply scrub_event_free|].
    unfold scrub_event. rewrite Hr. by destruct (event_text e).
Qed.

Lemma swept_store now ids js js' : scrubbed_in now ids js js' -> store_ok js -> store_ok js'.
Proof.
  intros Hj [Hok Hu].
  assert (Hback : forall id j', js' !! id = Some j' -> exists j, js !! id = Some j /\ kept j' = kept j /\ j_source j' = j_source j).
  { intros id j' Hid. rewrite Hj in Hid. case_bool_decide; [|by exists j']. destruct (js !! id) as [j|]; [|done].
    injection Hid as <-. exists j. by split_and!. }
  split.
  - intros id j' Hid. destruct (Hback id j' Hid) as (j & Hid' & Hk & _). specialize (Hok id j Hid'). unfold kept in Hk. injection Hk as H1 H2 H3 H4 _ _ _ _.
    unfold job_ok in *. by rewrite H1, H2, H3, H4.
  - intros i i' j j' k Hi Hi' Hs Hk Hk'. destruct (Hback i j Hi) as (j0 & Hj0 & Hk0 & Hs0). destruct (Hback i' j' Hi') as (j1 & Hj1 & Hk1 & Hs1).
    unfold kept in Hk0, Hk1. injection Hk0 as _ _ _ _ _ _ E0 _. injection Hk1 as _ _ _ _ _ _ E1 _.
    apply (Hu i i' j0 j1 k Hj0 Hj1); congruence.
Qed.
End retention.

(** ** Rows for the witnesses *)

#[export] Instance scan_by_id : Scan := {| scan := map_to_list; scan_rows := fun _ => reflexivity _ |}.

(** A job completed at [t], with its text, and the same after a sweep. *)
Definition sample_finished (t : Z) : Job :=
  assign_all [SetState COMPLETED; SetCompletedAt (Some t); SetOther "response_text" (JStr "answer")]
    (set_request [("task", JStr "chat"); ("messages", JArr [JStr "hello"])] (sample_job LEASED None None 400 0)).

Definition sample_history : gmap string Job :=
  list_to_map [("a", scrub_job 9 (sample_finished 1)); ("b", scrub_job 9 (sample_finished 2)); ("c", scrub_job 9 (sample_finished 3));
               ("d", scrub_job 9 (sample_finished 4)); ("e", sample_finished 5)].

Lemma sample_old id : id ∈ ({["a"; "b"; "c"; "d"]} : gset string) ->
  exists j, sample_history !! id = Some j /\ is_terminal (j_state j) = true /\ is_Some (j_completed_at j) /\ is_scrubbed j = true.
Proof.
  intros Hid. assert (Hcases : id = "a" \/ id = "b" \/ id = "c" \/ id = "d") by set_solver. clear Hid.
  destruct Hcases as [->|[->|[->| ->]]]; (eexists; split; [reflexivity|split_and!; [reflexivity|by eexists|reflexivity]]).
Qed.

Lemma sample_new id j id' j' : sample_history !! id = Some j -> is_terminal (j_state j) = true -> is_scrubbed j = false ->
  id' ∈ ({["a"; "b"; "c"; "d"]} : gset string) -> sample_history !! id' = Some j' -> default 0 (j_completed_at j') < default 0 (j_completed_at j).
Proof.
  intros Hj _ Hs Hid Hj'. destruct (sample_old id' Hid) as (j0 & Hj0 & _ & _ & _). rewrite Hj0 in Hj'. injection Hj' as ->.
  assert (Hcases : id' = "a" \/ id' = "b" \/ id' = "c" \/ id' = "d") by set_solver.
  apply elem_of_list_to_map_2 in Hj. repeat (apply elem_of_cons in Hj as [[= -> ->]|Hj]; [try (vm_compute in Hs; discriminate Hs)|]);
    [|by apply elem_of_nil in Hj].
  destruct Hcases as [->|[->|[->| ->]]]; vm_compute in Hj0; injection Hj0 as <-; vm_compute; reflexivity.
Qed.

Module Properties.
Section properties.
Context `{Externals} `{Scan}.


(** Retention stalls: the sweep reads only the [4 * batch_size] oldest finished rows, the scrubbed ones
    among them, and scrubbed rows stay.  Once that many finished rows carry the marker and every row that does
    not was completed after them, no later sweep changes anything, whatever the retention and however long it
    runs: the text of every job completed since is kept for ever. *)
Theorem retention_stalls (batch_size : Z) (old : gset string) (w : World) :
  batch_size * 4 <= Z.of_nat (size old) ->
  (forall id, id ∈ old -> exists j, jobs w !! id = Some j /\ is_terminal (j_state j) = true /\ is_Some (j_completed_at j) /\ is_scrubbed j = true) ->
  (forall id j id' j', jobs w !! id = Some j -> is_terminal (j_state j) = true -> is_scrubbed j = false -> id' ∈ old -> jobs w !! id' = Some j' ->
     default 0 (j_completed_at j') < default 0 (j_completed_at j)) ->
  forall now hours, scrub_content now hours batch_size w = (w, Ok (mkOutcome 0 0 (now - hours * 3600000000))).
Proof.
  intros Hsize Hold Hnew now hours. unfold scrub_content. rewrite scrub_rows_fold. cbn [sw_scrubbed]. rewrite Z.sub_0_r.
  fold (swept now (now - hours * 3600000000) batch_size (jobs w)). rewrite (swept_none now _ batch_size (jobs w) old Hsize Hold Hnew).
  by destruct w as [? [] ? ? ? ?].
Qed.
End properties.


Lemma retention_stalls_witness : is_scrubbed <$> sample_history !! "e" = Some false /\
  forall now, scrub_content now 0 1 (sample_world sample_history) = (sample_world sample_history, Ok (mkOutcome 0 0 (now - 0 * 3600000000))).
Proof.
  split; [vm_compute; reflexivity|]. intros now.
  apply (retention_stalls (H := sample_externals) 1 {["a"; "b"; "c"; "d"]} (sample_world sample_history)); [vm_compute; discriminate| |].
  - apply sample_old.
  - apply sample_new.
Defined.
End Properties.
