(* ===== verification/Registry.v ===== *)
(** * The model registry ([services/models.py], [domain/registry.py])

    Discovery of what the registered providers serve, as one transaction on the registry, the stored
    capabilities and the evidence bound to them; the operator's switch; manual scores; the registry listing.
    A provider's listing is an answer; ModelRack's descriptor is the record of the attributes read. *)

From Stdlib Require Import Ascii String.
From S2P Require Import Prelude PyFloat Json Ordering Telemetry Authorization EvidencePolicy Reliability JobEvents QueueStore TaskProfile EvidenceStore EvidenceImport EvidenceRebind Candidates.
#[local] Open Scope string_scope.
#[local] Open Scope list_scope.
#[local] Open Scope Z_scope.

(** ** Tables *)

(** The columns of [Model] that only the registry listing reads, by the model's id. *)
Record Sighting := mkSighting {
  sg_quantization : option string;
  sg_family : option string;
  sg_first_seen_at : Z;
  sg_last_seen_at : Z
}.

(** [model_capabilities] under its unique key (model, capability, source): score, confidence, updated at. *)
Definition CapabilityTable : Type := gmap (string * string * string) (option f64 * f64 * Z).

Record RegistryDb := mkRegistry {
  rg_db : EvidenceDb;
  rg_sightings : gmap string Sighting;
  rg_capabilities : CapabilityTable;
  rg_ids : nat
}.

Definition rg_models (d : RegistryDb) : list ModelRow := ed_models (rg_db d).
Definition with_models (models : list ModelRow) (d : RegistryDb) : RegistryDb :=
  mkRegistry (set_models models (rg_db d)) (rg_sightings d) (rg_capabilities d) (rg_ids d).

(** [with database.write() as session: body]. *)
Definition transaction {A} (body : prog RegistryDb A) : prog RegistryDb A :=
  fun d => match body d with (d', Ok a) => (d', Ok a) | (_, Raise e) => (d, Raise e) end.

(** ModelRack's capability flags. *)
Class Flags := {
  Flag : Type;
  flag_eq : EqDecision Flag;
  flag_value : Flag -> string;
  TOOLS : Flag;
  STRUCTURED_OUTPUT : Flag
}.
#[export] Existing Instance flag_eq.

Section registry.
Context `{Externals} `{Flags} {M : Type} `{Measurement M}.

Record Descriptor := mkDescriptor {
  de_provider_kind : string;
  de_provider_model_name : string;
  de_artifact_digest : option string;
  de_canonical_id : string;
  de_identity_confidence : string;
  de_max_context : M;
  de_size_bytes : M;
  de_parameter_count : M;
  de_quantization : option string;
  de_family : option string;
  de_geometry : string -> M;
  de_declared_capabilities : list Flag
}.

Record Registration := mkRegistration { re_name : string; re_kind : string; re_is_remote : bool }.

(** What one registration's [list_models] did: a listing, a [ProviderError], or another exception. *)
Inductive Listing :=
| Listed (descriptors : list Descriptor)
| Unlisted (e : exn)
| ListingBroke (e : exn).

Record DiscoveryOutcome := mkDiscovery {
  di_added : Z;
  di_updated : Z;
  di_unavailable : Z;
  di_total : Z;
  di_checked_at : Z;
  di_unreachable : list string
}.

(** ** One descriptor *)

Definition supported_int (v : M) : option Z := if is_supported v then Some (to_int v) else None.

Definition capability_of_flag (f : Flag) : option string :=
  if bool_decide (f = TOOLS) then Some "tool_use"
  else if bool_decide (f = STRUCTURED_OUTPUT) then Some "structured_output" else None.

Definition flag_leb : Flag -> Flag -> bool := leb_of (cmp_on flag_value String.compare).

Definition declared_capabilities_for (x : Descriptor) : list string :=
  omap capability_of_flag (py_sorted flag_leb (de_declared_capabilities x)).

Definition has_identity (kind name : string) (digest : option string) (m : ModelRow) : bool :=
  bool_decide (mr_provider_kind m = kind) && bool_decide (mr_provider_model_name m = name) && bool_decide (mr_artifact_digest m = digest).

(** [filter_by(...).one_or_none()]. *)
Definition one_or_none (p : ModelRow -> bool) (models : list ModelRow) : result (option ModelRow) :=
  match List.filter p models with
  | [] => Ok None
  | [m] => Ok (Some m)
  | _ => Raise (OtherException None)
  end.

Definition geometry_json (x : Descriptor) : json :=
  JObj (map (fun kv => (kv.1, JInt kv.2)) (descriptor_geometry (de_geometry x))).

Definition discovered_row (id provider_name : string) (is_remote enabled : bool) (kind name : string) (x : Descriptor) : ModelRow :=
  mkModelRow id (de_canonical_id x) kind provider_name name (de_artifact_digest x) (de_identity_confidence x) true None enabled
    (supported_int (de_max_context x)) (supported_int (de_size_bytes x)) (supported_int (de_parameter_count x)) is_remote (geometry_json x).

Definition find_existing (x : Descriptor) : prog RegistryDb (option ModelRow) :=
  fun d => (d, one_or_none (has_identity (de_provider_kind x) (de_provider_model_name x) (de_artifact_digest x)) (rg_models d)).

Definition find_name_only (x : Descriptor) : prog RegistryDb (option ModelRow) :=
  fun d => (d, match de_artifact_digest x with
               | Some _ => one_or_none (has_identity (de_provider_kind x) (de_provider_model_name x) None) (rg_models d)
               | None => Ok None
               end).

Definition insert_model (provider_name : string) (is_remote : bool) (now : Z) (x : Descriptor) : prog RegistryDb ModelRow :=
  fun d =>
    let id := new_id (rg_ids d) in
    let m := discovered_row id provider_name is_remote true (de_provider_kind x) (de_provider_model_name x) x in
    (mkRegistry (set_models (rg_models d ++ [m]) (rg_db d)) (<[id := mkSighting (de_quantization x) (de_family x) now now]> (rg_sightings d))
       (rg_capabilities d) (S (rg_ids d)), Ok m).

(** The update keeps the row's id, kind, name, switch and first sighting. *)
Definition update_model (provider_name : string) (is_remote : bool) (now : Z) (x : Descriptor) (m : ModelRow) : prog RegistryDb ModelRow :=
  fun d =>
    let m' := discovered_row (mr_id m) provider_name is_remote (mr_enabled m) (mr_provider_kind m) (mr_provider_model_name m) x in
    let first_seen := match rg_sightings d !! mr_id m with Some s => sg_first_seen_at s | None => now end in
    (mkRegistry (set_models (map (fun r => if bool_decide (mr_id r = mr_id m) then m' else r) (rg_models d)) (rg_db d))
       (<[mr_id m := mkSighting (de_quantization x) (de_family x) first_seen now]> (rg_sightings d)) (rg_capabilities d) (rg_ids d), Ok m').

(** [_upsert_model]. *)
Definition upsert_model (provider_name : string) (is_remote : bool) (now : Z) (x : Descriptor) : prog RegistryDb ModelRow :=
  exact ← find_existing x;
  existing ← match exact with Some m => mret (Some m) | None => find_name_only x end;
  match existing with
  | None => insert_model provider_name is_remote now x
  | Some m => update_model provider_name is_remote now x m
  end.

Definition put_capability (model_id capability_id source : string) (score : option f64) (confidence : f64) (now : Z) : prog RegistryDb unit :=
  fun d => (mkRegistry (rg_db d) (rg_sightings d) (<[(model_id, capability_id, source) := (score, confidence, now)]> (rg_capabilities d)) (rg_ids d), Ok tt).

(** [_sync_declared_capabilities]. *)
Definition sync_declared_capabilities (m : ModelRow) (x : Descriptor) (now : Z) : prog RegistryDb unit :=
  for_each (fun c => put_capability (mr_id m) c "declared" (Some DECLARED_SCORE) DECLARED_CONFIDENCE now) (declared_capabilities_for x).

(** ** A pass *)

Record Pass := mkPass { pa_seen : gset string; pa_added : Z; pa_updated : Z }.

Definition discover_one (r : Registration) (now : Z) (x : Descriptor) (s : Pass) : prog RegistryDb Pass :=
  existing ← find_existing x;
  m ← upsert_model (re_name r) (re_is_remote r) now x;
  _ ← sync_declared_capabilities m x now;
  let seen := {[mr_canonical_id m]} ∪ pa_seen s in
  mret (match existing with None => mkPass seen (pa_added s + 1) (pa_updated s) | Some _ => mkPass seen (pa_added s) (pa_updated s + 1) end).

Fixpoint discover_all (now : Z) (listed : list (Registration * Descriptor)) (s : Pass) : prog RegistryDb Pass :=
  match listed with
  | [] => mret s
  | (r, x) :: rest => s' ← discover_one r now x s; discover_all now rest s'
  end.

Definition NOT_REPORTED : string := "not reported by the provider's most recent discovery".

Definition set_unavailable (reason : string) (m : ModelRow) : ModelRow :=
  mkModelRow (mr_id m) (mr_canonical_id m) (mr_provider_kind m) (mr_provider_name m) (mr_provider_model_name m) (mr_artifact_digest m)
    (mr_identity_confidence m) false (Some reason) (mr_enabled m) (mr_max_context m) (mr_size_bytes m) (mr_parameter_count m) (mr_is_remote m)
    (mr_descriptor_json m).

(** Why a pass retires a row, if it does. *)
Definition retirement (disabled : gset string) (seen answered_kinds : gset string) (m : ModelRow) : option string :=
  if negb (mr_available m) then None
  else if bool_decide (mr_provider_name m ∈ disabled) then Some "provider_disabled"
  else if bool_decide (mr_canonical_id m ∈ seen) then None
  else if negb (bool_decide (mr_provider_kind m ∈ answered_kinds)) then None
  else Some NOT_REPORTED.

Definition retire (disabled seen answered_kinds : gset string) (m : ModelRow) : ModelRow :=
  match retirement disabled seen answered_kinds m with Some reason => set_unavailable reason m | None => m end.

Definition retire_all (disabled seen answered_kinds : gset string) : prog RegistryDb Z :=
  fun d => (with_models (map (retire disabled seen answered_kinds) (rg_models d)) d,
            Ok (countb (fun m => bool_decide (is_Some (retirement disabled seen answered_kinds m))) (rg_models d))).

Definition rebind_in : prog RegistryDb unit :=
  fun d => (mkRegistry (rebind_evidence (rg_db d)).1 (rg_sightings d) (rg_capabilities d) (rg_ids d), Ok tt).

(** The listings before the transaction: what was listed, who could not be, the first error. *)
Fixpoint gather (listings : list (Registration * Listing)) : result (list (Registration * list Descriptor) * list (string * exn)) :=
  match listings with
  | [] => Ok ([], [])
  | (_, ListingBroke e) :: _ => Raise e
  | (r, Listed descriptors) :: rest => '(listed, failed) ← gather rest; Ok ((r, descriptors) :: listed, failed)
  | (r, Unlisted e) :: rest => '(listed, failed) ← gather rest; Ok (listed, (re_name r, e) :: failed)
  end.

Definition by_descriptor (listed : list (Registration * list Descriptor)) : list (Registration * Descriptor) :=
  List.concat (map (fun rl => map (pair rl.1) rl.2) listed).

Definition pass_body (listed : list (Registration * list Descriptor)) (disabled : gset string) (now : Z) : prog RegistryDb (Pass * Z) :=
  s ← discover_all now (by_descriptor listed) (mkPass ∅ 0 0);
  unavailable ← retire_all disabled (pa_seen s) (list_to_set (map (fun rl => re_kind rl.1) listed));
  _ ← rebind_in;
  mret (s, unavailable).

Definition discover_models (listings : list (Registration * Listing)) (disabled_provider_names : list string) (now : Z)
    (principal : option Principal) : prog RegistryDb DiscoveryOutcome :=
  _ ← lift (authorize principal "admin");
  '(listed, failed) ← lift (gather listings);
  match listed, failed with
  | [], (_, e) :: _ => raise e
  | _, _ =>
      '(s, unavailable) ← transaction (pass_body listed (list_to_set disabled_provider_names) now);
      mret (mkDiscovery (pa_added s) (pa_updated s) unavailable (Z.of_nat (length (by_descriptor listed))) now (map fst failed))
  end.

(** [try_discover_models]: no principal, and a provider's refusal is no result. *)
Definition try_discover_models (is_provider_error : exn -> bool) (listings : list (Registration * Listing)) (disabled_provider_names : list string)
    (now : Z) : prog RegistryDb (option DiscoveryOutcome) :=
  fun d => match discover_models listings disabled_provider_names now None d with
           | (d', Ok o) => (d', Ok (Some o))
           | (d', Raise e) => (d', if is_provider_error e then Ok None else Raise e)
           end.

(** ** The operator's switch *)

Definition set_enabled (enabled : bool) (m : ModelRow) : ModelRow :=
  mkModelRow (mr_id m) (mr_canonical_id m) (mr_provider_kind m) (mr_provider_name m) (mr_provider_model_name m) (mr_artifact_digest m)
    (mr_identity_confidence m) (mr_available m) (mr_unavailable_reason m) enabled (mr_max_context m) (mr_size_bytes m) (mr_parameter_count m)
    (mr_is_remote m) (mr_descriptor_json m).

Definition set_model_enabled (model_id : string) (enabled : bool) (principal : option Principal) : prog RegistryDb unit :=
  _ ← lift (authorize principal "admin");
  transaction (fun d =>
    if existsb (fun m => bool_decide (mr_id m = model_id)) (rg_models d)
    then (with_models (map (fun m => if bool_decide (mr_id m = model_id) then set_enabled enabled m else m) (rg_models d)) d, Ok tt)
    else (d, Raise (ValidationError "model_id"))).

(** ** Manual scores *)

Definition import_score (now : Z) (s : ManualCapabilityScore) : prog RegistryDb Z :=
  fun d => match one_or_none (fun m => bool_decide (mr_canonical_id m = ms_canonical_id s)) (rg_models d) with
           | Raise e => (d, Raise e)
           | Ok None => (d, Ok 0)
           | Ok (Some m) => ((put_capability (mr_id m) (ms_capability_id s) "manual" (Some (ms_score s)) (ms_confidence s) now d).1, Ok 1)
           end.

Fixpoint import_scores (now : Z) (l : list ManualCapabilityScore) : prog RegistryDb Z :=
  match l with
  | [] => mret 0
  | s :: rest => n ← import_score now s; k ← import_scores now rest; mret (n + k)
  end.

(** The entries of the file, validated before anything is written; no file, no scores. *)
Fixpoint validate_scores `{ProfileWorld} (index : Z) (entries : list (list (string * json))) : result (list ManualCapabilityScore) :=
  match entries with
  | [] => Ok []
  | e :: rest => s ← validate_manual_score index e; l ← validate_scores (index + 1) rest; Ok (s :: l)
  end.

Definition import_manual_capability_scores `{ProfileWorld} (entries : option (list (list (string * json)))) (now : Z) : prog RegistryDb Z :=
  match entries with
  | None => mret 0
  | Some entries => validated ← lift (validate_scores 0 entries); transaction (import_scores now validated)
  end.

(** ** Reading *)

Record RegistryEntry := mkRegistryEntry {
  rn_model : ModelRow;
  rn_sighting : Sighting;
  rn_declared_capabilities : list (string * f64)
}.

Definition declared_of (capabilities : CapabilityTable) (model_id : string) : list (string * f64) :=
  omap (fun kv : string * string * string * (option f64 * f64 * Z) =>
    let '(id, c, source, (score, _, _)) := kv in
    if bool_decide (id = model_id) && bool_decide (source = "declared") then pair c <$> score else None) (map_to_list capabilities).

Definition newest_first : ModelRow * Sighting -> ModelRow * Sighting -> bool :=
  leb_of (cmp_on (fun ms => sg_last_seen_at ms.2) (cmp_desc Z.compare)).

Definition list_registry (d : RegistryDb) : list RegistryEntry :=
  map (fun ms => mkRegistryEntry ms.1 ms.2 (declared_of (rg_capabilities d) (mr_id ms.1)))
    (py_sorted newest_first (omap (fun m => pair m <$> rg_sightings d !! mr_id m) (rg_models d))).
End registry.

(** ** Lemmas: the rows *)

Definition identity_of_model (m : ModelRow) : string * string * option string :=
  (mr_provider_kind m, mr_provider_model_name m, mr_artifact_digest m).
Definition identity_of_descriptor `{Flags} {M} (x : Descriptor (M := M)) : string * string * option string :=
  (de_provider_kind x, de_provider_model_name x, de_artifact_digest x).

Lemma has_identity_iff kind name digest m : has_identity kind name digest m = true <-> identity_of_model m = (kind, name, digest).
Proof.
  unfold has_identity, identity_of_model. rewrite !andb_true_iff, !bool_decide_eq_true. split; [intros [[-> ->] ->]; done|by intros [= -> -> ->]].
Qed.

Section theory.
Context `{Externals} `{!ExternalsLaws} `{Flags} {M : Type} `{Measurement M}.
#[local] Abbreviation Descriptor := (Descriptor (M := M)).
#[local] Abbreviation Listing := (Listing (M := M)).

(** What the unique indexes of the table and fresh ids maintain. *)
Definition registry_ok (d : RegistryDb) : Prop :=
  NoDup (map mr_id (rg_models d)) /\ NoDup (map identity_of_model (rg_models d)) /\
  (forall k, (rg_ids d <= k)%nat -> new_id k ∉ map mr_id (rg_models d)).

Lemma one_or_none_spec {K} `{EqDecision K} (f : ModelRow -> K) (k : K) p models :
  (forall m, p m = true <-> f m = k) -> NoDup (map f models) ->
  match one_or_none p models with
  | Ok (Some m) => m ∈ models /\ f m = k
  | Ok None => k ∉ map f models
  | Raise _ => False
  end.
Proof.
  intros Hp Hn. unfold one_or_none. destruct (List.filter p models) as [|m [|m2 l]] eqn:E.
  - intros Hin. apply list_elem_of_fmap in Hin as (m & -> & Hin). apply list_elem_of_In in Hin.
    assert (Hf : In m (List.filter p models)) by (apply filter_In; split; [done|by apply Hp]). by rewrite E in Hf.
  - assert (Hin : In m (List.filter p models)) by (rewrite E; by left). apply filter_In in Hin as [Hin Hm].
    split; [by apply list_elem_of_In|by apply Hp].
  - assert (Hs : sublist (List.filter p models) models).
    { clear. induction models as [|x l IH]; cbn; [constructor|]. destruct (p x); by constructor. }
    assert (Hn2 : NoDup (map f (List.filter p models))) by (eapply sublist_NoDup; [exact Hn|by apply fmap_sublist]).
    rewrite E in Hn2. cbn in Hn2. apply NoDup_cons in Hn2 as [Hne _]. apply Hne.
    assert (Hp1 : p m = true) by (apply (filter_In p m models); rewrite E; by left).
    assert (Hp2 : p m2 = true) by (apply (filter_In p m2 models); rewrite E; right; by left).
    apply Hp in Hp1, Hp2. rewrite Hp1, <- Hp2. left.
Qed.

(** After an upsert: [m] is the row of its id, and the other rows are as before. *)
Definition put_in (m : ModelRow) (models models' : list ModelRow) : Prop :=
  forall r, r ∈ models' <-> r = m \/ (r ∈ models /\ mr_id r <> mr_id m).

(** What a sighting leaves. *)
Definition sighted (provider_name : string) (is_remote : bool) (x : Descriptor) (m : ModelRow) : Prop :=
  identity_of_model m = identity_of_descriptor x /\ mr_canonical_id m = de_canonical_id x /\
  mr_provider_name m = provider_name /\ mr_is_remote m = is_remote /\ mr_available m = true /\ mr_unavailable_reason m = None.

(** What discovery never changes of a row. *)
Definition standing (m : ModelRow) := (mr_id m, mr_provider_kind m, mr_provider_model_name m, mr_enabled m).

Lemma put_row m0 m models :
  NoDup (map mr_id models) -> m0 ∈ models -> mr_id m = mr_id m0 ->
  put_in m models (map (fun r => if bool_decide (mr_id r = mr_id m0) then m else r) models) /\
  map mr_id (map (fun r => if bool_decide (mr_id r = mr_id m0) then m else r) models) = map mr_id models.
Proof.
  intros Hn Hin Hid. split.
  - intros r. rewrite list_elem_of_In, in_map_iff. split.
    + intros (r0 & Hr & Hr0). case_bool_decide as E; [by left|]. right. subst r0. rewrite <- list_elem_of_In in Hr0. split; [done|congruence].
    + intros [->|[Hr Hne]].
      * exists m0. rewrite bool_decide_eq_true_2 by done. by rewrite <- list_elem_of_In.
      * exists r. rewrite bool_decide_eq_false_2 by congruence. by rewrite <- list_elem_of_In.
  - rewrite List.map_map. apply List.map_ext. intros r. case_bool_decide; congruence.
Qed.

Lemma identities_put m0 m models :
  NoDup (map mr_id models) -> NoDup (map identity_of_model models) -> m0 ∈ models -> mr_id m = mr_id m0 ->
  (identity_of_model m = identity_of_model m0 \/ identity_of_model m ∉ map identity_of_model models) ->
  NoDup (map identity_of_model (map (fun r => if bool_decide (mr_id r = mr_id m0) then m else r) models)).
Proof.
  intros Hn Hi Hin Hid Hcase. destruct Hcase as [Hsame|Hnew].
  - replace (map identity_of_model (map _ models)) with (map identity_of_model models); [done|].
    rewrite List.map_map. apply map_ext_in. intros r Hr. case_bool_decide as E; [|done].
    rewrite Hsame. f_equal. rewrite <- list_elem_of_In in Hr. exact (NoDup_map_inj mr_id models r m0 Hn Hr Hin E).
  - clear Hid. induction models as [|r l IH]; [constructor|]. cbn in *. apply NoDup_cons in Hn as [Hrn Hn]. apply NoDup_cons in Hi as [Hri Hi].
    assert (Hrest : forall r', r' ∈ map identity_of_model (map (fun r => if bool_decide (mr_id r = mr_id m0) then m else r) l) ->
      r' = identity_of_model m \/ r' ∈ map identity_of_model l).
    { intros r' Hr'. rewrite List.map_map in Hr'. apply list_elem_of_In, in_map_iff in Hr' as (r0 & <- & Hr0). rewrite <- list_elem_of_In in Hr0.
      case_bool_decide; [by left|right]. apply list_elem_of_fmap. by exists r0. }
    apply not_elem_of_cons in Hnew as [Hnr Hnl]. destruct (decide (mr_id r = mr_id m0)) as [E|E].
    + rewrite bool_decide_eq_true_2 by done.
      assert (Hl : map (fun r => if bool_decide (mr_id r = mr_id m0) then m else r) l = l).
      { rewrite <- (List.map_id l) at 2. apply map_ext_in. intros r0 Hr0. rewrite bool_decide_eq_false_2; [done|]. intros E0.
        apply Hrn. rewrite E, <- E0. rewrite <- list_elem_of_In in Hr0. apply list_elem_of_fmap. by exists r0. }
      rewrite Hl. apply NoDup_cons. by split.
    + rewrite bool_decide_eq_false_2 by done. apply NoDup_cons. split.
      * intros Hbad. destruct (Hrest _ Hbad) as [Hb|Hb]; [congruence|done].
      * apply IH; try done. apply elem_of_cons in Hin as [->|Hin]; [congruence|done].
Qed.

(** [_upsert_model] never raises, and puts the sighting in one row: the row of that identity, or the row known
    by name only, or a new one. *)
Lemma upsert_spec provider_name is_remote now x d :
  registry_ok d -> exists d' m,
    upsert_model provider_name is_remote now x d = (d', Ok m) /\ registry_ok d' /\ put_in m (rg_models d) (rg_models d') /\
    sighted provider_name is_remote x m /\ ed_rows (rg_db d') = ed_rows (rg_db d) /\ ed_adapters (rg_db d') = ed_adapters (rg_db d) /\
    ((exists m0, m0 ∈ rg_models d /\ standing m = standing m0 /\
        (identity_of_model m0 = identity_of_descriptor x \/
         (identity_of_descriptor x ∉ map identity_of_model (rg_models d) /\ mr_artifact_digest m0 = None /\ de_artifact_digest x <> None))) \/
     (mr_id m ∉ map mr_id (rg_models d) /\ identity_of_descriptor x ∉ map identity_of_model (rg_models d) /\ mr_enabled m = true)).
Proof.
  intros (Hn & Hi & Hf).
  pose proof (one_or_none_spec identity_of_model (identity_of_descriptor x) (has_identity (de_provider_kind x) (de_provider_model_name x) (de_artifact_digest x))
    (rg_models d) (fun m => has_identity_iff _ _ _ m) Hi) as Hexact.
  assert (Hupd : forall m0, m0 ∈ rg_models d ->
    (identity_of_model m0 = identity_of_descriptor x \/
     (identity_of_descriptor x ∉ map identity_of_model (rg_models d) /\ mr_artifact_digest m0 = None /\ de_artifact_digest x <> None /\
      mr_provider_kind m0 = de_provider_kind x /\ mr_provider_model_name m0 = de_provider_model_name x)) ->
    exists d' m, update_model provider_name is_remote now x m0 d = (d', Ok m) /\ registry_ok d' /\ put_in m (rg_models d) (rg_models d') /\
      sighted provider_name is_remote x m /\ ed_rows (rg_db d') = ed_rows (rg_db d) /\ ed_adapters (rg_db d') = ed_adapters (rg_db d) /\ standing m = standing m0).
  { intros m0 Hin Hcase. set (m := discovered_row (mr_id m0) provider_name is_remote (mr_enabled m0) (mr_provider_kind m0) (mr_provider_model_name m0) x).
    set (models' := map (fun r => if bool_decide (mr_id r = mr_id m0) then m else r) (rg_models d)).
    destruct (update_model provider_name is_remote now x m0 d) as [d' r] eqn:Er. pose proof (f_equal fst Er) as Ed'. pose proof (f_equal snd Er) as Er'.
    cbn [fst snd update_model] in Ed', Er'. exists d', m. split; [by rewrite <- Er'|].
    assert (Hmodels : rg_models d' = models') by by rewrite <- Ed'.
    assert (Hident : identity_of_model m = identity_of_descriptor x).
    { unfold identity_of_descriptor in *. destruct Hcase as [Hs|(_ & _ & _ & <- & <-)]; [|done].
      unfold identity_of_model in *. injection Hs as <- <- _. done. }
    destruct (put_row m0 m (rg_models d) Hn Hin eq_refl) as [Hput Hids]. fold models' in Hput, Hids.
    split; [|split; [by rewrite Hmodels|split; [done|by rewrite <- Ed']]].
    split; [|split]; rewrite Hmodels.
    - by rewrite Hids.
    - apply identities_put; try done. destruct Hcase as [Hs|(Hnew & _)]; [left|right]; by rewrite Hident.
    - rewrite Hids, <- Ed'. exact Hf. }
  assert (Hins : identity_of_descriptor x ∉ map identity_of_model (rg_models d) ->
    exists d' m, insert_model provider_name is_remote now x d = (d', Ok m) /\ registry_ok d' /\ put_in m (rg_models d) (rg_models d') /\
      sighted provider_name is_remote x m /\ ed_rows (rg_db d') = ed_rows (rg_db d) /\ ed_adapters (rg_db d') = ed_adapters (rg_db d) /\
      mr_id m ∉ map mr_id (rg_models d) /\ mr_enabled m = true).
  { intros Hnew. set (id := new_id (rg_ids d)). set (m := discovered_row id provider_name is_remote true (de_provider_kind x) (de_provider_model_name x) x).
    eexists _, m. split; [reflexivity|]. assert (Hid : mr_id m ∉ map mr_id (rg_models d)) by by apply Hf.
    split_and!; try done.
    - split; [|split]; unfold rg_models in *; cbn [rg_db ed_models set_models rg_ids]; rewrite map_app; cbn [map].
      + apply NoDup_app. split_and!; [done| |apply NoDup_singleton]. intros y Hy Hy'. apply list_elem_of_singleton in Hy' as ->. done.
      + apply NoDup_app. split_and!; [done| |apply NoDup_singleton]. intros y Hy Hy'. apply list_elem_of_singleton in Hy' as ->. done.
      + intros k Hk. rewrite not_elem_of_app, list_elem_of_singleton. split; [apply Hf; lia|]. intros Hk'. apply new_id_inj in Hk'. lia.
    - intros r. unfold rg_models in *. cbn [rg_db ed_models set_models]. rewrite elem_of_app, list_elem_of_singleton. split.
      + intros [Hr| ->]; [right|by left]. split; [done|]. intros E. apply Hid. rewrite <- E. apply list_elem_of_fmap. by exists r.
      + intros [->|[Hr _]]; [by right|by left]. }
  unfold upsert_model. rewrite prog_bind_run. cbn [find_existing].
  destruct (one_or_none _ (rg_models d)) as [[m0|]|e] eqn:E1; [| |done].
  - destruct Hexact as [Hin Hid]. rewrite bind_ret. destruct (Hupd m0 Hin (or_introl Hid)) as (d' & m & Hrun & Hok & Hput & Hs & Hr1 & Hr2 & Hst).
    exists d', m. split_and!; try done. left. exists m0. split_and!; try done. by left.
  - rewrite prog_bind_run. unfold find_name_only. destruct (de_artifact_digest x) as [digest|] eqn:Ed.
    + pose proof (one_or_none_spec identity_of_model (de_provider_kind x, de_provider_model_name x, None)
        (has_identity (de_provider_kind x) (de_provider_model_name x) None) (rg_models d) (fun m => has_identity_iff _ _ _ m) Hi) as Hname.
      destruct (one_or_none (has_identity (de_provider_kind x) (de_provider_model_name x) None) (rg_models d)) as [[m0|]|e] eqn:E2; [| |done].
      * destruct Hname as [Hin Hid]. unfold identity_of_model in Hid. injection Hid as Hk Hnm Hdg.
        destruct (Hupd m0 Hin) as (d' & m & Hrun & Hok & Hput & Hs & Hr1 & Hr2 & Hst); [right; by split_and!|].
        exists d', m. split_and!; try done. left. exists m0. split_and!; try done. right. by split_and!.
      * destruct (Hins Hexact) as (d' & m & Hrun & Hok & Hput & Hs & Hr1 & Hr2 & Hid & Hen). exists d', m. split_and!; try done. by right.
    + destruct (Hins Hexact) as (d' & m & Hrun & Hok & Hput & Hs & Hr1 & Hr2 & Hid & Hen). exists d', m. split_and!; try done. by right.
Qed.

(** ** Lemmas: a pass *)

Lemma sync_spec m (x : Descriptor) now d : exists d',
  sync_declared_capabilities m x now d = (d', Ok tt) /\ rg_db d' = rg_db d /\ rg_ids d' = rg_ids d.
Proof.
  unfold sync_declared_capabilities. induction (declared_capabilities_for x) as [|c l IH] in d |- *; cbn [for_each]; [by eexists|].
  rewrite prog_bind_run. cbn [put_capability]. destruct (IH (mkRegistry (rg_db d) (rg_sightings d)
    (<[(mr_id m, c, "declared") := (Some DECLARED_SCORE, DECLARED_CONFIDENCE, now)]> (rg_capabilities d)) (rg_ids d))) as (d' & Hrun & Hdb & Hids).
  by exists d'.
Qed.

(** A row seen in a pass: last written by one of the descriptors listed. *)
Definition seen_in (listed : list (Registration * Descriptor)) (m : ModelRow) : Prop :=
  exists r x, (r, x) ∈ listed /\ sighted (re_name r) (re_is_remote r) x m.

(** From [models] to [models'] by the sightings of [listed]. *)
Record recorded (listed : list (Registration * Descriptor)) (models models' : list ModelRow) : Prop := {
  rec_kept : forall m, m ∈ models -> exists m', m' ∈ models' /\ standing m' = standing m /\ (m' = m \/ seen_in listed m');
  rec_rows : forall m', m' ∈ models' ->
    (exists m, m ∈ models /\ standing m' = standing m /\ (m' = m \/ seen_in listed m')) \/
    (mr_id m' ∉ map mr_id models /\ mr_enabled m' = true /\ seen_in listed m');
  rec_found : forall r x, (r, x) ∈ listed -> exists m', m' ∈ models' /\ mr_provider_kind m' = de_provider_kind x /\
    mr_provider_model_name m' = de_provider_model_name x /\ seen_in listed m'
}.

Lemma seen_in_mono l l' m : (forall rx, rx ∈ l -> rx ∈ l') -> seen_in l m -> seen_in l' m.
Proof. intros Hl (r & x & Hin & Hs). exists r, x. split; [by apply Hl|done]. Qed.

Lemma recorded_nil models : recorded [] models models.
Proof. split; [|intros m Hm; left|by intros r x ?%elem_of_nil]; [intros m Hm|]; exists m; split_and!; auto. Qed.

Lemma recorded_app l1 l2 a b c : recorded l1 a b -> recorded l2 b c -> recorded (l1 ++ l2) a c.
Proof.
  intros [K1 R1 F1] [K2 R2 F2].
  assert (Hl : forall m, seen_in l1 m -> seen_in (l1 ++ l2) m) by (intros m; apply seen_in_mono; intros ??; rewrite elem_of_app; by left).
  assert (Hr : forall m, seen_in l2 m -> seen_in (l1 ++ l2) m) by (intros m; apply seen_in_mono; intros ??; rewrite elem_of_app; by right).
  split.
  - intros m Hm. destruct (K1 m Hm) as (m1 & Hm1 & Hs1 & Hw1). destruct (K2 m1 Hm1) as (m2 & Hm2 & Hs2 & Hw2).
    exists m2. split; [done|]. split; [congruence|]. destruct Hw2 as [->|]; [destruct Hw1 as [->|]|]; auto.
  - intros m2 Hm2. destruct (R2 m2 Hm2) as [(m1 & Hm1 & Hs2 & Hw2)|(Hid & Hen & Hw2)].
    + destruct (R1 m1 Hm1) as [(m & Hm & Hs1 & Hw1)|(Hid & Hen & Hw1)].
      * left. exists m. split; [done|]. split; [congruence|]. destruct Hw2 as [->|]; [destruct Hw1 as [->|]|]; auto.
      * right. unfold standing in Hs2. injection Hs2 as -> _ _ ->. split_and!; [done..|]. destruct Hw2 as [->|]; auto.
    + right. split_and!; [|done|auto]. intros Hbad. apply list_elem_of_fmap in Hbad as (m & Hmid & Hm). destruct (K1 m Hm) as (m1 & Hm1 & Hs1 & _).
      apply Hid. apply list_elem_of_fmap. exists m1. split; [|done]. unfold standing in Hs1. injection Hs1. congruence.
  - intros r x Hin. apply elem_of_app in Hin as [Hin|Hin].
    + destruct (F1 r x Hin) as (m1 & Hm1 & Hk1 & Hn1 & Hw1). destruct (K2 m1 Hm1) as (m2 & Hm2 & Hs2 & Hw2). exists m2.
      unfold standing in Hs2. injection Hs2 as _ Hk2 Hn2 _. split_and!; [done|congruence..|]. destruct Hw2 as [->|]; auto.
    + destruct (F2 r x Hin) as (m2 & Hm2 & Hk2 & Hn2 & Hw2). exists m2. auto.
Qed.

Lemma discover_one_spec r now (x : Descriptor) s d :
  registry_ok d -> exists d' s',
    discover_one r now x s d = (d', Ok s') /\ registry_ok d' /\ recorded [(r, x)] (rg_models d) (rg_models d') /\
    pa_seen s' = {[de_canonical_id x]} ∪ pa_seen s /\ pa_added s' + pa_updated s' = pa_added s + pa_updated s + 1 /\
    ed_rows (rg_db d') = ed_rows (rg_db d) /\ ed_adapters (rg_db d') = ed_adapters (rg_db d).
Proof.
  intros Hok. pose proof Hok as (Hids & Hidents & _). unfold discover_one. rewrite prog_bind_run. cbn [find_existing].
  pose proof (one_or_none_spec identity_of_model (identity_of_descriptor x) (has_identity (de_provider_kind x) (de_provider_model_name x) (de_artifact_digest x))
    (rg_models d) (fun m => has_identity_iff _ _ _ m) Hidents) as Hexact.
  destruct (one_or_none _ (rg_models d)) as [existing|e]; [clear Hexact|done].
  destruct (upsert_spec (re_name r) (re_is_remote r) now x d Hok) as (d1 & m & Hrun & Hok1 & Hput & Hs & Hrows & Had & Hcase).
  rewrite prog_bind_run, Hrun, prog_bind_run. destruct (sync_spec m x now d1) as (d2 & Hsync & Hdb & Hi). rewrite Hsync.
  assert (Hm2 : rg_models d2 = rg_models d1) by (unfold rg_models; by rewrite Hdb).
  assert (Hseen : seen_in [(r, x)] m) by (exists r, x; split; [left|done]).
  assert (Hrec : recorded [(r, x)] (rg_models d) (rg_models d2)).
  { rewrite Hm2. split.
    - intros m0 Hm0. destruct (decide (mr_id m0 = mr_id m)) as [E|E].
      + exists m. split; [apply Hput; by left|]. split; [|by right]. destruct Hcase as [(m1 & Hm1 & Hst & _)|(Hnew & _)].
        * rewrite Hst. f_equal. apply (NoDup_map_inj mr_id (rg_models d)); [done..|]. unfold standing in Hst. injection Hst. congruence.
        * destruct Hnew. rewrite <- E. apply list_elem_of_fmap. by exists m0.
      + exists m0. split; [apply Hput; by right|auto].
    - intros m' Hm'. apply Hput in Hm' as [->|[Hm' _]]; [|left; exists m'; auto]. destruct Hcase as [(m1 & Hm1 & Hst & _)|(Hnew & _ & Hen)].
      + left. exists m1. auto.
      + by right.
    - intros r' x' Hin. apply list_elem_of_singleton in Hin as [= -> ->]. exists m. destruct Hs as (Hident & _). unfold identity_of_model, identity_of_descriptor in Hident.
      injection Hident as Hk Hn _. split_and!; [apply Hput; by left|done..]. }
  destruct Hs as (_ & Hcanon & _). eexists d2, _. split; [reflexivity|]. split; [|split; [exact Hrec|split; [|split; [|by rewrite Hdb]]]].
  - destruct Hok1 as (? & ? & ?). split; [|split]; rewrite Hm2; [done..|by rewrite Hi].
  - rewrite <- Hcanon. by destruct existing.
  - destruct existing; cbn; lia.
Qed.

Lemma discover_all_spec now listed s d :
  registry_ok d -> exists d' s',
    discover_all now listed s d = (d', Ok s') /\ registry_ok d' /\ recorded listed (rg_models d) (rg_models d') /\
    pa_seen s' = list_to_set (map (fun rx => de_canonical_id rx.2) listed) ∪ pa_seen s /\
    pa_added s' + pa_updated s' = pa_added s + pa_updated s + zlen listed /\
    ed_rows (rg_db d') = ed_rows (rg_db d) /\ ed_adapters (rg_db d') = ed_adapters (rg_db d).
Proof.
  revert s d. induction listed as [|[r x] listed IH]; intros s d Hok; cbn [discover_all].
  { exists d, s. split_and!; try done; [apply recorded_nil|set_solver|unfold zlen; cbn; lia]. }
  destruct (discover_one_spec r now x s d Hok) as (d1 & s1 & Hrun & Hok1 & Hrec1 & Hseen1 & Hn1 & Hr1 & Ha1).
  destruct (IH s1 d1 Hok1) as (d2 & s2 & Hrun2 & Hok2 & Hrec2 & Hseen2 & Hn2 & Hr2 & Ha2).
  exists d2, s2. rewrite prog_bind_run, Hrun. split_and!; try done.
  - apply (recorded_app [(r, x)] listed _ _ _ Hrec1 Hrec2).
  - rewrite Hseen2, Hseen1. cbn. set_solver.
  - unfold zlen in *. cbn. lia.
  - congruence.
  - congruence.
Qed.

(** What an operator sees of a row. *)
Definition shown (m : ModelRow) :=
  (standing m, mr_provider_name m, mr_is_remote m, mr_available m, mr_unavailable_reason m).

Lemma retire_standing disabled seen kinds m :
  standing (retire disabled seen kinds m) = standing m /\ mr_canonical_id (retire disabled seen kinds m) = mr_canonical_id m /\
  mr_provider_name (retire disabled seen kinds m) = mr_provider_name m /\ identity_of_model (retire disabled seen kinds m) = identity_of_model m.
Proof. unfold retire. by destruct (retirement disabled seen kinds m). Qed.

(** Re-binding writes digests, canonical ids and confidences only. *)
Lemma rebind_shows {K} (f : ModelRow -> K) adapters order models rows o :
  (forall digest canonical m, f (upgrade_row digest canonical m) = f m) ->
  map f (fold_left (rebind_row adapters) order (models, rows, o)).1.1 = map f models.
Proof.
  intros Hf. induction order as [|[k r] order IH] in models, rows, o |- *; cbn [fold_left]; [done|].
  unfold rebind_row at 2. destruct (apply_upgrade _ _ models) as [models1 up] eqn:E. rewrite IH.
  unfold apply_upgrade in E. destruct (bi_upgrade_model_id _); [|by injection E as <- _]. destruct (bi_upgrade_digest _); [|by injection E as <- _].
  destruct (find_first _ models); [|by injection E as <- _]. destruct (bool_decide _); injection E as <- _; [|done].
  rewrite List.map_map. apply List.map_ext. intros m0. by case_bool_decide.
Qed.

Lemma upgrade_identities adapters models i canonical :
  NoDup (map mr_id models) -> NoDup (map identity_of_model models) ->
  NoDup (map identity_of_model (apply_upgrade (bind_identity i (map local_model models) adapters) canonical models).1).
Proof.
  intros Hn Hi. destruct (decide (no_upgrade adapters models i)) as [Hno|Hup].
  { pose proof (apply_upgrade_spec adapters models i canonical Hn) as Hs. destruct (apply_upgrade _ _ _) as [models' up].
    by destruct Hs as (_ & _ & Hs), (Hs Hno) as [-> _]. }
  pose proof Hup as Hup'. rewrite no_upgrade_iff, no_base_upgrade in Hup'. unfold no_upgrade in Hup. set (b := bind_identity i (map local_model models) adapters) in *.
  destruct (bi_upgrade_model_id b) as [id|] eqn:Eid; [|done].
  destruct (upgrade_target i (map local_model models) adapters id Eid) as (row & digest & Hin & Hname & Hd & Hid & Edig & Ei). fold b in Edig.
  apply list_elem_of_fmap in Hin as (m & -> & Hm). cbn in Hid, Hd. unfold apply_upgrade. rewrite Eid, Edig.
  assert (Hfind : find_first (fun m => bool_decide (mr_id m = id)) models = Some m).
  { destruct (find_first _ models) as [m0|] eqn:Ef.
    - apply find_first_Some in Ef as [Hm0 Hid0%bool_decide_eq_true]. f_equal. apply (NoDup_map_inj mr_id models); [done..|congruence].
    - pose proof (proj1 (find_first_None _ _) Ef m Hm) as Hf. by apply bool_decide_eq_false in Hf. }
  rewrite Hfind, bool_decide_eq_true_2 by done. cbn [fst].
  assert (Hmap : map (fun m0 => if bool_decide (mr_id m0 = id) then upgrade_row digest canonical m0 else m0) models =
                 map (fun m0 => if bool_decide (mr_id m0 = mr_id m) then upgrade_row digest canonical m else m0) models).
  { apply map_ext_in. intros m0 Hm0. rewrite <- Hid. case_bool_decide as E; [|done]. f_equal. rewrite <- list_elem_of_In in Hm0.
    exact (NoDup_map_inj mr_id models m0 m Hn Hm0 Hm E). }
  rewrite Hmap. apply identities_put; try done. right. intros Hbad. apply list_elem_of_fmap in Hbad as (m0 & E0 & Hm0). apply Hup'. right. right. left.
  exists (local_model m0). split; [apply list_elem_of_fmap; by exists m0|]. unfold identity_of_model in E0. cbn in E0. injection E0 as Ek En Ed.
  unfold same_name in *. rewrite andb_true_iff, !bool_decide_eq_true in *. cbn in *. rewrite <- Ek, <- En, <- Ed, Ei. tauto.
Qed.

Lemma rebind_identities adapters order models rows o :
  NoDup (map mr_id models) -> NoDup (map identity_of_model models) ->
  NoDup (map identity_of_model (fold_left (rebind_row adapters) order (models, rows, o)).1.1).
Proof.
  induction order as [|[k r] order IH] in models, rows, o |- *; cbn [fold_left]; [done|]. intros Hn Hi.
  unfold rebind_row at 2. pose proof (upgrade_identities adapters models (identity_of_row r) (er_canonical_id r) Hn Hi) as Hi1.
  pose proof (apply_upgrade_spec adapters models (identity_of_row r) (er_canonical_id r) Hn) as Hs.
  destruct (apply_upgrade _ _ models) as [models1 up]. apply IH; [|done]. destruct Hs as (Href & _). by rewrite (refines_ids _ _ Href).
Qed.

Lemma rebind_models d : rg_models (rebind_in d).1 =
  (fold_left (rebind_row (ed_adapters (rg_db d))) (map_to_list (ed_rows (rg_db d)))
     (rg_models d, ed_rows (rg_db d), mkRebindOutcome 0 0 0 (zlen (map_to_list (ed_rows (rg_db d)))))).1.1.
Proof.
  unfold rebind_in, rebind_evidence, rg_models. cbn [fst rg_db]. rewrite rebind_rows_fold. by destruct (fold_left _ _ _) as [[models rows] o].
Qed.

(** What a pass leaves of the rows [mid] the sightings wrote. *)
Lemma pass_spec listed disabled now d :
  registry_ok d -> exists d' s n mid,
    pass_body listed disabled now d = (d', Ok (s, n)) /\ registry_ok d' /\ recorded (by_descriptor listed) (rg_models d) mid /\
    map shown (rg_models d') = map (fun m => shown (retire disabled (list_to_set (map (fun rx => de_canonical_id rx.2) (by_descriptor listed)))
      (list_to_set (map (fun rl => re_kind rl.1) listed)) m)) mid /\
    pa_added s + pa_updated s = zlen (by_descriptor listed).
Proof.
  intros Hok. destruct (discover_all_spec now (by_descriptor listed) (mkPass ∅ 0 0) d Hok) as (d1 & s & Hrun & Hok1 & Hrec & Hseen & Hcount & _).
  set (seen := list_to_set (map (fun rx => de_canonical_id rx.2) (by_descriptor listed)) : gset string). set (kinds := list_to_set (map (fun rl => re_kind rl.1) listed) : gset string).
  assert (Hs : pa_seen s = seen) by (rewrite Hseen; unfold seen; set_solver).
  set (d2 := with_models (map (retire disabled seen kinds) (rg_models d1)) d1).
  assert (Hbody : exists n, pass_body listed disabled now d = ((rebind_in d2).1, Ok (s, n))).
  { eexists. unfold pass_body. rewrite prog_bind_run, Hrun, prog_bind_run, Hs. reflexivity. }
  destruct Hbody as [n Hbody].
  exists (rebind_in d2).1, s, n, (rg_models d1). split; [exact Hbody|]. destruct Hok1 as (Hn1 & Hi1 & Hf1).
  assert (Hm2 : rg_models d2 = map (retire disabled seen kinds) (rg_models d1)) by done.
  assert (Hids2 : map mr_id (rg_models d2) = map mr_id (rg_models d1)).
  { rewrite Hm2, List.map_map. apply List.map_ext. intros m. destruct (retire_standing disabled seen kinds m) as (E & _). unfold standing in E. by injection E. }
  assert (Hi2 : map identity_of_model (rg_models d2) = map identity_of_model (rg_models d1)).
  { rewrite Hm2, List.map_map. apply List.map_ext. intros m. apply retire_standing. }
  assert (Hids : map mr_id (rg_models (rebind_in d2).1) = map mr_id (rg_models d1)) by (rewrite rebind_models, rebind_shows; done).
  split; [|split; [exact Hrec|split]].
  - split; [by rewrite Hids|]. split.
    + rewrite rebind_models. apply rebind_identities; [by rewrite Hids2|by rewrite Hi2].
    + by rewrite Hids.
  - rewrite rebind_models, rebind_shows by done. by rewrite Hm2, List.map_map.
  - cbn in Hcount. lia.
Qed.

(** ** Lemmas: a whole discovery *)

(** The registrations that answered, with what they listed; those that could not be listed. *)
Definition listed_of (listings : list (Registration * Listing)) : list (Registration * list Descriptor) :=
  omap (fun rl : Registration * Listing => match rl.2 with Listed xs => Some (rl.1, xs) | _ => None end) listings.
Definition unlisted_of (listings : list (Registration * Listing)) : list (string * exn) :=
  omap (fun rl : Registration * Listing => match rl.2 with Unlisted e => Some (re_name rl.1, e) | _ => None end) listings.

Lemma gather_spec listings :
  (gather listings = Ok (listed_of listings, unlisted_of listings)) \/ (exists r e, gather listings = Raise e /\ (r, ListingBroke e) ∈ listings).
Proof.
  induction listings as [|[r l] listings IH]; [by left|]. destruct l as [xs|e|e]; cbn [gather].
  - destruct IH as [->|(r' & e & -> & Hin)]; [by left|]. right. exists r', e. split; [done|by right].
  - destruct IH as [->|(r' & e' & -> & Hin)]; [by left|]. right. exists r', e'. split; [done|by right].
  - right. exists r, e. split; [done|left].
Qed.

Lemma listed_of_elem listings r xs : (r, xs) ∈ listed_of listings <-> (r, Listed xs) ∈ listings.
Proof.
  unfold listed_of. rewrite list_elem_of_omap. split.
  - intros ([r' [xs'|e|e]] & Hin & E); cbn in E; [|done..]. by injection E as -> ->.
  - intros Hin. by exists (r, Listed xs).
Qed.

Lemma unlisted_of_elem listings n e : (n, e) ∈ unlisted_of listings <-> exists r, re_name r = n /\ (r, Unlisted e) ∈ listings.
Proof.
  unfold unlisted_of. rewrite list_elem_of_omap. split.
  - intros ([r' [xs'|e'|e']] & Hin & E); cbn in E; [done| |done]. injection E as <- ->. by exists r'.
  - intros (r & <- & Hin). by exists (r, Unlisted e).
Qed.

(** What a discovery retires. *)
Definition left_by (listings : list (Registration * Listing)) (disabled : list string) : ModelRow -> ModelRow :=
  retire (list_to_set disabled) (list_to_set (map (fun rx => de_canonical_id rx.2) (by_descriptor (listed_of listings))))
    (list_to_set (map (fun rl => re_kind rl.1) (listed_of listings))).

Lemma discover_cases listings disabled now principal d :
  registry_ok d ->
  (exists e, discover_models listings disabled now principal d = (d, Raise e) /\
     (authorize principal "admin" = Raise e \/ (exists r, (r, ListingBroke e) ∈ listings) \/
      (listed_of listings = [] /\ exists r, (r, Unlisted e) ∈ listings))) \/
  (exists d' o mid, discover_models listings disabled now principal d = (d', Ok o) /\ is_ok (authorize principal "admin") = true /\
     registry_ok d' /\ recorded (by_descriptor (listed_of listings)) (rg_models d) mid /\
     map shown (rg_models d') = map (fun m => shown (left_by listings disabled m)) mid /\
     di_added o + di_updated o = di_total o /\ di_total o = zlen (by_descriptor (listed_of listings)) /\
     di_unreachable o = map fst (unlisted_of listings)).
Proof.
  intros Hok. unfold discover_models. rewrite prog_bind_run. cbn [lift].
  destruct (authorize principal "admin") as [p|e]; [|left; exists e; auto].
  rewrite prog_bind_run. cbn [lift]. destruct (gather_spec listings) as [->|(r & e & -> & Hin)]; [|left; exists e; split; [done|]; right; left; by exists r].
  assert (Hpass : exists d' o mid,
    ('(s, unavailable) ← transaction (pass_body (listed_of listings) (list_to_set disabled) now);
     mret (mkDiscovery (pa_added s) (pa_updated s) unavailable (Z.of_nat (length (by_descriptor (listed_of listings)))) now (map fst (unlisted_of listings)))) d =
    (d', Ok o) /\ is_ok (Ok p) = true /\ registry_ok d' /\ recorded (by_descriptor (listed_of listings)) (rg_models d) mid /\
     map shown (rg_models d') = map (fun m => shown (left_by listings disabled m)) mid /\
     di_added o + di_updated o = di_total o /\ di_total o = zlen (by_descriptor (listed_of listings)) /\
     di_unreachable o = map fst (unlisted_of listings)).
  { destruct (pass_spec (listed_of listings) (list_to_set disabled) now d Hok) as (d' & s & n & mid & Hrun & Hok' & Hrec & Hshown & Hn).
    eexists d', _, mid. rewrite prog_bind_run. unfold transaction at 1. rewrite Hrun. split; [reflexivity|]. by split_and!. }
  destruct (listed_of listings) as [|l listed] eqn:El; [|by right]. destruct (unlisted_of listings) as [|[n e] rest] eqn:Eu; [by right|].
  left. exists e. split; [done|]. right. right. split; [done|].
  assert (Hin : (n, e) ∈ unlisted_of listings) by (rewrite Eu; left). apply unlisted_of_elem in Hin as (r & _ & Hin). by exists r.
Qed.

Lemma retired_available listings disabled m :
  mr_available (left_by listings disabled m) = mr_available m && bool_decide (retirement (list_to_set disabled)
    (list_to_set (map (fun rx => de_canonical_id rx.2) (by_descriptor (listed_of listings))))
    (list_to_set (map (fun rl => re_kind rl.1) (listed_of listings))) m = None).
Proof.
  unfold left_by, retire. destruct (retirement _ _ _ m) eqn:E; cbn; [by rewrite andb_false_r|by rewrite andb_true_r].
Qed.
End theory.

Module Properties.
Section properties.
Context `{Externals} `{!ExternalsLaws} `{Flags} {M : Type} `{Measurement M}.
#[local] Abbreviation Descriptor := (Descriptor (M := M)).
#[local] Abbreviation Listing := (Listing (M := M)).


(** Retirement goes by the kind of the provider: when one registration cannot be listed and another of the same kind answers, an
    available model of the first that the second does not list is retired as not reported, although the outcome names the first
    as unreachable, which it documents as leaving its models exactly as they were. *)
Theorem unreachable_siblings_retired (listings : list (Registration * Listing)) (disabled : list string) (now : Z) (principal : option Principal)
    (d d' : RegistryDb) (o : DiscoveryOutcome) (dead alive : Registration) (e : exn) (xs : list Descriptor) (m : ModelRow)
    (Hok : registry_ok d) (Hrun : discover_models listings disabled now principal d = (d', Ok o))
    (Hdead : (dead, Unlisted e) ∈ listings) (Halive : (alive, Listed xs) ∈ listings) (Hkind : re_kind alive = mr_provider_kind m)
    (Hm : m ∈ rg_models d) (Hav : mr_available m = true) (Hserved : mr_provider_name m = re_name dead) (Henabled : re_name dead ∉ disabled)
    (Hname : forall r x, (r, x) ∈ by_descriptor (listed_of listings) ->
       de_canonical_id x <> mr_canonical_id m /\ (de_provider_kind x = mr_provider_kind m -> de_provider_model_name x <> mr_provider_model_name m)) :
  re_name dead ∈ di_unreachable o /\
  exists m', m' ∈ rg_models d' /\ standing m' = standing m /\ mr_provider_name m' = re_name dead /\
    mr_available m' = false /\ mr_unavailable_reason m' = Some NOT_REPORTED.
Proof.
  destruct (discover_cases listings disabled now principal d Hok) as
    [(e' & E & _)|(d1 & o1 & mid & E & _ & _ & [Hkept _ _] & Hshown & _ & _ & Hun)]; rewrite Hrun in E; [done|]. injection E as <- <-.
  split.
  { rewrite Hun. apply list_elem_of_fmap. exists (re_name dead, e). split; [done|]. apply unlisted_of_elem. by exists dead. }
  destruct (Hkept m Hm) as (m1 & Hm1 & Hst & Hcase).
  assert (m1 = m) as ->.
  { destruct Hcase as [|(r & x & Hin & (Hident & _))]; [done|]. destruct (Hname r x Hin) as [_ Hno]. unfold standing in Hst. injection Hst as _ Hk Hn _.
    unfold identity_of_model, identity_of_descriptor in Hident. injection Hident as Hk' Hn' _. destruct Hno; congruence. }
  assert (Hret : left_by listings disabled m = set_unavailable NOT_REPORTED m).
  { unfold left_by, retire, retirement. rewrite Hav. cbn [negb]. rewrite bool_decide_eq_false_2 by (rewrite elem_of_list_to_set; congruence).
    rewrite bool_decide_eq_false_2.
    - rewrite bool_decide_eq_true_2; [done|]. apply elem_of_list_to_set, list_elem_of_fmap. exists (alive, xs). split; [done|]. by apply listed_of_elem.
    - rewrite elem_of_list_to_set. intros Hbad. apply list_elem_of_fmap in Hbad as ([r x] & Ec & Hin). by destruct (Hname r x Hin). }
  assert (Hin : shown (set_unavailable NOT_REPORTED m) ∈ map shown (rg_models d')).
  { rewrite Hshown, <- Hret. apply list_elem_of_fmap. by exists m. }
  apply list_elem_of_fmap in Hin as (m' & Es & Hm'). exists m'. unfold shown in Es. cbn in Es. injection Es as Eid Ekind Ename Een Epn _ Eav Ewhy.
  split_and!; [done| |congruence..]. unfold standing. congruence.
Qed.
End properties.

(** Two machines of one kind, one of them down; it serves the only model known. *)
#[local] Instance sample_flags : Flags := {| Flag := bool; flag_value b := if b then "structured_output" else "tools"; TOOLS := false; STRUCTURED_OUTPUT := true |}.
Definition sample_descriptor (name : string) (digest : option string) (canonical : string) : Descriptor (M := option Z) :=
  mkDescriptor "ollama" name digest canonical "name" (Some 4096) None None None None (fun _ => None) [false].
Definition desk : Registration := mkRegistration "desk" "ollama" false.
Definition rack : Registration := mkRegistration "rack" "ollama" false.
Definition empty_registry : RegistryDb := mkRegistry (mkEvidenceDb [] [] ∅ []) ∅ ∅ 0.
Definition discovered (listings : list (Registration * Listing (M := option Z))) (d : RegistryDb) : RegistryDb :=
  (discover_models listings [] 1 None d).1.
Definition known_registry : RegistryDb := discovered [(desk, Listed [sample_descriptor "m" None "ollama:m"])] empty_registry.
Definition half_down : list (Registration * Listing (M := option Z)) := [(desk, Unlisted (OtherException (Some "PROVIDER_UNAVAILABLE"))); (rack, Listed [sample_descriptor "n" None "ollama:n"])].

Lemma empty_registry_ok : registry_ok empty_registry.
Proof. split; [constructor|]. split; [constructor|]. intros k _. apply not_elem_of_nil. Qed.

Lemma known_registry_ok : registry_ok known_registry.
Proof.
  unfold known_registry, discovered. destruct (discover_cases [(desk, Listed [sample_descriptor "m" None "ollama:m"])] [] 1 None _ empty_registry_ok)
    as [(e & -> & _)|(d' & o & mid & -> & _ & Hok & _)]; [exact empty_registry_ok|exact Hok].
Qed.


Lemma unreachable_siblings_retired_witness : exists d' o m',
  discover_models half_down [] 2 None known_registry = (d', Ok o) /\ m' ∈ rg_models d' /\ "desk" ∈ di_unreachable o /\
  mr_provider_name m' = "desk" /\ mr_available m' = false.
Proof.
  destruct (discover_models half_down [] 2 None known_registry) as [d' [o|e]] eqn:E; [|vm_compute in E; discriminate].
  destruct (rg_models known_registry) as [|m [|]] eqn:Em; [discriminate| |discriminate].
  assert (Hm : m = discovered_row (new_id 0) "desk" false true "ollama" "m" (sample_descriptor "m" None "ollama:m")) by (vm_compute in Em; by injection Em as <-).
  destruct (unreachable_siblings_retired half_down [] 2 None known_registry d' o desk rack (OtherException (Some "PROVIDER_UNAVAILABLE")) [sample_descriptor "n" None "ollama:n"] m
    known_registry_ok E) as (Hun & m' & Hm' & _ & Hn & Hav & _).
  all: try (subst m; reflexivity).
  - left.
  - right. left.
  - rewrite Em. left.
  - apply not_elem_of_nil.
  - intros r x Hin. change (by_descriptor _) with [(rack, sample_descriptor "n" None "ollama:n")] in Hin.
    apply list_elem_of_singleton in Hin as [= -> ->]. subst m. split; discriminate.
  - exists d', o, m'. by split_and!.
Defined.

(** A provider that reports no digests, and imported evidence that knows the model's digest: the first pass writes the
    digest into the row, the second does not recognise its own row, so it registers the model again and retires the row
    the evidence is bound to. *)
Definition name_only_pass : list (Registration * Listing (M := option Z)) := [(desk, Listed [sample_descriptor "m" None "ollama:m"])].
Definition measured_registry : RegistryDb :=
  let r := mkEvidenceRow (mkCandidate "e1" "coding" "h1" "here" "1.0.0" 0 (flit 9 10) (flit 8 10) 40 [] None) None None "unmatched" false None
             "ollama" "m" (Some "sha") "ollama:m@sha" None "" "s1" "1.0.0" 0 0 JNull in
  mkRegistry (mkEvidenceDb [] [] {[ row_key r := r ]} []) ∅ ∅ 0.

Theorem evidence_orphaned_by_discovery :
  let d1 := discovered name_only_pass measured_registry in
  let d2 := discovered name_only_pass d1 in
  map (fun m => (mr_id m, mr_artifact_digest m, mr_available m)) (rg_models d1) = [(new_id 0, Some "sha", true)] /\
  map (fun m => (mr_id m, mr_artifact_digest m, mr_available m)) (rg_models d2) =
    [(new_id 0, Some "sha", false); (new_id 1, None, true)] /\
  map (fun kr => (er_match_state kr.2, er_model_id kr.2)) (map_to_list (ed_rows (rg_db d2))) = [("bound", Some (new_id 0))].
Proof. vm_compute. done. Qed.
End Properties.
