(* ===== verification/Adapters.v ===== *)
(** * The adapter registry ([infrastructure/adapters/directory.py], [services/adapters.py])

    Reading the operator's directory of reviewed manifests, its projection into the [adapters] table with the
    re-binding of evidence, the overview with what each provider reports, and the overview of the registry.
    The directory is a snapshot of what the file system answers; the envelope format and the manifest contract are
    third-party: a class. A reason is a constructor where the code writes a sentence. *)

From Stdlib Require Import Ascii String.
From S2P Require Import Prelude PyFloat PyStr Json Ordering Authorization EvidencePolicy Reliability CircuitBreaker Subject Candidates JobEvents QueueStore EvidenceStore EvidenceImport EvidenceRebind ReliabilityService Registry.
From S2P Require Residency.
#[local] Open Scope string_scope.
#[local] Open Scope list_scope.
#[local] Open Scope Z_scope.

Definition MANIFEST_SUFFIX : string := ".manifest.json".
Definition DRAFT_SUFFIX : string := ".manifest.draft.json".
Definition ARTIFACT_SUFFIX : string := ".gguf".

(** [s.removesuffix(p)], and whether there was one. *)
Definition drop_suffix (p s : string) : option string := string_rev <$> drop_prefix (string_rev p) (string_rev s).
Definition ends_with (p s : string) : bool := bool_decide (is_Some (drop_suffix p s)).
Definition removesuffix (p s : string) : string := default s (drop_suffix p s).

(** [Path(name).stem] of an artifact's name. *)
Definition stem (name : string) : string := if bool_decide (name = ARTIFACT_SUFFIX) then name else removesuffix ARTIFACT_SUFFIX name.

(** The fields of a validated [model.adapter_manifest]. *)
Record Manifest := mkManifest {
  ma_name : string;
  ma_artifact_file : string;
  ma_artifact_sha256 : string;
  ma_source_sha256 : option string;
  ma_base_model_name : string;
  ma_base_artifact_digest : option string;
  ma_base_confidence : string;
  ma_declared_capabilities : list string;
  ma_data_classification : string;
  ma_notes : option string
}.

Class ManifestFormat := {
  Envelope : Type;
  load_envelope : string -> option Envelope;
  envelope_payload : Envelope -> json;
  validate_manifest : json -> option Manifest
}.

(** What the file system answers about one directory: its file names, and for a name in it the path as globbed, the resolved
    path of a file the manifest names, whether that is a file, the bytes and the digest. [None] is an [OSError]. *)
Record Disk := mkDisk {
  dk_is_dir : bool;
  dk_names : list string;
  dk_path : string -> string;
  dk_resolve : string -> string;
  dk_is_file : string -> bool;
  dk_bytes : string -> option string;
  dk_sha256 : string -> option string
}.

Inductive UnavailableReason :=
| ArtifactMissing (file : string)
| ArtifactUnhashable
| ArtifactChanged (file actual recorded : string)
| NoLongerNamed.

Inductive ManifestProblem := CouldNotRead | BadEnvelope | BadPayload.

Record AdapterEntry := mkAdapterEntry {
  ae_name : string;
  ae_manifest_path : string;
  ae_artifact_path : string;
  ae_artifact_sha256 : string;
  ae_source_sha256 : option string;
  ae_base_model_name : string;
  ae_base_artifact_digest : option string;
  ae_base_confidence : string;
  ae_declared_capabilities : list string;
  ae_data_classification : string;
  ae_notes : option string;
  ae_payload : json;
  ae_available : bool;
  ae_unavailable_reason : option UnavailableReason
}.

Record DirectoryReading := mkReading {
  rd_entries : list AdapterEntry;
  rd_invalid : list (string * ManifestProblem);
  rd_drafts : list string;
  rd_unmanifested : list string
}.

Section directory.
Context `{ManifestFormat}.

(** [sorted(directory.glob("*" + suffix))]: names in the order of the paths. *)
Definition glob (disk : Disk) (suffix : string) : list string :=
  py_sorted (leb_of String.compare) (List.filter (ends_with suffix) (dk_names disk)).

Definition entry_of (path artifact_path : string) (m : Manifest) (payload : json) (reason : option UnavailableReason) : AdapterEntry :=
  mkAdapterEntry (ma_name m) path artifact_path (ma_artifact_sha256 m) (ma_source_sha256 m) (ma_base_model_name m) (ma_base_artifact_digest m)
    (ma_base_confidence m) (ma_declared_capabilities m) (ma_data_classification m) (ma_notes m) payload (bool_decide (reason = None)) reason.

(** Why the artifact a manifest names cannot be served. *)
Definition artifact_problem (disk : Disk) (m : Manifest) : option UnavailableReason :=
  let artifact_path := dk_resolve disk (ma_artifact_file m) in
  if negb (dk_is_file disk artifact_path) then Some (ArtifactMissing (ma_artifact_file m))
  else match dk_sha256 disk artifact_path with
       | None => Some ArtifactUnhashable
       | Some actual => if bool_decide (actual = ma_artifact_sha256 m) then None
                        else Some (ArtifactChanged (ma_artifact_file m) actual (ma_artifact_sha256 m))
       end.

Definition read_manifest (disk : Disk) (name : string) : AdapterEntry + ManifestProblem :=
  match dk_bytes disk name with
  | None => inr CouldNotRead
  | Some raw =>
      match load_envelope raw with
      | None => inr BadEnvelope
      | Some envelope =>
          match validate_manifest (envelope_payload envelope) with
          | None => inr BadPayload
          | Some m => inl (entry_of (dk_path disk name) (dk_resolve disk (ma_artifact_file m)) m (envelope_payload envelope) (artifact_problem disk m))
          end
      end
  end.

Definition manifest_names (disk : Disk) : list string :=
  List.filter (fun name => negb (ends_with DRAFT_SUFFIX name)) (glob disk MANIFEST_SUFFIX).

Definition by_name : AdapterEntry -> AdapterEntry -> bool := leb_of (cmp_on ae_name String.compare).

Definition read_directory (disk : Disk) : DirectoryReading :=
  if negb (dk_is_dir disk) then mkReading [] [] [] []
  else
    let readings := map (fun name => (name, read_manifest disk name)) (manifest_names disk) in
    let entries := omap (fun nr => match nr.2 with inl e => Some e | inr _ => None end) readings in
    let invalid := omap (fun nr => match nr.2 with inl _ => None | inr p => Some (dk_path disk nr.1, p) end) readings in
    let claimed := map ae_artifact_path entries in
    let drafts := glob disk DRAFT_SUFFIX in
    let drafted_stems := map (removesuffix DRAFT_SUFFIX) drafts in
    let unmanifested := List.filter (fun name => negb (bool_decide (dk_path disk name ∈ claimed)) && negb (bool_decide (stem name ∈ drafted_stems)))
                          (glob disk ARTIFACT_SUFFIX) in
    mkReading (py_sorted by_name entries) invalid (map (dk_path disk) drafts) (map (dk_path disk) unmanifested).

(** [registrations_from]: what may be offered to a provider. *)
Definition registrations_from (entries : list AdapterEntry) : list AdapterEntry := List.filter ae_available entries.

Inductive SkipReason := AlreadyManifested | AlreadyDrafted | CouldNotHash.

(** [draft_manifests]: the drafts written (target, artifact, digest), and the artifacts left alone. *)
Definition draft_one (manifested drafted_stems : list string) (disk : Disk) (name : string) : (string * string * string) + (string * SkipReason) :=
  if bool_decide (dk_resolve disk name ∈ manifested) then inr (dk_path disk name, AlreadyManifested)
  else if bool_decide (stem name ∈ drafted_stems) then inr (dk_path disk name, AlreadyDrafted)
  else match dk_sha256 disk (dk_resolve disk name) with
       | None => inr (dk_path disk name, CouldNotHash)
       | Some digest => inl (stem name +:+ DRAFT_SUFFIX, name, digest)
       end.

Definition draft_manifests (disk : Disk) : result (list (string * string * string) * list (string * SkipReason)) :=
  if negb (dk_is_dir disk) then Raise (OtherException None)
  else
    let reading := read_directory disk in
    let outcomes := map (draft_one (map ae_artifact_path (rd_entries reading)) (map (removesuffix DRAFT_SUFFIX) (glob disk DRAFT_SUFFIX)) disk)
                      (glob disk ARTIFACT_SUFFIX) in
    Ok (omap (fun o => match o with inl x => Some x | inr _ => None end) outcomes,
        omap (fun o => match o with inl _ => None | inr x => Some x end) outcomes).

(** ** The table *)

Record AdapterRecord := mkAdapter {
  ad_id : string;
  ad_name : string;
  ad_artifact_sha256 : string;
  ad_source_sha256 : option string;
  ad_artifact_path : string;
  ad_manifest_path : string;
  ad_base_model_name : string;
  ad_base_artifact_digest : option string;
  ad_base_identity_confidence : string;
  ad_declared_capabilities : list string;
  ad_data_classification : string;
  ad_manifest : json;
  ad_created_at : Z;
  ad_first_seen_at : Z;
  ad_last_seen_at : Z;
  ad_available : bool;
  ad_unavailable_reason : option UnavailableReason
}.

(** The table with the evidence it is bound against; rows in the order of insertion. *)
Record AdapterDb := mkAdapterDb { an_rows : list AdapterRecord; an_evidence : EvidenceDb; an_ids : nat }.

Definition projected (id : string) (created_at first_seen_at now : Z) (e : AdapterEntry) : AdapterRecord :=
  mkAdapter id (ae_name e) (ae_artifact_sha256 e) (ae_source_sha256 e) (ae_artifact_path e) (ae_manifest_path e) (ae_base_model_name e)
    (ae_base_artifact_digest e) (ae_base_confidence e) (ae_declared_capabilities e) (ae_data_classification e) (ae_payload e)
    created_at first_seen_at now (ae_available e) (ae_unavailable_reason e).

Context `{Externals}.

(** The upsert on [artifact_sha256], which keeps [created_at] and [first_seen_at]. *)
Definition upsert_adapter (now : Z) (s : list AdapterRecord * nat) (e : AdapterEntry) : list AdapterRecord * nat :=
  if existsb (fun r => bool_decide (ad_artifact_sha256 r = ae_artifact_sha256 e)) s.1
  then (map (fun r => if bool_decide (ad_artifact_sha256 r = ae_artifact_sha256 e)
                      then projected (ad_id r) (ad_created_at r) (ad_first_seen_at r) now e else r) s.1, s.2)
  else (s.1 ++ [projected (new_id s.2) now now now e], S s.2).

Definition withdraw (seen : list string) (r : AdapterRecord) : AdapterRecord :=
  if negb (bool_decide (ad_artifact_sha256 r ∈ seen)) && ad_available r
  then mkAdapter (ad_id r) (ad_name r) (ad_artifact_sha256 r) (ad_source_sha256 r) (ad_artifact_path r) (ad_manifest_path r) (ad_base_model_name r)
         (ad_base_artifact_digest r) (ad_base_identity_confidence r) (ad_declared_capabilities r) (ad_data_classification r) (ad_manifest r)
         (ad_created_at r) (ad_first_seen_at r) (ad_last_seen_at r) false (Some NoLongerNamed)
  else r.

Definition local_adapter (r : AdapterRecord) : LocalAdapter := mkLocalAdapter (ad_id r) (ad_artifact_sha256 r) (ad_name r).

(** The store evidence is bound against: every adapter row, available or not. *)
Definition bound_against (rows : list AdapterRecord) (d : EvidenceDb) : EvidenceDb :=
  mkEvidenceDb (ed_models d) (map local_adapter rows) (ed_rows d) (ed_sources d).

(** [sync_adapters], with [None] for an unset directory. *)
Definition sync_adapters (directory : option Disk) (now : Z) (d : AdapterDb) : AdapterDb * Z :=
  match directory with
  | None => (d, 0)
  | Some disk =>
      let reading := read_directory disk in
      let '(rows, ids) := fold_left (upsert_adapter now) (rd_entries reading) (an_rows d, an_ids d) in
      let rows' := map (withdraw (map ae_artifact_sha256 (rd_entries reading))) rows in
      (mkAdapterDb rows' (rebind_evidence (bound_against rows' (an_evidence d))).1 ids, zlen (rd_entries reading))
  end.

(** The table as routing reads it: by name. *)
Definition facts_of_row (r : AdapterRecord) : AdapterFacts :=
  mkAdapterFacts (ad_id r) (ad_name r) (ad_artifact_sha256 r) (ad_base_model_name r) (ad_base_artifact_digest r)
    (ad_base_identity_confidence r) (ad_declared_capabilities r) (ad_data_classification r).
Definition stored_adapters (rows : list AdapterRecord) : list AdapterRow :=
  map (fun r => mkAdapterRow (facts_of_row r) (ad_available r)) (py_sorted (leb_of (cmp_on ad_name String.compare)) rows).
Definition routable (d : AdapterDb) : list (string * list AdapterFacts) := adapter_facts_by_base_name (stored_adapters (an_rows d)).

(** ** What a person reads *)

(** What [list_adapters] of a registration did: [None] is a refusal. *)
Definition AdapterStates : Type := list (string * option (list (string * string * option string))).

Record AdapterView := mkAdapterView {
  av_entry : AdapterEntry;
  av_registered_on : list string;
  av_pending_on : list string;
  av_provider_notes : list (string * string)
}.

(** [_states_by_adapter]: (adapter, registration, status, reason) in the order reported. *)
Definition states_by_adapter (registrations : AdapterStates) : list (string * (string * string * string)) :=
  List.concat (map (fun r => match r.2 with
                        | None => []
                        | Some states => map (fun s : string * string * option string => (s.1.1, (r.1, s.1.2, default "" s.2))) states
                        end) registrations).

Definition view_of (states : list (string * (string * string * string))) (e : AdapterEntry) : AdapterView :=
  let reported := omap (fun s => if bool_decide (s.1 = ae_name e) then Some s.2 else None) states in
  mkAdapterView e
    (map (fun s => s.1.1) (List.filter (fun s => bool_decide (s.1.2 = "registered")) reported))
    (map (fun s => s.1.1) (List.filter (fun s => bool_decide (s.1.2 = "pending_restart")) reported))
    (map (fun s => (s.1.1, s.2)) reported).

Record AdapterOverview := mkAdapterOverview {
  ao_adapters : list AdapterView;
  ao_invalid : list (string * ManifestProblem);
  ao_drafts : list string;
  ao_unmanifested : list string
}.

Definition AdaptersDisabled : exn := OtherException (Some "CONFIGURATION_ERROR").

Definition adapter_overview (directory : option Disk) (registrations : AdapterStates) (principal : option Principal) : result AdapterOverview :=
  _ ← authorize principal "read";
  match directory with
  | None => Raise AdaptersDisabled
  | Some disk =>
      let reading := read_directory disk in
      Ok (mkAdapterOverview (map (view_of (states_by_adapter registrations)) (rd_entries reading)) (rd_invalid reading) (rd_drafts reading)
            (rd_unmanifested reading))
  end.

Definition show_adapter (name : string) (directory : option Disk) (registrations : AdapterStates) (principal : option Principal) : result AdapterView :=
  overview ← adapter_overview directory registrations principal;
  match find_first (fun v => bool_decide (ae_name (av_entry v) = name)) (ao_adapters overview) with
  | Some v => Ok v
  | None => Raise (AdapterNotFound name (map (fun v => ae_name (av_entry v)) (ao_adapters overview)))
  end.

Definition scan_adapters (directory : option Disk) (principal : option Principal)
  : result (list (string * string * string) * list (string * SkipReason)) :=
  _ ← authorize principal "admin";
  match directory with None => Raise AdaptersDisabled | Some disk => draft_manifests disk end.
End directory.

(** ** The registry overview ([services/models.py]) *)

Record Coverage := mkCoverage { cv_bound : Z; cv_capabilities : Z; cv_stale : Z; cv_unmatched : Z }.

(** One row of the grouped query: the rows of a model with one match state and one staleness. *)
Definition group_of (model_id match_state : string) (stale : bool) (rows : list EvidenceRow) : list EvidenceRow :=
  List.filter (fun r => bool_decide (er_model_id r = Some model_id) && bool_decide (er_match_state r = match_state) && Bool.eqb (er_stale r) stale) rows.

Definition distinct_capabilities (rows : list EvidenceRow) : Z := Z.of_nat (size (list_to_set (map (fun r => ec_capability_id (er_candidate r)) rows) : gset string)).

Definition evidence_coverage (rows : list EvidenceRow) (model_id : string) : Coverage :=
  let fresh := group_of model_id "bound" false rows in
  let stale := group_of model_id "bound" true rows in
  mkCoverage (zlen fresh + zlen stale) (Z.max (distinct_capabilities fresh) (distinct_capabilities stale)) (zlen stale)
    (countb (fun r => bool_decide (er_model_id r = Some model_id) && negb (bool_decide (er_match_state r = "bound"))) rows).

Record ReliabilitySummary := mkReliabilitySummary {
  ry_pairs : Z;
  ry_attempts_7d : Z;
  ry_lowest_factor : option f64;
  ry_regressions : Z;
  ry_circuit_state : BreakerState
}.

Definition no_reliability : ReliabilitySummary := mkReliabilitySummary 0 0 None 0 CLOSED.

Definition summarise (s : ReliabilitySummary) (e : ReliabilityEntry) : result ReliabilitySummary :=
  match re_windows e !! "7d" with
  | None => Raise KeyError
  | Some w =>
      Ok (mkReliabilitySummary (ry_pairs s + 1) (ry_attempts_7d s + counted w)
            (if rf_neutral (re_factor e) then ry_lowest_factor s
             else Some (match ry_lowest_factor s with None => rf_value (re_factor e) | Some lowest => Z.min lowest (rf_value (re_factor e)) end))
            (ry_regressions s + if regressed (re_regression e) then 1 else 0)
            (if bool_decide (re_circuit_state e = CLOSED) then ry_circuit_state s else re_circuit_state e))
  end.

Fixpoint reliability_summary (model_id : string) (reports : list ReliabilityEntry) (s : ReliabilitySummary) : result ReliabilitySummary :=
  match reports with
  | [] => Ok s
  | e :: rest => s' ← (if bool_decide (re_model_id e = model_id) then summarise s e else Ok s); reliability_summary model_id rest s'
  end.

(** The devices a model is resident on. *)
Definition resident_on (residency : list Residency.ResidencyRow) (model_id : string) : list Z :=
  py_sorted Z.leb (map Residency.rr_gpu_index (List.filter (fun r => Residency.rr_resident r && bool_decide (Residency.rr_model_id r = model_id)) residency)).

Record AdapterSubject := mkAdapterSubject {
  as_name : string;
  as_subject_canonical_id : string;
  as_evidence_source : string;
  as_provider_name : option string;
  as_available : bool;
  as_unavailable_reason : option UnavailableReason
}.

Definition adapter_views `{Profiles} (base_canonical_id provider_model_name provider_name : string) (rows : list AdapterRecord) : list AdapterSubject :=
  map (fun r => mkAdapterSubject (ad_name r) (subject_id_of base_canonical_id (Some (ad_name r, ad_artifact_sha256 r)))
                  (match ad_declared_capabilities r with [] => "absent" | _ => "declared" end)
                  (if bool_decide (provider_name = "") then None else Some provider_name) (ad_available r) (ad_unavailable_reason r))
    (List.filter (fun r => bool_decide (ad_base_model_name r = provider_model_name)) (py_sorted (leb_of (cmp_on ad_name String.compare)) rows)).

(** ** Lemmas: strings and lists *)

Lemma find_first_app {A} (p : A -> bool) l k : find_first p (l ++ k) = match find_first p l with Some x => Some x | None => find_first p k end.
Proof. induction l as [|x l IH]; [done|]. cbn [app]. rewrite !find_first_cons, IH. by destruct (p x). Qed.

Lemma find_first_map {A B} (p : B -> bool) (f : A -> B) l : find_first p (map f l) = f <$> find_first (fun x => p (f x)) l.
Proof. induction l as [|x l IH]; [done|]. cbn [map]. rewrite !find_first_cons, IH. by destruct (p (f x)). Qed.

Lemma find_first_ext {A} (p q : A -> bool) l : (forall x, x ∈ l -> p x = q x) -> find_first p l = find_first q l.
Proof.
  induction l as [|x l IH]; intros Hpq; [done|]. rewrite !find_first_cons, (Hpq x) by left. destruct (q x); [done|]. apply IH. intros y Hy. apply Hpq. by right.
Qed.

(** ** Lemmas: the directory *)

Section directory_theory.
Context `{ManifestFormat}.

(** What one reviewed manifest becomes. *)
Lemma read_manifest_inl disk name e :
  read_manifest disk name = inl e ->
  ae_manifest_path e = dk_path disk name /\
  (ae_available e = true <-> dk_is_file disk (ae_artifact_path e) = true /\ dk_sha256 disk (ae_artifact_path e) = Some (ae_artifact_sha256 e)) /\
  (ae_available e = true <-> ae_unavailable_reason e = None).
Proof.
  unfold read_manifest. intros E. destruct (dk_bytes disk name) as [raw|]; [|done]. destruct (load_envelope raw) as [env|]; [|done].
  destruct (validate_manifest (envelope_payload env)) as [m|]; [|done]. injection E as <-. cbn [entry_of ae_manifest_path ae_available ae_artifact_path ae_artifact_sha256 ae_unavailable_reason].
  split; [done|]. rewrite bool_decide_eq_true. split; [|done]. unfold artifact_problem.
  destruct (dk_is_file disk (dk_resolve disk (ma_artifact_file m))); cbn [negb]; [|naive_solver].
  destruct (dk_sha256 disk (dk_resolve disk (ma_artifact_file m))) as [actual|]; [|naive_solver]. case_bool_decide; naive_solver.
Qed.

Lemma entries_read disk e :
  e ∈ rd_entries (read_directory disk) -> exists name, name ∈ manifest_names disk /\ read_manifest disk name = inl e.
Proof.
  unfold read_directory. destruct (dk_is_dir disk); cbn [negb rd_entries]; [|by intros ?%elem_of_nil].
  rewrite py_sorted_perm, list_elem_of_omap. intros ([name r] & Hin & E). apply list_elem_of_fmap in Hin as (name' & [= -> ->] & Hin).
  exists name'. split; [done|]. cbn in E. destruct (read_manifest disk name'); [by injection E as ->|done].
Qed.

(** ** Lemmas: the upserts *)

Context `{Externals} `{!ExternalsLaws}.

Definition with_sha (k : string) (r : AdapterRecord) : bool := bool_decide (ad_artifact_sha256 r = k).
Definition row_of (k : string) (rows : list AdapterRecord) : option AdapterRecord := find_first (with_sha k) rows.

(** The last entry of a digest: the one whose columns stand. *)
Definition last_entry (k : string) (entries : list AdapterEntry) : option AdapterEntry :=
  find_first (fun e => bool_decide (ae_artifact_sha256 e = k)) (rev entries).

(** From [old] to [new] under one digest, in a pass at [now] that drew ids from [ids] on. *)
Definition row_step (now : Z) (ids : nat) (entry : option AdapterEntry) (old new : option AdapterRecord) : Prop :=
  match entry, old with
  | None, _ => new = old
  | Some e, Some r => new = Some (projected (ad_id r) (ad_created_at r) (ad_first_seen_at r) now e)
  | Some e, None => exists j, (ids <= j)%nat /\ new = Some (projected (new_id j) now now now e)
  end.

Lemma upsert_step now rows ids e k :
  let s := upsert_adapter now (rows, ids) e in
  (ids <= s.2)%nat /\ row_step now ids (if bool_decide (ae_artifact_sha256 e = k) then Some e else None) (row_of k rows) (row_of k s.1).
Proof.
  unfold upsert_adapter. cbn [fst snd]. destruct (existsb _ rows) eqn:Eex; cbn [fst snd].
  - split; [done|]. unfold row_of. rewrite find_first_map.
    rewrite (find_first_ext (fun r => with_sha k (if bool_decide (ad_artifact_sha256 r = ae_artifact_sha256 e)
                  then projected (ad_id r) (ad_created_at r) (ad_first_seen_at r) now e else r)) (with_sha k)).
    2: { intros r _. destruct (bool_decide (ad_artifact_sha256 r = ae_artifact_sha256 e)) eqn:E; [|done]. apply bool_decide_eq_true in E.
         unfold with_sha. cbn [projected ad_artifact_sha256]. by rewrite E. }
    case_bool_decide as Ek; cbn [row_step].
    + subst k. apply existsb_exists in Eex as (r0 & Hr0 & Hs0). destruct (find_first (with_sha (ae_artifact_sha256 e)) rows) as [r|] eqn:Ef.
      * apply find_first_Some in Ef as [_ Hs]. unfold with_sha in Hs. cbn [fmap option_fmap option_map]. by rewrite Hs.
      * rewrite <- list_elem_of_In in Hr0. pose proof (proj1 (find_first_None _ _) Ef r0 Hr0) as Hf. unfold with_sha in Hf. congruence.
    + destruct (find_first (with_sha k) rows) as [r|] eqn:Ef; [|done]. apply find_first_Some in Ef as [_ Hs]. unfold with_sha in Hs.
      apply bool_decide_eq_true in Hs. cbn [fmap option_fmap option_map]. rewrite bool_decide_eq_false_2; [done|congruence].
  - split; [lia|]. assert (Hno : forall r, r ∈ rows -> ad_artifact_sha256 r <> ae_artifact_sha256 e).
    { intros r Hr E. assert (Ht : existsb (fun r => bool_decide (ad_artifact_sha256 r = ae_artifact_sha256 e)) rows = true).
      { apply existsb_exists. exists r. rewrite <- list_elem_of_In. split; [done|by apply bool_decide_eq_true]. }
      congruence. }
    unfold row_of. rewrite find_first_app, find_first_cons. case_bool_decide as Ek; cbn [row_step].
    + subst k. assert (Hn : find_first (with_sha (ae_artifact_sha256 e)) rows = None).
      { apply find_first_None. intros r Hr. apply bool_decide_eq_false. by apply Hno. }
      rewrite Hn. exists ids. split; [done|]. unfold with_sha. cbn. by rewrite bool_decide_eq_true_2.
    + destruct (find_first (with_sha k) rows); [done|]. unfold with_sha. cbn. by rewrite bool_decide_eq_false_2.
Qed.

Lemma upserts_step now entries rows ids k :
  let s := fold_left (upsert_adapter now) entries (rows, ids) in
  (ids <= s.2)%nat /\ row_step now ids (last_entry k entries) (row_of k rows) (row_of k s.1).
Proof.
  induction entries as [|e entries IH] using rev_ind; [by split|]. rewrite fold_left_app. cbn [fold_left].
  destruct (fold_left _ entries (rows, ids)) as [rows1 ids1]. cbn [fst snd] in IH. destruct IH as [Hids Hrow].
  destruct (upsert_step now rows1 ids1 e k) as [Hids' Hstep]. split; [lia|]. unfold last_entry. rewrite rev_unit, find_first_cons.
  case_bool_decide as Ek; [|by rewrite Hstep]. cbn [row_step] in Hstep |- *. fold (last_entry k entries) in *.
  destruct (last_entry k entries) as [e0|]; cbn [row_step] in Hrow.
  - destruct (row_of k rows) as [r|].
    + rewrite Hrow in Hstep. exact Hstep.
    + destruct Hrow as (j & Hj & Hrow). rewrite Hrow in Hstep. exists j. by split.
  - rewrite Hrow in Hstep. destruct (row_of k rows) as [r|]; [done|]. destruct Hstep as (j & Hj & ->). exists j. split; [lia|done].
Qed.

Lemma last_entry_Some k entries e : last_entry k entries = Some e -> e ∈ entries /\ ae_artifact_sha256 e = k.
Proof.
  intros E. apply find_first_Some in E as [Hin Hk%bool_decide_eq_true]. split; [|done]. apply list_elem_of_In, in_rev. by rewrite <- list_elem_of_In.
Qed.

Lemma last_entry_None k entries : last_entry k entries = None <-> k ∉ map ae_artifact_sha256 entries.
Proof.
  unfold last_entry. rewrite find_first_None. split.
  - intros Hall Hin. apply list_elem_of_fmap in Hin as (e & -> & Hin). specialize (Hall e). rewrite bool_decide_eq_false in Hall. apply Hall; [|done].
    rewrite list_elem_of_In, <- in_rev. by rewrite <- list_elem_of_In.
  - intros Hno e Hin. apply bool_decide_eq_false. intros <-. apply Hno. apply list_elem_of_fmap. exists e. split; [done|].
    rewrite list_elem_of_In, <- in_rev in Hin. by rewrite list_elem_of_In.
Qed.

Lemma withdraw_sha seen r : ad_artifact_sha256 (withdraw seen r) = ad_artifact_sha256 r.
Proof. unfold withdraw. by destruct (negb _ && _). Qed.

Lemma row_of_withdraw seen k rows : row_of k (map (withdraw seen) rows) = withdraw seen <$> row_of k rows.
Proof. unfold row_of. rewrite find_first_map. f_equal. apply find_first_ext. intros r _. unfold with_sha. by rewrite withdraw_sha. Qed.
End directory_theory.

Module Properties.
Section properties.
Context `{ManifestFormat} `{Externals} `{!ExternalsLaws}.

(** C26: A sync makes the table the projection of the directory: per digest, the last entry read decides every column of the row but
    its id and first sighting, which are kept or fresh; a row no entry names keeps its columns and is withdrawn; nothing is
    deleted. So a row is available only when its artifact is a file whose content hashes to the row's identity. *)
Theorem adapter_sync_exact (disk : Disk) (now : Z) (d : AdapterDb) :
  let entries := rd_entries (read_directory disk) in
  let '(d', n) := sync_adapters (Some disk) now d in
  n = zlen entries /\
  forall k,
    match last_entry k entries, row_of k (an_rows d) with
    | Some e, Some r => row_of k (an_rows d') = Some (projected (ad_id r) (ad_created_at r) (ad_first_seen_at r) now e)
    | Some e, None => exists j, (an_ids d <= j)%nat /\ row_of k (an_rows d') = Some (projected (new_id j) now now now e)
    | None, Some r => row_of k (an_rows d') = Some (withdraw [] r)
    | None, None => row_of k (an_rows d') = None
    end /\
    (forall r', row_of k (an_rows d') = Some r' -> ad_available r' = true ->
       dk_is_file disk (ad_artifact_path r') = true /\ dk_sha256 disk (ad_artifact_path r') = Some k).
Proof.
  intros entries. unfold sync_adapters. fold entries.
  destruct (fold_left (upsert_adapter now) entries (an_rows d, an_ids d)) as [rows ids] eqn:E. split; [done|]. intros k.
  pose proof (upserts_step now entries (an_rows d) (an_ids d) k) as [_ Hstep]. rewrite E in Hstep. cbn [fst an_rows] in *.
  rewrite row_of_withdraw. set (seen := map ae_artifact_sha256 entries) in *.
  assert (Hseen : forall e r, last_entry k entries = Some e -> ad_artifact_sha256 r = ae_artifact_sha256 e -> withdraw seen r = r).
  { intros e r He Hs. apply last_entry_Some in He as [Hin _]. unfold withdraw. rewrite bool_decide_eq_true_2; [done|].
    rewrite Hs. apply list_elem_of_fmap. by exists e. }
  assert (Hfile : forall e r', last_entry k entries = Some e -> ad_available r' = ae_available e -> ad_artifact_path r' = ae_artifact_path e ->
    ad_available r' = true -> dk_is_file disk (ad_artifact_path r') = true /\ dk_sha256 disk (ad_artifact_path r') = Some k).
  { intros e r' He Hav Hp Ht. apply last_entry_Some in He as [Hin <-]. destruct (entries_read disk e Hin) as (name & _ & Hread).
    destruct (read_manifest_inl disk name e Hread) as (_ & Hiff & _). rewrite Hp. apply Hiff. congruence. }
  destruct (last_entry k entries) as [e|] eqn:El; cbn [row_step] in Hstep.
  - destruct (row_of k (an_rows d)) as [r|].
    + rewrite Hstep. cbn. rewrite (Hseen e) by done. split; [done|]. intros r' [= <-]. by apply (Hfile e).
    + destruct Hstep as (j & Hj & ->). cbn. rewrite (Hseen e) by done. split; [by exists j|]. intros r' [= <-]. by apply (Hfile e).
  - rewrite Hstep. destruct (row_of k (an_rows d)) as [r|] eqn:Er; cbn; [|by split].
    apply find_first_Some in Er as [_ Hk%bool_decide_eq_true]. apply last_entry_None in El.
    assert (Hw : withdraw seen r = withdraw [] r) by (unfold withdraw; rewrite !bool_decide_eq_false_2; [done|apply not_elem_of_nil|by rewrite Hk]).
    rewrite Hw. split; [done|]. intros r' [= <-] Hav. unfold withdraw in Hav. rewrite bool_decide_eq_false_2 in Hav by apply not_elem_of_nil.
    cbn in Hav. by destruct (ad_available r) eqn:Ea; cbn in Hav; [|congruence].
Qed.

(** An artifact a reviewed manifest names is listed as having none whenever its globbed path is not its resolved path (a relative
    directory, a symbolic link): the two are compared as text. *)
Theorem claimed_artifact_unmanifested (disk : Disk) (name : string)
    (Hdir : dk_is_dir disk = true) (Hname : name ∈ dk_names disk) (Hgguf : ends_with ARTIFACT_SUFFIX name = true)
    (Hpath : forall file, dk_resolve disk file <> dk_path disk name) (Hdraft : stem name ∉ map (removesuffix DRAFT_SUFFIX) (glob disk DRAFT_SUFFIX)) :
  dk_path disk name ∈ rd_unmanifested (read_directory disk).
Proof.
  unfold read_directory. rewrite Hdir. cbn [negb rd_unmanifested]. apply list_elem_of_fmap. exists name. split; [done|].
  apply list_elem_of_In, filter_In. split.
  - rewrite <- list_elem_of_In. unfold glob. rewrite py_sorted_perm. apply list_elem_of_In, filter_In. split; [by apply list_elem_of_In|done].
  - apply andb_true_iff. split; [|by rewrite bool_decide_eq_false_2]. rewrite bool_decide_eq_false_2; [done|].
    intros Hin. apply list_elem_of_fmap in Hin as (e & Ep & Hin). rewrite list_elem_of_omap in Hin. destruct Hin as ([n r] & Hin & E).
    apply list_elem_of_fmap in Hin as (n' & [= -> ->] & _). cbn in E. destruct (read_manifest disk n') as [e0|] eqn:Er; [|done]. injection E as ->.
    unfold read_manifest in Er. destruct (dk_bytes disk n'); [|done]. destruct (load_envelope _) as [env|]; [|done].
    destruct (validate_manifest _) as [m|]; [|done]. injection Er as <-. cbn in Ep. by destruct (Hpath (ma_artifact_file m)).
Qed.
End properties.

(** A directory of one adapter, under a relative path. *)
#[local] Instance sample_format : ManifestFormat := {|
  Envelope := unit; load_envelope _ := Some tt; envelope_payload _ := JNull;
  validate_manifest _ := Some (mkManifest "tone" "tone.gguf" "sha256:1" None "m" None "name_only" [] "confidential" None)
|}.
Definition sample_disk (names : list string) : Disk :=
  mkDisk true names (fun name => "adapters/" +:+ name) (fun name => "/srv/adapters/" +:+ name) (fun _ => true) (fun _ => Some "{}")
    (fun _ => Some "sha256:1").
Definition reviewed : Disk := sample_disk ["tone.gguf"; "tone.manifest.json"].
Definition no_adapters : AdapterDb := mkAdapterDb [] (mkEvidenceDb [] [] ∅ []) 0.
Definition synced : AdapterDb := (sync_adapters (Some reviewed) 1 no_adapters).1.

Lemma claimed_artifact_unmanifested_witness :
  map ae_name (rd_entries (read_directory reviewed)) = ["tone"] /\ "adapters/tone.gguf" ∈ rd_unmanifested (read_directory reviewed).
Proof.
  split; [by vm_compute|]. apply (claimed_artifact_unmanifested reviewed "tone.gguf").
  - reflexivity.
  - left.
  - reflexivity.
  - intros file. discriminate.
  - vm_compute. apply not_elem_of_nil.
Defined.

(** Rows stay available when the directory is unset, and a directory with the artifact gone withdraws them. *)
Theorem adapters_off_still_routable :
  map fst (routable synced) = ["m"] /\ routable (sync_adapters None 2 synced).1 = routable synced /\
  routable (sync_adapters (Some (sample_disk [])) 2 synced).1 = [].
Proof. vm_compute. done. Qed.

(** A model measured on two capabilities, one measurement stale, is shown as measured on one. *)
Theorem coverage_undercounts :
  let row id capability stale :=
    let r := sample_row id capability None "bound" None in
    mkEvidenceRow (er_candidate r) (Some "m1") None "bound" stale None "ollama" "m" None "base" None "" "s1" "1.0.0" 0 0 JNull in
  let rows := [row "r1" "coding" false; row "r2" "chat" true] in
  cv_bound (evidence_coverage rows "m1") = 2 /\ distinct_capabilities rows = 2 /\ cv_capabilities (evidence_coverage rows "m1") = 1.
Proof. vm_compute. done. Qed.
End Properties.
