(* ===== verification/Access.v ===== *)
(** * Tokens and callers ([services/tokens.py], [web/auth.py])

    The [api_tokens] table, the three operations on it, and who a request comes from. The random secret is an
    argument; [hashlib] is the digest of [Externals]. *)

From Stdlib Require Import Ascii String.
From S2P Require Import Prelude PyStr Ordering Authorization JobEvents QueueStore.
#[local] Open Scope string_scope.
#[local] Open Scope list_scope.
#[local] Open Scope Z_scope.

Record ApiToken := mkToken {
  tk_id : string;
  tk_name : string;
  tk_sha256 : string;
  tk_scope : string;
  tk_created_at : Z;
  tk_last_used_at : option Z;
  tk_expires_at : option Z;
  tk_revoked_at : option Z
}.

(** The table in the order of insertion. *)
Record TokenDb := mkTokens { td_rows : list ApiToken; td_ids : nat }.

(** [with database.write()]: what a raise rolls back. *)
Definition write_tokens {A} (body : prog TokenDb A) : prog TokenDb A :=
  fun d => match body d with (d', Ok a) => (d', Ok a) | (_, Raise e) => (d, Raise e) end.

Definition token_scopes : list string := ["read"; "write"; "admin"].

(** [select(ApiToken).where(name == ..., revoked_at IS NULL)]. *)
Definition unrevoked (name : string) (r : ApiToken) : bool := bool_decide (tk_name r = name) && bool_decide (tk_revoked_at r = None).

(** [scalar_one_or_none()]. *)
Definition scalar_one_or_none {A} (l : list A) : result (option A) :=
  match l with [] => Ok None | [x] => Ok (Some x) | _ => Raise (OtherException None) end.

Section tokens.
Context `{Externals}.

(** [timedelta(days=n)] in microseconds. *)
Definition days_us (n : Z) : Z := n * 86400000000.

Definition insert_token (row : ApiToken) : prog TokenDb unit :=
  fun d => if existsb (fun r => bool_decide (tk_sha256 r = tk_sha256 row)) (td_rows d) then (d, Raise IntegrityError)
           else (mkTokens (td_rows d ++ [row]) (S (td_ids d)), Ok tt).

Definition create_token (name scope : string) (expires_days : option Z) (secret : string) (now : Z) : prog TokenDb (ApiToken * string) :=
  let cleaned := strip name in
  _ ← lift (guard_raise (bool_decide (cleaned = "") || (64 <? py_len cleaned)) (ValidationError "name"));
  _ ← lift (guard_raise (negb (bool_decide (scope ∈ token_scopes))) (ValidationError "scope"));
  write_tokens (
    d ← get;
    clash ← lift (scalar_one_or_none (List.filter (unrevoked cleaned) (td_rows d)));
    _ ← lift (guard_raise (bool_decide (is_Some clash)) (ValidationError "name"));
    let row := mkToken (new_id (td_ids d)) cleaned (sha256 secret) scope now None (match expires_days with None => None | Some n => Some (now + days_us n) end) None in
    _ ← insert_token row;
    mret (row, secret)).

Definition revoked (now : Z) (r : ApiToken) : ApiToken :=
  mkToken (tk_id r) (tk_name r) (tk_sha256 r) (tk_scope r) (tk_created_at r) (tk_last_used_at r) (tk_expires_at r) (Some now).

Definition set_rows (rows : list ApiToken) : prog TokenDb unit := fun d => (mkTokens rows (td_ids d), Ok tt).

Definition TokenNotFound : exn := OtherException (Some "TOKEN_NOT_FOUND").

Definition revoke_token (name : string) (now : Z) : prog TokenDb ApiToken :=
  write_tokens (
    d ← get;
    found ← lift (scalar_one_or_none (List.filter (unrevoked name) (td_rows d)));
    match found with
    | None => raise TokenNotFound
    | Some r => _ ← set_rows (map (fun x => if bool_decide (tk_id x = tk_id r) then revoked now x else x) (td_rows d)); mret (revoked now r)
    end).

Definition list_tokens (d : TokenDb) : list ApiToken := py_sorted (leb_of (cmp_on tk_created_at (cmp_desc Z.compare))) (td_rows d).

(** [TokenRecord.active]. *)
Definition active (r : ApiToken) : bool := bool_decide (tk_revoked_at r = None).

(** ** Callers *)

Definition LOOPBACK_HOSTS : list string := ["127.0.0.1"; "localhost"; "::1"].

Definition bearer (authorization : option string) : option string :=
  match authorization with
  | None => None
  | Some a =>
      if bool_decide (a = "") then None
      else let '(scheme, _, value) := partition_at " "%char a in
           if negb (bool_decide (lower scheme = "bearer")) || bool_decide (strip value = "") then None else Some (strip value)
  end.

(** A row that counts as a token at [now]. *)
Definition usable (now : Z) (r : ApiToken) : bool :=
  bool_decide (tk_revoked_at r = None) && match tk_expires_at r with None => true | Some e => now <? e end.

Definition Unauthorized : exn := OtherException (Some "UNAUTHORIZED").

(** [_bearer(authorization) or (cookie_token.strip() if cookie_token else None)]. *)
Definition presented (authorization cookie_token : option string) : option string :=
  match bearer authorization with
  | Some t => Some t
  | None => match cookie_token with Some c => if bool_decide (c = "") then None else Some (strip c) | None => None end
  end.

Definition resolve_principal (rows : list ApiToken) (authorization : option string) (bind_host : string) (now : Z) (cookie_token : option string)
  : result Principal :=
  match List.filter (usable now) rows with
  | [] => if bool_decide (bind_host ∈ LOOPBACK_HOSTS) then Ok (mkPrincipal "loopback" "admin" SrcLoopback) else Raise Unauthorized
  | tokens =>
      match presented authorization cookie_token with
      | None => Raise Unauthorized
      | Some secret =>
          match List.find (fun r => bool_decide (tk_sha256 r = sha256 secret)) tokens with
          | Some r => Ok (mkPrincipal (tk_name r) (tk_scope r) SrcToken)
          | None => Raise Unauthorized
          end
      end
  end.

(** The token name a request is attributed to. *)
Definition token_name (p : Principal) : option string := match p_source p with SrcToken => Some (p_name p) | _ => None end.

Definition require_scope (rows : list ApiToken) (required : string) (authorization : option string) (bind_host : string) (now : Z)
    (cookie_token : option string) : result (option string) :=
  principal ← resolve_principal rows authorization bind_host now cookie_token;
  _ ← authorize (Some principal) required;
  Ok (token_name principal).

(** The calls a token database goes through. *)
Inductive TokenCall :=
| Create (name scope : string) (expires_days : option Z) (secret : string) (now : Z)
| Revoke (name : string) (now : Z).

Definition token_call (c : TokenCall) (d : TokenDb) : TokenDb :=
  match c with
  | Create name scope expires_days secret now => (create_token name scope expires_days secret now d).1
  | Revoke name now => (revoke_token name now d).1
  end.
Definition token_calls (l : list TokenCall) : TokenDb := fold_left (fun d c => token_call c d) l (mkTokens [] 0).
End tokens.

(** ** Lemmas *)

Section theory.
Context `{Externals} `{!ExternalsLaws}.

Definition unrevoked_rows (rows : list ApiToken) : list ApiToken := List.filter (fun r => bool_decide (tk_revoked_at r = None)) rows.

(** What the operations maintain. *)
Record tokens_ok (d : TokenDb) : Prop := {
  ok_ids : NoDup (map tk_id (td_rows d));
  ok_fresh : forall k, (td_ids d <= k)%nat -> new_id k ∉ map tk_id (td_rows d);
  ok_digests : NoDup (map tk_sha256 (td_rows d));
  ok_names : NoDup (map tk_name (unrevoked_rows (td_rows d)));
  ok_rows : Forall (fun r => tk_name r <> "" /\ py_len (tk_name r) <= 64 /\ tk_scope r ∈ token_scopes) (td_rows d)
}.

Lemma unrevoked_elem name r rows :
  r ∈ List.filter (unrevoked name) rows <-> r ∈ unrevoked_rows rows /\ tk_name r = name.
Proof. unfold unrevoked_rows. rewrite !elem_of_filter_bool. unfold unrevoked. rewrite andb_true_iff, !bool_decide_eq_true. tauto. Qed.

Lemma filter_both {A} (p q : A -> bool) l : List.filter (fun x => p x && q x) l = List.filter p (List.filter q l).
Proof. induction l as [|x l IH]; [done|]. cbn. destruct (q x); cbn; rewrite ?andb_true_r, ?andb_false_r, IH; by destruct (p x). Qed.

(** At most one unrevoked row of a name, so the query never fails. *)
Lemma one_unrevoked name rows :
  NoDup (map tk_name (unrevoked_rows rows)) ->
  match scalar_one_or_none (List.filter (unrevoked name) rows) with
  | Ok (Some r) => r ∈ rows /\ tk_revoked_at r = None /\ tk_name r = name
  | Ok None => name ∉ map tk_name (unrevoked_rows rows)
  | Raise _ => False
  end.
Proof.
  intros Hn. assert (Hf : List.filter (unrevoked name) rows = List.filter (fun r => bool_decide (tk_name r = name)) (unrevoked_rows rows)) by apply filter_both.
  destruct (List.filter (unrevoked name) rows) as [|r [|r2 l]] eqn:E; cbn [scalar_one_or_none].
  - intros Hin. apply list_elem_of_fmap in Hin as (r & -> & Hin). assert (Hr : r ∈ List.filter (unrevoked (tk_name r)) rows) by by apply unrevoked_elem.
    rewrite E in Hr. by apply elem_of_nil in Hr.
  - assert (Hr : r ∈ List.filter (unrevoked name) rows) by (rewrite E; left). apply elem_of_filter_bool in Hr as [Hin Hu].
    unfold unrevoked in Hu. rewrite andb_true_iff, !bool_decide_eq_true in Hu. tauto.
  - assert (Hs : NoDup (map tk_name (r :: r2 :: l))).
    { rewrite Hf. eapply sublist_NoDup; [exact Hn|]. apply fmap_sublist. clear. induction (unrevoked_rows rows) as [|x k IH]; cbn; [constructor|].
      destruct (bool_decide _); by constructor. }
    assert (Hr : r ∈ List.filter (unrevoked name) rows) by (rewrite E; left). assert (Hr2 : r2 ∈ List.filter (unrevoked name) rows) by (rewrite E; right; left).
    apply unrevoked_elem in Hr as [_ Hr]. apply unrevoked_elem in Hr2 as [_ Hr2]. cbn in Hs. apply NoDup_cons in Hs as [Hs _]. apply Hs. rewrite Hr, <- Hr2. left.
Qed.

Lemma NoDup_snoc {A} (l : list A) x : NoDup l -> x ∉ l -> NoDup (l ++ [x]).
Proof. intros Hl Hx. apply NoDup_app. split_and!; [done| |apply NoDup_singleton]. intros y Hy ->%list_elem_of_singleton. done. Qed.

Lemma token_inserted row d :
  tokens_ok d -> tk_id row = new_id (td_ids d) -> tk_sha256 row ∉ map tk_sha256 (td_rows d) -> tk_name row ∉ map tk_name (unrevoked_rows (td_rows d)) ->
  tk_name row <> "" -> py_len (tk_name row) <= 64 -> tk_scope row ∈ token_scopes ->
  tokens_ok (mkTokens (td_rows d ++ [row]) (S (td_ids d))).
Proof.
  intros [Hids Hfresh Hdig Hnames Hrows] Hid Hsha Hname Hne Hlen Hscope. split; cbn [td_rows td_ids]; rewrite ?map_app; cbn [map].
  - apply NoDup_snoc; [done|]. rewrite Hid. by apply Hfresh.
  - intros k Hk. rewrite not_elem_of_app, list_elem_of_singleton, Hid. split; [apply Hfresh; lia|]. intros E%new_id_inj. lia.
  - by apply NoDup_snoc.
  - unfold unrevoked_rows. rewrite List.filter_app. cbn [List.filter]. rewrite map_app. destruct (bool_decide _); cbn [map]; [by apply NoDup_snoc|by rewrite app_nil_r].
  - apply Forall_app. split; [done|]. apply Forall_singleton. by split_and!.
Qed.

Lemma create_cases name scope expires_days secret now d :
  tokens_ok d ->
  (exists e, create_token name scope expires_days secret now d = (d, Raise e) /\
     (e = ValidationError "name" \/ e = ValidationError "scope" \/ (e = IntegrityError /\ sha256 secret ∈ map tk_sha256 (td_rows d)))) \/
  (exists row, create_token name scope expires_days secret now d = (mkTokens (td_rows d ++ [row]) (S (td_ids d)), Ok (row, secret)) /\
     tokens_ok (mkTokens (td_rows d ++ [row]) (S (td_ids d))) /\ tk_name row = strip name /\ tk_scope row = scope /\ tk_sha256 row = sha256 secret /\
     tk_revoked_at row = None /\ tk_expires_at row = match expires_days with None => None | Some n => Some (now + days_us n) end /\
     strip name ∉ map tk_name (unrevoked_rows (td_rows d))).
Proof.
  intros Hok. unfold create_token. rewrite prog_bind_run. cbn [lift]. unfold guard_raise at 1.
  destruct (bool_decide (strip name = "") || (64 <? py_len (strip name))) eqn:Eg; [left; eauto|]. apply orb_false_iff in Eg as [Hne%bool_decide_eq_false Hlen%Z.ltb_ge].
  rewrite prog_bind_run. cbn [lift]. unfold guard_raise at 1. destruct (negb _) eqn:Es; [left; eauto|]. apply negb_false_iff, bool_decide_eq_true in Es.
  unfold write_tokens. rewrite prog_bind_run. cbn [get]. rewrite prog_bind_run. cbn [lift].
  pose proof (one_unrevoked (strip name) (td_rows d) (ok_names d Hok)) as Hone. destruct (scalar_one_or_none _) as [[r|]|e]; [| |done].
  - rewrite prog_bind_run. cbn [lift]. unfold guard_raise. rewrite bool_decide_eq_true_2 by done. left. eauto.
  - rewrite prog_bind_run. cbn [lift]. unfold guard_raise. rewrite bool_decide_eq_false_2 by (by intros [? ?]). rewrite prog_bind_run. unfold insert_token. cbn [tk_sha256].
    destruct (existsb _ (td_rows d)) eqn:Eex.
    + left. eexists. split; [reflexivity|]. right. right. split; [done|]. apply existsb_exists in Eex as (r & Hr & E%bool_decide_eq_true).
      apply list_elem_of_fmap. exists r. by rewrite list_elem_of_In.
    + right. eexists. split; [reflexivity|]. split_and!; try done. apply token_inserted; try done. cbn. intros Hin. apply list_elem_of_fmap in Hin as (r & E & Hr).
      assert (Ht : existsb (fun r => bool_decide (tk_sha256 r = sha256 secret)) (td_rows d) = true).
      { apply existsb_exists. exists r. rewrite <- list_elem_of_In. split; [done|by apply bool_decide_eq_true]. }
      congruence.
Qed.

Lemma map_replace_keep {B} (f : ApiToken -> B) (r : ApiToken) g rows :
  (forall x, f (g x) = f x) -> map f (map (fun x => if bool_decide (tk_id x = tk_id r) then g x else x) rows) = map f rows.
Proof. intros Hf. rewrite List.map_map. apply List.map_ext. intros x. case_bool_decide; [apply Hf|done]. Qed.

Lemma unrevoked_after_revoke r now rows :
  unrevoked_rows (map (fun x => if bool_decide (tk_id x = tk_id r) then revoked now x else x) rows) =
  List.filter (fun x => negb (bool_decide (tk_id x = tk_id r))) (unrevoked_rows rows).
Proof.
  unfold unrevoked_rows. induction rows as [|x rows IH]; [done|]. cbn [map List.filter]. destruct (bool_decide (tk_id x = tk_id r)) eqn:E.
  - rewrite (bool_decide_eq_false_2 (tk_revoked_at (revoked now x) = None)) by done. rewrite IH. destruct (bool_decide (tk_revoked_at x = None)); [|done].
    cbn [List.filter]. by rewrite E.
  - rewrite IH. destruct (bool_decide (tk_revoked_at x = None)); [|done]. cbn [List.filter]. by rewrite E.
Qed.

Lemma revoke_cases name now d :
  tokens_ok d ->
  (revoke_token name now d = (d, Raise TokenNotFound) /\ name ∉ map tk_name (unrevoked_rows (td_rows d))) \/
  (exists r, r ∈ td_rows d /\ tk_revoked_at r = None /\ tk_name r = name /\
     let rows := map (fun x => if bool_decide (tk_id x = tk_id r) then revoked now x else x) (td_rows d) in
     revoke_token name now d = (mkTokens rows (td_ids d), Ok (revoked now r)) /\ tokens_ok (mkTokens rows (td_ids d)) /\
     name ∉ map tk_name (unrevoked_rows rows)).
Proof.
  intros Hok. unfold revoke_token, write_tokens. rewrite prog_bind_run. cbn [get]. rewrite prog_bind_run. cbn [lift].
  pose proof (one_unrevoked name (td_rows d) (ok_names d Hok)) as Hone. destruct (scalar_one_or_none _) as [[r|]|e] eqn:Es; [| |done].
  2: { left. by split. }
  destruct Hone as (Hin & Hr & Hname). right. exists r. split; [done|]. split; [done|]. split; [done|]. cbv zeta. destruct Hok as [Hids Hfresh Hdig Hnames Hrows].
  assert (Hno : name ∉ map tk_name (unrevoked_rows (map (fun x => if bool_decide (tk_id x = tk_id r) then revoked now x else x) (td_rows d)))).
  { rewrite unrevoked_after_revoke. intros Hbad. apply list_elem_of_fmap in Hbad as (x & E & Hx). apply elem_of_filter_bool in Hx as [Hx Hid].
    apply negb_true_iff, bool_decide_eq_false in Hid. apply Hid. f_equal.
    apply (NoDup_map_inj tk_name (unrevoked_rows (td_rows d)) x r Hnames Hx); [|congruence].
    apply elem_of_filter_bool. split; [done|by apply bool_decide_eq_true]. }
  split; [reflexivity|]. split; [|done]. split; cbn [td_rows td_ids].
  - by rewrite map_replace_keep.
  - by rewrite map_replace_keep.
  - by rewrite map_replace_keep.
  - rewrite unrevoked_after_revoke. eapply sublist_NoDup; [exact Hnames|]. apply fmap_sublist. clear.
    induction (unrevoked_rows (td_rows d)) as [|x l IH]; cbn; [constructor|]. destruct (negb _); by constructor.
  - rewrite Forall_forall in Hrows |- *. intros x Hx. apply list_elem_of_fmap in Hx as (y & -> & Hy). case_bool_decide; [|by apply Hrows].
    apply (Hrows y Hy).
Qed.

Lemma empty_ok : tokens_ok (mkTokens [] 0).
Proof. split; cbn; try constructor. intros k _. apply not_elem_of_nil. Qed.

Lemma call_ok c d : tokens_ok d -> tokens_ok (token_call c d).
Proof.
  intros Hok. destruct c as [name scope expires_days secret now|name now]; cbn [token_call].
  - destruct (create_cases name scope expires_days secret now d Hok) as [(e & -> & _)|(row & -> & Hok' & _)]; done.
  - destruct (revoke_cases name now d Hok) as [[-> _]|(r & _ & _ & _ & -> & Hok' & _)]; done.
Qed.

Lemma calls_ok l d : tokens_ok d -> tokens_ok (fold_left (fun d c => token_call c d) l d).
Proof. induction l as [|c l IH] in d |- *; cbn [fold_left]; [done|]. intros Hok. by apply IH, call_ok. Qed.

(** The one row a secret can be. *)
Lemma find_secret now rows digest r :
  NoDup (map tk_sha256 rows) -> r ∈ rows -> usable now r = true -> tk_sha256 r = digest ->
  List.find (fun r => bool_decide (tk_sha256 r = digest)) (List.filter (usable now) rows) = Some r.
Proof.
  intros Hn Hin Hu Hs. destruct (List.find _ _) as [r'|] eqn:E.
  - apply find_some in E as [Hin' Hs'%bool_decide_eq_true]. rewrite <- list_elem_of_In in Hin'. apply elem_of_filter_bool in Hin' as [Hin' _].
    f_equal. apply (NoDup_map_inj tk_sha256 rows); [done..|congruence].
  - assert (Hf : r ∈ List.filter (usable now) rows) by (apply elem_of_filter_bool; by split). rewrite list_elem_of_In in Hf.
    pose proof (List.find_none _ _ E r Hf) as Hb. cbn in Hb. by rewrite bool_decide_eq_true_2 in Hb.
Qed.

(** A row that is neither revoked nor expired. *)
Definition valid_at (now : Z) (r : ApiToken) : Prop := tk_revoked_at r = None /\ forall e, tk_expires_at r = Some e -> now < e.

Lemma usable_valid now r : usable now r = true <-> valid_at now r.
Proof.
  unfold usable, valid_at. rewrite andb_true_iff, bool_decide_eq_true. destruct (tk_expires_at r) as [e|].
  - rewrite Z.ltb_lt. split; intros [? He]; (split; [done|]); [by intros ? [= <-]|by apply He].
  - split; intros [? _]; by split.
Qed.

(** Who a request may come from. *)
Definition speaks_for (rows : list ApiToken) (now : Z) (secret : option string) (p : Principal) : Prop :=
  exists r s, r ∈ rows /\ valid_at now r /\ secret = Some s /\ tk_sha256 r = sha256 s /\ p = mkPrincipal (tk_name r) (tk_scope r) SrcToken.

Lemma caller_cases rows authorization host now cookie p :
  NoDup (map tk_sha256 rows) ->
  (resolve_principal rows authorization host now cookie = Ok p <->
   speaks_for rows now (presented authorization cookie) p \/
   ((forall r, r ∈ rows -> ~ valid_at now r) /\ host ∈ LOOPBACK_HOSTS /\ p = mkPrincipal "loopback" "admin" SrcLoopback)).
Proof.
  intros Hn. setoid_rewrite <- usable_valid. unfold resolve_principal, speaks_for. setoid_rewrite <- usable_valid. destruct (List.filter (usable now) rows) as [|t ts] eqn:Ef.
  - assert (Hnone : forall r, r ∈ rows -> usable now r = true -> False).
    { intros r Hr Hu. assert (Hf : r ∈ List.filter (usable now) rows) by (by apply elem_of_filter_bool). rewrite Ef in Hf. by apply elem_of_nil in Hf. }
    case_bool_decide as Hh; split.
    + intros [= <-]. right. split; [|done]. intros r Hr Hu. by eapply Hnone.
    + intros [(r & s & Hr & Hu & _)|(_ & _ & ->)]; [by destruct (Hnone r)|done].
    + done.
    + intros [(r & s & Hr & Hu & _)|(_ & Hbad & _)]; [by destruct (Hnone r)|done].
  - assert (Hsome : (forall r, r ∈ rows -> usable now r <> true) -> False).
    { intros Hno. assert (Ht : t ∈ List.filter (usable now) rows) by (rewrite Ef; left). apply elem_of_filter_bool in Ht as [Ht Hu]. by apply (Hno t). }
    rewrite <- Ef. destruct (presented authorization cookie) as [s|].
    2: { split; [done|]. by intros [(r & s & _ & _ & E & _)|(E & _)]. }
    split.
    + destruct (List.find _ _) as [r|] eqn:E; [|done]. intros [= <-]. left. apply find_some in E as [Hin Hs%bool_decide_eq_true].
      rewrite <- list_elem_of_In in Hin. apply elem_of_filter_bool in Hin as [Hin Hu]. by exists r, s.
    + intros [(r & s' & Hr & Hu & [= <-] & Hs & ->)|(E & _)]; [|by destruct Hsome]. by rewrite (find_secret now rows (sha256 s) r).
Qed.
End theory.

Module Properties.
Section properties.
Context `{Externals} `{!ExternalsLaws}.

(** Every operation on tokens ends one of its documented ways, from any history of operations: a creation appends exactly the row
    it returns, whose digest is the secret's, or changes nothing and names what is wrong; a revocation stamps the one unrevoked row
    of the name, or finds none. Ids, digests and the names of unrevoked tokens stay unique. *)
Theorem token_operations (history : list TokenCall) (name scope secret : string) (expires_days : option Z) (now : Z) :
  let d := token_calls history in
  tokens_ok d /\
  match create_token name scope expires_days secret now d with
  | (d', Ok (row, shown)) => shown = secret /\ td_rows d' = td_rows d ++ [row] /\ tk_sha256 row = sha256 secret /\ tk_name row = strip name /\
      tk_scope row = scope /\ tk_expires_at row = match expires_days with None => None | Some n => Some (now + days_us n) end /\
      strip name ∉ map tk_name (unrevoked_rows (td_rows d))
  | (d', Raise e) => d' = d /\ (e = ValidationError "name" \/ e = ValidationError "scope" \/ (e = IntegrityError /\ sha256 secret ∈ map tk_sha256 (td_rows d)))
  end /\
  match revoke_token name now d with
  | (d', Ok r') => exists r, r ∈ td_rows d /\ tk_name r = name /\ tk_revoked_at r = None /\ r' = revoked now r /\
      td_rows d' = map (fun x => if bool_decide (tk_id x = tk_id r) then revoked now x else x) (td_rows d) /\
      name ∉ map tk_name (unrevoked_rows (td_rows d'))
  | (d', Raise e) => d' = d /\ e = TokenNotFound /\ name ∉ map tk_name (unrevoked_rows (td_rows d))
  end.
Proof.
  intros d. assert (Hok : tokens_ok d) by apply calls_ok, empty_ok. split; [done|]. split.
  - destruct (create_cases name scope expires_days secret now d Hok) as [(e & -> & He)|(row & -> & _ & Hn & Hs & Hd & _ & Hx & Hno)]; by split_and!.
  - destruct (revoke_cases name now d Hok) as [[-> Hno]|(r & Hin & Hr & Hn & -> & _ & Hno)]; [by split_and!|]. exists r. by split_and!.
Qed.


(** Revoking the last token of a loopback install does not refuse its bearer: the next request, with the revoked secret or with
    none, is taken for the admin. *)
Theorem revoked_bearer_is_admin (name scope secret host : string) (created revoked_at now : Z) (authorization cookie : option string)
    (Hname : strip name <> "" /\ py_len (strip name) <= 64) (Hscope : scope ∈ token_scopes) (Hhost : host ∈ LOOPBACK_HOSTS) :
  let before := td_rows (token_calls [Create name scope None secret created]) in
  let after := td_rows (token_calls [Create name scope None secret created; Revoke (strip name) revoked_at]) in
  (presented authorization cookie = Some secret ->
     resolve_principal before authorization host now cookie = Ok (mkPrincipal (strip name) scope SrcToken)) /\
  (presented authorization cookie = None -> resolve_principal before authorization host now cookie = Raise Unauthorized) /\
  resolve_principal after authorization host now cookie = Ok (mkPrincipal "loopback" "admin" SrcLoopback).
Proof.
  destruct Hname as [Hne Hlen]. set (row := mkToken (new_id 0) (strip name) (sha256 secret) scope created None None None).
  assert (Hc : create_token name scope None secret created (mkTokens [] 0) = (mkTokens [row] 1, Ok (row, secret))).
  { unfold create_token. rewrite prog_bind_run. cbn [lift]. unfold guard_raise at 1. rewrite bool_decide_eq_false_2 by done.
    rewrite (proj2 (Z.ltb_ge _ _)) by done. cbn [orb]. rewrite prog_bind_run. cbn [lift]. unfold guard_raise at 1. by rewrite bool_decide_eq_true_2. }
  assert (Hr : revoke_token (strip name) revoked_at (mkTokens [row] 1) = (mkTokens [revoked revoked_at row] 1, Ok (revoked revoked_at row))).
  { unfold revoke_token, write_tokens. rewrite prog_bind_run. cbn [get]. rewrite prog_bind_run. cbn [lift td_rows List.filter]. unfold unrevoked.
    cbn [tk_name tk_revoked_at row]. rewrite !bool_decide_eq_true_2 by done. cbn [andb scalar_one_or_none]. rewrite prog_bind_run. unfold set_rows. cbn [td_rows td_ids map].
    by rewrite bool_decide_eq_true_2. }
  unfold token_calls. cbn [fold_left token_call]. rewrite Hc. cbn [fst]. rewrite Hr. cbn [fst td_rows]. unfold resolve_principal.
  split; [|split].
  - intros ->. cbn. by rewrite bool_decide_eq_true_2.
  - intros ->. done.
  - cbn [List.filter]. unfold usable. rewrite (bool_decide_eq_false_2 (tk_revoked_at (revoked revoked_at row) = None)) by done. cbn [andb].
    by rewrite bool_decide_eq_true_2.
Qed.
End properties.

Lemma token_operations_witness :
  exists row, create_token "ci" "read" (Some 1) "s" 5 (token_calls [Create "old" "admin" None "o" 1; Revoke "old" 2])
              = (token_calls [Create "old" "admin" None "o" 1; Revoke "old" 2; Create "ci" "read" (Some 1) "s" 5], Ok (row, "s")) /\
    tk_expires_at row = Some 86400000005.
Proof.
  pose proof (token_operations [Create "old" "admin" None "o" 1; Revoke "old" 2] "ci" "read" "s" (Some 1) 5) as Hops.
  cbv zeta in Hops. destruct Hops as (_ & Hc & _). destruct (create_token _ _ _ _ _ _) as [d' [[row shown]|e]] eqn:E.
  - destruct Hc as (-> & _ & _ & _ & _ & Hx & _). exists row. split; [|exact Hx]. f_equal. apply (f_equal fst) in E. symmetry. exact E.
  - exfalso. apply (f_equal snd) in E. vm_compute in E. discriminate E.
Defined.


Lemma revoked_bearer_is_admin_witness :
  let after := td_rows (token_calls [Create "ci" "read" None "s" 1; Revoke "ci" 2]) in
  resolve_principal after (Some "Bearer s") "127.0.0.1" 3 None = Ok (mkPrincipal "loopback" "admin" SrcLoopback).
Proof.
  destruct (revoked_bearer_is_admin "ci" "read" "s" "127.0.0.1" 1 2 3 (Some "Bearer s") None) as (_ & _ & Hafter).
  - split; vm_compute; discriminate.
  - left.
  - left.
  - exact Hafter.
Defined.
End Properties.
