(* ===== verification/Limits.v ===== *)
(** * Request limits ([web/rate_limit.py], [web/limits.py])

    The token buckets, the rate limiter with its brake on failed authentication, the address a request is keyed by, the
    body limit and the same-origin check. Header access takes the first header of a name; parsing an IP address and
    splitting a URL are standard-library functions given as a class. *)

From Stdlib Require Import Ascii String.
From S2P Require Import Prelude PyFloat PyStr Json JobEvents.
#[local] Open Scope string_scope.
#[local] Open Scope list_scope.
#[local] Open Scope Z_scope.

(** ** Buckets *)

(** [capacity], [per_second], [tokens], [updated_at]. *)
Record TokenBucket := mkBucket { tb_capacity : f64; tb_per_second : f64; tb_tokens : f64; tb_updated_at : f64 }.

Definition refill (now : f64) (b : TokenBucket) : TokenBucket :=
  let elapsed := Z.max (fsub now (tb_updated_at b)) 0 in
  mkBucket (tb_capacity b) (tb_per_second b) (Z.min (tb_capacity b) (fadd (tb_tokens b) (fmul elapsed (tb_per_second b)))) now.

(** [None] is [math.inf]. *)
Definition wait_seconds (b : TokenBucket) : option f64 :=
  if fone <=? tb_tokens b then Some 0
  else if 0 <? tb_per_second b then Some (fdiv (fsub fone (tb_tokens b)) (tb_per_second b)) else None.

(** [take]: the bucket after, and the wait; [Some 0] admits. *)
Definition take (now : f64) (b : TokenBucket) : TokenBucket * option f64 :=
  let b := refill now b in
  if fone <=? tb_tokens b then (mkBucket (tb_capacity b) (tb_per_second b) (fsub (tb_tokens b) fone) (tb_updated_at b), Some 0)
  else (b, wait_seconds b).

Definition new_bucket (burst per_minute : Z) (now : f64) : TokenBucket :=
  mkBucket (of_int burst) (fdiv (of_int per_minute) (of_int 60)) (of_int burst) now.

(** [wait > 0.0]. *)
Definition positive (wait : option f64) : bool := match wait with Some w => 0 <? w | None => true end.

(** [max(1, math.ceil(wait if math.isfinite(wait) else 60.0))]. *)
Definition retry_after (wait : option f64) : Z := Z.max 1 (fceil (default (of_int 60) wait)).

(** ** Who a request is keyed by *)

Class Addresses := {
  Network : Type;
  ip_in : string -> Network -> bool       (* [ip_address(text)] parses and lies in the network *)
}.

Definition Headers : Type := list (string * string).
Definition header (name : string) (h : Headers) : option string := assoc name h.

Section keys.
Context `{Externals} `{Addresses}.

Definition in_networks (address : string) (networks : list Network) : bool := existsb (ip_in address) networks.

(** The hops of a header value: its entries, stripped, the blank ones dropped. *)
Definition hops (forwarded : string) : list string :=
  List.filter (fun part => negb (bool_decide (part = ""))) (map strip (split_at ","%char forwarded)).

Definition resolve_client_address (peer : option string) (headers : Headers) (trusted_proxies : list Network) : option string :=
  match peer with
  | None => None
  | Some p =>
      if match trusted_proxies with [] => true | _ => negb (in_networks p trusted_proxies) end then Some p
      else match List.find (fun entry => negb (in_networks entry trusted_proxies)) (rev (hops (default "" (header "x-forwarded-for" headers)))) with
           | Some entry => Some entry
           | None => Some p
           end
  end.

Definition bearer_of (headers : Headers) : option string :=
  let '(scheme, _, value) := partition_at " "%char (default "" (header "authorization" headers)) in
  if bool_decide (lower scheme = "bearer") && negb (bool_decide (strip value = "")) then Some (strip value) else None.

Definition cookie_of (headers : Headers) : option string :=
  match omap (fun part =>
          let '(name, _, cookie_value) := partition_at "="%char (strip part) in
          if bool_decide (name = "loadcoach_token") && negb (bool_decide (cookie_value = "")) then Some cookie_value else None)
        (split_at ";"%char (default "" (header "cookie" headers))) with
  | v :: _ => Some v
  | [] => None
  end.

Definition credential_key (headers : Headers) (client_host : option string) : string * bool :=
  match (match bearer_of headers with Some t => Some t | None => cookie_of headers end) with
  | Some token => ("token:" +:+ String.substring 0 24 (sha256 token), true)
  | None => ("address:" +:+ (match client_host with Some h => if bool_decide (h = "") then "unknown" else h | None => "unknown" end), false)
  end.
End keys.

(** ** The limiter *)

(** The constructor's arguments, clamped. *)
Record Limits := mkLimits { lm_per_minute : Z; lm_burst : Z; lm_failed : Z }.
Definition limits (per_minute burst failed_auth_per_minute : Z) : Limits :=
  mkLimits (Z.max per_minute 0) (Z.max burst 1) (Z.max failed_auth_per_minute 0).

(** A table of buckets in the order of insertion. *)
Definition Buckets : Type := list (string * TokenBucket).
Definition BUCKET_LIMIT : Z := 10000.

Record Limiter := mkLimiter { li_buckets : Buckets; li_failures : Buckets }.

Definition store_bucket (key : string) (b : TokenBucket) (t : Buckets) : Buckets :=
  map (fun kb => if bool_decide (kb.1 = key) then (key, b) else kb) t.

(** [_bucket]/[_failure_bucket]: the bucket of a key, created at its clock reading; an eleventh thousand evicts the oldest. *)
Definition get_bucket (fresh : TokenBucket) (key : string) (t : Buckets) : TokenBucket * Buckets :=
  match assoc key t with
  | Some b => (b, t)
  | None => let t' := t ++ [(key, fresh)] in (fresh, if BUCKET_LIMIT <? zlen t' then tail t' else t')
  end.

Inductive Verdict := LetThrough | Rejected (wait : option f64) (brake : bool).

(** A request arrives: [now] is its clock reading, [later] the one a new bucket takes. *)
Definition arrive (l : Limits) (key : string) (address : option string) (now later : f64) (s : Limiter) : Limiter * Verdict :=
  let '(s, refused) :=
    match address with
    | Some a =>
        if lm_failed l =? 0 then (s, None)
        else
          let '(b, t) := get_bucket (new_bucket (lm_failed l) (lm_failed l) later) a (li_failures s) in
          let b' := refill now b in
          (mkLimiter (li_buckets s) (store_bucket a b' t), if tb_tokens b' <? fone then Some (wait_seconds b') else None)
    | None => (s, None)
    end in
  match refused with
  | Some wait => (s, Rejected wait true)
  | None =>
      if lm_per_minute l =? 0 then (s, LetThrough)
      else
        let '(b, t) := get_bucket (new_bucket (lm_burst l) (lm_per_minute l) later) key (li_buckets s) in
        let '(b', wait) := take now b in
        (mkLimiter (store_bucket key b' t) (li_failures s), if positive wait then Rejected wait false else LetThrough)
  end.

(** The application answers an admitted request. *)
Definition answered (l : Limits) (address : option string) (status : Z) (now later : f64) (s : Limiter) : Limiter :=
  match address with
  | Some a =>
      if (status =? 401) && negb (lm_failed l =? 0)
      then let '(b, t) := get_bucket (new_bucket (lm_failed l) (lm_failed l) later) a (li_failures s) in
           mkLimiter (li_buckets s) (store_bucket a (take now b).1 t)
      else s
  | None => s
  end.

Definition API_PREFIX : string := "/api/v1".
Definition EXEMPT_PATHS : list string := ["/api/v1/version"].

(** Whether a request is limited at all. *)
Definition limited (is_http : bool) (path : string) : bool :=
  is_http && bool_decide (is_Some (drop_prefix API_PREFIX path)) && negb (bool_decide (path ∈ EXEMPT_PATHS)).

(** ** Body size *)

(** What [receive] yields: a chunk and whether more follow, or the client leaving. *)
Inductive Message := Chunk (body : list Byte.byte) (more_body : bool) | Disconnect.

Inductive BodyOutcome :=
| TooLarge                                  (* 413 *)
| Gone                                      (* returned without an answer *)
| Forwarded (body : list Byte.byte)             (* the application is called with this body *)
| Waiting.                                  (* the messages so far decide nothing *)

Fixpoint read_body (limit : Z) (messages : list Message) (buffered : list Byte.byte) : BodyOutcome :=
  match messages with
  | [] => Waiting
  | Disconnect :: _ => Gone
  | Chunk body more :: rest =>
      let seen := buffered ++ body in
      if limit <? zlen seen then TooLarge else if more then read_body limit rest seen else Forwarded seen
  end.

Definition body_limit `{Digits} (max_bytes : Z) (declared : option string) (messages : list Message) : result BodyOutcome :=
  let limit := Z.max max_bytes 1 in
  over ← (match declared with
          | Some text => if isdigit text then n ← int_of text; Ok (limit <? n) else Ok false
          | None => Ok false
          end);
  Ok (if (over : bool) then TooLarge else read_body limit messages []).

(** ** Same origin *)

(** [urlsplit(text).hostname]. *)
Class Urls := { url_hostname : string -> result (option string) }.

Definition UNSAFE_METHODS : list string := ["POST"; "PUT"; "PATCH"; "DELETE"].

(** Whether a request passes; [host] is the header, [""] when there is none. *)
Definition same_origin `{Urls} (is_http : bool) (method : string) (origin : option string) (host : string) : result bool :=
  if negb is_http || negb (bool_decide (method ∈ UNSAFE_METHODS)) then Ok true
  else match origin with
       | None => Ok true
       | Some o =>
           let host := lower (partition_at ":"%char host).1.1 in
           origin_host ← (if bool_decide (o = "null") then Ok "" else h ← url_hostname o; Ok (lower (default "" h)));
           Ok (negb (bool_decide (origin_host = "")) && bool_decide (origin_host = host))
       end.

(** ** Lemmas: rounding error *)

(** Rounding adds at most one part in 2^53, and half a unit near zero. *)
Lemma fround_above n d : 0 <= n -> 0 < d -> fround n d * d * 2 ^ 53 <= n * (2 ^ 53 + 1) + d * 2 ^ 52.
Proof.
  intros Hn Hd. rewrite fround_nonneg_eq by done. unfold fround_pos. set (k := ulp_exp n d). pose proof (ulp_exp_nonneg n d) as Hk. fold k in Hk.
  pose proof (pow2_pos k Hk) as Hp. set (D := d * 2 ^ k). assert (HD : 0 < D) by nia.
  assert (Hr : 2 * (round_half_even n D * D) <= 2 * n + D).
  { unfold round_half_even. pose proof (Z.div_mod n D ltac:(lia)) as Hdm. pose proof (Z.mod_pos_bound n D HD) as Hmb.
    destruct (Z.compare_spec (2 * (n mod D)) D) as [Ee|El|Eg]; [destruct (Z.even (n / D))|..]; nia. }
  assert (Hm : round_half_even n D * 2 ^ k * d = round_half_even n D * D) by (unfold D; ring). rewrite Hm.
  assert (HDn : D * 2 ^ 52 <= n + d * 2 ^ 52).
  { destruct (Z.eq_dec k 0) as [E|E]; [unfold D; rewrite E; lia|]. pose proof (ulp_exp_lower n d Hn Hd ltac:(lia)) as Hl. fold k in Hl.
    rewrite Z.pow_add_r in Hl by lia. unfold D. nia. }
  change (2 ^ 53) with (2 * 2 ^ 52) in *. nia.
Qed.

(** Sums of integers round with a relative error only. *)
Lemma fround_int_above n : 0 <= n -> fround n 1 * 2 ^ 53 <= n * (2 ^ 53 + 1).
Proof.
  intros Hn. rewrite fround_nonneg_eq by lia. unfold fround_pos. set (k := ulp_exp n 1). pose proof (ulp_exp_nonneg n 1) as Hk. fold k in Hk.
  destruct (Z.eq_dec k 0) as [E|E].
  - rewrite E. rewrite rhe_exact, Z.div_1_r by (lia || apply Z.divide_1_l). lia.
  - pose proof (pow2_pos k Hk) as Hp. set (D := 1 * 2 ^ k). assert (HD : 0 < D) by nia.
    assert (Hr : 2 * (round_half_even n D * D) <= 2 * n + D).
    { unfold round_half_even. pose proof (Z.div_mod n D ltac:(lia)) as Hdm. pose proof (Z.mod_pos_bound n D HD) as Hmb.
      destruct (Z.compare_spec (2 * (n mod D)) D) as [Ee|El|Eg]; [destruct (Z.even (n / D))|..]; nia. }
    pose proof (ulp_exp_lower n 1 Hn ltac:(lia) ltac:(lia)) as Hl. fold k in Hl. rewrite Z.pow_add_r in Hl by lia.
    change (2 ^ 53) with (2 * 2 ^ 52) in *. unfold D in *. nia.
Qed.

(** ** Lemmas: a bucket over a sequence of requests *)

Record bucket_ok (b : TokenBucket) : Prop := {
  bo_capacity : repr (tb_capacity b);
  bo_rate : 0 <= tb_per_second b <= 2 ^ 1021 * fone;
  bo_tokens : 0 <= tb_tokens b <= tb_capacity b;
  bo_repr : repr (tb_tokens b)
}.

(** The floats just below 1 are spaced by 2^-53. *)
Lemma repr_below_one t : repr t -> 0 <= t < fone -> 2 ^ 1021 <= fone - t.
Proof.
  intros Hr Ht. assert (Hf : fone = 2 ^ 1074) by with_strategy transparent [fone] reflexivity. rewrite Hf in *. destruct (Z.lt_ge_cases t (2 ^ 1073)) as [|Hge]; [nia|].
  assert (Hk : ulp_exp t 1 = 1021).
  { unfold ulp_exp. rewrite Z.div_1_r. rewrite (Z.log2_unique t 1073); [done|lia|]. change (2 ^ Z.succ 1073) with (2 ^ 1074). lia. }
  unfold repr in Hr. rewrite fround_nonneg_eq in Hr by lia. unfold fround_pos in Hr. rewrite Hk in Hr.
  set (q := round_half_even t (1 * 2 ^ 1021)) in Hr. change (2 ^ 1074) with (2 ^ 53 * 2 ^ 1021) in *.
  assert (q < 2 ^ 53) by nia. nia.
Qed.

Lemma wait_positive b : repr (tb_tokens b) -> 0 <= tb_tokens b < fone -> tb_per_second b <= 2 ^ 1021 * fone -> positive (wait_seconds b) = true.
Proof.
  intros Hr Ht Hrate. unfold wait_seconds. rewrite (proj2 (Z.leb_gt _ _)) by lia. destruct (0 <? tb_per_second b) eqn:E; [|done].
  apply Z.ltb_lt in E. cbn [positive]. apply Z.ltb_lt. rewrite fdiv_pos_eq by done. pose proof fone_pos.
  assert (Hw : 2 ^ 1021 <= fsub fone (tb_tokens b)).
  { apply fround_ge_repr; [lia| |]. 2: { pose proof (repr_below_one _ Hr Ht). lia. }
    rewrite <- (Z.mul_1_l (2 ^ 1021)). apply repr_scaled; lia. }
  enough (1 <= fround (fsub fone (tb_tokens b) * fone) (tb_per_second b)) by lia.
  apply fround_ge_repr; [done|change 1 with (1 * 2 ^ 0); apply repr_scaled; lia|]. nia.
Qed.

Lemma refill_spec now b :
  bucket_ok b -> tb_updated_at b <= now ->
  let b' := refill now b in
  bucket_ok b' /\ tb_capacity b' = tb_capacity b /\ tb_per_second b' = tb_per_second b /\ tb_updated_at b' = now /\
  tb_tokens b' * fone * 2 ^ 106 <=
    tb_tokens b * fone * 2 ^ 106 + (now - tb_updated_at b) * tb_per_second b * (2 ^ 53 + 1) ^ 2 + fone * 2 ^ 105 + tb_capacity b * fone * 2 ^ 53.
Proof.
  intros [Hc [Hr Hr'] Ht Hx] Hnow. unfold refill. cbn [tb_capacity tb_per_second tb_tokens tb_updated_at]. set (e := Z.max (fsub now (tb_updated_at b)) 0).
  set (x := tb_tokens b) in *. set (r := tb_per_second b) in *. set (y := fmul e r). set (z := fadd x y). pose proof fone_pos as HF.
  assert (He : 0 <= e) by lia. assert (Hy : 0 <= y) by by apply fmul_nonneg.
  assert (He1 : e * 2 ^ 53 <= (now - tb_updated_at b) * (2 ^ 53 + 1)).
  { unfold e, fsub. pose proof (fround_int_above (now - tb_updated_at b) ltac:(lia)). lia. }
  assert (Hy1 : y * fone * 2 ^ 53 <= e * r * (2 ^ 53 + 1) + fone * 2 ^ 52) by (unfold y, fmul; apply fround_above; nia).
  assert (Hz : Z.min (tb_capacity b) z * 2 ^ 53 <= (x + y) * 2 ^ 53 + tb_capacity b).
  { destruct (Z.le_gt_cases (x + y) (tb_capacity b)); [|lia]. pose proof (fround_int_above (x + y) ltac:(lia)) as Hz. fold (fadd x y) in Hz. fold z in Hz. lia. }
  split; [|split; [done|split; [done|split; [done|]]]].
  - split; cbn; [done|done| |].
    + pose proof (fadd_nonneg x y ltac:(lia) Hy) as Hz0. fold z in Hz0. lia.
    + destruct (Z.min_spec (tb_capacity b) z) as [[_ ->]|[_ ->]]; [done|apply repr_fadd].
  - assert (Hy2 : y * fone * 2 ^ 106 <= (now - tb_updated_at b) * r * (2 ^ 53 + 1) ^ 2 + fone * 2 ^ 105).
    { assert (e * r * 2 ^ 53 <= (now - tb_updated_at b) * (2 ^ 53 + 1) * r) by nia.
      change (2 ^ 106) with (2 ^ 53 * 2 ^ 53). change (2 ^ 105) with (2 ^ 52 * 2 ^ 53). nia. }
    change (2 ^ 106) with (2 ^ 53 * 2 ^ 53) in *. nia.
Qed.

Lemma take_spec now b :
  bucket_ok b -> tb_updated_at b <= now ->
  let admitted := if positive (take now b).2 then 0 else 1 in
  let b' := (take now b).1 in
  bucket_ok b' /\ tb_capacity b' = tb_capacity b /\ tb_per_second b' = tb_per_second b /\ tb_updated_at b' = now /\
  (admitted * fone + tb_tokens b') * 2 ^ 53 <= tb_tokens (refill now b) * 2 ^ 53 + tb_capacity b.
Proof.
  intros Hok Hnow. destruct (refill_spec now b Hok Hnow) as (Hok' & Hc & Hr & Hu & _). unfold take. set (b1 := refill now b) in *.
  destruct Hok' as [Hrc Hrate Ht Hx]. pose proof fone_pos as HF. destruct (fone <=? tb_tokens b1) eqn:E; cbn [fst snd positive].
  - apply Z.leb_le in E. assert (Hs : fsub (tb_tokens b1) fone * 2 ^ 53 <= (tb_tokens b1 - fone) * (2 ^ 53 + 1)) by (apply fround_int_above; lia).
    assert (Hle : fsub (tb_tokens b1) fone <= tb_capacity b1) by (apply fround_le_repr; lia || done).
    assert (Hge : 0 <= fsub (tb_tokens b1) fone) by (apply fround_nonneg; lia).
    split; [split; cbn; [done|done|done|apply repr_fsub]|]. split; [done|]. split; [done|]. split; [done|]. cbn [tb_tokens]. rewrite Z.ltb_irrefl. lia.
  - apply Z.leb_gt in E. split; [by split|]. split; [done|]. split; [done|]. split; [done|].
    rewrite wait_positive by (done || lia). lia.
Qed.

(** The requests of one bucket at the given times: how many are admitted, and the bucket left. *)
Fixpoint takes (times : list f64) (b : TokenBucket) : Z * TokenBucket :=
  match times with
  | [] => (0, b)
  | now :: rest =>
      let '(b', wait) := take now b in
      let '(n, b'') := takes rest b' in
      ((if positive wait then 0 else 1) + n, b'')
  end.

(** The clock does not go back. *)
Fixpoint monotonic (from : f64) (times : list f64) : Prop :=
  match times with [] => True | now :: rest => from <= now /\ monotonic now rest end.

Lemma takes_bound times b last :
  bucket_ok b -> monotonic (tb_updated_at b) times -> (forall t, t ∈ times -> t <= last) -> tb_updated_at b <= last ->
  (takes times b).1 * fone * fone * 2 ^ 106 <=
    tb_tokens b * fone * 2 ^ 106 + (last - tb_updated_at b) * tb_per_second b * (2 ^ 53 + 1) ^ 2 +
    zlen times * (fone * 2 ^ 105 + tb_capacity b * fone * 2 ^ 54).
Proof.
  revert b. induction times as [|now times IH]; intros b Hok Hm Hall Hlast.
  { cbn [takes fst]. unfold zlen. cbn. pose proof fone_pos. destruct Hok as [_ [? _] ? _]. nia. }
  destruct Hm as [Hnow Hm]. pose proof (Hall now ltac:(left)) as Hnl.
  destruct (refill_spec now b Hok Hnow) as (_ & _ & _ & _ & Hrefill). destruct (take_spec now b Hok Hnow) as (Hok' & Hc & Hr & Hu & Htake).
  cbn [takes]. destruct (take now b) as [b' wait]. cbn [fst snd] in *. specialize (IH b' Hok'). rewrite Hu, Hc, Hr in IH.
  specialize (IH Hm ltac:(intros t Hin; apply Hall; by right) Hnl). destruct (takes times b') as [n b'']. cbn [fst] in *.
  set (adm := if positive wait then 0 else 1) in *. assert (Hz : zlen (now :: times) = zlen times + 1) by (unfold zlen; cbn; lia). rewrite Hz.
  pose proof fone_pos as HF. set (R := tb_per_second b * (2 ^ 53 + 1) ^ 2) in *. set (C := tb_capacity b) in *. set (x := tb_tokens b) in *. set (x1 := tb_tokens (refill now b)) in *.
  set (x2 := tb_tokens b') in *. set (u := tb_updated_at b) in *.
  assert (Htake' : (adm * fone + x2) * fone * 2 ^ 106 <= x1 * fone * 2 ^ 106 + C * fone * 2 ^ 53).
  { change (2 ^ 106) with (2 ^ 53 * 2 ^ 53). nia. }
  assert (E1 : (last - u) * tb_per_second b * (2 ^ 53 + 1) ^ 2 = (now - u) * R + (last - now) * R) by (unfold R; ring).
  replace ((last - now) * tb_per_second b * (2 ^ 53 + 1) ^ 2) with ((last - now) * R) in IH by (unfold R; ring).
  replace ((now - u) * tb_per_second b * (2 ^ 53 + 1) ^ 2) with ((now - u) * R) in Hrefill by (unfold R; ring).
  rewrite E1. change (2 ^ 54) with (2 * 2 ^ 53) in *. lia.
Qed.

Lemma takes_ok times rest b :
  bucket_ok b -> monotonic (tb_updated_at b) (times ++ rest) ->
  let b' := (takes times b).2 in
  bucket_ok b' /\ tb_capacity b' = tb_capacity b /\ tb_per_second b' = tb_per_second b /\ monotonic (tb_updated_at b') rest.
Proof.
  revert b. induction times as [|now times IH]; intros b Hok Hm; [done|]. destruct Hm as [Hnow Hm]. cbn [takes].
  destruct (take_spec now b Hok Hnow) as (Hok' & Hc & Hr & Hu & _). destruct (take now b) as [b' wait]. cbn [fst snd] in *. rewrite <- Hu in Hm.
  specialize (IH b' Hok' Hm). destruct (takes times b') as [n b'']. cbn [fst snd] in *. destruct IH as (? & ? & ? & ?). split_and!; [done|congruence..|done].
Qed.

Lemma window_arithmetic F k burst pm n r :
  2 ^ 200 <= F -> 0 <= burst <= 2 ^ 20 -> 0 <= pm <= 2 ^ 20 -> 0 <= n <= 2 ^ 30 ->
  r * 60 * 2 ^ 53 <= pm * F * (2 ^ 53 + 1) + 60 * 2 ^ 52 ->
  k * F * F * 2 ^ 106 <= burst * F * F * 2 ^ 106 + burst * F * F * 2 ^ 53 + 60 * F * r * (2 ^ 53 + 1) ^ 2 + n * (F * 2 ^ 105 + burst * F * F * 2 ^ 54) ->
  k <= burst + pm.
Proof.
  intros HF Hb Hp Hn Hr Hk. destruct (Z.le_gt_cases k (burst + pm)) as [|Hgt]; [done|]. exfalso.
  assert (Hk1 : k * F * 2 ^ 106 <= burst * F * 2 ^ 106 + burst * F * 2 ^ 53 + 60 * r * (2 ^ 53 + 1) ^ 2 + n * (2 ^ 105 + burst * F * 2 ^ 54)).
  { apply (Z.mul_le_mono_pos_l _ _ F); [lia|]. replace (F * (k * F * 2 ^ 106)) with (k * F * F * 2 ^ 106) by ring.
    etransitivity; [exact Hk|]. apply Z.eq_le_incl. ring. }
  assert (HbF : 0 <= burst * F <= 2 ^ 20 * F) by nia. assert (HpF : 0 <= pm * F <= 2 ^ 20 * F) by nia.
  assert (HkF : (burst + pm + 1) * F <= k * F) by nia. assert (HnbF : n * (burst * F) <= 2 ^ 30 * (2 ^ 20 * F)) by (apply Z.mul_le_mono_nonneg; lia).
  assert (Hr2 : 60 * r * (2 ^ 53 + 1) ^ 2 * 2 ^ 53 <= (pm * F * (2 ^ 53 + 1) + 60 * 2 ^ 52) * (2 ^ 53 + 1) ^ 2).
  { replace (60 * r * (2 ^ 53 + 1) ^ 2 * 2 ^ 53) with (r * 60 * 2 ^ 53 * (2 ^ 53 + 1) ^ 2) by ring. apply Z.mul_le_mono_nonneg_r; [lia|done]. }
  assert (Hn2 : n * (2 ^ 105 + burst * F * 2 ^ 54) = n * 2 ^ 105 + n * (burst * F) * 2 ^ 54) by ring. rewrite Hn2 in Hk1.
  clear Hn2 Hk Hr. rewrite !Z.mul_add_distr_r in HkF. rewrite Z.mul_add_distr_r in Hr2.
  set (bF := burst * F) in *. set (nbF := n * bF) in *. set (kF := k * F) in *. set (pF := pm * F) in *. clearbody bF nbF kF pF. lia.
Qed.

Lemma new_bucket_ok burst pm now :
  1 <= burst <= 2 ^ 20 -> 0 <= pm <= 2 ^ 20 ->
  let b := new_bucket burst pm now in
  bucket_ok b /\ tb_capacity b = burst * fone /\ tb_per_second b * 60 * 2 ^ 53 <= pm * fone * (2 ^ 53 + 1) + 60 * 2 ^ 52.
Proof.
  intros Hb Hp. unfold new_bucket. cbn [tb_capacity tb_per_second tb_tokens]. rewrite !of_int_exact by lia. pose proof fone_pos as HF.
  rewrite fdiv_pos_eq by lia.
  assert (Hr : fround (pm * fone * fone) (60 * fone) * 60 * 2 ^ 53 <= pm * fone * (2 ^ 53 + 1) + 60 * 2 ^ 52).
  { pose proof (fround_above (pm * fone * fone) (60 * fone) ltac:(nia) ltac:(lia)) as Ha. apply (Z.mul_le_mono_pos_l _ _ fone); [done|].
    etransitivity; [|etransitivity; [exact Ha|]]; apply Z.eq_le_incl; ring. }
  split; [|done]. split; cbn [tb_capacity tb_per_second tb_tokens].
  - apply repr_int. lia.
  - split; [apply fround_nonneg; nia|]. nia.
  - nia.
  - apply repr_int. lia.
Qed.

(** ** Lemmas: the tables *)

(** What happens at the limiter, in order. *)
Inductive Event :=
| Arrive (key : string) (address : option string) (now later : f64)
| Answered (address : option string) (status : Z) (now later : f64).

Definition step (l : Limits) (e : Event) (s : Limiter) : Limiter * list Verdict :=
  match e with
  | Arrive key address now later => let '(s', v) := arrive l key address now later s in (s', [v])
  | Answered address status now later => (answered l address status now later s, [])
  end.

Fixpoint run (l : Limits) (events : list Event) (s : Limiter) : Limiter * list Verdict :=
  match events with
  | [] => (s, [])
  | e :: rest => let '(s', v) := step l e s in let '(s'', vs) := run l rest s' in (s'', v ++ vs)
  end.

Definition empty_limiter : Limiter := mkLimiter [] [].

Lemma run_app l es es' s : run l (es ++ es') s = let '(s', v) := run l es s in let '(s'', v') := run l es' s' in (s'', v ++ v').
Proof.
  induction es as [|e es IH] in s |- *; cbn [app run]; [by destruct (run l es' s)|]. destruct (step l e s) as [s1 v1]. rewrite IH.
  destruct (run l es s1) as [s2 v2]. destruct (run l es' s2) as [s3 v3]. by rewrite app_assoc.
Qed.

Definition within (t : Buckets) : Prop := zlen t <= BUCKET_LIMIT.

Lemma store_within key b t : within t -> within (store_bucket key b t).
Proof. unfold within, zlen, store_bucket. by rewrite length_map. Qed.

Lemma get_within fresh key t : within t -> within (get_bucket fresh key t).2.
Proof.
  unfold get_bucket, within. intros Ht. destruct (assoc key t); cbn [snd]; [done|].
  destruct (BUCKET_LIMIT <? zlen (t ++ [(key, fresh)])) eqn:E; [|by apply Z.ltb_ge in E].
  unfold zlen in *. rewrite length_app in *. cbn in *. destruct t as [|x t]; cbn [app tail] in *; [cbn; unfold BUCKET_LIMIT; lia|]. rewrite length_app in *. cbn in *. lia.
Qed.

Lemma step_within l e s : within (li_buckets s) /\ within (li_failures s) -> within (li_buckets (step l e s).1) /\ within (li_failures (step l e s).1).
Proof.
  intros [Hb Hf]. destruct e as [key address now later|address status now later]; cbn [step].
  - unfold arrive.
    assert (Hpay : forall s, within (li_buckets s) -> within (li_failures s) ->
      let r := (let '(b, t) := get_bucket (new_bucket (lm_burst l) (lm_per_minute l) later) key (li_buckets s) in
                let '(b', wait) := take now b in
                (mkLimiter (store_bucket key b' t) (li_failures s), if positive wait then Rejected wait false else LetThrough)) in
      within (li_buckets r.1) /\ within (li_failures r.1)).
    { intros s0 Hb0 Hf0. pose proof (get_within (new_bucket (lm_burst l) (lm_per_minute l) later) key _ Hb0) as Hg. destruct (get_bucket _ key _) as [b t].
      destruct (take now b) as [b' wait]. cbn in *. split; [by apply store_within|done]. }
    destruct address as [a|]; [destruct (lm_failed l =? 0)|].
    + destruct (lm_per_minute l =? 0); [by split|]. specialize (Hpay s Hb Hf). destruct (get_bucket _ key _) as [b t]. destruct (take now b). exact Hpay.
    + pose proof (get_within (new_bucket (lm_failed l) (lm_failed l) later) a _ Hf) as Hg. destruct (get_bucket _ a _) as [b t]. cbn [snd] in Hg.
      pose proof (store_within a (refill now b) t Hg) as Hs. destruct (tb_tokens (refill now b) <? fone); [by split|].
      destruct (lm_per_minute l =? 0); [by split|]. specialize (Hpay (mkLimiter (li_buckets s) (store_bucket a (refill now b) t)) Hb Hs).
      cbn [li_buckets li_failures] in *. destruct (get_bucket _ key _) as [b2 t2]. destruct (take now b2). exact Hpay.
    + destruct (lm_per_minute l =? 0); [by split|]. specialize (Hpay s Hb Hf). destruct (get_bucket _ key _) as [b t]. destruct (take now b). exact Hpay.
  - cbn [fst]. unfold answered. destruct address as [a|]; [|by split]. destruct ((status =? 401) && _); [|by split].
    pose proof (get_within (new_bucket (lm_failed l) (lm_failed l) later) a _ Hf) as Hg. destruct (get_bucket _ a _) as [b t]. cbn in *.
    split; [done|by apply store_within].
Qed.

Lemma requests_within l es s : within (li_buckets s) -> within (li_failures s) -> within (li_buckets (run l es s).1) /\ within (li_failures (run l es s).1).
Proof.
  induction es as [|e es IH] in s |- *; cbn [run]; [done|]. intros Hb Hf. pose proof (step_within l e s (conj Hb Hf)) as [Hb' Hf'].
  destruct (step l e s) as [s' v]. cbn [fst] in *. specialize (IH s' Hb' Hf'). by destruct (run l es s') as [s'' vs].
Qed.

Lemma assoc_store key b t : is_Some (assoc key t) -> assoc key (store_bucket key b t) = Some b.
Proof.
  unfold store_bucket. induction t as [|[k v] t IH]; cbn; [by intros [? ?]|]. intros Hs. destruct (decide (key = k)) as [->|Hne].
  - rewrite (bool_decide_eq_true_2 (k = k)) by done. cbn. by rewrite bool_decide_eq_true_2.
  - rewrite bool_decide_eq_false_2 in Hs by done. rewrite (bool_decide_eq_false_2 (k = key)) by done. cbn. rewrite bool_decide_eq_false_2 by done. by apply IH.
Qed.

(** A full bucket. *)
Definition full (limit : Z) (b : TokenBucket) : Prop :=
  tb_capacity b = of_int limit /\ tb_tokens b = of_int limit /\ 0 <= tb_per_second b.

Lemma refill_full limit now b : full limit b -> full limit (refill now b).
Proof.
  intros (Hc & Ht & Hr). unfold refill, full. cbn [tb_capacity tb_tokens tb_per_second]. split; [done|]. split; [|done]. rewrite Hc, Ht.
  apply Z.min_l. apply fround_ge_repr; [lia|apply repr_of_int|]. pose proof (fmul_nonneg (Z.max (fsub now (tb_updated_at b)) 0) (tb_per_second b) ltac:(lia) Hr). lia.
Qed.

Lemma new_full limit now : 0 <= limit -> full limit (new_bucket limit limit now).
Proof. intros Hl. split; [done|split; [done|]]. cbn. rewrite (of_int_exact 60) by lia. pose proof fone_pos. apply fdiv_nonneg; [by apply of_int_nonneg|lia]. Qed.

(** An address no answer has been counted against. *)
Definition clean (limit : Z) (address : string) (s : Limiter) : Prop :=
  forall b, assoc address (li_failures s) = Some b -> full limit b.

Lemma arrive_clean l key a now later s :
  1 <= lm_failed l -> lm_per_minute l = 0 -> clean (lm_failed l) a s -> zlen (li_failures s) < BUCKET_LIMIT ->
  exists s', arrive l key (Some a) now later s = (s', LetThrough) /\ clean (lm_failed l) a s' /\ zlen (li_failures s') < BUCKET_LIMIT + 1 /\
    is_Some (assoc a (li_failures s')) /\ (is_Some (assoc a (li_failures s)) -> zlen (li_failures s') = zlen (li_failures s)).
Proof.
  intros Hl Hp Hc Hz. unfold arrive. rewrite (proj2 (Z.eqb_neq _ _)) by lia. unfold get_bucket.
  assert (Hone : forall b, full (lm_failed l) b -> tb_tokens b <? fone = false).
  { intros b (_ & -> & _). apply Z.ltb_ge. transitivity (of_int 1); [by rewrite of_int_exact, Z.mul_1_l by lia|by apply of_int_mono]. }
  destruct (assoc a (li_failures s)) as [b|] eqn:E.
  - pose proof (refill_full _ now _ (Hc b E)) as Hf. rewrite (Hone _ Hf). rewrite Hp, Z.eqb_refl. eexists. split; [reflexivity|]. cbn [li_failures].
    assert (Ha : assoc a (store_bucket a (refill now b) (li_failures s)) = Some (refill now b)) by (apply assoc_store; by rewrite E).
    split; [|split; [|split]].
    + intros b' Hb'. cbn in Hb'. rewrite Ha in Hb'. by injection Hb' as <-.
    + unfold zlen, store_bucket in *. rewrite length_map. lia.
    + by rewrite Ha.
    + intros _. unfold zlen, store_bucket. by rewrite length_map.
  - pose proof (refill_full _ now _ (new_full (lm_failed l) later ltac:(lia))) as Hf. rewrite (Hone _ Hf). rewrite Hp, Z.eqb_refl.
    assert (Hn : BUCKET_LIMIT <? zlen (li_failures s ++ [(a, new_bucket (lm_failed l) (lm_failed l) later)]) = false).
    { apply Z.ltb_ge. unfold zlen in *. rewrite length_app. cbn. lia. }
    rewrite Hn. eexists. split; [reflexivity|]. cbn [li_failures]. set (t := li_failures s ++ _).
    assert (Ht : is_Some (assoc a t)) by (apply assoc_is_Some; unfold t; rewrite fmap_app, elem_of_app; right; left).
    pose proof (assoc_store a (refill now (new_bucket (lm_failed l) (lm_failed l) later)) t Ht) as Ha. split; [|split; [|split]].
    + intros b' Hb'. cbn in Hb'. rewrite Ha in Hb'. by injection Hb' as <-.
    + unfold zlen, store_bucket, t in *. rewrite length_map, length_app. cbn. lia.
    + by rewrite Ha.
    + by intros [? ?].
Qed.

Lemma arrivals_clean l key a (times : list (f64 * f64)) s :
  1 <= lm_failed l -> lm_per_minute l = 0 -> clean (lm_failed l) a s -> zlen (li_failures s) < BUCKET_LIMIT ->
  is_Some (assoc a (li_failures s)) ->
  (run l (map (fun t => Arrive key (Some a) t.1 t.2) times) s).2 = repeat LetThrough (length times).
Proof.
  intros Hl Hp. induction times as [|[now later] times IH] in s |- *; cbn [map run step length repeat]; [done|]. intros Hc Hz Hs.
  destruct (arrive_clean l key a now later s Hl Hp Hc Hz) as (s' & E & Hc' & _ & Hs' & Hsame). cbn [fst snd]. rewrite E.
  specialize (IH s' Hc' ltac:(rewrite (Hsame Hs); done) Hs'). destruct (run l _ s') as [s'' vs]. cbn [snd] in *. by rewrite IH.
Qed.

(** ** Lemmas: bodies *)

Lemma read_body_forwarded limit msgs buf body :
  read_body limit msgs buf = Forwarded body <->
  exists chunks last rest, msgs = map (fun c => Chunk c true) chunks ++ Chunk last false :: rest /\
    body = buf ++ List.concat chunks ++ last /\ zlen body <= limit.
Proof.
  induction msgs as [|[c more|] msgs IH] in buf |- *; cbn [read_body].
  - split; [done|]. intros ([|? ?] & ? & ? & E & _); done.
  - destruct (limit <? zlen (buf ++ c)) eqn:E.
    + split; [done|]. intros ([|c' chunks] & last & rest & Em & Eb & Hb).
      * injection Em as -> -> ->. subst body. cbn [List.concat app] in Hb. apply Z.ltb_lt in E. lia.
      * injection Em as -> -> Em. subst body. apply Z.ltb_lt in E. unfold zlen in *. cbn [List.concat] in Hb. rewrite !length_app in *. lia.
    + destruct more.
      * rewrite IH. split.
        -- intros (chunks & last & rest & -> & -> & Hb). exists (c :: chunks), last, rest. cbn [List.concat map]. by rewrite <- !app_assoc in *.
        -- intros ([|c' chunks] & last & rest & Em & Eb & Hb); [done|]. injection Em as -> Em. exists chunks, last, rest. subst body.
           cbn [List.concat] in *. rewrite <- !app_assoc in *. by split_and!.
      * split.
        -- intros [= <-]. exists [], c, msgs. cbn. apply Z.ltb_ge in E. by split_and!.
        -- intros ([|c' chunks] & last & rest & Em & Eb & Hb); [|done]. injection Em as -> ->. by subst body.
  - split; [done|]. intros ([|? ?] & ? & ? & E & _); done.
Qed.


(** ** Lemmas: addresses *)

Lemma find_app_l {A} (p : A -> bool) l k : List.find p (l ++ k) = match List.find p l with Some x => Some x | None => List.find p k end.
Proof. induction l as [|x l IH]; [done|]. cbn. by destruct (p x). Qed.

Lemma find_rev_split {A} (p : A -> bool) l :
  match List.find p (rev l) with
  | Some x => exists l1 l2, l = l1 ++ x :: l2 /\ p x = true /\ forallb (fun y => negb (p y)) l2 = true
  | None => forallb (fun y => negb (p y)) l = true
  end.
Proof.
  induction l as [|y l IH]; [done|]. cbn [rev]. rewrite find_app_l. cbn [List.find]. destruct (List.find p (rev l)) as [x|].
  - destruct IH as (l1 & l2 & -> & Hx & Hall). by exists (y :: l1), l2.
  - destruct (p y) eqn:Ey.
    + exists [], l. by split_and!.
    + cbn [forallb]. by rewrite Ey, IH.
Qed.

Module Properties.

(** C28: In any minute a bucket admits at most its burst and one minute's rate, whatever came before, rounding included: for rates and
    bursts up to 2^20 and up to 2^30 requests. *)
Theorem rate_limit_bound (burst per_minute : Z) (created : f64) (earlier window : list f64)
    (Hburst : 1 <= burst <= 2 ^ 20) (Hrate : 0 <= per_minute <= 2 ^ 20) (Hclock : monotonic created (earlier ++ window))
    (Hmany : zlen window <= 2 ^ 30) (Hminute : forall t t', t ∈ window -> t' ∈ window -> t - t' <= 60 * fone) :
  (takes window (takes earlier (new_bucket burst per_minute created)).2).1 <= burst + per_minute.
Proof.
  destruct (new_bucket_ok burst per_minute created Hburst Hrate) as (Hok & Hcap & Hr).
  destruct (takes_ok earlier window (new_bucket burst per_minute created) Hok Hclock) as (Hok1 & Hc1 & Hr1 & Hm). rewrite <- Hr1 in Hr. rewrite <- Hc1 in Hcap.
  destruct (takes earlier _) as [n1 b]. cbn [snd] in *. destruct window as [|t window]; [cbn; lia|]. destruct Hm as [Hnow Hm].
  destruct (take_spec t b Hok1 Hnow) as (Hok' & Hc & Hr' & Hu & Htake). destruct (refill_spec t b Hok1 Hnow) as (Hokr & Hcr & _).
  cbn [takes]. destruct (take t b) as [b' wait]. cbn [fst snd] in *.
  pose proof (takes_bound window b' (t + 60 * fone) Hok') as Hb. rewrite Hu in Hb. pose proof fone_pos as HF.
  specialize (Hb Hm ltac:(intros t' Hin; pose proof (Hminute t' t ltac:(by right) ltac:(left)); lia) ltac:(lia)).
  destruct (takes window b') as [k b'']. cbn [fst] in *. rewrite Hc, Hcap, Hr' in Hb. replace (t + 60 * fone - t) with (60 * fone) in Hb by lia.
  set (adm := if positive wait then 0 else 1) in *. assert (Hx : tb_tokens (refill t b) <= burst * fone) by (rewrite <- Hcap, <- Hcr; apply Hokr).
  rewrite Hcap in Htake. assert (HF200 : 2 ^ 200 <= fone) by (with_strategy transparent [fone] (unfold fone; lia)).
  apply (window_arithmetic fone (adm + k) burst per_minute (zlen window) (tb_per_second b)); try lia.
  - unfold zlen in *. cbn in Hmany. lia.
  - assert (Ht : (adm * fone + tb_tokens b') * fone * 2 ^ 106 <= burst * fone * fone * 2 ^ 106 + burst * fone * fone * 2 ^ 53).
    { change (2 ^ 106) with (2 ^ 53 * 2 ^ 53). nia. }
    replace ((adm + k) * fone * fone * 2 ^ 106) with (adm * fone * fone * 2 ^ 106 + k * fone * fone * 2 ^ 106) by ring. nia.
Qed.

Lemma rate_limit_bound_witness :
  let times := repeat (3 * fone) 3 in
  (takes times (takes [0; fone] (new_bucket 2 0 0)).2).1 <= 2 + 0.
Proof.
  intros times. apply (rate_limit_bound 2 0 0 [0; fone] times).
  - lia.
  - lia.
  - pose proof fone_pos. cbn. lia.
  - cbn. unfold zlen. cbn. lia.
  - intros t t' Ht Ht'. pose proof fone_pos. unfold times in *. cbn in Ht, Ht'. rewrite !elem_of_cons, elem_of_nil in Ht, Ht'. lia.
Defined.

(** The two tables never hold more than ten thousand buckets, whatever arrives. *)
Theorem tables_bounded (l : Limits) (events : list Event) :
  let s := (run l events empty_limiter).1 in
  zlen (li_buckets s) <= BUCKET_LIMIT /\ zlen (li_failures s) <= BUCKET_LIMIT.
Proof. apply requests_within; unfold within, zlen; cbn; unfold BUCKET_LIMIT; lia. Qed.

(** The brake on failed authentication counts answers and is asked on arrival: any number of requests of one address that arrive
    before the first is answered are admitted, however small the limit. *)
Theorem brake_bypassed (l : Limits) (key address : string) (times : list (f64 * f64))
    (Hlimit : 1 <= lm_failed l) (Hrate : lm_per_minute l = 0) :
  (run l (map (fun t => Arrive key (Some address) t.1 t.2) times) empty_limiter).2 = repeat LetThrough (length times).
Proof.
  destruct times as [|[now later] times]; [done|]. cbn [map run step fst snd length repeat].
  destruct (arrive_clean l key address now later empty_limiter Hlimit Hrate) as (s' & E & Hc & Hz & Hs & _).
  - intros b Hb. done.
  - reflexivity.
  - rewrite E. destruct (Z.eq_dec (zlen (li_failures s')) BUCKET_LIMIT) as [Hz'|Hz'].
    + exfalso. unfold arrive in E. rewrite (proj2 (Z.eqb_neq _ _)) in E by lia. cbn [get_bucket assoc empty_limiter li_failures li_buckets app] in E.
      change (BUCKET_LIMIT <? zlen [(address, new_bucket (lm_failed l) (lm_failed l) later)]) with false in E. cbv iota beta in E.
      assert (Hlen : li_failures s' = store_bucket address (refill now (new_bucket (lm_failed l) (lm_failed l) later)) [(address, new_bucket (lm_failed l) (lm_failed l) later)]).
      { destruct (_ <? fone) in E; [by injection E as <-|]. rewrite Hrate, Z.eqb_refl in E. by injection E as <-. }
      rewrite Hlen in Hz'. unfold zlen, store_bucket in Hz'. rewrite length_map in Hz'. cbn in Hz'. unfold BUCKET_LIMIT in Hz'. lia.
    + pose proof (arrivals_clean l key address times s' Hlimit Hrate Hc ltac:(lia) Hs) as Hrest. destruct (run l _ s') as [s'' vs]. cbn [snd] in *. by rewrite Hrest.
Qed.

Lemma brake_bypassed_witness :
  (run (limits 0 1 1) (map (fun t => Arrive "k" (Some "10.0.0.9") t.1 t.2) [(0, 0); (0, 0); (0, 0)]) empty_limiter).2 = [LetThrough; LetThrough; LetThrough].
Proof. apply (brake_bypassed (limits 0 1 1) "k" "10.0.0.9" [(0, 0); (0, 0); (0, 0)]); reflexivity || (cbn; lia). Defined.

(** After twenty failures at once the address is refused, and three seconds later it may guess again: the brake refills like any
    bucket, it does not hold for the rest of the minute. *)
Theorem brake_refills :
  let l := limits 0 1 20 in
  let failed := [Arrive "k" (Some "a") 0 0; Answered (Some "a") 401 0 0] in
  let s := (run l (concat (repeat failed 20)) empty_limiter).1 in
  (step l (Arrive "k" (Some "a") 0 0) s).2 = [Rejected (Some (3 * fone)) true] /\
  (step l (Arrive "k" (Some "a") (3 * fone) (3 * fone)) s).2 = [LetThrough].
Proof. vm_compute. done. Qed.

(** Only a trusted peer's forwarding header is read, and in its first line the hop is the last one no trusted proxy wrote: the
    hops after it are all trusted, and what stands before it does not matter. *)
Theorem client_address_exact `{Addresses} (peer : string) (headers : Headers) (proxies : list Network) :
  let trusted a := in_networks a proxies in
  let line := hops (default "" (header "x-forwarded-for" headers)) in
  exists address, resolve_client_address (Some peer) headers proxies = Some address /\
    (trusted peer = false -> address = peer) /\
    (trusted peer = true ->
       (exists before after, line = before ++ address :: after /\ trusted address = false /\ forallb trusted after = true) \/
       (address = peer /\ forallb trusted line = true)).
Proof.
  intros trusted line. unfold resolve_client_address. fold line.
  assert (Hp : (match proxies with [] => true | _ => negb (in_networks peer proxies) end) = negb (trusted peer)).
  { unfold trusted, in_networks. by destruct proxies. }
  rewrite Hp. destruct (trusted peer) eqn:Et; cbn [negb].
  2: { exists peer. split_and!; [done|done|]. intros Hbad. congruence. }
  pose proof (find_rev_split (fun entry => negb (in_networks entry proxies)) line) as Hf.
  assert (Hneg : forall l, forallb (fun y => negb (negb (in_networks y proxies))) l = forallb trusted l).
  { intros l. induction l as [|y l IH]; [done|]. cbn. by rewrite negb_involutive, IH. }
  destruct (List.find _ (rev line)) as [a|].
  - exists a. split; [done|]. split; [intros Hbad; congruence|]. intros _. left. destruct Hf as (before & after & Hl & Ha & Hall). rewrite Hneg in Hall.
    exists before, after. apply negb_true_iff in Ha. by split_and!.
  - exists peer. split; [done|]. split; [done|]. intros _. right. split; [done|]. by rewrite <- Hneg.
Qed.

(** A proxy that adds its own header line instead of extending the client's is not heard: the first line is the client's, and the
    caller chooses the address it is keyed by. *)
Theorem forwarded_spoofed `{Addresses} (peer spoofed written : string) (rest : Headers) (proxies : list Network)
    (Hpeer : in_networks peer proxies = true) (Hspoofed : in_networks spoofed proxies = false) (Hline : hops spoofed = [spoofed]) :
  resolve_client_address (Some peer) (("x-forwarded-for", spoofed) :: ("x-forwarded-for", written) :: rest) proxies = Some spoofed.
Proof.
  unfold resolve_client_address. change (header "x-forwarded-for" _) with (Some spoofed). change (default "" (Some spoofed)) with spoofed. rewrite Hline.
  destruct proxies as [|p proxies]; [done|]. rewrite Hpeer. cbn [negb rev app List.find]. by rewrite Hspoofed.
Qed.

#[local] Instance sample_addresses : Addresses := {| Network := string; ip_in a n := bool_decide (a = n) |}.

Definition sample_proxies : list (Network (Addresses := sample_addresses)) := ["10.0.0.1"].

Lemma forwarded_spoofed_witness :
  resolve_client_address (Some "10.0.0.1") [("x-forwarded-for", "6.6.6.6"); ("x-forwarded-for", "1.2.3.4")] sample_proxies = Some "6.6.6.6".
Proof. apply (forwarded_spoofed "10.0.0.1" "6.6.6.6" "1.2.3.4" [] sample_proxies); reflexivity. Defined.

(** The application is called exactly with the body the client finished, and only when it fits the limit. *)
Theorem body_bounded `{Digits} (max_bytes : Z) (declared : option string) (messages : list Message) (body : list Byte.byte) :
  body_limit max_bytes declared messages = Ok (Forwarded body) <->
  (match declared with
   | Some text => isdigit text = true -> exists n, int_of text = Ok n /\ n <= Z.max max_bytes 1
   | None => True end) /\
  exists chunks last rest, messages = map (fun c => Chunk c true) chunks ++ Chunk last false :: rest /\
    body = List.concat chunks ++ last /\ zlen body <= Z.max max_bytes 1.
Proof.
  unfold body_limit. pose proof (read_body_forwarded (Z.max max_bytes 1) messages [] body) as Hr. cbn [app] in Hr.
  assert (Hinj : forall o, Ok o = Ok (Forwarded body) <-> o = Forwarded body) by (intros; split; [by intros [=]|by intros ->]).
  destruct declared as [text|]; [|cbn; rewrite Hinj, Hr; naive_solver]. destruct (isdigit text).
  - destruct (int_of text) as [n|e]; cbn.
    + destruct (Z.max max_bytes 1 <? n) eqn:E; rewrite Hinj.
      * split; [done|]. intros [Hd _]. destruct (Hd eq_refl) as (n' & [= <-] & Hle). apply Z.ltb_lt in E. lia.
      * rewrite Hr. apply Z.ltb_ge in E. naive_solver.
    + split; [done|]. intros [Hd _]. by destruct (Hd eq_refl) as (n' & ? & _).
  - cbn. rewrite Hinj, Hr. naive_solver.
Qed.

(** On an IPv6 loopback bind the application's own page cannot write: the host header is cut at its first colon, so it never
    equals the host of the page's origin; and a page of the same host on another port can. *)
Theorem origin_ports_and_brackets `{Urls} (origin : string) (port : string)
    (Hnull : origin <> "null") :
  (url_hostname origin = Ok (Some "::1") -> same_origin true "POST" (Some origin) ("[::1]:" +:+ port) = Ok false) /\
  (url_hostname origin = Ok (Some "localhost") -> same_origin true "POST" (Some origin) ("localhost:" +:+ port) = Ok true).
Proof.
  unfold same_origin. rewrite (bool_decide_eq_false_2 (origin = "null")) by done. split; intros ->; reflexivity.
Qed.

#[local] Instance sample_urls : Urls := {| url_hostname o := Ok (Some (if bool_decide (o = "http://[::1]:8766") then "::1" else "localhost")) |}.

Lemma origin_ports_and_brackets_witness :
  same_origin true "POST" (Some "http://[::1]:8766") "[::1]:8766" = Ok false /\
  same_origin true "POST" (Some "http://localhost:3000") "localhost:8766" = Ok true.
Proof.
  split.
  - apply (proj1 (origin_ports_and_brackets "http://[::1]:8766" "8766" ltac:(discriminate))). reflexivity.
  - apply (proj2 (origin_ports_and_brackets "http://localhost:3000" "8766" ltac:(discriminate))). reflexivity.
Defined.
End Properties.
