(* ===== verification/Schema.v ===== *)
(** * The settings' schema ([config.py], the models)

    The sections of [Settings] with their fields: type, default and bounds as declared, whether a comma-separated string is split, and
    the validators of each section.  Pydantic's conversion of a scalar to a declared type and [ipaddress.ip_network] are parameters;
    its documented walk (fields in order, a default taken as it is, an unknown key refused) is written out. *)

From Stdlib Require Import Ascii String.
From S2P Require Import Prelude PyFloat PyStr Json.
#[local] Open Scope string_scope.
#[local] Open Scope list_scope.
#[local] Open Scope Z_scope.

Definition Doc : Type := list (string * json).

Inductive FieldType := TStr | TBool | TInt | TFloat | TStrs | TInts | TLiteral (values : list string).

Record Field := mkField {
  fd_name : string;
  fd_type : FieldType;
  fd_optional : bool;              (* [T | None] *)
  fd_csv : bool;                   (* validated by [_split_csv] before *)
  fd_default : option json;        (* [None]: required *)
  fd_ge : option f64;
  fd_gt : option f64;
  fd_le : option f64
}.

Definition plain (name : string) (t : FieldType) (v : json) : Field := mkField name t false false (Some v) None None None.
Definition csv (name : string) (v : list string) : Field := mkField name TStrs false true (Some (JArr (map JStr v))) None None None.
Definition at_least (name : string) (t : FieldType) (v : json) (low : f64) : Field := mkField name t false false (Some v) (Some low) None None.
Definition above (name : string) (t : FieldType) (v : json) (low : f64) : Field := mkField name t false false (Some v) None (Some low) None.
Definition between (name : string) (t : FieldType) (v : json) (low high : f64) : Field := mkField name t false false (Some v) (Some low) None (Some high).
(** [int | None] with [gt=0], default [None]. *)
Definition optional_positive (name : string) : Field := mkField name TInt true false (Some JNull) None (Some 0) None.

(** ** The sections *)

Definition server_fields : list Field :=
  [plain "host" TStr (JStr "127.0.0.1");
   between "port" TInt (JInt 8766) (of_int 1) (of_int 65535);
   plain "allow_lan_exposure" TBool (JBool false);
   csv "allowed_hosts" [];
   at_least "max_body_bytes" TInt (JInt (16 * 1024 * 1024)) (of_int 1024);
   at_least "rate_limit_per_minute" TInt (JInt 600) 0;
   at_least "rate_limit_burst" TInt (JInt 100) (of_int 1);
   at_least "failed_auth_per_minute" TInt (JInt 20) 0;
   csv "trusted_proxies" []].

Definition storage_fields : list Field :=
  [mkField "database_url" TStr true false (Some JNull) None None None;
   plain "auto_migrate" TBool (JBool true);
   at_least "backup_retention" TInt (JInt 5) 0;
   optional_positive "statement_timeout_ms";
   at_least "content_retention_hours" TInt (JInt 24) 0;
   plain "retain_content" TBool (JBool false)].

Definition fake_fields : list Field := [optional_positive "size_bytes"; optional_positive "layers"; optional_positive "kv_heads"; optional_positive "head_dim"].

Definition provider_fields : list Field :=
  [plain "kind" TStr (JStr "ollama"); plain "base_url" TStr (JStr "http://127.0.0.1:11434"); above "timeout_seconds" TFloat (JFloat (of_int 300)) 0].

Definition registration_fields : list Field :=
  [mkField "kind" TStr false false None None None None;
   plain "enabled" TBool (JBool true);
   plain "base_url" TStr (JStr "");
   above "timeout_seconds" TFloat (JFloat (of_int 300)) 0;
   plain "remote" TBool (JBool false);
   plain "model_directory" TStr (JStr "");
   plain "state_dir" TStr (JStr "");
   plain "server_path" TStr (JStr "llama-server");
   mkField "memory_max_bytes" TInt true false (Some JNull) (Some (of_int 1)) None None;
   mkField "memory_high_bytes" TInt true false (Some JNull) (Some (of_int 1)) None None].

Definition providers_fields : list Field := [plain "allow_remote" TBool (JBool false)].

Definition adapters_fields : list Field := [plain "directory" TStr (JStr "")].

Definition execution_fields : list Field :=
  [at_least "max_concurrent_jobs" TInt (JInt 1) (of_int 1);
   above "default_timeout_seconds" TFloat (JFloat (of_int 300)) 0;
   at_least "max_attempts" TInt (JInt 3) (of_int 1);
   at_least "attempt_backoff_seconds" TFloat (JFloat (of_int 2)) 0].

Definition override_fields : list Field :=
  [optional_positive "context_size";
   mkField "kv_cache_precision" (TLiteral ["f16"; "q8_0"; "q4_0"]) true false (Some JNull) None None None;
   mkField "flash_attention" TBool true false (Some JNull) None None None].

Definition runtime_fields : list Field :=
  [at_least "context_size" TInt (JInt 0) 0;
   plain "kv_cache_precision" (TLiteral [""; "f16"; "q8_0"; "q4_0"]) (JStr "");
   plain "flash_attention" TBool (JBool false);
   plain "keep_alive" TStr (JStr "5m")].

Definition queue_fields : list Field :=
  [at_least "max_depth" TInt (JInt 1000) (of_int 1);
   at_least "max_active_per_source" TInt (JInt 200) 0;
   at_least "lease_seconds" TInt (JInt 60) (of_int 1);
   at_least "poll_interval_ms" TInt (JInt 250) (of_int 1);
   at_least "lease_renewal_interval_seconds" TInt (JInt 20) (of_int 1);
   at_least "ageing_interval_seconds" TInt (JInt 30) (of_int 1);
   at_least "max_wait_seconds" TInt (JInt 3600) (of_int 1);
   at_least "ageing_priority_per_minute" TFloat (JFloat (of_int 1)) 0;
   at_least "overflow_allowance" TInt (JInt 100) 0;
   at_least "max_affinity_streak" TInt (JInt 5) (of_int 1);
   above "idempotency_ttl_hours" TFloat (JFloat (of_int 24)) 0;
   at_least "cancelling_watchdog_seconds" TInt (JInt 30) (of_int 1)].

Definition routing_fields : list Field :=
  [plain "task_profiles_path" TStr (JStr "");
   plain "strategy" TStr (JStr "weighted_evidence");
   between "min_confidence" TFloat (JFloat (flit 5 100)) 0 (of_int 1);
   between "prefer_resident_bonus" TFloat (JFloat (flit 5 100)) 0 (of_int 1);
   between "min_present_weight" TFloat (JFloat (flit 5 10)) 0 (of_int 1);
   mkField "remote_cost_factor" TFloat false false (Some (JFloat (flit 9 10))) None (Some 0) (Some (of_int 1));
   between "base_switch_penalty" TFloat (JFloat (flit 10 100)) 0 (of_int 1);
   plain "require_adapter_evidence" TBool (JBool true);
   at_least "explanation_retention_days" TInt (JInt 0) 0].

Definition evidence_fields : list Field :=
  [plain "freeweight_url" TStr (JStr "");
   plain "freeweight_api_key_env" TStr (JStr "");
   plain "freeweight_api_key_file" TStr (JStr "");
   csv "allowed_source_hosts" ["127.0.0.1"; "localhost"; "::1"];
   above "import_interval_hours" TFloat (JFloat (of_int 24)) 0;
   plain "accept_schema_majors" TInts (JArr [JInt 1])].

Definition residency_fields : list Field :=
  [at_least "unload_idle_seconds" TInt (JInt 900) 0; at_least "max_resident_models" TInt (JInt 1) (of_int 1)].

Definition telemetry_fields : list Field :=
  [above "interval_ms" TInt (JInt 1000) 0; at_least "vram_headroom_bytes" TInt (JInt 536870912) 0].

Definition logging_fields : list Field :=
  [plain "level" TStr (JStr "INFO"); plain "format" (TLiteral ["text"; "json"; "auto"]) (JStr "auto"); plain "include_content" TBool (JBool false)].

Definition console_fields : list Field := [plain "url" TStr (JStr "")].

(** A section's scalar fields, the nested table or tables it ends with, and whether further keys are taken. *)
Record Section_ := mkSection {
  sn_name : string;
  sn_fields : list Field;
  sn_table : option (string * list Field);          (* one table of these fields *)
  sn_tables : option (string * list Field);         (* a mapping to tables of these fields *)
  sn_extra : bool
}.

Definition schema : list Section_ :=
  [mkSection "server" server_fields None None false;
   mkSection "storage" storage_fields None None false;
   mkSection "provider" provider_fields (Some ("fake", fake_fields)) None false;
   mkSection "providers" providers_fields None (Some ("registrations", registration_fields)) true;
   mkSection "adapters" adapters_fields None None false;
   mkSection "execution" execution_fields None None false;
   mkSection "runtime" runtime_fields None (Some ("models", override_fields)) false;
   mkSection "queue" queue_fields None None false;
   mkSection "routing" routing_fields None None false;
   mkSection "evidence" evidence_fields None None false;
   mkSection "residency" residency_fields None None false;
   mkSection "telemetry" telemetry_fields None None false;
   mkSection "logging" logging_fields None None false;
   mkSection "console" console_fields None None false].

(** ** The validators *)

(** [_split_csv]. *)
Definition split_csv (value : string) : list string := List.filter (fun p => negb (bool_decide (p = ""))) (map strip (split_at ","%char value)).
Definition split_field (f : Field) (x : json) : json :=
  match x with JStr s => if fd_csv f then JArr (map JStr (split_csv s)) else x | _ => x end.

Definition lease_margin_ok (lease_seconds renewal_interval_seconds : Z) : bool := negb (lease_seconds <? 3 * renewal_interval_seconds).
Definition cache_precision_ok (kv_cache_precision : string) (flash_attention : bool) : bool :=
  negb (bool_decide (kv_cache_precision ∈ ["q8_0"; "q4_0"]) && negb flash_attention).
Definition memory_cap_ok (memory_max_bytes memory_high_bytes : option Z) : bool :=
  match memory_high_bytes with
  | None => true
  | Some high => match memory_max_bytes with None => false | Some cap => negb (cap <=? high) end
  end.
Definition majors_ok (available configured : list Z) : bool := forallb (fun m => bool_decide (m ∈ available)) configured.

Definition Invalid : exn := OtherException (Some "CONFIGURATION_ERROR").

(** A number in units of 2^-1074. *)
Definition number (x : json) : option Z := match x with JInt z => Some (z * fone) | JFloat f => Some f | _ => None end.

Definition in_range (f : Field) (x : json) : bool :=
  match number x with
  | None => true
  | Some n =>
      match fd_ge f with Some b => b <=? n | None => true end && match fd_gt f with Some b => b <? n | None => true end &&
      match fd_le f with Some b => n <=? b | None => true end
  end.

(** Pydantic's conversion to a declared type, [None] where it refuses; the networks and the schema majors that exist. *)
Class Pydantic := { convert : FieldType -> json -> option json; is_network : string -> bool; data_dir : string; supported_majors : list Z }.

(** The values of a type. *)
Definition has_type (t : FieldType) (x : json) : bool :=
  match t, x with
  | TStr, JStr _ | TBool, JBool _ | TInt, JInt _ | TFloat, JFloat _ => true
  | TStrs, JArr l => forallb (fun y => match y with JStr _ => true | _ => false end) l
  | TInts, JArr l => forallb (fun y => match y with JInt _ => true | _ => false end) l
  | TLiteral values, JStr s => bool_decide (s ∈ values)
  | _, _ => false
  end.

(** What its documentation says of it: a converted value has the type, and this build reads the first schema major. *)
Class PydanticLaws `{Pydantic} : Prop := {
  convert_typed t x y : convert t x = Some y -> has_type t y = true;
  first_major : 1 ∈ supported_majors
}.

Section validation.
Context `{Pydantic}.

Definition validate_field (f : Field) (given : option json) : result (string * json) :=
  match given with
  | None => match fd_default f with Some v => Ok (fd_name f, v) | None => Raise Invalid end
  | Some x =>
      if fd_optional f && match x with JNull => true | _ => false end then Ok (fd_name f, JNull)
      else match convert (fd_type f) (split_field f x) with
           | None => Raise Invalid
           | Some v => if in_range f v then Ok (fd_name f, v) else Raise Invalid
           end
  end.

Fixpoint validate_fields (fields : list Field) (d : Doc) : result Doc :=
  match fields with
  | [] => Ok []
  | f :: rest => v ← validate_field f (assoc (fd_name f) d); vs ← validate_fields rest d; Ok (v :: vs)
  end.

(** A table whose keys must be those of [fields]. *)
Definition validate_table (fields : list Field) (x : json) : result json :=
  match x with
  | JObj d => if forallb (fun kv => bool_decide (kv.1 ∈ map fd_name fields)) d then v ← validate_fields fields d; Ok (JObj v) else Raise Invalid
  | _ => Raise Invalid
  end.

(** The value of a validated field as the validators read it. *)
Definition str_at (k : string) (d : Doc) : string := match assoc k d with Some (JStr s) => s | _ => "" end.
Definition int_at (k : string) (d : Doc) : option Z := match assoc k d with Some (JInt z) => Some z | _ => None end.
Definition bool_at (k : string) (d : Doc) : bool := match assoc k d with Some (JBool b) => b | _ => false end.
Definition strs_at (k : string) (d : Doc) : list string :=
  match assoc k d with Some (JArr l) => omap (fun y => match y with JStr s => Some s | _ => None end) l | _ => [] end.
Definition ints_at (k : string) (d : Doc) : list Z :=
  match assoc k d with Some (JArr l) => omap (fun y => match y with JInt z => Some z | _ => None end) l | _ => [] end.

(** [_check_memory_cap] on a registration, after its fields; the scripted model of a registration is a table of its own. *)
Definition validate_registration (x : json) : result json :=
  match x with
  | JObj d =>
      if forallb (fun kv => bool_decide (kv.1 ∈ map fd_name registration_fields ++ ["fake"])) d
      then v ← validate_fields registration_fields d;
           fake ← validate_table fake_fields (default (JObj []) (assoc "fake" d));
           _ ← guard_raise (negb (memory_cap_ok (int_at "memory_max_bytes" v) (int_at "memory_high_bytes" v))) Invalid;
           Ok (JObj (v ++ [("fake", fake)]))
      else Raise Invalid
  | _ => Raise Invalid
  end.

Fixpoint validate_each (f : json -> result json) (d : Doc) : result Doc :=
  match d with [] => Ok [] | (k, x) :: rest => v ← f x; vs ← validate_each f rest; Ok ((k, v) :: vs) end.

(** A mapping of names to tables. *)
Definition validate_mapping (f : json -> result json) (x : option json) : result Doc :=
  match x with None => Ok [] | Some (JObj d) => validate_each f d | Some _ => Raise Invalid end.

(** The validators that run after a section's fields, on what they left. *)
Definition after_fields (section : string) (given v : Doc) : result Doc :=
  if bool_decide (section = "server") then
    _ ← guard_raise (negb (forallb is_network (strs_at "trusted_proxies" v))) Invalid; Ok v
  else if bool_decide (section = "storage") then
    let url := match assoc "database_url" v with Some (JStr s) => s | _ => "sqlite:///" +:+ data_dir +:+ "/loadcoach.sqlite3" end in
    let auto := if bool_decide (is_Some (assoc "auto_migrate" given)) then bool_at "auto_migrate" v else bool_decide (is_Some (drop_prefix "sqlite" url)) in
    Ok (map (fun kv => if bool_decide (kv.1 = "database_url") then (kv.1, JStr url) else if bool_decide (kv.1 = "auto_migrate") then (kv.1, JBool auto) else kv) v)
  else if bool_decide (section = "runtime") then
    _ ← guard_raise (negb (cache_precision_ok (str_at "kv_cache_precision" v) (bool_at "flash_attention" v))) Invalid; Ok v
  else if bool_decide (section = "queue") then
    _ ← guard_raise (negb (lease_margin_ok (default 0 (int_at "lease_seconds" v)) (default 0 (int_at "lease_renewal_interval_seconds" v)))) Invalid; Ok v
  else if bool_decide (section = "evidence") then
    _ ← guard_raise (negb (majors_ok supported_majors (ints_at "accept_schema_majors" v))) Invalid; Ok v
  else Ok v.

(** The names a section's own fields have. *)
Definition field_names (s : Section_) : list string :=
  map fd_name (sn_fields s) ++ match sn_table s with Some (n, _) => [n] | None => [] end ++ match sn_tables s with Some (n, _) => [n] | None => [] end.

(** The keys no field has: [[providers]]'s registrations, elsewhere refused. *)
Definition extras (s : Section_) (d : Doc) : Doc := List.filter (fun kv => negb (bool_decide (kv.1 ∈ field_names s))) d.

(** [collected[name] = ...] for the extras, over the mapping written out. *)
Fixpoint doc_set (k : string) (v : json) (d : Doc) : Doc :=
  match d with
  | [] => [(k, v)]
  | (k', v') :: d' => if bool_decide (k = k') then (k', v) :: d' else (k', v') :: doc_set k v d'
  end.
Definition collect_registrations (written collected : Doc) : Doc := fold_left (fun acc kv => doc_set kv.1 kv.2 acc) collected written.

Definition validate_section (s : Section_) (given : option json) : result json :=
  match default (JObj []) given with
  | JObj d =>
      _ ← guard_raise (negb (sn_extra s) && negb (bool_decide (extras s d = []))) Invalid;
      v ← validate_fields (sn_fields s) d;
      table ← match sn_table s with
              | Some (n, fields) => t ← validate_table fields (default (JObj []) (assoc n d)); Ok [(n, t)]
              | None => Ok []
              end;
      tables ← match sn_tables s with
               | Some (n, fields) =>
                   let one := if sn_extra s then validate_registration else validate_table fields in
                   written ← validate_mapping one (assoc n d);
                   collected ← validate_each one (extras s d);
                   Ok [(n, JObj (collect_registrations written collected))]
               | None => Ok []
               end;
      v ← after_fields (sn_name s) d v;
      Ok (JObj (v ++ table ++ tables))
  | _ => Raise Invalid
  end.

Fixpoint validate_sections (sections : list Section_) (merged : Doc) : result Doc :=
  match sections with
  | [] => Ok []
  | s :: rest => v ← validate_section s (assoc (sn_name s) merged); vs ← validate_sections rest merged; Ok ((sn_name s, v) :: vs)
  end.

(** [Settings.model_validate]. *)
Definition model_validate (merged : Doc) : result Doc :=
  if forallb (fun kv => bool_decide (kv.1 ∈ map sn_name schema)) merged then validate_sections schema merged else Raise Invalid.
End validation.

(** ** Lemmas *)

Section theory.
Context `{PydanticLaws}.

(** A value a field may hold: null where that is allowed, else of the type and within the bounds. *)
Definition bounded (f : Field) (x : json) : Prop := forall n, number x = Some n ->
  (forall b, fd_ge f = Some b -> b <= n) /\ (forall b, fd_gt f = Some b -> b < n) /\ (forall b, fd_le f = Some b -> n <= b).
Definition field_ok (f : Field) (x : json) : Prop := (fd_optional f = true /\ x = JNull) \/ (has_type (fd_type f) x = true /\ bounded f x).

Lemma in_range_bounded f x : in_range f x = true -> bounded f x.
Proof.
  unfold in_range, bounded. intros Hr n Hn. rewrite Hn, !andb_true_iff in Hr. destruct Hr as [[Hge Hgt] Hle].
  split_and!; intros b Hb; rewrite Hb in *; [by apply Z.leb_le|by apply Z.ltb_lt|by apply Z.leb_le].
Qed.

(** Every declared default is one: pydantic does not check them. *)
Definition default_ok (f : Field) : bool :=
  match fd_default f with
  | None => true
  | Some x => (fd_optional f && match x with JNull => true | _ => false end) || (has_type (fd_type f) x && in_range f x)
  end.

Definition all_fields : list Field := List.concat (map sn_fields schema) ++ fake_fields ++ registration_fields ++ override_fields.

Lemma defaults_checked : forallb default_ok all_fields = true.
Proof. with_strategy transparent [fone] (vm_compute; reflexivity). Qed.

Lemma default_field_ok f x : f ∈ all_fields -> fd_default f = Some x -> field_ok f x.
Proof.
  intros Hin Hd. pose proof defaults_checked as Hc. rewrite forallb_forall in Hc. specialize (Hc f (proj1 (list_elem_of_In _ _) Hin)).
  unfold default_ok in Hc. rewrite Hd in Hc. unfold field_ok. apply orb_true_iff in Hc as [Hc|Hc]; apply andb_true_iff in Hc as [H1' H2'].
  - left. split; [done|]. by destruct x.
  - right. split; [done|by apply in_range_bounded].
Qed.

Lemma validate_field_Ok f given kv : f ∈ all_fields -> validate_field f given = Ok kv -> kv.1 = fd_name f /\ field_ok f kv.2.
Proof.
  intros Hf. unfold validate_field. destruct given as [x|].
  - destruct (fd_optional f && _) eqn:Eo.
    { intros [= <-]. split; [done|]. left. by apply andb_true_iff in Eo as [? _]. }
    destruct (convert _ _) as [v|] eqn:Ec; [|done]. destruct (in_range f v) eqn:Er; [|done]. intros [= <-]. split; [done|]. right.
    split; [by eapply convert_typed|by apply in_range_bounded].
  - destruct (fd_default f) as [v|] eqn:Ed; [|done]. intros [= <-]. split; [done|]. by apply default_field_ok.
Qed.

Lemma validate_fields_Ok fields d v : (forall f, f ∈ fields -> f ∈ all_fields) -> validate_fields fields d = Ok v ->
  Forall2 (fun f kv => kv.1 = fd_name f /\ field_ok f kv.2) fields v.
Proof.
  revert v. induction fields as [|f fields IH]; intros v Hin; cbn [validate_fields]; [intros [= <-]; constructor|].
  intros E. apply bind_Ok_inv in E as (x & Ex & E). apply bind_Ok_inv in E as (vs & Evs & E). injection E as <-. constructor.
  - apply (validate_field_Ok _ (assoc (fd_name f) d)); [apply Hin; left|done].
  - apply IH; [intros g Hg; apply Hin; by right|done].
Qed.

Lemma fields_assoc fields v f : NoDup (map fd_name fields) -> Forall2 (fun f kv => kv.1 = fd_name f /\ field_ok f kv.2) fields v -> f ∈ fields ->
  exists x, assoc (fd_name f) v = Some x /\ field_ok f x.
Proof.
  intros Hnd Hf. induction Hf as [|g [k x] fields v [Hk Hx] Hf IH]; [by intros ?%not_elem_of_nil|]. cbn in Hnd, Hk. apply NoDup_cons in Hnd as [Hni Hnd].
  intros [->|Hin]%elem_of_cons.
  - exists x. subst k. cbn. by rewrite bool_decide_eq_true_2.
  - destruct (IH Hnd Hin) as (y & Ey & Hy). exists y. split; [|done]. subst k. cbn. rewrite bool_decide_eq_false_2; [done|].
    intros He. apply Hni. rewrite <- He. by apply (list_elem_of_fmap_2 fd_name).
Qed.

Lemma assoc_app {A} k (l l' : list (string * A)) : assoc k (l ++ l') = match assoc k l with Some x => Some x | None => assoc k l' end.
Proof. induction l as [|[k0 x] l IH]; [done|]. cbn. by destruct (bool_decide (k = k0)). Qed.

(** The storage validator keeps every other field and gives the two it fills a value of their type. *)
Lemma storage_filled url auto v k :
  assoc k (map (fun kv => if bool_decide (kv.1 = "database_url") then (kv.1, JStr url) else if bool_decide (kv.1 = "auto_migrate") then (kv.1, JBool auto) else kv) v) =
  match assoc k v with
  | Some x => Some (if bool_decide (k = "database_url") then JStr url else if bool_decide (k = "auto_migrate") then JBool auto else x)
  | None => None
  end.
Proof.
  induction v as [|[k0 x] v IH]; [done|]. cbn [map assoc fst].
  set (y := if bool_decide (k0 = "database_url") then (k0, JStr url) else if bool_decide (k0 = "auto_migrate") then (k0, JBool auto) else (k0, x)).
  assert (y = (k0, if bool_decide (k0 = "database_url") then JStr url else if bool_decide (k0 = "auto_migrate") then JBool auto else x)) as ->.
  { unfold y. destruct (bool_decide (k0 = "database_url")); [done|]. by destruct (bool_decide (k0 = "auto_migrate")). }
  cbn [assoc]. destruct (decide (k = k0)) as [->|Hne].
  - by rewrite !(bool_decide_eq_true_2 (k0 = k0)).
  - rewrite !(bool_decide_eq_false_2 (k = k0)) by done. apply IH.
Qed.

(** What the validators leave true of a section. *)
Definition section_ok (section : string) (v : Doc) : Prop :=
  (section = "server" -> forallb is_network (strs_at "trusted_proxies" v) = true) /\
  (section = "storage" -> exists url, assoc "database_url" v = Some (JStr url)) /\
  (section = "runtime" -> cache_precision_ok (str_at "kv_cache_precision" v) (bool_at "flash_attention" v) = true) /\
  (section = "queue" -> 3 * default 0 (int_at "lease_renewal_interval_seconds" v) <= default 0 (int_at "lease_seconds" v)) /\
  (section = "evidence" -> forall m, m ∈ ints_at "accept_schema_majors" v -> m ∈ supported_majors).

Lemma after_fields_Ok s given v w : s ∈ schema -> Forall2 (fun f kv => kv.1 = fd_name f /\ field_ok f kv.2) (sn_fields s) v -> NoDup (map fd_name (sn_fields s)) ->
  after_fields (sn_name s) given v = Ok w ->
  section_ok (sn_name s) w /\ forall f, f ∈ sn_fields s -> exists x, assoc (fd_name f) w = Some x /\ field_ok f x.
Proof.
  intros Hs Hf Hnd. pose proof (fun f => fields_assoc _ _ f Hnd Hf) as Ha. clear Hf Hnd. revert Hs Ha. unfold schema.
  rewrite !elem_of_cons, elem_of_nil. intros Hs Ha.
  destruct Hs as [->|[->|[->|[->|[->|[->|[->|[->|[->|[->|[->|[->|[->|[->|[]]]]]]]]]]]]]]]; unfold after_fields, section_ok; cbn [sn_name sn_fields] in *;
    cbn [bool_decide decide decide_rel]; try (intros [= <-]; split; [by repeat split|done]).
  - destruct (negb (forallb is_network _)) eqn:Eb; cbn; [done|]. intros [= <-]. apply negb_false_iff in Eb. split; [by repeat split|done].
  - intros [= <-]. split.
    + split; [done|]. split; [|done]. intros _. rewrite storage_filled. destruct (Ha (mkField "database_url" TStr true false (Some JNull) None None None)) as (x & Ex & _); [left|].
      cbn [fd_name] in Ex. rewrite Ex. by eexists.
    + intros f Hin. destruct (Ha f Hin) as (x & Ex & Hx). rewrite storage_filled, Ex. eexists. split; [done|].
      unfold storage_fields in Hin. rewrite !elem_of_cons, elem_of_nil in Hin. destruct Hin as [->|[->|[->|[->|[->|[->|[]]]]]]]; cbn; try done; by right.
  - destruct (negb (cache_precision_ok _ _)) eqn:Eb; cbn; [done|]. intros [= <-]. apply negb_false_iff in Eb. split; [by repeat split|done].
  - destruct (negb (lease_margin_ok _ _)) eqn:Eb; cbn; [done|]. intros [= <-]. apply negb_false_iff in Eb. unfold lease_margin_ok in Eb. bool_to_prop.
    split; [repeat split; done|done].
  - destruct (negb (majors_ok _ _)) eqn:Eb; cbn; [done|]. intros [= <-]. apply negb_false_iff in Eb. unfold majors_ok in Eb. rewrite forallb_forall in Eb.
    split; [|done]. repeat split; try done. intros _ m Hm. apply list_elem_of_In, Eb in Hm. by apply bool_decide_eq_true_1 in Hm.
Qed.

Lemma schema_fields s : s ∈ schema -> NoDup (map fd_name (sn_fields s)) /\ forall f, f ∈ sn_fields s -> f ∈ all_fields.
Proof.
  intros Hs. assert (forallb (fun s => bool_decide (NoDup (map fd_name (sn_fields s)))) schema = true) as Hb by (vm_compute; reflexivity).
  rewrite forallb_forall in Hb. split; [by apply list_elem_of_In, Hb, bool_decide_eq_true_1 in Hs|].
  intros f Hf. unfold all_fields. apply elem_of_app. left. apply list_elem_of_In, in_concat. exists (sn_fields s). split; [|by apply list_elem_of_In].
  apply in_map. by apply list_elem_of_In.
Qed.

Lemma validate_each_Ok (g : json -> result json) d v : validate_each g d = Ok v -> Forall (fun kv => exists x, g x = Ok kv.2) v.
Proof.
  revert v. induction d as [|[k x] d IH]; intros v; cbn [validate_each]; [intros [= <-]; constructor|].
  intros E. apply bind_Ok_inv in E as (y & Ey & E). apply bind_Ok_inv in E as (ys & Eys & E). injection E as <-. constructor; [by exists x|by apply IH].
Qed.

Lemma collect_Forall (P : json -> Prop) written collected : Forall (fun kv => P kv.2) written -> Forall (fun kv => P kv.2) collected ->
  Forall (fun kv => P kv.2) (collect_registrations written collected).
Proof.
  intros Hw. unfold collect_registrations. revert written Hw. induction collected as [|[k x] collected IH]; intros written Hw; [done|].
  rewrite Forall_cons. intros [Hx Hc]. cbn [fold_left]. apply IH; [|done]. clear -Hw Hx. cbn [fst snd] in *.
  induction written as [|[k' y] written IH]; cbn; [by constructor|]. apply Forall_cons in Hw as [Hy Hw]. destruct (bool_decide (k = k')); constructor; auto.
Qed.

(** A validated registration: its fields, and a throttle only below a cap. *)
Definition registration_ok (x : json) : Prop :=
  exists v, x = JObj v /\ (forall f, f ∈ registration_fields -> exists y, assoc (fd_name f) v = Some y /\ field_ok f y) /\
    memory_cap_ok (int_at "memory_max_bytes" v) (int_at "memory_high_bytes" v) = true.

Lemma validate_registration_Ok x y : validate_registration x = Ok y -> registration_ok y.
Proof.
  unfold validate_registration. destruct x as [| | | | | |d]; try done. destruct (forallb _ d); [|done].
  intros E. apply bind_Ok_inv in E as (v & Ev & E). apply bind_Ok_inv in E as (fake & _ & E). apply bind_Ok_inv in E as (u & Em & E). injection E as <-.
  assert (NoDup (map fd_name registration_fields)) as Hnd by (apply (bool_decide_eq_true_1 (NoDup (map fd_name registration_fields))); vm_compute; reflexivity).
  assert (forall f, f ∈ registration_fields -> exists y, assoc (fd_name f) v = Some y /\ field_ok f y) as Hv.
  { intros f Hf. apply (fields_assoc registration_fields); [done| |done]. apply (validate_fields_Ok _ d); [|done]. intros g Hg. unfold all_fields. rewrite !elem_of_app. tauto. }
  exists (v ++ [("fake", fake)]). split; [done|]. split.
  - intros f Hf. destruct (Hv f Hf) as (z & Ez & Hz). exists z. by rewrite assoc_app, Ez.
  - unfold guard_raise in Em. destruct (negb _) eqn:Eb; [done|]. apply negb_false_iff in Eb. etransitivity; [|exact Eb]. unfold int_at. rewrite !assoc_app.
    destruct (Hv (mkField "memory_max_bytes" TInt true false (Some JNull) (Some (of_int 1)) None None)) as (z & Ez & _); [apply list_elem_of_In; cbv [registration_fields List.In]; tauto|].
    destruct (Hv (mkField "memory_high_bytes" TInt true false (Some JNull) (Some (of_int 1)) None None)) as (z' & Ez' & _); [apply list_elem_of_In; cbv [registration_fields List.In]; tauto|].
    cbn [fd_name] in Ez, Ez'. by rewrite Ez, Ez'.
Qed.

(** A validated section of the schema. *)
Definition valid_section (s : Section_) (x : json) : Prop :=
  exists v, x = JObj v /\ section_ok (sn_name s) v /\ (forall f, f ∈ sn_fields s -> exists y, assoc (fd_name f) v = Some y /\ field_ok f y) /\
    (sn_name s = "providers" -> exists regs, assoc "registrations" v = Some (JObj regs) /\ Forall (fun nr => registration_ok nr.2) regs).

Lemma section_ok_app s v w : s ∈ schema -> (forall f, f ∈ sn_fields s -> exists y, assoc (fd_name f) v = Some y /\ field_ok f y) ->
  section_ok (sn_name s) v -> section_ok (sn_name s) (v ++ w).
Proof.
  intros Hs Ha (S1 & S2 & S3 & S4 & S5). unfold section_ok, strs_at, str_at, bool_at, int_at, ints_at in *. rewrite !assoc_app.
  assert (forall k, k ∈ map fd_name (sn_fields s) -> is_Some (assoc k v)) as Hk.
  { intros k (f & -> & Hf)%(list_elem_of_fmap fd_name). destruct (Ha f Hf) as (y & -> & _). by eexists. }
  unfold schema in Hs. rewrite !elem_of_cons, elem_of_nil in Hs.
  destruct Hs as [->|[->|[->|[->|[->|[->|[->|[->|[->|[->|[->|[->|[->|[->|[]]]]]]]]]]]]]]]; cbn [sn_name] in *; try (by repeat split).
  - split; [|by repeat split]. intros _. destruct (Hk "trusted_proxies") as [x Hx]; [by apply list_elem_of_In; cbv; tauto|]. rewrite Hx in *. by apply S1.
  - split; [done|]. split; [|by repeat split]. intros _. destruct (S2 eq_refl) as [url ->]. by eexists.
  - split; [done|]. split; [done|]. split; [|by repeat split]. intros _. destruct (Hk "kv_cache_precision") as [x Hx]; [by apply list_elem_of_In; cbv; tauto|].
    destruct (Hk "flash_attention") as [y Hy]; [by apply list_elem_of_In; cbv; tauto|]. rewrite Hx, Hy in *. by apply S3.
  - split; [done|]. split; [done|]. split; [done|]. split; [|done]. intros _. destruct (Hk "lease_seconds") as [x Hx]; [by apply list_elem_of_In; cbv; tauto|].
    destruct (Hk "lease_renewal_interval_seconds") as [y Hy]; [by apply list_elem_of_In; cbv; tauto|]. rewrite Hx, Hy in *. by apply S4.
  - split; [done|]. split; [done|]. split; [done|]. split; [done|]. intros _ m. destruct (Hk "accept_schema_majors") as [x Hx]; [by apply list_elem_of_In; cbv; tauto|].
    rewrite Hx in *. by apply S5.
Qed.

Lemma validate_section_Ok s given x : s ∈ schema -> validate_section s given = Ok x -> valid_section s x.
Proof.
  intros Hs. destruct (schema_fields s Hs) as [Hnd Hall]. unfold validate_section. destruct (default (JObj []) given) as [| | | | | |d]; try done.
  intros E. apply bind_Ok_inv in E as (u & _ & E). apply bind_Ok_inv in E as (v0 & Ev & E). apply bind_Ok_inv in E as (table & Et & E).
  apply bind_Ok_inv in E as (tables & Ets & E). apply bind_Ok_inv in E as (v & Ea & E). injection E as <-.
  pose proof (validate_fields_Ok _ _ _ Hall Ev) as Hf. destruct (after_fields_Ok s d v0 v Hs Hf Hnd Ea) as [Ho Hv].
  exists (v ++ table ++ tables). split; [done|]. split; [by apply section_ok_app|]. split.
  - intros f Hin. destruct (Hv f Hin) as (y & Ey & Hy). exists y. by rewrite assoc_app, Ey.
  - intros Hp. assert (s = mkSection "providers" providers_fields None (Some ("registrations", registration_fields)) true) as ->.
    { unfold schema in Hs. rewrite !elem_of_cons, elem_of_nil in Hs. destruct Hs as [->|[->|[->|[->|[->|[->|[->|[->|[->|[->|[->|[->|[->|[->|[]]]]]]]]]]]]]]]; done. }
    cbn [sn_table sn_tables sn_extra] in Et, Ets. injection Et as <-. apply bind_Ok_inv in Ets as (written & Ew & Ets). apply bind_Ok_inv in Ets as (collected & Ecol & Ets).
    injection Ets as <-. exists (collect_registrations written collected). split.
    + rewrite assoc_app. cbn [app assoc]. rewrite (bool_decide_eq_true_2 ("registrations" = "registrations")) by done.
      destruct (assoc "registrations" v) as [y|] eqn:Ey; [|done]. exfalso.
      unfold after_fields in Ea. cbn in Ea. injection Ea as <-. apply (Forall2_length _ _ _) in Hf as Hlen.
      apply assoc_elem in Ey. apply list_elem_of_lookup in Ey as [i Hi]. destruct (Forall2_lookup_r _ _ _ _ _ Hf Hi) as (f & Hfi & Hk & _).
      cbn in Hfi. destruct i; [|done]. cbn in Hfi. injection Hfi as <-. done.
    + apply collect_Forall.
      * unfold validate_mapping in Ew. destruct (assoc "registrations" d) as [[]|]; try done; [|by injection Ew as <-].
        apply validate_each_Ok in Ew. eapply Forall_impl; [exact Ew|]. intros nr (z & Hz). by eapply validate_registration_Ok.
      * apply validate_each_Ok in Ecol. eapply Forall_impl; [exact Ecol|]. intros nr (z & Hz). by eapply validate_registration_Ok.
Qed.

Lemma validate_sections_Ok sections merged d : (forall s, s ∈ sections -> s ∈ schema) -> validate_sections sections merged = Ok d ->
  Forall2 (fun s kv => kv.1 = sn_name s /\ valid_section s kv.2) sections d.
Proof.
  revert d. induction sections as [|s sections IH]; intros d Hin; cbn [validate_sections]; [intros [= <-]; constructor|].
  intros E. apply bind_Ok_inv in E as (x & Ex & E). apply bind_Ok_inv in E as (xs & Exs & E). injection E as <-. constructor.
  - split; [done|]. eapply validate_section_Ok; [apply Hin; left|exact Ex].
  - apply IH; [intros t Ht; apply Hin; by right|done].
Qed.
End theory.

Module Properties.


(** A conversion that accepts what has the type. *)
Definition strict : Pydantic := {| convert t x := if has_type t x then Some x else None; is_network _ := true; data_dir := "/data"; supported_majors := [1] |}.

Lemma strict_laws : @PydanticLaws strict.
Proof. split; [|left]. intros t x y. cbn. by destruct (has_type t x) eqn:E; intros [= <-]. Qed.

End Properties.
