(* ===== verification/Config.v ===== *)
(** * Configuration ([config.py])

    The layers (file, environment, command line), their merge, where each value came from, the refusals that need no
    database and those of the composition root. The TOML reader is a parameter, and so is the validation of the merged document
    ([Schema] models it); a document is an association list. *)

From Stdlib Require Import Ascii String.
From S2P Require Import Prelude PyFloat PyStr Json Ordering Authorization JobEvents QueueStore Access Schema.
#[local] Open Scope string_scope.
#[local] Open Scope list_scope.
#[local] Open Scope Z_scope.

(** ** The known keys *)

(** The sections of [Settings] with their fields; [providers] takes further keys. *)
Definition SECTIONS : list (string * list string) := map (fun s => (sn_name s, field_names s)) schema.

Definition allows_extra (section : string) : bool := existsb (fun s => bool_decide (sn_name s = section) && sn_extra s) schema.

Definition known_dotted_keys : list string :=
  List.concat (map (fun sf => sf.1 :: map (fun f => sf.1 +:+ "." +:+ f) sf.2) SECTIONS).
Definition has_dot (key : string) : bool := (partition_at "."%char key).1.2.
Definition leaf_keys : list string := List.filter has_dot known_dotted_keys.
(** [path in known_leaves]. *)
Definition is_leaf (path : string) : bool := bool_decide (path ∈ leaf_keys).

(** ** The environment *)

Definition ENV_PREFIX : string := "LOADCOACH_".
Definition RESERVED_ENV_SUFFIXES : list string := ["CONFIG"; "DATA_DIR"; "LOG_LEVEL"].

Definition upper_ascii (a : ascii) : ascii :=
  let n := N_of_ascii a in if (97 <=? n)%N && (n <=? 122)%N then ascii_of_N (n - 32) else a.
Fixpoint upper (s : string) : string := match s with EmptyString => EmptyString | String a s' => String (upper_ascii a) (upper s') end.

(** [s.replace(".", "__")]. *)
Fixpoint dots_to_dunder (s : string) : string :=
  match s with
  | EmptyString => EmptyString
  | String a s' => if Ascii.eqb a "."%char then "__" +:+ dots_to_dunder s' else String a (dots_to_dunder s')
  end.

(** [s.split("__")]. *)
Fixpoint split_dunder (s : string) : list string :=
  match s with
  | EmptyString => [EmptyString]
  | String a s' =>
      match s' with
      | String b s'' =>
          if Ascii.eqb a "_"%char && Ascii.eqb b "_"%char then EmptyString :: split_dunder s''
          else match split_dunder s' with h :: t => String a h :: t | [] => [String a EmptyString] end
      | EmptyString => [String a EmptyString]
      end
  end.

Definition env_var_for (path : string) : result string :=
  let '(section, _, field_name) := partition_at "."%char path in
  if bool_decide (field_name = "") then Raise ValueError
  else Ok (ENV_PREFIX +:+ upper section +:+ "__" +:+ dots_to_dunder (upper field_name)).

(** [node.setdefault(part, {})] along the path, then the assignment: a string on the way has neither. *)
Fixpoint env_put (path : list string) (value : string) (node : json) : result json :=
  match node with
  | JObj d =>
      match path with
      | [] => Ok node
      | [last] => Ok (JObj (doc_set last (JStr value) d))
      | part :: rest => child ← env_put rest value (default (JObj []) (assoc part d)); Ok (JObj (doc_set part child d))
      end
  | _ => Raise (match path with [_] => TypeError | _ => AttributeError end)
  end.

Fixpoint env_fold (environ : list (string * string)) (nested : json) : result json :=
  match environ with
  | [] => Ok nested
  | (key, value) :: rest =>
      nested' ← match drop_prefix ENV_PREFIX key with
                | None => Ok nested
                | Some suffix => if bool_decide (suffix ∈ RESERVED_ENV_SUFFIXES) then Ok nested else env_put (split_dunder (lower suffix)) value nested
                end;
      env_fold rest nested'
  end.

(** ["level" not in nested.get("logging", {})]: membership in a string is a substring test, which a whole word never is here
    unless the string contains it. *)
Fixpoint contains (needle s : string) : bool :=
  bool_decide (is_Some (drop_prefix needle s)) || match s with EmptyString => false | String _ s' => contains needle s' end.
Definition py_in (k : string) (x : json) : result bool :=
  match x with
  | JObj d => Ok (bool_decide (is_Some (assoc k d)))
  | JStr s => Ok (contains k s)
  | JArr l => Ok (existsb (fun y => match y with JStr s => bool_decide (s = k) | _ => false end) l)
  | _ => Raise TypeError
  end.

Definition read_env (environ : list (string * string)) : result Doc :=
  nested ← env_fold environ (JObj []);
  nested ← match assoc (ENV_PREFIX +:+ "LOG_LEVEL") environ, nested with
           | Some level, JObj d =>
               if bool_decide (level = "") then Ok nested
               else present ← py_in "level" (default (JObj []) (assoc "logging" d));
                    if (present : bool) then Ok nested else env_put ["logging"; "level"] level nested
           | _, _ => Ok nested
           end;
  match nested with JObj d => Ok d | _ => Raise TypeError end.

(** ** Merging *)

(** The value [override] leaves at a key that held [old]. *)
Fixpoint merge_value (old : option json) (override : json) : json :=
  match override, old with
  | JObj o, Some (JObj base) =>
      JObj ((fix merge_all (o : list (string * json)) (merged : Doc) : Doc :=
               match o with
               | [] => merged
               | (k, v) :: rest => merge_all rest (doc_set k (merge_value (assoc k merged) v) merged)
               end) o base)
  | _, _ => override
  end.

Definition deep_merge (base override : Doc) : Doc :=
  match merge_value (Some (JObj base)) (JObj override) with JObj d => d | _ => base end.

(** ** Sources *)

Inductive Source := SrcCli | SrcEnv (variable : string) | SrcFile | SrcDefault.

Definition written (section field_name : string) (d : Doc) : result bool :=
  match assoc section d with None => Ok false | Some x => py_in field_name x end.

Definition source_of (file env cli : Doc) (section field_name : string) : result Source :=
  in_cli ← written section field_name cli;
  if (in_cli : bool) then Ok SrcCli
  else in_env ← written section field_name env;
       if (in_env : bool) then variable ← env_var_for (section +:+ "." +:+ field_name); Ok (SrcEnv variable)
       else in_file ← written section field_name file;
            Ok (if (in_file : bool) then SrcFile else SrcDefault).

Fixpoint map_result {A B} (f : A -> result B) (l : list A) : result (list B) :=
  match l with [] => Ok [] | x :: rest => y ← f x; ys ← map_result f rest; Ok (y :: ys) end.

Definition track_sources (file env cli : Doc) : result (list (string * Source)) :=
  map_result (fun sf : string * string => s ← source_of file env cli sf.1 sf.2; Ok (sf.1 +:+ "." +:+ sf.2, s))
    (List.concat (map (fun sf => map (pair sf.1) sf.2) SECTIONS)).

(** ** Refusals *)

Definition ConfigurationError : exn := OtherException (Some "CONFIGURATION_ERROR").
Definition InsecureBinding (field : string) : exn := OtherException (Some ("INSECURE_BINDING:" +:+ field)).

Definition refuse_both_provider_forms (merged : Doc) : result unit :=
  match assoc "provider" merged, assoc "providers" merged with
  | Some _, Some (JObj providers) => guard_raise (existsb (fun kv => match kv.2 with JObj _ => true | _ => false end) providers) ConfigurationError
  | _, _ => Ok tt
  end.

(** The [server] section, as far as the refusals read it. *)
Record ServerSettings := mkServer {
  sv_host : string;
  sv_allow_lan_exposure : bool;
  sv_allowed_hosts : list string
}.

Definition validate_security (server : ServerSettings) : result unit :=
  _ ← guard_raise (bool_decide (sv_host server = "0.0.0.0") && negb (sv_allow_lan_exposure server)) (InsecureBinding "server.allow_lan_exposure");
  guard_raise (negb (bool_decide (sv_host server ∈ LOOPBACK_HOSTS)) && bool_decide (sv_allowed_hosts server = [])) (InsecureBinding "server.allowed_hosts").

(** The one refusal of [bootstrap] that reads the database. *)
Definition has_active_token (rows : list ApiToken) (now : Z) : bool := existsb (usable now) rows.
Definition bootstrap_binding (server : ServerSettings) (rows : list ApiToken) (now : Z) : result unit :=
  guard_raise (negb (bool_decide (sv_host server ∈ LOOPBACK_HOSTS)) && negb (has_active_token rows now)) (InsecureBinding "server.host").

(** The [server] section of validated settings. *)
Definition server_of (settings : Doc) : ServerSettings :=
  match assoc "server" settings with
  | Some (JObj v) => mkServer (str_at "host" v) (bool_at "allow_lan_exposure" v) (strs_at "allowed_hosts" v)
  | _ => mkServer "" false []
  end.

(** ** Paths *)

Section paths.
(** [os.environ], [Path.home()], [Path.expanduser], whether [./loadcoach.toml] is a file, [Path.cwd()]. *)
Context (environ : list (string * string)) (home : string) (expanduser : string -> string) (local_file : bool) (cwd : string).

(** [os.environ.get(name)] when it is set and not empty. *)
Definition env_text (name : string) : option string := match assoc name environ with Some v => if bool_decide (v = "") then None else Some v | None => None end.

Definition xdg (variable fallback : string) : string :=
  match env_text variable with Some base => expanduser base | None => home +:+ fallback end +:+ "/loadcoach".

Definition config_dir : string := xdg "XDG_CONFIG_HOME" "/.config".
Definition data_dir : string := match env_text (ENV_PREFIX +:+ "DATA_DIR") with Some override => expanduser override | None => xdg "XDG_DATA_HOME" "/.local/share" end.
Definition state_dir : string := xdg "XDG_STATE_HOME" "/.local/state".

Definition resolve_config_path (explicit : option string) : string :=
  match explicit with
  | Some path => expanduser path
  | None =>
      match env_text (ENV_PREFIX +:+ "CONFIG") with
      | Some path => expanduser path
      | None => if local_file then cwd +:+ "/loadcoach.toml" else config_dir +:+ "/config.toml"
      end
  end.
End paths.

(** ** Loading *)

Section loading.
(** [Settings.model_validate], which fills defaults and raises on anything the schema refuses. *)
Context {Settings : Type} (model_validate : Doc -> result Settings) (server_of : Settings -> ServerSettings).

Record LoadedSettings := mkLoaded { ls_settings : Settings; ls_file_used : bool; ls_sources : list (string * Source) }.

Definition validate (merged : Doc) : result Settings :=
  _ ← refuse_both_provider_forms merged;
  settings ← model_validate merged;
  _ ← validate_security (server_of settings);
  Ok settings.

(** The file: absent, or parsed, or not TOML. *)
Inductive ConfigFile := NoFile | Toml (d : Doc) | NotToml.

Definition read_file (f : ConfigFile) : result (Doc * bool) :=
  match f with NoFile => Ok ([], false) | Toml d => Ok (d, true) | NotToml => Raise ConfigurationError end.

Definition load_settings (f : ConfigFile) (environ : list (string * string)) (cli_overrides : Doc) : result LoadedSettings :=
  '(file_data, file_used) ← read_file f;
  env_data ← read_env environ;
  let merged := deep_merge (deep_merge file_data env_data) cli_overrides in
  settings ← validate merged;
  sources ← track_sources file_data env_data cli_overrides;
  Ok (mkLoaded settings file_used sources).

(** The file without the keys nobody knows, and those keys. *)
Definition clean_section (section : string) (fields : json) : json * list string :=
  match fields with
  | JObj d =>
      if allows_extra section then (fields, [])
      else (JObj (List.filter (fun kv => is_leaf (section +:+ "." +:+ kv.1)) d),
            map (fun kv => section +:+ "." +:+ kv.1) (List.filter (fun kv => negb (is_leaf (section +:+ "." +:+ kv.1))) d))
  | _ => (fields, [])
  end.

Fixpoint clean_file (file : Doc) : Doc * list string :=
  match file with
  | [] => ([], [])
  | (section, fields) :: rest =>
      let '(clean, problems) := clean_file rest in
      if bool_decide (section ∈ map fst SECTIONS)
      then let '(fields', p) := clean_section section fields in ((section, fields') :: clean, p ++ problems)
      else (clean, section :: problems)
  end.

Definition load_settings_tolerant (f : ConfigFile) (environ : list (string * string)) : result (LoadedSettings * list string) :=
  '(file_data, file_used) ← read_file f;
  let '(clean, problems) := clean_file file_data in
  env_data ← read_env environ;
  settings ← validate (deep_merge (deep_merge clean env_data) []);
  sources ← track_sources clean env_data [];
  Ok (mkLoaded settings file_used sources, problems).
End loading.

(** ** Lemmas: results *)

Lemma map_result_Ok {A B} (f : A -> result B) l l' : map_result f l = Ok l' -> Forall2 (fun x y => f x = Ok y) l l'.
Proof.
  revert l'. induction l as [|x l IH]; intros l' Hm; cbn in Hm; [injection Hm as <-; constructor|].
  apply bind_Ok_inv in Hm as (y & Hy & Hm). apply bind_Ok_inv in Hm as (ys & Hys & Hm). injection Hm as <-. constructor; auto.
Qed.

Lemma map_result_Raise {A B} (f : A -> result B) l e : map_result f l = Raise e -> exists x, x ∈ l /\ f x = Raise e.
Proof.
  induction l as [|x l IH]; cbn; [done|]. destruct (f x) as [y|e'] eqn:Ef; cbn.
  - destruct (map_result f l); cbn; [done|]. intros [= ->]. destruct IH as (z & Hz & Ez); [done|]. exists z. split; [by right|done].
  - intros [= ->]. exists x. split; [by left|done].
Qed.

Lemma map_result_total {A B} (f : A -> result B) (g : A -> B) l : (forall x, x ∈ l -> f x = Ok (g x)) -> map_result f l = Ok (map g l).
Proof.
  induction l as [|x l IH]; intros Hf; cbn; [done|]. rewrite (Hf x) by left. cbn. rewrite IH; [done|]. intros y Hy. apply Hf. by right.
Qed.

Lemma map_result_refused {A B} (f : A -> result B) l x : x ∈ l -> (exists e, f x = Raise e) -> exists e, map_result f l = Raise e.
Proof.
  intros Hin [e He]. induction l as [|y l IH]; [by apply not_elem_of_nil in Hin|]. cbn. destruct (f y) as [z|e'] eqn:Ef; cbn; [|by exists e'].
  apply elem_of_cons in Hin as [->|Hin]; [congruence|]. destruct (IH Hin) as [e' ->]. by exists e'.
Qed.

Lemma map_result_ok {A B} (f : A -> result B) l : is_ok (map_result f l) = forallb (fun x => is_ok (f x)) l.
Proof. induction l as [|x l IH]; [done|]. cbn. destruct (f x); cbn; [|done]. rewrite <- IH. by destruct (map_result f l). Qed.

(** ** Lemmas: documents *)

Lemma assoc_doc_set k k' v d : assoc k (doc_set k' v d) = if bool_decide (k = k') then Some v else assoc k d.
Proof.
  induction d as [|[k0 v0] d IH]; cbn; [by repeat case_bool_decide|].
  destruct (decide (k' = k0)) as [->|Hk]; [rewrite (bool_decide_eq_true_2 (k0 = k0)) by done | rewrite (bool_decide_eq_false_2 (k' = k0)) by done]; cbn.
  - by repeat case_bool_decide.
  - rewrite IH. repeat case_bool_decide; congruence.
Qed.

Definition merge_all (o : list (string * json)) (merged : Doc) : Doc :=
  fold_left (fun m kv => doc_set kv.1 (merge_value (assoc kv.1 m) kv.2) m) o merged.

Lemma merge_value_obj base o : merge_value (Some (JObj base)) (JObj o) = JObj (merge_all o base).
Proof.
  cbn. f_equal. revert base. induction o as [|[k v] o IH]; intros base; [done|]. cbn. by rewrite IH.
Qed.

Lemma deep_merge_all base o : deep_merge base o = merge_all o base.
Proof. unfold deep_merge. by rewrite merge_value_obj. Qed.

Lemma merge_value_scalar old v : is_mapping v = false -> merge_value old v = v.
Proof. by destruct v. Qed.

(** What a merge leaves at a key: the base's value under the override's. *)
Definition over (base override : option json) : option json :=
  match override with None => base | Some v => Some (merge_value base v) end.

Lemma over_none o : over None o = o.
Proof. destruct o as [v|]; [|done]. by destruct v. Qed.

Lemma assoc_merge_all k o base : NoDup o.*1 -> assoc k (merge_all o base) = over (assoc k base) (assoc k o).
Proof.
  revert base. induction o as [|[k' v] o IH]; intros base; [done|].
  cbn. rewrite NoDup_cons. intros [Hni Hnd]. rewrite (IH _ Hnd), assoc_doc_set.
  case_bool_decide as Hk; [subst k'|done].
  destruct (assoc k o) as [x|] eqn:Ex; [|done].
  destruct Hni. apply assoc_is_Some. by exists x.
Qed.

(** The value at a leaf, and what makes a layer readable there: the section absent or a table of distinct keys. *)
Definition leaf (section field_name : string) (d : Doc) : option json :=
  match assoc section d with Some (JObj s) => assoc field_name s | _ => None end.

Definition table_at (section : string) (d : Doc) : Prop :=
  match assoc section d with None => True | Some (JObj s) => NoDup s.*1 | Some _ => False end.

Lemma NoDup_doc_set k v d : NoDup d.*1 -> NoDup (doc_set k v d).*1.
Proof.
  induction d as [|[k' v'] d IH]; cbn; [intros _; apply NoDup_singleton|].
  rewrite NoDup_cons. intros [Hni Hnd]. case_bool_decide as Hk; cbn; apply NoDup_cons; [done|].
  split; [|by apply IH]. rewrite <- !assoc_is_Some, assoc_doc_set in *. by rewrite bool_decide_eq_false_2.
Qed.

Lemma NoDup_merge_all o base : NoDup base.*1 -> NoDup (merge_all o base).*1.
Proof.
  revert base. induction o as [|[k v] o IH]; intros base Hb; [done|]. apply IH. by apply NoDup_doc_set.
Qed.

Lemma leaf_merge section field_name base o :
  NoDup o.*1 -> table_at section base -> table_at section o ->
  leaf section field_name (deep_merge base o) = over (leaf section field_name base) (leaf section field_name o) /\
  table_at section (deep_merge base o).
Proof.
  intros Hnd Hb Ho. unfold leaf, table_at in *. rewrite deep_merge_all, assoc_merge_all by done. cbn.
  destruct (assoc section o) as [x|]; cbn; [|done]. destruct x; try done.
  destruct (assoc section base) as [b|]; [destruct b; try done|by rewrite over_none].
  rewrite merge_value_obj. cbn. split; [by apply assoc_merge_all | by apply NoDup_merge_all].
Qed.

Lemma written_at section field_name d : table_at section d -> written section field_name d = Ok (bool_decide (is_Some (leaf section field_name d))).
Proof.
  unfold table_at, written, leaf. destruct (assoc section d) as [x|]; [|done]. by destruct x.
Qed.

(** ** Lemmas: the environment *)

Definition leaf_pairs : list (string * string) := List.concat (map (fun sf => map (pair sf.1) sf.2) SECTIONS).

#[global] Arguments leaf_pairs : simpl never.

(** The variable of a leaf. *)
Definition var_of (section field_name : string) : string := ENV_PREFIX +:+ upper section +:+ "__" +:+ dots_to_dunder (upper field_name).

Definition leaf_checks (sf : string * string) : bool :=
  match env_var_for (sf.1 +:+ "." +:+ sf.2) with Ok name => bool_decide (name = var_of sf.1 sf.2) | Raise _ => false end &&
  match drop_prefix ENV_PREFIX (var_of sf.1 sf.2) with
  | Some suffix => negb (bool_decide (suffix ∈ RESERVED_ENV_SUFFIXES)) && bool_decide (split_dunder (lower suffix) = [sf.1; sf.2])
  | None => false
  end.

Lemma leaves_checked : forallb leaf_checks leaf_pairs = true.
Proof. vm_compute. reflexivity. Qed.

Lemma leaf_var section field_name : (section, field_name) ∈ leaf_pairs ->
  env_var_for (section +:+ "." +:+ field_name) = Ok (var_of section field_name) /\
  exists suffix, drop_prefix ENV_PREFIX (var_of section field_name) = Some suffix /\ suffix ∉ RESERVED_ENV_SUFFIXES /\
    split_dunder (lower suffix) = [section; field_name].
Proof.
  intros H0. pose proof leaves_checked as Hc. rewrite forallb_forall in Hc.
  specialize (Hc _ (proj1 (list_elem_of_In _ _) H0)). unfold leaf_checks in Hc. cbn [fst snd] in Hc.
  apply andb_true_iff in Hc as [H1 H2]. destruct (env_var_for _); [|done]. apply bool_decide_eq_true_1 in H1. subst. split; [done|].
  destruct (drop_prefix _ _) as [suffix|]; [|done]. exists suffix.
  apply andb_true_iff in H2 as [H2 H3]. apply negb_true_iff, bool_decide_eq_false_1 in H2. by apply bool_decide_eq_true_1 in H3.
Qed.

Lemma var_of_inj s f s' f' : (s, f) ∈ leaf_pairs -> (s', f') ∈ leaf_pairs -> var_of s f = var_of s' f' -> s = s' /\ f = f'.
Proof.
  intros H1 H2 He. destruct (leaf_var _ _ H1) as (_ & x & Hx & _ & Ex). destruct (leaf_var _ _ H2) as (_ & y & Hy & _ & Ey).
  rewrite He, Hy in Hx. simplify_eq. rewrite Ex in Ey. by simplify_eq.
Qed.

(** A variable the loader leaves alone, or one that spells a leaf as [env_var_for] does. *)
Definition plain_variable (key : string) : bool :=
  match drop_prefix ENV_PREFIX key with
  | None => true
  | Some suffix => bool_decide (suffix ∈ RESERVED_ENV_SUFFIXES) || bool_decide (key ∈ map (fun sf => var_of sf.1 sf.2) leaf_pairs)
  end.

Definition tables (d : Doc) : Prop := NoDup d.*1 /\ forall section, table_at section d.

Lemma env_put_leaf s f v d : tables d ->
  exists d', env_put [s; f] v (JObj d) = Ok (JObj d') /\ tables d' /\
    forall s' f', leaf s' f' d' = if bool_decide (s' = s /\ f' = f) then Some (JStr v) else leaf s' f' d.
Proof.
  intros [Hnd Ht]. cbn. pose proof (Ht s) as Hs. unfold table_at in Hs.
  assert (exists t, default (JObj []) (assoc s d) = JObj t /\ NoDup t.*1 /\ (forall f', leaf s f' d = assoc f' t)) as (t & Et & Hnt & Hl).
  { unfold leaf. destruct (assoc s d) as [x|]; [destruct x; try done; by eexists|]. exists []. repeat split; [constructor]. }
  rewrite Et. cbn. eexists. split; [done|]. split; [split|].
  - by apply NoDup_doc_set.
  - intros s'. unfold table_at. rewrite assoc_doc_set. case_bool_decide; [by apply NoDup_doc_set|apply Ht].
  - intros s' f'. unfold leaf at 1. rewrite assoc_doc_set. case_bool_decide as Hs'; [subst s'|].
    + rewrite assoc_doc_set, Hl. repeat case_bool_decide; naive_solver.
    + rewrite bool_decide_eq_false_2 by naive_solver. done.
Qed.

Lemma plain_variable_cases key : plain_variable key = true ->
  (exists s f, (s, f) ∈ leaf_pairs /\ key = var_of s f) \/
  (forall value nested, match drop_prefix ENV_PREFIX key with
     | None => Ok nested
     | Some suffix => if bool_decide (suffix ∈ RESERVED_ENV_SUFFIXES) then Ok nested else env_put (split_dunder (lower suffix)) value nested
     end = Ok nested) /\ forall s f, (s, f) ∈ leaf_pairs -> var_of s f <> key.
Proof.
  unfold plain_variable. destruct (drop_prefix ENV_PREFIX key) as [suffix|] eqn:Ed.
  - case_bool_decide as Hr; cbn.
    + intros _. right. split; [done|]. intros s f Hl He. destruct (leaf_var _ _ Hl) as (_ & x & Hx & Hn & _). rewrite He in Hx. naive_solver.
    + intros Hk. apply bool_decide_eq_true_1, list_elem_of_fmap in Hk as ([s f] & -> & Hin). left. by exists s, f.
  - intros _. right. split; [done|]. intros s f Hl He. destruct (leaf_var _ _ Hl) as (_ & x & Hx & _). rewrite He in Hx. congruence.
Qed.

Lemma env_fold_plain environ d : NoDup environ.*1 -> Forall (fun kv => plain_variable kv.1 = true) environ -> tables d ->
  exists d', env_fold environ (JObj d) = Ok (JObj d') /\ tables d' /\
    forall s f, (s, f) ∈ leaf_pairs ->
      leaf s f d' = match assoc (var_of s f) environ with Some v => Some (JStr v) | None => leaf s f d end.
Proof.
  revert d. induction environ as [|[key value] environ IH]; intros d; cbn [env_fold assoc fmap list_fmap fst]; [intros _ _ Ht; exists d; by split|].
  rewrite NoDup_cons, Forall_cons. intros [Hni Hnd] [Hp Hps] Ht. cbn [fst] in Hp.
  destruct (plain_variable_cases key Hp) as [(s & f & Hin & ->)|[Hskip Hne]].
  - destruct (leaf_var s f Hin) as (_ & suffix & -> & Hres & Hsplit). rewrite bool_decide_eq_false_2 by done. rewrite Hsplit.
    destruct (env_put_leaf s f value d Ht) as (d1 & E1 & Ht1 & L1). rewrite E1. cbn [mbind result_bind].
    destruct (IH d1 Hnd Hps Ht1) as (d2 & E2 & Ht2 & L2). exists d2. split; [done|]. split; [done|].
    intros s' f' Hin'. rewrite (L2 _ _ Hin'), L1. destruct (decide (s' = s /\ f' = f)) as [[-> ->]|Hne].
    + rewrite !bool_decide_eq_true_2 by done. destruct (assoc (var_of s f) environ) eqn:Ea; [|done].
      destruct Hni. apply assoc_is_Some. by eexists.
    + rewrite (bool_decide_eq_false_2 (_ /\ _)) by done. rewrite bool_decide_eq_false_2; [done|].
      intros Hv. apply Hne. by apply var_of_inj.
  - rewrite Hskip. cbn [mbind result_bind]. destruct (IH d Hnd Hps Ht) as (d2 & E2 & Ht2 & L2). exists d2. split; [done|]. split; [done|].
    intros s' f' Hin'. rewrite (L2 _ _ Hin'). rewrite (bool_decide_eq_false_2 (var_of s' f' = key)) by (by apply Hne). done.
Qed.

(** The short name of [logging.level]; what the environment sets a leaf to. *)
Definition short_level (environ : list (string * string)) : option string :=
  match assoc (ENV_PREFIX +:+ "LOG_LEVEL") environ with Some v => if bool_decide (v = "") then None else Some v | None => None end.

Definition is_level (s f : string) : bool := bool_decide (s = "logging") && bool_decide (f = "level").

Definition env_setting (environ : list (string * string)) (section field_name : string) : option string :=
  match assoc (var_of section field_name) environ with
  | Some v => Some v
  | None => if is_level section field_name then short_level environ else None
  end.

Lemma log_level_stage environ d : tables d ->
  exists d', match assoc (ENV_PREFIX +:+ "LOG_LEVEL") environ with
             | Some level =>
                 if bool_decide (level = "") then Ok (JObj d)
                 else present ← py_in "level" (default (JObj []) (assoc "logging" d));
                      (if (present : bool) then Ok (JObj d) else env_put ["logging"; "level"] level (JObj d))
             | None => Ok (JObj d)
             end = Ok (JObj d') /\ tables d' /\
    forall s f, leaf s f d' = match leaf s f d with Some x => Some x | None => if is_level s f then JStr <$> short_level environ else None end.
Proof.
  intros Ht. unfold short_level. destruct (assoc _ environ) as [level|].
  2: { exists d. split; [done|]. split; [done|]. intros s f. destruct (leaf s f d); [done|]. by destruct (is_level s f). }
  case_bool_decide.
  { exists d. split; [done|]. split; [done|]. intros s f. destruct (leaf s f d); [done|]. by destruct (is_level s f). }
  assert (py_in "level" (default (JObj []) (assoc "logging" d)) = Ok (bool_decide (is_Some (leaf "logging" "level" d)))) as ->.
  { destruct Ht as [_ Ht]. specialize (Ht "logging"). unfold table_at, leaf in *. destruct (assoc "logging" d) as [x|]; [|done]. by destruct x. }
  cbn [mbind result_bind]. assert (forall s f, is_level s f = bool_decide (s = "logging" /\ f = "level")) as Hlevel.
  { intros s f. unfold is_level. by repeat case_bool_decide; naive_solver. }
  destruct (leaf "logging" "level" d) as [x|] eqn:El.
  - exists d. split; [done|]. split; [done|]. intros s f. destruct (leaf s f d) eqn:Ef; [done|]. rewrite Hlevel. case_bool_decide; [|done].
    naive_solver.
  - destruct (env_put_leaf "logging" "level" level d Ht) as (d' & Ed' & Ht' & Hl'). exists d'. split; [done|]. split; [done|].
    intros s f. rewrite Hl', Hlevel. case_bool_decide as Hsf; [destruct Hsf as [-> ->]; by rewrite El|by destruct (leaf s f d)].
Qed.

Lemma read_env_plain environ : NoDup environ.*1 -> Forall (fun kv => plain_variable kv.1 = true) environ ->
  exists env, read_env environ = Ok env /\ tables env /\
    forall s f, (s, f) ∈ leaf_pairs -> leaf s f env = JStr <$> env_setting environ s f.
Proof.
  intros Hnd Hp. destruct (env_fold_plain environ [] Hnd Hp) as (d & Ed & Ht & Hl); [split; [constructor|done]|].
  destruct (log_level_stage environ d Ht) as (d' & Ed' & Ht' & Hl'). exists d'. split.
  - unfold read_env. rewrite Ed. cbn [mbind result_bind]. by rewrite Ed'.
  - split; [done|]. intros s f Hsf. rewrite Hl', (Hl _ _ Hsf). unfold env_setting.
    destruct (assoc (var_of s f) environ); [done|]. by destruct (is_level s f).
Qed.

(** ** Lemmas: provenance *)

Lemma source_of_layers file env cli s f :
  (s, f) ∈ leaf_pairs -> table_at s file -> table_at s env -> table_at s cli ->
  source_of file env cli s f = Ok (match leaf s f cli, leaf s f env, leaf s f file with
    | Some _, _, _ => SrcCli | None, Some _, _ => SrcEnv (var_of s f) | None, None, Some _ => SrcFile | None, None, None => SrcDefault end).
Proof.
  intros Hsf Hf He Hc. unfold source_of. rewrite !written_at by done. cbn [mbind result_bind].
  destruct (leaf s f cli); [done|]. change (bool_decide (is_Some (@None json))) with false. cbn [mbind result_bind].
  destruct (leaf s f env); [by rewrite (proj1 (leaf_var _ _ Hsf))|]. by destruct (leaf s f file).
Qed.

Lemma leaf_merged file env cli s f : NoDup env.*1 -> NoDup cli.*1 -> table_at s file -> table_at s env -> table_at s cli ->
  leaf s f (deep_merge (deep_merge file env) cli) = over (over (leaf s f file) (leaf s f env)) (leaf s f cli).
Proof.
  intros He Hc Tf Te Tc. destruct (leaf_merge s f file env He Tf Te) as [L1 T1].
  destruct (leaf_merge s f (deep_merge file env) cli Hc T1 Tc) as [L2 _]. by rewrite L2, L1.
Qed.

(** A key of the file some model recognises. *)
Definition known (section k : string) : bool :=
  bool_decide (section ∈ map fst SECTIONS) && (allows_extra section || is_leaf (section +:+ "." +:+ k)).

Lemma filter_all_true {A} (p : A -> bool) l : forallb p l = true -> List.filter p l = l.
Proof. induction l as [|x l IH]; cbn; [done|]. intros [-> ?]%andb_true_iff. by rewrite IH. Qed.

Lemma assoc_filter {A} (p : string -> bool) k (l : list (string * A)) :
  assoc k (List.filter (fun kv => p kv.1) l) = if p k then assoc k l else None.
Proof.
  induction l as [|[k' v] l IH]; cbn; [by destruct (p k)|].
  destruct (p k') eqn:Ep; cbn; rewrite IH; case_bool_decide; subst; [by rewrite Ep|done|by rewrite Ep|done].
Qed.

#[local] Opaque is_leaf SECTIONS.

Lemma clean_file_leaf file s f : known s f = true -> leaf s f (clean_file file).1 = leaf s f file.
Proof.
  intros [Hs Hk]%andb_true_iff. apply bool_decide_eq_true_1 in Hs. unfold leaf.
  induction file as [|[section fields] file IH]; [done|]. cbn [clean_file assoc].
  destruct (clean_file file) as [clean problems]. cbn [fst] in IH.
  destruct (decide (s = section)) as [->|Hne].
  - rewrite !bool_decide_eq_true_2 by done. unfold clean_section.
    destruct fields; try (cbn [fst assoc]; by rewrite bool_decide_eq_true_2).
    destruct (allows_extra section) eqn:Ea; cbn [fst assoc]; rewrite bool_decide_eq_true_2 by done; [done|].
    etransitivity; [exact (assoc_filter (fun k => is_leaf (section +:+ "." +:+ k)) f l)|]. cbn [orb] in Hk. cbn beta. by rewrite Hk.
  - rewrite (bool_decide_eq_false_2 (s = section)) by done. destruct (decide (section ∈ map fst SECTIONS));
      [rewrite bool_decide_eq_true_2 by done|rewrite bool_decide_eq_false_2 by done; exact IH].
    destruct (clean_section section fields) as [fields' p]. cbn [fst assoc]. by rewrite (bool_decide_eq_false_2 (s = section)).
Qed.

(** Whether every key of the file is known. *)
Definition all_known (file : Doc) : bool :=
  forallb (fun kv => bool_decide (kv.1 ∈ map fst SECTIONS) &&
    match kv.2 with JObj d => forallb (fun fv => known kv.1 fv.1) d | _ => true end) file.

Lemma filter_all_false {A} (p : A -> bool) l : List.filter (fun x => negb (p x)) l = [] <-> forallb p l = true.
Proof. induction l as [|x l IH]; cbn; [done|]. destruct (p x); cbn; [done|]. by split. Qed.

Lemma clean_section_known section fields : section ∈ map fst SECTIONS ->
  ((clean_section section fields).2 = [] <-> match fields with JObj d => forallb (fun fv => known section fv.1) d = true | _ => True end) /\
  ((clean_section section fields).2 = [] -> (clean_section section fields).1 = fields).
Proof.
  intros Hs. unfold clean_section, known. rewrite bool_decide_eq_true_2 by done. destruct fields; try done.
  destruct (allows_extra section); cbn [andb orb fst snd].
  { split; [|done]. split; [|done]. intros _. by apply forallb_forall. }
  pose proof (filter_all_false (fun kv : string * json => is_leaf (section +:+ "." +:+ kv.1)) l) as Hn. cbn beta in Hn.
  split.
  - rewrite <- Hn. split; [by intros ->%map_eq_nil | by intros ->].
  - intros He%map_eq_nil. f_equal. apply filter_all_true. by apply Hn.
Qed.

Lemma clean_file_problems file : ((clean_file file).2 = [] <-> all_known file = true) /\ ((clean_file file).2 = [] -> (clean_file file).1 = file).
Proof.
  induction file as [|[section fields] file [IH1 IH2]]; [done|]. unfold all_known in *. cbn [clean_file forallb fst snd].
  destruct (clean_file file) as [clean problems]. cbn [fst snd] in IH1, IH2.
  case_bool_decide as Hs; cbn [andb fst snd]; [|by split].
  pose proof (clean_section_known section fields Hs) as [K1 K2]. destruct (clean_section section fields) as [fields' p]. cbn [fst snd] in K1, K2 |- *.
  assert (p ++ problems = [] <-> p = [] /\ problems = []) as Happ by (split; [by intros [-> ->]%app_eq_nil|by intros [-> ->]]).
  split.
  - rewrite Happ, K1, IH1, andb_true_iff. destruct fields; intuition congruence.
  - intros [Hp Hq]%Happ. by rewrite K2, IH2.
Qed.

(** ** Lemmas: a fresh install *)

Section fresh.
Context `{PydanticLaws}.

Lemma section_defaults s : s ∈ schema -> exists x, validate_section s None = Ok x.
Proof.
  assert (majors_ok supported_majors [1] = true) as Hm.
  { unfold majors_ok. cbn [forallb]. by rewrite (bool_decide_eq_true_2 _ first_major). }
  unfold schema. rewrite !elem_of_cons, elem_of_nil. intros Hs.
  destruct Hs as [->|[->|[->|[->|[->|[->|[->|[->|[->|[->|[->|[->|[->|[->|[]]]]]]]]]]]]]]]; try (eexists; reflexivity).
  set (v := omap (fun f => x ← fd_default f; Some (fd_name f, x)) evidence_fields). exists (JObj v).
  transitivity (w ← (_ ← guard_raise (negb (majors_ok supported_majors [1])) Invalid; Ok v); Ok (JObj (w ++ []))); [reflexivity|]. by rewrite Hm.
Qed.

Lemma sections_default l : (forall s, s ∈ l -> s ∈ schema) -> exists d, validate_sections l [] = Ok d.
Proof.
  induction l as [|s l IH]; intros Hl; [by eexists|]. cbn [validate_sections assoc]. destruct (section_defaults s) as [x ->]; [apply Hl; left|].
  destruct IH as [d ->]; [intros t Ht; apply Hl; by right|]. by eexists.
Qed.

Lemma fresh_settings : exists d, model_validate [] = Ok d /\ server_of d = mkServer "127.0.0.1" false [].
Proof.
  destruct (sections_default (tail schema)) as [d Hd]; [intros s Hs; by right|].
  exists (("server", default JNull (match validate_section (mkSection "server" server_fields None None false) None with Ok x => Some x | Raise _ => None end)) :: d).
  split; [|reflexivity]. unfold model_validate. cbn [forallb]. unfold schema in *. cbn [tail] in Hd. cbn [validate_sections]. cbn [validate_sections] in Hd.
  rewrite Hd. reflexivity.
Qed.
End fresh.

Module Properties.


Definition sample_environ : list (string * string) :=
  [("PATH", "/bin"); ("LOADCOACH_QUEUE__MAX_DEPTH", "5"); ("LOADCOACH_CONFIG", "c.toml"); ("LOADCOACH_LOG_LEVEL", "DEBUG")].



(** A fresh install starts.  With no file, no variables and no command line, whatever pydantic's conversions are, loading returns settings bound
    to loopback, every leaf of the schema is reported as a default, and the database check of the bind address passes with no tokens at all;
    every caller is then the loopback administrator. *)
Theorem fresh_install_starts `{PydanticLaws} `{Externals} :
  exists ls, load_settings model_validate server_of NoFile [] [] = Ok ls /\ ls_file_used ls = false /\
    server_of (ls_settings ls) = mkServer "127.0.0.1" false [] /\
    Forall (fun ps => ps.2 = SrcDefault) (ls_sources ls) /\ map fst (ls_sources ls) = map (fun sf => sf.1 +:+ "." +:+ sf.2) leaf_pairs /\
    forall now, bootstrap_binding (server_of (ls_settings ls)) [] now = Ok tt /\
      forall authorization cookie, resolve_principal [] authorization (sv_host (server_of (ls_settings ls))) now cookie = Ok (mkPrincipal "loopback" "admin" SrcLoopback).
Proof.
  destruct fresh_settings as (d & Hd & Hs).
  exists (mkLoaded d false (map (fun sf => (sf.1 +:+ "." +:+ sf.2, SrcDefault)) leaf_pairs)). cbn [ls_settings ls_file_used ls_sources]. rewrite Hs. split; [|split; [done|split; [done|split; [|split]]]].
  - unfold load_settings. cbn [read_file mbind result_bind]. change (read_env []) with (Ok (A := Doc) []). cbn [mbind result_bind].
    change (deep_merge (deep_merge [] []) []) with ([] : Doc). unfold validate. change (refuse_both_provider_forms []) with (Ok tt). cbn [mbind result_bind].
    rewrite Hd. cbn [mbind result_bind]. rewrite Hs. change (validate_security (mkServer "127.0.0.1" false [])) with (Ok tt). cbn [mbind result_bind].
    change (track_sources [] [] []) with (Ok (map (fun sf : string * string => (sf.1 +:+ "." +:+ sf.2, SrcDefault)) leaf_pairs)). reflexivity.
  - apply Forall_forall. by intros ps (sf & -> & _)%(list_elem_of_fmap (fun sf : string * string => (sf.1 +:+ "." +:+ sf.2, SrcDefault))).
  - by rewrite map_map.
  - intros now. by split.
Qed.

Lemma fresh_install_starts_witness : exists ls, load_settings (@model_validate Schema.Properties.strict) server_of NoFile [] [] = Ok ls.
Proof.
  destruct (@fresh_install_starts Schema.Properties.strict Schema.Properties.strict_laws sample_externals) as (ls & Hl & _). exists ls. exact Hl.
Defined.

(** The tolerant load.  Stripping a file keeps every known leaf as it was and reports nothing exactly when every key of the file is known;
    then the tolerant load of a file is the strict load of it without command line values, refusals included. *)
Theorem tolerant_load_exact {Settings} (model_validate : Doc -> result Settings) (server_of : Settings -> ServerSettings) file environ :
  (forall s f, known s f = true -> leaf s f (clean_file file).1 = leaf s f file) /\
  ((clean_file file).2 = [] <-> all_known file = true) /\
  (all_known file = true ->
   load_settings_tolerant model_validate server_of (Toml file) environ =
   (ls ← load_settings model_validate server_of (Toml file) environ []; Ok (ls, []))).
Proof.
  pose proof (clean_file_problems file) as [Hp Hk]. split; [intros s f; apply clean_file_leaf|]. split; [exact Hp|].
  intros Ha. apply Hp in Ha. unfold load_settings_tolerant, load_settings. cbn [read_file mbind result_bind].
  pose proof (Hk Ha) as Hc. destruct (clean_file file) as [clean problems]. cbn [fst snd] in Ha, Hc. subst.
  destruct (read_env environ) as [env|]; cbn [mbind result_bind]; [|done]. destruct (validate _ _ _); cbn [mbind result_bind]; [|done]. by destruct (track_sources file env []).
Qed.

(** The IPv6 wildcard binds every interface and needs no [allow_lan_exposure]: the guard names one spelling of it. *)
Theorem ipv6_wildcard_unguarded hosts : hosts <> [] -> validate_security (mkServer "::" false hosts) = Ok tt.
Proof. destruct hosts; [done|reflexivity]. Qed.

(** A section's own variable beside one of its fields: the loader raises [TypeError] or drops one of them, by their order. *)
Theorem section_variable_raises v p :
  read_env [("LOADCOACH_SERVER", v); ("LOADCOACH_SERVER__PORT", p)] = Raise TypeError /\
  read_env [("LOADCOACH_SERVER__PORT", p); ("LOADCOACH_SERVER", v)] = Ok [("server", JStr v)].
Proof. split; reflexivity. Qed.

(** The short name of the log level is reported under the variable that is not set. *)
Theorem short_level_misattributed v : v <> "" ->
  exists env, read_env [("LOADCOACH_LOG_LEVEL", v)] = Ok env /\
    source_of [] env [] "logging" "level" = Ok (SrcEnv "LOADCOACH_LOGGING__LEVEL").
Proof.
  intros Hv. exists [("logging", JObj [("level", JStr v)])]. destruct v; [done|]. split; reflexivity.
Qed.

(** A lower-case variable sets its leaf though it is not the leaf's spelling. *)
Theorem lower_case_variable v :
  read_env [("LOADCOACH_routing__min_confidence", v)] = Ok [("routing", JObj [("min_confidence", JStr v)])] /\
  env_var_for "routing.min_confidence" = Ok "LOADCOACH_ROUTING__MIN_CONFIDENCE".
Proof. split; reflexivity. Qed.

Definition sample_server : ServerSettings := mkServer "10.0.0.5" false ["box"].
Definition sample_token : ApiToken := mkToken "t1" "ops" "s" "admin" 0 None None None.

End Properties.
