(* ===== verification/Settings.v ===== *)
(** * Runtime settings ([services/settings.py], [repositories/settings.py], [web/routes/settings.py])

    The keys that may change while the server runs, how a value is validated, stored and read back under the
    environment's precedence, and how the running process picks the values up. The configured settings are a function of
    section and field; the JSON column of Python's [json] holds NaN and the infinities, so a value may be one. *)

From Stdlib Require Import Ascii String.
From S2P Require Import Prelude PyFloat PyStr Json Ordering Authorization JobEvents QueueStore Queue Schema Config.
#[local] Open Scope string_scope.
#[local] Open Scope list_scope.
#[local] Open Scope Z_scope.

Inductive SettingValue :=
| VBool (b : bool)
| VInt (z : Z)
| VFloat (f : f64)
| VNan
| VInf (negative : bool)
| VOther (x : json).

Inductive Kind := KBool | KInt | KFloat.

Record RuntimeSetting := mkSetting {
  rs_key : string;
  rs_kind : Kind;
  rs_description : string;
  rs_minimum : option f64;
  rs_maximum : option f64
}.

Definition rs_section (s : RuntimeSetting) : string := (partition_at "."%char (rs_key s)).1.1.
Definition rs_field (s : RuntimeSetting) : string := (partition_at "."%char (rs_key s)).2.

(** [float(n)] of an [int]. *)
Definition float_of_int (z : Z) : result f64 := if Z.abs (of_int z) <? 2 ^ 2098 then Ok (of_int z) else Raise OverflowError.

(** Whether a number, in units of 2^-1074, is outside the bounds. *)
Definition outside (s : RuntimeSetting) (number : Z) : bool :=
  match rs_minimum s with Some m => number <? m | None => false end || match rs_maximum s with Some m => m <? number | None => false end.

Definition coerce (s : RuntimeSetting) (value : SettingValue) : result SettingValue :=
  let refuse := Raise (ValidationError (rs_key s)) in
  match rs_kind s, value with
  | KBool, VBool b => Ok (VBool b)
  | KBool, _ | _, VBool _ | _, VOther _ => refuse
  | KInt, VInt z =>
      f ← float_of_int z;
      if negb (f =? z * fone) then refuse else if outside s (z * fone) then refuse else Ok (VInt z)
  | KInt, VFloat f =>
      if negb (f =? ftrunc f * fone) then refuse else if outside s (ftrunc f * fone) then refuse else Ok (VInt (ftrunc f))
  | KInt, VNan => Raise ValueError
  | KInt, VInf _ => Raise OverflowError
  | KFloat, VInt z => f ← float_of_int z; if outside s f then refuse else Ok (VFloat f)
  | KFloat, VFloat f => if outside s f then refuse else Ok (VFloat f)
  | KFloat, VNan => Ok VNan                       (* every comparison with it is false *)
  | KFloat, VInf negative =>
      if bool_decide (is_Some (if negative then rs_minimum s else rs_maximum s)) then refuse else Ok (VInf negative)
  end.

Definition RUNTIME_SETTINGS : list RuntimeSetting :=
  [mkSetting "queue.paused" KBool "Stop dispatch without dropping jobs." None None;
   mkSetting "queue.draining" KBool "Finish in-flight work and claim nothing new." None None;
   mkSetting "routing.prefer_resident_bonus" KFloat "The residency tie-break bonus (routing §6)." (Some 0) (Some fone);
   mkSetting "routing.min_present_weight" KFloat "The measured-weight floor below which a decision is flagged low_evidence." (Some 0) (Some fone);
   mkSetting "routing.min_confidence" KFloat "Evidence below this confidence is ignored (routing §5)." (Some 0) (Some fone);
   mkSetting "routing.remote_cost_factor" KFloat "The cost factor applied to a remote provider's candidates (routing §6)." (Some (flit 1 100)) (Some fone);
   mkSetting "storage.content_retention_hours" KInt "Hours a finished job keeps its prompt and response text (spec §14)." (Some 0) (Some (of_int (24 * 365)))].

(** [RUNTIME_SETTINGS.get(key)]. *)
Definition setting_of (key : string) : option RuntimeSetting := List.find (fun s => bool_decide (rs_key s = key)) RUNTIME_SETTINGS.

#[global] Arguments setting_of : simpl never.
#[global] Arguments RUNTIME_SETTINGS : simpl never.

Definition CONFIG_ONLY_SECURITY_KEYS : list string :=
  ["server.host"; "server.port"; "server.allow_lan_exposure"; "server.allowed_hosts"; "server.trusted_proxies"; "providers.allow_remote";
   "provider.base_url"; "provider.kind"; "storage.database_url"; "storage.retain_content"; "evidence.allowed_source_hosts";
   "evidence.freeweight_url"; "evidence.freeweight_api_key_env"; "evidence.freeweight_api_key_file"; "logging.include_content"].

Definition DERIVED_CONFIG_KEYS : list string := ["providers.registrations"].

(** ** The table *)

(** The [settings] table: value and [updated_at] by key. *)
Abbreviation Table := (gmap string (SettingValue * Z)).

Definition sr_get (key : string) (t : Table) : option SettingValue := fst <$> t !! key.
Definition sr_set (key : string) (value : SettingValue) (now : Z) (t : Table) : Table := <[key := (value, now)]> t.

(** [key in stored], and the row: the query selects the registry's keys. *)
Definition stored (t : Table) (key : string) : option SettingValue := if bool_decide (is_Some (setting_of key)) then sr_get key t else None.

Section settings.
(** [os.environ] and [getattr(getattr(settings, section), field)]. *)
Context (environ : list (string * string)) (settings_field : string -> string -> option SettingValue).

Definition shadowing_source (key : string) : result (option string) :=
  name ← env_var_for key;
  Ok (if bool_decide (is_Some (assoc name environ)) then Some ("env " +:+ name) else None).

Definition configured (s : RuntimeSetting) : SettingValue := default (VBool false) (settings_field (rs_section s) (rs_field s)).

Definition effective_of (t : Table) (s : RuntimeSetting) : result SettingValue :=
  match stored t (rs_key s) with
  | None => Ok (configured s)
  | Some v =>
      shadowed_by ← shadowing_source (rs_key s);
      match shadowed_by with
      | Some _ => Ok (configured s)
      | None =>
          match coerce s v with
          | Ok v' => Ok v'
          | Raise (ValidationError _) => Ok (configured s)
          | Raise e => Raise e
          end
      end
  end.

Definition read_runtime_settings (t : Table) : result (list (string * SettingValue)) :=
  map_result (fun s => v ← effective_of t s; Ok (rs_key s, v)) RUNTIME_SETTINGS.

Definition SettingConfigOnly (key : string) : exn := OtherException (Some ("FORBIDDEN:" +:+ key)).

Fixpoint refuse_keys (changes : list (string * SettingValue)) : result unit :=
  match changes with
  | [] => Ok tt
  | (key, _) :: rest =>
      _ ← guard_raise (bool_decide (key ∈ CONFIG_ONLY_SECURITY_KEYS)) (SettingConfigOnly key);
      _ ← guard_raise (negb (bool_decide (is_Some (setting_of key)))) (ValidationError key);
      refuse_keys rest
  end.

Definition validated (changes : list (string * SettingValue)) : result (list (string * SettingValue)) :=
  map_result (fun kv : string * SettingValue =>
    match setting_of kv.1 with Some s => v ← coerce s kv.2; Ok (kv.1, v) | None => Raise KeyError end) changes.

Definition store_all (changes : list (string * SettingValue)) (now : Z) (t : Table) : Table :=
  fold_left (fun t kv => sr_set kv.1 kv.2 now t) changes t.

Definition write_runtime_settings (changes : list (string * SettingValue)) (now : Z) (principal : option Principal)
  : prog Table (list (string * SettingValue)) :=
  _ ← lift (authorize principal "admin");
  _ ← lift (refuse_keys changes);
  values ← lift (validated changes);
  _ ← (fun t => (store_all values now t, Ok tt));
  t ← get;
  lift (read_runtime_settings t).

(** ** The documents *)

Record SettingDefinition := mkDefinition {
  de_type : Kind;
  de_description : string;
  de_minimum : option f64;
  de_maximum : option f64;
  de_configured : SettingValue;
  de_stored : option SettingValue;
  de_from_database : bool;
  de_shadowed_by : option string
}.

Record SettingsDocument := mkDocument {
  do_settings : list (string * SettingValue);
  do_definitions : list (string * SettingDefinition);
  do_config_only : list string
}.

Definition definition_of (t : Table) (s : RuntimeSetting) : result (string * SettingDefinition) :=
  let row := stored t (rs_key s) in
  shadowed_by ← match row with Some _ => shadowing_source (rs_key s) | None => Ok None end;
  Ok (rs_key s, mkDefinition (rs_kind s) (rs_description s) (rs_minimum s) (rs_maximum s) (configured s) row
    (bool_decide (is_Some row) && bool_decide (shadowed_by = None)) shadowed_by).

Definition runtime_settings_document (t : Table) : result SettingsDocument :=
  effective ← read_runtime_settings t;
  definitions ← map_result (definition_of t) RUNTIME_SETTINGS;
  Ok (mkDocument effective definitions (py_sorted (leb_of String.compare) CONFIG_ONLY_SECURITY_KEYS)).

(** What [database_overlay] makes of a document: a value of the database, or a row the environment beats. *)
Inductive Overlay := FromDatabase (value : SettingValue) | Shadowed (value : SettingValue) (by_ : string) (row : option SettingValue).

Definition somes {A} (l : list (option A)) : list A := omap (fun x => x) l.

Definition overlay_entry (effective : list (string * SettingValue)) (kd : string * SettingDefinition) : result (option (string * Overlay)) :=
  let value := match assoc kd.1 effective with Some v => Ok v | None => Raise KeyError end in
  if de_from_database kd.2 then v ← value; Ok (Some (kd.1, FromDatabase v))
  else match de_shadowed_by kd.2 with
       | Some by_ => v ← value; Ok (Some (kd.1, Shadowed v by_ (de_stored kd.2)))
       | None => Ok None
       end.

Definition overlay_of (document : SettingsDocument) : result (list (string * Overlay)) :=
  entries ← map_result (overlay_entry (do_settings document)) (do_definitions document);
  Ok (somes entries).

(** The keys of the schema document an operator can only write in the file. *)
Definition schema_config_only : list string :=
  py_sorted (leb_of String.compare)
    (List.filter (fun k => negb (bool_decide (k ∈ map rs_key RUNTIME_SETTINGS)) && negb (bool_decide (k ∈ CONFIG_ONLY_SECURITY_KEYS)) &&
                           negb (bool_decide (k ∈ DERIVED_CONFIG_KEYS))) (remove_dups leaf_keys)).

(** ** The running process *)

(** The four routing numbers of the policy and the retention the runtime holds. *)
Record Applied := mkApplied {
  ap_prefer_resident_bonus : SettingValue;
  ap_min_present_weight : SettingValue;
  ap_min_confidence : SettingValue;
  ap_remote_cost_factor : SettingValue;
  ap_content_retention_hours : Z
}.

(** [float(x)] and [int(x)] of an effective value. *)
Definition to_float (v : SettingValue) : result SettingValue :=
  match v with
  | VBool b => Ok (VFloat (if b then fone else 0))
  | VInt z => f ← float_of_int z; Ok (VFloat f)
  | VFloat _ | VNan | VInf _ => Ok v
  | VOther _ => Raise TypeError
  end.
Definition to_int (v : SettingValue) : result Z :=
  match v with
  | VBool b => Ok (if b then 1 else 0)
  | VInt z => Ok z
  | VFloat f => Ok (ftrunc f)
  | VNan => Raise ValueError
  | VInf _ => Raise OverflowError
  | VOther _ => Raise TypeError
  end.

Definition item (key : string) (l : list (string * SettingValue)) : result SettingValue :=
  match assoc key l with Some v => Ok v | None => Raise KeyError end.

(** [replace(self.policy, ...)]: the four numbers, or none of them. *)
Definition policy_from (effective : list (string * SettingValue)) (last : Applied) : result Applied :=
  bonus ← item "routing.prefer_resident_bonus" effective; bonus ← to_float bonus;
  weight ← item "routing.min_present_weight" effective; weight ← to_float weight;
  confidence ← item "routing.min_confidence" effective; confidence ← to_float confidence;
  factor ← item "routing.remote_cost_factor" effective; factor ← to_float factor;
  Ok (mkApplied bonus weight confidence factor (ap_content_retention_hours last)).

(** What the runtime holds afterwards, and whether the pass raised: the policy is replaced before the hours are read. *)
Definition applied_from (effective : list (string * SettingValue)) (last : Applied) : Applied * result unit :=
  match policy_from effective last with
  | Raise e => (last, Raise e)
  | Ok p =>
      match (hours ← item "storage.content_retention_hours" effective; to_int hours) with
      | Raise e => (p, Raise e)
      | Ok hours => (mkApplied (ap_prefer_resident_bonus p) (ap_min_present_weight p) (ap_min_confidence p) (ap_remote_cost_factor p) hours, Ok tt)
      end
  end.

(** The scheduler's pass: a table that cannot be read keeps the last applied values. *)
Definition apply_runtime_settings (t : Table) (last : Applied) : Applied :=
  match read_runtime_settings t with Ok effective => (applied_from effective last).1 | Raise _ => last end.

(** ** The page's form *)

Context `{Digits} (float_of : string -> result SettingValue).

Definition form_change (form : list (string * string)) (s : RuntimeSetting) : result (option (string * SettingValue)) :=
  let raw := assoc (rs_key s) form in
  match rs_kind s with
  | KBool => Ok (Some (rs_key s, VBool (match raw with Some r => bool_decide (r ∈ ["on"; "true"; "1"]) | None => false end)))
  | k =>
      match raw with
      | None => Ok None
      | Some r =>
          let text := strip r in
          if bool_decide (text = "") then Ok None
          else v ← match k with KInt => z ← int_of text; Ok (VInt z) | _ => float_of text end; Ok (Some (rs_key s, v))
      end
  end.

Definition settings_form (form : list (string * string)) (now : Z) (principal : option Principal) : prog Table (list (string * SettingValue)) :=
  _ ← lift (authorize principal "admin");
  changes ← lift (map_result (form_change form) RUNTIME_SETTINGS);
  write_runtime_settings (somes changes) now principal.
End settings.

(** ** The calls that write the table *)

(** A [json] of the queue's tables as a value here. *)
Definition of_json (x : json) : SettingValue :=
  match x with JBool b => VBool b | JInt z => VInt z | JFloat f => VFloat f | x => VOther x end.
Definition table_of (w : World) : Table := (fun row : json * Z => (of_json row.1, row.2)) <$> settings w.

(** [set_queue_flag] on the table alone. *)
Definition flag_call (name : string) (value : bool) (now : Z) (principal : option Principal) (t : Table) : Table :=
  if is_ok (authorize principal "admin") && bool_decide (name ∈ QUEUE_FLAG_KEYS) then sr_set name (VBool value) now t else t.

Inductive SettingsCall :=
| Put (environ : list (string * string)) (settings_field : string -> string -> option SettingValue) (changes : list (string * SettingValue))
    (now : Z) (principal : option Principal)
| Flag (name : string) (value : bool) (now : Z) (principal : option Principal).

Definition settings_call (c : SettingsCall) (t : Table) : Table :=
  match c with
  | Put environ settings_field changes now principal => (write_runtime_settings environ settings_field changes now principal t).1
  | Flag name value now principal => flag_call name value now principal t
  end.
Definition settings_calls (l : list SettingsCall) : Table := fold_left (fun t c => settings_call c t) l ∅.

(** ** Lemmas *)

Lemma setting_of_Some key s : setting_of key = Some s -> s ∈ RUNTIME_SETTINGS /\ rs_key s = key.
Proof.
  unfold setting_of. intros [Hin Hk]%List.find_some. apply bool_decide_eq_true_1 in Hk. by rewrite list_elem_of_In.
Qed.

Lemma setting_of_key s : s ∈ RUNTIME_SETTINGS -> setting_of (rs_key s) = Some s.
Proof.
  intros Hs. assert (Forall (fun s => setting_of (rs_key s) = Some s) RUNTIME_SETTINGS) as Hf by (repeat constructor).
  rewrite Forall_forall in Hf. by apply Hf.
Qed.

(** A value as the table holds it: of the key's type, and within its bounds unless it is NaN. *)
Definition in_bounds (s : RuntimeSetting) (v : SettingValue) : Prop :=
  match rs_kind s, v with
  | KBool, VBool _ => True
  | KInt, VInt z => outside s (z * fone) = false
  | KFloat, VFloat f => outside s f = false
  | KFloat, VNan => True
  | _, _ => False
  end.

(** The bounds of each kind of key. *)
Lemma runtime_bounds s : s ∈ RUNTIME_SETTINGS ->
  match rs_kind s with
  | KBool => rs_minimum s = None /\ rs_maximum s = None
  | KInt => rs_minimum s = Some 0 /\ rs_maximum s = Some (of_int 8760)
  | KFloat => (exists m, rs_minimum s = Some m /\ 0 <= m) /\ rs_maximum s = Some fone
  end.
Proof.
  intros Hs. assert (0 <= flit 1 100) as Hl by (unfold flit; apply fround_nonneg; [pose proof fone_pos; lia|lia]).
  unfold RUNTIME_SETTINGS in Hs. rewrite !elem_of_cons, elem_of_nil in Hs.
  destruct Hs as [->|[->|[->|[->|[->|[->|[->|[]]]]]]]]; cbn; eauto with lia.
Qed.

Lemma coerce_bounds s v v' : s ∈ RUNTIME_SETTINGS -> coerce s v = Ok v' -> in_bounds s v'.
Proof.
  intros Hs. pose proof (runtime_bounds s Hs) as Hb. unfold coerce, in_bounds. destruct (rs_kind s).
  - destruct v; intros [= <-]. done.
  - destruct v as [b|z|f| |neg|x]; intros Hc; try done.
    + apply bind_Ok_inv in Hc as (f & _ & Hc). destruct (negb _); [done|]. destruct (outside _ _) eqn:Eo; [done|]. by injection Hc as <-.
    + destruct (negb _); [done|]. destruct (outside _ _) eqn:Eo; [done|]. by injection Hc as <-.
  - destruct Hb as [(m & Hm & _) Hx]. destruct v as [b|z|f| |neg|x]; intros Hc; try done.
    + apply bind_Ok_inv in Hc as (f & _ & Hc). destruct (outside _ _) eqn:Eo; [done|]. by injection Hc as <-.
    + destruct (outside _ _) eqn:Eo; [done|]. by injection Hc as <-.
    + by injection Hc as <-.
    + rewrite Hm, Hx in Hc. by destruct neg.
Qed.

Lemma bounds_coerce s v : s ∈ RUNTIME_SETTINGS -> in_bounds s v -> coerce s v = Ok v.
Proof.
  intros Hs. pose proof (runtime_bounds s Hs) as Hb. unfold coerce, in_bounds. destruct (rs_kind s); destruct v as [b|z|f| |neg|x]; try done.
  - intros Ho. destruct Hb as [Hm Hx]. pose proof Ho as Ho'. unfold outside in Ho'. rewrite Hm, Hx, (of_int_exact 8760) in Ho' by lia.
    apply orb_false_iff in Ho' as [H1%Z.ltb_ge H2%Z.ltb_ge]. pose proof fone_pos.
    assert (0 <= z <= 8760) as Hz by nia. unfold float_of_int. rewrite (of_int_exact z) by lia.
    rewrite (proj2 (Z.ltb_lt _ _)); [|]. 2: { rewrite Z.abs_eq by nia. eapply Z.le_lt_trans; [exact H2|].
      apply Z.lt_le_trans with (2 ^ 14 * fone); [nia|]. with_strategy transparent [fone] unfold fone. rewrite <- Z.pow_add_r by lia. apply Z.pow_le_mono_r; lia. }
    cbn [mbind result_bind]. by rewrite Z.eqb_refl, Ho.
  - by intros ->.
Qed.

(** A table whose rows under the registry's keys are values the registry accepts as they are. *)
Definition sound (t : Table) : Prop := forall s v, s ∈ RUNTIME_SETTINGS -> sr_get (rs_key s) t = Some v -> in_bounds s v.

Lemma store_all_lookup values now t k : NoDup values.*1 ->
  store_all values now t !! k = match assoc k values with Some v => Some (v, now) | None => t !! k end.
Proof.
  unfold store_all. revert t. induction values as [|[k' v] values IH]; intros t; cbn [fmap list_fmap fst assoc fold_left]; [done|].
  rewrite NoDup_cons. intros [Hni Hnd]. rewrite (IH _ Hnd). unfold sr_set. cbn [fst snd]. destruct (decide (k = k')) as [->|Hne].
  - rewrite bool_decide_eq_true_2, lookup_insert_eq by done. destruct (assoc k' values) eqn:Ea; [|done]. destruct Hni. apply assoc_is_Some. by eexists.
  - rewrite bool_decide_eq_false_2 by done. by rewrite lookup_insert_ne.
Qed.

Lemma sound_set t key v now : sound t -> (forall s, s ∈ RUNTIME_SETTINGS -> rs_key s = key -> in_bounds s v) -> sound (sr_set key v now t).
Proof.
  intros Ht Hv s v' Hs Hl. unfold sr_get, sr_set in Hl. destruct (decide (rs_key s = key)) as [He|Hne].
  - rewrite He, lookup_insert_eq in Hl. injection Hl as <-. by apply Hv.
  - rewrite lookup_insert_ne in Hl by done. by apply Ht.
Qed.

(** The pairs a validation returns: the same keys, each value what its setting makes of the given one. *)
Definition coerced (given value : string * SettingValue) : Prop :=
  value.1 = given.1 /\ exists s, setting_of given.1 = Some s /\ coerce s given.2 = Ok value.2.

Lemma validated_Ok changes values : validated changes = Ok values -> Forall2 coerced changes values.
Proof.
  intros Hv. apply map_result_Ok in Hv. eapply Forall2_impl; [exact Hv|]. intros [k v] [k' v'] He. cbn [fst snd] in He.
  destruct (setting_of k) as [s|] eqn:Es; [|done]. apply bind_Ok_inv in He as (w & Ew & He). injection He as <- <-. split; [done|]. by exists s.
Qed.

Lemma sound_store_all changes values now t : sound t -> Forall2 coerced changes values -> sound (store_all values now t).
Proof.
  intros Ht Hf. revert t Ht. induction Hf as [|given [k v] gs vs [Hk (s & Es & Hc)] Hf IH]; intros t Ht; [done|]. cbn.
  apply IH. apply sound_set; [done|]. cbn in Hk. subst k. intros s' Hs' Hk'. apply setting_of_Some in Es as [Hs Hk].
  assert (s' = s) as -> by (pose proof (setting_of_key s Hs) as E1; pose proof (setting_of_key s' Hs') as E2; congruence).
  by eapply coerce_bounds.
Qed.

Lemma refuse_keys_cons k v changes :
  refuse_keys ((k, v) :: changes) =
    if bool_decide (k ∈ CONFIG_ONLY_SECURITY_KEYS) then Raise (SettingConfigOnly k)
    else match setting_of k with Some _ => refuse_keys changes | None => Raise (ValidationError k) end.
Proof.
  cbn [refuse_keys]. destruct (bool_decide (k ∈ CONFIG_ONLY_SECURITY_KEYS)); [done|]. by destruct (setting_of k).
Qed.

(** Why a change is refused by its key. *)
Definition refused_key (k : string) (e : exn) : Prop :=
  k ∈ CONFIG_ONLY_SECURITY_KEYS /\ e = SettingConfigOnly k \/ k ∉ CONFIG_ONLY_SECURITY_KEYS /\ setting_of k = None /\ e = ValidationError k.

Lemma refuse_keys_cases changes :
  match refuse_keys changes with
  | Ok _ => Forall (fun kv => kv.1 ∉ CONFIG_ONLY_SECURITY_KEYS /\ is_Some (setting_of kv.1)) changes
  | Raise e => exists k v, (k, v) ∈ changes /\ refused_key k e
  end.
Proof.
  induction changes as [|[k v] changes IH]; [constructor|]. rewrite refuse_keys_cons. unfold refused_key.
  destruct (decide (k ∈ CONFIG_ONLY_SECURITY_KEYS)) as [Hc|Hc].
  { rewrite bool_decide_eq_true_2 by done. exists k, v. split; [left|by left]. }
  rewrite bool_decide_eq_false_2 by done. destruct (setting_of k) as [s|] eqn:Es.
  - destruct (refuse_keys changes).
    + constructor; [cbn [fst]; by rewrite Es|done].
    + destruct IH as (k' & v' & Hin & Hr). exists k', v'. split; [by right|done].
  - exists k, v. split; [left|by right].
Qed.

(** ** Lemmas: reading a sound table *)

Section reading.
Context (environ : list (string * string)) (settings_field : string -> string -> option SettingValue).

(** The variable of a setting. *)
Definition variable_of (s : RuntimeSetting) : string := var_of (rs_section s) (rs_field s).

Lemma shadowing_of s : s ∈ RUNTIME_SETTINGS ->
  shadowing_source environ (rs_key s) = Ok (if bool_decide (is_Some (assoc (variable_of s) environ)) then Some ("env " +:+ variable_of s) else None).
Proof.
  intros Hs. unfold shadowing_source. assert (Forall (fun s => env_var_for (rs_key s) = Ok (variable_of s)) RUNTIME_SETTINGS) as Hf by (repeat constructor).
  rewrite Forall_forall in Hf. by rewrite (Hf s Hs).
Qed.

(** The value of a key: the configured one when the environment pins it or no row exists, else the row. *)
Definition effective (t : Table) (s : RuntimeSetting) : SettingValue :=
  if bool_decide (is_Some (assoc (variable_of s) environ)) then configured settings_field s
  else default (configured settings_field s) (sr_get (rs_key s) t).

Lemma stored_get t s : s ∈ RUNTIME_SETTINGS -> stored t (rs_key s) = sr_get (rs_key s) t.
Proof. intros Hs. unfold stored. by rewrite (setting_of_key s Hs). Qed.

Lemma effective_of_sound t s : sound t -> s ∈ RUNTIME_SETTINGS -> effective_of environ settings_field t s = Ok (effective t s).
Proof.
  intros Ht Hs. unfold effective_of, effective. rewrite (stored_get t s Hs), (shadowing_of s Hs).
  destruct (sr_get (rs_key s) t) as [v|] eqn:Ev; cbn [mbind result_bind default]; case_bool_decide; try done.
  by rewrite (bounds_coerce s v Hs (Ht s v Hs Ev)).
Qed.

Lemma read_sound t : sound t -> read_runtime_settings environ settings_field t = Ok (map (fun s => (rs_key s, effective t s)) RUNTIME_SETTINGS).
Proof. intros Ht. apply map_result_total. intros s Hs. by rewrite effective_of_sound. Qed.

Lemma definition_of_sound t s : s ∈ RUNTIME_SETTINGS ->
  let shadowed_by := if bool_decide (is_Some (sr_get (rs_key s) t) /\ is_Some (assoc (variable_of s) environ)) then Some ("env " +:+ variable_of s) else None in
  definition_of environ settings_field t s = Ok (rs_key s, mkDefinition (rs_kind s) (rs_description s) (rs_minimum s) (rs_maximum s)
    (configured settings_field s) (sr_get (rs_key s) t) (bool_decide (is_Some (sr_get (rs_key s) t) /\ assoc (variable_of s) environ = None)) shadowed_by).
Proof.
  intros Hs. cbn zeta. unfold definition_of. rewrite (stored_get t s Hs). destruct (sr_get (rs_key s) t) as [v|]; cbn [mbind result_bind].
  - rewrite (shadowing_of s Hs). cbn [mbind result_bind]. destruct (assoc (variable_of s) environ); done.
  - by rewrite !(bool_decide_eq_false_2 (is_Some None /\ _)) by (by intros [[? [=]] _]).
Qed.
End reading.

(** ** Lemmas: the calls *)

Lemma flag_setting name : name ∈ QUEUE_FLAG_KEYS -> exists s, s ∈ RUNTIME_SETTINGS /\ rs_key s = name /\ rs_kind s = KBool.
Proof.
  unfold QUEUE_FLAG_KEYS. rewrite !elem_of_cons, elem_of_nil. intros [->|[->|[]]];
    [exists (mkSetting "queue.paused" KBool "Stop dispatch without dropping jobs." None None) |
     exists (mkSetting "queue.draining" KBool "Finish in-flight work and claim nothing new." None None)];
    (split; [|done]); [by apply (list_elem_of_lookup_2 RUNTIME_SETTINGS 0)|by apply (list_elem_of_lookup_2 RUNTIME_SETTINGS 1)].
Qed.

Lemma key_inj s s' : s ∈ RUNTIME_SETTINGS -> s' ∈ RUNTIME_SETTINGS -> rs_key s = rs_key s' -> s = s'.
Proof. intros H1 H2 He. pose proof (setting_of_key s H1) as E1. pose proof (setting_of_key s' H2) as E2. congruence. Qed.

Lemma flag_call_sound name value now principal t : sound t -> sound (flag_call name value now principal t).
Proof.
  intros Ht. unfold flag_call. destruct (is_ok _ && _) eqn:E; [|done]. apply andb_true_iff in E as [_ E]. apply bool_decide_eq_true_1 in E.
  destruct (flag_setting name E) as (s0 & Hs0 & <- & Hk0). apply sound_set; [done|]. intros s Hs He. apply key_inj in He as ->; [|done..].
  unfold in_bounds. by rewrite Hk0.
Qed.

Lemma write_runs environ settings_field changes now principal t :
  write_runtime_settings environ settings_field changes now principal t =
  match authorize principal "admin", refuse_keys changes, validated changes with
  | Raise e, _, _ | Ok _, Raise e, _ | Ok _, Ok _, Raise e => (t, Raise e)
  | Ok _, Ok _, Ok values => (store_all values now t, read_runtime_settings environ settings_field (store_all values now t))
  end.
Proof.
  unfold write_runtime_settings. rewrite bind_lift. destruct (authorize _ _); [|done]. rewrite bind_lift. destruct (refuse_keys _); [|done].
  rewrite bind_lift. by destruct (validated changes).
Qed.

(** What a write does on a sound table, by outcome. *)
Lemma write_cases environ settings_field changes now principal t : sound t ->
  match write_runtime_settings environ settings_field changes now principal t with
  | (t', Ok eff) =>
      is_ok (authorize principal "admin") = true /\ Forall (fun kv => kv.1 ∉ CONFIG_ONLY_SECURITY_KEYS /\ is_Some (setting_of kv.1)) changes /\
      exists values, Forall2 coerced changes values /\ t' = store_all values now t /\ sound t' /\
        eff = map (fun s => (rs_key s, effective environ settings_field t' s)) RUNTIME_SETTINGS
  | (t', Raise e) =>
      t' = t /\ (authorize principal "admin" = Raise e \/
        exists k v, (k, v) ∈ changes /\ (refused_key k e \/ exists s, setting_of k = Some s /\ coerce s v = Raise e))
  end.
Proof.
  intros Ht. rewrite write_runs. destruct (authorize principal "admin") as [p|e]; [|by split; [|left]].
  pose proof (refuse_keys_cases changes) as Hk. destruct (refuse_keys changes) as [u|e] eqn:Er.
  2: { split; [done|right]. destruct Hk as (k & v & Hin & Hr). exists k, v. split; [done|by left]. }
  destruct (validated changes) as [values|e] eqn:Ev.
  - apply validated_Ok in Ev. pose proof (sound_store_all _ _ now t Ht Ev) as Hs.
    rewrite (read_sound environ settings_field _ Hs). split; [done|]. split; [done|]. by exists values.
  - split; [done|right]. apply map_result_Raise in Ev as ([k v] & Hin & He). cbn [fst snd] in He. exists k, v. split; [done|right].
    rewrite Forall_forall in Hk. destruct (Hk _ Hin) as [_ [s Hs]]. cbn [fst] in Hs. rewrite Hs in He. exists s. split; [done|].
    destruct (coerce s v); [done|]. by injection He as ->.
Qed.

Lemma settings_call_sound c t : sound t -> sound (settings_call c t).
Proof.
  intros Ht. destruct c as [environ settings_field changes now principal|name value now principal]; cbn [settings_call]; [|by apply flag_call_sound].
  pose proof (write_cases environ settings_field changes now principal t Ht) as Hw.
  destruct (write_runtime_settings _ _ _ _ _ _) as [t' [eff|e]]; cbn [fst].
  - destruct Hw as (_ & _ & values & _ & _ & Hs & _). done.
  - by destruct Hw as [-> _].
Qed.

Lemma settings_calls_sound l : sound (settings_calls l).
Proof.
  unfold settings_calls. assert (sound ∅) as H0 by (intros s v _ Hl; unfold sr_get in Hl; by rewrite lookup_empty in Hl).
  revert H0. generalize (∅ : Table). induction l as [|c l IH]; intros t Ht; [done|]. cbn. apply IH. by apply settings_call_sound.
Qed.

Lemma assoc_runtime {A} (f : RuntimeSetting -> A) s : s ∈ RUNTIME_SETTINGS -> assoc (rs_key s) (map (fun s => (rs_key s, f s)) RUNTIME_SETTINGS) = Some (f s).
Proof.
  intros Hs. assert (forall l, (forall x, x ∈ l -> x ∈ RUNTIME_SETTINGS) -> s ∈ l -> assoc (rs_key s) (map (fun s => (rs_key s, f s)) l) = Some (f s)) as H1.
  { induction l as [|x l IH]; intros Hl Hin; [by apply not_elem_of_nil in Hin|]. cbn. case_bool_decide as He.
    - apply key_inj in He as ->; [done..|apply Hl; left].
    - apply elem_of_cons in Hin as [->|Hin]; [done|]. apply IH; [|done]. intros y Hy. apply Hl. by right. }
  by apply H1.
Qed.

Lemma coerced_keys changes values : Forall2 coerced changes values -> values.*1 = changes.*1.
Proof. induction 1 as [|g v gs vs [He _] _ IH]; [done|]. rewrite !fmap_cons, IH. by rewrite He. Qed.

Lemma coerced_assoc changes values k v : Forall2 coerced changes values -> NoDup changes.*1 -> (k, v) ∈ changes ->
  exists v', assoc k values = Some v' /\ coerced (k, v) (k, v').
Proof.
  induction 1 as [|[gk gv] [vk vv] gs vs Hc Hf IH]; [by intros _ ?%not_elem_of_nil|].
  rewrite fmap_cons, NoDup_cons. intros [Hni Hnd]. cbn [fst] in Hni. pose proof Hc as [He _]. cbn [fst] in He. subst vk.
  cbn [assoc]. intros [[= -> ->]|Hin]%elem_of_cons.
  - exists vv. by rewrite bool_decide_eq_true_2.
  - rewrite bool_decide_eq_false_2; [by apply IH|]. intros ->. apply Hni. apply list_elem_of_fmap. by exists (gk, v).
Qed.

(** A runtime setting whose bounds lie within a field's: what it stores, the field may hold. *)
Definition fits (s : RuntimeSetting) (f : Field) : Prop :=
  forall v, in_bounds s v -> v <> VNan -> exists x, match v with VInt z => x = JInt z | VFloat g => x = JFloat g | _ => False end /\ field_ok f x.

Lemma float_fits s f : rs_kind s = KFloat -> fd_type f = TFloat -> (forall g, outside s g = false -> in_range f (JFloat g) = true) -> fits s f.
Proof.
  intros Hk Ht Hr v Hb Hn. unfold in_bounds in Hb. rewrite Hk in Hb. destruct v as [b|z|g| |neg|x]; try done. exists (JFloat g). split; [done|]. right.
  rewrite Ht. split; [done|by apply in_range_bounded, Hr].
Qed.

Lemma int_fits s f : rs_kind s = KInt -> fd_type f = TInt -> (forall z, outside s (z * fone) = false -> in_range f (JInt z) = true) -> fits s f.
Proof.
  intros Hk Ht Hr v Hb Hn. unfold in_bounds in Hb. rewrite Hk in Hb. destruct v as [b|z|g| |neg|x]; try done. exists (JInt z). split; [done|]. right.
  rewrite Ht. split; [done|by apply in_range_bounded, Hr].
Qed.

Module Properties.

(** C32: A write of runtime settings, on any table the calls leave.  It succeeds exactly when the caller may administer and every key is runtime-changeable and every value acceptable; then each row holds the coerced
    value and the instant, every other row is untouched, every written key the environment does not pin reads back as the value stored, and the
    returned mapping is the table's.  A refusal leaves the table as it was and names its cause: the scope, the first kind of bad key, or the
    coercion of one of the values. *)
Theorem runtime_write_exact calls environ settings_field changes now principal :
  NoDup changes.*1 ->
  let t := settings_calls calls in
  match write_runtime_settings environ settings_field changes now principal t with
  | (t', Ok eff) =>
      is_ok (authorize principal "admin") = true /\
      (forall k v, (k, v) ∈ changes -> exists s v', s ∈ RUNTIME_SETTINGS /\ rs_key s = k /\ coerce s v = Ok v' /\ coerce s v' = Ok v' /\
         t' !! k = Some (v', now) /\ (assoc (variable_of s) environ = None -> assoc k eff = Some v')) /\
      (forall k, k ∉ changes.*1 -> t' !! k = t !! k) /\
      read_runtime_settings environ settings_field t' = Ok eff
  | (t', Raise e) =>
      t' = t /\ (authorize principal "admin" = Raise e \/
        exists k v, (k, v) ∈ changes /\
          (k ∈ CONFIG_ONLY_SECURITY_KEYS /\ e = SettingConfigOnly k \/
           k ∉ CONFIG_ONLY_SECURITY_KEYS /\ setting_of k = None /\ e = ValidationError k \/
           exists s, setting_of k = Some s /\ coerce s v = Raise e))
  end.
Proof.
  intros Hnd t. pose proof (settings_calls_sound calls) as Ht. fold t in Ht.
  pose proof (write_cases environ settings_field changes now principal t Ht) as Hw.
  destruct (write_runtime_settings _ _ _ _ _ _) as [t' [eff|e]].
  2: { destruct Hw as [-> [Ha|(k & v & Hin & [[Hr|Hr]|Hr])]]; (split; [done|]); [by left|right; exists k, v; tauto..]. }
  destruct Hw as (Ha & Hk & values & Hf & -> & Hs & ->). split; [done|].
  pose proof (coerced_keys _ _ Hf) as Hfst.
  assert (NoDup values.*1) as Hnv by (by rewrite Hfst). split; [|split].
  - intros k v Hin. assert (exists v', assoc k values = Some v' /\ coerced (k, v) (k, v')) as (v' & Ev & _ & s & Es & Hc).
    { by eapply coerced_assoc. }
    cbn [fst snd] in Es, Hc. apply setting_of_Some in Es as [Hss <-]. pose proof (coerce_bounds s v v' Hss Hc) as Hb. exists s, v'.
    split; [done|]. split; [done|]. split; [done|]. split; [by apply bounds_coerce|].
    rewrite store_all_lookup, Ev by done. split; [done|]. intros Hnone. rewrite assoc_runtime by done. f_equal.
    unfold effective. rewrite Hnone, bool_decide_eq_false_2 by (by intros [? [=]]). unfold sr_get. by rewrite store_all_lookup, Ev.
  - intros k Hni. rewrite store_all_lookup by done. destruct (assoc k values) eqn:Ea; [|done].
    destruct Hni. rewrite <- Hfst. apply assoc_is_Some. by eexists.
  - by apply read_sound.
Qed.

Lemma runtime_write_exact_witness :
  exists v, (write_runtime_settings [] (fun _ _ => None) [("queue.paused", VBool true)] 7 None (settings_calls [])).1 !! "queue.paused" = Some (v, 7).
Proof.
  pose proof (runtime_write_exact [] [] (fun _ _ => None) [("queue.paused", VBool true)] 7 None (NoDup_singleton _)) as Hw. cbn zeta in Hw.
  destruct (write_runtime_settings _ _ _ _ _ _) as [t' [eff|e]] eqn:E.
  - destruct Hw as (_ & Hw & _). destruct (Hw "queue.paused" (VBool true)) as (s & v & _ & _ & _ & _ & Hv & _); [left|]. exists v. exact Hv.
  - exfalso. vm_compute in E. discriminate E.
Defined.

(** C33: What the settings calls keep true.  After any sequence of settings writes and queue flags, whoever made them and whether they were refused,
    every stored row is a value its key accepts as it stands (of its type, inside its bounds, or NaN for a fractional key); the table can be
    read under every environment and configuration, each key's value being the configured one when the environment pins it or no row exists
    and the row otherwise; the document calls a value the database's exactly when a row exists and no variable pins it; and where no variable
    or field sets a queue flag, the document's value is the flag the scheduler dispatches by. *)
Theorem runtime_values_effective calls environ settings_field :
  let t := settings_calls calls in
  exists document, runtime_settings_document environ settings_field t = Ok document /\
    read_runtime_settings environ settings_field t = Ok (do_settings document) /\
    (forall s, s ∈ RUNTIME_SETTINGS ->
       let pinned := assoc (var_of (rs_section s) (rs_field s)) environ in
       assoc (rs_key s) (do_settings document) =
         Some (match pinned, sr_get (rs_key s) t with None, Some v => v | _, _ => configured settings_field s end) /\
       (forall v, sr_get (rs_key s) t = Some v -> coerce s v = Ok v /\ in_bounds s v) /\
       exists d, assoc (rs_key s) (do_definitions document) = Some d /\ de_stored d = sr_get (rs_key s) t /\
         (de_from_database d = true <-> is_Some (sr_get (rs_key s) t) /\ pinned = None)) /\
    (forall w name, table_of w = t -> name ∈ QUEUE_FLAG_KEYS ->
       settings_field "queue" (partition_at "."%char name).2 = None -> assoc (var_of "queue" (partition_at "."%char name).2) environ = None ->
       assoc name (do_settings document) = Some (VBool (queue_flag name w))).
Proof.
  intros t. pose proof (settings_calls_sound calls) as Ht. fold t in Ht.
  pose (defs := fun s => mkDefinition (rs_kind s) (rs_description s) (rs_minimum s) (rs_maximum s)
    (configured settings_field s) (sr_get (rs_key s) t) (bool_decide (is_Some (sr_get (rs_key s) t) /\ assoc (variable_of s) environ = None))
    (if bool_decide (is_Some (sr_get (rs_key s) t) /\ is_Some (assoc (variable_of s) environ)) then Some ("env " +:+ variable_of s) else None)).
  eexists. split.
  { unfold runtime_settings_document. rewrite (read_sound environ settings_field t Ht). cbn [mbind result_bind].
    rewrite (map_result_total _ (fun s => (rs_key s, defs s))) by (intros s Hs; by apply definition_of_sound). reflexivity. }
  cbn [do_settings do_definitions]. split; [by apply read_sound|].
  assert (forall s, s ∈ RUNTIME_SETTINGS -> assoc (rs_key s) (map (fun s => (rs_key s, effective environ settings_field t s)) RUNTIME_SETTINGS) =
    Some (match assoc (variable_of s) environ, sr_get (rs_key s) t with None, Some v => v | _, _ => configured settings_field s end)) as Heff.
  { intros s Hs. rewrite assoc_runtime by done. f_equal. unfold effective.
    by destruct (assoc (variable_of s) environ); destruct (sr_get (rs_key s) t). }
  split.
  - intros s Hs. cbn zeta. split; [by apply Heff|]. split.
    + intros v Hv. pose proof (Ht s v Hs Hv). split; [by apply bounds_coerce|done].
    + exists (defs s). split; [|split; [done|]].
      * by apply assoc_runtime.
      * unfold defs. cbn [de_from_database]. by rewrite bool_decide_eq_true.
  - intros w name Hw Hname Hconf Henv. destruct (flag_setting name Hname) as (s & Hs & <- & Hk).
    assert (rs_section s = "queue") as Hsec.
    { unfold QUEUE_FLAG_KEYS in Hname. rewrite !elem_of_cons, elem_of_nil in Hname. unfold rs_section. by destruct Hname as [->|[->|[]]]. }
    rewrite Heff by done. unfold variable_of, configured. rewrite Hsec. unfold rs_field. rewrite Henv, Hconf. cbn [default]. f_equal.
    destruct (sr_get (rs_key s) t) as [v|] eqn:Ev.
    + pose proof (Ht s v Hs Ev) as Hb. unfold in_bounds in Hb. rewrite Hk in Hb. destruct v as [b| | | | |]; try done. f_equal.
      unfold sr_get in Ev. rewrite <- Hw in Ev. unfold table_of in Ev. rewrite lookup_fmap in Ev. unfold queue_flag.
      destruct (settings w !! rs_key s) as [[x tm]|]; [|done]. cbn in Ev. by destruct x; simplify_eq/=.
    + unfold sr_get in Ev. rewrite <- Hw in Ev. unfold table_of in Ev. rewrite lookup_fmap in Ev. unfold queue_flag.
      by destruct (settings w !! rs_key s) as [[x tm]|].
Qed.

(** The two registries of bounds agree.  Every runtime-changeable number is a field of the configuration's schema, and any value other than NaN that
    the runtime registry stores for it is of that field's type and within that field's bounds: what can be set while the server runs could have
    been written in the file.  The two queue flags are fields of no section. *)
Theorem runtime_within_config s :
  s ∈ RUNTIME_SETTINGS ->
  match rs_kind s with
  | KBool => forall sec f, sec ∈ schema -> f ∈ sn_fields sec -> sn_name sec = rs_section s -> fd_name f <> rs_field s
  | _ => exists sec f, sec ∈ schema /\ f ∈ sn_fields sec /\ sn_name sec = rs_section s /\ fd_name f = rs_field s /\ fits s f
  end.
Proof.
  assert (forallb (fun k => forallb (fun sec => negb (bool_decide (sn_name sec = "queue")) || forallb (fun f => negb (bool_decide (fd_name f = k))) (sn_fields sec)) schema)
    ["paused"; "draining"] = true) as Hq by (vm_compute; reflexivity).
  assert (forall k, k ∈ ["paused"; "draining"] -> forall sec f, sec ∈ schema -> f ∈ sn_fields sec -> sn_name sec = "queue" -> fd_name f <> k) as Hflag.
  { intros k Hk sec f Hs Hf Hn He. rewrite forallb_forall in Hq. specialize (Hq k (proj1 (list_elem_of_In _ _) Hk)). rewrite forallb_forall in Hq.
    specialize (Hq sec (proj1 (list_elem_of_In _ _) Hs)). rewrite (bool_decide_eq_true_2 _ Hn) in Hq. cbn [negb orb] in Hq. rewrite forallb_forall in Hq.
    specialize (Hq f (proj1 (list_elem_of_In _ _) Hf)). by rewrite (bool_decide_eq_true_2 _ He) in Hq. }
  assert (0 < flit 1 100) as Hpos by (with_strategy transparent [fone] (vm_compute; reflexivity)).
  assert (of_int 1 = fone) as H1' by (rewrite of_int_exact by lia; lia).
  intros Hs. unfold RUNTIME_SETTINGS in Hs. rewrite !elem_of_cons, elem_of_nil in Hs.
  destruct Hs as [->|[->|[->|[->|[->|[->|[->|[]]]]]]]].
  1: intros sec f Hs Hf Hn; apply (Hflag "paused" ltac:(left) sec f Hs Hf Hn).
  1: intros sec f Hs Hf Hn; apply (Hflag "draining" ltac:(right; left) sec f Hs Hf Hn).
  1: exists (mkSection "routing" routing_fields None None false), (between "prefer_resident_bonus" TFloat (JFloat (flit 5 100)) 0 (of_int 1)).
  2: exists (mkSection "routing" routing_fields None None false), (between "min_present_weight" TFloat (JFloat (flit 5 10)) 0 (of_int 1)).
  3: exists (mkSection "routing" routing_fields None None false), (between "min_confidence" TFloat (JFloat (flit 5 100)) 0 (of_int 1)).
  4: exists (mkSection "routing" routing_fields None None false), (mkField "remote_cost_factor" TFloat false false (Some (JFloat (flit 9 10))) None (Some 0) (Some (of_int 1))).
  5: exists (mkSection "storage" storage_fields None None false), (at_least "content_retention_hours" TInt (JInt 24) 0).
  1-4: split; [by apply (list_elem_of_lookup_2 schema 8)|].
  5: split; [by apply (list_elem_of_lookup_2 schema 1)|].
  1: split; [by apply (list_elem_of_lookup_2 routing_fields 3)|].
  2: split; [by apply (list_elem_of_lookup_2 routing_fields 4)|].
  3: split; [by apply (list_elem_of_lookup_2 routing_fields 2)|].
  4: split; [by apply (list_elem_of_lookup_2 routing_fields 5)|].
  5: split; [by apply (list_elem_of_lookup_2 storage_fields 4)|].
  all: split; [reflexivity|]; split; [reflexivity|].
  1-4: apply float_fits; [reflexivity..|].
  5: apply int_fits; [reflexivity..|].
  all: intros g Hb; unfold outside in Hb; cbn [rs_minimum rs_maximum] in Hb; apply orb_false_iff in Hb as [Hlow%Z.ltb_ge Hhigh%Z.ltb_ge].
  all: unfold in_range; cbn [number between at_least fd_ge fd_gt fd_le]; rewrite ?H1', ?andb_true_iff; repeat split; rewrite ?Z.leb_le, ?Z.ltb_lt.
  all: first [exact Hlow | exact Hhigh | exact (Z.lt_le_trans _ _ _ Hpos Hlow)].
Qed.

Lemma runtime_within_config_witness :
  exists sec f, sec ∈ schema /\ f ∈ sn_fields sec /\ sn_name sec = "storage" /\ fd_name f = "content_retention_hours".
Proof.
  destruct (runtime_within_config (mkSetting "storage.content_retention_hours" KInt "Hours a finished job keeps its prompt and response text (spec §14)." (Some 0) (Some (of_int (24 * 365)))))
    as (sec & f & H1 & H2 & H3 & H4 & _).
  - apply list_elem_of_In. do 6 right. left. reflexivity.
  - exists sec, f. split; [exact H1|]. split; [exact H2|]. split; [exact H3|exact H4].
Defined.

(** NaN is a number no bound refuses: an administrator's write of it to any fractional key succeeds, and the value is effective. *)
Theorem nan_accepted s now t environ settings_field :
  sound t -> s ∈ RUNTIME_SETTINGS -> rs_kind s = KFloat -> assoc (var_of (rs_section s) (rs_field s)) environ = None ->
  exists t' eff, write_runtime_settings environ settings_field [(rs_key s, VNan)] now None t = (t', Ok eff) /\ assoc (rs_key s) eff = Some VNan.
Proof.
  intros Ht Hs Hk Henv. pose proof (write_cases environ settings_field [(rs_key s, VNan)] now None t Ht) as Hw.
  assert (coerce s VNan = Ok VNan) as Hc by (unfold coerce; by rewrite Hk).
  destruct (write_runtime_settings _ _ _ _ _ _) as [t' [eff|e]].
  - exists t', eff. split; [done|]. destruct Hw as (_ & _ & values & Hf & -> & _ & ->). rewrite assoc_runtime by done. f_equal.
    apply Forall2_cons_inv_l in Hf as ([k v] & vs & [He (s' & Es & Hc')] & Hnil & ->). apply Forall2_nil_inv_l in Hnil as ->. cbn [fst snd] in *. subst k.
    rewrite setting_of_key in Es by done. injection Es as <-. rewrite Hc in Hc'. injection Hc' as <-.
    unfold effective, variable_of. rewrite Henv, bool_decide_eq_false_2 by (by intros [? [=]]). unfold sr_get, store_all, sr_set. cbn [fold_left fst snd].
    by rewrite lookup_insert_eq.
  - exfalso. destruct Hw as [_ [Ha|(k & v & Hin & Hr)]]; [done|]. apply list_elem_of_singleton in Hin as [= -> ->]. unfold refused_key in Hr. rewrite (setting_of_key s Hs) in Hr.
    destruct Hr as [[[Hsec _]|(_ & Hno & _)]|(s' & [= <-] & Hr)]; [|done|congruence].
    assert (Forall (fun s => rs_key s ∉ CONFIG_ONLY_SECURITY_KEYS) RUNTIME_SETTINGS) as Hn.
    { assert (forallb (fun s => negb (bool_decide (rs_key s ∈ CONFIG_ONLY_SECURITY_KEYS))) RUNTIME_SETTINGS = true) as Hb by reflexivity.
      rewrite forallb_forall in Hb. apply Forall_forall. intros x Hx. apply list_elem_of_In, Hb, negb_true_iff, bool_decide_eq_false_1 in Hx. done. }
    rewrite Forall_forall in Hn. by apply (Hn s Hs).
Qed.

Definition hours : RuntimeSetting :=
  mkSetting "storage.content_retention_hours" KInt "Hours a finished job keeps its prompt and response text (spec §14)." (Some 0) (Some (of_int (24 * 365))).

(** The retention hours of another version's row: NaN, an infinity or an integer no float holds stops every key from being read, so the document
    fails and the scheduler keeps the values it last applied. *)
Theorem unreadable_hours now settings_field last v : v = VNan \/ v = VInf true \/ v = VInf false \/ v = VInt (10 ^ 400) ->
  let t := sr_set (rs_key hours) v now ∅ in
  is_ok (read_runtime_settings [] settings_field t) = false /\ is_ok (runtime_settings_document [] settings_field t) = false /\
  apply_runtime_settings [] settings_field t last = last.
Proof.
  intros Hv t. assert (exists e, read_runtime_settings [] settings_field t = Raise e) as [e He].
  { apply (map_result_refused _ _ hours). { by apply (list_elem_of_lookup_2 RUNTIME_SETTINGS 6). }
    unfold effective_of. assert (stored t (rs_key hours) = Some v) as ->. { unfold t, stored, sr_get, sr_set. cbn. by rewrite lookup_insert_eq. }
    cbn [mbind result_bind shadowing_source]. destruct Hv as [->|[->|[->| ->]]]; [by eexists..|].
    assert (coerce hours (VInt (10 ^ 400)) = Raise OverflowError) as Hc.
    { unfold coerce, float_of_int. cbn [rs_kind hours].
      replace (Z.abs (of_int (10 ^ 400)) <? 2 ^ 2098) with false by (with_strategy transparent [fone] (vm_compute; reflexivity)). reflexivity. }
    rewrite Hc. by eexists. }
  unfold runtime_settings_document, apply_runtime_settings. by rewrite He.
Qed.
End Properties.
