(* ===== verification/Providers.v ===== *)
(** * Provider registrations ([infrastructure/providers/factory.py], [services/providers.py], [config.py])

    Which providers a configuration registers, with what they are handed, and the editing of the registrations in the
    configuration file.  A constructed provider is the record of what it was constructed with; what a provider answers and the
    TOML text are parameters, a parsed file is a document of [Config]. *)

From Stdlib Require Import Ascii String.
From S2P Require Import Prelude PyFloat PyStr Json Ordering JobEvents QueueStore Access Schema Config Adapters.
#[local] Open Scope string_scope.
#[local] Open Scope list_scope.
#[local] Open Scope Z_scope.

(** ** The settings *)

(** The four overrides of the scripted model. *)
Record FakeSettings := mkFake { fs_size_bytes : option Z; fs_layers : option Z; fs_kv_heads : option Z; fs_head_dim : option Z }.

(** One [providers.<name>] block. *)
Record Registration := mkRegistration {
  rg_kind : string;
  rg_enabled : bool;
  rg_base_url : string;
  rg_timeout_seconds : f64;
  rg_remote : bool;
  rg_model_directory : string;
  rg_state_dir : string;
  rg_server_path : string;
  rg_memory_max_bytes : option Z;
  rg_memory_high_bytes : option Z;
  rg_fake : FakeSettings
}.

(** The singular [provider] block. *)
Record ProviderSettings := mkProvider { pv_kind : string; pv_base_url : string; pv_timeout_seconds : f64; pv_fake : FakeSettings }.

Definition as_registration (p : ProviderSettings) : Registration :=
  mkRegistration (pv_kind p) true (pv_base_url p) (pv_timeout_seconds p) false "" "" "llama-server" None None (pv_fake p).

(** What this module reads of the settings. *)
Record ProviderConfig := mkProviderConfig { pc_provider : ProviderSettings; pc_registrations : list (string * Registration) }.

(** ** Construction *)

Definition SUPPORTED_PROVIDER_KINDS : list string := ["ollama"; "llamacpp"; "fake"].

(** The fields of the scripted model this application sets. *)
Record FakeModel := mkFakeModel {
  fm_name : string;
  fm_parameter_count : Z;
  fm_size_bytes : Z;
  fm_embedding_dim : Z;
  fm_layers : Z;
  fm_attention_heads : Z;
  fm_kv_heads : Z;
  fm_head_dim : Z;
  fm_vocab_size : Z
}.

Definition fake_model (overrides : FakeSettings) : result FakeModel :=
  match fs_size_bytes overrides, fs_layers overrides, fs_kv_heads overrides, fs_head_dim overrides with
  | None, None, None, None => Ok (mkFakeModel "fake-model:tiny-q8_0" 45000000 47000000 256 4 4 2 64 32000)
  | Some size_bytes, Some layers, Some kv_heads, Some head_dim =>
      Ok (mkFakeModel "fake-model:tiny-q8_0" 45000000 size_bytes 256 layers 4 kv_heads head_dim 32000)
  | _, _, _, _ => Raise (OtherException (Some "CONFIGURATION_ERROR:provider.fake"))
  end.

Inductive Handle :=
| OllamaProvider (base_url : string) (timeout : f64)
| LlamaCppProvider (model_directory state_dir server_path : string) (timeout : f64) (memory_max_bytes memory_high_bytes : option Z)
| FakeProvider (model : FakeModel).

Definition ConfigurationErrorAt (field : string) : exn := OtherException (Some ("CONFIGURATION_ERROR:" +:+ field)).

Section factory.
(** [Path.expanduser], [data_dir() / "llamacpp" / name]. *)
Context (expanduser default_state : string -> string).

Definition build_llamacpp (settings : Registration) (field name : string) : result Handle :=
  let directory := strip (rg_model_directory settings) in
  if bool_decide (directory = "") then Raise (ConfigurationErrorAt (removesuffix ".kind" field +:+ ".model_directory"))
  else
    let state := strip (rg_state_dir settings) in
    let state_path := if bool_decide (state = "") then default_state (if bool_decide (name = "") then rg_kind settings else name) else expanduser state in
    Ok (LlamaCppProvider (expanduser directory) state_path (rg_server_path settings) (rg_timeout_seconds settings) (rg_memory_max_bytes settings)
      (rg_memory_high_bytes settings)).

Definition build_one (settings : Registration) (field name : string) : result Handle :=
  if bool_decide (rg_kind settings = "llamacpp") then build_llamacpp settings field name
  else if bool_decide (rg_kind settings = "ollama") then Ok (OllamaProvider (rg_base_url settings) (rg_timeout_seconds settings))
  else if bool_decide (rg_kind settings = "fake") then m ← fake_model (rg_fake settings); Ok (FakeProvider m)
  else Raise (ConfigurationErrorAt field).

Record ProviderRegistration := mkProviderRegistration {
  pr_name : string;
  pr_kind : string;
  pr_is_remote : bool;
  pr_provider : Handle;
  pr_adapters_registered : option bool;
  pr_handed : list AdapterEntry              (* what [register_adapters] was called with *)
}.

(** [provider.capabilities().adapter_hot_swap]. *)
Context (adapter_hot_swap : Handle -> bool).

(** [adapters] is empty when no directory is configured. *)
Definition offer_adapters (adapters : list AdapterEntry) (registrations : list ProviderRegistration) : list ProviderRegistration :=
  map (fun r => if adapter_hot_swap (pr_provider r)
                then mkProviderRegistration (pr_name r) (pr_kind r) (pr_is_remote r) (pr_provider r) (Some (negb (bool_decide (adapters = [])))) adapters
                else r) registrations.

Definition by_key : string * Registration -> string * Registration -> bool := leb_of (cmp_on fst String.compare).

Definition build_named (nr : string * Registration) : result ProviderRegistration :=
  h ← build_one nr.2 ("providers." +:+ nr.1 +:+ ".kind") nr.1;
  Ok (mkProviderRegistration nr.1 (rg_kind nr.2) (rg_remote nr.2) h None []).

Definition enabled_of (named : list (string * Registration)) : list (string * Registration) := List.filter (fun nr => rg_enabled nr.2) named.

(** The registrations before adapters are offered. *)
Definition construct_registrations (c : ProviderConfig) : result (list ProviderRegistration) :=
  match pc_registrations c with
  | [] =>
      let singular := pc_provider c in
      h ← build_one (as_registration singular) "provider.kind" (pv_kind singular);
      Ok [mkProviderRegistration (pv_kind singular) (pv_kind singular) false h None []]
  | named =>
      match enabled_of named with
      | [] => Raise (ConfigurationErrorAt "providers")
      | enabled => map_result build_named (py_sorted by_key enabled)
      end
  end.

Definition build_registrations `{ManifestFormat} (c : ProviderConfig) (directory : option Disk) : result (list ProviderRegistration) :=
  built ← construct_registrations c;
  let adapters := match directory with None => [] | Some d => registrations_from (List.filter ae_available (rd_entries (read_directory d))) end in
  Ok (offer_adapters adapters built).

Definition disabled_registration_names (c : ProviderConfig) : list string :=
  py_sorted (leb_of String.compare) (map fst (List.filter (fun nr => negb (rg_enabled nr.2)) (pc_registrations c))).

Definition build_provider (p : ProviderSettings) : result Handle := build_one (as_registration p) "provider.kind" "".
End factory.

(** ** The page's view *)

(** [name -> variable] for the environment's registrations; the first of a name wins. *)
Definition shadowing_variables (environ : list (string * string)) : list (string * string) :=
  fold_left (fun found kv =>
    match drop_prefix (ENV_PREFIX +:+ "PROVIDERS__") kv.1 with
    | None => found
    | Some rest => let name := lower (default "" (head (split_dunder rest))) in if bool_decide (is_Some (assoc name found)) then found else found ++ [(name, kv.1)]
    end) environ [].

Record RegistrationView := mkView {
  vw_name : string;
  vw_kind : string;
  vw_enabled : bool;
  vw_base_url : string;
  vw_timeout_seconds : f64;
  vw_remote : bool;
  vw_model_directory : string;
  vw_state_dir : string;
  vw_server_path : string;
  vw_shadowed_by : string
}.

Definition describe_registrations (environ : list (string * string)) (c : ProviderConfig) : list RegistrationView :=
  let shadowing := shadowing_variables environ in
  let named := match pc_registrations c with [] => [(pv_kind (pc_provider c), as_registration (pc_provider c))] | l => l end in
  map (fun nr => mkView nr.1 (rg_kind nr.2) (rg_enabled nr.2) (rg_base_url nr.2) (rg_timeout_seconds nr.2) (rg_remote nr.2) (rg_model_directory nr.2)
                   (rg_state_dir nr.2) (rg_server_path nr.2) (default "" (assoc nr.1 shadowing))) (py_sorted by_key named).

(** ** Editing the file *)

Definition WRITABLE_FIELDS : list string :=
  ["kind"; "enabled"; "base_url"; "timeout_seconds"; "remote"; "model_directory"; "state_dir"; "server_path"].

(** [d.pop(k)]. *)
Definition doc_pop (k : string) (d : Doc) : Doc := List.filter (fun kv => negb (bool_decide (kv.1 = k))) d.

(** The methods of a table on a value that may not be one. *)
Definition as_table (x : json) : result Doc := match x with JObj d => Ok d | _ => Raise AttributeError end.

(** The configuration file and its backup. *)
Record Files := mkFiles { fi_config : ConfigFile; fi_bak : option ConfigFile }.

Definition ProviderConfigChanged : exn := OtherException (Some "CONFLICT").

Section editing.
(** [str(x)] of a TOML value, [s.isalnum()], the digest of the file's bytes. *)
Context (str_of : json -> string) (isalnum : string -> bool) (digest_of : ConfigFile -> string).
(** Pydantic's validation of a document and of one registration. *)
Context {Settings : Type} (model_validate : Doc -> result Settings) (server_of : Settings -> ServerSettings).
Context (registration_validate : Doc -> result Registration).
Context (environ : list (string * string)).

Definition config_digest (f : ConfigFile) : string := match f with NoFile => "" | _ => digest_of f end.

Definition read_document (f : ConfigFile) : result Doc := match f with NoFile => Ok [] | Toml d => Ok d | NotToml => Raise ValueError end.

(** [if "providers" not in document: document["providers"] = tomlkit.table()]. *)
Definition with_providers (document : Doc) : Doc :=
  if bool_decide (is_Some (assoc "providers" document)) then document else document ++ [("providers", JObj [])].

(** The document with its [providers] table, the singular block folded into it.  A [providers] that is no table raises on its first use
    (which exception is not told apart); no start accepts such a file. *)
Definition providers_table (document : Doc) : result (Doc * Doc) :=
  let document := with_providers document in
  let providers := default (JObj []) (assoc "providers" document) in
  match assoc "provider" document with
  | None => p ← as_table providers; Ok (document, p)
  | Some singular =>
      s ← as_table singular;
      let name := str_of (default (JStr "ollama") (assoc "kind" s)) in
      let document := doc_pop "provider" document in
      p ← match providers with JObj p => Ok p | _ => Raise TypeError end;
      Ok (document, doc_set name (JObj (doc_pop "fake" s)) p)
  end.

(** [_validated] and [_write]: the candidate lands only when it loads; the file it replaces is the backup. *)
Definition validated_write (document : Doc) : prog Files unit :=
  fun fs => match load_settings model_validate server_of (Toml document) environ [] with
            | Raise e => (fs, Raise e)
            | Ok _ => (mkFiles (Toml document) (match fi_config fs with NoFile => fi_bak fs | old => Some old end), Ok tt)
            end.

Definition write_config (base_digest : option string) (edit : Doc -> result Doc) : prog Files unit :=
  fs ← get;
  _ ← lift (guard_raise (match base_digest with Some d => negb (bool_decide (d = config_digest (fi_config fs))) | None => false end) ProviderConfigChanged);
  document ← lift (read_document (fi_config fs));
  document' ← lift (edit document);
  validated_write document'.

Definition refuse_a_server_that_cannot_launch (table : Doc) : result unit :=
  guard_raise (bool_decide (str_of (default (JStr "") (assoc "kind" table)) = "llamacpp") &&
               bool_decide (strip (str_of (default (JStr "") (assoc "model_directory" table))) = "")) (ValidationError "model_directory").

(** The tables among the keys. *)
Definition tables_of (providers : Doc) : list (string * Doc) := omap (fun kv => match kv.2 with JObj t => Some (kv.1, t) | _ => None end) providers.

Definition enabled_table (t : Doc) : bool := truthy (default (JBool true) (assoc "enabled" t)).

Definition refuse_disabling_the_last (providers : Doc) : result unit :=
  guard_raise (negb (bool_decide (tables_of providers = [])) && negb (existsb (fun nt => enabled_table nt.2) (tables_of providers))) (ValidationError "enabled").

Definition usable_name (name : string) : bool :=
  negb (bool_decide (name = "")) &&
  isalnum (string_of_list_ascii (List.filter (fun a => negb (Ascii.eqb a "_"%char || Ascii.eqb a "-"%char)) (list_ascii_of_string name))).

(** The fields set on a table, in the order of [WRITABLE_FIELDS]. *)
Definition set_fields (values : Doc) (table : Doc) : Doc :=
  fold_left (fun t field_name =>
    match assoc field_name values with
    | None => t
    | Some value => if match value with JStr s => bool_decide (s = "") | _ => false end && negb (bool_decide (field_name = "kind"))
                    then doc_pop field_name t else doc_set field_name value t
    end) WRITABLE_FIELDS table.

(** A registration whose value is no table: the first access to it raises. *)
Definition scalar_access (values : Doc) (x : json) : exn :=
  match List.find (fun f => bool_decide (is_Some (assoc f values))) WRITABLE_FIELDS with
  | None => AttributeError
  | Some f => match assoc f values, x with
              | Some (JStr s), JArr _ => TypeError
              | Some (JStr s), _ => if bool_decide (s = "") && negb (bool_decide (f = "kind")) then AttributeError else TypeError
              | _, _ => TypeError
              end
  end.

Definition save_edit (name : string) (values : Doc) (document : Doc) : result Doc :=
  '(document, providers) ← providers_table document;
  table ← match assoc name providers with
          | None => Ok []
          | Some (JObj t) => Ok t
          | Some x => Raise (scalar_access values x)
          end;
  let table := set_fields values table in
  _ ← refuse_a_server_that_cannot_launch table;
  let providers := doc_set name (JObj table) providers in
  _ ← refuse_disabling_the_last providers;
  Ok (doc_set "providers" (JObj providers) document).

Definition save_registration (name : string) (values : Doc) (base_digest : option string) : prog Files unit :=
  _ ← lift (guard_raise (negb (usable_name name)) (ValidationError "name"));
  _ ← lift (guard_raise (existsb (fun kv => negb (bool_decide (kv.1 ∈ WRITABLE_FIELDS))) values) (ValidationError "refused"));
  _ ← lift (match registration_validate (deep_merge [("kind", JStr "ollama")] values) with Ok _ => Ok tt | Raise _ => Raise (ValidationError "provider") end);
  write_config base_digest (save_edit name values).

Definition delete_edit (name : string) (document : Doc) : result Doc :=
  '(document, providers) ← providers_table document;
  _ ← guard_raise (negb (bool_decide (is_Some (assoc name providers)))) (ValidationError "name");
  _ ← guard_raise (bool_decide (List.filter (fun nt => negb (bool_decide (nt.1 = name))) (tables_of providers) = [])) (ValidationError "name");
  Ok (doc_set "providers" (JObj (doc_pop name providers)) document).

Definition delete_registration (name : string) (base_digest : option string) : prog Files unit := write_config base_digest (delete_edit name).
End editing.

(** ** Lemmas: construction *)

Section theory.
Context (expanduser default_state : string -> string).
#[local] Abbreviation construct := (build_one expanduser default_state).
#[local] Abbreviation construct_named := (build_named expanduser default_state).

(** A block that can be constructed. *)
Definition buildable (r : Registration) : bool :=
  if bool_decide (rg_kind r = "llamacpp") then negb (bool_decide (strip (rg_model_directory r) = ""))
  else if bool_decide (rg_kind r = "fake") then is_ok (fake_model (rg_fake r))
  else bool_decide (rg_kind r = "ollama").

Lemma build_one_ok r field name : is_ok (construct r field name) = buildable r.
Proof.
  unfold build_one, build_llamacpp, buildable. destruct (decide (rg_kind r = "llamacpp")) as [E|E].
  - rewrite !bool_decide_eq_true_2 by done. by destruct (bool_decide (strip _ = "")).
  - rewrite !(bool_decide_eq_false_2 (_ = "llamacpp")) by done. destruct (decide (rg_kind r = "ollama")) as [->|E2]; [done|].
    rewrite !(bool_decide_eq_false_2 (_ = "ollama")) by done. destruct (bool_decide (_ = "fake")); [|done]. by destruct (fake_model _).
Qed.

Lemma buildable_kind r : buildable r = true -> rg_kind r ∈ SUPPORTED_PROVIDER_KINDS.
Proof.
  unfold buildable, SUPPORTED_PROVIDER_KINDS. rewrite !elem_of_cons. repeat case_bool_decide; naive_solver.
Qed.

Lemma build_named_Ok nr p : construct_named nr = Ok p ->
  buildable nr.2 = true /\ pr_name p = nr.1 /\ pr_kind p = rg_kind nr.2 /\ pr_is_remote p = rg_remote nr.2 /\ pr_handed p = [] /\ pr_adapters_registered p = None.
Proof.
  unfold build_named. intros E. apply bind_Ok_inv in E as (h & Eh & E). injection E as <-. rewrite <- (build_one_ok _ ("providers." +:+ nr.1 +:+ ".kind") nr.1), Eh.
  done.
Qed.

Lemma forallb_perm {A} (p : A -> bool) l l' : l ≡ₚ l' -> forallb p l = forallb p l'.
Proof. induction 1; cbn; try congruence. by rewrite !andb_assoc, (andb_comm (p y)). Qed.

Lemma named_built (named : list (string * Registration)) built :
  map_result construct_named (py_sorted by_key (enabled_of named)) = Ok built ->
  map pr_name built = map fst (py_sorted by_key (enabled_of named)) /\
  forall p, p ∈ built -> exists r, (pr_name p, r) ∈ named /\ rg_enabled r = true /\ buildable r = true /\ pr_kind p = rg_kind r /\
    pr_is_remote p = rg_remote r /\ pr_handed p = [] /\ pr_adapters_registered p = None.
Proof.
  intros Hm. apply map_result_Ok in Hm. assert (forall nr, nr ∈ py_sorted by_key (enabled_of named) -> nr ∈ named /\ rg_enabled nr.2 = true) as Hen.
  { intros nr Hin. apply elem_of_py_sorted in Hin. unfold enabled_of in Hin. apply list_elem_of_In, List.filter_In in Hin as [Hin He]. by rewrite list_elem_of_In. }
  induction Hm as [|nr p l built Hp Hm IH]; [split; [done|]; by intros p ?%not_elem_of_nil|].
  destruct (build_named_Ok _ _ Hp) as (Hb & Hn & Hk & Hr & Hh & Ha). destruct IH as [IH1 IH2]; [intros x Hx; apply Hen; by right|].
  split; [cbn; by rewrite Hn, IH1|]. intros q [->|Hq]%elem_of_cons; [|by apply IH2].
  destruct (Hen nr) as [Hin He]; [left|]. exists nr.2. rewrite Hn, <- surjective_pairing. done.
Qed.

Lemma sorted_keys (l : list (string * Registration)) : NoDup l.*1 -> StronglySorted (fun a b => String.compare a b = Lt) (map fst (py_sorted by_key l)).
Proof.
  intros Hnd. assert (StronglySorted (fun x y => by_key x y = true) (py_sorted by_key l)) as Hs by (apply (sorted_by_key fst String.compare)).
  assert (NoDup (py_sorted by_key l).*1) as Hnd' by (by rewrite py_sorted_perm). revert Hs Hnd'. generalize (py_sorted by_key l). clear.
  induction l as [|x l IH]; [constructor|]. intros Hs Hnd. apply StronglySorted_inv in Hs as [Hs Hx]. rewrite fmap_cons, NoDup_cons in Hnd. destruct Hnd as [Hni Hnd].
  cbn. constructor; [by apply IH|]. apply Forall_forall. intros k Hk. rewrite Forall_forall in Hx. apply list_elem_of_fmap in Hk as (y & -> & Hy).
  specialize (Hx _ Hy). unfold by_key, leb_of, cmp_on in Hx. destruct (String.compare x.1 y.1) eqn:E; [|done|done].
  apply cmp_eq in E. destruct Hni. rewrite E. by apply list_elem_of_fmap_2.
Qed.

(** What construction registers. *)
Definition registered (c : ProviderConfig) (regs : list ProviderRegistration) : Prop :=
  regs <> [] /\
  match pc_registrations c with
  | [] => exists p, regs = [p] /\ pr_name p = pv_kind (pc_provider c) /\ pr_kind p = pv_kind (pc_provider c) /\ pr_is_remote p = false
  | named =>
      StronglySorted (fun a b => String.compare a b = Lt) (map pr_name regs) /\
      (forall n, n ∈ map pr_name regs <-> exists r, (n, r) ∈ named /\ rg_enabled r = true) /\
      (forall p, p ∈ regs -> exists r, (pr_name p, r) ∈ named /\ pr_kind p = rg_kind r /\ pr_is_remote p = rg_remote r)
  end.

(** When construction succeeds. *)
Definition constructible (c : ProviderConfig) : Prop :=
  match pc_registrations c with
  | [] => buildable (as_registration (pc_provider c)) = true
  | named => (exists n r, (n, r) ∈ named /\ rg_enabled r = true) /\ (forall n r, (n, r) ∈ named -> rg_enabled r = true -> buildable r = true)
  end.

Lemma enabled_elem named n r : (n, r) ∈ enabled_of named <-> (n, r) ∈ named /\ rg_enabled r = true.
Proof. unfold enabled_of. by rewrite list_elem_of_In, List.filter_In, <- list_elem_of_In. Qed.

Lemma construct_ok c : is_ok (construct_registrations expanduser default_state c) = true <-> constructible c.
Proof.
  unfold construct_registrations, constructible. destruct (pc_registrations c) as [|nr0 named0] eqn:En.
  - rewrite <- (build_one_ok _ "provider.kind" (pv_kind (pc_provider c))). by destruct (build_one _ _ _ _ _).
  - rewrite <- En. destruct (enabled_of (pc_registrations c)) as [|e enabled] eqn:Ee.
    + split; [done|]. intros [(n & r & Hin & Hr) _]. assert ((n, r) ∈ enabled_of (pc_registrations c)) as Hx by (by apply enabled_elem).
      rewrite Ee in Hx. by apply not_elem_of_nil in Hx.
    + rewrite <- Ee, map_result_ok. rewrite (forallb_perm _ _ (enabled_of (pc_registrations c))) by apply py_sorted_perm. rewrite forallb_forall. split.
      * intros Hall. split.
        { exists e.1, e.2. apply enabled_elem. rewrite Ee, <- surjective_pairing. left. }
        intros n r Hin Hr. specialize (Hall (n, r)). rewrite <- (build_one_ok _ ("providers." +:+ n +:+ ".kind") n).
        assert (is_ok (construct_named (n, r)) = true) as Ho by (apply Hall, list_elem_of_In; by apply enabled_elem).
        unfold build_named in Ho. cbn [fst snd] in Ho. by destruct (build_one _ _ r _ n).
      * intros [_ Hb] [n r] Hin. apply list_elem_of_In, enabled_elem in Hin as [Hin Hr]. specialize (Hb n r Hin Hr).
        unfold build_named. cbn [fst snd]. rewrite <- (build_one_ok _ ("providers." +:+ n +:+ ".kind") n) in Hb. by destruct (build_one _ _ r _ n).
Qed.

Lemma construct_exact c regs : NoDup (pc_registrations c).*1 -> construct_registrations expanduser default_state c = Ok regs ->
  registered c regs /\
  forall p, p ∈ regs -> pr_handed p = [] /\ pr_adapters_registered p = None /\ pr_kind p ∈ SUPPORTED_PROVIDER_KINDS.
Proof.
  intros Hnd. unfold construct_registrations, registered. destruct (pc_registrations c) as [|nr0 named0] eqn:En.
  - intros E. apply bind_Ok_inv in E as (h & Eh & E). injection E as <-. split; [split; [done|]; by eexists|].
    intros p ->%list_elem_of_singleton. split; [done|]. split; [done|]. apply (buildable_kind (as_registration (pc_provider c))).
    by rewrite <- (build_one_ok _ "provider.kind" (pv_kind (pc_provider c))), Eh.
  - rewrite <- En in *. destruct (enabled_of (pc_registrations c)) as [|e enabled] eqn:Ee; [done|]. rewrite <- Ee. intros Hm.
    destruct (named_built _ _ Hm) as [Hnames Hp].
    assert (forall n, n ∈ map pr_name regs <-> exists r, (n, r) ∈ pc_registrations c /\ rg_enabled r = true) as Hiff.
    { intros n. rewrite Hnames. change (map fst) with (fmap (M := list) (@fst string Registration)). rewrite list_elem_of_fmap. split.
      - intros ([n' r] & -> & Hin). apply elem_of_py_sorted, enabled_elem in Hin. by exists r.
      - intros (r & Hin). exists (n, r). split; [done|]. by apply elem_of_py_sorted, enabled_elem. }
    split; [split; [|split; [|split]]|].
    + intros ->. destruct (Hiff e.1) as [_ Hx]. assert (e.1 ∈ @nil string) as Hn; [|by apply not_elem_of_nil in Hn].
      apply Hx. exists e.2. apply enabled_elem. rewrite Ee, <- surjective_pairing. left.
    + rewrite Hnames. apply sorted_keys. unfold enabled_of. clear -Hnd. induction (pc_registrations c) as [|x l IH]; [constructor|].
      rewrite fmap_cons, NoDup_cons in Hnd. destruct Hnd as [Hni Hnd]. cbn. destruct (rg_enabled x.2); [|by apply IH]. rewrite fmap_cons, NoDup_cons. split; [|by apply IH].
      intros Hin. apply Hni. apply list_elem_of_fmap in Hin as (y & -> & Hy). apply list_elem_of_fmap_2. apply list_elem_of_In, List.filter_In in Hy as [Hy _]. by apply list_elem_of_In.
    + exact Hiff.
    + intros p Hin. destruct (Hp p Hin) as (r & Hr & _ & _ & Hk & Hrem & _). by exists r.
    + intros p Hin. destruct (Hp p Hin) as (r & _ & _ & Hb & -> & _ & Hh & Ha). split; [done|]. split; [done|]. by apply buildable_kind.
Qed.
End theory.

Lemma disabled_elem c n : n ∈ disabled_registration_names c <-> exists r, (n, r) ∈ pc_registrations c /\ rg_enabled r = false.
Proof.
  unfold disabled_registration_names. rewrite elem_of_py_sorted. change (map fst) with (fmap (M := list) (@fst string Registration)). rewrite list_elem_of_fmap. split.
  - intros ([n' r] & -> & Hin). apply list_elem_of_In, List.filter_In in Hin as [Hin Hr%negb_true_iff]. exists r. by rewrite list_elem_of_In.
  - intros (r & Hin & Hr). exists (n, r). split; [done|]. apply list_elem_of_In, List.filter_In. rewrite <- list_elem_of_In. split; [done|]. cbn. by rewrite Hr.
Qed.

(** Offering adapters changes what a registration was handed and nothing else. *)
Lemma offer_names hot_swap adapters regs :
  map pr_name (offer_adapters hot_swap adapters regs) = map pr_name regs /\
  forall p, p ∈ offer_adapters hot_swap adapters regs -> exists q, q ∈ regs /\ pr_name p = pr_name q /\ pr_kind p = pr_kind q /\
    pr_is_remote p = pr_is_remote q /\ pr_provider p = pr_provider q /\
    if hot_swap (pr_provider p) then pr_handed p = adapters /\ pr_adapters_registered p = Some (negb (bool_decide (adapters = []))) else p = q.
Proof.
  unfold offer_adapters. split.
  - rewrite map_map. apply map_ext. intros p. by destruct (hot_swap (pr_provider p)).
  - intros p Hp. change (map ?f ?l) with (f <$> l) in Hp. apply list_elem_of_fmap in Hp as (q & -> & Hq). exists q. split; [done|].
    destruct (hot_swap (pr_provider q)) eqn:Eh; cbn; rewrite Eh; by repeat split.
Qed.

(** ** Lemmas: documents *)

Lemma assoc_snoc {A} k k' (v : A) l : assoc k (l ++ [(k', v)]) = match assoc k l with Some x => Some x | None => if bool_decide (k = k') then Some v else None end.
Proof. induction l as [|[k0 v0] l IH]; [done|]. cbn. rewrite IH. by destruct (bool_decide (k = k0)). Qed.

Lemma assoc_pop k k' d : assoc k (doc_pop k' d) = if bool_decide (k = k') then None else assoc k d.
Proof.
  etransitivity; [exact (assoc_filter (fun x => negb (bool_decide (x = k'))) k d)|]. cbn beta. by case_bool_decide.
Qed.

(** The value a field is left with. *)
Definition field_after (values t : Doc) (f : string) : option json :=
  match assoc f values with
  | None => assoc f t
  | Some (JStr s) => if bool_decide (s = "") && negb (bool_decide (f = "kind")) then None else Some (JStr s)
  | Some v => Some v
  end.

Lemma set_fields_assoc values t f : assoc f (set_fields values t) = if bool_decide (f ∈ WRITABLE_FIELDS) then field_after values t f else assoc f t.
Proof.
  unfold set_fields. assert (NoDup WRITABLE_FIELDS) as Hnd by (apply (bool_decide_eq_true_1 (NoDup WRITABLE_FIELDS)); reflexivity).
  revert t Hnd. generalize WRITABLE_FIELDS as fields. induction fields as [|g fields IH]; intros t Hnd.
  - by rewrite bool_decide_eq_false_2 by apply not_elem_of_nil.
  - apply NoDup_cons in Hnd as [Hni Hnd]. cbn [fold_left]. rewrite (IH _ Hnd). destruct (decide (f = g)) as [->|Hne].
    + rewrite bool_decide_eq_false_2 by done. rewrite (bool_decide_eq_true_2 (g ∈ g :: fields)) by left. unfold field_after.
      destruct (assoc g values) as [v|]; [|done]. destruct v; cbn [andb]; rewrite ?assoc_doc_set, ?bool_decide_eq_true_2 by done; try done.
      destruct (bool_decide (s = "") && _); [rewrite assoc_pop|rewrite assoc_doc_set]; by rewrite bool_decide_eq_true_2.
    + rewrite (bool_decide_ext (f ∈ g :: fields) (f ∈ fields)) by (rewrite elem_of_cons; naive_solver).
      assert (forall t', (t' = t \/ t' = doc_pop g t \/ exists v, t' = doc_set g v t) -> assoc f t' = assoc f t) as Hsame.
      { intros t' [->|[->|[v ->]]]; [done|rewrite assoc_pop|rewrite assoc_doc_set]; by rewrite bool_decide_eq_false_2. }
      match goal with |- context [if bool_decide (f ∈ fields) then _ else assoc f ?t'] => assert (assoc f t' = assoc f t) as Hs end.
      { destruct (assoc g values) as [v|]; [|done]. destruct (_ && _); apply Hsame; eauto. }
      unfold field_after. by rewrite Hs.
Qed.

Section edits.
Context (str_of : json -> string).
#[local] Abbreviation folded := (providers_table str_of).

(** The folded document differs from the file in the two provider keys only. *)
Lemma providers_table_frame document d p : folded document = Ok (d, p) ->
  assoc "provider" d = None /\ (forall k, k <> "provider" -> k <> "providers" -> assoc k d = assoc k document) /\
  (assoc "provider" document = None -> p = match assoc "providers" document with Some (JObj q) => q | _ => [] end) /\
  (assoc "provider" document = None -> match assoc "providers" document with Some (JObj _) | None => True | _ => False end).
Proof.
  unfold providers_table. cbn zeta.
  assert (forall k, assoc k (with_providers document) =
    if bool_decide (k = "providers") then Some (default (JObj []) (assoc "providers" document)) else assoc k document) as Hk.
  { intros k. unfold with_providers. destruct (decide (is_Some (assoc "providers" document))) as [Hs|Hs];
      [rewrite (bool_decide_eq_true_2 (is_Some _)) by done|rewrite (bool_decide_eq_false_2 (is_Some _)) by done].
    - case_bool_decide; [subst k|done]. by destruct Hs as [x ->].
    - apply eq_None_not_Some in Hs. rewrite assoc_snoc, Hs. case_bool_decide; [subst k; by rewrite Hs|]. by destruct (assoc k document). }
  rewrite !Hk. change (bool_decide ("providers" = "providers")) with true. change (bool_decide ("provider" = "providers")) with false. cbn [default].
  revert Hk. generalize (with_providers document) as d0. intros d0 Hk.
  destruct (assoc "provider" document) as [singular|] eqn:Ep.
  - destruct singular as [| | | | | |s]; try done. cbn [as_table mbind result_bind].
    destruct (default (JObj []) (assoc "providers" document)) as [| | | | | |q]; try done. cbn [mbind result_bind]. intros [= <- <-].
    split; [by rewrite assoc_pop|]. split; [|done]. intros k H1 H2. rewrite assoc_pop, Hk. by rewrite !bool_decide_eq_false_2.
  - destruct (default (JObj []) (assoc "providers" document)) as [| | | | | |q] eqn:Eq; try done. cbn [as_table mbind result_bind]. intros [= <- <-].
    split; [by rewrite Hk|]. split; [intros k _ H2; rewrite Hk; by rewrite bool_decide_eq_false_2|]. destruct (assoc "providers" document) as [x|]; cbn in Eq; simplify_eq; done.
Qed.

Lemma tables_of_elem p n t : (n, t) ∈ tables_of p <-> (n, JObj t) ∈ p.
Proof.
  unfold tables_of. rewrite list_elem_of_omap. split.
  - intros ([k v] & Hin & E). cbn in E. destruct v; try done. by injection E as -> ->.
  - intros Hin. by exists (n, JObj t).
Qed.

Lemma assoc_table p n t : assoc n p = Some (JObj t) -> (n, t) ∈ tables_of p.
Proof. intros Ha. apply tables_of_elem. by apply assoc_elem. Qed.

(** What an edit of one registration leaves: the other keys of the file, the other registrations. *)
Definition edited (name : string) (document result : Doc) : Prop :=
  exists d p p', folded document = Ok (d, p) /\ assoc "providers" result = Some (JObj p') /\ assoc "provider" result = None /\
    (forall k, k <> "provider" -> k <> "providers" -> assoc k result = assoc k document) /\
    (forall n, n <> name -> assoc n p' = assoc n p).

Lemma save_edit_Ok name values document result : save_edit str_of name values document = Ok result ->
  edited name document result /\
  exists d p p' t, folded document = Ok (d, p) /\ assoc "providers" result = Some (JObj p') /\ assoc name p' = Some (JObj t) /\
    (forall f, assoc f t = if bool_decide (f ∈ WRITABLE_FIELDS)
       then field_after values (match assoc name p with Some (JObj t0) => t0 | _ => [] end) f
       else assoc f (match assoc name p with Some (JObj t0) => t0 | _ => [] end)) /\
    (exists n tn, (n, JObj tn) ∈ p' /\ enabled_table tn = true) /\
    (str_of (default (JStr "") (assoc "kind" t)) = "llamacpp" -> strip (str_of (default (JStr "") (assoc "model_directory" t))) <> "").
Proof.
  unfold save_edit. intros E. apply bind_Ok_inv in E as ([d p] & Ep & E). apply bind_Ok_inv in E as (t0 & Et & E).
  apply bind_Ok_inv in E as (u & El & E). apply bind_Ok_inv in E as (u' & Ed & E). injection E as <-.
  assert (t0 = match assoc name p with Some (JObj t0) => t0 | _ => [] end) as Ht0 by (destruct (assoc name p) as [[]|]; simplify_eq/=; done).
  destruct (providers_table_frame _ _ _ Ep) as (Hsing & Hframe & _ & _). split.
  - exists d, p, (doc_set name (JObj (set_fields values t0)) p). split; [done|]. rewrite !assoc_doc_set. split; [by rewrite bool_decide_eq_true_2|].
    split; [by rewrite bool_decide_eq_false_2|]. split.
    + intros k H1 H2. rewrite assoc_doc_set, bool_decide_eq_false_2 by done. by apply Hframe.
    + intros n Hn. by rewrite assoc_doc_set, bool_decide_eq_false_2.
  - exists d, p, (doc_set name (JObj (set_fields values t0)) p), (set_fields values t0). split; [done|]. rewrite !assoc_doc_set, !bool_decide_eq_true_2 by done.
    split; [done|]. split; [done|]. split; [intros f; rewrite set_fields_assoc, Ht0; done|]. split.
    + unfold refuse_disabling_the_last in Ed. destruct (negb _ && _) eqn:Eb; [done|]. set (p' := doc_set name (JObj (set_fields values t0)) p) in *.
      assert ((name, set_fields values t0) ∈ tables_of p') as Hin by (apply assoc_table; unfold p'; by rewrite assoc_doc_set, bool_decide_eq_true_2).
      rewrite bool_decide_eq_false_2 in Eb by (by intros Hn; rewrite Hn in Hin; apply not_elem_of_nil in Hin). cbn [negb andb] in Eb.
      apply negb_false_iff, existsb_exists in Eb as ([n tn] & Hn & He). exists n, tn. split; [|done]. apply tables_of_elem. by apply list_elem_of_In.
    + intros Hk Hs. unfold refuse_a_server_that_cannot_launch in El. rewrite Hk, Hs in El. done.
Qed.

Lemma delete_edit_Ok name document result : delete_edit str_of name document = Ok result ->
  edited name document result /\
  exists d p p', folded document = Ok (d, p) /\ is_Some (assoc name p) /\ assoc "providers" result = Some (JObj p') /\ assoc name p' = None /\
    exists n tn, n <> name /\ (n, JObj tn) ∈ p'.
Proof.
  unfold delete_edit. intros E. apply bind_Ok_inv in E as ([d p] & Ep & E). apply bind_Ok_inv in E as (u & El & E). apply bind_Ok_inv in E as (u' & Ed & E). injection E as <-.
  destruct (providers_table_frame _ _ _ Ep) as (Hsing & Hframe & _ & _). split.
  - exists d, p, (doc_pop name p). split; [done|]. rewrite !assoc_doc_set. split; [by rewrite bool_decide_eq_true_2|]. split; [by rewrite bool_decide_eq_false_2|]. split.
    + intros k H1 H2. rewrite assoc_doc_set, bool_decide_eq_false_2 by done. by apply Hframe.
    + intros n Hn. by rewrite assoc_pop, bool_decide_eq_false_2.
  - exists d, p, (doc_pop name p). split; [done|]. split.
    { destruct (bool_decide (is_Some (assoc name p))) eqn:Es; [by apply bool_decide_eq_true_1 in Es|done]. }
    split; [by rewrite assoc_doc_set, bool_decide_eq_true_2|]. split; [by rewrite assoc_pop, bool_decide_eq_true_2|].
    destruct (List.filter _ (tables_of p)) as [|[n tn] rest] eqn:Ef; [done|].
    assert (In (n, tn) (List.filter (fun nt => negb (bool_decide (nt.1 = name))) (tables_of p))) as Hin by (rewrite Ef; by left).
    apply List.filter_In in Hin as [Hin Hne]. cbn in Hne. apply negb_true_iff, bool_decide_eq_false_1 in Hne. exists n, tn. split; [done|].
    apply list_elem_of_In, tables_of_elem in Hin. unfold doc_pop. apply list_elem_of_In, List.filter_In. split; [by apply list_elem_of_In|]. by apply negb_true_iff, bool_decide_eq_false_2.
Qed.
End edits.

(** A write lands exactly what the edit made of the document, and only when the configuration loads. *)
Lemma write_config_cases digest_of {Settings} (model_validate : Doc -> result Settings) server_of environ base_digest edit fs :
  match write_config digest_of model_validate server_of environ base_digest edit fs with
  | (fs', Raise _) => fs' = fs
  | (fs', Ok _) =>
      exists document result, read_document (fi_config fs) = Ok document /\ edit document = Ok result /\ fi_config fs' = Toml result /\
        is_ok (load_settings model_validate server_of (Toml result) environ []) = true /\
        (forall d, base_digest = Some d -> d = config_digest digest_of (fi_config fs)) /\
        fi_bak fs' = match fi_config fs with NoFile => fi_bak fs | old => Some old end
  end.
Proof.
  unfold write_config. rewrite bind_get, bind_lift.
  destruct (guard_raise _ _) as [u|] eqn:Eg; [|done]. rewrite bind_lift. destruct (read_document (fi_config fs)) as [document|]; [|done].
  rewrite bind_lift. destruct (edit document) as [result|] eqn:Ee; [|done]. unfold validated_write.
  destruct (load_settings _ _ _ _ _) as [ls|] eqn:El; [|done]. exists document, result. repeat (split; [done|]). split.
  - by rewrite El.
  - split; [|done]. intros d ->. unfold guard_raise in Eg. destruct (negb _) eqn:En; [done|]. by apply negb_false_iff, bool_decide_eq_true_1 in En.
Qed.

Module Properties.

(** C34: What a configuration registers.  Building the registrations succeeds exactly when something is enabled and every enabled block can be
    constructed; then it is never empty, it is the enabled blocks in strict name order (or the singular block under its kind, never remote),
    with each one's declared kind and egress; the disabled names are exactly the others; and every provider that can hot-swap, and no other,
    has been handed the available adapters of the directory. *)
Theorem registrations_exact `{ManifestFormat} expanduser default_state hot_swap c directory :
  NoDup (pc_registrations c).*1 ->
  let built := build_registrations expanduser default_state hot_swap c directory in
  (is_ok built = true <-> constructible c) /\
  forall regs, built = Ok regs ->
    registered c regs /\
    (forall p, p ∈ regs -> pr_kind p ∈ SUPPORTED_PROVIDER_KINDS) /\
    (forall n, n ∈ disabled_registration_names c -> n ∉ map pr_name regs) /\
    (forall n r, (n, r) ∈ pc_registrations c -> n ∈ map pr_name regs \/ n ∈ disabled_registration_names c) /\
    (forall p, p ∈ regs ->
       if hot_swap (pr_provider p)
       then pr_handed p = match directory with Some d => List.filter ae_available (rd_entries (read_directory d)) | None => [] end /\
            pr_adapters_registered p = Some (negb (bool_decide (pr_handed p = [])))
       else pr_handed p = [] /\ pr_adapters_registered p = None).
Proof.
  intros Hnd built. subst built. unfold build_registrations. split.
  { rewrite <- (construct_ok expanduser default_state). by destruct (construct_registrations _ _ c). }
  intros regs E. apply bind_Ok_inv in E as (regs0 & E0 & E). injection E as <-. destruct (construct_exact _ _ _ _ Hnd E0) as [Hr Hall].
  set (adapters := match directory with None => [] | Some d => registrations_from (List.filter ae_available (rd_entries (read_directory d))) end).
  destruct (offer_names hot_swap adapters regs0) as [Hn Hp].
  assert (adapters = match directory with Some d => List.filter ae_available (rd_entries (read_directory d)) | None => [] end) as Had.
  { unfold adapters. destruct directory; [|done]. unfold registrations_from. apply filter_all_true, forallb_forall. by intros e [_ ?]%List.filter_In. }
  split; [|split; [|split; [|split]]].
  - unfold registered in *. rewrite Hn. destruct Hr as [Hne Hr]. split; [intros Hnil; apply Hne, (map_eq_nil pr_name); by rewrite <- Hn, Hnil|].
    destruct (pc_registrations c) as [|nr0 named0] eqn:En.
    + destruct Hr as (q & -> & H1 & H2 & H3). destruct (offer_adapters hot_swap adapters [q]) as [|p l] eqn:Eo; [done|].
      assert (l = []) as -> by (apply (f_equal length) in Eo; destruct l; [done|by cbn in Eo]). exists p. split; [done|].
      destruct (Hp p) as (q' & Hq & A1 & A2 & A3 & _); [left|]. apply list_elem_of_singleton in Hq as ->. by rewrite A1, A2, A3.
    + destruct Hr as (Hs & Hi & Hx). split; [done|]. split; [done|]. intros p Hin. destruct (Hp p Hin) as (q & Hq & -> & -> & -> & _). by apply Hx.
  - intros p Hin. destruct (Hp p Hin) as (q & Hq & _ & -> & _). by apply Hall.
  - intros n (r & Hin & Hf)%disabled_elem. rewrite Hn. destruct Hr as [_ Hr].
    destruct (pc_registrations c) as [|nr0 named0] eqn:En; [by apply not_elem_of_nil in Hin|]. rewrite <- En in *. destruct Hr as (_ & Hi & _).
    intros (r' & Hin' & Ht)%Hi. assert ((n, r) = (n, r')) as [= ->] by (by apply (NoDup_map_inj fst (pc_registrations c))). congruence.
  - intros n r Hin. rewrite Hn, disabled_elem. destruct Hr as [_ Hr].
    destruct (pc_registrations c) as [|nr0 named0] eqn:En; [by apply not_elem_of_nil in Hin|]. rewrite <- En in *. destruct Hr as (_ & Hi & _).
    destruct (rg_enabled r) eqn:Er; [left; apply Hi|right]; by exists r.
  - intros p Hin. destruct (Hp p Hin) as (q & Hq & _ & _ & _ & _ & Hh). destruct (hot_swap (pr_provider p)).
    + destruct Hh as [-> ->]. by rewrite <- Had.
    + subst q. split; by apply Hall.
Qed.

Definition sample_registration (enabled : bool) : Registration :=
  mkRegistration "ollama" enabled "http://127.0.0.1:11434" fone false "" "" "llama-server" None None (mkFake None None None None).
Definition sample_config : ProviderConfig :=
  mkProviderConfig (mkProvider "ollama" "" fone (mkFake None None None None)) [("b", sample_registration true); ("a", sample_registration false)].

(** A format whose manifests never validate: the configuration has no directory to read. *)
#[local] Instance no_format : ManifestFormat := {|
  Envelope := unit; load_envelope _ := None; envelope_payload _ := JNull; validate_manifest _ := None |}.

Lemma registrations_exact_witness :
  is_ok (build_registrations (fun s => s) (fun s => s) (fun _ => false) sample_config None) = true /\ "a" ∈ disabled_registration_names sample_config.
Proof.
  destruct (registrations_exact (fun s => s) (fun s => s) (fun _ => false) sample_config None) as [Hok Hregs].
  - apply (bool_decide_eq_true_1 (NoDup ["b"; "a"])). reflexivity.
  - assert (constructible sample_config) as Hc.
    { split; [exists "b", (sample_registration true); split; [left|done]|]. intros n r Hin _. cbn in Hin.
      apply elem_of_cons in Hin as [[= -> ->]|Hin%list_elem_of_singleton]; [done|]. by injection Hin as -> ->. }
    pose proof (proj2 Hok Hc) as Hb. split; [exact Hb|].
    destruct (build_registrations _ _ _ sample_config None) as [regs|] eqn:E; [|discriminate Hb].
    destruct (Hregs regs eq_refl) as (_ & _ & _ & Hall & _). destruct (Hall "a" (sample_registration false)) as [Hin|Hin]; [right; left| |exact Hin].
    exfalso. cbv in E. injection E as <-. cbv in Hin. apply list_elem_of_singleton in Hin. discriminate Hin.
Defined.


(** Deleting the last enabled registration, or the egress policy itself: when the remaining document loads, it is written. *)
Theorem delete_unguarded str_of digest_of {Settings} (model_validate : Doc -> result Settings) server_of environ bak :
  let block enabled := JObj [("kind", JStr "ollama"); ("enabled", JBool enabled)] in
  let before := [("providers", JObj [("allow_remote", JBool true); ("a", block true); ("b", block false)])] in
  let without_a := [("providers", JObj [("allow_remote", JBool true); ("b", block false)])] in
  let without_policy := [("providers", JObj [("a", block true); ("b", block false)])] in
  (is_ok (load_settings model_validate server_of (Toml without_a) environ []) = true ->
   delete_registration str_of digest_of model_validate server_of environ "a" None (mkFiles (Toml before) bak) = (mkFiles (Toml without_a) (Some (Toml before)), Ok tt)) /\
  refuse_disabling_the_last [("allow_remote", JBool true); ("b", block false)] = Raise (ValidationError "enabled") /\
  (is_ok (load_settings model_validate server_of (Toml without_policy) environ []) = true ->
   delete_registration str_of digest_of model_validate server_of environ "allow_remote" None (mkFiles (Toml before) bak)
   = (mkFiles (Toml without_policy) (Some (Toml before)), Ok tt)).
Proof.
  cbn zeta. split; [|split; [reflexivity|]]; intros Hl; unfold delete_registration, write_config; rewrite bind_get, bind_lift; cbn [guard_raise];
    rewrite bind_lift; cbn [read_document fi_config]; rewrite bind_lift;
    match goal with |- context [delete_edit str_of ?n ?d] => replace (delete_edit str_of n d) with (Ok (A := Doc) (match n with "a" =>
      [("providers", JObj [("allow_remote", JBool true); ("b", JObj [("kind", JStr "ollama"); ("enabled", JBool false)])])] | _ =>
      [("providers", JObj [("a", JObj [("kind", JStr "ollama"); ("enabled", JBool true)]); ("b", JObj [("kind", JStr "ollama"); ("enabled", JBool false)])])] end)) by reflexivity end;
    cbn match beta; unfold validated_write; destruct (load_settings _ _ _ _ _); done.
Qed.

(** A singular block that leaves its kind to the default is folded under [ollama] without one, which a registration requires. *)
Theorem singular_without_kind str_of url :
  str_of (JStr "ollama") = "ollama" ->
  providers_table str_of [("provider", JObj [("base_url", JStr url)])] = Ok ([("providers", JObj [])], [("ollama", JObj [("base_url", JStr url)])]).
Proof.
  intros Hs. transitivity (Ok ([("providers", JObj [])], doc_set (str_of (JStr "ollama")) (JObj [("base_url", JStr url)]) [])); [reflexivity|]. by rewrite Hs.
Qed.
End Properties.
