(* ===== verification/Fetch.v ===== *)
(** * Fetching evidence over HTTP ([infrastructure/freeweight_client.py])

    The URL rules, the redirect loop, the checks of the response head, the streaming cap and the version negotiation with its cache.
    [httpx] and [ipaddress] are classes with the documented facts used; the network is a function of the request's number, URL and
    credential; a response body is the list of its chunks and whether the stream then fails. *)

From Stdlib Require Import Ascii String.
From S2P Require Import Prelude PyFloat PyStr Json JobEvents Access.
#[local] Open Scope string_scope.
#[local] Open Scope list_scope.
#[local] Open Scope Z_scope.

(** [httpx.URL]. *)
Class Httpx := {
  Url : Type;
  url_parse : string -> option Url;
  url_str : Url -> string;
  url_scheme : Url -> string;
  url_host : Url -> string;
  url_port : Url -> option Z;
  url_path : Url -> string;
  url_with_path : string -> Url -> Url;              (* [copy_with(path=...)] *)
  url_bare : string -> Url -> Url;                   (* [copy_with(path=..., query=None, fragment=None)] *)
  url_set_param : string -> string -> Url -> Url;
  url_join : Url -> string -> option Url
}.

(** What its documentation says of the ones used: a URL prints to a string that parses to it, and the copies keep the origin. *)
Class HttpxLaws `{Httpx} : Prop := {
  url_parse_str u : url_parse (url_str u) = Some u;
  with_path_scheme p u : url_scheme (url_with_path p u) = url_scheme u;
  with_path_host p u : url_host (url_with_path p u) = url_host u;
  bare_scheme p u : url_scheme (url_bare p u) = url_scheme u;
  bare_host p u : url_host (url_bare p u) = url_host u;
  set_param_scheme k v u : url_scheme (url_set_param k v u) = url_scheme u;
  set_param_host k v u : url_host (url_set_param k v u) = url_host u
}.

(** [ipaddress]. *)
Class IpAddresses := { Ip : Type; ip_address : string -> option Ip; is_link_local : Ip -> bool }.

Definition MAX_IMPORT_BYTES : Z := 128 * 1024 * 1024.
Definition ALLOWED_SCHEMES : list string := ["http"; "https"].
Definition MAX_REDIRECTS : Z := 3.
Definition ACCEPTED_MEDIA_TYPES : list string := ["application/json"].
Definition EVIDENCE_EXPORT_PATH : string := "/api/v1/evidence/export".
Definition VERSION_PATH : string := "/api/v1/version".
Definition SUPPORTED_API_MAJOR : string := "v1".
Definition VERSION_CACHE_SECONDS : f64 := of_int 300.

Record FetchPolicy := mkPolicy { fp_allowed_hosts : list string; fp_max_bytes : Z; fp_max_redirects : Z }.
Definition policy_from_settings (allowed_source_hosts : list string) : FetchPolicy := mkPolicy allowed_source_hosts MAX_IMPORT_BYTES MAX_REDIRECTS.

(** What a fetch ends with: a value, one of the three errors with its reason, or an exception of another type. *)
Inductive FetchError :=
| EvidenceSourceRefused (reason : string)
| EvidenceSourceUnreachable (reason : string)
| EvidenceSourceIncompatible (reason : string)
| HttpError
| InvalidUrl
| Uncaught (e : exn).

Inductive outcome (A : Type) := Got (a : A) | Stop (e : FetchError).
Arguments Got {_} _.
Arguments Stop {_} _.
#[export] Instance outcome_bind : MBind outcome := fun _ _ f m => match m with Got a => f a | Stop e => Stop e end.

Definition refuse_if (b : bool) (reason : string) : outcome unit := if b then Stop (EvidenceSourceRefused reason) else Got tt.

(** [s.strip("[]")]. *)
Fixpoint lstrip_brackets (s : string) : string :=
  match s with
  | String a s' => if Ascii.eqb a "["%char || Ascii.eqb a "]"%char then lstrip_brackets s' else s
  | EmptyString => EmptyString
  end.
Definition strip_brackets (s : string) : string := string_rev (lstrip_brackets (string_rev (lstrip_brackets s))).

(** The variable's value when one is named and set, the file's when one is named: [Some None] is an unreadable file. *)
Definition resolve_credential (variable_value : option string) (file_value : option (option string)) : option string :=
  match (match variable_value with Some v => if bool_decide (strip v = "") then None else Some (strip v) | None => None end) with
  | Some v => Some v
  | None => match file_value with
            | Some (Some v) => if bool_decide (strip v = "") then None else Some (strip v)
            | _ => None
            end
  end.

Section client.
Context `{Httpx} `{IpAddresses} `{Digits}.
(** [socket.getaddrinfo], empty where it fails. *)
Context (resolve : string -> list string) (policy : FetchPolicy).

Definition addresses_of (host : string) : list Ip :=
  match ip_address (strip_brackets host) with
  | Some ip => [ip]
  | None => omap (fun candidate => ip_address (partition_at "%"%char candidate).1.1) (resolve host)
  end.

Definition check_url (url : string) : outcome Url :=
  match url_parse url with
  | None => Stop (EvidenceSourceRefused "malformed_url")
  | Some parsed =>
      _ ← refuse_if (negb (bool_decide (lower (url_scheme parsed) ∈ ALLOWED_SCHEMES))) "scheme_not_allowed";
      _ ← refuse_if (bool_decide (url_host parsed = "")) "no_host";
      _ ← refuse_if (negb (bool_decide (lower (url_host parsed) ∈ map lower (fp_allowed_hosts policy)))) "host_not_allowed";
      _ ← refuse_if (existsb is_link_local (addresses_of (url_host parsed))) "link_local_address";
      Got parsed
  end.

Record Response := mkResponse {
  re_status : Z;
  re_content_type : string;
  re_location : string;
  re_content_length : option string;
  re_chunks : list string;
  re_stream_fails : bool                  (* the stream raises an [httpx.HTTPError] after these chunks *)
}.

Inductive Answer := TransportError | Answered (r : Response).

(** The network: the [n]-th request's answer. *)
Definition Network : Type := nat -> Url -> option string -> Answer.

Definition media_type (raw : string) : string := lower (strip (partition_at ";"%char raw).1.1).
Definition check_content_type (r : Response) : outcome string :=
  let m := media_type (re_content_type r) in
  if bool_decide (m ∈ ACCEPTED_MEDIA_TYPES) || bool_decide (is_Some (drop_prefix (string_rev "+json") (string_rev m))) then Got m
  else Stop (EvidenceSourceRefused "content_type_not_allowed").

Record FetchedBundle := mkBundle { fb_document : string; fb_url : Url; fb_content_type : string }.

(** The chunks kept while the running size stays within the cap. *)
Fixpoint read_chunks (size : Z) (chunks : list string) (fails : bool) : outcome string :=
  match chunks with
  | [] => if fails then Stop HttpError else Got ""
  | c :: rest =>
      let size := size + Z.of_nat (String.length c) in
      if fp_max_bytes policy <? size then Stop (EvidenceSourceRefused "too_large")
      else tail ← read_chunks size rest fails; Got (c +:+ tail)
  end.

Definition declared_too_large (declared : option string) : outcome bool :=
  match declared with
  | None => Got false
  | Some d => if isdigit d then match int_of d with Ok n => Got (fp_max_bytes policy <? n) | Raise e => Stop (Uncaught e) end else Got false
  end.

Definition read (r : Response) (target : Url) : outcome FetchedBundle :=
  if 400 <=? re_status r then Stop (EvidenceSourceUnreachable "http_status")
  else content_type ← check_content_type r;
       too_large ← declared_too_large (re_content_length r);
       _ ← refuse_if too_large "too_large";
       document ← read_chunks 0 (re_chunks r) (re_stream_fails r);
       Got (mkBundle document target content_type).

Definition is_redirect (r : Response) : bool := (300 <=? re_status r) && (re_status r <? 400).

Definition next_hop (r : Response) (target : Url) (origin_host : string) (redirects : Z) : outcome Url :=
  _ ← refuse_if (fp_max_redirects policy <? redirects) "too_many_redirects";
  match url_join target (re_location r) with
  | None => Stop InvalidUrl
  | Some nxt =>
      _ ← refuse_if (negb (bool_decide (url_host nxt = origin_host))) "cross_host_redirect";
      _ ← check_url (url_str nxt);
      Got nxt
  end.

Definition with_export_path (url : Url) : Url := if bool_decide (url_path url ∈ [""; "/"]) then url_with_path EVIDENCE_EXPORT_PATH url else url.

(** The requests made, each with the credential it carries, and the outcome; [None] is fuel running out. *)
Fixpoint follow (fuel : nat) (network : Network) (credential : option string) (origin_host : string) (redirects : Z) (n : nat) (target : Url)
  : list (Url * option string) * option (outcome FetchedBundle) :=
  match fuel with
  | O => ([], None)
  | S fuel' =>
      match network n target credential with
      | TransportError => ([(target, credential)], Some (Stop (EvidenceSourceUnreachable "transport_error")))
      | Answered r =>
          if is_redirect r
          then match next_hop r target origin_host (redirects + 1) with
               | Stop e => ([(target, credential)], Some (Stop e))
               | Got nxt => let '(trace, out) := follow fuel' network credential origin_host (redirects + 1) (S n) nxt in ((target, credential) :: trace, out)
               end
          else ([(target, credential)], Some (read r target))
      end
  end.

(** [if credential: headers[...] = ...]. *)
Definition sent (credential : option string) : option string := match credential with Some c => if bool_decide (c = "") then None else Some c | None => None end.

(** A request for every redirect allowed and the first. *)
Definition fetch_fuel : nat := Z.to_nat (Z.max 0 (fp_max_redirects policy) + 1).

Definition fetch (network : Network) (url : string) (since : option string) (credential : option string)
  : list (Url * option string) * option (outcome FetchedBundle) :=
  match check_url url with
  | Stop e => ([], Some (Stop e))
  | Got checked =>
      let target := with_export_path checked in
      let target := match since with Some s => url_set_param "since" s target | None => target end in
      follow fetch_fuel network (sent credential) (url_host target) 0 0 target
  end.

(** ** Version negotiation *)

Record VersionInfo := mkVersion { vi_application_version : string; vi_api_current : string; vi_api_supported : list string }.

(** [str(x)] and the body as JSON. *)
Context (str_of : json -> string) (json_of : string -> option json).

(** [tuple(str(major) for major in api.get("supported") or ())]. *)
Definition majors (x : json) : outcome (list string) :=
  if truthy x
  then match x with
       | JArr l => Got (map str_of l)
       | JObj l => Got (map fst l)
       | JStr s => Got (map (fun a => String a "") (list_ascii_of_string s))
       | _ => Stop (Uncaught TypeError)
       end
  else Got [].

Definition parse_version (r : Response) : outcome VersionInfo :=
  if re_status r =? 404 then Stop (EvidenceSourceIncompatible "no_version_endpoint")
  else if 400 <=? re_status r then Stop (EvidenceSourceUnreachable "http_status")
  else match json_of (String.concat "" (re_chunks r)) with
       | None => Stop (EvidenceSourceIncompatible "malformed_version_response")
       | Some (JObj body) =>
           match assoc "application" body, assoc "api" body with
           | Some (JObj application), Some (JObj api) =>
               supported ← majors (default JNull (assoc "supported" api));
               if bool_decide (SUPPORTED_API_MAJOR ∈ supported)
               then Got (mkVersion (str_of (default (JStr "") (assoc "version" application))) (str_of (default (JStr "") (assoc "current" api))) supported)
               else Stop (EvidenceSourceIncompatible "")
           | _, _ => Stop (EvidenceSourceIncompatible "malformed_version_response")
           end
       | Some _ => Stop (EvidenceSourceIncompatible "malformed_version_response")
       end.

(** What the client remembers: the last successful negotiation, when, and with whom. *)
Definition VersionCache : Type := option (VersionInfo * f64 * string).

(** [send] without streaming reads the whole body. *)
Definition send_whole (a : Answer) : outcome Response :=
  match a with
  | TransportError => Stop (EvidenceSourceUnreachable "transport_error")
  | Answered r => if re_stream_fails r then Stop (EvidenceSourceUnreachable "transport_error") else Got r
  end.

(** The cache afterwards, the URL probed if one was, and the outcome. *)
Definition version (network : Url -> Answer) (now : f64) (url : string) (cache : VersionCache) : VersionCache * option Url * outcome VersionInfo :=
  match check_url url with
  | Stop e => (cache, None, Stop e)
  | Got checked =>
      let origin := url_str (url_bare "" checked) in
      let fresh := match cache with Some (info, cached_at, o) => if bool_decide (o = origin) && (fsub now cached_at <? VERSION_CACHE_SECONDS) then Some info else None | None => None end in
      match fresh with
      | Some info => (cache, None, Got info)
      | None =>
          let target := url_bare VERSION_PATH checked in
          match (r ← send_whole (network target); parse_version r) with
          | Got info => (Some (info, now, origin), Some target, Got info)
          | Stop e => (cache, Some target, Stop e)
          end
      end
  end.
End client.

(** ** Lemmas *)

Section theory.
Context `{Httpx} `{!HttpxLaws} `{IpAddresses} `{Digits}.
Context (resolve : string -> list string) (policy : FetchPolicy).

Lemma bind_Got {A B} (m : outcome A) (f : A -> outcome B) b : (m ≫= f) = Got b -> exists a, m = Got a /\ f a = Got b.
Proof. destruct m as [a|e]; cbn; [by exists a|done]. Qed.

Lemma refuse_if_Got b reason u : refuse_if b reason = Got u -> b = false.
Proof. by destruct b. Qed.

(** The rules a URL must pass. *)
Definition permitted (u : Url) : Prop :=
  lower (url_scheme u) ∈ ALLOWED_SCHEMES /\ url_host u <> "" /\ lower (url_host u) ∈ map lower (fp_allowed_hosts policy) /\
  Forall (fun ip => is_link_local ip = false) (addresses_of resolve (url_host u)).

Lemma no_link_local l : existsb is_link_local l = false <-> Forall (fun ip => is_link_local ip = false) l.
Proof.
  induction l as [|ip l IH]; cbn; [by split|]. rewrite Forall_cons, <- IH. by destruct (is_link_local ip); cbn; naive_solver.
Qed.

Lemma check_url_Got url u : check_url resolve policy url = Got u <-> url_parse url = Some u /\ permitted u.
Proof.
  unfold check_url, permitted. destruct (url_parse url) as [v|]; [|naive_solver]. split.
  - intros E. apply bind_Got in E as (x1 & E1%refuse_if_Got & E). apply bind_Got in E as (x2 & E2%refuse_if_Got & E).
    apply bind_Got in E as (x3 & E3%refuse_if_Got & E). apply bind_Got in E as (x4 & E4%refuse_if_Got & E). injection E as <-. bool_to_prop.
    split; [done|]. split; [done|]. split; [done|]. split; [done|]. by apply no_link_local.
  - intros ([= ->] & Hs & Hn & Ha & Hl). apply no_link_local in Hl.
    rewrite (bool_decide_eq_true_2 _ Hs), (bool_decide_eq_false_2 _ Hn), (bool_decide_eq_true_2 _ Ha), Hl. done.
Qed.

Lemma permitted_origin u v : url_scheme u = url_scheme v -> url_host u = url_host v -> permitted u -> permitted v.
Proof. unfold permitted. by intros -> ->. Qed.

Lemma next_hop_Got r target origin_host redirects nxt : next_hop resolve policy r target origin_host redirects = Got nxt ->
  redirects <= fp_max_redirects policy /\ url_host nxt = origin_host /\ permitted nxt.
Proof.
  unfold next_hop. intros E. apply bind_Got in E as (x1 & E1%refuse_if_Got & E). destruct (url_join _ _) as [v|]; [|done].
  apply bind_Got in E as (x2 & E2%refuse_if_Got & E). apply bind_Got in E as (w & E3 & E). injection E as <-.
  apply check_url_Got in E3 as [Ew Hw]. rewrite url_parse_str in Ew. injection Ew as <-. bool_to_prop. done.
Qed.

Lemma read_chunks_Got size chunks fails d : read_chunks policy size chunks fails = Got d ->
  fails = false /\ d = String.concat "" chunks /\ (chunks <> [] -> size + Z.of_nat (String.length d) <= fp_max_bytes policy).
Proof.
  revert size d. induction chunks as [|c chunks IH]; intros size d; cbn [read_chunks]; [by destruct fails; intros [= <-]|].
  destruct (fp_max_bytes policy <? _) eqn:Es; [done|]. intros E. apply bind_Got in E as (tail & Et & E). injection E as <-.
  destruct (IH _ _ Et) as (Hf & -> & Hs). bool_to_prop. assert (String.concat "" (c :: chunks) = c +:+ String.concat "" chunks) as Hc.
  { destruct chunks; [|done]. cbn. clear. induction c as [|a c IH]; [done|]. change (String a c +:+ "") with (String a (c +:+ "")). by rewrite <- IH. }
  split; [done|]. split; [done|]. intros _. assert (forall a b : string, String.length (a +:+ b) = (String.length a + String.length b)%nat) as Hl.
  { clear. induction a as [|x a IH]; intros b; [done|]. change (String x a +:+ b) with (String x (a +:+ b)). cbn [String.length]. by rewrite IH. }
  rewrite Hl. destruct chunks as [|c' chunks]; [cbn; lia|]. specialize (Hs ltac:(done)). lia.
Qed.

(** What a returned bundle was read from. *)
Definition read_from (r : Response) (u : Url) (b : FetchedBundle) : Prop :=
  re_status r < 400 /\ check_content_type r = Got (fb_content_type b) /\ fb_url b = u /\ fb_document b = String.concat "" (re_chunks r) /\
  re_stream_fails r = false /\ Z.of_nat (String.length (fb_document b)) <= Z.max 0 (fp_max_bytes policy).

Lemma read_Got r u b : read policy r u = Got b -> read_from r u b.
Proof.
  unfold read, read_from. destruct (400 <=? re_status r) eqn:Es; [done|]. intros E. apply bind_Got in E as (m & Em & E). apply bind_Got in E as (t & Et & E).
  apply bind_Got in E as (x & Ex & E). apply bind_Got in E as (d & Ed & E). injection E as <-. cbn. destruct (read_chunks_Got _ _ _ _ Ed) as (Hf & -> & Hs).
  bool_to_prop. split; [done|]. split; [done|]. split; [done|]. split; [done|]. split; [done|].
  destruct (re_chunks r); [cbn; lia|]. specialize (Hs ltac:(done)). lia.
Qed.

Lemma follow_guarded fuel network credential origin_host redirects n target :
  permitted target -> url_host target = origin_host -> (Z.max 0 (fp_max_redirects policy - redirects) < Z.of_nat fuel) ->
  let '(trace, out) := follow resolve policy fuel network credential origin_host redirects n target in
  Forall (fun uc => permitted uc.1 /\ url_host uc.1 = origin_host /\ uc.2 = credential) trace /\
  1 <= Z.of_nat (length trace) <= Z.max 0 (fp_max_redirects policy - redirects) + 1 /\
  exists o, out = Some o /\
    forall b, o = Got b -> exists u r, last trace = Some (u, credential) /\ network (n + length trace - 1)%nat u credential = Answered r /\ is_redirect r = false /\ read_from r u b.
Proof.
  revert redirects n target. induction fuel as [|fuel IH]; intros redirects n target Hp Hh Hf; [lia|]. cbn [follow].
  assert (Forall (fun uc : Url * option string => permitted uc.1 /\ url_host uc.1 = origin_host /\ uc.2 = credential) [(target, credential)]) as Hone by (by apply Forall_singleton).
  destruct (network n target credential) as [|r] eqn:En.
  { split; [done|]. split; [cbn; lia|]. by eexists. }
  destruct (is_redirect r) eqn:Er.
  - destruct (next_hop _ _ _ _ _ _) as [nxt|e] eqn:Eh; [|split; [done|]; split; [cbn; lia|]; by eexists].
    apply next_hop_Got in Eh as (Hle & Hn & Hpn). specialize (IH (redirects + 1) (S n) nxt Hpn Hn ltac:(lia)).
    destruct (follow _ _ _ _ _ _ _ _ _) as [trace out]. destruct IH as (Ht & Hl & o & -> & Ho). split; [by constructor|]. split; [cbn [length]; lia|].
    exists o. split; [done|]. intros b Hb. destruct (Ho b Hb) as (u & r' & Hlast & Hnet & Hrest). exists u, r'. split; [|split; [|done]].
    + destruct trace as [|x trace]; [done|]. exact Hlast.
    + rewrite <- Hnet. f_equal. cbn [length]. lia.
  - split; [done|]. split; [cbn; lia|]. eexists. split; [done|]. intros b Hb. exists target, r. split; [done|]. split; [|split; [done|by apply read_Got]].
    rewrite <- En. f_equal. cbn. lia.
Qed.

(** Negotiations remembered are of a major this build speaks. *)
Definition cache_ok (cache : VersionCache) : Prop := match cache with Some (info, _, _) => SUPPORTED_API_MAJOR ∈ vi_api_supported info | None => True end.

Lemma parse_version_Got str_of json_of r info : parse_version str_of json_of r = Got info -> SUPPORTED_API_MAJOR ∈ vi_api_supported info.
Proof.
  unfold parse_version. destruct (_ =? 404); [done|]. destruct (400 <=? _); [done|]. destruct (json_of _) as [[]|]; try done.
  destruct (assoc "application" l) as [[]|]; try done. destruct (assoc "api" l) as [[]|]; try done. intros E. apply bind_Got in E as (s & _ & E).
  case_bool_decide; [|done]. by injection E as <-.
Qed.
End theory.

(** The version calls of one client, with what each probed and returned. *)
Fixpoint versions `{Httpx} `{IpAddresses} (resolve : string -> list string) (policy : FetchPolicy) (str_of : json -> string) (json_of : string -> option json)
    (calls : list ((Url -> Answer) * f64 * string)) (cache : VersionCache) : VersionCache * list (option Url * outcome VersionInfo) :=
  match calls with
  | [] => (cache, [])
  | (network, now, url) :: rest =>
      let '(cache', probed, out) := version resolve policy str_of json_of network now url cache in
      let '(cache'', outs) := versions resolve policy str_of json_of rest cache' in
      (cache'', (probed, out) :: outs)
  end.

Lemma version_sound `{Httpx} `{!HttpxLaws} `{IpAddresses} resolve policy str_of json_of network now url cache :
  cache_ok cache ->
  let '(cache', probed, out) := version resolve policy str_of json_of network now url cache in
  cache_ok cache' /\
  (forall u, probed = Some u -> permitted resolve policy u) /\
  (forall info, out = Got info -> SUPPORTED_API_MAJOR ∈ vi_api_supported info) /\
  (forall e, out = Stop e -> cache' = cache) /\
  (probed = None -> cache' = cache).
Proof.
  intros Hc. unfold version. destruct (check_url resolve policy url) as [checked|e] eqn:Eu; [|by repeat split].
  apply check_url_Got in Eu as [_ Hp].
  destruct (match cache with Some (info, cached_at, o) => _ | None => None end) as [info|] eqn:Ef.
  { destruct cache as [[[i at_] o]|]; [|done]. destruct (_ && _); [|done]. injection Ef as ->. split; [done|]. split; [done|]. split; [|by split]. by intros ? [= <-]. }
  assert (permitted resolve policy (url_bare VERSION_PATH checked)) as Hb.
  { eapply permitted_origin; [| |exact Hp]; [by rewrite bare_scheme|by rewrite bare_host]. }
  destruct (send_whole _ ≫= _) as [info|e] eqn:Es.
  - apply bind_Got in Es as (r & _ & Es). pose proof (parse_version_Got _ _ _ _ Es) as Hs. split; [done|]. split; [by intros u [= <-]|]. split; [by intros ? [= <-]|by split].
  - split; [done|]. split; [by intros u [= <-]|by repeat split].
Qed.

Module Properties.

(** C36: A fetch stays inside the rules.  It always ends (a request for each allowed redirect and the first are all it can make); a URL the rules
    refuse opens nothing; every request it makes is over http or https to a host of the allow list, none of whose addresses is link-local,
    on the host first named, and carries the credential given and no other; and a bundle it returns was read whole, from the last URL
    requested, out of a successful answer that is no redirect and whose content type is JSON, within the size cap. *)
Theorem fetch_guarded `{Httpx} `{!HttpxLaws} `{IpAddresses} `{Digits} resolve policy network url since credential :
  let '(trace, out) := fetch resolve policy network url since credential in
  Z.of_nat (length trace) <= Z.max 0 (fp_max_redirects policy) + 1 /\
  Forall (fun uc => permitted resolve policy uc.1 /\ uc.2 = sent credential /\ forall v, url_parse url = Some v -> url_host uc.1 = url_host v) trace /\
  exists o, out = Some o /\
    (forall e, check_url resolve policy url = Stop e -> trace = [] /\ o = Stop e) /\
    forall b, o = Got b -> exists u r, last trace = Some (u, sent credential) /\ network (length trace - 1)%nat u (sent credential) = Answered r /\
      is_redirect r = false /\ read_from policy r u b.
Proof.
  unfold fetch. destruct (check_url resolve policy url) as [checked|e] eqn:Eu.
  2: { split; [cbn; lia|]. split; [constructor|]. eexists. split; [done|]. split; [by intros e' [= ->]|done]. }
  apply check_url_Got in Eu as [Ev Hp].
  set (exported := with_export_path checked). set (target := match since with Some s => url_set_param "since" s exported | None => exported end).
  assert (url_scheme target = url_scheme checked /\ url_host target = url_host checked) as [Es Eh].
  { assert (url_scheme exported = url_scheme checked /\ url_host exported = url_host checked) as [E1 E2].
    { unfold exported, with_export_path. case_bool_decide; [|done]. by rewrite with_path_scheme, with_path_host. }
    unfold target. destruct since; [|done]. by rewrite set_param_scheme, set_param_host. }
  assert (permitted resolve policy target) as Ht by (by eapply permitted_origin).
  pose proof (follow_guarded resolve policy (fetch_fuel policy) network (sent credential) (url_host target) 0 0 target Ht eq_refl) as Hf.
  destruct (follow _ _ _ _ _ _ _ _ _) as [trace out]. destruct Hf as (Hall & Hlen & o & -> & Ho); [unfold fetch_fuel; lia|].
  split; [lia|]. split.
  - eapply Forall_impl; [exact Hall|]. intros uc (H1' & H2' & H3'). split; [done|]. split; [done|]. intros v Hv. rewrite Ev in Hv. injection Hv as <-. by rewrite H2'.
  - exists o. split; [done|]. split; [done|]. intros b Hb. exact (Ho b Hb).
Qed.

(** Version negotiation.  Whatever a client is asked over time, it remembers only negotiations of a major this build speaks, every answer it
    returns names that major, a refused, failed or incompatible negotiation leaves what it remembered, and every URL it probes passed the fetch
    rules; a remembered answer is returned without a request only for its own origin and while it is younger than the cache's lifetime. *)
Theorem version_negotiated `{Httpx} `{!HttpxLaws} `{IpAddresses} resolve policy str_of json_of calls :
  let '(cache, outs) := versions resolve policy str_of json_of calls None in
  cache_ok cache /\
  Forall (fun po => (forall u, po.1 = Some u -> permitted resolve policy u) /\ (forall info, po.2 = Got info -> SUPPORTED_API_MAJOR ∈ vi_api_supported info)) outs /\
  forall network now url info,
    (version resolve policy str_of json_of network now url cache).1.2 = None ->
    (version resolve policy str_of json_of network now url cache).2 = Got info ->
    exists cached_at origin u, cache = Some (info, cached_at, origin) /\ check_url resolve policy url = Got u /\ origin = url_str (url_bare "" u) /\
      fsub now cached_at < VERSION_CACHE_SECONDS.
Proof.
  assert (forall cache, cache_ok cache ->
    let '(cache', outs) := versions resolve policy str_of json_of calls cache in
    cache_ok cache' /\ Forall (fun po => (forall u, po.1 = Some u -> permitted resolve policy u) /\ (forall info, po.2 = Got info -> SUPPORTED_API_MAJOR ∈ vi_api_supported info)) outs) as Hall.
  { induction calls as [|[[network now] url] calls IH]; intros cache Hc; cbn [versions]; [by split|].
    pose proof (version_sound resolve policy str_of json_of network now url cache Hc) as Hv.
    destruct (version _ _ _ _ _ _ _ _) as [[cache' probed] out]. destruct Hv as (Hc' & Hu & Hi & _).
    specialize (IH cache' Hc'). destruct (versions _ _ _ _ _ _) as [cache'' outs]. destruct IH as [IH1 IH2]. split; [done|]. by constructor. }
  specialize (Hall None I). destruct (versions _ _ _ _ _ _) as [cache outs]. destruct Hall as [Hc Ho]. split; [done|]. split; [done|].
  intros network now url info. unfold version. destruct (check_url resolve policy url) as [u|e]; [|done].
  destruct cache as [[[i at_] o]|].
  - destruct (bool_decide (o = url_str (url_bare "" u)) && (fsub now at_ <? VERSION_CACHE_SECONDS)) eqn:Eb.
    + intros _ [= ->]. bool_to_prop. exists at_, o, u. done.
    + by destruct (send_whole _ ≫= _).
  - by destruct (send_whole _ ≫= _).
Qed.

(** A redirect to the same host carries the credential whatever the scheme and the port: an [Authorization] header given for an https origin is sent in
    the clear, or to another service of that host, where [credential_for] would have withheld it. *)
Theorem credential_follows_host `{Httpx} `{IpAddresses} `{Digits} resolve policy network credential target r nxt v :
  1 <= fp_max_redirects policy -> network 0%nat target credential = Answered r -> is_redirect r = true ->
  url_join target (re_location r) = Some nxt -> url_host nxt = url_host target -> check_url resolve policy (url_str nxt) = Got v ->
  exists rest out, follow resolve policy (fetch_fuel policy) network credential (url_host target) 0 0 target = ((target, credential) :: (nxt, credential) :: rest, out).
Proof.
  intros Hm Hn Hr Hj Hh Hc. assert (exists k, fetch_fuel policy = S (S k)) as [k Hk].
  { exists (Z.to_nat (fp_max_redirects policy - 1)). unfold fetch_fuel. lia. }
  rewrite Hk. cbn [follow]. rewrite Hn, Hr. unfold next_hop. rewrite Hj, Hh, bool_decide_eq_true_2 by done.
  replace (fp_max_redirects policy <? 0 + 1) with false by (symmetry; apply Z.ltb_ge; lia). cbn [refuse_if negb mbind outcome_bind]. rewrite Hc. cbn [mbind outcome_bind].
  destruct (network 1%nat nxt credential) as [|r']; [by eexists _, _|]. destruct (is_redirect r'); [|by eexists _, _].
  destruct (refuse_if _ _ ≫= _) as [nxt'|e]; [|by eexists _, _]. destruct (follow _ _ _ _ _ _ _ _ _) as [trace out]. by eexists _, _.
Qed.

(** What escapes the three errors: a stream that breaks, a location that is no URL, a version whose majors are a number. *)
Theorem errors_escape `{Httpx} `{IpAddresses} `{Digits} policy target json_of :
  read policy (mkResponse 200 "application/json" "" None ["{"] true) target = (if fp_max_bytes policy <? 1 then Stop (EvidenceSourceRefused "too_large") else Stop HttpError) /\
  (forall resolve r redirects, redirects <= fp_max_redirects policy -> url_join target (re_location r) = None ->
     next_hop resolve policy r target (url_host target) redirects = Stop InvalidUrl) /\
  (forall str_of chunks, json_of (String.concat "" chunks) = Some (JObj [("application", JObj []); ("api", JObj [("supported", JInt 1)])]) ->
     parse_version str_of json_of (mkResponse 200 "" "" None chunks false) = Stop (Uncaught TypeError)).
Proof.
  split; [|split].
  - unfold read. replace (check_content_type _) with (Got (A := string) "application/json") by reflexivity.
    cbn [re_status re_content_length re_chunks re_stream_fails declared_too_large refuse_if mbind outcome_bind read_chunks].
    change (400 <=? 200) with false. change (0 + Z.of_nat (String.length "{")) with 1. by destruct (fp_max_bytes policy <? 1).
  - intros resolve r redirects Hr Hj. unfold next_hop. rewrite Hj. by replace (fp_max_redirects policy <? redirects) with false by (symmetry; by apply Z.ltb_ge).
  - intros str_of chunks Hj. unfold parse_version. cbn [re_status re_chunks]. by rewrite Hj.
Qed.

(** The version answer is read whole: no cap refuses it, however long. *)
Theorem version_uncapped `{Httpx} `{IpAddresses} resolve policy str_of json_of checked body url info now network :
  check_url resolve policy url = Got checked -> json_of body = Some (JObj [("application", JObj []); ("api", JObj [("supported", JArr [JStr "v1"])])]) ->
  str_of (JStr "v1") = "v1" -> info = mkVersion (str_of (JStr "")) (str_of (JStr "")) ["v1"] ->
  network (url_bare VERSION_PATH checked) = Answered (mkResponse 200 "" "" None [body] false) ->
  (version resolve policy str_of json_of network now url None).2 = Got info.
Proof.
  intros Hc Hj Hs -> Hn. assert (majors str_of (JArr [JStr "v1"]) = Got ["v1"]) as Hm by (unfold majors; cbn [truthy map]; by rewrite Hs).
  assert (parse_version str_of json_of (mkResponse 200 "" "" None [body] false) = Got (mkVersion (str_of (JStr "")) (str_of (JStr "")) ["v1"])) as Hp.
  { unfold parse_version. cbn [re_status re_chunks]. change (String.concat "" [body]) with body. rewrite Hj.
    transitivity (supported ← majors str_of (JArr [JStr "v1"]);
      if bool_decide (SUPPORTED_API_MAJOR ∈ supported) then Got (mkVersion (str_of (JStr "")) (str_of (JStr "")) supported) else Stop (EvidenceSourceIncompatible "")); [reflexivity|].
    rewrite Hm. reflexivity. }
  unfold version. rewrite Hc, Hn. cbn [send_whole re_stream_fails mbind outcome_bind]. by rewrite Hp.
Qed.

(** An instance where every URL is a path of one host. *)
Definition one_host : Httpx :=
  {| Url := string; url_parse s := Some s; url_str s := s; url_scheme _ := "http"; url_host _ := "localhost"; url_port _ := None; url_path s := s;
     url_with_path _ u := u; url_bare _ u := u; url_set_param _ _ u := u; url_join _ l := Some l |}.
Definition one_ip : IpAddresses := {| Ip := unit; ip_address _ := Some tt; is_link_local _ := false |}.
Definition no_digits : Digits := {| isdigit _ := false; int_of _ := Raise ValueError |}.

Lemma one_host_laws : @HttpxLaws one_host.
Proof. by split. Qed.

Definition sample_network : @Network one_host :=
  fun n u c => match n with
               | O => Answered (mkResponse 302 "" "/next" None [] false)
               | _ => Answered (mkResponse 200 "application/json; charset=utf-8" "" None ["{"; "}"] false)
               end.

Lemma fetch_guarded_witness :
  exists b, snd (@fetch one_host one_ip no_digits (fun _ => []) (policy_from_settings ["LocalHost"]) sample_network "/x" None None) = Some (Got b) /\ fb_document b = "{}".
Proof.
  pose proof (@fetch_guarded one_host one_host_laws one_ip no_digits (fun _ => []) (policy_from_settings ["LocalHost"]) sample_network "/x" None None) as Hf.
  destruct (fetch _ _ _ _ _ _) as [trace out] eqn:E. destruct Hf as (_ & _ & o & -> & _ & Hb). vm_compute in E. injection E as <- <-.
  eexists. split; [reflexivity|]. destruct (Hb _ eq_refl) as (u & r & Hl & Hn & _ & _ & _ & _ & Hd & _). rewrite Hd. injection Hl as <-. cbn in Hn. injection Hn as <-. reflexivity.
Defined.

Lemma version_negotiated_witness :
  @cache_ok (@fst _ _ (@versions one_host one_ip (fun _ => []) (policy_from_settings ["localhost"]) (fun x => match x with JStr s => s | _ => "" end)
    (fun _ => Some (JObj [("application", JObj []); ("api", JObj [("supported", JArr [JStr "v1"])])])) [(fun _ => Answered (mkResponse 200 "" "" None [] false), 0, "/x")] None)).
Proof.
  pose proof (@version_negotiated one_host one_host_laws one_ip (fun _ => []) (policy_from_settings ["localhost"]) (fun x => match x with JStr s => s | _ => "" end)
    (fun _ => Some (JObj [("application", JObj []); ("api", JObj [("supported", JArr [JStr "v1"])])])) [(fun _ => Answered (mkResponse 200 "" "" None [] false), 0, "/x")]) as Hv.
  destruct (versions _ _ _ _ _ _) as [cache outs]. exact (proj1 Hv).
Defined.
End Properties.
