(* ===== verification/Endpoints.v ===== *)
(** * The generation and job routes ([web/routes/generate.py], [web/routes/jobs.py])

    What a request body becomes before a service sees it: the validators of the body, the transcript with its
    consistency check, the tools, the overrides and the caller; the thread behind POST /generate/stream with its
    backstop; and the paging of GET /jobs. *)

From Stdlib Require Import Ascii String.
From S2P Require Import Prelude PyFloat PyStr Json Telemetry QueueState Priority Ordering Authorization ContextBudget JobEvents Submission RetryPolicy Subject Scoring Constraints Ranking TaskProfile Explanation Routing QueueStore Queue QueueTheory Recovery QueueSystem Validation Dialogue Generation Execution.
#[local] Open Scope string_scope.
#[local] Open Scope list_scope.
#[local] Open Scope Z_scope.

(** ** Bodies *)

Record ToolCallBody := mkCallBody { tc_id : string; tc_name : string; tc_arguments : list (string * json) + string }.

Record MessageBody := mkMessageBody {
  mb_role : string;
  mb_content : string;
  mb_tool_call_id : option string;
  mb_tool_calls : option (list ToolCallBody)
}.

Record ToolDefinitionBody := mkToolBody { td_name : string; td_description : string; td_parameters : list (string * json) }.

Record RuntimeProfileOverrideBody := mkProfileBody {
  po_context_size : option Z;
  po_kv_cache_precision : option string;
  po_gpu_layers : option Z;
  po_flash_attention : option bool;
  po_threads : option Z;
  po_batch_size : option Z;
  po_keep_alive : option string
}.

Record OverridesBody := mkOverridesBody {
  ob_model : option string;
  ob_adapter : option string;
  ob_runtime_profile : option RuntimeProfileOverrideBody;
  ob_disallow_fallback : bool;
  ob_require_evidence : bool;
  ob_ignore_residency : bool
}.

Record GenerateBody := mkBody {
  gb_task : string;
  gb_system : option string;
  gb_prompt : option string;
  gb_messages : option (list MessageBody);
  gb_response_format : option string;
  gb_sampling : list (string * json);
  gb_overrides : option OverridesBody;
  gb_tools : option (list ToolDefinitionBody);
  gb_idempotency_key : option string;
  gb_data_classification : option string
}.

(** [JobBody]: the same, with its own fields. *)
Record JobBody := mkJobBody {
  jb_body : GenerateBody;
  jb_job_class : JobClass;
  jb_priority : option Z;
  jb_max_wait_seconds : option Z;
  jb_idempotent : bool;
  jb_stream : bool
}.

(** [s[:n]]: the bytes before the code point at index [n]. *)
Fixpoint py_take (n : nat) (s : string) : string :=
  match s with
  | EmptyString => EmptyString
  | String a s' =>
      let c := N_of_ascii a in
      if (128 <=? c)%N && (c <? 192)%N then String a (py_take n s')
      else match n with O => EmptyString | S n' => String a (py_take n' s') end
  end.

Definition or_anonymous (header : string) : string := if bool_decide (header = "") then "anonymous" else header.

Section bodies.
Context `{Wire} `{Profiles} `{Classification}.

Definition known_classification (value : option string) : bool :=
  match value with None => true | Some v => bool_decide (is_Some (classification_of v)) end.

Definition think_is_a_switch (sampling : list (string * json)) : bool :=
  match assoc "think" sampling with None | Some JNull | Some (JBool _) => true | Some _ => false end.

Definition exactly_one_form (b : GenerateBody) : bool :=
  negb (bool_decide (gb_prompt b = None <-> gb_messages b = None)) &&
  negb (bool_decide (is_Some (gb_messages b)) && bool_decide (is_Some (gb_system b))).

(** ** The transcript *)

Definition call_of_body (call : ToolCallBody) : result ToolCall :=
  match tc_arguments call with
  | inl arguments => make_call (tc_id call) (tc_name call) arguments None
  | inr raw => make_call (tc_id call) (tc_name call) [] (Some raw)
  end.

Definition tool_calls_of (turn : MessageBody) : result (list ToolCall) :=
  match mb_tool_calls turn with None => Ok [] | Some calls => map_result call_of_body calls end.

(** ["messages[{index}].{field}"]. *)
Definition refused (index : nat) (field : string) : exn := ValidationErrors ["messages"; pretty index; field].

(** [exc.details.get("field", "role")]. *)
Definition field_of (e : exn) : string := match e with ValidationError field => field | _ => "role" end.

(** One turn of the loop, given the ids requested by the turns before it. *)
Definition turn_of (index : nat) (offered : list string) (turn : MessageBody) : result (Message * list string) :=
  calls ← tool_calls_of turn;
  m ← match (role ← Role_of (mb_role turn); make_message role (mb_content turn) (mb_tool_call_id turn) calls) with
      | Raise e => Raise (if is_validation_error e then refused index (field_of e) else e)
      | Ok m => Ok m
      end;
  _ ← guard_raise (bool_decide (mb_role turn = "tool") &&
                   negb (match mb_tool_call_id turn with Some id => bool_decide (id ∈ offered) | None => false end)) (refused index "tool_call_id");
  Ok (m, offered ++ map call_id calls).

Fixpoint turns_of (index : nat) (offered : list string) (turns : list MessageBody) : result (list Message) :=
  match turns with
  | [] => Ok []
  | turn :: rest => '(m, offered') ← turn_of index offered turn; ms ← turns_of (S index) offered' rest; Ok (m :: ms)
  end.

Definition messages_of (b : GenerateBody) : result (option (list Message)) :=
  match gb_messages b with None => Ok None | Some turns => ms ← turns_of 0 [] turns; Ok (Some ms) end.

Definition tools_of (b : GenerateBody) : result (list ToolDefinition) :=
  map_result (fun t => make_tool (td_name t) (td_description t) (td_parameters t)) (default [] (gb_tools b)).

(** ** Overrides and the caller *)

(** [RuntimeProfile( **body.runtime_profile.model_dump(exclude_none=True))]: a field that was not written is left out. *)
Definition profile_override (p : RuntimeProfileOverrideBody) : Subject.RuntimeProfile :=
  make_runtime_profile (po_context_size p) (po_kv_cache_precision p) (JInt <$> po_gpu_layers p) (po_flash_attention p)
    (JInt <$> po_threads p) (JInt <$> po_batch_size p) (JStr <$> po_keep_alive p) [].

Definition overrides_of (body : option OverridesBody) : option Routing.RuntimeOverrides :=
  (fun b => mkRuntimeOverrides (ob_model b) (ob_adapter b) (profile_override <$> ob_runtime_profile b)
              (ob_disallow_fallback b) (ob_require_evidence b) (ob_ignore_residency b)) <$> body.

(** [source_of(request)], of the token's name and the [X-Client-Name] header. *)
Definition source_of (token_name : option string) (header : string) : string :=
  match token_name with
  | Some name => if bool_decide (name = "") then or_anonymous (py_take 64 (strip header)) else name
  | None => or_anonymous (py_take 64 (strip header))
  end.

Definition feedback_source (token_name : option string) (header : string) (body_source : option string) : string :=
  let attributed := source_of token_name header in
  if negb (bool_decide (attributed = "anonymous")) then attributed
  else match body_source with
       | Some s => if bool_decide (strip s = "") then "anonymous" else py_take 64 (strip s)
       | None => "anonymous"
       end.

(** ** Requests *)

(** [_to_request] of generate.py. *)
Definition to_request (b : GenerateBody) (source : string) (stream : bool) : result GenerateRequest :=
  turns ← messages_of b;
  tools ← tools_of b;
  Ok (mkGenerate (gb_task b) (gb_system b) (gb_prompt b) turns (gb_response_format b) (gb_sampling b)
        (overrides_of (gb_overrides b)) tools (gb_data_classification b) source (gb_idempotency_key b) stream).

(** [_to_request] of routing.py; the constraints of the body are those of a task profile. *)
Definition to_route_request (task : string) (estimated_input_tokens max_output_tokens : option Z)
    (constraints : option TaskProfileConstraints) (overrides : option OverridesBody) : RouteRequest :=
  mkRouteRequest task estimated_input_tokens max_output_tokens constraints [] None
    (default (mkRuntimeOverrides None None None false false false) (overrides_of overrides)) None.

(** ModelRack's [RuntimeProfile], as the codec of a submission reads it. *)
Context (profile_to_wire : Subject.RuntimeProfile -> Submission.RuntimeProfile).

Definition submitted_overrides (o : Routing.RuntimeOverrides) : Submission.RuntimeOverrides :=
  mkOverrides (ov_model o) (ov_adapter o) (profile_to_wire <$> ov_runtime_profile o) (ov_disallow_fallback o)
    (ov_require_evidence o) (ov_ignore_residency o).

(** [_submission]: no [tools] is passed on. *)
Definition submission (jb : JobBody) (source : string) : result JobSubmission :=
  let b := jb_body jb in
  turns ← messages_of b;
  Ok (mkSubmission (gb_task b) (gb_prompt b) (gb_system b) turns (gb_response_format b) (gb_sampling b)
        (submitted_overrides <$> overrides_of (gb_overrides b)) [] (jb_job_class jb) (jb_priority jb)
        (jb_max_wait_seconds jb) (jb_idempotent jb) (gb_idempotency_key b) (gb_data_classification b) source (jb_stream jb)).
End bodies.

(** ** The thread behind POST /generate/stream *)

Definition TERMINAL_EVENTS : list string := ["error"; "result"].

(** The terminal frames of a job among stored events. *)
Definition terminal_rows (job_id : string) (rows : list JobEvent) : list JobEvent :=
  List.filter (fun e => bool_decide (ev_job_id e = job_id) && bool_decide (ev_event_type e ∈ TERMINAL_EVENTS)) rows.

Definition frames (job_id : string) (s : Store) : list JobEvent := terminal_rows job_id (st_rows (ev (s_world s))).

Section drive.
Context `{Externals} `{Wire} `{Profiles} `{Classification} `{Rack} `{Prompts} `{TextTools} `{ErrorText}.
Context (ASSISTANT : Role) (refusal : Call -> option exn) (payload_of : Explanation.Explanation -> list (string * json)).

#[local] Abbreviation session := (dialogue (W := Store) Answer).

(** [_backstop]; its two readings of the clock are made before the transaction. *)
Definition backstop_write (job_id message : string) (completed now : Z) : prog STx unit :=
  t ← get;
  match terminal_rows job_id (wr_rows (t_writer (x_tx t))) with
  | _ :: _ => mret tt
  | [] =>
      _ ← match t_jobs (x_tx t) !! job_id with
          | Some j =>
              if is_terminal (j_state j) then mret tt
              else on_queue (put_jobs (<[job_id := assign_all [SetState FAILED; SetStateReason (Some "INTERNAL_ERROR");
                                                               SetErrorCode (Some "INTERNAL_ERROR"); SetErrorText (Some message);
                                                               SetCompletedAt (Some completed)] j]> (t_jobs (x_tx t))))
          | None => mret tt
          end;
      on_queue (append_event job_id "error" now None [("code", JStr "INTERNAL_ERROR"); ("message", JStr message)])
  end.

Definition backstop (job_id message : string) : session unit :=
  completed ← put Now; now ← put Now; act (store_write (backstop_write job_id message completed now)).

(** [_drive]. *)
Definition drive (job_id : string) (request : GenerateRequest) (context : ExecutionContext) : session unit :=
  finally
    (catch (_ ← execute ASSISTANT refusal payload_of request context job_id None; mret tt)
       (fun e => match exn_code e with
                 | Some _ => mret tt
                 | None => backstop job_id ("The execution failed unexpectedly: " +:+ message_of e)
                 end))
    (backstop job_id "The execution ended without producing a result.").

(** ** Reserving and running *)

(** What [reserve_sync_job] reads of a request. *)
Definition reservation_of (request : GenerateRequest) (turns : list Message) : Queue.GenerateRequest :=
  Queue.mkRequest _ (gr_task request) turns (gr_tools request) (gr_response_format request) (gr_sampling request)
    (gr_stream request) (gr_source request) (gr_idempotency_key request).

(** [reserve_sync_job] on a request: a transcript that cannot be built raises once no earlier job has the key. *)
Definition reserve (request : GenerateRequest) (now : Z) (ttl_hours : f64) : prog World ReservedJob :=
  match Generation.transcript request with
  | Ok turns => reserve_sync_job (reservation_of request turns) now ttl_hours
  | Raise e =>
      w ← get;
      _ ← lift (load_task_profile (profiles w) (gr_task request));
      existing ← match gr_idempotency_key request with
                 | Some k => existing_job_for_key (gr_source request) k now
                 | None => mret None
                 end;
      match existing with
      | Some (id, st) => mret (mkReserved id false st)
      | None => _ ← draw_id; raise e
      end
  end.

(** A write of the queue, on the store. *)
Definition on_world {A} (body : prog World A) : prog Store A :=
  fun s => let '(w, r) := body (s_world s) in (mkStore w (s_attempts s) (s_decisions s), r).

(** [post_generate] up to the wait for another execution: a new job is run, of a known key the job is named. *)
Definition post_generate (principal : Principal) (b : GenerateBody) (source : string) (context : ExecutionContext) (ttl_hours : f64)
  : session (string + ExecutionOutcome) :=
  _ ← of_result (authorize (Some principal) "write");
  request ← of_result (to_request b source false);
  now ← put Now;
  reserved ← act (on_world (reserve request now ttl_hours));
  if r_created reserved then
    outcome ← execute ASSISTANT refusal payload_of request context (r_job_id reserved) None; mret (inr outcome)
  else mret (inl (r_job_id reserved)).

(** [post_generate_stream] with the thread it starts; it returns the job whose events are streamed. *)
Definition post_generate_stream (principal : Principal) (b : GenerateBody) (source : string) (context : ExecutionContext)
    (ttl_hours : f64) : session string :=
  _ ← of_result (authorize (Some principal) "write");
  request ← of_result (to_request b source true);
  now ← put Now;
  reserved ← act (on_world (reserve request now ttl_hours));
  _ ← (if r_created reserved then drive (r_job_id reserved) request context else mret tt);
  mret (r_job_id reserved).
End drive.

(** ** Lemmas: terminal frames *)

Lemma terminal_rows_app id rows e :
  terminal_rows id (rows ++ [e]) =
  terminal_rows id rows ++ (if bool_decide (ev_job_id e = id) && bool_decide (ev_event_type e ∈ TERMINAL_EVENTS) then [e] else []).
Proof. unfold terminal_rows. rewrite List.filter_app. by cbn; destruct (_ && _). Qed.

Lemma one_event_frames id ty s s' :
  one_event id ty s s' -> exists e, frames id s' = frames id s ++ (if bool_decide (ty ∈ TERMINAL_EVENTS) then [e] else []) /\ ev_event_type e = ty.
Proof.
  intros (e & Hr & Hid & Hty). exists e. split; [|done]. unfold frames. rewrite Hr, terminal_rows_app, Hid, Hty.
  by rewrite (bool_decide_eq_true_2 (id = id)).
Qed.

(** What goes on beside the stream of a job: nobody else writes one of its terminal frames. *)
Definition quiet (job_id : string) (s s' : Store) : Prop := beside job_id s s' /\ frames job_id s' = frames job_id s.

#[export] Instance quiet_interference job_id : Interference job_id (quiet job_id).
Proof.
  split.
  - split; [by split|]. intros s1 s2 s3 [H1 E1] [H2 E2]. split; [by etrans|congruence].
  - by intros s s' [].
  - intros s s' Hj Ha He. split; [by apply interference_routing|].
    destruct (one_event_frames _ _ _ _ He) as (e & -> & _). by rewrite app_nil_r.
Qed.

(** Every committed move of the queue is quiet, whichever job it moves. *)
Lemma move_quiet `{Externals} job_id id current target now owner reason message data values w atts decs :
  Forall plain values ->
  quiet job_id (mkStore w atts decs) (mkStore (move id current target now owner reason message data values w).1 atts decs).
Proof.
  intros Hv. pose proof (move_run id current target now owner reason message data values w) as Hm. cbv zeta in Hm.
  destruct (move _ _ _ _ _ _ _ _ _ w) as [w' r] eqn:E. cbn [fst].
  destruct (is_legal current target && _); [|by destruct Hm as [-> _]].
  destruct Hm as (j & row & Hj & _ & Hjobs & Hrows & _ & Hty & _). split.
  - apply jobs_le_beside; [|done]. cbn [s_world].
    replace w' with (move id current target now owner reason message data values w).1 by (by rewrite E).
    apply (good_move id current target now owner reason message data values w Hv).
  - unfold frames. cbn [s_world]. rewrite Hrows, terminal_rows_app, Hty.
    replace (bool_decide (event_type_for target ∈ TERMINAL_EVENTS)) with false by (by destruct target).
    by rewrite andb_false_r, app_nil_r.
Qed.

(** A stream whose end has not been written, and one whose end has. *)
Definition unended (job_id : string) (s : Store) : Prop := frames job_id s = [] /\ is_Some (jobs (s_world s) !! job_id).

Definition ended (job_id : string) (s : Store) : Prop :=
  exists e j, frames job_id s = [e] /\ jobs (s_world s) !! job_id = Some j /\ is_terminal (j_state j) = true /\
    ev_event_type e ∈ TERMINAL_EVENTS /\ (ev_event_type e = "result" -> j_state j = COMPLETED).

Lemma unended_quiet job_id s s' : quiet job_id s s' -> unended job_id s -> unended job_id s'.
Proof.
  intros [[Hj _] Hf] [He [j Hs]]. split; [congruence|]. destruct (Hj j Hs) as (j' & Hj' & _). by exists j'.
Qed.

Lemma ended_quiet job_id s s' : quiet job_id s s' -> ended job_id s -> ended job_id s'.
Proof.
  intros [[Hj _] Hf] (e & j & He & Hs & Ht & Hty & Hres). destruct (Hj j Hs) as (j' & Hj' & _ & _ & Hst).
  apply (terminal_rtc _ _ Ht) in Hst. exists e, j'. rewrite Hf, Hst. by split_and!.
Qed.

(** The terminal frame of a terminal job ends its stream. *)
Lemma ended_event job_id ty s s' j :
  frames job_id s = [] -> one_event job_id ty s s' -> jobs (s_world s') !! job_id = Some j -> is_terminal (j_state j) = true ->
  ty ∈ TERMINAL_EVENTS -> (ty = "result" -> j_state j = COMPLETED) -> ended job_id s'.
Proof.
  intros Hf He Hj Ht Hty Hres. destruct (one_event_frames _ _ _ _ He) as (e & Hfr & <-). exists e, j.
  rewrite Hfr, Hf, bool_decide_eq_true_2 by done. by split_and!.
Qed.

Section settling.
Context `{Externals} `{Wire} `{Profiles} `{Classification} `{Rack} `{Prompts} `{TextTools} `{ErrorText}.
Context (ASSISTANT : Role) (refusal : Call -> option exn) (payload_of : Explanation.Explanation -> list (string * json)).

(** [_backstop] ends a stream, and leaves an ended one as it is. *)
Lemma backstop_ends job_id message completed now s :
  unended job_id s \/ ended job_id s ->
  exists s', store_write (backstop_write job_id message completed now) s = (s', Ok tt) /\ ended job_id s'.
Proof.
  unfold store_write, backstop_write. rewrite bind_get. cbn [x_tx t_jobs t_writer].
  change (wr_rows (begin_write (ev (s_world s)))) with (st_rows (ev (s_world s))). fold (frames job_id s).
  intros [[Hf [j Hj]]|(e & j & Hf & Hj & Ht & Hty & Hres)]; rewrite Hf.
  - rewrite Hj. destruct (is_terminal (j_state j)) eqn:Et; cbn -[assign_all]; eexists; (split; [reflexivity|]);
      (eapply (ended_event _ "error"); [exact Hf|eexists; split_and!; reflexivity|cbn -[assign_all]|..]).
    1: exact Hj. 4: apply lookup_insert_eq. all: first [exact Et|reflexivity|set_solver|done].
  - eexists. split; [reflexivity|]. exists e, j. by split_and!.
Qed.

Lemma backstop_wp job_id message (Post : result unit -> Store -> list (Obs Store Answer) -> Prop) s tr :
  unended job_id s \/ ended job_id s -> (forall s' tr', ended job_id s' -> Post (Ok tt) s' tr') ->
  Dialogue.wp (quiet job_id) (backstop job_id message) Post s tr.
Proof.
  intros Hs Hpost. unfold backstop, put. apply wp_bind, (wp_ask (Ans := Answer) _ Now). intros completed.
  apply wp_bind, (wp_ask (Ans := Answer) _ Now). intros now. apply wp_act. intros s1 Hq.
  destruct (backstop_ends job_id message completed now s1) as (s2 & -> & He).
  { destruct Hs; [left; by eapply unended_quiet|right; by eapply ended_quiet]. }
  by apply Hpost.
Qed.

(** A row that was answered has an ended stream. *)
Lemma answered_ended job_id outcome records s s' :
  answered (quiet job_id) job_id outcome records s s' -> unended job_id s -> ended job_id s'.
Proof.
  intros (s1 & j & j' & now & Hq & Hj & Hjobs & Hst & _ & _ & _ & _ & _ & He & _) Hu.
  destruct (unended_quiet _ _ _ Hq Hu) as [Hf _].
  eapply ended_event; [exact Hf|exact He|by rewrite Hjobs, lookup_insert_eq|rewrite Hst; by destruct outcome| |rewrite Hst; by destruct outcome].
  destruct outcome; set_solver.
Qed.

Lemma drive_wp job_id request context s :
  reserved job_id s -> unended job_id s ->
  Dialogue.wp (quiet job_id) (drive ASSISTANT refusal payload_of job_id request context)
    (fun r s' _ => r = Ok tt /\ ended job_id s') s [].
Proof.
  intros Hres Hu. unfold drive. apply wp_finally.
  apply (wp_mono _ _ (fun r s' _ => r = Ok tt /\ (unended job_id s' \/ ended job_id s'))).
  { intros r s' tr' [-> Hs]. by apply backstop_wp. }
  apply wp_catch, wp_bind. eapply wp_mono; [|apply execute_wp; [apply _|done]]. intros [o|e] s' tr'; cbn [settles].
  - intros (_ & Ha & _). split; [done|]. right. by eapply answered_ended.
  - intros Hs. assert (Hs' : unended job_id s' \/ ended job_id s').
    { destruct Hs as [[records Ha]|[Hq _]]; [right; by eapply answered_ended|left; by eapply unended_quiet]. }
    destruct (exn_code e); [by split|]. apply backstop_wp; [done|]. intros s2 tr2 He. split; [done|by right].
Qed.
End settling.

(** ** Lemmas: the reservation writes no event *)

Definition silent {A} (p : prog World A) : Prop := forall w, st_rows (ev (p w).1) = st_rows (ev w).

Lemma silent_bind {A B} (p : prog World A) (f : A -> prog World B) : silent p -> (forall a, silent (f a)) -> silent (p ≫= f).
Proof.
  intros Hp Hf w. rewrite prog_bind_run. specialize (Hp w). destruct (p w) as [w' [a|e]]; cbn in *; [|done].
  by rewrite Hf.
Qed.

Lemma silent_get {B} (f : World -> prog World B) : (forall w0, silent (f w0)) -> silent (get ≫= f).
Proof. intros Hf w. rewrite bind_get. apply Hf. Qed.

Lemma silent_pure {A} (r : result A) : silent (fun w => (w, r)).
Proof. done. Qed.

Lemma silent_catch {A} (p h : prog World A) : silent p -> silent h -> silent (catch_integrity p h).
Proof.
  intros Hp Hh w. unfold catch_integrity. specialize (Hp w). destruct (p w) as [w' [a|e]]; cbn in *; [done|].
  destruct e; try done. by rewrite Hh.
Qed.

Lemma silent_insert id j : silent (db_insert id j).
Proof. intros w. unfold db_insert. by destruct (insert_clash id j (jobs w)). Qed.

Lemma silent_draw `{Externals} : silent draw_id.
Proof. done. Qed.

Lemma silent_existing source key now : silent (existing_job_for_key source key now).
Proof.
  apply silent_get. intros w0. destruct (select_jobs _ _) as [|[id j] ?]; [apply silent_pure|].
  destruct (j_idempotency_expires_at j) as [t|]; [|apply silent_pure]. destruct (t <=? now); [|apply silent_pure].
  apply silent_bind; [done|]. intros. apply silent_pure.
Qed.

Lemma silent_reserve `{Externals} `{Wire} r now ttl : silent (reserve_sync_job r now ttl).
Proof.
  unfold reserve_sync_job. apply silent_get. intros w0. apply silent_bind; [apply silent_pure|]. intros profile.
  apply silent_bind; [destruct (g_idempotency_key r); [apply silent_existing|apply silent_pure]|].
  intros [[id st]|]; [apply silent_pure|]. apply silent_bind; [apply silent_draw|]. intros id. apply silent_bind.
  - apply silent_catch; apply silent_bind; [apply silent_insert|done|apply silent_existing|by intros [o|]].
  - intros [[i st]|]; apply silent_pure.
Qed.

(** A reservation of a new job leaves it ready to run, with nothing streamed yet. *)
Lemma reserve_ready `{Externals} `{Wire} `{Profiles} request now ttl s w1 id st :
  reserve request now ttl (s_world s) = (w1, Ok (mkReserved id true st)) -> unattempted id (s_attempts s) -> frames id s = [] ->
  st = EXECUTING /\ reserved id (mkStore w1 (s_attempts s) (s_decisions s)) /\ unended id (mkStore w1 (s_attempts s) (s_decisions s)).
Proof.
  unfold reserve. intros Hr Hu Hf. destruct (Generation.transcript request) as [turns|e].
  - assert (Hst : st = EXECUTING).
    { revert Hr. unfold reserve_sync_job. rewrite bind_get, bind_lift. destruct (load_task_profile _ _); [|done].
      rewrite prog_bind_run. match goal with |- context [let '(_, _) := ?m in _] => destruct m as [w2 [[[i x]|]|]] end; [done| |done].
      rewrite prog_bind_run. destruct (draw_id w2) as [w3 [i|]]; [|done]. rewrite prog_bind_run.
      match goal with |- context [let '(_, _) := ?m in _] => destruct m as [w4 [[[? x]|]|]] end; [done| |done]. by intros [=]. }
    subst st. split; [done|]. pose proof (silent_reserve (reservation_of request turns) now ttl (s_world s)) as Hs. rewrite Hr in Hs.
    destruct (reserve_created _ _ _ _ _ _ Hr) as [profile Hj]. split; split; cbn [s_world s_attempts]; [by eexists|done| |by eexists].
    unfold frames. cbn [s_world fst] in *. by rewrite Hs.
  - exfalso. revert Hr. rewrite bind_get, bind_lift. destruct (load_task_profile _ _); [|done]. rewrite prog_bind_run.
    match goal with |- context [let '(_, _) := ?m in _] => destruct m as [w2 [[[i x]|]|]] end; done.
Qed.

(** ** Lemmas: transcripts *)

(** ModelRack's values are immutable: an attribute is the argument it was given. *)
Class WireReads `{Wire} : Prop := {
  role_reads v r : Role_of v = Ok r -> role_value r = v;
  call_reads i n a raw c : make_call i n a raw = Ok c ->
    call_id c = i /\ call_name c = n /\ call_arguments c = a /\ call_raw_arguments c = raw;
  message_reads r content i calls m : make_message r content i calls = Ok m ->
    msg_role m = r /\ msg_content m = content /\ msg_tool_call_id m = i /\ msg_tool_calls m = calls
}.

#[export] Instance sample_wire_reads : @WireReads sample_wire.
Proof. split; cbn; [by intros v r [= ->]|by intros i n a raw c [= <-]|by intros r content i calls m [= <-]]. Qed.

Lemma map_result_Forall2 {A B} (f : A -> result B) l k : map_result f l = Ok k -> Forall2 (fun x y => f x = Ok y) l k.
Proof.
  revert k. induction l as [|x l IH]; intros k; cbn; [by intros [= <-]|].
  intros (y & Hy & (ys & Hys & [= <-])%bind_Ok_inv)%bind_Ok_inv. constructor; auto.
Qed.

Section transcripts.
Context `{WireReads}.

(** A call, and a turn, carried over as written. *)
Definition call_carried (b : ToolCallBody) (c : ToolCall) : Prop :=
  call_id c = tc_id b /\ call_name c = tc_name b /\
  match tc_arguments b with
  | inl arguments => call_arguments c = arguments /\ call_raw_arguments c = None
  | inr raw => call_arguments c = [] /\ call_raw_arguments c = Some raw
  end.

Definition turn_carried (b : MessageBody) (m : Message) : Prop :=
  role_value (msg_role m) = mb_role b /\ msg_content m = mb_content b /\ msg_tool_call_id m = mb_tool_call_id b /\
  Forall2 call_carried (default [] (mb_tool_calls b)) (msg_tool_calls m).

(** The ids the turns request. *)
Definition requested (turns : list MessageBody) : list string := flat_map (fun b => map tc_id (default [] (mb_tool_calls b))) turns.

(** A tool result answers a call of an earlier turn. *)
Definition answers_earlier (before : list MessageBody) (b : MessageBody) : Prop :=
  mb_role b = "tool" -> exists id, mb_tool_call_id b = Some id /\ id ∈ requested before.

Lemma call_of_body_carried b c : call_of_body b = Ok c -> call_carried b c.
Proof.
  unfold call_of_body, call_carried. destruct (tc_arguments b) as [arguments|raw]; intros (-> & -> & -> & ->)%call_reads; by split_and!.
Qed.

Lemma tool_calls_of_carried b calls : tool_calls_of b = Ok calls -> Forall2 call_carried (default [] (mb_tool_calls b)) calls.
Proof.
  unfold tool_calls_of. destruct (mb_tool_calls b) as [l|]; cbn; [|intros [= <-]; constructor].
  intros Hm%map_result_Forall2. eapply Forall2_impl; [exact Hm|]. apply call_of_body_carried.
Qed.

Lemma carried_ids l calls : Forall2 call_carried l calls -> map call_id calls = map tc_id l.
Proof. induction 1 as [|b c l calls (Hid & _) _ IH]; cbn; [done|]. by rewrite Hid, IH. Qed.

Lemma turn_of_ok index offered b m offered' :
  turn_of index offered b = Ok (m, offered') ->
  turn_carried b m /\ offered' = offered ++ map tc_id (default [] (mb_tool_calls b)) /\
  (mb_role b = "tool" -> exists id, mb_tool_call_id b = Some id /\ id ∈ offered).
Proof.
  unfold turn_of. intros (calls & Hc & Hrest)%bind_Ok_inv. apply tool_calls_of_carried in Hc.
  destruct (role ← Role_of (mb_role b); make_message role _ _ calls) as [m0|e] eqn:Em; [|by apply bind_Ok_inv in Hrest as (? & ? & _)].
  rewrite bind_Ok in Hrest. apply bind_Ok_inv in Hrest as (u & Hg & [= <- <-]). unfold guard_raise in Hg.
  apply bind_Ok_inv in Em as (role & Hrole%role_reads & (Hr & Hct & Hid & Hcalls)%message_reads).
  split; [split_and!; [congruence|done|done|by rewrite Hcalls]|]. split; [by rewrite (carried_ids _ _ Hc)|].
  intros Htool. rewrite bool_decide_eq_true_2 in Hg by done. cbn [andb] in Hg.
  destruct (mb_tool_call_id b) as [id|]; [|done]. exists id. split; [done|]. destruct (bool_decide_reflect (id ∈ offered)); [done|discriminate Hg].
Qed.

Lemma requested_snoc before b : requested (before ++ [b]) = requested before ++ map tc_id (default [] (mb_tool_calls b)).
Proof. unfold requested. rewrite flat_map_app. cbn [flat_map]. by rewrite app_nil_r. Qed.

(** The transcript that is accepted, and the turn the first refusal names. *)
Lemma turns_of_ok before index ms turns :
  turns_of index (requested before) turns = Ok ms ->
  Forall2 turn_carried turns ms /\ (forall k b, turns !! k = Some b -> answers_earlier (before ++ take k turns) b).
Proof.
  revert before index ms. induction turns as [|b turns IH]; intros before index ms; cbn [turns_of].
  { intros [= <-]. split; [constructor|done]. }
  intros ([m offered'] & Ht & (ms' & Hms & [= <-])%bind_Ok_inv)%bind_Ok_inv.
  apply turn_of_ok in Ht as (Hc & -> & Hans). specialize (IH (before ++ [b]) (S index) ms').
  rewrite requested_snoc in IH.
  destruct (IH Hms) as [HF Hk]. split; [by constructor|]. intros [|k] b' Hb; cbn in Hb.
  - injection Hb as <-. cbn [take]. by rewrite app_nil_r.
  - cbn [take]. specialize (Hk k b' Hb). by rewrite <- app_assoc in Hk.
Qed.

Lemma turns_of_raise before index e turns :
  turns_of index (requested before) turns = Raise e ->
  exists k b ms, turns !! k = Some b /\ turns_of index (requested before) (take k turns) = Ok ms /\
    turn_of (index + k) (requested (before ++ take k turns)) b = Raise e.
Proof.
  revert before index. induction turns as [|b turns IH]; intros before index; cbn [turns_of]; [done|].
  destruct (turn_of index (requested before) b) as [[m offered']|e'] eqn:Et.
  2:{ rewrite bind_Raise. intros [= ->]. exists O, b, []. cbn [take]. rewrite app_nil_r, Nat.add_0_r. by split_and!. }
  rewrite bind_Ok. pose proof Et as (_ & -> & _)%turn_of_ok.
  destruct (turns_of (S index) _ turns) as [ms'|e'] eqn:Ets; [by rewrite bind_Ok|]. rewrite bind_Raise. intros [= ->].
  specialize (IH (before ++ [b]) (S index)). rewrite requested_snoc in IH. destruct (IH Ets) as (k & b' & ms & Hk & Hms & Ht).
  exists (S k), b', (m :: ms). split; [done|]. cbn [take turns_of]. rewrite Et, bind_Ok, Hms. split; [done|].
  rewrite <- app_assoc in Ht. cbn [app] in Ht. by replace (index + S k)%nat with (S index + k)%nat by lia.
Qed.

(** What a refused turn is refused for. *)
Lemma turn_of_raise index offered b e :
  turn_of index offered b = Raise e ->
  tool_calls_of b = Raise e \/
  (exists calls e0, tool_calls_of b = Ok calls /\ (role ← Role_of (mb_role b); make_message role (mb_content b) (mb_tool_call_id b) calls) = Raise e0 /\
     e = if is_validation_error e0 then refused index (field_of e0) else e0) \/
  (mb_role b = "tool" /\ (forall id, mb_tool_call_id b = Some id -> id ∉ offered) /\ e = refused index "tool_call_id").
Proof.
  unfold turn_of. destruct (tool_calls_of b) as [calls|e0]; [|rewrite bind_Raise; intros [= ->]; by left].
  rewrite bind_Ok. destruct (role ← Role_of (mb_role b); make_message role _ _ calls) as [m|e0] eqn:Em.
  - cbv iota. rewrite bind_Ok. unfold guard_raise. destruct (bool_decide_reflect (mb_role b = "tool")) as [Ht|]; cbn [andb]; [|done].
    destruct (mb_tool_call_id b) as [id|].
    + destruct (bool_decide_reflect (id ∈ offered)); cbn [negb]; [done|]. rewrite bind_Raise. intros [= <-]. right; right.
      split_and!; [done| |done]. by intros ? [= <-].
    + cbn [negb]. rewrite bind_Raise. intros [= <-]. right; right. by split_and!.
  - cbv iota. rewrite bind_Raise. intros [= <-]. right; left. by exists calls, e0.
Qed.
End transcripts.

(** ** Lemmas: from a body to the worker *)

Section queued.
Context `{Profiles} `{WireLaws} `{!WireReads} `{Classification} (profile_to_wire : Subject.RuntimeProfile -> Submission.RuntimeProfile).

Lemma carried_call_ok b c : call_carried b c -> call_ok c.
Proof. intros (_ & _ & Hc). destruct (tc_arguments b); destruct Hc as [Ha Hr]; [by left|by right]. Qed.

Lemma carried_message_ok b m : turn_carried b m -> message_ok m.
Proof. intros (_ & _ & _ & Hc). unfold message_ok. induction Hc; constructor; [by eapply carried_call_ok|done]. Qed.

Lemma plain_message_ok role content m : make_message role content None [] = Ok m -> message_ok m.
Proof. intros (_ & _ & _ & Hm)%message_reads. unfold message_ok. rewrite Hm. constructor. Qed.

(** Every transcript a body resolves to can be stored and read back. *)
Lemma body_transcript_ok jb source s turns :
  submission profile_to_wire jb source = Ok s -> Submission.transcript s = Ok turns -> Forall message_ok turns.
Proof.
  unfold submission. intros (msgs & Hm & [= <-])%bind_Ok_inv. unfold Submission.transcript. cbn.
  unfold messages_of in Hm. destruct (gb_messages (jb_body jb)) as [l|].
  - apply bind_Ok_inv in Hm as (ms & Ht & [= <-]). intros [= <-]. apply (turns_of_ok []) in Ht as [HF _].
    induction HF; constructor; [by eapply carried_message_ok|done].
  - injection Hm as <-. intros (sys & Hs & (user & Hu & [= <-])%bind_Ok_inv)%bind_Ok_inv. apply Forall_app. split.
    + destruct (gb_system (jb_body jb)); [|by injection Hs as <-; constructor]. apply bind_Ok_inv in Hs as (m & Hm & [= <-]).
      constructor; [by eapply plain_message_ok|constructor].
    + constructor; [by eapply plain_message_ok|constructor].
Qed.

(** The job of a body without a runtime profile is decoded by the worker with the body's transcript and none of its tools. *)
Lemma queued_body jb source s turns prio wait :
  submission profile_to_wire jb source = Ok s -> Submission.transcript s = Ok turns ->
  (forall o, gb_overrides (jb_body jb) = Some o -> ob_runtime_profile o = None) ->
  exists payload, as_request_json s = Ok payload /\
    from_request_json payload (sub_job_class s) prio wait (sub_idempotent s) (sub_idempotency_key s) (sub_source s) = Ok (resolved s turns prio wait) /\
    tools (resolved s turns prio wait) = [].
Proof.
  intros Hs Ht Hp. destruct (request_json_reads_back s turns) as (payload & Hj & _ & Hr).
  - unfold submission_ok. split; [done|]. split; [by eapply body_transcript_ok|]. unfold submission in Hs.
    apply bind_Ok_inv in Hs as (msgs & _ & [= <-]). split; [constructor|]. cbn. intros ov p Hov Hpr.
    destruct (gb_overrides (jb_body jb)) as [o|]; [|done]. cbn in Hov. injection Hov as <-. cbn in Hpr. by rewrite (Hp o) in Hpr.
  - exists payload. split; [done|]. split; [apply Hr|]. unfold submission in Hs. by apply bind_Ok_inv in Hs as (msgs & _ & [= <-]).
Qed.
End queued.

(** The same body run at once asks routing for a model with tools; queued, it does not. *)
Lemma queued_job_needs_no_tools `{Wire} `{Profiles} profile_to_wire jb source request s :
  to_request (jb_body jb) source false = Ok request -> submission profile_to_wire jb source = Ok s ->
  forall turns rq, gr_tools request <> [] -> route_request request turns = Ok rq -> rq_require_capabilities rq = ["tool_use"] /\ tools s = [].
Proof.
  intros Hr Hs turns rq Ht Hrq. split.
  - unfold route_request in Hrq. apply bind_Ok_inv in Hrq as (tokens & _ & [= <-]). by destruct (gr_tools request).
  - unfold submission in Hs. by apply bind_Ok_inv in Hs as (msgs & _ & [= <-]).
Qed.

(** ** A concrete installation *)

(** A request for the profile of [QueueStore.sample_world]; the provider answers at once. *)
Definition chat_request : @Generation.GenerateRequest sample_wire plain_profiles :=
  @mkGenerate sample_wire plain_profiles "chat" None (Some "hello") None None [] None [] None "cli" (Some "k") true.

Definition empty_state : Store := mkStore (QueueStore.sample_world ∅) [] {["d1" := None]}.

Definition sample_reserve := @reserve sample_externals sample_wire plain_profiles chat_request 5 fone.

Definition sample_drive :=
  @drive sample_externals sample_wire plain_profiles sample_classification sample_rack sample_prompts Execution.sample_text sample_errors
    "assistant" (fun _ => None) (fun _ => []) "0" chat_request (@mkContext sample_rack "rack" ∅ None true).

Definition sample_turn (role : string) (id : option string) (calls : option (list ToolCallBody)) : MessageBody := mkMessageBody role "x" id calls.

Definition sample_body (turns : list MessageBody) : GenerateBody := mkBody "chat" None None (Some turns) None [] None None None None.

Lemma sample_reserves : (sample_reserve (s_world empty_state)).2 = Ok (mkReserved "0" true EXECUTING).
Proof. vm_compute. reflexivity. Qed.

Module Properties.



(** C37: Every stream ends, once. Whatever the clock, routing, the provider and the breakers answer, and whatever the rest of the program does
    to the job meanwhile short of writing its terminal frames, the thread behind a newly reserved POST /generate/stream comes to its end
    without an exception, leaves exactly one terminal frame among the job's events, and leaves the job terminal, completed when
    that frame is a [result]. *)
Theorem stream_settles `{Externals} `{Wire} `{Profiles} `{Classification} `{Rack} `{Prompts} `{TextTools} `{ErrorText}
    (ASSISTANT : Role) (refusal : Call -> option exn) (payload_of : Explanation.Explanation -> list (string * json))
    (request : Generation.GenerateRequest) (context : ExecutionContext) (job_id : string) (now : Z) (ttl_hours : f64) (state : JobState)
    (s : Store) (w : World) (s' : Store) (tr : list (Obs Store Answer)) (o : Ending unit) :
  reserve request now ttl_hours (s_world s) = (w, Ok (mkReserved job_id true state)) ->
  unattempted job_id (s_attempts s) -> frames job_id s = [] ->
  runs (quiet job_id) (drive ASSISTANT refusal payload_of job_id request context) (mkStore w (s_attempts s) (s_decisions s)) tr s' o ->
  o = Done (Ok tt) /\
  exists e j, frames job_id s' = [e] /\ jobs (s_world s') !! job_id = Some j /\ is_terminal (j_state j) = true /\
    (ev_event_type e = "result" \/ ev_event_type e = "error") /\ (ev_event_type e = "result" -> j_state j = COMPLETED).
Proof.
  intros Hr Hu Hf Hrun. destruct (reserve_ready _ _ _ _ _ _ _ Hr Hu Hf) as (_ & Hres & Hopen).
  destruct (wp_sound _ _ _ _ [] _ _ _ (drive_wp ASSISTANT refusal payload_of job_id request context _ Hres Hopen) Hrun)
    as (r & -> & -> & e & j & He & Hj & Ht & Hty & Hc).
  split; [done|]. exists e, j. split_and!; try done. apply elem_of_cons in Hty as [Hty|Hty]; [by right|left; set_solver].
Qed.

Lemma stream_settles_witness : exists s' e, frames "0" s' = [e] /\ (ev_event_type e = "result" \/ ev_event_type e = "error").
Proof.
  destruct (sample_reserve (s_world empty_state)) as [w r] eqn:Er.
  pose proof sample_reserves as Hr. rewrite Er in Hr. cbn [snd] in Hr. subst r.
  destruct (play sample_answers 0 sample_drive (mkStore w [] {["d1" := None]})) as [[tr s'] o] eqn:E.
  pose proof (play_runs (quiet "0") _ _ _ _ _ _ _ (fun w => reflexivity w) E) as Hruns.
  destruct (stream_settles (H := sample_externals) (H0 := sample_wire) (H1 := plain_profiles) (H2 := sample_classification)
    (H3 := sample_rack) (H4 := sample_prompts) (H5 := Execution.sample_text) (H6 := sample_errors) "assistant" (fun _ => None) (fun _ => [])
    chat_request (@mkContext sample_rack "rack" ∅ None true) "0" 5 fone EXECUTING empty_state w s' tr o Er) as (_ & e & j & He & _ & _ & Hty & _).
  - clear. intros x Hx. by apply not_elem_of_nil in Hx.
  - reflexivity.
  - exact Hruns.
  - clear E Hruns. by exists s', e.
Defined.
End Properties.
