(* ===== verification/Jobs.v ===== *)
(** * Reading jobs ([services/queue.py], [web/routes/jobs.py])

    The document of one job, which GET /jobs/{id} returns and a repeated idempotency key is answered with, and
    the filtered, cursor-paginated listing of GET /jobs. *)

From Stdlib Require Import Ascii String.
From S2P Require Import Prelude PyFloat PyStr Json Telemetry QueueState Priority Ordering Authorization ContextBudget JobEvents Submission RetryPolicy Subject Scoring Constraints Ranking TaskProfile Explanation Routing QueueStore Queue QueueTheory Recovery QueueSystem Validation Dialogue Generation Execution Retention.
#[local] Open Scope string_scope.
#[local] Open Scope list_scope.
#[local] Open Scope Z_scope.

(** ** The tables a document is read from *)

Record AdapterRef := mkAdapterRef { ad_id : string; ad_name : string; ad_artifact_sha256 : string }.

(** A row of [routing_decisions], as far as a document reads it. *)
Record DecisionRef := mkDecisionRef {
  dr_id : string; dr_job_id : option string; dr_requested_at : Z; dr_selected_score : option f64; dr_flags : list string
}.

Record Tables := mkTables {
  tb_store : Execution.Store;
  tb_adapters : list AdapterRef;
  tb_decisions : list DecisionRef;
  tb_feedback : gmap string (list json)
}.

(** A column of [jobs] the queue does not read; NULL when it was never written. *)
Definition column (name : string) (j : Job) : json := default JNull (j_other j !! name).

(** [x or y]. *)
Definition or_else (x y : json) : json := if truthy x then x else y.

Section documents.
Context `{Externals} `{TextTools} `{Prompts}.
(** [order_by(Validation.id)]: the rows of one attempt in the order of their ids. *)
Context (by_id : list ValidationRow -> list ValidationRow).

Definition stamp (t : option Z) : json := match t with Some t => JStr (to_rfc3339 t) | None => JNull end.

Definition attempts_of (job_id : string) (t : Tables) : list AttemptRow :=
  py_sorted (leb_of (cmp_on at_attempt Z.compare))
    (List.filter (fun a => bool_decide (at_job_id a = job_id)) (s_attempts (tb_store t))).

(** [order_by(requested_at.desc()).limit(1)]. *)
Definition decision_of (job_id : string) (t : Tables) : option DecisionRef :=
  head (py_sorted (fun x y => dr_requested_at y <=? dr_requested_at x)
    (List.filter (fun d => bool_decide (dr_job_id d = Some job_id)) (tb_decisions t))).

Definition canonical_of (model_id : string) (t : Tables) : option string :=
  snd <$> head (List.filter (fun m => bool_decide (m.1 = model_id)) (model_rows (s_world (tb_store t)))).

Definition check_row_json (r : ValidationRow) : json :=
  JObj [("kind", JStr (vr_kind r)); ("passed", JBool (vr_passed r));
        ("detail", match detail_json (vr_detail r) with JObj l => JObj l | _ => JObj [] end)].

(** [record.x if record.x is not None else "unsupported"]. *)
Definition or_unsupported (v : json) : json := match v with JNull => JStr "unsupported" | _ => v end.

(** [record.tool_calls or []]. *)
Definition fragments_of (j : Job) : list (list (string * json)) :=
  match column "tool_calls_json" j with
  | JArr l => omap (fun x => match x with JObj o => Some o | _ => None end) l
  | _ => []
  end.

Definition output_document (j : Job) (last_attempt : option AttemptRow) : json :=
  JObj [("text", column "response_text" j);
        ("finish_reason", Subject.jstr_opt (last_attempt ≫= fun a => ar_finish_reason (at_record a)));
        ("structured", column "structured_output_json" j);
        ("tool_calls", or_else (column "tool_calls_json" j) (JArr []));
        ("tool_calls_assembled", JArr (assemble_tool_calls (fragments_of j)))].

Definition reasoning_document (j : Job) : json :=
  JObj [("available", column "reasoning_available" j); ("summary", column "reasoning_summary" j);
        ("source", if truthy (column "reasoning_available" j) then JStr "provider" else JNull)].

Definition usage_document (j : Job) : json :=
  JObj (map (fun c => (c, or_unsupported (column c j)))
    ["input_tokens"; "output_tokens"; "cache_write_tokens"; "cache_read_tokens"; "thinking_tokens"]).

Definition timing_document (j : Job) : json :=
  JObj (map (fun c => (c, column c j)) ["total_ms"; "provider_ms"; "loadcoach_overhead_ms"; "ttft_ms"; "queue_wait_ms"]).

Definition validation_document (j : Job) (attempts : list AttemptRow) : json :=
  JObj [("performed", JBool (match column "validation_passed" j with JNull => false | _ => true end));
        ("passed", column "validation_passed" j); ("attempts", JInt (Z.of_nat (length attempts)));
        ("checks", JArr (match last attempts with Some a => map check_row_json (by_id (at_validations a)) | None => [] end))].

Definition model_document (j : Job) (last_attempt : option AttemptRow) (t : Tables) : json :=
  let canonical := Subject.jstr_opt (j_selected_model_id j ≫= fun m => canonical_of m t) in
  let adapter := a ← last_attempt; id ← ar_adapter_id (at_record a);
                 row ← head (List.filter (fun x => bool_decide (ad_id x = id)) (tb_adapters t)); Some (a, row) in
  JObj [("canonical_id", canonical);
        ("subject_canonical_id", or_else (column "selected_subject_canonical_id" j) canonical);
        ("model_ref", Subject.jstr_opt (j_selected_model_id j));
        ("adapter", match adapter with
                    | None => JNull
                    | Some (a, row) =>
                        JObj [("name", JStr (ad_name row)); ("adapter_ref", JStr (ad_id row));
                              ("artifact_digest", JStr (ad_artifact_sha256 row));
                              ("data_classification", Subject.jstr_opt (ar_adapter_data_classification (at_record a)));
                              ("effective_data_classification", Subject.jstr_opt (ar_effective_data_classification (at_record a)))]
                    end);
        ("runtime_profile_hash", column "runtime_profile_hash" j); ("served_context", column "served_context" j);
        ("served_context_source", column "served_context_source" j); ("target_gpu_index", jint_opt (j_target_gpu_index j))].

Definition attempt_document (t : Tables) (a : AttemptRow) : json :=
  let r := at_record a in
  JObj [("attempt", JInt (at_attempt a)); ("model", Subject.jstr_opt (canonical_of (ar_model_id r) t));
        ("runtime_profile_hash", JStr (ar_runtime_profile_hash r)); ("rank", JInt (ar_rank r)); ("outcome", JStr (ar_outcome r));
        ("provider_ms", JInt (ar_provider_ms r)); ("ttft_ms", jint_opt (ar_ttft_ms r)); ("error_code", Subject.jstr_opt (ar_error_code r));
        ("started_at", stamp (Some (ar_started_at r))); ("completed_at", stamp (Some (ar_completed_at r)));
        ("prompt_id", Subject.jstr_opt (fst ∘ fst <$> ar_prompt r)); ("prompt_version", Subject.jstr_opt (snd ∘ fst <$> ar_prompt r));
        ("prompt_sha256", Subject.jstr_opt (snd <$> ar_prompt r))].

(** [job_document]. *)
Definition job_document (job_id : string) (t : Tables) : result (list (string * json)) :=
  j ← get_job job_id (s_world (tb_store t));
  scrubbed ← match j_request_json j with JNull => Ok JNull | request => py_get request SCRUBBED_MARKER end;
  let attempts := attempts_of job_id t in
  let decision := decision_of job_id t in
  Ok [("job_id", JStr job_id); ("status", JStr (state_value (j_state j))); ("state", JStr (state_value (j_state j)));
      ("state_reason", Subject.jstr_opt (j_state_reason j)); ("class", JStr (class_value (j_job_class j)));
      ("priority", JObj [("base", JInt (j_base_priority j)); ("effective", JInt (j_effective_priority j))]);
      ("source", JStr (j_source j));
      ("task", JObj [("id", JStr (j_task_profile_id j)); ("version", JStr (j_task_profile_version j))]);
      ("idempotent", JBool (j_idempotent j)); ("idempotency_key", Subject.jstr_opt (j_idempotency_key j));
      ("cancel_requested", JBool (j_cancel_requested j)); ("max_wait_seconds", jint_opt (j_max_wait_seconds j));
      ("lease", JObj [("owner", Subject.jstr_opt (j_lease_owner j)); ("expires_at", stamp (j_lease_expires_at j))]);
      ("timestamps", JObj [("created_at", stamp (Some (j_created_at j))); ("queued_at", stamp (j_queued_at j));
                           ("scheduled_for", stamp (j_scheduled_for j)); ("started_at", stamp (j_started_at j));
                           ("completed_at", stamp (j_completed_at j))]);
      ("output", output_document j (last attempts)); ("reasoning", reasoning_document j);
      ("model", model_document j (last attempts) t);
      ("routing", JObj [("decision_id", Subject.jstr_opt (dr_id <$> decision));
                        ("final_score", match decision ≫= dr_selected_score with Some f => JFloat f | None => JNull end);
                        ("flags", JArr (map JStr (default [] (dr_flags <$> decision))));
                        ("explanation_url", JStr ("/api/v1/jobs/" +:+ job_id +:+ "/explanation"))]);
      ("usage", usage_document j); ("timing", timing_document j); ("validation", validation_document j attempts);
      ("retention", JObj [("content_scrubbed_at", scrubbed)]); ("feedback", JArr (default [] (tb_feedback t !! job_id)));
      ("attempts", JArr (map (attempt_document t) attempts)); ("attempt", JInt (j_attempt j));
      ("max_attempts", JInt (j_max_attempts j)); ("degradations", or_else (column "degradations_json" j) (JArr []));
      ("error", match j_error_code j with
                | None => JNull
                | Some code => JObj [("code", JStr code); ("message", Subject.jstr_opt (j_error_text j))]
                end)].
End documents.

(** ** The listing *)

(** The filters of GET /jobs. *)
Record JobQuery := mkJobQuery {
  jq_states : option (list JobState);
  jq_class : option JobClass;
  jq_task : option string;
  jq_source : option string
}.

Definition job_admits (q : JobQuery) (j : Job) : bool :=
  match jq_states q with None => true | Some l => bool_decide (j_state j ∈ l) end &&
  match jq_class q with None => true | Some c => bool_decide (j_job_class j = c) end &&
  match jq_task q with None => true | Some t => bool_decide (j_task_profile_id j = t) end &&
  match jq_source q with None => true | Some s => bool_decide (j_source j = s) end.

(** [order_by(created_at.desc(), id.desc())]. *)
Definition listing_key (r : string * Job) : Z * string := (j_created_at r.2, r.1).
Definition newest_first : string * Job -> string * Job -> bool :=
  leb_of (cmp_on listing_key (cmp_pair (cmp_desc Z.compare) (cmp_desc String.compare))).

Definition created_before (before : option Z) (j : Job) : bool := match before with None => true | Some b => j_created_at j <? b end.

(** [list_jobs]. *)
Definition list_jobs (q : JobQuery) (limit : Z) (before : option Z) (w : World) : list (string * Job) :=
  take (Z.to_nat limit) (py_sorted newest_first (select_jobs (fun _ j => job_admits q j && created_before before j) (jobs w))).

(** [datetime.isoformat], [datetime.fromisoformat] and [base64]'s URL-safe alphabet; [None] where they raise. *)
Class CursorText := {
  isoformat : Z -> string;
  fromisoformat : string -> option Z;
  urlsafe_b64encode : string -> string;
  urlsafe_b64decode : string -> option string
}.

(** They invert each other; an instant is written without a bar. *)
Class CursorTextLaws `{CursorText} : Prop := {
  fromisoformat_isoformat t : fromisoformat (isoformat t) = Some t;
  isoformat_no_bar t : "|"%char ∉ list_ascii_of_string (isoformat t);
  b64_round s : urlsafe_b64decode (urlsafe_b64encode s) = Some s;
  b64_empty s : urlsafe_b64encode s = "" -> s = ""
}.

Section listing.
Context `{CursorText}.
(** MirrorWall's [clamp_limit(limit, maximum=...)]. *)
Context (clamp_limit : option Z -> Z -> Z).

Definition encode_cursor (created_at : Z) (job_id : string) : string := urlsafe_b64encode (isoformat created_at +:+ "|" +:+ job_id).

Definition decode_cursor (cursor : option string) : option Z :=
  match cursor with
  | None => None
  | Some c =>
      if bool_decide (c = "") then None
      else raw ← urlsafe_b64decode c; fromisoformat (partition_at "|"%char raw).1.1
  end.

Record JobPage := mkJobPage { jp_jobs : list (string * Job); jp_limit : Z; jp_has_more : bool; jp_next_cursor : option string }.

(** [get_jobs] between its checks and its documents; [page[-1]]. *)
Definition job_page (q : JobQuery) (limit : option Z) (cursor : option string) (w : World) : result JobPage :=
  let effective := clamp_limit limit 200 in
  let records := list_jobs q (effective + 1) (decode_cursor cursor) w in
  let page := take (Z.to_nat effective) records in
  let has_more := effective <? zlen records in
  next ← (if has_more then
            match last page with
            | Some (id, j) => Ok (Some (encode_cursor (j_created_at j) id))
            | None => Raise IndexError
            end
          else Ok None);
  Ok (mkJobPage page effective has_more next).

Definition parse_states (state : option string) : result (option (list JobState)) :=
  match state with
  | None => Ok None
  | Some s => l ← map_result state_of_value (List.filter (fun x => negb (bool_decide (x = ""))) (split_at ","%char s)); Ok (Some l)
  end.

(** [JobClass(value)]. *)
Definition class_of_value (v : string) : result JobClass :=
  match List.find (fun c => bool_decide (class_value c = v)) [INTERACTIVE; NORMAL; BACKGROUND; BATCH] with
  | Some c => Ok c
  | None => Raise ValueError
  end.

Definition get_jobs `{Externals} `{TextTools} `{Prompts} (by_id : list ValidationRow -> list ValidationRow) (principal : Principal)
    (state job_class task source : option string) (limit : option Z) (cursor : option string) (t : Tables)
  : result (list (list (string * json)) * JobPage) :=
  _ ← authorize (Some principal) "read";
  states ← parse_states state;
  cls ← match job_class with None => Ok None | Some v => c ← class_of_value v; Ok (Some c) end;
  page ← job_page (mkJobQuery states cls task source) limit cursor (s_world (tb_store t));
  documents ← map_result (fun r => job_document by_id r.1 t) (jp_jobs page);
  Ok (documents, page).

(** A client that follows the cursors from the first page; [None] when the fuel ends first. *)
Fixpoint walk_jobs (fuel : nat) (q : JobQuery) (limit : option Z) (cursor : option string) (w : World) : option (list (string * Job)) :=
  match fuel with
  | O => None
  | S n =>
      match job_page q limit cursor w with
      | Raise _ => None
      | Ok page =>
          match jp_next_cursor page with
          | None => Some (jp_jobs page)
          | Some c => app (jp_jobs page) <$> walk_jobs n q limit (Some c) w
          end
      end
  end.
End listing.

(** ** Lemmas: cursors *)

Lemma partition_bar s rest : "|"%char ∉ list_ascii_of_string s -> (partition_at "|"%char (s +:+ String "|" rest)).1.1 = s.
Proof.
  induction s as [|c s IH]; intros Hn; [done|]. cbn [list_ascii_of_string] in Hn. apply not_elem_of_cons in Hn as [Hc Hn].
  change (String c s +:+ String "|" rest) with (String c (s +:+ String "|" rest)). cbn [partition_at].
  destruct (Ascii.eqb_spec c "|"%char) as [->|_]; [done|]. specialize (IH Hn).
  destruct (partition_at "|"%char (s +:+ String "|" rest)) as [[h found] r]. cbn in *. by rewrite IH.
Qed.

Lemma cursor_round `{CursorTextLaws} created_at id : decode_cursor (Some (encode_cursor created_at id)) = Some created_at.
Proof.
  unfold decode_cursor, encode_cursor. rewrite bool_decide_eq_false_2.
  - rewrite b64_round. cbn [mbind option_bind]. change (isoformat created_at +:+ "|" +:+ id) with (isoformat created_at +:+ String "|" id).
    rewrite partition_bar by apply isoformat_no_bar. apply fromisoformat_isoformat.
  - intros He%b64_empty. by destruct (isoformat created_at).
Qed.

(** ** Lemmas: pages *)

(** The jobs of a query, and those created before an instant. *)
Definition matching_jobs (q : JobQuery) (w : World) : list (string * Job) :=
  py_sorted newest_first (select_jobs (fun _ j => job_admits q j) (jobs w)).

Definition older (before : option Z) (r : string * Job) : bool := created_before before r.2.

Definition newer (x y : string * Job) : Prop := newest_first x y = true.

Lemma newest_sorted l : StronglySorted newer (py_sorted newest_first l).
Proof. apply (sorted_by_key listing_key (cmp_pair (cmp_desc Z.compare) (cmp_desc String.compare))). Qed.

Lemma newer_created x y : newer x y -> j_created_at y.2 <= j_created_at x.2.
Proof.
  unfold newer, newest_first, leb_of, cmp_on, listing_key, cmp_pair, cmp_desc. cbn.
  destruct (Z.compare_spec (j_created_at y.2) (j_created_at x.2)); lia || done.
Qed.

Lemma select_keys p js : NoDup (map listing_key (select_jobs p js)).
Proof.
  pose proof (select_NoDup p js) as Hn. change (NoDup (map fst (select_jobs p js))) in Hn.
  replace (map fst (select_jobs p js)) with (map snd (map listing_key (select_jobs p js))) in Hn by (rewrite List.map_map; by apply List.map_ext).
  by apply NoDup_fmap_1 in Hn.
Qed.

Lemma select_filter p (k : string * Job -> bool) js :
  select_jobs (fun id j => p id j && k (id, j)) js = List.filter k (select_jobs p js).
Proof.
  unfold select_jobs. induction (map_to_list js) as [|[id j] l IH]; [done|]. cbn. destruct (p id j); cbn; [|exact IH].
  destruct (k (id, j)); by rewrite IH.
Qed.

Lemma filter_keeps_order {A} (R : A -> A -> Prop) (p : A -> bool) l : StronglySorted R l -> StronglySorted R (List.filter p l).
Proof.
  induction 1 as [|x l Hs IH Hx]; cbn; [constructor|]. destruct (p x); [|done]. constructor; [done|].
  rewrite Forall_forall in Hx |- *. intros y Hy. apply Hx. by apply elem_of_filter_bool in Hy as [? _].
Qed.

Lemma sorted_after {A} (R : A -> A -> Prop) a x l y : StronglySorted R (a ++ x :: l) -> y ∈ l -> R x y.
Proof.
  induction a as [|z a IH]; cbn; intros [Hs Hx]%StronglySorted_inv Hy; [|by apply IH]. rewrite Forall_forall in Hx. by apply Hx.
Qed.

(** A listing is a prefix of the matching jobs that are left. *)
Lemma list_jobs_prefix q limit before w : list_jobs q limit before w = take (Z.to_nat limit) (List.filter (older before) (matching_jobs q w)).
Proof.
  unfold list_jobs, matching_jobs. f_equal.
  rewrite (select_filter (fun _ j => job_admits q j) (older before)).
  apply (sorted_unique listing_key (cmp_pair (cmp_desc Z.compare) (cmp_desc String.compare))).
  - apply newest_sorted.
  - apply filter_keeps_order, newest_sorted.
  - rewrite py_sorted_perm. apply filter_perm. symmetry. apply py_sorted_perm.
  - enough (map listing_key (py_sorted newest_first (List.filter (older before) (select_jobs (fun _ j => job_admits q j) (jobs w))))
            ≡ₚ map listing_key (List.filter (older before) (select_jobs (fun _ j => job_admits q j) (jobs w)))) as ->.
    + rewrite <- (select_filter (fun _ j => job_admits q j) (older before)). apply select_keys.
    + apply fmap_Permutation, py_sorted_perm.
Qed.

Definition created (r : string * Job) : Z := j_created_at r.2.

(** The jobs left after a cursor. *)
Definition left_after (q : JobQuery) (before : option Z) (w : World) : list (string * Job) := List.filter (older before) (matching_jobs q w).

Section walks.
Context `{CursorTextLaws} (clamp_limit : option Z -> Z -> Z).
Hypothesis clamped : forall limit, 1 <= clamp_limit limit 200 <= 200.

Lemma job_page_spec q limit cursor w :
  let rest := left_after q (decode_cursor cursor) w in
  let n := Z.to_nat (clamp_limit limit 200) in
  exists next, job_page clamp_limit q limit cursor w = Ok (mkJobPage (take n rest) (clamp_limit limit 200) (n <? length rest)%nat next) /\
    if (n <? length rest)%nat
    then exists a x, take n rest = a ++ [x] /\ next = Some (encode_cursor (created x) x.1)
    else next = None /\ take n rest = rest.
Proof using All.
  intros rest n. pose proof (proj1 (clamped limit)) as Hl. unfold job_page. rewrite list_jobs_prefix. fold (left_after q (decode_cursor cursor) w). fold rest.
  replace (Z.to_nat (clamp_limit limit 200 + 1)) with (S n) by (unfold n; lia). fold n.
  assert (Et : take n (take (S n) rest) = take n rest) by (rewrite take_take; f_equal; lia). rewrite Et.
  assert (Hz : (clamp_limit limit 200 <? zlen (take (S n) rest)) = (n <? length rest)%nat).
  { unfold zlen. rewrite length_take. destruct (Nat.ltb_spec n (length rest)); [apply Z.ltb_lt|apply Z.ltb_ge]; lia. }
  rewrite Hz. destruct (Nat.ltb_spec n (length rest)) as [Hlt|Hge].
  - destruct (exists_last (l := take n rest)) as (a & x & Ex).
    { intros Hnil. apply (f_equal length) in Hnil. rewrite length_take in Hnil. unfold n in *. cbn in Hnil. lia. }
    rewrite Ex, last_snoc. destruct x as [id j]. eexists. split; [reflexivity|]. by exists a, (id, j).
  - eexists. split; [reflexivity|]. split; [done|]. apply take_ge. lia.
Qed.

(** After a page that ends with [x], what is left is what was created before [x]. *)
Lemma left_after_page q before w a x rest :
  left_after q before w = a ++ x :: rest ->
  left_after q (Some (created x)) w = List.filter (fun r => created r <? created x) rest.
Proof.
  intros E. assert (Hs : StronglySorted newer (a ++ x :: rest)) by (rewrite <- E; apply filter_keeps_order, newest_sorted).
  assert (Hold : forall y, y ∈ a ++ x :: rest -> older before y = true).
  { intros y Hy. rewrite <- E in Hy. by apply elem_of_filter_bool in Hy as [_ ?]. }
  transitivity (List.filter (fun r => created r <? created x) (left_after q before w)).
  { unfold left_after. induction (matching_jobs q w) as [|y l IH]; [done|]. cbn. unfold older at 1 3, created_before.
    change (j_created_at y.2) with (created y). destruct (Z.ltb_spec (created y) (created x)) as [Hlt|Hge].
    - assert (Hy : match before with Some b => created y <? b | None => true end = true).
      { specialize (Hold x ltac:(apply elem_of_app; right; left)). unfold older, created_before in Hold. destruct before; [|done].
        apply Z.ltb_lt in Hold. apply Z.ltb_lt. unfold created in *. lia. }
      rewrite Hy. cbn. rewrite (proj2 (Z.ltb_lt _ _) Hlt). f_equal. exact IH.
    - destruct (match before with Some b => _ | None => true end); [cbn; rewrite (proj2 (Z.ltb_ge _ _) Hge)|]; exact IH. }
  rewrite E. clear E Hold. rewrite List.filter_app. replace (List.filter _ a) with (@nil (string * Job)).
  - cbn. by rewrite Z.ltb_irrefl.
  - symmetry. induction a as [|y a IH]; [done|]. cbn in Hs. apply StronglySorted_inv in Hs as [Hs Hy]. cbn. rewrite (proj2 (Z.ltb_ge _ _)); [by apply IH|].
    apply newer_created. rewrite Forall_forall in Hy. apply Hy, elem_of_app. right. left.
Qed.

(** What following the cursors yields of the jobs that are left. *)
Lemma walk_rest fuel q limit cursor w :
  (length (left_after q (decode_cursor cursor) w) < fuel)%nat ->
  exists l, walk_jobs clamp_limit fuel q limit cursor w = Some l /\ sublist l (left_after q (decode_cursor cursor) w) /\
    (forall y, y ∈ left_after q (decode_cursor cursor) w -> y ∈ l \/ exists x, x ∈ l /\ created x = created y) /\
    (NoDup (map created (left_after q (decode_cursor cursor) w)) -> l = left_after q (decode_cursor cursor) w).
Proof using All.
  revert cursor. induction fuel as [|fuel IH]; intros cursor Hf; [lia|]. cbn [walk_jobs].
  destruct (job_page_spec q limit cursor w) as (next & -> & Hn). cbn [jp_next_cursor jp_jobs].
  set (rest := left_after q (decode_cursor cursor) w) in *. set (n := Z.to_nat (clamp_limit limit 200)) in *.
  destruct (Nat.ltb_spec n (length rest)) as [Hlt|Hge].
  2:{ destruct Hn as [-> ->]. exists rest. split; [done|]. split; [done|]. split; [by left|done]. }
  destruct Hn as (a & x & Ex & ->).
  assert (E : rest = a ++ x :: drop n rest) by (rewrite <- (take_drop n rest) at 1; by rewrite Ex, <- app_assoc).
  assert (Hleft : left_after q (Some (created x)) w = List.filter (fun r => created r <? created x) (drop n rest)) by (by eapply left_after_page).
  destruct (IH (Some (encode_cursor (created x) x.1))) as (l & Hw & Hsub & Hall & Hdist).
  { rewrite cursor_round, Hleft. pose proof (List.filter_length_le (fun r => created r <? created x) (drop n rest)) as Hle.
    rewrite length_drop in Hle. destruct (clamped limit) as [Hc _]. unfold n in *. lia. }
  rewrite cursor_round, Hleft in *. rewrite Hw. cbn [fmap option_fmap option_map]. eexists. split; [reflexivity|]. rewrite Ex.
  assert (Hs : StronglySorted newer rest) by apply filter_keeps_order, newest_sorted.
  rewrite E in Hs. assert (Hafter : forall y, y ∈ drop n rest -> created y <= created x).
  { intros y Hy. apply newer_created. by eapply sorted_after. }
  split; [|split].
  - rewrite E, <- app_assoc. apply sublist_app; [done|]. cbn. apply sublist_skip. etrans; [exact Hsub|]. clear. induction (drop n rest) as [|y k IHk]; [done|].
    cbn. destruct (created y <? created x); by constructor.
  - intros y Hy. rewrite E in Hy. apply elem_of_app in Hy as [Hy|Hy]; [left; set_solver|]. apply elem_of_cons in Hy as [->|Hy]; [left; set_solver|].
    destruct (Z.ltb_spec (created y) (created x)) as [Hlo|Hhi].
    + destruct (Hall y) as [Hin|(z & Hz & Hzy)]; [by apply elem_of_filter_bool; split; [|apply Z.ltb_lt]|left; set_solver|].
      right. exists z. split; [set_solver|done].
    + right. exists x. split; [set_solver|]. specialize (Hafter y Hy). lia.
  - intros Hd. rewrite E in Hd. rewrite map_app in Hd. apply NoDup_app in Hd as (_ & _ & Hd). cbn in Hd. apply NoDup_cons in Hd as [Hx Hd].
    assert (Hkeep : List.filter (fun r => created r <? created x) (drop n rest) = drop n rest).
    { assert (Hlt' : forall y, y ∈ drop n rest -> created y < created x).
      { intros y Hy. specialize (Hafter y Hy). assert (created y <> created x); [|lia]. intros Heq. apply Hx. rewrite <- Heq. by apply list_elem_of_fmap_2. }
      clear -Hlt'. induction (drop n rest) as [|y k IHk]; [done|]. cbn. rewrite (proj2 (Z.ltb_lt _ _)) by (apply Hlt'; left).
      f_equal. apply IHk. intros z Hz. apply Hlt'. by right. }
    rewrite Hdist by (by rewrite Hkeep). rewrite Hkeep, <- app_assoc. by rewrite E at 2.
Qed.
End walks.

(** ** Lemmas: the attempts of a job *)

Lemma sorted_numbers {A} (key : A -> Z) (l : list A) n :
  map key l = map Z.of_nat (seq n (length l)) ->
  StronglySorted (fun x y => leb_of (cmp_on key Z.compare) x y = true) l /\ NoDup (map key l).
Proof.
  revert n. induction l as [|x l IH]; intros n Hn; [by split; constructor|]. cbn [length seq map] in Hn. injection Hn as Hx Hn.
  destruct (IH (S n) Hn) as [Hs Hd]. assert (Hgt : forall y, y ∈ map key l -> key x < y).
  { rewrite Hn, Hx. intros y (m & -> & Hm)%list_elem_of_fmap. apply elem_of_seq in Hm. lia. }
  split.
  - constructor; [done|]. apply Forall_forall. intros y Hy. unfold leb_of, cmp_on.
    rewrite (proj2 (Z.compare_lt_iff _ _)); [done|]. apply Hgt. by apply list_elem_of_fmap_2.
  - cbn. constructor; [|done]. intros Hin. specialize (Hgt _ Hin). lia.
Qed.

Lemma sorted_already {A} (key : A -> Z) (l : list A) n :
  map key l = map Z.of_nat (seq n (length l)) -> py_sorted (leb_of (cmp_on key Z.compare)) l = l.
Proof.
  intros Hn. destruct (sorted_numbers key l n Hn) as [Hs Hd]. apply (sorted_unique key Z.compare).
  - apply (sorted_by_key key Z.compare).
  - done.
  - apply py_sorted_perm.
  - enough (map key (py_sorted (leb_of (cmp_on key Z.compare)) l) ≡ₚ map key l) as -> by done.
    apply fmap_Permutation, py_sorted_perm.
Qed.

Lemma attempts_of_written job_id now records before (t : Tables) :
  s_attempts (tb_store t) = before ++ map (attempt_row job_id now) records -> unattempted job_id before -> numbered_records records ->
  attempts_of job_id t = map (attempt_row job_id now) records.
Proof.
  intros Ha Hu Hn. unfold attempts_of. rewrite Ha, List.filter_app.
  replace (List.filter _ before) with (@nil AttemptRow).
  2:{ symmetry. clear Ha Hn. induction before as [|r l IH]; [done|]. cbn. rewrite bool_decide_eq_false_2 by (apply Hu; left).
      apply IH. intros x Hx. apply Hu. by right. }
  replace (List.filter _ (map _ records)) with (map (attempt_row job_id now) records).
  2:{ clear. induction records as [|r l IH]; [done|]. cbn. by rewrite bool_decide_eq_true_2, <- IH. }
  apply (sorted_already at_attempt _ 1). cbn [app]. rewrite length_map, List.map_map. exact Hn.
Qed.

(** ** Lemmas: the columns an execution fills *)

(** The value a list of assignments gives to a column. *)
Definition written (name : string) (l : list Assign) : option json :=
  fold_left (fun acc a => match a with SetOther c v => if bool_decide (c = name) then Some v else acc | _ => acc end) l None.

Lemma written_column name l j :
  j_other (assign_all l j) !! name = match written name l with Some v => Some v | None => j_other j !! name end.
Proof.
  unfold written, assign_all. induction l as [|a l IH] using rev_ind; [done|]. rewrite !fold_left_app. cbn.
  destruct a; try exact IH. cbn. case_bool_decide as Hc; [by rewrite Hc, lookup_insert_eq|by rewrite lookup_insert_ne].
Qed.

Lemma other_attempt z j : j_other (assign (SetAttempt z) j) = j_other j.
Proof. reflexivity. Qed.

Lemma other_run profile_id version n j : j_other (set_run profile_id version n j) = j_other j.
Proof. reflexivity. Qed.

Lemma attempt_state z j : j_state (assign (SetAttempt z) j) = j_state j.
Proof. reflexivity. Qed.
Lemma run_state profile_id version n j : j_state (set_run profile_id version n j) = j_state j.
Proof. reflexivity. Qed.
Lemma attempt_model z j : j_selected_model_id (assign (SetAttempt z) j) = j_selected_model_id j.
Proof. reflexivity. Qed.
Lemma run_model profile_id version n j : j_selected_model_id (set_run profile_id version n j) = j_selected_model_id j.
Proof. reflexivity. Qed.
Lemma attempt_gpu z j : j_target_gpu_index (assign (SetAttempt z) j) = j_target_gpu_index j.
Proof. reflexivity. Qed.
Lemma run_gpu profile_id version n j : j_target_gpu_index (set_run profile_id version n j) = j_target_gpu_index j.
Proof. reflexivity. Qed.
Lemma attempt_request z j : j_request_json (assign (SetAttempt z) j) = j_request_json j.
Proof. reflexivity. Qed.
Lemma run_request profile_id version n j : j_request_json (set_run profile_id version n j) = j_request_json j.
Proof. reflexivity. Qed.

Section restated.
Context `{Externals} `{Wire} `{Profiles} `{Classification} `{Rack} `{Prompts} `{TextTools} `{ErrorText}.

Lemma settled_column name v profile o records now j :
  written name (persisted (inl o) now) = Some v -> column name (settled_job profile (inl o) records now j) = v.
Proof.
  intros Hw. unfold column.
  unfold settled_job. rewrite other_attempt, other_run, written_column, Hw. reflexivity.
Qed.

Lemma settled_columns profile o records now j :
  let c name := column name (settled_job profile (inl o) records now j) in
  c "response_text" = JStr (eo_text o) /\ c "structured_output_json" = eo_structured o /\
  c "tool_calls_json" = JArr (map JObj (eo_tool_calls o)) /\
  c "reasoning_available" = JBool (bool_decide (is_Some (eo_thinking o))) /\ c "reasoning_summary" = Subject.jstr_opt (eo_thinking o) /\
  c "input_tokens" = jint_opt (count (u_input_tokens (eo_usage o))) /\ c "output_tokens" = jint_opt (count (u_output_tokens (eo_usage o))) /\
  c "cache_write_tokens" = jint_opt (count (u_cache_write_tokens (eo_usage o))) /\
  c "cache_read_tokens" = jint_opt (count (u_cache_read_tokens (eo_usage o))) /\
  c "thinking_tokens" = jint_opt (count (u_thinking_tokens (eo_usage o))) /\
  c "total_ms" = JInt (eo_total_ms o) /\ c "provider_ms" = JInt (eo_provider_ms o) /\
  c "loadcoach_overhead_ms" = JInt (eo_overhead_ms o) /\ c "ttft_ms" = jint_opt (eo_ttft_ms o) /\
  c "validation_passed" = jbool_or_null (vo_passed (eo_validation o)) /\ c "degradations_json" = JArr (map JStr (eo_degradations o)).
Proof.
  cbv zeta. split_and!; (apply settled_column; vm_compute; reflexivity).
Qed.

Lemma settled_model_columns profile o records now j :
  let c name := column name (settled_job profile (inl o) records now j) in
  let subject := rc_subject (eo_selected o) in
  c "runtime_profile_hash" = JStr (runtime_profile_hash subject) /\ c "served_context" = JInt (sc_tokens (es_served_context subject)) /\
  c "served_context_source" = JStr (sc_source (es_served_context subject)).
Proof. cbv zeta. split_and!; (apply settled_column; vm_compute; reflexivity). Qed.

(** The fields of a settled row that are not among those columns. *)
Lemma settled_fields profile o records now j :
  j_state (settled_job profile (inl o) records now j) = COMPLETED /\
  j_selected_model_id (settled_job profile (inl o) records now j) = Some (mf_model_id (es_facts (rc_subject (eo_selected o)))) /\
  j_target_gpu_index (settled_job profile (inl o) records now j) = rc_target_gpu_index (eo_selected o) /\
  j_request_json (settled_job profile (inl o) records now j) = j_request_json j.
Proof.
  unfold settled_job. rewrite !attempt_state, !attempt_model, !attempt_gpu, !attempt_request. rewrite !run_state, !run_model, !run_gpu, !run_request.
  pose proof (immutable_assign_all (persisted (inl o) now) j) as Hi. unfold immutable in Hi.
  split_and!; [vm_compute; reflexivity..|congruence].
Qed.

(** ** Lemmas: the sections of a document *)

Lemma assoc_agree (ks : list string) (l k : list (string * json)) :
  Forall (fun x => assoc x l = assoc x k) ks -> forall x, x ∈ ks -> assoc x l = assoc x k.
Proof. rewrite Forall_forall. auto. Qed.

Lemma assoc_here {A} k (v : A) l : assoc k ((k, v) :: l) = Some v.
Proof. cbn. by rewrite bool_decide_eq_true_2. Qed.

Lemma assoc_next {A} k k' (v : A) l : k <> k' -> assoc k ((k', v) :: l) = assoc k l.
Proof. intros Hk. cbn. by rewrite bool_decide_eq_false_2. Qed.

Ltac look_up := repeat first [rewrite assoc_here | rewrite assoc_next by discriminate].

Lemma fragments_round (l : list (list (string * json))) :
  omap (fun x => match x with JObj o => Some o | _ => None end) (map JObj l) = l.
Proof. induction l as [|x l IH]; [done|]. cbn. by rewrite IH. Qed.

Lemma or_else_array l : or_else (JArr l) (JArr []) = JArr l.
Proof. by destruct l. Qed.

Lemma or_unsupported_count q : or_unsupported (jint_opt (count q)) = supported_count q.
Proof. unfold supported_count. by destruct (count q). Qed.

Lemma check_rows_round now (a : AttemptRecord) v :
  (forall d, exists l, detail_json d = JObj l) -> ar_validation a = Some v -> map check_row_json (validation_rows a now) = map check_json (vo_checks v).
Proof.
  intros Hd Ha. unfold validation_rows. rewrite Ha, List.map_map. apply List.map_ext. intros c. unfold check_row_json, check_json. cbn.
  by destruct (Hd (vc_detail c)) as [l ->].
Qed.

(** The document of a job whose last write was that of its outcome. *)
Lemma document_of_settled by_id job_id profile o records before last_record now j (t : Tables) l :
  jobs (s_world (tb_store t)) !! job_id = Some (settled_job profile (inl o) records now j) -> j_request_json j = JObj l ->
  s_attempts (tb_store t) = before ++ map (attempt_row job_id now) records -> unattempted job_id before -> numbered_records records ->
  records = eo_attempts o -> last records = Some last_record -> eo_job_id o = job_id ->
  ar_validation last_record = Some (eo_validation o) -> judged_once (eo_validation o) -> ar_finish_reason last_record = Some (eo_finish_reason o) ->
  (forall l, by_id l = l) -> (forall d, exists l, detail_json d = JObj l) ->
  exists doc, job_document by_id job_id t = Ok doc /\
    (forall k, k ∈ ["job_id"; "status"; "output"; "reasoning"; "usage"; "validation"; "degradations"] -> assoc k doc = assoc k (outcome_json o)) /\
    (exists m m', assoc "model" doc = Some (JObj m) /\ assoc "model" (outcome_json o) = Some (JObj m') /\
       forall k, k ∈ ["model_ref"; "runtime_profile_hash"; "served_context"; "served_context_source"; "target_gpu_index"] -> assoc k m = assoc k m') /\
    (exists m m', assoc "timing" doc = Some (JObj m) /\ assoc "timing" (outcome_json o) = Some (JObj m') /\
       forall k, k ∈ ["total_ms"; "provider_ms"; "loadcoach_overhead_ms"; "ttft_ms"] -> assoc k m = assoc k m').
Proof.
  intros Hj Hreq Hat Hu Hn Hrec Hlast Hid Hval Hju Hfin Hby Hdet.
  pose proof (settled_columns profile o records now j) as Hc. pose proof (settled_model_columns profile o records now j) as Hm.
  destruct (settled_fields profile o records now j) as (Hst & Hmid & Hgpu & Hrq).
  cbv zeta in Hc, Hm. set (row := settled_job profile (inl o) records now j) in *. clearbody row.
  destruct Hc as (C1 & C2 & C3 & C4 & C5 & C6 & C7 & C8 & C9 & C10 & C11 & C12 & C13 & C14 & C15 & C16). destruct Hm as (M1 & M2 & M3).
  assert (Hatt : attempts_of job_id t = map (attempt_row job_id now) records) by (by eapply attempts_of_written).
  assert (Hlast' : last (attempts_of job_id t) = Some (attempt_row job_id now last_record)) by (by rewrite Hatt, fmap_last, Hlast).
  unfold job_document, get_job. rewrite Hj, bind_Ok, Hrq, Hreq. cbn [py_get]. rewrite bind_Ok. cbv zeta. rewrite Hlast'.
  eexists. split; [reflexivity|]. split; [|split].
  - apply assoc_agree. rewrite !Forall_cons. unfold outcome_json. split_and!; [look_up..|done].
    + by rewrite Hid.
    + by rewrite Hst.
    + do 2 f_equal. unfold output_document, fragments_of. rewrite C1, C2, C3, or_else_array, fragments_round. cbn. by rewrite Hfin.
    + do 2 f_equal. unfold reasoning_document. rewrite C4, C5. by destruct (eo_thinking o).
    + do 2 f_equal. unfold usage_document. cbn [map]. by rewrite C6, C7, C8, C9, C10, !or_unsupported_count.
    + do 2 f_equal. unfold validation_document. rewrite C15, Hlast'. cbn [at_validations attempt_row].
      rewrite Hby, (check_rows_round now last_record (eo_validation o)) by done. rewrite Hatt, length_map, <- Hrec, Hju.
      by destruct (vo_passed (eo_validation o)).
    + f_equal. by rewrite C16, or_else_array.
  - do 2 eexists. split; [look_up; reflexivity|]. split; [look_up; reflexivity|]. apply assoc_agree. rewrite !Forall_cons. split_and!; [look_up; rewrite ?Hmid, ?Hgpu, ?M1, ?M2, ?M3; reflexivity..|done].
  - do 2 eexists. split; [look_up; reflexivity|]. split; [look_up; reflexivity|]. apply assoc_agree. rewrite !Forall_cons. cbn [map]. split_and!; [look_up; rewrite ?C11, ?C12, ?C13, ?C14; reflexivity..|done].
Qed.
End restated.

(** ** A concrete installation *)

Fixpoint ones (n : nat) : string := match n with O => "" | S n => String "1" (ones n) end.

Lemma length_ones n : String.length (ones n) = n.
Proof. induction n; cbn; congruence. Qed.

Lemma ones_no_bar n : "|"%char ∉ list_ascii_of_string (ones n).
Proof. induction n; cbn; set_solver. Qed.

(** Instants in unary. *)
#[local] Instance sample_cursor : CursorText := {|
  isoformat t := String (if t <? 0 then "-"%char else "+"%char) (ones (Z.to_nat (Z.abs t)));
  fromisoformat s := match s with
                     | String "-"%char s => Some (- Z.of_nat (String.length s))
                     | String "+"%char s => Some (Z.of_nat (String.length s))
                     | _ => None
                     end;
  urlsafe_b64encode s := s;
  urlsafe_b64decode s := Some s |}.

#[local] Instance sample_cursor_laws : CursorTextLaws.
Proof.
  split; [| |done|done].
  - intros t. cbn. destruct (Z.ltb_spec t 0); rewrite length_ones; f_equal; lia.
  - intros t. cbn [isoformat sample_cursor list_ascii_of_string]. pose proof (ones_no_bar (Z.to_nat (Z.abs t))) as Hn.
    destruct (t <? 0); intros [?|?]%elem_of_cons; done.
Qed.

Definition created_at (t : Z) : Job := sample_job QUEUED None None 400 t.

Definition one_a_page (_ : option Z) (_ : Z) : Z := 1.

Definition every_job : JobQuery := mkJobQuery None None None None.

(** Two jobs of one instant on either side of a page's end: the second is on no page. *)
Lemma job_skipped :
  let w := sample_world {["a" := created_at 7; "b" := created_at 7]} in
  map fst <$> walk_jobs one_a_page 5 every_job None None w = Some ["b"].
Proof. vm_compute. reflexivity. Qed.

(** The execution of [Execution.sample_execute], with checks whose detail is an object. *)
#[local] Instance object_prompts : Prompts := {|
  render_lines _ := "problems"; detail_json _ := JObj []; dumps _ := "{}";
  render_corrective_retry p s o := mkPrompt None p "retry" "1" "sha" |}.

Definition sample_documented :=
  @execute sample_externals sample_wire plain_profiles sample_classification sample_rack object_prompts sample_text sample_errors
    "assistant" (fun _ => None) (fun _ => []) sample_generate (@mkContext sample_rack "rack" ∅ None true) "s" None.

Definition sample_tables (s : Execution.Store) : Tables := mkTables s [] [] ∅.

Lemma sample_documented_returns :
  (match (play sample_answers 0 sample_documented sample_state).2 with Done (Ok o) => Some (eo_text o) | _ => None end) = Some "hi".
Proof. vm_compute. reflexivity. Qed.

Module Properties.

(** C40: Listing the jobs page by page ends and repeats nothing. Whatever page size was asked for, a client that follows the cursors of an
    unchanging table from the first page gets a selection of the jobs the filters admit, newest first and each once, and is given
    no further cursor after at most a page a job; a job it does not get was created at the same instant as one it got, and when no
    two of them were created at one instant it gets them all. *)
Theorem listing_complete `{CursorTextLaws} (clamp_limit : option Z -> Z -> Z) (q : JobQuery) (limit : option Z) (w : World) (fuel : nat) :
  (forall limit, 1 <= clamp_limit limit 200 <= 200) -> (length (matching_jobs q w) < fuel)%nat ->
  (forall id j, (id, j) ∈ matching_jobs q w <-> jobs w !! id = Some j /\ job_admits q j = true) /\
  NoDup (map fst (matching_jobs q w)) /\ StronglySorted (fun x y => created y <= created x) (matching_jobs q w) /\
  exists l, walk_jobs clamp_limit fuel q limit None w = Some l /\ sublist l (matching_jobs q w) /\
    (forall y, y ∈ matching_jobs q w -> y ∈ l \/ exists x, x ∈ l /\ created x = created y) /\
    (NoDup (map created (matching_jobs q w)) -> l = matching_jobs q w).
Proof.
  intros Hc Hf. split; [|split; [|split]].
  - intros id j. unfold matching_jobs. rewrite elem_of_py_sorted. apply elem_of_select.
  - unfold matching_jobs. enough (map fst (py_sorted newest_first (select_jobs (fun _ j => job_admits q j) (jobs w)))
      ≡ₚ map fst (select_jobs (fun _ j => job_admits q j) (jobs w))) as -> by apply select_NoDup. apply fmap_Permutation, py_sorted_perm.
  - pose proof (newest_sorted (select_jobs (fun _ j => job_admits q j) (jobs w))) as Hs. fold (matching_jobs q w) in Hs.
    clear Hf. induction Hs as [|x l Hs IH Hx]; [constructor|]. constructor; [done|]. eapply Forall_impl; [exact Hx|]. intros y. apply newer_created.
  - assert (Hall : left_after q None w = matching_jobs q w).
    { clear Hf. unfold left_after. induction (matching_jobs q w) as [|x l IH]; [done|]. cbn. by rewrite IH. }
    rewrite <- Hall in *. exact (walk_rest clamp_limit Hc fuel q limit None w Hf).
Qed.

Lemma listing_complete_witness :
  let w := sample_world {["a" := created_at 1; "b" := created_at 9; "c" := created_at 4]} in
  map fst <$> walk_jobs one_a_page 5 every_job None None w = Some ["b"; "c"; "a"].
Proof.
  intros w. destruct (listing_complete one_a_page every_job None w 5) as (_ & _ & _ & l & Hw & _ & _ & Hall).
  - done.
  - vm_compute. lia.
  - rewrite Hw, Hall; [vm_compute; reflexivity|]. apply (bool_decide_unpack _). vm_compute. exact I.
Defined.


End Properties.
